(* ===== verification/_CoqProject ===== *)
-Q . S2P
Prelude.v
Decimal.v
Double.v
DoubleSign.v
Stats.v
LogFmt.v
Runtime.v
ProcMaps.v
Mprotect.v
Softdirty.v
Writelog.v
Recover.v
RecoverySystem.v
WindowProf.v
LogParse.v
LogReader.v
LogIntegration.v
Edfi.v
EdfiRand.v
EdfiCtl.v
EdfiInit.v
StatFile.v
ExecCounts.v
Bitmap.v
BitmapTree.v
BitmapByte.v
Mechanism.v
Helper.v
LogInfo.v
MapFile.v
FixPath.v
Module.v
Function.v
LineCounter.v
Coverage.v
CoverageStats.v
FaultPicker.v
FaultSpec.v
TestLog.v
TestStats.v
TestAccounts.v
TestTally.v
TestSafety.v
TestPicker.v
TestPlan.v
KeyOrder.v
Groups.v
Significance.v
Aggregate.v
GoldenRuns.v
Analysis.v
Compare.v
Report.v
SerialAnalyze.v
PathList.v
ModuleLine.v
MapPrint.v
RunTables.v
TestTable.v
