(* ===== verification/Prelude.v ===== *)
(** * OSIRIS: a verification library for the recovery runtime and its tools

    OSIRIS makes the servers of a multiserver operating system recoverable.  A
    compiler pass instruments every memory write of a server with hooks of a
    checkpointing runtime; a server takes a checkpoint at the top of its message
    loop, and a recovery window stays open until it does something that other
    processes can see.  When it crashes inside the window, the clone that
    replaces it rolls the memory back and answers the request with an error;
    otherwise the system is shut down.  Faults are injected with EDFI, whose
    decisions and statistics run inside the server; recovery and fault injection
    leave messages in a log, and a set of tools reads logs and statistics.

    The library has one file per component:

    - [Prelude]: outcomes of C code ([res], [fault]), machine integers, bytes and
      memory, instrumented writes ([op]), tactics and hint databases.
    - [Decimal], [LogFmt]: decimal text; the message formatter [hypermem_cat],
      [hypermem_cat_num], [hypermem_log] of [static/ltckpt/ltckpt_recover.c].
    - [Runtime]: what the mechanisms share: the context and its macros
      ([ltckpt_ctx.c], [ltckpt_ctx.h]), window variables ([ltckpt_recover.h]),
      mechanism table, initialisation, restart and the mmap wrapper
      ([ltckpt_common.c], [ltckpt_mechanism.h]).
    - [Writelog]: the undo log [mechanisms/ltckpt_writelog.c], byte for byte in
      the process's memory: logging hooks, checkpoint, restart.
    - [Bitmap], [BitmapTree], [BitmapByte]: the dirty bitmaps with shadow space
      [mechanisms/bitmap/]: flat, as a tree of marks, and with protected pages.
    - [Recover]: recovery windows, policy hooks, deterministic fault injection
      and the recovery dispatcher of [ltckpt_recover.c], as actions on the
      globals with the effects other processes see.
    - [RecoverySystem]: a server as the composition of [Recover] and [Writelog],
      with a step relation of hook events and its reachable states.
    - [LogParse], [LogReader]: the log reader [hypermemloganalyze/common/logparse.c]:
      events, handlers, pattern table, matching, and the file reader.
    - [LogIntegration]: the messages of the runtime through the log reader.
    - [Edfi]: the EDFI decision runtime [static/edfi/df/edfi_df.c].
    - [StatFile]: the statistics file: its writer in [edfi_df.c], its reader
      [printedfistats/edfistatsparse.c] and the table of [printedfistats.c].
    - [ExecCounts]: execution counts from [edfi_print_hypermemlike_stats] over a
      log to the lists of [hypermemloganalyze/common/logexeccounts.c].
    - [Helper]: strings, times and the checked allocator with its pointer table
      [hypermemloganalyze/common/helper.c].
    - [MapFile]: map files of instrumented programs: the writer of the pass
      [passes/edfi/MapFile.cpp] and the reader [tools/mapprint/mapparse.c].
    - [FixPath], [Module]: modules loaded from map files [common/module.c], with
      the normalisation of source paths.
    - [Function]: the table of the functions of all modules [common/function.c].
    - [LineCounter], [Coverage], [CoverageStats]: execution counts added up per
      block over the modules and runs, and their statistics [common/coverage.c].
    - [FaultPicker], [FaultSpec]: choosing the faults of an experiment [faultpicker/],
      the lines it prints and their reader in [testpicker/].
    - [TestLog]: summaries of test runs from their logs
      [common/minixtestlogsummarize.c].
    - [ProcMaps]: memory maps of a process [include/common/util/proc_maps.h].
    - [Mprotect], [Softdirty]: the mechanisms that copy pages, on write faults
      [mechanisms/mprotect/] or from the kernel's soft-dirty marks
      [mechanisms/ltckpt_softdirty.c], [include/common/util/pagemap.h].
    - [Mechanism]: the hook interface [ltckpt_mechanism.h] as a class with the laws
      recovery relies on; undo log, bitmap and page protection are instances, and
      the theorem is stated of the three.
    - [WindowProf]: the profile of recovery windows [ltckpt_aop.c].
    - [Double], [DoubleSign], [Stats]: double-precision arithmetic and the signs of its
      results, and samples with their means, deviations and percentiles
      [common/minixteststats.c].
    - [TestStats]: statistics over the summaries of runs, and their classification
      [common/minixteststats.c]; [TestAccounts], [TestTally] and [TestSafety] have
      the theorems on executions, on tests and runs, and on array sizes.
    - [TestPicker], [TestPlan]: choosing the tests for every fault of an experiment
      and printing the plans of its runs [testpicker/testpicker.c].
    - [EdfiRand], [EdfiCtl], [EdfiInit]: control of fault injection: random decisions
      and clock, the command line [edfictl.c] with its clients and the server thread,
      and start-up [static/edfi/platform/].
    - [LogInfo]: what the log analysis keeps of a log, per step and module
      [hypermemloganalyze/loginfo.c].
    - [KeyOrder], [Groups], [Aggregate]: statistics of an experiment by key, system and
      workload [hypermemloganalyze/hypermemloganalyze.c]: the order of keys, the lists of
      groups, and the counters with the keys of a run.
    - [GoldenRuns]: the table of all runs and the comparison with runs without faults.
    - [Analysis]: the processing of all logs, which adds them to the groups and compares
      them with the runs without faults.
    - [Significance], [Compare], [Report]: sums, Z-scores and p-values
      [hypermemloganalyze/stats.c], the chi-square comparison of the counts of two groups
      and the t-tests of their times, and which groups the reports compare.
    - [SerialAnalyze]: times of repeated runs from serial logs
      [serialanalyze/serialanalyze.c].
    - [PathList], [RunTables], [TestTable]: the tables over many runs
      [minixtestloganalyze/]: paths and directories, rows of runs with their
      recoveries, classes of runs, and tests by module and path.
    - [ModuleLine]: the source lines of modules [common/module-line.c].
    - [MapPrint]: the printer of map files [tools/mapprint/mapprint.c].

    How code becomes definitions.  A function that may stop the process (failed
    assertion, null pointer, access outside an object, signed overflow, division
    by zero, [exit]) returns [res]; the state it changes is passed explicitly as
    a record of the globals.  Integers are [Z] with the width written out.  The
    kernel, SEF, the clock, random numbers and other code outside the repository
    are arguments (records such as [renv] and [env], the class [platform]), and
    what is relied on is a named hypothesis or class ([env_ok], [platform_ok]).
    Console output of the runtime is not modelled; log output is.

    What the theorems show.
    - Rollback: after a checkpoint and any instrumented writes the undo log
      restores every restorable byte ([Writelog.rollback_restores_checkpoint]),
      the bitmap keeps every byte ([Bitmap.bitmap_preserves_checkpoint]); a full
      log demands a fail-stop.
    - Recovery: what the dispatcher may do with a demanded fail-stop and how the
      requester learns of the crash ([Recover.dispatcher_safety], which names the
      builds and the requests dropped in silence); in every reachable state the
      window is open exactly when no fail-stop is demanded
      ([RecoverySystem.reachable_window]); in the default mode and outside the
      shortcut for fault injection requests, recovery without an abort happens iff
      the window is open ([RecoverySystem.recovery_iff_window_open]), and then the
      state is the checkpoint's, when the hooks cover the writes
      ([RecoverySystem.recovered_request_is_consistent]).
    - Logs: every line the dispatcher writes is understood by the reader, which
      delivers a log line by line ([LogReader.log_file_lines]); it reads any file to
      its end or stops at a line in one of four ways ([LogReader.log_file_faults]),
      one of them the store through the buffer that is still null when the first
      line is empty.
    - Fault injection: when a decision point injects, what commands do, what the
      wrappers pass on; statistics add up over runs and through the log.
    - Map files: what the pass writes the tools read back ([MapFile.mapfile_roundtrip],
      [Module.load_from_map]); blocks of shared functions get one number
      ([Function.global_block_numbers]); counts of runs add up per block
      ([Coverage.coverage_adds_up]); the picker selects executed faults, in
      proportion to their candidates, and names them so that they are found
      again by the test picker ([FaultPicker.picker_selects],
      [FaultSpec.faultfile_roundtrip]).
    - Test runs: no log fails an assertion of the summariser, and the summary of a
      complete run has its tests with the blocks executed during each
      ([TestLog.summary_well_formed], [TestLog.run_summarised]).
    - Mechanisms: page protection copies each written page once and recovers the
      checkpoint ([Mprotect.mprotect_preserves_checkpoint]), soft-dirty saves the
      written pages, and undo log, bitmap and page protection refine a store with a
      saved copy ([Mechanism.mechanisms_refine_store]); the window profile stays
      consistent ([WindowProf.window_profile_consistent]).
    - Statistics: the phases of the runs account for every execution of every block
      ([TestAccounts.phases_account_for_runs]), every planned test is counted once
      ([TestTally.planned_tests_counted]), outcomes are counted
      ([TestTally.runs_classified]), arrays keep their sizes
      ([TestSafety.statistics_well_formed]); minimum, maximum
      and median are those of the sample in whatever order values are added and asked
      for ([Stats.order_statistics]).
    - Choosing tests: the selection ends and leaves no time unused
      ([TestPicker.selection_complete]), every pair of a usable fault and a test
      that runs it and is not excluded gets its line with [-o] ([TestPlan.one_test_lines]), and a printed line is read back as
      the plan it is ([TestPlan.printed_line_is_plan]).
    - Control of injection: a command line reaches the runtime as it was meant
      ([EdfiCtl.command_line_reaches_runtime]), the probability of faults is exact
      over a period of the generator ([EdfiRand.unix_probability_exact]), and start-up
      waits for its requests ([EdfiInit.startup_serves_requests]).
    - Experiments: a log is kept as its events say ([LogInfo.log_info_of_calls]); every
      group has exactly the runs of its key and test ([Analysis.groups_are_parts]) and
      counts each once ([Aggregate.every_run_counted]); keys are totally ordered
      ([KeyOrder.keys_totally_ordered]); comparisons of counts never stop the
      reports, and those of times only with a t-test that is not a number or sums of
      squares out of order ([Report.reports_complete]).
    - Tables: totals of recoveries are sums of what is shown
      ([RunTables.recovery_totals]), cells of the table of classes count runs, lists of
      paths, lines and call sites are complete and sorted, fields are under their titles;
      the rows of a map file are its blocks; times are read as they were printed and
      added up by run.
    - Defects: theorems of kind "error" state what the code does in the places
      where it does not do what it means to.

    Fuel.  Loops that are not structural take fuel computed from their input
    (bytes left, log entries, list length); running out is the fault [FFuel],
    and the theorems show that it does not occur: they state results or name
    every fault that can occur.

    Not modelled: the compiler passes (C++ against LLVM), the checkpointing
    mechanisms whose work is done by the kernel or a module outside the repository
    (fork, smmap, dune), start-up code in assembly, the interception of library
    calls, and the tools whose work is printing reports or graphs.  They are pure
    I/O or depend on code that is not in the repository. *)

From Stdlib Require Import ZArith Lia.
From stdpp Require Import base list numbers strings.

#[global] Open Scope Z_scope.

(** ** Outcomes of C code

    A C function of the program either returns or stops the process.  The
    ways of stopping are kept apart, because the theorems about error paths
    distinguish them. *)

Inductive fault :=
| FAssert            (** [assert], [lt_assert] or [lt_panic] failed *)
| FNull              (** a null pointer (or null function pointer) is used *)
| FBounds            (** an access outside the object it is meant for *)
| FOverflow          (** a signed integer operation overflows *)
| FDivZero           (** division or remainder by zero *)
| FExit (code : Z)   (** [exit (code)] *)
| FFuel.             (** the model's fuel ran out: excluded by the theorems *)

Inductive res (A : Type) :=
| Ret (x : A)
| Stop (f : fault).
Arguments Ret {A} _.
Arguments Stop {A} _.

#[global] Instance fault_eq_dec : EqDecision fault.
Proof. solve_decision. Defined.

#[global] Instance res_eq_dec {A} `{EqDecision A} : EqDecision (res A).
Proof. solve_decision. Defined.

Definition res_bind {A B} (m : res A) (k : A → res B) : res B :=
  match m with Ret x => k x | Stop f => Stop f end.

Declare Scope osiris_scope.
Delimit Scope osiris_scope with osiris.
#[global] Open Scope osiris_scope.

Notation "'let!' x ':=' m 'in' k" := (res_bind m (λ x, k))
  (at level 10, x binder, m at level 200, k at level 200) : osiris_scope.
Notation "'assert!' b 'in' k" := (if b then k else Stop FAssert)
  (at level 10, b at level 100, k at level 200) : osiris_scope.

Definition is_ret {A} (m : res A) : bool :=
  match m with Ret _ => true | Stop _ => false end.

(** The value of a computation that returns. *)
Definition ret_or {A} (d : A) (m : res A) : A :=
  match m with Ret x => x | Stop _ => d end.

Lemma is_ret_or {A} (d : A) (m : res A) : is_ret m = true → m = Ret (ret_or d m).
Proof. by destruct m. Qed.

Lemma res_bind_Ret {A B} (x : A) (k : A → res B) : res_bind (Ret x) k = k x.
Proof. done. Qed.

Lemma res_bind_inv {A B} (m : res A) (k : A → res B) y :
  res_bind m k = Ret y → ∃ x, m = Ret x ∧ k x = Ret y.
Proof. destruct m; simpl; [eauto | done]. Qed.

Lemma res_bind_assoc {A B C} (m : res A) (f : A → res B) (g : B → res C) :
  res_bind (res_bind m f) g = res_bind m (λ x, res_bind (f x) g).
Proof. by destruct m. Qed.

(** Iteration of a fallible step over a list. *)
Fixpoint res_foldl {A B} (f : A → B → res A) (a : A) (l : list B) : res A :=
  match l with
  | [] => Ret a
  | b :: l' => let! a' := f a b in res_foldl f a' l'
  end.

Lemma res_foldl_app {A B} (f : A → B → res A) a l1 l2 :
  res_foldl f a (l1 ++ l2) = (let! a' := res_foldl f a l1 in res_foldl f a' l2).
Proof.
  revert a. induction l1 as [|b l1 IH]; intros a; simpl; [done|].
  destruct (f a b); simpl; auto.
Qed.

(** An invariant of the step is an invariant of the iteration. *)
Lemma res_foldl_inv {A B} (P : A → Prop) (f : A → B → res A) l a a' :
  (∀ x b y, P x → f x b = Ret y → P y) →
  P a → res_foldl f a l = Ret a' → P a'.
Proof.
  intros Hf. revert a. induction l as [|b l IH]; intros a Ha H; simpl in H.
  - by injection H as <-.
  - apply res_bind_inv in H as (x & Hx & H). eauto.
Qed.

(** ** Machine integers: values are [Z], the width is applied by these. *)

Definition u8 (z : Z) : Z := z `mod` 2^8.
Definition u32 (z : Z) : Z := z `mod` 2^32.
Definition u64 (z : Z) : Z := z `mod` 2^64.
Definition signed (w z : Z) : Z :=
  let r := z `mod` 2^w in if r <? 2^(w-1) then r else r - 2^w.
Definition s32 (z : Z) : Z := signed 32 z.
Definition s64 (z : Z) : Z := signed 64 z.

Lemma u8_range z : 0 ≤ u8 z < 256.
Proof. apply Z.mod_pos_bound. lia. Qed.
Lemma u32_range z : 0 ≤ u32 z < 2^32.
Proof. apply Z.mod_pos_bound. lia. Qed.
Lemma u64_range z : 0 ≤ u64 z < 2^64.
Proof. apply Z.mod_pos_bound. lia. Qed.
Lemma u8_small z : 0 ≤ z < 256 → u8 z = z.
Proof. intros. apply Z.mod_small. lia. Qed.
Lemma u32_small z : 0 ≤ z < 2^32 → u32 z = z.
Proof. intros. apply Z.mod_small. lia. Qed.
Lemma u64_small z : 0 ≤ z < 2^64 → u64 z = z.
Proof. intros. apply Z.mod_small. lia. Qed.
Lemma s64_small z : -2^63 ≤ z < 2^63 → s64 z = z.
Proof.
  intros. unfold s64, signed. simpl Z.sub.
  destruct (decide (0 ≤ z)).
  - rewrite Z.mod_small by lia. case_match; lia.
  - replace (z `mod` 2^64) with (z + 2^64) by (rewrite <- (Z.mod_add _ 1), Z.mod_small; lia).
    case_match; lia.
Qed.
Lemma s32_small z : -2^31 ≤ z < 2^31 → s32 z = z.
Proof.
  intros. unfold s32, signed. simpl Z.sub.
  destruct (decide (0 ≤ z)).
  - rewrite Z.mod_small by lia. case_match; lia.
  - replace (z `mod` 2^32) with (z + 2^32) by (rewrite <- (Z.mod_add _ 1), Z.mod_small; lia).
    case_match; lia.
Qed.

(** The result of a signed 32-bit operation, which must not overflow. *)
Definition chk32 (z : Z) : res Z :=
  if (-2^31 <=? z) && (z <? 2^31) then Ret z else Stop FOverflow.

Lemma chk32_ok z : -2^31 ≤ z < 2^31 → chk32 z = Ret z.
Proof.
  intros H. unfold chk32.
  destruct (Z.leb_spec (-2^31) z); [|lia]. by destruct (Z.ltb_spec z (2^31)); [|lia].
Qed.

Lemma chk32_stop z f : chk32 z = Stop f → f = FOverflow.
Proof. unfold chk32. by destruct (_ && _); intros [=]. Qed.

Lemma chk32_inv z v : chk32 z = Ret v → v = z ∧ -2^31 ≤ z < 2^31.
Proof.
  unfold chk32. destruct (Z.leb_spec (-2^31) z), (Z.ltb_spec z (2^31)); simpl; try done.
  intros [= <-]. done.
Qed.

(** Clearing the low [k] bits, the [x & ~(2^k - 1)] of the sources. *)
Definition align_down (k x : Z) : Z := Z.land x (Z.lnot (2^k - 1)).

Lemma align_down_eq k x : 0 ≤ k → align_down k x = x - x `mod` 2^k.
Proof.
  intros Hk. unfold align_down.
  replace (2^k - 1) with (Z.ones k) by (rewrite Z.ones_equiv; lia).
  rewrite <- Z.ldiff_land, Z.ldiff_ones_r by lia.
  rewrite Z.shiftl_mul_pow2, Z.shiftr_div_pow2 by lia.
  pose proof (Z.div_mod x (2^k)). lia.
Qed.

Lemma align_down_8 x : align_down 3 x = x - x `mod` 8.
Proof. by rewrite align_down_eq. Qed.
Lemma align_down_4 x : align_down 2 x = x - x `mod` 4.
Proof. by rewrite align_down_eq. Qed.

Create HintDb osiris discriminated.
#[export] Hint Resolve u8_range u32_range u64_range : osiris.
Create Rewrite HintDb osiris_rw.
#[export] Hint Rewrite align_down_8 align_down_4 : osiris_rw.

(** ** Byte-addressed memory *)

Definition mem := Z → Z.

Definition mem_set (m : mem) (a v : Z) : mem := λ x, if x =? a then v else m x.

Fixpoint store_bytes (m : mem) (a : Z) (bs : list Z) : mem :=
  match bs with
  | [] => m
  | b :: bs' => store_bytes (mem_set m a b) (a + 1) bs'
  end.

Fixpoint load_bytes (m : mem) (a : Z) (n : nat) : list Z :=
  match n with
  | O => []
  | S n' => m a :: load_bytes m (a + 1) n'
  end.

(** [memcpy] between two address spaces: [n] bytes of [src] at [a] into
    [dst] at [b]. *)
Definition mem_copy (src : mem) (a : Z) (dst : mem) (b : Z) (n : nat) : mem :=
  store_bytes dst b (load_bytes src a n).

Lemma store_bytes_out m a bs x :
  x < a ∨ a + Z.of_nat (length bs) ≤ x → store_bytes m a bs x = m x.
Proof.
  revert m a. induction bs as [|b bs IH]; intros m a Hx; simpl in *; [done|].
  rewrite IH by lia. unfold mem_set. by destruct (Z.eqb_spec x a); [lia|].
Qed.

Lemma store_bytes_in m a bs i b :
  bs !! i = Some b → store_bytes m a bs (a + Z.of_nat i) = b.
Proof.
  revert m a i. induction bs as [|b' bs IH]; intros m a i Hi; [done|].
  destruct i as [|i].
  - injection Hi as ->. simpl store_bytes. rewrite store_bytes_out by lia.
    unfold mem_set. by destruct (Z.eqb_spec (a + Z.of_nat 0) a); [|lia].
  - rewrite <- (IH (mem_set m a b') (a + 1) i Hi). simpl store_bytes. f_equal. lia.
Qed.

(** A store acts on every byte separately. *)
Lemma store_bytes_ext m m' a bs x : m x = m' x → store_bytes m a bs x = store_bytes m' a bs x.
Proof.
  revert m m' a. induction bs as [|b bs IH]; intros m m' a H; simpl; [done|].
  apply IH. unfold mem_set. by destruct (x =? a).
Qed.

Lemma length_load_bytes m a n : length (load_bytes m a n) = n.
Proof. revert a. induction n; intros; simpl; auto. Qed.

Lemma load_bytes_lookup m a n i :
  (i < n)%nat → load_bytes m a n !! i = Some (m (a + Z.of_nat i)).
Proof.
  revert a i. induction n as [|n IH]; intros a i Hi; [lia|].
  destruct i as [|i]; simpl.
  - do 2 f_equal. lia.
  - rewrite IH by lia. do 2 f_equal. lia.
Qed.

Lemma load_bytes_ext m m' a n :
  (∀ x, a ≤ x < a + Z.of_nat n → m x = m' x) → load_bytes m a n = load_bytes m' a n.
Proof.
  revert a. induction n as [|n IH]; intros a H; simpl; [done|].
  f_equal; [apply H; lia | apply IH; intros; apply H; lia].
Qed.

Lemma load_store_same m a bs : load_bytes (store_bytes m a bs) a (length bs) = bs.
Proof.
  apply list_eq. intros i. destruct (decide (i < length bs)%nat) as [Hi|Hi].
  - rewrite load_bytes_lookup by done.
    destruct (lookup_lt_is_Some_2 _ _ Hi) as [b Hb].
    by rewrite (store_bytes_in _ _ _ _ _ Hb), Hb.
  - rewrite !lookup_ge_None_2; rewrite ?length_load_bytes; try done; lia.
Qed.

Lemma load_store_out m a bs b n :
  b + Z.of_nat n ≤ a ∨ a + Z.of_nat (length bs) ≤ b →
  load_bytes (store_bytes m a bs) b n = load_bytes m b n.
Proof. intros H. apply load_bytes_ext. intros. apply store_bytes_out. lia. Qed.

(** Copying bytes gives the destination the source's bytes in the range. *)
Lemma mem_copy_in src a dst b n x :
  b ≤ x < b + Z.of_nat n → mem_copy src a dst b n x = src (a + (x - b)).
Proof.
  intros Hx. unfold mem_copy.
  assert (Hl : load_bytes src a n !! Z.to_nat (x - b) = Some (src (a + (x - b)))).
  { rewrite load_bytes_lookup by lia. do 2 f_equal. lia. }
  apply (store_bytes_in dst b) in Hl. rewrite <- Hl. f_equal. lia.
Qed.

Lemma mem_copy_out src a dst b n x :
  x < b ∨ b + Z.of_nat n ≤ x → mem_copy src a dst b n x = dst x.
Proof. intros. unfold mem_copy. apply store_bytes_out. rewrite length_load_bytes. lia. Qed.

(** Little-endian words. *)
Fixpoint le_split (n : nat) (z : Z) : list Z :=
  match n with
  | O => []
  | S n' => z `mod` 256 :: le_split n' (z / 256)
  end.

Fixpoint le_join (bs : list Z) : Z :=
  match bs with
  | [] => 0
  | b :: bs' => b + 256 * le_join bs'
  end.

Lemma length_le_split n z : length (le_split n z) = n.
Proof. revert z. induction n; intros; simpl; auto. Qed.

Lemma le_join_split n z : le_join (le_split n z) = z `mod` 256 ^ Z.of_nat n.
Proof.
  revert z. induction n as [|n IH]; intros z.
  { simpl. by rewrite Z.mod_1_r. }
  simpl le_split. simpl le_join. rewrite IH, Nat2Z.inj_succ, Z.pow_succ_r by lia.
  rewrite Z.rem_mul_r by lia. done.
Qed.

Lemma le_join_split_small n z :
  0 ≤ z < 256 ^ Z.of_nat n → le_join (le_split n z) = z.
Proof. intros. rewrite le_join_split. by apply Z.mod_small. Qed.

(** ** The instrumented program

    The compiler pass calls the store hook of the checkpointing mechanism before
    every store and its memcpy hook before every block write. *)

Inductive op :=
| OStore (addr : Z) (bytes : list Z)
| OMemcpy (addr : Z) (bytes : list Z).

Definition op_addr (o : op) : Z := match o with OStore a _ | OMemcpy a _ => a end.
Definition op_bytes (o : op) : list Z := match o with OStore _ b | OMemcpy _ b => b end.
Definition op_size (o : op) : Z := Z.of_nat (length (op_bytes o)).

(** The program without instrumentation. *)
Definition plain_run (m : mem) (os : list op) : mem :=
  foldl (λ m o, store_bytes m (op_addr o) (op_bytes o)) m os.

Lemma plain_run_ext os m m' x : m x = m' x → plain_run m os x = plain_run m' os x.
Proof.
  revert m m'. induction os as [|o os IH]; intros m m' H; [done|]. cbn [plain_run foldl].
  apply IH. by apply store_bytes_ext.
Qed.

(** Equality of [unsigned long long] values, for sums that may wrap around. *)
Definition eq64 (a b : Z) : Prop := ∃ q, a = b + q * 2^64.

Lemma eq64_refl a : eq64 a a.
Proof. exists 0. lia. Qed.
Lemma eq64_u64 a : eq64 (u64 a) a.
Proof. exists (- (a / 2^64)). unfold u64. pose proof (Z.div_mod a (2^64)). lia. Qed.
Lemma eq64_add a b c d : eq64 a b → eq64 c d → eq64 (a + c) (b + d).
Proof. intros [q ->] [q' ->]. exists (q + q'). lia. Qed.
Lemma eq64_trans a b c : eq64 a b → eq64 b c → eq64 a c.
Proof. intros [q ->] [q' ->]. exists (q + q'). lia. Qed.
Lemma eq64_sym a b : eq64 a b → eq64 b a.
Proof. intros [q ->]. exists (- q). lia. Qed.
Lemma eq64_range a b : eq64 a b → 0 ≤ a < 2^64 → 0 ≤ b < 2^64 → a = b.
Proof. intros [q ->] H1 H2. assert (q = 0) by lia. subst. lia. Qed.
#[export] Hint Resolve eq64_refl eq64_u64 : osiris.

#[global] Instance eq64_equivalence : Equivalence eq64.
Proof. split; [exact eq64_refl|exact eq64_sym|exact eq64_trans]. Qed.
#[global] Instance eq64_add_proper : Proper (eq64 ==> eq64 ==> eq64) Z.add.
Proof. intros a b H c d H'. by apply eq64_add. Qed.
#[global] Instance eq64_sub_proper : Proper (eq64 ==> eq64 ==> eq64) Z.sub.
Proof. intros a b [q ->] c d [q' ->]. exists (q - q'). lia. Qed.

(** The only fault is the overflow of a signed integer. *)
Definition safe {A} (m : res A) (P : A → Prop) : Prop := match m with Ret x => P x | Stop f => f = FOverflow end.

Lemma safe_bind {A B} (m : res A) (k : A → res B) P Q : safe m P → (∀ x, P x → safe (k x) Q) → safe (res_bind m k) Q.
Proof. destruct m; cbn; auto. Qed.
Lemma safe_mono {A} (m : res A) (P Q : A → Prop) : safe m P → (∀ x, P x → Q x) → safe m Q.
Proof. destruct m; cbn; auto. Qed.
Lemma safe_foldl {A B} (f : A → B → res A) (P : A → Prop) l a :
  P a → (∀ a x, x ∈ l → P a → safe (f a x) P) → safe (res_foldl f a l) P.
Proof.
  revert a. induction l as [|x l IH]; intros a Ha Hf; [done|]. cbn [res_foldl]. apply (safe_bind _ _ P).
  - apply Hf; [by left|done].
  - intros b Hb. apply IH; [done|]. intros c y Hy. apply Hf. by right.
Qed.

(** [m] returns what satisfies [P], or stops in one of the [allowed] ways. *)
Definition ends {A} (allowed : fault → Prop) (m : res A) (P : A → Prop) : Prop := match m with Ret x => P x | Stop f => allowed f end.

Lemma ends_bind {A B} allowed (m : res A) (k : A → res B) P Q : ends allowed m P → (∀ x, P x → ends allowed (k x) Q) → ends allowed (res_bind m k) Q.
Proof. destruct m; cbn; auto. Qed.
Lemma ends_mono {A} (allowed allowed' : fault → Prop) (m : res A) (P Q : A → Prop) :
  ends allowed m P → (∀ f, allowed f → allowed' f) → (∀ x, P x → Q x) → ends allowed' m Q.
Proof. destruct m; cbn; auto. Qed.
Lemma ends_foldl {A B} allowed (f : A → B → res A) (P : A → Prop) l a :
  P a → (∀ a b, b ∈ l → P a → ends allowed (f a b) P) → ends allowed (res_foldl f a l) P.
Proof.
  revert a. induction l as [|x l IH]; intros a Ha Hf; [done|]. cbn [res_foldl]. apply (ends_bind _ _ _ P).
  - by apply Hf; [left|].
  - intros a' Ha'. apply IH; [done|]. intros. apply Hf; [by right|done].
Qed.
Lemma safe_ends {A} (allowed : fault → Prop) (m : res A) (P : A → Prop) : allowed FOverflow → safe m P → ends allowed m P.
Proof. destruct m; cbn; [done|]. by intros ? ->. Qed.

Lemma safe_chk32 z : safe (chk32 z) (λ v, v = z).
Proof. unfold chk32. by destruct (_ && _). Qed.

(** The results of a function on the elements of a list, in their order. *)
Fixpoint collect {A B} (f : A → res B) (l : list A) : res (list B) :=
  match l with [] => Ret [] | x :: l' => let! y := f x in let! ys := collect f l' in Ret (y :: ys) end.

Lemma collect_length {A B} (f : A → res B) l ys : collect f l = Ret ys → length ys = length l.
Proof.
  revert ys. induction l as [|x l IH]; intros ys; cbn [collect]; [by intros [= <-]|]. intros (y & _ & H)%res_bind_inv.
  apply res_bind_inv in H as (ys' & H & [= <-]). cbn. by rewrite (IH ys' H).
Qed.

(** [struct timeval] of the C library. *)
Record timeval := { tv_sec : Z; tv_usec : Z }.

(** ** Tactics *)

(** Split conjunctions and existentials of the context, invert [Ret]s and
    binds, and substitute. *)
Ltac res_inv :=
  repeat match goal with
  | H : res_bind _ _ = Ret _ |- _ => apply res_bind_inv in H as (? & ? & ?)
  | H : Ret _ = Ret _ |- _ => injection H as H
  | H : Stop _ = Ret _ |- _ => discriminate H
  | H : Ret _ = Stop _ |- _ => discriminate H
  | H : context [if ?b then _ else _] |- _ =>
      match type of H with
      | _ = Ret _ => destruct b eqn:?
      end
  end; subst.

(** Boolean comparisons of [Z] to propositions, then linear arithmetic. *)
Ltac zb := rewrite ?andb_true_iff, ?orb_true_iff, ?negb_true_iff, ?andb_false_iff,
             ?orb_false_iff, ?negb_false_iff, ?Z.ltb_lt, ?Z.leb_le, ?Z.eqb_eq,
             ?Z.ltb_ge, ?Z.leb_gt, ?Z.eqb_neq in *; try lia.
