(* ===== verification/Decimal.v ===== *)
(** * Decimal text

    Printing and reading of unsigned decimal numbers, shared by the formatters
    of the runtime ([hypermem_cat_num], [lt_n2d], the [%lu] of the statistics
    printer) and by the log readers ([read_digit], [pattern_match],
    [read_execcounts_from_string_internal], [parse_ipc_callsites]).  The
    formatters write digits backwards into a buffer; the readers accumulate
    [10 * value + digit]. *)

From Stdlib Require Import ZArith Lia Ascii String.
From stdpp Require Import base list numbers strings.
From S2P Require Import Prelude.

#[global] Arguments String.append !_ _ / : simpl nomatch.

(** [c >= '0' && c <= '9'] and [c - '0']. *)
Definition is_digit (c : ascii) : bool :=
  (48 <=? Z.of_N (N_of_ascii c)) && (Z.of_N (N_of_ascii c) <=? 57).
Definition digit_val (c : ascii) : Z := Z.of_N (N_of_ascii c) - 48.
Definition digit_char (d : Z) : ascii := ascii_of_N (Z.to_N (48 + d)).

(** The backwards [do ... while (n > 0)] digit loop, in base [base]. *)
Fixpoint digits_loop (fuel : nat) (base : Z) (dc : Z → ascii) (n : Z) (acc : string) : string :=
  match fuel with
  | O => acc
  | S fuel' =>
      let acc' := String (dc (n `mod` base)) acc in
      if n / base >? 0 then digits_loop fuel' base dc (n / base) acc' else acc'
  end.

(** Enough fuel: one step per binary digit at most. *)
Definition digits_fuel (n : Z) : nat := S (Z.to_nat (Z.log2 n)).

Definition print_dec (n : Z) : string := digits_loop (digits_fuel n) 10 digit_char n EmptyString.

(** Reading: accumulate digits while there are any. *)
Fixpoint read_dec (v : Z) (s : string) : Z * string :=
  match s with
  | String c s' => if is_digit c then read_dec (v * 10 + digit_val c) s' else (v, s)
  | EmptyString => (v, s)
  end.

Definition starts_with_digit (s : string) : bool :=
  match s with String c _ => is_digit c | EmptyString => false end.

(** All characters satisfy a predicate. *)
Fixpoint string_forall (p : ascii → bool) (s : string) : bool :=
  match s with EmptyString => true | String c s' => p c && string_forall p s' end.

Lemma string_forall_app p s t :
  string_forall p (s +:+ t) = string_forall p s && string_forall p t.
Proof. induction s as [|c s IH]; simpl; [done|]. by rewrite IH, andb_assoc. Qed.

Lemma string_forall_impl (p q : ascii → bool) s :
  (∀ c, p c = true → q c = true) → string_forall p s = true → string_forall q s = true.
Proof.
  intros Hpq. induction s as [|c s IH]; simpl; [done|].
  rewrite !andb_true_iff. intros [Hc Hs]. auto.
Qed.

Lemma string_app_assoc (a b c : string) : (a +:+ b) +:+ c = a +:+ (b +:+ c).
Proof. induction a as [|x a IH]; simpl; [done|]. by rewrite IH. Qed.
Lemma string_app_nil_r (a : string) : a +:+ "" = a.
Proof. induction a as [|x a IH]; simpl; [done|]. by rewrite IH. Qed.
Lemma string_length_app (a b : string) :
  String.length (a +:+ b) = (String.length a + String.length b)%nat.
Proof. induction a as [|x a IH]; simpl; [done|]. by rewrite IH. Qed.

Create Rewrite HintDb osiris_str.
#[export] Hint Rewrite string_app_assoc string_app_nil_r string_length_app : osiris_str.

Lemma N_of_digit_char d : 0 ≤ d < 10 → Z.of_N (N_of_ascii (digit_char d)) = 48 + d.
Proof. intros. unfold digit_char. rewrite N_ascii_embedding; lia. Qed.

Lemma is_digit_char d : 0 ≤ d < 10 → is_digit (digit_char d) = true.
Proof. intros. unfold is_digit. rewrite N_of_digit_char by done. zb. Qed.

Lemma digit_val_char d : 0 ≤ d < 10 → digit_val (digit_char d) = d.
Proof. intros. unfold digit_val. rewrite N_of_digit_char by done. lia. Qed.

Lemma is_digit_val c : is_digit c = true → 0 ≤ digit_val c < 10.
Proof. unfold is_digit, digit_val. zb. Qed.

Lemma digits_loop_app fuel base dc n acc :
  digits_loop fuel base dc n acc = digits_loop fuel base dc n "" +:+ acc.
Proof.
  revert n acc. induction fuel as [|fuel IH]; intros n acc; simpl; [done|].
  destruct (n / base >? 0); [|done].
  rewrite IH, (IH _ (String _ "")). by rewrite string_app_assoc.
Qed.

(** The printed text consists of digits only and is never empty. *)
Lemma digits_loop_forall fuel n :
  0 ≤ n → string_forall is_digit (digits_loop fuel 10 digit_char n "") = true.
Proof.
  revert n. induction fuel as [|fuel IH]; intros n Hn; simpl; [done|].
  assert (Hd : 0 ≤ n `mod` 10 < 10) by (apply Z.mod_pos_bound; lia).
  destruct (n / 10 >? 0).
  - rewrite digits_loop_app, string_forall_app. simpl.
    rewrite is_digit_char, IH by (try apply Z.div_pos; lia). done.
  - simpl. by rewrite is_digit_char.
Qed.

Lemma print_dec_forall n : 0 ≤ n → string_forall is_digit (print_dec n) = true.
Proof. apply digits_loop_forall. Qed.

Lemma digits_loop_starts fuel n :
  0 ≤ n → starts_with_digit (digits_loop (S fuel) 10 digit_char n "") = true.
Proof.
  intros Hn. pose proof (digits_loop_forall (S fuel) n Hn) as H.
  destruct (digits_loop (S fuel) 10 digit_char n "") as [|c s] eqn:E.
  - simpl in E. destruct (n / 10 >? 0); [|done]. rewrite digits_loop_app in E.
    by destruct (digits_loop fuel 10 digit_char (n / 10) "").
  - simpl in *. by apply andb_true_iff in H as [? _].
Qed.

Lemma print_dec_starts n : 0 ≤ n → starts_with_digit (print_dec n) = true.
Proof. apply digits_loop_starts. Qed.

Lemma read_dec_app v s t :
  string_forall is_digit s = true → starts_with_digit t = false →
  read_dec v (s +:+ t) = ((read_dec v s).1, t).
Proof.
  revert v. induction s as [|c s IH]; intros v Hs Ht; simpl in *.
  - destruct t as [|c t]; simpl in *; [done|]. by rewrite Ht.
  - apply andb_true_iff in Hs as [-> Hs]. auto.
Qed.

Lemma read_dec_snoc v s c :
  string_forall is_digit s = true → is_digit c = true →
  (read_dec v (s +:+ String c "")).1 = (read_dec v s).1 * 10 + digit_val c.
Proof.
  revert v. induction s as [|c' s IH]; intros v Hs Hc; simpl in *.
  - by rewrite Hc.
  - apply andb_true_iff in Hs as [-> Hs]. auto.
Qed.

Lemma read_digits_loop fuel n :
  0 ≤ n < 2 ^ Z.of_nat fuel →
  (read_dec 0 (digits_loop fuel 10 digit_char n "")).1 = n.
Proof.
  revert n. induction fuel as [|fuel IH]; intros n Hn.
  { simpl in Hn. simpl. lia. }
  rewrite Nat2Z.inj_succ, Z.pow_succ_r in Hn by lia. simpl digits_loop.
  assert (Hd : 0 ≤ n `mod` 10 < 10) by (apply Z.mod_pos_bound; lia).
  pose proof (Z.div_mod n 10 ltac:(lia)) as Hdm.
  assert (Hq : 0 ≤ n / 10) by (apply Z.div_pos; lia).
  destruct (Z.gtb_spec (n / 10) 0).
  - rewrite digits_loop_app, read_dec_snoc, IH, digit_val_char; try done; try lia.
    + apply digits_loop_forall. lia.
    + by apply is_digit_char.
  - simpl. rewrite is_digit_char by done. simpl. rewrite digit_val_char by done. lia.
Qed.

(** Reading back what was printed, with any continuation that does not start
    with a digit. *)
Lemma read_print_dec n t :
  0 ≤ n → starts_with_digit t = false → read_dec 0 (print_dec n +:+ t) = (n, t).
Proof.
  intros Hn Ht. rewrite read_dec_app; [|by apply print_dec_forall|done].
  f_equal. apply read_digits_loop. split; [done|]. unfold digits_fuel.
  rewrite Nat2Z.inj_succ, Z2Nat.id by apply Z.log2_nonneg.
  destruct (decide (n = 0)) as [->|]; [done|]. apply Z.log2_spec. lia.
Qed.

Lemma digits_loop_length fuel n k :
  0 ≤ n < 10 ^ Z.of_nat (S k) →
  (String.length (digits_loop fuel 10 digit_char n "") ≤ S k)%nat.
Proof.
  revert n k. induction fuel as [|fuel IH]; intros n k Hn; simpl; [lia|].
  destruct (Z.gtb_spec (n / 10) 0) as [Hq|Hq]; simpl; [|lia].
  rewrite digits_loop_app, string_length_app. simpl.
  destruct k as [|k].
  { rewrite Z.div_small in Hq; lia. }
  rewrite Nat2Z.inj_succ, Z.pow_succ_r in Hn by lia.
  specialize (IH (n / 10) k). rewrite Nat.add_1_r.
  apply le_n_S, IH. split; [lia|]. apply Z.div_lt_upper_bound; lia.
Qed.

(** A number below [10 ^ k] takes at most [k] characters ([k > 0]). *)
Lemma print_dec_length n k :
  0 ≤ n < 10 ^ Z.of_nat (S k) → (String.length (print_dec n) ≤ S k)%nat.
Proof. apply digits_loop_length. Qed.

(** Nothing is printed without fuel, so fuel beyond the number of digits does
    not change the text. *)
Lemma digits_loop_more fuel1 fuel2 n acc :
  0 ≤ n < 2 ^ Z.of_nat fuel1 → (fuel1 ≤ fuel2)%nat → (0 < fuel1)%nat →
  digits_loop fuel1 10 digit_char n acc = digits_loop fuel2 10 digit_char n acc.
Proof.
  revert fuel2 n acc. induction fuel1 as [|fuel1 IH]; intros fuel2 n acc Hn Hle H0; [lia|].
  destruct fuel2 as [|fuel2]; [lia|]. simpl.
  rewrite Nat2Z.inj_succ, Z.pow_succ_r in Hn by lia.
  pose proof (Z.div_mod n 10 ltac:(lia)) as Hdm.
  pose proof (Z.mod_pos_bound n 10 ltac:(lia)).
  destruct (Z.gtb_spec (n / 10) 0); [|done].
  destruct fuel1 as [|fuel1]; [simpl in Hn; lia|].
  apply IH; [|lia|lia]. lia.
Qed.
