(* ===== verification/Double.v ===== *)
(** * Doubles

    C's [double] as IEEE binary64 ([SpecFloat]), with the facts the statistics of
    the tools rely on: comparison is a total preorder on numbers, and integers,
    their products and exact quotients are computed without rounding. *)

From Stdlib Require Import ZArith Lia Floats.SpecFloat.
From stdpp Require Import base list numbers.
From S2P Require Import Prelude.

Abbreviation double := spec_float.
Definition dadd : double → double → double := SFadd 53 1024.
Definition dsub : double → double → double := SFsub 53 1024.
Definition dmul : double → double → double := SFmul 53 1024.
Definition ddiv : double → double → double := SFdiv 53 1024.
Definition dsqrt : double → double := SFsqrt 53 1024.
Definition double_of_int (z : Z) : double := binary_normalize 53 1024 z 0 false.
Definition isnan (x : double) : bool := match x with S754_nan => true | _ => false end.
Definition is_finite (x : double) : bool := match x with S754_zero _ | S754_finite _ _ _ => true | _ => false end.
Definition dlt (x y : double) : bool := SFltb x y.
Definition dle (x y : double) : bool := SFleb x y.
Definition deq (x y : double) : bool := SFeqb x y.
(** A double that a program can hold. *)
Definition dvalid (x : double) : bool := valid_binary 53 1024 x.

Definition zero : double := S754_zero false.
Definition one : double := double_of_int 1.
Definition half : double := S754_finite false 4503599627370496 (-53).

(** [(int) floor (x)]; the conversion is undefined outside of [int]. *)
Definition floor_int (x : double) : res Z :=
  match x with
  | S754_zero _ => Ret 0
  | S754_finite s m e =>
      let v := if 0 <=? e then Zpos m * 2^e else Zpos m / 2^(- e) in
      let c := if 0 <=? e then Zpos m * 2^e else (Zpos m + 2^(- e) - 1) / 2^(- e) in
      chk32 (if s then - c else v)
  | _ => Stop FOverflow
  end.

(** ** Comparison *)

Lemma pos_compare_eq p q : Pos.compare_cont Eq p q = Eq → p = q.
Proof. apply Pos.compare_eq. Qed.

(** Where a number lies on the line: first its class, then exponent and mantissa. *)
Definition place (x : double) : Z * Z * Z :=
  match x with
  | S754_infinity true => (-2, 0, 0)
  | S754_finite true m e => (-1, - e, Zneg m)
  | S754_zero _ => (0, 0, 0)
  | S754_finite false m e => (1, e, Zpos m)
  | S754_infinity false => (2, 0, 0)
  | S754_nan => (3, 0, 0)
  end.
Definition before (a b : Z * Z * Z) : Prop :=
  a.1.1 < b.1.1 ∨ a.1.1 = b.1.1 ∧ (a.1.2 < b.1.2 ∨ a.1.2 = b.1.2 ∧ a.2 < b.2).

Lemma dlt_place x y : isnan x = false → isnan y = false → dlt x y = true ↔ before (place x) (place y).
Proof.
  intros Hx Hy. unfold dlt, SFltb, before.
  destruct x as [[]|[]| |[] m e], y as [[]|[]| |[] m' e']; try done; cbn [SFcompare place fst snd];
    try (split; [try done; intros _; left; lia|intros _; done]); try (split; [done|intros [?|[? [?|[? ?]]]]; lia]).
  - destruct (Z.compare_spec e e') as [->|Hlt|Hlt]; [|split; [done|intros [?|[_ [?|[? ?]]]]; lia]|split; [intros _; right; split; [done|left; lia]|done]].
    change (Pos.compare_cont Eq m m') with (Pos.compare m m'). rewrite <- Pos.compare_antisym.
    destruct (Pos.compare_spec m' m) as [->|H|H]; split; try done;
      [intros [?|[_ [?|[_ ?]]]]; lia|intros _; right; split; [done|right; split; [done|lia]]|intros [?|[_ [?|[_ ?]]]]; lia].
  - destruct (Z.compare_spec e e') as [->|Hlt|Hlt]; [|split; [intros _; right; split; [done|left; lia]|done]|split; [done|intros [?|[_ [?|[? ?]]]]; lia]].
    change (Pos.compare_cont Eq m m') with (Pos.compare m m').
    destruct (Pos.compare_spec m m') as [->|H|H]; split; try done;
      [intros [?|[_ [?|[_ ?]]]]; lia|intros _; right; split; [done|right; split; [done|lia]]|intros [?|[_ [?|[_ ?]]]]; lia].
Qed.

(** Not-less is transitive on numbers. *)
Lemma dlt_false_trans x y z :
  isnan x = false → isnan y = false → isnan z = false → dlt y x = false → dlt z y = false → dlt z x = false.
Proof.
  intros Hx Hy Hz H1 H2. apply not_true_iff_false. rewrite dlt_place by done.
  apply not_true_iff_false in H1, H2. rewrite dlt_place in H1, H2 by done. unfold before in *. lia.
Qed.

Lemma dlt_asym x y : isnan x = false → isnan y = false → dlt x y = true → dlt y x = false.
Proof.
  intros Hx Hy H. apply not_true_iff_false. rewrite dlt_place in * by done. unfold before in *. lia.
Qed.

Lemma deq_refl x : isnan x = false → deq x x = true.
Proof.
  unfold deq, SFeqb. destruct x as [[]|[]| |[] m e]; try done; intros _; cbn [SFcompare]; rewrite Z.compare_refl;
    change (Pos.compare_cont Eq m m) with (Pos.compare m m); by rewrite Pos.compare_refl.
Qed.

(** ** Exact results *)

Definition shiftp (p : positive) (n : nat) : positive := Nat.iter n xO p.

Lemma shiftp_S p n : shiftp p (S n) = (shiftp p n)~0%positive.
Proof. done. Qed.

Lemma shiftp_add p n k : shiftp (shiftp p n) k = shiftp p (n + k).
Proof. induction k as [|k IH]; [by rewrite Nat.add_0_r|]. rewrite Nat.add_succ_r, !shiftp_S. by f_equal. Qed.

Lemma shiftp_Z p n : Zpos (shiftp p n) = Zpos p * 2^(Z.of_nat n).
Proof.
  induction n as [|n IH]; [change (shiftp p 0) with p; lia|]. rewrite shiftp_S, Pos2Z.inj_xO, IH, Nat2Z.inj_succ, Z.pow_succ_r by lia. ring.
Qed.

Lemma digits_shiftp p n : Zpos (digits2_pos (shiftp p n)) = Zpos (digits2_pos p) + Z.of_nat n.
Proof. induction n as [|n IH]; [change (shiftp p 0) with p; lia|]. rewrite shiftp_S. cbn [digits2_pos]. lia. Qed.

Lemma digits_bounds p : 2^(Zpos (digits2_pos p) - 1) ≤ Zpos p < 2^(Zpos (digits2_pos p)).
Proof.
  assert (Hs : ∀ q : positive, 2^(Zpos (Pos.succ q)) = 2 * 2^(Zpos q) ∧ 2^(Zpos (Pos.succ q) - 1) = 2 * 2^(Zpos q - 1)).
  { intros q. rewrite Pos2Z.inj_succ. split; [by rewrite Z.pow_succ_r by lia|].
    replace (Z.succ (Zpos q) - 1) with (Z.succ (Zpos q - 1)) by lia. by rewrite Z.pow_succ_r by lia. }
  induction p as [p IH|p IH|]; cbn [digits2_pos]; [| |cbn; lia]; destruct (Hs (digits2_pos p)) as [-> ->]; lia.
Qed.

Lemma digits_le p k : 0 ≤ k → Zpos p < 2^k → Zpos (digits2_pos p) ≤ k.
Proof.
  intros Hk Hp. destruct (digits_bounds p) as [H _]. destruct (Z.le_gt_cases (Zpos (digits2_pos p)) k); [done|].
  pose proof (Z.pow_le_mono_r 2 k (Zpos (digits2_pos p) - 1)). lia.
Qed.

Lemma digits_mul_le p q : Zpos (digits2_pos (p * q)) ≤ Zpos (digits2_pos p) + Zpos (digits2_pos q).
Proof.
  apply digits_le; [lia|]. rewrite Z.pow_add_r by lia. pose proof (digits_bounds p). pose proof (digits_bounds q). nia.
Qed.

Lemma digits_mul_ge p q : Zpos (digits2_pos p) + Zpos (digits2_pos q) - 1 ≤ Zpos (digits2_pos (p * q)).
Proof.
  destruct (digits_bounds p) as [Hp _], (digits_bounds q) as [Hq _], (digits_bounds (p * q)) as [_ H].
  destruct (Z.le_gt_cases (Zpos (digits2_pos p) + Zpos (digits2_pos q) - 1) (Zpos (digits2_pos (p * q)))) as [|Hgt]; [done|].
  assert (Hle : 2^(Zpos (digits2_pos (p * q))) ≤ 2^((Zpos (digits2_pos p) - 1) + (Zpos (digits2_pos q) - 1)))
    by (apply Z.pow_le_mono_r; lia).
  rewrite Z.pow_add_r in Hle by lia. nia.
Qed.

Lemma iter_pos_nat {A} (f : A → A) n x : SpecFloat.iter_pos f n x = Nat.iter (Pos.to_nat n) f x.
Proof.
  revert x. induction n as [n IH|n IH|]; intros x; cbn [SpecFloat.iter_pos]; [| |done].
  - rewrite !IH, Pos2Nat.inj_xI, <- Nat.iter_add. replace (S (2 * Pos.to_nat n)) with ((Pos.to_nat n + Pos.to_nat n) + 1)%nat by lia.
    by rewrite (Nat.iter_add _ 1).
  - rewrite !IH, Pos2Nat.inj_xO, <- Nat.iter_add. f_equal. lia.
Qed.

Lemma shr_shiftp p n k :
  Nat.iter k shr_1 (Build_shr_record (Zpos (shiftp p (n + k))) false false) = Build_shr_record (Zpos (shiftp p n)) false false.
Proof.
  revert n. induction k as [|k IH]; intros n; [by rewrite Nat.add_0_r|].
  rewrite Nat.add_succ_r, <- Nat.add_succ_l, Nat.iter_succ, IH. done.
Qed.

(** Mantissa and exponent are those of a number of [prec] bits. *)
Definition canonical_at (prec emax : Z) (p : positive) (e : Z) : Prop :=
  fexp prec emax (Zpos (digits2_pos p) + e) = e ∧ e ≤ emax - prec.
Definition canonical : positive → Z → Prop := canonical_at 53 1024.

Lemma shr_exact prec emax p n e : canonical_at prec emax p (e + Z.of_nat n) →
  shr_fexp prec emax (Zpos (shiftp p n)) e loc_Exact = (Build_shr_record (Zpos p) false false, e + Z.of_nat n).
Proof.
  intros [Hc _]. unfold shr_fexp. cbn [Zdigits2 shr_record_of_loc]. rewrite digits_shiftp.
  replace (Zpos (digits2_pos p) + Z.of_nat n + e) with (Zpos (digits2_pos p) + (e + Z.of_nat n)) by lia.
  rewrite Hc. replace (e + Z.of_nat n - e) with (Z.of_nat n) by lia.
  destruct n as [|n]; [cbn; by rewrite Z.add_0_r|]. cbn [Z.of_nat shr].
  change (Z.of_nat (S n)) with (Zpos (Pos.of_succ_nat n)). cbn [shr].
  rewrite iter_pos_nat, SuccNat2Pos.id_succ. f_equal. apply (shr_shiftp p 0).
Qed.

(** A value that can be represented is not rounded. *)
Lemma round_exact prec emax s p n e : canonical_at prec emax p (e + Z.of_nat n) →
  binary_round_aux prec emax s (Zpos (shiftp p n)) e loc_Exact = S754_finite s p (e + Z.of_nat n).
Proof.
  intros Hc. unfold binary_round_aux. rewrite shr_exact by done. cbn [shr_m loc_of_shr_record round_nearest_even].
  pose proof (shr_exact prec emax p 0 (e + Z.of_nat n)) as H0. change (shiftp p 0) with p in H0. change (Z.of_nat 0) with 0 in H0. rewrite Z.add_0_r in H0.
  rewrite H0 by done. cbn [shr_m]. destruct Hc as [_ Hc].
  by destruct (Z.leb_spec (e + Z.of_nat n) (emax - prec)); [|lia].
Qed.

Lemma canonical_53 p e : Zpos (digits2_pos p) = 53 → -1074 ≤ e ≤ 971 → canonical p e.
Proof. intros Hd He. unfold canonical, canonical_at, fexp, SpecFloat.emin. rewrite Hd. lia. Qed.

(** The double [z / 2^k]. *)
Definition dyadic (z : positive) (k : nat) : double :=
  let n := Z.to_nat (53 - Zpos (digits2_pos z)) in S754_finite false (shiftp z n) (- Z.of_nat (n + k)).

Definition fits (z : positive) : Prop := Zpos z < 2^53.

Lemma fits_digits z : fits z → Zpos (digits2_pos z) ≤ 53.
Proof. intros H. by apply digits_le. Qed.

Lemma dyadic_round z k n e :
  fits z → Z.of_nat k ≤ 100 → Z.of_nat n + e = - Z.of_nat k → 53 - Zpos (digits2_pos z) ≤ Z.of_nat n →
  binary_round_aux 53 1024 false (Zpos (shiftp z n)) e loc_Exact = dyadic z k.
Proof.
  intros Hz Hk He Hn. pose proof (fits_digits _ Hz). unfold dyadic. set (n0 := Z.to_nat (53 - Zpos (digits2_pos z))).
  assert (H0 : Z.of_nat n0 = 53 - Zpos (digits2_pos z)) by (unfold n0; lia).
  replace n with (n0 + (n - n0))%nat by lia. rewrite <- shiftp_add, round_exact.
  - f_equal. lia.
  - apply canonical_53; [rewrite digits_shiftp; lia|lia].
Qed.

Lemma shl_align_same p e e' : e ≤ e' → shl_align p e e' = (p, e).
Proof. intros H. unfold shl_align. destruct (e' - e) eqn:E; try done. lia. Qed.

Lemma pos_iter_shiftp p n : Pos.iter xO p n = shiftp p (Pos.to_nat n).
Proof. apply Pos2Nat.inj_iter. Qed.

(** Normalisation of [z 2^-k]. *)
Lemma normalize_dyadic z k : fits z → Z.of_nat k ≤ 100 →
  binary_normalize 53 1024 (Zpos z) (- Z.of_nat k) false = dyadic z k.
Proof.
  intros Hz Hk. pose proof (fits_digits _ Hz) as Hd. cbn [binary_normalize]. unfold binary_round.
  assert (Hf : fexp 53 1024 (Zpos (digits2_pos z) + - Z.of_nat k) = Zpos (digits2_pos z) - Z.of_nat k - 53)
    by (unfold fexp, SpecFloat.emin; lia).
  rewrite Hf. unfold shl_align. destruct (Zpos (digits2_pos z) - Z.of_nat k - 53 - - Z.of_nat k) as [|p|p] eqn:E; [|lia|].
  - apply (dyadic_round z k 0); [done|done|lia|lia].
  - rewrite pos_iter_shiftp. apply dyadic_round; [done|done|lia|lia].
Qed.

Lemma double_of_int_dyadic z : fits z → double_of_int (Zpos z) = dyadic z 0.
Proof. intros Hz. apply (normalize_dyadic z 0); [done|lia]. Qed.

Lemma fits_le (z : positive) : Zpos z ≤ 2^40 → fits z.
Proof. unfold fits. lia. Qed.

(** Products of integers are exact ... *)
Lemma dmul_exact a b : fits (a * b) → dmul (dyadic a 0) (dyadic b 0) = dyadic (a * b) 0.
Proof.
  intros Hab. assert (Ha : fits a) by (unfold fits in *; lia). assert (Hb : fits b) by (unfold fits in *; lia).
  pose proof (fits_digits _ Ha). pose proof (fits_digits _ Hb). pose proof (fits_digits _ Hab). pose proof (digits_mul_ge a b).
  unfold dyadic at 1 2, dmul. cbn [SFmul xorb].
  set (n := Z.to_nat (53 - Zpos (digits2_pos a))). set (k := Z.to_nat (53 - Zpos (digits2_pos b))).
  replace (shiftp a n * shiftp b k)%positive with (shiftp (a * b) (n + k)).
  - apply dyadic_round; [done|lia|lia|lia].
  - apply Pos2Z.inj. rewrite Pos2Z.inj_mul, !shiftp_Z, Pos2Z.inj_mul, Nat2Z.inj_add, Z.pow_add_r by lia. ring.
Qed.

Lemma shiftp_inj_Z p n z : 0 < z → z = Zpos p * 2^(Z.of_nat n) → z = Zpos (shiftp p n).
Proof. intros _ ->. by rewrite shiftp_Z. Qed.

(** ... and so are quotients that are binary fractions. *)
Lemma ddiv_exact a b q k : fits a → fits b → fits q → Z.of_nat k ≤ 40 → Zpos a * 2^(Z.of_nat k) = Zpos b * Zpos q →
  ddiv (dyadic a 0) (dyadic b 0) = dyadic q k.
Proof.
  intros Ha Hb Hq Hk Hab. pose proof (fits_digits _ Ha) as Da. pose proof (fits_digits _ Hb) as Db. pose proof (fits_digits _ Hq) as Dq.
  assert (Hd : Zpos (digits2_pos a) + Z.of_nat k ≤ Zpos (digits2_pos b) + Zpos (digits2_pos q)).
  { rewrite <- digits_shiftp. replace (shiftp a k) with (b * q)%positive; [apply digits_mul_le|].
    apply Pos2Z.inj. by rewrite shiftp_Z, Pos2Z.inj_mul. }
  unfold dyadic at 1 2, ddiv. cbn [SFdiv]. unfold SFdiv_core_binary. cbn [Zdigits2]. rewrite !digits_shiftp.
  set (n := Z.to_nat (53 - Zpos (digits2_pos a))). set (j := Z.to_nat (53 - Zpos (digits2_pos b))).
  assert (Hn : Z.of_nat n = 53 - Zpos (digits2_pos a)) by lia. assert (Hj : Z.of_nat j = 53 - Zpos (digits2_pos b)) by lia.
  set (e' := Z.min _ _). assert (He : e' = Z.of_nat j - Z.of_nat n - 53) by (unfold e', fexp, SpecFloat.emin; lia).
  replace (- Z.of_nat (n + 0) - - Z.of_nat (j + 0) - e') with 53 by lia. cbv iota.
  rewrite Z.shiftl_mul_pow2 by lia. rewrite !shiftp_Z.
  assert (Hm : Zpos a * 2^(Z.of_nat n) * 2^53 = Zpos (shiftp q (n + 53 - k - j)) * (Zpos b * 2^(Z.of_nat j))).
  { rewrite shiftp_Z. replace (Z.of_nat (n + 53 - k - j)) with (Z.of_nat n + 53 - Z.of_nat k - Z.of_nat j) by lia.
    assert (H2 : 2^(Z.of_nat n) * 2^53 = 2^(Z.of_nat k) * (2^(Z.of_nat n + 53 - Z.of_nat k - Z.of_nat j) * 2^(Z.of_nat j))).
    { rewrite <- !Z.pow_add_r by lia. f_equal. lia. }
    rewrite <- Z.mul_assoc, H2. rewrite Z.mul_assoc, Hab. ring. }
  destruct (Z.div_eucl _ _) as [d r] eqn:Ed.
  assert (Hpos : 0 < Zpos b * 2^(Z.of_nat j)) by (apply Z.mul_pos_pos; [lia|apply Z.pow_pos_nonneg; lia]).
  assert (Hr : r = 0 ∧ d = Zpos (shiftp q (n + 53 - k - j))).
  { split.
    - transitivity ((Zpos a * 2^(Z.of_nat n) * 2^53) `mod` (Zpos b * 2^(Z.of_nat j))); [unfold Z.modulo; by rewrite Ed|].
      rewrite Hm. apply Z.mod_mul. lia.
    - transitivity ((Zpos a * 2^(Z.of_nat n) * 2^53) `div` (Zpos b * 2^(Z.of_nat j))); [unfold Z.div; by rewrite Ed|].
      rewrite Hm. apply Z.div_mul. lia. }
  destruct Hr as [-> ->]. unfold new_location, new_location_even, new_location_odd. cbn [Z.eqb].
  destruct (Z.even _); (apply dyadic_round; [done|lia|lia|lia]).
Qed.

Lemma one_dyadic : one = dyadic 1 0.
Proof. reflexivity. Qed.

Lemma dmul_one x : dvalid x = true → is_finite x = true → dmul one x = x.
Proof.
  destruct x as [s|s| |s m e]; try done. cbn [dvalid valid_binary]. unfold bounded, canonical_mantissa.
  intros [H1%Z.eqb_eq H2%Z.leb_le]%andb_true_iff _. rewrite one_dyadic. unfold dyadic, dmul. cbn [SFmul].
  replace (xorb false s) with s by (by destruct s). replace (shiftp 1 (Z.to_nat (53 - Zpos (digits2_pos 1))) * m)%positive with (shiftp m 52).
  - cbn [digits2_pos]. rewrite round_exact; [f_equal; lia|]. split; [|lia].
    change (Z.of_nat (Z.to_nat (53 - 1) + 0)) with 52. change (Z.of_nat 52) with 52.
    replace (- (52) + e + 52) with e by lia. done.
  - apply Pos2Z.inj. rewrite Pos2Z.inj_mul, !shiftp_Z. cbn [digits2_pos]. change (Z.of_nat (Z.to_nat (53 - 1))) with 52.
    change (Z.of_nat 52) with 52. ring.
Qed.

Lemma dsub_self p e s : dsub (S754_finite s p e) (S754_finite s p e) = zero.
Proof. unfold dsub. cbn [SFsub]. by rewrite Z.sub_diag. Qed.

(** [q/2 - (q-1)/2] for an odd [q]. *)
Lemma dsub_half j : fits (xI j) → dsub (dyadic (xI j) 1) (double_of_int (Zpos j)) = half.
Proof.
  intros Hf. assert (Hj : fits j) by (unfold fits in *; lia). rewrite double_of_int_dyadic by done.
  pose proof (fits_digits _ Hf) as Hd. cbn [digits2_pos] in Hd. unfold dyadic. cbn [digits2_pos].
  set (n := Z.to_nat (53 - Zpos (Pos.succ (digits2_pos j)))).
  replace (Z.to_nat (53 - Zpos (digits2_pos j))) with (S n) by lia. unfold dsub. cbn [SFsub].
  replace (- Z.of_nat (S n + 0)) with (- Z.of_nat (n + 1)) by lia. rewrite Z.min_id, !shl_align_same by lia.
  cbn [cond_Zopp fst]. rewrite !shiftp_Z.
  replace (Zpos j~1 * 2^(Z.of_nat n) - Zpos j * 2^(Z.of_nat (S n))) with (Zpos (shiftp 1 n)).
  - rewrite normalize_dyadic; [|unfold fits; rewrite shiftp_Z, Z.mul_1_l; apply Z.pow_lt_mono_r; lia|lia].
    assert (Hn : (n ≤ 51)%nat) by lia. clear -Hn. do 52 (destruct n as [|n]; [reflexivity|]). lia.
  - rewrite shiftp_Z, Nat2Z.inj_succ, Z.pow_succ_r by lia. lia.
Qed.

Lemma floor_dyadic z k : Zpos z < 2^40 → Z.of_nat k ≤ 40 → Zpos z / 2^(Z.of_nat k) < 2^31 →
  floor_int (dyadic z k) = Ret (Zpos z / 2^(Z.of_nat k)).
Proof.
  intros Hz Hk Hlt. pose proof (digits_le z 40 ltac:(lia) Hz). unfold dyadic, floor_int.
  set (n := Z.to_nat (53 - Zpos (digits2_pos z))). destruct (Z.leb_spec 0 (- Z.of_nat (n + k))); [lia|].
  rewrite Z.opp_involutive, shiftp_Z, Nat2Z.inj_add, (Z.pow_add_r 2), (Z.mul_comm (Zpos z)) by lia.
  assert (0 < 2^Z.of_nat n ∧ 0 < 2^Z.of_nat k) as [? ?] by (split; apply Z.pow_pos_nonneg; lia).
  rewrite Z.div_mul_cancel_l by lia. apply chk32_ok. pose proof (Z.div_pos (Zpos z) (2^Z.of_nat k)). lia.
Qed.
