(* ===== verification/DoubleSign.v ===== *)
(** * Results that are numbers

    Facts on the operations of [Double]: which of their results are numbers, which are
    not negative, and which are finite.  The statistics of an experiment rest on them:
    a test on counts must not give a p-value that is no number. *)

From Stdlib Require Import ZArith Lia Floats.SpecFloat.
From stdpp Require Import base list numbers.
From S2P Require Import Prelude Double.

(** ** Rounding *)

(** A rounded result has the sign asked for and is a number. *)
Definition has_sign (s : bool) (x : double) : Prop :=
  match x with S754_zero s' | S754_infinity s' | S754_finite s' _ _ => s' = s | S754_nan => False end.

Lemma shr_1_nonneg mrs : 0 ≤ shr_m mrs → 0 ≤ shr_m (shr_1 mrs).
Proof. destruct mrs as [[|[p|p|]|p] r s]; cbn; lia. Qed.

Lemma iter_shr_nonneg n mrs : 0 ≤ shr_m mrs → 0 ≤ shr_m (Nat.iter n shr_1 mrs).
Proof. intros H. induction n as [|n IH]; [done|]. rewrite Nat.iter_succ. by apply shr_1_nonneg. Qed.

Lemma record_of_loc m l : shr_m (shr_record_of_loc m l) = m.
Proof. by destruct l as [|[]]. Qed.

Lemma shr_fexp_nonneg prec emax m e l : 0 ≤ m → 0 ≤ shr_m (shr_fexp prec emax m e l).1.
Proof.
  intros Hm. unfold shr_fexp, shr. destruct (_ - e) as [|p|p]; cbn [fst]; rewrite ?record_of_loc; [done| |done].
  rewrite iter_pos_nat. apply iter_shr_nonneg. by rewrite record_of_loc.
Qed.

Lemma round_nonneg m l : 0 ≤ m → m ≤ round_nearest_even m l ≤ m + 1.
Proof. destruct l as [|[]]; cbn; try lia. destruct (Z.even m); lia. Qed.

Lemma round_aux_sign prec emax s m e l : 0 ≤ m → has_sign s (binary_round_aux prec emax s m e l).
Proof.
  intros Hm. unfold binary_round_aux. pose proof (shr_fexp_nonneg prec emax m e l Hm) as H1.
  destruct (shr_fexp prec emax m e l) as [mrs' e'] eqn:E1. cbn [fst] in H1.
  pose proof (round_nonneg (shr_m mrs') (loc_of_shr_record mrs') H1) as H2.
  pose proof (shr_fexp_nonneg prec emax (round_nearest_even (shr_m mrs') (loc_of_shr_record mrs')) e' loc_Exact ltac:(lia)) as H3.
  destruct (shr_fexp _ _ _ e' loc_Exact) as [mrs'' e'']. cbn [fst] in H3.
  destruct (shr_m mrs'') as [|p|p]; [done| |lia]. by destruct (_ <=? _).
Qed.

(** ** Numbers *)

Lemma sign_number s x : has_sign s x → isnan x = false.
Proof. by destruct x. Qed.

Lemma normalize_number m e s : isnan (binary_normalize 53 1024 m e s) = false.
Proof.
  unfold binary_normalize. destruct m as [|p|p]; [done|..]; unfold binary_round; destruct (shl_align _ _ _) as [mz ez];
    eapply sign_number, round_aux_sign; lia.
Qed.

Lemma double_of_int_number z : isnan (double_of_int z) = false.
Proof. apply normalize_number. Qed.

Lemma dadd_finite x y : is_finite x = true → isnan y = false → isnan (dadd x y) = false.
Proof.
  destruct x as [s|s| |s m e], y as [s'|s'| |s' m' e']; try done; intros _ _; [by destruct s, s'|]. apply normalize_number.
Qed.
Lemma dsub_finite x y : is_finite x = true → isnan y = false → isnan (dsub x y) = false.
Proof.
  destruct x as [s|s| |s m e], y as [s'|s'| |s' m' e']; try done; intros _ _; [by destruct s, s'|]. apply normalize_number.
Qed.
Lemma dmul_finite x y : is_finite x = true → is_finite y = true → isnan (dmul x y) = false.
Proof.
  destruct x as [s|s| |s m e], y as [s'|s'| |s' m' e']; try done; intros _ _; cbn. eapply sign_number, round_aux_sign. lia.
Qed.

Lemma div_eucl_nonneg a b : 0 ≤ a → 0 < b → 0 ≤ (Z.div_eucl a b).1.
Proof. intros Ha Hb. change (0 ≤ a / b). by apply Z.div_pos. Qed.

Lemma div_core_nonneg m1 e1 m2 e2 : 0 ≤ m1 → 0 < m2 → 0 ≤ (SFdiv_core_binary 53 1024 m1 e1 m2 e2).1.1.
Proof.
  intros H1 H2. unfold SFdiv_core_binary. set (e' := Z.min _ _). set (m' := match e1 - e2 - e' with Z0 => m1 | _ => _ end).
  assert (0 ≤ m') as Hm. { unfold m'. destruct (e1 - e2 - e'); [done|by apply Z.shiftl_nonneg|done]. }
  pose proof (div_eucl_nonneg m' m2 Hm H2) as H. by destruct (Z.div_eucl m' m2) as [q r].
Qed.

Lemma ddiv_number x s m e : isnan x = false → isnan (ddiv x (S754_finite s m e)) = false.
Proof.
  destruct x as [s'|s'| |s' m' e']; try done. intros _. unfold ddiv. cbn [SFdiv].
  pose proof (div_core_nonneg (Zpos m') e' (Zpos m) e ltac:(lia) ltac:(lia)) as H.
  destruct (SFdiv_core_binary _ _ _ _ _ _) as [[mz ez] lz]. eapply sign_number, round_aux_sign. exact H.
Qed.

(** ** Numbers that are not negative *)

Definition nonneg (x : double) : Prop := match x with S754_zero _ => True | S754_infinity s | S754_finite s _ _ => s = false | S754_nan => False end.

Lemma nonneg_number x : nonneg x → isnan x = false.
Proof. by destruct x. Qed.
Lemma sign_nonneg x : has_sign false x → nonneg x.
Proof. by destruct x. Qed.

Lemma dadd_nonneg x y : nonneg x → nonneg y → nonneg (dadd x y).
Proof.
  destruct x as [s|s| |s m e], y as [s'|s'| |s' m' e']; try done; cbn.
  - intros _ _. by destruct s, s'.
  - intros -> ->. done.
  - intros -> ->. unfold binary_normalize. destruct (cond_Zopp false _ + cond_Zopp false _) as [|p|p] eqn:E; [done| |cbn in E; lia].
    unfold binary_round. destruct (shl_align p _ _) as [mz ez]. apply sign_nonneg, round_aux_sign. lia.
Qed.

Lemma dsqr_nonneg x : isnan x = false → nonneg (dmul x x).
Proof.
  destruct x as [s|s| |s m e]; try done; intros _; cbn; rewrite xorb_nilpotent; [done|]. apply sign_nonneg, round_aux_sign. lia.
Qed.

Lemma ddiv_nonneg x m e : nonneg x → nonneg (ddiv x (S754_finite false m e)).
Proof.
  destruct x as [s|s| |s m' e']; try done; intros Hs; unfold ddiv; cbn [SFdiv].
  - by cbn in Hs; subst s.
  - cbn in Hs. subst s. pose proof (div_core_nonneg (Zpos m') e' (Zpos m) e ltac:(lia) ltac:(lia)) as H.
    destruct (SFdiv_core_binary _ _ _ _ _ _) as [[mz ez] lz]. cbn [xorb]. apply sign_nonneg, round_aux_sign. exact H.
Qed.

(** ** Finite results *)

Lemma shr_1_le mrs : 0 ≤ shr_m mrs → 2 * shr_m (shr_1 mrs) ≤ shr_m mrs.
Proof. destruct mrs as [[|[p|p|]|p] r s]; cbn; lia. Qed.

Lemma iter_shr_le n mrs : 0 ≤ shr_m mrs → shr_m (Nat.iter n shr_1 mrs) * 2^Z.of_nat n ≤ shr_m mrs.
Proof.
  intros H. induction n as [|n IH]; [cbn; lia|]. rewrite Nat.iter_succ, Nat2Z.inj_succ, Z.pow_succ_r by lia.
  pose proof (iter_shr_nonneg n mrs H) as H0. pose proof (shr_1_le _ H0). nia.
Qed.

Lemma digits_lt m k : 0 ≤ m → 0 ≤ k → m < 2^k → Zdigits2 m ≤ k.
Proof. intros Hm Hk H. destruct m as [|p|p]; cbn; [done| |lia]. by apply digits_le. Qed.
Lemma lt_digits m : 0 ≤ m → m < 2^Zdigits2 m.
Proof. intros Hm. destruct m as [|p|p]; cbn; [lia| |lia]. apply digits_bounds. Qed.

(** A value below [2^1023] stays so when it is shifted to fit. *)
Lemma shr_fexp_bound m e l K : 0 ≤ m → e ≤ K → Zdigits2 m + e - 53 ≤ K → -1074 ≤ K →
  let r := shr_fexp 53 1024 m e l in r.2 ≤ K ∧ 0 ≤ shr_m r.1 ∧ (shr_m r.1 ≤ m ∧ r.2 = e ∨ e < r.2 ∧ shr_m r.1 * 2^(r.2 - e) ≤ m).
Proof.
  intros Hm He Hd HK. cbv zeta. split_and!; [|by apply shr_fexp_nonneg|].
  - unfold shr_fexp, shr. destruct (fexp 53 1024 (Zdigits2 m + e) - e) as [|p|p] eqn:E; cbn [snd]; [done| |done].
    unfold fexp, SpecFloat.emin in E. lia.
  - unfold shr_fexp, shr. destruct (fexp 53 1024 (Zdigits2 m + e) - e) as [|p|p] eqn:E; cbn [fst snd]; rewrite ?record_of_loc; [by left| |by left].
    right. rewrite iter_pos_nat. split; [lia|]. pose proof (iter_shr_le (Pos.to_nat p) (shr_record_of_loc m l)) as H. rewrite record_of_loc in H.
    replace (e + Zpos p - e) with (Z.of_nat (Pos.to_nat p)) by lia. by apply H.
Qed.

Lemma round_aux_finite s m e l : 0 ≤ m → e ≤ 970 → Zdigits2 m + e ≤ 1022 → is_finite (binary_round_aux 53 1024 s m e l) = true.
Proof.
  intros Hm He Hd. unfold binary_round_aux.
  pose proof (shr_fexp_bound m e l 970 Hm He ltac:(lia) ltac:(lia)) as H1. destruct (shr_fexp 53 1024 m e l) as [mrs' e']. cbn [fst snd] in H1.
  destruct H1 as (He' & Hm' & Hcase). pose proof (round_nonneg (shr_m mrs') (loc_of_shr_record mrs') Hm') as Hr.
  set (m2 := round_nearest_even _ _) in *.
  assert (Hd2 : Zdigits2 m2 + e' - 53 ≤ 970).
  { assert (Zdigits2 m2 ≤ 1023 - e'); [|lia]. apply digits_lt; [lia|lia|].
    assert (shr_m mrs' < 2^(1022 - e')).
    { destruct Hcase as [[Hle ->]|[Hlt Hle]].
      - eapply Z.le_lt_trans; [exact Hle|]. eapply Z.lt_le_trans; [by apply lt_digits|]. apply Z.pow_le_mono_r; lia.
      - destruct (Z.lt_ge_cases (shr_m mrs') (2^(1022 - e'))) as [|Hge]; [done|]. exfalso.
        assert (Hp : 2^(1022 - e') * 2^(e' - e) = 2^(1022 - e)) by (rewrite <- Z.pow_add_r by lia; f_equal; lia).
        assert (0 < 2^(e' - e)) by (apply Z.pow_pos_nonneg; lia).
        assert (2^(1022 - e) ≤ m) by nia. pose proof (lt_digits m Hm).
        assert (2^Zdigits2 m ≤ 2^(1022 - e)) by (apply Z.pow_le_mono_r; lia). lia. }
    replace (1023 - e') with (Z.succ (1022 - e')) by lia. rewrite Z.pow_succ_r by lia. pose proof (Z.pow_pos_nonneg 2 (1022 - e')). lia. }
  pose proof (shr_fexp_bound m2 e' loc_Exact 970 ltac:(lia) He' Hd2 ltac:(lia)) as H2.
  destruct (shr_fexp 53 1024 m2 e' loc_Exact) as [mrs'' e'']. cbn [fst snd] in H2. destruct H2 as (He'' & Hm'' & _).
  destruct (shr_m mrs'') as [|p|p]; [done| |lia]. by destruct (Z.leb_spec e'' (1024 - 53)); [|lia].
Qed.

(** An integer divided by a positive one. *)
Lemma ddiv_ints_finite a b : fits a → fits b → is_finite (ddiv (dyadic a 0) (dyadic b 0)) = true.
Proof.
  intros Ha Hb. pose proof (fits_digits _ Ha) as Da. pose proof (fits_digits _ Hb) as Db. unfold dyadic, ddiv. cbn [SFdiv].
  set (n := Z.to_nat (53 - Zpos (digits2_pos a))). set (j := Z.to_nat (53 - Zpos (digits2_pos b))).
  assert (Hn : Z.of_nat n = 53 - Zpos (digits2_pos a)) by lia. assert (Hj : Z.of_nat j = 53 - Zpos (digits2_pos b)) by lia.
  unfold SFdiv_core_binary. cbn [Zdigits2]. rewrite !digits_shiftp.
  set (e' := Z.min _ _). assert (He : e' = Z.of_nat j - Z.of_nat n - 53) by (unfold e', fexp, SpecFloat.emin; lia).
  replace (- Z.of_nat (n + 0) - - Z.of_nat (j + 0) - e') with 53 by lia. cbv iota.
  rewrite Z.shiftl_mul_pow2 by lia. destruct (Z.div_eucl _ _) as [q r] eqn:Eq.
  assert (Hq : q = Zpos (shiftp a n) * 2^53 / Zpos (shiftp b j)) by (unfold Z.div; by rewrite Eq).
  assert (H0 : 0 ≤ q ≤ Zpos (shiftp a n) * 2^53).
  { rewrite Hq. split; [apply Z.div_pos; lia|]. apply Z.div_le_upper_bound; [lia|]. nia. }
  apply round_aux_finite; [lia|lia|]. assert (Zdigits2 q ≤ 106); [|lia]. apply digits_lt; [lia|lia|].
  pose proof (digits_bounds (shiftp a n)) as [_ Hs]. rewrite digits_shiftp in Hs. replace (Zpos (digits2_pos a) + Z.of_nat n) with 53 in Hs by lia.
  change (2^106) with (2^53 * 2^53). lia.
Qed.

(** ** Comparing numbers *)

Lemma dle_dlt x y : isnan x = false → isnan y = false → dle x y = negb (dlt y x).
Proof.
  intros Hx Hy. unfold dle, dlt, SFleb, SFltb. destruct x as [[]|[]| |[] m e], y as [[]|[]| |[] m' e']; try done; cbn [SFcompare];
    rewrite (Z.compare_antisym e e'); destruct (e ?= e')%Z; cbn [CompOpp]; try done;
    change (Pos.compare_cont Eq m m') with (Pos.compare m m'); change (Pos.compare_cont Eq m' m) with (Pos.compare m' m);
    rewrite (Pos.compare_antisym m m'); by destruct (m ?= m')%positive.
Qed.

(** Multiplying by a number that is neither zero nor infinite. *)
Lemma dmul_number x s m e : isnan x = false → isnan (dmul x (S754_finite s m e)) = false.
Proof.
  destruct x as [s'|s'| |s' m' e']; try done; intros _; cbn. eapply sign_number, round_aux_sign. lia.
Qed.
Lemma dsub_number x y : isnan x = false → is_finite y = true → isnan (dsub x y) = false.
Proof.
  destruct x as [s|s| |s m e], y as [s'|s'| |s' m' e']; try done; intros _ _; [by destruct s, s'|]. apply normalize_number.
Qed.

Lemma double_of_int_finite z : 0 ≤ z < 2^53 → is_finite (double_of_int z) = true.
Proof. intros Hz. destruct z as [|p|]; [done| |lia]. by rewrite double_of_int_dyadic by (unfold fits; lia). Qed.
