(* ===== verification/Stats.v ===== *)
(** * Samples: [struct stats] of [hypermemloganalyze/common/minixteststats.c]

    A growing array of measurements with their sum and the sum of their squares.
    Percentiles sort the array in place the first time they are asked for.
    [qsort] is modelled as a sort with the comparison of the source; which of two
    equal values comes first does not matter. *)

From Stdlib Require Import ZArith Lia Sorting.Sorted Floats.SpecFloat.
From stdpp Require Import base list numbers sorting.
From S2P Require Import Prelude Double.

(** ** Data and operations *)

(** [stat_n] is [n], the number of [values]. *)
Record stats := {
  values : list double;
  valuessize : Z;
  valuessorted : bool;
  stat_sum : double;
  stat_sum2 : double;
}.
Definition stat_n (st : stats) : Z := Z.of_nat (length (values st)).
Definition NAN : double := S754_nan.

(** A zeroed structure. *)
Definition stats_zero : stats :=
  {| values := []; valuessize := 0; valuessorted := false; stat_sum := zero; stat_sum2 := zero |}.

Definition stats_sort_compare (v1 v2 : double) : Z := if dlt v1 v2 then -1 else if dlt v2 v1 then 1 else 0.

Fixpoint insert_value (v : double) (l : list double) : list double :=
  match l with
  | [] => [v]
  | x :: l' => if 0 <? stats_sort_compare x v then v :: x :: l' else x :: insert_value v l'
  end.
Definition qsort (l : list double) : list double := foldr insert_value [] l.

Definition stats_sort (st : stats) : stats :=
  if valuessorted st then st
  else {| values := qsort (values st); valuessize := valuessize st; valuessorted := true; stat_sum := stat_sum st; stat_sum2 := stat_sum2 st |}.

Definition stats_add (st : stats) (value : double) : res stats :=
  if isnan value then Ret st
  else
    let size := if valuessize st <=? stat_n st then
                  if valuessize st <? 32 then 32 else u64 (valuessize st * 2)
                else valuessize st in
    if size <=? stat_n st then Stop FBounds
    else
      let! _ := chk32 (stat_n st + 1) in
      Ret {| values := values st ++ [value]; valuessize := size; valuessorted := false;
             stat_sum := dadd (stat_sum st) value; stat_sum2 := dadd (stat_sum2 st) (dmul value value) |}.

Definition stats_add_pct (st : stats) (count total : Z) : res stats :=
  if 0 <? total then stats_add st (ddiv (dmul (double_of_int count) (double_of_int 100)) (double_of_int total)) else Ret st.

Definition value_at (st : stats) (i : Z) : res double :=
  if i <? 0 then Stop FBounds else match values st !! Z.to_nat i with None => Stop FBounds | Some v => Ret v end.

(** [for (i = 0; i < n; i++) sum += stats->values[i + remove_low]]. *)
Fixpoint trunc_loop (st : stats) (fuel : nat) (i : Z) (acc : double) : res double :=
  match fuel with
  | O => Ret acc
  | S fuel' => let! v := value_at st i in trunc_loop st fuel' (i + 1) (dadd acc v)
  end.

Definition stats_mean_trunc (st : stats) (remove_low remove_high : Z) : res (double * stats) :=
  assert! (0 <=? remove_low) in
  assert! (0 <=? remove_high) in
  let! m := chk32 (stat_n st - remove_low) in
  let! m := chk32 (m - remove_high) in
  assert! (0 <=? m) in
  if m <=? 0 then Ret (NAN, st)
  else
    let st := stats_sort st in
    let! s := trunc_loop st (Z.to_nat m) remove_low zero in
    Ret (ddiv s (double_of_int m), st).

Definition stats_mean_unixbench (st : stats) : res (double * stats) := stats_mean_trunc st (Z.quot (stat_n st) 3) 0.

Definition stats_percentile (st : stats) (percentile : double) : res (double * stats) :=
  assert! (dle zero percentile) in
  assert! (dle percentile (double_of_int 100)) in
  if stat_n st <=? 0 then Ret (NAN, st)
  else
    let st := stats_sort st in
    let index := ddiv (dmul percentile (double_of_int (stat_n st - 1))) (double_of_int 100) in
    let! index_int := floor_int index in
    let factor := dsub index (double_of_int index_int) in
    let! v := value_at st index_int in
    let result := dmul (dsub one factor) v in
    if index_int + 1 <? stat_n st then
      let! v := value_at st (index_int + 1) in
      Ret (dadd result (dmul factor v), st)
    else Ret (result, st).

Definition stats_max (st : stats) : res (double * stats) := stats_percentile st (double_of_int 100).
Definition stats_min (st : stats) : res (double * stats) := stats_percentile st (double_of_int 0).
Definition stats_median (st : stats) : res (double * stats) := stats_percentile st (double_of_int 50).

Definition stats_mean (st : stats) : double := if 0 <? stat_n st then ddiv (stat_sum st) (double_of_int (stat_n st)) else NAN.
Definition stats_var (st : stats) : double :=
  if 1 <? stat_n st then
    ddiv (dsub (stat_sum2 st) (ddiv (dmul (stat_sum st) (stat_sum st)) (double_of_int (stat_n st)))) (double_of_int (stat_n st - 1))
  else NAN.
Definition stats_stdev (st : stats) : double := dsqrt (stats_var st).
Definition stats_stderr (st : stats) : double := if 0 <? stat_n st then dsqrt (ddiv (stats_var st) (double_of_int (stat_n st))) else NAN.

(** ** Sorting *)

Definition not_less (x y : double) : Prop := dlt y x = false.
Definition numbers (l : list double) : Prop := Forall (λ v, isnan v = false) l.

Lemma insert_value_perm v l : insert_value v l ≡ₚ v :: l.
Proof.
  induction l as [|x l IH]; [done|]. cbn [insert_value]. case_match; [done|]. rewrite IH. by apply Permutation_swap.
Qed.

Lemma qsort_perm l : qsort l ≡ₚ l.
Proof. induction l as [|v l IH]; [done|]. cbn [qsort foldr]. rewrite insert_value_perm. by f_equiv. Qed.

Lemma numbers_perm l l' : l ≡ₚ l' → numbers l → numbers l'.
Proof. intros Hp Hl. unfold numbers. by rewrite <- Hp. Qed.

Lemma compare_pos x v : isnan x = false → isnan v = false → (0 <? stats_sort_compare x v) = dlt v x.
Proof.
  intros Hx Hv. unfold stats_sort_compare. destruct (dlt x v) eqn:E; [by rewrite (dlt_asym x v)|]. by destruct (dlt v x).
Qed.

Lemma insert_value_sorted v l :
  isnan v = false → numbers l → StronglySorted not_less l → StronglySorted not_less (insert_value v l).
Proof.
  intros Hv Hl Hs. induction Hs as [|x l Hs IH Hx]; [by repeat constructor|].
  apply Forall_cons in Hl as [Hnx Hl]. cbn [insert_value]. rewrite compare_pos by done.
  destruct (dlt v x) eqn:E.
  - constructor; [by constructor|]. constructor; [by apply dlt_asym|].
    rewrite Forall_forall in *. intros y Hy. eapply dlt_false_trans; [exact Hv|exact Hnx|by apply Hl|by apply dlt_asym|by apply Hx].
  - constructor; [by apply IH|]. rewrite insert_value_perm. by constructor.
Qed.

Lemma qsort_sorted l : numbers l → StronglySorted not_less (qsort l).
Proof.
  induction 1 as [|v l Hv Hl IH]; [constructor|]. apply insert_value_sorted; [done| |done].
  by eapply numbers_perm; [symmetry; apply qsort_perm|].
Qed.

(** ** The invariant: what was added *)

Record stats_ok (added : list double) (st : stats) : Prop := {
  st_values : values st ≡ₚ added;
  st_numbers : numbers added;
  st_sum : stat_sum st = foldl dadd zero added;
  st_sum2 : stat_sum2 st = foldl (λ s v, dadd s (dmul v v)) zero added;
  st_size : stat_n st ≤ valuessize st ≤ 2^32;
  st_int : stat_n st < 2^31;
  st_sorted : valuessorted st = true → StronglySorted not_less (values st);
}.

Lemma stats_zero_ok : stats_ok [] stats_zero.
Proof. constructor; try done. by constructor. Qed.

Lemma stats_n added st : stats_ok added st → stat_n st = Z.of_nat (length added).
Proof. intros H. unfold stat_n. by rewrite (st_values _ _ H). Qed.

(** Adding never leaves the array; only 2^31 - 1 values can be counted. *)
Lemma stats_add_ok added st v : stats_ok added st →
  (stat_n st + 1 < 2^31 → ∃ st', stats_add st v = Ret st' ∧ stats_ok (if isnan v then added else added ++ [v]) st') ∧
  ∀ f, stats_add st v = Stop f → f = FOverflow.
Proof.
  intros H. unfold stats_add. destruct (isnan v) eqn:Hv; [split; [intros _; by exists st|done]|].
  set (size := if valuessize st <=? stat_n st then _ else _).
  assert (Hsize : stat_n st < size ≤ 2^32).
  { pose proof (st_size _ _ H). pose proof (st_int _ _ H). unfold size.
    destruct (Z.leb_spec (valuessize st) (stat_n st)), (Z.ltb_spec (valuessize st) 32); try lia; rewrite u64_small; lia. }
  destruct (Z.leb_spec size (stat_n st)); [lia|]. split.
  - intros Hn. rewrite chk32_ok by (unfold stat_n in *; lia). cbn [res_bind]. eexists. split; [done|].
    constructor; cbn [values valuessize valuessorted stat_sum stat_sum2].
    + by rewrite (st_values _ _ H).
    + apply Forall_app. split; [apply (st_numbers _ _ H)|by repeat constructor].
    + by rewrite foldl_app, (st_sum _ _ H).
    + by rewrite foldl_app, (st_sum2 _ _ H).
    + unfold stat_n in *. cbn [values]. rewrite length_app. cbn [length]. lia.
    + unfold stat_n in *. cbn [values]. rewrite length_app. cbn [length]. lia.
    + done.
  - intros f. destruct (chk32 _) eqn:E; cbn [res_bind]; [done|]. intros [= <-]. by eapply chk32_stop.
Qed.

Lemma stats_sort_ok added st : stats_ok added st → stats_ok added (stats_sort st) ∧
  StronglySorted not_less (values (stats_sort st)) ∧ stat_n (stats_sort st) = stat_n st.
Proof.
  intros H. unfold stats_sort. destruct (valuessorted st) eqn:E; [split_and!; [done|by apply (st_sorted _ _ H)|done]|].
  assert (Hs : StronglySorted not_less (qsort (values st))).
  { apply qsort_sorted. eapply numbers_perm; [symmetry; apply (st_values _ _ H)|apply (st_numbers _ _ H)]. }
  assert (Hn : Z.of_nat (length (qsort (values st))) = stat_n st) by (unfold stat_n; by rewrite qsort_perm).
  split_and!; [|done|done]. destruct H. constructor; try done; cbn [values valuessize]; [by rewrite qsort_perm| |]; unfold stat_n in *; cbn [values]; lia.
Qed.

(** Adding a sequence of values. *)
Definition stats_add_all (st : stats) (vs : list double) : res stats := res_foldl stats_add st vs.

Lemma stats_add_all_ok vs added st : stats_ok added st → stat_n st + Z.of_nat (length vs) < 2^31 →
  ∃ st', stats_add_all st vs = Ret st' ∧ stats_ok (added ++ filter (λ v, isnan v = false) vs) st'.
Proof.
  revert added st. induction vs as [|v vs IH]; intros added st H Hn; [exists st; by rewrite app_nil_r|].
  cbn [length] in Hn. destruct (stats_add_ok added st v H) as [Ha _]. destruct Ha as (st' & Hst & H'); [lia|].
  unfold stats_add_all in *. cbn [res_foldl]. rewrite Hst. cbn [res_bind]. rewrite filter_cons. destruct (isnan v) eqn:Hv.
  - rewrite decide_False by done. apply IH; [done|]. rewrite (stats_n _ _ H'), <- (stats_n _ _ H). lia.
  - rewrite decide_True by done. destruct (IH (added ++ [v]) st' H') as (st2 & -> & H2).
    + rewrite (stats_n _ _ H'), length_app. cbn [length]. rewrite (stats_n _ _ H) in Hn. lia.
    + exists st2. split; [done|]. by rewrite <- app_assoc in H2.
Qed.

(** ** Order statistics *)

(** [v] is the value number [q] (from 0) in the order of the values. *)
Definition ranked (l : list double) (q : nat) (v : double) : Prop :=
  v ∈ l ∧ (length (filter (λ x, dlt x v = true) l) ≤ q)%nat ∧
  (length (filter (λ x, dlt v x = true) l) ≤ length l - 1 - q)%nat.

Lemma filter_nil_forall {A} (P : A → Prop) `{∀ x, Decision (P x)} l : Forall (λ x, ¬ P x) l → filter P l = [].
Proof. induction 1 as [|x l Hx _ IH]; [done|]. by rewrite filter_cons, decide_False. Qed.

Lemma strongly_sorted_split (l1 l2 : list double) v :
  StronglySorted not_less (l1 ++ v :: l2) → Forall (λ x, not_less x v) l1 ∧ Forall (not_less v) l2.
Proof.
  induction l1 as [|x l1 IH]; intros H; inversion H as [|? ? Hs Hx]; subst; [by split|].
  destruct (IH Hs) as [H1 H2]. split; [|done]. constructor; [|done]. rewrite Forall_app, Forall_cons in Hx. tauto.
Qed.

Lemma dlt_irrefl v : isnan v = false → dlt v v = false.
Proof. intros Hv. destruct (dlt v v) eqn:E; [|done]. by rewrite (dlt_asym v v) in E. Qed.

Lemma sorted_ranked l q v : numbers l → StronglySorted not_less l → l !! q = Some v → ranked l q v.
Proof.
  intros Hn Hs Hq. split; [by eapply list_elem_of_lookup_2|].
  assert (Hv : isnan v = false) by (eapply Forall_lookup_1 in Hn; [exact Hn|exact Hq]).
  pose proof (lookup_lt_Some _ _ _ Hq) as Hlt. rewrite <- (take_drop_middle l q v Hq) in Hs. apply strongly_sorted_split in Hs as [H1 H2].
  rewrite <- (take_drop_middle l q v Hq) at 1 2. rewrite !filter_app, !filter_cons.
  rewrite !decide_False by (by rewrite dlt_irrefl). rewrite !length_app. split.
  - rewrite (filter_nil_forall _ (drop (S q) l)) by (eapply Forall_impl; [exact H2|]; intros x Hx; unfold not_less in Hx; by rewrite Hx).
    cbn [length]. rewrite Nat.add_0_r. etransitivity; [apply length_filter|]. rewrite length_take. lia.
  - rewrite (filter_nil_forall _ (take q l)) by (eapply Forall_impl; [exact H1|]; intros x Hx; unfold not_less in Hx; by rewrite Hx).
    cbn [length Nat.add]. etransitivity; [apply length_filter|]. rewrite length_drop. lia.
Qed.

Lemma ranked_perm l l' q v : l ≡ₚ l' → ranked l q v → ranked l' q v.
Proof. intros Hp (H1 & H2 & H3). unfold ranked. by rewrite <- Hp. Qed.

Lemma double_of_int_0 : double_of_int 0 = zero.
Proof. done. Qed.

Lemma index_exact p m q k : 0 ≤ p ≤ 100 → 0 ≤ m < 2^31 → 0 ≤ q → Z.of_nat k ≤ 1 → p * m * 2^(Z.of_nat k) = 100 * q →
  ddiv (dmul (double_of_int p) (double_of_int m)) (double_of_int 100) = if q =? 0 then zero else dyadic (Z.to_pos q) k.
Proof.
  intros Hp Hm Hq Hk He.
  assert (H100 : double_of_int 100 = dyadic 100 0) by (by apply double_of_int_dyadic). rewrite H100.
  assert (Hpow : 1 ≤ 2^Z.of_nat k ≤ 2) by (destruct k as [|[|k]]; [by cbn|by cbn|lia]).
  destruct p as [|p|p]; [|destruct m as [|m|m]|]; try lia.
  - assert (q = 0) as -> by lia. destruct m as [|m|m]; [done| |lia]. by rewrite double_of_int_0, double_of_int_dyadic by (unfold fits; lia).
  - assert (q = 0) as -> by lia. by rewrite double_of_int_0, double_of_int_dyadic by (unfold fits; lia).
  - destruct q as [|q|q]; [nia| |lia]. cbn [Z.eqb Z.to_pos].
    rewrite !double_of_int_dyadic by (unfold fits; lia). assert (Hpm : Zpos p * Zpos m ≤ 100 * 2^31) by nia.
    rewrite dmul_exact by (unfold fits; rewrite Pos2Z.inj_mul; lia).
    apply ddiv_exact; unfold fits; rewrite ?Pos2Z.inj_mul; try lia. nia.
Qed.

Definition measurements (l : list double) : Prop := Forall (λ v, is_finite v = true ∧ dvalid v = true) l.

Lemma value_at_lookup st (q : nat) : (q < length (values st))%nat → ∃ v, values st !! q = Some v ∧ value_at st (Z.of_nat q) = Ret v.
Proof.
  intros Hq. destruct (lookup_lt_is_Some_2 _ _ Hq) as [v Hv]. exists v. split; [done|]. unfold value_at.
  destruct (Z.ltb_spec (Z.of_nat q) 0); [lia|]. by rewrite Nat2Z.id, Hv.
Qed.

Lemma deq_add_zero v s : is_finite v = true → deq (dadd v (S754_zero s)) v = true.
Proof.
  intros Hv. destruct v as [[]|?| |? m e]; try done; [by destruct s|by destruct s|].
  change (deq (S754_finite s0 m e) (S754_finite s0 m e) = true). by apply deq_refl.
Qed.

Lemma dmul_zero v : is_finite v = true → ∃ s, dmul zero v = S754_zero s.
Proof. destruct v as [s|?| |s m e]; try done; intros _; by exists (xorb false s). Qed.

Lemma finite_nan v : is_finite v = true → isnan v = false.
Proof. by destruct v. Qed.

Section Percentile.
Variables (added : list double) (st : stats).
Hypothesis Hok : stats_ok added st.
Hypothesis Hne : added ≠ [].
Hypothesis Hms : measurements added.

Lemma sample_size : 1 ≤ stat_n st < 2^31.
Proof.
  pose proof (st_int _ _ Hok). rewrite (stats_n _ _ Hok) in *. destruct added; [done|]. cbn [length] in *. lia.
Qed.

(** The value at a position of the sorted array. *)
Lemma sorted_value (q : nat) : Z.of_nat q < stat_n st → ∃ v, value_at (stats_sort st) (Z.of_nat q) = Ret v ∧
  ranked added q v ∧ is_finite v = true ∧ dvalid v = true.
Proof.
  intros Hq. destruct (stats_sort_ok _ _ Hok) as (H1 & H2 & H3).
  destruct (value_at_lookup (stats_sort st) q) as (v & Hv & Hat); [unfold stat_n in *; lia|]. exists v. split; [done|].
  assert (Hr : ranked added q v).
  { eapply ranked_perm; [apply (st_values _ _ H1)|]. apply sorted_ranked; [|done|done].
    eapply numbers_perm; [symmetry; apply (st_values _ _ H1)|apply (st_numbers _ _ H1)]. }
  split; [done|]. destruct Hr as [Hin _]. unfold measurements in Hms. rewrite Forall_forall in Hms. by apply Hms.
Qed.

(** A percentile that falls on a value is this value ... *)
Lemma percentile_exact p (q : nat) :
  0 ≤ p ≤ 100 → dle zero (double_of_int p) && dle (double_of_int p) (double_of_int 100) = true →
  p * (stat_n st - 1) = 100 * Z.of_nat q →
  ∃ r v, stats_percentile st (double_of_int p) = Ret (r, stats_sort st) ∧ ranked added q v ∧ deq r v = true.
Proof.
  intros Hp [Ha1 Ha2]%andb_true_iff He. pose proof sample_size as Hn. destruct (stats_sort_ok _ _ Hok) as (_ & _ & Hsn).
  assert (Hqn : Z.of_nat q < stat_n st) by nia. unfold stats_percentile. rewrite Ha1, Ha2. destruct (Z.leb_spec (stat_n st) 0); [lia|].
  rewrite Hsn, (index_exact p (stat_n st - 1) (Z.of_nat q) 0) by (cbn [Z.of_nat]; lia).
  destruct (sorted_value q Hqn) as (v & Hv & Hr & Hf & Hd).
  set (index := if Z.of_nat q =? 0 then zero else _).
  assert (Hidx : floor_int index = Ret (Z.of_nat q) ∧ dsub index (double_of_int (Z.of_nat q)) = zero).
  { unfold index. destruct (Z.eqb_spec (Z.of_nat q) 0) as [->|Hq0]; [done|].
    destruct (Z.of_nat q) as [|z|z] eqn:Ez; try lia. cbn [Z.to_pos]. rewrite floor_dyadic; change (2^Z.of_nat 0) with 1; rewrite ?Z.div_1_r; [|lia|lia|lia]. split; [done|].
    rewrite double_of_int_dyadic by (unfold fits; lia). apply dsub_self. }
  destruct Hidx as [Hi1 Hi2]. rewrite Hi1. cbn [res_bind]. rewrite Hi2, Hv. cbn [res_bind].
  change (dsub one zero) with one. rewrite dmul_one by done. destruct (Z.ltb_spec (Z.of_nat q + 1) (stat_n st)) as [Hlt|Hge].
  - destruct (sorted_value (S q)) as (v1 & Hv1 & _ & Hf1 & _); [lia|]. rewrite Nat2Z.inj_succ, <- Z.add_1_r in Hv1.
    rewrite Hv1. cbn [res_bind]. destruct (dmul_zero v1 Hf1) as [s ->]. eexists _, v. split_and!; [done|done|by apply deq_add_zero].
  - eexists _, v. split_and!; [done|done|]. by apply deq_refl, finite_nan.
Qed.

(** ... and one that falls in the middle of two is half of each. *)
Lemma percentile_middle p (q : nat) :
  0 ≤ p ≤ 100 → dle zero (double_of_int p) && dle (double_of_int p) (double_of_int 100) = true →
  p * (stat_n st - 1) * 2 = 100 * (2 * Z.of_nat q + 1) →
  ∃ v w, stats_percentile st (double_of_int p) = Ret (dadd (dmul half v) (dmul half w), stats_sort st) ∧
    ranked added q v ∧ ranked added (S q) w.
Proof.
  intros Hp [Ha1 Ha2]%andb_true_iff He. pose proof sample_size as Hn. destruct (stats_sort_ok _ _ Hok) as (_ & _ & Hsn).
  assert (Hqn : Z.of_nat q + 1 < stat_n st) by nia. unfold stats_percentile. rewrite Ha1, Ha2. destruct (Z.leb_spec (stat_n st) 0); [lia|].
  rewrite Hsn, (index_exact p (stat_n st - 1) (2 * Z.of_nat q + 1) 1) by (cbn [Z.of_nat]; lia).
  destruct (sorted_value q ltac:(lia)) as (v & Hv & Hr & _). destruct (sorted_value (S q) ltac:(lia)) as (w & Hw & Hrw & _).
  rewrite Nat2Z.inj_succ, <- Z.add_1_r in Hw. destruct (Z.eqb_spec (2 * Z.of_nat q + 1) 0); [lia|].
  set (index := dyadic _ _).
  assert (Hidx : floor_int index = Ret (Z.of_nat q) ∧ dsub index (double_of_int (Z.of_nat q)) = half).
  { unfold index. destruct (Z.of_nat q) as [|z|z] eqn:Ez; [done| |lia]. change (2 * Zpos z + 1) with (Zpos z~1). cbn [Z.to_pos].
    split; [|apply dsub_half; unfold fits; lia]. assert (Hdiv : Zpos z~1 / 2^Z.of_nat 1 = Zpos z).
    { symmetry. apply (Z.div_unique _ _ _ 1); change (2^Z.of_nat 1) with 2; lia. }
    rewrite floor_dyadic; rewrite ?Hdiv; [done|lia|cbn; lia|lia]. }
  destruct Hidx as [Hi1 Hi2]. rewrite Hi1. cbn [res_bind]. rewrite Hi2, Hv. cbn [res_bind].
  destruct (Z.ltb_spec (Z.of_nat q + 1) (stat_n st)) as [_|]; [|lia]. rewrite Hw. cbn [res_bind].
  change (dsub one half) with half. eexists v, w. done.
Qed.
End Percentile.

(** Minimum, maximum and median of a sample that holds the values [added]. *)
Lemma order_statistics_of added st :
  stats_ok added st → added ≠ [] → measurements added →
  let st' := stats_sort st in let len := length added in
  stats_ok added st' ∧
  (∃ r v, stats_min st = Ret (r, st') ∧ ranked added 0 v ∧ deq r v = true) ∧
  (∃ r v, stats_max st = Ret (r, st') ∧ ranked added (len - 1) v ∧ deq r v = true) ∧
  if Nat.odd len
  then ∃ r v, stats_median st = Ret (r, st') ∧ ranked added (Nat.div2 len) v ∧ deq r v = true
  else ∃ v w, stats_median st = Ret (dadd (dmul half v) (dmul half w), st') ∧
         ranked added (Nat.div2 len - 1) v ∧ ranked added (Nat.div2 len) w.
Proof.
  intros Hok Hne Hms. cbv zeta. pose proof (sample_size _ _ Hok Hne Hms) as Hn. pose proof (stats_n _ _ Hok) as Hl.
  split; [apply (stats_sort_ok _ _ Hok)|]. split_and!.
  - apply (percentile_exact _ _ Hok Hne Hms 0 0); [lia|reflexivity|lia].
  - apply (percentile_exact _ _ Hok Hne Hms 100 (length added - 1)); [lia|reflexivity|lia].
  - pose proof (Nat.div2_odd (length added)) as Hd. destruct (Nat.odd (length added)); cbn [Nat.b2n] in Hd; revert Hd; generalize (Nat.div2 (length added)); intros d Hd.
    + apply (percentile_exact _ _ Hok Hne Hms 50); [lia|reflexivity|lia].
    + destruct (percentile_middle _ _ Hok Hne Hms 50 (d - 1)) as (v & w & Hr & Hv & Hw); [lia|reflexivity|lia|].
      exists v, w. by replace (S (d - 1)) with d in Hw by lia.
Qed.

(** *** Questions between additions

    The statistics are asked for while the sample still grows, and every question
    sorts the array in place. *)

Inductive sample_op :=
  | AddValue (v : double)
  | AskMin
  | AskMax
  | AskMedian.

Definition sample_step (st : stats) (o : sample_op) : res stats :=
  match o with
  | AddValue v => stats_add st v
  | AskMin => let! r := stats_min st in Ret r.2
  | AskMax => let! r := stats_max st in Ret r.2
  | AskMedian => let! r := stats_median st in Ret r.2
  end.

(** What a sequence of operations adds: a value that is not a number is ignored. *)
Definition added_by (o : sample_op) : list double :=
  match o with
  | AddValue v => if isnan v then [] else [v]
  | _ => []
  end.
Definition added_values (ops : list sample_op) : list double := ops ≫= added_by.

Lemma stats_sort_sorted st : valuessorted (stats_sort st) = true.
Proof. unfold stats_sort. by destruct (valuessorted st) eqn:E. Qed.

Lemma stats_sort_again st : stats_sort (stats_sort st) = stats_sort st.
Proof. unfold stats_sort at 1. by rewrite stats_sort_sorted. Qed.

(** A question finds the sorted array of the one before. *)
Lemma percentile_again added st p : stats_ok added st → added ≠ [] →
  stats_percentile (stats_sort st) p = stats_percentile st p.
Proof.
  intros Hok Hne. destruct (stats_sort_ok _ _ Hok) as (_ & _ & Hn). unfold stats_percentile.
  rewrite stats_sort_again, Hn. pose proof (stats_n _ _ Hok). destruct (Z.leb_spec (stat_n st) 0); [|done].
  destruct added; [done|cbn [length] in *; lia].
Qed.

Lemma question_keeps_sample added st o : stats_ok added st → measurements added → added_by o = [] →
  (∀ v, o ≠ AddValue v) → ∃ st', sample_step st o = Ret st' ∧ stats_ok added st'.
Proof.
  intros Hok Hms Ho Hq. destruct (decide (added = [])) as [->|Hne].
  - exists st. split; [|done]. assert (Hn : stat_n st = 0) by (by rewrite (stats_n _ _ Hok)).
    destruct o; [by edestruct Hq|..]; cbn [sample_step]; unfold stats_min, stats_max, stats_median, stats_percentile; by rewrite Hn.
  - exists (stats_sort st). split; [|apply (stats_sort_ok _ _ Hok)].
    destruct (order_statistics_of _ _ Hok Hne Hms) as (_ & (? & ? & Hmin & _) & (? & ? & Hmax & _) & Hmed).
    destruct o; [by edestruct Hq|..]; cbn [sample_step]; [by rewrite Hmin|by rewrite Hmax|].
    destruct (Nat.odd (length added)); destruct Hmed as (? & ? & -> & _); done.
Qed.

Lemma added_values_cons o ops : added_values (o :: ops) = added_by o ++ added_values ops.
Proof. done. Qed.

Lemma sample_run_ok ops added st : stats_ok added st → measurements (added ++ added_values ops) →
  Z.of_nat (length (added ++ added_values ops)) < 2^31 →
  ∃ st', res_foldl sample_step st ops = Ret st' ∧ stats_ok (added ++ added_values ops) st'.
Proof.
  revert added st. induction ops as [|o ops IH]; intros added st Hok Hms Hlen; [exists st; by rewrite app_nil_r|].
  rewrite added_values_cons, app_assoc in *. cbn [res_foldl].
  assert (∃ st', sample_step st o = Ret st' ∧ stats_ok (added ++ added_by o) st') as (st' & -> & Hok').
  { destruct o as [v| | |]; [destruct (isnan v) eqn:Hv|..].
    - cbn [added_by sample_step]. unfold stats_add. rewrite Hv, app_nil_r. by exists st.
    - cbn [added_by sample_step] in *. rewrite Hv in *. destruct (stats_add_ok added st v Hok) as [Ha _]. rewrite Hv in Ha.
      apply Ha. rewrite (stats_n _ _ Hok). rewrite !length_app in Hlen. cbn [length] in Hlen. lia.
    - rewrite app_nil_r; apply question_keeps_sample; try done; apply Forall_app in Hms as [Hms _]; by apply Forall_app in Hms as [Hms _].
    - rewrite app_nil_r; apply question_keeps_sample; try done; apply Forall_app in Hms as [Hms _]; by apply Forall_app in Hms as [Hms _].
    - rewrite app_nil_r; apply question_keeps_sample; try done; apply Forall_app in Hms as [Hms _]; by apply Forall_app in Hms as [Hms _]. }
  cbn [res_bind]. by apply IH.
Qed.

(** C29: minimum, maximum and median.  Values are added to an empty sample and
    its minimum, maximum and median are asked for, in any order and as often as one
    likes.  Provided that the values added (those that are not a number are ignored)
    are finite and that there is one and are fewer than 2^31, every operation
    returns, and in the end [stats_min] gives a smallest value added, [stats_max] a
    largest one, and [stats_median] the one in the middle, or the sum of half of each
    of the two in the middle.  A question leaves the sample [st'], which has the same
    values and sums, sorted and marked as sorted: asking it anything again gives the
    answer of [st] and sorts nothing. *)
Theorem order_statistics ops :
  let added := added_values ops in let len := length added in
  added ≠ [] → measurements added → Z.of_nat len < 2^31 →
  ∃ st, res_foldl sample_step stats_zero ops = Ret st ∧ let st' := stats_sort st in
  stats_ok added st ∧ stats_ok added st' ∧
  StronglySorted not_less (values st') ∧ valuessorted st' = true ∧ stats_sort st' = st' ∧
  (∀ p, stats_percentile st' p = stats_percentile st p) ∧
  (∃ r v, stats_min st = Ret (r, st') ∧ ranked added 0 v ∧ deq r v = true) ∧
  (∃ r v, stats_max st = Ret (r, st') ∧ ranked added (len - 1) v ∧ deq r v = true) ∧
  if Nat.odd len
  then ∃ r v, stats_median st = Ret (r, st') ∧ ranked added (Nat.div2 len) v ∧ deq r v = true
  else ∃ v w, stats_median st = Ret (dadd (dmul half v) (dmul half w), st') ∧
         ranked added (Nat.div2 len - 1) v ∧ ranked added (Nat.div2 len) w.
Proof.
  intros added len Hne Hms Hlen. destruct (sample_run_ok ops [] stats_zero stats_zero_ok Hms Hlen) as (st & Hst & Hok).
  exists st. split; [done|]. cbv zeta. destruct (order_statistics_of _ _ Hok Hne Hms) as (Hok' & Hstat).
  split; [done|]. split; [done|]. split; [apply (stats_sort_ok _ _ Hok)|]. split; [apply stats_sort_sorted|].
  split; [apply stats_sort_again|]. split; [|done]. intros p. by eapply percentile_again.
Qed.

(** ** Means *)

Lemma trunc_loop_spec st fuel i acc : 0 ≤ i → i + Z.of_nat fuel ≤ stat_n st →
  trunc_loop st fuel i acc = Ret (foldl dadd acc (take fuel (drop (Z.to_nat i) (values st)))).
Proof.
  revert i acc. induction fuel as [|fuel IH]; intros i acc Hi Hn; [done|]. cbn [trunc_loop].
  destruct (value_at_lookup st (Z.to_nat i)) as (v & Hv & Hat); [unfold stat_n in Hn; lia|]. rewrite Z2Nat.id in Hat by lia.
  rewrite Hat. cbn [res_bind]. rewrite IH by lia. f_equal. rewrite (drop_S _ _ _ Hv). cbn [take foldl].
  by replace (Z.to_nat (i + 1)) with (S (Z.to_nat i)) by lia.
Qed.

(** The truncated mean.  It is the mean, summed from small to large, of the
    values that remain in order of size after removing so many from both ends; no
    value is read outside of the array, and an assertion fails only when more
    values are to be removed than there are. *)
Theorem truncated_mean added st low high :
  stats_ok added st → 0 ≤ low < 2^30 → 0 ≤ high < 2^30 →
  let sorted := values (stats_sort st) in
  let kept := take (length added - Z.to_nat low - Z.to_nat high) (drop (Z.to_nat low) sorted) in
  sorted ≡ₚ added ∧ StronglySorted not_less sorted ∧
  match stats_mean_trunc st low high with
  | Ret (r, st') =>
      stats_ok added st' ∧ low + high ≤ Z.of_nat (length added) ∧
      r = (if low + high =? Z.of_nat (length added) then NAN
           else ddiv (foldl dadd zero kept) (double_of_int (Z.of_nat (length kept))))
  | Stop f => f = FAssert ∧ Z.of_nat (length added) < low + high
  end.
Proof.
  intros Hok Hlow Hhigh. cbv zeta. destruct (stats_sort_ok _ _ Hok) as (H1 & H2 & H3).
  pose proof (stats_n _ _ Hok) as Hl. pose proof (st_int _ _ Hok) as Hint. pose proof (st_values _ _ H1) as Hp.
  split; [done|]. split; [done|]. unfold stats_mean_trunc. destruct (Z.leb_spec 0 low), (Z.leb_spec 0 high); try lia.
  assert (Hnn : 0 ≤ stat_n st) by (unfold stat_n; lia). rewrite chk32_ok by lia. cbn [res_bind]. rewrite chk32_ok by lia. cbn [res_bind].
  destruct (Z.leb_spec 0 (stat_n st - low - high)) as [Hm|Hm]; [|split; [done|lia]].
  destruct (Z.leb_spec (stat_n st - low - high) 0) as [Hz|Hz].
  - split_and!; [done|lia|]. by destruct (Z.eqb_spec (low + high) (Z.of_nat (length added))); [|lia].
  - rewrite trunc_loop_spec by lia. cbn [res_bind]. split_and!; [done|lia|].
    destruct (Z.eqb_spec (low + high) (Z.of_nat (length added))); [lia|].
    replace (Z.to_nat (stat_n st - low - high)) with (length added - Z.to_nat low - Z.to_nat high)%nat by lia.
    f_equal. rewrite length_take, length_drop, Hp. f_equal. lia.
Qed.

(** The mean of everything that was added, in the order of addition. *)
Lemma mean_of_added added st : stats_ok added st → added ≠ [] →
  stats_mean st = ddiv (foldl dadd zero added) (double_of_int (Z.of_nat (length added))).
Proof.
  intros Hok Hne. unfold stats_mean. rewrite (stats_n _ _ Hok), (st_sum _ _ Hok).
  destruct added as [|v added]; [done|]. by destruct (Z.ltb_spec 0 (Z.of_nat (length (v :: added)))); [|cbn [length] in *; lia].
Qed.

(** A smallest value is lost next to an infinite one: zero times infinity is not a
    number. *)
Lemma min_next_to_infinity :
  ∃ st, stats_add_all stats_zero [S754_infinity false; one] = Ret st ∧ (λ r, r.1) <$> (match stats_min st with Ret x => Some x | _ => None end) = Some NAN.
Proof. eexists. split; [reflexivity|]. vm_compute. reflexivity. Qed.

(** ** Examples *)

Definition demo_sample : list double := double_of_int <$> [5; 1; 4; 2].
Definition demo_stats : stats := ret_or stats_zero (stats_add_all stats_zero demo_sample).

Lemma demo_sample_ok : stats_ok demo_sample demo_stats.
Proof.
  destruct (stats_add_all_ok demo_sample [] stats_zero stats_zero_ok ltac:(reflexivity)) as (st & Hst & Hok).
  unfold demo_stats. rewrite Hst. exact Hok.
Qed.

(** 5 and 1 are added and the sample is sorted by a question; then come a value
    that is not a number, and 4 and 2. *)
Definition demo_ops : list sample_op :=
  [AskMax; AddValue (double_of_int 5); AddValue (double_of_int 1); AskMin; AddValue NAN; AddValue (double_of_int 4); AskMedian;
   AddValue (double_of_int 2)].

Lemma order_statistics_witness :
  added_values demo_ops = demo_sample ∧
  ∃ st, res_foldl sample_step stats_zero demo_ops = Ret st ∧ stats_ok demo_sample st ∧ valuessorted st = false ∧
    (∃ r v, stats_min st = Ret (r, stats_sort st) ∧ ranked demo_sample 0 v ∧ deq r v = true) ∧
    (λ r, r.1) <$> (match stats_median st with Ret x => Some x | _ => None end) = Some (double_of_int 3).
Proof.
  split; [reflexivity|].
  destruct (order_statistics demo_ops) as (st & Hst & Hok & _ & _ & _ & _ & _ & Hmin & _); [done|repeat constructor|reflexivity|].
  exists st. split; [exact Hst|]. split; [exact Hok|]. vm_compute in Hst. injection Hst as Hst.
  split; [by rewrite <- Hst|]. split; [exact Hmin|]. rewrite <- Hst. vm_compute. reflexivity.
Defined.

Lemma truncated_mean_witness :
  ∃ r st', stats_mean_unixbench demo_stats = Ret (r, st') ∧ stats_ok demo_sample st'.
Proof.
  pose proof (truncated_mean demo_sample demo_stats 1 0 demo_sample_ok ltac:(lia) ltac:(lia)) as (_ & _ & H).
  unfold stats_mean_unixbench. change (Z.quot (stat_n demo_stats) 3) with 1.
  destruct (stats_mean_trunc demo_stats 1 0) as [[r st']|f] eqn:E; [exists r, st'; split; [done|apply H]|].
  vm_compute in E. discriminate E.
Defined.
