(* ===== verification/LogFmt.v ===== *)
(** * Message formatting of the runtime

    The allocation-free formatter of [ltckpt_recover.c]: [hypermem_cat]
    appends to a bounded buffer, [hypermem_cat_num] appends a decimal number
    through a 20-byte scratch buffer, [hypermem_log] adds the module name.

    A buffer under construction is modelled by the text written so far: the C
    pointer [p] is [buf + length text], [pend] is [buf + cap], and [*p] is the
    terminating NUL. *)

From Stdlib Require Import ZArith Lia Ascii String.
From stdpp Require Import base list numbers strings.
From S2P Require Import Prelude Decimal.

(** The first [n] characters ([memcpy (p, s, n)] into the buffer). *)
Fixpoint str_take (n : nat) (s : string) : string :=
  match n, s with
  | S n', String c s' => String c (str_take n' s')
  | _, _ => EmptyString
  end.

Section Buffer.
(** [cap = pend - buf]. *)
Variable cap : nat.

Definition hypermem_cat (buf s : string) : string :=
  if (cap <=? String.length buf)%nat then buf
  else
    let avail := (cap - String.length buf)%nat in
    let len := if (avail <=? String.length s)%nat then (avail - 1)%nat else String.length s in
    buf +:+ str_take len s.

Definition hypermem_cat_num (buf : string) (n : Z) : res string :=
  let neg := n <? 0 in
  if n =? -2^63 then Stop FOverflow
  else
    let s := print_dec (if neg then - n else n) in
    let s := if neg then String "-" s else s in
    (* the terminator, the digits and the sign share [char buf[20]] *)
    if (20 <? 1 + String.length s)%nat then Stop FBounds
    else Ret (hypermem_cat buf s).
End Buffer.

Definition hypermem_log_size : nat := 1024.

Definition hypermem_log (g_module_name msg : string) : string :=
  let p := hypermem_cat hypermem_log_size "" msg in
  let p := hypermem_cat hypermem_log_size p "; module=" in
  hypermem_cat hypermem_log_size p g_module_name.

(** ** Facts *)

Lemma str_take_length n s : String.length (str_take n s) = (n `min` String.length s)%nat.
Proof. revert s. induction n; intros [|c s]; simpl; auto. Qed.

Lemma str_take_all n s : (String.length s ≤ n)%nat → str_take n s = s.
Proof.
  revert s. induction n; intros [|c s] H; simpl in *; try done; [lia|].
  f_equal. apply IHn. lia.
Qed.

Lemma hypermem_cat_short cap buf s :
  (String.length buf + String.length s < cap)%nat → hypermem_cat cap buf s = buf +:+ s.
Proof.
  intros H. unfold hypermem_cat.
  destruct (Nat.leb_spec cap (String.length buf)); [lia|].
  destruct (Nat.leb_spec (cap - String.length buf) (String.length s)); [lia|].
  by rewrite str_take_all by lia.
Qed.

Lemma hypermem_cat_length cap buf s :
  (String.length buf < cap)%nat → (String.length (hypermem_cat cap buf s) < cap)%nat.
Proof.
  intros H. unfold hypermem_cat.
  destruct (Nat.leb_spec cap (String.length buf)); [lia|].
  rewrite string_length_app, str_take_length.
  destruct (Nat.leb_spec (cap - String.length buf) (String.length s)); lia.
Qed.

Lemma hypermem_log_short name msg :
  (String.length msg + String.length name < 1015)%nat →
  hypermem_log name msg = msg +:+ "; module=" +:+ name.
Proof.
  intros H. unfold hypermem_log, hypermem_log_size.
  rewrite (hypermem_cat_short _ "" msg) by (simpl; lia). simpl String.append.
  rewrite (hypermem_cat_short _ msg) by (simpl; lia).
  rewrite hypermem_cat_short by (rewrite string_length_app; simpl; lia).
  by rewrite string_app_assoc.
Qed.

Lemma hypermem_cat_num_ok cap buf n :
  0 ≤ n < 10^19 → hypermem_cat_num cap buf n = Ret (hypermem_cat cap buf (print_dec n)).
Proof.
  intros Hn. unfold hypermem_cat_num.
  destruct (Z.eqb_spec n (-2^63)); [lia|]. destruct (Z.ltb_spec n 0); [lia|].
  pose proof (print_dec_length n 18 Hn).
  by destruct (Nat.ltb_spec 20 (1 + String.length (print_dec n))); [lia|].
Qed.

Lemma hypermem_cat_num_neg cap buf n :
  -10^18 < n < 0 →
  hypermem_cat_num cap buf n = Ret (hypermem_cat cap buf (String "-" (print_dec (- n)))).
Proof.
  intros Hn. unfold hypermem_cat_num.
  destruct (Z.eqb_spec n (-2^63)); [lia|]. destruct (Z.ltb_spec n 0); [|lia].
  pose proof (print_dec_length (- n) 17 ltac:(simpl; lia)). simpl String.length.
  by destruct (Nat.ltb_spec 20 (1 + S (String.length (print_dec (- n))))); [lia|].
Qed.

(** Remove the appends that do not truncate, innermost first. *)
Ltac cat_short :=
  repeat match goal with
  | |- context [hypermem_cat ?n ?b ?s] =>
      lazymatch b with context [hypermem_cat] => fail | _ => idtac end;
      rewrite (hypermem_cat_short n b s)
        by (unfold hypermem_log_size; rewrite ?string_length_app; simpl String.length; lia)
  end.
