(* ===== verification/Runtime.v ===== *)
(** * Shared state of the checkpointing runtime

    - [Ctx]: the context of [ltckpt_ctx.h]/[ltckpt_ctx.c] and the macros that
      every top-of-the-loop hook starts and ends with.
    - [Window]: the recovery-window variables of [ltckpt_recover.c] that the
      undo log also writes.
    - [Conf]: the mechanism table of [ltckpt_mechanism.h] and its selection,
      late initialisation and restart entry points in [ltckpt_common.c].
    - [Mmap]: the portable [mmap] wrapper and [ltckpt_is_mapped]. *)

From Stdlib Require Import ZArith Lia Ascii String.
From stdpp Require Import base list numbers strings.
From S2P Require Import Prelude.

(** [unsigned long], [size_t] and [uintptr_t] have [8 * sz] bits on every
    target of the runtime: [sz = 4] on MINIX and x86, [sz = 8] on x86-64. *)
Definition ulong (sz z : Z) : Z := z `mod` 2^(8 * sz).

Lemma ulong_small sz z : 0 ≤ z < 2^(8 * sz) → ulong sz z = z.
Proof. apply Z.mod_small. Qed.

Module Ctx.
Record ltckpt_ctx_t := {
  lazy_init : Z;
  skip_mmap : Z;
  initialized : Z;
  atexit_dump : Z;
  exited : Z;
  allow_prctl : Z;
  checkpoint_interval : Z;
  pgfault_nesting_level : Z;
  page_statistic_enabled : Z;
  approach : option string;
  errors : Z;
  num_cows : Z;
  num_tols : Z;
  num_checkpoints : Z;
  max_log_size : Z;
  num_aop_funcs : Z;
  num_aop_tols : Z;
}.

(** [ltckpt_ctx_buff], a zeroed global. *)
Definition ltckpt_ctx_buff : ltckpt_ctx_t :=
  Build_ltckpt_ctx_t 0 0 0 0 0 0 0 0 0 None 0 0 0 0 0 0 0.

(** The counters, separately from the configuration. *)
Definition set_counters (c : ltckpt_ctx_t) (er cows tols ckpts mls af at_ : Z) : ltckpt_ctx_t :=
  {| lazy_init := lazy_init c; skip_mmap := skip_mmap c; initialized := initialized c;
     atexit_dump := atexit_dump c; exited := exited c; allow_prctl := allow_prctl c;
     checkpoint_interval := checkpoint_interval c;
     pgfault_nesting_level := pgfault_nesting_level c;
     page_statistic_enabled := page_statistic_enabled c; approach := approach c;
     errors := er; num_cows := cows; num_tols := tols; num_checkpoints := ckpts;
     max_log_size := mls; num_aop_funcs := af; num_aop_tols := at_ |}.

Definition set_flags (c : ltckpt_ctx_t) (init ex nest : Z) : ltckpt_ctx_t :=
  {| lazy_init := lazy_init c; skip_mmap := skip_mmap c; initialized := init;
     atexit_dump := atexit_dump c; exited := ex; allow_prctl := allow_prctl c;
     checkpoint_interval := checkpoint_interval c; pgfault_nesting_level := nest;
     page_statistic_enabled := page_statistic_enabled c; approach := approach c;
     errors := errors c; num_cows := num_cows c; num_tols := num_tols c;
     num_checkpoints := num_checkpoints c; max_log_size := max_log_size c;
     num_aop_funcs := num_aop_funcs c; num_aop_tols := num_aop_tols c |}.

(** [CTX (initialized) = 1], [CTX (exited) = 1] and the nesting level of page
    faults. *)
Definition set_initialized (c : ltckpt_ctx_t) : ltckpt_ctx_t :=
  set_flags c 1 (exited c) (pgfault_nesting_level c).
Definition set_exited (c : ltckpt_ctx_t) : ltckpt_ctx_t :=
  set_flags c (initialized c) 1 (pgfault_nesting_level c).
Definition add_nesting (c : ltckpt_ctx_t) (d : Z) : ltckpt_ctx_t :=
  set_flags c (initialized c) (exited c) (pgfault_nesting_level c + d).

Section Macros.
Variable sz : Z.  (** size of [unsigned long] in bytes *)

Definition CTX_INC_num_tols (c : ltckpt_ctx_t) : ltckpt_ctx_t :=
  set_counters c (errors c) (num_cows c) (ulong sz (num_tols c + 1)) (num_checkpoints c)
    (max_log_size c) (num_aop_funcs c) (num_aop_tols c).

(** The boolean is [false] when the enclosing hook returns. *)
Definition CTX_NEW_TOL_OR_RETURN (c : ltckpt_ctx_t) : ltckpt_ctx_t * bool :=
  if (checkpoint_interval c =? 0)
     || (num_tols c `mod` ulong sz (checkpoint_interval c) >? 0)
  then (CTX_INC_num_tols c, false)
  else (CTX_INC_num_tols c, true).

Definition CTX_NEW_CHECKPOINT (c : ltckpt_ctx_t) : ltckpt_ctx_t :=
  set_counters c (errors c) (num_cows c) (num_tols c) (ulong sz (num_checkpoints c + 1))
    (max_log_size c) (num_aop_funcs c) (num_aop_tols c).

Definition CTX_INC_num_cows (c : ltckpt_ctx_t) : ltckpt_ctx_t :=
  set_counters c (errors c) (ulong sz (num_cows c + 1)) (num_tols c) (num_checkpoints c)
    (max_log_size c) (num_aop_funcs c) (num_aop_tols c).

Definition CTX_NEW_LOG_SIZE (ls : Z) (c : ltckpt_ctx_t) : ltckpt_ctx_t :=
  if ls >? max_log_size c then
    set_counters c (errors c) (num_cows c) (num_tols c) (num_checkpoints c)
      ls (num_aop_funcs c) (num_aop_tols c)
  else c.

Definition ltckpt_aop_hook_func (c : ltckpt_ctx_t) : ltckpt_ctx_t :=
  set_counters c (errors c) (num_cows c) (num_tols c) (num_checkpoints c)
    (max_log_size c) (ulong sz (num_aop_funcs c + 1)) (num_aop_tols c).
Definition ltckpt_aop_hook_tol (c : ltckpt_ctx_t) : ltckpt_ctx_t :=
  set_counters c (errors c) (num_cows c) (num_tols c) (num_checkpoints c)
    (max_log_size c) (num_aop_funcs c) (ulong sz (num_aop_tols c + 1)).
End Macros.

Definition ltckpt_ctx_clear_default (c : ltckpt_ctx_t) : ltckpt_ctx_t :=
  set_counters c 0 0 (num_tols c) 0 (max_log_size c) 0 0.

Section Env.
(** [getenv], and [strtol (s, &tail, 0)] as value and whether the tail
    pointer stayed at the start. *)
Variable getenv : string → option string.
Variable strtol0 : string → Z * bool.

Definition util_env_parse_int (name : string) (default_value : Z) : Z :=
  match getenv name with
  | None => default_value
  | Some s =>
      let '(v, at_start) := strtol0 s in
      let env_value := s32 v in
      if (env_value =? 0) && at_start then default_value else env_value
  end.

(** [x86_64] is the [LTCKPT_X86_64] build. *)
Definition ltckpt_ctx_init (x86_64 : bool) (conf_name : string) (c : ltckpt_ctx_t) : ltckpt_ctx_t :=
  {| lazy_init := util_env_parse_int "CP_LINIT" 1;
     skip_mmap := util_env_parse_int "CP_NOMMAP" 1;
     initialized := initialized c;
     atexit_dump := util_env_parse_int "ATEXIT_DUMP" 0;
     exited := exited c;
     allow_prctl := util_env_parse_int "CP_PRCTL" (if x86_64 then 0 else 1);
     checkpoint_interval := util_env_parse_int "CP_INTERVAL" 1;
     pgfault_nesting_level := pgfault_nesting_level c;
     page_statistic_enabled := util_env_parse_int "PAGESTAT" 0;
     approach := Some conf_name;
     errors := errors c; num_cows := num_cows c; num_tols := num_tols c;
     num_checkpoints := num_checkpoints c; max_log_size := max_log_size c;
     num_aop_funcs := num_aop_funcs c; num_aop_tols := num_aop_tols c |}.
End Env.

(** Every checkpoint is taken when the interval is one. *)
Lemma tol_interval_1 sz c :
  0 < sz → checkpoint_interval c = 1 →
  CTX_NEW_TOL_OR_RETURN sz c = (CTX_INC_num_tols sz c, true).
Proof.
  intros Hs H. unfold CTX_NEW_TOL_OR_RETURN. rewrite H, ulong_small, Z.mod_1_r; [done|].
  split; [lia|]. apply Z.pow_gt_1; lia.
Qed.
End Ctx.

Module Window.
(** The three variables of [ltckpt_recover.c] that [ltckpt_writelog.c] also
    writes. *)
Record window := {
  sa_window__is_open : bool;
  g_recovery_bitmask : Z;
  g_recovery_bitmask_reason : option string;
}.

Definition LTCKPT_RECOVERY_MASK_IDEMPOTENT : Z := 0x1.
Definition LTCKPT_RECOVERY_MASK_REQUEST_SPECIFIC : Z := 0x2.
Definition LTCKPT_RECOVERY_MASK_PROCESS_SPECIFIC : Z := 0x4.
Definition LTCKPT_RECOVERY_MASK_FAIL_STOP : Z := 0x8.
Definition LTCKPT_RECOVERY_REPROCESSING_REQ : Z := 0x10.

Definition has_mask (bits mask : Z) : bool := negb (Z.land bits mask =? 0).

(** Adding a mask makes it present. *)
Lemma has_mask_lor x m : m ≠ 0 → has_mask (Z.lor x m) m = true.
Proof.
  intros H. unfold has_mask.
  replace (Z.land (Z.lor x m) m) with m.
  - by destruct (Z.eqb_spec m 0).
  - apply Z.bits_inj'. intros n Hn. rewrite Z.land_spec, Z.lor_spec.
    by destruct (Z.testbit m n), (Z.testbit x n).
Qed.

(** Adding another mask does not remove one that is present. *)
Lemma has_mask_mono x m k : has_mask x m = true → has_mask (Z.lor x k) m = true.
Proof.
  unfold has_mask. rewrite !negb_true_iff, !Z.eqb_neq. intros H H0. apply H.
  apply Z.bits_inj'. intros n Hn. apply (f_equal (λ z, Z.testbit z n)) in H0.
  rewrite Z.land_spec, Z.lor_spec, Z.bits_0 in *.
  by destruct (Z.testbit x n), (Z.testbit m n).
Qed.
#[export] Hint Resolve has_mask_lor has_mask_mono : osiris.

(** A one-bit mask is a bit test. *)
Lemma has_mask_testbit x i : 0 ≤ i → has_mask x (2^i) = Z.testbit x i.
Proof.
  intros Hi. unfold has_mask. destruct (Z.testbit x i) eqn:Hx.
  - apply negb_true_iff, Z.eqb_neq. intros H. apply (f_equal (λ z, Z.testbit z i)) in H.
    rewrite Z.land_spec, Z.pow2_bits_true, Z.bits_0, Hx in H by done. done.
  - apply negb_false_iff, Z.eqb_eq. apply Z.bits_inj'. intros n Hn.
    rewrite Z.land_spec, Z.pow2_bits_eqb, Z.bits_0 by done.
    destruct (Z.eqb_spec i n) as [<-|]; [by rewrite Hx|apply andb_false_r].
Qed.
End Window.

Module Conf.
Section Conf.
(** [S] is the state of the mechanisms, [ENOENT] the platform's value. *)
Context {S : Type} (ENOENT : Z).

(** The hooks are weak symbols: an optional hook may be null. *)
Record checkpoint_conf := {
  name : string;
  late_init_hook : option (S → res S);
  restart_hook : option (S → res (Z * S));
}.

(** [ltckpt_confs], up to its empty sentinel. *)
Variable ltckpt_confs : list checkpoint_conf.

Record common := {
  ltckpt_conf : option nat;      (** index of the selected entry *)
  early_init_done : bool;
  inside_trusted_compute_base : bool;
  ctx : Ctx.ltckpt_ctx_t;
  mech : S;
}.

Fixpoint conf_search (i : nat) (confs : list checkpoint_conf) (n : string) : option nat :=
  match confs with
  | [] => None
  | c :: confs' => if String.eqb n (name c) then Some i else conf_search (i + 1) confs' n
  end.

Definition set_conf (g : common) (c : option nat) : common :=
  {| ltckpt_conf := c; early_init_done := early_init_done g;
     inside_trusted_compute_base := inside_trusted_compute_base g;
     ctx := ctx g; mech := mech g |}.

Definition ltckpt_conf_setup_from_hook (n : string) (g : common) : res common :=
  match ltckpt_conf g with
  | Some _ => Stop FAssert
  | None =>
      match conf_search 0 ltckpt_confs n with
      | Some i => Ret (set_conf g (Some i))
      | None => Stop FAssert
      end
  end.

Definition ltckpt_conf_setup (g : common) : res common :=
  match ltckpt_conf g with
  | None => ltckpt_conf_setup_from_hook "baseline" g
  | Some _ => Ret g
  end.

(** [CONF (X)] dereferences [ltckpt_conf]. *)
Definition CONF (g : common) : res checkpoint_conf :=
  match ltckpt_conf g with
  | None => Stop FNull
  | Some i => match ltckpt_confs !! i with Some c => Ret c | None => Stop FBounds end
  end.

Section Init.
Variable ctx_init : string → Ctx.ltckpt_ctx_t → Ctx.ltckpt_ctx_t.

Definition ltckpt_common_early_init (g : common) : res common :=
  if early_init_done g then Ret g
  else
    let! c := CONF g in
    Ret {| ltckpt_conf := ltckpt_conf g; early_init_done := true;
           inside_trusted_compute_base := inside_trusted_compute_base g;
           ctx := ctx_init (name c) (ctx g); mech := mech g |}.

Definition ltckpt_common_late_init (g : common) : res common :=
  let! g1 := ltckpt_conf_setup g in
  let! g2 := ltckpt_common_early_init g1 in
  let! c := CONF g2 in
  match late_init_hook c with
  | None => Ret g2
  | Some h =>
      let! m := h (mech g2) in
      Ret {| ltckpt_conf := ltckpt_conf g2; early_init_done := early_init_done g2;
             inside_trusted_compute_base := inside_trusted_compute_base g2;
             ctx := ctx g2; mech := m |}
  end.
End Init.

Definition ltckpt_restart (g : common) : res (Z * common) :=
  let! c := CONF g in
  match restart_hook c with
  | Some h =>
      let! rm := h (mech g) in
      Ret (rm.1, {| ltckpt_conf := ltckpt_conf g; early_init_done := early_init_done g;
                    inside_trusted_compute_base := true; ctx := ctx g; mech := rm.2 |})
  | None =>
      Ret (ENOENT, {| ltckpt_conf := ltckpt_conf g; early_init_done := early_init_done g;
                      inside_trusted_compute_base := true; ctx := ctx g; mech := mech g |})
  end.

Definition ltckpt_mechanism_enabled (g : common) : res bool :=
  match ltckpt_conf g with
  | None => Ret false
  | Some _ => let! c := CONF g in Ret (negb (String.eqb (name c) "baseline"))
  end.

Lemma conf_search_spec i confs n k :
  conf_search i confs n = Some k →
  ∃ c, confs !! (k - i)%nat = Some c ∧ name c = n ∧ (i ≤ k)%nat.
Proof.
  revert i. induction confs as [|c confs IH]; intros i H; simpl in H; [done|].
  destruct (String.eqb_spec n (name c)).
  - injection H as <-. exists c. by rewrite Nat.sub_diag.
  - destruct (IH _ H) as (c' & Hc & ? & ?). exists c'. split; [|split; [done|lia]].
    by replace (k - i)%nat with (Datatypes.S (k - (i + 1)))%nat by lia.
Qed.
End Conf.
End Conf.

Module Mmap.
(** The platform's constants and [mmap]/[munmap]. *)
Record abi := {
  MAP_FIXED : Z; MAP_POPULATE : Z; MAP_PRIVATE : Z; MAP_NORESERVE : Z; MAP_STACK : Z;
  MAP_ANONYMOUS : Z; PROT_READ : Z; PROT_WRITE : Z; PROT_EXEC : Z;
}.

Definition LTCKPT_MAP_FIXED : Z := 1.
Definition LTCKPT_MAP_PRIVATE : Z := 2.
Definition LTCKPT_MAP_NORESERVE : Z := 4.
Definition LTCKPT_MAP_STACK : Z := 8.
Definition LTCKPT_MAP_POPULATE : Z := 16.
Definition LTCKPT_PROT_R : Z := 1.
Definition LTCKPT_PROT_W : Z := 2.
Definition LTCKPT_PROT_X : Z := 4.

Definition or_if (flags bit v acc : Z) : Z :=
  if Window.has_mask flags bit then Z.lor acc v else acc.

Definition mmap_flags (p : abi) (flags : Z) : Z :=
  let f := or_if flags LTCKPT_MAP_FIXED (MAP_FIXED p) 0 in
  let f := or_if flags LTCKPT_MAP_POPULATE (MAP_POPULATE p) f in
  let f := or_if flags LTCKPT_MAP_PRIVATE (MAP_PRIVATE p) f in
  let f := or_if flags LTCKPT_MAP_NORESERVE (MAP_NORESERVE p) f in
  let f := or_if flags LTCKPT_MAP_STACK (MAP_STACK p) f in
  Z.lor f (MAP_ANONYMOUS p).

Definition mmap_prot (p : abi) (prot : Z) : Z :=
  let f := or_if prot LTCKPT_PROT_R (PROT_READ p) 0 in
  let f := or_if prot LTCKPT_PROT_W (PROT_WRITE p) f in
  or_if prot LTCKPT_PROT_X (PROT_EXEC p) f.

Section Mmap.
Context (sz : Z) (p : abi) {VM : Type}.
(** [mmap (addr, size, prot, flags, -1, 0)]: [None] is [MAP_FAILED]. *)
Variable mmap : VM → Z → Z → Z → Z → option Z * VM.
Variable munmap : VM → Z → Z → VM.

(** [(ltckpt_va_t) -1]. *)
Definition LTCKPT_MAP_FAILED : Z := 2^(8 * sz) - 1.

Definition ltckpt_mmap (vm : VM) (addr size prot flags : Z) : Z * VM :=
  match mmap vm addr size (mmap_prot p prot) (mmap_flags p flags) with
  | (None, vm') => (LTCKPT_MAP_FAILED, vm')
  | (Some r, vm') => (r, vm')
  end.

Definition ltckpt_munmap (vm : VM) (start size : Z) : VM := munmap vm start size.

Definition ltckpt_is_mapped (vm : VM) (addr : Z) : bool * VM :=
  let len := 4096 in
  let '(ret, vm1) :=
    ltckpt_mmap vm addr len (Z.lor (PROT_WRITE p) (PROT_READ p))
      (Z.lor LTCKPT_MAP_PRIVATE LTCKPT_MAP_NORESERVE) in
  let is_mapped := negb (ret =? addr) in
  let vm2 := if ret =? LTCKPT_MAP_FAILED then vm1 else ltckpt_munmap vm1 ret len in
  (is_mapped, vm2).
End Mmap.
End Mmap.
