(* ===== verification/ProcMaps.v ===== *)
(** * Memory maps: [include/common/util/proc_maps.h]

    The list of virtual memory areas of a process as read from
    [/proc/<pid>/maps]: filtering while parsing, removal of stale areas, lookups
    and the classification of the areas.  A line of the file is given as the
    entry [sscanf] makes of it, [None] when fewer than ten fields convert; the
    kernel's [mincore] is a parameter.  Pointers to entries are indices. *)

From Stdlib Require Import ZArith Lia Ascii String.
From stdpp Require Import base list numbers strings.
From S2P Require Import Prelude.

Definition PAGE_SIZE : Z := 4096.

Record util_proc_maps_entry_t := {
  vm_start : Z;
  vm_end : Z;
  pr : ascii; pw : ascii; px : ascii; ps : ascii;
  pgoff : Z;
  pmajor : Z; pminor : Z;
  ino : Z;
  pname : string;
}.

#[global] Instance entry_eq_dec : EqDecision util_proc_maps_entry_t.
Proof. solve_decision. Defined.

(** The return values of the callback of [util_proc_maps_parse_filter]. *)
Inductive util_proc_maps_parse_ret_t :=
| UTIL_PROC_MAPS_RET_SAVE
| UTIL_PROC_MAPS_RET_SAVE_AND_STOP
| UTIL_PROC_MAPS_RET_CONTINUE
| UTIL_PROC_MAPS_RET_STOP
| UTIL_PROC_MAPS_RET_ERR.

#[global] Instance parse_ret_eq_dec : EqDecision util_proc_maps_parse_ret_t.
Proof. solve_decision. Defined.

(** ** Predicates on entries *)

Definition ENTRY_CONTAINS_ADDR (e : util_proc_maps_entry_t) (a : Z) : bool :=
  (a >=? vm_start e) && (a <? vm_end e).
Definition ENTRY_OVERLAPS (e e2 : util_proc_maps_entry_t) : bool :=
  ENTRY_CONTAINS_ADDR e (vm_start e2) || ENTRY_CONTAINS_ADDR e (vm_end e2 - 1) ||
  ENTRY_CONTAINS_ADDR e2 (vm_start e) || ENTRY_CONTAINS_ADDR e2 (vm_end e - 1).
Definition ENTRY_RANGE_EQUALS (e e2 : util_proc_maps_entry_t) : bool :=
  (vm_start e =? vm_start e2) && (vm_end e =? vm_end e2).
Definition ENTRY_PROT_EQUALS (e e2 : util_proc_maps_entry_t) : bool :=
  Ascii.eqb (pr e) (pr e2) && Ascii.eqb (pw e) (pw e2) && Ascii.eqb (px e) (px e2).
Definition ENTRY_SHARED_EQUALS (e e2 : util_proc_maps_entry_t) : bool := Ascii.eqb (ps e) (ps e2).
Definition ENTRY_NAME_EQUALS (e e2 : util_proc_maps_entry_t) : bool := String.eqb (pname e) (pname e2).
Definition ENTRY_SIZE (e : util_proc_maps_entry_t) : Z := vm_end e - vm_start e.

Definition ENTRY_NAME_STARTS (e : util_proc_maps_entry_t) (n : string) : bool := String.prefix n (pname e).
(** [strstr]. *)
Definition ENTRY_NAME_CONTAINS (e : util_proc_maps_entry_t) (n : string) : bool :=
  match String.index 0 n (pname e) with Some _ => true | None => false end.

Definition ENTRY_IS_ANON (e : util_proc_maps_entry_t) : bool := String.eqb (pname e) "".
Definition ENTRY_IS_STACK (e : util_proc_maps_entry_t) : bool := ENTRY_NAME_STARTS e "[stack".
Definition ENTRY_IS_VDSO (e : util_proc_maps_entry_t) : bool := String.eqb (pname e) "[vdso]".
Definition ENTRY_IS_VSYSCALL (e : util_proc_maps_entry_t) : bool := String.eqb (pname e) "[vsyscall]".
Definition ENTRY_IS_LIB (e : util_proc_maps_entry_t) : bool :=
  ENTRY_NAME_STARTS e "/lib/" || ENTRY_NAME_STARTS e "/usr/lib/".
Definition ENTRY_IS_MMAP (e : util_proc_maps_entry_t) : bool := ENTRY_IS_ANON e || ENTRY_IS_LIB e.

(** Two non-empty areas overlap exactly when they share an address. *)
Lemma overlaps_spec e e2 :
  vm_start e < vm_end e → vm_start e2 < vm_end e2 →
  ENTRY_OVERLAPS e e2 = true ↔
  ∃ a, ENTRY_CONTAINS_ADDR e a = true ∧ ENTRY_CONTAINS_ADDR e2 a = true.
Proof.
  intros H1 H2. unfold ENTRY_OVERLAPS, ENTRY_CONTAINS_ADDR. rewrite !Z.geb_leb. split.
  - intros H. exists (Z.max (vm_start e) (vm_start e2)). zb.
  - intros (a & Ha & Ha2). zb.
Qed.

(** ** The list of entries *)

Abbreviation entries := (list util_proc_maps_entry_t).

(** [util_proc_maps_entry_remove]: [memmove] of the tail. *)
Definition util_proc_maps_entry_remove (l : entries) (i : nat) : res entries :=
  assert! (i <? length l)%nat in Ret (take i l ++ drop (S i) l).

(** [ENOENT] and [EINVAL] of the platform; [mincore (start, PAGE_SIZE, NULL)]
    returns and sets [errno]. *)
Record kernel_abi := { ENOENT : Z; EINVAL : Z; ENOMEM : Z; EFAULT : Z }.

Section Parse.
Variable k : kernel_abi.
Variable mincore : Z → Z * Z.

Definition util_proc_maps_entry_mapped (e : util_proc_maps_entry_t) : res bool :=
  let '(ret, errno) := mincore (vm_start e) in
  assert! negb (ret =? 0) in
  if errno =? ENOMEM k then Ret false
  else assert! (errno =? EFAULT k) in Ret true.

(** The loop of [util_proc_maps_remove_unmapped]: after a removal the index is
    stepped back. *)
Fixpoint remove_unmapped_loop (fuel : nat) (i : nat) (l : entries) : res entries :=
  match l !! i with
  | None => Ret l
  | Some e =>
      match fuel with
      | O => Stop FFuel
      | S fuel' =>
          let! mapped := util_proc_maps_entry_mapped e in
          if mapped then remove_unmapped_loop fuel' (i + 1) l
          else let! l' := util_proc_maps_entry_remove l i in remove_unmapped_loop fuel' i l'
      end
  end.

Definition util_proc_maps_remove_unmapped (l : entries) : res entries :=
  remove_unmapped_loop (length l) 0 l.

(** The reading loop of [util_proc_maps_parse_filter]: the return value and the
    entries stored so far. *)
Fixpoint parse_loop (cb : option (util_proc_maps_entry_t → util_proc_maps_parse_ret_t))
    (lines : list (option util_proc_maps_entry_t)) (acc : entries) : Z * entries :=
  match lines with
  | [] => (0, acc)
  | None :: _ => (- EINVAL k, acc)
  | Some e :: lines' =>
      match cb with
      | None => parse_loop cb lines' (acc ++ [e])
      | Some f =>
          match f e with
          | UTIL_PROC_MAPS_RET_SAVE => parse_loop cb lines' (acc ++ [e])
          | UTIL_PROC_MAPS_RET_SAVE_AND_STOP => (0, acc ++ [e])
          | UTIL_PROC_MAPS_RET_CONTINUE => parse_loop cb lines' acc
          | UTIL_PROC_MAPS_RET_STOP => (0, acc)
          | UTIL_PROC_MAPS_RET_ERR => (- ENOENT k, acc)
          end
      end
  end.

(** [file] is [None] when the file cannot be opened: the list stays as it was,
    here the empty list the callers pass. *)
Definition util_proc_maps_parse_filter (file : option (list (option util_proc_maps_entry_t)))
    (cb : option (util_proc_maps_entry_t → util_proc_maps_parse_ret_t)) : res (Z * entries) :=
  match file with
  | None => Ret (- ENOENT k, [])
  | Some lines =>
      let '(ret, acc) := parse_loop cb lines [] in
      if negb (ret =? 0) then Ret (ret, [])
      else let! l := util_proc_maps_remove_unmapped acc in Ret (0, l)
  end.

Definition util_proc_maps_parse (file : option (list (option util_proc_maps_entry_t))) : res (Z * entries) :=
  util_proc_maps_parse_filter file None.

(** *** Removal is a filter *)

(** [mincore] with a null vector fails: [EFAULT] for a mapped page, [ENOMEM] for an
    unmapped one. *)
Variable mapped : Z → bool.
Hypothesis mincore_fails : ∀ a, (mincore a).1 ≠ 0.
Hypothesis mincore_errno : ∀ a, (mincore a).2 = if mapped a then EFAULT k else ENOMEM k.
Hypothesis errno_distinct : EFAULT k ≠ ENOMEM k.

Lemma entry_mapped_spec e : util_proc_maps_entry_mapped e = Ret (mapped (vm_start e)).
Proof.
  unfold util_proc_maps_entry_mapped. specialize (mincore_fails (vm_start e)). specialize (mincore_errno (vm_start e)).
  destruct (mincore (vm_start e)) as [ret errno]. cbn [fst snd] in *. subst errno.
  destruct (Z.eqb_spec ret 0); [done|]. cbn [negb].
  destruct (mapped (vm_start e)); [|by rewrite Z.eqb_refl].
  destruct (Z.eqb_spec (EFAULT k) (ENOMEM k)); [done|]. by rewrite Z.eqb_refl.
Qed.

Abbreviation is_mapped := (λ e, mapped (vm_start e) = true).

Lemma remove_unmapped_loop_spec todo done_ fuel :
  (length todo ≤ fuel)%nat →
  remove_unmapped_loop fuel (length done_) (done_ ++ todo) = Ret (done_ ++ filter is_mapped todo).
Proof.
  revert done_ fuel. induction todo as [|e todo IH]; intros done_ fuel Hf.
  { assert (E : (done_ ++ []) !! length done_ = None) by (apply lookup_ge_None_2; rewrite length_app; simpl; lia).
    destruct fuel; cbn [remove_unmapped_loop]; by rewrite E. }
  destruct fuel as [|fuel]; [simpl in Hf; lia|]. cbn [remove_unmapped_loop].
  rewrite list_lookup_middle by done. rewrite entry_mapped_spec. cbn [res_bind].
  rewrite filter_cons. destruct (mapped (vm_start e)) eqn:He.
  - rewrite decide_True by done.
    specialize (IH (done_ ++ [e]) fuel ltac:(simpl in Hf; lia)).
    rewrite length_app, <- !app_assoc in IH. exact IH.
  - rewrite decide_False by congruence. unfold util_proc_maps_entry_remove.
    destruct (Nat.ltb_spec (length done_) (length (done_ ++ e :: todo)));
      [|rewrite length_app in *; simpl in *; lia].
    cbn [res_bind]. rewrite take_app_length.
    replace (drop (S (length done_)) (done_ ++ e :: todo)) with todo.
    + apply IH. simpl in Hf. lia.
    + change (e :: todo) with ([e] ++ todo). rewrite app_assoc, drop_app_length'; [done|].
      rewrite length_app. simpl. lia.
Qed.

Lemma remove_unmapped_filter l : util_proc_maps_remove_unmapped l = Ret (filter is_mapped l).
Proof. apply (remove_unmapped_loop_spec l []). done. Qed.

(** With a callback that only saves or skips, parsing well-formed lines gives the
    mapped entries it saves, in the order of the file. *)
Lemma parse_loop_spec f es acc :
  (∀ e, f e = UTIL_PROC_MAPS_RET_SAVE ∨ f e = UTIL_PROC_MAPS_RET_CONTINUE) →
  parse_loop (Some f) (Some <$> es) acc = (0, acc ++ filter (λ e, f e = UTIL_PROC_MAPS_RET_SAVE) es).
Proof using.
  intros Hf. revert acc. induction es as [|e es IH]; intros acc; cbn [fmap list_fmap parse_loop]; [by rewrite app_nil_r|].
  rewrite filter_cons. destruct (Hf e) as [E|E]; rewrite E.
  - rewrite decide_True by done. rewrite IH. by rewrite <- app_assoc.
  - by rewrite decide_False by congruence.
Qed.
End Parse.

(** ** Lookups: the index of the first match *)

Definition util_proc_maps_lookup_by_name (l : entries) (name : string) : option nat :=
  fst <$> list_find (λ e, String.eqb (pname e) name) l.

Definition util_proc_maps_lookup_by_addr (l : entries) (addr : Z) : option nat :=
  fst <$> list_find (λ e, ENTRY_CONTAINS_ADDR e addr) l.

Definition util_proc_maps_lookup_by_prev (l : entries) (prev : nat) : option nat :=
  if (prev + 1 <? length l)%nat then Some (prev + 1)%nat else None.

(** ** Classification: [util_proc_maps_get_info] *)

(** [&main], [&__data_start], [&errno] and [__heap_addr] of the process. *)
Record layout := { main_addr : Z; data_start : Z; errno_addr : Z; heap_addr : Z }.

Section Info.
Variable y : layout.

Definition UTIL_PROC_MAPS_PROG_RO_ADDR : Z := data_start y / PAGE_SIZE * PAGE_SIZE - 1.

Definition ENTRY_IS_PROG_TEXT (e : util_proc_maps_entry_t) : bool := ENTRY_CONTAINS_ADDR e (main_addr y).
Definition ENTRY_IS_PROG_RO (e : util_proc_maps_entry_t) : bool :=
  ENTRY_CONTAINS_ADDR e UTIL_PROC_MAPS_PROG_RO_ADDR.
Definition ENTRY_IS_PROG_DATA (e : util_proc_maps_entry_t) : bool := ENTRY_CONTAINS_ADDR e (data_start y).
Definition ENTRY_IS_TLS (e : util_proc_maps_entry_t) : bool := ENTRY_CONTAINS_ADDR e (errno_addr y).
Definition ENTRY_IS_HEAP (e : util_proc_maps_entry_t) : bool := ENTRY_CONTAINS_ADDR e (heap_addr y).

(** The pointers the loop sets: seven kinds of area, looked for in this order. *)
Inductive area := prog_text | prog_ro | prog_data | heap | stack | vdso | vsyscall.
#[global] Instance area_eq_dec : EqDecision area.
Proof. solve_decision. Defined.

Definition areas : list area := [prog_text; prog_ro; prog_data; heap; stack; vdso; vsyscall].

Definition is_area (a : area) (e : util_proc_maps_entry_t) : bool :=
  match a with
  | prog_text => ENTRY_IS_PROG_TEXT e
  | prog_ro => ENTRY_IS_PROG_RO e
  | prog_data => ENTRY_IS_PROG_DATA e
  | heap => ENTRY_IS_HEAP e
  | stack => ENTRY_IS_STACK e
  | vdso => ENTRY_IS_VDSO e
  | vsyscall => ENTRY_IS_VSYSCALL e
  end.

Record info_loop := {
  first_lib : option nat;
  last_lib : option nat;
  first_mmap : option nat;
  last_mmap : option nat;
  ptr : area → option nat;
  num_entries : nat;
}.

Definition is_null {A} (o : option A) : bool := match o with None => true | Some _ => false end.

(** The chain of [if (!info->X && IS_X (entry))] tests. *)
Definition classify (st : info_loop) (e : util_proc_maps_entry_t) : option area :=
  snd <$> list_find (λ a, is_null (ptr st a) && is_area a e) areas.

Definition get_info_step (st : info_loop) (i : nat) (e : util_proc_maps_entry_t) : info_loop :=
  let lib := ENTRY_IS_LIB e in
  let mm := ENTRY_IS_MMAP e in
  let st1 := {| first_lib := if lib && is_null (first_lib st) then Some i else first_lib st;
                last_lib := if lib then Some i else last_lib st;
                first_mmap := if mm && is_null (first_mmap st) then Some i else first_mmap st;
                last_mmap := if negb mm && negb (is_null (first_mmap st)) && is_null (last_mmap st)
                             then Some (i - 1)%nat else last_mmap st;
                ptr := ptr st; num_entries := num_entries st |} in
  if lib || mm then st1
  else match classify st e with
       | None => st1
       | Some a => {| first_lib := first_lib st1; last_lib := last_lib st1;
                      first_mmap := first_mmap st1; last_mmap := last_mmap st1;
                      ptr := λ b, if decide (a = b) then Some i else ptr st b;
                      num_entries := num_entries st + 1 |}
       end.

Fixpoint get_info_loop (st : info_loop) (i : nat) (l : entries) : info_loop :=
  match l with
  | [] => st
  | e :: l' => get_info_loop (get_info_step st i e) (i + 1) l'
  end.

Definition info_loop_start : info_loop :=
  {| first_lib := None; last_lib := None; first_mmap := None; last_mmap := None;
     ptr := λ _, None; num_entries := 4 |}.

Record util_proc_maps_info_t := {
  ivm : util_proc_maps_entry_t;
  iprog : util_proc_maps_entry_t;
  immap : util_proc_maps_entry_t;
  ilibs : util_proc_maps_entry_t;
  iptr : area → option nat;
  imaps : entries;
}.

(** A summary entry, after the [memset] of the whole structure. *)
Definition summary_entry (name : string) (s : ascii) (start end_ : Z) : util_proc_maps_entry_t :=
  {| vm_start := start; vm_end := end_; pr := "r"%char; pw := "w"%char; px := "x"%char; ps := s;
     pgoff := 0; pmajor := 0; pminor := 0; ino := 0; pname := name |}.

Definition field_or_0 (f : util_proc_maps_entry_t → Z) (l : entries) (o : option nat) : Z :=
  match o ≫= λ i, l !! i with Some e => f e | None => 0 end.

(** The end of the libraries: the anonymous area right after the last one
    belongs to it. *)
Definition libs_end (l : entries) (st : info_loop) (vm_last : Z) : res Z :=
  let le := field_or_0 vm_end l (last_lib st) in
  if negb (le =? 0) && (le <? vm_last) then
    match last_lib st ≫= λ i, l !! (i + 1)%nat with
    | None => Stop FBounds
    | Some e => Ret (if (vm_start e =? le) && ENTRY_IS_ANON e then vm_end e else le)
    end
  else Ret le.

Definition util_proc_maps_get_info (l : entries) : res util_proc_maps_info_t :=
  let st := get_info_loop info_loop_start 0 l in
  match head l, last l with
  | Some e0, Some en =>
      let vm := summary_entry "[vm]" "p" (vm_start e0) (vm_end en) in
      let prog := summary_entry "[prog]" "p" (field_or_0 vm_start l (ptr st prog_text))
                    (field_or_0 vm_end l (ptr st prog_data)) in
      let mmap := summary_entry "[mmap]" "p" (field_or_0 vm_start l (first_mmap st))
                    (field_or_0 vm_end l (last_mmap st)) in
      let! le := libs_end l st (vm_end en) in
      let libs := summary_entry "[libs]" "s" (field_or_0 vm_start l (first_lib st)) le in
      let maps := [vm; prog; mmap; libs] ++ omap (λ a, ptr st a ≫= λ i, l !! i) areas in
      assert! (length maps =? num_entries st)%nat in
      Ret {| ivm := vm; iprog := prog; immap := mmap; ilibs := libs; iptr := ptr st; imaps := maps |}
  | _, _ => Stop FBounds
  end.

(** *** The invariant of the loop *)

Definition found (st : info_loop) : list area := filter (λ a, is_null (ptr st a) = false) areas.

Record info_ok (l : entries) (st : info_loop) : Prop := {
  io_num : num_entries st = (4 + length (found st))%nat;
  io_ptr : ∀ a i, ptr st a = Some i → ∃ e, l !! i = Some e ∧ is_area a e = true;
  io_lib : ∀ i, last_lib st = Some i → (i < length l)%nat;
}.

(** Each slot of the table is filled once. *)
Lemma classify_spec st e a :
  classify st e = Some a → ptr st a = None ∧ is_area a e = true.
Proof.
  unfold classify. intros H. apply fmap_Some in H as ([i b] & H & ->).
  apply list_find_Some in H as (_ & H & _). apply Is_true_true, andb_true_iff in H as [H1 H2].
  cbn [snd]. by destruct (ptr st b).
Qed.

Lemma found_add st st' a i :
  ptr st a = None → ptr st' = (λ b, if decide (a = b) then Some i else ptr st b) →
  length (found st') = S (length (found st)).
Proof.
  intros Ha Hp. unfold found.
  assert (Hsame : ∀ as_ : list area, a ∉ as_ → filter (λ b, is_null (ptr st' b) = false) as_ =
                                 filter (λ b, is_null (ptr st b) = false) as_).
  { induction as_ as [|b as_ IH]; intros Hn; [done|]. apply not_elem_of_cons in Hn as [Hb Hn].
    rewrite !filter_cons, IH by done. by rewrite Hp, (decide_False (P := a = b)). }
  assert (Hadd : ∀ as_ : list area, NoDup as_ → a ∈ as_ → length (filter (λ b, is_null (ptr st' b) = false) as_) =
                                     S (length (filter (λ b, is_null (ptr st b) = false) as_))).
  { induction 1 as [|b as_ Hn _ IH]; intros Hin; [by apply elem_of_nil in Hin|]. rewrite !filter_cons.
    apply elem_of_cons in Hin as [->|Hin].
    - rewrite Hsame by done. rewrite decide_True by (by rewrite Hp, decide_True).
      by rewrite decide_False by (by rewrite Ha).
    - assert (a ≠ b) by (by intros ->). specialize (IH Hin).
      assert (Hb : ptr st' b = ptr st b) by (by rewrite Hp, decide_False). rewrite Hb.
      destruct (decide (is_null (ptr st b) = false)); simpl; lia. }
  apply Hadd; [|destruct a; repeat constructor]. apply (bool_decide_unpack _). by vm_compute.
Qed.

Lemma get_info_step_ok pre e st :
  info_ok pre st → info_ok (pre ++ [e]) (get_info_step st (length pre) e).
Proof.
  intros [Hn Hp Hl]. unfold get_info_step.
  assert (Hp' : ∀ a i, ptr st a = Some i → ∃ x, (pre ++ [e]) !! i = Some x ∧ is_area a x = true).
  { intros a i E. destruct (Hp a i E) as (x & Hx & Ha). exists x. split; [|done]. by apply lookup_app_l_Some. }
  assert (Hl' : ∀ i, (if ENTRY_IS_LIB e then Some (length pre) else last_lib st) = Some i →
                (i < length (pre ++ [e]))%nat).
  { intros i. rewrite length_app. simpl. destruct (ENTRY_IS_LIB e); [intros [= <-]; lia|]. intros E. specialize (Hl i E). lia. }
  destruct (ENTRY_IS_LIB e || ENTRY_IS_MMAP e); [by constructor; [exact Hn|..]|].
  destruct (classify st e) as [a|] eqn:Ec; [|by constructor; [exact Hn|..]].
  apply classify_spec in Ec as [Hnone Harea]. constructor; cbn [num_entries ptr last_lib found]; [| |done].
  - match goal with |- _ = (4 + length (found ?st'))%nat =>
      pose proof (found_add st st' a (length pre) Hnone eq_refl) end. lia.
  - intros b i. destruct (decide (a = b)) as [<-|]; [|apply Hp']. intros [= <-]. exists e.
    by rewrite lookup_app_r, Nat.sub_diag by lia.
Qed.

Lemma get_info_loop_ok todo pre st :
  info_ok pre st → info_ok (pre ++ todo) (get_info_loop st (length pre) todo).
Proof.
  revert pre st. induction todo as [|e todo IH]; intros pre st H; cbn [get_info_loop]; [by rewrite app_nil_r|].
  apply (get_info_step_ok _ e), IH in H. by rewrite length_app, <- app_assoc in H.
Qed.

Lemma omap_found l st :
  info_ok l st → length (omap (λ a, ptr st a ≫= λ i, l !! i) areas) = length (found st).
Proof.
  intros [_ Hp _]. unfold found. induction areas as [|a as_ IH]; [done|].
  rewrite filter_cons. cbn [omap list_omap]. destruct (ptr st a) as [i|] eqn:E; cbn [mbind option_bind is_null].
  - destruct (Hp a i E) as (e & -> & _). rewrite decide_True by done. simpl. by f_equal.
  - by rewrite decide_False.
Qed.

Lemma libs_end_ret l st en :
  info_ok l st → last l = Some en → is_ret (libs_end l st (vm_end en)) = true.
Proof.
  intros [_ _ Hl] He. unfold libs_end.
  destruct (negb _ && _) eqn:E; [|done]. apply andb_true_iff in E as [E1 E2]. apply Z.ltb_lt in E2.
  unfold field_or_0 in *. destruct (last_lib st) as [i|]; [|done]. cbn [mbind option_bind] in *.
  specialize (Hl i eq_refl). destruct (l !! (i + 1)%nat) eqn:Hn; [done|]. exfalso.
  apply lookup_ge_None in Hn. rewrite last_lookup in He.
  replace (pred (length l)) with i in He by lia. rewrite He in E2. lia.
Qed.

(** The classification never fails its assertion and stays inside the list; only
    an empty list is read out of bounds.  The table holds the four summary
    entries and one entry per kind of area found, each of its kind. *)
Lemma get_info_ok l :
  match util_proc_maps_get_info l with
  | Ret info => l ≠ [] ∧ (length (imaps info) ≤ 11)%nat ∧
      ∀ a i, iptr info a = Some i → ∃ e, l !! i = Some e ∧ is_area a e = true ∧ e ∈ imaps info
  | Stop f => l = [] ∧ f = FBounds
  end.
Proof.
  unfold util_proc_maps_get_info.
  assert (H : info_ok l (get_info_loop info_loop_start 0 l)).
  { apply (get_info_loop_ok l []). by constructor. }
  set (st := get_info_loop _ _ _) in *. destruct l as [|e0 l']; [done|]. cbn [head].
  destruct (last (e0 :: l')) as [en|] eqn:He; [|by apply last_None in He].
  pose proof (libs_end_ret _ _ _ H He) as Hr. destruct (libs_end _ st _) as [le|]; [|done]. cbn [res_bind].
  pose proof (omap_found _ _ H) as Ho. cbn [length app].
  destruct (Nat.eqb_spec (S (S (S (S (length (omap (λ a, ptr st a ≫= λ i, (e0 :: l') !! i) areas))))))
    (num_entries st)) as [E|E]; [|rewrite (io_num _ _ H), Ho in E; lia].
  cbn [imaps iptr length app]. split; [done|]. split.
  - rewrite Ho. unfold found. pose proof (length_filter (λ a, is_null (ptr st a) = false) areas) as Hf. simpl in Hf. lia.
  - intros a i Ha. destruct (io_ptr _ _ H a i Ha) as (e & Hi & Hk). exists e. split_and!; [done|done|].
    do 4 (apply elem_of_cons; right). apply list_elem_of_omap. exists a. split; [by destruct a; repeat constructor|].
    by rewrite Ha.
Qed.
End Info.
