(* ===== verification/Mprotect.v ===== *)
(** * Checkpoints by page protection: [mechanisms/mprotect/]

    All checkpointed areas are write-protected.  The first write to a page after
    a checkpoint faults; the signal handler copies the page to a buffer and makes
    it writable.  A checkpoint protects the copied pages again and empties the
    buffer.

    The address space and the kernel's write permission of every page are part
    of the state; the buffer lies in the address space, the lists of pages are
    fields.  [mmap], [mprotect], [mincore], the signal calls and the lines of
    [/proc/self/maps] are parameters.  A write of the program to a page without
    permission runs the handler and is then repeated.

    Proved: after a checkpoint and any writes the pages copied are exactly the
    pages written, once each, and copies and memory together give the memory of
    the checkpoint; the limit of 1000 pages is exactly where an assertion fails;
    the system-call wrappers make every page of a buffer writable. *)

From Stdlib Require Import ZArith Lia Ascii String.
From stdpp Require Import base list numbers strings.
From S2P Require Import Prelude Runtime ProcMaps.

Definition MPROTECT_MAX_PAGES : Z := 1000.
Definition MIN_MMAP_ADDR : Z := PAGE_SIZE * 100.

Record mpr_page_t := { page_addr : Z; page_mem : Z }.

Record mpr_t := {
  pages : list mpr_page_t;        (** [MPROTECT_MAX_PAGES] slots *)
  num_pages : Z;
  iter_pages : list mpr_page_t;
  num_iter_pages : Z;
  num_mem_pages : Z;
  proc_maps : list util_proc_maps_entry_t;
}.

Record mstate := {
  pmem : mem;                     (** the address space, [mpr->mem] included *)
  writable : Z → bool;            (** by page address *)
  handler_installed : bool;
  mpr : option mpr_t;
  mctx : Ctx.ltckpt_ctx_t;
}.

Definition set_pmem (s : mstate) (m : mem) : mstate :=
  {| pmem := m; writable := writable s; handler_installed := handler_installed s; mpr := mpr s; mctx := mctx s |}.
Definition set_writable (s : mstate) (w : Z → bool) : mstate :=
  {| pmem := pmem s; writable := w; handler_installed := handler_installed s; mpr := mpr s; mctx := mctx s |}.
Definition set_handler (s : mstate) : mstate :=
  {| pmem := pmem s; writable := writable s; handler_installed := true; mpr := mpr s; mctx := mctx s |}.
Definition set_mpr (s : mstate) (r : mpr_t) : mstate :=
  {| pmem := pmem s; writable := writable s; handler_installed := handler_installed s; mpr := Some r; mctx := mctx s |}.
Definition set_mctx (s : mstate) (c : Ctx.ltckpt_ctx_t) : mstate :=
  {| pmem := pmem s; writable := writable s; handler_installed := handler_installed s; mpr := mpr s; mctx := c |}.

Definition set_maps (r : mpr_t) (l : list util_proc_maps_entry_t) : mpr_t :=
  {| pages := pages r; num_pages := num_pages r; iter_pages := iter_pages r;
     num_iter_pages := num_iter_pages r; num_mem_pages := num_mem_pages r; proc_maps := l |}.

(** [addr - addr % PAGE_SIZE]. *)
Definition page_of (a : Z) : Z := a - a `mod` PAGE_SIZE.

(** What the code calls: return values of the kernel, and where the loader put
    things. *)
Record env := {
  sz : Z;                                              (** [sizeof (void * )] *)
  abi : kernel_abi;
  lay : layout;
  mprotect_ret : Z → Z → bool → Z;
  mincore : Z → Z * Z;
  mmap_ret : option Z;                                 (** of the mapping of [mpr_t] *)
  maps_file : option (list (option util_proc_maps_entry_t));
  sigmask_ret : Z;
  sigaction_ret : Z;
}.

Section Mprotect.
Variable k : env.

(** ** The page list *)

(** [&mpr->mem[0]]: behind the two page arrays and their counters. *)
Definition sizeof_page : Z := 2 * sz k.
Definition mem_offset : Z := 2 * (MPROTECT_MAX_PAGES * sizeof_page + sz k).
Definition mpr_addr : Z := MIN_MMAP_ADDR + PAGE_SIZE.
Definition mem_base : Z := mpr_addr + mem_offset.

Definition ltckpt_mem_flush (r : mpr_t) : mpr_t :=
  {| pages := pages r; num_pages := num_pages r; iter_pages := iter_pages r;
     num_iter_pages := num_iter_pages r; num_mem_pages := 0; proc_maps := proc_maps r |}.

Definition ltckpt_page_list_add (s : mstate) (addr : Z) : res mstate :=
  match mpr s with
  | None => Stop FNull
  | Some r =>
      assert! (num_pages r <? MPROTECT_MAX_PAGES) in
      assert! (num_mem_pages r <? MPROTECT_MAX_PAGES) in
      let new_mem := mem_base + num_mem_pages r * PAGE_SIZE in
      let new_page := {| page_addr := addr; page_mem := new_mem |} in
      let r' := {| pages := <[Z.to_nat (num_pages r) := new_page]> (pages r);
                   num_pages := num_pages r + 1; iter_pages := iter_pages r;
                   num_iter_pages := num_iter_pages r;
                   num_mem_pages := num_mem_pages r + 1; proc_maps := proc_maps r |} in
      Ret (set_mpr (set_pmem s (mem_copy (pmem s) addr (pmem s) new_mem (Z.to_nat PAGE_SIZE))) r')
  end.

Definition ltckpt_page_list_clear_and_iter (r : mpr_t) : mpr_t :=
  let n := Z.to_nat (num_pages r) in
  {| pages := pages r; num_pages := 0;
     iter_pages := take n (pages r) ++ drop n (iter_pages r);
     num_iter_pages := num_pages r; num_mem_pages := num_mem_pages r; proc_maps := proc_maps r |}.

(** The iterator is an index into [iter_pages]. *)
Definition ltckpt_page_list_iter_next (r : mpr_t) (index : Z) : option (mpr_page_t * Z) :=
  if index >=? num_iter_pages r then None
  else match iter_pages r !! Z.to_nat index with
       | Some p => Some (p, index + 1)
       | None => None
       end.

(** ** Protection *)

Definition protect (w : Z → bool) (addr len : Z) (b : bool) : Z → bool :=
  λ p, if (addr <=? p) && (p <? addr + len) then b else w p.

Definition ltckpt_mprotect_mem (s : mstate) (addr len : Z) (b : bool) : res (Z * mstate) :=
  let ret := mprotect_ret k addr len b in
  if negb (ret =? 0) then Stop FAssert
  else Ret (ret, set_writable s (protect (writable s) addr len b)).

Definition skip_entry (e : util_proc_maps_entry_t) : util_proc_maps_entry_t :=
  {| vm_start := vm_start e; vm_end := vm_end e; pr := pr e; pw := pw e; px := px e; ps := "000"%char;
     pgoff := pgoff e; pmajor := pmajor e; pminor := pminor e; ino := ino e; pname := pname e |}.

Definition ltckpt_mprotect_vma (s : mstate) (e : util_proc_maps_entry_t) (b : bool)
    : res (util_proc_maps_entry_t * mstate) :=
  if Ascii.eqb (ps e) "000"%char then Ret (e, s)
  else
    let! rs := ltckpt_mprotect_mem s (vm_start e) (vm_end e - vm_start e) b in
    if negb (rs.1 =? 0) then Ret (skip_entry e, rs.2) else Ret (e, rs.2).

Fixpoint mprotect_vmas_loop (s : mstate) (b : bool) (done_ todo : list util_proc_maps_entry_t)
    : res (list util_proc_maps_entry_t * mstate) :=
  match todo with
  | [] => Ret (done_, s)
  | e :: todo' =>
      let! es := ltckpt_mprotect_vma s e b in
      mprotect_vmas_loop es.2 b (done_ ++ [es.1]) todo'
  end.

Definition ltckpt_mprotect_vmas (s : mstate) (b : bool) : res mstate :=
  match mpr s with
  | None => Stop FNull
  | Some r =>
      let! ls := mprotect_vmas_loop s b [] (proc_maps r) in
      Ret (set_mpr ls.2 (set_maps r ls.1))
  end.

(** ** Page faults and checkpoints *)

Definition ltckpt_sighandler (s : mstate) (si_addr : Z) : res mstate :=
  let s1 := set_mctx s (Ctx.add_nesting (mctx s) 1) in
  let addr := page_of si_addr in
  let! s2 := ltckpt_page_list_add s1 addr in
  let s3 := set_mctx s2 (Ctx.CTX_INC_num_cows (sz k) (mctx s2)) in
  let! rs := ltckpt_mprotect_mem s3 addr PAGE_SIZE true in
  Ret (set_mctx rs.2 (Ctx.add_nesting (mctx rs.2) (-1))).

Fixpoint checkpoint_loop (fuel : nat) (s : mstate) (r : mpr_t) (iter : Z) : res mstate :=
  match ltckpt_page_list_iter_next r iter with
  | None => Ret s
  | Some (p, iter') =>
      match fuel with
      | O => Stop FFuel
      | S fuel' =>
          let! rs := ltckpt_mprotect_mem s (page_addr p) PAGE_SIZE false in
          checkpoint_loop fuel' rs.2 r iter'
      end
  end.

Definition ltckpt_checkpoint (s : mstate) : res mstate :=
  match mpr s with
  | None => Stop FNull
  | Some r =>
      let r' := ltckpt_page_list_clear_and_iter r in
      let! s1 := checkpoint_loop (Z.to_nat (num_iter_pages r')) s r' 0 in
      Ret (set_mpr s1 (ltckpt_mem_flush r'))
  end.

(** ** Initialisation *)

(** [ltcpt_is_checkpointed_vma] of [ltckpt_common.c]. *)
Definition ltcpt_is_checkpointed_vma (c : Ctx.ltckpt_ctx_t) (e : util_proc_maps_entry_t) : bool :=
  if ENTRY_IS_STACK e || ENTRY_IS_TLS (lay k) e || negb (Ascii.eqb (pw e) "w"%char) then false
  else if ENTRY_NAME_CONTAINS e "libltckpt" then false
  else if negb (Ctx.skip_mmap c =? 0) && negb (ENTRY_IS_HEAP (lay k) e) && negb (ENTRY_IS_PROG_DATA (lay k) e)
  then false else true.

Definition ltckpt_init_mpr_cb (c : Ctx.ltckpt_ctx_t) (e : util_proc_maps_entry_t) : util_proc_maps_parse_ret_t :=
  if vm_start e =? mpr_addr then UTIL_PROC_MAPS_RET_CONTINUE
  else if negb (ltcpt_is_checkpointed_vma c e) then UTIL_PROC_MAPS_RET_CONTINUE
  else UTIL_PROC_MAPS_RET_SAVE.

Definition round_to_page (len : Z) : Z :=
  if len `mod` PAGE_SIZE =? 0 then len else len - len `mod` PAGE_SIZE + PAGE_SIZE.

(** [ltkcpt_ctx_get_buff]: fresh pages between two guard pages. *)
Definition ltkcpt_ctx_get_buff (s : mstate) (len : Z) : option Z * mstate :=
  match mmap_ret k with
  | None => (None, s)
  | Some buff =>
      let len := round_to_page len in
      let m := λ x, if (buff <=? x) && (x <? buff + len + 2 * PAGE_SIZE) then 0 else pmem s x in
      let w := protect (writable s) buff (len + 2 * PAGE_SIZE) true in
      let w := protect w buff PAGE_SIZE false in
      let w := protect w (buff + PAGE_SIZE + len) PAGE_SIZE false in
      (Some (buff + PAGE_SIZE), set_writable (set_pmem s m) w)
  end.

Definition null_page : mpr_page_t := {| page_addr := 0; page_mem := 0 |}.
Definition mpr_zero : mpr_t :=
  {| pages := replicate (Z.to_nat MPROTECT_MAX_PAGES) null_page; num_pages := 0;
     iter_pages := replicate (Z.to_nat MPROTECT_MAX_PAGES) null_page; num_iter_pages := 0;
     num_mem_pages := 0; proc_maps := [] |}.

(** [sizeof (mpr_t)] up to the context, whose size is [ctx_size]. *)
Variable ctx_size : Z.
Definition sizeof_mpr : Z :=
  mem_offset + MPROTECT_MAX_PAGES * PAGE_SIZE + sz k + 16 + ctx_size.

Definition ltckpt_init_mpr (s : mstate) : res mstate :=
  match ltkcpt_ctx_get_buff s sizeof_mpr with
  | (None, _) => Stop FNull
  | (Some a, s1) =>
      let s2 := set_mpr (set_mctx s1 (Ctx.set_initialized (mctx s1))) mpr_zero in
      let! rl := util_proc_maps_parse_filter (abi k) (mincore k) (maps_file k)
                   (Some (ltckpt_init_mpr_cb (mctx s2))) in
      if negb (rl.1 =? 0) then Stop FAssert
      else
        let s3 := set_mpr s2 (set_maps mpr_zero rl.2) in
        if negb (sigmask_ret k =? 0) then Stop FAssert
        else if negb (sigaction_ret k =? 0) then Stop FAssert
        else ltckpt_mprotect_vmas (set_handler s3) false
  end.

(** [LTCKPT_DECLARE_TOP_OF_THE_LOOP_HOOK]; the boolean tells whether a checkpoint
    was taken. *)
Definition mprotect_top_of_the_loop (s : mstate) : res (mstate * bool) :=
  let '(ctx1, go) := Ctx.CTX_NEW_TOL_OR_RETURN (sz k) (mctx s) in
  let s1 := set_mctx s ctx1 in
  if negb go then Ret (s1, false)
  else
    let! s2 := if Ctx.initialized (mctx s1) =? 0 then ltckpt_init_mpr s1 else Ret s1 in
    let! s3 := ltckpt_checkpoint s2 in
    Ret (set_mctx s3 (Ctx.CTX_NEW_CHECKPOINT (sz k) (mctx s3)), true).

(** [LTCKPT_DECLARE_LATE_INIT_HOOK]. *)
Definition mprotect_late_init_hook (s : mstate) : res mstate :=
  if (Ctx.lazy_init (mctx s) =? 0) && negb (Ctx.checkpoint_interval (mctx s) =? 0)
  then ltckpt_init_mpr s else Ret s.

(** [LTCKPT_MPROTECT_SAFE] around code that may write anywhere, as the hook that
    prints the context has it. *)
Definition LTCKPT_MPROTECT_SAFE (s : mstate) (body : mstate → res mstate) : res mstate :=
  let initialized := negb (Ctx.initialized (mctx s) =? 0) in
  let! s1 := if initialized then ltckpt_mprotect_vmas s true else Ret s in
  let! s2 := body s1 in
  if initialized then ltckpt_mprotect_vmas s2 false else Ret s2.

(** ** The program *)

Definition write_byte (s : mstate) (a v : Z) : res mstate :=
  let! s' := if writable s (page_of a) then Ret s
             else if handler_installed s then ltckpt_sighandler s a
             else Stop FBounds in
  Ret (set_pmem s' (mem_set (pmem s') a v)).

Fixpoint write_bytes (s : mstate) (a : Z) (bs : list Z) : res mstate :=
  match bs with
  | [] => Ret s
  | b :: bs' => let! s' := write_byte s a b in write_bytes s' (a + 1) bs'
  end.

Definition mprotect_run_op (s : mstate) (o : op) : res mstate := write_bytes s (op_addr o) (op_bytes o).
Definition mprotect_run_ops (s : mstate) (os : list op) : res mstate := res_foldl mprotect_run_op s os.

(** ** System-call wrappers: [mprotect_overrides.c] *)

(** Read a byte and write it back. *)
Definition LTCKPT_CHECK_WRITE (s : mstate) (b : Z) : res mstate :=
  if b =? 0 then Ret s else write_byte s b (pmem s b).

Fixpoint check_buff_loop (fuel : nat) (s : mstate) (b i size : Z) : res mstate :=
  if i <? size then
    match fuel with
    | O => Stop FFuel
    | S fuel' =>
        let! s' := LTCKPT_CHECK_WRITE s (b + i) in
        let! i' := chk32 (i + PAGE_SIZE) in
        check_buff_loop fuel' s' b i' size
    end
  else Ret s.

Definition LTCKPT_CHECK_BUFF (s : mstate) (b size : Z) : res mstate :=
  if negb (b =? 0) && (size >? 0) then
    let! s' := check_buff_loop (Z.to_nat (size / PAGE_SIZE + 1)) s b 0 size in
    LTCKPT_CHECK_WRITE s' (b + (size - 1))
  else Ret s.

(** The wrapped calls with the arguments the wrappers look at. *)
Inductive wrapped_call :=
| call_epoll_wait (events : Z)
| call_poll (fds : Z)
| call_select (readfds writefds exceptfds : Z)
| call_read (buf count : Z)
| call_accept (addr addrlen : Z)
| call_accept4 (addr addrlen : Z)
| call_recv (buf len : Z)
| call_recvfrom (buf len src_addr addrlen : Z)
| call_recvmsg (msg msg_control msg_controllen : Z) (iov : list (Z * Z))
| call_semop (sops : Z)
| call_xstat (buf : Z)
| call_fxstat (buf : Z)
| call_lxstat (buf : Z)
| call_stat (buf : Z)
| call_fstat (buf : Z)
| call_lstat (buf : Z).

Definition check_writes (s : mstate) (l : list Z) : res mstate := res_foldl LTCKPT_CHECK_WRITE s l.

(** [stat], [fstat] and [lstat] call the wrapped [__xstat] functions, so they
    check twice. *)
Definition wrapper (s : mstate) (c : wrapped_call) : res mstate :=
  match c with
  | call_epoll_wait e => check_writes s [e]
  | call_poll f => check_writes s [f]
  | call_select r w e => check_writes s [r; w; e]
  | call_read b n => LTCKPT_CHECK_BUFF s b n
  | call_accept a l | call_accept4 a l => check_writes s [a; l]
  | call_recv b n => LTCKPT_CHECK_BUFF s b n
  | call_recvfrom b n a l => let! s' := LTCKPT_CHECK_BUFF s b n in check_writes s' [a; l]
  | call_recvmsg msg ctl ctllen iov =>
      if msg =? 0 then Ret s
      else
        let! s1 := LTCKPT_CHECK_BUFF s ctl ctllen in
        let! s2 := res_foldl (λ s v, LTCKPT_CHECK_BUFF s v.1 v.2) s1 iov in
        LTCKPT_CHECK_WRITE s2 msg
  | call_semop p | call_xstat p | call_fxstat p | call_lxstat p => check_writes s [p]
  | call_stat p | call_fstat p | call_lstat p => check_writes s [p; p]
  end.

(** ** What is recoverable *)

(** The pages copied since the checkpoint. *)
Definition copied (r : mpr_t) : list mpr_page_t := take (Z.to_nat (num_pages r)) (pages r).
Definition copied_pages (s : mstate) : list Z :=
  match mpr s with None => [] | Some r => page_addr <$> copied r end.

(** The byte at [a] at the checkpoint: from the copy of its page, if there is
    one. *)
Definition recovered (s : mstate) (a : Z) : Z :=
  match mpr s with
  | None => pmem s a
  | Some r =>
      match list_find (λ p, page_addr p = page_of a) (copied r) with
      | Some (_, p) => pmem s (page_mem p + (a - page_of a))
      | None => pmem s a
      end
  end.

(** The checkpointed pages. *)
Definition checkpointed (s : mstate) (a : Z) : bool :=
  match mpr s with
  | None => false
  | Some r => existsb (λ e, ENTRY_CONTAINS_ADDR e a) (proc_maps r)
  end.
End Mprotect.

(** ** Arithmetic of pages *)

Lemma page_of_mod a : page_of a `mod` PAGE_SIZE = 0.
Proof. unfold page_of, PAGE_SIZE. Z.div_mod_to_equations. lia. Qed.

Lemma page_of_range a : page_of a ≤ a < page_of a + PAGE_SIZE.
Proof. unfold page_of, PAGE_SIZE. Z.div_mod_to_equations. lia. Qed.

Lemma page_of_unique p a : p `mod` PAGE_SIZE = 0 → p ≤ a < p + PAGE_SIZE → page_of a = p.
Proof. unfold page_of, PAGE_SIZE. intros. Z.div_mod_to_equations. lia. Qed.

Lemma page_of_idem a : page_of (page_of a) = page_of a.
Proof. apply page_of_unique; [apply page_of_mod|]. unfold PAGE_SIZE. lia. Qed.

(** Of two pages one contains the other's first address only if they are the
    same. *)
Lemma aligned_in_page p q :
  p `mod` PAGE_SIZE = 0 → q `mod` PAGE_SIZE = 0 → p ≤ q < p + PAGE_SIZE → q = p.
Proof. unfold PAGE_SIZE. intros. Z.div_mod_to_equations. lia. Qed.

#[export] Hint Resolve page_of_mod page_of_range : osiris.

Lemma protect_page w p b q :
  p `mod` PAGE_SIZE = 0 → q `mod` PAGE_SIZE = 0 →
  protect w p PAGE_SIZE b q = if decide (q = p) then b else w q.
Proof.
  intros Hp Hq. unfold protect. destruct (decide (q = p)) as [->|Hne].
  - destruct (Z.leb_spec p p); [|lia]. by destruct (Z.ltb_spec p (p + PAGE_SIZE)); [|unfold PAGE_SIZE in *; lia].
  - destruct (Z.leb_spec p q), (Z.ltb_spec q (p + PAGE_SIZE)); try done.
    destruct Hne. by apply aligned_in_page.
Qed.

(** ** The invariant *)

Section Invariant.
Context (k : env) (ctx_size : Z).

Definition in_buffer (x : Z) : Prop :=
  mem_base k ≤ x < mem_base k + MPROTECT_MAX_PAGES * PAGE_SIZE.

Record mp_ok (s : mstate) (r : mpr_t) : Prop := {
  mo_mpr : mpr s = Some r;
  mo_handler : handler_installed s = true;
  mo_length : Z.of_nat (length (pages r)) = MPROTECT_MAX_PAGES;
  mo_num : 0 ≤ num_pages r ≤ MPROTECT_MAX_PAGES;
  mo_mem : num_mem_pages r = num_pages r;
  mo_slot : ∀ i p, copied r !! i = Some p → page_mem p = mem_base k + Z.of_nat i * PAGE_SIZE;
  mo_nodup : NoDup (page_addr <$> copied r);
  mo_copied : ∀ q, q ∈ page_addr <$> copied r → q `mod` PAGE_SIZE = 0 ∧ checkpointed s q = true;
  mo_writable : ∀ q, q `mod` PAGE_SIZE = 0 → checkpointed s q = true →
                  (writable s q = true ↔ q ∈ page_addr <$> copied r);
  mo_aligned : Forall (λ e, vm_start e `mod` PAGE_SIZE = 0 ∧ vm_end e `mod` PAGE_SIZE = 0) (proc_maps r);
  mo_apart : ∀ x, in_buffer x → checkpointed s x = false;
}.

(** Areas consist of whole pages. *)
Lemma checkpointed_page s r a : mp_ok s r → checkpointed s (page_of a) = checkpointed s a.
Proof.
  intros H. unfold checkpointed. rewrite (mo_mpr _ _ H). pose proof (mo_aligned _ _ H) as Hal.
  induction Hal as [|e l [H1 H2] _ IH]; [done|]. cbn [existsb]. rewrite IH. f_equal.
  unfold ENTRY_CONTAINS_ADDR. rewrite !Z.geb_leb. clear -H1 H2. unfold page_of, PAGE_SIZE in *.
  apply Bool.eq_iff_eq_true. zb. Z.div_mod_to_equations. lia.
Qed.

Lemma length_copied s r : mp_ok s r → Z.of_nat (length (copied r)) = num_pages r.
Proof.
  intros H. unfold copied. rewrite length_take. pose proof (mo_num _ _ H). pose proof (mo_length _ _ H). lia.
Qed.

Lemma copied_pages_eq s r : mp_ok s r → copied_pages s = page_addr <$> copied r.
Proof. intros H. unfold copied_pages. by rewrite (mo_mpr _ _ H). Qed.

(** The copy of a page: [recovered] reads the slot of the page's index. *)
Lemma recovered_copied s r a i p :
  mp_ok s r → copied r !! i = Some p → page_addr p = page_of a →
  recovered s a = pmem s (page_mem p + (a - page_of a)).
Proof.
  intros H Hi Hp. unfold recovered. rewrite (mo_mpr _ _ H).
  destruct (list_find _ _) as [[j p']|] eqn:E.
  - apply list_find_Some in E as (Hj & Hp' & _).
    assert (Hij : (page_addr <$> copied r) !! i = Some (page_of a)) by (by rewrite list_lookup_fmap, Hi; simpl; f_equal).
    assert (Hjj : (page_addr <$> copied r) !! j = Some (page_of a)) by (by rewrite list_lookup_fmap, Hj; simpl; f_equal).
    pose proof (NoDup_lookup _ _ _ _ (mo_nodup _ _ H) Hij Hjj). naive_solver.
  - apply list_find_None in E. rewrite Forall_forall in E. exfalso.
    apply (E p); [by eapply list_elem_of_lookup_2|done].
Qed.

Lemma recovered_clean s r a :
  mp_ok s r → page_of a ∉ page_addr <$> copied r → recovered s a = pmem s a.
Proof.
  intros H Hn. unfold recovered. rewrite (mo_mpr _ _ H).
  destruct (list_find _ _) as [[j p]|] eqn:E; [|done]. apply list_find_Some in E as (Hj & Hp & _).
  destruct Hn. apply list_elem_of_fmap. exists p. split; [done|]. by eapply list_elem_of_lookup_2.
Qed.

(** [recovered] depends on the lists, the buffer and the page itself only. *)
Lemma recovered_frame s r s' a :
  mp_ok s r → mpr s' = Some r →
  (∀ x, in_buffer x → pmem s' x = pmem s x) →
  (page_of a ∉ page_addr <$> copied r → pmem s' a = pmem s a) →
  recovered s' a = recovered s a.
Proof.
  intros H Hr Hb Ha. unfold recovered. rewrite Hr, (mo_mpr _ _ H).
  destruct (list_find _ _) as [[j p]|] eqn:E.
  - apply list_find_Some in E as (Hj & Hp & _). apply Hb. unfold in_buffer. rewrite (mo_slot _ _ H _ _ Hj).
    pose proof (page_of_range a). apply lookup_lt_Some in Hj. pose proof (length_copied _ _ H).
    pose proof (mo_num _ _ H). unfold MPROTECT_MAX_PAGES, PAGE_SIZE in *. nia.
  - apply Ha. intros Hin. apply list_elem_of_fmap in Hin as (p & Hp & Hin).
    apply list_find_None in E. rewrite Forall_forall in E. by apply (E p Hin).
Qed.

(** ** The page-fault handler *)

(** The kernel grants the changes of permission. *)
Hypothesis kernel_ok : ∀ a l b, mprotect_ret k a l b = 0.

Lemma mprotect_mem_ok s a l b :
  ltckpt_mprotect_mem k s a l b = Ret (0, set_writable s (protect (writable s) a l b)).
Proof. unfold ltckpt_mprotect_mem. by rewrite kernel_ok. Qed.

(** One more page in the list. *)
Definition list_add (r : mpr_t) (q : Z) : mpr_t :=
  {| pages := <[Z.to_nat (num_pages r) := {| page_addr := q; page_mem := mem_base k + num_pages r * PAGE_SIZE |}]> (pages r);
     num_pages := num_pages r + 1; iter_pages := iter_pages r; num_iter_pages := num_iter_pages r;
     num_mem_pages := num_pages r + 1; proc_maps := proc_maps r |}.

Lemma copied_list_add s r q :
  mp_ok s r → num_pages r < MPROTECT_MAX_PAGES →
  copied (list_add r q) = copied r ++ [{| page_addr := q; page_mem := mem_base k + num_pages r * PAGE_SIZE |}].
Proof.
  intros H Hn. unfold copied, list_add. cbn [num_pages pages]. pose proof (mo_num _ _ H). pose proof (mo_length _ _ H).
  rewrite Z2Nat.inj_add by lia. change (Z.to_nat 1) with 1%nat. rewrite Nat.add_1_r.
  erewrite take_S_r by (apply list_lookup_insert_eq; lia). by rewrite take_insert_ge by lia.
Qed.

Lemma copied_addrs_add s r q :
  mp_ok s r → num_pages r < MPROTECT_MAX_PAGES →
  page_addr <$> copied (list_add r q) = (page_addr <$> copied r) ++ [q].
Proof. intros H Hn. by rewrite (copied_list_add s), fmap_app. Qed.

(** The state the handler leaves. *)
Definition handled (s : mstate) (r : mpr_t) (a : Z) : mstate :=
  {| pmem := mem_copy (pmem s) (page_of a) (pmem s) (mem_base k + num_pages r * PAGE_SIZE) (Z.to_nat PAGE_SIZE);
     writable := protect (writable s) (page_of a) PAGE_SIZE true;
     handler_installed := true; mpr := Some (list_add r (page_of a));
     mctx := Ctx.add_nesting (Ctx.CTX_INC_num_cows (sz k) (Ctx.add_nesting (mctx s) 1)) (-1) |}.

Lemma sighandler_raw s r a :
  mpr s = Some r → num_mem_pages r = num_pages r → handler_installed s = true →
  ltckpt_sighandler k s a =
    if num_pages r <? MPROTECT_MAX_PAGES then Ret (handled s r a) else Stop FAssert.
Proof.
  intros Hr Hm Hh. unfold ltckpt_sighandler, ltckpt_page_list_add. cbn [mpr set_mctx pmem]. rewrite Hr, Hm.
  destruct (num_pages r <? MPROTECT_MAX_PAGES); [|done]. cbn [res_bind]. rewrite mprotect_mem_ok. cbn [res_bind snd].
  unfold handled, list_add. by rewrite <- Hh.
Qed.

Lemma sighandler_eq s r a :
  mp_ok s r → ltckpt_sighandler k s a =
    if num_pages r <? MPROTECT_MAX_PAGES then Ret (handled s r a) else Stop FAssert.
Proof. intros H. apply sighandler_raw; by destruct H. Qed.

Lemma handled_memory s r a x : mp_ok s r → num_pages r < MPROTECT_MAX_PAGES → ¬ in_buffer x → pmem (handled s r a) x = pmem s x.
Proof.
  intros H Hn Hx. cbn [handled pmem]. apply mem_copy_out. pose proof (mo_num _ _ H). unfold in_buffer in Hx.
  unfold MPROTECT_MAX_PAGES, PAGE_SIZE in *. lia.
Qed.

Lemma handled_ok s r a :
  mp_ok s r → num_pages r < MPROTECT_MAX_PAGES → checkpointed s a = true →
  page_of a ∉ page_addr <$> copied r →
  mp_ok (handled s r a) (list_add r (page_of a)).
Proof.
  intros H Hn Hc Hp. pose proof (mo_num _ _ H). pose proof (length_copied _ _ H) as Hlen.
  pose proof (copied_list_add _ _ (page_of a) H Hn) as Hcp.
  assert (Hck : ∀ x, checkpointed (handled s r a) x = checkpointed s x).
  { intros x. unfold checkpointed. cbn [handled mpr list_add proc_maps]. by rewrite (mo_mpr _ _ H). }
  pose proof (copied_addrs_add _ _ (page_of a) H Hn) as Hca.
  constructor; rewrite ?Hca, ?Hcp; try (cbn; done).
  - cbn [list_add pages]. rewrite length_insert. apply (mo_length _ _ H).
  - cbn [list_add num_pages]. lia.
  - intros i p Hi. apply lookup_app_Some in Hi as [Hi|[Hi1 Hi2]]; [by apply (mo_slot _ _ H)|].
    apply list_lookup_singleton_Some in Hi2 as [E <-]. cbn [page_mem]. unfold PAGE_SIZE. lia.
  - apply NoDup_app. split_and!; [apply (mo_nodup _ _ H)| |apply NoDup_singleton].
    intros q Hq Hq'. apply list_elem_of_singleton in Hq'. congruence.
  - intros q Hq. rewrite Hck. apply elem_of_app in Hq as [Hq|Hq]; [by apply (mo_copied _ _ H)|].
    apply list_elem_of_singleton in Hq as ->. split; [apply page_of_mod|]. by rewrite (checkpointed_page _ r).
  - intros q Hq Hqc. rewrite Hck in Hqc. cbn [handled writable].
    rewrite protect_page by (auto using page_of_mod). rewrite elem_of_app, list_elem_of_singleton.
    pose proof (mo_writable _ _ H q Hq Hqc). destruct (decide (q = page_of a)); naive_solver.
  - apply (mo_aligned _ _ H).
  - intros x Hx. rewrite Hck. by apply (mo_apart _ _ H).
Qed.

(** The handler changes nothing that is recovered. *)
Lemma handled_recovered s r a x :
  mp_ok s r → num_pages r < MPROTECT_MAX_PAGES → checkpointed s a = true →
  page_of a ∉ page_addr <$> copied r → checkpointed s x = true →
  recovered (handled s r a) x = recovered s x.
Proof.
  intros H Hn Hc Hp Hx. pose proof (handled_ok _ _ _ H Hn Hc Hp) as H'.
  pose proof (copied_list_add _ _ (page_of a) H Hn) as Hcp. pose proof (length_copied _ _ H) as Hlen.
  pose proof (mo_num _ _ H). pose proof (page_of_range x) as Hr.
  destruct (decide (page_of x = page_of a)) as [E|E].
  - assert (Hi : copied (list_add r (page_of a)) !! length (copied r) =
                 Some {| page_addr := page_of a; page_mem := mem_base k + num_pages r * PAGE_SIZE |}).
    { rewrite Hcp. by apply list_lookup_middle. }
    rewrite (recovered_copied _ _ x _ _ H' Hi) by done.
    rewrite (recovered_clean _ _ _ H) by (by rewrite E). cbn [page_mem handled pmem].
    rewrite mem_copy_in by (unfold PAGE_SIZE in *; lia). f_equal. rewrite <- E. lia.
  - destruct (decide (page_of x ∈ page_addr <$> copied r)) as [Hin|Hni].
    + pose proof Hin as Hin'. apply list_elem_of_fmap in Hin as (p & Ep & Hin). apply list_elem_of_lookup_1 in Hin as (i & Hi).
      rewrite (recovered_copied _ _ x i p H Hi) by done.
      rewrite (recovered_copied _ _ x i p H') by (try done; rewrite Hcp; by apply lookup_app_l_Some).
      cbn [handled pmem]. apply mem_copy_out. left. rewrite (mo_slot _ _ H _ _ Hi).
      apply lookup_lt_Some in Hi. unfold PAGE_SIZE in *. lia.
    + rewrite (recovered_clean _ _ _ H) by done.
      rewrite (recovered_clean _ _ _ H') by (rewrite (copied_addrs_add s), elem_of_app, list_elem_of_singleton by done; naive_solver).
      apply handled_memory; [done|done|]. intros Hb. by rewrite (mo_apart _ _ H) in Hx.
Qed.

(** ** Sequences of writes *)

(** Memory outside the checkpointed areas that the program may write: its stack,
    say. *)
Definition unprotected (s : mstate) (a : Z) : Prop :=
  checkpointed s a = false ∧ writable s (page_of a) = true ∧ ¬ in_buffer a.
Definition accessible (s : mstate) (a : Z) : Prop := checkpointed s a = true ∨ unprotected s a.

(** The pages copied when the addresses [l] are written, in order. *)
Definition touch (s : mstate) (cp : list Z) (a : Z) : list Z :=
  if checkpointed s a then if decide (page_of a ∈ cp) then cp else cp ++ [page_of a] else cp.
Definition touched (s : mstate) (cp : list Z) (l : list Z) : list Z := foldl (touch s) cp l.

(** From [s] to [s'] the addresses [l] were written, with effect [f] on the
    memory. *)
Record wrote (s s' : mstate) (l : list Z) (f : mem → mem) : Prop := {
  wr_ok : ∃ r', mp_ok s' r';
  wr_copied : copied_pages s' = touched s (copied_pages s) l;
  wr_areas : ∀ x, checkpointed s' x = checkpointed s x;
  wr_mono : ∀ q, q `mod` PAGE_SIZE = 0 → writable s q = true → writable s' q = true;
  wr_done : ∀ a, a ∈ l → writable s' (page_of a) = true;
  wr_mem : ∀ x, ¬ in_buffer x → pmem s' x = f (pmem s) x;
  wr_recovered : ∀ x, checkpointed s x = true → recovered s' x = recovered s x;
  wr_ctx : Ctx.initialized (mctx s') = Ctx.initialized (mctx s);
}.

(** The computation [m] writes [l], or fails an assertion because more pages than
    there is room for would have to be copied. *)
Definition writes (m : res mstate) (s : mstate) (l : list Z) (f : mem → mem) : Prop :=
  if decide (Z.of_nat (length (touched s (copied_pages s) l)) ≤ MPROTECT_MAX_PAGES)
  then ∃ s', m = Ret s' ∧ wrote s s' l f
  else m = Stop FAssert.

Definition bytewise (f : mem → mem) : Prop := ∀ m m' x, m x = m' x → f m x = f m' x.

Lemma touched_app s cp l1 l2 : touched s cp (l1 ++ l2) = touched s (touched s cp l1) l2.
Proof. apply foldl_app. Qed.

Lemma touched_ext s s' cp l :
  (∀ x, checkpointed s' x = checkpointed s x) → touched s' cp l = touched s cp l.
Proof.
  intros H. revert cp. induction l as [|a l IH]; intros cp; [done|].
  unfold touched in *. cbn [foldl]. rewrite IH. unfold touch. by rewrite H.
Qed.

Lemma touched_length s cp l : (length cp ≤ length (touched s cp l))%nat.
Proof.
  revert cp. induction l as [|a l IH]; intros cp; [done|]. unfold touched in *. cbn [foldl].
  etrans; [|apply IH]. unfold touch. repeat case_match; rewrite ?length_app; simpl; lia.
Qed.

Lemma accessible_wrote s s' l f a : wrote s s' l f → accessible s a → accessible s' a.
Proof.
  intros W. unfold accessible, unprotected. rewrite (wr_areas _ _ _ _ W).
  intros [H|(H1 & H2 & H3)]; [by left|right]. split_and!; try done.
  by apply (wr_mono _ _ _ _ W); [apply page_of_mod|].
Qed.

Lemma wrote_nil s r : mp_ok s r → wrote s s [] id.
Proof. intros H. constructor; try done; [by exists r|]. intros a Ha. by apply elem_of_nil in Ha. Qed.

Lemma wrote_trans s1 s2 s3 l1 l2 f g :
  bytewise g → wrote s1 s2 l1 f → wrote s2 s3 l2 g → wrote s1 s3 (l1 ++ l2) (λ m, g (f m)).
Proof.
  intros Hg W1 W2. constructor.
  - apply (wr_ok _ _ _ _ W2).
  - rewrite (wr_copied _ _ _ _ W2), (wr_copied _ _ _ _ W1), touched_app. apply touched_ext, (wr_areas _ _ _ _ W1).
  - intros x. by rewrite (wr_areas _ _ _ _ W2), (wr_areas _ _ _ _ W1).
  - intros q Hq Hw. apply (wr_mono _ _ _ _ W2); [done|]. by apply (wr_mono _ _ _ _ W1).
  - intros a Ha. apply elem_of_app in Ha as [Ha|Ha]; [|by apply (wr_done _ _ _ _ W2)].
    apply (wr_mono _ _ _ _ W2); [apply page_of_mod|]. by apply (wr_done _ _ _ _ W1).
  - intros x Hx. rewrite (wr_mem _ _ _ _ W2) by done. apply Hg. by apply (wr_mem _ _ _ _ W1).
  - intros x Hx. rewrite (wr_recovered _ _ _ _ W2), (wr_recovered _ _ _ _ W1); try done.
    by rewrite (wr_areas _ _ _ _ W1).
  - by rewrite (wr_ctx _ _ _ _ W2), (wr_ctx _ _ _ _ W1).
Qed.

Lemma writes_bind m (n : mstate → res mstate) s l1 l2 f g :
  bytewise g → writes m s l1 f →
  (∀ s', wrote s s' l1 f → writes (n s') s' l2 g) →
  writes (res_bind m n) s (l1 ++ l2) (λ m, g (f m)).
Proof.
  intros Hg Hm Hn. unfold writes in *. rewrite touched_app.
  pose proof (touched_length s (touched s (copied_pages s) l1) l2) as Hlen.
  destruct (decide (_ ≤ _)) as [H1|H1] in Hm.
  - destruct Hm as (s1 & -> & W1). specialize (Hn s1 W1). cbn [res_bind].
    rewrite (wr_copied _ _ _ _ W1), (touched_ext s s1) in Hn by apply (wr_areas _ _ _ _ W1).
    destruct (decide _); [|done]. destruct Hn as (s2 & -> & W2). exists s2. split; [done|].
    by eapply wrote_trans.
  - subst m. rewrite decide_False; [done|]. lia.
Qed.

Lemma writes_ret s r : mp_ok s r → writes (Ret s) s [] id.
Proof.
  intros H. unfold writes. cbn [touched foldl]. rewrite (copied_pages_eq _ _ H), length_fmap, (length_copied _ _ H).
  pose proof (mo_num _ _ H). rewrite decide_True by lia. exists s. split; [done|]. by eapply wrote_nil.
Qed.

Lemma writes_effect m s l f g :
  (∀ x, ¬ in_buffer x → f (pmem s) x = g (pmem s) x) → writes m s l f → writes m s l g.
Proof.
  intros E H. unfold writes in *. destruct (decide _); [|done]. destruct H as (s' & -> & W). exists s'. split; [done|].
  destruct W. constructor; try done. intros x Hx. rewrite <- E by done. auto.
Qed.

(** A write to a page that may be written. *)
Lemma write_byte_direct s r a v :
  mp_ok s r → accessible s a → writable s (page_of a) = true →
  wrote s (set_pmem s (mem_set (pmem s) a v)) [a] (λ m, mem_set m a v).
Proof.
  intros H Ha Hw. set (s' := set_pmem _ _).
  assert (Hnb : ¬ in_buffer a).
  { intros Hb. destruct Ha as [Hc|(_ & _ & Hnb)]; [|done]. by rewrite (mo_apart _ _ H) in Hc. }
  assert (Hcp : checkpointed s a = true → page_of a ∈ page_addr <$> copied r).
  { intros Hc. apply (mo_writable _ _ H); [apply page_of_mod| |done]. by rewrite (checkpointed_page _ r). }
  constructor; try done.
  - exists r. destruct H. by constructor.
  - cbn [touched foldl]. change (copied_pages s') with (copied_pages s). unfold touch.
    destruct (checkpointed s a); [|done]. rewrite decide_True; [done|]. rewrite (copied_pages_eq _ _ H). by apply Hcp.
  - intros b Hb. apply list_elem_of_singleton in Hb as ->. done.
  - intros x Hx. apply (recovered_frame s r); [done|apply (mo_mpr _ _ H)|..]; cbn [s' set_pmem pmem]; unfold mem_set.
    + intros y Hy. by destruct (Z.eqb_spec y a) as [->|].
    + intros Hn. destruct (Z.eqb_spec x a) as [->|]; [|done]. by destruct (Hn (Hcp Hx)).
Qed.

Lemma bytewise_set a v : bytewise (λ m, mem_set m a v).
Proof. intros m m' x H. unfold mem_set. by destruct (x =? a). Qed.

Lemma bytewise_store a bs : bytewise (λ m, store_bytes m a bs).
Proof. intros m m' x H. by apply store_bytes_ext. Qed.

Lemma write_byte_writes s r a v :
  mp_ok s r → accessible s a → writes (write_byte k s a v) s [a] (λ m, mem_set m a v).
Proof.
  intros H Ha. unfold write_byte. pose proof (copied_pages_eq _ _ H) as Hcp. pose proof (length_copied _ _ H) as Hlen.
  pose proof (mo_num _ _ H).
  destruct (writable s (page_of a)) eqn:Hw.
  - pose proof (write_byte_direct s r a v H Ha Hw) as W. unfold writes. rewrite <- (wr_copied _ _ _ _ W).
    change (copied_pages _) with (copied_pages s). rewrite Hcp, length_fmap, decide_True by lia. eauto.
  - destruct Ha as [Hc|(_ & E & _)]; [|congruence]. rewrite (mo_handler _ _ H), (sighandler_eq _ _ _ H).
    assert (Hp : page_of a ∉ page_addr <$> copied r).
    { intros Hin. apply (mo_writable _ _ H) in Hin; [congruence|apply page_of_mod|]. by rewrite (checkpointed_page _ r). }
    assert (Ht : touched s (copied_pages s) [a] = copied_pages s ++ [page_of a]).
    { cbn [touched foldl]. unfold touch. by rewrite Hc, decide_False by (by rewrite Hcp). }
    unfold writes. rewrite Ht, length_app, Hcp, length_fmap. cbn [length].
    destruct (Z.ltb_spec (num_pages r) MPROTECT_MAX_PAGES) as [Hn|Hn]; [|by rewrite decide_False by lia].
    rewrite decide_True by lia. cbn [res_bind]. eexists. split; [done|].
    pose proof (handled_ok _ _ _ H Hn Hc Hp) as H'.
    assert (Hck : ∀ x, checkpointed (handled s r a) x = checkpointed s x).
    { intros x. unfold checkpointed. cbn [handled mpr list_add proc_maps]. by rewrite (mo_mpr _ _ H). }
    assert (W1 : wrote s (handled s r a) [a] id).
    { constructor; try done; [by eexists|..].
      - rewrite Ht, (copied_pages_eq _ _ H'), Hcp. by apply (copied_addrs_add s).
      - intros q Hq Hwq. cbn [handled writable]. rewrite protect_page by (auto using page_of_mod). by case_decide.
      - intros b Hb. apply list_elem_of_singleton in Hb as ->. cbn [handled writable].
        rewrite protect_page by (apply page_of_mod). by rewrite decide_True.
      - intros x Hx. by apply handled_memory.
      - intros x Hx. by apply handled_recovered. }
    assert (W2 := write_byte_direct _ _ a v H' (or_introl (eq_trans (Hck a) Hc)) (wr_done _ _ _ _ W1 a ltac:(by left))).
    pose proof (wrote_trans _ _ _ _ _ _ _ (bytewise_set a v) W1 W2) as W. cbn [app] in W.
    destruct W. constructor; try done; [|intros b Hb; apply list_elem_of_singleton in Hb as ->; apply wr_done0; by left].
    rewrite wr_copied0. cbn [touched foldl]. unfold touch. rewrite Hc.
    destruct (decide (page_of a ∈ copied_pages s)); [by rewrite decide_True|].
    rewrite decide_True; [done|]. apply elem_of_app. right. by left.
Qed.

Lemma write_bytes_writes bs s r a :
  mp_ok s r → Forall (accessible s) (seqZ a (Z.of_nat (length bs))) →
  writes (write_bytes k s a bs) s (seqZ a (Z.of_nat (length bs))) (λ m, store_bytes m a bs).
Proof.
  revert s r a. induction bs as [|b bs IH]; intros s r a H Ha.
  { change (seqZ a (Z.of_nat (length []))) with (@nil Z). by eapply (writes_ret s r). }
  cbn [length] in *. rewrite seqZ_cons in * by lia. apply Forall_cons in Ha as [Ha Has].
  replace (Z.pred (Z.of_nat (S (length bs)))) with (Z.of_nat (length bs)) in * by lia.
  rewrite <- Z.add_1_r in *. cbn [write_bytes].
  apply (writes_bind _ (λ s', write_bytes k s' (a + 1) bs) s [a] _ _ _ (bytewise_store (a + 1) bs));
    [by eapply write_byte_writes|].
  intros s' W. destruct (wr_ok _ _ _ _ W) as [r' H']. apply (IH _ _ _ H').
  eapply Forall_impl; [exact Has|]. intros x. by apply (accessible_wrote _ _ _ _ _ W).
Qed.

Definition op_addrs (o : op) : list Z := seqZ (op_addr o) (op_size o).

Lemma bytewise_run os : bytewise (λ m, plain_run m os).
Proof. intros m m' x H. by apply plain_run_ext. Qed.

Lemma run_ops_writes os s r :
  mp_ok s r → Forall (λ o, Forall (accessible s) (op_addrs o)) os →
  writes (mprotect_run_ops k s os) s (os ≫= op_addrs) (λ m, plain_run m os).
Proof.
  intros H Ho. revert s r H Ho. induction os as [|o os IH]; intros s r H Ho; [by eapply (writes_ret s r)|].
  apply Forall_cons in Ho as [Ho Hos]. cbn [mbind list_bind].
  apply (writes_bind (mprotect_run_op k s o) (λ s', mprotect_run_ops k s' os) s _ _ _ _ (bytewise_run os));
    [by eapply write_bytes_writes|].
  intros s' W. destruct (wr_ok _ _ _ _ W) as [r' H']. apply (IH _ _ H').
  eapply Forall_impl; [exact Hos|]. intros o' Ho'. eapply Forall_impl; [exact Ho'|]. intros x.
  by apply (accessible_wrote _ _ _ _ _ W).
Qed.

(** ** Checkpoints *)

Lemma checkpoint_loop_spec r fuel n s :
  let r' := ltckpt_page_list_clear_and_iter r in
  (Z.to_nat (num_pages r) ≤ length (pages r))%nat → 0 ≤ num_pages r →
  (∀ q, q ∈ page_addr <$> copied r → q `mod` PAGE_SIZE = 0) →
  (Z.to_nat (num_pages r) - n ≤ fuel)%nat →
  ∃ w, checkpoint_loop k fuel s r' (Z.of_nat n) = Ret (set_writable s w) ∧
    ∀ q, q `mod` PAGE_SIZE = 0 →
      w q = if decide (q ∈ page_addr <$> drop n (copied r)) then false else writable s q.
Proof.
  intros r' Hlen Hpos Hal. revert n s. induction fuel as [|fuel IH]; intros n s Hf; cbn [checkpoint_loop].
  all: unfold ltckpt_page_list_iter_next; cbn [r' ltckpt_page_list_clear_and_iter num_iter_pages iter_pages].
  all: rewrite Z.geb_leb, Nat2Z.id; destruct (Z.leb_spec (num_pages r) (Z.of_nat n)) as [Hn|Hn]; [|try lia].
  1, 2: exists (writable s); split; [by destruct s|]; intros q Hq; rewrite decide_False; [done|];
    rewrite drop_ge by (unfold copied; rewrite length_take; lia); apply not_elem_of_nil.
  destruct (lookup_lt_is_Some_2 (copied r) n) as [p Hp]; [unfold copied; rewrite length_take; lia|].
  change (take (Z.to_nat (num_pages r)) (pages r)) with (copied r).
  rewrite (lookup_app_l_Some _ _ _ _ Hp). rewrite mprotect_mem_ok. cbn [res_bind snd].
  replace (Z.of_nat n + 1) with (Z.of_nat (S n)) by lia.
  destruct (IH (S n) (set_writable s (protect (writable s) (page_addr p) PAGE_SIZE false)) ltac:(lia)) as (w & E & Hw).
  exists w. split; [exact E|]. intros q Hq. rewrite Hw by done. cbn [set_writable writable].
  assert (Hpa : page_addr p `mod` PAGE_SIZE = 0).
  { apply Hal, list_elem_of_fmap. exists p. split; [done|]. by eapply list_elem_of_lookup_2. }
  rewrite protect_page by done. rewrite (drop_S _ _ _ Hp). cbn [fmap list_fmap].
  destruct (decide (q ∈ page_addr <$> drop (S n) (copied r))) as [Hin|Hni].
  - rewrite decide_True; [done|]. by right.
  - destruct (decide (q = page_addr p)) as [->|Hne]; [rewrite decide_True; [done|by left]|].
    rewrite decide_False; [done|]. intros Hc. by apply elem_of_cons in Hc as [?|?].
Qed.

Lemma checkpoint_spec s r :
  mp_ok s r →
  ∃ s' r', ltckpt_checkpoint k s = Ret s' ∧ mp_ok s' r' ∧ copied_pages s' = [] ∧
    pmem s' = pmem s ∧ mctx s' = mctx s ∧ (∀ x, checkpointed s' x = checkpointed s x) ∧
    (∀ q, q `mod` PAGE_SIZE = 0 → checkpointed s q = false → writable s' q = writable s q).
Proof.
  intros H. unfold ltckpt_checkpoint. rewrite (mo_mpr _ _ H).
  pose proof (mo_num _ _ H). pose proof (mo_length _ _ H).
  destruct (checkpoint_loop_spec r (Z.to_nat (num_iter_pages (ltckpt_page_list_clear_and_iter r))) 0 s)
    as (w & E & Hw); [lia|lia|intros q Hq; by apply (mo_copied _ _ H)|cbn; lia|].
  change (Z.of_nat 0) with 0 in E. rewrite E. cbn [res_bind]. do 2 eexists. split; [done|].
  rewrite drop_0 in Hw.
  assert (Hck : ∀ x, existsb (λ e, ENTRY_CONTAINS_ADDR e x) (proc_maps r) = checkpointed s x).
  { intros x. unfold checkpointed. by rewrite (mo_mpr _ _ H). }
  split_and!; try done.
  - constructor; try done; try (cbn; lia).
    + apply (mo_handler _ _ H).
    + constructor.
    + intros q Hq. by apply elem_of_nil in Hq.
    + intros q Hq Hc. cbn in Hc. rewrite Hck in Hc. cbn [set_mpr set_writable writable]. rewrite Hw by done.
      pose proof (mo_writable _ _ H q Hq Hc) as Hwq. split; [|intros Hin; by apply elem_of_nil in Hin].
      case_decide; [done|]. naive_solver.
    + apply (mo_aligned _ _ H).
    + intros x Hx. cbn. rewrite Hck. by apply (mo_apart _ _ H).
  - intros q Hq Hc. cbn [set_mpr set_writable writable]. rewrite Hw by done. rewrite decide_False; [done|].
    intros Hin. apply (mo_copied _ _ H) in Hin as [_ Hin]. congruence.
Qed.

Lemma mprotect_vmas_loop_spec b todo done_ s :
  Forall (λ e, ps e ≠ "000"%char) todo →
  ∃ w, mprotect_vmas_loop k s b done_ todo = Ret (done_ ++ todo, set_writable s w) ∧
    ∀ q, w q = if existsb (λ e, ENTRY_CONTAINS_ADDR e q) todo then b else writable s q.
Proof.
  intros Hs. revert done_ s. induction Hs as [|e todo He _ IH]; intros done_ s; cbn [mprotect_vmas_loop existsb].
  { exists (writable s). rewrite app_nil_r. split; [by destruct s|done]. }
  unfold ltckpt_mprotect_vma. destruct (Ascii.eqb_spec (ps e) "000"%char); [done|].
  rewrite mprotect_mem_ok. cbn [res_bind fst snd Z.eqb negb].
  destruct (IH (done_ ++ [e]) (set_writable s (protect (writable s) (vm_start e) (vm_end e - vm_start e) b)))
    as (w & -> & Hw). exists w. rewrite <- app_assoc. split; [done|]. intros q. rewrite Hw. cbn [set_writable writable].
  unfold protect, ENTRY_CONTAINS_ADDR. rewrite Z.geb_leb.
  replace (vm_start e + (vm_end e - vm_start e)) with (vm_end e) by lia.
  by destruct (_ && _), (existsb _ todo).
Qed.

Lemma mprotect_vmas_spec s r b :
  mpr s = Some r → Forall (λ e, ps e ≠ "000"%char) (proc_maps r) →
  ∃ w, ltckpt_mprotect_vmas k s b = Ret (set_writable s w) ∧
    ∀ q, w q = if checkpointed s q then b else writable s q.
Proof.
  intros Hr Hs. unfold ltckpt_mprotect_vmas. rewrite Hr.
  destruct (mprotect_vmas_loop_spec b (proc_maps r) [] s Hs) as (w & -> & Hw). exists w. cbn [res_bind fst snd app].
  split; [|unfold checkpointed; by rewrite Hr]. f_equal. unfold set_mpr, set_writable, set_maps.
  rewrite Hr. cbn. by destruct r.
Qed.

(** *** Initialisation *)

(** What the kernel's answers and the memory map look like: the buffer is where
    it was asked for, areas are whole pages, and the area of the buffer is listed
    on its own. *)
Record boot_ok (es : list util_proc_maps_entry_t) (mapped : Z → bool) : Prop := {
  bo_mmap : mmap_ret k = Some MIN_MMAP_ADDR;
  bo_file : maps_file k = Some (Some <$> es);
  bo_mincore : ∀ a, (mincore k a).1 ≠ 0;
  bo_errno : ∀ a, (mincore k a).2 = if mapped a then EFAULT (abi k) else ENOMEM (abi k);
  bo_abi : EFAULT (abi k) ≠ ENOMEM (abi k);
  bo_signals : sigmask_ret k = 0 ∧ sigaction_ret k = 0;
  bo_aligned : Forall (λ e, vm_start e `mod` PAGE_SIZE = 0 ∧ vm_end e `mod` PAGE_SIZE = 0) es;
  bo_shared : Forall (λ e, ps e ≠ "000"%char) es;
  bo_apart : Forall (λ e, vm_start e ≠ mpr_addr → ∀ x, in_buffer x → ENTRY_CONTAINS_ADDR e x = false) es;
}.

(** The areas that are protected. *)
Definition protected_areas (es : list util_proc_maps_entry_t) (mapped : Z → bool) (c : Ctx.ltckpt_ctx_t) :
    list util_proc_maps_entry_t :=
  filter (λ e, mapped (vm_start e) = true)
    (filter (λ e, ltckpt_init_mpr_cb k c e = UTIL_PROC_MAPS_RET_SAVE) es).

Lemma protected_areas_sub es mapped c e : e ∈ protected_areas es mapped c →
  e ∈ es ∧ vm_start e ≠ mpr_addr ∧ ltcpt_is_checkpointed_vma k c e = true.
Proof.
  unfold protected_areas. rewrite !list_elem_of_filter. intros (_ & Hcb & He). split; [done|].
  unfold ltckpt_init_mpr_cb in Hcb. destruct (Z.eqb_spec (vm_start e) mpr_addr); [done|].
  by destruct (ltcpt_is_checkpointed_vma k c e).
Qed.

Lemma init_mpr_spec es mapped s :
  boot_ok es mapped →
  ∃ s' r', ltckpt_init_mpr k ctx_size s = Ret s' ∧ mp_ok s' r' ∧ copied_pages s' = [] ∧
    proc_maps r' = protected_areas es mapped (Ctx.set_initialized (mctx s)) ∧
    mctx s' = Ctx.set_initialized (mctx s) ∧
    ∀ x, ¬ (MIN_MMAP_ADDR ≤ x < mpr_addr + round_to_page (sizeof_mpr k ctx_size) + PAGE_SIZE) → pmem s' x = pmem s x.
Proof.
  intros B. unfold ltckpt_init_mpr, ltkcpt_ctx_get_buff. rewrite (bo_mmap _ _ B).
  set (c := Ctx.set_initialized (mctx s)). set (areas_ := protected_areas es mapped c).
  assert (Hp : util_proc_maps_parse_filter (abi k) (mincore k) (maps_file k) (Some (ltckpt_init_mpr_cb k c)) =
               Ret (0, areas_)).
  { unfold util_proc_maps_parse_filter. rewrite (bo_file _ _ B), parse_loop_spec.
    - cbn [Z.eqb negb app]. rewrite (remove_unmapped_filter _ _ mapped); [done|by destruct B..].
    - intros e. unfold ltckpt_init_mpr_cb. repeat case_match; auto. }
  cbn [set_writable set_pmem mctx set_mctx set_mpr fst snd] in *. fold c. rewrite Hp. cbn [res_bind fst snd Z.eqb negb].
  destruct (bo_signals _ _ B) as [-> ->]. cbn [Z.eqb negb].
  match goal with |- context [ltckpt_mprotect_vmas k ?t false] => set (s3 := t) end.
  assert (Hsub : ∀ e, e ∈ areas_ → e ∈ es ∧ vm_start e ≠ mpr_addr).
  { intros e He. apply protected_areas_sub in He. naive_solver. }
  destruct (mprotect_vmas_spec s3 (set_maps mpr_zero areas_) false) as (w & -> & Hw); [done|..].
  { apply Forall_forall. intros e He. apply Hsub in He as [He _]. by apply (proj1 (Forall_forall _ _) (bo_shared _ _ B)). }
  exists (set_writable s3 w), (set_maps mpr_zero areas_). split; [done|].
  split; [|split; [done|split; [done|split; [done|]]]].
  - constructor; try done; try (cbn; lia).
    + constructor.
    + intros q Hq. by apply elem_of_nil in Hq.
    + intros q Hq Hc. cbn [set_writable writable]. rewrite Hw. change (checkpointed s3 q = true) in Hc. rewrite Hc.
      split; [done|]. intros Hin. by apply elem_of_nil in Hin.
    + apply Forall_forall. intros e He. apply Hsub in He as [He _]. by apply (proj1 (Forall_forall _ _) (bo_aligned _ _ B)).
    + intros x Hx. unfold checkpointed. cbn [set_writable s3 set_handler set_mpr mpr set_maps proc_maps].
      apply not_true_is_false. intros Hex. apply existsb_exists in Hex as (e & He & Hc).
      apply list_elem_of_In, Hsub in He as [He Hne].
      by rewrite (proj1 (Forall_forall _ _) (bo_apart _ _ B) e He Hne x Hx) in Hc.
  - intros x Hx. cbn [set_writable s3 set_handler set_mpr set_pmem set_mctx pmem].
    destruct (_ && _) eqn:E; [|done]. exfalso. apply Hx. zb. unfold mpr_addr. unfold PAGE_SIZE in *. lia.
Qed.

(** ** The wrappers *)

Lemma check_write_writes s r b :
  mp_ok s r → accessible s b → b ≠ 0 → writes (LTCKPT_CHECK_WRITE k s b) s [b] id.
Proof.
  intros H Hb Hn. unfold LTCKPT_CHECK_WRITE. destruct (Z.eqb_spec b 0); [done|].
  eapply writes_effect; [|by eapply write_byte_writes]. intros x _. unfold mem_set, id.
  by destruct (Z.eqb_spec x b) as [->|].
Qed.

Lemma bytewise_id : bytewise id.
Proof. by intros m m' x. Qed.

(** The addresses the loop of [LTCKPT_CHECK_BUFF] writes: one every page. *)
Definition buff_steps (b j n : Z) : list Z := (λ i, b + PAGE_SIZE * i) <$> seqZ j n.
Definition num_steps (size : Z) : Z := (size + (PAGE_SIZE - 1)) / PAGE_SIZE.
Definition buff_addrs (b size : Z) : list Z := buff_steps b 0 (num_steps size) ++ [b + (size - 1)].

Lemma check_buff_loop_writes fuel s r b j size :
  mp_ok s r → 0 < b → 0 ≤ j → size ≤ 2^31 - PAGE_SIZE →
  (∀ i, 0 ≤ i < size → accessible s (b + i)) → num_steps size - j ≤ Z.of_nat fuel →
  writes (check_buff_loop k fuel s b (PAGE_SIZE * j) size) s (buff_steps b j (num_steps size - j)) id.
Proof.
  intros H Hb. revert s r j H. induction fuel as [|fuel IH]; intros s r j H Hj Hs Ha Hf.
  all: cbn [check_buff_loop]; destruct (Z.ltb_spec (PAGE_SIZE * j) size) as [Hlt|Hge].
  1: exfalso; clear -Hlt Hf; unfold num_steps, PAGE_SIZE in *; Z.div_mod_to_equations; lia.
  1, 3: unfold buff_steps; rewrite seqZ_nil by (clear -Hge; unfold num_steps, PAGE_SIZE in *; Z.div_mod_to_equations; lia);
    by eapply (writes_ret s r).
  assert (Hn : 0 < num_steps size - j) by (clear -Hlt; unfold num_steps, PAGE_SIZE in *; Z.div_mod_to_equations; lia).
  unfold buff_steps. rewrite seqZ_cons by done. cbn [fmap list_fmap].
  apply (writes_bind _ _ s [b + PAGE_SIZE * j] _ id id bytewise_id).
  { eapply check_write_writes; [done| |unfold PAGE_SIZE; lia]. apply Ha. unfold PAGE_SIZE in *; lia. }
  intros s' W. destruct (wr_ok _ _ _ _ W) as [r' H'].
  rewrite chk32_ok by (unfold PAGE_SIZE in *; lia). cbn [res_bind].
  replace (PAGE_SIZE * j + PAGE_SIZE) with (PAGE_SIZE * Z.succ j) by lia.
  replace (Z.pred (num_steps size - j)) with (num_steps size - Z.succ j) by lia.
  apply (IH s' r'); [done|lia|done| |lia]. intros i Hi. by apply (accessible_wrote _ _ _ _ _ W), Ha.
Qed.

Lemma check_buff_writes s r b size :
  mp_ok s r → 0 < b → 0 < size ≤ 2^31 - PAGE_SIZE → (∀ i, 0 ≤ i < size → accessible s (b + i)) →
  writes (LTCKPT_CHECK_BUFF k s b size) s (buff_addrs b size) id.
Proof.
  intros H Hb Hs Ha. unfold LTCKPT_CHECK_BUFF. destruct (Z.eqb_spec b 0); [lia|].
  rewrite Z.gtb_ltb. destruct (Z.ltb_spec 0 size); [|lia]. cbn [negb andb].
  apply (writes_bind _ (λ s', LTCKPT_CHECK_WRITE k s' (b + (size - 1))) s _ [b + (size - 1)] id id bytewise_id).
  - pose proof (check_buff_loop_writes (Z.to_nat (size / PAGE_SIZE + 1)) s r b 0 size H Hb) as L.
    rewrite Z.mul_0_r, Z.sub_0_r in L. apply L; [lia|lia|done|].
    unfold num_steps, PAGE_SIZE in *. clear -Hs. Z.div_mod_to_equations. lia.
  - intros s' W. destruct (wr_ok _ _ _ _ W) as [r' H']. eapply check_write_writes; [done| |lia].
    apply (accessible_wrote _ _ _ _ _ W), Ha. lia.
Qed.

(** One write per page and one to the last byte reach every page. *)
Lemma buff_addrs_cover b size x :
  0 < size → b ≤ x < b + size → ∃ a, a ∈ buff_addrs b size ∧ page_of a = page_of x.
Proof.
  intros Hs Hx. set (j := (x - b) / PAGE_SIZE).
  assert (Hj : PAGE_SIZE * j ≤ x - b < PAGE_SIZE * j + PAGE_SIZE) by (unfold j, PAGE_SIZE; Z.div_mod_to_equations; lia).
  assert (Hin : ∀ i, 0 ≤ i → PAGE_SIZE * i < size → b + PAGE_SIZE * i ∈ buff_addrs b size).
  { intros i Hi Hlt. apply elem_of_app. left. apply list_elem_of_fmap. exists i. split; [done|].
    apply elem_of_seqZ. unfold num_steps, PAGE_SIZE in *. clear -Hi Hlt. Z.div_mod_to_equations. lia. }
  destruct (decide (page_of (b + PAGE_SIZE * j) = page_of x)) as [E|E].
  { exists (b + PAGE_SIZE * j). split; [|done]. apply Hin; unfold PAGE_SIZE in *; lia. }
  destruct (decide (PAGE_SIZE * (j + 1) < size)) as [Hl|Hl].
  - exists (b + PAGE_SIZE * (j + 1)). split; [apply Hin; [unfold PAGE_SIZE in *; lia|done]|].
    clear -E Hj. unfold page_of, PAGE_SIZE in *. Z.div_mod_to_equations. lia.
  - exists (b + (size - 1)). split; [apply elem_of_app; right; by left|].
    clear -E Hj Hl Hx. unfold page_of, PAGE_SIZE in *. Z.div_mod_to_equations. lia.
Qed.

(** ** Theorems *)

(** C8: page protection preserves the checkpoint.  Take a checkpoint in a
    consistent state and let the program perform any writes it may perform, to
    checkpointed areas or elsewhere.  The pages copied are the checkpointed pages
    written, each once, in the order of their first write.  If there are more than
    [MPROTECT_MAX_PAGES] of them, and only then, an assertion fails; otherwise no
    write is lost and for every checkpointed byte the copies and the memory give
    the value it had at the checkpoint. *)
Theorem mprotect_preserves_checkpoint s r s0 os :
  mp_ok s r → Ctx.initialized (mctx s) ≠ 0 →
  mprotect_top_of_the_loop k ctx_size s = Ret (s0, true) →
  Forall (λ o, Forall (accessible s) (op_addrs o)) os →
  let dirty := touched s [] (os ≫= op_addrs) in
  match mprotect_run_ops k s0 os with
  | Ret s1 =>
      Z.of_nat (length dirty) ≤ MPROTECT_MAX_PAGES ∧ copied_pages s1 = dirty ∧ (∃ r1, mp_ok s1 r1) ∧
      ∀ x, checkpointed s x = true → recovered s1 x = pmem s x ∧ pmem s1 x = plain_run (pmem s) os x
  | Stop f => f = FAssert ∧ MPROTECT_MAX_PAGES < Z.of_nat (length dirty)
  end.
Proof.
  intros H Hi Ht Ho dirty. unfold mprotect_top_of_the_loop in Ht.
  destruct (Ctx.CTX_NEW_TOL_OR_RETURN (sz k) (mctx s)) as [c1 go] eqn:Ec. destruct go; cbn [negb] in Ht; [|done].
  assert (Hc1 : Ctx.initialized c1 = Ctx.initialized (mctx s)).
  { unfold Ctx.CTX_NEW_TOL_OR_RETURN in Ec. destruct (_ || _); [done|]. by injection Ec as <-. }
  cbn [set_mctx mctx] in Ht. rewrite Hc1 in Ht. destruct (Z.eqb_spec (Ctx.initialized (mctx s)) 0); [done|].
  cbn [res_bind] in Ht.
  assert (H1 : mp_ok (set_mctx s c1) r) by (destruct H; by constructor).
  destruct (checkpoint_spec _ _ H1) as (s2 & r2 & E2 & H2 & Hcp & Hm & _ & Hck & Hw).
  rewrite E2 in Ht. cbn [res_bind] in Ht. injection Ht as <-.
  set (s0 := set_mctx s2 _). assert (H0 : mp_ok s0 r2) by (destruct H2; by constructor).
  assert (Hck0 : ∀ x, checkpointed s0 x = checkpointed s x) by exact Hck.
  assert (Hcp0 : copied_pages s0 = []) by exact Hcp.
  assert (W : writes (mprotect_run_ops k s0 os) s0 (os ≫= op_addrs) (λ m, plain_run m os)).
  { apply (run_ops_writes _ _ _ H0). eapply Forall_impl; [exact Ho|]. intros o Hoo. eapply Forall_impl; [exact Hoo|].
    intros x Hx. unfold accessible, unprotected in *. rewrite Hck0. destruct Hx as [Hx|(Hx1 & Hx2 & Hx3)]; [by left|right].
    split_and!; try done. change (writable s2 (page_of x) = true). rewrite Hw; [done|apply page_of_mod|].
    change (checkpointed s (page_of x) = false). by rewrite (checkpointed_page _ _ _ H). }
  unfold writes in W. rewrite Hcp0, (touched_ext s s0 _ _ Hck0) in W. fold dirty in W.
  destruct (decide _) as [Hd|Hd]; [|rewrite W; split; [done|lia]].
  destruct W as (s1 & -> & W). split_and!; [done| |by destruct W|].
  - rewrite (wr_copied _ _ _ _ W), Hcp0. by apply touched_ext.
  - intros x Hx. rewrite (wr_recovered _ _ _ _ W) by (by rewrite Hck0).
    assert (Hnb : ¬ in_buffer x) by (intros Hb; by rewrite (mo_apart _ _ H) in Hx).
    rewrite (wr_mem _ _ _ _ W) by done. change (pmem s0) with (pmem s2). rewrite Hm. split; [|done].
    rewrite (recovered_clean _ _ _ H0) by (rewrite <- (copied_pages_eq _ _ H0), Hcp0; apply not_elem_of_nil).
    change (pmem s0 x) with (pmem s2 x). by rewrite Hm.
Qed.

(** The buffer wrappers ([read], [recv], [recvfrom]) work around system
    calls that fail with [EFAULT] on protected memory.  Before the call every page
    of the buffer is writable, the memory is unchanged and so is what can be
    recovered; or an assertion failed because too many pages are copied. *)
Theorem wrapper_makes_buffer_writable s r b size :
  mp_ok s r → 0 < b → 0 < size ≤ 2^31 - PAGE_SIZE → (∀ i, 0 ≤ i < size → accessible s (b + i)) →
  match wrapper k s (call_read b size) with
  | Ret s' =>
      (∀ x, b ≤ x < b + size → writable s' (page_of x) = true) ∧
      (∀ x, ¬ in_buffer x → pmem s' x = pmem s x) ∧
      (∀ x, checkpointed s x = true → recovered s' x = recovered s x) ∧ (∃ r', mp_ok s' r') ∧
      wrapper k s (call_recv b size) = Ret s'
  | Stop f => f = FAssert ∧ MPROTECT_MAX_PAGES < Z.of_nat (length (touched s (copied_pages s) (buff_addrs b size)))
  end.
Proof.
  intros H Hb Hs Ha. pose proof (check_buff_writes s r b size H Hb Hs Ha) as W. cbn [wrapper]. unfold writes in W.
  destruct (decide _) as [Hd|Hd]; [|rewrite W; split; [done|lia]]. destruct W as (s' & -> & W). split_and!; try done.
  - intros x Hx. destruct (buff_addrs_cover b size x ltac:(lia) Hx) as (a & Hin & <-). by apply (wr_done _ _ _ _ W).
  - intros x Hx. by apply (wr_mem _ _ _ _ W).
  - apply (wr_recovered _ _ _ _ W).
  - apply (wr_ok _ _ _ _ W).
Qed.

(** The other wrappers touch one byte: the permission of every other page stays
    as it is, also when the kernel will write a whole array. *)
Lemma single_byte_wrappers s r p s' q :
  mp_ok s r → wrapper k s (call_poll p) = Ret s' → q `mod` PAGE_SIZE = 0 → q ≠ page_of p →
  writable s' q = writable s q.
Proof.
  intros H Hc Hq Hne. cbn in Hc. apply res_bind_inv in Hc as (s1 & Hc & [= <-]).
  unfold LTCKPT_CHECK_WRITE in Hc. destruct (p =? 0); [by injection Hc as <-|].
  unfold write_byte in Hc. apply res_bind_inv in Hc as (s2 & Hc & [= <-]). cbn [set_pmem writable].
  destruct (writable s (page_of p)); [by injection Hc as <-|]. rewrite (mo_handler _ _ H), (sighandler_eq _ _ _ H) in Hc.
  destruct (_ <? _); [|done]. injection Hc as <-. cbn [handled writable].
  rewrite protect_page by (auto using page_of_mod). by rewrite decide_False.
Qed.

(** Printing the context destroys the checkpoint.  [LTCKPT_MPROTECT_SAFE] lifts
    the protection of all areas and restores it afterwards, also for the pages
    that are copied already.  A clean page written meanwhile is not copied, so the
    byte that is recovered is the new one; and a page that was copied before
    faults again and is copied a second time. *)
Theorem mprotect_safe_loses_checkpoint s r a v :
  mp_ok s r → Forall (λ e, ps e ≠ "000"%char) (proc_maps r) →
  Ctx.initialized (mctx s) ≠ 0 → checkpointed s a = true →
  (page_of a ∉ copied_pages s →
     ∃ s', LTCKPT_MPROTECT_SAFE k s (λ t, write_byte k t a v) = Ret s' ∧
           copied_pages s' = copied_pages s ∧ recovered s' a = v) ∧
  (page_of a ∈ copied_pages s → num_pages r < MPROTECT_MAX_PAGES →
     ∃ s' s'', LTCKPT_MPROTECT_SAFE k s Ret = Ret s' ∧ write_byte k s' a v = Ret s'' ∧
           copied_pages s'' = copied_pages s ++ [page_of a]).
Proof.
  intros H Hs Hi Hc. unfold LTCKPT_MPROTECT_SAFE. destruct (Z.eqb_spec (Ctx.initialized (mctx s)) 0); [done|]. cbn [negb].
  pose proof (mo_mpr _ _ H) as Hr.
  destruct (mprotect_vmas_spec s r true Hr Hs) as (w1 & -> & Hw1). cbn [res_bind].
  assert (Hcp : checkpointed s (page_of a) = true) by (by rewrite (checkpointed_page _ r)).
  split; intros Hin.
  - unfold write_byte at 1. cbn [set_writable writable]. rewrite Hw1, Hcp. cbn [res_bind].
    destruct (mprotect_vmas_spec (set_pmem (set_writable s w1) (mem_set (pmem s) a v)) r false Hr Hs) as (w2 & E2 & _).
    cbn [set_writable pmem] in *. rewrite E2. eexists. split; [done|]. split; [done|].
    unfold recovered. cbn [set_writable set_pmem mpr pmem]. rewrite Hr. rewrite (copied_pages_eq _ _ H) in Hin.
    destruct (list_find _ _) as [[j p]|] eqn:E; [|unfold mem_set; by rewrite Z.eqb_refl].
    apply list_find_Some in E as (Hj & Hp & _). destruct Hin. apply list_elem_of_fmap. exists p. split; [done|].
    by eapply list_elem_of_lookup_2.
  - intros Hn. cbn [res_bind].
    destruct (mprotect_vmas_spec (set_writable s w1) r false Hr Hs) as (w2 & -> & Hw2).
    eexists _, _. split; [done|]. unfold write_byte. cbn [set_writable writable handler_installed].
    rewrite Hw2. change (checkpointed (set_writable s w1) (page_of a)) with (checkpointed s (page_of a)). rewrite Hcp.
    rewrite (mo_handler _ _ H).
    rewrite (sighandler_raw (set_writable (set_writable s w1) w2) r a Hr (mo_mem _ _ H) (mo_handler _ _ H)).
    destruct (Z.ltb_spec (num_pages r) MPROTECT_MAX_PAGES); [|lia]. cbn [res_bind]. split; [done|].
    rewrite (copied_pages_eq _ _ H). by apply (copied_addrs_add s).
Qed.
End Invariant.

(** ** Witnesses *)

Definition demo_area (start end_ : Z) (w : ascii) (name : string) : util_proc_maps_entry_t :=
  {| vm_start := start; vm_end := end_; pr := "r"%char; pw := w; px := "-"%char; ps := "p"%char;
     pgoff := 0; pmajor := 8; pminor := 1; ino := 7; pname := name |}.
Definition demo_maps : list util_proc_maps_entry_t :=
  [demo_area mpr_addr (mpr_addr + 4132864) "w" ""; demo_area 0x600000 0x604000 "w" "/bin/server";
   demo_area 0x7ff000 0x800000 "w" "[stack]"].
Definition demo_menv : env :=
  {| sz := 8; abi := {| ENOENT := 2; EINVAL := 22; ENOMEM := 12; EFAULT := 14 |};
     lay := {| main_addr := 0x400500; data_start := 0x600040; errno_addr := 0x900000; heap_addr := 0xa00000 |};
     mprotect_ret := λ _ _ _, 0; mincore := λ _, (-1, 14); mmap_ret := Some MIN_MMAP_ADDR;
     maps_file := Some (Some <$> demo_maps); sigmask_ret := 0; sigaction_ret := 0 |}.
Definition demo_mstart : mstate :=
  {| pmem := λ x, x `mod` 251; writable := λ _, true; handler_installed := false; mpr := None;
     mctx := Ctx.ltckpt_ctx_init (λ _, None) (λ _, (0, true)) true "mprotect" Ctx.ltckpt_ctx_buff |}.
Definition demo_boot : mstate := ret_or demo_mstart (ltckpt_init_mpr demo_menv 136 demo_mstart).

Lemma demo_boot_ok : boot_ok demo_menv demo_maps (λ _, true).
Proof.
  constructor; try done.
  - repeat constructor.
  - repeat constructor; discriminate.
  - apply Forall_forall. intros e He Hne x Hx. unfold in_buffer, MPROTECT_MAX_PAGES, PAGE_SIZE in Hx.
    change (mem_base demo_menv) with 445712 in Hx.
    apply list_elem_of_In in He as [<-|[<-|[<-|[]]]]; [done|..]; unfold ENTRY_CONTAINS_ADDR; cbn; zb.
Qed.

Lemma demo_boot_inv : ∃ r, mp_ok demo_menv demo_boot r ∧ copied_pages demo_boot = [] ∧
  Forall (λ e, ps e ≠ "000"%char) (proc_maps r).
Proof.
  destruct (init_mpr_spec demo_menv 136 (λ _ _ _, eq_refl) demo_maps (λ _, true) demo_mstart demo_boot_ok)
    as (s & r & E & H & Hc & Hm & _). exists r. unfold demo_boot. rewrite E. split_and!; try done.
  rewrite Hm. repeat constructor; discriminate.
Qed.

Definition demo_mops : list op := [OStore 0x600010 [7; 8]; OMemcpy 0x601ffe [1; 2; 3; 4]; OStore 0x600012 [9]].

Lemma demo_accessible a : existsb (λ e, ENTRY_CONTAINS_ADDR e a) [demo_area 0x600000 0x604000 "w" "/bin/server"] = true →
  accessible demo_menv demo_boot a.
Proof. intros Ha. left. exact Ha. Qed.

Lemma mprotect_preserves_checkpoint_witness :
  ∃ s0 s1, mprotect_top_of_the_loop demo_menv 136 demo_boot = Ret (s0, true) ∧
    mprotect_run_ops demo_menv s0 demo_mops = Ret s1 ∧
    copied_pages s1 = [0x600000; 0x601000; 0x602000] ∧ recovered s1 0x602000 = 0x602000 `mod` 251.
Proof.
  destruct demo_boot_inv as (r & H & _).
  assert (Ht : ∃ s0, mprotect_top_of_the_loop demo_menv 136 demo_boot = Ret (s0, true)).
  { destruct (mprotect_top_of_the_loop demo_menv 136 demo_boot) as [[s0 []]|] eqn:E; [by eexists|..];
      apply (f_equal (λ m, match m with Ret (_, b) => b | Stop _ => false end)) in E; by vm_compute in E. }
  destruct Ht as [s0 Ht]. exists s0.
  pose proof (mprotect_preserves_checkpoint demo_menv 136 (λ _ _ _, eq_refl) demo_boot r s0 demo_mops H
    ltac:(vm_compute; discriminate) Ht) as P.
  cbv zeta in P. destruct (mprotect_run_ops demo_menv s0 demo_mops) as [s1|f].
  - exists s1. destruct P as (_ & Hd & _ & Hx).
    { repeat (apply Forall_cons_2; [repeat (apply Forall_cons_2; [apply demo_accessible; reflexivity|]); apply Forall_nil_2|]).
      apply Forall_nil_2. }
    split_and!; [exact Ht|reflexivity|rewrite Hd; vm_compute; reflexivity|].
    destruct (Hx 0x602000 ltac:(reflexivity)) as [-> _]. vm_compute. reflexivity.
  - exfalso. destruct P as [_ P].
    { repeat (apply Forall_cons_2; [repeat (apply Forall_cons_2; [apply demo_accessible; reflexivity|]); apply Forall_nil_2|]).
      apply Forall_nil_2. }
    vm_compute in P. discriminate.
Defined.

Lemma wrapper_makes_buffer_writable_witness :
  ∃ s', wrapper demo_menv demo_boot (call_read 0x600800 5000) = Ret s' ∧ writable s' 0x601000 = true.
Proof.
  destruct demo_boot_inv as (r & H & _).
  pose proof (wrapper_makes_buffer_writable demo_menv (λ _ _ _, eq_refl) demo_boot r 0x600800 5000 H
    ltac:(lia) ltac:(unfold PAGE_SIZE; lia)) as P.
  assert (Ha : ∀ i, 0 ≤ i < 5000 → accessible demo_menv demo_boot (0x600800 + i)).
  { intros i Hi. apply demo_accessible. cbn [existsb]. apply orb_true_iff. left. unfold ENTRY_CONTAINS_ADDR. cbn. zb. }
  specialize (P Ha). destruct (wrapper demo_menv demo_boot (call_read 0x600800 5000)) as [s'|f].
  - exists s'. split; [reflexivity|]. destruct P as [P _]. apply (P 0x601000). lia.
  - exfalso. destruct P as [_ P]. vm_compute in P. discriminate.
Defined.

Lemma mprotect_safe_loses_checkpoint_witness :
  ∃ s', LTCKPT_MPROTECT_SAFE demo_menv demo_boot (λ t, write_byte demo_menv t 0x600010 77) = Ret s' ∧
    recovered s' 0x600010 = 77.
Proof.
  destruct demo_boot_inv as (r & H & Hc & Hs).
  destruct (mprotect_safe_loses_checkpoint demo_menv (λ _ _ _, eq_refl) demo_boot r 0x600010 77 H Hs
    ltac:(vm_compute; discriminate) ltac:(reflexivity)) as [P _].
  destruct P as (s' & E & _ & R); [rewrite Hc; apply not_elem_of_nil|]. exists s'. split; [exact E|exact R].
Defined.
