(* ===== verification/Softdirty.v ===== *)
(** * Checkpoints by soft-dirty bits: [mechanisms/ltckpt_softdirty.c]

    At a checkpoint the pages that the kernel marks as written since the last one
    are copied to a buffer, and the marks are cleared.  The walk over the kernel's
    page map is [include/common/util/pagemap.h].  The page map, the results of
    [pread] and [pwrite], [mmap], [mincore] and the lines of [/proc/self/maps] are
    parameters; the buffer lies in the address space.

    Proved: the buffer receives the marked pages of the checkpointed areas, in the
    order of the areas, from its start; a page more than [SOFTDIRTY_MAX_PAGES] fails
    an assertion; the history and the statistics stay inside their arrays. *)

From Stdlib Require Import ZArith Lia Ascii String.
From stdpp Require Import base list numbers strings.
From S2P Require Import Prelude Runtime ProcMaps Mprotect.

(** ** The page map *)

Definition UTIL_PAGEMMAP_DEFAULT_BUFF_SIZE : Z := PAGE_SIZE * 10.
Definition PME_SOFT_DIRTY : Z := Z.shiftl 1 55.

Record penv := {
  base : env;                                  (** start-up, as for page protection *)
  EINTR : Z;
  pread_results : Z → Z → list (Z * Z);        (** by offset and size: return values and [errno] of the attempts *)
  pwrite_results : list (Z * Z);
  pagemap_open : Z;                            (** return value of [util_pagemap_init] *)
}.

Section Pagemap.
Variable k : penv.

(** The loops around [pread] and [pwrite]: repeated until everything is
    transferred or an error other than an interrupt occurs. *)
Fixpoint transfer (attempts : list (Z * Z)) (size : Z) : res Z :=
  match attempts with
  | [] => Stop FFuel
  | (ret, errno) :: rest =>
      if ((ret >=? 0) && negb (ret =? size)) || ((ret <? 0) && (errno =? EINTR k))
      then transfer rest size else Ret ret
  end.

Definition util_pagemap_get (addr len : Z) : res Z :=
  let size := len / PAGE_SIZE * 8 in
  let offset := addr / PAGE_SIZE * 8 in
  assert! (size <=? UTIL_PAGEMMAP_DEFAULT_BUFF_SIZE) in
  transfer (pread_results k offset size) size.

Definition util_pagemap_clear_refs : res Z := transfer (pwrite_results k) 2.

Section Walk.
Context {S : Type}.
(** The kernel's entry of a page, and the callback. *)
Variable pagemap : S → Z → Z.
Variable cb : S → Z → Z → res (Z * S).

(** The inner loop over the [n] entries read. *)
Fixpoint walk_entries (st : S) (flags addr : Z) (n : nat) (ret : Z) : res (Z * Z * S) :=
  match n with
  | O => Ret (ret, addr, st)
  | Datatypes.S n' =>
      let entry := pagemap st addr in
      if (flags =? 0) || negb (Z.land entry flags =? 0) then
        let! rs := cb st entry addr in
        if rs.1 <? 0 then Ret (rs.1, addr, rs.2)
        else walk_entries rs.2 flags (addr + PAGE_SIZE) n' rs.1
      else walk_entries st flags (addr + PAGE_SIZE) n' ret
  end.

Fixpoint walk_loop (fuel : nat) (st : S) (addr len flags ret : Z) : res (Z * S) :=
  if len >? 0 then
    match fuel with
    | O => Stop FFuel
    | Datatypes.S fuel' =>
        let size := if UTIL_PAGEMMAP_DEFAULT_BUFF_SIZE <? len then UTIL_PAGEMMAP_DEFAULT_BUFF_SIZE else len in
        let! ret := util_pagemap_get addr size in
        if ret <? 0 then Ret (ret, st)
        else
          let! ras := walk_entries st flags addr (Z.to_nat (size / PAGE_SIZE)) ret in
          if ras.1.1 <? 0 then Ret (ras.1.1, ras.2)
          else walk_loop fuel' ras.2 ras.1.2 (len - size) flags ras.1.1
    end
  else Ret (ret, st).

Definition util_pagemap_walk (st : S) (addr len flags : Z) : res (Z * S) :=
  assert! (len `mod` PAGE_SIZE =? 0) in
  walk_loop (Z.to_nat (len / PAGE_SIZE)) st addr len flags 0.

Fixpoint util_pagemap_proc_walk (st : S) (maps : list util_proc_maps_entry_t) (flags : Z) : res (Z * S) :=
  match maps with
  | [] => Ret (0, st)
  | e :: maps' =>
      let! rs := util_pagemap_walk st (vm_start e) (vm_end e - vm_start e) flags in
      if rs.1 <? 0 then Ret rs else util_pagemap_proc_walk rs.2 maps' flags
  end.
End Walk.
End Pagemap.

(** ** The mechanism *)

Definition SOFTDIRTY_MAX_PAGES : Z := 1000.
Definition PAGE_STAT_SIZE : Z := 50000.
Definition PAGE_NUM_HIST_SIZE : Z := 200000.

Record softdirty_t := {
  sd_num_mem_pages : Z;
  sd_proc_maps : list util_proc_maps_entry_t;
  page_statistics : list (Z * Z);           (** address and count, in order of first use *)
  page_num_hist : Z → Z;
  page_num_hist_len : Z;
  stats_enabled : Z;
}.

Record sdstate := {
  sd_mem : mem;                             (** the address space, [softdirty->mem] included *)
  soft_dirty : Z → bool;                    (** the kernel's mark, by page address *)
  softdirty : option softdirty_t;
  sd_ctx : Ctx.ltckpt_ctx_t;
}.

Definition sd_set (s : sdstate) (m : mem) (d : softdirty_t) (c : Ctx.ltckpt_ctx_t) : sdstate :=
  {| sd_mem := m; soft_dirty := soft_dirty s; softdirty := Some d; sd_ctx := c |}.

Definition sd_set_ctx (s : sdstate) (c : Ctx.ltckpt_ctx_t) : sdstate :=
  {| sd_mem := sd_mem s; soft_dirty := soft_dirty s; softdirty := softdirty s; sd_ctx := c |}.

Definition sd_set_pages (d : softdirty_t) (n : Z) : softdirty_t :=
  {| sd_num_mem_pages := n; sd_proc_maps := sd_proc_maps d; page_statistics := page_statistics d;
     page_num_hist := page_num_hist d; page_num_hist_len := page_num_hist_len d; stats_enabled := stats_enabled d |}.
Definition sd_set_stats (d : softdirty_t) (l : list (Z * Z)) : softdirty_t :=
  {| sd_num_mem_pages := sd_num_mem_pages d; sd_proc_maps := sd_proc_maps d; page_statistics := l;
     page_num_hist := page_num_hist d; page_num_hist_len := page_num_hist_len d; stats_enabled := stats_enabled d |}.

Section Softdirty.
Variable k : penv.

(** [softdirty->mem] is the first field. *)
Definition sd_base : Z := mpr_addr.

(** The page-map entry: bit 55 is the mark. *)
Definition sd_pagemap (s : sdstate) (addr : Z) : Z := if soft_dirty s addr then PME_SOFT_DIRTY else 0.

Definition ltckpt_top_of_the_loop_cb (s : sdstate) (entry addr : Z) : res (Z * sdstate) :=
  match softdirty s with
  | None => Stop FNull
  | Some d =>
      assert! (sd_num_mem_pages d <? SOFTDIRTY_MAX_PAGES) in
      Ret (0, sd_set s
                (mem_copy (sd_mem s) addr (sd_mem s) (sd_base + sd_num_mem_pages d * PAGE_SIZE) (Z.to_nat PAGE_SIZE))
                (sd_set_pages d (sd_num_mem_pages d + 1)) (Ctx.CTX_INC_num_cows (sz (base k)) (sd_ctx s)))
  end.

(** [HASH_FIND_PTR] and [HASH_ADD_PTR] on the statistics; [count] is unsigned. *)
Fixpoint stat_incr (l : list (Z * Z)) (addr : Z) : option (list (Z * Z)) :=
  match l with
  | [] => None
  | (a, n) :: l' => if a =? addr then Some ((a, u32 (n + 1)) :: l') else ((a, n) ::.) <$> stat_incr l' addr
  end.

Definition ltckpt_top_of_the_loop_stat_cb (s : sdstate) (entry addr : Z) : res (Z * sdstate) :=
  match softdirty s with
  | None => Stop FNull
  | Some d =>
      let! l := match stat_incr (page_statistics d) addr with
                | Some l => Ret l
                | None => assert! (Z.of_nat (length (page_statistics d)) <? PAGE_STAT_SIZE) in
                          Ret (page_statistics d ++ [(addr, 1)])
                end in
      ltckpt_top_of_the_loop_cb (sd_set s (sd_mem s) (sd_set_stats d l) (sd_ctx s)) entry addr
  end.

(** [softdirty->page_num_hist[len++] = num_mem_pages], a ring. *)
Definition record_history (d : softdirty_t) : softdirty_t :=
  if stats_enabled d =? 0 then d
  else
    let len := page_num_hist_len d + 1 in
    {| sd_num_mem_pages := sd_num_mem_pages d; sd_proc_maps := sd_proc_maps d;
       page_statistics := page_statistics d;
       page_num_hist := λ i, if i =? page_num_hist_len d then sd_num_mem_pages d else page_num_hist d i;
       page_num_hist_len := if len >=? PAGE_NUM_HIST_SIZE then 0 else len; stats_enabled := stats_enabled d |}.

Definition ltckpt_init_softdirty_cb (c : Ctx.ltckpt_ctx_t) (e : util_proc_maps_entry_t) : util_proc_maps_parse_ret_t :=
  if vm_start e =? sd_base then UTIL_PROC_MAPS_RET_CONTINUE
  else if negb (ltcpt_is_checkpointed_vma (base k) c e) then UTIL_PROC_MAPS_RET_CONTINUE
  else UTIL_PROC_MAPS_RET_SAVE.

(** Clearing the marks of all pages. *)
Definition clear_refs (s : sdstate) : res sdstate :=
  let! ret := util_pagemap_clear_refs k in
  if ret <? 0 then Stop FAssert
  else Ret {| sd_mem := sd_mem s; soft_dirty := λ _, false; softdirty := softdirty s; sd_ctx := sd_ctx s |}.

(** [ltckpt_init_softdirty]; [size] is that of the whole buffer. *)
Definition ltckpt_init_softdirty (size : Z) (s : sdstate) : res sdstate :=
  match mmap_ret (base k) with
  | None => Stop FNull
  | Some buff =>
      let len := round_to_page size in
      let m := λ x, if (buff <=? x) && (x <? buff + len + 2 * PAGE_SIZE) then 0 else sd_mem s x in
      let c := Ctx.set_initialized (sd_ctx s) in
      let! rl := util_proc_maps_parse_filter (abi (base k)) (mincore (base k)) (maps_file (base k))
                   (Some (ltckpt_init_softdirty_cb c)) in
      if negb (rl.1 =? 0) then Stop FAssert
      else if negb (pagemap_open k =? 0) then Stop FAssert
      else
        clear_refs {| sd_mem := m; soft_dirty := soft_dirty s;
                      softdirty := Some {| sd_num_mem_pages := 0; sd_proc_maps := rl.2; page_statistics := [];
                                           page_num_hist := λ _, 0; page_num_hist_len := 0;
                                           stats_enabled := Ctx.page_statistic_enabled c |};
                      sd_ctx := c |}
  end.

(** The hook from the check of [initialized] on. *)
Definition softdirty_checkpoint (s : sdstate) : res sdstate :=
  match softdirty s with
  | None => Stop FNull
  | Some d =>
      let d1 := sd_set_pages (record_history d) 0 in
      let s1 := sd_set s (sd_mem s) d1 (sd_ctx s) in
      let cb := if stats_enabled d1 =? 0 then ltckpt_top_of_the_loop_cb else ltckpt_top_of_the_loop_stat_cb in
      let! rs := util_pagemap_proc_walk k sd_pagemap cb s1 (sd_proc_maps d1) PME_SOFT_DIRTY in
      if rs.1 <? 0 then Stop FAssert
      else
        let! s2 := clear_refs rs.2 in
        Ret (sd_set_ctx s2 (Ctx.CTX_NEW_CHECKPOINT (sz (base k)) (sd_ctx s2)))
  end.

Definition softdirty_top_of_the_loop (size : Z) (s : sdstate) : res (sdstate * bool) :=
  let '(ctx1, go) := Ctx.CTX_NEW_TOL_OR_RETURN (sz (base k)) (sd_ctx s) in
  let s1 := sd_set_ctx s ctx1 in
  if negb go then Ret (s1, false)
  else
    let! s2 := if Ctx.initialized ctx1 =? 0 then ltckpt_init_softdirty size s1 else Ret s1 in
    let! s3 := softdirty_checkpoint s2 in
    Ret (s3, true).

Definition softdirty_late_init_hook (size : Z) (s : sdstate) : res sdstate :=
  if (Ctx.lazy_init (sd_ctx s) =? 0) && negb (Ctx.checkpoint_interval (sd_ctx s) =? 0)
  then ltckpt_init_softdirty size s else Ret s.

(** A write of the program; the kernel marks the pages. *)
Definition sd_run_op (s : sdstate) (o : op) : sdstate :=
  {| sd_mem := store_bytes (sd_mem s) (op_addr o) (op_bytes o);
     soft_dirty := λ q, soft_dirty s q || existsb (λ a, page_of a =? q) (op_addrs o);
     softdirty := softdirty s; sd_ctx := sd_ctx s |}.

(** ** What a checkpoint saves *)

(** The pages of an area and those that are marked, in address order. *)
Fixpoint pages_from (addr : Z) (n : nat) : list Z :=
  match n with O => [] | Datatypes.S n' => addr :: pages_from (addr + PAGE_SIZE) n' end.
Definition area_pages (e : util_proc_maps_entry_t) : list Z :=
  pages_from (vm_start e) (Z.to_nat ((vm_end e - vm_start e) / PAGE_SIZE)).
Definition marked_pages (s : sdstate) (maps : list util_proc_maps_entry_t) : list Z :=
  filter (λ p, soft_dirty s p = true) (maps ≫= area_pages).
End Softdirty.

(** ** The walk is a fold over the marked pages *)

Section WalkSpec.
Variable k : penv.

(** [pread] and [pwrite] succeed at the first attempt that is not interrupted. *)
Hypothesis pread_ok : ∀ offset size, 0 ≤ size → transfer k (pread_results k offset size) size = Ret size.
Hypothesis pwrite_ok : transfer k (pwrite_results k) 2 = Ret 2.

Variable cb : sdstate → Z → Z → res (Z * sdstate).
Hypothesis cb_ok : ∀ s e a r s', cb s e a = Ret (r, s') → r = 0 ∧ soft_dirty s' = soft_dirty s.

Definition save (s : sdstate) (p : Z) : res sdstate :=
  let! rs := cb s (sd_pagemap s p) p in Ret rs.2.

Lemma pages_from_app n m addr : pages_from addr (n + m) = pages_from addr n ++ pages_from (addr + PAGE_SIZE * Z.of_nat n) m.
Proof.
  revert addr. induction n as [|n IH]; intros addr; cbn [pages_from Nat.add app].
  - f_equal. lia.
  - rewrite IH. do 3 f_equal. lia.
Qed.

(** The marked pages among [l]. *)
Definition marked (s : sdstate) (l : list Z) : list Z := filter (λ p, soft_dirty s p = true) l.

Lemma marked_ext s s' l : soft_dirty s' = soft_dirty s → marked s' l = marked s l.
Proof. intros H. unfold marked. by rewrite H. Qed.

Lemma sd_pagemap_marked s a : Z.land (sd_pagemap s a) PME_SOFT_DIRTY = 0 ↔ soft_dirty s a = false.
Proof. unfold sd_pagemap. destruct (soft_dirty s a); by vm_compute. Qed.

Lemma save_dirty s p s' : save s p = Ret s' → soft_dirty s' = soft_dirty s.
Proof. intros H. apply res_bind_inv in H as ([r t] & E & [= <-]). by apply cb_ok in E as [_ ?]. Qed.

(** Saving the marked pages of [l], in order. *)
Definition save_marked (s : sdstate) (l : list Z) : res sdstate := res_foldl save s (marked s l).

Lemma save_all_dirty l s s' : res_foldl save s l = Ret s' → soft_dirty s' = soft_dirty s.
Proof.
  intros H. apply (res_foldl_inv (λ t, soft_dirty t = soft_dirty s) save l s s'); [|done|done].
  intros x b y Hx Hy. rewrite <- Hx. by eapply save_dirty.
Qed.

Lemma save_marked_app s l1 l2 :
  save_marked s (l1 ++ l2) = (let! s' := save_marked s l1 in save_marked s' l2).
Proof.
  unfold save_marked. unfold marked at 1. rewrite filter_app, res_foldl_app.
  change (filter (λ p, soft_dirty s p = true) ?l) with (marked s l).
  destruct (res_foldl save s (marked s l1)) as [s1|] eqn:E; [|done]. cbn [res_bind].
  by rewrite (marked_ext s s1) by (by eapply save_all_dirty).
Qed.

Lemma walk_entries_spec n s addr ret :
  0 ≤ ret → ∃ ret', 0 ≤ ret' ∧
  walk_entries sd_pagemap cb s PME_SOFT_DIRTY addr n ret =
    (let! s' := save_marked s (pages_from addr n) in Ret (ret', addr + PAGE_SIZE * Z.of_nat n, s')).
Proof.
  revert s addr ret. induction n as [|n IH]; intros s addr ret Hr.
  { exists ret. split; [done|]. unfold save_marked, marked. cbn. do 3 f_equal. lia. }
  cbn [walk_entries pages_from]. change (addr :: ?l) with ([addr] ++ l).
  assert (Hn : addr + PAGE_SIZE * Z.of_nat (S n) = addr + PAGE_SIZE + PAGE_SIZE * Z.of_nat n) by lia.
  setoid_rewrite save_marked_app. rewrite Hn. cbn [Z.eqb orb]. unfold save_marked at 1, marked at 1.
  rewrite filter_cons, filter_nil. change (PME_SOFT_DIRTY =? 0) with false. cbn [orb].
  destruct (Z.eqb_spec (Z.land (sd_pagemap s addr) PME_SOFT_DIRTY) 0) as [E|E]; rewrite sd_pagemap_marked in E; cbn [negb].
  - rewrite E, decide_False by done. cbn [res_foldl res_bind]. by apply IH.
  - apply not_false_is_true in E. rewrite E, decide_True by done. cbn [res_foldl]. unfold save at 1.
    destruct (cb s (sd_pagemap s addr) addr) as [[r s1]|] eqn:Ec; cbn [res_bind fst snd]; [|by exists 0].
    apply cb_ok in Ec as [-> _]. cbn [Z.ltb Z.compare]. by apply IH.
Qed.

Lemma walk_loop_spec n fuel s addr ret :
  (n ≤ fuel)%nat → 0 ≤ ret → ∃ ret', 0 ≤ ret' ∧
  walk_loop k sd_pagemap cb fuel s addr (PAGE_SIZE * Z.of_nat n) PME_SOFT_DIRTY ret =
    (let! s' := save_marked s (pages_from addr n) in Ret (ret', s')).
Proof.
  revert n s addr ret. induction fuel as [|fuel IH]; intros n s addr ret Hn Hr.
  all: cbn [walk_loop]; rewrite Z.gtb_ltb; destruct (Z.ltb_spec 0 (PAGE_SIZE * Z.of_nat n)) as [Hp|Hp].
  2, 4: replace n with 0%nat by (unfold PAGE_SIZE in Hp; lia); by exists ret.
  { unfold PAGE_SIZE in Hp. lia. }
  set (j := Nat.min 10 n).
  assert (Hs : (if UTIL_PAGEMMAP_DEFAULT_BUFF_SIZE <? PAGE_SIZE * Z.of_nat n then UTIL_PAGEMMAP_DEFAULT_BUFF_SIZE
                else PAGE_SIZE * Z.of_nat n) = PAGE_SIZE * Z.of_nat j).
  { unfold UTIL_PAGEMMAP_DEFAULT_BUFF_SIZE, PAGE_SIZE, j. destruct (Z.ltb_spec (4096 * 10) (4096 * Z.of_nat n)); lia. }
  rewrite Hs. unfold util_pagemap_get.
  replace (PAGE_SIZE * Z.of_nat j / PAGE_SIZE) with (Z.of_nat j)
    by (symmetry; rewrite Z.mul_comm; apply Z.div_mul; unfold PAGE_SIZE; lia).
  destruct (Z.leb_spec (Z.of_nat j * 8) UTIL_PAGEMMAP_DEFAULT_BUFF_SIZE);
    [|unfold UTIL_PAGEMMAP_DEFAULT_BUFF_SIZE, PAGE_SIZE, j in *; lia].
  rewrite pread_ok by lia. cbn [res_bind]. destruct (Z.ltb_spec (Z.of_nat j * 8) 0); [lia|]. rewrite Nat2Z.id.
  destruct (walk_entries_spec j s addr (Z.of_nat j * 8) ltac:(lia)) as (r1 & Hr1 & ->).
  replace (pages_from addr n) with (pages_from addr (j + (n - j))) by (f_equal; lia).
  rewrite pages_from_app. setoid_rewrite save_marked_app.
  destruct (save_marked s (pages_from addr j)) as [s1|]; cbn [res_bind fst snd]; [|by exists 0].
  destruct (Z.ltb_spec r1 0); [lia|].
  replace (PAGE_SIZE * Z.of_nat n - PAGE_SIZE * Z.of_nat j) with (PAGE_SIZE * Z.of_nat (n - j)) by lia.
  apply IH; [|done]. unfold j, PAGE_SIZE in *. lia.
Qed.

Definition aligned_area (e : util_proc_maps_entry_t) : Prop :=
  (vm_end e - vm_start e) `mod` PAGE_SIZE = 0 ∧ vm_start e ≤ vm_end e.

Lemma proc_walk_spec maps s :
  Forall aligned_area maps →
  util_pagemap_proc_walk k sd_pagemap cb s maps PME_SOFT_DIRTY =
    (let! s' := save_marked s (maps ≫= area_pages) in Ret (0, s')).
Proof.
  intros Hm. revert s. induction Hm as [|e maps [He1 He2] _ IH]; intros s; [done|].
  cbn [util_pagemap_proc_walk mbind list_bind]. unfold util_pagemap_walk. rewrite He1, Z.eqb_refl.
  set (n := Z.to_nat ((vm_end e - vm_start e) / PAGE_SIZE)).
  assert (Hn : vm_end e - vm_start e = PAGE_SIZE * Z.of_nat n).
  { unfold n. rewrite Z2Nat.id by (apply Z.div_pos; [lia|unfold PAGE_SIZE; lia]).
    pose proof (Z.div_mod (vm_end e - vm_start e) PAGE_SIZE). unfold PAGE_SIZE in *. lia. }
  destruct (walk_loop_spec n n s (vm_start e) 0 ltac:(done) ltac:(lia)) as (r & Hr & E). rewrite Hn, E.
  rewrite save_marked_app. fold n. unfold area_pages at 1. fold n.
  destruct (save_marked s (pages_from (vm_start e) n)) as [s1|]; cbn [res_bind fst snd]; [|done].
  destruct (Z.ltb_spec r 0); [lia|]. apply IH.
Qed.
End WalkSpec.

(** ** The theorem *)

Section Saved.
Variable k : penv.

Definition in_sd_buffer (x : Z) : Prop := sd_base ≤ x < sd_base + SOFTDIRTY_MAX_PAGES * PAGE_SIZE.
Definition page_outside (p : Z) : Prop := ∀ j, 0 ≤ j < PAGE_SIZE → ¬ in_sd_buffer (p + j).

Lemma top_of_the_loop_cb_ok s e a r s' :
  ltckpt_top_of_the_loop_cb k s e a = Ret (r, s') → r = 0 ∧ soft_dirty s' = soft_dirty s.
Proof.
  unfold ltckpt_top_of_the_loop_cb. destruct (softdirty s); [|done]. destruct (_ <? _); [|done]. by intros [= <- <-].
Qed.

Lemma save_one s d p :
  softdirty s = Some d →
  save (ltckpt_top_of_the_loop_cb k) s p =
    if sd_num_mem_pages d <? SOFTDIRTY_MAX_PAGES then
      Ret (sd_set s
             (mem_copy (sd_mem s) p (sd_mem s) (sd_base + sd_num_mem_pages d * PAGE_SIZE) (Z.to_nat PAGE_SIZE))
             (sd_set_pages d (sd_num_mem_pages d + 1)) (Ctx.CTX_INC_num_cows (sz (base k)) (sd_ctx s)))
    else Stop FAssert.
Proof. intros Hd. unfold save, ltckpt_top_of_the_loop_cb. rewrite Hd. by destruct (_ <? _). Qed.

(** Saving the pages [l] fills the next slots of the buffer. *)
Lemma save_pages l s d :
  softdirty s = Some d → 0 ≤ sd_num_mem_pages d ≤ SOFTDIRTY_MAX_PAGES → Forall page_outside l →
  let n := sd_num_mem_pages d in
  match res_foldl (save (ltckpt_top_of_the_loop_cb k)) s l with
  | Ret s' =>
      n + Z.of_nat (length l) ≤ SOFTDIRTY_MAX_PAGES ∧
      softdirty s' = Some (sd_set_pages d (n + Z.of_nat (length l))) ∧
      (∀ x, ¬ in_sd_buffer x ∨ x < sd_base + n * PAGE_SIZE → sd_mem s' x = sd_mem s x) ∧
      ∀ i p j, l !! i = Some p → 0 ≤ j < PAGE_SIZE →
        sd_mem s' (sd_base + (n + Z.of_nat i) * PAGE_SIZE + j) = sd_mem s (p + j)
  | Stop f => f = FAssert ∧ SOFTDIRTY_MAX_PAGES < n + Z.of_nat (length l)
  end.
Proof.
  revert s d. induction l as [|p l IH]; intros s d Hd Hn Hl n.
  { cbn [res_foldl length]. split_and!; [lia| |done|done]. rewrite Hd, Z.add_0_r. by destruct d. }
  cbn [res_foldl]. rewrite (save_one s d p Hd). fold n.
  destruct (Z.ltb_spec n SOFTDIRTY_MAX_PAGES) as [Hlt|Hge]; cbn [res_bind]; [|cbn [length]; split; [done|lia]].
  set (s1 := sd_set s _ _ _).
  apply Forall_cons in Hl as [Hp Hl].
  specialize (IH s1 (sd_set_pages d (n + 1)) eq_refl ltac:(cbn; lia) Hl). cbn [sd_num_mem_pages sd_set_pages] in IH.
  assert (Hout : ∀ x, ¬ in_sd_buffer x ∨ x < sd_base + n * PAGE_SIZE → sd_mem s1 x = sd_mem s x).
  { intros x Hx. apply mem_copy_out. unfold in_sd_buffer, SOFTDIRTY_MAX_PAGES, PAGE_SIZE in *. lia. }
  destruct (res_foldl (save (ltckpt_top_of_the_loop_cb k)) s1 l) as [s'|f]; cbn [length]; [|destruct IH; split; [done|lia]].
  destruct IH as (I1 & I2 & I3 & I4). split_and!.
  - lia.
  - rewrite I2. do 2 f_equal. lia.
  - intros x Hx. rewrite I3 by (destruct Hx; [by left|right; unfold PAGE_SIZE in *; lia]). by apply Hout.
  - intros i q j Hi Hj. destruct i as [|i].
    + injection Hi as <-. rewrite I3 by (right; unfold PAGE_SIZE in *; lia). unfold s1. cbn [sd_set sd_mem].
      rewrite mem_copy_in by (unfold PAGE_SIZE in *; lia). f_equal. lia.
    + replace (n + Z.of_nat (S i)) with (n + 1 + Z.of_nat i) by lia. rewrite (I4 i q j Hi Hj).
      apply Hout. left. by apply (Forall_lookup_1 _ _ _ _ Hl Hi).
Qed.

Lemma soft_dirty_run os s :
  (∀ q, soft_dirty s q = false) →
  softdirty (foldl sd_run_op s os) = softdirty s ∧ sd_mem (foldl sd_run_op s os) = plain_run (sd_mem s) os ∧
  ∀ q, soft_dirty (foldl sd_run_op s os) q = existsb (λ a, page_of a =? q) (os ≫= op_addrs).
Proof.
  intros Hs. assert (G : ∀ s, softdirty (foldl sd_run_op s os) = softdirty s ∧
    sd_mem (foldl sd_run_op s os) = plain_run (sd_mem s) os ∧
    ∀ q, soft_dirty (foldl sd_run_op s os) q = soft_dirty s q || existsb (λ a, page_of a =? q) (os ≫= op_addrs)).
  { clear Hs s. induction os as [|o os IH]; intros s; cbn [foldl plain_run mbind list_bind existsb].
    - split_and!; try done. intros q. by rewrite orb_false_r.
    - destruct (IH (sd_run_op s o)) as (I1 & I2 & I3). rewrite I1, I2. split_and!; try done.
      intros q. rewrite I3. cbn [sd_run_op soft_dirty]. by rewrite existsb_app, orb_assoc. }
  destruct (G s) as (G1 & G2 & G3). split_and!; try done. intros q. by rewrite G3, Hs.
Qed.

(** The pages of the areas that the writes touch, in the order of the areas. *)
Definition written_pages (maps : list util_proc_maps_entry_t) (os : list op) : list Z :=
  filter (λ p, existsb (λ a, page_of a =? p) (os ≫= op_addrs) = true) (maps ≫= area_pages).

(** A soft-dirty checkpoint saves exactly the pages written since the last
    one.  From a state without marks let the program write and take a
    checkpoint.  The pages of the checkpointed areas that were written are
    copied, in the order of the areas, into the buffer from its start, all marks
    are cleared and the program's memory is unchanged; with more than
    [SOFTDIRTY_MAX_PAGES] such pages, and only then, an assertion fails. *)
Theorem softdirty_saves_written_pages s d os :
  (∀ offset size, 0 ≤ size → transfer k (pread_results k offset size) size = Ret size) →
  transfer k (pwrite_results k) 2 = Ret 2 →
  softdirty s = Some d → stats_enabled d = 0 → (∀ q, soft_dirty s q = false) →
  Forall aligned_area (sd_proc_maps d) → Forall page_outside (sd_proc_maps d ≫= area_pages) →
  let written := written_pages (sd_proc_maps d) os in
  match softdirty_checkpoint k (foldl sd_run_op s os) with
  | Ret s' =>
      Z.of_nat (length written) ≤ SOFTDIRTY_MAX_PAGES ∧
      (∃ d', softdirty s' = Some d' ∧ sd_num_mem_pages d' = Z.of_nat (length written)) ∧
      (∀ q, soft_dirty s' q = false) ∧
      (∀ x, ¬ in_sd_buffer x → sd_mem s' x = plain_run (sd_mem s) os x) ∧
      ∀ i p j, written !! i = Some p → 0 ≤ j < PAGE_SIZE →
        sd_mem s' (sd_base + Z.of_nat i * PAGE_SIZE + j) = plain_run (sd_mem s) os (p + j)
  | Stop f => f = FAssert ∧ SOFTDIRTY_MAX_PAGES < Z.of_nat (length written)
  end.
Proof.
  intros Hr Hw Hd Hst Hcl Hal Hout written. destruct (soft_dirty_run os s Hcl) as (R1 & R2 & R3).
  set (s1 := foldl sd_run_op s os) in *. unfold softdirty_checkpoint. rewrite R1, Hd. unfold record_history. rewrite Hst.
  cbn [Z.eqb sd_set_pages stats_enabled sd_proc_maps]. rewrite Hst. cbn [Z.eqb].
  set (d1 := sd_set_pages d 0). set (s2 := sd_set s1 (sd_mem s1) d1 (sd_ctx s1)).
  rewrite (proc_walk_spec k Hr (ltckpt_top_of_the_loop_cb k) top_of_the_loop_cb_ok) by done. unfold save_marked.
  assert (Hm : marked s2 (sd_proc_maps d ≫= area_pages) = written).
  { unfold marked, written, written_pages. apply list_filter_iff. intros p. cbn [s2 sd_set soft_dirty]. by rewrite R3. }
  rewrite Hm.
  assert (Hwo : Forall page_outside written).
  { apply Forall_forall. intros p Hp. apply list_elem_of_filter in Hp as [_ Hp]. by apply (proj1 (Forall_forall _ _) Hout). }
  pose proof (save_pages written s2 d1 eq_refl ltac:(unfold SOFTDIRTY_MAX_PAGES; cbn; lia) Hwo) as P.
  cbn [d1 sd_set_pages sd_num_mem_pages] in P.
  destruct (res_foldl _ s2 written) as [s3|f]; cbn [res_bind fst snd]; [|destruct P; split; [done|lia]].
  destruct P as (P1 & P2 & P3 & P4). cbn [Z.ltb Z.compare]. unfold clear_refs, util_pagemap_clear_refs. rewrite Hw.
  cbn [res_bind Z.ltb Z.compare sd_set_ctx softdirty soft_dirty sd_mem]. rewrite <- R2. split_and!; try done.
  - eexists. split; [exact P2|]. cbn. lia.
  - intros x Hx. by rewrite P3 by auto.
Qed.

(** The history of page counts is written inside its array. *)
Lemma record_history_bounds d :
  0 ≤ page_num_hist_len d < PAGE_NUM_HIST_SIZE →
  0 ≤ page_num_hist_len (record_history d) < PAGE_NUM_HIST_SIZE ∧
  (stats_enabled d ≠ 0 → page_num_hist (record_history d) (page_num_hist_len d) = sd_num_mem_pages d).
Proof.
  intros H. unfold record_history. destruct (Z.eqb_spec (stats_enabled d) 0); [done|].
  cbn [page_num_hist_len page_num_hist]. rewrite Z.eqb_refl. split; [|done].
  rewrite Z.geb_leb. destruct (Z.leb_spec PAGE_NUM_HIST_SIZE (page_num_hist_len d + 1)); unfold PAGE_NUM_HIST_SIZE in *; lia.
Qed.

(** The statistics have one entry per page; counting a page adds one to its
    entry. *)
Lemma stat_incr_spec l a l' :
  stat_incr l a = Some l' → l'.*1 = l.*1 ∧ a ∈ l.*1.
Proof.
  revert l'. induction l as [|[b n] l IH]; intros l' H; cbn [stat_incr] in H; [done|].
  destruct (Z.eqb_spec b a) as [->|Hne].
  - injection H as <-. split; [done|]. by left.
  - apply fmap_Some in H as (l1 & H & ->). destruct (IH _ H) as [E Hin]. cbn [fmap list_fmap]. split; [by f_equal|by right].
Qed.

Lemma stat_incr_none l a : stat_incr l a = None → a ∉ l.*1.
Proof.
  induction l as [|[b n] l IH]; intros H; cbn [stat_incr] in H; [apply not_elem_of_nil|].
  destruct (Z.eqb_spec b a) as [->|Hne]; [done|]. apply fmap_None in H. cbn [fmap list_fmap].
  apply not_elem_of_cons. split; [done|]. by apply IH.
Qed.

Lemma stat_cb_nodup s e a r s' d d' :
  softdirty s = Some d → NoDup (page_statistics d).*1 → Z.of_nat (length (page_statistics d)) ≤ PAGE_STAT_SIZE →
  ltckpt_top_of_the_loop_stat_cb k s e a = Ret (r, s') → softdirty s' = Some d' →
  NoDup (page_statistics d').*1 ∧ Z.of_nat (length (page_statistics d')) ≤ PAGE_STAT_SIZE ∧ a ∈ (page_statistics d').*1.
Proof.
  intros Hd Hnd Hlen H Hd'. unfold ltckpt_top_of_the_loop_stat_cb in H. rewrite Hd in H.
  apply res_bind_inv in H as (l & Hl & H). unfold ltckpt_top_of_the_loop_cb in H. cbn [softdirty sd_set] in H.
  destruct (_ <? _) in H; [|done]. injection H as <- <-. cbn in Hd'. injection Hd' as <-. cbn.
  destruct (stat_incr (page_statistics d) a) as [l1|] eqn:E.
  - injection Hl as <-. apply stat_incr_spec in E as [E Hin]. rewrite E. split_and!; [done| |done].
    apply (f_equal length) in E. rewrite !length_fmap in E. lia.
  - apply stat_incr_none in E. destruct (Z.ltb_spec (Z.of_nat (length (page_statistics d))) PAGE_STAT_SIZE); [|done].
    injection Hl as <-. rewrite fmap_app, length_app. split_and!; [|simpl; lia|apply elem_of_app; right; by left].
    apply NoDup_app. split_and!; [done| |apply NoDup_singleton]. intros b Hb Hc. apply list_elem_of_singleton in Hc. cbn in Hc. congruence.
Qed.
End Saved.

(** ** Witness *)

Definition demo_penv : penv :=
  {| base := demo_menv; EINTR := 4; pread_results := λ _ size, [(-1, 4); (size, 0)]; pwrite_results := [(-1, 4); (2, 0)]; pagemap_open := 0 |}.
Definition demo_sd : softdirty_t :=
  {| sd_num_mem_pages := 3; sd_proc_maps := [demo_area 0x600000 0x604000 "w" "/bin/server"]; page_statistics := [];
     page_num_hist := λ _, 0; page_num_hist_len := 0; stats_enabled := 0 |}.
Definition demo_sdstate : sdstate :=
  {| sd_mem := λ x, x `mod` 251; soft_dirty := λ _, false; softdirty := Some demo_sd; sd_ctx := mctx demo_mstart |}.

Lemma demo_pread offset size : 0 ≤ size → transfer demo_penv (pread_results demo_penv offset size) size = Ret size.
Proof.
  intros Hs. cbn. destruct (Z.geb_spec size 0); [|lia]. rewrite Z.eqb_refl. cbn. by destruct (Z.ltb_spec size 0); [lia|].
Qed.

Lemma demo_outside : Forall page_outside (sd_proc_maps demo_sd ≫= area_pages).
Proof.
  change (sd_proc_maps demo_sd ≫= area_pages) with [0x600000; 0x601000; 0x602000; 0x603000].
  repeat (apply Forall_cons_2; [intros j Hj; unfold in_sd_buffer, sd_base, mpr_addr, MIN_MMAP_ADDR,
    SOFTDIRTY_MAX_PAGES, PAGE_SIZE in *; lia|]). apply Forall_nil_2.
Qed.

Lemma softdirty_saves_written_pages_witness :
  ∃ s', softdirty_checkpoint demo_penv (foldl sd_run_op demo_sdstate [OStore 0x602008 [7]; OStore 0x600001 [5]]) = Ret s' ∧
    written_pages (sd_proc_maps demo_sd) [OStore 0x602008 [7]; OStore 0x600001 [5]] = [0x600000; 0x602000] ∧
    sd_mem s' (sd_base + 1 * PAGE_SIZE + 8) = 7.
Proof.
  assert (Hal : Forall aligned_area (sd_proc_maps demo_sd)) by (repeat constructor; cbn; lia).
  pose proof (softdirty_saves_written_pages demo_penv demo_sdstate demo_sd [OStore 0x602008 [7]; OStore 0x600001 [5]]
    demo_pread eq_refl eq_refl eq_refl (λ _, eq_refl) Hal demo_outside) as P.
  cbv zeta in P. assert (Hw : written_pages (sd_proc_maps demo_sd) [OStore 0x602008 [7]; OStore 0x600001 [5]] = [0x600000; 0x602000])
    by (vm_compute; reflexivity).
  rewrite Hw in P. destruct (softdirty_checkpoint demo_penv _) as [s'|f]; [|destruct P as [_ P]; discriminate P].
  exists s'. split; [reflexivity|]. split; [exact Hw|]. destruct P as (_ & _ & _ & _ & P).
  change (sd_mem s' (sd_base + Z.of_nat 1 * PAGE_SIZE + 8) = 7).
  rewrite (P 1%nat 0x602000 8 eq_refl) by (unfold PAGE_SIZE; lia). reflexivity.
Defined.
