(* ===== verification/Writelog.v ===== *)
(** * The undo log: [mechanisms/ltckpt_writelog.c]

    Before every instrumented store the runtime appends the old contents of
    the 8-byte region to a log that lives in the process's own memory; on
    restart the log is walked backwards and the regions are written back.

    The log is modelled where the code keeps it, as bytes of [wmem] at
    [wl_data]; [log_entries] decodes it, and [undo] is the abstract effect of
    replaying it. *)

From Stdlib Require Import ZArith Lia Ascii String.
From stdpp Require Import base list numbers strings.
From S2P Require Import Prelude Decimal LogFmt Runtime.
Import Window.

(** The build-time constants: MINIX, 32-bit and 64-bit Linux values differ. *)
Record wlconf := {
  WRITELOG_START : Z;
  WRITELOG_MAXLEN : Z;
  sizeof_ptr : Z;        (** [sizeof (void * )] = [sizeof (unsigned long)] *)
}.

Definition minix_wlconf : wlconf :=
  {| WRITELOG_START := 1536*1024*1024; WRITELOG_MAXLEN := 1024*1024*2; sizeof_ptr := 4 |}.

Definition WRITELOG_GRANULARITY : Z := 8.
Definition WRITELOG_BYTES (c : wlconf) : Z :=
  WRITELOG_MAXLEN c * (WRITELOG_GRANULARITY + sizeof_ptr c).
(** [sizeof (void * ) + sizeof (region_t)]. *)
Definition entry_size (c : wlconf) : Z := sizeof_ptr c + WRITELOG_GRANULARITY.

Record wlstate := {
  wmem : mem;                        (** the process's memory, log included *)
  wl_data : Z;                       (** 0 is the null pointer *)
  wl_position : Z;
  wl_position_high_watermark : Z;
  ltckpt_writelog_enabled : bool;
  win : window;
  wctx : Ctx.ltckpt_ctx_t;
}.

Definition set_mem (s : wlstate) (m : mem) : wlstate :=
  {| wmem := m; wl_data := wl_data s; wl_position := wl_position s;
     wl_position_high_watermark := wl_position_high_watermark s;
     ltckpt_writelog_enabled := ltckpt_writelog_enabled s; win := win s; wctx := wctx s |}.

Definition set_pos (s : wlstate) (p : Z) : wlstate :=
  {| wmem := wmem s; wl_data := wl_data s; wl_position := p;
     wl_position_high_watermark := wl_position_high_watermark s;
     ltckpt_writelog_enabled := ltckpt_writelog_enabled s; win := win s; wctx := wctx s |}.

Definition set_win (s : wlstate) (w : window) : wlstate :=
  {| wmem := wmem s; wl_data := wl_data s; wl_position := wl_position s;
     wl_position_high_watermark := wl_position_high_watermark s;
     ltckpt_writelog_enabled := ltckpt_writelog_enabled s; win := w; wctx := wctx s |}.

Definition set_enabled (s : wlstate) (b : bool) : wlstate :=
  {| wmem := wmem s; wl_data := wl_data s; wl_position := wl_position s;
     wl_position_high_watermark := wl_position_high_watermark s;
     ltckpt_writelog_enabled := b; win := win s; wctx := wctx s |}.

Definition writelog_full_reason : string := "ltckpt recovery: window closed: writelog full".

(** The overflow branch of [ltckpt_write_wl]: close the window and demand a
    fail-stop, keeping an earlier reason. *)
Definition close_on_overflow (w : window) : window :=
  {| sa_window__is_open := false;
     g_recovery_bitmask := Z.lor (g_recovery_bitmask w) LTCKPT_RECOVERY_MASK_FAIL_STOP;
     g_recovery_bitmask_reason :=
       match g_recovery_bitmask_reason w with
       | Some r => Some r
       | None => Some writelog_full_reason
       end |}.

Section Writelog.
Variable c : wlconf.

Definition ltckpt_write_wl (s : wlstate) (addr0 : Z) : res wlstate :=
  let addr := align_down 3 addr0 in
  let wl_data_start := wl_data s in
  let wl_data_end := wl_data s + WRITELOG_BYTES c in
  assert! negb (wl_data s =? 0) in
  if negb (sa_window__is_open (win s)) then Ret s
  else if (wl_data_start <=? addr) && (addr <? wl_data_end) then Stop FAssert
  else
    let addr_slot := wl_data s + wl_position s in
    let region := wl_data s + (wl_position s + sizeof_ptr c) in
    let m1 := store_bytes (wmem s) addr_slot (le_split (Z.to_nat (sizeof_ptr c)) addr) in
    let m2 := mem_copy m1 addr m1 region 8 in
    let pos' := ulong (sizeof_ptr c) (wl_position s + entry_size c) in
    let s' := set_pos (set_mem s m2) pos' in
    if pos' >=? WRITELOG_BYTES c then Ret (set_win s' (close_on_overflow (win s')))
    else Ret s'.

(** [LTCKPT_DECLARE_STORE_HOOK] *)
Definition ltckpt_store_hook (s : wlstate) (addr : Z) : res wlstate :=
  if ltckpt_writelog_enabled s then ltckpt_write_wl s addr else Ret s.

(** The [while ((char * ) reg < end)] loop of the memcpy hook. *)
Fixpoint memcpy_loop (fuel : nat) (s : wlstate) (reg end_ : Z) : res wlstate :=
  if reg <? end_ then
    match fuel with
    | O => Stop FFuel
    | S fuel' =>
        let! s' := ltckpt_write_wl s reg in
        memcpy_loop fuel' s' (reg + WRITELOG_GRANULARITY) end_
    end
  else Ret s.

Definition memcpy_fuel (reg end_ : Z) : nat := Z.to_nat ((end_ - reg + 7) / 8).

(** [LTCKPT_DECLARE_MEMCPY_HOOK] *)
Definition ltckpt_memcpy_hook (s : wlstate) (addr size : Z) : res wlstate :=
  if negb (ltckpt_writelog_enabled s) then Ret s
  else
    let end_ := addr + size in
    let reg := align_down 2 addr in
    memcpy_loop (memcpy_fuel reg end_) s reg end_.

(** [LTCKPT_DECLARE_TOP_OF_THE_LOOP_HOOK], without the retrieval of the
    process name for the watermark message. *)
Definition ltckpt_top_of_the_loop (s : wlstate) : wlstate :=
  let ctx1 := Ctx.CTX_NEW_LOG_SIZE (wl_position s) (wctx s) in
  let '(ctx2, go) := Ctx.CTX_NEW_TOL_OR_RETURN (sizeof_ptr c) ctx1 in
  if negb go then
    {| wmem := wmem s; wl_data := wl_data s; wl_position := wl_position s;
       wl_position_high_watermark := wl_position_high_watermark s;
       ltckpt_writelog_enabled := ltckpt_writelog_enabled s; win := win s; wctx := ctx2 |}
  else
    {| wmem := wmem s; wl_data := wl_data s; wl_position := 0;
       wl_position_high_watermark :=
         if wl_position s >? wl_position_high_watermark s then wl_position s
         else wl_position_high_watermark s;
       ltckpt_writelog_enabled := true; win := win s;
       wctx := Ctx.CTX_NEW_CHECKPOINT (sizeof_ptr c) ctx2 |}.

(** [ltckpt_init_writelog], given what [ltckpt_mmap] returned ([None] for
    [LTCKPT_MAP_FAILED]). *)
Definition ltckpt_init_writelog (mmap_ret : option Z) (s : wlstate) : res wlstate :=
  match mmap_ret with
  | None => Stop FAssert
  | Some ret =>
      if negb (ret =? WRITELOG_START c) then Stop FAssert
      else Ret {| wmem := wmem s; wl_data := ret; wl_position := wl_position s;
                  wl_position_high_watermark := wl_position_high_watermark s;
                  ltckpt_writelog_enabled := ltckpt_writelog_enabled s;
                  win := win s; wctx := wctx s |}
  end.

(** ** Restart *)

Definition ltckpt_overlaps (p1 s1 p2 s2 : Z) : bool :=
  ((p1 <=? p2) && (p1 + s1 >? p2)) || ((p2 <=? p1) && (p2 + s2 >? p1)).

(** What the restart hook calls in the kernel and in SEF, and the addresses
    the linker and the stack give its variables. *)
Record renv := {
  sys_safecopyto_enabled : Z;                      (** writing 0 into the old process's flag *)
  identity_state_transfer : wlstate → Z * wlstate; (** SEF's, from the old process *)
  sys_safecopyfrom : Z → nat → Z * list Z;         (** read the old process's memory *)
  addr_wl_data : Z;
  addr_wl_position : Z;
  addr_writelog_enabled : Z;
  sizeof_int : Z;
  addr_num_entries : Z;                            (** the local variable on the stack *)
  g_module_name : string;
}.

Definition OK : Z := 0.

Definition ltckpt_can_restore (e : renv) (data addr : Z) : bool :=
  negb (ltckpt_overlaps addr 8 data (WRITELOG_BYTES c)) &&
  negb (ltckpt_overlaps addr 8 (addr_wl_data e) (sizeof_ptr c)) &&
  negb (ltckpt_overlaps addr 8 (addr_wl_position e) (sizeof_ptr c)) &&
  negb (ltckpt_overlaps addr 8 (addr_writelog_enabled e) (sizeof_int e)).

Definition datamax (e : renv) : Z := addr_num_entries e - 4096.

(** Result of the restore loop: the iteration and stack-entry counters with
    the state, or the return value and message of a failed copy. *)
Inductive loop_result :=
| LoopDone (i stack_entries : Z) (s : wlstate)
| LoopFailed (r : Z) (msg : string) (s : wlstate).

Definition msg_addr_failed : string := "ltckpt recovery: failed: writelog: sys_safecopyfrom addr failed".
Definition msg_region_failed : string := "ltckpt recovery: failed: writelog: sys_safecopyfrom region failed".

(** [while (wl_position >= entry_size)] *)
Fixpoint restore_loop (e : renv) (fuel : nat) (i stack_entries : Z) (s : wlstate) : res loop_result :=
  if wl_position s >=? entry_size c then
    match fuel with
    | O => Stop FFuel
    | S fuel' =>
        let s1 := set_pos s (wl_position s - entry_size c) in
        let '(r, bytes) := sys_safecopyfrom e (wl_data s1 + wl_position s1) (Z.to_nat (sizeof_ptr c)) in
        if negb (r =? OK) then Ret (LoopFailed r msg_addr_failed s1)
        else
          let addr := le_join bytes in
          if negb (ltckpt_can_restore e (wl_data s1) addr) then
            restore_loop e fuel' (i + 1) stack_entries s1
          else if addr >? datamax e then
            restore_loop e fuel' (i + 1) (stack_entries + 1) s1
          else if negb (addr =? 0) then
            let region := wl_data s1 + (wl_position s1 + sizeof_ptr c) in
            let '(r, bytes) := sys_safecopyfrom e region 8 in
            if negb (r =? OK) then Ret (LoopFailed r msg_region_failed s1)
            else restore_loop e fuel' (i + 1) stack_entries
                   (set_mem s1 (store_bytes (wmem s1) addr bytes))
          else restore_loop e fuel' (i + 1) stack_entries s1
    end
  else Ret (LoopDone i stack_entries s).

Definition success_message (num_entries stack_entries : Z) : res string :=
  let p := hypermem_cat 1024 "" "ltckpt recovery: success: writelog: " in
  let! p := hypermem_cat_num 1024 p (num_entries - stack_entries) in
  let p := hypermem_cat 1024 p " log entries, " in
  let! p := hypermem_cat_num 1024 p stack_entries in
  Ret (hypermem_cat 1024 p " stack entries").

(** [LTCKPT_DECLARE_RESTART_HOOK]: return value, final state and the
    messages printed through [hypermem_log]. *)
Definition ltckpt_restart_hook (e : renv) (s : wlstate) : res (Z * wlstate * list string) :=
  let log := hypermem_log (g_module_name e) in
  let out0 := [log "ltckpt recovery: start: writelog"] in
  let s1 := set_enabled s false in
  if negb (sys_safecopyto_enabled e =? OK) then
    Ret (sys_safecopyto_enabled e, s1,
         out0 ++ [log "ltckpt recovery: failed: writelog: sys_safecopyto failed"])
  else
    let '(r, s2) := identity_state_transfer e (set_enabled s1 false) in
    if negb (r =? OK) then
      Ret (r, s2, out0 ++ [log "ltckpt recovery: failed: writelog: identity state transfer failed"])
    else
      let num_entries := wl_position s2 / entry_size c in
      assert! (wl_position s2 `mod` entry_size c =? 0) in
      let! lr := restore_loop e (Z.to_nat num_entries) 0 0 s2 in
      match lr with
      | LoopFailed r msg s3 => Ret (r, s3, out0 ++ [log msg])
      | LoopDone i stack_entries s3 =>
          assert! (i =? num_entries) && (wl_position s3 =? 0) in
          let! msg := success_message num_entries stack_entries in
          Ret (0, s3, out0 ++ [log msg])
      end.
End Writelog.

(** ** Initialisation *)

Section Init.
Variable c : wlconf.

(** [LTCKPT_RESTARTING]: the answers of [sys_whoami] and of
    [ltckpt_is_mapped (WRITELOG_START)]. *)
Definition LTCKPT_RESTARTING (whoami_r : Z) (root_sys_proc is_rs is_mapped : bool)
    (s : wlstate) : res (bool * wlstate) :=
  if is_mapped then
    Ret (true, {| wmem := wmem s; wl_data := WRITELOG_START c; wl_position := wl_position s;
                  wl_position_high_watermark := wl_position_high_watermark s;
                  ltckpt_writelog_enabled := ltckpt_writelog_enabled s;
                  win := win s; wctx := wctx s |})
  else if negb (whoami_r =? OK) then Stop FAssert
  else Ret (root_sys_proc && negb is_rs, s).

(** [LTCKPT_DECLARE_LATE_INIT_HOOK] *)
Definition ltckpt_late_init_hook (is_vm : bool) (whoami_r : Z)
    (root_sys_proc is_rs is_mapped : bool) (mmap_ret : option Z) (s : wlstate) : res wlstate :=
  if is_vm then Ret s
  else
    let! rs := LTCKPT_RESTARTING whoami_r root_sys_proc is_rs is_mapped s in
    if rs.1 then Ret rs.2 else ltckpt_init_writelog c mmap_ret rs.2.

(** [ltckpt_undolog_vm_late_init]: [is_hole] is [vm_is_hole]'s answer and
    [alloc_ret] what [vm_allocpages_at] returned. *)
Definition ltckpt_undolog_vm_late_init (is_hole : bool) (alloc_ret : Z) (s : wlstate) : res wlstate :=
  if negb is_hole then Ret s
  else if negb (alloc_ret =? 0) then
    Ret {| wmem := wmem s; wl_data := alloc_ret; wl_position := wl_position s;
           wl_position_high_watermark := wl_position_high_watermark s;
           ltckpt_writelog_enabled := ltckpt_writelog_enabled s; win := win s; wctx := wctx s |}
  else Stop FAssert.
End Init.

(** ** The program under the instrumentation *)

Definition op_hook (c : wlconf) (s : wlstate) (o : op) : res wlstate :=
  match o with
  | OStore a _ => ltckpt_store_hook c s a
  | OMemcpy a bs => ltckpt_memcpy_hook c s a (Z.of_nat (length bs))
  end.

Definition run_op (c : wlconf) (s : wlstate) (o : op) : res wlstate :=
  let! s' := op_hook c s o in
  Ret (set_mem s' (store_bytes (wmem s') (op_addr o) (op_bytes o))).

Definition run_ops (c : wlconf) (s : wlstate) (os : list op) : res wlstate :=
  res_foldl (run_op c) s os.

(** ** Abstract log *)

Abbreviation entry := (Z * list Z)%type.

Definition in_log (c : wlconf) (x : Z) : Prop :=
  WRITELOG_START c ≤ x < WRITELOG_START c + WRITELOG_BYTES c.

(** The [k]-th entry of the in-memory log. *)
Definition log_entry (c : wlconf) (m : mem) (k : nat) : entry :=
  let p := WRITELOG_START c + Z.of_nat k * entry_size c in
  (le_join (load_bytes m p (Z.to_nat (sizeof_ptr c))), load_bytes m (p + sizeof_ptr c) 8).

(** The first [n] entries, newest first. *)
Fixpoint log_entries (c : wlconf) (m : mem) (n : nat) : list entry :=
  match n with
  | O => []
  | S k => log_entry c m k :: log_entries c m k
  end.

Fixpoint undo (es : list entry) (m : mem) : mem :=
  match es with
  | [] => m
  | e :: es' => undo es' (store_bytes m e.1 e.2)
  end.

Definition covers (e : entry) (x : Z) : Prop := e.1 ≤ x < e.1 + Z.of_nat (length e.2).
Definition covered (es : list entry) (x : Z) : Prop := Exists (λ e, covers e x) es.

Record conf_ok (c : wlconf) : Prop := {
  co_start : 0 < WRITELOG_START c;
  co_start8 : WRITELOG_START c `mod` 8 = 0;
  co_bytes8 : WRITELOG_BYTES c `mod` 8 = 0;
  co_len : 0 < WRITELOG_MAXLEN c;
  co_ptr : 0 < sizeof_ptr c ≤ 8;
  co_end : WRITELOG_START c + WRITELOG_BYTES c + entry_size c < 2^(8 * sizeof_ptr c);
}.

(** An entry the log can hold: an aligned, addressable region outside it. *)
Definition entry_ok (c : wlconf) (e : entry) : Prop :=
  length e.2 = 8%nat ∧ e.1 `mod` 8 = 0 ∧ 0 ≤ e.1 < 2^(8 * sizeof_ptr c) ∧
  (e.1 + 8 ≤ WRITELOG_START c ∨ WRITELOG_START c + WRITELOG_BYTES c ≤ e.1).

(** The memory log of [s] is the abstract log [es]. *)
Record rep (c : wlconf) (s : wlstate) (es : list entry) : Prop := {
  rep_data : wl_data s = WRITELOG_START c;
  rep_pos : wl_position s = Z.of_nat (length es) * entry_size c;
  rep_len : Z.of_nat (length es) ≤ WRITELOG_MAXLEN c;
  rep_log : log_entries c (wmem s) (length es) = es;
  rep_ok : Forall (entry_ok c) es;
}.

(** ** Lemmas on the abstract log *)

Lemma undo_ext es m m' x : m x = m' x → undo es m x = undo es m' x.
Proof.
  revert m m'. induction es as [|e es IH]; intros m m' H; simpl; [done|].
  apply IH. destruct (decide (covers e x)) as [Hc|Hc]; unfold covers in Hc.
  - destruct (lookup_lt_is_Some_2 e.2 (Z.to_nat (x - e.1))) as [b Hb]; [lia|].
    replace x with (e.1 + Z.of_nat (Z.to_nat (x - e.1))) by lia.
    by rewrite !(store_bytes_in _ _ _ _ _ Hb).
  - rewrite !store_bytes_out by lia. done.
Qed.

Lemma store_bytes_covered m m' e x :
  covers e x → store_bytes m e.1 e.2 x = store_bytes m' e.1 e.2 x.
Proof.
  intros Hc. unfold covers in Hc.
  destruct (lookup_lt_is_Some_2 e.2 (Z.to_nat (x - e.1))) as [b Hb]; [lia|].
  replace x with (e.1 + Z.of_nat (Z.to_nat (x - e.1))) by lia.
  by rewrite !(store_bytes_in _ _ _ _ _ Hb).
Qed.

(** What the program writes to a covered address is forgotten. *)
Lemma undo_covered es m m' x : covered es x → undo es m x = undo es m' x.
Proof.
  intros H. revert m m'. induction H as [e es He | e es _ IH]; intros m m'; simpl.
  - apply undo_ext. by apply store_bytes_covered.
  - apply IH.
Qed.

(** Writing back what is there changes nothing. *)
Lemma store_load_id m a n x : store_bytes m a (load_bytes m a n) x = m x.
Proof.
  destruct (decide (a ≤ x < a + Z.of_nat n)).
  - change (store_bytes m a (load_bytes m a n)) with (mem_copy m a m a n).
    rewrite mem_copy_in by lia. f_equal. lia.
  - apply store_bytes_out. rewrite length_load_bytes. lia.
Qed.

Lemma log_entries_ext c m m' n :
  0 < sizeof_ptr c ≤ 8 →
  (∀ x, WRITELOG_START c ≤ x < WRITELOG_START c + Z.of_nat n * entry_size c → m x = m' x) →
  log_entries c m n = log_entries c m' n.
Proof.
  intros Hp. induction n as [|k IH]; intros H; simpl; [done|].
  unfold entry_size, WRITELOG_GRANULARITY in *. f_equal.
  - unfold log_entry. f_equal; [f_equal|]; apply load_bytes_ext; intros; apply H;
      unfold entry_size, WRITELOG_GRANULARITY in *; nia.
  - apply IH. intros. apply H. nia.
Qed.

Lemma WRITELOG_BYTES_entry c : WRITELOG_BYTES c = WRITELOG_MAXLEN c * entry_size c.
Proof. unfold WRITELOG_BYTES, entry_size. ring. Qed.

(** ** One append *)

Section Append.
Context (c : wlconf) (Hc : conf_ok c).

Lemma entry_size_pos : 8 < entry_size c.
Proof. destruct Hc. unfold entry_size, WRITELOG_GRANULARITY. lia. Qed.

Lemma pow_256_ptr : 256 ^ Z.of_nat (Z.to_nat (sizeof_ptr c)) = 2^(8 * sizeof_ptr c).
Proof. destruct Hc. rewrite Z2Nat.id by lia. change 256 with (2^8). by rewrite <- Z.pow_mul_r by lia. Qed.

(** The region of an address is aligned, and outside the log when the check
    of [ltckpt_write_wl] passes. *)
Lemma region_entry_ok addr0 d :
  0 ≤ addr0 < 2^(8 * sizeof_ptr c) → length d = 8%nat →
  (WRITELOG_START c <=? align_down 3 addr0)
    && (align_down 3 addr0 <? WRITELOG_START c + WRITELOG_BYTES c) = false →
  entry_ok c (align_down 3 addr0, d).
Proof.
  intros Ha Hd Hout. rewrite align_down_8 in *. destruct Hc as [_ Hs8 Hb8 _ _ _].
  assert (Hm : 0 ≤ addr0 `mod` 8 < 8) by (apply Z.mod_pos_bound; lia).
  assert (Hr : (addr0 - addr0 `mod` 8) `mod` 8 = 0).
  { rewrite Zminus_mod, Z.mod_mod, Z.sub_diag by lia. done. }
  split; [done|]. cbn [fst snd]. split; [done|]. split.
  - split; [|lia]. pose proof (Z.mod_le addr0 8). lia.
  - revert Hs8 Hb8. zb.
    intros Hs Hb. pose proof (Z.div_mod (addr0 - addr0 `mod` 8) 8 ltac:(lia)).
    pose proof (Z.div_mod (WRITELOG_START c) 8 ltac:(lia)). lia.
Qed.

(** The bytes [ltckpt_write_wl] leaves in memory: the log slot holds the
    entry, everything else is unchanged. *)
Lemma append_mem m a pos :
  entry_ok c (a, load_bytes m a 8) →
  0 ≤ pos → pos + entry_size c ≤ WRITELOG_BYTES c →
  let slot := WRITELOG_START c + pos in
  let region := WRITELOG_START c + (pos + sizeof_ptr c) in
  let m1 := store_bytes m slot (le_split (Z.to_nat (sizeof_ptr c)) a) in
  let m2 := mem_copy m1 a m1 region 8 in
  le_join (load_bytes m2 slot (Z.to_nat (sizeof_ptr c))) = a ∧
  load_bytes m2 (slot + sizeof_ptr c) 8 = load_bytes m a 8 ∧
  (∀ x, x < slot ∨ slot + entry_size c ≤ x → m2 x = m x).
Proof.
  intros (_ & _ & Ha & Hout) Hp Hmax slot region m1 m2. destruct Hc.
  unfold entry_size, WRITELOG_GRANULARITY in Hmax. cbn [fst] in *.
  assert (H1 : ∀ x, x < slot ∨ slot + sizeof_ptr c ≤ x → m1 x = m x).
  { intros x Hx. apply store_bytes_out. rewrite length_le_split. lia. }
  assert (Ha8 : load_bytes m1 a 8 = load_bytes m a 8).
  { apply load_bytes_ext. intros x Hx. apply H1. subst slot. lia. }
  split_and!.
  - transitivity (le_join (load_bytes m1 slot (Z.to_nat (sizeof_ptr c)))).
    { f_equal. apply load_bytes_ext. intros x Hx. apply mem_copy_out. subst slot region. lia. }
    subst m1. rewrite <- (length_le_split (Z.to_nat (sizeof_ptr c)) a) at 2.
    rewrite load_store_same. apply le_join_split_small. rewrite pow_256_ptr. lia.
  - rewrite <- Ha8. subst m2. unfold mem_copy.
    replace (slot + sizeof_ptr c) with region by (subst slot region; lia).
    rewrite <- (length_load_bytes m1 a 8) at 2. apply load_store_same.
  - intros x Hx. subst m2. unfold entry_size, WRITELOG_GRANULARITY in Hx.
    rewrite mem_copy_out by (subst slot region; lia). apply H1. lia.
Qed.

Lemma write_wl_closed s addr :
  wl_data s = WRITELOG_START c → sa_window__is_open (win s) = false →
  ltckpt_write_wl c s addr = Ret s.
Proof.
  intros Hd Hw. unfold ltckpt_write_wl. rewrite Hd, Hw. destruct Hc.
  by destruct (Z.eqb_spec (WRITELOG_START c) 0); [lia|].
Qed.

(** With the window open and room in the log, the append pushes the old
    contents of the region; the window closes exactly when the log is full. *)
Lemma write_wl_rep s es addr s' :
  rep c s es → sa_window__is_open (win s) = true →
  Z.of_nat (length es) < WRITELOG_MAXLEN c →
  0 ≤ addr < 2^(8 * sizeof_ptr c) →
  ltckpt_write_wl c s addr = Ret s' →
  rep c s' ((align_down 3 addr, load_bytes (wmem s) (align_down 3 addr) 8) :: es) ∧
  (∀ x, ¬ in_log c x → wmem s' x = wmem s x) ∧
  ltckpt_writelog_enabled s' = ltckpt_writelog_enabled s ∧
  wctx s' = wctx s ∧
  win s' = (if Z.of_nat (length es) + 1 =? WRITELOG_MAXLEN c
            then close_on_overflow (win s) else win s).
Proof.
  intros [Hd Hpos Hlen Hlog Hok] Hw Hroom Ha Hwr. unfold ltckpt_write_wl in Hwr.
  rewrite Hd, Hw in Hwr. simpl negb in Hwr.
  pose proof entry_size_pos as Hes. pose proof (WRITELOG_BYTES_entry c) as HB.
  destruct (Z.eqb_spec (WRITELOG_START c) 0) as [|_]; [done|]. simpl in Hwr.
  destruct ((_ <=? _) && (_ <? _)) eqn:Hout; [done|].
  set (a := align_down 3 addr) in *.
  assert (Heok : entry_ok c (a, load_bytes (wmem s) a 8)).
  { apply region_entry_ok; [done|apply length_load_bytes|done]. }
  assert (Hfit : wl_position s + entry_size c ≤ WRITELOG_BYTES c) by (rewrite Hpos, HB; nia).
  assert (Hp0 : 0 ≤ wl_position s) by (rewrite Hpos; nia).
  destruct (append_mem (wmem s) a (wl_position s) Heok Hp0 Hfit) as (Hj & Hr & Hm).
  rewrite (ulong_small _ (wl_position s + _)) in Hwr by (destruct Hc; lia).
  cbv zeta in Hwr. set (m2 := mem_copy _ _ _ _ _) in *.
  assert (Hrep : ∀ w, rep c (set_win (set_pos (set_mem s m2) (wl_position s + entry_size c)) w)
                   ((a, load_bytes (wmem s) a 8) :: es)).
  { intros w. constructor; simpl; try done.
    - rewrite Hpos. lia.
    - lia.
    - f_equal.
      + unfold log_entry. rewrite <- Hpos, Hj, Hr. done.
      + rewrite <- Hlog at 2. apply log_entries_ext; [by destruct Hc|].
        intros x Hx. apply Hm. lia.
    - by constructor. }
  assert (Hmem : ∀ x, ¬ in_log c x → m2 x = wmem s x).
  { intros x Hx. apply Hm. unfold in_log in Hx. lia. }
  assert (Heq : (wl_position s + entry_size c >=? WRITELOG_BYTES c)
                = (Z.of_nat (length es) + 1 =? WRITELOG_MAXLEN c)).
  { rewrite Hpos, HB. apply eq_true_iff_eq. rewrite Z.geb_le, Z.eqb_eq. nia. }
  rewrite Heq in Hwr. destruct (_ =? WRITELOG_MAXLEN c); injection Hwr as <-.
  - split; [apply Hrep|]. done.
  - split; [apply (Hrep (win s))|]. done.
Qed.
End Append.

(** ** Sequences of appends *)

Section Appends.
Context (c : wlconf) (Hc : conf_ok c).

(** The log is live: it represents [es], replaying it gives back [m0]
    outside the log, and an open window has room for an entry. *)
Record live (m0 : mem) (s : wlstate) (es : list entry) : Prop := {
  live_rep : rep c s es;
  live_undo : ∀ x, ¬ in_log c x → undo es (wmem s) x = m0 x;
  live_room : sa_window__is_open (win s) = true → Z.of_nat (length es) < WRITELOG_MAXLEN c;
}.

Lemma write_wl_open s addr s' :
  ltckpt_write_wl c s addr = Ret s' →
  sa_window__is_open (win s') = true → sa_window__is_open (win s) = true.
Proof.
  unfold ltckpt_write_wl. intros H Ho. res_inv; try done; by apply negb_false_iff.
Qed.

Lemma live_write m0 s es addr s' :
  live m0 s es → sa_window__is_open (win s') = true →
  0 ≤ addr < 2^(8 * sizeof_ptr c) →
  ltckpt_write_wl c s addr = Ret s' →
  live m0 s' ((align_down 3 addr, load_bytes (wmem s) (align_down 3 addr) 8) :: es) ∧
  (∀ x, ¬ in_log c x → wmem s' x = wmem s x) ∧
  ltckpt_writelog_enabled s' = ltckpt_writelog_enabled s.
Proof.
  intros [Hrep Hundo Hroom] Ho' Ha Hwr. pose proof (write_wl_open _ _ _ Hwr Ho') as Ho.
  destruct (write_wl_rep c Hc s es addr s' Hrep Ho (Hroom Ho) Ha Hwr)
    as (Hrep' & Hmem & Hen & _ & Hwin).
  split_and!; [|done|done]. constructor; [done| |].
  - intros x Hx. rewrite <- (Hundo x Hx). cbn [undo fst snd]. apply undo_ext.
    set (a := align_down 3 addr). destruct (decide (a ≤ x < a + 8)).
    + transitivity (store_bytes (wmem s) a (load_bytes (wmem s) a 8) x).
      * apply (store_bytes_covered _ _ (a, load_bytes (wmem s) a 8)).
        unfold covers. cbn [fst snd]. rewrite length_load_bytes. lia.
      * apply store_load_id.
    + rewrite store_bytes_out by (rewrite length_load_bytes; lia). auto.
  - intros _. simpl. specialize (Hroom Ho). rewrite Hwin in Ho'.
    destruct (Z.eqb_spec (Z.of_nat (length es) + 1) (WRITELOG_MAXLEN c)); [done|lia].
Qed.

(** The entries the memcpy loop pushes, from the memory at its start. *)
Fixpoint region_entries (m : mem) (reg : Z) (n : nat) (es : list entry) : list entry :=
  match n with
  | O => es
  | S n' => region_entries m (reg + 8) n'
              ((align_down 3 reg, load_bytes m (align_down 3 reg) 8) :: es)
  end.

Lemma region_entries_covered m reg n es x :
  covered (region_entries m reg n es) x ↔
  covered es x ∨ ∃ k, 0 ≤ k < Z.of_nat n ∧
    align_down 3 (reg + 8 * k) ≤ x < align_down 3 (reg + 8 * k) + 8.
Proof.
  revert reg es. induction n as [|n IH]; intros reg es; cbn [region_entries].
  { split; [by left|]. intros [?|(k & ? & _)]; [done|lia]. }
  rewrite IH. unfold covered at 1. rewrite Exists_cons. unfold covers at 1.
  cbn [fst snd]. rewrite length_load_bytes. split.
  - intros [[H|H]|(k & Hk & Hx)].
    + right. exists 0. rewrite Z.mul_0_r, Z.add_0_r. lia.
    + by left.
    + right. exists (k + 1). split; [lia|]. by replace (reg + 8 * (k + 1)) with (reg + 8 + 8 * k) by lia.
  - intros [H|(k & Hk & Hx)]; [by left; right|].
    destruct (decide (k = 0)) as [->|].
    + left. left. rewrite Z.mul_0_r, Z.add_0_r in Hx. lia.
    + right. exists (k - 1). split; [lia|]. by replace (reg + 8 + 8 * (k - 1)) with (reg + 8 * k) by lia.
Qed.

Lemma memcpy_loop_open fuel s reg end_ s' :
  memcpy_loop c fuel s reg end_ = Ret s' →
  sa_window__is_open (win s') = true → sa_window__is_open (win s) = true.
Proof.
  revert s reg. induction fuel as [|fuel IH]; intros s reg H Ho; simpl in H.
  - destruct (reg <? end_); [done|]. by injection H as <-.
  - destruct (reg <? end_); [|by injection H as <-]. res_inv. eauto using write_wl_open.
Qed.

Lemma memcpy_fuel_S reg end_ :
  reg < end_ → memcpy_fuel reg end_ = S (memcpy_fuel (reg + 8) end_).
Proof.
  intros H. unfold memcpy_fuel. replace (end_ - (reg + 8) + 7) with (end_ - reg + 7 + (-1) * 8) by lia.
  rewrite Z.div_add by lia. assert (1 ≤ (end_ - reg + 7) / 8) by (apply Z.div_le_lower_bound; lia). lia.
Qed.
Lemma memcpy_fuel_0 reg end_ : end_ ≤ reg → memcpy_fuel reg end_ = 0%nat.
Proof.
  intros H. unfold memcpy_fuel. assert ((end_ - reg + 7) / 8 < 1) by (apply Z.div_lt_upper_bound; lia). lia.
Qed.

Lemma live_memcpy_loop m0 m fuel s reg end_ es s' :
  live m0 s es → sa_window__is_open (win s') = true →
  0 ≤ reg → end_ ≤ 2^(8 * sizeof_ptr c) → fuel = memcpy_fuel reg end_ →
  (∀ x, ¬ in_log c x → wmem s x = m x) →
  memcpy_loop c fuel s reg end_ = Ret s' →
  live m0 s' (region_entries m reg fuel es) ∧
  (∀ x, ¬ in_log c x → wmem s' x = m x) ∧
  ltckpt_writelog_enabled s' = ltckpt_writelog_enabled s.
Proof.
  revert s reg es. induction fuel as [|fuel IH]; intros s reg es Hl Ho' Hr0 Hend Hf Hm H; simpl in H.
  - destruct (reg <? end_); [done|]. by injection H as <-.
  - destruct (Z.ltb_spec reg end_) as [Hlt|Hge]; [|by rewrite memcpy_fuel_0 in Hf by lia].
    res_inv. rename x into s1. rewrite memcpy_fuel_S in Hf by lia. injection Hf as Hf.
    match goal with HW : ltckpt_write_wl _ _ _ = _, HL : memcpy_loop _ _ _ _ _ = _ |- _ =>
      rename HW into Hwr; rename HL into Hlp end.
    pose proof (memcpy_loop_open _ _ _ _ _ Hlp Ho') as Ho1.
    destruct (live_write m0 s es reg s1 Hl Ho1 ltac:(lia) Hwr) as (Hl1 & Hm1 & He1).
    assert (Hd : load_bytes (wmem s) (align_down 3 reg) 8 = load_bytes m (align_down 3 reg) 8).
    { apply load_bytes_ext. intros x Hx. apply Hm. unfold in_log.
      pose proof (Forall_inv (rep_ok c s1 _ (live_rep _ _ _ Hl1))) as (_ & _ & _ & Hout).
      cbn [fst] in Hout. lia. }
    rewrite Hd in Hl1. cbn [region_entries]. rewrite <- He1.
    apply (IH s1 (reg + 8)); try done; try lia.
    intros x Hx. rewrite Hm1; auto.
Qed.
End Appends.

(** ** The instrumented program *)

(** When the memcpy hook covers all [n] bytes at [a].  It steps from
    [a & ~3] in 8-byte steps, so a block that starts in the upper half of a
    region is only covered if it also ends in the upper half of one. *)
Definition memcpy_covers (a n : Z) : Prop :=
  n = 0 ∨ a `mod` 8 < 4 ∨ 4 ≤ (a + n - 1) `mod` 8.

Definition op_ok (c : wlconf) (o : op) : Prop :=
  0 ≤ op_addr o ∧ op_addr o + op_size o ≤ 2^(8 * sizeof_ptr c) ∧
  match o with
  | OStore a bs => bs ≠ [] ∧ a `mod` 8 + op_size o ≤ 8
  | OMemcpy a bs => memcpy_covers a (op_size o)
  end.

Section Program.
Context (c : wlconf) (Hc : conf_ok c).

Lemma covered_not_in_log es x : Forall (entry_ok c) es → covered es x → ¬ in_log c x.
Proof.
  intros Hok Hx. unfold covered in Hx. rewrite Exists_exists in Hx. destruct Hx as (e & He & Hx).
  rewrite Forall_forall in Hok. destruct (Hok e He) as (Hl & _ & _ & Hout).
  unfold covers in Hx. rewrite Hl in Hx. unfold in_log. lia.
Qed.

(** A write to covered addresses keeps the log live. *)
Lemma live_program_write m0 s es a bs :
  live c m0 s es →
  (∀ x, a ≤ x < a + Z.of_nat (length bs) → covered es x) →
  live c m0 (set_mem s (store_bytes (wmem s) a bs)) es.
Proof.
  intros [[Hd Hp Hl Hlog Hok] Hundo Hroom] Hcov. constructor; [|..]; simpl; try done.
  - constructor; simpl; try done.
    rewrite <- Hlog at 2. apply log_entries_ext; [by destruct Hc|].
    intros x Hx. apply store_bytes_out.
    destruct (decide (a ≤ x < a + Z.of_nat (length bs))) as [Hin|]; [|lia].
    exfalso. apply (covered_not_in_log es x Hok (Hcov x Hin)). unfold in_log.
    rewrite WRITELOG_BYTES_entry. pose proof (entry_size_pos c Hc). nia.
  - intros x Hx. destruct (decide (a ≤ x < a + Z.of_nat (length bs))) as [Hin|].
    + rewrite <- (Hundo x Hx). by apply undo_covered, Hcov.
    + rewrite <- (Hundo x Hx). apply undo_ext, store_bytes_out. lia.
Qed.

(** Every byte of a covered block is in a logged region. *)
Lemma memcpy_regions_cover a n x :
  memcpy_covers a n → a ≤ x < a + n →
  ∃ k, 0 ≤ k < Z.of_nat (memcpy_fuel (align_down 2 a) (a + n)) ∧
    align_down 3 (align_down 2 a + 8 * k) ≤ x < align_down 3 (align_down 2 a + 8 * k) + 8.
Proof.
  intros Hcov Hx. rewrite align_down_4. setoid_rewrite align_down_8. unfold memcpy_fuel.
  exists (x / 8 - a / 8). unfold memcpy_covers in Hcov.
  Z.to_euclidean_division_equations. lia.
Qed.

Lemma live_op_hook m0 s es o s' :
  live c m0 s es → ltckpt_writelog_enabled s = true → op_ok c o →
  op_hook c s o = Ret s' → sa_window__is_open (win s') = true →
  ∃ es', live c m0 s' es' ∧ ltckpt_writelog_enabled s' = true ∧
    (∀ x, op_addr o ≤ x < op_addr o + op_size o → covered es' x) ∧
    (∀ x, ¬ in_log c x → wmem s' x = wmem s x).
Proof.
  intros Hl Hen (H0 & H1 & Hok) Hh Ho. destruct o as [a bs|a bs]; simpl in *.
  - destruct Hok as [Hne Hfit]. destruct bs as [|b bs]; [done|].
    unfold ltckpt_store_hook in Hh. rewrite Hen in Hh. unfold op_size in *. simpl in *.
    destruct (live_write c Hc m0 s es a s' Hl Ho ltac:(lia) Hh) as (Hl' & Hm & He).
    eexists. split_and!; [exact Hl'|by rewrite He| |done].
    intros x Hx. left. unfold covers. cbn [fst snd]. rewrite length_load_bytes, align_down_8.
    pose proof (Z.mod_pos_bound a 8). lia.
  - unfold ltckpt_memcpy_hook in Hh. rewrite Hen in Hh. simpl in Hh. fold (op_size (OMemcpy a bs)) in Hh.
    destruct (live_memcpy_loop c Hc m0 (wmem s) _ s (align_down 2 a) _ es s' Hl Ho
                ltac:(rewrite align_down_4; pose proof (Z.mod_le a 4); lia) H1 eq_refl (λ _ _, eq_refl) Hh)
      as (Hl' & Hm & He).
    eexists. split_and!; [exact Hl'|by rewrite He| |done].
    intros x Hx. apply region_entries_covered. right. by apply memcpy_regions_cover.
Qed.

Lemma op_hook_open s o s' :
  op_hook c s o = Ret s' → sa_window__is_open (win s') = true →
  sa_window__is_open (win s) = true.
Proof.
  destruct o; simpl.
  - unfold ltckpt_store_hook. destruct (ltckpt_writelog_enabled s).
    + apply write_wl_open.
    + by intros [= <-].
  - unfold ltckpt_memcpy_hook. destruct (ltckpt_writelog_enabled s); simpl.
    + apply memcpy_loop_open.
    + by intros [= <-].
Qed.

Lemma run_op_inv s o s' :
  run_op c s o = Ret s' →
  ∃ s1, op_hook c s o = Ret s1 ∧ s' = set_mem s1 (store_bytes (wmem s1) (op_addr o) (op_bytes o)).
Proof. intros H. apply res_bind_inv in H as (s1 & ? & H). injection H as <-. eauto. Qed.

Lemma run_ops_open os s s' :
  run_ops c s os = Ret s' → sa_window__is_open (win s') = true →
  sa_window__is_open (win s) = true.
Proof.
  revert s. induction os as [|o os IH]; intros s H Ho; simpl in H.
  - by injection H as <-.
  - apply res_bind_inv in H as (s1 & Hs1 & H). apply run_op_inv in Hs1 as (s2 & Hh & ->).
    apply IH in H; [|done]. eauto using op_hook_open.
Qed.

Lemma live_run_ops m0 os s es s' :
  live c m0 s es → ltckpt_writelog_enabled s = true → Forall (op_ok c) os →
  run_ops c s os = Ret s' → sa_window__is_open (win s') = true →
  ∃ es', live c m0 s' es' ∧ ltckpt_writelog_enabled s' = true.
Proof.
  revert s es. induction os as [|o os IH]; intros s es Hl Hen Hok H Ho; simpl in H.
  { injection H as <-. eauto. }
  apply Forall_cons in Hok as [Hok1 Hok]. apply res_bind_inv in H as (s2 & Hs1 & H).
  apply run_op_inv in Hs1 as (s1 & Hh & ->).
  assert (Ho1 : sa_window__is_open (win s1) = true) by (by apply run_ops_open in H).
  destruct (live_op_hook m0 s es o s1 Hl Hen Hok1 Hh Ho1) as (es1 & Hl1 & Hen1 & Hcov & _).
  eapply IH; [by apply live_program_write|..]; eauto.
Qed.

Lemma live_top_of_the_loop s :
  wl_data s = WRITELOG_START c → Ctx.checkpoint_interval (wctx s) = 1 →
  live c (wmem s) (ltckpt_top_of_the_loop c s) [] ∧
  ltckpt_writelog_enabled (ltckpt_top_of_the_loop c s) = true ∧
  win (ltckpt_top_of_the_loop c s) = win s ∧ wmem (ltckpt_top_of_the_loop c s) = wmem s.
Proof.
  intros Hd Hi. unfold ltckpt_top_of_the_loop.
  assert (Hi' : Ctx.checkpoint_interval (Ctx.CTX_NEW_LOG_SIZE (wl_position s) (wctx s)) = 1).
  { unfold Ctx.CTX_NEW_LOG_SIZE. by destruct (_ >? _). }
  rewrite Ctx.tol_interval_1 by (destruct Hc; done || lia). simpl.
  split; [|done]. constructor; simpl; try done; [constructor; simpl; try done|];
    destruct Hc; simpl in *; lia.
Qed.
End Program.

(** ** Restart *)

(** What the restart hook relies on: the kernel's copy primitives succeed and
    read the old process, and SEF's identity transfer gives the new process
    the old one's data (the log area apart, which is read by copies). *)
Record renv_ok (c : wlconf) (e : renv) (old : wlstate) : Prop := {
  re_to : sys_safecopyto_enabled e = OK;
  re_from : ∀ src n, sys_safecopyfrom e src n = (OK, load_bytes (wmem old) src n);
  re_id : ∀ s, ∃ s2, identity_state_transfer e s = (OK, s2) ∧
            wl_data s2 = wl_data old ∧ wl_position s2 = wl_position old ∧
            ∀ x, ¬ in_log c x → wmem s2 x = wmem old x;
}.

(** Addresses whose region the restart hook writes back. *)
Definition restorable (c : wlconf) (e : renv) (x : Z) : Prop :=
  ltckpt_can_restore c e (WRITELOG_START c) (align_down 3 x) = true ∧
  align_down 3 x ≤ datamax e ∧ align_down 3 x ≠ 0.

Section Restart.
Context (c : wlconf) (Hc : conf_ok c) (e : renv).

Lemma entry_covers_align en x :
  entry_ok c en → covers en x → en.1 = align_down 3 x.
Proof.
  intros (Hl & Ha & _ & _) Hx. unfold covers in Hx. rewrite Hl in Hx. rewrite align_down_8.
  Z.to_euclidean_division_equations. lia.
Qed.

Context (mo : mem).
Context (Hcp : ∀ src n, sys_safecopyfrom e src n = (OK, load_bytes mo src n)).

(** An entry that is skipped covers no restorable address. *)
Lemma skipped_entry en m :
  entry_ok c en →
  (ltckpt_can_restore c e (WRITELOG_START c) en.1 = false ∨ datamax e < en.1 ∨ en.1 = 0) →
  ∀ x, restorable c e x → m x = store_bytes m en.1 en.2 x.
Proof.
  intros Hok Hskip x (Hr1 & Hr2 & Hr3). symmetry. apply store_bytes_out.
  destruct (decide (covers en x)) as [Hx|Hx]; [|unfold covers in Hx; lia].
  rewrite <- (entry_covers_align en x Hok Hx) in *.
  destruct Hskip as [Hs|[Hs|Hs]]; [by rewrite Hr1 in Hs|lia|done].
Qed.

(** One iteration, on the newest entry. *)
Lemma restore_step n s i st :
  wl_data s = WRITELOG_START c →
  wl_position s = Z.of_nat (S n) * entry_size c →
  entry_ok c (log_entry c mo n) →
  ∃ st1 s2,
    restore_loop c e (S n) i st s = restore_loop c e n (i + 1) st1 s2 ∧
    wl_data s2 = WRITELOG_START c ∧ wl_position s2 = Z.of_nat n * entry_size c ∧
    st ≤ st1 ≤ st + 1 ∧
    ∀ x, restorable c e x →
      wmem s2 x = store_bytes (wmem s) (log_entry c mo n).1 (log_entry c mo n).2 x.
Proof.
  intros Hd Hp Hok. pose proof (entry_size_pos c Hc) as Hes.
  set (s1 := set_pos s (wl_position s - entry_size c)).
  assert (Hp1 : wl_position s1 = Z.of_nat n * entry_size c) by (simpl; rewrite Hp; lia).
  pose proof (skipped_entry _ (wmem s) Hok) as Hskip.
  cbn [restore_loop]. destruct (Z.geb_spec (wl_position s) (entry_size c)); [|nia].
  fold s1. rewrite Hcp. cbn [negb Z.eqb OK].
  change (wl_data s1) with (wl_data s). rewrite Hd, Hp1.
  change (le_join (load_bytes mo _ _)) with (log_entry c mo n).1.
  destruct (ltckpt_can_restore c e (WRITELOG_START c) (log_entry c mo n).1); cbn [negb].
  2:{ exists st, s1. split_and!; try done; try lia. apply Hskip. by left. }
  destruct (Z.gtb_spec (log_entry c mo n).1 (datamax e)).
  1:{ exists (st + 1), s1. split_and!; try done; try lia. apply Hskip. right. left. lia. }
  destruct (Z.eqb_spec (log_entry c mo n).1 0); cbn [negb].
  1:{ exists st, s1. split_and!; try done; try lia. apply Hskip. by do 2 right. }
  rewrite Hcp. cbn [negb Z.eqb OK].
  exists st, (set_mem s1 (store_bytes (wmem s) (log_entry c mo n).1 (log_entry c mo n).2)).
  split_and!; try done; try lia. do 3 f_equal.
  unfold log_entry. cbn [snd]. f_equal. lia.
Qed.

(** The whole loop terminates, visits every entry and writes back what
    [undo] writes, at the restorable addresses. *)
Lemma restore_loop_spec es s i st :
  wl_data s = WRITELOG_START c →
  wl_position s = Z.of_nat (length es) * entry_size c →
  log_entries c mo (length es) = es → Forall (entry_ok c) es →
  ∃ st' s3, restore_loop c e (length es) i st s
              = Ret (LoopDone (i + Z.of_nat (length es)) st' s3) ∧
    wl_position s3 = 0 ∧ st ≤ st' ≤ st + Z.of_nat (length es) ∧
    ∀ x, restorable c e x → wmem s3 x = undo es (wmem s) x.
Proof.
  pose proof (entry_size_pos c Hc) as Hes. revert s i st.
  induction es as [|en es IH]; intros s i st Hd Hp Hlog Hok.
  { cbn [length] in *. exists st, s. cbn [restore_loop].
    destruct (Z.geb_spec (wl_position s) (entry_size c)); [lia|].
    rewrite Z.add_0_r. split_and!; try done; lia. }
  apply Forall_cons in Hok as [Hok1 Hok].
  cbn [length log_entries] in Hlog. injection Hlog as Hen Hlog. rewrite <- Hen in Hok1.
  destruct (restore_step (length es) s i st Hd Hp Hok1) as (st1 & s2 & Heq & Hd2 & Hp2 & Hst & Hm2).
  destruct (IH s2 (i + 1) st1 Hd2 Hp2 Hlog Hok) as (st' & s3 & Hr & Hp3 & Hst' & Hm3).
  exists st', s3. cbn [length]. rewrite Heq, Hr. split_and!; try done; try lia.
  - do 2 f_equal. lia.
  - intros x Hx. rewrite Hm3 by done. cbn [undo]. rewrite <- Hen. apply undo_ext. auto.
Qed.
End Restart.

(** The success message fits the number formatter. *)
Lemma success_message_ok n st :
  0 ≤ st ≤ n → n < 10^19 → ∃ msg, success_message n st = Ret msg.
Proof.
  intros Hst Hn. unfold success_message.
  rewrite hypermem_cat_num_ok by lia. cbn [res_bind].
  rewrite hypermem_cat_num_ok by lia. cbn [res_bind]. eauto.
Qed.

Lemma restart_hook_undo c e old es s :
  conf_ok c → rep c old es → renv_ok c e old →
  ∃ s3 out, ltckpt_restart_hook c e s = Ret (0, s3, out) ∧ wl_position s3 = 0 ∧
    ∀ x, restorable c e x → ¬ in_log c x → wmem s3 x = undo es (wmem old) x.
Proof.
  intros Hc [Hd Hp Hl Hlog Hok] [Hto Hfrom Hid]. unfold ltckpt_restart_hook. rewrite Hto.
  cbn [negb Z.eqb OK].
  destruct (Hid (set_enabled (set_enabled s false) false)) as (s2 & -> & Hd2 & Hp2 & Hm2).
  cbn [negb Z.eqb OK]. pose proof (entry_size_pos c Hc) as Hes.
  rewrite Hp2, Hp, Z.div_mul, Z.mod_mul by lia. cbn [Z.eqb]. rewrite Nat2Z.id.
  rewrite Hd in Hd2. rewrite Hp in Hp2.
  destruct (restore_loop_spec c Hc e (wmem old) Hfrom es s2 0 0 Hd2 Hp2 Hlog Hok)
    as (st & s3 & -> & Hp3 & Hst & Hm3).
  cbn [res_bind]. rewrite Z.add_0_l, Z.eqb_refl, Hp3. cbn [andb Z.eqb].
  assert (Hsmall : Z.of_nat (length es) < 10^19).
  { pose proof (WRITELOG_BYTES_entry c). destruct Hc.
    assert (2^(8 * sizeof_ptr c) ≤ 2^64) by (apply Z.pow_le_mono_r; lia). nia. }
  destruct (success_message_ok (Z.of_nat (length es)) st) as [msg ->]; [lia|done|].
  cbn [res_bind]. do 2 eexists. split; [done|]. split; [done|].
  intros x Hx Hx'. rewrite Hm3 by done. apply undo_ext. auto.
Qed.

(** ** Properties *)

Lemma can_restore_not_in_log c e x :
  conf_ok c → restorable c e x → ¬ in_log c x.
Proof.
  intros Hc (Hr & _ & _) Hx. unfold ltckpt_can_restore in Hr. rewrite align_down_8 in Hr.
  apply andb_true_iff in Hr as [Hr _]. apply andb_true_iff in Hr as [Hr _].
  apply andb_true_iff in Hr as [Hr _]. apply negb_true_iff in Hr.
  unfold ltckpt_overlaps in Hr. rewrite !Z.gtb_ltb in Hr. unfold in_log in Hx.
  pose proof (Z.mod_pos_bound x 8). destruct Hc. zb.
Qed.

(** C2: end-to-end rollback.  Take a checkpoint at the top of the loop, run any
    sequence of instrumented stores and block writes that the hooks cover,
    crash with the recovery window still open, and restart: the restart hook
    returns 0 and every restorable byte of the new process has the value it
    had at the checkpoint. *)
Theorem rollback_restores_checkpoint c e s os crashed fresh :
  conf_ok c → wl_data s = WRITELOG_START c → Ctx.checkpoint_interval (wctx s) = 1 →
  Forall (op_ok c) os →
  run_ops c (ltckpt_top_of_the_loop c s) os = Ret crashed →
  sa_window__is_open (win crashed) = true →
  renv_ok c e crashed →
  ∃ recovered out,
    ltckpt_restart_hook c e fresh = Ret (0, recovered, out) ∧
    wl_position recovered = 0 ∧
    ∀ x, restorable c e x → wmem recovered x = wmem s x.
Proof.
  intros Hc Hd Hi Hok Hrun Ho He.
  destruct (live_top_of_the_loop c Hc s Hd Hi) as (Hl & Hen & _ & _).
  destruct (live_run_ops c Hc (wmem s) os _ [] crashed Hl Hen Hok Hrun Ho) as (es & Hl' & _).
  destruct (restart_hook_undo c e crashed es fresh Hc (live_rep _ _ _ _ Hl') He)
    as (s3 & out & Hr & Hp & Hm).
  exists s3, out. split_and!; try done. intros x Hx.
  pose proof (can_restore_not_in_log c e x Hc Hx) as Hx'.
  rewrite Hm by done. by apply (live_undo _ _ _ _ Hl').
Qed.

(** Every branch of [ltckpt_write_wl].  A null log trips the assertion, a
    closed window makes it a no-op, a region inside the log panics; otherwise
    the in-memory log is refined by a push of the region's old contents on the
    abstract log, nothing outside the log area changes, and the window closes
    exactly when the last slot is used. *)
Theorem write_wl_spec c s es addr :
  conf_ok c → 0 ≤ addr < 2^(8 * sizeof_ptr c) →
  let a := align_down 3 addr in
  (wl_data s = 0 → ltckpt_write_wl c s addr = Stop FAssert) ∧
  (rep c s es → sa_window__is_open (win s) = false → ltckpt_write_wl c s addr = Ret s) ∧
  (rep c s es → sa_window__is_open (win s) = true → in_log c a →
     ltckpt_write_wl c s addr = Stop FAssert) ∧
  (rep c s es → sa_window__is_open (win s) = true → ¬ in_log c a →
     Z.of_nat (length es) < WRITELOG_MAXLEN c →
     ∃ s', ltckpt_write_wl c s addr = Ret s' ∧
       rep c s' ((a, load_bytes (wmem s) a 8) :: es) ∧
       (∀ x, ¬ in_log c x → wmem s' x = wmem s x) ∧
       win s' = (if Z.of_nat (length es) + 1 =? WRITELOG_MAXLEN c
                 then close_on_overflow (win s) else win s)).
Proof.
  intros Hc Ha a. split_and!.
  - intros H0. unfold ltckpt_write_wl. by rewrite H0.
  - intros Hr Hw. apply write_wl_closed; [done|apply (rep_data _ _ _ Hr)|done].
  - intros Hr Hw [H1 H2]. unfold ltckpt_write_wl. rewrite (rep_data _ _ _ Hr), Hw.
    destruct (Z.eqb_spec (WRITELOG_START c) 0); [done|]. simpl.
    by destruct (Z.leb_spec (WRITELOG_START c) (align_down 3 addr)),
      (Z.ltb_spec (align_down 3 addr) (WRITELOG_START c + WRITELOG_BYTES c)); subst a; try lia.
  - intros Hr Hw Hout Hroom.
    destruct (ltckpt_write_wl c s addr) as [s'|f] eqn:E.
    + exists s'. destruct (write_wl_rep c Hc s es addr s' Hr Hw Hroom Ha E) as (? & ? & _ & _ & ?). auto.
    + exfalso. unfold ltckpt_write_wl in E. rewrite (rep_data _ _ _ Hr), Hw in E. simpl in E.
      destruct (Z.eqb_spec (WRITELOG_START c) 0); [destruct Hc; lia|]. simpl in E.
      destruct ((_ <=? _) && (_ <? _)) eqn:Hin; [|by destruct (_ >=? _) in E].
      apply Hout. unfold in_log. subst a. zb.
Qed.

Lemma write_wl_win c s addr s' :
  ltckpt_write_wl c s addr = Ret s' → win s' = win s ∨ win s' = close_on_overflow (win s).
Proof. unfold ltckpt_write_wl. intros H. res_inv; auto. Qed.

Lemma close_on_overflow_fail_stop w :
  sa_window__is_open (close_on_overflow w) = false ∧
  has_mask (g_recovery_bitmask (close_on_overflow w)) LTCKPT_RECOVERY_MASK_FAIL_STOP = true ∧
  g_recovery_bitmask_reason (close_on_overflow w) ≠ None.
Proof.
  split; [done|]. split; [by apply has_mask_lor|]. by simpl; destruct (g_recovery_bitmask_reason w).
Qed.

(** The window is either as it was, or closed with a fail-stop demanded. *)
Definition win_ok (w w' : window) : Prop := w' = w ∨ w' = close_on_overflow w.

Lemma close_on_overflow_idemp w : close_on_overflow (close_on_overflow w) = close_on_overflow w.
Proof.
  unfold close_on_overflow. simpl. rewrite <- Z.lor_assoc, Z.lor_diag.
  by destruct (g_recovery_bitmask_reason w).
Qed.

#[local] Instance win_ok_trans : Transitive win_ok.
Proof.
  intros w1 w2 w3 [->| ->] [->| ->]; unfold win_ok; rewrite ?close_on_overflow_idemp; auto.
Qed.

Lemma write_wl_win_ok c s addr s' : ltckpt_write_wl c s addr = Ret s' → win_ok (win s) (win s').
Proof.
  intros H. destruct (write_wl_win c s addr s' H) as [->| ->]; [by left|by right].
Qed.

Lemma memcpy_loop_win_ok c fuel s reg end_ s' :
  memcpy_loop c fuel s reg end_ = Ret s' → win_ok (win s) (win s').
Proof.
  revert s reg. induction fuel as [|fuel IH]; intros s reg H; simpl in H;
    destruct (reg <? end_); try done; try (injection H as <-; by left).
  apply res_bind_inv in H as (s1 & H1 & H). etransitivity; eauto using write_wl_win_ok.
Qed.

Lemma run_ops_win_ok c os s s' : run_ops c s os = Ret s' → win_ok (win s) (win s').
Proof.
  revert s. induction os as [|o os IH]; intros s H; simpl in H; [injection H as <-; by left|].
  apply res_bind_inv in H as (s2 & Hs1 & H). apply run_op_inv in Hs1 as (s1 & Hh & ->).
  apply IH in H. simpl in H. etransitivity; [|exact H].
  destruct o; simpl in Hh; unfold ltckpt_store_hook, ltckpt_memcpy_hook in Hh;
    destruct (ltckpt_writelog_enabled s); simpl in Hh; try (injection Hh as <-; by left);
    eauto using write_wl_win_ok, memcpy_loop_win_ok.
Qed.

(** Where the log stands when the window was [w] before: below its end with the
    window untouched, or full with the window closed. *)
Definition full_ok (c : wlconf) (w : window) (s : wlstate) : Prop :=
  (win s = w ∧ wl_position s < WRITELOG_BYTES c) ∨
  (win s = close_on_overflow w ∧ WRITELOG_BYTES c ≤ wl_position s).

Lemma write_wl_full_ok c w s addr s' :
  ltckpt_write_wl c s addr = Ret s' → full_ok c w s → full_ok c w s'.
Proof.
  unfold ltckpt_write_wl. intros H. res_inv; [done|..]; unfold full_ok; cbn;
    (intros [[-> Hp]|[Hw _]]; [|by rewrite Hw in *]); [right|left]; split; done || zb.
Qed.

Lemma memcpy_loop_full_ok c w fuel s reg end_ s' :
  memcpy_loop c fuel s reg end_ = Ret s' → full_ok c w s → full_ok c w s'.
Proof.
  revert s reg. induction fuel as [|fuel IH]; intros s reg H; simpl in H;
    destruct (reg <? end_); try done; try (by injection H as <-).
  apply res_bind_inv in H as (s1 & H1 & H). eauto using write_wl_full_ok.
Qed.

Lemma run_ops_full_ok c w os s s' : run_ops c s os = Ret s' → full_ok c w s → full_ok c w s'.
Proof.
  revert s. induction os as [|o os IH]; intros s H Hs; simpl in H; [by injection H as <-|].
  apply res_bind_inv in H as (s2 & Hs1 & H). apply run_op_inv in Hs1 as (s1 & Hh & ->).
  apply IH in H; [done|]. change (full_ok c w s1).
  destruct o; simpl in Hh; unfold ltckpt_store_hook, ltckpt_memcpy_hook in Hh;
    destruct (ltckpt_writelog_enabled s); simpl in Hh; try (by injection Hh as <-);
    eauto using write_wl_full_ok, memcpy_loop_full_ok.
Qed.

(** C11: no silent loss.  Whatever the instrumented program does, if the window
    is closed afterwards although it was open before, then the fail-stop mask
    is set and a reason is recorded, so the dispatcher will not recover from
    an incomplete log.  And when the log had room before, the window is closed
    afterwards exactly if the log is full: it is not closed while there is room
    for another entry, and not left open when there is none. *)
Theorem full_log_demands_fail_stop c s os s' :
  run_ops c s os = Ret s' →
  sa_window__is_open (win s) = true →
  (sa_window__is_open (win s') = false →
   has_mask (g_recovery_bitmask (win s')) LTCKPT_RECOVERY_MASK_FAIL_STOP = true ∧
   g_recovery_bitmask_reason (win s') ≠ None) ∧
  (wl_position s < WRITELOG_BYTES c →
   sa_window__is_open (win s') = false ↔ WRITELOG_BYTES c ≤ wl_position s').
Proof.
  intros H Ho. split.
  - intros Hc. destruct (run_ops_win_ok c os s s' H) as [Heq|Heq]; rewrite Heq in *; [by rewrite Ho in Hc|].
    apply close_on_overflow_fail_stop.
  - intros Hp. destruct (run_ops_full_ok c (win s) os s s' H) as [[-> Hp']|[-> Hp']]; [by left|..].
    + split; [by rewrite Ho|lia].
    + done.
Qed.

Lemma undo_uncovered es m x : ¬ covered es x → undo es m x = m x.
Proof.
  revert m. induction es as [|e es IH]; intros m H; cbn [undo]; [done|].
  unfold covered in H. rewrite Exists_cons in H. rewrite IH by (unfold covered; tauto).
  apply store_bytes_out. unfold covers in H. lia.
Qed.

Lemma store_bytes_last m a bs b :
  last bs = Some b → store_bytes m a bs (a + Z.of_nat (length bs) - 1) = b.
Proof.
  rewrite last_lookup. intros H. pose proof (lookup_lt_Some _ _ _ H).
  rewrite <- (store_bytes_in m a bs _ b H). f_equal. lia.
Qed.

(** The memcpy hook has a gap.  A block that starts in the upper half of
    an 8-byte region and ends in the lower half of another one is not fully
    logged (the hook starts at [addr & ~3] but steps by 8): the replay of the
    log leaves the block's last byte as the program wrote it. *)
Theorem memcpy_hook_gap c m0 s es a bs b s' :
  conf_ok c → live c m0 s es → ltckpt_writelog_enabled s = true →
  last bs = Some b → 0 ≤ a → a + Z.of_nat (length bs) ≤ 2^(8 * sizeof_ptr c) →
  4 ≤ a `mod` 8 → (a + Z.of_nat (length bs) - 1) `mod` 8 < 4 →
  (∀ x, a ≤ x < a + Z.of_nat (length bs) → ¬ in_log c x) →
  ¬ covered es (a + Z.of_nat (length bs) - 1) →
  run_op c s (OMemcpy a bs) = Ret s' → sa_window__is_open (win s') = true →
  ∃ n, wl_position s' = Z.of_nat n * entry_size c ∧
    undo (log_entries c (wmem s') n) (wmem s') (a + Z.of_nat (length bs) - 1) = b.
Proof.
  intros Hc Hl Hen Hb H0 H1 Hlo Hhi Hlog Hnc Hrun Ho.
  apply run_op_inv in Hrun as (s1 & Hh & ->). simpl in Hh, Ho.
  unfold ltckpt_memcpy_hook in Hh. rewrite Hen in Hh. simpl in Hh.
  set (n := Z.of_nat (length bs)) in *. assert (Hn : 0 < n).
  { subst n. destruct bs; [done|]. simpl. lia. }
  destruct (live_memcpy_loop c Hc m0 (wmem s) _ s (align_down 2 a) (a + n) es s1 Hl Ho
              ltac:(rewrite align_down_4; pose proof (Z.mod_le a 4); lia) H1 eq_refl (λ _ _, eq_refl) Hh)
    as ([[Hd Hp Hlen Hle Hok] _ _] & _ & _).
  set (es' := region_entries _ _ _ _) in *. exists (length es'). split; [done|].
  assert (Hle' : log_entries c (store_bytes (wmem s1) a bs) (length es') = es').
  { rewrite <- Hle at 2. apply log_entries_ext; [by destruct Hc|]. intros x Hx. apply store_bytes_out.
    destruct (decide (a ≤ x < a + n)) as [Hin|]; [|subst n; lia].
    exfalso. apply (Hlog x Hin). unfold in_log. rewrite WRITELOG_BYTES_entry.
    pose proof (entry_size_pos c Hc). nia. }
  cbn [wmem set_mem op_addr op_bytes].
  rewrite Hle', undo_uncovered; [by apply store_bytes_last|].
  subst es'. rewrite region_entries_covered. intros [Hcv|(k & Hk & Hx)]; [done|].
  revert Hk Hx. rewrite align_down_4, align_down_8. unfold memcpy_fuel.
  Z.to_euclidean_division_equations. lia.
Qed.

Lemma memcpy_loop_fuel c fuel s reg end_ :
  fuel = memcpy_fuel reg end_ → memcpy_loop c fuel s reg end_ ≠ Stop FFuel.
Proof.
  revert s reg. induction fuel as [|fuel IH]; intros s reg Hf; simpl;
    destruct (Z.ltb_spec reg end_); try done.
  - by rewrite memcpy_fuel_S in Hf by lia.
  - rewrite memcpy_fuel_S in Hf by lia. injection Hf as Hf.
    unfold ltckpt_write_wl. repeat case_match; simpl; try done; auto.
Qed.

Lemma restore_loop_fuel c e fuel i st s :
  0 < entry_size c → wl_position s < (Z.of_nat fuel + 1) * entry_size c →
  restore_loop c e fuel i st s ≠ Stop FFuel.
Proof.
  intros He. revert i st s. induction fuel as [|fuel IH]; intros i st s Hp; cbn [restore_loop];
    destruct (Z.geb_spec (wl_position s) (entry_size c)); try done; [lia|].
  repeat case_match; try done; apply IH; simpl; lia.
Qed.

(** The loops of the mechanism terminate for every state and every answer
    of the kernel: the fuel of the model, [ceil ((end - reg) / 8)] iterations
    for the memcpy hook and [wl_position / entry_size] for the restart hook,
    is never exhausted. *)
Theorem writelog_loops_terminate c :
  0 < entry_size c →
  (∀ s addr size, ltckpt_memcpy_hook c s addr size ≠ Stop FFuel) ∧
  (∀ e s, ltckpt_restart_hook c e s ≠ Stop FFuel).
Proof.
  intros He. split.
  - intros s addr size. unfold ltckpt_memcpy_hook. case_match; [done|]. by apply memcpy_loop_fuel.
  - intros e s. unfold ltckpt_restart_hook. case_match; [done|].
    destruct (identity_state_transfer e _) as [r s2]. case_match; [done|].
    destruct (Z.eqb_spec (wl_position s2 `mod` entry_size c) 0) as [Hm|]; [|done].
    destruct (restore_loop _ _ _ _ _ _) as [lr|f] eqn:E; simpl.
    + destruct lr; [|done]. case_match; [|done]. unfold success_message, hypermem_cat_num.
      by repeat case_match.
    + intros [= ->]. revert E. apply restore_loop_fuel; [done|].
      pose proof (Z.div_mod (wl_position s2) (entry_size c) ltac:(lia)). nia.
Qed.

(** ** Witnesses: a four-entry log at address 64 *)

Definition demo_conf : wlconf := {| WRITELOG_START := 64; WRITELOG_MAXLEN := 4; sizeof_ptr := 4 |}.

Lemma demo_conf_ok : conf_ok demo_conf.
Proof. constructor; vm_compute; done. Qed.

Definition demo_ctx : Ctx.ltckpt_ctx_t := Ctx.Build_ltckpt_ctx_t 1 1 0 0 0 0 1 0 0 None 0 0 0 0 0 0 0.
Definition demo_win : window :=
  {| sa_window__is_open := true; g_recovery_bitmask := LTCKPT_RECOVERY_MASK_IDEMPOTENT;
     g_recovery_bitmask_reason := None |}.
Definition demo_state : wlstate :=
  {| wmem := λ x, x + 100; wl_data := 64; wl_position := 0; wl_position_high_watermark := 0;
     ltckpt_writelog_enabled := false; win := demo_win; wctx := demo_ctx |}.
Definition demo_ops : list op := [OStore 10 [1; 2]; OMemcpy 16 [3; 4; 5]; OStore 11 [6]].
Definition demo_crashed : wlstate :=
  ret_or demo_state (run_ops demo_conf (ltckpt_top_of_the_loop demo_conf demo_state) demo_ops).
Definition demo_env : renv :=
  {| sys_safecopyto_enabled := 0;
     identity_state_transfer := λ _, (0, demo_crashed);
     sys_safecopyfrom := λ src n, (0, load_bytes (wmem demo_crashed) src n);
     addr_wl_data := 200; addr_wl_position := 208; addr_writelog_enabled := 216; sizeof_int := 4;
     addr_num_entries := 65536; g_module_name := "pm" |}.

Lemma demo_ops_ok : Forall (op_ok demo_conf) demo_ops.
Proof.
  unfold demo_ops. repeat (apply Forall_cons_2; [unfold op_ok, op_size; simpl; split_and!|]);
    try lia; try done. right. left. done.
Qed.

Lemma demo_env_ok : renv_ok demo_conf demo_env demo_crashed.
Proof. constructor; [done|done|]. intros s. by exists demo_crashed. Qed.

Lemma rollback_restores_checkpoint_witness :
  wmem demo_crashed 11 = 6 ∧
  ∃ recovered out,
    ltckpt_restart_hook demo_conf demo_env demo_state = Ret (0, recovered, out) ∧
    wl_position recovered = 0 ∧
    ∀ x, restorable demo_conf demo_env x → wmem recovered x = x + 100.
Proof.
  split; [vm_compute; reflexivity|].
  apply (rollback_restores_checkpoint demo_conf demo_env demo_state demo_ops demo_crashed demo_state);
    [apply demo_conf_ok|reflexivity|reflexivity|apply demo_ops_ok|apply is_ret_or; vm_compute; reflexivity
    |vm_compute; reflexivity|apply demo_env_ok].
Defined.

Lemma demo_live : live demo_conf (wmem demo_state) (ltckpt_top_of_the_loop demo_conf demo_state) [].
Proof. by apply live_top_of_the_loop; [apply demo_conf_ok|..]. Qed.

Lemma demo_rep : rep demo_conf (ltckpt_top_of_the_loop demo_conf demo_state) [].
Proof. apply (live_rep _ _ _ _ demo_live). Qed.

Lemma write_wl_spec_witness :
  ∃ s', ltckpt_write_wl demo_conf (ltckpt_top_of_the_loop demo_conf demo_state) 13 = Ret s' ∧
    rep demo_conf s' [(8, [108; 109; 110; 111; 112; 113; 114; 115])].
Proof.
  destruct (write_wl_spec demo_conf (ltckpt_top_of_the_loop demo_conf demo_state) [] 13
              demo_conf_ok ltac:(simpl; lia)) as (_ & _ & _ & H).
  destruct (H demo_rep eq_refl) as (s' & Hs & Hr & _).
  - vm_compute. intuition congruence.
  - vm_compute. reflexivity.
  - exists s'. split; [exact Hs|exact Hr].
Defined.

Definition demo_full_ops : list op := [OStore 0 [1]; OStore 8 [1]; OStore 16 [1]; OStore 24 [1]].
Definition demo_full : wlstate :=
  ret_or demo_state (run_ops demo_conf (ltckpt_top_of_the_loop demo_conf demo_state) demo_full_ops).

Lemma full_log_demands_fail_stop_witness :
  WRITELOG_BYTES demo_conf ≤ wl_position demo_full ∧
  has_mask (g_recovery_bitmask (win demo_full)) LTCKPT_RECOVERY_MASK_FAIL_STOP = true ∧
  g_recovery_bitmask_reason (win demo_full) ≠ None.
Proof.
  destruct (full_log_demands_fail_stop demo_conf (ltckpt_top_of_the_loop demo_conf demo_state)
              demo_full_ops demo_full) as [Hmask Hfull]; [apply is_ret_or; vm_compute; reflexivity|vm_compute; reflexivity|].
  split; [apply Hfull; vm_compute; reflexivity|apply Hmask; vm_compute; reflexivity].
Defined.

Definition demo_gap : wlstate :=
  ret_or demo_state (run_op demo_conf (ltckpt_top_of_the_loop demo_conf demo_state)
                       (OMemcpy 4 [1; 2; 3; 4; 5; 6; 7; 9])).

Lemma memcpy_hook_gap_witness :
  wmem demo_state 11 = 111 ∧
  ∃ n, wl_position demo_gap = Z.of_nat n * entry_size demo_conf ∧
    undo (log_entries demo_conf (wmem demo_gap) n) (wmem demo_gap) 11 = 9.
Proof.
  split; [reflexivity|].
  apply (memcpy_hook_gap demo_conf (wmem demo_state) (ltckpt_top_of_the_loop demo_conf demo_state)
           [] 4 [1; 2; 3; 4; 5; 6; 7; 9] 9 demo_gap demo_conf_ok demo_live);
    [reflexivity|reflexivity|lia|simpl; lia|vm_compute; discriminate|vm_compute; reflexivity| | 
    |apply is_ret_or; vm_compute; reflexivity|vm_compute; reflexivity].
  - intros x Hx. unfold in_log. simpl in *. lia.
  - intros H. inversion H.
Defined.

Lemma writelog_loops_terminate_witness :
  (∀ s addr size, ltckpt_memcpy_hook minix_wlconf s addr size ≠ Stop FFuel) ∧
  (∀ e s, ltckpt_restart_hook minix_wlconf e s ≠ Stop FFuel).
Proof. apply (writelog_loops_terminate minix_wlconf). vm_compute. reflexivity. Defined.

(** The MINIX constants satisfy the configuration hypotheses. *)
Lemma minix_wlconf_ok : conf_ok minix_wlconf.
Proof. constructor; vm_compute; done. Qed.
