(* ===== verification/Recover.v ===== *)
(** * Recovery windows and the recovery dispatcher: [ltckpt_recover.c]

    The MINIX build of the file.  The globals are the record [rstate]; what the
    runtime asks SEF, RS and the kernel is the record [env]; what it does to the
    outside world is a list of [effect]s in program order. *)

From Stdlib Require Import ZArith Lia Ascii String.
From stdpp Require Import base list numbers strings sets.
From S2P Require Import Prelude Decimal LogFmt Runtime.
Import Window.

(** ** State *)

Record shutter := { do_suicide : Z; num_end : Z; bb_in : Z }.

(** An entry of [struct bens_shutter_board]. *)
Record ben := { transits : Z; period : Z }.

Record profile := {
  wshutter_prof_curr_bb_in : Z;
  g_num_window_opens : Z;
  rwindow_end : Z;               (** [wprof.glo.rwindow.end] *)
  g_counter_inwindow : Z;
  g_counter_outsidewindow : Z;
  g_num_suicides : Z;
}.

Record rstate := {
  rwin : window;
  suicide_on_window_close : bool;
  inside_trusted_compute_base : bool;
  prior_have_handled_message : bool;
  g_shutter_board : Z → shutter;
  ben_board : Z → ben;
  g_num_window_shutters : Z;
  g_num_kernelcall_shutters : Z;
  g_recovery_naive_mode : Z;
  (** the first [g_recovery_bitmask_callsite_count] elements of
      [g_recovery_bitmask_callsites] *)
  callsites : list Z;
  g_recovery_bitmask_total_count : Z;
  wprof_enable_stats : bool;
  prof : profile;
  g_module_name : string;
}.

Definition LTCKPT_SHUTTER_BOARD_IPC_END : Z := 1024.
Definition LTCKPT_MAX_WINDOW_SHUTTERS : Z := 2560.
Definition RECOVERY_BITMASK_CALLSITE_COUNT : nat := 64.
Definition BEN_BOARD : Z := 1000.

Definition LTCKPT_RECOVERY_NAIVE_MODE_DEFAULT : Z := 0.
Definition LTCKPT_RECOVERY_NAIVE_MODE_NEVER_REPLY : Z := 5.
Definition LTCKPT_RECOVERY_NAIVE_MODE_ALWAYS_REPLY : Z := 7.
Definition LTCKPT_RECOVERY_FAILURE : Z := -1.
Definition LTCKPT_RECOVERY_SUCCESS : Z := 0.
Definition OK : Z := 0.
Definition NOT_OK : Z := -1.

(** The compile-time switches of the file. *)
Record cfg := {
  LTRC_SUICIDE_PERIODICALLY : bool;
  LTRC_SUICIDE_ONLY_ONCE : bool;
  LTRC_SUICIDE_WHEN_RECOVERABLE : bool;
  LTRC_NO_RECOVERY_ON_SVC_FI : bool;
  LTRC_REHANDLE_REQUEST : bool;
  TOGGLE_ENABLE_STATS : bool;
}.

Record message := { m_source : Z; m_type : Z }.

(** SEF, RS and the kernel as they answer during one call into the runtime, and MINIX's constants.  [None] for
    [sef_get_current_message] and [sef_llvm_is_user_endpoint] is a weak symbol
    that was not linked; the inner [None] is the call returning 0. *)
Record env := {
  have_handled_message : bool;
  sef_init_done : bool;
  sef_get_current_message : option (option (message * Z));
  sef_llvm_is_user_endpoint : option (Z → Z);
  asynsend : message → Z;
  sys_kill : Z → Z;
  sys_abort : Z;
  rs_ready : bool;
  RS_PROC_NR : Z;
  COMMON_REQ_FI_CTL : Z;
  ERESTART : Z;
  EINVAL : Z;
}.

Inductive effect :=
| ELog (line : string)          (** [hypermem_printstr] *)
| ESend (m : message)           (** [asynsend] *)
| EKill (endpoint : Z)          (** [sys_kill (endpoint, SIGKILL)] *)
| EAbort.                       (** [sys_abort (RB_NOSYNC)] *)

(** ** Field updates *)

Definition upd_win (s : rstate) (w : window) : rstate :=
  Build_rstate w (suicide_on_window_close s) (inside_trusted_compute_base s)
    (prior_have_handled_message s) (g_shutter_board s) (ben_board s) (g_num_window_shutters s)
    (g_num_kernelcall_shutters s) (g_recovery_naive_mode s) (callsites s)
    (g_recovery_bitmask_total_count s) (wprof_enable_stats s) (prof s) (g_module_name s).
Definition upd_suicide (s : rstate) (b : bool) : rstate :=
  Build_rstate (rwin s) b (inside_trusted_compute_base s)
    (prior_have_handled_message s) (g_shutter_board s) (ben_board s) (g_num_window_shutters s)
    (g_num_kernelcall_shutters s) (g_recovery_naive_mode s) (callsites s)
    (g_recovery_bitmask_total_count s) (wprof_enable_stats s) (prof s) (g_module_name s).
Definition upd_tcb (s : rstate) (b : bool) : rstate :=
  Build_rstate (rwin s) (suicide_on_window_close s) b
    (prior_have_handled_message s) (g_shutter_board s) (ben_board s) (g_num_window_shutters s)
    (g_num_kernelcall_shutters s) (g_recovery_naive_mode s) (callsites s)
    (g_recovery_bitmask_total_count s) (wprof_enable_stats s) (prof s) (g_module_name s).
Definition upd_prior (s : rstate) (b : bool) : rstate :=
  Build_rstate (rwin s) (suicide_on_window_close s) (inside_trusted_compute_base s)
    b (g_shutter_board s) (ben_board s) (g_num_window_shutters s)
    (g_num_kernelcall_shutters s) (g_recovery_naive_mode s) (callsites s)
    (g_recovery_bitmask_total_count s) (wprof_enable_stats s) (prof s) (g_module_name s).
Definition upd_board (s : rstate) (i : Z) (v : shutter) : rstate :=
  Build_rstate (rwin s) (suicide_on_window_close s) (inside_trusted_compute_base s)
    (prior_have_handled_message s) (λ j, if j =? i then v else g_shutter_board s j) (ben_board s)
    (g_num_window_shutters s) (g_num_kernelcall_shutters s) (g_recovery_naive_mode s) (callsites s)
    (g_recovery_bitmask_total_count s) (wprof_enable_stats s) (prof s) (g_module_name s).
Definition upd_ben (s : rstate) (i : Z) (v : ben) : rstate :=
  Build_rstate (rwin s) (suicide_on_window_close s) (inside_trusted_compute_base s)
    (prior_have_handled_message s) (g_shutter_board s) (λ j, if j =? i then v else ben_board s j)
    (g_num_window_shutters s) (g_num_kernelcall_shutters s) (g_recovery_naive_mode s) (callsites s)
    (g_recovery_bitmask_total_count s) (wprof_enable_stats s) (prof s) (g_module_name s).
Definition upd_sites (s : rstate) (l : list Z) (n : Z) : rstate :=
  Build_rstate (rwin s) (suicide_on_window_close s) (inside_trusted_compute_base s)
    (prior_have_handled_message s) (g_shutter_board s) (ben_board s) (g_num_window_shutters s)
    (g_num_kernelcall_shutters s) (g_recovery_naive_mode s) l n
    (wprof_enable_stats s) (prof s) (g_module_name s).
Definition upd_naive (s : rstate) (m : Z) : rstate :=
  Build_rstate (rwin s) (suicide_on_window_close s) (inside_trusted_compute_base s)
    (prior_have_handled_message s) (g_shutter_board s) (ben_board s) (g_num_window_shutters s)
    (g_num_kernelcall_shutters s) m (callsites s)
    (g_recovery_bitmask_total_count s) (wprof_enable_stats s) (prof s) (g_module_name s).
Definition upd_prof (s : rstate) (e : bool) (p : profile) : rstate :=
  Build_rstate (rwin s) (suicide_on_window_close s) (inside_trusted_compute_base s)
    (prior_have_handled_message s) (g_shutter_board s) (ben_board s) (g_num_window_shutters s)
    (g_num_kernelcall_shutters s) (g_recovery_naive_mode s) (callsites s)
    (g_recovery_bitmask_total_count s) e p (g_module_name s).

Definition add_mask (w : window) (m : Z) : window :=
  {| sa_window__is_open := sa_window__is_open w;
     g_recovery_bitmask := Z.lor (g_recovery_bitmask w) m;
     g_recovery_bitmask_reason := g_recovery_bitmask_reason w |}.

Definition close_window (w : window) : window :=
  {| sa_window__is_open := false; g_recovery_bitmask := g_recovery_bitmask w;
     g_recovery_bitmask_reason := g_recovery_bitmask_reason w |}.

(** ** Statistics and counters *)

(** [CHECK_SHUTTER_BOARD_SIZE]: true when the site is refused. *)
Definition CHECK_SHUTTER_BOARD_SIZE (s : rstate) (index : Z) : bool :=
  ((g_num_window_shutters s <=? index) && (index <=? LTCKPT_SHUTTER_BOARD_IPC_END)) ||
  ((LTCKPT_SHUTTER_BOARD_IPC_END <? index) &&
   (u64 (LTCKPT_SHUTTER_BOARD_IPC_END + g_num_kernelcall_shutters s) <? index)).

Definition board_in_range (i : Z) : bool := (0 <=? i) && (i <? LTCKPT_MAX_WINDOW_SHUTTERS).

(** The switches [ltckpt_dump_shutter_board] prints, in order.  Each turn of
    the loop advances [i]; [fuel] bounds the turns. *)
Fixpoint dump_loop (fuel : nat) (s : rstate) (i : Z) : res (list Z) :=
  match fuel with
  | O => Stop FFuel
  | S fuel' =>
      if i <=? u64 (LTCKPT_SHUTTER_BOARD_IPC_END + g_num_kernelcall_shutters s) then
        let i := if i =? g_num_window_shutters s then LTCKPT_SHUTTER_BOARD_IPC_END + 1 else i in
        if board_in_range i then
          let! rest := dump_loop fuel' s (u32 (i + 1)) in Ret (i :: rest)
        else Stop FBounds
      else Ret []
  end.

Definition dump_fuel : nat := Z.to_nat (LTCKPT_MAX_WINDOW_SHUTTERS + 2).

Definition ltckpt_dump_shutter_board (s : rstate) : res (list Z) :=
  assert! g_num_window_shutters s <=? LTCKPT_SHUTTER_BOARD_IPC_END in
  dump_loop dump_fuel s 0.

Definition sef_fi_custom (k : cfg) (s : rstate) : res (Z * rstate) :=
  let s := if LTRC_SUICIDE_PERIODICALLY k || LTRC_SUICIDE_ONLY_ONCE k
           then upd_suicide s true else s in
  let! _ := if LTRC_SUICIDE_ONLY_ONCE k then ltckpt_dump_shutter_board s else Ret [] in
  let s := if TOGGLE_ENABLE_STATS k
           then upd_prof s (negb (wprof_enable_stats s)) (prof s) else s in
  Ret (0, s).

Definition inc_counter_inwindow (s : rstate) : rstate :=
  let p := prof s in
  upd_prof s (wprof_enable_stats s)
    (Build_profile (wshutter_prof_curr_bb_in p) (g_num_window_opens p) (rwindow_end p)
       (u64 (g_counter_inwindow p + 1)) (g_counter_outsidewindow p) (g_num_suicides p)).

Definition inc_counter_outsidewindow (s : rstate) : rstate :=
  let p := prof s in
  upd_prof s (wprof_enable_stats s)
    (Build_profile (wshutter_prof_curr_bb_in p) (g_num_window_opens p) (rwindow_end p)
       (g_counter_inwindow p) (u64 (g_counter_outsidewindow p + 1)) (g_num_suicides p)).

(** ** Window managers *)

Definition fresh_window : window :=
  {| sa_window__is_open := true; g_recovery_bitmask := LTCKPT_RECOVERY_MASK_IDEMPOTENT;
     g_recovery_bitmask_reason := None |}.

Definition ltckpt_detect_start_of_window_hook (e : env) (s : rstate) : rstate :=
  let hhm := have_handled_message e in
  let s1 :=
    if negb (prior_have_handled_message s) && hhm then
      let s := upd_tcb (upd_sites (upd_win s fresh_window) [] 0) false in
      if wprof_enable_stats s then
        let p := prof s in
        upd_prof s (wprof_enable_stats s)
          (Build_profile 0 (u64 (g_num_window_opens p + 1)) (rwindow_end p)
             (g_counter_inwindow p) (g_counter_outsidewindow p) (g_num_suicides p))
      else s
    else if prior_have_handled_message s && negb hhm then
      upd_win s (close_window (rwin s))
    else s in
  upd_prior s1 hhm.

Definition ltckpt_close_r_window (e : env) (s : rstate) : Z * rstate :=
  if have_handled_message e && sa_window__is_open (rwin s) then
    let s := upd_win s (close_window (rwin s)) in
    let s := if wprof_enable_stats s then
               let p := prof s in
               upd_prof s (wprof_enable_stats s)
                 (Build_profile (wshutter_prof_curr_bb_in p) (g_num_window_opens p)
                    (u64 (rwindow_end p + 1)) (g_counter_inwindow p)
                    (g_counter_outsidewindow p) (g_num_suicides p))
             else s in
    (1, s)
  else (0, s).

Definition ltckpt_transit_window (site_id : Z) (s : rstate) : res rstate :=
  if CHECK_SHUTTER_BOARD_SIZE s site_id then Ret s
  else
    let i := u32 site_id in
    if negb (board_in_range i) then Stop FBounds
    else
      let b := g_shutter_board s i in
      let bb := if wprof_enable_stats s && (bb_in b =? 0)
                then u64 (wshutter_prof_curr_bb_in (prof s)) else bb_in b in
      Ret (upd_board s i {| do_suicide := do_suicide b; num_end := u64 (num_end b + 1); bb_in := bb |}).

(** ** Deterministic fault injection *)

(** The result, [*rs_fi_flag] and [*type]; the flag starts at 0, [type] keeps
    its old value when no message can be fetched. *)
Definition ltckpt_is_message_replyable (e : env) (type0 : Z) : Z * bool * Z :=
  match sef_get_current_message e with
  | None | Some None => (NOT_OK, false, type0)
  | Some (Some (m, replyable)) =>
      (replyable, (RS_PROC_NR e =? m_source m) && (m_type m =? COMMON_REQ_FI_CTL e), m_type m)
  end.

(** The process goes on, or writes through the null pointer in state [s]. *)
Inductive suicide :=
| Survives (s : rstate)
| Crashes (s : rstate).

Definition ltckpt_do_suicide (k : cfg) (s : rstate) : suicide :=
  let s := if LTRC_SUICIDE_ONLY_ONCE k then upd_suicide s false else s in
  if inside_trusted_compute_base s then Survives s
  else if negb (g_recovery_bitmask (rwin s) =? LTCKPT_RECOVERY_MASK_IDEMPOTENT) then Survives s
  else
    let p := prof s in
    Crashes (upd_prof s (wprof_enable_stats s)
      (Build_profile (wshutter_prof_curr_bb_in p) (g_num_window_opens p) (rwindow_end p)
         (g_counter_inwindow p) (g_counter_outsidewindow p) (u64 (g_num_suicides p + 1)))).

(** [LTRC_SUICIDE_PERIODICALLY]: [None] when this transit is skipped. *)
Definition periodic_step (index : Z) (s : rstate) : res (rstate * bool) :=
  if negb (index <? BEN_BOARD) then Stop FBounds
  else
    let b := ben_board s index in
    let! transits := chk32 (transits b + 1) in
    let period := if period b <? 1 then 1 else period b in
    if negb (Z.rem transits period =? 0)
    then Ret (upd_ben s index {| transits := transits; period := period |}, false)
    else
      let! p := chk32 (period + 1) in
      let! p := chk32 (p * 3) in
      Ret (upd_ben s index {| transits := 0; period := Z.quot p 2 |}, true).

Definition ltckpt_do_suicide_per_site (k : cfg) (e : env) (site_id : Z) (s : rstate) : res suicide :=
  if CHECK_SHUTTER_BOARD_SIZE s site_id then Ret (Survives s)
  else
  let index := u32 site_id in
  if inside_trusted_compute_base s then Ret (Survives s)
  else if negb (sef_init_done e) then Ret (Survives (upd_tcb s true))
  else
  match sef_get_current_message e with
  | None => Ret (Survives s)
  | Some current =>
    if negb (sa_window__is_open (rwin s)) then Ret (Survives s)
    else if negb (board_in_range index) then Stop FBounds
    else if negb ((0 <? do_suicide (g_shutter_board s index)) && suicide_on_window_close s)
    then Ret (Survives s)
    else
    match current with
    | None => Ret (Survives s)
    | Some (m, _) =>
      if m_source m =? RS_PROC_NR e then Ret (Survives s)
      else if negb (rs_ready e) then Ret (Survives s)
      else if LTRC_SUICIDE_WHEN_RECOVERABLE k
              && negb (1 =? (ltckpt_is_message_replyable e 0).1.1) then Ret (Survives s)
      else if LTRC_SUICIDE_PERIODICALLY k then
        let! sb := periodic_step index s in
        Ret (if sb.2 then ltckpt_do_suicide k sb.1 else Survives sb.1)
      else
        let b := g_shutter_board s index in
        Ret (ltckpt_do_suicide k
          (upd_board s index {| do_suicide := 0; num_end := num_end b; bb_in := bb_in b |}))
    end
  end.

(** ** Hooks for recovery policies *)

Definition ltckpt_set_idempotent_recovery (site_id : Z) (s : rstate) : res rstate :=
  if inside_trusted_compute_base s then Ret s
  else
    let! s := ltckpt_transit_window site_id s in
    Ret (upd_win s (add_mask (rwin s) LTCKPT_RECOVERY_MASK_IDEMPOTENT)).

Definition ltckpt_set_request_specific_recovery (site_id : Z) (s : rstate) : res rstate :=
  if inside_trusted_compute_base s then Ret s
  else
    let! s := ltckpt_transit_window site_id s in
    Ret (upd_win s (add_mask (rwin s) LTCKPT_RECOVERY_MASK_IDEMPOTENT)).

Definition ltckpt_set_process_local_recovery (site_id : Z) (s : rstate) : res rstate :=
  if inside_trusted_compute_base s then Ret s
  else
    let! s := ltckpt_transit_window site_id s in
    Ret (upd_win s (add_mask (rwin s) LTCKPT_RECOVERY_MASK_PROCESS_SPECIFIC)).

(** The search loop over the recorded call sites. *)
Fixpoint site_known (site_id : Z) (l : list Z) : bool :=
  match l with
  | [] => false
  | c :: l' => if c =? site_id then true else site_known site_id l'
  end.

Definition ltckpt_add_site_id (site_id : Z) (s : rstate) : rstate :=
  if site_known site_id (callsites s) then s
  else if (length (callsites s) <? RECOVERY_BITMASK_CALLSITE_COUNT)%nat
  then upd_sites s (callsites s ++ [site_id]) (g_recovery_bitmask_total_count s)
  else s.

Definition fail_stop_reason : string :=
  "ltckpt recovery: window closed: ltckpt_set_fail_stop_recovery".

Definition ltckpt_set_fail_stop_recovery (e : env) (site_id : Z) (s : rstate) : res rstate :=
  if inside_trusted_compute_base s then Ret s
  else
    let! s := ltckpt_transit_window site_id s in
    let s := (ltckpt_close_r_window e s).2 in
    let w := add_mask (rwin s) LTCKPT_RECOVERY_MASK_FAIL_STOP in
    let s := upd_win s {| sa_window__is_open := sa_window__is_open w;
                          g_recovery_bitmask := g_recovery_bitmask w;
                          g_recovery_bitmask_reason := Some fail_stop_reason |} in
    let s := ltckpt_add_site_id site_id s in
    Ret (upd_sites s (callsites s) (u64 (g_recovery_bitmask_total_count s + 1))).

Definition ltckpt_set_naive_recovery (mode : Z) (s : rstate) : rstate := upd_naive s (u32 mode).

(** ** Recovery actions

    An action reads and writes the globals, may stop, and appends its effects. *)

Definition action (A : Type) : Type := rstate → list effect → res (A * rstate * list effect).

#[global] Instance action_ret : MRet action := λ A x s es, Ret (x, s, es).
#[global] Instance action_bind : MBind action :=
  λ A B k m s es, let! r := m s es in k r.1.1 r.1.2 r.2.

Definition get : action rstate := λ s es, Ret (s, s, es).
Definition put (s : rstate) : action () := λ _ es, Ret (tt, s, es).
Definition emit (x : effect) : action () := λ s es, Ret (tt, s, es ++ [x]).
Definition lift {A} (m : res A) : action A := λ s es, let! x := m in Ret (x, s, es).

Definition log (msg : string) : action () :=
  s ← get; emit (ELog (hypermem_log (g_module_name s) msg)).

(** The loop of [hypermem_log_callsites]. *)
Fixpoint callsites_loop (first : bool) (l : list Z) (p : string) : res string :=
  match l with
  | [] => Ret p
  | c :: l' =>
      let p := if first then p else hypermem_cat hypermem_log_size p ", " in
      let! p := hypermem_cat_num hypermem_log_size p (s64 c) in
      callsites_loop false l' p
  end.

Definition callsites_text (s : rstate) : res string :=
  let n := hypermem_log_size in
  let p := hypermem_cat n "" "ltckpt recovery: window closed " in
  let! p := hypermem_cat_num n p (s64 (g_recovery_bitmask_total_count s)) in
  let p := hypermem_cat n p " times from " in
  let! p := hypermem_cat_num n p (Z.of_nat (length (callsites s))) in
  let p := hypermem_cat n p " callsite(s): " in
  callsites_loop true (callsites s) p.

Definition hypermem_log_callsites : action () :=
  s ← get; text ← lift (callsites_text s); log text.

Definition nonreplyable_text (msgtype r : Z) : res string :=
  let n := hypermem_log_size in
  let p := hypermem_cat n "" "ltckpt recovery: " in
  let p := hypermem_cat n p (if r =? LTCKPT_RECOVERY_SUCCESS then "success" else "failed") in
  let p := hypermem_cat n p ": non-replyable message: " in
  hypermem_cat_num n p msgtype.

Definition hypermem_log_nonreplyable (msgtype r : Z) : action () :=
  text ← lift (nonreplyable_text msgtype r); log text.

Definition ltckpt_is_req_rehandling (s : rstate) : Z :=
  Z.land (g_recovery_bitmask (rwin s)) LTCKPT_RECOVERY_REPROCESSING_REQ.

Definition ltckpt_activate_req_rehandling (s : rstate) : rstate :=
  upd_win s (add_mask (rwin s) LTCKPT_RECOVERY_REPROCESSING_REQ).

Definition ltckpt_deactivate_req_rehandling (s : rstate) : rstate :=
  let w := rwin s in
  upd_win s {| sa_window__is_open := sa_window__is_open w;
               g_recovery_bitmask :=
                 Z.land (g_recovery_bitmask w) (u32 (Z.lnot LTCKPT_RECOVERY_REPROCESSING_REQ));
               g_recovery_bitmask_reason := g_recovery_bitmask_reason w |}.

Definition ltckpt_send_reply (e : env) (msg : message) : action Z :=
  let msg := {| m_source := m_source msg; m_type := ERESTART e |} in
  lift (assert! m_type msg <? 0 in Ret tt) ;;
  emit (ESend msg) ;;
  mret (if asynsend e msg =? OK then OK else NOT_OK).

Definition ltckpt_recovery_idempotent (k : cfg) (e : env) : action Z :=
  match sef_get_current_message e with
  | None =>
      log "ltckpt recovery: failed: idempotent: sef_get_current_message() not available" ;;
      mret LTCKPT_RECOVERY_FAILURE
  | Some None =>
      log "ltckpt recovery: failed: idempotent: unable to fetch last handled message" ;;
      mret LTCKPT_RECOVERY_FAILURE
  | Some (Some (m, replyable)) =>
      if LTRC_REHANDLE_REQUEST k then
        if (RS_PROC_NR e =? m_source m) && (m_type m =? COMMON_REQ_FI_CTL e)
        then mret LTCKPT_RECOVERY_SUCCESS
        else
          s ← get;
          put (ltckpt_activate_req_rehandling s) ;;
          log "ltckpt recovery: success: idempotent" ;;
          mret LTCKPT_RECOVERY_SUCCESS
      else
        s ← get;
        if (replyable =? 0)
           && negb (g_recovery_naive_mode s =? LTCKPT_RECOVERY_NAIVE_MODE_ALWAYS_REPLY) then
          log "ltckpt recovery: failed: idempotent: unreplyable request" ;;
          mret LTCKPT_RECOVERY_FAILURE
        else
          r ← ltckpt_send_reply e m;
          if r =? NOT_OK then
            log "ltckpt recovery: failed: idempotent: couldn't send error message" ;;
            mret LTCKPT_RECOVERY_FAILURE
          else
            log "ltckpt recovery: success: idempotent" ;;
            mret LTCKPT_RECOVERY_SUCCESS
  end.

Definition ltckpt_recovery_request_specific (k : cfg) (e : env) : action Z :=
  ltckpt_recovery_idempotent k e.

Definition ltckpt_recovery_process_specific (e : env) : action Z :=
  match sef_get_current_message e, sef_llvm_is_user_endpoint e with
  | None, _ | _, None =>
      log "ltckpt recovery: failed: process_specific: unable to find necessary sef_llvm method" ;;
      mret LTCKPT_RECOVERY_FAILURE
  | Some None, Some _ =>
      log "ltckpt recovery: failed: process_specific: unable to fetch last handled message" ;;
      mret LTCKPT_RECOVERY_FAILURE
  | Some (Some (m, _)), Some is_user =>
      let source := m_source m in
      let ret := is_user source in
      if 1 =? ret then
        emit (EKill source) ;;
        let r := sys_kill e source in
        if r =? OK then
          log "ltckpt recovery: success: killed user process" ;;
          mret LTCKPT_RECOVERY_SUCCESS
        else if r =? EINVAL e then
          log "ltckpt recovery: success: user process is invalid" ;;
          mret LTCKPT_RECOVERY_SUCCESS
        else
          log "ltckpt recovery: failed: process_specific: unable to kill user process" ;;
          mret LTCKPT_RECOVERY_FAILURE
      else if 0 =? ret then
        r ← ltckpt_send_reply e m;
        if r =? NOT_OK then
          log "ltckpt recovery: failed: process_specific: unable to send reply" ;;
          mret LTCKPT_RECOVERY_FAILURE
        else mret LTCKPT_RECOVERY_SUCCESS
      else
        log "ltckpt recovery: failed: process_specific: error in figuring out whether source was user process" ;;
        mret LTCKPT_RECOVERY_FAILURE
  end.

Definition ltckpt_recovery_fail_stop (e : env) : action Z :=
  log "ltckpt recovery: shutdown: fail_stop" ;;
  emit EAbort ;;
  mret (if sys_abort e =? OK then LTCKPT_RECOVERY_SUCCESS else LTCKPT_RECOVERY_FAILURE).

(** [case 1] of the dispatcher: the policy of the bitmask. *)
Definition dispatch_policy (k : cfg) (e : env) : action Z :=
  s ← get;
  let mask := g_recovery_bitmask (rwin s) in
  if has_mask mask LTCKPT_RECOVERY_MASK_FAIL_STOP then
    log (default "ltckpt recovery: window closed: reason unknown"
           (g_recovery_bitmask_reason (rwin s))) ;;
    hypermem_log_callsites ;;
    ltckpt_recovery_fail_stop e
  else if has_mask mask LTCKPT_RECOVERY_MASK_PROCESS_SPECIFIC then
    ltckpt_recovery_process_specific e
  else if has_mask mask LTCKPT_RECOVERY_MASK_REQUEST_SPECIFIC then
    ltckpt_recovery_request_specific k e
  else if has_mask mask LTCKPT_RECOVERY_MASK_IDEMPOTENT then
    ltckpt_recovery_idempotent k e
  else
    log "ltckpt recovery: failed: invalid g_recovery_bitmask bitmask" ;;
    mret LTCKPT_RECOVERY_FAILURE.

(** The first [switch]: the naive mode may override [replyable]. *)
Definition naive_replyable (mode replyable : Z) : Z :=
  if mode =? LTCKPT_RECOVERY_NAIVE_MODE_NEVER_REPLY then 0
  else if mode =? LTCKPT_RECOVERY_NAIVE_MODE_ALWAYS_REPLY then 1
  else replyable.

Definition dispatch_replyable (k : cfg) (e : env) (replyable msgtype : Z) : action Z :=
  if replyable =? 1 then dispatch_policy k e
  else if replyable =? 0 then
    hypermem_log_nonreplyable msgtype LTCKPT_RECOVERY_FAILURE ;;
    mret LTCKPT_RECOVERY_FAILURE
  else if replyable =? -1 then
    log "ltckpt recovery: failed: havent handled message" ;;
    mret LTCKPT_RECOVERY_FAILURE
  else
    log "ltckpt recovery: failed: bad ltckpt_is_message_replyable result" ;;
    mret LTCKPT_RECOVERY_FAILURE.

Definition ltckpt_recovery_dispatcher (k : cfg) (e : env) : action Z :=
  log "ltckpt recovery: start recovery attempt" ;;
  s ← get;
  put (upd_tcb s true) ;;
  let '(replyable, rs_fi_flag, msgtype) := ltckpt_is_message_replyable e 0 in
  if LTRC_NO_RECOVERY_ON_SVC_FI k && rs_fi_flag then
    log "ltckpt recovery: success: RS_FI_CUSTOM" ;;
    mret LTCKPT_RECOVERY_SUCCESS
  else
    let replyable := naive_replyable (g_recovery_naive_mode s) replyable in
    r ← dispatch_replyable k e replyable msgtype;
    let r := if negb (g_recovery_naive_mode s =? LTCKPT_RECOVERY_NAIVE_MODE_DEFAULT)
             then LTCKPT_RECOVERY_SUCCESS else r in
    if r =? LTCKPT_RECOVERY_FAILURE then
      log "ltckpt recovery: shutdown" ;;
      emit EAbort ;;
      mret r
    else mret r.

(** ** Facts about the hooks *)

(** A site accepted by the size check lies on the board when the kernel-call
    range fits behind the IPC range. *)
Definition board_ok (s : rstate) : Prop :=
  0 ≤ g_num_window_shutters s ∧
  0 ≤ g_num_kernelcall_shutters s < LTCKPT_MAX_WINDOW_SHUTTERS - LTCKPT_SHUTTER_BOARD_IPC_END.

Lemma accepted_in_range s site :
  board_ok s → 0 ≤ site < 2^64 → CHECK_SHUTTER_BOARD_SIZE s site = false →
  u32 site = site ∧ board_in_range (u32 site) = true.
Proof.
  intros [Hw Hk] Hs H. unfold CHECK_SHUTTER_BOARD_SIZE in H.
  unfold LTCKPT_SHUTTER_BOARD_IPC_END, LTCKPT_MAX_WINDOW_SHUTTERS in *.
  rewrite u64_small in H by lia.
  assert (0 ≤ site ≤ 1024 + g_num_kernelcall_shutters s) by zb.
  rewrite u32_small by lia. split; [done|]. unfold board_in_range, LTCKPT_MAX_WINDOW_SHUTTERS. zb.
Qed.

Lemma transit_window_frame site s s' :
  ltckpt_transit_window site s = Ret s' →
  s' = upd_board s (u32 site) (g_shutter_board s' (u32 site)) ∨ s' = s.
Proof.
  unfold ltckpt_transit_window. intros H. res_inv; [by right|]. left. simpl.
  by rewrite Z.eqb_refl.
Qed.

(** The parts of the state the board does not hold are the same. *)
Lemma transit_window_same site s s' :
  ltckpt_transit_window site s = Ret s' →
  rwin s' = rwin s ∧ prior_have_handled_message s' = prior_have_handled_message s ∧
  callsites s' = callsites s ∧
  g_recovery_bitmask_total_count s' = g_recovery_bitmask_total_count s ∧
  g_num_window_shutters s' = g_num_window_shutters s ∧
  g_num_kernelcall_shutters s' = g_num_kernelcall_shutters s.
Proof. intros H. destruct (transit_window_frame _ _ _ H) as [->| ->]; done. Qed.

Lemma transit_window_total site s :
  board_ok s → 0 ≤ site < 2^64 → ∃ s', ltckpt_transit_window site s = Ret s'.
Proof.
  intros Hb Hs. unfold ltckpt_transit_window.
  destruct (CHECK_SHUTTER_BOARD_SIZE s site) eqn:E; [eauto|].
  destruct (accepted_in_range s site Hb Hs E) as [_ ->]. simpl. eauto.
Qed.

Lemma site_known_spec site l : site_known site l = true ↔ site ∈ l.
Proof.
  induction l as [|c l IH]; simpl; [split; [done|by intros ?%not_elem_of_nil]|].
  rewrite elem_of_cons. destruct (Z.eqb_spec c site) as [->|]; [tauto|]. rewrite IH.
  split; [tauto|]. intros [->|]; done.
Qed.

(** The recorded call sites stay distinct and within the array. *)
Definition sites_ok (l : list Z) : Prop :=
  NoDup l ∧ (length l ≤ RECOVERY_BITMASK_CALLSITE_COUNT)%nat.

Lemma add_site_id_ok site s :
  sites_ok (callsites s) →
  sites_ok (callsites (ltckpt_add_site_id site s)) ∧
  rwin (ltckpt_add_site_id site s) = rwin s ∧
  prior_have_handled_message (ltckpt_add_site_id site s) = prior_have_handled_message s.
Proof.
  intros [Hn Hl]. unfold ltckpt_add_site_id.
  destruct (site_known site (callsites s)) eqn:Hk; [done|].
  destruct (Nat.ltb_spec (length (callsites s)) RECOVERY_BITMASK_CALLSITE_COUNT); [|done].
  split_and!; try done. split; simpl.
  - apply NoDup_app. split_and!; [done| |apply NoDup_singleton].
    intros x Hx ->%list_elem_of_singleton. apply site_known_spec in Hx. congruence.
  - rewrite length_app. simpl. lia.
Qed.

(** A site is recorded unless the array is full. *)
Lemma add_site_id_elem site s :
  (length (callsites s) < RECOVERY_BITMASK_CALLSITE_COUNT)%nat →
  site ∈ callsites (ltckpt_add_site_id site s).
Proof.
  intros Hl. unfold ltckpt_add_site_id.
  destruct (site_known site (callsites s)) eqn:Hk; [by apply site_known_spec|].
  destruct (Nat.ltb_spec (length (callsites s)) RECOVERY_BITMASK_CALLSITE_COUNT); [|lia].
  simpl. set_solver.
Qed.

(** ** Facts about the actions *)

Definition is_log (x : effect) : bool := match x with ELog _ => true | _ => false end.

(** What an action does besides logging. *)
Fixpoint externals (es : list effect) : list effect :=
  match es with
  | [] => []
  | x :: es' => if is_log x then externals es' else x :: externals es'
  end.

Lemma externals_app es es' : externals (es ++ es') = externals es ++ externals es'.
Proof. induction es as [|x es IH]; simpl; [done|]. destruct (is_log x); by rewrite IH. Qed.

Lemma elem_of_externals x es : x ∈ externals es ↔ x ∈ es ∧ is_log x = false.
Proof.
  induction es as [|y es IH]; simpl.
  { split; [by intros ?%not_elem_of_nil|by intros [?%not_elem_of_nil _]]. }
  destruct (is_log y) eqn:Hy; rewrite ?elem_of_cons, IH; split.
  - tauto.
  - intros [[->|] ?]; [congruence|done].
  - intros [->|]; tauto.
  - tauto.
Qed.

Ltac act :=
  unfold log, mbind, action_bind, mret, action_ret, get, put, emit, lift in *; simpl in *.

(** The requester of [m] learns about the failure, or its request runs again. *)
Definition told (k : cfg) (e : env) (m : message) (s' : rstate) (es : list effect) : Prop :=
  let reply := {| m_source := m_source m; m_type := ERESTART e |} in
  (ERESTART e < 0 ∧ externals es = [ESend reply] ∧ asynsend e reply = OK) ∨
  (externals es = [EKill (m_source m)] ∧
   (sys_kill e (m_source m) = OK ∨ sys_kill e (m_source m) = EINVAL e)) ∨
  (LTRC_REHANDLE_REQUEST k = true ∧ externals es = [] ∧
   has_mask (g_recovery_bitmask (rwin s')) LTCKPT_RECOVERY_REPROCESSING_REQ = true).

(** A build that runs requests again drops a fault-injection request of RS: there is
    no reply, no kill and no rerun. *)
Definition fi_dropped (k : cfg) (e : env) (m : message) (es : list effect) : Prop :=
  LTRC_REHANDLE_REQUEST k = true ∧ m_source m = RS_PROC_NR e ∧ m_type m = COMMON_REQ_FI_CTL e ∧ externals es = [].

Definition settled (k : cfg) (e : env) (m : message) (s' : rstate) (es : list effect) : Prop :=
  told k e m s' es ∨ fi_dropped k e m es.

Lemma send_reply_inv e m s es r s' es' :
  ltckpt_send_reply e m s es = Ret (r, s', es') →
  let reply := {| m_source := m_source m; m_type := ERESTART e |} in
  ERESTART e < 0 ∧ s' = s ∧ es' = es ++ [ESend reply] ∧
  (r = OK ∧ asynsend e reply = OK ∨ r = NOT_OK).
Proof.
  unfold ltckpt_send_reply. act. destruct (Z.ltb_spec (ERESTART e) 0); [|done]. simpl.
  intros [= <- <- <-]. split_and!; try done. case_match; zb; auto.
Qed.

(** A failed attempt leaves at most one message or kill behind. *)
Lemma idempotent_spec k e s es r s' es' :
  ltckpt_recovery_idempotent k e s es = Ret (r, s', es') →
  ∃ new, es' = es ++ new ∧
    (r = LTCKPT_RECOVERY_FAILURE ∨
     r = LTCKPT_RECOVERY_SUCCESS ∧
       ∃ m rp, sef_get_current_message e = Some (Some (m, rp)) ∧ settled k e m s' new).
Proof.
  unfold ltckpt_recovery_idempotent.
  destruct (sef_get_current_message e) as [[[m rp]|]|] eqn:Hm;
    [|act; intros [= <- <- <-]; eexists; split; [done|auto]..].
  destruct (LTRC_REHANDLE_REQUEST k) eqn:Hr.
  - destruct ((RS_PROC_NR e =? m_source m) && _) eqn:Hrs; act; intros [= <- <- <-].
    + exists []. rewrite app_nil_r. split; [done|]. right. split; [done|].
      exists m, rp. split; [done|]. right.
      apply andb_true_iff in Hrs as [?%Z.eqb_eq ?%Z.eqb_eq]. by split_and!.
    + eexists. split; [done|]. right. split; [done|]. exists m, rp. split; [done|].
      left. right; right. split_and!; [done..|]. by apply has_mask_lor.
  - act. destruct (_ && _); [intros [= <- <- <-]; eexists; split; [done|auto]|].
    intros H. apply res_bind_inv in H as ([[r1 s1] es1] & Hs & H). simpl in H.
    apply send_reply_inv in Hs as (He & -> & -> & [[-> Ha]| ->]); simpl in H;
      injection H as <- <- <-; rewrite <- app_assoc; eexists; (split; [done|]); [|auto].
    right. split; [done|]. exists m, rp. split; [done|]. left; left. done.
Qed.

Lemma process_specific_spec k e s es r s' es' :
  ltckpt_recovery_process_specific e s es = Ret (r, s', es') →
  ∃ new, es' = es ++ new ∧
    (r = LTCKPT_RECOVERY_FAILURE ∨
     r = LTCKPT_RECOVERY_SUCCESS ∧
       ∃ m rp, sef_get_current_message e = Some (Some (m, rp)) ∧ settled k e m s' new).
Proof.
  unfold ltckpt_recovery_process_specific.
  destruct (sef_get_current_message e) as [[[m rp]|]|] eqn:Hm;
    destruct (sef_llvm_is_user_endpoint e) as [is_user|];
    try (act; intros [= <- <- <-]; eexists; split; [done|auto]; fail).
  destruct (1 =? is_user (m_source m)).
  - act. destruct (Z.eqb_spec (sys_kill e (m_source m)) OK);
      [|destruct (Z.eqb_spec (sys_kill e (m_source m)) (EINVAL e))];
      intros [= <- <- <-]; rewrite <- app_assoc; eexists; (split; [done|]); auto;
      right; (split; [done|]); exists m, rp; (split; [done|]); left; right; left; auto.
  - destruct (0 =? is_user (m_source m)); act;
      [|intros [= <- <- <-]; eexists; split; [done|auto]].
    intros H. apply res_bind_inv in H as ([[r1 s1] es1] & Hs & H). simpl in H.
    apply send_reply_inv in Hs as (He & -> & -> & [[-> Ha]| ->]); simpl in H;
      injection H as <- <- <-; rewrite <- ?app_assoc; eexists; (split; [done|]); [|auto].
    right. split; [done|]. exists m, rp. split; [done|]. left; left. done.
Qed.

Lemma fail_stop_spec e s es r s' es' :
  ltckpt_recovery_fail_stop e s es = Ret (r, s', es') →
  ∃ new, es' = es ++ new ∧ externals new = [EAbort].
Proof.
  unfold ltckpt_recovery_fail_stop. act. intros [= <- <- <-].
  rewrite <- app_assoc. eexists; split; [done|]. done.
Qed.

Lemma dispatch_policy_spec k e s es r s' es' :
  dispatch_policy k e s es = Ret (r, s', es') →
  ∃ new, es' = es ++ new ∧
    if has_mask (g_recovery_bitmask (rwin s)) LTCKPT_RECOVERY_MASK_FAIL_STOP
    then externals new = [EAbort]
    else r = LTCKPT_RECOVERY_FAILURE ∨
         r = LTCKPT_RECOVERY_SUCCESS ∧
           ∃ m rp, sef_get_current_message e = Some (Some (m, rp)) ∧ settled k e m s' new.
Proof.
  unfold dispatch_policy. unfold mbind, action_bind, get at 1. simpl.
  destruct (has_mask _ LTCKPT_RECOVERY_MASK_FAIL_STOP).
  - unfold hypermem_log_callsites. act. intros H. res_inv.
    simpl in *. apply fail_stop_spec in H0 as (new & -> & Hn). rewrite <- !app_assoc. eexists.
    split; [done|]. by rewrite !externals_app, Hn.
  - destruct (has_mask _ LTCKPT_RECOVERY_MASK_PROCESS_SPECIFIC); [apply process_specific_spec|].
    destruct (has_mask _ LTCKPT_RECOVERY_MASK_REQUEST_SPECIFIC); [apply idempotent_spec|].
    destruct (has_mask _ LTCKPT_RECOVERY_MASK_IDEMPOTENT); [apply idempotent_spec|].
    act. intros [= <- <- <-]. eexists; split; [done|auto].
Qed.

Lemma dispatch_replyable_spec k e rp mt s es r s' es' :
  dispatch_replyable k e rp mt s es = Ret (r, s', es') →
  ∃ new, es' = es ++ new ∧
    (if decide (rp = 1) then
       if has_mask (g_recovery_bitmask (rwin s)) LTCKPT_RECOVERY_MASK_FAIL_STOP
       then externals new = [EAbort]
       else r = LTCKPT_RECOVERY_FAILURE ∨
            r = LTCKPT_RECOVERY_SUCCESS ∧
              ∃ m rp, sef_get_current_message e = Some (Some (m, rp)) ∧ settled k e m s' new
     else externals new = [] ∧ r = LTCKPT_RECOVERY_FAILURE).
Proof.
  unfold dispatch_replyable. destruct (Z.eqb_spec rp 1) as [->|Hrp].
  { intros (new & Heq & Hn)%dispatch_policy_spec. exists new. by rewrite decide_True. }
  destruct (decide (rp = 1)); [done|]. destruct (rp =? 0); [|destruct (rp =? -1)].
  - unfold hypermem_log_nonreplyable. act. intros H. res_inv. simpl in *. eauto.
  - act. intros [= <- <- <-]. eauto.
  - act. intros [= <- <- <-]. eauto.
Qed.

(** The dispatcher after its first log line, outside the [RS_FI_CUSTOM] case. *)
Lemma dispatcher_inv k e s r s' es :
  LTRC_NO_RECOVERY_ON_SVC_FI k && (ltckpt_is_message_replyable e 0).1.2 = false →
  ltckpt_recovery_dispatcher k e s [] = Ret (r, s', es) →
  ∃ r1 es1 l,
    dispatch_replyable k e (naive_replyable (g_recovery_naive_mode s) (ltckpt_is_message_replyable e 0).1.1)
      (ltckpt_is_message_replyable e 0).2 (upd_tcb s true) [ELog l] = Ret (r1, s', es1) ∧
    r = (if g_recovery_naive_mode s =? LTCKPT_RECOVERY_NAIVE_MODE_DEFAULT then r1 else LTCKPT_RECOVERY_SUCCESS) ∧
    ((r ≠ LTCKPT_RECOVERY_FAILURE ∧ es = es1) ∨
     (r = LTCKPT_RECOVERY_FAILURE ∧ ∃ l', es = es1 ++ [ELog l'; EAbort])).
Proof.
  intros Hfi H. unfold ltckpt_recovery_dispatcher in H. act.
  destruct (ltckpt_is_message_replyable e 0) as [[rp fi] mt]. simpl in *. rewrite Hfi in H.
  apply res_bind_inv in H as ([[r1 s1] es1] & Hd & H). simpl in H. exists r1, es1. eexists.
  destruct (g_recovery_naive_mode s =? LTCKPT_RECOVERY_NAIVE_MODE_DEFAULT); cbn [negb] in H.
  - destruct (Z.eqb_spec r1 LTCKPT_RECOVERY_FAILURE) as [->|Hr];
      injection H as <- <- <-; (split; [exact Hd|]); (split; [done|]); [|by left].
    right. split; [done|]. rewrite <- app_assoc. by eexists.
  - injection H as <- <- <-. split; [exact Hd|]. split; [done|]. by left.
Qed.

Lemma dispatcher_default_inv k e s r s' es :
  g_recovery_naive_mode s = LTCKPT_RECOVERY_NAIVE_MODE_DEFAULT →
  LTRC_NO_RECOVERY_ON_SVC_FI k && (ltckpt_is_message_replyable e 0).1.2 = false →
  ltckpt_recovery_dispatcher k e s [] = Ret (r, s', es) →
  ∃ r1 es1 l,
    dispatch_replyable k e (ltckpt_is_message_replyable e 0).1.1
      (ltckpt_is_message_replyable e 0).2 (upd_tcb s true) [ELog l] = Ret (r1, s', es1) ∧
    r = r1 ∧
    ((r ≠ LTCKPT_RECOVERY_FAILURE ∧ es = es1) ∨
     (r = LTCKPT_RECOVERY_FAILURE ∧ ∃ l', es = es1 ++ [ELog l'; EAbort])).
Proof.
  intros Hn Hfi H. destruct (dispatcher_inv _ _ _ _ _ _ Hfi H) as (r1 & es1 & l & Hd & Hr & Hes). rewrite Hn in Hd, Hr. eauto 10.
Qed.

(** A demanded fail-stop aborts the system, in the default mode and when it always replies. *)
Lemma fail_stop_aborts k e s r s' es :
  g_recovery_naive_mode s = LTCKPT_RECOVERY_NAIVE_MODE_DEFAULT ∨
  g_recovery_naive_mode s = LTCKPT_RECOVERY_NAIVE_MODE_ALWAYS_REPLY →
  LTRC_NO_RECOVERY_ON_SVC_FI k && (ltckpt_is_message_replyable e 0).1.2 = false →
  ltckpt_recovery_dispatcher k e s [] = Ret (r, s', es) →
  has_mask (g_recovery_bitmask (rwin s)) LTCKPT_RECOVERY_MASK_FAIL_STOP = true →
  ∃ n, externals es = repeat EAbort (S n).
Proof.
  intros Hn Hfi H Hm. destruct (dispatcher_inv _ _ _ _ _ _ Hfi H)
    as (r1 & es1 & l & Hd & Hr & Hes).
  apply dispatch_replyable_spec in Hd as (new & -> & Hnew). simpl in Hnew. rewrite Hm in Hnew.
  destruct (decide (_ = 1)) as [Hd|Hd].
  - destruct Hes as [[_ ->]|[_ [l' ->]]]; rewrite ?externals_app, Hnew; simpl;
      [by exists 0%nat|by exists 1%nat].
  - destruct Hn as [Hn|Hn]; rewrite Hn in Hr, Hd; [|by destruct Hd]. destruct Hnew as [Hx ->].
    destruct Hes as [[Hf _]|[_ [l' ->]]]; [by rewrite Hr in Hf|]. rewrite !externals_app, Hx. by exists 0%nat.
Qed.

(** The shortcut for fault-injection requests of RS, [LTRC_NO_RECOVERY_ON_SVC_FI]. *)
Definition fi_shortcut (k : cfg) (e : env) : bool :=
  LTRC_NO_RECOVERY_ON_SVC_FI k && (ltckpt_is_message_replyable e 0).1.2.

Lemma fi_shortcut_inv k e s r s' es :
  fi_shortcut k e = true → ltckpt_recovery_dispatcher k e s [] = Ret (r, s', es) →
  r = LTCKPT_RECOVERY_SUCCESS ∧ s' = upd_tcb s true ∧ externals es = [].
Proof.
  unfold fi_shortcut, ltckpt_recovery_dispatcher. intros Hfi H. act.
  destruct (ltckpt_is_message_replyable e 0) as [[rp fi] mt]. simpl in *. rewrite Hfi in H. by injection H as <- <- <-.
Qed.

Lemma no_externals es : externals es = [] → EAbort ∉ es.
Proof. intros He Ha. assert (Hx : EAbort ∈ externals es) by (by apply elem_of_externals). rewrite He in Hx. by apply not_elem_of_nil in Hx. Qed.

(** C3: safety of the recovery dispatcher in the default mode.  A fault-injection
    request of RS in a build with [LTRC_NO_RECOVERY_ON_SVC_FI] ends with success and
    nothing leaves the process.  Otherwise: when a fail-stop is demanded (the window was
    closed), nothing but aborts of the system leaves the process, and there is one, so no
    client ever sees a reply from an inconsistent server.  When the system is not aborted,
    the result is success, no fail-stop was demanded, the message was replyable and its
    requester was told exactly once (an [ERESTART] reply that was accepted, a kill, or a
    rerun of the request); the only exception is a fault-injection control request of RS
    in a build with [LTRC_REHANDLE_REQUEST], which is dropped.  A failure result always
    comes with an abort. *)
Theorem dispatcher_safety k e s r s' es :
  g_recovery_naive_mode s = LTCKPT_RECOVERY_NAIVE_MODE_DEFAULT →
  ltckpt_recovery_dispatcher k e s [] = Ret (r, s', es) →
  if fi_shortcut k e then r = LTCKPT_RECOVERY_SUCCESS ∧ externals es = [] else
  (has_mask (g_recovery_bitmask (rwin s)) LTCKPT_RECOVERY_MASK_FAIL_STOP = true →
     EAbort ∈ es ∧ ∀ x, x ∈ es → is_log x = true ∨ x = EAbort) ∧
  (EAbort ∉ es →
     r = LTCKPT_RECOVERY_SUCCESS ∧
     has_mask (g_recovery_bitmask (rwin s)) LTCKPT_RECOVERY_MASK_FAIL_STOP = false ∧
     ∃ m, sef_get_current_message e = Some (Some (m, 1)) ∧ (told k e m s' es ∨ fi_dropped k e m es)) ∧
  (r = LTCKPT_RECOVERY_FAILURE → EAbort ∈ es).
Proof.
  intros Hn H. destruct (fi_shortcut k e) eqn:Hfi; [by destruct (fi_shortcut_inv _ _ _ _ _ _ Hfi H) as (? & _ & ?)|].
  destruct (dispatcher_default_inv _ _ _ _ _ _ Hn Hfi H)
    as (r1 & es1 & l & Hd & -> & Hes).
  apply dispatch_replyable_spec in Hd as (new & -> & Hnew). simpl in Hnew.
  assert (Hext : externals es = externals new ∨
                 r1 = LTCKPT_RECOVERY_FAILURE ∧ externals es = externals new ++ [EAbort]).
  { destruct Hes as [[_ ->]|[? [l' ->]]]; rewrite ?externals_app; simpl; auto. }
  assert (Hfail : r1 = LTCKPT_RECOVERY_FAILURE → EAbort ∈ es).
  { destruct Hes as [[? ->]|[? [l' ->]]]; [done|]. intros _.
    apply elem_of_app. right. right. by left. }
  split_and!; [| |done].
  - intros Hm. pose proof (fail_stop_aborts _ _ _ _ _ _ (or_introl Hn) Hfi H Hm) as He.
    destruct He as [n He]. split.
    + apply (proj1 (elem_of_externals EAbort es)). rewrite He. simpl. by left.
    + intros x Hx. destruct (is_log x) eqn:Hlx; [by left|]. right.
      assert (Hx' : x ∈ externals es) by (by apply elem_of_externals).
      rewrite He in Hx'. apply list_elem_of_In, repeat_spec in Hx'. done.
  - intros Hna.
    assert (Hne : r1 ≠ LTCKPT_RECOVERY_FAILURE) by (intros ?; by apply Hna, Hfail).
    destruct (decide (_ = 1)) as [Hrp|]; [|by destruct Hnew].
    destruct (has_mask _ LTCKPT_RECOVERY_MASK_FAIL_STOP).
    { destruct Hna. apply (proj1 (elem_of_externals EAbort es)).
      destruct Hext as [->|[? _]]; [|done]. rewrite Hnew. by left. }
    destruct Hnew as [?|(-> & m & rp & Hm & Ht)]; [done|].
    split_and!; [done..|]. exists m. unfold ltckpt_is_message_replyable in Hrp.
    rewrite Hm in Hrp. simpl in Hrp. subst rp. split; [done|].
    destruct Hext as [Hext|[? _]]; [|done]. unfold settled, told, fi_dropped in *. by rewrite Hext.
Qed.

(** ** The call-site line *)

(** [a, b, c] *)
Fixpoint sites_string (first : bool) (l : list Z) : string :=
  match l with
  | [] => ""
  | c :: l' => (if first then "" else ", ") +:+ print_dec c +:+ sites_string false l'
  end.

Definition sites_line (total : Z) (l : list Z) : string :=
  "ltckpt recovery: window closed " +:+ print_dec total +:+ " times from " +:+
  print_dec (Z.of_nat (length l)) +:+ " callsite(s): " +:+ sites_string true l.

(** Site numbers of at most ten digits, as the instrumentation assigns them. *)
Definition small_sites (l : list Z) : Prop :=
  Forall (λ c, 0 ≤ c < 10^10) l ∧ (length l ≤ RECOVERY_BITMASK_CALLSITE_COUNT)%nat.

Lemma sites_string_length first l :
  Forall (λ c, 0 ≤ c < 10^10) l → (String.length (sites_string first l) ≤ 12 * length l)%nat.
Proof.
  intros H. revert first. induction H as [|c l Hc _ IH]; intros first; simpl; [lia|].
  rewrite !string_length_app. pose proof (print_dec_length c 9 Hc). specialize (IH false).
  destruct first; simpl; lia.
Qed.

Lemma callsites_loop_spec first l p :
  Forall (λ c, 0 ≤ c < 10^10) l →
  (String.length p + 12 * length l < hypermem_log_size)%nat →
  callsites_loop first l p = Ret (p +:+ sites_string first l).
Proof.
  intros H. revert first p. induction H as [|c l Hc Hl IH]; intros first p Hp; simpl.
  { by autorewrite with osiris_str. }
  pose proof (print_dec_length c 9 Hc). simpl length in Hp.
  rewrite s64_small by lia. rewrite hypermem_cat_num_ok by lia. simpl res_bind.
  unfold hypermem_log_size in Hp. destruct first; cat_short;
    (rewrite IH by (unfold hypermem_log_size; rewrite ?string_length_app; simpl String.length; lia));
    by rewrite !string_app_assoc.
Qed.

Lemma callsites_text_spec s :
  small_sites (callsites s) → 0 ≤ g_recovery_bitmask_total_count s < 2^63 →
  callsites_text s = Ret (sites_line (g_recovery_bitmask_total_count s) (callsites s)).
Proof.
  intros [Hs Hl] Ht. unfold callsites_text, sites_line, RECOVERY_BITMASK_CALLSITE_COUNT in *.
  pose proof (print_dec_length (g_recovery_bitmask_total_count s) 18 ltac:(simpl; lia)) as Hp.
  pose proof (print_dec_length (Z.of_nat (length (callsites s))) 1 ltac:(simpl; lia)) as Hq.
  rewrite s64_small by lia.
  cat_short. rewrite hypermem_cat_num_ok, res_bind_Ret by lia.
  cat_short. rewrite hypermem_cat_num_ok, res_bind_Ret by lia. cat_short.
  rewrite callsites_loop_spec; [|done|].
  - rewrite !string_app_assoc. done.
  - unfold hypermem_log_size. rewrite !string_length_app. simpl String.length. lia.
Qed.

Lemma nonreplyable_text_total mt r :
  -2^31 ≤ mt < 2^31 → ∃ t, nonreplyable_text mt r = Ret t.
Proof.
  intros H. unfold nonreplyable_text. destruct (decide (mt < 0)).
  - rewrite hypermem_cat_num_neg by lia. eauto.
  - rewrite hypermem_cat_num_ok by lia. eauto.
Qed.

(** ** The dispatcher always decides *)

Definition env_ok (e : env) : Prop :=
  ERESTART e < 0 ∧
  ∀ m rp, sef_get_current_message e = Some (Some (m, rp)) → -2^31 ≤ m_type m < 2^31.

(** An action returns one of the two results and stays in the trusted base. *)
Definition decides (m : action Z) (s : rstate) (es : list effect) : Prop :=
  ∃ r s' es', m s es = Ret (r, s', es') ∧
    inside_trusted_compute_base s' = inside_trusted_compute_base s ∧
    (r = LTCKPT_RECOVERY_SUCCESS ∨ r = LTCKPT_RECOVERY_FAILURE).

Ltac decided := unfold decides; act; do 3 eexists; split; [reflexivity|]; simpl; auto.

Lemma send_reply_total e m s es :
  ERESTART e < 0 → ∃ r es', ltckpt_send_reply e m s es = Ret (r, s, es').
Proof. intros H. unfold ltckpt_send_reply. act. destruct (Z.ltb_spec (ERESTART e) 0); [eauto|lia]. Qed.

Lemma idempotent_total k e s es :
  ERESTART e < 0 → decides (ltckpt_recovery_idempotent k e) s es.
Proof.
  intros H. unfold ltckpt_recovery_idempotent.
  destruct (sef_get_current_message e) as [[[m rp]|]|]; [|decided..].
  destruct (LTRC_REHANDLE_REQUEST k).
  { destruct (_ && _); decided. }
  unfold decides. act. destruct (_ && _); [decided|].
  destruct (send_reply_total e m s es H) as (r & es' & ->). simpl.
  destruct (r =? NOT_OK); decided.
Qed.

Lemma process_specific_total e s es :
  ERESTART e < 0 → decides (ltckpt_recovery_process_specific e) s es.
Proof.
  intros H. unfold ltckpt_recovery_process_specific.
  destruct (sef_get_current_message e) as [[[m rp]|]|], (sef_llvm_is_user_endpoint e) as [u|];
    try (decided; fail).
  destruct (1 =? u (m_source m)).
  { unfold decides. act. destruct (_ =? OK); [decided|]. destruct (_ =? EINVAL e); decided. }
  destruct (0 =? u (m_source m)); [|decided]. unfold decides. act.
  destruct (send_reply_total e m s es H) as (r & es' & ->). simpl.
  destruct (r =? NOT_OK); decided.
Qed.

Lemma dispatch_policy_total k e s es :
  ERESTART e < 0 → small_sites (callsites s) →
  0 ≤ g_recovery_bitmask_total_count s < 2^63 →
  decides (dispatch_policy k e) s es.
Proof.
  intros He Hs Ht. unfold dispatch_policy, decides.
  unfold mbind at 1, action_bind at 1, get at 1. simpl.
  destruct (has_mask _ LTCKPT_RECOVERY_MASK_FAIL_STOP).
  { unfold hypermem_log_callsites, ltckpt_recovery_fail_stop. act.
    rewrite callsites_text_spec by done. simpl. destruct (_ =? OK); decided. }
  destruct (has_mask _ LTCKPT_RECOVERY_MASK_PROCESS_SPECIFIC); [by apply process_specific_total|].
  destruct (has_mask _ LTCKPT_RECOVERY_MASK_REQUEST_SPECIFIC); [by apply idempotent_total|].
  destruct (has_mask _ LTCKPT_RECOVERY_MASK_IDEMPOTENT); [by apply idempotent_total|].
  decided.
Qed.

Lemma dispatch_replyable_total k e rp mt s es :
  ERESTART e < 0 → small_sites (callsites s) →
  0 ≤ g_recovery_bitmask_total_count s < 2^63 → -2^31 ≤ mt < 2^31 →
  decides (dispatch_replyable k e rp mt) s es.
Proof.
  intros He Hs Ht Hm. unfold dispatch_replyable.
  destruct (rp =? 1); [by apply dispatch_policy_total|].
  destruct (rp =? 0); [|destruct (rp =? -1); decided].
  unfold hypermem_log_nonreplyable, decides.
  destruct (nonreplyable_text_total mt LTCKPT_RECOVERY_FAILURE Hm) as [t ->]. decided.
Qed.

(** C32: the dispatcher always reaches a decision: for every build, policy mask,
    naive mode and answer of SEF and the kernel it returns (no assertion, null
    pointer or buffer overrun on the way), provided the error code is negative
    and the recorded call sites are site numbers. *)
Theorem dispatcher_total k e s :
  env_ok e → small_sites (callsites s) → 0 ≤ g_recovery_bitmask_total_count s < 2^63 →
  ∃ r s' es, ltckpt_recovery_dispatcher k e s [] = Ret (r, s', es) ∧
    inside_trusted_compute_base s' = true ∧
    (r = LTCKPT_RECOVERY_SUCCESS ∨ r = LTCKPT_RECOVERY_FAILURE).
Proof.
  intros [He Hm] Hs Ht. unfold ltckpt_recovery_dispatcher. act.
  assert (Hmt : -2^31 ≤ (ltckpt_is_message_replyable e 0).2 < 2^31).
  { unfold ltckpt_is_message_replyable.
    destruct (sef_get_current_message e) as [[[m rp]|]|] eqn:E; simpl; [|lia..]. by eapply Hm. }
  destruct (ltckpt_is_message_replyable e 0) as [[rp fi] mt]. simpl in *.
  destruct (_ && fi); [do 3 eexists; split; [reflexivity|]; simpl; auto|].
  edestruct (dispatch_replyable_total k e (naive_replyable (g_recovery_naive_mode s) rp) mt
    (upd_tcb s true)) as (r & s' & es' & -> & Htcb & Hr); [done..|]. simpl in *.
  destruct (negb _); simpl; [do 3 eexists; split; [reflexivity|]; auto|].
  destruct (r =? LTCKPT_RECOVERY_FAILURE); do 3 eexists; (split; [reflexivity|]); auto.
Qed.

(** ** Fault injection crashes only where recovery works *)

Lemma do_suicide_crash k s s1 :
  ltckpt_do_suicide k s = Crashes s1 →
  inside_trusted_compute_base s = false ∧
  g_recovery_bitmask (rwin s) = LTCKPT_RECOVERY_MASK_IDEMPOTENT ∧
  rwin s1 = rwin s ∧ callsites s1 = callsites s ∧
  g_recovery_naive_mode s1 = g_recovery_naive_mode s.
Proof.
  unfold ltckpt_do_suicide. destruct (LTRC_SUICIDE_ONLY_ONCE k);
    (destruct (inside_trusted_compute_base _) eqn:Ht; [done|]);
    simpl in *; destruct (Z.eqb_spec (g_recovery_bitmask (rwin s)) LTCKPT_RECOVERY_MASK_IDEMPOTENT);
    simpl; try done; intros [= <-]; done.
Qed.

Lemma periodic_step_same index s s' b :
  periodic_step index s = Ret (s', b) →
  rwin s' = rwin s ∧ callsites s' = callsites s ∧
  inside_trusted_compute_base s' = inside_trusted_compute_base s ∧
  prior_have_handled_message s' = prior_have_handled_message s ∧
  g_recovery_naive_mode s' = g_recovery_naive_mode s.
Proof.
  unfold periodic_step. intros H. res_inv;
    repeat match goal with H : (_, _) = (_, _) |- _ => injection H as <- <- end; done.
Qed.

(** What has been checked when a site crashes. *)
Lemma suicide_per_site_crash k e site s s1 :
  ltckpt_do_suicide_per_site k e site s = Ret (Crashes s1) →
  sa_window__is_open (rwin s) = true ∧ inside_trusted_compute_base s = false ∧
  sef_init_done e = true ∧ suicide_on_window_close s = true ∧
  0 < do_suicide (g_shutter_board s (u32 site)) ∧
  g_recovery_bitmask (rwin s1) = LTCKPT_RECOVERY_MASK_IDEMPOTENT ∧
  g_recovery_naive_mode s1 = g_recovery_naive_mode s ∧
  ∃ m rp, sef_get_current_message e = Some (Some (m, rp)) ∧ m_source m ≠ RS_PROC_NR e ∧
    (LTRC_SUICIDE_WHEN_RECOVERABLE k = true → rp = 1).
Proof.
  unfold ltckpt_do_suicide_per_site. intros H.
  destruct (CHECK_SHUTTER_BOARD_SIZE s site); [done|].
  destruct (inside_trusted_compute_base s) eqn:Ht; [done|].
  destruct (sef_init_done e) eqn:Hi; simpl in H; [|done].
  destruct (sef_get_current_message e) as [cur|] eqn:Hm; [|done].
  destruct (sa_window__is_open (rwin s)) eqn:Ho; simpl in H; [|done].
  destruct (board_in_range (u32 site)); simpl in H; [|done].
  destruct (Z.ltb_spec 0 (do_suicide (g_shutter_board s (u32 site)))); simpl in H; [|done].
  destruct (suicide_on_window_close s) eqn:Hc; simpl in H; [|done].
  destruct cur as [[m rp]|]; [|done].
  destruct (Z.eqb_spec (m_source m) (RS_PROC_NR e)); [done|].
  destruct (rs_ready e); simpl in H; [|done].
  destruct (LTRC_SUICIDE_WHEN_RECOVERABLE k && _) eqn:Hrec; [done|].
  assert (Hrp : LTRC_SUICIDE_WHEN_RECOVERABLE k = true → rp = 1).
  { intros Hk. rewrite Hk in Hrec. unfold ltckpt_is_message_replyable in Hrec.
    rewrite Hm in Hrec. simpl in Hrec. destruct rp as [|[]|]; simpl in *; congruence. }
  assert (Hd : ∃ s0, ltckpt_do_suicide k s0 = Crashes s1 ∧ rwin s0 = rwin s ∧
                     g_recovery_naive_mode s0 = g_recovery_naive_mode s).
  { destruct (LTRC_SUICIDE_PERIODICALLY k).
    - apply res_bind_inv in H as ([s0 b] & Hp & H). simpl in H. destruct b; [|done].
      apply periodic_step_same in Hp as (? & ? & ? & ? & ?). injection H as H. eauto.
    - injection H as H. eexists. split; [exact H|done]. }
  destruct Hd as (s0 & Hd & Hw & Hn).
  apply do_suicide_crash in Hd as (_ & Hmask & Hw1 & _ & Hn1).
  rewrite Hw1, Hn1. split_and!; try done. exists m, rp. done.
Qed.

(** Deterministic fault injection crashes only where recovery works.  With
    [LTRC_SUICIDE_WHEN_RECOVERABLE], a site that crashes the process does so
    with the recovery window open, outside the trusted base and not on a
    message from RS; and the dispatcher run on the crash state, with a kernel
    that accepts the reply, succeeds without aborting the system. *)
Theorem suicide_is_recoverable k e site s s1 :
  LTRC_SUICIDE_WHEN_RECOVERABLE k = true →
  g_recovery_naive_mode s = LTCKPT_RECOVERY_NAIVE_MODE_DEFAULT →
  ERESTART e < 0 → (∀ m, asynsend e m = OK) →
  ltckpt_do_suicide_per_site k e site s = Ret (Crashes s1) →
  sa_window__is_open (rwin s) = true ∧ inside_trusted_compute_base s = false ∧
  ∃ m s2 es, sef_get_current_message e = Some (Some (m, 1)) ∧ m_source m ≠ RS_PROC_NR e ∧
    ltckpt_recovery_dispatcher k e s1 [] = Ret (LTCKPT_RECOVERY_SUCCESS, s2, es) ∧
    externals es =
      (if LTRC_REHANDLE_REQUEST k then []
       else [ESend {| m_source := m_source m; m_type := ERESTART e |}]).
Proof.
  intros Hk Hn He Ha H.
  apply suicide_per_site_crash in H as
    (Ho & Ht & _ & _ & _ & Hmask & Hn1 & m & rp & Hm & Hrs & Hrp).
  rewrite (Hrp Hk) in Hm. split_and!; [done..|].
  unfold ltckpt_recovery_dispatcher, ltckpt_is_message_replyable. rewrite Hm. act.
  destruct (Z.eqb_spec (RS_PROC_NR e) (m_source m)); [congruence|]. simpl.
  rewrite andb_false_r, Hn1, Hn. simpl.
  unfold dispatch_replyable, dispatch_policy. act. rewrite Hmask. simpl.
  unfold ltckpt_recovery_idempotent. rewrite Hm. destruct (LTRC_REHANDLE_REQUEST k).
  - destruct (Z.eqb_spec (RS_PROC_NR e) (m_source m)); [congruence|]. act.
    do 3 eexists. split_and!; try done.
  - act. unfold ltckpt_send_reply. act. destruct (Z.ltb_spec (ERESTART e) 0); [|lia]. simpl.
    rewrite Ha. simpl. do 3 eexists. split_and!; try done.
Qed.

(** ** Bounds of the shutter board *)

Lemma dump_loop_kernel fuel s i n :
  board_ok s → g_num_window_shutters s ≤ LTCKPT_SHUTTER_BOARD_IPC_END →
  LTCKPT_SHUTTER_BOARD_IPC_END < i →
  i + Z.of_nat n = LTCKPT_SHUTTER_BOARD_IPC_END + g_num_kernelcall_shutters s + 1 →
  (n < fuel)%nat → dump_loop fuel s i = Ret (seqZ i (Z.of_nat n)).
Proof.
  unfold board_ok, LTCKPT_SHUTTER_BOARD_IPC_END, LTCKPT_MAX_WINDOW_SHUTTERS.
  revert i n. induction fuel as [|fuel IH]; intros i n Hb Hw Hi Hn Hf; [lia|].
  simpl. unfold LTCKPT_SHUTTER_BOARD_IPC_END in *. rewrite u64_small by lia.
  destruct n as [|n].
  { destruct (Z.leb_spec i (1024 + g_num_kernelcall_shutters s)); [lia|done]. }
  destruct (Z.leb_spec i (1024 + g_num_kernelcall_shutters s)); [|lia].
  destruct (Z.eqb_spec i (g_num_window_shutters s)); [lia|].
  replace (board_in_range i) with true
    by (symmetry; unfold board_in_range, LTCKPT_MAX_WINDOW_SHUTTERS; zb).
  rewrite u32_small by lia. rewrite (IH (i + 1) n) by lia. simpl res_bind.
  rewrite (seqZ_cons i (Z.of_nat (S n))) by lia. repeat f_equal; lia.
Qed.

Lemma dump_loop_spec fuel s i n :
  board_ok s → g_num_window_shutters s ≤ LTCKPT_SHUTTER_BOARD_IPC_END →
  0 ≤ i → i + Z.of_nat n = g_num_window_shutters s →
  (n + Z.to_nat (Z.max 1 (g_num_kernelcall_shutters s)) < fuel)%nat →
  dump_loop fuel s i =
    Ret (seqZ i (Z.of_nat n) ++ seqZ 1025 (Z.max 1 (g_num_kernelcall_shutters s))).
Proof.
  unfold board_ok, LTCKPT_SHUTTER_BOARD_IPC_END, LTCKPT_MAX_WINDOW_SHUTTERS.
  revert i n. induction fuel as [|fuel IH]; intros i n Hb Hw Hi Hn Hf; [lia|].
  simpl. unfold LTCKPT_SHUTTER_BOARD_IPC_END in *. rewrite u64_small by lia.
  destruct (Z.leb_spec i (1024 + g_num_kernelcall_shutters s)); [|lia].
  destruct (Z.eqb_spec i (g_num_window_shutters s)).
  - assert (n = 0%nat) as -> by lia. change (board_in_range (1024 + 1)) with true.
    change (u32 (1024 + 1 + 1)) with 1026. cbv beta iota.
    destruct (decide (g_num_kernelcall_shutters s = 0)) as [H0|H0].
    + rewrite H0. simpl. destruct fuel; [lia|]. simpl. unfold LTCKPT_SHUTTER_BOARD_IPC_END.
      by rewrite H0.
    + rewrite (dump_loop_kernel fuel s 1026 (Z.to_nat (g_num_kernelcall_shutters s - 1)))
        by (unfold board_ok, LTCKPT_SHUTTER_BOARD_IPC_END, LTCKPT_MAX_WINDOW_SHUTTERS; lia).
      simpl. rewrite (seqZ_cons 1025) by lia. repeat f_equal; lia.
  - destruct n as [|n]; [lia|].
    replace (board_in_range i) with true
      by (symmetry; unfold board_in_range, LTCKPT_MAX_WINDOW_SHUTTERS; zb).
    rewrite u32_small by lia. rewrite (IH (i + 1) n) by lia. simpl res_bind.
    rewrite (seqZ_cons i (Z.of_nat (S n))) by lia. simpl. repeat f_equal; lia.
Qed.

(** The shutter board is accessed within its bounds.  When the kernel-call
    range fits behind the IPC range, every policy hook returns for every 64-bit
    site number (a site off the board is refused), and so does the suicide
    switch of a build that is not periodic; [ltckpt_dump_shutter_board] prints
    every IPC switch followed by every kernel-call switch (and one unused
    switch when there is none). *)
Theorem shutter_board_bounds k e site s :
  board_ok s → g_num_window_shutters s ≤ LTCKPT_SHUTTER_BOARD_IPC_END → 0 ≤ site < 2^64 →
  is_ret (ltckpt_set_idempotent_recovery site s) = true ∧
  is_ret (ltckpt_set_request_specific_recovery site s) = true ∧
  is_ret (ltckpt_set_process_local_recovery site s) = true ∧
  is_ret (ltckpt_set_fail_stop_recovery e site s) = true ∧
  (LTRC_SUICIDE_PERIODICALLY k = false →
   is_ret (ltckpt_do_suicide_per_site k e site s) = true) ∧
  ltckpt_dump_shutter_board s =
    Ret (seqZ 0 (g_num_window_shutters s) ++
         seqZ 1025 (Z.max 1 (g_num_kernelcall_shutters s))).
Proof.
  intros Hb Hw Hs. destruct (transit_window_total site s Hb Hs) as [s' Hs'].
  unfold ltckpt_set_idempotent_recovery, ltckpt_set_request_specific_recovery,
    ltckpt_set_process_local_recovery, ltckpt_set_fail_stop_recovery. rewrite Hs'. simpl.
  split_and!; try (by destruct (inside_trusted_compute_base s)).
  - intros Hk. unfold ltckpt_do_suicide_per_site. rewrite Hk.
    destruct (CHECK_SHUTTER_BOARD_SIZE s site) eqn:E; [done|].
    destruct (accepted_in_range s site Hb Hs E) as [_ ->].
    repeat (case_match; try done).
  - unfold ltckpt_dump_shutter_board. destruct (Z.leb_spec (g_num_window_shutters s)
      LTCKPT_SHUTTER_BOARD_IPC_END); [|lia].
    destruct Hb. rewrite (dump_loop_spec _ s 0 (Z.to_nat (g_num_window_shutters s)));
      [by rewrite Z2Nat.id|done|done|lia|lia|].
    unfold dump_fuel, LTCKPT_SHUTTER_BOARD_IPC_END, LTCKPT_MAX_WINDOW_SHUTTERS in *. lia.
Qed.

(** In a periodic build the per-site period table has 1000 entries while
    the site check accepts sites up to the end of the shutter board: an armed
    switch at an accepted site of 1000 or more indexes past the table. *)
Theorem periodic_board_overrun k e m rp site s :
  LTRC_SUICIDE_PERIODICALLY k = true → LTRC_SUICIDE_WHEN_RECOVERABLE k = false ∨ rp = 1 →
  board_ok s → BEN_BOARD ≤ site < 2^64 → CHECK_SHUTTER_BOARD_SIZE s site = false →
  sef_get_current_message e = Some (Some (m, rp)) → m_source m ≠ RS_PROC_NR e →
  sef_init_done e = true → rs_ready e = true →
  inside_trusted_compute_base s = false → sa_window__is_open (rwin s) = true →
  suicide_on_window_close s = true → 0 < do_suicide (g_shutter_board s site) →
  ltckpt_do_suicide_per_site k e site s = Stop FBounds.
Proof.
  intros Hk Hr Hb Hs Hc Hm Hrs Hi Hrr Ht Ho Hsc Hd. unfold BEN_BOARD in Hs.
  unfold ltckpt_do_suicide_per_site.
  destruct (accepted_in_range s site Hb ltac:(lia) Hc) as [Hu Hrange].
  rewrite Hc, Ht, Hi, Hm, Ho, Hrange, Hu, Hsc, Hrr, Hk. cbn [negb].
  destruct (Z.ltb_spec 0 (do_suicide (g_shutter_board s site))); [|lia]. cbn [andb negb].
  destruct (Z.eqb_spec (m_source m) (RS_PROC_NR e)); [done|]. unfold ltckpt_is_message_replyable.
  rewrite Hm.
  assert (Hx : LTRC_SUICIDE_WHEN_RECOVERABLE k && negb (1 =? rp) = false).
  { destruct Hr as [->| ->]; [done|apply andb_false_r]. }
  cbn [fst snd]. rewrite Hx. unfold periodic_step, BEN_BOARD. by destruct (Z.ltb_spec site 1000); [lia|].
Qed.

(** ** Examples *)

Definition demo_cfg : cfg := Build_cfg false true true true false false.
Definition demo_env : env :=
  Build_env true true (Some (Some ({| m_source := 7; m_type := 1025 |}, 1))) (Some (λ _, 0))
    (λ _, OK) (λ _, OK) OK true 2 3000 (-33) 22.
Definition demo_prof : profile := Build_profile 0 0 0 0 0 0.
Definition initial (name : string) (nw nk : Z) : rstate :=
  Build_rstate {| sa_window__is_open := false;
                  g_recovery_bitmask := LTCKPT_RECOVERY_MASK_IDEMPOTENT;
                  g_recovery_bitmask_reason := None |}
    false true false (λ _, {| do_suicide := 1; num_end := 0; bb_in := 0 |})
    (λ _, {| transits := 0; period := 0 |}) nw nk LTCKPT_RECOVERY_NAIVE_MODE_DEFAULT [] 0 false
    demo_prof name.
(** A message arrives: the window opens. *)
Definition demo_open : rstate :=
  upd_suicide (ltckpt_detect_start_of_window_hook demo_env (initial "pm" 1010 20)) true.
(** Site 5 closes it. *)
Definition demo_closed : rstate :=
  ret_or demo_open (ltckpt_set_fail_stop_recovery demo_env 5 demo_open).

Definition demo_run (s : rstate) : Z * rstate * list effect :=
  ret_or (0, s, []) (ltckpt_recovery_dispatcher demo_cfg demo_env s []).

Lemma demo_run_eq s :
  is_ret (ltckpt_recovery_dispatcher demo_cfg demo_env s []) = true →
  ltckpt_recovery_dispatcher demo_cfg demo_env s [] =
    Ret ((demo_run s).1.1, (demo_run s).1.2, (demo_run s).2).
Proof.
  intros H. rewrite (is_ret_or (0, s, []) _ H). unfold demo_run.
  by destruct (ret_or _ _) as [[? ?] ?].
Qed.

Lemma demo_closed_ret : is_ret (ltckpt_recovery_dispatcher demo_cfg demo_env demo_closed []) = true.
Proof. vm_compute. reflexivity. Qed.
Lemma demo_open_ret : is_ret (ltckpt_recovery_dispatcher demo_cfg demo_env demo_open []) = true.
Proof. vm_compute. reflexivity. Qed.
Lemma demo_open_no_abort : EAbort ∉ (demo_run demo_open).2.
Proof. intros H%list_elem_of_In. vm_compute in H. intuition discriminate. Qed.

Lemma dispatcher_safety_witness :
  EAbort ∈ (demo_run demo_closed).2 ∧ (demo_run demo_open).1.1 = LTCKPT_RECOVERY_SUCCESS.
Proof.
  destruct (dispatcher_safety demo_cfg demo_env demo_closed _ _ _ eq_refl
    (demo_run_eq demo_closed demo_closed_ret)) as (H1 & _ & _).
  destruct (dispatcher_safety demo_cfg demo_env demo_open _ _ _ eq_refl
    (demo_run_eq demo_open demo_open_ret)) as (_ & H2 & _).
  split; [apply H1; vm_compute; reflexivity|apply H2, demo_open_no_abort].
Defined.

Lemma dispatcher_total_witness :
  ∃ r s' es, ltckpt_recovery_dispatcher demo_cfg demo_env demo_closed [] = Ret (r, s', es) ∧
    inside_trusted_compute_base s' = true ∧
    (r = LTCKPT_RECOVERY_SUCCESS ∨ r = LTCKPT_RECOVERY_FAILURE).
Proof.
  apply dispatcher_total.
  - split; [vm_compute; reflexivity|]. intros m rp [= <- <-]. simpl. lia.
  - split; [|vm_compute; lia]. change (callsites demo_closed) with [5].
    apply Forall_cons. split; [lia|apply Forall_nil_2].
  - change (g_recovery_bitmask_total_count demo_closed) with 1. lia.
Defined.

Definition demo_crash : rstate :=
  match ltckpt_do_suicide_per_site demo_cfg demo_env 5 demo_open with
  | Ret (Crashes s) => s
  | _ => demo_open
  end.

Lemma suicide_is_recoverable_witness :
  ∃ m s2 es, sef_get_current_message demo_env = Some (Some (m, 1)) ∧
    ltckpt_recovery_dispatcher demo_cfg demo_env demo_crash [] =
      Ret (LTCKPT_RECOVERY_SUCCESS, s2, es) ∧
    externals es = [ESend {| m_source := m_source m; m_type := ERESTART demo_env |}].
Proof.
  destruct (suicide_is_recoverable demo_cfg demo_env 5 demo_open demo_crash
    ltac:(reflexivity) ltac:(reflexivity) ltac:(reflexivity) ltac:(reflexivity)
    ltac:(reflexivity)) as (_ & _ & m & s2 & es & Hm & _ & Hd & He).
  exists m, s2, es. done.
Defined.

Lemma shutter_board_bounds_witness :
  is_ret (ltckpt_set_fail_stop_recovery demo_env 1044 demo_open) = true ∧
  is_ret (ltckpt_do_suicide_per_site demo_cfg demo_env (2^64 - 1) demo_open) = true.
Proof.
  split; apply (shutter_board_bounds demo_cfg demo_env _ demo_open);
    solve [vm_compute; intuition congruence].
Defined.

Lemma periodic_board_overrun_witness :
  ltckpt_do_suicide_per_site (Build_cfg true false true true false false) demo_env 1000 demo_open
    = Stop FBounds.
Proof.
  apply (periodic_board_overrun _ demo_env {| m_source := 7; m_type := 1025 |} 1);
    solve [reflexivity | by right | vm_compute; intuition congruence].
Defined.
