(* ===== verification/RecoverySystem.v ===== *)
(** * The recovery runtime as a whole

    An instrumented server runs the window hooks and policy hooks of
    [ltckpt_recover.c] and the write hooks of [ltckpt_writelog.c], which share
    the window variables.  A run is a sequence of hook events; [reachable] are
    the states of runs.  The theorems say that, while a request is handled, the
    window is open exactly as long as recovery is possible, and that what the
    dispatcher does after a crash agrees with what the undo log can restore. *)

From Stdlib Require Import ZArith Lia Ascii String.
From stdpp Require Import base list numbers strings.
From S2P Require Import Prelude Decimal LogFmt Runtime Writelog Recover.
Import Window.
#[local] Arguments Z.testbit : simpl never.
#[local] Arguments Z.lor : simpl never.
#[local] Arguments Z.land : simpl never.

(** ** Processes and their events *)

(** The window lives in [rwin pr]; the copy in [pw] is refreshed at each event. *)
Record proc := { pr : rstate; pw : wlstate }.

Inductive event :=
| EvMessage (e : env)                      (** [ltckpt_detect_start_of_window_hook] *)
| EvIdempotent (site : Z)                  (** [ltckpt_set_idempotent_recovery] *)
| EvRequestSpecific (site : Z)             (** [ltckpt_set_request_specific_recovery] *)
| EvProcessLocal (site : Z)                (** [ltckpt_set_process_local_recovery] *)
| EvFailStop (e : env) (site : Z)          (** [ltckpt_set_fail_stop_recovery] *)
| EvSwitch (e : env) (site : Z)            (** [ltckpt_do_suicide_per_site], survived *)
| EvFiCustom                               (** [sef_fi_custom] *)
| EvCount (inside : bool)                  (** [inc_counter_*] *)
| EvCheckpoint                             (** the top-of-the-loop hook of the undo log *)
| EvRehandled                              (** [ltckpt_deactivate_req_rehandling] *)
| EvWrites (os : list op).                 (** instrumented writes *)

Section System.
Context (k : cfg) (c : wlconf).

Definition with_rstate (p : proc) (s : rstate) : proc := {| pr := s; pw := pw p |}.

Definition handle (ev : event) (p : proc) : res proc :=
  let s := pr p in
  match ev with
  | EvMessage e => Ret (with_rstate p (ltckpt_detect_start_of_window_hook e s))
  | EvIdempotent site => let! s' := ltckpt_set_idempotent_recovery site s in Ret (with_rstate p s')
  | EvRequestSpecific site =>
      let! s' := ltckpt_set_request_specific_recovery site s in Ret (with_rstate p s')
  | EvProcessLocal site =>
      let! s' := ltckpt_set_process_local_recovery site s in Ret (with_rstate p s')
  | EvFailStop e site => let! s' := ltckpt_set_fail_stop_recovery e site s in Ret (with_rstate p s')
  | EvSwitch e site =>
      let! o := ltckpt_do_suicide_per_site k e site s in
      match o with Survives s' => Ret (with_rstate p s') | Crashes _ => Stop FNull end
  | EvFiCustom => let! rs := sef_fi_custom k s in Ret (with_rstate p rs.2)
  | EvCount b => Ret (with_rstate p (if b then inc_counter_inwindow s else inc_counter_outsidewindow s))
  | EvCheckpoint => Ret {| pr := s; pw := ltckpt_top_of_the_loop c (pw p) |}
  | EvRehandled => Ret (with_rstate p (ltckpt_deactivate_req_rehandling s))
  | EvWrites os =>
      let! w := run_ops c (set_win (pw p) (rwin s)) os in
      Ret {| pr := upd_win s (win w); pw := w |}
  end.

(** SEF changes [have_handled_message] only around the message hook. *)
Definition sees (ev : event) (p : proc) : Prop :=
  match ev with
  | EvFailStop e _ => have_handled_message e = prior_have_handled_message (pr p)
  | _ => True
  end.

(** The globals as the C program starts with them; the board, the shutter
    counts and the module name are set up by the instrumentation. *)
Record is_initial (s : rstate) : Prop := {
  init_closed : sa_window__is_open (rwin s) = false;
  init_mask : g_recovery_bitmask (rwin s) = LTCKPT_RECOVERY_MASK_IDEMPOTENT;
  init_prior : prior_have_handled_message s = false;
  init_sites : callsites s = [];
}.

Inductive reachable : proc → Prop :=
| reach_initial p : is_initial (pr p) → reachable p
| reach_step p ev p' : reachable p → sees ev p → handle ev p = Ret p' → reachable p'.

(** ** The window invariant *)

Record window_inv (s : rstate) : Prop := {
  wi_idle : prior_have_handled_message s = false → sa_window__is_open (rwin s) = false;
  wi_busy : prior_have_handled_message s = true →
    sa_window__is_open (rwin s) = negb (Z.testbit (g_recovery_bitmask (rwin s)) 3);
  wi_idempotent : Z.testbit (g_recovery_bitmask (rwin s)) 0 = true;
  wi_request : Z.testbit (g_recovery_bitmask (rwin s)) 1 = false;
  wi_sites : sites_ok (callsites s);
}.

(** Same window, prior flag and sites: same invariant. *)
Lemma window_inv_same s s' :
  window_inv s → rwin s' = rwin s →
  prior_have_handled_message s' = prior_have_handled_message s → callsites s' = callsites s →
  window_inv s'.
Proof. intros [] Hw Hp Hc. constructor; rewrite ?Hw, ?Hp, ?Hc; done. Qed.

(** Adding a mask other than fail-stop and request-specific. *)
Lemma window_inv_mask s m :
  window_inv s → Z.testbit m 3 = false → Z.testbit m 1 = false →
  window_inv (upd_win s (add_mask (rwin s) m)).
Proof.
  intros [] H3 H1. constructor; simpl; rewrite ?Z.lor_spec, ?H3, ?H1, ?orb_false_r; try done.
  by rewrite wi_idempotent0.
Qed.

Lemma window_inv_transit_mask site m s s' :
  window_inv s → Z.testbit m 3 = false → Z.testbit m 1 = false →
  ltckpt_transit_window site s = Ret s' → window_inv (upd_win s' (add_mask (rwin s') m)).
Proof.
  intros Hi H3 H1 H. apply window_inv_mask; [|done..].
  apply transit_window_same in H as (? & ? & ? & _). by eapply window_inv_same.
Qed.

Lemma window_inv_message e s :
  window_inv s → window_inv (ltckpt_detect_start_of_window_hook e s).
Proof.
  intros [Hidle Hbusy H0 H1 Hs]. unfold ltckpt_detect_start_of_window_hook.
  destruct (prior_have_handled_message s) eqn:Hp, (have_handled_message e); simpl.
  - constructor; simpl; auto; done.
  - constructor; simpl; auto; done.
  - destruct (wprof_enable_stats s); constructor; simpl; try done; split; simpl;
      [constructor|lia|constructor|lia].
  - constructor; simpl; auto; done.
Qed.

Lemma window_inv_fail_stop e site s s' :
  window_inv s → have_handled_message e = prior_have_handled_message s →
  ltckpt_set_fail_stop_recovery e site s = Ret s' → window_inv s'.
Proof.
  intros Hi He H. unfold ltckpt_set_fail_stop_recovery in H.
  destruct (inside_trusted_compute_base s); [by injection H as <-|].
  apply res_bind_inv in H as (s1 & H1 & H). injection H as <-.
  apply transit_window_same in H1 as (Hw & Hp & Hc & _).
  assert (Hi1 : window_inv s1) by (by eapply window_inv_same). rewrite <- Hp in He.
  clear Hi Hw Hp Hc. destruct Hi1 as [Hidle Hbusy H0 H1 Hs].
  unfold ltckpt_close_r_window. rewrite He.
  set (s2 := (if prior_have_handled_message s1 && _ then _ else _).2).
  assert (H2 : prior_have_handled_message s2 = prior_have_handled_message s1 ∧
               callsites s2 = callsites s1 ∧ sa_window__is_open (rwin s2) = false ∧
               g_recovery_bitmask (rwin s2) = g_recovery_bitmask (rwin s1)).
  { subst s2. destruct (prior_have_handled_message s1) eqn:Hp; simpl; [|auto].
    destruct (sa_window__is_open (rwin s1)) eqn:Ho; simpl; [|auto].
    by destruct (wprof_enable_stats s1); simpl. }
  destruct H2 as (Hp2 & Hc2 & Ho2 & Hm2).
  assert (Hs2 : sites_ok (callsites s2)) by (by rewrite Hc2).
  pose proof (add_site_id_ok site (upd_win s2
    {| sa_window__is_open := sa_window__is_open (rwin s2);
       g_recovery_bitmask := Z.lor (g_recovery_bitmask (rwin s2)) LTCKPT_RECOVERY_MASK_FAIL_STOP;
       g_recovery_bitmask_reason := Some fail_stop_reason |}) Hs2) as (Ha & Hb & Hd).
  constructor; simpl; rewrite ?Hb, ?Hd; simpl; rewrite ?Ho2, ?Hm2, ?Z.lor_spec; try done.
  - by rewrite orb_true_r.
  - by rewrite H0.
  - by rewrite H1.
  - by rewrite Ho2, Hm2 in Ha.
Qed.

Lemma window_inv_overflow s : window_inv s → window_inv (upd_win s (close_on_overflow (rwin s))).
Proof.
  intros []. constructor; simpl; rewrite ?Z.lor_spec; try done.
  - by rewrite orb_true_r.
  - by rewrite wi_idempotent0.
  - by rewrite wi_request0.
Qed.

Lemma window_inv_rehandled s : window_inv s → window_inv (ltckpt_deactivate_req_rehandling s).
Proof.
  intros []. constructor; simpl; rewrite ?Z.land_spec; try done.
  - change (Z.testbit (u32 (Z.lnot LTCKPT_RECOVERY_REPROCESSING_REQ)) 3) with true.
    by rewrite andb_true_r.
  - by rewrite wi_idempotent0.
  - by rewrite wi_request0.
Qed.

(** A surviving suicide switch keeps window, prior flag and sites. *)
Lemma suicide_survives_same e site s s' :
  ltckpt_do_suicide_per_site k e site s = Ret (Survives s') →
  rwin s' = rwin s ∧ prior_have_handled_message s' = prior_have_handled_message s ∧
  callsites s' = callsites s.
Proof.
  assert (Hd : ∀ t t', ltckpt_do_suicide k t = Survives t' →
    rwin t' = rwin t ∧ prior_have_handled_message t' = prior_have_handled_message t ∧
    callsites t' = callsites t).
  { intros t t'. unfold ltckpt_do_suicide.
    destruct (LTRC_SUICIDE_ONLY_ONCE k); repeat case_match; intros Ht; by simplify_eq. }
  unfold ltckpt_do_suicide_per_site. intros Hret.
  repeat (case_match; try (by simplify_eq)).
  - apply res_bind_inv in Hret as ([t b] & Ht & Hret). simpl in Hret. injection Hret as Hret.
    apply periodic_step_same in Ht as (Hw & Hc & _ & Hp & _).
    destruct b; [apply Hd in Hret as (? & ? & ?)|injection Hret as <-]; intuition congruence.
  - injection Hret as Hret. by apply Hd in Hret.
Qed.

Lemma sef_fi_custom_same s r :
  sef_fi_custom k s = Ret r →
  rwin r.2 = rwin s ∧ prior_have_handled_message r.2 = prior_have_handled_message s ∧
  callsites r.2 = callsites s.
Proof.
  unfold sef_fi_custom. intros H. apply res_bind_inv in H as (l & _ & H). injection H as <-.
  simpl. by destruct (_ || _), (TOGGLE_ENABLE_STATS k).
Qed.

Lemma handle_inv ev p p' :
  window_inv (pr p) → sees ev p → handle ev p = Ret p' → window_inv (pr p').
Proof.
  intros Hi Hs H. destruct ev; simpl in H, Hs.
  - injection H as <-. by apply window_inv_message.
  - unfold ltckpt_set_idempotent_recovery in H. res_inv; simpl; try done.
    by eapply window_inv_transit_mask.
  - unfold ltckpt_set_request_specific_recovery in H. res_inv; simpl; try done.
    by eapply window_inv_transit_mask.
  - unfold ltckpt_set_process_local_recovery in H. res_inv; simpl; try done.
    by eapply window_inv_transit_mask.
  - res_inv. by eapply window_inv_fail_stop.
  - apply res_bind_inv in H as ([s'|] & Ho & H); [|done]. injection H as <-.
    apply suicide_survives_same in Ho as (? & ? & ?). by eapply window_inv_same.
  - apply res_bind_inv in H as (r & Hr & H). injection H as <-.
    apply sef_fi_custom_same in Hr as (? & ? & ?). by eapply window_inv_same.
  - injection H as <-. by eapply window_inv_same; [done|destruct inside..].
  - by injection H as <-.
  - injection H as <-. by apply window_inv_rehandled.
  - apply res_bind_inv in H as (w & Hr & H). injection H as <-. simpl.
    apply run_ops_win_ok in Hr. simpl in Hr. destruct Hr as [->| ->].
    + by eapply window_inv_same.
    + by apply window_inv_overflow.
Qed.

Lemma reachable_inv p : reachable p → window_inv (pr p).
Proof.
  induction 1 as [p [Hc Hm Hp Hs]|p ev p' _ IH Hs H].
  - constructor; rewrite ?Hc, ?Hm, ?Hp, ?Hs; try done. split; [constructor|simpl; lia].
  - by eapply handle_inv.
Qed.
End System.

(** ** A cooperative environment *)

(** SEF has the message and calls it replyable, and the kernel does what it is
    asked to. *)
Record cooperative (e : env) (m : message) : Prop := {
  co_message : sef_get_current_message e = Some (Some (m, 1));
  co_send : ∀ x, asynsend e x = OK;
  co_kill : ∀ x, sys_kill e x = OK;
  co_user : ∃ f, sef_llvm_is_user_endpoint e = Some f ∧ ∀ x, f x = 0 ∨ f x = 1;
  co_errno : ERESTART e < 0;
}.

Lemma send_reply_cooperative e m x s es :
  cooperative e m → ∃ es', ltckpt_send_reply e x s es = Ret (OK, s, es').
Proof.
  intros [_ Ha _ _ He]. unfold ltckpt_send_reply. act.
  destruct (Z.ltb_spec (ERESTART e) 0); [|lia]. simpl. rewrite Ha. eauto.
Qed.

Lemma idempotent_cooperative k e m s es :
  cooperative e m → ∃ s' es', ltckpt_recovery_idempotent k e s es =
    Ret (LTCKPT_RECOVERY_SUCCESS, s', es').
Proof.
  intros Hco. pose proof Hco as [Hm _ _ _ _]. unfold ltckpt_recovery_idempotent. rewrite Hm.
  destruct (LTRC_REHANDLE_REQUEST k); [destruct (_ && _); act; eauto|]. act.
  destruct (send_reply_cooperative e m m s es Hco) as [es' ->]. simpl. eauto.
Qed.

Lemma process_specific_cooperative e m s es :
  cooperative e m → ∃ s' es', ltckpt_recovery_process_specific e s es =
    Ret (LTCKPT_RECOVERY_SUCCESS, s', es').
Proof.
  intros Hco. pose proof Hco as [Hm _ Hk (f & Hf & Hv) _].
  unfold ltckpt_recovery_process_specific. rewrite Hm, Hf.
  destruct (Hv (m_source m)) as [Hx|Hx]; rewrite Hx; act.
  - destruct (send_reply_cooperative e m m s es Hco) as [es' ->]. simpl. eauto.
  - rewrite Hk. simpl. eauto.
Qed.

Lemma policy_cooperative k e m s es :
  cooperative e m → window_inv s → Z.testbit (g_recovery_bitmask (rwin s)) 3 = false →
  ∃ s' es', dispatch_policy k e s es = Ret (LTCKPT_RECOVERY_SUCCESS, s', es').
Proof.
  intros Hco [] H3. unfold dispatch_policy. unfold mbind at 1, action_bind at 1, get at 1. simpl.
  rewrite (has_mask_testbit _ 3), (has_mask_testbit _ 2), (has_mask_testbit _ 1),
    (has_mask_testbit _ 0) by lia. rewrite H3, wi_idempotent0, wi_request0.
  destruct (Z.testbit _ 2); [by eapply process_specific_cooperative|by eapply idempotent_cooperative].
Qed.

Lemma window_inv_tcb s b : window_inv s → window_inv (upd_tcb s b).
Proof. intros H. by eapply window_inv_same. Qed.

Lemma settled_no_abort k e m s es : settled k e m s es → EAbort ∉ es.
Proof.
  intros H Ha. assert (Hx : EAbort ∈ externals es) by (by apply elem_of_externals).
  destruct H as [[(_ & He & _)|[[He _]|(_ & He & _)]]|(_ & _ & _ & He)]; rewrite He in Hx;
    apply list_elem_of_In in Hx; simpl in Hx; intuition discriminate.
Qed.

(** In a mode that lets the policy run, the dispatcher does not abort exactly when no
    fail-stop is demanded. *)
Lemma abort_iff_fail_stop k e m s r s' es :
  window_inv s → cooperative e m → fi_shortcut k e = false →
  g_recovery_naive_mode s ≠ LTCKPT_RECOVERY_NAIVE_MODE_NEVER_REPLY →
  ltckpt_recovery_dispatcher k e s [] = Ret (r, s', es) →
  EAbort ∉ es ↔ Z.testbit (g_recovery_bitmask (rwin s)) 3 = false.
Proof.
  intros Hi Hco Hfi Hn H.
  destruct (dispatcher_inv _ _ _ _ _ _ Hfi H) as (r1 & es1 & l & Hd & Hr & Hes).
  pose proof (dispatch_replyable_spec _ _ _ _ _ _ _ _ _ Hd) as (new & -> & Hnew).
  assert (Hrp : naive_replyable (g_recovery_naive_mode s) (ltckpt_is_message_replyable e 0).1.1 = 1).
  { unfold ltckpt_is_message_replyable, naive_replyable. rewrite (co_message _ _ Hco).
    destruct (Z.eqb_spec (g_recovery_naive_mode s) LTCKPT_RECOVERY_NAIVE_MODE_NEVER_REPLY); [done|]. by destruct (_ =? LTCKPT_RECOVERY_NAIVE_MODE_ALWAYS_REPLY). }
  rewrite Hrp in Hd, Hnew. rewrite decide_True in Hnew by done. simpl in Hnew.
  rewrite (has_mask_testbit _ 3) in Hnew by lia.
  destruct (Z.testbit (g_recovery_bitmask (rwin s)) 3) eqn:H3.
  - split; [|done]. intros Hna. destruct Hna.
    assert (Hx : EAbort ∈ new) by (apply (elem_of_externals EAbort new); rewrite Hnew; by left).
    destruct Hes as [[_ ->]|[_ [l' ->]]]; rewrite !elem_of_app; tauto.
  - split; [done|]. intros _.
    destruct (policy_cooperative k e m (upd_tcb s true) [ELog l] Hco (window_inv_tcb _ _ Hi) H3)
      as (s2 & es2 & Hp).
    unfold dispatch_replyable in Hd. simpl in Hd. rewrite Hp in Hd. injection Hd as <- <- Heq.
    assert (Hok : r = LTCKPT_RECOVERY_SUCCESS) by (by destruct (_ =? _)).
    destruct Hnew as [?|(_ & m' & rp & _ & Ht)]; [done|].
    destruct Hes as [[_ ->]|[? _]]; [|by rewrite Hok in H0].
    apply settled_no_abort in Ht. rewrite elem_of_app, list_elem_of_singleton. by intros [?|?].
Qed.

(** Modes and requests that keep the policy from running never abort. *)
Lemma spared_no_abort k e s r s' es :
  fi_shortcut k e = true ∨ g_recovery_naive_mode s = LTCKPT_RECOVERY_NAIVE_MODE_NEVER_REPLY →
  ltckpt_recovery_dispatcher k e s [] = Ret (r, s', es) → EAbort ∉ es.
Proof.
  intros Hs H. destruct (fi_shortcut k e) eqn:Hfi.
  { destruct (fi_shortcut_inv _ _ _ _ _ _ Hfi H) as (_ & _ & He). by apply no_externals. }
  destruct Hs as [?|Hn]; [done|].
  destruct (dispatcher_inv _ _ _ _ _ _ Hfi H) as (r1 & es1 & l & Hd & Hr & Hes). rewrite Hn in Hd, Hr.
  apply dispatch_replyable_spec in Hd as (new & -> & Hnew). rewrite decide_False in Hnew by done. destruct Hnew as [Hnew _].
  destruct Hes as [[_ ->]|[Hf _]]; [|by rewrite Hr in Hf]. apply no_externals. rewrite externals_app. exact Hnew.
Qed.

(** ** A request and its recovery *)

Section Request.
Context (k : cfg) (c : wlconf) (Hc : conf_ok c).

(** Events of a request after its window was opened. *)
Definition in_request (ev : event) : Prop :=
  match ev with
  | EvMessage _ | EvCheckpoint => False
  | EvFailStop e _ => have_handled_message e = true
  | EvWrites os => Forall (op_ok c) os
  | _ => True
  end.

Definition run_events (p : proc) (evs : list event) : res proc :=
  res_foldl (λ p ev, handle k c ev p) p evs.

(** Within a request a closed window stays closed, and only writes touch the
    undo log and the memory. *)
Lemma handle_open ev p p' :
  in_request ev → handle k c ev p = Ret p' →
  (sa_window__is_open (rwin (pr p')) = true → sa_window__is_open (rwin (pr p)) = true) ∧
  ((∃ os, ev = EvWrites os) ∨ pw p' = pw p).
Proof.
  assert (Hmask : ∀ (s s1 : rstate) site, ltckpt_transit_window site s = Ret s1 →
    sa_window__is_open (rwin s1) = true → sa_window__is_open (rwin s) = true).
  { intros s s1 site Ht. apply transit_window_same in Ht as (<- & _). done. }
  intros Hr H. destruct ev; simpl in Hr, H; try done.
  - unfold ltckpt_set_idempotent_recovery in H. res_inv; (split; [simpl; eauto|by right]).
  - unfold ltckpt_set_request_specific_recovery in H. res_inv; (split; [simpl; eauto|by right]).
  - unfold ltckpt_set_process_local_recovery in H. res_inv; (split; [simpl; eauto|by right]).
  - apply res_bind_inv in H as (s1 & H1 & H). injection H as <-. split; [|by right]. simpl.
    unfold ltckpt_set_fail_stop_recovery in H1.
    destruct (inside_trusted_compute_base (pr p)); [by injection H1 as <-|].
    apply res_bind_inv in H1 as (s2 & H2 & H1). injection H1 as <-.
    apply transit_window_same in H2 as (<- & _). unfold ltckpt_add_site_id, ltckpt_close_r_window.
    intros Ho. destruct (sa_window__is_open (rwin s2)) eqn:E; [done|].
    rewrite andb_false_r in Ho. simpl in Ho.
    repeat case_match; simpl in Ho; congruence.
  - apply res_bind_inv in H as ([s'|] & Ho & H); [|done]. injection H as <-.
    apply suicide_survives_same in Ho as (Hw & _). simpl. rewrite Hw. split; [done|by right].
  - apply res_bind_inv in H as (r & Hx & H). injection H as <-.
    apply sef_fi_custom_same in Hx as (Hw & _). simpl. rewrite Hw. split; [done|by right].
  - injection H as <-. split; [by destruct inside|by right].
  - injection H as <-. split; [done|by right].
  - apply res_bind_inv in H as (w & Hw & H). injection H as <-. simpl. split; [|eauto].
    intros Ho. by apply (run_ops_open c os _ _ Hw) in Ho.
Qed.

Lemma handle_prior ev p p' :
  in_request ev → handle k c ev p = Ret p' →
  prior_have_handled_message (pr p') = prior_have_handled_message (pr p).
Proof.
  intros Hr H. destruct ev; simpl in Hr, H; try done.
  - unfold ltckpt_set_idempotent_recovery in H. res_inv; simpl; [done|].
    by apply transit_window_same in H as (_ & ? & _).
  - unfold ltckpt_set_request_specific_recovery in H. res_inv; simpl; [done|].
    by apply transit_window_same in H as (_ & ? & _).
  - unfold ltckpt_set_process_local_recovery in H. res_inv; simpl; [done|].
    by apply transit_window_same in H as (_ & ? & _).
  - unfold ltckpt_set_fail_stop_recovery, ltckpt_add_site_id, ltckpt_close_r_window in H.
    res_inv; simpl; [done|]. apply transit_window_same in H as (_ & <- & _).
    repeat case_match; done.
  - apply res_bind_inv in H as ([s'|] & Ho & H); [|done]. injection H as <-.
    by apply suicide_survives_same in Ho as (_ & ? & _).
  - apply res_bind_inv in H as (r & Hx & H). injection H as <-.
    by apply sef_fi_custom_same in Hx as (_ & ? & _).
  - injection H as <-. by destruct inside.
  - by injection H as <-.
  - apply res_bind_inv in H as (w & Hw & H). by injection H as <-.
Qed.

Lemma run_events_inv evs p p' :
  Forall in_request evs → run_events p evs = Ret p' →
  window_inv (pr p) → prior_have_handled_message (pr p) = true →
  window_inv (pr p') ∧ prior_have_handled_message (pr p') = true.
Proof.
  intros Hr. revert p. induction Hr as [|ev evs Hev _ IH]; intros p H Hi Hp; simpl in H.
  - by injection H as <-.
  - apply res_bind_inv in H as (p1 & H1 & H). apply (IH p1); [done| |].
    + eapply handle_inv; [done| |done]. destruct ev; simpl in *; try done. congruence.
    + by rewrite (handle_prior ev p p1).
Qed.

Lemma reachable_run evs p p' :
  reachable k c p → prior_have_handled_message (pr p) = true →
  Forall in_request evs → run_events p evs = Ret p' → reachable k c p'.
Proof.
  intros Hp Hpr Hr. revert p Hp Hpr.
  induction Hr as [|ev evs Hev _ IH]; intros p Hp Hpr H; simpl in H.
  - by injection H as <-.
  - apply res_bind_inv in H as (p1 & H1 & H). apply (IH p1); [| |done].
    + eapply reach_step; [done| |done]. destruct ev; simpl in *; try done. congruence.
    + by rewrite (handle_prior ev p p1).
Qed.

Lemma live_set_win m0 s es w :
  live c m0 s es → (sa_window__is_open w = true → sa_window__is_open (win s) = true) →
  live c m0 (set_win s w) es.
Proof. intros [[] Hundo Hroom] Hw. constructor; simpl; auto. by constructor. Qed.

Lemma run_events_open evs p p' :
  Forall in_request evs → run_events p evs = Ret p' →
  sa_window__is_open (rwin (pr p')) = true → sa_window__is_open (rwin (pr p)) = true.
Proof.
  intros Hr. revert p. induction Hr as [|ev evs Hev _ IH]; intros p H Ho; simpl in H.
  - by injection H as <-.
  - apply res_bind_inv in H as (p1 & H1 & H). apply (handle_open ev p p1); eauto.
Qed.

(** The undo log stays live over a request that keeps its window open. *)
Lemma live_run_events m0 evs p es p' :
  live c m0 (set_win (pw p) (rwin (pr p))) es → ltckpt_writelog_enabled (pw p) = true →
  Forall in_request evs → run_events p evs = Ret p' →
  sa_window__is_open (rwin (pr p')) = true →
  ∃ es', live c m0 (set_win (pw p') (rwin (pr p'))) es'.
Proof.
  intros Hl Hen Hr. revert p es Hl Hen.
  induction Hr as [|ev evs Hev Hevs IH]; intros p es Hl Hen H Ho; simpl in H.
  { injection H as <-. eauto. }
  apply res_bind_inv in H as (p1 & H1 & H).
  pose proof (run_events_open evs p1 p' Hevs H Ho) as Ho1.
  destruct (handle_open ev p p1 Hev H1) as [Hopen [[os ->]|Hpw]].
  - simpl in H1. apply res_bind_inv in H1 as (w & Hw & H1). injection H1 as <-.
    destruct (live_run_ops c Hc m0 os _ es w Hl Hen Hev Hw Ho1) as (es1 & Hl1 & Hen1).
    eapply (IH {| pr := upd_win (pr p) (win w); pw := w |}); eauto.
    by apply live_set_win.
  - eapply (IH p1); rewrite ?Hpw; eauto.
    apply (live_set_win _ _ _ (rwin (pr p1))) in Hl; [exact Hl|]. auto.
Qed.
End Request.

(** C4: the window invariant of every reachable state, by induction over the
    hook events.  While a message is handled the recovery window is open exactly
    when no fail-stop is demanded; between messages it is closed.  The
    idempotent policy is always set, the request-specific one never (its hook
    sets the idempotent bit), and the recorded call sites are distinct and fit
    their array. *)
Theorem reachable_window k c p :
  reachable k c p →
  let s := pr p in
  let mask := g_recovery_bitmask (rwin s) in
  (prior_have_handled_message s = true →
     sa_window__is_open (rwin s) = negb (has_mask mask LTCKPT_RECOVERY_MASK_FAIL_STOP)) ∧
  (prior_have_handled_message s = false → sa_window__is_open (rwin s) = false) ∧
  has_mask mask LTCKPT_RECOVERY_MASK_IDEMPOTENT = true ∧
  has_mask mask LTCKPT_RECOVERY_MASK_REQUEST_SPECIFIC = false ∧
  NoDup (callsites s) ∧ (length (callsites s) ≤ RECOVERY_BITMASK_CALLSITE_COUNT)%nat.
Proof.
  intros H. destruct (reachable_inv k c p H) as [Hidle Hbusy H0 H1 [Hn Hl]]. simpl.
  rewrite (has_mask_testbit _ 3), (has_mask_testbit _ 1), (has_mask_testbit _ 0) by lia. done.
Qed.

(** C5: when the dispatcher spares the system.  In every reachable state in which a
    message is handled, with a replyable current message and SEF and the kernel
    cooperating, the dispatcher does not abort the system if and only if the recovery
    window is open, or the naive mode is never to reply, or the message is a
    fault-injection request of RS in a build with [LTRC_NO_RECOVERY_ON_SVC_FI].  In the
    default mode and without that build switch: exactly inside the window. *)
Theorem recovery_iff_window_open k c p e m r s' es :
  reachable k c p → prior_have_handled_message (pr p) = true → cooperative e m →
  ltckpt_recovery_dispatcher k e (pr p) [] = Ret (r, s', es) →
  EAbort ∉ es ↔
    sa_window__is_open (rwin (pr p)) = true ∨
    g_recovery_naive_mode (pr p) = LTCKPT_RECOVERY_NAIVE_MODE_NEVER_REPLY ∨ fi_shortcut k e = true.
Proof.
  intros Hr Hp Hco H. apply reachable_inv in Hr.
  destruct (decide (g_recovery_naive_mode (pr p) = LTCKPT_RECOVERY_NAIVE_MODE_NEVER_REPLY)) as [Hn|Hn].
  { split; [auto|]. intros _. eapply spared_no_abort; [by right|done]. }
  destruct (fi_shortcut k e) eqn:Hfi.
  { split; [auto|]. intros _. eapply spared_no_abort; [by left|done]. }
  rewrite (abort_iff_fail_stop k e m (pr p) r s' es) by done.
  rewrite (wi_busy _ Hr Hp). destruct (Z.testbit _ 3); cbn [negb]; split; intuition congruence.
Qed.

(** C1: a recovered request leaves no trace.  A server takes its checkpoint at
    the top of the loop, receives a message (the window opens) and handles it
    through any sequence of policy, counter and fault-injection hooks and of
    instrumented writes that the write hooks cover ([op_ok]: a store within one 8-byte
    region, a block copy without the gap of [Writelog.memcpy_hook_gap]), until it
    crashes.  If then the dispatcher, in the default mode or when it always replies, and
    outside the [RS_FI_CUSTOM] shortcut, does not abort the system, whatever SEF and the
    kernel answer, then the restart hook of the undo log gives back every restorable byte
    the value it had at the checkpoint. *)
Theorem recovered_request_is_consistent k c p e0 evs crashed e r s' es re fresh :
  conf_ok c → wl_data (pw p) = WRITELOG_START c →
  Ctx.checkpoint_interval (wctx (pw p)) = 1 →
  reachable k c p → prior_have_handled_message (pr p) = false → have_handled_message e0 = true →
  Forall (in_request c) evs →
  run_events k c {| pr := ltckpt_detect_start_of_window_hook e0 (pr p);
                    pw := ltckpt_top_of_the_loop c (pw p) |} evs = Ret crashed →
  g_recovery_naive_mode (pr crashed) = LTCKPT_RECOVERY_NAIVE_MODE_DEFAULT ∨
  g_recovery_naive_mode (pr crashed) = LTCKPT_RECOVERY_NAIVE_MODE_ALWAYS_REPLY →
  fi_shortcut k e = false →
  ltckpt_recovery_dispatcher k e (pr crashed) [] = Ret (r, s', es) →
  EAbort ∉ es →
  renv_ok c re (pw crashed) →
  ∃ recovered out, ltckpt_restart_hook c re fresh = Ret (0, recovered, out) ∧
    ∀ x, restorable c re x → wmem recovered x = wmem (pw p) x.
Proof.
  intros Hc Hd Hint Hreach Hp He0 Hevs Hrun Hn Hfi Hdis Hna Hre.
  set (p1 := {| pr := _; pw := _ |}) in Hrun.
  assert (Hp1 : prior_have_handled_message (pr p1) = true) by exact He0.
  destruct (run_events_inv k c evs p1 crashed Hevs Hrun) as [Hinv Hpc]; [|done|].
  { apply window_inv_message. by eapply reachable_inv. }
  assert (Ho : sa_window__is_open (rwin (pr crashed)) = true).
  { rewrite (wi_busy _ Hinv Hpc), <- (has_mask_testbit _ 3) by lia. apply negb_true_iff.
    apply not_true_is_false. intros Hm.
    destruct (fail_stop_aborts _ _ _ _ _ _ Hn Hfi Hdis Hm) as [n Hx]. apply Hna.
    apply (elem_of_externals EAbort es). rewrite Hx. by left. }
  destruct (live_top_of_the_loop c Hc (pw p) Hd Hint) as (Hl & Hen & _ & Hmem).
  assert (Hl1 : live c (wmem (pw p)) (set_win (pw p1) (rwin (pr p1))) []).
  { destruct Hl as [[] Hu _]. constructor; [by constructor|done|].
    intros _. destruct Hc. simpl. lia. }
  destruct (live_run_events k c Hc _ evs p1 [] crashed Hl1 Hen Hevs Hrun Ho) as [es' Hl'].
  assert (Hrep : rep c (pw crashed) es').
  { destruct (live_rep _ _ _ _ Hl'). by constructor. }
  destruct (restart_hook_undo c re (pw crashed) es' fresh Hc Hrep Hre) as (s3 & out & Hr & _ & Hm).
  exists s3, out. split; [done|]. intros x Hx.
  pose proof (can_restore_not_in_log c re x Hc Hx) as Hx'. rewrite Hm by done.
  by apply (live_undo _ _ _ _ Hl').
Qed.

(** ** Examples *)

Definition demo_proc : proc := {| pr := initial "pm" 1010 20; pw := demo_state |}.
Definition demo_start : proc :=
  {| pr := ltckpt_detect_start_of_window_hook Recover.demo_env (pr demo_proc);
     pw := ltckpt_top_of_the_loop demo_conf (pw demo_proc) |}.
Definition demo_events : list event := [EvProcessLocal 3; EvWrites demo_ops; EvCount true].
Definition demo_end : proc :=
  ret_or demo_start (run_events demo_cfg demo_conf demo_start demo_events).
(** The same request, then a fail-stop site. *)
Definition demo_stopped : proc :=
  ret_or demo_end (handle demo_cfg demo_conf (EvFailStop Recover.demo_env 9) demo_end).

Definition demo_renv : renv :=
  {| sys_safecopyto_enabled := 0;
     identity_state_transfer := λ _, (0, pw demo_end);
     sys_safecopyfrom := λ src n, (0, load_bytes (wmem (pw demo_end)) src n);
     addr_wl_data := 200; addr_wl_position := 208; addr_writelog_enabled := 216; sizeof_int := 4;
     addr_num_entries := 65536; Writelog.g_module_name := "pm" |}.

Lemma demo_renv_ok : renv_ok demo_conf demo_renv (pw demo_end).
Proof. constructor; [done|done|]. intros s. by exists (pw demo_end). Qed.

Lemma demo_reachable : reachable demo_cfg demo_conf demo_proc.
Proof. apply reach_initial. by constructor. Qed.

Lemma demo_in_request : Forall (in_request demo_conf) demo_events.
Proof.
  repeat (apply Forall_cons_2; [simpl; try done; try apply demo_ops_ok|]). by apply Forall_nil_2.
Qed.

Lemma demo_run_events : run_events demo_cfg demo_conf demo_start demo_events = Ret demo_end.
Proof. apply is_ret_or. vm_compute. reflexivity. Qed.

Lemma demo_cooperative : cooperative Recover.demo_env {| m_source := 7; m_type := 1025 |}.
Proof. constructor; try done. exists (λ _, 0). auto. Qed.

Lemma demo_start_reachable : reachable demo_cfg demo_conf demo_start.
Proof.
  eapply (reach_step _ _ {| pr := pr demo_start; pw := demo_state |} EvCheckpoint); [|done|done].
  by eapply (reach_step _ _ demo_proc (EvMessage Recover.demo_env));
    [apply demo_reachable|..].
Qed.

Lemma demo_end_reachable : reachable demo_cfg demo_conf demo_end.
Proof.
  eapply reachable_run; [apply demo_start_reachable|done|apply demo_in_request|apply demo_run_events].
Qed.

Lemma demo_stopped_reachable : reachable demo_cfg demo_conf demo_stopped.
Proof.
  eapply (reach_step _ _ demo_end (EvFailStop Recover.demo_env 9));
    [apply demo_end_reachable|vm_compute; reflexivity|apply is_ret_or; vm_compute; reflexivity].
Qed.

Lemma reachable_window_witness :
  sa_window__is_open (rwin (pr demo_stopped)) = false ∧
  prior_have_handled_message (pr demo_stopped) = true ∧
  sa_window__is_open (rwin (pr demo_stopped)) =
    negb (has_mask (g_recovery_bitmask (rwin (pr demo_stopped))) LTCKPT_RECOVERY_MASK_FAIL_STOP).
Proof.
  split; [vm_compute; reflexivity|]. split; [vm_compute; reflexivity|].
  apply (proj1 (reachable_window demo_cfg demo_conf demo_stopped demo_stopped_reachable)).
  vm_compute. reflexivity.
Defined.

Lemma demo_end_ret :
  is_ret (ltckpt_recovery_dispatcher demo_cfg Recover.demo_env (pr demo_end) []) = true.
Proof. vm_compute. reflexivity. Qed.
Lemma demo_stopped_ret :
  is_ret (ltckpt_recovery_dispatcher demo_cfg Recover.demo_env (pr demo_stopped) []) = true.
Proof. vm_compute. reflexivity. Qed.

Lemma recovery_iff_window_open_witness :
  (EAbort ∉ (demo_run (pr demo_end)).2) ∧ EAbort ∈ (demo_run (pr demo_stopped)).2.
Proof.
  split.
  - apply (recovery_iff_window_open demo_cfg demo_conf demo_end Recover.demo_env
      {| m_source := 7; m_type := 1025 |} _ _ _ demo_end_reachable ltac:(vm_compute; reflexivity)
      demo_cooperative
      (demo_run_eq (pr demo_end) demo_end_ret)).
    left. vm_compute. reflexivity.
  - apply list_elem_of_In. vm_compute. tauto.
Defined.

Lemma demo_end_no_abort : EAbort ∉ (demo_run (pr demo_end)).2.
Proof. intros H%list_elem_of_In. vm_compute in H. intuition discriminate. Qed.

Lemma recovered_request_is_consistent_witness :
  wmem (pw demo_end) 11 = 6 ∧
  ∃ recovered out, ltckpt_restart_hook demo_conf demo_renv demo_state = Ret (0, recovered, out) ∧
    ∀ x, restorable demo_conf demo_renv x → wmem recovered x = x + 100.
Proof.
  split; [vm_compute; reflexivity|].
  apply (recovered_request_is_consistent demo_cfg demo_conf demo_proc Recover.demo_env demo_events
    demo_end Recover.demo_env _ _ _ demo_renv demo_state demo_conf_ok eq_refl eq_refl
    demo_reachable eq_refl eq_refl demo_in_request demo_run_events
    ltac:(left; vm_compute; reflexivity) ltac:(vm_compute; reflexivity)
    (demo_run_eq (pr demo_end) demo_end_ret) demo_end_no_abort demo_renv_ok).
Defined.
