(* ===== verification/WindowProf.v ===== *)
(** * Profiling of recovery windows: [ltckpt_aop.c]

    A hook in every basic block accounts the block's instructions to three
    policies of recovery windows: optimistic (the window is open while a message is
    handled), pessimistic (closed by the first IPC or kernel call) and [dfa]; and to
    the recovery window itself.  Counters are kept globally and per function with
    its callers.  On leaving a window the hook may crash the process, for fault
    injection.

    Functions are found by name ([uthash] on [funcname]); pointers to an entry are
    indices.  The frames' return addresses and [have_handled_message] are
    arguments. *)

From Stdlib Require Import ZArith Lia Ascii String.
From stdpp Require Import base list numbers strings.
From S2P Require Import Prelude Decimal Runtime Recover.

Record wprof_pol_t := {
  p_in : Z;               (** [bb_in] *)
  p_out : Z;              (** [bb_out] *)
  p_end : Z; p_end_k : Z; p_end_s : Z; p_end_n : Z;
  ended_cumulative : Z;
}.

Record wprof_set_t := {
  pes : wprof_pol_t;
  dfa : wprof_pol_t;
  opt : wprof_pol_t;
  rwindow : wprof_pol_t;   (** its [end] is [rwindow_end] of the recovery state *)
  summary : string;
}.

Definition MAXFUNCS : Z := 10 * 800.
Definition FUNCNAME : nat := 100.
Definition SUMMARY : nat := 200.

Record wprof_t := {
  glo : wprof_set_t;
  names : list string;                   (** [funcs[i].funcname] up to [wprof_next_free] *)
  func_stats : nat → wprof_set_t;        (** [funcs[i].stats] *)
}.

Record wstate := {
  rs : rstate;
  wprof : wprof_t;
  last_have_handled_message : bool;
  pes_have_handled_message : bool;
  dfa_have_handled_message : bool;
  wprof_enable : bool;
  wprof_init : bool;
  pes_closer : option nat;               (** [&funcs[i].stats.pes] *)
  opt_closer : option nat;               (** [&funcs[i].stats.opt] *)
  recursive : bool;
}.

Definition pol_zero : wprof_pol_t := Build_wprof_pol_t 0 0 0 0 0 0 0.
Definition set_zero : wprof_set_t := Build_wprof_set_t pol_zero pol_zero pol_zero pol_zero "".
Definition wprof_zero : wprof_t := {| glo := set_zero; names := []; func_stats := λ _, set_zero |}.

(** ** Field updates *)

Definition set_rs (s : wstate) (r : rstate) : wstate :=
  Build_wstate r (wprof s) (last_have_handled_message s) (pes_have_handled_message s) (dfa_have_handled_message s)
    (wprof_enable s) (wprof_init s) (pes_closer s) (opt_closer s) (recursive s).
Definition set_wprof (s : wstate) (p : wprof_t) : wstate :=
  Build_wstate (rs s) p (last_have_handled_message s) (pes_have_handled_message s) (dfa_have_handled_message s)
    (wprof_enable s) (wprof_init s) (pes_closer s) (opt_closer s) (recursive s).
Definition set_last (s : wstate) (b : bool) : wstate :=
  Build_wstate (rs s) (wprof s) b (pes_have_handled_message s) (dfa_have_handled_message s)
    (wprof_enable s) (wprof_init s) (pes_closer s) (opt_closer s) (recursive s).
Definition set_windows (s : wstate) (p d : bool) : wstate :=
  Build_wstate (rs s) (wprof s) (last_have_handled_message s) p d
    (wprof_enable s) (wprof_init s) (pes_closer s) (opt_closer s) (recursive s).
Definition set_init (s : wstate) : wstate :=
  Build_wstate (rs s) (wprof s) (last_have_handled_message s) (pes_have_handled_message s) (dfa_have_handled_message s)
    (wprof_enable s) true (pes_closer s) (opt_closer s) (recursive s).
Definition set_closers (s : wstate) (p o : option nat) : wstate :=
  Build_wstate (rs s) (wprof s) (last_have_handled_message s) (pes_have_handled_message s) (dfa_have_handled_message s)
    (wprof_enable s) (wprof_init s) p o (recursive s).

Definition pol_bb (p : wprof_pol_t) (inside : bool) (n : Z) : wprof_pol_t :=
  if inside then Build_wprof_pol_t (u64 (p_in p + n)) (p_out p) (p_end p) (p_end_k p) (p_end_s p) (p_end_n p) (ended_cumulative p)
  else Build_wprof_pol_t (p_in p) (u64 (p_out p + n)) (p_end p) (p_end_k p) (p_end_s p) (p_end_n p) (ended_cumulative p).
(** [end++] and the counter of the kind of call: kernel call, send, notify. *)
Definition pol_end (p : wprof_pol_t) (k s n : Z) : wprof_pol_t :=
  Build_wprof_pol_t (p_in p) (p_out p) (u64 (p_end p + 1)) (u64 (p_end_k p + k)) (u64 (p_end_s p + s)) (u64 (p_end_n p + n))
    (ended_cumulative p).
Definition pol_blame (p : wprof_pol_t) (n : Z) : wprof_pol_t :=
  Build_wprof_pol_t (p_in p) (p_out p) (p_end p) (p_end_k p) (p_end_s p) (p_end_n p) (u64 (ended_cumulative p + n)).

Definition set_pes (w : wprof_set_t) (p : wprof_pol_t) : wprof_set_t := Build_wprof_set_t p (dfa w) (opt w) (rwindow w) (summary w).
Definition set_opt (w : wprof_set_t) (p : wprof_pol_t) : wprof_set_t := Build_wprof_set_t (pes w) (dfa w) p (rwindow w) (summary w).
Definition set_summary (w : wprof_set_t) (t : string) : wprof_set_t := Build_wprof_set_t (pes w) (dfa w) (opt w) (rwindow w) t.

Definition upd_glo (p : wprof_t) (f : wprof_set_t → wprof_set_t) : wprof_t := {| glo := f (glo p); names := names p; func_stats := func_stats p |}.
Definition upd_func (p : wprof_t) (i : nat) (f : wprof_set_t → wprof_set_t) : wprof_t :=
  {| glo := glo p; names := names p;
     func_stats := λ j, if (j =? i)%nat then f (func_stats p i) else func_stats p j |}.

(** ** Text *)

(** At most 19 digits fit into the buffer; more significant ones are lost. *)
Definition lt_n2d (n : Z) : string := digits_loop 19 10 digit_char n "".
Definition hex_digit (r : Z) : ascii :=
  if r <? 10 then ascii_of_N (Z.to_N (48 + r)) else ascii_of_N (Z.to_N (97 + r - 10)).
Definition lt_n2h (n : Z) : string := digits_loop 19 16 hex_digit n "".

Definition summary_text (name : string) (w : wprof_set_t) : string :=
  name +:+ "," +:+ lt_n2d (p_in (pes w)) +:+ "," +:+ lt_n2d (p_out (pes w))
       +:+ "," +:+ lt_n2d (p_in (dfa w)) +:+ "," +:+ lt_n2d (p_out (dfa w))
       +:+ "," +:+ lt_n2d (p_in (opt w)) +:+ "," +:+ lt_n2d (p_out (opt w)) +:+ String "010" "".

(** [strcat] into a buffer of 200 bytes. *)
Definition resummarize (name : string) (w : wprof_set_t) : res wprof_set_t :=
  let t := summary_text name w in
  if (String.length t <? SUMMARY)%nat then Ret (set_summary w t) else Stop FBounds.

(** ** Functions *)

Definition scope_name (caller2 caller1 caller0 : Z) (func_name_final : string) : string :=
  "0x" +:+ lt_n2h caller2 +:+ ",0x" +:+ lt_n2h caller1 +:+ ",0x" +:+ lt_n2h caller0 +:+ "," +:+ func_name_final.

Definition find_scope (p : wprof_t) (name : string) : option nat :=
  fst <$> list_find (λ n, n = name) (names p).

(** The index of the function's statistics.  The name is put together in a
    buffer of [FUNCNAME] bytes, whose size is checked afterwards. *)
Definition lt_wprof_func_stats (c2 c1 c0 : Z) (func_name_final : string) (s : wstate) : res (nat * wstate) :=
  assert! negb (recursive s) in
  let name := scope_name c2 c1 c0 func_name_final in
  if negb (String.length name <? FUNCNAME)%nat then Stop FBounds
  else
    match find_scope (wprof s) name with
    | Some i => Ret (i, s)
    | None =>
        let i := length (names (wprof s)) in
        assert! (Z.of_nat i <? MAXFUNCS) in
        Ret (i, set_wprof s {| glo := glo (wprof s); names := names (wprof s) ++ [name];
                               func_stats := func_stats (wprof s) |})
    end.

(** ** The hook *)

(** A step of the hook goes on or ends in the crash of the process. *)
Inductive outcome := Goes (s : wstate) | Dies (s : wstate).

Definition and_then (o : outcome) (f : wstate → res outcome) : res outcome :=
  match o with Goes s => f s | Dies s => Ret (Dies s) end.

Section Hook.
Variable k : cfg.

(** [if (suicide_on_window_close) { suicide_on_window_close = 0; ltckpt_do_suicide (); }] *)
Definition suicide_on_close (s : wstate) : outcome :=
  if suicide_on_window_close (rs s) then
    match ltckpt_do_suicide k (upd_suicide (rs s) false) with
    | Survives r => Goes (set_rs s r)
    | Crashes r => Dies (set_rs s r)
    end
  else Goes s.

Definition stats (s : wstate) : bool := wprof_enable_stats (rs s).

(** The counters of the three kinds of call: sends, notifications, kernel calls. *)
Definition closing_calls : list (string * (Z * Z * Z)) :=
  [("_ipc_send", (0, 1, 0)); ("_ipc_notify", (0, 0, 1)); ("_do_kernel_call", (1, 0, 0))].

(** Leaving the pessimistic window by a call of kind [kind]. *)
Definition close_pes (i : option nat) (kind : Z * Z * Z) (s : wstate) : outcome :=
  let s := set_windows s false (dfa_have_handled_message s) in
  let s := match i with Some i => set_closers s (Some i) (opt_closer s) | None => s end in
  let s := if stats s then
             let '(ek, es, en) := kind in
             let p := upd_glo (wprof s) (λ w, set_pes w (pol_end (pes w) ek es en)) in
             set_wprof s (match i with
                          | Some i => upd_func p i (λ w, set_opt w (pol_end (opt w) 0 0 0))
                          | None => p
                          end)
           else s in
  suicide_on_close s.

Fixpoint pes_loop (i : option nat) (names : list (string * (Z * Z * Z))) (func_name : string) (s : wstate) : outcome :=
  match names with
  | [] => Goes s
  | (n, kind) :: names' =>
      if negb (pes_have_handled_message s) then Goes s
      else if String.prefix n func_name then
        match close_pes i kind s with
        | Goes s => pes_loop i names' func_name s
        | Dies s => Dies s
        end
      else pes_loop i names' func_name s
  end.

Definition set_window_closed (s : wstate) : wstate :=
  set_rs s (upd_win (rs s)
    {| Window.sa_window__is_open := false; Window.g_recovery_bitmask := Window.g_recovery_bitmask (rwin (rs s));
       Window.g_recovery_bitmask_reason := Window.g_recovery_bitmask_reason (rwin (rs s)) |}).

(** Entering or leaving the optimistic window. *)
Definition transition (hhm : bool) (i : option nat) (s : wstate) : outcome :=
  if hhm && negb (last_have_handled_message s) then
    Goes (set_closers (set_windows s true true) None None)
  else if negb hhm && last_have_handled_message s then
    let s := set_window_closed (set_windows s false false) in
    let s := if stats s then
               let p := upd_glo (wprof s) (λ w, set_opt w (pol_end (opt w) 1 0 0)) in
               match i with
               | Some i => set_closers (set_wprof s (upd_func p i (λ w, set_opt w (pol_end (opt w) 0 0 0))))
                             (pes_closer s) (Some i)
               | None => set_wprof s p
               end
             else s in
    suicide_on_close s
  else Goes s.

(** The accounting of one set of counters. *)
Definition account_set (hhm p d : bool) (n : Z) (w : wprof_set_t) : wprof_set_t :=
  Build_wprof_set_t (pol_bb (pes w) p n) (pol_bb (dfa w) d n) (pol_bb (opt w) hhm n) (rwindow w) (summary w).
Definition account_window (open : bool) (n : Z) (w : wprof_set_t) : wprof_set_t :=
  Build_wprof_set_t (pes w) (dfa w) (opt w) (pol_bb (rwindow w) open n) (summary w).

Definition blame (s : wstate) (n : Z) : wprof_t :=
  let p := wprof s in
  let p := match opt_closer s with
           | Some i => upd_func p i (λ w, set_opt w (pol_blame (opt w) n))
           | None => p end in
  match pes_closer s with
  | Some i => upd_func p i (λ w, set_pes w (pol_blame (pes w) n))
  | None => p end.

Definition account (hhm : bool) (hook_type num_insts : Z) (func_name : string) (i : nat) (s : wstate) : res wstate :=
  let pe := pes_have_handled_message s in
  let df := dfa_have_handled_message s in
  let p := upd_glo (wprof s) (λ w, account_window (Window.sa_window__is_open (rwin (rs s))) num_insts
                                    (account_set hhm pe df num_insts w)) in
  let p := upd_func p i (account_set hhm pe df num_insts) in
  let! p := if hook_type =? 0 then
              let! w' := resummarize func_name (func_stats p i) in
              let! g' := resummarize "GLOBAL$" (glo p) in
              Ret (upd_func (upd_glo p (λ _, g')) i (λ _, w'))
            else Ret p in
  Ret (set_wprof s (blame (set_wprof s p) num_insts)).

(** [ltckpt_aop_hook_wprof] with [argc == 2]; [c2], [c1] and [c0] are the return
    addresses of the three frames. *)
Definition ltckpt_aop_hook_wprof (hhm : bool) (hook_type num_insts : Z) (func_name : string)
    (c2 c1 c0 : Z) (s : wstate) : res outcome :=
  let s := if wprof_init s then s
           else set_init (set_wprof (set_rs s
                  (upd_prof (rs s) (wprof_enable_stats (rs s))
                     (let p := prof (rs s) in
                      Build_profile (wshutter_prof_curr_bb_in p) (g_num_window_opens p) 0
                        (g_counter_inwindow p) (g_counter_outsidewindow p) (g_num_suicides p)))) wprof_zero) in
  if negb (wprof_enable s) then Ret (Goes (set_last s hhm))
  else
    let! fi := if stats s then
                 let! r := lt_wprof_func_stats c2 c1 c0 func_name s in Ret (Some r.1, r.2)
               else Ret (None, s) in
    let '(i, s) := fi in
    and_then (if hook_type =? 0 then pes_loop i closing_calls func_name s else Goes s) (λ s,
    and_then (transition hhm i s) (λ s,
    let! s := match i with
              | Some i => if stats s then account hhm hook_type num_insts func_name i s else Ret s
              | None => if stats s then Stop FNull else Ret s
              end in
    Ret (Goes (set_last s hhm)))).

(** [sef_signal_handle_default_hook]; [sigusr1] and [sigusr2] are the platform's
    numbers. *)
Definition sef_signal_handle_default_hook (sigusr1 sigusr2 signum : Z) (s : wstate) : wstate :=
  let s := if (signum =? sigusr2) && TOGGLE_ENABLE_STATS k then set_wprof s wprof_zero else s in
  if negb (signum =? sigusr1) then s
  else set_rs s (upd_prof (rs s) (negb (wprof_enable_stats (rs s))) (prof (rs s))).
End Hook.

(** ** Modular sums *)

(** Sum over the first [n] entries of a table. *)
Fixpoint total (f : nat → Z) (n : nat) : Z :=
  match n with O => 0 | S n' => total f n' + f n' end.

Lemma total_ext f g n : (∀ i, (i < n)%nat → f i = g i) → total f n = total g n.
Proof. induction n as [|n IH]; intros H; cbn [total]; [done|]. rewrite IH, (H n) by auto with lia. done. Qed.

Lemma total_upd f g n i d :
  (i < n)%nat → (∀ j, j ≠ i → g j = f j) → eq64 (g i) (f i + d) → eq64 (total g n) (total f n + d).
Proof.
  intros Hi Ho [q Hq]. exists q. induction n as [|n IH]; [lia|]. cbn [total].
  destruct (decide (i = n)) as [->|Hne].
  - rewrite Hq, (total_ext g f n) by (intros j Hj; apply Ho; lia). lia.
  - rewrite IH, (Ho n) by lia. lia.
Qed.

(** ** The invariant *)

Inductive policy := Pes | Dfa | Opt.

Definition pol_of (p : policy) (w : wprof_set_t) : wprof_pol_t :=
  match p with Pes => pes w | Dfa => dfa w | Opt => opt w end.
(** The instructions counted inside ([true]) or outside the windows of a policy. *)
Definition counted (p : policy) (inside : bool) (w : wprof_set_t) : Z :=
  if inside then p_in (pol_of p w) else p_out (pol_of p w).

Definition ends_sum (p : wprof_pol_t) : Prop := eq64 (p_end p) (p_end_k p + p_end_s p + p_end_n p).

(** The global counters are the sums of the functions' ones; unused entries
    count nothing. *)
Definition sums_up (p : wprof_t) : Prop :=
  (∀ pl b, eq64 (counted pl b (glo p)) (total (λ i, counted pl b (func_stats p i)) (length (names p)))) ∧
  (∀ pl b i, (length (names p) ≤ i)%nat → counted pl b (func_stats p i) = 0) ∧
  ends_sum (pes (glo p)) ∧ ends_sum (opt (glo p)).

(** A pessimistic window lies inside a [dfa] window, that inside an optimistic
    one. *)
Definition nested (s : wstate) : Prop :=
  (pes_have_handled_message s = true → dfa_have_handled_message s = true) ∧
  (dfa_have_handled_message s = true → last_have_handled_message s = true).

Record wprof_ok (s : wstate) : Prop := {
  wo_init : wprof_init s = true;
  wo_rec : recursive s = false;
  wo_nodup : NoDup (names (wprof s));
  wo_max : Z.of_nat (length (names (wprof s))) ≤ MAXFUNCS;
  wo_sums : sums_up (wprof s);
  wo_nested : nested s;
}.

(** *** Steps that do not count instructions *)

Definition same_bb (w w' : wprof_set_t) : Prop := ∀ pl b, counted pl b w' = counted pl b w.

Record keeps_bb (p p' : wprof_t) : Prop := {
  kb_names : names p' = names p;
  kb_glo : same_bb (glo p) (glo p');
  kb_funcs : ∀ j, same_bb (func_stats p j) (func_stats p' j);
  kb_pes : ends_sum (pes (glo p)) → ends_sum (pes (glo p'));
  kb_opt : ends_sum (opt (glo p)) → ends_sum (opt (glo p'));
}.

Lemma keeps_bb_refl p : keeps_bb p p.
Proof. by constructor. Qed.

Lemma keeps_bb_trans p q r : keeps_bb p q → keeps_bb q r → keeps_bb p r.
Proof.
  intros [A1 A2 A3 A4 A5] [B1 B2 B3 B4 B5]. constructor; [congruence|..]; auto.
  - intros pl b. by rewrite B2, A2.
  - intros j pl b. by rewrite B3, A3.
Qed.

Lemma keeps_bb_func p i f :
  (∀ w, same_bb w (f w)) → keeps_bb p (upd_func p i f).
Proof.
  intros H. constructor; try done. intros j. cbn [upd_func func_stats].
  destruct (Nat.eqb_spec j i) as [->|]; [apply H|done].
Qed.

Lemma keeps_bb_glo p f :
  (∀ w, same_bb w (f w)) → (ends_sum (pes (glo p)) → ends_sum (pes (f (glo p)))) →
  (ends_sum (opt (glo p)) → ends_sum (opt (f (glo p)))) → keeps_bb p (upd_glo p f).
Proof. intros H1 H2 H3. by constructor. Qed.

Lemma keeps_bb_sums p p' : keeps_bb p p' → sums_up p → sums_up p'.
Proof.
  intros [K1 K2 K3 K4 K5] (S1 & S2 & S3 & S4). unfold sums_up. rewrite K1. split_and!; auto.
  - intros pl b. rewrite K2. rewrite (total_ext _ (λ i, counted pl b (func_stats p i))); [apply S1|].
    intros i _. by rewrite K3.
  - intros pl b i Hi. rewrite K3. by apply S2.
Qed.

Lemma same_bb_pes w p : p_in p = p_in (pes w) → p_out p = p_out (pes w) → same_bb w (set_pes w p).
Proof. intros H1 H2 [] []; done. Qed.
Lemma same_bb_opt w p : p_in p = p_in (opt w) → p_out p = p_out (opt w) → same_bb w (set_opt w p).
Proof. intros H1 H2 [] []; done. Qed.
#[export] Hint Resolve keeps_bb_refl same_bb_pes same_bb_opt : osiris.

(** Closing a window: one more end, of one kind. *)
Lemma ends_sum_end p ek es en : ek + es + en = 1 → ends_sum p → ends_sum (pol_end p ek es en).
Proof.
  intros H Hp. unfold ends_sum, pol_end in *. cbn. eapply eq64_trans; [apply eq64_u64|].
  eapply eq64_trans; [apply (eq64_add _ _ 1 1 Hp), eq64_refl|]. apply eq64_sym.
  replace (p_end_k p + p_end_s p + p_end_n p + 1) with ((p_end_k p + ek) + (p_end_s p + es) + (p_end_n p + en)) by lia.
  repeat apply eq64_add; apply eq64_u64.
Qed.

(** A step that counts no instructions and leaves the rest of the profile's
    state. *)
Record quiet (s s' : wstate) : Prop := {
  q_bb : keeps_bb (wprof s) (wprof s');
  q_init : wprof_init s' = wprof_init s;
  q_rec : recursive s' = recursive s;
  q_last : last_have_handled_message s' = last_have_handled_message s;
  q_stats : stats s' = stats s;
  q_enable : wprof_enable s' = wprof_enable s;
}.

Lemma quiet_refl s : quiet s s.
Proof. constructor; auto with osiris. Qed.

Lemma quiet_trans s1 s2 s3 : quiet s1 s2 → quiet s2 s3 → quiet s1 s3.
Proof. intros [] []. constructor; try congruence. by eapply keeps_bb_trans. Qed.

Section Steps.
Variable k : cfg.

Lemma suicide_on_close_quiet s s' :
  suicide_on_close k s = Goes s' →
  quiet s s' ∧ pes_have_handled_message s' = pes_have_handled_message s ∧
  dfa_have_handled_message s' = dfa_have_handled_message s.
Proof.
  unfold suicide_on_close. destruct (suicide_on_window_close (rs s)); [|by intros [= <-]; split; [apply quiet_refl|]].
  unfold ltckpt_do_suicide. intros H.
  destruct (LTRC_SUICIDE_ONLY_ONCE k); cbn [inside_trusted_compute_base upd_suicide] in H; repeat case_match; try done;
    simplify_eq; (split; [constructor; auto with osiris|done]).
Qed.

Lemma close_pes_quiet i kind s s' :
  kind.1.1 + kind.1.2 + kind.2 = 1 → close_pes k i kind s = Goes s' →
  quiet s s' ∧ pes_have_handled_message s' = false ∧ dfa_have_handled_message s' = dfa_have_handled_message s.
Proof.
  intros Hk H. unfold close_pes in H. destruct kind as [[ek es] en]. cbn [fst snd] in Hk.
  apply suicide_on_close_quiet in H as (Q & Hp & Hd). rewrite Hp, Hd.
  set (s1 := match i with Some _ => _ | None => _ end) in *.
  assert (Q1 : quiet s s1 ∧ pes_have_handled_message s1 = false ∧ dfa_have_handled_message s1 = dfa_have_handled_message s).
  { unfold s1. destruct i; (split; [constructor; auto with osiris|done]). }
  destruct Q1 as (Q1 & Hp1 & Hd1). destruct (stats s1) eqn:Es; [|by split; [eapply quiet_trans|]].
  split; [|done]. eapply quiet_trans; [exact Q1|]. eapply quiet_trans; [|exact Q]. constructor; try done.
  cbn [set_wprof wprof].
  assert (K : keeps_bb (wprof s1) (upd_glo (wprof s1) (λ w, set_pes w (pol_end (pes w) ek es en)))).
  { apply keeps_bb_glo; auto with osiris. intros Hs. by apply ends_sum_end. }
  destruct i; [|done]. eapply keeps_bb_trans; [exact K|]. apply keeps_bb_func. auto with osiris.
Qed.

Lemma pes_loop_quiet i names func_name s s' :
  Forall (λ n, n.2.1.1 + n.2.1.2 + n.2.2 = 1) names → pes_loop k i names func_name s = Goes s' →
  quiet s s' ∧ (pes_have_handled_message s' = true → pes_have_handled_message s = true) ∧
  dfa_have_handled_message s' = dfa_have_handled_message s.
Proof.
  intros Hn. revert s. induction Hn as [|[n kind] names Hk _ IH]; intros s H; cbn [pes_loop] in H.
  { injection H as <-. split; [apply quiet_refl|done]. }
  destruct (pes_have_handled_message s) eqn:Hp; cbn [negb] in H;
    [|injection H as <-; split; [apply quiet_refl|by rewrite Hp]].
  destruct (String.prefix n func_name); [|by destruct (IH _ H) as (Q & _ & Hd)].
  destruct (close_pes k i kind s) as [s1|s1] eqn:Ec; [|done].
  apply close_pes_quiet in Ec as (Q & _ & Hd1); [|done]. destruct (IH _ H) as (Q' & _ & Hd2).
  split; [by eapply quiet_trans|]. split; [done|congruence].
Qed.

Lemma transition_quiet hhm i s s' :
  nested s → transition k hhm i s = Goes s' →
  quiet s s' ∧ (pes_have_handled_message s' = true → dfa_have_handled_message s' = true) ∧
  (dfa_have_handled_message s' = true → hhm = true).
Proof.
  intros [N1 N2] H. unfold transition in H.
  destruct (hhm && negb (last_have_handled_message s)) eqn:E1.
  { injection H as <-. apply andb_true_iff in E1 as [-> _]. split; [constructor; auto with osiris|done]. }
  destruct (negb hhm && last_have_handled_message s) eqn:E2.
  - apply suicide_on_close_quiet in H as (Q & Hp & Hd). rewrite Hp, Hd.
    set (s1 := set_window_closed _) in *.
    assert (Q1 : quiet s s1) by (constructor; auto with osiris).
    destruct (stats s1); [|by split; [eapply quiet_trans|]].
    assert (K : keeps_bb (wprof s1) (upd_glo (wprof s1) (λ w, set_opt w (pol_end (opt w) 1 0 0)))).
    { apply keeps_bb_glo; auto with osiris. intros Hs. by apply ends_sum_end. }
    split; [|by destruct i]. eapply quiet_trans; [exact Q1|]. eapply quiet_trans; [|exact Q].
    destruct i as [i|]; constructor; try done. cbn [set_wprof set_closers wprof].
    eapply keeps_bb_trans; [exact K|]. apply keeps_bb_func. auto with osiris.
  - injection H as <-. split; [apply quiet_refl|]. split; [done|]. intros Hd. specialize (N2 Hd).
    destruct hhm; [done|]. by rewrite N2 in E2.
Qed.

(** *** Counting *)

(** Each policy counts the instructions once, inside or outside. *)
Definition flag (hhm pe df : bool) (pl : policy) : bool :=
  match pl with Pes => pe | Dfa => df | Opt => hhm end.

Lemma account_set_counted hhm pe df n w pl b :
  eq64 (counted pl b (account_set hhm pe df n w)) (counted pl b w + if eqb (flag hhm pe df pl) b then n else 0).
Proof.
  destruct pl, b; cbn [flag account_set counted pol_of pes dfa opt]; destruct hhm, pe, df; cbn [pol_bb p_in p_out eqb];
    rewrite ?Z.add_0_r; auto with osiris.
Qed.

Lemma resummarize_bb name w w' : resummarize name w = Ret w' →
  same_bb w w' ∧ pes w' = pes w ∧ opt w' = opt w.
Proof. unfold resummarize. destruct (_ <? _)%nat; [|done]. intros [= <-]. split; [|done]. by intros [] []. Qed.

Lemma blame_bb s n : keeps_bb (wprof s) (blame s n).
Proof.
  unfold blame. destruct (opt_closer s) as [i|], (pes_closer s) as [j|]; auto with osiris.
  - eapply keeps_bb_trans; [apply (keeps_bb_func _ i (λ w, set_opt w (pol_blame (opt w) n)))|apply keeps_bb_func];
      auto with osiris.
  - apply keeps_bb_func; auto with osiris.
  - apply keeps_bb_func; auto with osiris.
Qed.

(** One accounting step adds the block to the global counters and to those of
    its function. *)
Lemma account_sums hhm ht n fname i s s' :
  sums_up (wprof s) → (i < length (names (wprof s)))%nat → account hhm ht n fname i s = Ret s' →
  sums_up (wprof s') ∧ names (wprof s') = names (wprof s) ∧
  (∀ pl b, eq64 (counted pl b (glo (wprof s')))
     (counted pl b (glo (wprof s)) +
      if eqb (flag hhm (pes_have_handled_message s) (dfa_have_handled_message s) pl) b then n else 0)) ∧
  wprof_init s' = wprof_init s ∧ recursive s' = recursive s ∧ wprof_enable s' = wprof_enable s ∧ stats s' = stats s ∧
  pes_have_handled_message s' = pes_have_handled_message s ∧ dfa_have_handled_message s' = dfa_have_handled_message s.
Proof.
  intros (S1 & S2 & S3 & S4) Hi H. unfold account in H. apply res_bind_inv in H as (p & Hp & [= <-]).
  set (pe := pes_have_handled_message s) in *. set (df := dfa_have_handled_message s) in *.
  set (op := Window.sa_window__is_open _) in *.
  set (p1 := upd_func (upd_glo (wprof s) _) i _) in *.
  assert (Hg : ∀ pl b, eq64 (counted pl b (glo p1))
            (counted pl b (glo (wprof s)) + if eqb (flag hhm pe df pl) b then n else 0)).
  { intros pl b. apply (account_set_counted hhm pe df n (glo (wprof s)) pl b). }
  assert (Hs1 : sums_up p1).
  { split_and!; try done.
    - intros pl b. eapply eq64_trans; [apply Hg|]. apply eq64_sym.
      eapply eq64_trans; [apply (total_upd (λ j, counted pl b (func_stats (wprof s) j)) _ _ i
        (if eqb (flag hhm pe df pl) b then n else 0)); [done|..]|].
      + intros j Hj. cbn [p1 upd_func func_stats upd_glo]. by destruct (Nat.eqb_spec j i).
      + cbn [p1 upd_func func_stats upd_glo]. rewrite Nat.eqb_refl. apply account_set_counted.
      + apply eq64_add; [|apply eq64_refl]. apply eq64_sym, S1.
    - intros pl b j Hj. cbn [p1 upd_func func_stats upd_glo]. destruct (Nat.eqb_spec j i) as [->|]; [|by apply S2].
      cbn [p1 upd_func upd_glo names] in Hj. lia.
    - cbn. unfold ends_sum, pol_bb in *. by destruct pe.
    - cbn. unfold ends_sum, pol_bb in *. by destruct hhm. }
  assert (K : keeps_bb p1 p).
  { destruct (ht =? 0); [|injection Hp as <-; apply keeps_bb_refl].
    apply res_bind_inv in Hp as (w' & Hw & Hp). apply res_bind_inv in Hp as (g' & Hg' & [= <-]).
    apply resummarize_bb in Hw as (Hw & _), Hg' as (Hg' & Ep & Eo).
    constructor; try done.
    - intros j. cbn [upd_func func_stats upd_glo]. by destruct (Nat.eqb_spec j i) as [->|].
    - cbn [upd_func upd_glo glo]. by rewrite Ep.
    - cbn [upd_func upd_glo glo]. by rewrite Eo. }
  pose proof (keeps_bb_trans _ _ _ K (blame_bb (set_wprof s p) n)) as K'. cbn [set_wprof wprof].
  split_and!; try done.
  - by eapply keeps_bb_sums.
  - apply (kb_names _ _ K').
  - intros pl b. rewrite (kb_glo _ _ K'). apply Hg.
Qed.

(** *** The function table *)

Lemma func_stats_spec c2 c1 c0 fname s i s' :
  wprof_ok s → lt_wprof_func_stats c2 c1 c0 fname s = Ret (i, s') →
  wprof_ok s' ∧ (i < length (names (wprof s')))%nat ∧ names (wprof s') !! i = Some (scope_name c2 c1 c0 fname) ∧
  glo (wprof s') = glo (wprof s) ∧ stats s' = stats s ∧ wprof_enable s' = wprof_enable s ∧
  last_have_handled_message s' = last_have_handled_message s.
Proof.
  intros [Hin Hre Hnd Hmx (S1 & S2 & S3 & S4) Hne] H. unfold lt_wprof_func_stats in H.
  destruct (recursive s) eqn:Er; [done|]. cbn [negb] in H. destruct (negb _) in H; [done|].
  set (name := scope_name c2 c1 c0 fname) in *. unfold find_scope in H.
  destruct (list_find (λ n, n = name) (names (wprof s))) as [[j x]|] eqn:Ef; cbn [fmap option_fmap option_map fst] in H.
  - injection H as <- <-. apply list_find_Some in Ef as (Hj & -> & _). split_and!; try done. by apply lookup_lt_Some in Hj.
  - destruct (Z.ltb_spec (Z.of_nat (length (names (wprof s)))) MAXFUNCS) as [Hlt|]; [|done]. injection H as <- <-.
    apply list_find_None in Ef. cbn [set_wprof wprof names glo]. split; [|split_and!; try done].
    + constructor; try done; cbn [set_wprof wprof names].
      * apply NoDup_app. split_and!; [done| |apply NoDup_singleton]. intros x Hx Hx'. apply list_elem_of_singleton in Hx' as ->.
        by apply (proj1 (Forall_forall _ _) Ef name Hx).
      * rewrite length_app. cbn [length]. lia.
      * unfold sums_up. cbn [glo names func_stats]. rewrite length_app. cbn [length]. rewrite Nat.add_1_r. split_and!; try done.
        -- intros pl b. cbn [total]. rewrite (S2 pl b (length (names (wprof s)))) by lia. rewrite Z.add_0_r. apply S1.
        -- intros pl b j Hj. apply S2. lia.
    + rewrite length_app. simpl. lia.
    + by apply list_lookup_middle.
Qed.

Lemma quiet_ok s s' : quiet s s' → wprof_ok s → nested s' → wprof_ok s'.
Proof.
  intros Q [Hin Hre Hnd Hmx Hs Hne] Hn. destruct Q as [K]. constructor; try congruence.
  - by rewrite (kb_names _ _ K).
  - by rewrite (kb_names _ _ K).
  - by eapply keeps_bb_sums.
Qed.

(** One call of the hook with profiling enabled. *)
Lemma hook_step hhm ht n fname c2 c1 c0 s s' :
  wprof_ok s → wprof_enable s = true →
  ltckpt_aop_hook_wprof k hhm ht n fname c2 c1 c0 s = Ret (Goes s') →
  wprof_ok s' ∧ wprof_enable s' = true ∧ last_have_handled_message s' = hhm ∧ stats s' = stats s ∧
  ∀ pl b, eq64 (counted pl b (glo (wprof s')))
    (counted pl b (glo (wprof s)) +
     if stats s && eqb (flag hhm (pes_have_handled_message s') (dfa_have_handled_message s') pl) b then n else 0).
Proof.
  intros Hok Hen H. unfold ltckpt_aop_hook_wprof in H. rewrite (wo_init _ Hok), Hen in H. cbn [negb] in H.
  apply res_bind_inv in H as ([i s0] & H0 & H).
  assert (P0 : wprof_ok s0 ∧ glo (wprof s0) = glo (wprof s) ∧ stats s0 = stats s ∧ wprof_enable s0 = true ∧
             match i with Some i => (i < length (names (wprof s0)))%nat | None => stats s = false end).
  { destruct (stats s) eqn:Es.
    - apply res_bind_inv in H0 as ([j t] & Hf & [= <- <-]).
      apply func_stats_spec in Hf as (A1 & A2 & _ & A3 & A4 & A5 & _); [|done]. split_and!; congruence || done.
    - injection H0 as <- <-. by split_and!. }
  clear H0. destruct P0 as (Hok0 & Hg0 & Hs0 & He0 & Hi0).
  unfold and_then in H. destruct (if ht =? 0 then _ else _) as [s1|] eqn:E1; [|done].
  assert (P1 : quiet s0 s1 ∧ nested s1).
  { destruct (wo_nested _ Hok0) as [N1 N2]. destruct (ht =? 0); [|injection E1 as <-; by split; [apply quiet_refl|]].
    apply pes_loop_quiet in E1 as (Q & Hp & Hd); [|by repeat constructor]. split; [done|].
    unfold nested. rewrite Hd, (q_last _ _ Q). auto. }
  destruct P1 as [Q1 N1]. destruct (transition k hhm i s1) as [s2|] eqn:E2; [|done].
  apply transition_quiet in E2 as (Q2 & Hp2 & Hd2); [|done].
  pose proof (quiet_trans _ _ _ Q1 Q2) as Q. apply res_bind_inv in H as (s3 & H3 & [= <-]).
  assert (Hs2 : stats s2 = stats s) by (by rewrite (q_stats _ _ Q)).
  assert (K : ∀ pl b, counted pl b (glo (wprof s2)) = counted pl b (glo (wprof s))).
  { intros pl b. by rewrite (kb_glo _ _ (q_bb _ _ Q)), Hg0. }
  assert (Hn2 : names (wprof s2) = names (wprof s0)) by (apply (kb_names _ _ (q_bb _ _ Q))).
  assert (Hsum : sums_up (wprof s2)) by (eapply keeps_bb_sums; [apply (q_bb _ _ Q)|apply (wo_sums _ Hok0)]).
  destruct Q as [_ Qi Qr _ _ Qe]. destruct Hok0 as [Hin Hre Hnd Hmx _ _].
  assert (P3 : sums_up (wprof s3) ∧ names (wprof s3) = names (wprof s0) ∧
            (∀ pl b, eq64 (counted pl b (glo (wprof s3))) (counted pl b (glo (wprof s)) +
               if stats s && eqb (flag hhm (pes_have_handled_message s3) (dfa_have_handled_message s3) pl) b then n else 0)) ∧
            wprof_init s3 = true ∧ recursive s3 = false ∧ wprof_enable s3 = true ∧ stats s3 = stats s ∧
            pes_have_handled_message s3 = pes_have_handled_message s2 ∧
            dfa_have_handled_message s3 = dfa_have_handled_message s2).
  { rewrite Hs2 in H3. destruct i as [i|].
    - destruct (stats s); [|injection H3 as <-; split_and!; try congruence; intros pl b; rewrite K, Z.add_0_r; apply eq64_refl].
      apply account_sums in H3 as (A1 & A2 & A3 & A4 & A5 & A6 & A7 & A8 & A9); [|done|by rewrite Hn2].
      split_and!; try congruence. intros pl b. rewrite A8, A9, <- K. apply A3.
    - rewrite Hi0 in *. injection H3 as <-. split_and!; try congruence. intros pl b. rewrite K, Z.add_0_r. apply eq64_refl. }
  destruct P3 as (B1 & B2 & B3 & B4 & B5 & B6 & B7 & B8 & B9).
  split; [|split_and!; done]. constructor; try done; cbn [set_last wprof]; try by rewrite B2.
  unfold nested. cbn [set_last pes_have_handled_message dfa_have_handled_message last_have_handled_message].
  rewrite B8, B9. by split.
Qed.
End Steps.

(** ** Runs *)

Record call := { c_hhm : bool; c_type : Z; c_insts : Z; c_func : string; c_2 : Z; c_1 : Z; c_0 : Z }.

Definition do_call (k : cfg) (c : call) (s : wstate) : res outcome :=
  ltckpt_aop_hook_wprof k (c_hhm c) (c_type c) (c_insts c) (c_func c) (c_2 c) (c_1 c) (c_0 c) s.

Fixpoint run_hooks (k : cfg) (s : wstate) (calls : list call) : res outcome :=
  match calls with
  | [] => Ret (Goes s)
  | c :: calls' => let! o := do_call k c s in and_then o (λ s', run_hooks k s' calls')
  end.

Fixpoint insts (calls : list call) : Z :=
  match calls with [] => 0 | c :: calls' => c_insts c + insts calls' end.

(** C10: the window profile is consistent.  Let the hook run in any sequence of
    basic blocks with statistics enabled.  Every policy counts each block exactly
    once, inside or outside its windows; the pessimistic windows lie inside those
    of [dfa] and these inside the optimistic ones, so the counts are ordered; the
    global counters stay the sums of the functions' counters and the number of
    window ends the sum of its three kinds, modulo 2^64; function names stay
    distinct and inside the table. *)
Theorem window_profile_consistent k s calls s' :
  wprof_ok s → wprof_enable s = true → stats s = true → Forall (λ c, 0 ≤ c_insts c) calls →
  run_hooks k s calls = Ret (Goes s') →
  wprof_ok s' ∧ ∃ inside : policy → Z,
    0 ≤ inside Pes ≤ inside Dfa ∧ inside Dfa ≤ inside Opt ≤ insts calls ∧
    ∀ pl, eq64 (counted pl true (glo (wprof s'))) (counted pl true (glo (wprof s)) + inside pl) ∧
          eq64 (counted pl false (glo (wprof s'))) (counted pl false (glo (wprof s)) + (insts calls - inside pl)).
Proof.
  intros Hok Hen Hst Hc. revert s Hok Hen Hst. induction Hc as [|c calls Hn _ IH]; intros s Hok Hen Hst H; cbn [run_hooks] in H.
  { injection H as <-. split; [done|]. exists (λ _, 0). cbn [insts]. split_and!; try lia.
    intros pl. rewrite !Z.add_0_r. split; apply eq64_refl. }
  apply res_bind_inv in H as ([s1|s1] & Hs1 & H); cbn [and_then] in H; [|done].
  destruct (hook_step k _ _ _ _ _ _ _ _ _ Hok Hen Hs1) as (Hok1 & He1 & Hl1 & Hst1 & Hct).
  rewrite Hst in Hst1. destruct (IH s1 Hok1 He1 Hst1 H) as (Hok' & ins & I1 & I2 & I3). split; [done|].
  rewrite Hst in Hct. cbn [andb] in Hct. destruct (wo_nested _ Hok1) as [N1 N2]. rewrite Hl1 in N2.
  set (pe := pes_have_handled_message s1) in *. set (df := dfa_have_handled_message s1) in *.
  exists (λ pl, (if flag (c_hhm c) pe df pl then c_insts c else 0) + ins pl). cbn [insts flag]. split_and!.
  - destruct pe; lia.
  - destruct pe; [rewrite (N1 eq_refl)|destruct df]; lia.
  - destruct df; [rewrite (N2 eq_refl)|destruct (c_hhm c)]; lia.
  - destruct (c_hhm c); lia.
  - intros pl. destruct (I3 pl) as [A B]. pose proof (Hct pl true) as C1. pose proof (Hct pl false) as C2.
    destruct (flag (c_hhm c) pe df pl); cbn [eqb] in C1, C2; destruct A as [qa A], B as [qb B], C1 as [q1 C1], C2 as [q2 C2];
      split; [exists (qa + q1)|exists (qb + q2)|exists (qa + q1)|exists (qb + q2)]; lia.
Qed.

(** *** Buffers *)

Lemma digits_loop_bound base dc fuel k n acc :
  1 < base → 0 ≤ n < base ^ Z.of_nat (S k) →
  (String.length (digits_loop fuel base dc n acc) ≤ S k + String.length acc)%nat.
Proof.
  intros Hb. revert k n acc. induction fuel as [|fuel IH]; intros k n acc Hn; cbn [digits_loop]; [lia|].
  destruct (n / base >? 0) eqn:E; [|simpl; lia]. apply Z.gtb_lt in E.
  assert (Hlt : base ≤ n) by (pose proof (Z.div_small n base); destruct (decide (n < base)); lia).
  destruct k as [|k]; [rewrite Z.pow_1_r in Hn; lia|]. rewrite Nat2Z.inj_succ, Z.pow_succ_r in Hn by lia.
  specialize (IH k (n / base) (String (dc (n `mod` base)) acc)). simpl in IH |- *.
  enough (0 ≤ n / base < base ^ Z.of_nat (S k)) by (specialize (IH H); simpl in IH; lia).
  split; [lia|]. apply Z.div_lt_upper_bound; lia.
Qed.

Lemma digits_loop_fuel_bound base dc fuel n acc :
  (String.length (digits_loop fuel base dc n acc) ≤ fuel + String.length acc)%nat.
Proof.
  revert n acc. induction fuel as [|fuel IH]; intros n acc; cbn [digits_loop]; [lia|].
  destruct (_ >? 0); [|simpl; lia]. specialize (IH (n / base) (String (dc (n `mod` base)) acc)). simpl in *. lia.
Qed.

Lemma lt_n2d_length n : (String.length (lt_n2d n) ≤ 19)%nat.
Proof. exact (digits_loop_fuel_bound 10 digit_char 19 n ""). Qed.

Lemma lt_n2h_length n : 0 ≤ n < 2^32 → (String.length (lt_n2h n) ≤ 8)%nat.
Proof. intros H. apply (digits_loop_bound 16 hex_digit 19 7 n ""); [lia|]. exact H. Qed.


Lemma string_length_S (c : ascii) s : String.length (String c s) = S (String.length s).
Proof. done. Qed.

Lemma summary_fits name w : (String.length name ≤ 78)%nat → (String.length (summary_text name w) < SUMMARY)%nat.
Proof.
  intros Hn. unfold summary_text, SUMMARY. rewrite !string_length_app.
  pose proof (lt_n2d_length (p_in (pes w))). pose proof (lt_n2d_length (p_out (pes w))).
  pose proof (lt_n2d_length (p_in (dfa w))). pose proof (lt_n2d_length (p_out (dfa w))).
  pose proof (lt_n2d_length (p_in (opt w))). pose proof (lt_n2d_length (p_out (opt w))).
  cbn [String.length]. lia.
Qed.

Lemma scope_fits c2 c1 c0 name :
  0 ≤ c2 < 2^32 → 0 ≤ c1 < 2^32 → 0 ≤ c0 < 2^32 → (String.length name ≤ 66)%nat →
  (String.length (scope_name c2 c1 c0 name) < FUNCNAME)%nat.
Proof.
  intros H2 H1 H0 Hn. unfold scope_name, FUNCNAME. rewrite !string_length_app.
  pose proof (lt_n2h_length c2 H2). pose proof (lt_n2h_length c1 H1). pose proof (lt_n2h_length c0 H0).
  cbn [String.length]. lia.
Qed.

Lemma resummarize_returns name w : (String.length name ≤ 78)%nat → is_ret (resummarize name w) = true.
Proof.
  intros Hn. unfold resummarize. destruct (Nat.ltb_spec (String.length (summary_text name w)) SUMMARY); [done|].
  pose proof (summary_fits name w Hn). lia.
Qed.

Lemma is_ret_bind {A B} (m : res A) (f : A → res B) :
  is_ret m = true → (∀ x, m = Ret x → is_ret (f x) = true) → is_ret (res_bind m f) = true.
Proof. destruct m; simpl; [auto|done]. Qed.

Lemma account_returns hhm ht n fname i s : (String.length fname ≤ 78)%nat → is_ret (account hhm ht n fname i s) = true.
Proof.
  intros Hn. unfold account. apply is_ret_bind; [|done]. destruct (ht =? 0); [|done].
  apply is_ret_bind; [by apply resummarize_returns|]. intros w' _.
  apply is_ret_bind; [|done]. apply resummarize_returns. cbn. lia.
Qed.

(** C33: the hook stays inside its buffers.  With function names of at most 66
    characters, 32-bit return addresses and room in the function table, a call of
    the hook returns: no string overflows the 100-byte name or the 200-byte summary
    and no assertion fails. *)
Theorem hook_within_buffers k c s :
  wprof_ok s → Z.of_nat (length (names (wprof s))) < MAXFUNCS → (String.length (c_func c) ≤ 66)%nat →
  0 ≤ c_2 c < 2^32 → 0 ≤ c_1 c < 2^32 → 0 ≤ c_0 c < 2^32 →
  is_ret (do_call k c s) = true.
Proof.
  intros Hok Hroom Hn H2 H1 H0. unfold do_call, ltckpt_aop_hook_wprof. rewrite (wo_init _ Hok).
  destruct (wprof_enable s); cbn [negb]; [|done].
  assert (Hf : stats s = true → is_ret (lt_wprof_func_stats (c_2 c) (c_1 c) (c_0 c) (c_func c) s) = true).
  { intros _. unfold lt_wprof_func_stats. rewrite (wo_rec _ Hok). cbn [negb].
    destruct (Nat.ltb_spec (String.length (scope_name (c_2 c) (c_1 c) (c_0 c) (c_func c))) FUNCNAME) as [|Hge];
      [|pose proof (scope_fits _ _ _ _ H2 H1 H0 Hn); lia]. cbn [negb].
    destruct (find_scope _ _); [done|]. by destruct (Z.ltb_spec (Z.of_nat (length (names (wprof s)))) MAXFUNCS); [|lia]. }
  apply is_ret_bind.
  { destruct (stats s); [|done]. apply is_ret_bind; [auto|done]. }
  intros [i s0] E0.
  assert (Hi : i = None → s0 = s ∧ stats s = false).
  { intros ->. destruct (stats s) eqn:Es; [|by injection E0 as <-]. by apply res_bind_inv in E0 as (? & _ & [=]). }
  unfold and_then. destruct (if c_type c =? 0 then _ else _) as [s1|] eqn:E1; [|done].
  destruct (transition k (c_hhm c) i s1) as [s2|] eqn:E2; [|done].
  apply is_ret_bind; [|done]. destruct i as [i|].
  - destruct (stats s2); [|done]. apply account_returns. lia.
  - destruct (Hi eq_refl) as [-> Es]. destruct (wo_nested _ Hok) as [N1 N2].
    assert (P1 : quiet s s1 ∧ nested s1).
    { destruct (c_type c =? 0); [|injection E1 as <-; by split; [apply quiet_refl|]].
      apply pes_loop_quiet in E1 as (Q & Hp & Hd); [|by repeat constructor]. split; [done|].
      unfold nested. rewrite Hd, (q_last _ _ Q). auto. }
    destruct P1 as [Q1 Hn1]. apply transition_quiet in E2 as (Q2 & _); [|done].
    by rewrite (q_stats _ _ Q2), (q_stats _ _ Q1), Es.
Qed.

(** The hook crashes the process only when it was told to, outside the trusted
    computing base and with a recoverable bitmask. *)
Lemma suicide_on_close_dies k s s' :
  suicide_on_close k s = Dies s' →
  suicide_on_window_close (rs s) = true ∧ inside_trusted_compute_base (rs s) = false ∧
  Window.g_recovery_bitmask (rwin (rs s)) = Window.LTCKPT_RECOVERY_MASK_IDEMPOTENT ∧
  suicide_on_window_close (rs s') = false.
Proof.
  unfold suicide_on_close. destruct (suicide_on_window_close (rs s)) eqn:E; [|done].
  destruct (ltckpt_do_suicide k _) as [r|r] eqn:Ed; [done|]. intros [= <-].
  unfold ltckpt_do_suicide in Ed. destruct (LTRC_SUICIDE_ONLY_ONCE k); cbn in Ed;
    (destruct (inside_trusted_compute_base (rs s)); [done|]);
    (destruct (Z.eqb_spec (Window.g_recovery_bitmask (rwin (rs s))) Window.LTCKPT_RECOVERY_MASK_IDEMPOTENT); cbn in Ed; [|done]);
    injection Ed as <-; by split_and!.
Qed.

(** The counter of a function's pessimistic window ends never moves: closing one
    is counted for its optimistic windows. *)
Lemma close_pes_counts_opt k i kind s s' :
  stats s = true → close_pes k (Some i) kind s = Goes s' →
  p_end (pes (func_stats (wprof s') i)) = p_end (pes (func_stats (wprof s) i)) ∧
  p_end (opt (func_stats (wprof s') i)) = u64 (p_end (opt (func_stats (wprof s) i)) + 1).
Proof.
  intros Hs H. unfold close_pes in H. destruct kind as [[ek es] en].
  match type of H with context [if ?b then _ else _] => change b with (stats s) in H end. rewrite Hs in H.
  match type of H with suicide_on_close k ?t = _ => assert (E : wprof s' = wprof t) end.
  { unfold suicide_on_close in H. repeat case_match; simplify_eq; done. }
  rewrite E. cbn. rewrite Nat.eqb_refl. done.
Qed.

(** ** Witnesses *)

Definition demo_rstate : rstate :=
  Build_rstate {| Window.sa_window__is_open := true; Window.g_recovery_bitmask := 1; Window.g_recovery_bitmask_reason := None |}
    false false false (λ _, Build_shutter 0 0 0) (λ _, Build_ben 0 0) 0 0 0 [] 0 true
    (Build_profile 0 0 0 0 0 0) "vfs".
Definition demo_wstate : wstate := Build_wstate demo_rstate wprof_zero false false false true true None None false.
Definition demo_cfg : cfg := Build_cfg false false false false false false.
Definition demo_calls : list call :=
  [Build_call true 0 10 "do_read" 16 32 48; Build_call true 0 5 "_ipc_send_x" 16 32 64; Build_call false 1 3 "do_read" 16 32 48].

Lemma demo_wstate_ok : wprof_ok demo_wstate.
Proof.
  constructor; try done; [constructor|]. split_and!; try done.
  - intros [] []; apply eq64_refl.
  - intros [] []; done.
  - apply eq64_refl.
  - apply eq64_refl.
Qed.

Lemma window_profile_consistent_witness :
  ∃ s', run_hooks demo_cfg demo_wstate demo_calls = Ret (Goes s') ∧ wprof_ok s' ∧
    counted Opt true (glo (wprof s')) = 15 ∧ counted Pes true (glo (wprof s')) = 10.
Proof.
  destruct (run_hooks demo_cfg demo_wstate demo_calls) as [[s'|s']|] eqn:E;
    try (apply (f_equal (λ m, match m with Ret (Goes _) => true | _ => false end)) in E; vm_compute in E; discriminate E).
  exists s'. split; [reflexivity|].
  destruct (window_profile_consistent demo_cfg demo_wstate demo_calls s' demo_wstate_ok eq_refl eq_refl) as [Hok _];
    [repeat constructor; discriminate|exact E|].
  split; [exact Hok|].
  apply (f_equal (λ m, match m with Ret (Goes t) => (counted Opt true (glo (wprof t)), counted Pes true (glo (wprof t)))
                       | _ => (0, 0) end)) in E.
  vm_compute in E. injection E as E1 E2. split; [symmetry; exact E1|symmetry; exact E2].
Defined.

Lemma hook_within_buffers_witness : is_ret (do_call demo_cfg (Build_call true 0 10 "do_read" 16 32 48) demo_wstate) = true.
Proof.
  apply (hook_within_buffers demo_cfg (Build_call true 0 10 "do_read" 16 32 48) demo_wstate demo_wstate_ok);
    [reflexivity|cbn; lia|cbn; lia|cbn; lia|cbn; lia].
Defined.
