(* ===== verification/LogParse.v ===== *)
(** * The hypermem log reader: [common/logparse.c]

    The reader scans a log file line by line, reads a time stamp, matches the
    rest against the table of patterns and calls the handler of the first
    pattern that matches; the handler checks its parameters and calls the
    client's callback.  Callbacks and messages on [stderr] are the outputs of
    the model, in order.  A C string is a [string] (its end is the NUL). *)

From Stdlib Require Import ZArith Lia Ascii String.
From stdpp Require Import base list numbers strings.
From S2P Require Import Prelude Decimal LogFmt.

(** ** Data of [logparse.h] *)


Record logparse_callback_state := { timestamp : timeval; cb_lineno : Z }.

Inductive minix_test_status := mts_running | mts_passed | mts_failed.
Inductive ltckpt_closereason := lcr_unknown | lcr_ipc | lcr_writelog_full.
Inductive ltckpt_method :=
| lm_generic | lm_deadlock | lm_failstop | lm_idempotent | lm_process_specific
| lm_service_fi | lm_writelog.
Inductive ltckpt_status := ls_start | ls_failure | ls_shutdown | ls_success.

(** A call of a callback, with its arguments.  A [(char * , size_t)] pair is the
    text it delimits, [None] for a null pointer. *)
Inductive call :=
| edfi_context_release (name : string)
| edfi_context_reset (name : string)
| edfi_context_set (name : string)
| edfi_dump_stats (msg : option string)
| edfi_dump_stats_module (name : string) (msg : option string) (bbs : option (list Z))
| edfi_faultindex_get (name : string) (bbindex : Z)
| fault (name : string) (bbindex repeat : Z)
| hypermem_error (desc : string)
| hypermem_faultspec (faultspec : string)
| hypermem_flushlog (enable : bool)
| hypermem_logpath (logpath : string)
| hypermem_warning (desc : string)
| nop
| qemu_drive (index : Z) (img : string)
| qemu_exit
| qemu_hypermem_reset
| qemu_interrupt (number : Z)
| qemu_powerdown
| qemu_reset
| qemu_shutdown
| qemu_signal (number : Z)
| quit
| print_debug (msg : string)
| print_rs_crash (name : string) (signal : Z)
| print_rs_normal (name : string)
| print_startup (name : string)
| print_end
| print_sanity (passed posttest : bool)
| print_start
| print_workload (name : string)
| print_workload_completed
| print_abort_after_restart
| print_test (name : string) (status : minix_test_status)
| print_test_output (name msg : string)
| print_tests_completed (namesbad : option string)
| print_tests_starting (names : string)
| print_ltckpt (status : ltckpt_status) (method : ltckpt_method) (name : string)
| print_ltckpt_closed (reason : ltckpt_closereason) (name : string)
| print_ltckpt_closed_ipc_callsites (name : string) (totaltimes totalsites : Z) (callsites : list Z).

(** The callback a call goes to: its constructor. *)
Inductive callback :=
| cb_edfi_context_release | cb_edfi_context_reset | cb_edfi_context_set | cb_edfi_dump_stats
| cb_edfi_dump_stats_module | cb_edfi_faultindex_get | cb_fault | cb_hypermem_error
| cb_hypermem_faultspec | cb_hypermem_flushlog | cb_hypermem_logpath | cb_hypermem_warning
| cb_nop | cb_qemu_drive | cb_qemu_exit | cb_qemu_hypermem_reset
| cb_qemu_interrupt | cb_qemu_powerdown | cb_qemu_reset | cb_qemu_shutdown
| cb_qemu_signal | cb_quit | cb_print_debug | cb_print_rs_crash
| cb_print_rs_normal | cb_print_startup | cb_print_end | cb_print_sanity
| cb_print_start | cb_print_workload | cb_print_workload_completed | cb_print_abort_after_restart
| cb_print_test | cb_print_test_output | cb_print_tests_completed | cb_print_tests_starting
| cb_print_ltckpt | cb_print_ltckpt_closed | cb_print_ltckpt_closed_ipc_callsites.

Definition callback_of (x : call) : callback :=
  match x with
  | edfi_context_release _ => cb_edfi_context_release
  | edfi_context_reset _ => cb_edfi_context_reset
  | edfi_context_set _ => cb_edfi_context_set
  | edfi_dump_stats _ => cb_edfi_dump_stats
  | edfi_dump_stats_module _ _ _ => cb_edfi_dump_stats_module
  | edfi_faultindex_get _ _ => cb_edfi_faultindex_get
  | fault _ _ _ => cb_fault
  | hypermem_error _ => cb_hypermem_error
  | hypermem_faultspec _ => cb_hypermem_faultspec
  | hypermem_flushlog _ => cb_hypermem_flushlog
  | hypermem_logpath _ => cb_hypermem_logpath
  | hypermem_warning _ => cb_hypermem_warning
  | nop => cb_nop
  | qemu_drive _ _ => cb_qemu_drive
  | qemu_exit => cb_qemu_exit
  | qemu_hypermem_reset => cb_qemu_hypermem_reset
  | qemu_interrupt _ => cb_qemu_interrupt
  | qemu_powerdown => cb_qemu_powerdown
  | qemu_reset => cb_qemu_reset
  | qemu_shutdown => cb_qemu_shutdown
  | qemu_signal _ => cb_qemu_signal
  | quit => cb_quit
  | print_debug _ => cb_print_debug
  | print_rs_crash _ _ => cb_print_rs_crash
  | print_rs_normal _ => cb_print_rs_normal
  | print_startup _ => cb_print_startup
  | print_end => cb_print_end
  | print_sanity _ _ => cb_print_sanity
  | print_start => cb_print_start
  | print_workload _ => cb_print_workload
  | print_workload_completed => cb_print_workload_completed
  | print_abort_after_restart => cb_print_abort_after_restart
  | print_test _ _ => cb_print_test
  | print_test_output _ _ => cb_print_test_output
  | print_tests_completed _ => cb_print_tests_completed
  | print_tests_starting _ => cb_print_tests_starting
  | print_ltckpt _ _ _ => cb_print_ltckpt
  | print_ltckpt_closed _ _ => cb_print_ltckpt_closed
  | print_ltckpt_closed_ipc_callsites _ _ _ _ => cb_print_ltckpt_closed_ipc_callsites
  end.

(** [struct logparse_callbacks]: which callbacks are not null. *)
Definition logparse_callbacks : Type := callback → bool.

(** What is written to [stderr]; line numbers as printed. *)
Inductive warning :=
| WInvalidTimestamp (lineno : Z)
| WNotRecognized (lineno : Z) (text : string)
| WInvalidExecCounts (lineno : Z)
| WNoCallsiteId (lineno : Z)
| WMissingComma (lineno : Z)
| WHypermemError (desc : string)
| WHypermemWarning (desc : string).

Inductive output :=
| OCall (st : logparse_callback_state) (x : call)
| OStderr (w : warning).

(** [struct logparse_line_handler_param]; [str] is the text from the pointer to
    the end of the line. *)
Record param := { str : option string; num : Z; len : nat }.
Definition zero_param : param := {| str := None; num := 0; len := 0 |}.

(** ** Parameters of handlers

    [params] holds the parameters that were matched; the entries behind them
    are zero, because [pattern_match] clears the array first. *)

Definition nth_param (ps : list param) (i : nat) : param := default zero_param (ps !! i).
Definition is_str (ps : list param) (i : nat) : bool :=
  match str (nth_param ps i) with Some _ => true | None => false end.
Definition text_at (ps : list param) (i : nat) : string :=
  match str (nth_param ps i) with
  | Some s => str_take (len (nth_param ps i)) s
  | None => EmptyString
  end.
Definition num_at (ps : list param) (i : nat) : Z := num (nth_param ps i).
Definition count_is (ps : list param) (n : nat) : bool := (length ps =? n)%nat.

Definition handler : Type :=
  logparse_callbacks → Z → logparse_callback_state → list param → res (list output).

(** [if (state->callbacks->f) state->callbacks->f (cbstate, ...)] *)
Definition call_if (cb : logparse_callbacks) (st : logparse_callback_state) (x : call) : res (list output) :=
  Ret (if cb (callback_of x) then [OCall st x] else []).

(** ** Execution counts and call sites in a parameter *)

Fixpoint skip_spaces (s : string) : string :=
  match s with
  | String c s' => if Ascii.eqb c " " then skip_spaces s' else s
  | EmptyString => s
  end.

(** The digit loops with the width [wrap] of their accumulator. *)
Fixpoint read_wrapped (wrap : Z → Z) (v : Z) (s : string) : Z * string :=
  match s with
  | String c s' =>
      if is_digit c then read_wrapped wrap (wrap (10 * v + digit_val c)) s' else (v, s)
  | EmptyString => (v, s)
  end.

(** [while (repeats-- > 0)]: [bbs] is the number of elements of the array, [None]
    for the null pointer of the first pass; [stored] are those written so far. *)
Definition store_counts (bbs : option nat) (stored : list Z) (bb_count : nat) (count repeats : Z) : res (list Z * nat) :=
  let n := (bb_count + Z.to_nat repeats)%nat in
  match bbs with
  | None => Ret (stored, n)
  | Some size => if (n <=? size)%nat then Ret (stored ++ repeat count (Z.to_nat repeats), n) else Stop FBounds
  end.

(** The outer [while] loop; [None] when 0 is returned.  Each turn reads a digit. *)
Fixpoint execcounts_loop (bbs : option nat) (fuel : nat) (s : string) (stored : list Z) (bb_count : nat)
    : res (option (list Z * nat)) :=
  match fuel with
  | O => Stop FFuel
  | S fuel' =>
      match s with
      | EmptyString => Ret (Some (stored, bb_count))
      | _ =>
          let s := skip_spaces s in
          if negb (starts_with_digit s) then
            Ret (match s with EmptyString => Some (stored, bb_count) | _ => None end)
          else
            let '(count, s) := read_wrapped u64 0 s in
            let '(repeats, s) :=
              match s with
              | String "x" s' => read_wrapped u32 0 s'
              | _ => (1, s)
              end in
            if repeats <=? 0 then Ret None
            else
              let! r := store_counts bbs stored bb_count count repeats in
              execcounts_loop bbs fuel' s r.1 r.2
      end
  end.

Definition read_execcounts_from_string_internal (s : string) (bbs : option nat) : res (option (list Z * nat)) :=
  execcounts_loop bbs (S (String.length s)) s [] 0.

(** The first pass counts, the second one writes to the array of that size; what
    the array holds in the end.  (For a size in bytes that does not fit, [MALLOC] ends
    the program; memory that runs out is not modelled.) *)
Definition read_execcounts_from_string (s : string) : res (option (list Z)) :=
  let! n := read_execcounts_from_string_internal s None in
  match n with
  | None => Ret None
  | Some (_, bb_count) =>
      let! r := read_execcounts_from_string_internal s (Some bb_count) in
      match r with
      | Some (bbs, _) => Ret (Some bbs)
      | None => Ret (Some [])
      end
  end.

(** The [for] loop of [parse_ipc_callsites]; [size] is the length of the array. *)
Fixpoint callsites_parse_loop (fuel size : nat) (lineno : Z) (s : string) (acc : list Z)
    : res (list Z * list output) :=
  match fuel with
  | O => Stop FFuel
  | S fuel' =>
      let s := skip_spaces s in
      if negb (starts_with_digit s) then Ret (acc, [OStderr (WNoCallsiteId lineno)])
      else
        let '(id, s) := read_wrapped u64 0 s in
        if negb (length acc <? size)%nat then Stop FBounds
        else
          let acc := acc ++ [id] in
          match skip_spaces s with
          | EmptyString => Ret (acc, [])
          | String "," s => callsites_parse_loop fuel' size lineno s acc
          | _ => Ret (acc, [OStderr (WMissingComma lineno)])
          end
  end.

Definition parse_ipc_callsites (lineno : Z) (s : string) : res (list Z * list output) :=
  callsites_parse_loop (S (String.length s)) ((String.length s + 1) / 2) lineno s [].

(** ** Handlers *)

Definition logparse_line_handler_qemu_drive : handler := λ cb lineno st ps,
  assert! count_is ps 2 in
  assert! negb (is_str ps 0) in
  assert! is_str ps 1 in
  call_if cb st (qemu_drive (num_at ps 0) (text_at ps 1)).

Definition logparse_line_handler_edfi_context_release : handler := λ cb lineno st ps,
  assert! count_is ps 1 in
  assert! is_str ps 0 in
  call_if cb st (edfi_context_release (text_at ps 0)).

Definition logparse_line_handler_edfi_context_reset : handler := λ cb lineno st ps,
  assert! count_is ps 1 in
  assert! is_str ps 0 in
  call_if cb st (edfi_context_reset (text_at ps 0)).

Definition logparse_line_handler_edfi_context_set : handler := λ cb lineno st ps,
  assert! count_is ps 1 in
  assert! is_str ps 0 in
  call_if cb st (edfi_context_set (text_at ps 0)).

Definition logparse_line_handler_edfi_dump_stats : handler := λ cb lineno st ps,
  assert! (length ps <=? 1)%nat in
  assert! (length ps <? 1)%nat || is_str ps 0 in
  call_if cb st (edfi_dump_stats (if (1 <=? length ps)%nat then Some (text_at ps 0) else None)).

Definition logparse_line_handler_edfi_dump_stats_module : handler := λ cb lineno st ps,
  assert! (2 <=? length ps)%nat in
  assert! (length ps <=? 3)%nat in
  assert! is_str ps 0 in
  assert! is_str ps 1 in
  assert! (length ps <? 3)%nat || is_str ps 2 in
  if negb (cb cb_edfi_dump_stats_module) then Ret []
  else
    let! bbs := read_execcounts_from_string
                  (default "" (str (nth_param ps (length ps - 1)))) in
    match bbs with
    | None => Ret [OStderr (WInvalidExecCounts lineno)]
    | Some bbs =>
        Ret [OCall st (edfi_dump_stats_module (text_at ps 0)
               (if (3 <=? length ps)%nat then Some (text_at ps 1) else None) (Some bbs))]
    end.

Definition logparse_line_handler_edfi_dump_stats_module_no_context : handler := λ cb lineno st ps,
  assert! (1 <=? length ps)%nat in
  assert! (length ps <=? 2)%nat in
  assert! is_str ps 0 in
  assert! (length ps <? 2)%nat || is_str ps 1 in
  if cb cb_edfi_dump_stats_module then Ret []
  else Stop FNull.

Definition logparse_line_handler_edfi_faultindex_get : handler := λ cb lineno st ps,
  assert! (1 <=? length ps)%nat in
  assert! (length ps <=? 2)%nat in
  assert! is_str ps 0 in
  assert! negb (is_str ps 1) in
  call_if cb st (edfi_faultindex_get (text_at ps 0) (if (length ps <? 2)%nat then -1 else num_at ps 1)).

Definition logparse_line_handler_fault : handler := λ cb lineno st ps,
  assert! (2 <=? length ps)%nat in
  assert! (length ps <=? 3)%nat in
  assert! is_str ps 0 in
  assert! negb (is_str ps 1) in
  assert! (length ps <? 3)%nat || negb (is_str ps 2) in
  call_if cb st (fault (text_at ps 0) (num_at ps 1) (if (length ps <? 3)%nat then 1 else num_at ps 2)).

Definition logparse_line_handler_hypermem_error : handler := λ cb lineno st ps,
  assert! count_is ps 1 in
  assert! is_str ps 0 in
  Ret (if cb cb_hypermem_error then [OCall st (hypermem_error (text_at ps 0))]
       else [OStderr (WHypermemError (text_at ps 0))]).

Definition logparse_line_handler_hypermem_faultspec : handler := λ cb lineno st ps,
  assert! count_is ps 1 in
  assert! is_str ps 0 in
  call_if cb st (hypermem_faultspec (text_at ps 0)).

Definition logparse_line_handler_hypermem_flushlog_false : handler := λ cb lineno st ps,
  assert! count_is ps 0 in
  call_if cb st (hypermem_flushlog false).

Definition logparse_line_handler_hypermem_flushlog_true : handler := λ cb lineno st ps,
  assert! count_is ps 0 in
  call_if cb st (hypermem_flushlog true).

Definition logparse_line_handler_hypermem_logpath : handler := λ cb lineno st ps,
  assert! count_is ps 1 in
  assert! is_str ps 0 in
  call_if cb st (hypermem_logpath (text_at ps 0)).

Definition logparse_line_handler_hypermem_warning : handler := λ cb lineno st ps,
  assert! count_is ps 1 in
  assert! is_str ps 0 in
  Ret (if cb cb_hypermem_warning then [OCall st (hypermem_warning (text_at ps 0))]
       else [OStderr (WHypermemWarning (text_at ps 0))]).

Definition logparse_line_handler_nop : handler := λ cb lineno st ps,
  assert! count_is ps 0 in
  call_if cb st nop.

Definition logparse_line_handler_print_abort_after_restart : handler := λ cb lineno st ps,
  assert! count_is ps 0 in
  call_if cb st print_abort_after_restart.

Definition logparse_line_handler_print_debug : handler := λ cb lineno st ps,
  assert! count_is ps 1 in
  assert! is_str ps 0 in
  call_if cb st (print_debug (text_at ps 0)).

Definition logparse_line_handler_print_end : handler := λ cb lineno st ps,
  assert! count_is ps 0 in
  call_if cb st print_end.

Definition logparse_line_handler_print_ltckpt_closed_ipc : handler := λ cb lineno st ps,
  assert! count_is ps 1 in
  assert! is_str ps 0 in
  call_if cb st (print_ltckpt_closed lcr_ipc (text_at ps 0)).

Definition logparse_line_handler_print_ltckpt_closed_ipc_callsites : handler := λ cb lineno st ps,
  assert! count_is ps 4 in
  assert! negb (is_str ps 0) in
  assert! negb (is_str ps 1) in
  assert! is_str ps 2 in
  assert! is_str ps 3 in
  if negb (cb cb_print_ltckpt_closed_ipc_callsites) then Ret []
  else
    let! r := parse_ipc_callsites lineno (text_at ps 2) in
    Ret (r.2 ++ [OCall st (print_ltckpt_closed_ipc_callsites (text_at ps 3)
                   (num_at ps 0) (num_at ps 1) r.1)]).

Definition logparse_line_handler_print_ltckpt_closed_unknown : handler := λ cb lineno st ps,
  assert! count_is ps 1 in
  assert! is_str ps 0 in
  call_if cb st (print_ltckpt_closed lcr_unknown (text_at ps 0)).

Definition logparse_line_handler_print_ltckpt_closed_writelog_full : handler := λ cb lineno st ps,
  assert! count_is ps 1 in
  assert! is_str ps 0 in
  call_if cb st (print_ltckpt_closed lcr_writelog_full (text_at ps 0)).

Definition logparse_line_handler_print_ltckpt_failed : handler := λ cb lineno st ps,
  assert! count_is ps 1 in
  assert! is_str ps 0 in
  call_if cb st (print_ltckpt ls_failure lm_generic (text_at ps 0)).

Definition logparse_line_handler_print_ltckpt_failed_message : handler := λ cb lineno st ps,
  assert! count_is ps 2 in
  assert! negb (is_str ps 0) in
  assert! is_str ps 1 in
  call_if cb st (print_ltckpt ls_failure lm_generic (text_at ps 1)).

Definition logparse_line_handler_print_ltckpt_failed_idempotent : handler := λ cb lineno st ps,
  assert! count_is ps 1 in
  assert! is_str ps 0 in
  call_if cb st (print_ltckpt ls_failure lm_idempotent (text_at ps 0)).

Definition logparse_line_handler_print_ltckpt_failed_process_specific : handler := λ cb lineno st ps,
  assert! count_is ps 1 in
  assert! is_str ps 0 in
  call_if cb st (print_ltckpt ls_failure lm_process_specific (text_at ps 0)).

Definition logparse_line_handler_print_ltckpt_failed_writelog : handler := λ cb lineno st ps,
  assert! count_is ps 1 in
  assert! is_str ps 0 in
  call_if cb st (print_ltckpt ls_failure lm_writelog (text_at ps 0)).

Definition logparse_line_handler_print_ltckpt_shutdown : handler := λ cb lineno st ps,
  assert! count_is ps 1 in
  assert! is_str ps 0 in
  call_if cb st (print_ltckpt ls_shutdown lm_generic (text_at ps 0)).

Definition logparse_line_handler_print_ltckpt_shutdown_failstop : handler := λ cb lineno st ps,
  assert! count_is ps 1 in
  assert! is_str ps 0 in
  call_if cb st (print_ltckpt ls_shutdown lm_failstop (text_at ps 0)).

Definition logparse_line_handler_print_ltckpt_start : handler := λ cb lineno st ps,
  assert! count_is ps 1 in
  assert! is_str ps 0 in
  call_if cb st (print_ltckpt ls_start lm_generic (text_at ps 0)).

Definition logparse_line_handler_print_ltckpt_start_writelog : handler := λ cb lineno st ps,
  assert! count_is ps 1 in
  assert! is_str ps 0 in
  call_if cb st (print_ltckpt ls_start lm_writelog (text_at ps 0)).

Definition logparse_line_handler_print_ltckpt_success_idempotent : handler := λ cb lineno st ps,
  assert! count_is ps 1 in
  assert! is_str ps 0 in
  call_if cb st (print_ltckpt ls_success lm_idempotent (text_at ps 0)).

Definition logparse_line_handler_print_ltckpt_success_process_specific : handler := λ cb lineno st ps,
  assert! count_is ps 1 in
  assert! is_str ps 0 in
  call_if cb st (print_ltckpt ls_success lm_process_specific (text_at ps 0)).

Definition logparse_line_handler_print_ltckpt_success_service_fi : handler := λ cb lineno st ps,
  assert! count_is ps 1 in
  assert! is_str ps 0 in
  call_if cb st (print_ltckpt ls_success lm_service_fi (text_at ps 0)).

Definition logparse_line_handler_print_ltckpt_success_writelog : handler := λ cb lineno st ps,
  assert! count_is ps 3 in
  assert! negb (is_str ps 0) in
  assert! negb (is_str ps 1) in
  assert! is_str ps 2 in
  call_if cb st (print_ltckpt ls_success lm_writelog (text_at ps 2)).

Definition logparse_line_handler_print_rs_crash : handler := λ cb lineno st ps,
  assert! count_is ps 2 in
  assert! negb (is_str ps 0) in
  assert! is_str ps 1 in
  call_if cb st (print_rs_crash (text_at ps 1) (num_at ps 0)).

Definition logparse_line_handler_print_rs_normal : handler := λ cb lineno st ps,
  assert! count_is ps 1 in
  assert! is_str ps 0 in
  call_if cb st (print_rs_normal (text_at ps 0)).

Definition logparse_line_handler_print_rs_shutdown_deadlock : handler := λ cb lineno st ps,
  assert! count_is ps 0 in
  call_if cb st (print_ltckpt ls_shutdown lm_deadlock "rs").

Definition logparse_line_handler_print_sanity_pass_pre : handler := λ cb lineno st ps,
  assert! count_is ps 2 in
  assert! is_str ps 0 in
  assert! is_str ps 1 in
  call_if cb st (print_sanity true false).

Definition logparse_line_handler_print_sanity_pass_post : handler := λ cb lineno st ps,
  assert! count_is ps 2 in
  assert! is_str ps 0 in
  assert! is_str ps 1 in
  call_if cb st (print_sanity true true).

Definition logparse_line_handler_print_sanity_fail_pre : handler := λ cb lineno st ps,
  assert! count_is ps 2 in
  assert! is_str ps 0 in
  assert! is_str ps 1 in
  call_if cb st (print_sanity false false).

Definition logparse_line_handler_print_sanity_fail_post : handler := λ cb lineno st ps,
  assert! count_is ps 2 in
  assert! is_str ps 0 in
  assert! is_str ps 1 in
  call_if cb st (print_sanity false true).

Definition logparse_line_handler_print_test_failed : handler := λ cb lineno st ps,
  assert! count_is ps 1 in
  assert! is_str ps 0 in
  call_if cb st (print_test (text_at ps 0) mts_failed).

Definition logparse_line_handler_print_test_output : handler := λ cb lineno st ps,
  assert! count_is ps 2 in
  assert! is_str ps 0 in
  assert! is_str ps 1 in
  call_if cb st (print_test_output (text_at ps 0) (text_at ps 1)).

Definition logparse_line_handler_print_test_passed : handler := λ cb lineno st ps,
  assert! count_is ps 1 in
  assert! is_str ps 0 in
  call_if cb st (print_test (text_at ps 0) mts_passed).

Definition logparse_line_handler_print_test_running : handler := λ cb lineno st ps,
  assert! count_is ps 1 in
  assert! is_str ps 0 in
  call_if cb st (print_test (text_at ps 0) mts_running).

Definition logparse_line_handler_print_tests_completed : handler := λ cb lineno st ps,
  assert! count_is ps 0 in
  call_if cb st (print_tests_completed None).

Definition logparse_line_handler_print_tests_completed_failed : handler := λ cb lineno st ps,
  assert! count_is ps 1 in
  assert! is_str ps 0 in
  call_if cb st (print_tests_completed (Some (text_at ps 0))).

Definition logparse_line_handler_print_tests_starting : handler := λ cb lineno st ps,
  assert! count_is ps 1 in
  assert! is_str ps 0 in
  call_if cb st (print_tests_starting (text_at ps 0)).

Definition logparse_line_handler_print_start : handler := λ cb lineno st ps,
  assert! count_is ps 0 in
  call_if cb st print_start.

Definition logparse_line_handler_print_startup : handler := λ cb lineno st ps,
  assert! count_is ps 1 in
  assert! is_str ps 0 in
  call_if cb st (print_startup (text_at ps 0)).

Definition logparse_line_handler_print_workload : handler := λ cb lineno st ps,
  assert! count_is ps 1 in
  assert! is_str ps 0 in
  call_if cb st (print_workload (text_at ps 0)).

Definition logparse_line_handler_print_workload_completed : handler := λ cb lineno st ps,
  assert! count_is ps 0 in
  call_if cb st print_workload_completed.

Definition logparse_line_handler_qemu_exit : handler := λ cb lineno st ps,
  assert! count_is ps 0 in
  call_if cb st qemu_exit.

Definition logparse_line_handler_qemu_hypermem_reset : handler := λ cb lineno st ps,
  assert! count_is ps 0 in
  call_if cb st qemu_hypermem_reset.

Definition logparse_line_handler_qemu_interrupt : handler := λ cb lineno st ps,
  assert! count_is ps 1 in
  assert! negb (is_str ps 0) in
  call_if cb st (qemu_interrupt (num_at ps 0)).

Definition logparse_line_handler_qemu_powerdown : handler := λ cb lineno st ps,
  assert! count_is ps 0 in
  call_if cb st qemu_powerdown.

Definition logparse_line_handler_qemu_reset : handler := λ cb lineno st ps,
  assert! count_is ps 0 in
  call_if cb st qemu_reset.

Definition logparse_line_handler_qemu_shutdown : handler := λ cb lineno st ps,
  assert! count_is ps 0 in
  call_if cb st qemu_shutdown.

Definition logparse_line_handler_qemu_signal : handler := λ cb lineno st ps,
  assert! count_is ps 1 in
  assert! negb (is_str ps 0) in
  call_if cb st (qemu_signal (num_at ps 0)).

Definition logparse_line_handler_quit : handler := λ cb lineno st ps,
  assert! count_is ps 0 in
  call_if cb st quit.

(** ** The pattern table *)

(** The double-quote character. *)
Definition dq : string := String (ascii_of_nat 34) EmptyString.

Definition logparse_line_patterns : list (handler * string) := [
  (logparse_line_handler_edfi_context_release, "EDFI context release module=*");
  (logparse_line_handler_edfi_context_reset, "EDFI context reset module=*");
  (logparse_line_handler_edfi_context_set, "EDFI context set module=*");
  (logparse_line_handler_edfi_dump_stats, "edfi_dump_stats msg=*");
  (logparse_line_handler_edfi_dump_stats, "edfi_dump_stats");
  (logparse_line_handler_edfi_dump_stats_module_no_context, "edfi_dump_stats_module name=* msg=* no context known");
  (logparse_line_handler_edfi_dump_stats_module_no_context, "edfi_dump_stats_module name=* no context known");
  (logparse_line_handler_edfi_dump_stats_module, "edfi_dump_stats_module name=* msg=* bbs=*");
  (logparse_line_handler_edfi_dump_stats_module, "edfi_dump_stats_module name=* *");
  (logparse_line_handler_edfi_faultindex_get, "edfi_faultindex_get name=* bbindex=#");
  (logparse_line_handler_edfi_faultindex_get, "edfi_faultindex_get name=* fault injection disabled");
  (logparse_line_handler_edfi_faultindex_get, "edfi_faultindex_get name=* not selected for fault injection");
  (logparse_line_handler_fault, "fault name=* bbindex=# count=#");
  (logparse_line_handler_fault, "fault name=* bbindex=#");
  (logparse_line_handler_hypermem_error, "error: *");
  (logparse_line_handler_hypermem_faultspec, "hypermem-faultspec=" +:+ dq +:+ "*" +:+ dq);
  (logparse_line_handler_hypermem_flushlog_false, "hypermem-flushlog=false");
  (logparse_line_handler_hypermem_flushlog_true, "hypermem-flushlog=true");
  (logparse_line_handler_hypermem_logpath, "hypermem-logpath=" +:+ dq +:+ "*" +:+ dq);
  (logparse_line_handler_hypermem_warning, "warning: *");
  (logparse_line_handler_nop, "nop");
  (logparse_line_handler_qemu_drive, "drive[#]={ file: " +:+ dq +:+ "*" +:+ dq +:+ " }");
  (logparse_line_handler_qemu_exit, "QEMU exiting");
  (logparse_line_handler_qemu_hypermem_reset, "QEMU hypermem reset");
  (logparse_line_handler_qemu_interrupt, "Interrupt #");
  (logparse_line_handler_qemu_powerdown, "QEMU powerdown");
  (logparse_line_handler_qemu_reset, "QEMU reset");
  (logparse_line_handler_qemu_shutdown, "QEMU shutdown");
  (logparse_line_handler_qemu_signal, "QEMU signal #");
  (logparse_line_handler_quit, "quitting QEMU");
  (logparse_line_handler_print_debug, "print DEBUG: *");
  (logparse_line_handler_print_rs_crash, "print rs-CRASH: signal [#] sent for *");
  (logparse_line_handler_print_rs_normal, "print rs-NORMAL: down sent for *");
  (logparse_line_handler_print_rs_shutdown_deadlock, "print RS: shutdown due to deadlock");
  (logparse_line_handler_print_startup, "print <EDFI> startup *");
  (logparse_line_handler_print_end, "print <END>");
  (logparse_line_handler_print_sanity_fail_post, "print Sanity Failed (*:POSTTEST) *");
  (logparse_line_handler_print_sanity_fail_pre, "print Sanity Failed (*:PRETEST) *");
  (logparse_line_handler_print_sanity_pass_post, "print Sanity Passed (*:POSTTEST) *");
  (logparse_line_handler_print_sanity_pass_pre, "print Sanity Passed (*:PRETEST) *");
  (logparse_line_handler_print_start, "print <START>");
  (logparse_line_handler_print_workload, "print (*) Workload");
  (logparse_line_handler_print_workload_completed, "print Workload Completed");
  (logparse_line_handler_print_workload_completed, "print Workload Completed *");
  (logparse_line_handler_print_abort_after_restart, "print Aborting tests after previous restart");
  (logparse_line_handler_print_test_failed, "print Test *: failed");
  (logparse_line_handler_print_test_output, "print Test *: output line: *");
  (logparse_line_handler_print_test_passed, "print Test *: passed");
  (logparse_line_handler_print_test_running, "print Test *: running");
  (logparse_line_handler_print_tests_completed, "print Completed tests");
  (logparse_line_handler_print_tests_completed_failed, "print Completed tests, these failed: *");
  (logparse_line_handler_print_tests_starting, "print Starting tests: *");
  (logparse_line_handler_print_ltckpt_closed_ipc, "print ltckpt recovery: window closed: ltckpt_set_fail_stop_recovery; module=*");
  (logparse_line_handler_print_ltckpt_closed_ipc_callsites, "print ltckpt recovery: window closed # times from # callsite(s): *; module=*");
  (logparse_line_handler_print_ltckpt_closed_unknown, "print ltckpt recovery: window closed: reason unknown; module=*");
  (logparse_line_handler_print_ltckpt_closed_writelog_full, "print ltckpt recovery: window closed: writelog full; module=*");
  (logparse_line_handler_print_ltckpt_failed, "print ltckpt recovery: failed: bad ltckpt_is_message_replyable result; module=*");
  (logparse_line_handler_print_ltckpt_failed, "print ltckpt recovery: failed: havent handled message; module=*");
  (logparse_line_handler_print_ltckpt_failed_idempotent, "print ltckpt recovery: failed: idempotent: couldn't send error message; module=*");
  (logparse_line_handler_print_ltckpt_failed_idempotent, "print ltckpt recovery: failed: idempotent: sef_get_current_message() not available; module=*");
  (logparse_line_handler_print_ltckpt_failed_idempotent, "print ltckpt recovery: failed: idempotent: unable to fetch last handled message; module=*");
  (logparse_line_handler_print_ltckpt_failed_idempotent, "print ltckpt recovery: failed: idempotent: unreplyable request; module=*");
  (logparse_line_handler_print_ltckpt_failed, "print ltckpt recovery: failed: invalid g_recovery_bitmask bitmask; module=*");
  (logparse_line_handler_print_ltckpt_failed_message, "print ltckpt recovery: failed: non-replyable message: #; module=*");
  (logparse_line_handler_print_ltckpt_failed_process_specific, "print ltckpt recovery: failed: process_specific: error in figuring out whether source was user process; module=*");
  (logparse_line_handler_print_ltckpt_failed_process_specific, "print ltckpt recovery: failed: process_specific: unable to fetch last handled message; module=*");
  (logparse_line_handler_print_ltckpt_failed_process_specific, "print ltckpt recovery: failed: process_specific: unable to find necessary sef_llvm method; module=*");
  (logparse_line_handler_print_ltckpt_failed_process_specific, "print ltckpt recovery: failed: process_specific: unable to kill user process; module=*");
  (logparse_line_handler_print_ltckpt_failed_process_specific, "print ltckpt recovery: failed: process_specific: unable to send reply; module=*");
  (logparse_line_handler_print_ltckpt_failed_writelog, "print ltckpt recovery: failed: writelog: identity state transfer failed; module=*");
  (logparse_line_handler_print_ltckpt_failed_writelog, "print ltckpt recovery: failed: writelog: sys_safecopyfrom addr failed; module=*");
  (logparse_line_handler_print_ltckpt_failed_writelog, "print ltckpt recovery: failed: writelog: sys_safecopyfrom region failed; module=*");
  (logparse_line_handler_print_ltckpt_failed_writelog, "print ltckpt recovery: failed: writelog: sys_safecopyto failed; module=*");
  (logparse_line_handler_print_ltckpt_shutdown, "print ltckpt recovery: shutdown; module=*");
  (logparse_line_handler_print_ltckpt_shutdown_failstop, "print ltckpt recovery: shutdown: fail_stop; module=*");
  (logparse_line_handler_print_ltckpt_start, "print ltckpt recovery: start recovery attempt; module=*");
  (logparse_line_handler_print_ltckpt_start_writelog, "print ltckpt recovery: start: writelog; module=*");
  (logparse_line_handler_print_ltckpt_success_idempotent, "print ltckpt recovery: success: idempotent; module=*");
  (logparse_line_handler_print_ltckpt_success_process_specific, "print ltckpt recovery: success: killed user process; module=*");
  (logparse_line_handler_print_ltckpt_success_service_fi, "print ltckpt recovery: success: RS_FI_CUSTOM; module=*");
  (logparse_line_handler_print_ltckpt_success_process_specific, "print ltckpt recovery: success: user process is invalid; module=*");
  (logparse_line_handler_print_ltckpt_success_writelog, "print ltckpt recovery: success: writelog: # log entries, # stack entries; module=*")
].
