(* ===== verification/LogReader.v ===== *)
(** * Pattern matching and line reading of [common/logparse.c]

    [pattern_match] and [patterns_match] on a line, and the reader that walks
    the log file character by character. *)

From Stdlib Require Import ZArith Lia Ascii String.
From stdpp Require Import base list numbers strings.
From S2P Require Import Prelude Decimal LogFmt LogParse.

(** ** Matching a pattern *)

Definition code (c : ascii) : Z := Z.of_N (N_of_ascii c).
Definition between (lo hi : ascii) (c : ascii) : bool := (code lo <=? code c) && (code c <=? code hi).

(** [Some value] when 1 is returned. *)
Definition convertnumchar (c : ascii) (base : Z) : option Z :=
  let value :=
    if between "0" "9" c then code c - code "0"
    else if between "A" "Z" c then code c - code "A" + 10
    else if between "a" "z" c then code c - code "a" + 10
    else base in
  if value <? base then Some value else None.

(** The [do ... while] loop over the digits of a number, for the text after the
    first digit: value, number of digits, rest. *)
Fixpoint number_loop (base acc : Z) (n : nat) (s : string) : res (Z * nat * string) :=
  match s with
  | EmptyString => Ret (acc, n, s)
  | String c s' =>
      match convertnumchar c base with
      | Some v =>
          if acc * base + v <? 2^63 then number_loop base (acc * base + v) (S n) s'
          else Stop FOverflow
      | None => Ret (acc, n, s)
      end
  end.

(** Match [#]: [None] when there is no digit. *)
Definition match_number (s : string) : res (option (param * string)) :=
  let neg := match s with String "-" _ => true | _ => false end in
  let s := match s with String "-" s' => s' | _ => s end in
  let '(base, s) :=
    match s with
    | String "0" (String "x" s') => (16, s')
    | String "0" (String "X" s') => (16, s')
    | _ => (10, s)
    end in
  match s with
  | EmptyString => Ret None
  | String c s' =>
      match convertnumchar c base with
      | None => Ret None
      | Some v =>
          let! r := number_loop base v 1 s' in
          let '(acc, n, rest) := r in
          Ret (Some ({| str := None; num := if neg then - acc else acc; len := n |}, rest))
      end
  end.

(** Match [*]: up to the character [stop] that follows it in the pattern, or to
    the end of the line. *)
Fixpoint scan_until (stop : option ascii) (s : string) : nat * string :=
  match s with
  | EmptyString => (0%nat, s)
  | String c s' =>
      if match stop with Some x => Ascii.eqb c x | None => false end then (0%nat, s)
      else let '(n, rest) := scan_until stop s' in (S n, rest)
  end.

Definition head (p : string) : option ascii :=
  match p with String c _ => Some c | EmptyString => None end.

(** [ps] are the parameters so far; [max] is [*param_count] on entry. *)
Fixpoint match_loop (max : nat) (pattern line : string) (ps : list param) : res (option (list param)) :=
  match pattern with
  | EmptyString => Ret (match line with EmptyString => Some ps | _ => None end)
  | String "*" p' =>
      assert! (length ps <? max)%nat in
      let '(n, rest) := scan_until (head p') line in
      match_loop max p' rest (ps ++ [{| str := Some line; num := 0; len := n |}])
  | String "#" p' =>
      assert! (length ps <? max)%nat in
      let! r := match_number line in
      match r with
      | None => Ret None
      | Some (x, rest) => match_loop max p' rest (ps ++ [x])
      end
  | String a p' =>
      match line with
      | String c l' => if Ascii.eqb a c then match_loop max p' l' ps else Ret None
      | EmptyString => Ret None
      end
  end.

Definition PATTERN_PARAM_COUNT_MAX : nat := 4.

Definition pattern_match (line pattern : string) : res (option (list param)) :=
  match_loop PATTERN_PARAM_COUNT_MAX pattern line [].

(** The first pattern that matches, with its parameters. *)
Fixpoint patterns_match (table : list (handler * string)) (line : string)
    : res (option (handler * string * list param)) :=
  match table with
  | [] => Ret None
  | (h, p) :: table' =>
      let! r := pattern_match line p in
      match r with
      | Some ps => Ret (Some (h, p, ps))
      | None => patterns_match table' line
      end
  end.

(** ** Reading the file *)

Definition newline : ascii := ascii_of_nat 10.

(** [struct logfilestate]: the unread input, [lineno], [c] ([None] is [EOF]) and
    the line buffer's size (0 when it is null).  [timestamp_last] is [None] for
    a null pointer. *)
Record logfilestate := {
  input : string;
  lineno : Z;
  c : option ascii;
  linebuf_size : Z;
  timestamp_last : option timeval;
}.

Definition set_linebuf (s : logfilestate) (n : Z) : logfilestate :=
  {| input := input s; lineno := lineno s; c := c s; linebuf_size := n;
     timestamp_last := timestamp_last s |}.

Definition next_char (s : logfilestate) : logfilestate :=
  match input s with
  | EmptyString =>
      {| input := EmptyString; lineno := lineno s; c := None; linebuf_size := linebuf_size s;
         timestamp_last := timestamp_last s |}
  | String a rest =>
      {| input := rest; lineno := if Ascii.eqb a newline then lineno s + 1 else lineno s;
         c := Some a; linebuf_size := linebuf_size s; timestamp_last := timestamp_last s |}
  end.

Definition read_char (s : logfilestate) (x : ascii) : bool * logfilestate :=
  match c s with
  | Some a => if Ascii.eqb a x then (true, next_char s) else (false, s)
  | None => (false, s)
  end.

(** The digit is returned to be appended to the value. *)
Definition read_digit (s : logfilestate) : option Z * logfilestate :=
  match c s with
  | Some a => if is_digit a then (Some (digit_val a), next_char s) else (None, s)
  | None => (None, s)
  end.

(** The fields a time stamp is read into. *)
Record tsfields := {
  year : Z; month : Z; tm_mday : Z; tm_hour : Z; tm_min : Z; tm_sec : Z; microseconds : Z;
}.
Inductive tsfield := FYear | FMonth | FDay | FHour | FMin | FSec | FMicro.

Definition ts_push (t : tsfields) (f : tsfield) (d : Z) : tsfields :=
  let up (g : tsfield) (v : Z) :=
    match f, g with
    | FYear, FYear | FMonth, FMonth | FDay, FDay | FHour, FHour | FMin, FMin | FSec, FSec
    | FMicro, FMicro => v * 10 + d
    | _, _ => v
    end in
  {| year := up FYear (year t); month := up FMonth (month t); tm_mday := up FDay (tm_mday t);
     tm_hour := up FHour (tm_hour t); tm_min := up FMin (tm_min t); tm_sec := up FSec (tm_sec t);
     microseconds := up FMicro (microseconds t) |}.

(** A conjunct of the condition of [logparse_timestamp]. *)
Inductive tsitem :=
| TChar (x : ascii)                       (** [read_char (state, x)] *)
| TDigit (f : tsfield)                    (** [read_digit (state, &f)] *)
| TCharOrDigit (x : ascii) (f : tsfield). (** [read_char_or_digit (state, x, &f)] *)

Definition read_char_or_digit (s : logfilestate) (x : ascii) : bool * option Z * logfilestate :=
  let '(ok, s1) := read_char s x in
  if ok then (true, None, s1)
  else let '(d, s2) := read_digit s1 in
       match d with Some v => (true, Some v, s2) | None => (false, None, s2) end.

(** The chain of [&&]: stops at the first item that fails. *)
Fixpoint ts_run (items : list tsitem) (t : tsfields) (s : logfilestate)
    : option tsfields * logfilestate :=
  match items with
  | [] => (Some t, s)
  | TChar x :: items' =>
      let '(ok, s') := read_char s x in
      if ok then ts_run items' t s' else (None, s')
  | TDigit f :: items' =>
      let '(d, s') := read_digit s in
      match d with Some v => ts_run items' (ts_push t f v) s' | None => (None, s') end
  | TCharOrDigit x f :: items' =>
      let '(ok, d, s') := read_char_or_digit s x in
      if ok then
        ts_run items' (match d with Some v => ts_push t f v | None => t end) s'
      else (None, s')
  end.

Definition ts_items : list tsitem :=
  [TChar "["; TDigit FYear; TDigit FYear; TDigit FYear; TDigit FYear; TChar "-";
   TDigit FMonth; TDigit FMonth; TChar "-"; TDigit FDay; TDigit FDay; TChar " ";
   TCharOrDigit " " FHour; TDigit FHour; TChar ":"; TDigit FMin; TDigit FMin; TChar ":";
   TDigit FSec; TDigit FSec; TChar "."; TDigit FMicro; TDigit FMicro; TDigit FMicro;
   TDigit FMicro; TDigit FMicro; TDigit FMicro; TChar "]"; TChar " "].

Definition ts_zero : tsfields := Build_tsfields 0 0 0 0 0 0 0.

(** [struct tm], the fields that are set. *)
Record tm := { t_year : Z; t_mon : Z; t_mday : Z; t_hour : Z; t_min : Z; t_sec : Z }.

(** The loop of [read_line]: the text before the line's end, with the buffer
    grown as needed. *)
Fixpoint read_line_loop (fuel : nat) (linelen : Z) (s : logfilestate) : res (string * logfilestate) :=
  match fuel with
  | O => Stop FFuel
  | S fuel' =>
      let done :=
        (* [state->linebuf[linelen] = 0] *)
        if linebuf_size s =? 0 then Stop FNull
        else if linelen <? linebuf_size s then Ret (EmptyString, s)
        else Stop FBounds in
      match c s with
      | None => done
      | Some a =>
          if Ascii.eqb a newline then done
          else
            let s := if linebuf_size s <=? linelen + 1
                     then set_linebuf s (if 0 <? linebuf_size s then linebuf_size s * 2 else 256)
                     else s in
            if linelen <? linebuf_size s then
              let! r := read_line_loop fuel' (linelen + 1) (next_char s) in
              Ret (String a r.1, r.2)
            else Stop FBounds
      end
  end.

(** What is left to read, the current character included. *)
Definition left (s : logfilestate) : nat :=
  match c s with None => 0%nat | Some _ => S (String.length (input s)) end.

(** A NUL character in the line ends the C string. *)
Fixpoint c_string (s : string) : string :=
  match s with
  | EmptyString => EmptyString
  | String a s' => if Ascii.eqb a "000" then EmptyString else String a (c_string s')
  end.

Definition read_line (s : logfilestate) : res (string * logfilestate) :=
  let! r := read_line_loop (S (left s)) 0 s in
  Ret (c_string r.1, r.2).

Fixpoint skip_line_loop (fuel : nat) (s : logfilestate) : res logfilestate :=
  match fuel with
  | O => Stop FFuel
  | S fuel' =>
      match c s with
      | None => Ret s
      | Some a => if Ascii.eqb a newline then Ret s else skip_line_loop fuel' (next_char s)
      end
  end.
Definition skip_line (s : logfilestate) : res logfilestate := skip_line_loop (S (left s)) s.

Section Reader.
(** libc's [mktime] in the analysing machine's time zone, and the client's
    callbacks. *)
Variable mktime : tm → Z.
Variable cb : logparse_callbacks.

Definition ts_value (t : tsfields) : timeval :=
  {| tv_sec := mktime {| t_year := year t - 1900; t_mon := month t - 1; t_mday := tm_mday t;
                         t_hour := tm_hour t; t_min := tm_min t; t_sec := tm_sec t |};
     tv_usec := microseconds t |}.

Definition logparse_timestamp (s : logfilestate) : option timeval * logfilestate :=
  let '(t, s') := ts_run ts_items ts_zero s in (ts_value <$> t, s').

Definition set_timestamp_last (s : logfilestate) (t : timeval) : logfilestate :=
  {| input := input s; lineno := lineno s; c := c s; linebuf_size := linebuf_size s;
     timestamp_last := match timestamp_last s with Some _ => Some t | None => None end |}.

(** Match a line and run its handler; [lineno] is the reader's when it is done. *)
Definition process_line (st : logparse_callback_state) (lineno : Z) (line : string) : res (list output) :=
  let! m := patterns_match logparse_line_patterns line in
  match m with
  | None => Ret [OStderr (WNotRecognized lineno (str_take 64 line))]
  | Some (h, _, ps) => h cb lineno st ps
  end.

Definition logparse_from_file_line (s : logfilestate) : res (bool * logfilestate * list output) :=
  match c s with
  | None => Ret (false, s, [])
  | Some a =>
      if Ascii.eqb a newline then Ret (true, next_char s, [])
      else
        let '(t, s1) := logparse_timestamp s in
        match t with
        | None =>
            let! s2 := skip_line s1 in
            Ret (true, s2, [OStderr (WInvalidTimestamp (lineno s1))])
        | Some t =>
            let s1 := set_timestamp_last s1 t in
            let! r := read_line s1 in
            let '(line, s2) := r in
            let! out := process_line {| timestamp := t; cb_lineno := lineno s |} (lineno s2) line in
            Ret (match c s2 with None => false | Some _ => true end, s2, out)
        end
  end.

(** [while (logparse_from_file_line (&state));] *)
Fixpoint from_file_loop (fuel : nat) (s : logfilestate) (out : list output)
    : res (logfilestate * list output) :=
  match fuel with
  | O => Stop FFuel
  | S fuel' =>
      let! r := logparse_from_file_line s in
      let '(more, s', out') := r in
      if more then from_file_loop fuel' s' (out ++ out') else Ret (s', out ++ out')
  end.

Definition logparse_from_file (file : string) (timestamp_last : option timeval)
    : res (logfilestate * list output) :=
  let s := next_char {| input := file; lineno := 1; c := None; linebuf_size := 0;
                        timestamp_last := timestamp_last |} in
  from_file_loop (S (S (String.length file))) s [].

(** [fopen] fails or gives the contents. *)
Definition logparse_from_path (fopen : option string) (timestamp_last : option timeval)
    : res (logfilestate * list output) :=
  let timestamp_last :=
    match timestamp_last with Some _ => Some {| tv_sec := 0; tv_usec := 0 |} | None => None end in
  match fopen with
  | None => Stop (FExit (-1))
  | Some file => logparse_from_file file timestamp_last
  end.
End Reader.

(** ** Parameters and patterns agree *)

Definition kind (x : param) : bool := match str x with Some _ => true | None => false end.

(** The parameters a pattern describes: text for [*], a number for [#]. *)
Fixpoint pattern_kinds (p : string) : list bool :=
  match p with
  | EmptyString => []
  | String "*" p' => true :: pattern_kinds p'
  | String "#" p' => false :: pattern_kinds p'
  | String _ p' => pattern_kinds p'
  end.

(** Case analysis on the first character of a pattern. *)
Definition is_star (a : ascii) : bool := Ascii.eqb a "*".
Definition is_hash (a : ascii) : bool := Ascii.eqb a "#".

Lemma match_loop_cons max a p l ps :
  match_loop max (String a p) l ps =
    if is_star a then
      assert! (length ps <? max)%nat in
      match_loop max p (scan_until (head p) l).2
        (ps ++ [{| str := Some l; num := 0; len := (scan_until (head p) l).1 |}])
    else if is_hash a then
      assert! (length ps <? max)%nat in
      let! r := match_number l in
      match r with Some (x, rest) => match_loop max p rest (ps ++ [x]) | None => Ret None end
    else
      match l with
      | String b l' => if Ascii.eqb a b then match_loop max p l' ps else Ret None
      | EmptyString => Ret None
      end.
Proof.
  simpl match_loop. destruct (scan_until (head p) l) as [n rest].
  by destruct a as [[] [] [] [] [] [] [] []].
Qed.

Lemma pattern_kinds_cons a p :
  pattern_kinds (String a p) =
    if is_star a then true :: pattern_kinds p
    else if is_hash a then false :: pattern_kinds p else pattern_kinds p.
Proof. by destruct a as [[] [] [] [] [] [] [] []]. Qed.

Lemma match_number_kind l x rest : match_number l = Ret (Some (x, rest)) → kind x = false.
Proof.
  unfold match_number. intros H.
  destruct (match _ with String "0" (String "x" s') => _ | _ => _ end) as [base [|a s]]; [done|].
  destruct (convertnumchar a base); [|done].
  apply res_bind_inv in H as ([[acc n] r] & _ & H). by injection H as <- <-.
Qed.

Lemma match_loop_kinds max p l ps ps' :
  match_loop max p l ps = Ret (Some ps') → map kind ps' = map kind ps ++ pattern_kinds p.
Proof.
  revert l ps. induction p as [|a p IH]; intros l ps H.
  { simpl in H. destruct l; [injection H as <-|done]. by rewrite app_nil_r. }
  rewrite match_loop_cons in H. rewrite pattern_kinds_cons. destruct (is_star a).
  - destruct (_ <? _)%nat; [|done]. apply IH in H. rewrite H, map_app, <- app_assoc. done.
  - destruct (is_hash a).
    + destruct (_ <? _)%nat; [|done]. apply res_bind_inv in H as ([[x rest]|] & Hx & H); [|done].
      apply match_number_kind in Hx. apply IH in H. rewrite H, map_app, <- app_assoc.
      simpl. by rewrite Hx.
    + destruct l as [|b l]; [done|]. destruct (Ascii.eqb a b); [|done]. eauto.
Qed.

Lemma number_loop_stop base acc n s f : number_loop base acc n s = Stop f → f = FOverflow.
Proof.
  revert acc n. induction s as [|a s IH]; intros acc n H; simpl in H; [done|].
  destruct (convertnumchar a base); [|done]. case_match; [eauto|congruence].
Qed.

Lemma match_number_stop s f : match_number s = Stop f → f = FOverflow.
Proof.
  unfold match_number. intros H.
  destruct (match _ with String "0" (String "x" s') => _ | _ => _ end) as [base [|a s']]; [done|].
  destruct (convertnumchar a base) as [v|]; [|done].
  destruct (number_loop base v 1 s') as [[[acc n] r]|f'] eqn:E; [done|].
  injection H as <-. by eapply number_loop_stop.
Qed.

(** A pattern with few enough parameters does not trip the assertions. *)
Lemma match_loop_stop max p l ps f :
  (length ps + length (pattern_kinds p) ≤ max)%nat →
  match_loop max p l ps = Stop f → f = FOverflow.
Proof.
  revert l ps. induction p as [|a p IH]; intros l ps Hl H; [done|].
  rewrite match_loop_cons in H. rewrite pattern_kinds_cons in Hl. destruct (is_star a).
  - simpl in Hl. destruct (Nat.ltb_spec (length ps) max); [|lia].
    apply IH in H; [done|]. rewrite length_app. simpl. lia.
  - destruct (is_hash a).
    + simpl in Hl. destruct (Nat.ltb_spec (length ps) max); [|lia].
      destruct (match_number l) as [[[x rest]|]|f'] eqn:E; simpl in H; [|done|].
      * apply IH in H; [done|]. rewrite length_app. simpl. lia.
      * injection H as <-. by eapply match_number_stop.
    + destruct l as [|b l]; [done|]. destruct (Ascii.eqb a b); [|done]. eauto.
Qed.

(** ** Loops over text terminate *)

Lemma skip_spaces_length s : (String.length (skip_spaces s) ≤ String.length s)%nat.
Proof. induction s as [|a s IH]; simpl; [done|]. destruct (Ascii.eqb a " "); simpl; lia. Qed.

Lemma read_wrapped_length wrap v s :
  (String.length (read_wrapped wrap v s).2 ≤ String.length s)%nat.
Proof.
  revert v. induction s as [|a s IH]; intros v; simpl; [done|].
  destruct (is_digit a); simpl; [|done]. specialize (IH (wrap (10 * v + digit_val a))). lia.
Qed.

Lemma read_wrapped_consumes wrap v s :
  starts_with_digit s = true →
  (String.length (read_wrapped wrap v s).2 < String.length s)%nat.
Proof.
  destruct s as [|a s]; simpl; [done|]. intros ->.
  pose proof (read_wrapped_length wrap (wrap (10 * v + digit_val a)) s). lia.
Qed.

(** The counts a text denotes, without the array. *)
Fixpoint execcounts_spec (fuel : nat) (s : string) (acc : list Z) : res (option (list Z)) :=
  match fuel with
  | O => Stop FFuel
  | S fuel' =>
      match s with
      | EmptyString => Ret (Some acc)
      | _ =>
          let s := skip_spaces s in
          if negb (starts_with_digit s) then
            Ret (match s with EmptyString => Some acc | _ => None end)
          else
            let '(count, s) := read_wrapped u64 0 s in
            let '(repeats, s) :=
              match s with
              | String "x" s' => read_wrapped u32 0 s'
              | _ => (1, s)
              end in
            if repeats <=? 0 then Ret None
            else execcounts_spec fuel' s (acc ++ repeat count (Z.to_nat repeats))
      end
  end.

Lemma execcounts_spec_total fuel s acc :
  (String.length s < fuel)%nat → ∃ r, execcounts_spec fuel s acc = Ret r.
Proof.
  revert s acc. induction fuel as [|fuel IH]; intros s acc Hl; [lia|].
  destruct s as [|a s]; simpl execcounts_spec; [eauto|].
  set (s0 := if Ascii.eqb a " " then skip_spaces s else String a s).
  assert (H0 : (String.length s0 ≤ String.length (String a s))%nat).
  { subst s0. destruct (Ascii.eqb a " "); simpl; [|done]. pose proof (skip_spaces_length s). lia. }
  destruct (starts_with_digit s0) eqn:Hd; simpl; [|eauto].
  pose proof (read_wrapped_consumes u64 0 s0 Hd) as H1.
  destruct (read_wrapped u64 0 s0) as [count s1]. simpl in H1.
  assert (Hs2 : ∃ rp s2, (match s1 with String "x" s' => read_wrapped u32 0 s' | _ => (1, s1) end)
                    = (rp, s2) ∧ (String.length s2 ≤ String.length s1)%nat).
  { destruct s1 as [|b s1]; [eauto|].
    destruct (read_wrapped u32 0 s1) as [rp s2] eqn:E.
    pose proof (read_wrapped_length u32 0 s1) as Hw. rewrite E in Hw. simpl in Hw.
    destruct b as [[] [] [] [] [] [] [] []]; do 2 eexists; (split; [reflexivity|]); simpl; lia. }
  destruct Hs2 as (rp & s2 & -> & Hs2). destruct (rp <=? 0); [eauto|]. apply IH. lia.
Qed.

Lemma execcounts_spec_prefix fuel s acc l : execcounts_spec fuel s acc = Ret (Some l) → (length acc ≤ length l)%nat.
Proof.
  revert s acc. induction fuel as [|fuel IH]; intros s acc H; [done|]. cbn [execcounts_spec] in H.
  destruct s as [|a s]; [by injection H as <-|]. destruct (negb _); [by destruct (skip_spaces _); [injection H as <-|]|].
  destruct (read_wrapped u64 0 _) as [count s1]. destruct (match s1 with String "x" _ => _ | _ => _ end) as [rp s2].
  destruct (rp <=? 0); [done|]. apply IH in H. rewrite length_app in H. lia.
Qed.

(** The first pass counts them ... *)
Lemma execcounts_loop_count fuel s acc :
  execcounts_loop None fuel s [] (length acc) =
    (let! r := execcounts_spec fuel s acc in Ret ((λ l, ([], length l)) <$> r)).
Proof.
  revert s acc. induction fuel as [|fuel IH]; intros s acc; [done|]. cbn [execcounts_spec execcounts_loop].
  destruct s as [|a s]; [done|]. destruct (negb _); [by destruct (skip_spaces _)|].
  destruct (read_wrapped u64 0 _) as [count s1]. destruct (match s1 with String "x" _ => _ | _ => _ end) as [rp s2].
  destruct (rp <=? 0); [done|]. cbn [store_counts res_bind fst snd]. rewrite <- IH. f_equal.
  by rewrite length_app, repeat_length.
Qed.

(** ... and the second one stores them in an array that holds them. *)
Lemma execcounts_loop_store size fuel s acc l :
  execcounts_spec fuel s acc = Ret (Some l) → (length l ≤ size)%nat →
  execcounts_loop (Some size) fuel s acc (length acc) = Ret (Some (l, length l)).
Proof.
  revert s acc. induction fuel as [|fuel IH]; intros s acc H Hl; [done|]. cbn [execcounts_spec execcounts_loop] in *.
  destruct s as [|a s]; [by injection H as <-|]. destruct (negb _); [by destruct (skip_spaces _); [injection H as <-|]|].
  destruct (read_wrapped u64 0 _) as [count s1]. destruct (match s1 with String "x" _ => _ | _ => _ end) as [rp s2].
  destruct (rp <=? 0); [done|]. pose proof (execcounts_spec_prefix _ _ _ _ H) as Hp. specialize (IH _ _ H Hl).
  rewrite length_app, repeat_length in Hp, IH. unfold store_counts. cbv zeta.
  destruct (Nat.leb_spec (length acc + Z.to_nat rp) size); [|lia]. exact IH.
Qed.

Lemma read_execcounts_spec s : read_execcounts_from_string s = execcounts_spec (S (String.length s)) s [].
Proof.
  unfold read_execcounts_from_string, read_execcounts_from_string_internal.
  change 0%nat with (length (@nil Z)). rewrite execcounts_loop_count.
  destruct (execcounts_spec _ s []) as [[l|]|f] eqn:E; [|done|done]. cbn [res_bind].
  change (((λ l0, ([] : list Z, length l0)) <$> Some l)) with (Some ([] : list Z, length l)). cbv iota beta.
  by rewrite (execcounts_loop_store _ _ _ _ _ E).
Qed.

Lemma read_execcounts_total s : ∃ r, read_execcounts_from_string s = Ret r.
Proof. rewrite read_execcounts_spec. apply execcounts_spec_total. lia. Qed.

(** Every call site takes at least a digit, and all but the last a comma: the
    array of [(strlen + 1) / 2] elements is large enough. *)
Lemma callsites_parse_loop_total fuel size lineno s acc :
  (String.length s < fuel)%nat → (length acc + (String.length s + 1) / 2 ≤ size)%nat →
  ∃ r, callsites_parse_loop fuel size lineno s acc = Ret r.
Proof.
  revert s acc. induction fuel as [|fuel IH]; intros s acc Hl Hs; [lia|].
  simpl callsites_parse_loop. pose proof (skip_spaces_length s) as H0.
  destruct (starts_with_digit (skip_spaces s)) eqn:Hd; simpl; [|eauto].
  pose proof (read_wrapped_consumes u64 0 _ Hd) as H1.
  destruct (read_wrapped u64 0 (skip_spaces s)) as [id s1]. simpl in H1.
  assert (Hpos : (1 ≤ (String.length s + 1) / 2)%nat).
  { apply Nat.div_le_lower_bound; lia. }
  destruct (Nat.ltb_spec (length acc) size); [|lia]. simpl.
  pose proof (skip_spaces_length s1) as H2.
  destruct (skip_spaces s1) as [|b s2] eqn:E; [eauto|]. simpl in H2.
  destruct b as [[] [] [] [] [] [] [] []]; eauto.
  apply IH; [lia|]. rewrite length_app. cbn [length].
  assert ((String.length s2 + 1) / 2 + 1 ≤ (String.length s + 1) / 2)%nat; [|lia].
  rewrite <- Nat.div_add by lia. apply Nat.Div0.div_le_mono. lia.
Qed.

Lemma parse_ipc_callsites_total lineno s : ∃ r, parse_ipc_callsites lineno s = Ret r.
Proof. apply callsites_parse_loop_total; [lia|done]. Qed.

(** ** Handlers accept what their patterns deliver *)

(** The handler passes its assertions on the parameters of the pattern; the only
    way to stop is the call through a null callback by the handler for modules without
    context. *)
Definition handler_ok (h : handler) (p : string) : Prop :=
  ∀ cb lineno st ps, map kind ps = pattern_kinds p →
    match h cb lineno st ps with
    | Ret _ => True
    | Stop f => f = FNull ∧ cb cb_edfi_dump_stats_module = false ∧ h = logparse_line_handler_edfi_dump_stats_module_no_context
    end.

(** The entry whose pattern has a parameter its handler does not accept. *)
Definition workload_completed_entry : handler * string :=
  (logparse_line_handler_print_workload_completed, "print Workload Completed *").

Ltac handler_cases :=
  intros cb ln st ps Hk; vm_compute in Hk;
  repeat (destruct ps as [|[[?|] ? ?] ps]; simpl in Hk; try discriminate Hk);
  unfold is_str, count_is, call_if, nth_param; simpl;
  try exact I.

Lemma dump_stats_module_ok p :
  pattern_kinds p = [true; true; true] ∨ pattern_kinds p = [true; true] →
  handler_ok logparse_line_handler_edfi_dump_stats_module p.
Proof.
  intros H cb ln st ps Hk. unfold logparse_line_handler_edfi_dump_stats_module.
  assert (Hk' : map kind ps = [true; true; true] ∨ map kind ps = [true; true]).
  { by rewrite Hk. }
  clear Hk H. repeat (destruct ps as [|[[?|] ? ?] ps]; simpl in Hk'; try (by destruct Hk'));
    unfold is_str, nth_param; simpl; destruct (cb _); simpl; try done;
    match goal with |- context [read_execcounts_from_string ?s] =>
      destruct (read_execcounts_total s) as [[?|] ->] end; done.
Qed.

Lemma callsites_handler_ok p :
  pattern_kinds p = [false; false; true; true] →
  handler_ok logparse_line_handler_print_ltckpt_closed_ipc_callsites p.
Proof.
  intros H cb ln st ps Hk. rewrite H in Hk. clear H.
  unfold logparse_line_handler_print_ltckpt_closed_ipc_callsites.
  repeat (destruct ps as [|[[?|] ? ?] ps]; simpl in Hk; try done).
  unfold is_str, nth_param, count_is; simpl; destruct (cb _); simpl; try done.
  match goal with |- context [parse_ipc_callsites ?l ?s] =>
    destruct (parse_ipc_callsites_total l s) as [? ->] end. done.
Qed.

Lemma no_context_handler_ok p :
  pattern_kinds p = [true; true] ∨ pattern_kinds p = [true] →
  handler_ok logparse_line_handler_edfi_dump_stats_module_no_context p.
Proof.
  intros H cb ln st ps Hk. unfold logparse_line_handler_edfi_dump_stats_module_no_context.
  assert (Hk' : map kind ps = [true; true] ∨ map kind ps = [true]) by (by rewrite Hk).
  clear Hk H. repeat (destruct ps as [|[[?|] ? ?] ps]; simpl in Hk'; try (by destruct Hk'));
    unfold is_str, nth_param; simpl; by destruct (cb _) eqn:?.
Qed.

Ltac table_entry :=
  first
    [ right; apply dump_stats_module_ok; vm_compute; by auto
    | right; apply no_context_handler_ok; vm_compute; by auto
    | right; apply callsites_handler_ok; reflexivity
    | left; reflexivity
    | right; handler_cases; by repeat case_match ].

Lemma table_ok :
  Forall (λ hp, hp = workload_completed_entry ∨ handler_ok hp.1 hp.2) logparse_line_patterns.
Proof.
  unfold logparse_line_patterns.
  repeat (apply Forall_cons_2; [table_entry|]). apply Forall_nil_2.
Qed.

(** ** Evaluating the table on a line with a known beginning *)

Definition literal (p : string) : bool := string_forall (λ a, negb (is_star a || is_hash a)) p.

Lemma match_loop_literal max lit p l ps :
  literal lit = true → match_loop max (lit +:+ p) (lit +:+ l) ps = match_loop max p l ps.
Proof.
  induction lit as [|a lit IH]; intros H; [done|]. unfold literal in H. simpl in H.
  apply andb_true_iff in H as [Ha H]. apply negb_true_iff, orb_false_iff in Ha as [H1 H2].
  simpl String.append. rewrite match_loop_cons, H1, H2, Ascii.eqb_refl. auto.
Qed.

Lemma match_loop_literal_inv max lit p l ps r :
  literal lit = true → match_loop max (lit +:+ p) l ps = Ret (Some r) →
  ∃ l', l = lit +:+ l' ∧ match_loop max p l' ps = Ret (Some r).
Proof.
  revert l. induction lit as [|a lit IH]; intros l H Hm; [by exists l|].
  unfold literal in H. simpl in H.
  apply andb_true_iff in H as [Ha H]. apply negb_true_iff, orb_false_iff in Ha as [H1 H2].
  simpl String.append in Hm. rewrite match_loop_cons, H1, H2 in Hm.
  destruct l as [|b l]; [done|]. destruct (Ascii.eqb_spec a b) as [->|]; [|done].
  destruct (IH l H Hm) as (l' & -> & Hl'). by exists l'.
Qed.

(** The pattern fails on every line that starts with [pre]. *)
Fixpoint lit_fails (p pre : string) : bool :=
  match p, pre with
  | String a p', String b pre' =>
      if is_star a || is_hash a then false
      else if Ascii.eqb a b then lit_fails p' pre' else true
  | EmptyString, String _ _ => true
  | _, EmptyString => false
  end.

Lemma lit_fails_sound max p pre rest ps :
  lit_fails p pre = true → match_loop max p (pre +:+ rest) ps = Ret None.
Proof.
  revert pre. induction p as [|a p IH]; intros [|b pre] H; try done.
  simpl lit_fails in H. rewrite match_loop_cons.
  destruct (is_star a); [done|]. destruct (is_hash a); [done|]. simpl in *.
  destruct (Ascii.eqb a b); [auto|done].
Qed.

(** The table from the first entry that may match. *)
Fixpoint drop_fails (pre : string) (table : list (handler * string)) : list (handler * string) :=
  match table with
  | [] => []
  | hp :: table' => if lit_fails hp.2 pre then drop_fails pre table' else table
  end.

Lemma patterns_match_drop pre rest table :
  patterns_match table (pre +:+ rest) = patterns_match (drop_fails pre table) (pre +:+ rest).
Proof.
  induction table as [|[h p] table IH]; simpl; [done|].
  destruct (lit_fails p pre) eqn:E; [|done].
  unfold pattern_match. by rewrite (lit_fails_sound _ p pre rest [] E).
Qed.

Lemma scan_until_end s : scan_until None s = (String.length s, EmptyString).
Proof. induction s as [|a s IH]; simpl; [done|]. by rewrite IH. Qed.

Lemma scan_until_stop x s t :
  string_forall (λ a, negb (Ascii.eqb a x)) s = true →
  scan_until (Some x) (s +:+ String x t) = (String.length s, String x t).
Proof.
  induction s as [|a s IH]; simpl; intros H; [by rewrite Ascii.eqb_refl|].
  apply andb_true_iff in H as [->%negb_true_iff H]. by rewrite IH.
Qed.

(** A pattern that ends in [*] takes the rest of the line. *)
Lemma match_loop_final_star max line ps :
  (length ps < max)%nat →
  match_loop max "*" line ps =
    Ret (Some (ps ++ [{| str := Some line; num := 0; len := String.length line |}])).
Proof.
  intros H. rewrite match_loop_cons. change (is_star "*") with true.
  destruct (Nat.ltb_spec (length ps) max); [|lia]. simpl head. by rewrite scan_until_end.
Qed.

Definition text_param (s : string) : param :=
  {| str := Some s; num := 0; len := String.length s |}.

(** A line that starts like an entry [lit*] and like no earlier one. *)
Lemma patterns_match_final_star pre h rest :
  literal pre = true → hd_error (drop_fails pre logparse_line_patterns) = Some (h, pre +:+ "*") →
  patterns_match logparse_line_patterns (pre +:+ rest) =
    Ret (Some (h, pre +:+ "*", [text_param rest])).
Proof.
  intros Hl Hh. rewrite patterns_match_drop.
  destruct (drop_fails pre logparse_line_patterns) as [|hp table]; [done|].
  simpl in Hh. injection Hh as ->. simpl patterns_match. unfold pattern_match.
  rewrite match_loop_literal, match_loop_final_star; [done|simpl; unfold PATTERN_PARAM_COUNT_MAX; lia|done].
Qed.

Lemma patterns_match_inv table line h p ps :
  patterns_match table line = Ret (Some (h, p, ps)) →
  (h, p) ∈ table ∧ pattern_match line p = Ret (Some ps).
Proof.
  induction table as [|[h' p'] table IH]; simpl; [done|]. intros H.
  apply res_bind_inv in H as ([ps'|] & Hp & H).
  - injection H as <- <- <-. split; [left|done].
  - destruct (IH H). split; [by right|done].
Qed.

Lemma table_few_params :
  Forall (λ hp, (length (pattern_kinds hp.2) ≤ PATTERN_PARAM_COUNT_MAX)%nat) logparse_line_patterns.
Proof.
  apply Forall_forall. intros hp H%list_elem_of_In.
  assert (Hb : forallb (λ hp, length (pattern_kinds hp.2) <=? PATTERN_PARAM_COUNT_MAX)%nat
                 logparse_line_patterns = true) by (vm_compute; reflexivity).
  rewrite forallb_forall in Hb. by apply Nat.leb_le, Hb.
Qed.

Lemma patterns_match_stop line f :
  patterns_match logparse_line_patterns line = Stop f → f = FOverflow.
Proof.
  pose proof table_few_params as Ht. induction Ht as [|[h p] table Hp _ IH]; simpl; [done|].
  destruct (pattern_match line p) as [[ps|]|f'] eqn:E; simpl; [done|done|].
  intros [= <-]. by eapply (match_loop_stop _ p line []).
Qed.

(** The faults of a line: a number that overflows [long], the null-callback call
    of the "no context" handler, or the assertion of the "Workload Completed"
    handler. *)
Lemma process_line_faults cb st lineno line f :
  process_line cb st lineno line = Stop f →
  f = FOverflow ∨ (f = FNull ∧ cb cb_edfi_dump_stats_module = false ∧
    ∃ p ps, patterns_match logparse_line_patterns line = Ret (Some (logparse_line_handler_edfi_dump_stats_module_no_context, p, ps))) ∨
  (f = FAssert ∧ ∃ t, line = "print Workload Completed " +:+ t).
Proof.
  unfold process_line. intros H.
  destruct (patterns_match logparse_line_patterns line) as [[[[h p] ps]|]|f'] eqn:E;
    simpl in H; [|done|].
  2:{ injection H as <-. left. by eapply patterns_match_stop. }
  pose proof E as [Hin Hm]%patterns_match_inv. right.
  pose proof table_ok as Ht. rewrite Forall_forall in Ht.
  destruct (Ht _ Hin) as [Heq|Hok].
  - injection Heq as -> ->. right.
    destruct (match_loop_literal_inv _ "print Workload Completed " "*" line [] ps eq_refl Hm)
      as (l' & -> & Hl').
    rewrite match_loop_final_star in Hl' by (simpl; unfold PATTERN_PARAM_COUNT_MAX; lia).
    injection Hl' as <-. injection H as <-. eauto.
  - left. apply match_loop_kinds in Hm. specialize (Hok cb lineno st ps Hm).
    simpl in Hok. rewrite H in Hok. destruct Hok as (-> & Hcb & ->). eauto.
Qed.

(** A line that matches a pattern is not stopped by an overflow any more. *)
Lemma process_line_no_overflow cb st lineno line m :
  patterns_match logparse_line_patterns line = Ret m → process_line cb st lineno line ≠ Stop FOverflow.
Proof.
  intros Em. unfold process_line. rewrite Em. cbn [res_bind]. destruct m as [[[h p] ps]|]; [|done]. intros H.
  apply patterns_match_inv in Em as [Hin Hm]. pose proof table_ok as Ht. rewrite Forall_forall in Ht.
  destruct (Ht _ Hin) as [[= -> ->]|Hok].
  - unfold pattern_match in Hm. apply (match_loop_literal_inv _ "print Workload Completed " "*") in Hm as (l' & -> & Hl'); [|done].
    rewrite match_loop_final_star in Hl' by (simpl; unfold PATTERN_PARAM_COUNT_MAX; lia). by injection Hl' as <-.
  - apply match_loop_kinds in Hm. specialize (Hok cb lineno st ps Hm). simpl in Hok. rewrite H in Hok. by destruct Hok.
Qed.

(** A completed workload with a description aborts the reader: the table
    sends lines [print Workload Completed <text>] to a handler that asserts that
    there is no parameter. *)
Theorem workload_completed_aborts cb st lineno t :
  process_line cb st lineno ("print Workload Completed " +:+ t) = Stop FAssert.
Proof.
  unfold process_line. rewrite (patterns_match_final_star "print Workload Completed "
    logparse_line_handler_print_workload_completed t eq_refl eq_refl). done.
Qed.

(** ** The reader terminates *)

Lemma left_next_char s : left (next_char s) = String.length (input s).
Proof. unfold next_char, left. by destruct (input s). Qed.

Lemma linebuf_next_char s : linebuf_size (next_char s) = linebuf_size s.
Proof. unfold next_char. by destruct (input s). Qed.

Lemma left_some s a : c s = Some a → left s = S (String.length (input s)).
Proof. unfold left. by intros ->. Qed.

(** A reading step leaves the state alone or consumes input. *)
Definition advances (s s' : logfilestate) : Prop :=
  (s' = s ∨ (left s' < left s)%nat) ∧ linebuf_size s' = linebuf_size s.

Lemma advances_next s a : c s = Some a → advances s (next_char s).
Proof.
  intros H. split; [right|apply linebuf_next_char]. rewrite left_next_char, (left_some s a H). lia.
Qed.

Lemma advances_trans s1 s2 s3 : advances s1 s2 → advances s2 s3 → advances s1 s3.
Proof.
  unfold advances. intros [[->|H1] Hb1] [[->|H2] Hb2]; split; auto; try congruence. right. lia.
Qed.

Lemma advances_refl s : advances s s.
Proof. split; [by left|done]. Qed.
#[local] Hint Resolve advances_refl advances_next : osiris.

Lemma read_char_advances s x ok s' : read_char s x = (ok, s') → advances s s'.
Proof.
  unfold read_char. destruct (c s) eqn:E; [|intros [= <- <-]; eauto with osiris].
  destruct (Ascii.eqb _ x); intros [= <- <-]; eauto with osiris.
Qed.

Lemma read_digit_advances s d s' : read_digit s = (d, s') → advances s s'.
Proof.
  unfold read_digit. destruct (c s) eqn:E; [|intros [= <- <-]; eauto with osiris].
  destruct (is_digit _); intros [= <- <-]; eauto with osiris.
Qed.

Lemma ts_run_advances items t s r s' : ts_run items t s = (r, s') → advances s s'.
Proof.
  revert t s. induction items as [|i items IH]; intros t s H; simpl in H.
  { injection H as <- <-. apply advances_refl. }
  destruct i as [x|f|x f].
  - destruct (read_char s x) as [ok s1] eqn:E. apply read_char_advances in E.
    destruct ok; [eapply advances_trans; eauto|by injection H as <- <-].
  - destruct (read_digit s) as [[v|] s1] eqn:E; apply read_digit_advances in E;
      [eapply advances_trans; eauto|by injection H as <- <-].
  - unfold read_char_or_digit in H. destruct (read_char s x) as [ok s1] eqn:E.
    apply read_char_advances in E. destruct ok; [eapply advances_trans; eauto|].
    destruct (read_digit s1) as [[v|] s2] eqn:E2; apply read_digit_advances in E2;
      [eapply advances_trans; [by eapply advances_trans|]; eauto|].
    injection H as <- <-. by eapply advances_trans.
Qed.

Lemma ts_run_consumes x items t s r s' :
  ts_run (TChar x :: items) t s = (Some r, s') → (left s' < left s)%nat.
Proof.
  simpl. unfold read_char. destruct (c s) as [a|] eqn:E; [|done].
  destruct (Ascii.eqb a x); [|done]. intros [H _]%ts_run_advances.
  assert (left (next_char s) < left s)%nat by (rewrite left_next_char, (left_some s a E); lia).
  destruct H as [->|]; lia.
Qed.

(** Both line loops stop at the end of the line and consume its text. *)
Definition at_line_end (s : logfilestate) : Prop := c s = None ∨ c s = Some newline.

Lemma skip_line_loop_spec fuel s :
  (left s < fuel)%nat →
  ∃ s', skip_line_loop fuel s = Ret s' ∧ advances s s' ∧ at_line_end s'.
Proof.
  revert s. induction fuel as [|fuel IH]; intros s Hf; [lia|]. simpl.
  destruct (c s) as [a|] eqn:E; [|exists s; unfold at_line_end; eauto using advances_refl].
  destruct (Ascii.eqb_spec a newline) as [->|].
  { exists s. unfold at_line_end. eauto using advances_refl. }
  destruct (IH (next_char s)) as (s' & Hs & Ha & He).
  { rewrite left_next_char. rewrite (left_some s a E) in Hf. lia. }
  exists s'. split_and!; [done| |done]. eapply advances_trans; eauto using advances_next.
Qed.

Lemma read_line_loop_spec fuel linelen s :
  (left s < fuel)%nat → 0 ≤ linelen → (linelen < linebuf_size s ∨ linebuf_size s = 0 ∧ linelen = 0) →
  (∃ line s', read_line_loop fuel linelen s = Ret (line, s') ∧ (left s' ≤ left s)%nat ∧
     at_line_end s' ∧ 0 < linebuf_size s') ∨
  (read_line_loop fuel linelen s = Stop FNull ∧ linebuf_size s = 0 ∧ at_line_end s).
Proof.
  revert linelen s. induction fuel as [|fuel IH]; intros linelen s Hf Hl Hb; [lia|].
  simpl.
  assert (Hdone : at_line_end s → (∃ line s',
    (if linebuf_size s =? 0 then Stop FNull
     else if linelen <? linebuf_size s then Ret ("", s) else Stop FBounds) = Ret (line, s') ∧
      (left s' ≤ left s)%nat ∧ at_line_end s' ∧ 0 < linebuf_size s') ∨
    ((if linebuf_size s =? 0 then Stop FNull
     else if linelen <? linebuf_size s then Ret ("", s) else Stop FBounds) = Stop FNull ∧
      linebuf_size s = 0 ∧ at_line_end s)).
  { intros He. destruct (Z.eqb_spec (linebuf_size s) 0); [auto|].
    destruct (Z.ltb_spec linelen (linebuf_size s)); [|lia].
    left. exists "", s. split_and!; try done. lia. }
  destruct (c s) as [a|] eqn:E; [|apply Hdone; by left].
  destruct (Ascii.eqb_spec a newline) as [->|]; [apply Hdone; by right|]. clear Hdone.
  set (s1 := if linebuf_size s <=? linelen + 1 then _ else s).
  assert (Hs1 : linelen + 1 < linebuf_size s1 ∧ left s1 = left s ∧ input s1 = input s).
  { subst s1. destruct (Z.leb_spec (linebuf_size s) (linelen + 1)); [|done]. simpl.
    split; [|done]. destruct (Z.ltb_spec 0 (linebuf_size s)); lia. }
  destruct Hs1 as (Hs1 & Hl1 & Hi1). destruct (Z.ltb_spec linelen (linebuf_size s1)); [|lia].
  destruct (IH (linelen + 1) (next_char s1)) as [(line & s' & -> & Hle & Hend & Hb')|(? & Hz & _)].
  - rewrite left_next_char, Hi1. rewrite (left_some s a E) in Hf. lia.
  - lia.
  - rewrite linebuf_next_char. by left.
  - left. simpl. do 2 eexists. split; [done|]. split_and!; try done.
    rewrite left_next_char, Hi1 in Hle. rewrite (left_some s a E). lia.
  - rewrite linebuf_next_char in Hz. lia.
Qed.

(** The ways in which the line at which the reader stands can stop it; each has a
    complete time stamp.
    - The text is empty and no line buffer has been allocated yet: the terminator is
      stored through a null pointer.
    - The text makes a pattern read a number that overflows [long].
    - The text says that a module has no context while no callback is set for
      execution counts: its handler calls the callback all the same.
    - The text is [print Workload Completed] with a description, which its handler
      asserts not to get. *)
Definition line_fault (mktime : tm → Z) (cb : logparse_callbacks) (s : logfilestate) (f : Prelude.fault) : Prop :=
  ∃ t s1, ts_run ts_items ts_zero s = (Some t, s1) ∧
    (f = FNull ∧ linebuf_size s = 0 ∧ at_line_end s1 ∨
     ∃ line s2, read_line (set_timestamp_last s1 (ts_value mktime t)) = Ret (line, s2) ∧
       (f = FOverflow ∧ patterns_match logparse_line_patterns line = Stop FOverflow ∨
        f = FNull ∧ cb cb_edfi_dump_stats_module = false ∧
          (∃ p ps, patterns_match logparse_line_patterns line = Ret (Some (logparse_line_handler_edfi_dump_stats_module_no_context, p, ps))) ∨
        f = FAssert ∧ ∃ text, line = "print Workload Completed " +:+ text)).

(** What a line of the file can do. *)
Lemma from_file_line_spec mktime cb s :
  0 ≤ linebuf_size s →
  match logparse_from_file_line mktime cb s with
  | Ret (more, s', _) => 0 ≤ linebuf_size s' ∧ if (more : bool) then (left s' < left s)%nat else left s' = 0%nat
  | Stop f => line_fault mktime cb s f
  end.
Proof.
  intros Hb. unfold logparse_from_file_line.
  destruct (c s) as [a|] eqn:E; [|split; [done|]; unfold left; by rewrite E].
  destruct (Ascii.eqb_spec a newline) as [->|Hn].
  { rewrite linebuf_next_char, left_next_char, (left_some _ _ E). split; [done|lia]. }
  unfold logparse_timestamp. destruct (ts_run ts_items ts_zero s) as [t s1] eqn:Et.
  apply ts_run_advances in Et as Hadv. destruct Hadv as [Hadv Hb1].
  destruct t as [t|]; simpl.
  - set (s2 := set_timestamp_last s1 _).
    assert (H12 : left s2 = left s1) by done.
    assert (Hb2 : linebuf_size s2 = linebuf_size s) by done.
    destruct (read_line s2) as [[line s3]|f] eqn:Er; cbn [res_bind]; unfold read_line in Er;
      (destruct (read_line_loop_spec (S (left s2)) 0 s2) as [(line' & s3' & El & Hle & Hend & Hb3)|(El & Hz & Hend)];
         [lia|lia|destruct (decide (linebuf_size s2 = 0)); [by right|left; lia]|..];
       rewrite El in Er; try discriminate Er).
    + injection Er as <- <-. cbn [snd] in *.
      destruct (process_line cb _ _ _) as [out|f] eqn:Ep; cbn [res_bind].
      * split; [lia|]. destruct (c s3') eqn:Ec; [|unfold left; by rewrite Ec].
        destruct Hadv as [->|]; [|lia]. apply ts_run_consumes in Et. lia.
      * exists t, s1. split; [done|]. right. eexists _, s3'. split; [unfold read_line; change (set_timestamp_last s1 (ts_value mktime t)) with s2; by rewrite El|].
        unfold process_line in Ep. cbn [fst] in Ep |- *. destruct (patterns_match _ _) as [m|f'] eqn:Em; cbn [res_bind] in Ep.
        -- assert (Hp : process_line cb {| timestamp := ts_value mktime t; cb_lineno := lineno s |} (lineno s3') (c_string line') = Stop f)
             by (unfold process_line; by rewrite Em).
           pose proof (process_line_faults _ _ _ _ _ Hp) as [->|[(-> & Hcb & Hh)|[-> Ht]]]; [|right; left; by rewrite Em in *|eauto].
           by destruct (process_line_no_overflow _ _ _ _ _ Em Hp).
        -- injection Ep as <-. left. by rewrite (patterns_match_stop _ _ Em) in *.
    + injection Er as <-. exists t, s1. split; [done|]. left. split_and!; [done|lia|done].
  - unfold skip_line. destruct (skip_line_loop_spec (S (left s1)) s1) as (s2 & -> & [Ha2 Hb2] & He);
      [lia|]. simpl. split; [lia|].
    destruct Hadv as [->|]; [|destruct Ha2 as [->|]; lia].
    destruct Ha2 as [->|]; [|lia]. destruct He as [He|He]; rewrite He in E; [done|].
    injection E as <-. done.
Qed.

(** The states in which the reader starts a line. *)
Inductive reads_to (mktime : tm → Z) (cb : logparse_callbacks) : logfilestate → logfilestate → Prop :=
  | reads_here s : reads_to mktime cb s s
  | reads_line s s' s'' out : logparse_from_file_line mktime cb s = Ret (true, s', out) →
      reads_to mktime cb s' s'' → reads_to mktime cb s s''.

Lemma from_file_loop_spec mktime cb fuel s out :
  0 ≤ linebuf_size s → (left s < fuel)%nat →
  match from_file_loop mktime cb fuel s out with
  | Ret (s', _) => left s' = 0%nat
  | Stop f => ∃ s', reads_to mktime cb s s' ∧ line_fault mktime cb s' f
  end.
Proof.
  revert s out. induction fuel as [|fuel IH]; intros s out Hb Hf; [lia|]. cbn [from_file_loop].
  pose proof (from_file_line_spec mktime cb s Hb) as Hl.
  destruct (logparse_from_file_line mktime cb s) as [[[[] s'] o]|f] eqn:E; cbn [res_bind]; destruct_and?.
  - specialize (IH s' (out ++ o)). destruct (from_file_loop mktime cb fuel s' (out ++ o)) as [[s2 o2]|f]; [apply IH; lia|].
    destruct IH as (s2 & Hr & Hs2); [done|lia|]. exists s2. split; [by econstructor|done].
  - done.
  - exists s. split; [constructor|done].
Qed.

(** The reader at the start of a file. *)
Definition file_start (file : string) (tl : option timeval) : logfilestate :=
  next_char {| input := file; lineno := 1; c := None; linebuf_size := 0; timestamp_last := tl |}.

(** C37: the log reader terminates, and what stops it.  For every file, every set
    of callbacks and every time zone the reader ends.  Either it has read the whole
    file, or one line stopped it, which is one of those of [line_fault]: a first text
    that is empty (a store through the null line buffer), a number that overflows
    [long], a module without context when there is no callback for execution counts
    (a call through null) or a description of a completed workload (an assertion).  Nothing is ever
    written past the end of an allocated line buffer, call-site array or
    execution-count array. *)
Theorem log_file_faults mktime cb file tl :
  match logparse_from_file mktime cb file tl with
  | Ret (s, _) => left s = 0%nat
  | Stop f => ∃ s, reads_to mktime cb (file_start file tl) s ∧ line_fault mktime cb s f
  end.
Proof.
  unfold logparse_from_file. apply (from_file_loop_spec mktime cb _ (file_start file tl)); unfold file_start.
  - by rewrite linebuf_next_char.
  - rewrite left_next_char. simpl. lia.
Qed.

(** ** Well-formed log files *)

(** The reader's state in front of [text], [n] lines into the file. *)
Definition mk (text : string) (n lb : Z) (tl : option timeval) : logfilestate :=
  match text with
  | EmptyString => {| input := ""; lineno := n; c := None; linebuf_size := lb; timestamp_last := tl |}
  | String a t =>
      {| input := t; lineno := if Ascii.eqb a newline then n + 1 else n; c := Some a;
         linebuf_size := lb; timestamp_last := tl |}
  end.

Lemma next_mk a t n lb tl :
  next_char (mk (String a t) n lb tl) = mk t (if Ascii.eqb a newline then n + 1 else n) lb tl.
Proof. by destruct t as [|b t]. Qed.

Lemma read_char_mk x t n lb tl :
  Ascii.eqb x newline = false → read_char (mk (String x t) n lb tl) x = (true, mk t n lb tl).
Proof.
  intros Hx. unfold read_char. change (c (mk (String x t) n lb tl)) with (Some x).
  cbv iota beta. by rewrite Ascii.eqb_refl, next_mk, Hx.
Qed.

Lemma digit_not_newline d : 0 ≤ d < 10 → Ascii.eqb (digit_char d) newline = false.
Proof.
  intros H. assert (Hd : d ∈ seqZ 0 10) by (apply elem_of_seqZ; lia).
  apply list_elem_of_In in Hd. simpl in Hd. unfold digit_char.
  repeat destruct Hd as [<-|Hd]; done.
Qed.

Lemma read_digit_mk d t n lb tl :
  0 ≤ d < 10 → read_digit (mk (String (digit_char d) t) n lb tl) = (Some d, mk t n lb tl).
Proof.
  intros Hd. unfold read_digit. change (c (mk (String (digit_char d) t) n lb tl)) with (Some (digit_char d)).
  cbv iota beta. by rewrite is_digit_char, digit_val_char, next_mk, digit_not_newline.
Qed.

Lemma read_char_digit d t n lb tl :
  0 ≤ d < 10 →
  read_char (mk (String (digit_char d) t) n lb tl) " " = (false, mk (String (digit_char d) t) n lb tl).
Proof.
  intros H. assert (Hd : d ∈ seqZ 0 10) by (apply elem_of_seqZ; lia).
  apply list_elem_of_In in Hd. simpl in Hd. unfold digit_char.
  repeat destruct Hd as [<-|Hd]; done.
Qed.

(** The last [w] decimal digits of [n]. *)
Fixpoint fixed (w : nat) (n : Z) : string :=
  match w with
  | O => EmptyString
  | S w' => String (digit_char ((n / 10 ^ Z.of_nat w') `mod` 10)) (fixed w' n)
  end.

(** [\[YYYY-MM-DD HH:MM:SS.uuuuuu\] ] *)
Definition ts_string (t : tsfields) : string :=
  "[" +:+ fixed 4 (year t) +:+ "-" +:+ fixed 2 (month t) +:+ "-" +:+ fixed 2 (tm_mday t) +:+ " " +:+
  fixed 2 (tm_hour t) +:+ ":" +:+ fixed 2 (tm_min t) +:+ ":" +:+ fixed 2 (tm_sec t) +:+ "." +:+
  fixed 6 (microseconds t) +:+ "]" +:+ " ".

Definition ts_ok (t : tsfields) : Prop :=
  0 ≤ year t < 10^4 ∧ 0 ≤ month t < 10^2 ∧ 0 ≤ tm_mday t < 10^2 ∧ 0 ≤ tm_hour t < 10^2 ∧
  0 ≤ tm_min t < 10^2 ∧ 0 ≤ tm_sec t < 10^2 ∧ 0 ≤ microseconds t < 10^6.

Definition ts_get (t : tsfields) (f : tsfield) : Z :=
  match f with
  | FYear => year t | FMonth => month t | FDay => tm_mday t | FHour => tm_hour t
  | FMin => tm_min t | FSec => tm_sec t | FMicro => microseconds t
  end.

(** Set a field. *)
Definition ts_set (t : tsfields) (f : tsfield) (v : Z) : tsfields :=
  {| year := if f is FYear then v else year t; month := if f is FMonth then v else month t;
     tm_mday := if f is FDay then v else tm_mday t; tm_hour := if f is FHour then v else tm_hour t;
     tm_min := if f is FMin then v else tm_min t; tm_sec := if f is FSec then v else tm_sec t;
     microseconds := if f is FMicro then v else microseconds t |}.

Lemma ts_push_set t f v d : ts_push (ts_set t f v) f d = ts_set t f (v * 10 + d).
Proof. by destruct f. Qed.

Lemma ts_set_get t f : ts_set t f (ts_get t f) = t.
Proof. by destruct t, f. Qed.

Lemma ts_run_char x items t text n lb tl :
  Ascii.eqb x newline = false →
  ts_run (TChar x :: items) t (mk (String x "" +:+ text) n lb tl) = ts_run items t (mk text n lb tl).
Proof. intros Hx. cbn [ts_run String.append]. by rewrite read_char_mk. Qed.

(** [w] digit items read [w] digits. *)
Lemma ts_run_fixed w f items t v text n lb tl x :
  0 ≤ v →
  ts_run (repeat (TDigit f) w ++ items) (ts_set t f v) (mk (fixed w x +:+ text) n lb tl) =
  ts_run items (ts_set t f (v * 10 ^ Z.of_nat w + x `mod` 10 ^ Z.of_nat w)) (mk text n lb tl).
Proof.
  revert v. induction w as [|w IH]; intros v Hv.
  { simpl. rewrite Z.mod_1_r. do 2 f_equal. lia. }
  assert (Hd : 0 ≤ (x / 10 ^ Z.of_nat w) `mod` 10 < 10) by (apply Z.mod_pos_bound; lia).
  cbn [repeat app ts_run fixed String.append]. rewrite read_digit_mk, ts_push_set by done.
  rewrite IH by lia. do 2 f_equal.
  rewrite Nat2Z.inj_succ, Z.pow_succ_r by lia.
  rewrite (Z.mul_comm 10 (10 ^ Z.of_nat w)), Z.rem_mul_r by lia. lia.
Qed.

Lemma ts_run_string t text n lb tl :
  ts_ok t → ts_run ts_items ts_zero (mk (ts_string t +:+ text) n lb tl) = (Some t, mk text n lb tl).
Proof.
  intros (H1 & H2 & H3 & H4 & H5 & H6 & H7).
  assert (Hstep : ∀ w f items t0 x text0, ts_get t0 f = 0 → 0 ≤ x < 10 ^ Z.of_nat w →
    ts_run (repeat (TDigit f) w ++ items) t0 (mk (fixed w x +:+ text0) n lb tl) =
    ts_run items (ts_set t0 f x) (mk text0 n lb tl)).
  { intros w f items t0 x text0 H0 Hx. rewrite <- (ts_set_get t0 f) at 1. rewrite H0.
    rewrite ts_run_fixed by lia. rewrite Z.mod_small by lia. done. }
  assert (Hhour : ∀ items t0 text0, ts_get t0 FHour = 0 →
    ts_run (TCharOrDigit " " FHour :: TDigit FHour :: items) t0
      (mk (fixed 2 (tm_hour t) +:+ text0) n lb tl) =
    ts_run items (ts_set t0 FHour (tm_hour t)) (mk text0 n lb tl)).
  { intros items t0 text0 H0. rewrite <- (Hstep 2%nat FHour items) by done.
    set (d := (tm_hour t / 10 ^ Z.of_nat 1) `mod` 10).
    assert (Hd : 0 ≤ d < 10) by (apply Z.mod_pos_bound; lia).
    cbn [repeat app ts_run]. change (fixed 2 (tm_hour t) +:+ text0) with
      (String (digit_char d) (fixed 1 (tm_hour t) +:+ text0)).
    unfold read_char_or_digit. rewrite read_char_digit, read_digit_mk by done. done. }
  change ts_items with
    (TChar "[" :: repeat (TDigit FYear) 4 ++ TChar "-" :: repeat (TDigit FMonth) 2 ++
     TChar "-" :: repeat (TDigit FDay) 2 ++ TChar " " :: TCharOrDigit " " FHour :: TDigit FHour ::
     TChar ":" :: repeat (TDigit FMin) 2 ++ TChar ":" :: repeat (TDigit FSec) 2 ++
     TChar "." :: repeat (TDigit FMicro) 6 ++ [TChar "]"; TChar " "]).
  unfold ts_string. rewrite !string_app_assoc.
  rewrite (ts_run_char "[" _ _ _ n lb tl eq_refl), (Hstep 4%nat FYear) by done.
  rewrite (ts_run_char "-" _ _ _ n lb tl eq_refl), (Hstep 2%nat FMonth) by done.
  rewrite (ts_run_char "-" _ _ _ n lb tl eq_refl), (Hstep 2%nat FDay) by done.
  rewrite (ts_run_char " " _ _ _ n lb tl eq_refl), Hhour by done.
  rewrite (ts_run_char ":" _ _ _ n lb tl eq_refl), (Hstep 2%nat FMin) by done.
  rewrite (ts_run_char ":" _ _ _ n lb tl eq_refl), (Hstep 2%nat FSec) by done.
  rewrite (ts_run_char "." _ _ _ n lb tl eq_refl), (Hstep 6%nat FMicro) by done.
  rewrite (ts_run_char "]" _ _ _ n lb tl eq_refl).
  rewrite (ts_run_char " " _ _ _ n lb tl eq_refl). by destruct t.
Qed.

(** A line of text: not empty, on one line, without NUL. *)
Definition text_ok (line : string) : Prop :=
  line ≠ EmptyString ∧
  string_forall (λ a, negb (Ascii.eqb a newline) && negb (Ascii.eqb a "000")) line = true.

Lemma c_string_id s :
  string_forall (λ a, negb (Ascii.eqb a newline) && negb (Ascii.eqb a "000")) s = true →
  c_string s = s.
Proof.
  induction s as [|a s IH]; simpl; [done|].
  intros [[_ ->%negb_true_iff]%andb_true_iff H]%andb_true_iff. by rewrite IH.
Qed.

Lemma left_mk text n lb tl : left (mk text n lb tl) = String.length text.
Proof. by destruct text. Qed.

Lemma set_linebuf_mk text n lb tl lb' : set_linebuf (mk text n lb tl) lb' = mk text n lb' tl.
Proof. by destruct text. Qed.

Lemma linebuf_mk text n lb tl : linebuf_size (mk text n lb tl) = lb.
Proof. by destruct text. Qed.

Lemma read_line_loop_mk line rest fuel linelen n lb tl :
  string_forall (λ a, negb (Ascii.eqb a newline) && negb (Ascii.eqb a "000")) line = true →
  (String.length line < fuel)%nat → 0 ≤ linelen → linelen < lb ∨ lb = 0 ∧ linelen = 0 ∧ line ≠ "" →
  ∃ lb', 0 < lb' ∧
    read_line_loop fuel linelen (mk (line +:+ String newline rest) n lb tl) =
      Ret (line, mk (String newline rest) n lb' tl).
Proof.
  revert fuel linelen lb. induction line as [|a line IH]; intros fuel linelen lb Hok Hf Hl Hlb.
  - destruct fuel; [simpl in Hf; lia|]. destruct Hlb as [Hlb|(_ & _ & ?)]; [|done].
    exists lb. split; [lia|]. simpl. destruct (Z.eqb_spec lb 0); [lia|].
    by destruct (Z.ltb_spec linelen lb); [|lia].
  - destruct fuel; [simpl in Hf; lia|]. simpl in Hok, Hf.
    apply andb_true_iff in Hok as [[Ha _]%andb_true_iff Hok]. apply negb_true_iff in Ha.
    simpl String.append. cbn [read_line_loop].
    change (c (mk (String a (line +:+ String newline rest)) n lb tl)) with (Some a).
    cbv iota beta. rewrite Ha, linebuf_mk, set_linebuf_mk.
    set (lb1 := if lb <=? linelen + 1 then (if 0 <? lb then lb * 2 else 256) else lb).
    assert (Hlb1 : linelen + 1 < lb1).
    { subst lb1. destruct (Z.leb_spec lb (linelen + 1)); [|done].
      destruct (Z.ltb_spec 0 lb); lia. }
    replace (if lb <=? linelen + 1 then mk (String a (line +:+ String newline rest)) n
               (if 0 <? lb then lb * 2 else 256) tl
             else mk (String a (line +:+ String newline rest)) n lb tl)
      with (mk (String a (line +:+ String newline rest)) n lb1 tl)
      by (subst lb1; by destruct (lb <=? linelen + 1)).
    rewrite linebuf_mk, next_mk, Ha. destruct (Z.ltb_spec linelen lb1); [|lia].
    destruct (IH fuel (linelen + 1) lb1 Hok) as (lb' & Hlb' & ->); [lia|lia|by left|].
    exists lb'. split; [done|]. done.
Qed.

Section WellFormed.
Context (mktime : tm → Z) (cb : logparse_callbacks).

(** A file of time-stamped lines. *)
Definition line_string (e : tsfields * string) : string :=
  ts_string e.1 +:+ e.2 +:+ String newline EmptyString.
Fixpoint file_string (es : list (tsfields * string)) : string :=
  match es with [] => EmptyString | e :: es' => line_string e +:+ file_string es' end.

(** The outputs of its lines in order; line [n] is reported to the callbacks as
    line [n] and to warnings as line [n + 1]. *)
Fixpoint lines_output (n : Z) (es : list (tsfields * string)) : res (list output) :=
  match es with
  | [] => Ret []
  | (t, line) :: es' =>
      let! out := process_line cb {| timestamp := ts_value mktime t; cb_lineno := n |} (n + 1) line in
      let! rest := lines_output (n + 1) es' in
      Ret (out ++ rest)
  end.

Definition last_timestamp (tl : option timeval) (es : list (tsfields * string)) : option timeval :=
  match tl, last es with
  | Some _, Some (t, _) => Some (ts_value mktime t)
  | _, _ => tl
  end.

Lemma last_timestamp_cons tl t line es :
  last_timestamp (last_timestamp tl [(t, line)]) es = last_timestamp tl ((t, line) :: es).
Proof.
  destruct tl; [|done]. unfold last_timestamp. simpl last at 1.
  destruct es as [|e es]; [done|]. rewrite last_cons_cons.
  destruct (last (e :: es)) as [[? ?]|] eqn:E; [done|]. by apply last_None in E.
Qed.

Lemma ts_string_starts t : ∃ s, ts_string t = String "[" s.
Proof. eexists. reflexivity. Qed.

Lemma from_file_line_mk t line rest n lb tl :
  ts_ok t → text_ok line → 0 ≤ lb →
  ∃ lb', 0 < lb' ∧
    logparse_from_file_line mktime cb (mk (line_string (t, line) +:+ rest) n lb tl) =
    (let! out := process_line cb {| timestamp := ts_value mktime t; cb_lineno := n |} (n + 1) line in
     Ret (true, mk (String newline rest) n lb' (last_timestamp tl [(t, line)]), out)).
Proof.
  intros Ht [Hne Hok] Hlb. unfold line_string. simpl fst; simpl snd. rewrite !string_app_assoc.
  change (String newline "" +:+ rest) with (String newline rest).
  set (tl' := last_timestamp tl [(t, line)]).
  destruct (read_line_loop_mk line rest (S (String.length (line +:+ String newline rest))) 0 n lb tl')
    as (lb' & Hlb' & Hr); [done|rewrite string_length_app; lia|lia| |].
  { destruct (decide (lb = 0)) as [->|]; [right; done|left; lia]. }
  exists lb'. split; [done|].
  pose proof (ts_run_string t (line +:+ String newline rest) n lb tl Ht) as Hts.
  unfold logparse_from_file_line, logparse_timestamp. rewrite Hts.
  destruct (ts_string_starts t) as [s0 ->].
  change (c (mk (String "[" s0 +:+ line +:+ String newline rest) n lb tl)) with (Some "["%char).
  change (lineno (mk (String "[" s0 +:+ line +:+ String newline rest) n lb tl)) with n.
  cbv iota beta. change (Ascii.eqb "[" newline) with false. cbv iota beta. cbn [fmap option_fmap option_map].
  replace (set_timestamp_last (mk (line +:+ String newline rest) n lb tl) (ts_value mktime t))
    with (mk (line +:+ String newline rest) n lb tl').
  2:{ subst tl'. unfold last_timestamp. simpl. by destruct (line +:+ _), tl. }
  unfold read_line. rewrite left_mk, Hr. cbn [res_bind fst snd]. by rewrite c_string_id.
Qed.

Lemma from_file_loop_mk fuel es n lb tl out :
  Forall (λ e, ts_ok e.1 ∧ text_ok e.2) es → 0 ≤ lb → (2 * length es < fuel)%nat →
  (let! r := from_file_loop mktime cb fuel (mk (file_string es) n lb tl) out in
   Ret (timestamp_last r.1, r.2)) =
  (let! out' := lines_output n es in Ret (last_timestamp tl es, out ++ out')).
Proof.
  intros Hes. revert fuel n lb tl out.
  induction Hes as [|[t line] es [Ht Hl] _ IH]; intros fuel n lb tl out Hlb Hf.
  { destruct fuel; [lia|]. simpl. by destruct tl. }
  destruct fuel as [|[|fuel]]; [simpl in Hf; lia|simpl in Hf; lia|]. simpl length in Hf.
  destruct (from_file_line_mk t line (file_string es) n lb tl Ht Hl Hlb) as (lb' & Hlb' & Hline).
  cbn [file_string lines_output]. cbn [from_file_loop]. rewrite Hline.
  destruct (process_line cb _ _ line) as [o|f]; [|done]. cbn [res_bind].
  change (from_file_loop mktime cb (S fuel) ?s ?o) with (from_file_loop mktime cb (S fuel) s o).
  cbn [from_file_loop].
  change (logparse_from_file_line mktime cb (mk (String newline (file_string es)) n lb' ?x))
    with (Ret (true, next_char (mk (String newline (file_string es)) n lb' x), @nil output)).
  cbn [res_bind]. rewrite next_mk, app_nil_r. change (Ascii.eqb newline newline) with true.
  cbv iota. rewrite IH by lia.
  destruct (lines_output (n + 1) es) as [o'|f]; [|done]. cbn [res_bind]. rewrite app_assoc.
  by rewrite last_timestamp_cons.
Qed.
End WellFormed.

Lemma from_file_lines mktime cb es tl :
  Forall (λ e, ts_ok e.1 ∧ text_ok e.2) es →
  (let! r := logparse_from_file mktime cb (file_string es) tl in Ret (timestamp_last r.1, r.2)) =
  (let! out := lines_output mktime cb 1 es in Ret (last_timestamp mktime tl es, out)).
Proof.
  intros Hes. unfold logparse_from_file.
  replace (next_char _) with (mk (file_string es) 1 0 tl) by (by destruct (file_string es)).
  rewrite from_file_loop_mk; [done|done|lia|]. induction Hes as [|[t line] es [_ [Hne _]] _ IH]; simpl; [lia|].
  rewrite string_length_app. unfold line_string. rewrite !string_length_app. simpl fst. simpl snd.
  destruct line; [done|]. simpl String.length. lia.
Qed.

(** C36: reading back a log.  For every file that consists of time-stamped,
    one-line, non-empty messages, [logparse_from_path] delivers to the callbacks
    exactly what the handlers of the messages produce, in order, with the right
    time stamps and line numbers, stops where the first faulty line stops it, and
    leaves the last time stamp (0 for an empty file) in [*timestamp_last] when the
    caller asked for it. *)
Theorem log_file_lines mktime cb es tl :
  Forall (λ e, ts_ok e.1 ∧ text_ok e.2) es →
  (let! r := logparse_from_path mktime cb (Some (file_string es)) tl in Ret (timestamp_last r.1, r.2)) =
  (let! out := lines_output mktime cb 1 es in
   Ret (match tl with
        | None => None
        | Some _ => Some (match last es with
                          | Some (t, _) => ts_value mktime t
                          | None => {| tv_sec := 0; tv_usec := 0 |}
                          end)
        end, out)).
Proof.
  intros Hes. unfold logparse_from_path. rewrite from_file_lines by done.
  destruct (lines_output mktime cb 1 es) as [out|f]; [|done]. cbn [res_bind]. do 2 f_equal.
  unfold last_timestamp. destruct tl; [|done]. by destruct (last es) as [[t' line]|].
Qed.

(** The line buffer is written through a null pointer when the first line
    that has a time stamp has no text: [read_line] allocates the buffer only
    when it stores a character, but always stores the terminator. *)
Theorem empty_first_line_crashes mktime cb t rest tl :
  ts_ok t →
  logparse_from_file mktime cb (ts_string t +:+ String newline rest) tl = Stop FNull.
Proof.
  intros Ht. unfold logparse_from_file.
  replace (next_char _) with (mk (ts_string t +:+ String newline rest) 1 0 tl)
    by (by destruct (ts_string t +:+ String newline rest)).
  pose proof (ts_run_string t (String newline rest) 1 0 tl Ht) as Hts.
  cbn [from_file_loop]. unfold logparse_from_file_line, logparse_timestamp. rewrite Hts.
  destruct (ts_string_starts t) as [s0 ->].
  change (c (mk (String "[" s0 +:+ String newline rest) 1 0 tl)) with (Some "["%char).
  cbv iota beta. change (Ascii.eqb "[" newline) with false. cbv iota beta.
  reflexivity.
Qed.

(** The "no context" handler tests its callback the wrong way round: with
    the callback set the event is never delivered, without it the reader calls
    a null pointer. *)
Theorem no_context_inverted cb st lineno name :
  string_forall (λ a, negb (Ascii.eqb a " ")) name = true →
  process_line cb st lineno ("edfi_dump_stats_module name=" +:+ name +:+ " no context known") =
    if cb cb_edfi_dump_stats_module then Ret [] else Stop FNull.
Proof.
  intros Hn. unfold process_line. rewrite patterns_match_drop.
  set (line := "edfi_dump_stats_module name=" +:+ name +:+ " no context known").
  set (table := drop_fails _ _).
  assert (Hstar : ∀ p, match_loop PATTERN_PARAM_COUNT_MAX
      ("edfi_dump_stats_module name=" +:+ String "*" (String " " p)) line [] =
    match_loop PATTERN_PARAM_COUNT_MAX p "no context known"
      [{| str := Some (name +:+ " no context known"); num := 0; len := String.length name |}]).
  { intros p. subst line. rewrite match_loop_literal by done. rewrite match_loop_cons.
    change (head (String " " p)) with (Some " "%char).
    rewrite (scan_until_stop " " name "no context known") by done. done. }
  change table with ((logparse_line_handler_edfi_dump_stats_module_no_context,
      "edfi_dump_stats_module name=" +:+ String "*" (String " " "msg=* no context known")) ::
    (logparse_line_handler_edfi_dump_stats_module_no_context,
      "edfi_dump_stats_module name=" +:+ String "*" (String " " "no context known")) ::
    drop 2 table).
  cbn [patterns_match]. unfold pattern_match. rewrite !Hstar. simpl match_loop. simpl res_bind.
  unfold logparse_line_handler_edfi_dump_stats_module_no_context, is_str, nth_param. simpl.
  done.
Qed.

(** ** Examples *)

Definition demo_mktime (t : tm) : Z := t_hour t * 3600 + t_min t * 60 + t_sec t.
Definition demo_ts : tsfields := Build_tsfields 2016 5 30 12 34 56 789.
Definition demo_lines : list (tsfields * string) :=
  [(demo_ts, "QEMU reset"); (demo_ts, "print ltckpt recovery: shutdown; module=pm")].
Definition all_callbacks : logparse_callbacks := λ _, true.

Lemma demo_ts_ok : ts_ok demo_ts.
Proof. unfold ts_ok. simpl. lia. Qed.

Lemma log_file_lines_witness :
  (let! r := logparse_from_path demo_mktime all_callbacks (Some (file_string demo_lines))
               (Some {| tv_sec := 7; tv_usec := 7 |}) in
   Ret (timestamp_last r.1, r.2)) =
  Ret (Some {| tv_sec := 45296; tv_usec := 789 |}, [OCall {| timestamp := {| tv_sec := 45296; tv_usec := 789 |}; cb_lineno := 1 |} qemu_reset;
              OCall {| timestamp := {| tv_sec := 45296; tv_usec := 789 |}; cb_lineno := 2 |}
                (print_ltckpt ls_shutdown lm_generic "pm")]).
Proof.
  rewrite (log_file_lines demo_mktime all_callbacks demo_lines (Some {| tv_sec := 7; tv_usec := 7 |})).
  - vm_compute. reflexivity.
  - repeat (apply Forall_cons_2; [split; [apply demo_ts_ok|by vm_compute]|]). apply Forall_nil_2.
Defined.

(** A line without a time stamp, and then an empty text. *)
Lemma log_file_faults_witness :
  let file := "boot" +:+ String newline (ts_string demo_ts +:+ String newline "") in
  logparse_from_file demo_mktime all_callbacks file None = Stop FNull ∧
  ∃ s, reads_to demo_mktime all_callbacks (file_start file None) s ∧ line_fault demo_mktime all_callbacks s FNull.
Proof.
  intros file. pose proof (log_file_faults demo_mktime all_callbacks file None) as H.
  assert (E : logparse_from_file demo_mktime all_callbacks file None = Stop FNull) by (vm_compute; reflexivity).
  split; [exact E|]. rewrite E in H. exact H.
Defined.

Lemma empty_first_line_crashes_witness :
  logparse_from_file demo_mktime all_callbacks
    (ts_string demo_ts +:+ String newline "more") None = Stop FNull.
Proof. apply (empty_first_line_crashes demo_mktime all_callbacks demo_ts "more" None demo_ts_ok). Defined.

Lemma no_context_inverted_witness :
  process_line all_callbacks {| timestamp := {| tv_sec := 0; tv_usec := 0 |}; cb_lineno := 1 |} 2
    "edfi_dump_stats_module name=pm no context known" = Ret [].
Proof. apply (no_context_inverted all_callbacks _ 2 "pm" eq_refl). Defined.
