(* ===== verification/LogIntegration.v ===== *)
(** * What the runtime logs is what the log reader understands

    The messages of [ltckpt_recover.c] and [ltckpt_writelog.c] go through
    [hypermem_log] to the hypervisor, which writes them to the log file behind
    the word [print].  The theorems say that the reader of [logparse.c] maps
    every one of them to the right event of the right module. *)

From Stdlib Require Import ZArith Lia Ascii String.
From stdpp Require Import base list numbers strings.
From S2P Require Import Prelude Decimal LogFmt Runtime Writelog Recover LogParse LogReader.
Import Window.

(** ** Numbers in patterns *)

Lemma convert_digit a : is_digit a = true → convertnumchar a 10 = Some (digit_val a).
Proof.
  unfold is_digit, convertnumchar, between, code, digit_val. intros H. change (code "0") with 48.
  change (Z.of_N (N_of_ascii "0")) with 48. change (Z.of_N (N_of_ascii "9")) with 57.
  rewrite H. destruct (Z.ltb_spec (Z.of_N (N_of_ascii a) - 48) 10); [done|]. zb.
Qed.

Lemma convert_nondigit a : is_digit a = false → convertnumchar a 10 = None.
Proof.
  unfold is_digit, convertnumchar, between, code. intros H.
  change (Z.of_N (N_of_ascii "0")) with 48. change (Z.of_N (N_of_ascii "9")) with 57.
  change (Z.of_N (N_of_ascii "A")) with 65. change (Z.of_N (N_of_ascii "Z")) with 90.
  change (Z.of_N (N_of_ascii "a")) with 97. change (Z.of_N (N_of_ascii "z")) with 122.
  rewrite H. repeat case_match; zb; done.
Qed.

Lemma read_dec_mono v s : 0 ≤ v → v ≤ (read_dec v s).1.
Proof.
  revert v. induction s as [|a s IH]; intros v Hv; simpl; [lia|].
  destruct (is_digit a) eqn:E; simpl; [|lia]. apply is_digit_val in E.
  specialize (IH (v * 10 + digit_val a) ltac:(lia)). lia.
Qed.

Lemma number_loop_dec v n s t :
  string_forall is_digit s = true → starts_with_digit t = false → 0 ≤ v →
  (read_dec v s).1 < 2^63 →
  number_loop 10 v n (s +:+ t) = Ret ((read_dec v s).1, (n + String.length s)%nat, t).
Proof.
  revert v n. induction s as [|a s IH]; intros v n Hs Ht Hv Hb; simpl in *.
  - destruct t as [|b t]; simpl in *; [by rewrite Nat.add_0_r|].
    by rewrite convert_nondigit, Nat.add_0_r.
  - apply andb_true_iff in Hs as [Ha Hs]. rewrite Ha in Hb |- *. rewrite convert_digit by done.
    pose proof (is_digit_val a Ha). pose proof (read_dec_mono (v * 10 + digit_val a) s ltac:(lia)).
    destruct (Z.ltb_spec (v * 10 + digit_val a) (2^63)); [|lia].
    rewrite IH by (done || lia). by rewrite Nat.add_succ_r.
Qed.

(** What may follow a number. *)
Definition ends_number (t : string) : bool :=
  match t with
  | EmptyString => true
  | String a _ => negb (is_digit a) && negb (Ascii.eqb a "x") && negb (Ascii.eqb a "X")
  end.

Lemma ends_number_digit t : ends_number t = true → starts_with_digit t = false.
Proof.
  destruct t as [|a t]; simpl; [done|]. intros [[H _]%andb_true_iff _]%andb_true_iff.
  by apply negb_true_iff.
Qed.

(** Digits are neither a sign nor the start of a hexadecimal number. *)
Lemma digits_prefix a s t :
  is_digit a = true → string_forall is_digit s = true → ends_number t = true →
  match_number (String a (s +:+ t)) =
    (let! r := number_loop 10 (digit_val a) 1 (s +:+ t) in
     Ret (Some ({| str := None; num := r.1.1; len := r.1.2 |}, r.2))).
Proof.
  intros Ha Hs Ht.
  assert (Hx : ∀ u, s +:+ t = String "x" u ∨ s +:+ t = String "X" u → False).
  { intros u Hu. destruct s as [|b s]; simpl in *.
    - destruct Hu as [-> | ->]; simpl in Ht; done.
    - apply andb_true_iff in Hs as [Hb _].
      destruct Hu as [Hu|Hu]; injection Hu as -> _; done. }
  assert (Hm : match_number (String a (s +:+ t)) =
    match convertnumchar a 10 with
    | None => Ret None
    | Some v =>
        let! r := number_loop 10 v 1 (s +:+ t) in
        let '(acc, n, rest) := r in
        Ret (Some ({| str := None; num := acc; len := n |}, rest))
    end).
  { unfold match_number.
    destruct (Ascii.eqb_spec a "0") as [->|Hz].
    - destruct (s +:+ t) as [|b u] eqn:E; [done|].
      destruct (Ascii.eqb_spec b "x") as [->|]; [destruct (Hx u); by left|].
      destruct (Ascii.eqb_spec b "X") as [->|]; [destruct (Hx u); by right|].
      destruct b as [[] [] [] [] [] [] [] []]; congruence || reflexivity.
    - destruct a as [[] [] [] [] [] [] [] []]; first [discriminate Ha | congruence | reflexivity]. }
  rewrite Hm, convert_digit by done. destruct (number_loop _ _ _ _) as [[[acc n] rest]|]; done.
Qed.

Lemma match_number_dec n t :
  0 ≤ n < 2^63 → ends_number t = true →
  match_number (print_dec n +:+ t) =
    Ret (Some ({| str := None; num := n; len := String.length (print_dec n) |}, t)).
Proof.
  intros Hn Ht. pose proof (print_dec_forall n ltac:(lia)) as Hf.
  pose proof (print_dec_starts n ltac:(lia)) as Hst.
  pose proof (read_print_dec n "" ltac:(lia) eq_refl) as Hr. rewrite string_app_nil_r in Hr.
  destruct (print_dec n) as [|a s]; [done|]. simpl in Hf, Hr, Hst. rewrite Hst in Hf, Hr.
  simpl in Hf. pose proof (is_digit_val a Hst). simpl String.append.
  rewrite digits_prefix by done. rewrite Z.mul_0_l, Z.add_0_l in Hr.
  rewrite number_loop_dec; [|done|by apply ends_number_digit|lia|rewrite Hr; simpl; lia].
  rewrite Hr. done.
Qed.

Lemma match_number_neg n t :
  0 < n < 2^63 → ends_number t = true →
  match_number (String "-" (print_dec n +:+ t)) =
    Ret (Some ({| str := None; num := - n; len := String.length (print_dec n) |}, t)).
Proof.
  intros Hn Ht. pose proof (match_number_dec n t ltac:(lia) Ht) as Hm.
  assert (Hneg : ∀ s, (∀ s', s ≠ String "-" s') → match_number (String "-" s) =
    (let! r := match_number s in
     Ret (match r with
          | Some (x, rest) => Some ({| str := None; num := - num x; len := len x |}, rest)
          | None => None end))).
  { intros s Hs. unfold match_number. 
    assert (Hs1 : match s with String "-" _ => true | _ => false end = false).
    { destruct s as [|[[] [] [] [] [] [] [] []] s]; first [done|by destruct (Hs s)]. }
    assert (Hs2 : match s with String "-" s' => s' | _ => s end = s).
    { destruct s as [|[[] [] [] [] [] [] [] []] s]; first [done|by destruct (Hs s)]. }
    cbv beta iota. rewrite Hs1, Hs2.
    destruct (match s with String "0" (String "x" s') => _ | _ => _ end) as [base [|a u]]; [done|].
    destruct (convertnumchar a base); [|done].
    destruct (number_loop _ _ _ _) as [[[acc k] rest]|]; done. }
  rewrite Hneg, Hm; [done|]. intros s' Heq.
  pose proof (print_dec_starts n ltac:(lia)) as Hst.
  destruct (print_dec n) as [|a s]; [done|]. injection Heq as -> _. done.
Qed.

Lemma match_loop_number max p n t ps :
  (length ps < max)%nat → 0 ≤ n < 2^63 → ends_number t = true →
  match_loop max (String "#" p) (print_dec n +:+ t) ps =
    match_loop max p t (ps ++ [{| str := None; num := n; len := String.length (print_dec n) |}]).
Proof.
  intros Hl Hn Ht. rewrite match_loop_cons. change (is_star "#") with false.
  change (is_hash "#") with true. cbv iota. destruct (Nat.ltb_spec (length ps) max); [|lia].
  by rewrite match_number_dec.
Qed.

Lemma match_loop_neg_number max p n t ps :
  (length ps < max)%nat → 0 < n < 2^63 → ends_number t = true →
  match_loop max (String "#" p) (String "-" (print_dec n +:+ t)) ps =
    match_loop max p t (ps ++ [{| str := None; num := - n; len := String.length (print_dec n) |}]).
Proof.
  intros Hl Hn Ht. rewrite match_loop_cons. change (is_star "#") with false.
  change (is_hash "#") with true. cbv iota. destruct (Nat.ltb_spec (length ps) max); [|lia].
  by rewrite match_number_neg.
Qed.

(** ** Call sites *)

Lemma read_wrapped_dec wrap M v s t :
  (∀ z, 0 ≤ z < M → wrap z = z) →
  string_forall is_digit s = true → starts_with_digit t = false → 0 ≤ v →
  (read_dec v s).1 < M → read_wrapped wrap v (s +:+ t) = ((read_dec v s).1, t).
Proof.
  intros Hw. revert v. induction s as [|a s IH]; intros v Hs Ht Hv Hb; simpl in *.
  - destruct t as [|b t]; simpl in *; [done|]. by rewrite Ht.
  - apply andb_true_iff in Hs as [Ha Hs]. rewrite Ha in Hb |- *.
    pose proof (is_digit_val a Ha). pose proof (read_dec_mono (v * 10 + digit_val a) s ltac:(lia)).
    replace (10 * v + digit_val a) with (v * 10 + digit_val a) by lia.
    rewrite Hw by lia. apply IH; done || lia.
Qed.

Lemma read_wrapped_small wrap M n t :
  (∀ z, 0 ≤ z < M → wrap z = z) → 0 ≤ n < M → starts_with_digit t = false →
  read_wrapped wrap 0 (print_dec n +:+ t) = (n, t).
Proof.
  intros Hw Hn Ht. pose proof (read_print_dec n "" ltac:(lia) eq_refl) as Hr.
  rewrite string_app_nil_r in Hr.
  rewrite (read_wrapped_dec wrap M); [by rewrite Hr|done|apply print_dec_forall; lia|done|lia|rewrite Hr; simpl; lia].
Qed.

Lemma read_wrapped_print n t :
  0 ≤ n < 2^64 → starts_with_digit t = false → read_wrapped u64 0 (print_dec n +:+ t) = (n, t).
Proof. apply read_wrapped_small, u64_small. Qed.

Lemma read_wrapped_print32 n t :
  0 ≤ n < 2^32 → starts_with_digit t = false → read_wrapped u32 0 (print_dec n +:+ t) = (n, t).
Proof. apply read_wrapped_small, u32_small. Qed.

Lemma skip_spaces_digit s : starts_with_digit s = true → skip_spaces s = s.
Proof.
  destruct s as [|a s]; simpl; [done|]. intros H.
  destruct (Ascii.eqb_spec a " ") as [->|]; done.
Qed.

Lemma starts_print_app n t : 0 ≤ n → starts_with_digit (print_dec n +:+ t) = true.
Proof. intros H. pose proof (print_dec_starts n H). by destruct (print_dec n). Qed.

Lemma callsites_parse_spec l fuel size lineno acc :
  Forall (λ c, 0 ≤ c < 10^10) l → l ≠ [] → (length l < fuel)%nat →
  (length acc + length l ≤ size)%nat →
  callsites_parse_loop fuel size lineno (sites_string true l) acc = Ret (acc ++ l, []).
Proof.
  intros Hl Hne. revert fuel acc. induction Hl as [|x l Hx Hl IH]; intros fuel acc Hf Hs; [done|].
  clear Hne. destruct fuel as [|fuel]; [simpl in Hf; lia|]. simpl in Hf, Hs.
  cbn [callsites_parse_loop sites_string]. change ("" +:+ ?a) with a.
  rewrite skip_spaces_digit, starts_print_app by (try apply starts_print_app; lia). cbn [negb].
  assert (Hnd : starts_with_digit (sites_string false l) = false) by (by destruct l).
  rewrite read_wrapped_print by (done || lia).
  destruct (Nat.ltb_spec (length acc) size); [|lia]. cbn [negb].
  destruct l as [|y l].
  - simpl. done.
  - change (skip_spaces (sites_string false (y :: l))) with
      (String "," (String " " (print_dec y +:+ sites_string false l))). cbv iota beta.
    simpl in Hf, Hs. assert (IH' := IH ltac:(done) fuel (acc ++ [x])).
    rewrite <- app_assoc in IH'. simpl in IH'. rewrite length_app in IH'. simpl in IH'.
    rewrite <- IH' by lia. destruct fuel as [|fuel]; [simpl in Hf; lia|].
    cbn [callsites_parse_loop sites_string skip_spaces]. change (Ascii.eqb " " " ") with true.
    done.
Qed.

Lemma sites_string_long l :
  Forall (λ c, 0 ≤ c < 10^10) l →
  (2 * length l ≤ String.length (sites_string true l) + 1)%nat.
Proof.
  intros Hl. destruct Hl as [|x l Hx Hl]; simpl; [lia|].
  assert (Hf : ∀ l, Forall (λ c, 0 ≤ c < 10^10) l →
    (2 * length l ≤ String.length (sites_string false l))%nat).
  { induction 1 as [|y l' Hy _ IH]; simpl; [lia|]. rewrite string_length_app. lia. }
  specialize (Hf l Hl). rewrite string_length_app.
  pose proof (print_dec_starts x ltac:(lia)). destruct (print_dec x); [done|]. simpl. lia.
Qed.

Lemma parse_sites_string lineno l :
  Forall (λ c, 0 ≤ c < 10^10) l →
  parse_ipc_callsites lineno (sites_string true l) =
    Ret (l, if l is [] then [OStderr (WNoCallsiteId lineno)] else []).
Proof.
  intros Hl. unfold parse_ipc_callsites. destruct l as [|x l]; [done|].
  pose proof (sites_string_long (x :: l) Hl) as Hlong.
  rewrite (callsites_parse_spec (x :: l)); [done|done|done|simpl in *; lia|].
  cbn [length] in *. apply Nat.div_le_lower_bound; lia.
Qed.

Lemma sites_string_no_semicolon first l :
  Forall (λ c, 0 ≤ c < 10^10) l →
  string_forall (λ a, negb (Ascii.eqb a ";")) (sites_string first l) = true.
Proof.
  intros Hl. revert first. induction Hl as [|x l Hx _ IH]; intros first; [done|].
  cbn [sites_string]. rewrite !string_forall_app, IH, andb_true_r. apply andb_true_iff. split.
  - by destruct first.
  - eapply string_forall_impl; [|apply print_dec_forall; lia].
    intros a Ha. apply negb_true_iff. by destruct (Ascii.eqb_spec a ";") as [->|].
Qed.

(** ** Messages of the runtime *)

(** The module an event of the recovery runtime is about. *)
Definition call_module (x : call) : option string :=
  match x with
  | print_ltckpt _ _ name => Some name
  | print_ltckpt_closed _ name => Some name
  | print_ltckpt_closed_ipc_callsites name _ _ _ => Some name
  | _ => None
  end.

(** The reader delivers [x] for the log line [l]. *)
Definition delivers (l : string) (x : call) : Prop :=
  ∀ cb st lineno, ∃ warnings,
    process_line cb st lineno ("print " +:+ l) =
      Ret (warnings ++ (if cb (callback_of x) then [OCall st x] else [])) ∧
    Forall (λ o, match o with OStderr _ => True | OCall _ _ => False end) warnings.

Definition understood (name l : string) : Prop :=
  ∃ x, delivers l x ∧ call_module x = Some name.

Lemma text_at_param ps i s : ps !! i = Some (text_param s) → text_at ps i = s.
Proof. unfold text_at, nth_param. intros ->. simpl. by apply str_take_all. Qed.

(** The messages without parameters and their events. *)
Definition plain_messages : list (string * handler * (string → call)) :=
  let failed := print_ltckpt ls_failure in
  let success := print_ltckpt ls_success in
  [("ltckpt recovery: start recovery attempt", logparse_line_handler_print_ltckpt_start, print_ltckpt ls_start lm_generic);
   ("ltckpt recovery: success: RS_FI_CUSTOM", logparse_line_handler_print_ltckpt_success_service_fi, success lm_service_fi);
   ("ltckpt recovery: window closed: reason unknown", logparse_line_handler_print_ltckpt_closed_unknown, print_ltckpt_closed lcr_unknown);
   (fail_stop_reason, logparse_line_handler_print_ltckpt_closed_ipc, print_ltckpt_closed lcr_ipc);
   (writelog_full_reason, logparse_line_handler_print_ltckpt_closed_writelog_full, print_ltckpt_closed lcr_writelog_full);
   ("ltckpt recovery: failed: invalid g_recovery_bitmask bitmask", logparse_line_handler_print_ltckpt_failed, failed lm_generic);
   ("ltckpt recovery: failed: havent handled message", logparse_line_handler_print_ltckpt_failed, failed lm_generic);
   ("ltckpt recovery: failed: bad ltckpt_is_message_replyable result", logparse_line_handler_print_ltckpt_failed, failed lm_generic);
   ("ltckpt recovery: shutdown", logparse_line_handler_print_ltckpt_shutdown, print_ltckpt ls_shutdown lm_generic);
   ("ltckpt recovery: shutdown: fail_stop", logparse_line_handler_print_ltckpt_shutdown_failstop, print_ltckpt ls_shutdown lm_failstop);
   ("ltckpt recovery: failed: idempotent: sef_get_current_message() not available", logparse_line_handler_print_ltckpt_failed_idempotent, failed lm_idempotent);
   ("ltckpt recovery: failed: idempotent: unable to fetch last handled message", logparse_line_handler_print_ltckpt_failed_idempotent, failed lm_idempotent);
   ("ltckpt recovery: failed: idempotent: unreplyable request", logparse_line_handler_print_ltckpt_failed_idempotent, failed lm_idempotent);
   ("ltckpt recovery: failed: idempotent: couldn't send error message", logparse_line_handler_print_ltckpt_failed_idempotent, failed lm_idempotent);
   ("ltckpt recovery: success: idempotent", logparse_line_handler_print_ltckpt_success_idempotent, success lm_idempotent);
   ("ltckpt recovery: failed: process_specific: unable to find necessary sef_llvm method", logparse_line_handler_print_ltckpt_failed_process_specific, failed lm_process_specific);
   ("ltckpt recovery: failed: process_specific: unable to fetch last handled message", logparse_line_handler_print_ltckpt_failed_process_specific, failed lm_process_specific);
   ("ltckpt recovery: success: killed user process", logparse_line_handler_print_ltckpt_success_process_specific, success lm_process_specific);
   ("ltckpt recovery: success: user process is invalid", logparse_line_handler_print_ltckpt_success_process_specific, success lm_process_specific);
   ("ltckpt recovery: failed: process_specific: unable to kill user process", logparse_line_handler_print_ltckpt_failed_process_specific, failed lm_process_specific);
   ("ltckpt recovery: failed: process_specific: unable to send reply", logparse_line_handler_print_ltckpt_failed_process_specific, failed lm_process_specific);
   ("ltckpt recovery: failed: process_specific: error in figuring out whether source was user process", logparse_line_handler_print_ltckpt_failed_process_specific, failed lm_process_specific);
   ("ltckpt recovery: start: writelog", logparse_line_handler_print_ltckpt_start_writelog, print_ltckpt ls_start lm_writelog);
   ("ltckpt recovery: failed: writelog: sys_safecopyto failed", logparse_line_handler_print_ltckpt_failed_writelog, failed lm_writelog);
   ("ltckpt recovery: failed: writelog: identity state transfer failed", logparse_line_handler_print_ltckpt_failed_writelog, failed lm_writelog);
   (msg_addr_failed, logparse_line_handler_print_ltckpt_failed_writelog, failed lm_writelog);
   (msg_region_failed, logparse_line_handler_print_ltckpt_failed_writelog, failed lm_writelog)].

(** The text of a message's entry in the pattern table before the [*]. *)
Definition plain_prefix (msg : string) : string := "print " +:+ msg +:+ "; module=".

(** Entry and handler of a message, by computation over the table. *)
Definition plain_ok (x : string * handler * (string → call)) : Prop :=
  let '(msg, h, k) := x in
  literal (plain_prefix msg) = true ∧ (String.length msg < 1000)%nat ∧
  hd_error (drop_fails (plain_prefix msg) logparse_line_patterns) = Some (h, plain_prefix msg +:+ "*") ∧
  (∀ cb lineno st ps, map kind ps = [true] → h cb lineno st ps = call_if cb st (k (text_at ps 0))) ∧
  (∀ n, call_module (k n) = Some n).

Lemma plain_messages_ok : Forall plain_ok plain_messages.
Proof.
  unfold plain_messages.
  repeat (apply Forall_cons_2;
    [unfold plain_ok; split_and!;
      [reflexivity | apply Nat.ltb_lt; reflexivity | reflexivity
      | intros cb ln st ps Hk; destruct ps as [|[[?|] ? ?] [|]]; try discriminate Hk; reflexivity
      | reflexivity]|]).
  apply Forall_nil_2.
Qed.

Lemma plain_delivers msg h k name :
  (msg, h, k) ∈ plain_messages → (String.length name < 10)%nat →
  delivers (hypermem_log name msg) (k name) ∧ call_module (k name) = Some name.
Proof.
  intros Hin Hn. pose proof plain_messages_ok as Hall. rewrite Forall_forall in Hall.
  destruct (Hall _ Hin) as (Hlit & Hlen & Hent & Hh & Hk). split; [|done].
  intros cb st ln. exists []. split; [|apply Forall_nil_2].
  rewrite hypermem_log_short by lia. unfold process_line.
  replace ("print " +:+ msg +:+ "; module=" +:+ name) with (plain_prefix msg +:+ name)
    by (unfold plain_prefix; by rewrite !string_app_assoc).
  rewrite (patterns_match_final_star (plain_prefix msg) h name Hlit Hent). cbn [res_bind].
  rewrite Hh by done. by rewrite (text_at_param [text_param name] 0 name).
Qed.

(** A line whose entry in the table is [lit] followed by the pattern [p]. *)
Lemma patterns_match_entry lit p h line ps :
  literal lit = true → hd_error (drop_fails lit logparse_line_patterns) = Some (h, lit +:+ p) →
  match_loop PATTERN_PARAM_COUNT_MAX p line [] = Ret (Some ps) →
  patterns_match logparse_line_patterns (lit +:+ line) = Ret (Some (h, lit +:+ p, ps)).
Proof.
  intros Hl Hh Hm. rewrite patterns_match_drop.
  destruct (drop_fails lit logparse_line_patterns) as [|hp table]; [done|].
  simpl in Hh. injection Hh as ->. cbn [patterns_match]. unfold pattern_match.
  rewrite match_loop_literal by done. rewrite Hm. done.
Qed.

Definition num_param (n : Z) : param :=
  {| str := None; num := n; len := String.length (print_dec n) |}.

(** The tail [; module=*] of the patterns. *)
Lemma match_module ps name :
  (length ps < PATTERN_PARAM_COUNT_MAX)%nat →
  match_loop PATTERN_PARAM_COUNT_MAX "; module=*" ("; module=" +:+ name) ps =
    Ret (Some (ps ++ [text_param name])).
Proof.
  intros H. change "; module=*" with ("; module=" +:+ "*").
  rewrite match_loop_literal by done. by apply match_loop_final_star.
Qed.

Lemma sites_line_delivers name total l :
  small_sites l → 0 ≤ total < 2^63 → (String.length name < 10)%nat →
  ∀ cb st lineno,
  process_line cb st lineno ("print " +:+ hypermem_log name (sites_line total l)) =
    Ret (if cb cb_print_ltckpt_closed_ipc_callsites then
           (if l is [] then [OStderr (WNoCallsiteId lineno)] else []) ++
           [OCall st (print_ltckpt_closed_ipc_callsites name total (Z.of_nat (length l)) l)]
         else []).
Proof.
  intros [Hl Hlen] Ht Hn cb st ln. unfold RECOVERY_BITMASK_CALLSITE_COUNT in Hlen.
  pose proof (print_dec_length total 18 ltac:(simpl; lia)) as Hp.
  pose proof (print_dec_length (Z.of_nat (length l)) 1 ltac:(simpl; lia)) as Hq.
  pose proof (sites_string_length true l Hl) as Hsl.
  rewrite hypermem_log_short.
  2:{ unfold sites_line. rewrite !string_length_app. simpl String.length. lia. }
  unfold sites_line. rewrite !string_app_assoc.
  change ("print " +:+ ("ltckpt recovery: window closed " +:+ ?r))
    with ("print ltckpt recovery: window closed " +:+ r).
  unfold process_line.
  rewrite (patterns_match_entry "print ltckpt recovery: window closed "
    "# times from # callsite(s): *; module=*"
    logparse_line_handler_print_ltckpt_closed_ipc_callsites _
    [num_param total; num_param (Z.of_nat (length l));
     {| str := Some (sites_string true l +:+ "; module=" +:+ name); num := 0;
        len := String.length (sites_string true l) |}; text_param name] eq_refl eq_refl).
  2:{ rewrite match_loop_number by (done || (simpl; unfold PATTERN_PARAM_COUNT_MAX; lia)).
      change " times from # callsite(s): *; module=*" with
        (" times from " +:+ "# callsite(s): *; module=*").
      rewrite match_loop_literal by done.
      rewrite match_loop_number by (done || (simpl; unfold PATTERN_PARAM_COUNT_MAX; lia)).
      change " callsite(s): *; module=*" with (" callsite(s): " +:+ "*; module=*").
      rewrite match_loop_literal by done. rewrite match_loop_cons.
      change (head "; module=*") with (Some ";"%char).
      change ("; module=" +:+ name) with (String ";" (" module=" +:+ name)).
      rewrite scan_until_stop by (by apply sites_string_no_semicolon).
      change (is_star "*") with true. cbv iota. cbn [app length Nat.ltb Nat.leb PATTERN_PARAM_COUNT_MAX].
      cbn [fst snd]. change (String ";" (" module=" +:+ name)) with ("; module=" +:+ name).
      rewrite match_module by (simpl; unfold PATTERN_PARAM_COUNT_MAX; lia). done. }
  cbn [res_bind]. unfold logparse_line_handler_print_ltckpt_closed_ipc_callsites.
  unfold is_str, count_is, nth_param. simpl.
  destruct (cb cb_print_ltckpt_closed_ipc_callsites); simpl; [|done].
  unfold text_at, nth_param. simpl.
  replace (str_take (String.length (sites_string true l)) _) with (sites_string true l).
  2:{ clear. induction (sites_string true l) as [|a s IH]; [done|]. simpl. by rewrite <- IH. }
  rewrite parse_sites_string by done. simpl. rewrite str_take_all by done. done.
Qed.

(** The text of a number as the runtime prints it. *)
Definition print_signed (n : Z) : string :=
  if n <? 0 then String "-" (print_dec (- n)) else print_dec n.

Lemma match_loop_signed max p n t ps :
  (length ps < max)%nat → -2^63 < n < 2^63 → ends_number t = true →
  ∃ len, match_loop max (String "#" p) (print_signed n +:+ t) ps =
    match_loop max p t (ps ++ [{| str := None; num := n; len := len |}]).
Proof.
  intros Hl Hn Ht. unfold print_signed. destruct (Z.ltb_spec n 0).
  - eexists. simpl String.append. rewrite match_loop_neg_number by (done || lia).
    by rewrite Z.opp_involutive.
  - eexists. by rewrite match_loop_number by (done || lia).
Qed.

Lemma nonreplyable_text_spec mt :
  -2^31 ≤ mt < 2^31 →
  nonreplyable_text mt LTCKPT_RECOVERY_FAILURE =
    Ret ("ltckpt recovery: failed: non-replyable message: " +:+ print_signed mt).
Proof.
  intros H. unfold nonreplyable_text, print_signed.
  change (if LTCKPT_RECOVERY_FAILURE =? LTCKPT_RECOVERY_SUCCESS then "success" else "failed")
    with "failed".
  destruct (Z.ltb_spec mt 0).
  - rewrite hypermem_cat_num_neg by lia.
    pose proof (print_dec_length (- mt) 9 ltac:(simpl; lia)). cat_short. done.
  - rewrite hypermem_cat_num_ok by lia.
    pose proof (print_dec_length mt 9 ltac:(simpl; lia)). cat_short. done.
Qed.

Lemma nonreplyable_delivers name mt :
  -2^31 ≤ mt < 2^31 → (String.length name < 10)%nat →
  delivers (hypermem_log name ("ltckpt recovery: failed: non-replyable message: " +:+ print_signed mt))
    (print_ltckpt ls_failure lm_generic name).
Proof.
  intros Hm Hn cb st ln. exists []. split; [|apply Forall_nil_2].
  assert (Hp : (String.length (print_signed mt) ≤ 11)%nat).
  { unfold print_signed. destruct (Z.ltb_spec mt 0); simpl.
    - pose proof (print_dec_length (- mt) 9 ltac:(simpl; lia)). lia.
    - pose proof (print_dec_length mt 9 ltac:(simpl; lia)). lia. }
  rewrite hypermem_log_short by (rewrite !string_length_app; simpl String.length; lia).
  rewrite !string_app_assoc. unfold process_line.
  destruct (match_loop_signed PATTERN_PARAM_COUNT_MAX "; module=*" mt ("; module=" +:+ name) [])
    as [len Hlen]; [simpl; unfold PATTERN_PARAM_COUNT_MAX; lia|lia|done|].
  rewrite match_module in Hlen by (simpl; unfold PATTERN_PARAM_COUNT_MAX; lia).
  change ("print " +:+ ("ltckpt recovery: failed: non-replyable message: " +:+ ?r))
    with ("print ltckpt recovery: failed: non-replyable message: " +:+ r).
  rewrite (patterns_match_entry "print ltckpt recovery: failed: non-replyable message: "
    "#; module=*" logparse_line_handler_print_ltckpt_failed_message _ _ eq_refl eq_refl Hlen).
  cbn [res_bind]. unfold logparse_line_handler_print_ltckpt_failed_message.
  unfold is_str, count_is, nth_param. simpl. unfold call_if, text_at, nth_param. simpl.
  by rewrite str_take_all.
Qed.

(** ** Every message of a recovery is understood *)

Section Dispatcher.
Context (k : cfg) (e : env) (name : string).

(** The globals a log line is made from. *)
Record loggable (s : rstate) : Prop := {
  lg_name : Recover.g_module_name s = name;
  lg_short : (String.length name < 10)%nat;
  lg_reason : g_recovery_bitmask_reason (rwin s) ∈
                [None; Some fail_stop_reason; Some writelog_full_reason];
  lg_sites : small_sites (Recover.callsites s);
  lg_total : 0 ≤ g_recovery_bitmask_total_count s < 2^63;
}.

Definition effect_ok (x : effect) : Prop :=
  match x with ELog l => understood name l | _ => True end.

(** From a loggable state the action logs only what is understood. *)
Definition quiet {A} (m : action A) : Prop :=
  ∀ s es r s' es', loggable s → Forall effect_ok es → m s es = Ret (r, s', es') →
    loggable s' ∧ Forall effect_ok es'.

Lemma quiet_ret {A} (x : A) : quiet (mret x).
Proof. intros s es r s' es' Hs He [= <- <- <-]. done. Qed.

Lemma quiet_bind {A B} (m : action A) (f : A → action B) :
  quiet m → (∀ x, quiet (f x)) → quiet (m ≫= f).
Proof.
  intros Hm Hf s es r s' es' Hs He H. unfold mbind, action_bind in H.
  apply res_bind_inv in H as ([[x s1] es1] & H1 & H2). simpl in H2.
  destruct (Hm _ _ _ _ _ Hs He H1). eapply Hf; eauto.
Qed.

(** Reading the state, with what is known of it. *)
Lemma quiet_get {B} (f : rstate → action B) :
  (∀ s, loggable s → quiet (f s)) → quiet (get ≫= f).
Proof.
  intros Hf s es r s' es' Hs He H. unfold mbind, action_bind, get in H. simpl in H.
  by eapply (Hf s).
Qed.

Lemma quiet_log msg h kk : (msg, h, kk) ∈ plain_messages → quiet (log msg).
Proof.
  intros Hin s es r s' es' Hs He H. unfold log in H. act. injection H as <- <- <-.
  split; [done|]. apply Forall_app_2; [done|]. apply Forall_cons_2; [|apply Forall_nil_2].
  destruct Hs as [Hn Hshort _ _ _]. rewrite Hn.
  exists (kk name). by eapply plain_delivers.
Qed.

Lemma quiet_emit x : effect_ok x → quiet (emit x).
Proof.
  intros Hx s es r s' es' Hs He [= <- <- <-]. split; [done|]. apply Forall_app_2; [done|].
  by apply Forall_cons_2; [|apply Forall_nil_2].
Qed.

Lemma quiet_lift {A} (m : res A) : quiet (lift m).
Proof.
  intros s es r s' es' Hs He H. unfold lift in H. destruct m; [|done].
  by injection H as <- <- <-.
Qed.

Lemma loggable_win s w :
  loggable s → g_recovery_bitmask_reason w = g_recovery_bitmask_reason (rwin s) →
  loggable (upd_win s w).
Proof. intros [] Hw. constructor; simpl; try done. by rewrite Hw. Qed.

Lemma loggable_tcb s b : loggable s → loggable (upd_tcb s b).
Proof. intros []. by constructor. Qed.

Lemma quiet_put s : loggable s → quiet (put s).
Proof. intros Hs s0 es r s' es' _ He [= <- <- <-]. done. Qed.

Ltac known_message :=
  eapply quiet_log; unfold plain_messages;
  repeat first [apply list_elem_of_here | apply list_elem_of_further].

Ltac quiet_step :=
  first
    [ apply quiet_ret
    | known_message
    | apply quiet_lift
    | apply quiet_emit; exact I
    | apply quiet_get; intros ? ?
    | apply quiet_bind; [|intros ?]
    | match goal with |- quiet (if ?b then _ else _) => destruct b end ].

Lemma quiet_send_reply m : quiet (ltckpt_send_reply e m).
Proof. unfold ltckpt_send_reply. repeat quiet_step. Qed.

Lemma quiet_idempotent : quiet (ltckpt_recovery_idempotent k e).
Proof.
  unfold ltckpt_recovery_idempotent.
  destruct (sef_get_current_message e) as [[[m rp]|]|]; repeat quiet_step.
  apply quiet_put. by apply loggable_win.
Qed.

Lemma quiet_process_specific : quiet (ltckpt_recovery_process_specific e).
Proof.
  unfold ltckpt_recovery_process_specific.
  destruct (sef_get_current_message e) as [[[m rp]|]|], (sef_llvm_is_user_endpoint e) as [u|];
    repeat quiet_step.
Qed.

Lemma quiet_fail_stop : quiet (ltckpt_recovery_fail_stop e).
Proof. unfold ltckpt_recovery_fail_stop. repeat quiet_step. Qed.

Lemma quiet_log_callsites : quiet hypermem_log_callsites.
Proof.
  unfold hypermem_log_callsites. apply quiet_get. intros s1 H1 s es r s' es' Hs He H. act.
  rewrite callsites_text_spec in H by apply H1. simpl in H. injection H as <- <- <-.
  split; [done|]. apply Forall_app_2; [done|]. apply Forall_cons_2; [|apply Forall_nil_2].
  destruct Hs as [Hn Hshort _ _ _]. rewrite Hn.
  exists (print_ltckpt_closed_ipc_callsites name (g_recovery_bitmask_total_count s1)
    (Z.of_nat (length (Recover.callsites s1))) (Recover.callsites s1)).
  split; [|reflexivity]. intros cb st ln. rewrite sites_line_delivers by (done || apply H1). simpl callback_of.
  destruct (cb cb_print_ltckpt_closed_ipc_callsites).
  - eexists. split; [done|]. destruct (Recover.callsites s1); repeat constructor.
  - exists []. split; [done|constructor].
Qed.

Lemma quiet_log_nonreplyable mt :
  -2^31 ≤ mt < 2^31 → quiet (hypermem_log_nonreplyable mt LTCKPT_RECOVERY_FAILURE).
Proof.
  intros Hm s es r s' es' Hs He H. unfold hypermem_log_nonreplyable in H. act.
  rewrite nonreplyable_text_spec in H by done. simpl in H. injection H as <- <- <-.
  split; [done|]. apply Forall_app_2; [done|]. apply Forall_cons_2; [|apply Forall_nil_2].
  destruct Hs as [Hn Hshort _ _ _]. rewrite Hn.
  exists (print_ltckpt ls_failure lm_generic name). split; [by apply nonreplyable_delivers|done].
Qed.

Lemma quiet_policy : quiet (dispatch_policy k e).
Proof.
  unfold dispatch_policy. apply quiet_get. intros s Hs.
  destruct (has_mask _ LTCKPT_RECOVERY_MASK_FAIL_STOP).
  - apply quiet_bind; [|intros _; apply quiet_bind; [apply quiet_log_callsites|intros _; apply quiet_fail_stop]].
    destruct Hs as [_ _ Hr _ _]. apply list_elem_of_In in Hr. simpl in Hr.
    destruct Hr as [<-|[<-|[<-|[]]]]; simpl default; known_message.
  - destruct (has_mask _ LTCKPT_RECOVERY_MASK_PROCESS_SPECIFIC); [apply quiet_process_specific|].
    destruct (has_mask _ LTCKPT_RECOVERY_MASK_REQUEST_SPECIFIC); [apply quiet_idempotent|].
    destruct (has_mask _ LTCKPT_RECOVERY_MASK_IDEMPOTENT); [apply quiet_idempotent|].
    repeat quiet_step.
Qed.

Lemma quiet_replyable rp mt : -2^31 ≤ mt < 2^31 → quiet (dispatch_replyable k e rp mt).
Proof.
  intros Hm. unfold dispatch_replyable. destruct (rp =? 1); [apply quiet_policy|].
  destruct (rp =? 0); [|destruct (rp =? -1); repeat quiet_step].
  apply quiet_bind; [by apply quiet_log_nonreplyable|intros _; apply quiet_ret].
Qed.

Lemma quiet_dispatcher : env_ok e → quiet (ltckpt_recovery_dispatcher k e).
Proof.
  intros [_ Hm]. unfold ltckpt_recovery_dispatcher.
  assert (Hmt : -2^31 ≤ (ltckpt_is_message_replyable e 0).2 < 2^31).
  { unfold ltckpt_is_message_replyable.
    destruct (sef_get_current_message e) as [[[m rp]|]|] eqn:E; simpl; [|lia..]. by eapply Hm. }
  destruct (ltckpt_is_message_replyable e 0) as [[rp fi] mt]. simpl in Hmt.
  apply quiet_bind; [known_message|intros _]. apply quiet_get. intros s Hs.
  apply quiet_bind; [by apply quiet_put, loggable_tcb|intros _].
  destruct (_ && fi); [repeat quiet_step|].
  apply quiet_bind; [by apply quiet_replyable|intros r].
  match goal with |- quiet (if ?b then _ else _) => destruct b end; repeat quiet_step.
Qed.
End Dispatcher.

(** C34: the log of a recovery is understood.  Every line the dispatcher logs, on
    any path, is recognised by the log reader and delivered (to whoever listens)
    as an event of the recovering module, with nothing but warnings besides. *)
Theorem dispatcher_log_understood k e name s r s' es l :
  env_ok e → loggable name s → ltckpt_recovery_dispatcher k e s [] = Ret (r, s', es) →
  ELog l ∈ es → understood name l.
Proof.
  intros He Hs H Hin.
  destruct (quiet_dispatcher k e name He s [] r s' es Hs (Forall_nil_2 _) H) as [_ Hall].
  rewrite Forall_forall in Hall. exact (Hall _ Hin).
Qed.

(** The event that reports why the window was closed. *)
Definition callsites_event (s : rstate) : call :=
  print_ltckpt_closed_ipc_callsites (Recover.g_module_name s) (g_recovery_bitmask_total_count s)
    (Z.of_nat (length (Recover.callsites s))) (Recover.callsites s).

(** The call sites that closed the window survive the log: what
    [hypermem_log_callsites] prints, the reader parses back into the same module,
    count and list of sites.  With no site (the undo log closed the window) the
    reader also prints a warning. *)
Theorem callsites_roundtrip s cb st lineno line :
  small_sites (Recover.callsites s) → 0 ≤ g_recovery_bitmask_total_count s < 2^63 →
  (String.length (Recover.g_module_name s) < 10)%nat →
  cb cb_print_ltckpt_closed_ipc_callsites = true →
  hypermem_log_callsites s [] = Ret (tt, s, [ELog line]) →
  process_line cb st lineno ("print " +:+ line) =
    Ret ((if Recover.callsites s is [] then [OStderr (WNoCallsiteId lineno)] else []) ++
         [OCall st (callsites_event s)]).
Proof.
  intros Hs Ht Hn Hcb H.
  assert (line = hypermem_log (Recover.g_module_name s)
    (sites_line (g_recovery_bitmask_total_count s) (Recover.callsites s))) as ->.
  { unfold hypermem_log_callsites in H. act. rewrite callsites_text_spec in H by done.
    simpl in H. by injection H. }
  rewrite sites_line_delivers by done. by rewrite Hcb.
Qed.

(** ** Messages of the undo log *)

Lemma success_message_spec n st :
  0 ≤ st ≤ n → n < 2^63 →
  success_message n st =
    Ret ("ltckpt recovery: success: writelog: " +:+ print_dec (n - st) +:+ " log entries, " +:+
         print_dec st +:+ " stack entries").
Proof.
  intros Hst Hn. unfold success_message.
  pose proof (print_dec_length (n - st) 18 ltac:(simpl; lia)).
  pose proof (print_dec_length st 18 ltac:(simpl; lia)).
  cat_short. rewrite hypermem_cat_num_ok, res_bind_Ret by lia.
  cat_short. rewrite hypermem_cat_num_ok, res_bind_Ret by lia. cat_short.
  by rewrite !string_app_assoc.
Qed.

(** The success message of the restart hook is delivered as the success of
    the undo log of its module, whatever the numbers of entries. *)
Theorem writelog_success_understood name n st msg :
  0 ≤ st ≤ n → n < 2^63 → (String.length name < 10)%nat →
  success_message n st = Ret msg →
  delivers (hypermem_log name msg) (print_ltckpt ls_success lm_writelog name).
Proof.
  intros Hst Hb Hn H. rewrite success_message_spec in H by done.
  match type of H with Ret ?t = _ => assert (msg = t) as -> by congruence end. clear H.
  intros cb cst ln. exists []. split; [|apply Forall_nil_2].
  pose proof (print_dec_length (n - st) 18 ltac:(simpl; lia)).
  pose proof (print_dec_length st 18 ltac:(simpl; lia)).
  rewrite hypermem_log_short by (rewrite !string_length_app; simpl String.length; lia).
  rewrite !string_app_assoc. unfold process_line.
  change ("print " +:+ ("ltckpt recovery: success: writelog: " +:+ ?r))
    with ("print ltckpt recovery: success: writelog: " +:+ r).
  rewrite (patterns_match_entry "print ltckpt recovery: success: writelog: "
    "# log entries, # stack entries; module=*" logparse_line_handler_print_ltckpt_success_writelog _
    [num_param (n - st); num_param st; text_param name] eq_refl eq_refl).
  2:{ rewrite match_loop_number by (done || lia || (simpl; unfold PATTERN_PARAM_COUNT_MAX; lia)).
      change " log entries, # stack entries; module=*" with
        (" log entries, " +:+ "# stack entries; module=*").
      rewrite match_loop_literal by done.
      rewrite match_loop_number by (done || lia || (simpl; unfold PATTERN_PARAM_COUNT_MAX; lia)).
      change " stack entries; module=*" with (" stack entries" +:+ "; module=*").
      rewrite match_loop_literal by done.
      rewrite match_module by (simpl; unfold PATTERN_PARAM_COUNT_MAX; lia). done. }
  cbn [res_bind]. unfold logparse_line_handler_print_ltckpt_success_writelog.
  unfold is_str, count_is, nth_param. simpl. unfold call_if, text_at, nth_param. simpl.
  by rewrite str_take_all.
Qed.

(** ** Examples *)

Lemma recover_env_ok : env_ok Recover.demo_env.
Proof. split; [done|]. intros m rp [= <- <-]. simpl. lia. Qed.

Lemma demo_loggable : loggable "pm" demo_closed.
Proof.
  constructor.
  - vm_compute. reflexivity.
  - simpl. lia.
  - change (g_recovery_bitmask_reason (rwin demo_closed)) with (Some fail_stop_reason).
    right. left.
  - split; [|vm_compute; lia]. change (Recover.callsites demo_closed) with [5].
    apply Forall_cons_2; [lia|apply Forall_nil_2].
  - change (g_recovery_bitmask_total_count demo_closed) with 1. lia.
Qed.

Lemma dispatcher_log_understood_witness :
  understood "pm" "ltckpt recovery: shutdown: fail_stop; module=pm".
Proof.
  apply (dispatcher_log_understood demo_cfg Recover.demo_env "pm" demo_closed _ _ _ _
    recover_env_ok demo_loggable (demo_run_eq demo_closed demo_closed_ret)).
  apply list_elem_of_In. vm_compute. tauto.
Defined.

Lemma callsites_roundtrip_witness :
  process_line all_callbacks {| timestamp := {| tv_sec := 0; tv_usec := 0 |}; cb_lineno := 1 |} 2
    "print ltckpt recovery: window closed 1 times from 1 callsite(s): 5; module=pm" =
  Ret [OCall {| timestamp := {| tv_sec := 0; tv_usec := 0 |}; cb_lineno := 1 |}
         (print_ltckpt_closed_ipc_callsites "pm" 1 1 [5])].
Proof.
  apply (callsites_roundtrip demo_closed all_callbacks _ 2
    "ltckpt recovery: window closed 1 times from 1 callsite(s): 5; module=pm").
  - apply (lg_sites _ _ demo_loggable).
  - apply (lg_total _ _ demo_loggable).
  - vm_compute. lia.
  - reflexivity.
  - vm_compute. reflexivity.
Defined.

Lemma writelog_success_understood_witness :
  delivers "ltckpt recovery: success: writelog: 3 log entries, 1 stack entries; module=pm"
    (print_ltckpt ls_success lm_writelog "pm").
Proof.
  apply (writelog_success_understood "pm" 4 1
    "ltckpt recovery: success: writelog: 3 log entries, 1 stack entries");
    [lia|lia|simpl; lia|vm_compute; reflexivity].
Defined.
