(* ===== verification/Edfi.v ===== *)
(** * The EDFI fault-injection runtime: [edfi/df/edfi_df.c]

    The decision points, commands, statistics and libcall wrappers that the EDFI
    pass links into an instrumented program.  The platform (random numbers, the
    clock, the loader of decision libraries) is a parameter with its own state. *)

From Stdlib Require Import ZArith Lia Ascii String.
From stdpp Require Import base list numbers strings.
From S2P Require Import Prelude Decimal LogFmt Runtime.

(** ** Data of [edfi/common.h] *)

Record fault_type_stats := {
  ft_name : string;
  bb_num_injected : list Z;
  bb_num_candidates : list Z;
}.

(** [edfi_context_conf_t], without the printed-only [fault_prob]. *)
Record edfi_context_conf_t := {
  fault_prob_randmax : Z;         (** unsigned long *)
  min_fdp_interval : Z;           (** int *)
  faulty_bb_index : Z;            (** int *)
  min_fault_time_interval : Z;    (** unsigned int *)
  max_time : Z;                   (** unsigned int *)
  max_faults : Z;                 (** unsigned long long *)
  rand_seed : Z;
  dflib_path : string;
}.

(** [edfi_context_t]; [bb_num_executions] has a canary at either end. *)
Record edfi_context_t := {
  fault_fdp_count : Z;
  fault_time : Z;
  start_time : Z;
  total_faults : Z;
  fault_types : list fault_type_stats;
  bb_num_executions : list Z;
  bb_num_faults : list Z;
  num_bbs : Z;
  c : edfi_context_conf_t;
}.

Inductive edfi_ctl_cmd :=
| EDFI_CTL_CMD_STOP | EDFI_CTL_CMD_START | EDFI_CTL_CMD_TEST | EDFI_CTL_CMD_STAT
| EDFI_CTL_CMD_UPDATE | EDFI_CTL_UNKNOWN (code : Z).

(** Compile-time switches: size of [unsigned long], [EDFI_COUNT_ALL_BLOCKS]. *)
Record build := { sz : Z; count_all_blocks : bool }.

(** ** The platform *)

Class platform (P : Type) := {
  edfi_rand : P → Z * P;                  (** [int edfi_rand ()] *)
  edfi_srand : Z → P → P;
  edfi_getcurrtime_ns : P → Z * P;
  edfi_load_dflib : string → P → Z * P;
}.

(** What the runtime relies on: a nonnegative [int] and a 64-bit time. *)
Class platform_ok (P : Type) `{platform P} : Prop := {
  rand_range : ∀ p, 0 ≤ (edfi_rand p).1 < 2^31;
  time_range : ∀ p, 0 ≤ (edfi_getcurrtime_ns p).1 < 2^64;
}.

Section Edfi.
Context {P : Type} `{platform P} (b : build).

(** The globals of [edfi_df.c]. *)
Record edfi := {
  edfi_onfdp_count : Z;
  edfi_faultinjection_enabled : bool;
  edfi_faultinjection_enabled_version : Z;
  edfi_last_fault_time : Z;
  edfi_context : edfi_context_t;
  plat : P;
}.

Definition set_count (s : edfi) (n : Z) : edfi :=
  Build_edfi (ulong (sz b) n) (edfi_faultinjection_enabled s) (edfi_faultinjection_enabled_version s)
    (edfi_last_fault_time s) (edfi_context s) (plat s).
Definition set_last (s : edfi) (t : Z) : edfi :=
  Build_edfi (edfi_onfdp_count s) (edfi_faultinjection_enabled s)
    (edfi_faultinjection_enabled_version s) (ulong (sz b) t) (edfi_context s) (plat s).
Definition set_ctx (s : edfi) (x : edfi_context_t) : edfi :=
  Build_edfi (edfi_onfdp_count s) (edfi_faultinjection_enabled s)
    (edfi_faultinjection_enabled_version s) (edfi_last_fault_time s) x (plat s).
Definition set_plat (s : edfi) (p : P) : edfi :=
  Build_edfi (edfi_onfdp_count s) (edfi_faultinjection_enabled s)
    (edfi_faultinjection_enabled_version s) (edfi_last_fault_time s) (edfi_context s) p.
Definition set_enabled (s : edfi) (e : bool) (v : Z) : edfi :=
  Build_edfi (edfi_onfdp_count s) e v (edfi_last_fault_time s) (edfi_context s) (plat s).

Definition ctx_times (x : edfi_context_t) (fdp ftime stime total : Z) : edfi_context_t :=
  Build_edfi_context_t fdp ftime stime total (fault_types x) (bb_num_executions x)
    (bb_num_faults x) (num_bbs x) (c x).
Definition ctx_execs (x : edfi_context_t) (l : list Z) : edfi_context_t :=
  Build_edfi_context_t (fault_fdp_count x) (fault_time x) (start_time x) (total_faults x)
    (fault_types x) l (bb_num_faults x) (num_bbs x) (c x).
Definition ctx_conf (x : edfi_context_t) (k : edfi_context_conf_t) : edfi_context_t :=
  Build_edfi_context_t (fault_fdp_count x) (fault_time x) (start_time x) (total_faults x)
    (fault_types x) (bb_num_executions x) (bb_num_faults x) (num_bbs x) k.

Definition now (s : edfi) : Z * edfi :=
  let '(t, p) := edfi_getcurrtime_ns (plat s) in (t, set_plat s p).
Definition rand (s : edfi) : Z * edfi :=
  let '(r, p) := edfi_rand (plat s) in (r, set_plat s p).

Definition conf (s : edfi) : edfi_context_conf_t := c (edfi_context s).

(** ** Decision points *)

Definition edfi_onstart_default (s : edfi) : edfi :=
  let x := edfi_context s in
  let s := set_ctx s (ctx_times x (min_fdp_interval (c x)) (fault_time x) (start_time x) (total_faults x)) in
  let '(t, s) := now s in
  let x := edfi_context s in
  set_ctx s (ctx_times x (fault_fdp_count x) (fault_time x) t (total_faults x)).

Definition edfi_onfdp_min_fdp_interval (s : edfi) : Z * edfi :=
  let x := edfi_context s in
  if (0 <? min_fdp_interval (c x)) && (fault_fdp_count x <? min_fdp_interval (c x)) then
    (0, set_ctx s (ctx_times x (fault_fdp_count x + 1) (fault_time x) (start_time x) (total_faults x)))
  else (1, set_count s (edfi_onfdp_count s + min_fdp_interval (c x))).

Definition edfi_onfdp_min_fault_time_interval (s : edfi) : Z * edfi :=
  let s := set_last s 0 in
  let x := edfi_context s in
  let pass s := (1, set_count s (edfi_onfdp_count s + min_fault_time_interval (conf s))) in
  if (0 <? min_fault_time_interval (c x)) && negb (fault_time x =? 0) then
    let '(t, s) := now s in
    let s := set_last s t in
    if u64 (fault_time x + min_fault_time_interval (c x)) <? edfi_last_fault_time s
    then (0, s) else pass s
  else pass s.

Definition edfi_onfdp_fault_prob (s : edfi) : Z * edfi :=
  if fault_prob_randmax (conf s) =? 0 then (1, s)
  else
    let '(r, s) := rand s in
    if fault_prob_randmax (conf s) <=? ulong (sz b) r then (0, s)
    else (1, set_count s (edfi_onfdp_count s + 1)).

Definition edfi_onfdp_dyn_fault_prob (bb_index : Z) (s : edfi) : Z * edfi :=
  if negb (edfi_faultinjection_enabled s) || (fault_prob_randmax (conf s) =? 0) then (0, s)
  else
    let '(r, s) := rand s in
    if fault_prob_randmax (conf s) <=? ulong (sz b) r then (0, s) else (1, s).

Definition edfi_onfdp_bb_index (bb_index : Z) (s : edfi) : Z * edfi :=
  if negb (edfi_faultinjection_enabled s) then (0, s)
  else if negb (bb_index =? faulty_bb_index (conf s)) && (0 <? faulty_bb_index (conf s)) then (0, s)
  else (1, if 0 <? faulty_bb_index (conf s) then set_count s 1 else s).

Definition edfi_onfdp_min_fdp_interval_update (s : edfi) : edfi :=
  let x := edfi_context s in
  set_ctx s (ctx_times x 1 (fault_time x) (start_time x) (total_faults x)).

Definition edfi_onfdp_min_fault_time_interval_update (s : edfi) : edfi :=
  if 0 <? min_fault_time_interval (conf s) then
    let '(t, s) := if negb (edfi_last_fault_time s =? 0) then (edfi_last_fault_time s, s) else now s in
    let x := edfi_context s in
    set_ctx s (ctx_times x (fault_fdp_count x) t (start_time x) (total_faults x))
  else s.

(** [edfi_stop]; [edfi_onstop_default] only prints. *)
Definition edfi_stop (s : edfi) : res edfi :=
  let! v := chk32 (edfi_faultinjection_enabled_version s + 1) in
  Ret (set_enabled s false v).

Definition edfi_onfdp_max_time (s : edfi) : res (Z * edfi) :=
  let pass s := Ret (1, set_count s (edfi_onfdp_count s + max_time (conf s))) in
  if 0 <? max_time (conf s) then
    let '(t, s) := now s in
    if t <=? u64 (start_time (edfi_context s) + max_time (conf s)) then
      let! s := edfi_stop s in Ret (0, s)
    else pass s
  else pass s.

Definition edfi_onfdp_max_faults (s : edfi) : Z * edfi :=
  if (0 <? max_faults (conf s)) && (max_faults (conf s) <? total_faults (edfi_context s)) then (0, s)
  else (1, set_count s (edfi_onfdp_count s + max_faults (conf s))).

(** [edfi_context->bb_num_executions[bb_index]++] *)
Definition count_execution (bb_index : Z) (s : edfi) : res edfi :=
  let l := bb_num_executions (edfi_context s) in
  if bb_index <? 0 then Stop FBounds
  else
    match l !! Z.to_nat bb_index with
    | None => Stop FBounds
    | Some n => Ret (set_ctx s (ctx_execs (edfi_context s) (<[Z.to_nat bb_index := u64 (n + 1)]> l)))
    end.

Definition edfi_onfdp_default (bb_index : Z) (s : edfi) : res (Z * edfi) :=
  let! s := if count_all_blocks b then count_execution bb_index s else Ret s in
  if negb (edfi_faultinjection_enabled s) then Ret (0, s)
  else
  let s := set_count s 0 in
  let '(r, s) := edfi_onfdp_min_fdp_interval s in
  if r =? 0 then Ret (0, s) else
  let '(r, s) := edfi_onfdp_min_fault_time_interval s in
  if r =? 0 then Ret (0, s) else
  let '(r, s) := edfi_onfdp_fault_prob s in
  if r =? 0 then Ret (0, s) else
  let '(r, s) := edfi_onfdp_bb_index bb_index s in
  if r =? 0 then Ret (0, s) else
  let! rs := edfi_onfdp_max_time s in
  let '(r, s) := rs in
  if r =? 0 then Ret (0, s) else
  let '(r, s) := edfi_onfdp_max_faults s in
  if r =? 0 then Ret (0, s) else
  if edfi_onfdp_count s =? 0 then Ret (0, s) else
  let s := edfi_onfdp_min_fdp_interval_update s in
  let s := edfi_onfdp_min_fault_time_interval_update s in
  Ret (1, s).

(** An element of a statistics array, which [num_bbs] bounds. *)
Definition elem (l : list Z) (i : Z) : res Z :=
  if i <? 0 then Stop FBounds
  else match l !! Z.to_nat i with Some v => Ret v | None => Stop FBounds end.

Definition edfi_onfault_default (bb_index : Z) (s : edfi) : res edfi :=
  let! s := if count_all_blocks b then Ret s else count_execution bb_index s in
  let x := edfi_context s in
  let! n := elem (bb_num_faults x) (bb_index - 1) in
  Ret (set_ctx s (ctx_times x (fault_fdp_count x) (fault_time x) (start_time x)
         (u64 (total_faults x + n)))).

(** ** Commands *)

Definition edfi_update_context (new_context : option edfi_context_t) (s : edfi) : Z * edfi :=
  match new_context with
  | None => (0, s)
  | Some nc =>
      let s := set_plat s (edfi_srand (rand_seed (c nc)) (plat s)) in
      if (0 <? String.length (dflib_path (c nc)))%nat then
        let '(ret, p) := edfi_load_dflib (dflib_path (c nc)) (plat s) in
        let s := set_plat s p in
        if ret <? 0 then (ret, s)
        else (0, set_ctx s (ctx_conf (edfi_context s) (c nc)))
      else (0, set_ctx s (ctx_conf (edfi_context s) (c nc)))
  end.

Definition edfi_start (context : option edfi_context_t) (s : edfi) : res (Z * edfi) :=
  let '(ret, s) := edfi_update_context context s in
  if ret <? 0 then Ret (ret, s)
  else
    let! v := chk32 (edfi_faultinjection_enabled_version s + 1) in
    Ret (0, edfi_onstart_default (set_enabled s true v)).

Definition edfi_stat (context : option edfi_context_t) (s : edfi) : Z * edfi :=
  edfi_update_context context s.

Definition edfi_process_cmd (cmd : edfi_ctl_cmd) (context : option edfi_context_t) (s : edfi)
    : res (Z * edfi) :=
  match cmd with
  | EDFI_CTL_CMD_STOP => let! s := edfi_stop s in Ret (0, s)
  | EDFI_CTL_CMD_START => edfi_start context s
  | EDFI_CTL_CMD_TEST => Ret (0, s)
  | EDFI_CTL_CMD_STAT => Ret (0, (edfi_stat context s).2)
  | EDFI_CTL_CMD_UPDATE => Ret (edfi_update_context context s)
  | EDFI_CTL_UNKNOWN _ => Ret (-1, s)
  end.

(** ** Statistics *)

(** [edfi_print_stats_section]: executed injected faults and candidates of a
    fault type. *)
Fixpoint section_sum (weights execs : list Z) (i : nat) (n : nat) (acc : Z) : res Z :=
  match n with
  | O => Ret acc
  | S n' =>
      let! w := elem weights (Z.of_nat i) in
      let! x := elem execs (Z.of_nat i + 1) in
      section_sum weights execs (S i) n' (u64 (acc + u64 (u64 w * x)))
  end.

Definition edfi_print_stats_section (x : edfi_context_t) : res (list (string * Z * Z)) :=
  res_foldl (λ acc ft,
    let n := Z.to_nat (num_bbs x) in
    let! inj := section_sum (bb_num_injected ft) (bb_num_executions x) 0 n 0 in
    let! cand := section_sum (bb_num_candidates ft) (bb_num_executions x) 0 n 0 in
    Ret (acc ++ [(ft_name ft, inj, cand)])) [] (fault_types x).

(** [edfi_stats_available], from block [i] on. *)
Fixpoint stats_available_loop (l : list Z) (i : nat) (n : nat) : res bool :=
  match n with
  | O => Ret false
  | S n' =>
      let! v := elem l (Z.of_nat i) in
      if 0 <? v then Ret true else stats_available_loop l (S i) n'
  end.
Definition edfi_stats_available (x : edfi_context_t) : res bool :=
  stats_available_loop (bb_num_executions x) 1 (Z.to_nat (num_bbs x)).

(** ** Wrappers of library calls: the size they pass on *)

(** [Nto2N (X)] with the fault probability compiled out, for an unsigned [X]. *)
Definition Nto2N (n : Z) (s : edfi) : res (Z * edfi) :=
  let '(r, s) := rand s in
  if n =? 0 then Stop FDivZero
  else Ret (ulong (sz b) (n + 1 + ulong (sz b) r `mod` n), s).

(** The same for [long long]: [%] truncates towards zero. *)
Definition Nto2N64 (n : Z) (s : edfi) : res (Z * edfi) :=
  let '(r, s) := rand s in
  if n =? 0 then Stop FDivZero
  else
    let v := n + 1 + Z.rem r n in
    if (-2^63 <=? v) && (v <? 2^63) then Ret (ulong (sz b) v, s) else Stop FOverflow.

Definition edfi_memcpy_wrapper (n : Z) (s : edfi) : res (Z * edfi) := Nto2N n s.
Definition edfi_memcpy64_wrapper (n : Z) (s : edfi) : res (Z * edfi) := Nto2N64 n s.
Definition edfi_memmove_wrapper (n : Z) (s : edfi) : res (Z * edfi) := Nto2N n s.
Definition edfi_memmove64_wrapper (n : Z) (s : edfi) : res (Z * edfi) := Nto2N64 n s.
Definition edfi_memset_wrapper (n : Z) (s : edfi) : res (Z * edfi) := Nto2N n s.
Definition edfi_memset64_wrapper (n : Z) (s : edfi) : res (Z * edfi) := Nto2N64 n s.
Definition edfi_strncpy_wrapper (n : Z) (s : edfi) : res (Z * edfi) := Nto2N n s.
(** The argument is [strlen (dest)]. *)
Definition edfi_strcpy_wrapper (strlen_dest : Z) (s : edfi) : res (Z * edfi) :=
  edfi_strncpy_wrapper (ulong (sz b) (strlen_dest + 1)) s.
Definition edfi_malloc_wrapper (size : Z) (s : edfi) : res (Z * edfi) :=
  let '(r, s) := rand s in
  if size =? 0 then Stop FDivZero else Ret (ulong (sz b) r `mod` size, s).
End Edfi.
Arguments edfi : clear implicits.

(** ** Decisions over a run *)

Section Runs.
Context {P : Type} `{platform P} (b : build).

(** The results of a sequence of decision points. *)
Fixpoint run_fdps (bbs : list Z) (s : edfi P) : res (list Z * edfi P) :=
  match bbs with
  | [] => Ret ([], s)
  | bb :: bbs' =>
      let! rs := edfi_onfdp_default b bb s in
      let! rest := run_fdps bbs' rs.2 in
      Ret (rs.1 :: rest.1, rest.2)
  end.

(** Only the interval between decision points is configured. *)
Definition interval_only (k : Z) (x : edfi_context_conf_t) : Prop :=
  min_fdp_interval x = k ∧ fault_prob_randmax x = 0 ∧ faulty_bb_index x = 0 ∧
  min_fault_time_interval x = 0 ∧ max_time x = 0 ∧ max_faults x = 0.

Definition word_ok : Prop := sz b = 4 ∨ sz b = 8.

Lemma ulong_word z : word_ok → 0 ≤ z < 2^32 → ulong (sz b) z = z.
Proof. intros [Hs|Hs] Hz; rewrite Hs; apply ulong_small; lia. Qed.

(** Below the interval the point counts, at the interval it injects. *)
Lemma onfdp_interval_step k bb s :
  count_all_blocks b = false → word_ok → 0 < k < 2^31 → interval_only k (conf s) →
  edfi_faultinjection_enabled s = true → 1 ≤ fault_fdp_count (edfi_context s) ≤ k →
  let f := fault_fdp_count (edfi_context s) in
  ∃ s', edfi_onfdp_default b bb s = Ret (if f <? k then 0 else 1, s') ∧
    conf s' = conf s ∧ edfi_faultinjection_enabled s' = true ∧
    fault_fdp_count (edfi_context s') = (if f <? k then f + 1 else 1).
Proof.
  intros Hb Hw Hk (H1 & H2 & H3 & H4 & H5 & H6) He Hf f. unfold conf in *.
  unfold edfi_onfdp_default. rewrite Hb. simpl res_bind. rewrite He. simpl negb. cbv iota.
  unfold edfi_onfdp_min_fdp_interval. simpl. rewrite H1. fold f.
  destruct (Z.ltb_spec 0 k); [|lia]. simpl. destruct (Z.ltb_spec f k).
  - simpl. eexists. split; [reflexivity|]. simpl. rewrite He. split_and!; reflexivity.
  - simpl. unfold edfi_onfdp_min_fault_time_interval. simpl. rewrite H4. simpl.
    unfold edfi_onfdp_fault_prob, conf. simpl. rewrite H2. simpl.
    unfold edfi_onfdp_bb_index, conf. simpl. rewrite He, H3, andb_false_r. simpl.
    unfold edfi_onfdp_max_time, conf. simpl. rewrite H5. simpl.
    unfold edfi_onfdp_max_faults, conf. simpl. rewrite H6. simpl.
    rewrite (ulong_word 0), !Z.add_0_l by (done || lia).
    rewrite H4, !Z.add_0_r, !(ulong_word k) by (done || lia).
    destruct (Z.eqb_spec k 0); [lia|]. eexists. split; [done|].
    unfold edfi_onfdp_min_fault_time_interval_update, conf. simpl. rewrite H4. simpl. by split_and!.
Qed.

Lemma run_fdps_interval k bbs s :
  count_all_blocks b = false → word_ok → 0 < k < 2^31 → interval_only k (conf s) →
  edfi_faultinjection_enabled s = true → 1 ≤ fault_fdp_count (edfi_context s) ≤ k →
  ∃ rs s', run_fdps bbs s = Ret (rs, s') ∧ length rs = length bbs ∧
    ∀ i : nat, (i < length bbs)%nat →
      rs !! i = Some (if (fault_fdp_count (edfi_context s) + Z.of_nat i) `mod` k =? 0 then 1 else 0).
Proof.
  intros Hb Hw Hk. revert s. induction bbs as [|bb bbs IH]; intros s Hc He Hf.
  { exists [], s. split_and!; try done. intros i Hi. simpl in Hi. lia. }
  destruct (onfdp_interval_step k bb s Hb Hw Hk Hc He Hf) as (s1 & Hs1 & Hc1 & He1 & Hf1).
  destruct (IH s1) as (rs & s' & Hrun & Hlen & Hrs); [by rewrite Hc1|done| |].
  { rewrite Hf1. destruct (Z.ltb_spec (fault_fdp_count (edfi_context s)) k); lia. }
  simpl. rewrite Hs1. simpl. rewrite Hrun. simpl. do 2 eexists. split; [done|].
  split; [simpl; lia|]. intros [|i] Hi; simpl.
  - rewrite Z.add_0_r. destruct (Z.ltb_spec (fault_fdp_count (edfi_context s)) k).
    + rewrite Z.mod_small by lia. by destruct (Z.eqb_spec (fault_fdp_count (edfi_context s)) 0); [lia|].
    + replace (fault_fdp_count (edfi_context s)) with k by lia. by rewrite Z.mod_same by lia.
  - rewrite Hrs by (simpl in Hi; lia). rewrite Hf1.
    destruct (Z.ltb_spec (fault_fdp_count (edfi_context s)) k).
    + by replace (fault_fdp_count (edfi_context s) + 1 + Z.of_nat i) with
        (fault_fdp_count (edfi_context s) + Z.of_nat (S i)) by lia.
    + replace (fault_fdp_count (edfi_context s)) with k by lia.
      replace (k + Z.of_nat (S i)) with (1 + Z.of_nat i + 1 * k) by lia.
      by rewrite Z.mod_add by lia.
Qed.

(** Periodic injection.  Start injection with only [min_fdp_interval = k]
    configured: of the decision points that follow, exactly those numbered 0, k,
    2k, ... inject a fault, whatever blocks they belong to. *)
Theorem interval_injects_periodically k nc s s0 bbs :
  count_all_blocks b = false → word_ok → 0 < k < 2^31 → interval_only k (c nc) →
  edfi_start (Some nc) s = Ret (0, s0) →
  ∃ rs s', run_fdps bbs s0 = Ret (rs, s') ∧ length rs = length bbs ∧
    ∀ i : nat, (i < length bbs)%nat → rs !! i = Some (if Z.of_nat i `mod` k =? 0 then 1 else 0).
Proof.
  intros Hb Hw Hk Hc Hs. unfold edfi_start in Hs.
  destruct (edfi_update_context (Some nc) s) as [ret s1] eqn:E.
  destruct (Z.ltb_spec ret 0); [injection Hs as -> <-; lia|].
  apply res_bind_inv in Hs as (v & _ & Hs). injection Hs as <-.
  assert (Hconf : conf s1 = c nc).
  { unfold edfi_update_context in E. destruct (0 <? String.length (dflib_path (c nc)))%nat.
    - destruct (edfi_load_dflib _ _) as [ret' p']. destruct (Z.ltb_spec ret' 0); injection E as <- <-; [lia|done].
    - by injection E as <- <-. }
  set (s0 := edfi_onstart_default (set_enabled s1 true v)).
  assert (Hs0 : conf s0 = c nc ∧ edfi_faultinjection_enabled s0 = true ∧
               fault_fdp_count (edfi_context s0) = k).
  { subst s0. unfold edfi_onstart_default, now, conf. simpl.
    destruct (edfi_getcurrtime_ns (plat s1)) as [t p]. simpl.
    unfold conf in Hconf. rewrite Hconf. split_and!; try done. apply Hc. }
  destruct Hs0 as (H1 & H2 & H3).
  destruct (run_fdps_interval k bbs s0 Hb Hw Hk) as (rs & s' & Hr & Hl & Hi); [by rewrite H1|done|lia|].
  exists rs, s'. split_and!; try done. intros i Hlt. rewrite (Hi i Hlt), H3.
  replace (k + Z.of_nat i) with (Z.of_nat i + 1 * k) by lia. by rewrite Z.mod_add by lia.
Qed.

(** ** When a decision point injects *)

(** The readings of a decision, in their order: the time for the interval between
    faults, which is read when the interval is configured and a fault has been
    recorded; a random number, which is drawn when a probability is configured; the
    time for the limit of the run. *)
Definition interval_asked (s : edfi P) : bool :=
  (0 <? min_fault_time_interval (conf s)) && negb (fault_time (edfi_context s) =? 0).
Definition interval_time (s : edfi P) : Z := (edfi_getcurrtime_ns (plat s)).1.
Definition after_interval (s : edfi P) : P := if interval_asked s then (edfi_getcurrtime_ns (plat s)).2 else plat s.
Definition drawn (s : edfi P) : Z := (edfi_rand (after_interval s)).1.
Definition after_draw (s : edfi P) : P :=
  if fault_prob_randmax (conf s) =? 0 then after_interval s else (edfi_rand (after_interval s)).2.
Definition limit_time (s : edfi P) : Z := (edfi_getcurrtime_ns (after_draw s)).1.

(** [edfi_onfdp_count] at the end: 0 when nothing is configured. *)
Definition conditions_count (k : edfi_context_conf_t) : Z :=
  let n := if 0 <? faulty_bb_index k then 1
           else min_fdp_interval k + min_fault_time_interval k + (if fault_prob_randmax k =? 0 then 0 else 1) in
  ulong (sz b) (n + max_time k + max_faults k).

(** The state in the middle of a decision: its configuration and recorded times are
    still those of [s]. *)
Definition mid (s s' : edfi P) (p : P) (n : Z) : Prop :=
  edfi_context s' = edfi_context s ∧ edfi_faultinjection_enabled s' = edfi_faultinjection_enabled s ∧
  plat s' = p ∧ edfi_onfdp_count s' = ulong (sz b) n.

Lemma ulong_add x y : ulong (sz b) (ulong (sz b) x + y) = ulong (sz b) (x + y).
Proof.
  unfold ulong. destruct (decide (2^(8 * sz b) = 0)) as [->|]; [by rewrite !Z.mod_0_r|]. by apply Z.add_mod_idemp_l.
Qed.

Lemma fdp_interval_stage s s0 p n :
  mid s s0 p n → let (r, s') := edfi_onfdp_min_fdp_interval b s0 in
  if decide (0 < min_fdp_interval (conf s) → min_fdp_interval (conf s) ≤ fault_fdp_count (edfi_context s))
  then r = 1 ∧ mid s s' p (n + min_fdp_interval (conf s)) else r = 0.
Proof.
  intros (Hx & He & Hp & Hn). unfold edfi_onfdp_min_fdp_interval, conf. rewrite Hx.
  destruct (Z.ltb_spec 0 (min_fdp_interval (c (edfi_context s)))),
    (Z.ltb_spec (fault_fdp_count (edfi_context s)) (min_fdp_interval (c (edfi_context s)))); cbn [andb]; case_decide; try lia;
    try done; (split; [done|]; split_and!; try done; cbn; by rewrite Hn, ulong_add).
Qed.

Lemma time_interval_stage s s0 n :
  mid s s0 (plat s) n → let (r, s') := edfi_onfdp_min_fault_time_interval b s0 in
  if decide (interval_asked s = true →
             ulong (sz b) (interval_time s) ≤ u64 (fault_time (edfi_context s) + min_fault_time_interval (conf s)))
  then r = 1 ∧ mid s s' (after_interval s) (n + min_fault_time_interval (conf s)) else r = 0.
Proof.
  intros (Hx & He & Hp & Hn). unfold edfi_onfdp_min_fault_time_interval, interval_asked, interval_time, after_interval, interval_asked, now, conf.
  cbn. rewrite Hx, Hp. destruct ((0 <? _) && _).
  - destruct (edfi_getcurrtime_ns (plat s)) as [t p']. cbn. destruct (Z.ltb_spec (u64 (fault_time (edfi_context s) + min_fault_time_interval (c (edfi_context s)))) (ulong (sz b) t));
      case_decide as Hd; try done; [specialize (Hd eq_refl); lia| |exfalso; apply Hd; lia].
    split; [done|]. split_and!; try done. cbn. by rewrite Hn, ?Hx, ulong_add.
  - case_decide as Hd; [|by destruct Hd]. split; [done|]. split_and!; try done. cbn. by rewrite Hn, ?Hx, ulong_add.
Qed.

Lemma prob_stage s s0 n :
  mid s s0 (after_interval s) n → let (r, s') := edfi_onfdp_fault_prob b s0 in
  if decide (fault_prob_randmax (conf s) ≠ 0 → ulong (sz b) (drawn s) < fault_prob_randmax (conf s))
  then r = 1 ∧ mid s s' (after_draw s) (n + (if fault_prob_randmax (conf s) =? 0 then 0 else 1)) else r = 0.
Proof.
  intros (Hx & He & Hp & Hn). unfold edfi_onfdp_fault_prob, drawn, after_draw, rand, conf. rewrite Hx, Hp.
  destruct (Z.eqb_spec (fault_prob_randmax (c (edfi_context s))) 0) as [E|E].
  - case_decide as Hd; [|by destruct Hd]. split; [done|]. split_and!; try done. by rewrite Z.add_0_r.
  - destruct (edfi_rand (after_interval s)) as [r p']. cbn. rewrite Hx.
    destruct (Z.leb_spec (fault_prob_randmax (c (edfi_context s))) (ulong (sz b) r)); case_decide as Hd; try done;
      [specialize (Hd E); lia| |exfalso; apply Hd; lia].
    split; [done|]. split_and!; try done. cbn. by rewrite Hn, ulong_add.
Qed.

Lemma bb_index_stage s s0 p n bb :
  mid s s0 p n → edfi_faultinjection_enabled s = true → let (r, s') := edfi_onfdp_bb_index b bb s0 in
  if decide (0 < faulty_bb_index (conf s) → bb = faulty_bb_index (conf s))
  then r = 1 ∧ mid s s' p (if 0 <? faulty_bb_index (conf s) then 1 else n) else r = 0.
Proof.
  intros (Hx & He & Hp & Hn) Hen. unfold edfi_onfdp_bb_index, conf. rewrite He, Hen, Hx. cbn [negb].
  destruct (Z.eqb_spec bb (faulty_bb_index (c (edfi_context s)))), (Z.ltb_spec 0 (faulty_bb_index (c (edfi_context s)))); cbn [negb andb];
    case_decide; try lia; try done; (split; [done|]; by split_and!).
Qed.

Lemma max_time_stage s s0 n :
  mid s s0 (after_draw s) n →
  match edfi_onfdp_max_time b s0 with
  | Ret (r, s') =>
      if decide (0 < max_time (conf s) → u64 (start_time (edfi_context s) + max_time (conf s)) < limit_time s)
      then r = 1 ∧ ∃ p, mid s s' p (n + max_time (conf s)) else r = 0
  | Stop _ => ¬ (0 < max_time (conf s) → u64 (start_time (edfi_context s) + max_time (conf s)) < limit_time s)
  end.
Proof.
  intros (Hx & He & Hp & Hn). unfold edfi_onfdp_max_time, limit_time, now, conf. rewrite Hx, Hp.
  destruct (Z.ltb_spec 0 (max_time (c (edfi_context s)))).
  - destruct (edfi_getcurrtime_ns (after_draw s)) as [t p']. cbn. rewrite Hx.
    destruct (Z.leb_spec t (u64 (start_time (edfi_context s) + max_time (c (edfi_context s))))).
    + unfold edfi_stop. destruct (chk32 _); cbn; [case_decide as Hd; [specialize (Hd ltac:(done)); lia|done]|lia].
    + case_decide; [|lia]. split; [done|]. exists p'. split_and!; try done. cbn. by rewrite Hn, ulong_add.
  - case_decide; [|lia]. split; [done|]. exists (plat s0). split_and!; try done. cbn. by rewrite ?Hx, Hn, ulong_add.
Qed.

Lemma max_faults_stage s s0 p n :
  mid s s0 p n → let (r, s') := edfi_onfdp_max_faults b s0 in
  if decide (0 < max_faults (conf s) → total_faults (edfi_context s) ≤ max_faults (conf s))
  then r = 1 ∧ mid s s' p (n + max_faults (conf s)) else r = 0.
Proof.
  intros (Hx & He & Hp & Hn). unfold edfi_onfdp_max_faults, conf. rewrite Hx.
  destruct (Z.ltb_spec 0 (max_faults (c (edfi_context s)))), (Z.ltb_spec (max_faults (c (edfi_context s))) (total_faults (edfi_context s)));
    cbn [andb]; case_decide; try lia; try done; (split; [done|]; split_and!; try done; cbn; by rewrite ?Hx, Hn, ulong_add).
Qed.

(** Counting the execution leaves the decision alone. *)
Lemma count_mid bb (s : edfi P) : (count_all_blocks b = true → 0 ≤ bb < Z.of_nat (length (bb_num_executions (edfi_context s)))) →
  ∃ s0, (if count_all_blocks b then count_execution bb s else Ret s) = Ret s0 ∧
    conf s0 = conf s ∧ fault_fdp_count (edfi_context s0) = fault_fdp_count (edfi_context s) ∧
    fault_time (edfi_context s0) = fault_time (edfi_context s) ∧ start_time (edfi_context s0) = start_time (edfi_context s) ∧
    total_faults (edfi_context s0) = total_faults (edfi_context s) ∧
    edfi_faultinjection_enabled s0 = edfi_faultinjection_enabled s ∧ plat s0 = plat s.
Proof.
  intros Hbb. destruct (count_all_blocks b); [|exists s; by split_and!]. specialize (Hbb eq_refl). unfold count_execution.
  destruct (Z.ltb_spec bb 0); [lia|]. destruct (lookup_lt_is_Some_2 (bb_num_executions (edfi_context s)) (Z.to_nat bb)) as [n ->]; [lia|].
  eexists. split; [reflexivity|]. by split_and!.
Qed.

(** C38: when a decision point injects.  In any state, on a platform with any clock and
    generator, [edfi_onfdp_default] decides for a fault exactly when injection is
    enabled, enough decision points have passed since the last fault, the random number
    drawn is below the bound of the probability, the block is the configured one, no
    more than [max_faults] faults were counted and something is configured at all; each
    condition only when it is configured.  The two time limits work the wrong way
    round: the time read must be after [max_time] has passed since the start, and, once
    a fault time is recorded, the (earlier) time read must not be after
    [min_fault_time_interval] has passed since it.  In a build that counts all blocks
    the block must be one of the program's. *)
Theorem injection_conditions bb s :
  (count_all_blocks b = true → 0 ≤ bb < Z.of_nat (length (bb_num_executions (edfi_context s)))) →
  let k := conf s in
  (∃ s', edfi_onfdp_default b bb s = Ret (1, s')) ↔
  edfi_faultinjection_enabled s = true ∧
  (0 < min_fdp_interval k → min_fdp_interval k ≤ fault_fdp_count (edfi_context s)) ∧
  (interval_asked s = true → ulong (sz b) (interval_time s) ≤ u64 (fault_time (edfi_context s) + min_fault_time_interval k)) ∧
  (fault_prob_randmax k ≠ 0 → ulong (sz b) (drawn s) < fault_prob_randmax k) ∧
  (0 < faulty_bb_index k → bb = faulty_bb_index k) ∧
  (0 < max_time k → u64 (start_time (edfi_context s) + max_time k) < limit_time s) ∧
  (0 < max_faults k → total_faults (edfi_context s) ≤ max_faults k) ∧
  conditions_count k ≠ 0.
Proof.
  intros Hbb k. destruct (count_mid bb s Hbb) as (s0 & Hc & Hk & H1 & H2 & H3 & H4 & H5 & H6).
  unfold limit_time, drawn, after_draw, after_interval, interval_asked, interval_time, k.
  rewrite <- Hk, <- H1, <- H2, <- H3, <- H4, <- H5, <- H6. clear Hbb k.
  fold (interval_asked s0) (interval_time s0). fold (after_interval s0). fold (drawn s0) (after_draw s0). fold (limit_time s0).
  unfold edfi_onfdp_default. rewrite Hc. cbn [res_bind]. clear Hc Hk H1 H2 H3 H4 H5 H6 s. rename s0 into s.
  destruct (edfi_faultinjection_enabled s) eqn:He; cbn [negb]; [|split; [by intros [? [=]]|by intros [? _]]].
  assert (Hm : mid s (set_count b s 0) (plat s) 0) by (by split_and!).
  pose proof (fdp_interval_stage _ _ _ _ Hm) as Hs. destruct (edfi_onfdp_min_fdp_interval b _) as [r s1].
  destruct (decide _) as [C1|C1]; [destruct Hs as [-> Hm1]|subst r; cbn; split; [by intros [? [=]]|tauto]]. cbn [Z.eqb].
  pose proof (time_interval_stage _ _ _ Hm1) as Hs. destruct (edfi_onfdp_min_fault_time_interval b _) as [r s2].
  destruct (decide _) as [C2|C2]; [destruct Hs as [-> Hm2]|subst r; cbn; split; [by intros [? [=]]|tauto]]. cbn [Z.eqb].
  pose proof (prob_stage _ _ _ Hm2) as Hs. destruct (edfi_onfdp_fault_prob b _) as [r s3].
  destruct (decide _) as [C3|C3]; [destruct Hs as [-> Hm3]|subst r; cbn; split; [by intros [? [=]]|tauto]]. cbn [Z.eqb].
  pose proof (bb_index_stage _ _ _ _ bb Hm3 He) as Hs. destruct (edfi_onfdp_bb_index b bb _) as [r s4].
  destruct (decide _) as [C4|C4]; [destruct Hs as [-> Hm4]|subst r; cbn; split; [by intros [? [=]]|tauto]]. cbn [Z.eqb].
  pose proof (max_time_stage _ _ _ Hm4) as Hs. destruct (edfi_onfdp_max_time b _) as [[r s5]|f]; [|cbn; split; [by intros [? [=]]|tauto]].
  cbn [res_bind].
  destruct (decide _) as [C5|C5]; [destruct Hs as (-> & p5 & Hm5)|subst r; cbn; split; [by intros [? [=]]|tauto]]. cbn [Z.eqb].
  pose proof (max_faults_stage _ _ _ _ Hm5) as Hs. destruct (edfi_onfdp_max_faults b _) as [r s6].
  destruct (decide _) as [C6|C6]; [destruct Hs as [-> Hm6]|subst r; cbn; split; [by intros [? [=]]|tauto]]. cbn [Z.eqb].
  destruct Hm6 as (_ & _ & _ & Hn).
  assert (Hcount : edfi_onfdp_count s6 = conditions_count (conf s)) by (rewrite Hn; unfold conditions_count; f_equal; by destruct (0 <? _)).
  rewrite <- Hcount. destruct (Z.eqb_spec (edfi_onfdp_count s6) 0) as [E|E]; [split; [by intros [? [=]]|tauto]|]. split; [done|eauto].
Qed.
End Runs.

(** ** Commands and the injection switch *)

Section Commands.
Context {P : Type} `{platform P} (b : build).

Fixpoint run_cmds (cmds : list (edfi_ctl_cmd * option edfi_context_t)) (s : edfi P)
    : res (list Z * edfi P) :=
  match cmds with
  | [] => Ret ([], s)
  | (cmd, x) :: cmds' =>
      let! rs := edfi_process_cmd cmd x s in
      let! rest := run_cmds cmds' rs.2 in
      Ret (rs.1 :: rest.1, rest.2)
  end.

(** The switch as the results of the commands determine it: a stop clears it, a
    start that succeeded sets it. *)
Definition spec_switch (e : bool) (cmd : edfi_ctl_cmd) (r : Z) : bool :=
  match cmd with
  | EDFI_CTL_CMD_STOP => false
  | EDFI_CTL_CMD_START => if r =? 0 then true else e
  | _ => e
  end.

(** The number of times the switch was operated. *)
Definition spec_ops (cmd : edfi_ctl_cmd) (r : Z) : Z :=
  match cmd with
  | EDFI_CTL_CMD_STOP => 1
  | EDFI_CTL_CMD_START => if r =? 0 then 1 else 0
  | _ => 0
  end.

Lemma update_context_frame x (s : edfi P) r s' :
  edfi_update_context x s = (r, s') →
  r ≤ 0 ∧ edfi_faultinjection_enabled s' = edfi_faultinjection_enabled s ∧
  edfi_faultinjection_enabled_version s' = edfi_faultinjection_enabled_version s ∧
  bb_num_executions (edfi_context s') = bb_num_executions (edfi_context s) ∧
  total_faults (edfi_context s') = total_faults (edfi_context s).
Proof.
  unfold edfi_update_context. destruct x as [nc|]; [|intros [= <- <-]; split_and!; done].
  destruct (0 <? _)%nat; [|intros [= <- <-]; split_and!; done].
  destruct (edfi_load_dflib _ _) as [ret p]. destruct (Z.ltb_spec ret 0); intros [= <- <-];
    split_and!; try done; lia.
Qed.

Lemma process_cmd_switch cmd x (s : edfi P) r s' :
  edfi_process_cmd cmd x s = Ret (r, s') →
  edfi_faultinjection_enabled s' = spec_switch (edfi_faultinjection_enabled s) cmd r ∧
  edfi_faultinjection_enabled_version s' = edfi_faultinjection_enabled_version s + spec_ops cmd r ∧
  bb_num_executions (edfi_context s') = bb_num_executions (edfi_context s) ∧
  total_faults (edfi_context s') = total_faults (edfi_context s).
Proof.
  destruct cmd; simpl; intros E.
  - apply res_bind_inv in E as (s1 & E1 & [= <- <-]).
    apply res_bind_inv in E1 as (v & Hv & [= <-]). apply chk32_inv in Hv as [-> _]. by split_and!.
  - unfold edfi_start in E. destruct (edfi_update_context x s) as [ret s1] eqn:Eu.
    destruct (update_context_frame _ _ _ _ Eu) as (Hr & He & Hv & Hx & Ht).
    destruct (Z.ltb_spec ret 0).
    { injection E as <- <-. destruct (Z.eqb_spec ret 0); [lia|]. split_and!; try done; lia. }
    apply res_bind_inv in E as (v & Hv' & [= <- <-]). apply chk32_inv in Hv' as [-> _].
    unfold edfi_onstart_default, now. simpl. destruct (edfi_getcurrtime_ns (plat s1)). simpl.
    split_and!; try done; lia.
  - injection E as <- <-. split_and!; try done; lia.
  - injection E as <- <-. unfold edfi_stat.
    destruct (edfi_update_context x s) as [ret s1] eqn:Eu.
    destruct (update_context_frame _ _ _ _ Eu) as (Hr & He & Hv & Hx & Ht).
    split_and!; try done; simpl; lia.
  - injection E as E. destruct (update_context_frame _ _ _ _ E) as (Hr & He & Hv & Hx & Ht).
    split_and!; try done; lia.
  - injection E as <- <-. split_and!; try done; lia.
Qed.

(** The control protocol.  After any sequence of commands the injection
    switch is as the results returned to the controller say (a stop clears it, a
    start that returned 0 sets it, nothing else changes it), the switch version
    has advanced by exactly the number of such operations, and the execution and
    fault counts are untouched. *)
Theorem commands_operate_switch cmds s rs s' :
  run_cmds cmds s = Ret (rs, s') →
  length rs = length cmds ∧
  edfi_faultinjection_enabled s' =
    foldl (λ e cr, spec_switch e (cr.1).1 cr.2) (edfi_faultinjection_enabled s) (zip cmds rs) ∧
  edfi_faultinjection_enabled_version s' =
    foldl (λ v cr, v + spec_ops (cr.1).1 cr.2) (edfi_faultinjection_enabled_version s) (zip cmds rs) ∧
  bb_num_executions (edfi_context s') = bb_num_executions (edfi_context s) ∧
  total_faults (edfi_context s') = total_faults (edfi_context s).
Proof.
  revert s rs. induction cmds as [|[cmd x] cmds IH]; intros s rs E.
  { injection E as <- <-. by split_and!. }
  simpl in E. apply res_bind_inv in E as ([r s1] & E1 & E).
  apply res_bind_inv in E as ([rs' s2] & E2 & [= <- <-]).
  destruct (IH _ _ E2) as (Hl & He & Hv & Hx & Ht).
  destruct (process_cmd_switch _ _ _ _ _ E1) as (He1 & Hv1 & Hx1 & Ht1).
  cbn [snd fst zip zip_with length foldl] in *. rewrite <- He1, <- Hv1.
  rewrite He, Hv, Hx, Ht, Hl. split_and!; done.
Qed.

(** ** Sizes the wrappers pass on *)

(** The buffer-overflow wrappers.  For a size [n] with [0 < n], [2n] in range,
    the wrapped copy functions pass a size strictly above [n] and at most [2n], the
    allocation wrapper one strictly below [n]; for [n = 0] both divide by zero. *)
Theorem wrapper_sizes `{!platform_ok P} n (s : edfi P) :
  sz b = 4 ∨ sz b = 8 → 0 ≤ n → 2 * n < 2^31 →
  (n = 0 → edfi_memcpy_wrapper b n s = Stop FDivZero ∧ edfi_malloc_wrapper b n s = Stop FDivZero) ∧
  (0 < n → ∃ k s', edfi_memcpy_wrapper b n s = Ret (k, s') ∧ n < k ≤ 2 * n) ∧
  (0 < n → ∃ k s', edfi_memcpy64_wrapper b n s = Ret (k, s') ∧ n < k ≤ 2 * n) ∧
  (0 < n → ∃ k s', edfi_malloc_wrapper b n s = Ret (k, s') ∧ 0 ≤ k < n).
Proof.
  intros Hw Hn Hmax. pose proof (rand_range (plat s)) as Hr.
  unfold edfi_memcpy_wrapper, edfi_memcpy64_wrapper, edfi_malloc_wrapper, Nto2N, Nto2N64, rand.
  destruct (edfi_rand (plat s)) as [r p]. simpl in Hr.
  assert (Hu : ∀ z, 0 ≤ z < 2^32 → ulong (sz b) z = z) by (intros z Hz; by apply (ulong_word b)).
  destruct (Z.eqb_spec n 0); [split_and!; try lia; by subst|].
  assert (0 ≤ r `mod` n < n) by (apply Z.mod_pos_bound; lia).
  assert (Hrem : Z.rem r n = r `mod` n) by (apply Z.rem_mod_nonneg; lia).
  rewrite (Hu r) by lia. split_and!; [done|..]; intros _; do 2 eexists.
  - split; [reflexivity|]. rewrite Hu by lia. lia.
  - rewrite Hrem. destruct (Z.leb_spec (-2^63) (n + 1 + r `mod` n)); [|lia].
    destruct (Z.ltb_spec (n + 1 + r `mod` n) (2^63)); [|lia].
    split; [reflexivity|]. rewrite Hu by lia. lia.
  - split; [reflexivity|]. lia.
Qed.
End Commands.

(** ** Witnesses: a platform with a linear congruential generator *)

#[local] Instance demo_platform : platform Z := {
  edfi_rand := λ p, (p `mod` 2^31, p * 1103515245 + 12345);
  edfi_srand := λ seed _, seed;
  edfi_getcurrtime_ns := λ p, (5000, p);
  edfi_load_dflib := λ _ p, (-1, p);
}.

#[local] Instance demo_platform_ok : platform_ok Z.
Proof.
  constructor; intros p; simpl; [|lia].
  pose proof (Z.mod_pos_bound p (2^31) ltac:(lia)). lia.
Qed.

Definition demo_build : build := {| sz := 4; count_all_blocks := false |}.
Definition demo_conf (k bb lib : Z) : edfi_context_conf_t :=
  {| fault_prob_randmax := 0; min_fdp_interval := k; faulty_bb_index := bb;
     min_fault_time_interval := 0; max_time := if 0 <? bb then 1000 else 0;
     max_faults := bb; rand_seed := 123;
     dflib_path := if lib =? 0 then "" else "x" |}.
Definition demo_context (k bb lib : Z) : edfi_context_t :=
  {| fault_fdp_count := 0; fault_time := 0; start_time := 0; total_faults := 0;
     fault_types := []; bb_num_executions := [0; 0; 0]; bb_num_faults := [1];
     num_bbs := 1; c := demo_conf k bb lib |}.
Definition demo_edfi : edfi Z :=
  {| edfi_onfdp_count := 0; edfi_faultinjection_enabled := false;
     edfi_faultinjection_enabled_version := 0; edfi_last_fault_time := 0;
     edfi_context := demo_context 0 0 0; plat := 1 |}.
Definition demo_started : edfi Z := (ret_or (0, demo_edfi) (edfi_start (Some (demo_context 3 0 0)) demo_edfi)).2.

Lemma interval_injects_periodically_witness :
  ∃ rs s', run_fdps demo_build [1;1;1;1;1;1;1] demo_started = Ret (rs, s') ∧
    rs !! 3%nat = Some 1 ∧ rs !! 4%nat = Some 0.
Proof.
  destruct (interval_injects_periodically demo_build 3 (demo_context 3 0 0) demo_edfi demo_started
    [1;1;1;1;1;1;1]) as (rs & s' & Hr & _ & Hi).
  - reflexivity.
  - by left.
  - lia.
  - by split_and!.
  - vm_compute. reflexivity.
  - exists rs, s'. split; [exact Hr|].
    split; [apply (Hi 3%nat) | apply (Hi 4%nat)]; simpl; lia.
Defined.

Definition demo_armed : edfi Z :=
  {| edfi_onfdp_count := 0; edfi_faultinjection_enabled := true;
     edfi_faultinjection_enabled_version := 1; edfi_last_fault_time := 0;
     edfi_context := demo_context 0 7 0; plat := 1 |}.
Definition demo_cmds : list (edfi_ctl_cmd * option edfi_context_t) :=
  [(EDFI_CTL_CMD_START, Some (demo_context 3 0 1)); (EDFI_CTL_CMD_START, Some (demo_context 3 0 0));
   (EDFI_CTL_UNKNOWN 77, None); (EDFI_CTL_CMD_STAT, Some (demo_context 3 0 1))].
Definition demo_cmds_end : edfi Z := (ret_or ([], demo_edfi) (run_cmds demo_cmds demo_edfi)).2.

Lemma commands_operate_switch_witness :
  run_cmds demo_cmds demo_edfi = Ret ([-1; 0; -1; 0], demo_cmds_end) ∧
  edfi_faultinjection_enabled demo_cmds_end = true ∧
  edfi_faultinjection_enabled_version demo_cmds_end = 1.
Proof.
  assert (Hrun : run_cmds demo_cmds demo_edfi = Ret ([-1; 0; -1; 0], demo_cmds_end))
    by (vm_compute; reflexivity).
  pose proof (commands_operate_switch demo_cmds demo_edfi [-1; 0; -1; 0] demo_cmds_end Hrun)
    as (_ & He & Hv & _).
  split; [exact Hrun|]. rewrite He, Hv. split; reflexivity.
Defined.

Lemma wrapper_sizes_witness :
  ∃ k s', edfi_memcpy_wrapper demo_build 10 demo_armed = Ret (k, s') ∧ 10 < k ≤ 20.
Proof.
  destruct (wrapper_sizes demo_build 10 demo_armed) as (_ & Hk & _); [by left|lia|lia|].
  apply Hk. lia.
Defined.
