(* ===== verification/EdfiRand.v ===== *)
(** * Random decisions of EDFI: [edfi_ctl_server.c] of both platforms

    The random numbers, clock and library loader that [edfi/platform/unix_apps] and
    [edfi/platform/minix_sys] give to the decision runtime, as instances of the class
    [platform] of [Edfi].  The generator is a linear congruential one; over a period it
    takes every state once, so the fraction of decisions is known exactly. *)

From Stdlib Require Import ZArith Lia String.
From stdpp Require Import base list numbers strings.
From S2P Require Import Prelude Runtime Edfi.

Definition EDFI_RAND_MAX : Z := 32767.

(** ** The congruential step *)

Definition lcg_a : Z := 1103515245.
Definition lcg_c : Z := 12345.
(** [edfi_rand_next * 1103515245 + 12345] in an [unsigned long] of [sz] bytes. *)
Definition rand_step (sz x : Z) : Z := ulong sz (x * lcg_a + lcg_c).

(** ** The platform of user programs *)

(** The state after start-up, where [edfi_ctl_time_init] has left
    [edfi_cycles_per_ns] positive: [edfi_rand_next], the time-stamp counter as the sequence of its readings,
    [edfi_cycles_per_ns], the library loaded and the one whose handlers are installed. *)
Record unix_plat := {
  edfi_rand_next : Z;
  tsc_reads : nat;
  edfi_cycles_per_ns : N;
  edfi_dflib : option Z;
  handlers : option Z;
}.

Section Unix.
Variable sz : Z.
Variable rdtsc : nat → Z.
Variable dlopen : string → option Z.
Variable dlsym : Z → string → bool.

Definition with_rand (p : unix_plat) (x : Z) : unix_plat :=
  {| edfi_rand_next := x; tsc_reads := tsc_reads p; edfi_cycles_per_ns := edfi_cycles_per_ns p;
     edfi_dflib := edfi_dflib p; handlers := handlers p |}.
Definition unix_srand (seed : Z) (p : unix_plat) : unix_plat := with_rand p seed.
Definition unix_rand (p : unix_plat) : Z * unix_plat :=
  let x := rand_step sz (edfi_rand_next p) in
  (u32 (x / 65536) `mod` 32768, with_rand p x).

Definition unix_getcurrtime_ns (p : unix_plat) : Z * unix_plat :=
  (u64 (rdtsc (tsc_reads p)) / Z.of_N (edfi_cycles_per_ns p),
   {| edfi_rand_next := edfi_rand_next p; tsc_reads := S (tsc_reads p); edfi_cycles_per_ns := edfi_cycles_per_ns p;
      edfi_dflib := edfi_dflib p; handlers := handlers p |}).

(** [edfi_load_dflib]: the handlers change only if the library has all four. *)
Definition unix_load_dflib (path : string) (p : unix_plat) : Z * unix_plat :=
  match dlopen path with
  | None => (-1, p)
  | Some dflib =>
      if negb (dlsym dflib "edfi_onstart") then (-2, p)
      else if negb (dlsym dflib "edfi_onfdp") then (-3, p)
      else if negb (dlsym dflib "edfi_onfault") then (-4, p)
      else if negb (dlsym dflib "edfi_onstop") then (-5, p)
      else (0, {| edfi_rand_next := edfi_rand_next p; tsc_reads := tsc_reads p; edfi_cycles_per_ns := edfi_cycles_per_ns p;
                  edfi_dflib := Some dflib; handlers := Some dflib |})
  end.

#[local] Instance unix_platform : platform unix_plat := {
  edfi_rand := unix_rand;
  edfi_srand := unix_srand;
  edfi_getcurrtime_ns := unix_getcurrtime_ns;
  edfi_load_dflib := unix_load_dflib;
}.
End Unix.

(** ** The platform of MINIX servers *)

Record minix_plat := { minix_rand_next : Z; micros_reads : nat }.

Section Minix.
Variable sz : Z.
Variable RAND_MAX : Z.
Variable micros : nat → Z.
Variable ENOSYS : Z.

Definition minix_srand (seed : Z) (p : minix_plat) : minix_plat := {| minix_rand_next := seed; micros_reads := micros_reads p |}.
Definition minix_rand (p : minix_plat) : Z * minix_plat :=
  let x := rand_step sz (minix_rand_next p) in
  (s32 (x `mod` ulong sz (RAND_MAX + 1)), {| minix_rand_next := x; micros_reads := micros_reads p |}).
Definition minix_getcurrtime_ns (p : minix_plat) : Z * minix_plat :=
  (u64 (micros (micros_reads p) * 1000), {| minix_rand_next := minix_rand_next p; micros_reads := S (micros_reads p) |}).
Definition minix_load_dflib (path : string) (p : minix_plat) : Z * minix_plat := (ENOSYS, p).

#[local] Instance minix_platform : platform minix_plat := {
  edfi_rand := minix_rand;
  edfi_srand := minix_srand;
  edfi_getcurrtime_ns := minix_getcurrtime_ns;
  edfi_load_dflib := minix_load_dflib;
}.
End Minix.

(** ** The period of the generator *)

Fixpoint gsum (a : Z) (n : nat) : Z := match n with O => 0 | S n' => 1 + a * gsum a n' end.

Lemma gsum_geom a n : (a - 1) * gsum a n = a ^ Z.of_nat n - 1.
Proof. induction n as [|n IH]; [cbn; lia|]. rewrite Nat2Z.inj_succ, Z.pow_succ_r by lia. cbn [gsum]. nia. Qed.

Lemma gsum_double a n : gsum a (2 * n) = (1 + a) * gsum (a * a) n.
Proof.
  induction n as [|n IH]; [cbn; lia|]. replace (2 * S n)%nat with (S (S (2 * n))) by lia. cbn [gsum]. rewrite IH. ring.
Qed.

Lemma gsum_parity a n : a `mod` 2 = 1 → gsum a n `mod` 2 = Z.of_nat n `mod` 2.
Proof.
  intros Ha. induction n as [|n IH]; [done|]. cbn [gsum]. rewrite Z.add_mod, Z.mul_mod, Ha, IH by lia.
  rewrite Nat2Z.inj_succ. Z.div_mod_to_equations. lia.
Qed.

Lemma odd_divide k : 0 ≤ k → ∀ o x, o `mod` 2 = 1 → (2^k | o * x) → (2^k | x).
Proof.
  intros Hk. pattern k. apply natlike_ind; [|clear k Hk|done].
  - intros o x _ _. apply Z.divide_1_l.
  - intros k Hk IH o x Ho Hd. rewrite Z.pow_succ_r in * by done.
    assert (Hx : x `mod` 2 = 0).
    { assert (Hd2 : (o * x) `mod` 2 = 0) by (apply Z.mod_divide; [lia|]; eapply Z.divide_trans; [|done]; apply Z.divide_factor_l).
      rewrite Z.mul_mod, Ho, Z.mul_1_l, Z.mod_mod in Hd2 by lia. done. }
    replace x with (2 * (x / 2)) in * by (Z.div_mod_to_equations; lia). apply Z.mul_divide_mono_l, (IH o); [done|].
    rewrite Z.mul_shuffle3 in Hd. by apply Z.mul_divide_cancel_l in Hd.
Qed.

Lemma gsum_divide k : 0 ≤ k → ∀ a n, a `mod` 4 = 1 → (2^k | gsum a n) → (2^k | Z.of_nat n).
Proof.
  intros Hk. pattern k. apply natlike_ind; [|clear k Hk|done].
  - intros a n _ _. apply Z.divide_1_l.
  - intros k Hk IH a n Ha Hd. rewrite Z.pow_succ_r in * by done.
    assert (Hn : Z.of_nat n `mod` 2 = 0).
    { rewrite <- (gsum_parity a) by (Z.div_mod_to_equations; lia). apply Z.mod_divide; [lia|].
      eapply Z.divide_trans; [|done]. apply Z.divide_factor_l. }
    assert (∃ m, n = (2 * m)%nat) as [m ->] by (exists (Z.to_nat (Z.of_nat n / 2)); Z.div_mod_to_equations; lia).
    rewrite gsum_double in Hd. replace (Z.of_nat (2 * m)) with (2 * Z.of_nat m) by lia. apply Z.mul_divide_mono_l.
    apply (IH (a * a)); [rewrite Z.mul_mod, Ha by lia; done|].
    apply (odd_divide k Hk ((1 + a) / 2)); [Z.div_mod_to_equations; lia|].
    replace (1 + a) with (2 * ((1 + a) / 2)) in Hd by (Z.div_mod_to_equations; lia). rewrite <- Z.mul_assoc in Hd.
    by apply Z.mul_divide_cancel_l in Hd.
Qed.

(** The state after [n] steps, modulo [2^k]. *)
Fixpoint lcg_iter (n : nat) (x : Z) : Z := match n with O => x | S n' => lcg_iter n' (x * lcg_a + lcg_c) end.

Lemma lcg_iter_S n x : lcg_iter (S n) x = lcg_iter n x * lcg_a + lcg_c.
Proof. revert x. induction n as [|n IH]; intros x; [done|]. change (lcg_iter (S (S n)) x) with (lcg_iter (S n) (x * lcg_a + lcg_c)). by rewrite IH. Qed.

Lemma lcg_iter_add n k x : lcg_iter (n + k) x = lcg_iter k (lcg_iter n x).
Proof. revert x. induction n as [|n IH]; intros x; [done|]. apply IH. Qed.

Lemma lcg_iter_closed n x : lcg_iter n x - x = gsum lcg_a n * ((lcg_a - 1) * x + lcg_c).
Proof.
  induction n as [|n IH]; [cbn; lia|]. rewrite lcg_iter_S. cbn [gsum]. nia.
Qed.

Lemma lcg_iter_inj k n x : 0 ≤ k → (2^k | lcg_iter n x - x) → (2^k | Z.of_nat n).
Proof.
  intros Hk Hd. apply (gsum_divide k Hk lcg_a); [done|]. rewrite lcg_iter_closed, Z.mul_comm in Hd.
  apply (odd_divide k Hk) in Hd; [done|]. unfold lcg_a, lcg_c. Z.div_mod_to_equations. lia.
Qed.

(** States of [n] successive steps from [x], modulo [2^k]. *)
Definition lcg_states (k : Z) (n : nat) (x : Z) : list Z := (λ i, lcg_iter (S i) x `mod` 2^k) <$> seq 0 n.

Lemma lcg_states_perm k x : 0 ≤ k → lcg_states k (Z.to_nat (2^k)) x ≡ₚ seqZ 0 (2^k).
Proof.
  intros Hk. assert (Hp : 0 < 2^k) by (apply Z.pow_pos_nonneg; lia). set (n := Z.to_nat (2^k)).
  assert (Hn : Z.of_nat n = 2^k) by lia. apply Permutation.NoDup_Permutation_bis.
  - apply NoDup_ListNoDup, NoDup_fmap_2_strong; [|apply NoDup_seq].
    assert (Hlt : ∀ i j, (i < j)%nat → (j < n)%nat → lcg_iter (S i) x `mod` 2^k = lcg_iter (S j) x `mod` 2^k → False).
    { intros i j Hij Hj E. assert (Hd : (2^k | Z.of_nat (j - i))).
      { apply (lcg_iter_inj k _ (lcg_iter (S i) x) Hk). rewrite <- lcg_iter_add. replace (S i + (j - i))%nat with (S j) by lia.
        apply Z.mod_divide; [lia|]. rewrite Zminus_mod, E, Z.sub_diag. done. }
      apply Z.divide_pos_le in Hd; lia. }
    intros i j [_ Hi]%elem_of_seq [_ Hj]%elem_of_seq E. cbn in *.
    destruct (Nat.lt_trichotomy i j) as [H|[H|H]]; [by destruct (Hlt i j)|done|by destruct (Hlt j i)].
  - unfold lcg_states. rewrite length_fmap, length_seq, length_seqZ. lia.
  - intros v Hv%list_elem_of_In. apply list_elem_of_In. apply list_elem_of_fmap in Hv as (i & -> & _). apply elem_of_seqZ.
    pose proof (Z.mod_pos_bound (lcg_iter (S i) x) (2^k)). lia.
Qed.

(** Of the states of a period, those in an interval. *)
Lemma lcg_states_count k x (P : Z → Prop) `{∀ z, Decision (P z)} lo len :
  0 ≤ k → 0 ≤ lo → 0 ≤ len → lo + len ≤ 2^k → (∀ z, 0 ≤ z < 2^k → P z ↔ lo ≤ z < lo + len) →
  length (filter P (lcg_states k (Z.to_nat (2^k)) x)) = Z.to_nat len.
Proof.
  intros Hk Hlo Hlen Hhi HP. rewrite lcg_states_perm by done. rewrite <- (length_seqZ lo len). apply Permutation_length, NoDup_Permutation.
  - apply NoDup_filter, NoDup_seqZ.
  - apply NoDup_seqZ.
  - intros z. rewrite list_elem_of_filter, !elem_of_seqZ. split; [intros [Hz Hr]; apply HP; [lia|done]|].
    intros Hr. split; [apply HP; lia|lia].
Qed.

Lemma lcg_iter_mod k n x y : 0 ≤ k → x `mod` 2^k = y `mod` 2^k → lcg_iter n x `mod` 2^k = lcg_iter n y `mod` 2^k.
Proof.
  intros Hk. assert (Hp : 0 < 2^k) by (apply Z.pow_pos_nonneg; lia). revert x y. induction n as [|n IH]; intros x y E; [done|]. cbn [lcg_iter]. apply IH.
  rewrite Z.add_mod, Z.mul_mod, E, <- Z.mul_mod, <- Z.add_mod by lia. done.
Qed.

Lemma lcg_states_mod k n x y : 0 ≤ k → x `mod` 2^k = y `mod` 2^k → lcg_states k n x = lcg_states k n y.
Proof. intros Hk E. unfold lcg_states. apply list_fmap_ext. intros i j _. by apply lcg_iter_mod. Qed.

Lemma lcg_states_S k n x : lcg_states k (S n) x = (x * lcg_a + lcg_c) `mod` 2^k :: lcg_states k n (x * lcg_a + lcg_c).
Proof.
  unfold lcg_states. cbn [seq]. rewrite fmap_cons. f_equal. rewrite <- fmap_S_seq, <- list_fmap_compose. done.
Qed.

(** ** Exact probabilities *)

Lemma filter_fmap_length {A B} (f : A → B) (P : B → Prop) `{∀ y, Decision (P y)} l :
  length (filter P (f <$> l)) = length (filter (λ x, P (f x)) l).
Proof. induction l as [|x l IH]; [done|]. rewrite fmap_cons, !filter_cons. destruct (decide (P (f x))); cbn; by rewrite IH. Qed.

(** [n] decisions of [edfi_onfdp_fault_prob] in a row. *)
Fixpoint prob_decisions {P} `{platform P} (b : build) (n : nat) (s : edfi P) : list Z :=
  match n with O => [] | S n' => let '(r, s') := edfi_onfdp_fault_prob b s in r :: prob_decisions b n' s' end.

(** The period of the generator's low 31 bits, from which both platforms take the result. *)
Definition period : nat := Z.to_nat (2^31).

Section Decisions.
Context {P : Type} `{platform P} (b : build) (st : P → Z) (out : Z → Z).
Hypothesis word : word_ok b.
Hypothesis out_range : ∀ z, 0 ≤ z < 2^31 → 0 ≤ out z < 2^31.
Hypothesis rand_out : ∀ p, (edfi_rand p).1 = out (st (edfi_rand p).2 `mod` 2^31).
Hypothesis rand_next : ∀ p, st (edfi_rand p).2 `mod` 2^31 = (st p * lcg_a + lcg_c) `mod` 2^31.

Lemma decisions_states r : 0 < r → ∀ n (s : edfi P), fault_prob_randmax (conf s) = r →
  prob_decisions b n s = (λ z, if r <=? out z then 0 else 1) <$> lcg_states 31 n (st (plat s)).
Proof.
  intros Hr. induction n as [|n IH]; intros s Hs; [done|]. rewrite lcg_states_S, fmap_cons. cbn [prob_decisions].
  unfold edfi_onfdp_fault_prob, rand. rewrite Hs. destruct (Z.eqb_spec r 0); [lia|].
  pose proof (rand_out (plat s)) as Ho. pose proof (rand_next (plat s)) as Hn. destruct (edfi_rand (plat s)) as [v p] eqn:E. cbn in Ho, Hn.
  assert (Hv : 0 ≤ v < 2^31) by (rewrite Ho; apply out_range, Z.mod_pos_bound; lia).
  rewrite ulong_small by (destruct word as [-> | ->]; lia).
  change (conf (set_plat s p)) with (conf s). rewrite Hs, Ho, Hn. rewrite (lcg_states_mod 31 n _ (st p)) by done.
  destruct (Z.leb_spec r (out ((st (plat s) * lcg_a + lcg_c) `mod` 2^31))); f_equal; by rewrite IH.
Qed.

Lemma decisions_count r lo len (s : edfi P) :
  fault_prob_randmax (conf s) = r → 0 < r → 0 ≤ lo → 0 ≤ len → lo + len ≤ 2^31 →
  (∀ z, 0 ≤ z < 2^31 → out z < r ↔ lo ≤ z < lo + len) →
  length (filter (λ d, d = 1) (prob_decisions b period s)) = Z.to_nat len.
Proof.
  intros Hs Hr Hlo Hlen Hhi Hz. rewrite (decisions_states r) by done. rewrite filter_fmap_length.
  apply (lcg_states_count 31 _ _ lo len); try lia. intros z Hz'. cbn. rewrite <- (Hz z) by done.
  destruct (Z.leb_spec r (out z)); split; intros; done || lia.
Qed.
End Decisions.

Lemma ulong_low sz z : sz = 4 ∨ sz = 8 → ulong sz z `mod` 2^31 = z `mod` 2^31.
Proof. intros Hsz. unfold ulong. apply Z.mod_mod_divide. destruct Hsz as [-> | ->]; [by exists 2|by exists (2^33)]. Qed.

Lemma unix_out x : u32 (x / 65536) `mod` 32768 = (x `mod` 2^31) / 65536.
Proof.
  unfold u32. rewrite (Z.mod_mod_divide (x / 65536) (2^32) 32768) by (by exists 131072).
  change (2^31) with (65536 * 32768). rewrite Z.rem_mul_r by lia. rewrite Z.add_comm, (Z.mul_comm 65536), Z.div_add_l by lia.
  rewrite (Z.div_small (x `mod` 65536)) by (apply Z.mod_pos_bound; lia). lia.
Qed.

Section Platforms.
Context (b : build) (rdtsc : nat → Z) (dlopen : string → option Z) (dlsym : Z → string → bool).
Context (RAND_MAX : Z) (micros : nat → Z) (ENOSYS : Z).
Hypothesis word : word_ok b.
#[local] Existing Instance unix_platform.
#[local] Existing Instance minix_platform.

(** The implementation keeps what the runtime relies on. *)
#[local] Instance unix_platform_ok : @platform_ok unix_plat (unix_platform (sz b) rdtsc dlopen dlsym).
Proof.
  split; intros p; cbn.
  - pose proof (Z.mod_pos_bound (u32 (rand_step (sz b) (edfi_rand_next p) / 65536)) 32768). lia.
  - set (x := u64 (rdtsc (tsc_reads p))). pose proof (u64_range (rdtsc (tsc_reads p))) as Hx. fold x in Hx.
    pose proof (Z.div_pos x (Z.of_N (edfi_cycles_per_ns p))) as H0. pose proof (Z.div_le_upper_bound x (Z.of_N (edfi_cycles_per_ns p)) x) as H1.
    destruct (edfi_cycles_per_ns p) as [|q]; [rewrite Z.div_0_r; lia|]. nia.
Qed.

#[local] Instance minix_platform_ok : 0 ≤ RAND_MAX < 2^31 → @platform_ok minix_plat (minix_platform (sz b) RAND_MAX micros ENOSYS).
Proof.
  intros Hm. split; intros p; cbn.
  - rewrite ulong_small by (destruct word as [-> | ->]; lia).
    pose proof (Z.mod_pos_bound (rand_step (sz b) (minix_rand_next p)) (RAND_MAX + 1)). rewrite s32_small; lia.
  - apply u64_range.
Qed.

(** C13: on the platform of user programs the probability is exact: of the [2^31]
    decisions of a period of the generator, from any state, exactly
    [fault_prob_randmax] in [EDFI_RAND_MAX + 1] are for a fault. *)
Theorem unix_probability_exact (s : edfi unix_plat) r :
  fault_prob_randmax (conf s) = r → 0 < r ≤ EDFI_RAND_MAX + 1 →
  Z.of_nat (length (filter (λ d, d = 1) (@prob_decisions _ (unix_platform (sz b) rdtsc dlopen dlsym) b period s))) * (EDFI_RAND_MAX + 1)
    = r * 2^31.
Proof.
  intros Hs Hr. unfold EDFI_RAND_MAX in *.
  rewrite (decisions_count b edfi_rand_next (λ z, z / 65536) word) with (r := r) (lo := 0) (len := r * 65536); [lia|..]; try done; try lia.
  - intros z Hz. Z.div_mod_to_equations. lia.
  - intros p. cbn. apply unix_out.
  - intros p. cbn. apply ulong_low, word.
  - intros z Hz. Z.div_mod_to_equations. lia.
Qed.

(** On MINIX a result has 31 bits, although [fault_prob_randmax] is computed for
    [EDFI_RAND_MAX]: of the same number of decisions only [fault_prob_randmax] are for
    a fault, a [2^16]th of the probability asked for. *)
Lemma minix_probability (s : edfi minix_plat) r :
  RAND_MAX = 2^31 - 1 → fault_prob_randmax (conf s) = r → 0 < r ≤ EDFI_RAND_MAX + 1 →
  Z.of_nat (length (filter (λ d, d = 1) (@prob_decisions _ (minix_platform (sz b) RAND_MAX micros ENOSYS) b period s))) = r.
Proof.
  intros Hm Hs Hr. unfold EDFI_RAND_MAX in *.
  rewrite (decisions_count b minix_rand_next (λ z, z) word) with (r := r) (lo := 0) (len := r); [lia|..]; try done; try lia.
  - intros p. cbn. rewrite Hm, ulong_small by (destruct word as [-> | ->]; lia). change (2^31 - 1 + 1) with (2^31).
    pose proof (Z.mod_pos_bound (rand_step (sz b) (minix_rand_next p)) (2^31)). rewrite s32_small; lia.
  - intros p. cbn. apply ulong_low, word.
Qed.
End Platforms.

Definition demo_unix : edfi unix_plat :=
  {| edfi_onfdp_count := 0; edfi_faultinjection_enabled := true; edfi_faultinjection_enabled_version := 1; edfi_last_fault_time := 0;
     edfi_context := ctx_conf (demo_context 0 0 0)
       {| fault_prob_randmax := 328; min_fdp_interval := 0; faulty_bb_index := 0; min_fault_time_interval := 0; max_time := 0;
          max_faults := 0; rand_seed := 17; dflib_path := "" |};
     plat := {| edfi_rand_next := 17; tsc_reads := 0; edfi_cycles_per_ns := 3; edfi_dflib := None; handlers := None |} |}.

(** With the probability 0.01, 328 of 32768; and the first ten decisions. *)
Lemma unix_probability_exact_witness :
  Z.of_nat (length (filter (λ d, d = 1)
    (@prob_decisions _ (unix_platform 4 (λ _, 0) (λ _, None) (λ _ _, false)) demo_build period demo_unix))) * (EDFI_RAND_MAX + 1) = 328 * 2^31
  ∧ @prob_decisions _ (unix_platform 4 (λ _, 0) (λ _, None) (λ _ _, false)) demo_build 10 demo_unix = [0; 0; 0; 0; 0; 0; 0; 0; 0; 0].
Proof.
  split; [|reflexivity].
  refine (unix_probability_exact demo_build (λ _, 0) (λ _, None) (λ _ _, false) (or_introl eq_refl) demo_unix 328 eq_refl _).
  unfold EDFI_RAND_MAX. lia.
Defined.

(** A running clock: the counter advances by 3000 cycles, or 1000 ns, from a reading to the
    next.  A fault is due when the time limit of the run has passed and the interval
    since the last fault has not. *)
Definition demo_armed_unix : edfi unix_plat :=
  {| edfi_onfdp_count := 0; edfi_faultinjection_enabled := true; edfi_faultinjection_enabled_version := 1; edfi_last_fault_time := 0;
     edfi_context := ctx_conf (ctx_times (demo_context 0 0 0) 0 4500 0 2)
       {| fault_prob_randmax := 32768; min_fdp_interval := 0; faulty_bb_index := 7; min_fault_time_interval := 1000; max_time := 5500;
          max_faults := 2; rand_seed := 17; dflib_path := "" |};
     plat := {| edfi_rand_next := 17; tsc_reads := 5; edfi_cycles_per_ns := 3; edfi_dflib := None; handlers := None |} |}.

Lemma injection_conditions_witness :
  let clock n := 3000 * Z.of_nat n in
  (∃ s', @edfi_onfdp_default _ (unix_platform 4 clock (λ _, None) (λ _ _, false)) demo_build 7 demo_armed_unix = Ret (1, s')) ∧
  (¬ ∃ s', @edfi_onfdp_default _ (unix_platform 4 clock (λ _, None) (λ _ _, false)) demo_build 6 demo_armed_unix = Ret (1, s')) ∧
  @interval_time _ (unix_platform 4 clock (λ _, None) (λ _ _, false)) demo_armed_unix = 5000 ∧
  @limit_time _ (unix_platform 4 clock (λ _, None) (λ _ _, false)) demo_armed_unix = 6000.
Proof.
  intros clock. split_and!; [| |reflexivity|reflexivity].
  - apply (@injection_conditions _ (unix_platform 4 clock (λ _, None) (λ _ _, false)) demo_build 7 demo_armed_unix); [done|].
    split_and!; vm_compute; intros; congruence.
  - intros Hr. apply (@injection_conditions _ (unix_platform 4 clock (λ _, None) (λ _ _, false)) demo_build 6 demo_armed_unix) in Hr; [|done].
    destruct Hr as (_ & _ & _ & _ & Hbb & _). discriminate (Hbb ltac:(reflexivity)).
Defined.
