(* ===== verification/EdfiCtl.v ===== *)
(** * Control of fault injection: [edfictl], the control client and server

    The path of a command: [tools/edfi/edfictl/edfictl.c] turns a command line into a
    request, [edfi/platform/unix_apps/ctl/client] sends it over a stream socket, and the
    server thread that [unix_apps/ctl/server/edfi_ctl_server.c] runs in the program
    decodes it and calls [edfi_process_cmd] of [Edfi].  Requests are modelled byte for
    byte; [getopt_long] is represented by the options and arguments it delivers. *)

From Stdlib Require Import ZArith Lia Ascii String Floats.SpecFloat.
From stdpp Require Import base list numbers strings.
From S2P Require Import Prelude Decimal Double Runtime Edfi EdfiRand.

(** ** Reading numbers *)

Definition is_space (c : ascii) : bool := let n := N_of_ascii c in (N.eqb n 32 || (N.leb 9 n && N.leb n 13))%bool.
Fixpoint skip_space (s : string) : string :=
  match s with String c s' => if is_space c then skip_space s' else s | EmptyString => s end.

Definition digit_of (c : ascii) : Z :=
  let n := Z.of_N (N_of_ascii c) in
  if (48 <=? n) && (n <=? 57) then n - 48
  else if (97 <=? n) && (n <=? 102) then n - 87
  else if (65 <=? n) && (n <=? 70) then n - 55 else 16.
Fixpoint read_base (base v : Z) (s : string) : Z :=
  match s with
  | String c s' => if digit_of c <? base then read_base base (v * base + digit_of c) s' else v
  | EmptyString => v
  end.

Definition sign_of (s : string) : bool * string :=
  match s with
  | String c s' => if ascii_dec c "-" then (true, s') else if ascii_dec c "+" then (false, s') else (false, s)
  | EmptyString => (false, s)
  end.
Definition base_of (s : string) : Z * string :=
  match s with
  | String z s' =>
      if ascii_dec z "0" then
        match s' with
        | String x (String d _ as r) =>
            if (bool_decide (x = "x"%char) || bool_decide (x = "X"%char)) && (digit_of d <? 16) then (16, r) else (8, s)
        | _ => (8, s)
        end
      else (10, s)
  | EmptyString => (10, s)
  end.

(** [strtol (s, &tail, 0)] with results of [bits] bits: the value, and whether the tail
    is the start of the string because there is no number. *)
Definition strtol0 (bits : Z) (s : string) : Z * bool :=
  let '(neg, s) := sign_of (skip_space s) in
  let '(base, s) := base_of s in
  match s with
  | String d _ =>
      if digit_of d <? base then
        let v := read_base base 0 s in
        ((if neg then Z.max (- 2^(bits - 1)) (- v) else Z.min v (2^(bits - 1) - 1)), false)
      else (0, true)
  | EmptyString => (0, true)
  end.

(** ** Requests *)

(** [edfi_cmd_data_t]; pointers are addresses of the process that fills them in. *)
Record edfi_cmd_data_t := {
  cmd : Z;
  status : Z;
  context_size : Z;
  params_size : Z;
  context_ptr : Z;
  params_ptr : Z;
}.
Definition EDFI_DFLIB_PATH_MAX : Z := 512.

(** A [float] and the encoding of its value. *)
Abbreviation float := spec_float.
Definition float_bits (x : float) : Z :=
  let sgn (s : bool) : Z := if s then 2^31 else 0 in
  match x with
  | S754_zero s => sgn s
  | S754_infinity s => sgn s + 255 * 2^23
  | S754_nan => 255 * 2^23 + 2^22
  | S754_finite s m e => sgn s + if Zpos m <? 2^23 then Zpos m else (e + 150) * 2^23 + (Zpos m - 2^23)
  end.

Definition bytes_of (s : string) : list Z := (λ a, Z.of_N (N_of_ascii a)) <$> list_ascii_of_string s.
Fixpoint until_nul (l : list Z) : option (list Z) :=
  match l with [] => None | b :: l' => if b =? 0 then Some [] else (b ::.) <$> until_nul l' end.
Definition string_of_bytes (l : list Z) : string := string_of_list_ascii ((λ b, ascii_of_N (Z.to_N b)) <$> l).

(** Assignments to the members of the configuration. *)
Definition set_randmax (v : Z) (k : edfi_context_conf_t) : edfi_context_conf_t :=
  {| fault_prob_randmax := v; min_fdp_interval := min_fdp_interval k; faulty_bb_index := faulty_bb_index k; min_fault_time_interval := min_fault_time_interval k;
     max_time := max_time k; max_faults := max_faults k; rand_seed := rand_seed k; dflib_path := dflib_path k |}.
Definition set_fdp_interval (v : Z) (k : edfi_context_conf_t) : edfi_context_conf_t :=
  {| fault_prob_randmax := fault_prob_randmax k; min_fdp_interval := v; faulty_bb_index := faulty_bb_index k; min_fault_time_interval := min_fault_time_interval k;
     max_time := max_time k; max_faults := max_faults k; rand_seed := rand_seed k; dflib_path := dflib_path k |}.
Definition set_time_interval (v : Z) (k : edfi_context_conf_t) : edfi_context_conf_t :=
  {| fault_prob_randmax := fault_prob_randmax k; min_fdp_interval := min_fdp_interval k; faulty_bb_index := faulty_bb_index k; min_fault_time_interval := v;
     max_time := max_time k; max_faults := max_faults k; rand_seed := rand_seed k; dflib_path := dflib_path k |}.
Definition set_max_time (v : Z) (k : edfi_context_conf_t) : edfi_context_conf_t :=
  {| fault_prob_randmax := fault_prob_randmax k; min_fdp_interval := min_fdp_interval k; faulty_bb_index := faulty_bb_index k; min_fault_time_interval := min_fault_time_interval k;
     max_time := v; max_faults := max_faults k; rand_seed := rand_seed k; dflib_path := dflib_path k |}.
Definition set_max_faults (v : Z) (k : edfi_context_conf_t) : edfi_context_conf_t :=
  {| fault_prob_randmax := fault_prob_randmax k; min_fdp_interval := min_fdp_interval k; faulty_bb_index := faulty_bb_index k; min_fault_time_interval := min_fault_time_interval k;
     max_time := max_time k; max_faults := v; rand_seed := rand_seed k; dflib_path := dflib_path k |}.
Definition set_seed (v : Z) (k : edfi_context_conf_t) : edfi_context_conf_t :=
  {| fault_prob_randmax := fault_prob_randmax k; min_fdp_interval := min_fdp_interval k; faulty_bb_index := faulty_bb_index k; min_fault_time_interval := min_fault_time_interval k;
     max_time := max_time k; max_faults := max_faults k; rand_seed := v; dflib_path := dflib_path k |}.
Definition set_dflib (v : string) (k : edfi_context_conf_t) : edfi_context_conf_t :=
  {| fault_prob_randmax := fault_prob_randmax k; min_fdp_interval := min_fdp_interval k; faulty_bb_index := faulty_bb_index k; min_fault_time_interval := min_fault_time_interval k;
     max_time := max_time k; max_faults := max_faults k; rand_seed := rand_seed k; dflib_path := v |}.

Section Ctl.
(** Bytes of a pointer, a [long] and a [size_t]. *)
Variable w : nat.
Variable strtof : string → float * bool.
Definition bits : Z := 8 * Z.of_nat w.

Definition sizeof_cmd_data : nat := 8 + 4 * w.
(** [edfi_context_t]: the members before [c], [c] with its padding, the second canary. *)
Definition conf_offset : nat := 52 + 4 * w.
Definition conf_size : nat := 552.
Definition sizeof_context : nat := conf_offset + conf_size + 4.

Definition encode_cmd (d : edfi_cmd_data_t) : list Z :=
  le_split 4 (cmd d) ++ le_split 4 (status d) ++ le_split w (context_size d) ++ le_split w (params_size d) ++
  le_split w (context_ptr d) ++ le_split w (params_ptr d).

(** The number at byte [off] of [n] bytes. *)
Definition field (l : list Z) (off n : nat) : Z := le_join (take n (drop off l)).
Definition decode_cmd (l : list Z) : edfi_cmd_data_t :=
  {| cmd := field l 0 4; status := s32 (field l 4 4); context_size := field l 8 w; params_size := field l (8 + w) w;
     context_ptr := field l (8 + 2 * w) w; params_ptr := field l (8 + 3 * w) w |}.

Definition encode_conf (prob : float) (k : edfi_context_conf_t) : list Z :=
  let path := bytes_of (dflib_path k) in
  le_split 4 (float_bits prob) ++ le_split w (fault_prob_randmax k) ++ le_split 4 (min_fdp_interval k) ++
  le_split 4 (faulty_bb_index k) ++ le_split 4 (min_fault_time_interval k) ++ le_split 4 (max_time k) ++
  le_split 8 (max_faults k) ++ le_split 4 (rand_seed k) ++ path ++ replicate (conf_size - 32 - w - length path) 0.
(** The context that [edfictl] sends is zero but for its configuration. *)
Definition encode_context (prob : float) (k : edfi_context_conf_t) : list Z :=
  replicate conf_offset 0 ++ encode_conf prob k ++ replicate 4 0.

Definition decode_conf (l : list Z) : option edfi_context_conf_t :=
  path ← until_nul (take (Z.to_nat EDFI_DFLIB_PATH_MAX) (drop (32 + w) l));
  Some {| fault_prob_randmax := field l 4 w; min_fdp_interval := s32 (field l (4 + w) 4); faulty_bb_index := s32 (field l (8 + w) 4);
          min_fault_time_interval := field l (12 + w) 4; max_time := field l (16 + w) 4; max_faults := field l (20 + w) 8;
          rand_seed := field l (28 + w) 4; dflib_path := string_of_bytes path |}.
(** The context the server works with, of which only the configuration is read. *)
Definition context_with (k : edfi_context_conf_t) : edfi_context_t :=
  {| fault_fdp_count := 0; fault_time := 0; start_time := 0; total_faults := 0; fault_types := []; bb_num_executions := [];
     bb_num_faults := []; num_bbs := 0; c := k |}.

(** ** [edfictl.c]: the command line *)

(** The request under construction, the static context and the parameters. *)
Record args := { a_data : edfi_cmd_data_t; a_prob : float; a_conf : edfi_context_conf_t; a_params : string }.
(** Where [edfictl] has its context and the parameters. *)
Variables context_addr params_addr : Z.

Definition with_sizes (a : args) (cs ps cp pp : Z) : args :=
  {| a_data := {| cmd := cmd (a_data a); status := status (a_data a); context_size := cs; params_size := ps; context_ptr := cp; params_ptr := pp |};
     a_prob := a_prob a; a_conf := a_conf a; a_params := a_params a |}.
Definition with_conf (a : args) (k : edfi_context_conf_t) : args :=
  {| a_data := a_data a; a_prob := a_prob a; a_conf := k; a_params := a_params a |}.

Definition update_cmd_context_data (a : args) : args :=
  let d := a_data a in
  if context_size d =? 0 then with_sizes a (Z.of_nat sizeof_context) (params_size d) context_addr (params_ptr d) else a.
Definition update_cmd_params_data (a : args) (params : string) : args :=
  let d := a_data a in
  if params_size d =? 0 then
    let a := with_sizes a (context_size d) (Z.of_nat (String.length params) + 1) (context_ptr d) params_addr in
    {| a_data := a_data a; a_prob := a_prob a; a_conf := a_conf a; a_params := params |}
  else a.

(** The parsers give a return value, the value parsed and the request. *)
Definition parse_context_int (arg : string) (a : args) : Z * Z * args :=
  let '(v, at_start) := strtol0 bits arg in
  let value := s32 v in
  if (value =? 0) && at_start then (-1, value, a) else (0, value, update_cmd_context_data a).
Definition parse_context_uint (arg : string) (a : args) : Z * option Z * args :=
  let '(ret, int_value, a) := parse_context_int arg a in
  if (ret <? 0) || (int_value <? 0) then
    let d := a_data a in (ret, None, with_sizes a 0 (params_size d) (context_ptr d) (params_ptr d))
  else (0, Some int_value, a).
Definition parse_context_ulonglong (arg : string) (a : args) : Z * Z * args :=
  let '(v, at_start) := strtol0 64 arg in
  let value := u64 v in
  if (value =? 0) && at_start then (-1, value, a) else (0, value, update_cmd_context_data a).
Definition parse_context_float (arg : string) (a : args) : Z * float * args :=
  let '(value, at_start) := strtof arg in
  if SFeqb value (S754_zero false) && at_start then (-1, value, a) else (0, value, update_cmd_context_data a).
Definition parse_context_str (arg : string) (max_len : Z) (a : args) : Z * option string * args :=
  if (Z.of_nat (String.length arg) =? 0) || (max_len <? Z.of_nat (String.length arg) + 1) then (-1, None, a)
  else (0, Some arg, update_cmd_context_data a).
Definition parse_params (arg : string) (a : args) : Z * args :=
  if Z.of_nat (String.length arg) =? 0 then (-1, a) else (0, update_cmd_params_data a arg).

(** [(unsigned long) x]: the integral part, undefined if it does not fit. *)
Definition ulong_of_float (x : float) : res Z :=
  match x with
  | S754_zero _ => Ret 0
  | S754_finite s m e =>
      let v := if 0 <=? e then Zpos m * 2^e else Zpos m / 2^(- e) in
      if s then (if v =? 0 then Ret 0 else Stop FOverflow) else if v <? 2^bits then Ret v else Stop FOverflow
  | _ => Stop FOverflow
  end.
Definition rand_range : float := S754_finite false 8388608 (-8).
Definition randmax_of (prob : float) : res Z :=
  let! r := ulong_of_float (SFmul 24 128 prob rand_range) in
  Ret (if SFltb (S754_zero false) prob && (r =? 0) then 1 else r).

(** The cases of the [switch] in [parse_args]. *)
Definition handle_option (opt : ascii) (optarg : string) (a : args) : res (Z * args) :=
  if ascii_dec opt "p" then
    let '(ret, value, a) := parse_context_float optarg a in
    let! r := randmax_of value in
    Ret (ret, {| a_data := a_data a; a_prob := value; a_conf := set_randmax r (a_conf a); a_params := a_params a |})
  else if ascii_dec opt "f" then
    let '(ret, value, a) := parse_context_int optarg a in Ret (ret, with_conf a (set_fdp_interval value (a_conf a)))
  else if ascii_dec opt "t" then
    let '(ret, value, a) := parse_context_uint optarg a in Ret (ret, with_conf a (from_option set_time_interval id value (a_conf a)))
  else if ascii_dec opt "T" then
    let '(ret, value, a) := parse_context_uint optarg a in Ret (ret, with_conf a (from_option set_max_time id value (a_conf a)))
  else if ascii_dec opt "F" then
    let '(ret, value, a) := parse_context_ulonglong optarg a in Ret (ret, with_conf a (set_max_faults value (a_conf a)))
  else if ascii_dec opt "r" then
    let '(ret, value, a) := parse_context_uint optarg a in Ret (ret, with_conf a (from_option set_seed id value (a_conf a)))
  else if ascii_dec opt "l" then
    let '(ret, value, a) := parse_context_str optarg EDFI_DFLIB_PATH_MAX a in Ret (ret, with_conf a (from_option set_dflib id value (a_conf a)))
  else if ascii_dec opt "L" then Ret (parse_params optarg a)
  else Ret (-1, a).

(** The loop over the options [getopt_long] delivers. *)
Fixpoint options_loop (opts : list (ascii * string)) (a : args) : res (Z * args) :=
  match opts with
  | [] => Ret (0, a)
  | (opt, optarg) :: opts' =>
      let! ra := handle_option opt optarg a in
      let '(ret, a) := ra in
      if ret <? 0 then Ret (ret, a) else options_loop opts' a
  end.

Definition supported_cmds : list (Z * string) := [(0, "stop"); (1, "start"); (2, "test"); (3, "stat"); (4, "update")].
Definition parse_cmd (cmd_str : string) : Z :=
  match list_find (λ p, p.2 = cmd_str) supported_cmds with Some (_, (c, _)) => c | None => -1 end.
Definition parse_server_id (server_id_str : string) : Z :=
  let '(v, at_start) := strtol0 bits server_id_str in
  let server_id := s32 v in
  if (server_id =? 0) && at_start then -1 else server_id.

Definition conf_zero : edfi_context_conf_t :=
  {| fault_prob_randmax := 0; min_fdp_interval := 0; faulty_bb_index := 0; min_fault_time_interval := 0; max_time := 0; max_faults := 0;
     rand_seed := 0; dflib_path := "" |}.
Definition args_zero : args :=
  {| a_data := {| cmd := 0; status := 0; context_size := 0; params_size := 0; context_ptr := 0; params_ptr := 0 |};
     a_prob := S754_zero false; a_conf := conf_zero; a_params := "" |}.

(** [parse_args] from the options and the other arguments; [inl] is an error. *)
Definition parse_args (opts : list (ascii * string)) (rest : list string) : res (Z + args * Z) :=
  let! ra := options_loop opts args_zero in
  let '(ret, a) := ra in
  if ret <? 0 then Ret (inl ret)
  else
    match rest with
    | [cmd_str; server_id_str] =>
        let c := parse_cmd cmd_str in
        if c <? 0 then Ret (inl c)
        else
          let d := a_data a in
          let a := {| a_data := {| cmd := c; status := status d; context_size := context_size d; params_size := params_size d;
                                   context_ptr := context_ptr d; params_ptr := params_ptr d |};
                      a_prob := a_prob a; a_conf := a_conf a; a_params := a_params a |} in
          let id := parse_server_id server_id_str in
          if id <? 0 then Ret (inl id) else Ret (inr (a, id))
    | _ => Ret (inl (-2))
    end.

(** ** The client *)

(** What [edfi_ctl_client_send] sends, in the pieces of its calls of [send]; [None] is
    the error [EINVAL].  The context and parameters have the sizes the request says. *)
Definition edfi_ctl_client_send (a : args) : option (list (list Z)) :=
  let d := a_data a in
  if (0 <? params_size d) && (context_size d <=? 0) then None
  else Some ([encode_cmd d] ++ (if 0 <? context_size d then [encode_context (a_prob a) (a_conf a)] else [])
             ++ (if 0 <? params_size d then [bytes_of (a_params a) ++ [0]] else [])).
(** Its result for the reply: the status of the request. *)
Definition edfi_ctl_client_reply (reply : list Z) : Z := if status (decode_cmd reply) <? 0 then -1 else 0.

(** ** The server *)

(** A connection holds the pieces of the stream in the order in which they become
    available; [recv] returns at most what the first one holds. *)
Definition recv (n : nat) (conn : list (list Z)) : list Z * list (list Z) :=
  match conn with
  | [] => ([], [])
  | p :: ps => (take n p, if (n <? length p)%nat then drop n p :: ps else ps)
  end.
(** [recv] into a buffer of [n] zero bytes. *)
Definition recv_buffer (n : nat) (conn : list (list Z)) : list Z * list (list Z) :=
  let '(got, conn) := recv n conn in (got ++ replicate (n - length got) 0, conn).

Definition cmd_of (code : Z) : edfi_ctl_cmd :=
  match code with
  | 0 => EDFI_CTL_CMD_STOP | 1 => EDFI_CTL_CMD_START | 2 => EDFI_CTL_CMD_TEST | 3 => EDFI_CTL_CMD_STAT | 4 => EDFI_CTL_CMD_UPDATE
  | _ => EDFI_CTL_UNKNOWN code
  end.

Context {P : Type} `{platform P}.

(** Where the server has its buffer. *)
Variable buff_addr : Z.

(** The context of a request: a client that sends none leaves a null pointer. *)
Definition receive_context (d : edfi_cmd_data_t) (conn : list (list Z)) : res (option edfi_context_t * edfi_cmd_data_t) :=
  let data_buff_size := (context_size d + params_size d) `mod` 2^bits in
  if 0 <? data_buff_size then
    if negb (context_size d =? Z.of_nat sizeof_context) then Stop (FExit 1)
    else
      let '(data_buff, _) := recv_buffer (Z.to_nat data_buff_size) conn in
      if data_buff_size <? Z.of_nat sizeof_context then Stop FBounds
      else
        match decode_conf (drop conf_offset data_buff) with
        | None => Stop FBounds
        | Some k =>
            Ret (Some (context_with k),
                 {| cmd := cmd d; status := status d; context_size := context_size d; params_size := params_size d;
                    context_ptr := buff_addr; params_ptr := buff_addr + Z.of_nat sizeof_context |})
        end
  else if context_ptr d =? 0 then Ret (None, d) else Stop FBounds.

(** One turn of the loop of [__edfi_ctl_srv]: the reply and the state. *)
Definition serve (conn : list (list Z)) (s : edfi P) : res (list Z * edfi P) :=
  let '(hdr, conn) := recv_buffer sizeof_cmd_data conn in
  let! cd := receive_context (decode_cmd hdr) conn in
  let '(ctx, d) := cd in
  let! rs := edfi_process_cmd (cmd_of (cmd d)) ctx s in
  let '(ret, s) := rs in
  Ret (encode_cmd {| cmd := cmd d; status := ret; context_size := context_size d; params_size := params_size d;
                     context_ptr := context_ptr d; params_ptr := params_ptr d |}, s).
End Ctl.

(** ** Encoding and decoding *)

Lemma field_here l off n z : off = 0%nat → field (le_split n z ++ l) off n = z `mod` 256 ^ Z.of_nat n.
Proof. intros ->. unfold field. rewrite drop_0, take_app_le by (by rewrite length_le_split). rewrite firstn_all2 by (by rewrite length_le_split). apply le_join_split. Qed.

Lemma field_skip l1 l off n : (length l1 ≤ off)%nat → field (l1 ++ l) off n = field l (off - length l1) n.
Proof. intros Hl. unfold field. by rewrite drop_app_ge. Qed.

Ltac fields := repeat (rewrite field_skip by (rewrite ?length_le_split; lia); rewrite ?length_le_split).
Ltac field_at := fields; rewrite field_here by lia; try (apply Z.mod_small; lia).

Lemma s32_mod z : -2^31 ≤ z < 2^31 → s32 (z `mod` 256 ^ Z.of_nat 4) = z.
Proof.
  intros Hz. change (256 ^ Z.of_nat 4) with (2^32). rewrite <- (s32_small z) at 2 by done. unfold s32, signed.
  by rewrite Z.mod_mod by lia.
Qed.

Section Proofs.
Variable w : nat.
Hypothesis word : w = 4%nat ∨ w = 8%nat.

Lemma pow_w : 256 ^ Z.of_nat w = 2 ^ bits w.
Proof. unfold bits. by destruct word as [-> | ->]. Qed.

Record cmd_data_ok (d : edfi_cmd_data_t) : Prop := {
  ok_cmd : 0 ≤ cmd d < 2^32;
  ok_status : -2^31 ≤ status d < 2^31;
  ok_context_size : 0 ≤ context_size d < 2^bits w;
  ok_params_size : 0 ≤ params_size d < 2^bits w;
  ok_context_ptr : 0 ≤ context_ptr d < 2^bits w;
  ok_params_ptr : 0 ≤ params_ptr d < 2^bits w;
}.

Lemma decode_encode_cmd d : cmd_data_ok d → decode_cmd w (encode_cmd w d) = d.
Proof.
  intros []. pose proof pow_w as Hp. destruct d as [c st cs ps cp pp]. unfold decode_cmd, encode_cmd. cbn [cmd status context_size params_size context_ptr params_ptr] in *.
  assert (Hw : (4 ≤ w)%nat) by (destruct word; lia).
  rewrite <- (app_nil_r (le_split w pp)). f_equal.
  - field_at.
  - fields. rewrite field_here by lia. by apply s32_mod.
  - field_at.
  - field_at.
  - field_at.
  - field_at.
Qed.

Lemma length_encode_cmd d : length (encode_cmd w d) = sizeof_cmd_data w.
Proof. unfold encode_cmd, sizeof_cmd_data. rewrite !length_app, !length_le_split. lia. Qed.

(** Strings without a zero byte. *)
Definition c_string (s : string) : Prop := Forall (λ a, a ≠ "000"%char) (list_ascii_of_string s).

Lemma until_nul_app l r : Forall (λ b, b ≠ 0) l → until_nul (l ++ 0 :: r) = Some l.
Proof. intros H. induction H as [|b l Hb H IH]; [done|]. cbn. destruct (Z.eqb_spec b 0); [done|]. by rewrite IH. Qed.

Lemma string_bytes s : string_of_bytes (bytes_of s) = s.
Proof.
  unfold string_of_bytes, bytes_of. rewrite <- list_fmap_compose. transitivity (string_of_list_ascii (list_ascii_of_string s)); [|apply string_of_list_ascii_of_string].
  f_equal. rewrite <- list_fmap_id. apply list_fmap_ext. intros i a _. cbn. by rewrite N2Z.id, ascii_N_embedding.
Qed.

Lemma bytes_nonzero s : c_string s → Forall (λ b, b ≠ 0) (bytes_of s).
Proof.
  intros Hs. unfold bytes_of. apply List.Forall_map. eapply List.Forall_impl; [|exact Hs]. intros a Ha E. apply Ha.
  rewrite <- (ascii_N_embedding a). by replace (N_of_ascii a) with 0%N by lia.
Qed.

Lemma length_bytes_of s : length (bytes_of s) = String.length s.
Proof. unfold bytes_of. rewrite length_fmap. induction s; cbn; [done|]. by f_equal. Qed.

Record conf_ok (k : edfi_context_conf_t) : Prop := {
  ok_randmax : 0 ≤ fault_prob_randmax k < 2^bits w;
  ok_fdp : -2^31 ≤ min_fdp_interval k < 2^31;
  ok_bb : -2^31 ≤ faulty_bb_index k < 2^31;
  ok_mft : 0 ≤ min_fault_time_interval k < 2^32;
  ok_max_time : 0 ≤ max_time k < 2^32;
  ok_max_faults : 0 ≤ max_faults k < 2^64;
  ok_seed : 0 ≤ rand_seed k < 2^32;
  ok_path : c_string (dflib_path k) ∧ (String.length (dflib_path k) < 512)%nat;
}.

Lemma length_encode_conf prob k : conf_ok k → length (encode_conf w prob k) = conf_size.
Proof.
  intros [? ? ? ? ? ? ? [_ Hl]]. unfold encode_conf. rewrite !length_app, !length_le_split, length_replicate, length_bytes_of. unfold conf_size.
  destruct word as [-> | ->]; lia.
Qed.

Lemma decode_encode_conf prob k rest : conf_ok k → decode_conf w (encode_conf w prob k ++ rest) = Some k.
Proof.
  intros Hk. pose proof (length_encode_conf prob k Hk) as Hlen. destruct Hk as [? ? ? ? ? ? ? [Hc Hl]]. pose proof pow_w as Hp.
  assert (Hw : (4 ≤ w ≤ 8)%nat) by (destruct word; lia).
  unfold decode_conf, encode_conf. set (path := bytes_of (dflib_path k)). set (pad := replicate _ 0). rewrite <- !app_assoc.
  assert (Hpath : until_nul (take (Z.to_nat EDFI_DFLIB_PATH_MAX) (drop (32 + w)
    (le_split 4 (float_bits prob) ++ le_split w (fault_prob_randmax k) ++ le_split 4 (min_fdp_interval k) ++ le_split 4 (faulty_bb_index k) ++
     le_split 4 (min_fault_time_interval k) ++ le_split 4 (max_time k) ++ le_split 8 (max_faults k) ++ le_split 4 (rand_seed k) ++ path ++ pad ++ rest))) = Some path).
  { repeat (rewrite drop_app_ge by (rewrite length_le_split; lia); rewrite length_le_split).
    replace (32 + w - 4 - w - 4 - 4 - 4 - 4 - 8 - 4)%nat with 0%nat by lia. rewrite drop_0.
    assert (Hn : length path = String.length (dflib_path k)) by apply length_bytes_of.
    assert (Hpad : pad = 0 :: replicate (conf_size - 32 - w - length path - 1) 0).
    { unfold pad. destruct (conf_size - 32 - w - length path)%nat eqn:E; [unfold conf_size in E; lia|]. cbn [replicate]. do 2 f_equal. lia. }
    rewrite Hpad. change (Z.to_nat EDFI_DFLIB_PATH_MAX) with 512%nat. rewrite take_app_ge by lia.
    destruct (512 - length path)%nat eqn:E; [lia|]. cbn [take app]. apply until_nul_app, bytes_nonzero, Hc. }
  rewrite Hpath. cbn [mbind option_bind]. f_equal. unfold path. rewrite string_bytes. destruct k as [r fdp bb mft mt mf seed lib].
  cbn [fault_prob_randmax min_fdp_interval faulty_bb_index min_fault_time_interval max_time max_faults rand_seed dflib_path] in *.
  f_equal; field_at; by apply s32_mod.
Qed.
End Proofs.

(** ** Reading printed numbers *)

Lemma print_dec_head n : 0 < n → ∃ d s, 0 < d < 10 ∧ print_dec n = String (digit_char d) s.
Proof.
  intros Hn. unfold print_dec. assert (Hf : n < 2 ^ Z.of_nat (digits_fuel n)).
  { unfold digits_fuel. rewrite Nat2Z.inj_succ, Z2Nat.id by apply Z.log2_nonneg. apply Z.log2_spec. lia. }
  revert n Hn Hf. generalize digits_fuel as f. intros f n. generalize (f n) as fuel. clear f. intros fuel. revert n.
  induction fuel as [|fuel IH]; intros n Hn Hf; [cbn in Hf; lia|]. rewrite Nat2Z.inj_succ, Z.pow_succ_r in Hf by lia. cbn [digits_loop].
  destruct (Z.gtb_spec (n / 10) 0) as [Hq|Hq].
  - rewrite digits_loop_app. destruct (IH (n / 10)) as (d & s & Hd & ->); [lia|Z.div_mod_to_equations; lia|]. by exists d, (s +:+ String (digit_char (n `mod` 10)) "").
  - exists (n `mod` 10), "". split; [|done]. Z.div_mod_to_equations. lia.
Qed.

Lemma digit_of_digit c : is_digit c = true → digit_of c = digit_val c.
Proof. unfold is_digit, digit_of, digit_val. by intros ->. Qed.

Lemma digit_of_other c : is_digit c = false → (digit_of c <? 10) = false.
Proof.
  unfold is_digit, digit_of. generalize (Z.of_N (N_of_ascii c)) as n. intros n ->.
  destruct (Z.leb_spec 97 n), (Z.leb_spec n 102), (Z.leb_spec 65 n), (Z.leb_spec n 70); cbn [andb]; apply Z.ltb_ge; lia.
Qed.

Lemma read_base_dec v s : read_base 10 v s = (read_dec v s).1.
Proof.
  revert v. induction s as [|c s IH]; intros v; [done|]. cbn [read_base read_dec]. destruct (is_digit c) eqn:Hc.
  - rewrite digit_of_digit by done. pose proof (is_digit_val c Hc). destruct (Z.ltb_spec (digit_val c) 10); [apply IH|lia].
  - by rewrite digit_of_other.
Qed.

Lemma digit_char_small d : 0 ≤ d < 10 →
  d = 0 ∨ d = 1 ∨ d = 2 ∨ d = 3 ∨ d = 4 ∨ d = 5 ∨ d = 6 ∨ d = 7 ∨ d = 8 ∨ d = 9.
Proof. lia. Qed.

Lemma strtol0_print b n : 0 ≤ n < 2^(b - 1) → 0 < b → strtol0 b (print_dec n) = (n, false).
Proof.
  intros Hn Hb. destruct (Z.eq_dec n 0) as [->|Hne].
  { change (print_dec 0) with "0". transitivity (Z.min 0 (2^(b - 1) - 1), false); [reflexivity|]. f_equal. lia. }
  destruct (print_dec_head n) as (d & s & Hd & E); [lia|].
  assert (Hr : read_base 10 0 (print_dec n) = n).
  { rewrite read_base_dec, <- (string_app_nil_r (print_dec n)), read_print_dec by (done || lia). done. }
  rewrite E in *. unfold strtol0.
  assert (Hs : skip_space (String (digit_char d) s) = String (digit_char d) s ∧ sign_of (String (digit_char d) s) = (false, String (digit_char d) s) ∧
    base_of (String (digit_char d) s) = (10, String (digit_char d) s) ∧ (digit_of (digit_char d) <? 10) = true).
  { pose proof (digit_char_small d ltac:(lia)) as Hc. repeat destruct Hc as [-> | Hc]; [lia|done..|by subst d]. }
  destruct Hs as (-> & -> & -> & ->). rewrite Hr. f_equal. lia.
Qed.

(** ** From the command line to the runtime *)

(** Options as they are meant: a probability with its text and its value [m 2^e], and
    the numbers and strings of the others. *)
Inductive setting :=
| SProb (text : string) (m : positive) (e : Z)
| SFdpInterval (n : Z) | STimeInterval (ms : Z) | SMaxTime (ms : Z) | SMaxFaults (n : Z) | SSeed (n : Z)
| SDflib (path : string) | SParams (params : string).

Definition print_setting (st : setting) : ascii * string :=
  match st with
  | SProb text _ _ => ("p"%char, text)
  | SFdpInterval n => ("f"%char, print_dec n)
  | STimeInterval n => ("t"%char, print_dec n)
  | SMaxTime n => ("T"%char, print_dec n)
  | SMaxFaults n => ("F"%char, print_dec n)
  | SSeed n => ("r"%char, print_dec n)
  | SDflib path => ("l"%char, path)
  | SParams params => ("L"%char, params)
  end.

(** The configuration asked for: a probability is rounded down to 32768ths, but not to 0. *)
Definition apply_setting (k : edfi_context_conf_t) (st : setting) : edfi_context_conf_t :=
  match st with
  | SProb _ m e => set_randmax (Z.max 1 (Zpos m / 2^(- e - 15))) k
  | SFdpInterval n => set_fdp_interval n k
  | STimeInterval n => set_time_interval n k
  | SMaxTime n => set_max_time n k
  | SMaxFaults n => set_max_faults n k
  | SSeed n => set_seed n k
  | SDflib path => set_dflib path k
  | SParams _ => k
  end.
Definition wanted_conf (l : list setting) : edfi_context_conf_t := foldl apply_setting conf_zero l.
Definition is_params (st : setting) : bool := match st with SParams _ => true | _ => false end.
Definition has_context (l : list setting) : bool := existsb (λ st, negb (is_params st)) l.

(** A connection on which each call of [recv] of the server gets all it asks for. *)
Definition delivered (pieces conn : list (list Z)) : Prop :=
  match pieces with [] => False | hdr :: rest => conn = [hdr; concat rest] ∨ conn = [hdr ++ concat rest] end.

Section Command.
Variable w : nat.
Variable strtof : string → float * bool.
Variables context_addr params_addr buff_addr : Z.
Hypothesis word : w = 4%nat ∨ w = 8%nat.
Hypothesis addresses : 0 < context_addr < 2^bits w ∧ 0 < params_addr < 2^bits w ∧ 0 < buff_addr < 2^(bits w - 1).

Definition setting_ok (st : setting) : Prop :=
  match st with
  | SProb text m e => strtof text = (S754_finite false m e, false) ∧ Zpos (digits2_pos m) = 24 ∧ -149 ≤ e ≤ -23 ∧ Zpos m ≤ 2^(- e)
  | SFdpInterval n | STimeInterval n | SMaxTime n | SSeed n => 0 ≤ n < 2^31
  | SMaxFaults n => 0 ≤ n < 2^63
  | SDflib path => c_string path ∧ (0 < String.length path < 512)%nat
  | SParams params => c_string params ∧ (0 < String.length params)%nat ∧ Z.of_nat (String.length params) < 2^16
  end.

Lemma bits_w : bits w = 32 ∨ bits w = 64.
Proof. unfold bits. destruct word as [-> | ->]; lia. Qed.

Lemma randmax_of_value m e : Zpos (digits2_pos m) = 24 → -149 ≤ e ≤ -23 → Zpos m ≤ 2^(- e) →
  randmax_of w (S754_finite false m e) = Ret (Z.max 1 (Zpos m / 2^(- e - 15))).
Proof.
  intros Hd He Hm. unfold randmax_of.
  assert (Hmul : SFmul 24 128 (S754_finite false m e) rand_range = S754_finite false m (e + 15)).
  { unfold rand_range. cbn [SFmul xorb]. replace (m * 8388608)%positive with (shiftp m 23) by (apply Pos2Z.inj; rewrite shiftp_Z; lia).
    rewrite round_exact; [f_equal; lia|]. unfold canonical_at, fexp, SpecFloat.emin. lia. }
  rewrite Hmul. unfold ulong_of_float. destruct (Z.leb_spec 0 (e + 15)); [lia|]. replace (- (e + 15)) with (- e - 15) by lia.
  assert (Hle : 0 ≤ Zpos m / 2^(- e - 15) ≤ 2^15).
  { assert (0 < 2^(- e - 15)) by (apply Z.pow_pos_nonneg; lia). split; [apply Z.div_pos; lia|].
    apply Z.div_le_upper_bound; [done|]. rewrite <- Z.pow_add_r by lia. by replace (- e - 15 + 15) with (- e) by lia. }
  destruct (Z.ltb_spec (Zpos m / 2^(- e - 15)) (2^bits w)) as [_|Hge]; [|destruct bits_w as [E|E]; rewrite E in Hge; lia].
  cbn [res_bind]. change (SFltb (S754_zero false) (S754_finite false m e)) with true. cbn [andb].
  destruct (Z.eqb_spec (Zpos m / 2^(- e - 15)) 0) as [->|]; f_equal; lia.
Qed.

(** What the options parsed so far have left in the request. *)
Record parsed (l : list setting) (a : args) : Prop := {
  pa_conf : a_conf a = wanted_conf l;
  pa_context : if has_context l then context_size (a_data a) = Z.of_nat (sizeof_context w) ∧ context_ptr (a_data a) = context_addr
               else context_size (a_data a) = 0 ∧ context_ptr (a_data a) = 0;
  pa_params : if existsb is_params l
              then params_size (a_data a) = Z.of_nat (String.length (a_params a)) + 1 ∧ params_ptr (a_data a) = params_addr ∧
                   Z.of_nat (String.length (a_params a)) < 2^16
              else params_size (a_data a) = 0 ∧ params_ptr (a_data a) = 0;
  pa_status : status (a_data a) = 0;
}.

Lemma options_loop_app l1 l2 a :
  options_loop w strtof context_addr params_addr (l1 ++ l2) a =
  let! ra := options_loop w strtof context_addr params_addr l1 a in
  let '(ret, a) := ra in if ret <? 0 then Ret (ret, a) else options_loop w strtof context_addr params_addr l2 a.
Proof.
  revert a. induction l1 as [|[c s] l1 IH]; intros a; [done|]. cbn [app options_loop].
  destruct (handle_option w strtof context_addr params_addr c s a) as [[ret a']|f]; [|done]. cbn [res_bind].
  destruct (ret <? 0) eqn:E; [cbn [res_bind]; by rewrite E|]. apply IH.
Qed.

Lemma wanted_snoc l st : wanted_conf (l ++ [st]) = apply_setting (wanted_conf l) st.
Proof. unfold wanted_conf. by rewrite foldl_app. Qed.

(** A context option: the context is sent from now on. *)
Lemma parsed_context l st a prob : parsed l a → is_params st = false →
  parsed (l ++ [st]) {| a_data := a_data (update_cmd_context_data w context_addr a); a_prob := prob;
                        a_conf := apply_setting (wanted_conf l) st; a_params := a_params (update_cmd_context_data w context_addr a) |}.
Proof.
  intros [Hk Hc Hp Hs] Hst. assert (Hsz : 0 < Z.of_nat (sizeof_context w)) by (unfold sizeof_context, conf_size; lia).
  assert (He : has_context (l ++ [st]) = true ∧ existsb is_params (l ++ [st]) = existsb is_params l).
  { unfold has_context. rewrite !existsb_app. cbn. rewrite Hst. by rewrite !orb_true_r, !orb_false_r. }
  destruct He as [He1 He2]. unfold update_cmd_context_data.
  destruct (Z.eqb_spec (context_size (a_data a)) 0) as [E|E]; split; cbn; rewrite ?wanted_snoc, ?He1, ?He2; try done.
  destruct (has_context l); [done|]. by destruct Hc.
Qed.

Lemma parsed_params l params a : parsed l a → (0 < String.length params)%nat → Z.of_nat (String.length params) < 2^16 →
  parsed (l ++ [SParams params]) (update_cmd_params_data params_addr a params).
Proof.
  intros [Hk Hc Hp Hs] Hlen Hmax.
  assert (He : has_context (l ++ [SParams params]) = has_context l ∧ existsb is_params (l ++ [SParams params]) = true).
  { unfold has_context. rewrite !existsb_app. cbn. by rewrite !orb_false_r, !orb_true_r. }
  destruct He as [He1 He2]. unfold update_cmd_params_data.
  destruct (Z.eqb_spec (params_size (a_data a)) 0) as [E|E]; split; cbn; rewrite ?wanted_snoc, ?He1, ?He2; try done.
  destruct (existsb is_params l); [done|]. by destruct Hp.
Qed.

Ltac pick_option :=
  repeat match goal with
         | |- context [ascii_dec ?x ?y] => destruct (ascii_dec x y) as [E|E]; [first [discriminate E | clear E]|first [by destruct E | clear E]]
         end.

Lemma int_arg n : 0 ≤ n < 2^31 → strtol0 (bits w) (print_dec n) = (n, false) ∧ s32 n = n.
Proof. intros Hn. split; [|apply s32_small; lia]. apply strtol0_print; destruct bits_w as [-> | ->]; lia. Qed.

Lemma parse_int_arg n a : 0 ≤ n < 2^31 →
  parse_context_int w context_addr (print_dec n) a = (0, n, update_cmd_context_data w context_addr a).
Proof. intros Hn. unfold parse_context_int. destruct (int_arg n Hn) as [-> ->]. by rewrite andb_false_r. Qed.

Lemma parse_uint_arg n a : 0 ≤ n < 2^31 →
  parse_context_uint w context_addr (print_dec n) a = (0, Some n, update_cmd_context_data w context_addr a).
Proof. intros Hn. unfold parse_context_uint. rewrite parse_int_arg by done. cbn [orb Z.ltb Z.compare]. by destruct (Z.ltb_spec n 0); [lia|]. Qed.

Lemma update_conf a : a_conf (update_cmd_context_data w context_addr a) = a_conf a.
Proof. unfold update_cmd_context_data. by destruct (context_size (a_data a) =? 0). Qed.

Lemma handle_setting l st a : parsed l a → setting_ok st →
  ∃ a', handle_option w strtof context_addr params_addr (print_setting st).1 (print_setting st).2 a = Ret (0, a') ∧ parsed (l ++ [st]) a'.
Proof.
  intros Ha Hst. pose proof (pa_conf _ _ Ha) as Hk. unfold handle_option. destruct st as [text m e|n|n|n|n|n|path|params]; cbn [print_setting fst snd];
    cbn [setting_ok] in Hst; pick_option.
  all: try (rewrite parse_int_arg by done); try (rewrite parse_uint_arg by done); cbn [from_option]; rewrite ?update_conf.
  all: try (eexists; split; [reflexivity|]; unfold with_conf; rewrite Hk; by apply parsed_context).
  - destruct Hst as (Ht & Hd & He & Hm). unfold parse_context_float. rewrite Ht, andb_false_r, randmax_of_value by done.
    cbn [res_bind]. eexists. split; [reflexivity|]. rewrite update_conf, Hk. by apply parsed_context.
  - unfold parse_context_ulonglong. rewrite strtol0_print, u64_small, andb_false_r by lia.
    eexists. split; [reflexivity|]. unfold with_conf. rewrite update_conf, Hk. by apply parsed_context.
  - destruct Hst as [Hc Hl]. unfold parse_context_str. destruct (Z.eqb_spec (Z.of_nat (String.length path)) 0); [lia|].
    destruct (Z.ltb_spec EDFI_DFLIB_PATH_MAX (Z.of_nat (String.length path) + 1)) as [Hlt|_]; [unfold EDFI_DFLIB_PATH_MAX in Hlt; lia|].
    cbn [orb from_option]. eexists. split; [reflexivity|]. unfold with_conf. rewrite update_conf, Hk. by apply parsed_context.
  - destruct Hst as (Hc & Hl & Hmax). unfold parse_params. destruct (Z.eqb_spec (Z.of_nat (String.length params)) 0); [lia|].
    eexists. split; [reflexivity|]. by apply parsed_params.
Qed.

Lemma options_parsed l : Forall setting_ok l →
  ∃ a, options_loop w strtof context_addr params_addr (print_setting <$> l) args_zero = Ret (0, a) ∧ parsed l a.
Proof.
  induction l as [|st l IH] using rev_ind; intros Hl; [by exists args_zero|]. apply Forall_app in Hl as [Hl Hst].
  destruct (IH Hl) as (a & Hr & Ha). apply List.Forall_inv in Hst. destruct (handle_setting l st a Ha Hst) as (a' & Hh & Ha').
  exists a'. split; [|done]. rewrite fmap_app, options_loop_app, Hr. cbn [res_bind fmap list_fmap options_loop].
  change (0 <? 0) with false. cbv iota. destruct (print_setting st) as [c s]. cbn [fst snd] in Hh. by rewrite Hh.
Qed.

Lemma apply_setting_ok k st : conf_ok w k → setting_ok st → conf_ok w (apply_setting k st).
Proof.
  intros Hk Hst. assert (Hb : 2^32 ≤ 2^bits w) by (destruct bits_w as [-> | ->]; lia).
  destruct st as [text m e|n|n|n|n|n|path|params]; cbn [apply_setting setting_ok] in *; [..|done]; destruct Hk; split; cbn; try done; try lia; [|by destruct Hst as [? []]].
  destruct Hst as (_ & _ & He & Hm).
  assert (Hle : Zpos m / 2^(- e - 15) ≤ 2^15).
  { apply Z.div_le_upper_bound; [apply Z.pow_pos_nonneg; lia|]. rewrite <- Z.pow_add_r by lia. by replace (- e - 15 + 15) with (- e) by lia. }
  lia.
Qed.

Lemma wanted_conf_ok l : Forall setting_ok l → conf_ok w (wanted_conf l).
Proof.
  induction l as [|st l IH] using rev_ind; intros Hl.
  - split; cbn; try lia; try (destruct bits_w as [-> | ->]; lia). split; [apply List.Forall_nil|lia].
  - apply Forall_app in Hl as [Hl Hst]. rewrite wanted_snoc. apply apply_setting_ok; [by apply IH|by apply List.Forall_inv in Hst].
Qed.

(** ** Serving a request *)

Lemma recv_all n p ps : length p = n → recv_buffer n (p :: ps) = (p, ps).
Proof.
  intros Hn. unfold recv_buffer, recv. rewrite firstn_all2 by lia. destruct (Nat.ltb_spec n (length p)); [lia|].
  replace (n - length p)%nat with 0%nat by lia. by rewrite app_nil_r.
Qed.

Lemma recv_prefix n p q : length p = n → q ≠ [] → recv_buffer n [p ++ q] = (p, [q]).
Proof.
  intros Hn Hq. unfold recv_buffer, recv. rewrite length_app, take_app_length', drop_app_length' by done.
  destruct (Nat.ltb_spec n (length p + length q)) as [_|Hge]; [|destruct q; [done|cbn in Hge; lia]].
  replace (n - length p)%nat with 0%nat by lia. by rewrite app_nil_r.
Qed.

Lemma length_encode_context prob k : conf_ok w k → length (encode_context w prob k) = sizeof_context w.
Proof.
  intros Hk. unfold encode_context, sizeof_context. rewrite !length_app, !length_replicate, (length_encode_conf w word) by done. lia.
Qed.

(** What is left for the second [recv] of a connection that delivers. *)
Lemma first_recv hdr rest conn : length hdr = sizeof_cmd_data w → delivered (hdr :: rest) conn →
  ∃ conn', recv_buffer (sizeof_cmd_data w) conn = (hdr, conn') ∧ (concat rest ≠ [] → conn' = [concat rest]).
Proof.
  intros Hh [-> | ->].
  - exists [concat rest]. by rewrite recv_all.
  - destruct (decide (concat rest = [])) as [->|Hne].
    + exists []. rewrite app_nil_r, recv_all by done. done.
    + exists [concat rest]. by rewrite recv_prefix.
Qed.

(** The request of a parsed command line. *)
Definition request (a : args) (code : Z) : edfi_cmd_data_t :=
  {| cmd := code; status := 0; context_size := context_size (a_data a); params_size := params_size (a_data a);
     context_ptr := context_ptr (a_data a); params_ptr := params_ptr (a_data a) |}.

Definition body (l : list setting) (a : args) : list Z :=
  (if has_context l then encode_context w (a_prob a) (a_conf a) else []) ++
  (if existsb is_params l then bytes_of (a_params a) ++ [0] else []).

Lemma request_ok l a code : parsed l a → 0 ≤ code < 2^32 → cmd_data_ok w (request a code).
Proof.
  intros [_ Hc Hp _] Hcode. assert (Hb : 2^32 ≤ 2^bits w) by (destruct bits_w as [-> | ->]; lia).
  assert (Hsz : Z.of_nat (sizeof_context w) < 2^16) by (unfold sizeof_context, conf_offset, conf_size; destruct word as [-> | ->]; lia).
  destruct addresses as (? & ? & ?). destruct (has_context l), (existsb is_params l); destruct Hc as [Hc1 Hc2];
    (destruct Hp as (Hp1 & Hp2 & Hp3) || destruct Hp as [Hp1 Hp2]); split; cbn; rewrite ?Hc1, ?Hc2, ?Hp1, ?Hp2; lia.
Qed.

Lemma client_sends l a code : parsed l a → (existsb is_params l = true → has_context l = true) →
  ∃ rest, edfi_ctl_client_send w {| a_data := request a code; a_prob := a_prob a; a_conf := a_conf a; a_params := a_params a |}
    = Some (encode_cmd w (request a code) :: rest) ∧ concat rest = body l a.
Proof.
  intros [_ Hc Hp _] Hpc. unfold edfi_ctl_client_send, body. cbn [a_data request context_size params_size a_prob a_conf a_params].
  assert (Hsz : 0 < Z.of_nat (sizeof_context w)) by (unfold sizeof_context, conf_size; lia).
  destruct (existsb is_params l) eqn:Ep.
  - rewrite Hpc in * by done. destruct Hc as [-> _], Hp as (-> & _ & _).
    destruct (Z.ltb_spec 0 (Z.of_nat (sizeof_context w))); [|lia]. destruct (Z.leb_spec (Z.of_nat (sizeof_context w)) 0); [lia|].
    destruct (Z.ltb_spec 0 (Z.of_nat (String.length (a_params a)) + 1)); [|lia]. cbn [andb app concat]. eexists. split; [reflexivity|]. cbn. by rewrite app_nil_r.
  - destruct Hp as [-> _]. cbn [andb Z.ltb Z.compare]. destruct (has_context l); destruct Hc as [-> _].
    + destruct (Z.ltb_spec 0 (Z.of_nat (sizeof_context w))); [|lia]. cbn [app]. eexists. split; [reflexivity|]. done.
    + by eexists.
Qed.

Lemma context_received l a code : Forall setting_ok l → parsed l a → (existsb is_params l = true → has_context l = true) → 0 ≤ code < 2^32 →
  ∃ d, cmd d = code ∧ cmd_data_ok w d ∧
    ∀ conn, (body l a ≠ [] → conn = [body l a]) →
      receive_context w buff_addr (request a code) conn = Ret (if has_context l then Some (context_with (wanted_conf l)) else None, d).
Proof.
  intros Hl Ha Hpc Hcode. pose proof (request_ok l a code Ha Hcode) as Hd. pose proof (wanted_conf_ok l Hl) as Hk.
  destruct Ha as [Hconf Hc Hp _].
  assert (Hsz : 0 < Z.of_nat (sizeof_context w) < 2^16) by (unfold sizeof_context, conf_offset, conf_size; destruct word as [-> | ->]; lia).
  unfold receive_context. cbn [request context_size params_size context_ptr params_ptr cmd status]. destruct (has_context l) eqn:Eh.
  - destruct Hc as [Hc1 Hc2]. rewrite Hc1, Z.eqb_refl.
    assert (Hps : 0 ≤ params_size (a_data a) < 2^17 ∧ Z.of_nat (length (body l a)) = Z.of_nat (sizeof_context w) + params_size (a_data a)).
    { unfold body. rewrite Eh, length_app, length_encode_context by (by rewrite Hconf). destruct (existsb is_params l).
      - destruct Hp as (-> & _ & Hlen). rewrite length_app, length_bytes_of. cbn. lia.
      - destruct Hp as [-> _]. cbn. lia. }
    destruct Hps as [Hps Hlen]. rewrite Z.mod_small by (destruct bits_w as [-> | ->]; lia).
    destruct (Z.ltb_spec 0 (Z.of_nat (sizeof_context w) + params_size (a_data a))); [|lia]. cbn [negb].
    destruct (Z.ltb_spec (Z.of_nat (sizeof_context w) + params_size (a_data a)) (Z.of_nat (sizeof_context w))); [lia|].
    assert (Hdec : decode_conf w (drop (conf_offset w) (body l a)) = Some (wanted_conf l)).
    { unfold body, encode_context. rewrite Eh, <- !app_assoc, drop_app_length', Hconf by (by rewrite length_replicate).
      by apply decode_encode_conf. }
    eexists. split; [|split; [|intros conn Hconn]].
    3: { rewrite Hconn by (intros E; rewrite E in Hlen; cbn in Hlen; lia). rewrite recv_all by lia. rewrite Hdec. reflexivity. }
    + done.
    + destruct Hd as [? ? ? ? ? ?]. cbn in *. destruct addresses as (_ & _ & Hbuf).
      assert (2^(bits w - 1) + 2^16 < 2^bits w) by (destruct bits_w as [-> | ->]; lia). split; cbn; lia.
  - destruct Hc as [Hc1 Hc2]. destruct (existsb is_params l); [by discriminate Hpc|]. destruct Hp as [Hp1 Hp2].
    exists (request a code). split; [done|]. split; [done|]. intros conn _. rewrite Hc1, Hc2, Hp1, Z.mod_0_l by lia. done.
Qed.

Lemma known_command code cmd_str : (code, cmd_str) ∈ supported_cmds → parse_cmd cmd_str = code ∧ 0 ≤ code < 5.
Proof.
  unfold supported_cmds. rewrite !elem_of_cons, elem_of_nil. intros H.
  repeat (destruct H as [[= -> ->]|H]; [split; [reflexivity|lia]|]). done.
Qed.

Lemma args_parsed l cmd_str code sid : Forall setting_ok l → (code, cmd_str) ∈ supported_cmds → 0 ≤ sid < 2^31 →
  ∃ a, parsed l a ∧ parse_args w strtof context_addr params_addr (print_setting <$> l) [cmd_str; print_dec sid]
    = Ret (inr ({| a_data := request a code; a_prob := a_prob a; a_conf := a_conf a; a_params := a_params a |}, sid)).
Proof.
  intros Hl Hc Hs. destruct (options_parsed l Hl) as (a & Hr & Ha). exists a. split; [done|].
  destruct (known_command _ _ Hc) as [Hcmd Hcode]. unfold parse_args. rewrite Hr. cbn [res_bind]. change (0 <? 0) with false. cbv iota zeta.
  rewrite Hcmd. destruct (Z.ltb_spec code 0); [lia|]. unfold parse_server_id. destruct (int_arg sid Hs) as [-> ->]. rewrite andb_false_r.
  destruct (Z.ltb_spec sid 0); [lia|]. unfold request. by rewrite (pa_status _ _ Ha).
Qed.

(** C12: a command line reaches the runtime as it was meant.  For any options with
    printed numbers, readable probabilities, and parameters only beside other options,
    [edfictl] accepts the command; what the client sends, once delivered, makes the
    server run [edfi_process_cmd] with that command and exactly the configuration asked
    for (none, if there is no option); and the client fails exactly if the command did. *)
Theorem command_line_reaches_runtime {P} `{platform P} (s : edfi P) l cmd_str code sid :
  Forall setting_ok l → (existsb is_params l = true → has_context l = true) →
  (code, cmd_str) ∈ supported_cmds → 0 ≤ sid < 2^31 →
  ∃ a pieces reply,
    parse_args w strtof context_addr params_addr (print_setting <$> l) [cmd_str; print_dec sid] = Ret (inr (a, sid)) ∧
    edfi_ctl_client_send w a = Some pieces ∧
    (∀ conn, delivered pieces conn →
       serve w buff_addr conn s =
         let! rs := edfi_process_cmd (cmd_of code) (if has_context l then Some (context_with (wanted_conf l)) else None) s in
         Ret (reply rs.1, rs.2)) ∧
    (∀ r, -2^31 ≤ r < 2^31 → edfi_ctl_client_reply w (reply r) = if r <? 0 then -1 else 0).
Proof.
  intros Hl Hpc Hc Hs. destruct (args_parsed l cmd_str code sid Hl Hc Hs) as (a & Ha & Hargs). destruct (known_command _ _ Hc) as [_ Hcode].
  destruct (client_sends l a code Ha Hpc) as (rest & Hsend & Hrest).
  destruct (context_received l a code Hl Ha Hpc ltac:(lia)) as (d & Hd & Hok & Hrecv).
  pose proof (request_ok l a code Ha ltac:(lia)) as Hrq.
  eexists _, _, (λ r, encode_cmd w {| cmd := cmd d; status := r; context_size := context_size d; params_size := params_size d;
                                      context_ptr := context_ptr d; params_ptr := params_ptr d |}).
  split; [exact Hargs|]. split; [exact Hsend|]. split.
  - intros conn Hconn. destruct (first_recv _ _ _ (length_encode_cmd w word (request a code)) Hconn) as (conn' & Hfst & Hsnd).
    unfold serve. rewrite Hfst, (decode_encode_cmd w word) by done. rewrite Hrecv by (rewrite <- Hrest; exact Hsnd). cbn [res_bind]. rewrite Hd.
    destruct (edfi_process_cmd (cmd_of code) _ s) as [[r s']|f]; done.
  - intros r Hr. unfold edfi_ctl_client_reply. rewrite (decode_encode_cmd w word); [done|]. destruct Hok. by split.
Qed.

(** A negative time makes [edfictl] send a request without a context but with the
    pointer to its own: the server reads from that address. *)
Lemma negative_time_crashes {P} `{platform P} (s : edfi P) a sid conn :
  parse_args w strtof context_addr params_addr [("t"%char, "-1")] ["start"; print_dec sid] = Ret (inr (a, sid)) →
  edfi_ctl_client_send w a = Some conn → serve w buff_addr conn s = Stop FBounds.
Proof.
  intros Hargs. assert (Hp : parse_context_uint w context_addr "-1" args_zero =
    (0, None, with_sizes (update_cmd_context_data w context_addr args_zero) 0 0 context_addr 0)).
  { unfold parse_context_uint, parse_context_int. replace (strtol0 (bits w) "-1") with (-1, false) by (by destruct bits_w as [-> | ->]). reflexivity. }
  unfold parse_args in Hargs. cbn [options_loop] in Hargs. unfold handle_option in Hargs.
  destruct (ascii_dec "t" "p") as [E|_]; [discriminate E|]. destruct (ascii_dec "t" "f") as [E|_]; [discriminate E|].
  destruct (ascii_dec "t" "t") as [_|E]; [|by destruct E]. rewrite Hp in Hargs. cbn [res_bind] in Hargs. change (0 <? 0) with false in Hargs. cbv iota zeta in Hargs.
  change (parse_cmd "start") with 1 in Hargs. change (1 <? 0) with false in Hargs. cbv iota in Hargs.
  destruct (parse_server_id w (print_dec sid) <? 0); [done|]. injection Hargs as <- _. intros [= <-].
  unfold serve. rewrite recv_all by (by apply length_encode_cmd). rewrite (decode_encode_cmd w word).
  - unfold receive_context. cbn [context_size params_size context_ptr]. rewrite Z.mod_0_l by (destruct bits_w as [-> | ->]; lia).
    cbn [Z.add]. change (0 <? 0) with false. cbv iota. destruct addresses as ([Hne _] & _).
    cbn. by destruct (Z.eqb_spec context_addr 0); [lia|].
  - destruct addresses as (? & ? & ?). assert (2^32 ≤ 2^bits w) by (destruct bits_w as [-> | ->]; lia). split; cbn; lia.
Qed.
End Command.

Definition demo_strtof (text : string) : float * bool :=
  if decide (text = "0.5") then (S754_finite false 8388608 (-24), false) else (S754_zero false, true).
Definition demo_settings : list setting := [SSeed 7; SProb "0.5" 8388608 (-24); SFdpInterval 100; SSeed 17; SDflib "df.so"; SParams "v"].
Definition demo_dl : platform unix_plat := unix_platform 8 (λ _, 0) (λ _, Some 1) (λ _ _, true).

Lemma command_line_reaches_runtime_witness :
  wanted_conf demo_settings = {| fault_prob_randmax := 16384; min_fdp_interval := 100; faulty_bb_index := 0; min_fault_time_interval := 0;
    max_time := 0; max_faults := 0; rand_seed := 17; dflib_path := "df.so" |} ∧
  ∃ a pieces reply,
    parse_args 8 demo_strtof 4096 8192 (print_setting <$> demo_settings) ["start"; print_dec 42] = Ret (inr (a, 42)) ∧
    edfi_ctl_client_send 8 a = Some pieces ∧
    (∀ conn, delivered pieces conn →
       @serve 8 _ demo_dl 65536 conn demo_unix =
         let! rs := @edfi_process_cmd _ demo_dl EDFI_CTL_CMD_START (Some (context_with (wanted_conf demo_settings))) demo_unix in
         Ret (reply rs.1, rs.2)) ∧
    (∀ r, -2^31 ≤ r < 2^31 → edfi_ctl_client_reply 8 (reply r) = if r <? 0 then -1 else 0).
Proof.
  split; [reflexivity|].
  apply (command_line_reaches_runtime 8 demo_strtof 4096 8192 65536 (or_intror eq_refl) ltac:(unfold bits; lia) demo_unix demo_settings "start" 1 42);
    [|done| |lia].
  - repeat (apply List.Forall_cons || apply List.Forall_nil); cbn; unfold c_string; repeat split; try lia; repeat constructor; done.
  - right. left.
Defined.
