(* ===== verification/EdfiInit.v ===== *)
(** * Start-up of the EDFI control servers

    [unix_apps/ctl/server/edfi_ctl_server.c]: calibration of the clock, the context from
    the environment, the counters, and the wait of the program for the requests it is to
    serve before it runs, with the server thread beside it.  The MINIX client and server
    and the client for the Linux kernel, which exchange the same requests. *)

From Stdlib Require Import ZArith Lia Ascii String Floats.SpecFloat.
From stdpp Require Import base list numbers strings relations.
From S2P Require Import Prelude Decimal Double Runtime Edfi EdfiRand EdfiCtl.

Definition EDFI_CANARY_VALUE : Z := 0xFF0A0011.

(** ** The clock *)

Record timespec := { ts_sec : Z; ts_nsec : Z }.

Definition timespec_diff (t s : timespec) : timespec :=
  let sec := ts_sec t - ts_sec s in
  let nsec := ts_nsec t - ts_nsec s in
  if nsec <? 0 then {| ts_sec := sec - 1; ts_nsec := nsec + 1000 * 1000 * 1000 |} else {| ts_sec := sec; ts_nsec := nsec |}.

(** [edfi_ctl_time_init]: cycles per nanosecond from the time-stamp counter at both ends
    of a loop ([edfi_getcurrtime_ns] with one cycle per nanosecond) and the clock. *)
Definition edfi_ctl_time_init (start end_ : Z) (start_ts end_ts : timespec) : Z :=
  let diff_ts := timespec_diff end_ts start_ts in
  let diff := u64 (ts_sec diff_ts * (1000 * 1000 * 1000) + ts_nsec diff_ts) in
  let cycles := u64 (end_ - start) / (if diff =? 0 then 1 else diff) in
  if cycles =? 0 then 1 else cycles.

(** ** The context from the environment *)

(** What [edfi_ctl_context_init] sets beside the configuration. *)
Record start_options := { no_svr_thread : Z; num_requests_on_start : Z; verbosity : Z; output_dir : string }.

(** Where the program and the server thread are.  The server: before its socket listens;
    in the loop, before it accepts a connection, after its reply, and after it counted the
    request; behind the loop, before it closes the socket, before it sets
    [edfi_svr_thread_done], and at its end. *)
Inductive main_pc := WaitRequests | WaitThread | Running.
Inductive server_pc := NoThread | Starting | Accepting | Replied | Counted | Closing | Closed | Finished.

Section Start.
Variable w : nat.
Variable strtof : string → float * bool.
Variable getenv : string → option string.
(** [EDFI_DISABLE_CTL_SRV] and [EDFI_ENABLE_INJECTION_ON_START]. *)
Variables disable_ctl_srv enable_on_start : bool.

Definition parse_int_env_var (env_name : string) (default_value : Z) : Z :=
  match getenv env_name with
  | None => default_value
  | Some str =>
      let '(v, at_start) := strtol0 (bits w) str in
      if (s32 v =? 0) && at_start then default_value else s32 v
  end.
Definition parse_float_env_var (env_name : string) (default_value : float) : float :=
  match getenv env_name with
  | None => default_value
  | Some str =>
      let '(v, at_start) := strtof str in
      if SFeqb v (S754_zero false) && at_start then default_value else v
  end.
Definition parse_str_env_var (env_name default_value : string) : string := default default_value (getenv env_name).

Definition edfi_ctl_context_init {P} (s : edfi P) : res (start_options * edfi P) :=
  let thread := if disable_ctl_srv then 1 else parse_int_env_var "EDFI_NO_SVR_THREAD" 0 in
  let requests := parse_int_env_var "EDFI_NUM_REQUESTS_ON_START" 0 in
  let! r := randmax_of w (parse_float_env_var "EDFI_FAULT_PROB" (S754_zero false)) in
  let seed := u32 (parse_int_env_var "EDFI_RAND_SEED" 0) in
  let verb := parse_int_env_var "EDFI_VERBOSITY" 0 in
  let enabled := if enable_on_start then true else negb (parse_int_env_var "EDFI_FI_ENABLED" 0 =? 0) in
  let x := edfi_context s in
  Ret ({| no_svr_thread := thread; num_requests_on_start := requests; verbosity := verb; output_dir := parse_str_env_var "LOGDIR" "/tmp" |},
       set_enabled (set_ctx s (ctx_conf x (set_seed seed (set_randmax r (c x))))) enabled (edfi_faultinjection_enabled_version s)).

(** The loop that resets the counters between their canaries. *)
Definition reset_counters (x : edfi_context_t) : res edfi_context_t :=
  match bb_num_executions x with
  | [] => Ret x
  | l => if (Z.of_nat (length l) <? num_bbs x + 2) then Stop FBounds
         else Ret (ctx_execs x (EDFI_CANARY_VALUE :: replicate (Z.to_nat (num_bbs x)) 0 ++
                                EDFI_CANARY_VALUE :: drop (Z.to_nat (num_bbs x) + 2) l))
  end.

(** ** [edfi_ctl_init] and the server thread *)

Context {P : Type} `{platform P}.
Variable buff_addr : Z.

Record istate := {
  opts : start_options;
  main_at : main_pc;
  server_at : server_pc;
  num_completed : Z;      (** [edfi_ctl_num_completed_requests] *)
  max_requests : Z;       (** [edfi_ctl_max_num_requests] *)
  thread_done : Z;        (** [edfi_svr_thread_done] *)
  listening : bool;       (** [edfi_server_fd] is open *)
  rt : edfi P;
}.

(** The end of [edfi_ctl_init]: the program runs. *)
Definition init_done (i : istate) : istate :=
  let o := opts i in
  {| opts := {| no_svr_thread := no_svr_thread o; num_requests_on_start := 0; verbosity := verbosity o; output_dir := output_dir o |};
     main_at := Running; server_at := server_at i; num_completed := num_completed i; max_requests := max_requests i;
     thread_done := thread_done i; listening := listening i; rt := rt i |}.

(** [edfi_ctl_init] up to the first wait: [first_run] initialises the context. *)
Definition edfi_ctl_init (first_run : bool) (i : istate) : res istate :=
  let! os := if first_run then edfi_ctl_context_init (rt i) else Ret (opts i, rt i) in
  let '(o, s) := os in
  let s := set_plat s (edfi_srand (rand_seed (conf s)) (plat s)) in
  let! x := reset_counters (edfi_context s) in
  let s := set_ctx s x in
  if negb disable_ctl_srv && ((no_svr_thread o =? 0) || (0 <? num_requests_on_start o)) then
    Ret {| opts := o; main_at := WaitRequests; server_at := Starting; num_completed := 0;
           max_requests := if no_svr_thread o =? 0 then 0 else num_requests_on_start o; thread_done := 0;
           listening := listening i; rt := s |}
  else Ret (init_done {| opts := o; main_at := main_at i; server_at := NoThread; num_completed := num_completed i;
                         max_requests := max_requests i; thread_done := thread_done i; listening := listening i; rt := s |}).

Definition with_main (i : istate) (m : main_pc) : istate :=
  {| opts := opts i; main_at := m; server_at := server_at i; num_completed := num_completed i; max_requests := max_requests i;
     thread_done := thread_done i; listening := listening i; rt := rt i |}.
Definition with_server (i : istate) (p : server_pc) (n done : Z) (fd : bool) : istate :=
  {| opts := opts i; main_at := main_at i; server_at := p; num_completed := n; max_requests := max_requests i;
     thread_done := done; listening := fd; rt := rt i |}.
Definition with_rt (i : istate) (s : edfi P) : istate :=
  {| opts := opts i; main_at := main_at i; server_at := server_at i; num_completed := num_completed i; max_requests := max_requests i;
     thread_done := thread_done i; listening := listening i; rt := s |}.

(** A look of the program at what it waits for: one read of a variable of the server. *)
Definition poll (i : istate) : istate :=
  match main_at i with
  | WaitRequests => if (0 <? num_requests_on_start (opts i)) && (num_completed i <? num_requests_on_start (opts i)) then i else with_main i WaitThread
  | WaitThread => if negb (no_svr_thread (opts i) =? 0) && (thread_done i =? 0) then i else init_done i
  | Running => i
  end.

(** The steps the server takes by itself, a write to a shared variable at most in each. *)
Definition server_step (i : istate) : res istate :=
  match server_at i with
  | Starting => Ret (with_server i Accepting (num_completed i) (thread_done i) true)
  | Replied => let! n := chk32 (num_completed i + 1) in Ret (with_server i Counted n (thread_done i) (listening i))
  | Counted => Ret (with_server i (if (max_requests i =? 0) || (num_completed i <? max_requests i) then Accepting else Closing)
                      (num_completed i) (thread_done i) (listening i))
  | Closing => Ret (with_server i Closed (num_completed i) (thread_done i) false)
  | Closed => Ret (with_server i Finished (num_completed i) 1 (listening i))
  | NoThread | Accepting | Finished => Ret i
  end.

Fixpoint server_run (n : nat) (i : istate) : res istate :=
  match n with O => Ret i | S n => let! i := server_step i in server_run n i end.

(** The interleavings: the program looks, the server answers a connection or goes on by
    itself, the program runs and changes the state of the runtime in any way. *)
Inductive istep : istate → istate → Prop :=
| IPoll i : istep i (poll i)
| IServe i conn reply s : server_at i = Accepting → serve w buff_addr conn (rt i) = Ret (reply, s) →
    istep i (with_rt (with_server i Replied (num_completed i) (thread_done i) (listening i)) s)
| IServer i i' : server_step i = Ret i' → istep i i'
| IRun i s : main_at i = Running → istep i (with_rt i s).

(** [edfi_ctl_close] and [edfi_fork_child]: the control server of a child, which has no
    thread of its parent. *)
Definition edfi_ctl_close (i : istate) : istate := with_server i NoThread (num_completed i) (thread_done i) false.
Definition edfi_fork_child (i : istate) : res istate := edfi_ctl_init false (edfi_ctl_close i).
End Start.

Arguments istate : clear implicits.

(** ** Start-up is correct *)

Definition valid_ts (t : timespec) : Prop := 0 ≤ ts_nsec t < 10^9.
Definition ns (t : timespec) : Z := ts_sec t * 10^9 + ts_nsec t.

Lemma timespec_diff_exact t s : valid_ts t → valid_ts s → valid_ts (timespec_diff t s) ∧ ns (timespec_diff t s) = ns t - ns s.
Proof. unfold valid_ts, ns, timespec_diff. intros Ht Hs. destruct (Z.ltb_spec (ts_nsec t - ts_nsec s) 0); cbn; lia. Qed.

Lemma nonzero_pos x : 0 ≤ x → 0 < (if x =? 0 then 1 else x).
Proof. intros Hx. destruct (Z.eqb_spec x 0); lia. Qed.

(** The time is never divided by zero. *)
Lemma time_init_positive start end_ ts te : 0 < edfi_ctl_time_init start end_ ts te < 2^64.
Proof.
  unfold edfi_ctl_time_init. cbv zeta. generalize (u64_range (ts_sec (timespec_diff te ts) * (1000 * 1000 * 1000) + ts_nsec (timespec_diff te ts))).
  generalize (u64 (ts_sec (timespec_diff te ts) * (1000 * 1000 * 1000) + ts_nsec (timespec_diff te ts))) as d.
  generalize (u64_range (end_ - start)). generalize (u64 (end_ - start)) as c. intros c Hc d Hd.
  pose proof (nonzero_pos d ltac:(lia)) as Hp. revert Hp. generalize (if d =? 0 then 1 else d) as k. intros k Hk.
  pose proof (Z.div_pos c k ltac:(lia) Hk). pose proof (nonzero_pos (c / k) ltac:(done)).
  assert (c / k ≤ c) by (apply Z.div_le_upper_bound; nia). destruct (Z.eqb_spec (c / k) 0); lia.
Qed.

Section StartProofs.
Context (w : nat) (strtof : string → float * bool) (getenv : string → option string) (disable_ctl_srv enable_on_start : bool).
Context {P : Type} `{platform P} (buff_addr : Z).

(** Where the server is, against the number of requests it has counted. *)
Definition server_inv (thread asked : Z) (p : server_pc) (n : Z) : Prop :=
  match p with
  | NoThread => False
  | Starting | Accepting | Replied => thread ≠ 0 → n < asked
  | Counted => thread ≠ 0 → n ≤ asked
  | Closing | Closed | Finished => thread ≠ 0 ∧ n = asked
  end.
Definition socket_of (p : server_pc) : bool := match p with Accepting | Replied | Counted | Closing => true | _ => false end.

(** [thread] is [no_svr_thread], [asked] is [num_requests_on_start] before it is reset. *)
Record start_inv (thread asked : Z) (i : istate P) : Prop := {
  inv_opts : no_svr_thread (opts i) = thread;
  inv_asked : main_at i ≠ Running → num_requests_on_start (opts i) = asked;
  inv_max : max_requests i = if thread =? 0 then 0 else asked;
  inv_pos : thread ≠ 0 → 0 < asked;
  inv_server : server_inv thread asked (server_at i) (num_completed i);
  inv_done : thread_done i = match server_at i with Finished => 1 | _ => 0 end;
  inv_socket : server_at i ≠ Starting → listening i = socket_of (server_at i);
  inv_waited : main_at i ≠ WaitRequests → asked ≤ num_completed i;
  inv_running : main_at i = Running → thread ≠ 0 → server_at i = Finished;
  inv_count : 0 ≤ num_completed i;
}.

Lemma init_inv first_run (i0 i : istate P) :
  edfi_ctl_init w strtof getenv disable_ctl_srv enable_on_start first_run i0 = Ret i → server_at i = Starting →
  start_inv (no_svr_thread (opts i)) (num_requests_on_start (opts i)) i.
Proof.
  unfold edfi_ctl_init. intros Hi. apply res_bind_inv in Hi as ([o' s'] & _ & Hi). apply res_bind_inv in Hi as (x & _ & Hi).
  destruct (negb disable_ctl_srv && _) eqn:E; injection Hi as <-; [|done]. intros _.
  apply andb_true_iff in E as [_ E]. destruct (Z.eqb_spec (no_svr_thread o') 0), (Z.ltb_spec 0 (num_requests_on_start o')); try done.
  all: split; cbn; try done; try lia; by destruct (Z.eqb_spec (no_svr_thread o') 0).
Qed.

Lemma poll_inv thread asked (i : istate P) : start_inv thread asked i → start_inv thread asked (poll i).
Proof.
  intros Hi. unfold poll. destruct (main_at i) eqn:Em; [| |done].
  - pose proof (inv_asked _ _ _ Hi ltac:(congruence)) as Ha. rewrite Ha.
    destruct (Z.ltb_spec 0 asked), (Z.ltb_spec (num_completed i) asked); cbn [andb]; [done|..].
    all: destruct Hi; split; cbn; try done; intros; lia.
  - pose proof (inv_opts _ _ _ Hi) as Ht. rewrite Ht.
    destruct (Z.eqb_spec thread 0), (Z.eqb_spec (thread_done i) 0) as [Hd|Hd]; cbn [negb andb]; try done.
    all: destruct Hi; split; cbn; try done; try (intros; apply inv_waited0; congruence).
    intros _ _. rewrite inv_done0 in Hd. by destruct (server_at i).
Qed.

Lemma server_step_inv thread asked (i i' : istate P) :
  start_inv thread asked i → server_step i = Ret i' → start_inv thread asked i'.
Proof.
  intros Hi Hs. unfold server_step in Hs. destruct (server_at i) eqn:Es; try (by injection Hs as <-).
  - injection Hs as <-. destruct Hi as [? ? ? ? I ? ? ? R ?]. rewrite Es in *. split; cbn; try done. intros Hm Hz. by specialize (R Hm Hz).
  - apply res_bind_inv in Hs as (n & Hn & Hs). apply chk32_inv in Hn as [-> _]. injection Hs as <-.
    destruct Hi as [? ? ? ? I ? S W R ?]. rewrite Es in *. split; cbn in *; try done.
    + intros Hz. specialize (I Hz). lia.
    + intros _. by apply S.
    + intros Hm. specialize (W Hm). lia.
    + intros Hm Hz. by specialize (R Hm Hz).
    + lia.
  - injection Hs as <-. destruct Hi as [? ? M ? I D S W R ?]. rewrite Es in *. rewrite M.
    destruct (Z.eqb_spec thread 0) as [Hz|Hz]; cbn [orb] in *.
    { split; cbn in *; try done; [by rewrite M; destruct (Z.eqb_spec thread 0)|by intros _; apply S]. }
    specialize (I Hz). specialize (inv_pos0 Hz). destruct (Z.eqb_spec asked 0); [lia|]. cbn [orb].
    destruct (Z.ltb_spec (num_completed i) asked); split; cbn in *; try done; try lia;
      try (rewrite M; by destruct (Z.eqb_spec thread 0)); try (intros _; by apply S); intros Hm _; by specialize (R Hm Hz).
  - injection Hs as <-. destruct Hi as [? ? ? ? I D S W R ?]. rewrite Es in *. split; cbn in *; try done. intros Hm Hz. by specialize (R Hm Hz).
  - injection Hs as <-. destruct Hi as [? ? ? ? I D S W R ?]. rewrite Es in *. split; cbn in *; try done.
    intros _. by apply S.
Qed.

Lemma step_inv thread asked (i i' : istate P) : start_inv thread asked i → istep w buff_addr i i' → start_inv thread asked i'.
Proof.
  intros Hi Hs. destruct Hs as [i|i conn reply s Ha _|i i' Hs|i s Hm]; [by apply poll_inv| |by eapply server_step_inv|by destruct Hi].
  destruct Hi as [? ? ? ? I D S W R ?]. rewrite Ha in *. split; cbn in *; try done; [intros _; by apply S|]. intros Hm Hz. by specialize (R Hm Hz).
Qed.

Lemma reach_inv thread asked (i i' : istate P) : start_inv thread asked i → rtc (istep w buff_addr) i i' → start_inv thread asked i'.
Proof. intros Hi Hr. induction Hr as [|i i1 i' Hs _ IH]; [done|]. apply IH. by eapply step_inv. Qed.

(** Two looks are enough once nothing is left to wait for. *)
Lemma polls_run thread asked (i : istate P) :
  start_inv thread asked i → asked ≤ num_completed i → thread = 0 ∨ thread_done i ≠ 0 → main_at (poll (poll i)) = Running.
Proof.
  intros Hi Hc Ht.
  assert (Hw : ∀ j : istate P, main_at j = WaitThread → opts j = opts i → thread_done j = thread_done i → main_at (poll j) = Running).
  { intros j Hm Ho Hd. unfold poll. rewrite Hm, Ho, Hd, (inv_opts _ _ _ Hi).
    destruct (Z.eqb_spec thread 0), (Z.eqb_spec (thread_done i) 0); cbn; try done. by destruct Ht. }
  destruct (main_at i) eqn:Em.
  - assert (Hp : poll i = with_main i WaitThread).
    { unfold poll. rewrite Em, (inv_asked _ _ _ Hi) by congruence. destruct (Z.ltb_spec (num_completed i) asked); [lia|]. by rewrite andb_false_r. }
    rewrite Hp. by apply Hw.
  - specialize (Hw i Em eq_refl eq_refl). unfold poll at 1. by rewrite Hw.
  - unfold poll at 2. rewrite Em. unfold poll. by rewrite Em.
Qed.

(** The server finishes by itself when it has served what it had to. *)
Lemma server_finishes thread asked (i : istate P) :
  start_inv thread asked i → thread ≠ 0 → asked ≤ num_completed i →
  ∃ j, server_run 3 i = Ret j ∧ server_at j = Finished ∧ start_inv thread asked j ∧ num_completed j = num_completed i.
Proof.
  intros Hi Hz Hc.
  assert (Hr : ∃ j, server_run 3 i = Ret j ∧ server_at j = Finished ∧ num_completed j = num_completed i).
  { pose proof (inv_server _ _ _ Hi) as I. pose proof (inv_max _ _ _ Hi) as M. pose proof (inv_pos _ _ _ Hi Hz) as Hp.
    destruct (Z.eqb_spec thread 0); [done|].
    destruct (server_at i) eqn:Es; cbn in I; try done; try (specialize (I Hz); lia).
    all: cbn [server_run]; unfold server_step; rewrite Es; cbn; repeat (rewrite Es; cbn); eauto.
    rewrite M. destruct (Z.eqb_spec asked 0), (Z.ltb_spec (num_completed i) asked); try lia. cbn. eauto. }
  destruct Hr as (j & Hj & Hf & Hn). exists j. split_and!; try done. revert Hj. generalize 3%nat as n. clear -Hi. intros n. revert i Hi.
  induction n as [|n IH]; intros i Hi Hj; cbn in Hj; [by injection Hj as <-|]. apply res_bind_inv in Hj as (i1 & Hs & Hj).
  eapply IH; [|exact Hj]. by eapply server_step_inv.
Qed.

(** The server comes back to accept until the requests asked for are counted. *)
Lemma server_returns thread asked (i : istate P) :
  start_inv thread asked i → asked < 2^31 → num_completed i < asked →
  ∃ j, server_run 2 i = Ret j ∧ (server_at j = Accepting ∨ asked ≤ num_completed j).
Proof.
  intros Hi Hb Hc. pose proof (inv_server _ _ _ Hi) as I. pose proof (inv_count _ _ _ Hi). pose proof (inv_max _ _ _ Hi) as M.
  destruct (server_at i) eqn:Es; cbn in I; try done; try (destruct I; lia).
  all: cbn [server_run]; unfold server_step at 1; rewrite Es.
  - cbn. eauto.
  - cbn [res_bind]. unfold server_step. rewrite Es. cbn. eauto.
  - unfold chk32. destruct (Z.leb_spec (-2^31) (num_completed i + 1)), (Z.ltb_spec (num_completed i + 1) (2^31)); try lia.
    cbn. eexists. split; [reflexivity|]. cbn. rewrite M.
    destruct (Z.eqb_spec thread 0), (Z.ltb_spec (num_completed i + 1) asked); cbn; try (left; reflexivity); try (right; lia).
    all: try (left; by rewrite orb_true_r).
  - cbn. rewrite M. destruct (Z.eqb_spec thread 0), (Z.ltb_spec (num_completed i) asked); try lia; cbn.
    all: rewrite ?orb_true_r; cbn; eauto.
Qed.

(** C39: start-up serves the requests it waits for.  When [edfi_ctl_init] creates the
    server thread, then in every interleaving of the looks of the program, the steps of
    the server and the later run of the program: the program runs only after the
    [EDFI_NUM_REQUESTS_ON_START] requests asked for were counted, and with
    [EDFI_NO_SVR_THREAD] exactly these were, the socket is closed and the thread at its
    end; while fewer are counted, the server by itself comes back to accept a connection
    (or counts the last one); and once they are counted, two looks let the program run,
    with [EDFI_NO_SVR_THREAD] after at most three steps of the server by itself. *)
Theorem startup_serves_requests first_run (start i0 i : istate P) :
  edfi_ctl_init w strtof getenv disable_ctl_srv enable_on_start first_run start = Ret i0 → server_at i0 = Starting →
  num_requests_on_start (opts i0) < 2^31 →
  rtc (istep w buff_addr) i0 i →
  let asked := num_requests_on_start (opts i0) in
  let no_thread := no_svr_thread (opts i0) in
  (main_at i = Running → asked ≤ num_completed i ∧
     (no_thread ≠ 0 → num_completed i = asked ∧ listening i = false ∧ thread_done i = 1 ∧ server_at i = Finished)) ∧
  (num_completed i < asked → ∃ j, server_run 2 i = Ret j ∧ (server_at j = Accepting ∨ asked ≤ num_completed j)) ∧
  (asked ≤ num_completed i →
     if no_thread =? 0 then main_at (poll (poll i)) = Running
     else ∃ j, server_run 3 i = Ret j ∧ main_at (poll (poll j)) = Running).
Proof.
  intros Hi0 Hs Hb Hr asked no_thread. pose proof (reach_inv _ _ i0 i (init_inv _ _ _ Hi0 Hs) Hr) as Hi.
  fold asked no_thread in Hi. split_and!.
  - intros Hm. split; [apply (inv_waited _ _ _ Hi); congruence|]. intros Hz. pose proof (inv_running _ _ _ Hi Hm Hz) as Hf.
    pose proof (inv_server _ _ _ Hi) as I. pose proof (inv_done _ _ _ Hi) as D. pose proof (inv_socket _ _ _ Hi) as S.
    rewrite Hf in *. destruct I. by split_and!; [|apply S|..].
  - intros Hc. by eapply server_returns.
  - intros Hc. destruct (Z.eqb_spec no_thread 0) as [Hz|Hz]; [eapply polls_run; [done|done|by left]|].
    destruct (server_finishes _ _ i Hi Hz Hc) as (j & Hj & Hf & Hij & Hn). exists j. split; [done|].
    eapply polls_run; [done|by rewrite Hn|]. right. rewrite (inv_done _ _ _ Hij), Hf. done.
Qed.
End StartProofs.

Definition demo_env (name : string) : option string :=
  if decide (name = "EDFI_NUM_REQUESTS_ON_START") then Some "2" else if decide (name = "EDFI_NO_SVR_THREAD") then Some "1" else None.
Definition demo_opts : start_options := {| no_svr_thread := 0; num_requests_on_start := 0; verbosity := 0; output_dir := "" |}.
(** Two requests to stop, with looks of the program in between. *)
Definition demo_conn : list (list Z) := [encode_cmd 8 {| cmd := 0; status := 0; context_size := 0; params_size := 0; context_ptr := 0; params_ptr := 0 |}].
Definition demo_statics : istate unix_plat :=
  {| opts := demo_opts; main_at := Running; server_at := NoThread; num_completed := 0; max_requests := 0; thread_done := 0; listening := false; rt := demo_unix |}.
Definition demo_init : istate unix_plat :=
  ret_or demo_statics (@edfi_ctl_init 8 demo_strtof demo_env false false _ demo_dl true demo_statics).
Definition demo_serve (i : istate unix_plat) : istate unix_plat :=
  match @serve 8 _ demo_dl 65536 demo_conn (rt i) with
  | Ret (_, s) => with_rt (with_server i Replied (num_completed i) (thread_done i) (listening i)) s
  | Stop _ => i
  end.
Definition demo_server (i : istate unix_plat) : istate unix_plat := ret_or i (server_step i).
(** Both requests are counted and the program has seen it, but the thread has not ended. *)
Definition demo_counted : istate unix_plat :=
  poll (demo_server (demo_serve (demo_server (demo_server (demo_serve (poll (demo_server demo_init))))))).
Definition demo_end : istate unix_plat := poll (demo_server (demo_server (demo_server demo_counted))).

Definition demo_istep : istate unix_plat → istate unix_plat → Prop := @istep 8 _ demo_dl 65536.
Lemma demo_poll i : demo_istep i (poll i).
Proof. apply IPoll. Qed.
Lemma demo_server_step i : is_ret (server_step i) = true → demo_istep i (demo_server i).
Proof. intros Hi. apply IServer. by apply is_ret_or. Qed.
Lemma demo_serve_step i :
  server_at i = Accepting → is_ret (@serve 8 _ demo_dl 65536 demo_conn (rt i)) = true → demo_istep i (demo_serve i).
Proof. intros Ha Hi. unfold demo_serve. destruct (@serve 8 _ demo_dl 65536 demo_conn (rt i)) as [[r s]|f] eqn:E; [|done]. by apply (@IServe 8 _ demo_dl 65536 i demo_conn r s). Qed.

Ltac demo_go :=
  match goal with
  | |- rtc _ _ (poll _) => eapply rtc_r; [|apply demo_poll]
  | |- rtc _ _ (demo_server _) => eapply rtc_r; [|apply demo_server_step; vm_compute; reflexivity]
  | |- rtc _ _ (demo_serve _) => eapply rtc_r; [|apply demo_serve_step; vm_compute; reflexivity]
  end.
Lemma demo_steps_counted : rtc demo_istep demo_init demo_counted.
Proof. unfold demo_counted. repeat demo_go. reflexivity. Qed.
Lemma demo_steps : rtc demo_istep demo_init demo_end.
Proof. unfold demo_end. repeat demo_go. apply demo_steps_counted. Qed.

Lemma startup_serves_requests_witness :
  main_at demo_end = Running ∧ num_completed demo_end = 2 ∧ listening demo_end = false ∧ thread_done demo_end = 1 ∧
  main_at demo_counted = WaitThread ∧ main_at (poll (poll demo_counted)) = WaitThread ∧
  ∃ j, server_run 3 demo_counted = Ret j ∧ main_at (poll (poll j)) = Running.
Proof.
  assert (Hm : main_at demo_end = Running) by (vm_compute; reflexivity).
  assert (Hi : @edfi_ctl_init 8 demo_strtof demo_env false false _ demo_dl true demo_statics = Ret demo_init) by (vm_compute; reflexivity).
  assert (Hs : server_at demo_init = Starting) by (vm_compute; reflexivity).
  assert (Hb : num_requests_on_start (opts demo_init) < 2^31) by (vm_compute; reflexivity).
  destruct (proj1 (@startup_serves_requests 8 demo_strtof demo_env false false _ demo_dl 65536 true demo_statics demo_init demo_end
              Hi Hs Hb demo_steps) Hm) as [_ He].
  destruct He as (Hn & Hl & Hd & _); [vm_compute; discriminate|].
  split; [exact Hm|]. split; [rewrite Hn; vm_compute; reflexivity|]. split; [exact Hl|]. split; [exact Hd|].
  split; [vm_compute; reflexivity|]. split; [vm_compute; reflexivity|].
  pose proof (proj2 (proj2 (@startup_serves_requests 8 demo_strtof demo_env false false _ demo_dl 65536 true demo_statics demo_init demo_counted
              Hi Hs Hb demo_steps_counted))) as Hp.
  assert (Hz : (no_svr_thread (opts demo_init) =? 0) = false) by (vm_compute; reflexivity). cbv zeta in Hp. rewrite Hz in Hp.
  apply Hp. vm_compute. discriminate.
Defined.

(** ** The MINIX client and server *)

Section MinixCtl.
Variable w : nat.
Context {P : Type} `{platform P}.
Variable E2BIG : Z.

Definition minix_buff_size : nat := sizeof_cmd_data w + w + w.

(** The buffer [edfi_ctl_client_send] fills: the request, and as many bytes of the
    context and the parameters as their [size_t] sizes have. *)
Definition minix_client_buffer (a : args) : res (option (list Z)) :=
  let d := a_data a in
  if (0 <? params_size d) && (context_size d <=? 0) then Ret None
  else if context_ptr d =? 0 then Stop FNull
  else if params_ptr d =? 0 then Stop FNull
  else
    let params := bytes_of (a_params a) ++ [0] in
    if (length params <? w)%nat then Stop FBounds
    else Ret (Some (encode_cmd w d ++ take w (encode_context w (a_prob a) (a_conf a)) ++ take w params)).

(** What a command reads of the context it is given. *)
Definition reads_context (c : edfi_ctl_cmd) : bool :=
  match c with EDFI_CTL_CMD_START | EDFI_CTL_CMD_STAT | EDFI_CTL_CMD_UPDATE => true | _ => false end.

(** [edfi_ctl_process_request]: [granted] is what can be copied from the client,
    [stack] what the buffer on the stack held before. *)
Definition minix_process_request (size : Z) (granted stack : list Z) (s : edfi P) : res (Z * edfi P) :=
  if negb (size =? Z.of_nat minix_buff_size) then Ret (E2BIG, s)
  else
    let buff := take w granted ++ drop w (take minix_buff_size stack) in
    let c := cmd_of (cmd (decode_cmd w buff)) in
    (** [data->context] points at the [w] bytes behind the request *)
    if reads_context c then Stop FBounds else edfi_process_cmd c None s.

(** [edfi_ctl_init] of MINIX servers, with [EDFI_ENABLE_INJECTION_ON_START]. *)
Definition minix_ctl_init (enable_on_start : bool) (s : edfi P) : res (edfi P) :=
  let s := set_enabled (set_ctx s (ctx_conf (edfi_context s) (set_seed 17 (conf s)))) enable_on_start (edfi_faultinjection_enabled_version s) in
  let s := set_plat s (edfi_srand (rand_seed (conf s)) (plat s)) in
  let! x := reset_counters (edfi_context s) in
  Ret (set_ctx s x).

(** No command with a configuration works: the client stops unless it has both a
    context and parameters, and the server looks for the context in [w] bytes. *)
Lemma minix_no_configuration a stack (s : edfi P) : (w = 4 ∨ w = 8)%nat →
  1 ≤ cmd (a_data a) ≤ 4 → cmd (a_data a) ≠ 2 →
  match minix_client_buffer a with
  | Ret (Some buff) => minix_process_request (Z.of_nat minix_buff_size) buff stack s = Stop FBounds
  | Ret None | Stop _ => True
  end.
Proof.
  intros Hw Hc H2. unfold minix_client_buffer. destruct ((0 <? _) && _); [done|]. destruct (context_ptr (a_data a) =? 0); [done|].
  destruct (params_ptr (a_data a) =? 0); [done|]. destruct (length _ <? w)%nat; [done|].
  unfold minix_process_request. rewrite Z.eqb_refl. cbn [negb].
  assert (Hcmd : ∀ rest, cmd (decode_cmd w (take w (encode_cmd w (a_data a) ++ rest) ++ drop w (take minix_buff_size stack))) = cmd (a_data a)).
  { intros rest. cbn [decode_cmd cmd]. unfold encode_cmd. rewrite <- !app_assoc. rewrite take_app_ge by (rewrite length_le_split; lia).
    rewrite <- app_assoc, field_here by done. apply Z.mod_small. lia. }
  rewrite Hcmd. assert (cmd (a_data a) = 1 ∨ cmd (a_data a) = 3 ∨ cmd (a_data a) = 4) as [-> | [-> | ->]] by lia; done.
Qed.
End MinixCtl.

(** ** The client for the Linux kernel *)

Definition EDFI_BUFSIZE : Z := 16384.

(** The buffer it writes, in one piece. *)
Definition linux_client_buffer (w : nat) (a : args) : res (option (list Z)) :=
  let d := a_data a in
  if (0 <? params_size d) && (context_size d <=? 0) then Ret None
  else
    let buff := encode_cmd w d ++ (if 0 <? context_size d then encode_context w (a_prob a) (a_conf a) else [])
                ++ (if 0 <? params_size d then bytes_of (a_params a) ++ [0] else []) in
    if EDFI_BUFSIZE <? Z.of_nat (length buff) then Stop FBounds else Ret (Some buff).

(** The same bytes as the client for user programs, or an overrun of the buffer. *)
Lemma linux_same_bytes w a :
  linux_client_buffer w a =
    match edfi_ctl_client_send w a with
    | None => Ret None
    | Some pieces => if EDFI_BUFSIZE <? Z.of_nat (length (concat pieces)) then Stop FBounds else Ret (Some (concat pieces))
    end.
Proof.
  unfold linux_client_buffer, edfi_ctl_client_send. destruct ((0 <? params_size (a_data a)) && _); [done|].
  assert (Hc : ∀ (c1 c2 : bool) (x y z : list Z), concat ([x] ++ (if c1 then [y] else []) ++ (if c2 then [z] else [])) =
    x ++ (if c1 then y else []) ++ (if c2 then z else [])).
  { intros [] [] x y z; cbn; by rewrite ?app_nil_r. }
  by rewrite Hc.
Qed.

(** ** Fault identifiers: [edfi/ctl/server.h] *)

(** [edfi_hash] over the characters of a string, which are signed. *)
Fixpoint edfi_hash (sz hash : Z) (s : list Z) : Z :=
  match s with [] => hash | ch :: s' => if ch =? 0 then hash else edfi_hash sz (ulong sz (signed 8 ch + 31 * hash)) s' end.
(** [edfi_get_static_fault_id]: the file's name, then the bytes of the line. *)
Definition edfi_get_static_fault_id (sz : Z) (file : string) (line : Z) : Z :=
  edfi_hash sz (edfi_hash sz 0 (bytes_of file)) (le_split 4 line).

(** [edfi_get_dynamic_fault_id] of user programs, from the lines of a backtrace. *)
Definition edfi_get_dynamic_fault_id (sz : Z) (trace : list string) : Z := foldl (λ df_id line, edfi_hash sz df_id (bytes_of line)) 0 trace.

(** The bytes of the line end the hash at the first zero: lines that are multiples of
    256 have the identifier of their file. *)
Lemma static_fault_id_collides sz file line : line `mod` 256 = 0 →
  edfi_get_static_fault_id sz file line = edfi_hash sz 0 (bytes_of file).
Proof. intros Hl. unfold edfi_get_static_fault_id. cbn [le_split]. rewrite Hl. done. Qed.
