(* ===== verification/StatFile.v ===== *)
(** * The EDFI statistics file

    Writer: [edfi_stats_per_bb_add_with_fd] of [edfi_df.c], which adds the
    execution counts of a run to a file.  Reader: [edfistats_open] of
    [printedfistats/edfistatsparse.c], and the compatibility check of
    [printedfistats.c].  Both sides work on bytes; integers are little-endian.
    I/O itself succeeds in the model. *)

From Stdlib Require Import ZArith Lia Ascii String.
From stdpp Require Import base list numbers strings sets.
From S2P Require Import Prelude Decimal Edfi.

Definition bytes := list Z.

(** ** Layout of [edfi/df/statfile.h] *)

Definition EDFI_STATS_MAGIC : Z := 0x74536445.
Definition EDFI_STATS_FAULT_NAME_LEN : nat := 64.

Record edfi_stats_header := {
  magic : Z;
  h_num_bbs : Z;
  h_num_fault_types : Z;
  fault_name_len : Z;
}.

Definition sizeof_header : nat := 16.

Definition encode_header (h : edfi_stats_header) : bytes :=
  le_split 4 (magic h) ++ le_split 4 (h_num_bbs h) ++ le_split 4 (h_num_fault_types h)
  ++ le_split 4 (fault_name_len h).

(** [n] bytes at offset [off]. *)
Definition slice (off n : nat) (l : bytes) : bytes := take n (drop off l).

Definition decode_header (l : bytes) : edfi_stats_header :=
  {| magic := le_join (slice 0 4 l); h_num_bbs := le_join (slice 4 4 l);
     h_num_fault_types := le_join (slice 8 4 l); fault_name_len := le_join (slice 12 4 l) |}.

(** Arrays of [w]-byte integers. *)
Definition encode_array (w : nat) (l : list Z) : bytes := l ≫= le_split w.
Fixpoint decode_array (w n : nat) (l : bytes) : list Z :=
  match n with
  | O => []
  | S n' => le_join (take w l) :: decode_array w n' (drop w l)
  end.

(** The bytes of a C string without its NUL. *)
Definition string_bytes (s : string) : bytes :=
  map (λ a, Z.of_N (N_of_ascii a)) (list_ascii_of_string s).

(** [strncpy (dst, name, n)]: at most [n] bytes, padded with zeros. *)
Definition strncpy (name : bytes) (n : nat) : bytes :=
  take n name ++ repeat 0 (n - length name)%nat.

(** The text [strncmp] compares: up to a NUL and at most [n] bytes. *)
Fixpoint strn (n : nat) (l : bytes) : bytes :=
  match n, l with
  | S n', v :: l' => if v =? 0 then [] else v :: strn n' l'
  | _, _ => []
  end.
Definition strncmp_eq (a b : bytes) (n : nat) : bool := bool_decide (strn n a = strn n b).

(** ** The writer *)

Section Writer.
Variable x : edfi_context_t.

Definition nbbs : nat := Z.to_nat (num_bbs x).
Definition nfts : nat := length (fault_types x).

Definition names_off : nat := sizeof_header.
Definition execs_off : nat := (names_off + EDFI_STATS_FAULT_NAME_LEN * nfts)%nat.
Definition cands_off : nat := (execs_off + 8 * nbbs)%nat.
Definition datasize : nat := (cands_off + 4 * nbbs * nfts)%nat.

Definition own_header : edfi_stats_header :=
  {| magic := EDFI_STATS_MAGIC; h_num_bbs := u32 (num_bbs x);
     h_num_fault_types := u32 (Z.of_nat nfts);
     fault_name_len := Z.of_nat EDFI_STATS_FAULT_NAME_LEN |}.

(** A fault type's candidate counts, [int]s, as bytes. *)
Definition cand_bytes (ft : fault_type_stats) : bytes :=
  encode_array 4 (take nbbs (bb_num_candidates ft)).

(** The branch for an empty file: all counts zero. *)
Definition new_data : bytes :=
  encode_header own_header
  ++ (fault_types x ≫= λ ft, strncpy (string_bytes (ft_name ft)) EDFI_STATS_FAULT_NAME_LEN)
  ++ repeat 0 (8 * nbbs)%nat
  ++ (fault_types x ≫= cand_bytes).

(** The verification of an old file, fault type [i] on. *)
Fixpoint verify_types (i : nat) (fts : list fault_type_stats) (data : bytes) : bool :=
  match fts with
  | [] => true
  | ft :: fts' =>
      strncmp_eq (slice (names_off + i * EDFI_STATS_FAULT_NAME_LEN) EDFI_STATS_FAULT_NAME_LEN data)
        (string_bytes (ft_name ft)) EDFI_STATS_FAULT_NAME_LEN &&
      bool_decide (slice (cands_off + i * (4 * nbbs)) (4 * nbbs) data = cand_bytes ft) &&
      verify_types (S i) fts' data
  end.

Definition header_ok (data : bytes) : bool :=
  let h := decode_header data in
  (magic h =? EDFI_STATS_MAGIC) && (h_num_bbs h =? u32 (num_bbs x)) &&
  (h_num_fault_types h =? u32 (Z.of_nat nfts)) &&
  (fault_name_len h =? Z.of_nat EDFI_STATS_FAULT_NAME_LEN).

(** The execution counts of the file plus those of this run, whose block [i] is
    at index [i + 1]. *)
Definition add_counts (old : list Z) : list Z :=
  zip_with (λ a e, u64 (a + e)) old (take nbbs (drop 1 (bb_num_executions x))).

Definition add_executions (data : bytes) : bytes :=
  take execs_off data
  ++ encode_array 8 (add_counts (decode_array 8 nbbs (slice execs_off (8 * nbbs) data)))
  ++ drop cands_off data.

(** The contents of the file afterwards. *)
Definition edfi_stats_per_bb_add_with_fd (file : bytes) : bytes :=
  let data := take datasize file in
  if (length data =? 0)%nat then add_executions new_data ++ drop datasize file
  else if (length data =? datasize)%nat then
    if negb (header_ok data) then file
    else if negb (verify_types 0 (fault_types x) data) then file
    else add_executions data ++ drop datasize file
  else file.
End Writer.

(** ** The reader *)

Record file_state := {
  f_header : edfi_stats_header;
  f_fault_names : bytes;
  f_bb_num_executions : list Z;
  f_bb_num_candidates : list Z;
}.

(** [reada]: the next [size] bytes and the rest; [None] at a premature end. *)
Definition reada (file : bytes) (size : Z) : option (bytes * bytes) :=
  let n := Z.to_nat size in
  if (length (take n file) =? n)%nat then Some (take n file, drop n file) else None.

Definition edfistats_open1 (file : bytes) : option file_state :=
  '(hb, file) ← reada file (Z.of_nat sizeof_header);
  let h := decode_header hb in
  if negb (magic h =? EDFI_STATS_MAGIC) || (fault_name_len h =? 0) then None
  else if (h_num_bbs h =? 0) || (h_num_fault_types h =? 0) then None
  else
    '(names, file) ← reada file (u32 (h_num_fault_types h * fault_name_len h));
    '(execs, file) ← reada file (h_num_bbs h * 8);
    '(cands, file) ← reada file (u32 (h_num_bbs h * h_num_fault_types h) * 4);
    Some {| f_header := h; f_fault_names := names;
            f_bb_num_executions := decode_array 8 (Z.to_nat (h_num_bbs h)) execs;
            f_bb_num_candidates :=
              map s32 (decode_array 4 (Z.to_nat (u32 (h_num_bbs h * h_num_fault_types h))) cands) |}.

(** All files, or nothing. *)
Definition edfistats_open (files : list bytes) : option (list file_state) := mapM edfistats_open1 files.

(** The check of [process_files] that two files describe the same binary. *)
Fixpoint same_names (n i len : nat) (a b : bytes) : bool :=
  match n with
  | O => true
  | S n' => strncmp_eq (slice (i * len) len a) (slice (i * len) len b) len && same_names n' (S i) len a b
  end.

Definition compatible (f0 f : file_state) : bool :=
  let h0 := f_header f0 in let h := f_header f in
  (h_num_bbs h0 =? h_num_bbs h) && (h_num_fault_types h0 =? h_num_fault_types h) &&
  (fault_name_len h0 =? fault_name_len h) &&
  same_names (Z.to_nat (h_num_fault_types h0)) 0 (Z.to_nat (fault_name_len h0))
    (f_fault_names f0) (f_fault_names f) &&
  bool_decide (f_bb_num_candidates f0 = f_bb_num_candidates f).

Definition is_valid_varname_char (v : Z) : bool :=
  (v =? 95) || ((65 <=? v) && (v <=? 90)) || ((97 <=? v) && (v <=? 122)) || ((48 <=? v) && (v <=? 57)).

(** [fix_varname] works in place up to a NUL; [s] is the rest of the buffer. *)
Fixpoint fix_varname (s : bytes) : res bytes :=
  match s with
  | [] => Stop FBounds
  | v :: s' =>
      if v =? 0 then Ret s
      else
        let! r := fix_varname s' in
        Ret ((if is_valid_varname_char v then v else 95) :: r)
  end.

(** The column titles, from fault type [i] on, with the name buffer. *)
Fixpoint header_loop (n i len : nat) (names : bytes) : res (list bytes) :=
  match n with
  | O => Ret []
  | S n' =>
      let! fixed := fix_varname (drop (len * i) names) in
      let names' := take (len * i) names ++ fixed in
      let! rest := header_loop n' (S i) len names' in
      Ret (strn len (drop (len * i) names') :: rest)
  end.

(** What [process_files] prints: the titles of the fault types, and per block
    its number, the counts of all files and the candidates of each type. *)
Record table := { columns : list bytes; rows : list (Z * list Z * list Z) }.

Definition table_rows (files : list file_state) (f0 : file_state) : list (Z * list Z * list Z) :=
  let n := Z.to_nat (h_num_bbs (f_header f0)) in
  let t := Z.to_nat (h_num_fault_types (f_header f0)) in
  map (λ bb : nat,
    (Z.of_nat bb + 1,
     map (λ f, nth bb (f_bb_num_executions f) 0) files,
     map (λ ft : nat, nth (ft * n + bb) (f_bb_num_candidates f0) 0) (seq 0 t)))
    (seq 0 n).

(** [None] when the files differ. *)
Definition process_files (files : list file_state) : res (option table) :=
  match files with
  | [] => Stop FAssert
  | f0 :: rest =>
      if forallb (compatible f0) rest then
        let! cols := header_loop (Z.to_nat (h_num_fault_types (f_header f0))) 0
                       (Z.to_nat (fault_name_len (f_header f0))) (f_fault_names f0) in
        Ret (Some {| columns := cols; rows := table_rows files f0 |})
      else Ret None
  end.

(** ** Bytes and arrays *)

Lemma slice_app off n a x y :
  length a = off → length x = n → slice off n (a ++ x ++ y) = x.
Proof. intros <- <-. unfold slice. by rewrite drop_app_length, take_app_length. Qed.

Lemma length_encode_array w l : length (encode_array w l) = (w * length l)%nat.
Proof.
  unfold encode_array. induction l as [|v l IH]; [simpl; lia|].
  rewrite bind_cons, length_app, length_le_split, IH. simpl. lia.
Qed.

Lemma decode_encode_array w l y :
  Forall (λ z, 0 ≤ z < 256 ^ Z.of_nat w) l →
  decode_array w (length l) (encode_array w l ++ y) = l.
Proof.
  unfold encode_array. induction 1 as [|v l Hv Hl IH]; [done|].
  rewrite bind_cons, <- app_assoc. cbn [length decode_array].
  rewrite take_app_length', drop_app_length' by (by rewrite length_le_split).
  by rewrite le_join_split_small, IH.
Qed.

(** [int]s: the bytes give back the signed value. *)
Lemma decode_encode_ints l y :
  Forall (λ z, -2^31 ≤ z < 2^31) l →
  map s32 (decode_array 4 (length l) (encode_array 4 l ++ y)) = l.
Proof.
  unfold encode_array. induction 1 as [|v l Hv Hl IH]; [done|].
  rewrite bind_cons, <- app_assoc. cbn [length decode_array map].
  rewrite take_app_length', drop_app_length' by (by rewrite length_le_split).
  rewrite IH, le_join_split. f_equal. change (256 ^ Z.of_nat 4) with (2^32).
  unfold s32, signed. rewrite Z.mod_mod by lia.
  destruct (Z.ltb_spec (v `mod` 2^32) (2^(32-1))); Z.div_mod_to_equations; lia.
Qed.

Lemma encode_ints_inj l l' :
  Forall (λ z, -2^31 ≤ z < 2^31) l → Forall (λ z, -2^31 ≤ z < 2^31) l' →
  encode_array 4 l = encode_array 4 l' → l = l'.
Proof.
  intros Hl Hl' E. assert (Hlen : length l = length l').
  { pose proof (f_equal length E) as H. rewrite !length_encode_array in H. lia. }
  rewrite <- (decode_encode_ints l [] Hl), <- (decode_encode_ints l' [] Hl'). congruence.
Qed.

(** Blocks of equal length laid out one after the other. *)
Lemma length_bind_const {A} (f : A → bytes) k l :
  (∀ v, v ∈ l → length (f v) = k) → length (l ≫= f) = (k * length l)%nat.
Proof.
  induction l as [|v l IH]; intros H; [simpl; lia|].
  rewrite bind_cons, length_app, H, IH by (set_solver). simpl. lia.
Qed.

Lemma slice_bind {A} (f : A → bytes) k l i v a y :
  (∀ v, v ∈ l → length (f v) = k) → l !! i = Some v →
  slice (length a + i * k) k (a ++ (l ≫= f) ++ y) = f v.
Proof.
  revert i a. induction l as [|w l IH]; intros i a Hk Hi; [done|].
  rewrite bind_cons, <- app_assoc. destruct i as [|i].
  - injection Hi as ->. rewrite Nat.add_0_r. apply slice_app; [done|]. apply Hk. set_solver.
  - rewrite (app_assoc a). replace (length a + S i * k)%nat with (length (a ++ f w) + i * k)%nat.
    { apply IH; [set_solver|done]. }
    rewrite length_app, (Hk w) by set_solver. lia.
Qed.

Lemma length_strncpy l n : length (strncpy l n) = n.
Proof. unfold strncpy. rewrite length_app, length_take, repeat_length. lia. Qed.

(** [strncpy] keeps what [strncmp] compares. *)
Lemma strn_strncpy l n : strn n (strncpy l n) = strn n l.
Proof.
  unfold strncpy. revert n. induction l as [|v l IH]; intros [|n]; try done.
  simpl. destruct (v =? 0); [done|]. by rewrite <- IH.
Qed.

(** ** The file as an abstract value *)

Definition names_bytes (x : edfi_context_t) : bytes :=
  fault_types x ≫= λ ft, strncpy (string_bytes (ft_name ft)) EDFI_STATS_FAULT_NAME_LEN.

(** The file of the program [x] with the execution counts [cs]. *)
Definition stat_file (x : edfi_context_t) (cs : list Z) : bytes :=
  encode_header (own_header x) ++ names_bytes x ++ encode_array 8 cs ++ (fault_types x ≫= cand_bytes x).

(** A context as the pass lays it out: counts for every block, sizes in range. *)
Record ctx_ok (x : edfi_context_t) : Prop := {
  ok_bbs : 0 < num_bbs x;
  ok_size : num_bbs x * Z.of_nat (nfts x) < 2^32;
  ok_types : 0 < Z.of_nat (nfts x) ∧ 64 * Z.of_nat (nfts x) < 2^32;
  ok_bbs32 : num_bbs x < 2^32;
  ok_cands : Forall (λ ft, (nbbs x ≤ length (bb_num_candidates ft))%nat ∧
               Forall (λ z, -2^31 ≤ z < 2^31) (bb_num_candidates ft)) (fault_types x);
  ok_execs : (nbbs x + 1 ≤ length (bb_num_executions x))%nat;
}.

Definition counts_ok (x : edfi_context_t) (cs : list Z) : Prop :=
  length cs = nbbs x ∧ Forall (λ z, 0 ≤ z < 2^64) cs.

(** What the verification compares of two fault types and of two programs. *)
Definition same_type (n : nat) (a b : fault_type_stats) : Prop :=
  strn EDFI_STATS_FAULT_NAME_LEN (string_bytes (ft_name a)) =
  strn EDFI_STATS_FAULT_NAME_LEN (string_bytes (ft_name b)) ∧
  take n (bb_num_candidates a) = take n (bb_num_candidates b).
Definition same_binary (x y : edfi_context_t) : Prop :=
  num_bbs x = num_bbs y ∧ Forall2 (same_type (nbbs x)) (fault_types x) (fault_types y).

#[global] Instance same_type_dec n a b : Decision (same_type n a b).
Proof. unfold same_type. apply _. Defined.
#[global] Instance same_binary_dec x y : Decision (same_binary x y).
Proof. unfold same_binary. apply _. Defined.

Lemma length_encode_header h : length (encode_header h) = 16%nat.
Proof. unfold encode_header. by rewrite !length_app, !length_le_split. Qed.

Lemma decode_encode_header h y :
  0 ≤ magic h < 2^32 → 0 ≤ h_num_bbs h < 2^32 → 0 ≤ h_num_fault_types h < 2^32 →
  0 ≤ fault_name_len h < 2^32 → decode_header (encode_header h ++ y) = h.
Proof.
  intros. unfold decode_header, encode_header.
  assert (Hs : ∀ off z a r, length a = off → 0 ≤ z < 2^32 →
            le_join (slice off 4 (a ++ le_split 4 z ++ r)) = z).
  { intros off z a r Ha Hz. rewrite slice_app by (done || apply length_le_split).
    by apply le_join_split_small. }
  assert (Hm : ∀ r, le_join (slice 0 4 (le_split 4 (magic h) ++ r)) = magic h)
    by (intros r; by apply (Hs 0%nat _ [])).
  rewrite <- !app_assoc, Hm.
  rewrite (Hs 4%nat (h_num_bbs h) (le_split 4 (magic h))) by (done || apply length_le_split).
  rewrite (app_assoc (le_split 4 (magic h))).
  rewrite (Hs 8%nat) by (rewrite ?length_app, ?length_le_split; done).
  rewrite (app_assoc (_ ++ _) (le_split 4 (h_num_fault_types h))).
  rewrite (Hs 12%nat) by (rewrite ?length_app, ?length_le_split; done).
  by destruct h.
Qed.

Lemma own_header_decode x y :
  ctx_ok x → decode_header (encode_header (own_header x) ++ y) = own_header x.
Proof.
  intros Hx. apply decode_encode_header; cbn [magic h_num_bbs h_num_fault_types fault_name_len own_header];
    try apply u32_range; split; done.
Qed.

Lemma cand_bytes_length x ft : ctx_ok x → ft ∈ fault_types x → length (cand_bytes x ft) = (4 * nbbs x)%nat.
Proof.
  intros Hx Hft. unfold cand_bytes. rewrite length_encode_array, length_take.
  destruct (proj1 (Forall_forall _ _) (ok_cands _ Hx) _ Hft). lia.
Qed.

Lemma names_length x : length (names_bytes x) = (64 * nfts x)%nat.
Proof. unfold names_bytes. by rewrite (length_bind_const _ 64) by (intros; apply length_strncpy). Qed.

Lemma cands_length x : ctx_ok x → length (fault_types x ≫= cand_bytes x) = (4 * nbbs x * nfts x)%nat.
Proof. intros. by rewrite (length_bind_const _ (4 * nbbs x)) by (intros; by apply cand_bytes_length). Qed.

Lemma stat_file_length x cs :
  ctx_ok x → counts_ok x cs → length (stat_file x cs) = datasize x.
Proof.
  intros Hx [Hl _]. unfold stat_file, datasize, cands_off, execs_off, names_off, sizeof_header.
  rewrite !length_app, length_encode_header, names_length, length_encode_array, cands_length by done.
  unfold EDFI_STATS_FAULT_NAME_LEN. lia.
Qed.

Lemma encode_zeros n : encode_array 8 (repeat 0 n) = repeat 0 (8 * n)%nat.
Proof.
  induction n as [|n IH]; [done|]. replace (8 * S n)%nat with (8 + 8 * n)%nat by lia.
  rewrite repeat_app, <- IH. unfold encode_array. cbn [repeat]. by rewrite bind_cons.
Qed.

Lemma new_data_eq x : new_data x = stat_file x (repeat 0 (nbbs x)).
Proof. unfold new_data, stat_file. by rewrite encode_zeros. Qed.

Lemma repeat_lookup {A} (v : A) n i : (i < n)%nat → repeat v n !! i = Some v.
Proof. revert i. induction n as [|n IH]; intros [|i] Hi; simpl; try lia; [done|]. apply IH. lia. Qed.

Lemma zeros_ok x : counts_ok x (repeat 0 (nbbs x)).
Proof.
  split; [apply repeat_length|]. apply Forall_forall. intros z Hz.
  apply list_elem_of_In, repeat_spec in Hz. lia.
Qed.

Lemma add_counts_ok x y cs : ctx_ok x → same_binary x y → counts_ok y cs → counts_ok y (add_counts x cs).
Proof.
  intros Hx [Hn _] [Hl Hc]. pose proof (ok_execs _ Hx) as He.
  assert (Hxy : nbbs x = nbbs y) by (unfold nbbs; congruence).
  unfold add_counts. split.
  - rewrite length_zip_with, length_take, length_drop. lia.
  - apply Forall_forall. intros z Hz. apply elem_of_lookup_zip_with in Hz as (i & a & e & -> & _).
    apply u64_range.
Qed.

(** The parts of the file, from the left. *)
Lemma stat_file_execs x cs :
  ctx_ok x → counts_ok x cs →
  take (execs_off x) (stat_file x cs) = encode_header (own_header x) ++ names_bytes x ∧
  slice (execs_off x) (8 * nbbs x) (stat_file x cs) = encode_array 8 cs ∧
  drop (cands_off x) (stat_file x cs) = fault_types x ≫= cand_bytes x.
Proof.
  intros Hx [Hl _]. unfold stat_file. rewrite (app_assoc (encode_header _)).
  assert (H1 : length (encode_header (own_header x) ++ names_bytes x) = execs_off x).
  { rewrite length_app, length_encode_header, names_length. reflexivity. }
  split_and!.
  - by rewrite take_app_length'.
  - apply slice_app; [done|]. rewrite length_encode_array. lia.
  - rewrite app_assoc, drop_app_length'; [done|].
    rewrite length_app, H1, length_encode_array, Hl. reflexivity.
Qed.

Lemma add_executions_eq x y cs :
  ctx_ok x → ctx_ok y → same_binary x y → counts_ok y cs →
  add_executions x (stat_file y cs) = stat_file y (add_counts x cs).
Proof.
  intros Hx Hy Hs Hc. pose proof Hs as [Hn Hf]. apply Forall2_length in Hf.
  assert (E1 : nbbs x = nbbs y) by (unfold nbbs; congruence).
  assert (E2 : execs_off x = execs_off y) by (unfold execs_off, nfts; congruence).
  assert (E3 : cands_off x = cands_off y) by (unfold cands_off; congruence).
  unfold add_executions. rewrite E1, E2, E3.
  destruct (stat_file_execs y cs Hy Hc) as (-> & -> & ->).
  rewrite <- (app_nil_r (encode_array 8 cs)), <- (proj1 Hc), decode_encode_array by (by apply Hc).
  unfold stat_file. by rewrite <- app_assoc.
Qed.

(** ** Verification of an old file *)

Lemma verify_types_spec x fts i data :
  verify_types x i fts data = true ↔
  ∀ j ft, fts !! j = Some ft →
    strn EDFI_STATS_FAULT_NAME_LEN
      (slice (names_off + (i + j) * EDFI_STATS_FAULT_NAME_LEN) EDFI_STATS_FAULT_NAME_LEN data) =
    strn EDFI_STATS_FAULT_NAME_LEN (string_bytes (ft_name ft)) ∧
    slice (cands_off x + (i + j) * (4 * nbbs x)) (4 * nbbs x) data = cand_bytes x ft.
Proof.
  revert i. induction fts as [|ft fts IH]; intros i.
  { simpl. split; [|done]. intros _ j ft Hj. done. }
  cbn [verify_types]. rewrite !andb_true_iff, bool_decide_eq_true, IH. unfold strncmp_eq.
  rewrite bool_decide_eq_true. split.
  - intros [[H1 H2] H3] [|j] ft' Hj.
    + injection Hj as <-. by rewrite Nat.add_0_r.
    + rewrite Nat.add_succ_r, <- Nat.add_succ_l. by apply H3.
  - intros H. destruct (H 0%nat ft eq_refl) as [H1 H2]. rewrite Nat.add_0_r in H1, H2.
    split; [done|]. intros j ft' Hj. specialize (H (S j) ft' Hj).
    by rewrite Nat.add_succ_r, <- Nat.add_succ_l in H.
Qed.

(** The parts of the file of a fault type. *)
Lemma stat_file_type y cs j ft :
  ctx_ok y → counts_ok y cs → fault_types y !! j = Some ft →
  slice (names_off + j * EDFI_STATS_FAULT_NAME_LEN) EDFI_STATS_FAULT_NAME_LEN (stat_file y cs) =
    strncpy (string_bytes (ft_name ft)) EDFI_STATS_FAULT_NAME_LEN ∧
  slice (cands_off y + j * (4 * nbbs y)) (4 * nbbs y) (stat_file y cs) = cand_bytes y ft.
Proof.
  intros Hy [Hl _] Hj. unfold stat_file. split.
  - replace names_off with (length (encode_header (own_header y))) by apply length_encode_header.
    unfold names_bytes. apply (slice_bind (λ ft, strncpy _ EDFI_STATS_FAULT_NAME_LEN)); [|done].
    intros. apply length_strncpy.
  - rewrite !app_assoc, <- (app_nil_r (fault_types y ≫= cand_bytes y)).
    replace (cands_off y) with (length ((encode_header (own_header y) ++ names_bytes y) ++ encode_array 8 cs)).
    2:{ rewrite !length_app, length_encode_header, names_length, length_encode_array, Hl. reflexivity. }
    apply slice_bind; [|done]. intros. by apply cand_bytes_length.
Qed.

Lemma ctx_ok_take x ft : ctx_ok x → ft ∈ fault_types x →
  Forall (λ z, -2^31 ≤ z < 2^31) (take (nbbs x) (bb_num_candidates ft)).
Proof. intros Hx Hft. apply Forall_take. by apply (proj1 (Forall_forall _ _) (ok_cands _ Hx) _ Hft). Qed.

Lemma verify_stat_file x y cs :
  ctx_ok x → ctx_ok y → counts_ok y cs → num_bbs x = num_bbs y → nfts x = nfts y →
  verify_types x 0 (fault_types x) (stat_file y cs) = true ↔ same_binary x y.
Proof.
  intros Hx Hy Hc Hn Hf.
  assert (E1 : nbbs x = nbbs y) by (unfold nbbs; congruence).
  assert (E3 : cands_off x = cands_off y) by (unfold cands_off, execs_off; congruence).
  rewrite verify_types_spec, E1, E3. unfold same_binary. rewrite E1. split.
  - intros H. split; [done|]. apply Forall2_same_length_lookup_2; [exact Hf|].
    intros i a b Ha Hb. destruct (H i a Ha) as [H1 H2].
    destruct (stat_file_type y cs i b Hy Hc Hb) as [H3 H4].
    cbn [Nat.add] in H1, H2. rewrite H3, strn_strncpy in H1. split; [done|].
    rewrite H4 in H2. unfold cand_bytes in H2. rewrite E1 in H2. symmetry. apply encode_ints_inj; [..|done].
    + by apply ctx_ok_take; [|eapply list_elem_of_lookup_2].
    + rewrite <- E1. by apply ctx_ok_take; [|eapply list_elem_of_lookup_2].
  - intros [_ H] j a Ha. destruct (Forall2_lookup_l _ _ _ _ _ H Ha) as (b & Hb & Hs1 & Hs2).
    destruct (stat_file_type y cs j b Hy Hc Hb) as [H3 H4]. cbn [Nat.add].
    rewrite H3, H4, strn_strncpy, Hs1. split; [done|]. unfold cand_bytes. by rewrite E1, Hs2.
Qed.

Lemma header_stat_file x y cs n :
  ctx_ok x → ctx_ok y → (16 ≤ n)%nat →
  header_ok x (take n (stat_file y cs)) = true ↔ num_bbs x = num_bbs y ∧ nfts x = nfts y.
Proof.
  intros Hx Hy Hn. unfold header_ok, stat_file.
  rewrite take_app_ge by (rewrite length_encode_header; lia).
  rewrite own_header_decode by done. cbn [own_header magic h_num_bbs h_num_fault_types fault_name_len].
  rewrite !Z.eqb_refl. rewrite andb_true_r. cbn [andb]. rewrite andb_true_iff, !Z.eqb_eq.
  pose proof (ok_bbs _ Hx). pose proof (ok_bbs _ Hy). pose proof (ok_bbs32 _ Hx). pose proof (ok_bbs32 _ Hy).
  pose proof (ok_types _ Hx). pose proof (ok_types _ Hy).
  rewrite !u32_small by lia. lia.
Qed.

(** A run on the file of a program: its counts are added when the program is the
    same, and otherwise the file stays as it is. *)
Lemma add_with_fd_file x y cs :
  ctx_ok x → ctx_ok y → counts_ok y cs →
  edfi_stats_per_bb_add_with_fd x (stat_file y cs) =
    stat_file y (if decide (same_binary x y) then add_counts x cs else cs).
Proof.
  intros Hx Hy Hc. unfold edfi_stats_per_bb_add_with_fd.
  pose proof (stat_file_length y cs Hy Hc) as Hlen.
  assert (Hd : ∀ z, (16 ≤ datasize z)%nat) by (intros; unfold datasize, cands_off, execs_off, names_off, sizeof_header; lia).
  pose proof (Hd x). pose proof (Hd y).
  assert (Hsame : same_binary x y → datasize x = datasize y).
  { intros [Hn Hf]. apply Forall2_length in Hf.
    unfold datasize, cands_off, execs_off, nbbs, nfts. by rewrite Hn, Hf. }
  destruct (Nat.eqb_spec (length (take (datasize x) (stat_file y cs))) 0) as [Hz|Hz];
    rewrite length_take in Hz; [lia|].
  destruct (Nat.eqb_spec (length (take (datasize x) (stat_file y cs))) (datasize x)) as [Hz'|Hz'];
    rewrite length_take in Hz'; [|destruct (decide (same_binary x y)) as [Hs|]; [specialize (Hsame Hs); lia|done]].
  destruct (header_ok x (take (datasize x) (stat_file y cs))) eqn:Eh; cbn [negb].
  2:{ destruct (decide (same_binary x y)) as [[Hn Hf]|]; [|done]. apply Forall2_length in Hf.
      rewrite (proj2 (header_stat_file x y cs (datasize x) Hx Hy ltac:(lia))) in Eh; done. }
  apply header_stat_file in Eh as [Hn Hf]; [|done|done|lia].
  assert (Hds : datasize x = datasize y) by (unfold datasize, cands_off, execs_off, nbbs; by rewrite Hn, Hf).
  rewrite Hds, take_ge by lia. rewrite drop_ge, app_nil_r by lia.
  pose proof (verify_stat_file x y cs Hx Hy Hc Hn Hf) as Hv.
  destruct (verify_types x 0 (fault_types x) (stat_file y cs)); cbn [negb]; destruct (decide (same_binary x y)) as [Hs|Hs].
  - by apply add_executions_eq.
  - by destruct Hs; apply Hv.
  - by apply Hv in Hs.
  - done.
Qed.

Lemma add_with_fd_new x :
  ctx_ok x → edfi_stats_per_bb_add_with_fd x [] = stat_file x (add_counts x (repeat 0 (nbbs x))).
Proof.
  intros Hx. unfold edfi_stats_per_bb_add_with_fd. rewrite take_nil, drop_nil, app_nil_r. simpl.
  rewrite new_data_eq. apply add_executions_eq; [done..| |apply zeros_ok].
  split; [done|]. apply Forall_Forall2_diag, Forall_forall. done.
Qed.

(** ** Accumulation over runs *)

Definition run_file (file : bytes) (xs : list edfi_context_t) : bytes :=
  foldl (λ f x, edfi_stats_per_bb_add_with_fd x f) file xs.

(** The count of block [i] over the runs of the program [y]. *)
Definition total_count (y : edfi_context_t) (i : nat) (acc : Z) (xs : list edfi_context_t) : Z :=
  foldl (λ a x, if decide (same_binary x y) then a + nth (S i) (bb_num_executions x) 0 else a) acc xs.

Lemma same_binary_refl x : same_binary x x.
Proof. split; [done|]. apply Forall_Forall2_diag, Forall_forall. done. Qed.

Lemma total_count_mod y i a xs : u64 (total_count y i (u64 a) xs) = u64 (total_count y i a xs).
Proof.
  assert (Hs : ∀ a, total_count y i a xs = a + total_count y i 0 xs).
  { clear a. induction xs as [|x xs IH]; intros a; [simpl; lia|]. unfold total_count in *. simpl.
    rewrite IH. symmetry. rewrite IH. destruct (decide _); lia. }
  rewrite (Hs (u64 a)), (Hs a). unfold u64. by rewrite Zplus_mod_idemp_l.
Qed.

Lemma add_counts_lookup x y cs i a :
  ctx_ok x → same_binary x y → counts_ok y cs → cs !! i = Some a →
  add_counts x cs !! i = Some (u64 (a + nth (S i) (bb_num_executions x) 0)).
Proof.
  intros Hx [Hn _] [Hl _] Hi. pose proof (ok_execs _ Hx) as He.
  assert (E1 : nbbs x = nbbs y) by (unfold nbbs; congruence).
  pose proof (lookup_lt_Some _ _ _ Hi) as Hlt. unfold add_counts. rewrite lookup_zip_with, Hi. cbn.
  rewrite lookup_take_lt, lookup_drop by lia.
  destruct (lookup_lt_is_Some_2 (bb_num_executions x) (1 + i)) as [e He']; [lia|].
  rewrite He'. cbn. rewrite (nth_lookup (bb_num_executions x)). cbn [Nat.add] in He'. by rewrite He'.
Qed.

Lemma run_file_counts y xs cs :
  ctx_ok y → Forall ctx_ok xs → counts_ok y cs →
  ∃ cs', run_file (stat_file y cs) xs = stat_file y cs' ∧ counts_ok y cs' ∧
    ∀ i a, cs !! i = Some a → cs' !! i = Some (u64 (total_count y i a xs)).
Proof.
  intros Hy Hxs. revert cs. induction Hxs as [|x xs Hx Hxs IH]; intros cs Hc.
  { exists cs. split_and!; [done..|]. intros i a Ha. simpl. rewrite u64_small; [done|].
    apply (proj1 (Forall_lookup _ _) (proj2 Hc) _ _ Ha). }
  unfold run_file. cbn [foldl]. rewrite add_with_fd_file by done.
  destruct (IH (if decide (same_binary x y) then add_counts x cs else cs)) as (cs' & E & Hc' & Hi).
  { destruct (decide _); [by apply add_counts_ok|done]. }
  exists cs'. split_and!; [done..|]. intros i a Ha. cbn [total_count foldl].
  unfold total_count. cbn [foldl]. destruct (decide (same_binary x y)) as [Hs|Hs]; [|by apply Hi].
  rewrite (Hi i _ (add_counts_lookup _ _ _ _ _ Hx Hs Hc Ha)). f_equal. apply total_count_mod.
Qed.

(** ** Reading the file back *)

Lemma reada_app l y n :
  n = Z.of_nat (length l) → reada (l ++ y) n = Some (l, y).
Proof.
  intros ->. unfold reada. rewrite Nat2Z.id, take_app_length, drop_app_length.
  by rewrite Nat.eqb_refl.
Qed.

(** The candidates of all fault types, in the order of the file. *)
Definition all_candidates (x : edfi_context_t) : list Z :=
  fault_types x ≫= λ ft, take (nbbs x) (bb_num_candidates ft).

Lemma cand_bytes_bind x fts :
  (fts ≫= cand_bytes x) = encode_array 4 (fts ≫= λ ft, take (nbbs x) (bb_num_candidates ft)).
Proof.
  unfold cand_bytes, encode_array. induction fts as [|ft fts IH]; [done|].
  rewrite !bind_cons, bind_app. f_equal. exact IH.
Qed.

Lemma length_all_candidates x : ctx_ok x → length (all_candidates x) = (nbbs x * nfts x)%nat.
Proof.
  intros Hx. unfold all_candidates. rewrite (length_bind_const _ (nbbs x)); [done|].
  intros ft Hft. rewrite length_take. destruct (proj1 (Forall_forall _ _) (ok_cands _ Hx) _ Hft). lia.
Qed.

Lemma all_candidates_range x : ctx_ok x → Forall (λ z, -2^31 ≤ z < 2^31) (all_candidates x).
Proof.
  intros Hx. apply Forall_forall. intros z Hz. apply list_elem_of_bind in Hz as (ft & Hz & Hft).
  apply (proj1 (Forall_forall _ _) (ctx_ok_take x ft Hx Hft) z Hz).
Qed.

Lemma open_stat_file x cs :
  ctx_ok x → counts_ok x cs →
  edfistats_open1 (stat_file x cs) =
    Some {| f_header := own_header x; f_fault_names := names_bytes x;
            f_bb_num_executions := cs; f_bb_num_candidates := all_candidates x |}.
Proof.
  intros Hx [Hl Hc]. pose proof (ok_bbs _ Hx). pose proof (ok_bbs32 _ Hx).
  pose proof (ok_types _ Hx). pose proof (ok_size _ Hx).
  unfold edfistats_open1, stat_file. rewrite reada_app by (by rewrite length_encode_header). cbn [mbind option_bind].
  rewrite <- (app_nil_r (encode_header (own_header x))), own_header_decode by done.
  cbn [own_header magic h_num_bbs h_num_fault_types fault_name_len].
  rewrite (u32_small (num_bbs x)), (u32_small (Z.of_nat (nfts x))) by lia.
  destruct (Z.eqb_spec (num_bbs x) 0); [lia|]. destruct (Z.eqb_spec (Z.of_nat (nfts x)) 0); [lia|].
  rewrite Z.eqb_refl. change (Z.of_nat EDFI_STATS_FAULT_NAME_LEN) with 64. cbn [negb orb Z.eqb].
  rewrite reada_app by (rewrite names_length, u32_small by lia; lia). cbn [mbind option_bind].
  rewrite reada_app by (rewrite length_encode_array, Hl; unfold nbbs; lia). cbn [mbind option_bind].
  rewrite u32_small by lia.
  rewrite <- (app_nil_r (fault_types x ≫= cand_bytes x)).
  rewrite reada_app by (rewrite cands_length by done; unfold nbbs; lia). cbn [mbind option_bind].
  f_equal. f_equal.
  - rewrite <- (app_nil_r (encode_array 8 cs)). fold (nbbs x). rewrite <- Hl. by apply decode_encode_array.
  - rewrite cand_bytes_bind. fold (all_candidates x). rewrite <- (app_nil_r (encode_array 4 _)).
    replace (Z.to_nat (num_bbs x * Z.of_nat (nfts x))) with (length (all_candidates x)).
    + apply decode_encode_ints. by apply all_candidates_range.
    + rewrite length_all_candidates by done. unfold nbbs. lia.
Qed.

(** The statistics file accumulates runs.  Start from an empty file with a
    run of the program [y], then let any runs follow, of this or of other
    programs.  The reader accepts the file and gives [y]'s header, names and
    candidate counts, and for every block the sum, modulo 2^64, of its execution
    counts over exactly the runs of the same program. *)
Theorem stats_accumulate y xs :
  ctx_ok y → Forall ctx_ok xs →
  ∃ fs, edfistats_open1 (run_file [] (y :: xs)) = Some fs ∧
    f_header fs = own_header y ∧ f_fault_names fs = names_bytes y ∧
    f_bb_num_candidates fs = all_candidates y ∧ length (f_bb_num_executions fs) = nbbs y ∧
    ∀ i, (i < nbbs y)%nat →
      f_bb_num_executions fs !! i = Some (u64 (total_count y i 0 (y :: xs))).
Proof.
  intros Hy Hxs. unfold run_file. cbn [foldl]. rewrite add_with_fd_new by done.
  set (c0 := add_counts y (repeat 0 (nbbs y))).
  assert (Hc0 : counts_ok y c0) by (apply add_counts_ok; [done|apply same_binary_refl|apply zeros_ok]).
  destruct (run_file_counts y xs c0 Hy Hxs Hc0) as (cs & E & Hc & Hi). unfold run_file in E.
  rewrite E, open_stat_file by done. eexists. split; [done|]. split_and!; try done; [by apply Hc|].
  intros i Hlt. cbn [f_bb_num_executions].
  assert (H0 : c0 !! i = Some (u64 (0 + nth (S i) (bb_num_executions y) 0))).
  { apply (add_counts_lookup y y); [done|apply same_binary_refl|apply zeros_ok|].
    by apply repeat_lookup. }
  rewrite (Hi _ _ H0). f_equal. rewrite total_count_mod. unfold total_count. cbn [foldl].
  by destruct (decide (same_binary y y)) as [|[]]; [|apply same_binary_refl].
Qed.

(** ** The table of the printing tool *)

(** A name without NUL, made a variable name. *)
Definition fixed_name (l : bytes) : bytes := map (λ v, if is_valid_varname_char v then v else 95) l.

Lemma fix_varname_nul l y :
  Forall (λ v, v ≠ 0) l → fix_varname (l ++ 0 :: y) = Ret (fixed_name l ++ 0 :: y).
Proof.
  induction 1 as [|v l Hv Hl IH]; [done|]. cbn [app fix_varname].
  destruct (Z.eqb_spec v 0); [done|]. rewrite IH. done.
Qed.

Lemma fix_varname_overrun l : Forall (λ v, v ≠ 0) l → fix_varname l = Stop FBounds.
Proof.
  induction 1 as [|v l Hv Hl IH]; [done|]. cbn [fix_varname].
  destruct (Z.eqb_spec v 0); [done|]. by rewrite IH.
Qed.

Lemma strn_fixed len l y :
  Forall (λ v, v ≠ 0) l → (length l < len)%nat → strn len (fixed_name l ++ 0 :: y) = fixed_name l.
Proof.
  intros Hl. revert len. induction Hl as [|v l Hv Hl IH]; intros [|len] Hlen; simpl in Hlen; try lia; [done|].
  cbn [fixed_name map app strn].
  assert (Hn : (if is_valid_varname_char v then v else 95) ≠ 0) by (destruct (is_valid_varname_char v); lia).
  destruct (Z.eqb_spec (if is_valid_varname_char v then v else 95) 0); [done|]. f_equal. apply IH. lia.
Qed.

(** A short name in its slot ends with a NUL. *)
Lemma strncpy_short l n : (length l < n)%nat → ∃ k, strncpy l n = l ++ 0 :: repeat 0 k ∧ (length l + S k)%nat = n.
Proof.
  intros Hl. unfold strncpy. rewrite take_ge by lia. exists (n - S (length l))%nat.
  replace (n - length l)%nat with (S (n - S (length l))) by lia. split; [done|lia].
Qed.

Lemma header_loop_spec len names : ∀ pre,
  Forall (λ l, Forall (λ v, v ≠ 0) l ∧ (length l < len)%nat) names →
  ∀ i, length pre = (len * i)%nat →
  header_loop (length names) i len (pre ++ (names ≫= λ l, strncpy l len)) = Ret (map fixed_name names).
Proof.
  induction names as [|l names IH]; intros pre Hn i Hi; [done|].
  inversion Hn as [|? ? [Hl Hlen] Hn']; subst.
  rewrite bind_cons. cbn [length header_loop map].
  destruct (strncpy_short l len Hlen) as (k & Hk & Hsz). rewrite Hk, <- app_assoc. cbn [app].
  rewrite drop_app_length', take_app_length' by done.
  rewrite fix_varname_nul by done. cbn [res_bind].
  assert (Hpre : pre ++ fixed_name l ++ 0 :: repeat 0 k ++ (names ≫= λ l, strncpy l len) =
    (pre ++ fixed_name l ++ 0 :: repeat 0 k) ++ (names ≫= λ l, strncpy l len)) by (by rewrite <- !app_assoc).
  rewrite drop_app_length' by done. rewrite strn_fixed by done. rewrite Hpre, IH; [done|done|].
  rewrite !length_app. cbn [length]. unfold fixed_name. rewrite length_map, repeat_length. nia.
Qed.

Definition short_names (x : edfi_context_t) : Prop :=
  Forall (λ ft, Forall (λ v, v ≠ 0) (string_bytes (ft_name ft)) ∧
                (length (string_bytes (ft_name ft)) < EDFI_STATS_FAULT_NAME_LEN)%nat) (fault_types x).

(** The contents a reader has of the file of a program. *)
Definition state_of (x : edfi_context_t) (cs : list Z) : file_state :=
  {| f_header := own_header x; f_fault_names := names_bytes x;
     f_bb_num_executions := cs; f_bb_num_candidates := all_candidates x |}.

Lemma header_loop_names x :
  short_names x →
  header_loop (nfts x) 0 EDFI_STATS_FAULT_NAME_LEN (names_bytes x) =
    Ret (map (λ ft, fixed_name (string_bytes (ft_name ft))) (fault_types x)).
Proof.
  intros Hn. pose proof (header_loop_spec EDFI_STATS_FAULT_NAME_LEN
    (map (λ ft, string_bytes (ft_name ft)) (fault_types x)) []) as H.
  assert (Hb : (map (λ ft, string_bytes (ft_name ft)) (fault_types x) ≫=
                λ l, strncpy l EDFI_STATS_FAULT_NAME_LEN) = names_bytes x).
  { unfold names_bytes. generalize (fault_types x). intros l. induction l as [|ft l IH]; [done|].
    cbn [map]. rewrite !bind_cons, IH. done. }
  rewrite Hb, length_map, map_map in H. cbn [app] in H. apply H; [|done].
  apply Forall_forall. intros l Hl. apply list_elem_of_In, in_map_iff in Hl as (ft & <- & Hft).
  apply (proj1 (Forall_forall _ _) Hn). by apply list_elem_of_In.
Qed.

Lemma strncmp_eq_refl l n : strncmp_eq l l n = true.
Proof. unfold strncmp_eq. by rewrite bool_decide_eq_true. Qed.

Lemma compatible_states y cs cs' : compatible (state_of y cs) (state_of y cs') = true.
Proof.
  unfold compatible. cbn [state_of f_header f_fault_names f_bb_num_candidates]. rewrite !Z.eqb_refl.
  assert (Hs : ∀ n i len l, same_names n i len l l = true).
  { induction n as [|n IH]; intros i len l; [done|]. cbn [same_names]. by rewrite strncmp_eq_refl, IH. }
  rewrite Hs. cbn [andb]. by rewrite bool_decide_eq_true.
Qed.

Lemma nth_bind_const (f : fault_type_stats → list Z) k l i v bb :
  (∀ v, v ∈ l → length (f v) = k) → l !! i = Some v → (bb < k)%nat →
  nth (i * k + bb) (l ≫= f) 0 = nth bb (f v) 0.
Proof.
  revert i. induction l as [|w l IH]; intros i Hk Hi Hb; [done|].
  rewrite bind_cons. destruct i as [|i].
  - injection Hi as ->. apply app_nth1. rewrite Hk by set_solver. simpl. lia.
  - rewrite app_nth2 by (rewrite Hk by set_solver; simpl; lia). rewrite Hk by set_solver.
    replace (S i * k + bb - k)%nat with (i * k + bb)%nat by (simpl; lia). apply IH; [set_solver|done|done].
Qed.

Lemma map_seq_lookup {A B} (l : list A) (h : nat → B) (g : A → B) :
  (∀ i v, l !! i = Some v → h i = g v) → map h (seq 0 (length l)) = map g l.
Proof.
  intros Hh. apply list_eq. intros i. change (map h (seq 0 (length l))) with (h <$> seq 0 (length l)).
  change (map g l) with (g <$> l). rewrite !list_lookup_fmap.
  destruct (l !! i) as [v|] eqn:E.
  - rewrite lookup_seq_lt by (by eapply lookup_lt_Some). cbn. by rewrite (Hh i v E).
  - apply lookup_ge_None in E. by rewrite lookup_seq_ge.
Qed.

(** The table the runs of a program should give. *)
Definition expected_table (y : edfi_context_t) (css : list (list Z)) : table :=
  {| columns := map (λ ft, fixed_name (string_bytes (ft_name ft))) (fault_types y);
     rows := map (λ bb : nat, (Z.of_nat bb + 1, map (λ cs, nth bb cs 0) css,
               map (λ ft, nth bb (bb_num_candidates ft) 0) (fault_types y))) (seq 0 (nbbs y)) |}.

Lemma table_rows_states y css cs :
  ctx_ok y → table_rows (map (state_of y) css) (state_of y cs) = rows (expected_table y css).
Proof.
  intros Hy. pose proof (ok_bbs _ Hy). pose proof (ok_bbs32 _ Hy). pose proof (ok_types _ Hy).
  unfold table_rows. cbn [state_of f_header own_header h_num_bbs h_num_fault_types].
  rewrite !u32_small, Nat2Z.id by lia. fold (nbbs y). cbn [rows expected_table].
  apply map_ext_in. intros bb Hbb. apply in_seq in Hbb. f_equal; [f_equal; apply map_map|].
  apply map_seq_lookup. intros i ft Hft. cbn [f_bb_num_candidates].
  assert (Hl : ∀ ft, ft ∈ fault_types y → (nbbs y ≤ length (bb_num_candidates ft))%nat).
  { intros v Hv. by apply (proj1 (Forall_forall _ _) (ok_cands _ Hy) _ Hv). }
  cbn [state_of f_bb_num_candidates]. unfold all_candidates. rewrite (nth_bind_const _ (nbbs y) _ i ft); [|..|lia].
  - rewrite !nth_lookup, lookup_take_lt by lia. done.
  - intros v Hv. rewrite length_take. specialize (Hl v Hv). lia.
  - done.
Qed.

(** The table of the printing tool.  For the files of any number of runs of one
    program whose fault names have less than 64 characters, the tool opens all
    files, finds them compatible and prints, under the fault names made variable
    names, one row per block with its number, its count in every file and its
    candidates of every fault type. *)
Theorem printed_table y cs css :
  ctx_ok y → short_names y → Forall (counts_ok y) (cs :: css) →
  ∃ fss, edfistats_open (map (stat_file y) (cs :: css)) = Some fss ∧
    process_files fss = Ret (Some (expected_table y (cs :: css))).
Proof.
  intros Hy Hn Hcs. exists (map (state_of y) (cs :: css)). split.
  - unfold edfistats_open. generalize (cs :: css) Hcs. intros l Hl. apply mapM_Some_2.
    apply Forall2_fmap_2. apply Forall_Forall2_diag. eapply Forall_impl; [exact Hl|].
    intros k Hk. by apply open_stat_file.
  - cbn [map process_files].
    assert (Hc : forallb (compatible (state_of y cs)) (map (state_of y) css) = true).
    { apply forallb_forall. intros f Hf. apply in_map_iff in Hf as (k & <- & _). apply compatible_states. }
    rewrite Hc. cbn [state_of f_header own_header h_num_fault_types fault_name_len f_fault_names].
    pose proof (ok_types _ Hy). rewrite u32_small, !Nat2Z.id by lia. rewrite header_loop_names by done.
    cbn [res_bind]. change (state_of y cs :: map (state_of y) css) with (map (state_of y) (cs :: css)).
    by rewrite (table_rows_states y (cs :: css) cs Hy).
Qed.

Lemma header_loop_overrun len l names : ∀ pre,
  Forall (λ l, Forall (λ v, v ≠ 0) l ∧ (length l < len)%nat) names →
  Forall (λ v, v ≠ 0) l → (len ≤ length l)%nat →
  ∀ i, length pre = (len * i)%nat →
  header_loop (length names + 1) i len (pre ++ (names ≫= λ l, strncpy l len) ++ strncpy l len) = Stop FBounds.
Proof.
  induction names as [|l' names IH]; intros pre Hn Hl Hlen i Hi.
  { cbn [length Nat.add header_loop mbind list_bind app]. rewrite drop_app_length' by done.
    unfold strncpy. replace (len - length l)%nat with 0%nat by lia. rewrite app_nil_r.
    by rewrite fix_varname_overrun by (by apply Forall_take). }
  inversion Hn as [|? ? [Hl' Hlen'] Hn']; subst.
  rewrite bind_cons. cbn [length Nat.add header_loop].
  destruct (strncpy_short l' len Hlen') as (k & Hk & Hsz). rewrite Hk, <- !app_assoc. cbn [app].
  rewrite drop_app_length', take_app_length' by done.
  rewrite fix_varname_nul by done. cbn [res_bind].
  assert (Hpre : ∀ r, pre ++ fixed_name l' ++ 0 :: repeat 0 k ++ r =
    (pre ++ fixed_name l' ++ 0 :: repeat 0 k) ++ r) by (intros r; by rewrite <- !app_assoc).
  rewrite Hpre, IH; [done..|].
  rewrite !length_app. cbn [length]. unfold fixed_name. rewrite length_map, repeat_length. nia.
Qed.

(** Long fault names.  When the last fault type's name has 64 characters or more,
    its slot in the file has no terminator, and the tool that prints the file
    rewrites memory past the name buffer. *)
Theorem long_name_overruns x cs fts ft :
  ctx_ok x → fault_types x = fts ++ [ft] →
  Forall (λ ft, Forall (λ v, v ≠ 0) (string_bytes (ft_name ft)) ∧
                (length (string_bytes (ft_name ft)) < EDFI_STATS_FAULT_NAME_LEN)%nat) fts →
  Forall (λ v, v ≠ 0) (string_bytes (ft_name ft)) →
  (EDFI_STATS_FAULT_NAME_LEN ≤ length (string_bytes (ft_name ft)))%nat →
  process_files [state_of x cs] = Stop FBounds.
Proof.
  intros Hx Hfts Hs Hl Hlen. pose proof (ok_types _ Hx).
  cbn [process_files forallb state_of f_header own_header h_num_fault_types fault_name_len f_fault_names].
  rewrite u32_small, !Nat2Z.id by lia.
  pose proof (header_loop_overrun EDFI_STATS_FAULT_NAME_LEN (string_bytes (ft_name ft))
    (map (λ ft, string_bytes (ft_name ft)) fts) []) as Ho.
  assert (Hb : names_bytes x = (map (λ ft, string_bytes (ft_name ft)) fts ≫=
      λ l, strncpy l EDFI_STATS_FAULT_NAME_LEN) ++ strncpy (string_bytes (ft_name ft)) EDFI_STATS_FAULT_NAME_LEN).
  { unfold names_bytes. rewrite Hfts, bind_app. f_equal; [|apply app_nil_r].
    clear. induction fts as [|a l IH]; [done|]. cbn [map]. rewrite !bind_cons, IH. done. }
  rewrite Hb. unfold nfts. rewrite Hfts, length_app. cbn [length app] in *. rewrite length_map in Ho.
  rewrite Ho; [done| |done|done|done].
  apply Forall_forall. intros l Hin. apply list_elem_of_In, in_map_iff in Hin as (a & <- & Ha).
  apply (proj1 (Forall_forall _ _) Hs). by apply list_elem_of_In.
Qed.

(** ** Witnesses *)

Definition demo_type (name : string) : fault_type_stats :=
  {| ft_name := name; bb_num_injected := [1; 0]; bb_num_candidates := [3; -1] |}.
Definition demo_stats (names : list string) (execs : list Z) : edfi_context_t :=
  {| fault_fdp_count := 0; fault_time := 0; start_time := 0; total_faults := 0;
     fault_types := map demo_type names; bb_num_executions := execs; bb_num_faults := [1; 0];
     num_bbs := 2; c := demo_conf 0 0 0 |}.
Definition demo_y : edfi_context_t := demo_stats ["no-load"; "swap"] [0; 5; 6; 0].

Lemma demo_stats_ok names execs :
  (0 < length names < 100)%nat → length execs = 4%nat → ctx_ok (demo_stats names execs).
Proof.
  intros Hn He. constructor; unfold nfts, nbbs; cbn [num_bbs fault_types bb_num_executions demo_stats];
    rewrite ?length_map; try lia.
  apply Forall_forall. intros ft Hft. apply list_elem_of_In, in_map_iff in Hft as (s & <- & _).
  simpl. split; [lia|]. repeat constructor; lia.
Qed.

Lemma stats_accumulate_witness :
  ∃ fs, edfistats_open1 (run_file [] [demo_y; demo_stats ["other"] [0; 9; 9; 0];
      demo_stats ["no-load"; "swap"] [0; 7; 2^64 - 1; 0]]) = Some fs ∧
    f_bb_num_executions fs !! 0%nat = Some 12 ∧ f_bb_num_executions fs !! 1%nat = Some 5.
Proof.
  destruct (stats_accumulate demo_y [demo_stats ["other"] [0; 9; 9; 0];
      demo_stats ["no-load"; "swap"] [0; 7; 2^64 - 1; 0]]) as (fs & E & _ & _ & _ & _ & Hi).
  - apply demo_stats_ok; simpl; lia.
  - repeat (apply Forall_cons; split); [apply demo_stats_ok; simpl; lia..|by apply Forall_nil].
  - exists fs. split; [exact E|].
    rewrite (Hi 0%nat), (Hi 1%nat) by (vm_compute; lia). split; vm_compute; reflexivity.
Defined.

Lemma printed_table_witness :
  ∃ fss, edfistats_open (map (stat_file demo_y) [[5; 6]; [7; 8]]) = Some fss ∧
    process_files fss = Ret (Some (expected_table demo_y [[5; 6]; [7; 8]])).
Proof.
  apply (printed_table demo_y [5; 6] [[7; 8]]).
  - apply demo_stats_ok; simpl; lia.
  - repeat constructor; vm_compute; try lia; discriminate.
  - repeat constructor; vm_compute; try lia; discriminate.
Defined.

Definition long_name : string :=
  "0123456789abcdef0123456789abcdef0123456789abcdef0123456789abcdef".

Lemma long_name_overruns_witness :
  process_files [state_of (demo_stats ["swap"%string; long_name] [0; 5; 6; 0]) [5; 6]] = Stop FBounds.
Proof.
  apply (long_name_overruns (demo_stats ["swap"%string; long_name] [0; 5; 6; 0]) [5; 6]
    [demo_type "swap"] (demo_type long_name)).
  - apply demo_stats_ok; simpl; lia.
  - reflexivity.
  - repeat constructor; vm_compute; try lia; discriminate.
  - repeat constructor; vm_compute; discriminate.
  - vm_compute. lia.
Defined.
