(* ===== verification/ExecCounts.v ===== *)
(** * Execution counts from the program to the analyser

    The run-length encoded line of [edfi_print_hypermemlike_stats] ([edfi_df.c]),
    its parser (in [logparse.c]) and the per-module lists the analyser builds from
    a log: [common/logexeccounts.c]. *)

From Stdlib Require Import ZArith Lia Ascii String.
From stdpp Require Import base list numbers strings.
From S2P Require Import Prelude Decimal LogFmt Runtime Edfi LogParse LogReader LogIntegration.

(** ** The program's side *)

Section Writer.
Variable sz : Z.      (** [sizeof (long)] *)

(** What is printed for a run of [repeats] equal counts; [%lu] of a [long]. *)
Definition rle_item (countrep repeats : Z) : string :=
  if repeats =? 1 then " " +:+ print_dec (ulong sz countrep)
  else if negb (repeats =? 0) then " " +:+ print_dec (ulong sz countrep) +:+ "x" +:+ print_dec repeats
  else "".

(** The loop from block [i] on, for [n] more blocks. *)
Fixpoint hypermemlike_loop (execs : list Z) (i n : nat) (countrep repeats : Z) (out : string) : res string :=
  match n with
  | O => Ret (out +:+ rle_item countrep repeats)
  | S n' =>
      let! count := Edfi.elem execs (Z.of_nat i) in
      if countrep =? count then
        let! repeats := chk32 (repeats + 1) in
        hypermemlike_loop execs (S i) n' countrep repeats out
      else hypermemlike_loop execs (S i) n' count 1 (out +:+ rle_item countrep repeats)
  end.

(** The line, without its newline. *)
Definition edfi_print_hypermemlike_stats (module_name : string) (x : Edfi.edfi_context_t) : res string :=
  hypermemlike_loop (Edfi.bb_num_executions x) 1 (Z.to_nat (Edfi.num_bbs x)) 0 0
    ("edfi_dump_stats_module name=" +:+ module_name).
End Writer.

(** ** The analyser's side *)

(** [struct module_execcount]; [bb_count] is the length of [bbs].  A linked list
    is the list of its nodes. *)
Record module_execcount := { name : string; bbs : list Z }.

Definition execcounts_concat (list1 list2 : list module_execcount) : list module_execcount :=
  match list1, list2 with
  | [], _ => list2
  | _, [] => list1
  | _, _ => list1 ++ list2
  end.

Definition execcounts_add (dst src : module_execcount) : res module_execcount :=
  assert! String.eqb (name dst) (name src) in
  if negb (length (bbs dst) =? length (bbs src))%nat then Stop (FExit 1)
  else Ret {| name := name dst; bbs := zip_with (λ d s, u64 (d + s)) (bbs dst) (bbs src) |}.

(** The position of the first node with a name. *)
Fixpoint execcounts_find (l : list module_execcount) (n : string) : option nat :=
  match l with
  | [] => None
  | m :: l' => if String.eqb (name m) n then Some 0%nat else S <$> execcounts_find l' n
  end.

(** The loop of [execcounts_deduplicate]: a node whose name occurs later is
    removed, after its counts were added to the later node if [add] is set. *)
Fixpoint deduplicate_loop (fuel : nat) (add : bool) (l : list module_execcount)
    : res (list module_execcount) :=
  match fuel, l with
  | _, [] => Ret []
  | O, _ => Stop FFuel
  | S fuel', m :: l' =>
      match execcounts_find l' (name m) with
      | None => let! r := deduplicate_loop fuel' add l' in Ret (m :: r)
      | Some i =>
          if add then
            match l' !! i with
            | None => Stop FNull
            | Some other =>
                let! other := execcounts_add other m in
                deduplicate_loop fuel' add (<[i := other]> l')
            end
          else deduplicate_loop fuel' add l'
      end
  end.
Definition execcounts_deduplicate (add : bool) (l : list module_execcount) : res (list module_execcount) :=
  deduplicate_loop (length l) add l.

(** [execcounts_dump_bbs]: the ranges it prints, with their counts; [execcount]
    is unsigned, so the sentinel [-1] is its maximum. *)
Fixpoint dump_loop (i : Z) (l : list Z) (countrep repeats : Z) : list (Z * Z * Z) :=
  let flush :=
    if 1 <? repeats then [(i - repeats + 1, i, countrep)]
    else if 0 <? repeats then [(i, i, countrep)] else [] in
  match l with
  | [] => if countrep =? 2^64 - 1 then [] else flush
  | count :: l' =>
      if countrep =? count then dump_loop (i + 1) l' countrep (repeats + 1)
      else flush ++ dump_loop (i + 1) l' count 1
  end.
Definition execcounts_dump_bbs (m : module_execcount) : list (Z * Z * Z) := dump_loop 0 (bbs m) 0 0.

(** The name up to its last [@]. *)
Fixpoint strip_at (s : string) : option string :=
  match s with
  | EmptyString => None
  | String a s' =>
      match strip_at s' with
      | Some r => Some (String a r)
      | None => if Ascii.eqb a "@" then Some EmptyString else None
      end
  end.
Definition module_name (s : string) : string := default s (strip_at s).

(** [logparse_callback_edfi_dump_stats_module]: a node at the end of the list. *)
Definition logparse_callback_edfi_dump_stats_module (l : list module_execcount)
    (n : string) (counts : option (list Z)) : list module_execcount :=
  match counts with
  | None => l
  | Some counts => l ++ [{| name := module_name n; bbs := counts |}]
  end.

Definition only_dump_stats_module : logparse_callbacks :=
  λ k, match k with cb_edfi_dump_stats_module => true | _ => false end.

Definition collect (l : list module_execcount) (o : output) : list module_execcount :=
  match o with
  | OCall _ (edfi_dump_stats_module n _ counts) => logparse_callback_edfi_dump_stats_module l n counts
  | _ => l
  end.

Definition execcounts_load_from_log (mktime : tm → Z) (fopen : option string)
    : res (list module_execcount) :=
  let! r := logparse_from_path mktime only_dump_stats_module fopen None in
  Ret (foldl collect [] r.2).

(** ** Run-length encoding *)

Definition flush (c n : Z) : list (Z * Z) := if n =? 0 then [] else [(c, n)].

(** The runs of [l] when a run of [n] times [c] is open. *)
Fixpoint rle (l : list Z) (c n : Z) : list (Z * Z) :=
  match l with
  | [] => flush c n
  | x :: l' => if c =? x then rle l' c (n + 1) else flush c n ++ rle l' x 1
  end.

Definition unrle (rs : list (Z * Z)) : list Z := rs ≫= λ r, repeat r.1 (Z.to_nat r.2).

Lemma unrle_rle l c n : 0 ≤ n → unrle (rle l c n) = repeat c (Z.to_nat n) ++ l.
Proof.
  assert (Hf : ∀ c n, unrle (flush c n) = repeat c (Z.to_nat n)).
  { clear. intros c n. unfold flush. destruct (Z.eqb_spec n 0) as [->|]; [done|]. apply app_nil_r. }
  revert c n. induction l as [|x l IH]; intros c n Hn; simpl; [by rewrite Hf, app_nil_r|].
  destruct (Z.eqb_spec c x) as [->|].
  - rewrite IH by lia. replace (Z.to_nat (n + 1)) with (Z.to_nat n + 1)%nat by lia.
    rewrite repeat_app, <- app_assoc. done.
  - unfold unrle in *. rewrite bind_app, IH, Hf by lia. done.
Qed.

(** Runs are not empty and not longer than the list. *)
Lemma rle_runs l c n : 0 ≤ n → Forall (λ r, 0 < r.2 ≤ n + Z.of_nat (length l)) (rle l c n).
Proof.
  assert (Hf : ∀ c n m, 0 ≤ n ≤ m → Forall (λ r, 0 < r.2 ≤ m) (flush c n)).
  { clear. intros c n m Hm. unfold flush. destruct (Z.eqb_spec n 0); repeat constructor; simpl; lia. }
  revert c n. induction l as [|x l IH]; intros c n Hn; simpl rle; [apply Hf; simpl; lia|].
  destruct (Z.eqb_spec c x).
  - eapply Forall_impl; [apply (IH c (n + 1)); lia|]. simpl. lia.
  - apply Forall_app. split; [apply Hf; simpl; lia|].
    eapply Forall_impl; [apply (IH x 1); lia|]. simpl. lia.
Qed.

(** ** The line and its parser *)

Section RoundTrip.
Context (sz : Z) (Hsz : sz = 4 ∨ sz = 8).

Definition rle_items (rs : list (Z * Z)) : string :=
  foldr (λ r s, rle_item sz r.1 r.2 +:+ s) "" rs.

Lemma rle_items_app rs rs' : rle_items (rs ++ rs') = rle_items rs +:+ rle_items rs'.
Proof. induction rs as [|r rs IH]; simpl; [done|]. by rewrite IH, string_app_assoc. Qed.

Lemma rle_items_flush c n : rle_items (flush c n) = rle_item sz c n.
Proof.
  unfold flush. destruct (Z.eqb_spec n 0) as [->|]; [done|]. apply string_app_nil_r.
Qed.

Lemma hypermemlike_loop_spec execs i n c r out :
  (i + n ≤ length execs)%nat → 0 ≤ r → r + Z.of_nat n < 2^31 →
  hypermemlike_loop sz execs i n c r out = Ret (out +:+ rle_items (rle (take n (drop i execs)) c r)).
Proof.
  revert i c r out. induction n as [|n IH]; intros i c r out Hl Hr Hn; cbn [hypermemlike_loop].
  { simpl rle. by rewrite rle_items_flush. }
  destruct (lookup_lt_is_Some_2 execs i ltac:(lia)) as [x Hx].
  unfold elem. destruct (Z.ltb_spec (Z.of_nat i) 0); [lia|]. rewrite Nat2Z.id, Hx. cbn [res_bind].
  rewrite (drop_S _ _ _ Hx). cbn [take rle]. destruct (c =? x).
  - rewrite chk32_ok by lia. cbn [res_bind]. by apply IH; lia.
  - rewrite IH by lia. by rewrite rle_items_app, rle_items_flush, string_app_assoc.
Qed.

Lemma ulong_u64 z : 0 ≤ ulong sz z < 2^64.
Proof.
  unfold ulong. destruct Hsz as [-> | ->].
  - pose proof (Z.mod_pos_bound z (2 ^ (8 * 4)) ltac:(lia)). lia.
  - apply (Z.mod_pos_bound z (2 ^ (8 * 8))). lia.
Qed.

(** The counts as printed. *)
Definition printed_runs (rs : list (Z * Z)) : list (Z * Z) := map (λ r, (ulong sz r.1, r.2)) rs.

(** What follows a count: the end, or a space. *)
Lemma rle_items_tail rs :
  Forall (λ r, 0 < r.2) rs → rle_items rs = "" ∨ ∃ t, rle_items rs = String " " t.
Proof.
  intros H. destruct H as [|r rs Hr _]; [by left|right]. simpl. unfold rle_item.
  destruct (r.2 =? 1); [eexists; reflexivity|]. destruct (Z.eqb_spec r.2 0); [lia|].
  eexists. reflexivity.
Qed.

(** One turn of the parser on a run. *)
Lemma execcounts_spec_run fuel c n t acc :
  0 < n < 2^32 → (t = "" ∨ ∃ t', t = String " " t') →
  execcounts_spec (S fuel) (rle_item sz c n +:+ t) acc =
    execcounts_spec fuel t (acc ++ repeat (ulong sz c) (Z.to_nat n)).
Proof.
  intros Hn Ht. pose proof (ulong_u64 c) as Hc.
  assert (Hnd : starts_with_digit t = false) by (by destruct Ht as [-> | [t' ->]]).
  unfold rle_item. destruct (Z.eqb_spec n 1) as [->|].
  - rewrite string_app_assoc. change (" " +:+ ?s) with (String " " s). cbn [execcounts_spec skip_spaces].
    change (Ascii.eqb " " " ") with true. cbv iota.
    rewrite skip_spaces_digit by (apply starts_print_app; lia).
    rewrite starts_print_app by lia. cbn [negb]. rewrite read_wrapped_print by (done || lia).
    destruct Ht as [-> | [t' ->]]; reflexivity.
  - destruct (Z.eqb_spec n 0); [lia|]. cbn [negb]. rewrite !string_app_assoc.
    change (" " +:+ ?s) with (String " " s). cbn [execcounts_spec skip_spaces].
    change (Ascii.eqb " " " ") with true. cbv iota.
    rewrite skip_spaces_digit by (apply starts_print_app; lia).
    rewrite starts_print_app by lia. cbn [negb].
    change ("x" +:+ ?s) with (String "x" s). rewrite read_wrapped_print by (done || lia).
    cbv iota beta. rewrite read_wrapped_print32 by (done || lia). cbv iota beta.
    destruct (Z.leb_spec n 0); [lia|]. done.
Qed.

Lemma execcounts_spec_items rs fuel acc :
  Forall (λ r, 0 < r.2 < 2^32) rs → (length rs < fuel)%nat →
  execcounts_spec fuel (rle_items rs) acc = Ret (Some (acc ++ unrle (printed_runs rs))).
Proof.
  intros Hr. revert fuel acc. induction Hr as [|[c n] rs Hn Hr IH]; intros fuel acc Hf.
  { destruct fuel; [simpl in Hf; lia|]. simpl. by rewrite app_nil_r. }
  destruct fuel as [|fuel]; [simpl in Hf; lia|]. cbn [rle_items foldr fst snd].
  fold (rle_items rs). rewrite execcounts_spec_run.
  - rewrite IH by (simpl in Hf; lia). unfold unrle. cbn [printed_runs map]. rewrite bind_cons.
    cbn [fst snd]. by rewrite app_assoc.
  - done.
  - apply rle_items_tail. eapply Forall_impl; [exact Hr|]. simpl. lia.
Qed.

Lemma rle_items_long rs :
  Forall (λ r, 0 < r.2 < 2^32) rs → (2 * length rs ≤ String.length (rle_items rs))%nat.
Proof.
  induction 1 as [|[c n] rs Hn _ IH]; [simpl; lia|]. cbn [rle_items foldr fst snd length].
  fold (rle_items rs). rewrite string_length_app. simpl in Hn.
  assert (2 ≤ String.length (rle_item sz c n))%nat; [|lia].
  pose proof (ulong_u64 c). pose proof (print_dec_starts (ulong sz c) ltac:(lia)) as Hp.
  unfold rle_item. destruct (n =? 1).
  - rewrite string_length_app. destruct (print_dec (ulong sz c)); [done|]. simpl. lia.
  - destruct (Z.eqb_spec n 0); [lia|]. cbn [negb]. rewrite !string_length_app. simpl. lia.
Qed.

(** The parser reads the items behind their first space. *)
Lemma read_items rs t :
  Forall (λ r, 0 < r.2 < 2^32) rs → rle_items rs = String " " t →
  read_execcounts_from_string t = Ret (Some (unrle (printed_runs rs))).
Proof.
  intros Hr Ht. pose proof (rle_items_long rs Hr) as Hl. rewrite Ht in Hl. simpl String.length in Hl.
  destruct rs as [|[c n] rs]; [done|]. cbn [length] in Hl.
  rewrite read_execcounts_spec.
  pose proof (execcounts_spec_items ((c, n) :: rs) (S (String.length t)) [] Hr ltac:(simpl; lia)) as H.
  rewrite Ht in H. destruct t as [|a t]; [simpl in Hl; lia|]. cbn [app] in H. rewrite <- H.
  cbn [execcounts_spec]. reflexivity.
Qed.

Lemma unrle_printed rs : unrle (printed_runs rs) = map (ulong sz) (unrle rs).
Proof.
  unfold unrle. induction rs as [|[c n] rs IH]; [done|]. cbn [printed_runs map].
  rewrite !bind_cons, map_app. unfold printed_runs in IH. rewrite IH. f_equal. cbn [fst snd].
  induction (Z.to_nat n) as [|k IHk]; [done|]. simpl. by rewrite IHk.
Qed.
End RoundTrip.

(** ** The line through the reader *)

(** A context whose blocks all have a count. *)
Definition counted (x : edfi_context_t) : Prop :=
  0 < num_bbs x < 2^31 ∧ (Z.to_nat (num_bbs x) + 1 ≤ length (bb_num_executions x))%nat.

(** The counts of the blocks, without the canaries. *)
Definition block_counts (x : edfi_context_t) : list Z :=
  take (Z.to_nat (num_bbs x)) (drop 1 (bb_num_executions x)).

Definition no_space (s : string) : bool := string_forall (λ a, negb (Ascii.eqb a " ")) s.

Lemma print_stats_spec sz mn x :
  counted x →
  edfi_print_hypermemlike_stats sz mn x =
    Ret (("edfi_dump_stats_module name=" +:+ mn) +:+ rle_items sz (rle (block_counts x) 0 0)).
Proof. intros [Hn Hl]. apply hypermemlike_loop_spec; lia. Qed.

(** The pattern [* *] and the other patterns of the same beginning. *)
Lemma match_star_space max p mn t ps :
  (length ps < max)%nat → no_space mn = true →
  match_loop max (String "*" (String " " p)) (mn +:+ String " " t) ps =
    match_loop max p t (ps ++ [{| str := Some (mn +:+ String " " t); num := 0; len := String.length mn |}]).
Proof.
  intros Hp Hmn. rewrite match_loop_cons. change (is_star "*") with true.
  destruct (Nat.ltb_spec (length ps) max); [|lia]. change (head (String " " p)) with (Some " "%char).
  rewrite scan_until_stop by done. cbn [fst snd]. rewrite match_loop_cons. done.
Qed.

Lemma dump_module_entries :
  ∃ table, drop_fails "edfi_dump_stats_module name=" logparse_line_patterns =
    (logparse_line_handler_edfi_dump_stats_module_no_context,
       "edfi_dump_stats_module name=* msg=* no context known")
    :: (logparse_line_handler_edfi_dump_stats_module_no_context,
       "edfi_dump_stats_module name=* no context known")
    :: (logparse_line_handler_edfi_dump_stats_module, "edfi_dump_stats_module name=* msg=* bbs=*")
    :: (logparse_line_handler_edfi_dump_stats_module, "edfi_dump_stats_module name=* *") :: table.
Proof. eexists. reflexivity. Qed.

Lemma dump_module_match mn a t :
  no_space mn = true → is_digit a = true →
  patterns_match logparse_line_patterns ("edfi_dump_stats_module name=" +:+ (mn +:+ String " " (String a t))) =
    Ret (Some (logparse_line_handler_edfi_dump_stats_module, "edfi_dump_stats_module name=* *",
      [{| str := Some (mn +:+ String " " (String a t)); num := 0; len := String.length mn |};
       text_param (String a t)])).
Proof.
  intros Hmn Ha. rewrite patterns_match_drop.
  assert (Hne : ∀ b, is_digit b = false → Ascii.eqb b a = false)
    by (intros b Hb; destruct (Ascii.eqb_spec b a); congruence).
  destruct dump_module_entries as [table ->]. cbn [patterns_match]. unfold pattern_match.
  assert (Hlit : ∀ q l, match_loop PATTERN_PARAM_COUNT_MAX ("edfi_dump_stats_module name=" +:+ q)
      ("edfi_dump_stats_module name=" +:+ l) [] = match_loop PATTERN_PARAM_COUNT_MAX q l [])
    by (intros; by apply match_loop_literal).
  rewrite (Hlit "* msg=* no context known"), (Hlit "* no context known"),
    (Hlit "* msg=* bbs=*"), (Hlit "* *").
  rewrite !match_star_space by (done || (simpl; unfold PATTERN_PARAM_COUNT_MAX; lia)).
  rewrite (match_loop_cons _ "m" "sg=* no context known"), (match_loop_cons _ "n" "o context known"),
    (match_loop_cons _ "m" "sg=* bbs=*").
  change (is_star "m") with false. change (is_hash "m") with false.
  change (is_star "n") with false. change (is_hash "n") with false. cbv iota.
  rewrite !Hne by done. cbn [res_bind].
  rewrite match_loop_final_star by (simpl; unfold PATTERN_PARAM_COUNT_MAX; lia). done.
Qed.

Lemma rle_items_digit sz rs :
  (sz = 4 ∨ sz = 8) → Forall (λ r, 0 < r.2) rs → rs ≠ [] →
  ∃ a t, rle_items sz rs = String " " (String a t) ∧ is_digit a = true.
Proof.
  intros Hsz Hr Hne. destruct Hr as [|[c n] rs Hn _]; [done|]. cbn [rle_items foldr fst snd]. simpl in Hn.
  pose proof (print_dec_starts (ulong sz c) ltac:(by apply (proj1 (ulong_u64 sz Hsz c)))) as Hp.
  unfold rle_item. destruct (print_dec (ulong sz c)) as [|a s]; [done|]. simpl in Hp.
  destruct (n =? 1); [eexists _, _; split; [reflexivity|done]|].
  destruct (Z.eqb_spec n 0); [lia|]. eexists _, _; split; [reflexivity|done].
Qed.

Lemma block_counts_length x : counted x → length (block_counts x) = Z.to_nat (num_bbs x).
Proof. intros [Hn Hl]. unfold block_counts. rewrite length_take, length_drop. lia. Qed.

Lemma block_runs x : counted x →
  Forall (λ r, 0 < r.2 < 2^32) (rle (block_counts x) 0 0) ∧ rle (block_counts x) 0 0 ≠ [] ∧
  unrle (rle (block_counts x) 0 0) = block_counts x.
Proof.
  intros Hx. pose proof (block_counts_length x Hx) as Hl. destruct Hx as [Hn _].
  pose proof (unrle_rle (block_counts x) 0 0 ltac:(lia)) as Hu.
  change (repeat 0 (Z.to_nat 0) ++ block_counts x) with (block_counts x) in Hu. split_and!; [|..|done].
  - eapply Forall_impl; [apply rle_runs; lia|]. simpl. rewrite Hl. lia.
  - intros E. rewrite E in Hu. rewrite <- Hu in Hl. simpl in Hl. lia.
Qed.

Lemma stats_line_delivers sz mn x line cb st lineno :
  sz = 4 ∨ sz = 8 → counted x → no_space mn = true →
  edfi_print_hypermemlike_stats sz mn x = Ret line →
  process_line cb st lineno line =
    Ret (if cb cb_edfi_dump_stats_module
         then [OCall st (edfi_dump_stats_module mn None (Some (map (ulong sz) (block_counts x))))]
         else []).
Proof.
  intros Hsz Hx Hmn Hline. rewrite print_stats_spec in Hline by done.
  apply (f_equal (ret_or "")) in Hline. cbn [ret_or] in Hline. rewrite <- Hline.
  destruct (block_runs x Hx) as (Hr & Hne & Hu).
  destruct (rle_items_digit sz (rle (block_counts x) 0 0) Hsz) as (a & t & Ht & Ha); [|done|].
  { eapply Forall_impl; [exact Hr|]. simpl. lia. }
  rewrite Ht, string_app_assoc. unfold process_line. rewrite dump_module_match by done.
  cbn [res_bind]. unfold logparse_line_handler_edfi_dump_stats_module, is_str, nth_param.
  cbn [length Nat.leb Nat.ltb lookup list_lookup default from_option id str orb Nat.sub text_param].
  destruct (cb cb_edfi_dump_stats_module); cbn [negb]; [|done].
  rewrite (read_items sz Hsz _ _ Hr Ht). cbn [res_bind]. rewrite unrle_printed, Hu.
  unfold text_at, nth_param. cbn [lookup list_lookup default from_option id str len].
  replace (str_take (String.length mn) _) with mn; [done|].
  clear. induction mn as [|b s IH]; [done|]. simpl. by rewrite <- IH.
Qed.

(** ** From a log file to the module list *)

Definition line_char (a : ascii) : bool := negb (Ascii.eqb a newline) && negb (Ascii.eqb a "000").

(** What a line of the log comes from: the statistics of a program, or a message
    that is not about execution counts. *)
Inductive log_item :=
| stats_item (sz : Z) (mn : string) (x : edfi_context_t)
| other_item (line : string).

Definition quiet_line (line : string) : Prop :=
  text_ok line ∧ ∀ st n, ∃ out,
    process_line only_dump_stats_module st n line = Ret out ∧
    Forall (λ o, match o with OStderr _ => True | OCall _ _ => False end) out.

Definition item_ok (i : log_item) : Prop :=
  match i with
  | stats_item sz mn x =>
      (sz = 4 ∨ sz = 8) ∧ counted x ∧ no_space mn = true ∧ string_forall line_char mn = true
  | other_item line => quiet_line line
  end.

Definition item_line (i : log_item) : string :=
  match i with
  | stats_item sz mn x => ret_or "" (edfi_print_hypermemlike_stats sz mn x)
  | other_item line => line
  end.

Definition item_modules (i : log_item) : list module_execcount :=
  match i with
  | stats_item sz mn x => [{| name := module_name mn; bbs := map (ulong sz) (block_counts x) |}]
  | other_item _ => []
  end.

Lemma line_char_digits s : string_forall is_digit s = true → string_forall line_char s = true.
Proof.
  apply string_forall_impl. intros a Ha. unfold line_char.
  destruct (Ascii.eqb_spec a newline) as [->|]; [done|]. by destruct (Ascii.eqb_spec a "000") as [->|].
Qed.

Lemma rle_items_chars sz rs :
  (sz = 4 ∨ sz = 8) → Forall (λ r, 0 < r.2 < 2^32) rs → string_forall line_char (rle_items sz rs) = true.
Proof.
  intros Hsz. induction 1 as [|[c n] rs Hn _ IH]; [done|]. cbn [rle_items foldr fst snd]. simpl in Hn.
  fold (rle_items sz rs). rewrite string_forall_app, IH, andb_true_r. unfold rle_item.
  pose proof (line_char_digits _ (print_dec_forall (ulong sz c) (proj1 (ulong_u64 sz Hsz c)))) as Hc.
  pose proof (line_char_digits _ (print_dec_forall n ltac:(lia))) as Hd.
  destruct (n =? 1); [|destruct (n =? 0)]; cbn [negb]; rewrite ?string_forall_app, ?Hc, ?Hd; done.
Qed.

Lemma item_line_ok i : item_ok i → text_ok (item_line i).
Proof.
  destruct i as [sz mn x|line]; [|by intros []]. intros (Hsz & Hx & Hmn & Hc). cbn [item_line].
  rewrite print_stats_spec by done. cbn [ret_or]. destruct (block_runs x Hx) as (Hr & _ & _).
  split; [done|]. change (λ a, negb (Ascii.eqb a newline) && negb (Ascii.eqb a "000")) with line_char.
  rewrite !string_forall_app, Hc, rle_items_chars by done. done.
Qed.

(** The nodes a line adds. *)
Lemma item_output i st n :
  item_ok i → ∃ out, process_line only_dump_stats_module st n (item_line i) = Ret out ∧
    ∀ l, foldl collect l out = l ++ item_modules i.
Proof.
  destruct i as [sz mn x|line]; cbn [item_line item_modules].
  - intros (Hsz & Hx & Hmn & Hc). pose proof (print_stats_spec sz mn x Hx) as Hp.
    eexists. split; [|intros l].
    + apply (stats_line_delivers sz mn x _ only_dump_stats_module st n Hsz Hx Hmn). by rewrite Hp.
    + done.
  - intros [_ Hq]. destruct (Hq st n) as (out & E & Ho). exists out. split; [done|].
    intros l. rewrite app_nil_r. clear E. revert l. induction Ho as [|o out Ho _ IH]; intros l; [done|].
    destruct o; [done|]. simpl. apply IH.
Qed.

Lemma items_output mktime n (es : list (tsfields * log_item)) :
  Forall (λ e, item_ok e.2) es →
  ∃ out, lines_output mktime only_dump_stats_module n (map (λ e, (e.1, item_line e.2)) es) = Ret out ∧
    ∀ l, foldl collect l out = l ++ (es ≫= λ e, item_modules e.2).
Proof.
  intros Hes. revert n. induction Hes as [|[t i] es Hi _ IH]; intros n.
  { exists []. split; [done|]. intros l. by rewrite app_nil_r. }
  destruct (item_output i {| timestamp := ts_value mktime t; cb_lineno := n |} (n + 1) Hi) as (o1 & E1 & H1).
  destruct (IH (n + 1)) as (o2 & E2 & H2). cbn [map fst snd lines_output]. rewrite E1. cbn [res_bind].
  rewrite E2. cbn [res_bind]. eexists. split; [reflexivity|]. intros l.
  rewrite foldl_app, H1, H2, bind_cons, app_assoc. done.
Qed.

(** C35: execution counts reach the analyser.  Take a log of time-stamped lines,
    each the statistics line a program with 32-bit or 64-bit [long] prints for its
    blocks, or a message without execution counts.  Loading the log gives one node
    per statistics line, in order, with the program's name (without what follows
    its last [@]) and the count of every block, truncated to the program's
    [long]. *)
Theorem execcounts_from_log mktime (es : list (tsfields * log_item)) :
  Forall (λ e, ts_ok e.1 ∧ item_ok e.2) es →
  execcounts_load_from_log mktime (Some (file_string (map (λ e, (e.1, item_line e.2)) es))) =
    Ret (es ≫= λ e, item_modules e.2).
Proof.
  intros Hes. unfold execcounts_load_from_log, logparse_from_path.
  assert (Hi : Forall (λ e, item_ok e.2) es) by (eapply Forall_impl; [exact Hes|]; by intros e []).
  destruct (items_output mktime 1 es Hi) as (out & E & Hc).
  pose proof (from_file_lines mktime only_dump_stats_module (map (λ e, (e.1, item_line e.2)) es) None) as Hl.
  rewrite E in Hl. cbn [res_bind] in Hl.
  assert (Ht : Forall (λ e, ts_ok e.1 ∧ text_ok e.2) (map (λ e, (e.1, item_line e.2)) es)).
  { apply Forall_forall. intros e He. apply list_elem_of_In, in_map_iff in He as ([t i] & <- & He).
    apply list_elem_of_In in He. destruct (proj1 (Forall_forall _ _) Hes _ He) as [H1 H2].
    split; [done|]. by apply item_line_ok. }
  specialize (Hl Ht). destruct (logparse_from_file mktime only_dump_stats_module _ None) as [r|f]; [|done].
  cbn [res_bind] in Hl |- *. injection Hl as _ ->. by rewrite Hc.
Qed.

(** ** Merging the modules of several logs *)

Definition names (l : list module_execcount) : list string := map name l.
Definition shape (m : module_execcount) : string * nat := (name m, length (bbs m)).

(** Modules of the same name have the same number of blocks. *)
Definition consistent (l : list module_execcount) : Prop :=
  ∀ a b, a ∈ map shape l → b ∈ map shape l → a.1 = b.1 → a.2 = b.2.

(** The count of block [i] of module [n], over all nodes. *)
Fixpoint count_sum (n : string) (i : nat) (l : list module_execcount) : Z :=
  match l with
  | [] => 0
  | m :: l' => (if String.eqb (name m) n then nth i (bbs m) 0 else 0) + count_sum n i l'
  end.

Definition in_range (l : list module_execcount) : Prop :=
  Forall (λ m, Forall (λ c, 0 ≤ c < 2^64) (bbs m)) l.

Lemma find_Some l n i :
  execcounts_find l n = Some i → ∃ m, l !! i = Some m ∧ name m = n.
Proof.
  revert i. induction l as [|m l IH]; intros i H; [done|]. simpl in H.
  destruct (String.eqb_spec (name m) n) as [E|E].
  - injection H as <-. by exists m.
  - destruct (execcounts_find l n) as [j|]; [|done]. injection H as <-. by apply IH.
Qed.

Lemma find_None l n : execcounts_find l n = None → n ∉ names l.
Proof.
  unfold names. induction l as [|m l IH]; simpl; intros H; [apply not_elem_of_nil|].
  destruct (String.eqb_spec (name m) n) as [E|E]; [done|].
  destruct (execcounts_find l n); [done|]. apply not_elem_of_cons. auto.
Qed.

(** Adding the counts of a node to those of another of the same shape. *)
Lemma add_spec o m :
  shape o = shape m →
  ∃ o', execcounts_add o m = Ret o' ∧ shape o' = shape m ∧
    (∀ i, u64 (nth i (bbs o') 0) = u64 (nth i (bbs m) 0 + nth i (bbs o) 0)) ∧
    Forall (λ c, 0 ≤ c < 2^64) (bbs o').
Proof.
  intros Hs. injection Hs as Hn Hlen. unfold execcounts_add.
  rewrite Hn, String.eqb_refl, Hlen, Nat.eqb_refl. cbn [negb]. eexists. split; [done|]. cbn [bbs name].
  split_and!.
  - unfold shape. cbn [bbs name]. rewrite length_zip_with. f_equal. lia.
  - intros i. destruct (decide (i < length (bbs m))%nat) as [Hi|Hi].
    + rewrite !nth_lookup, lookup_zip_with.
      destruct (lookup_lt_is_Some_2 (bbs m) i Hi) as [a ->].
      destruct (lookup_lt_is_Some_2 (bbs o) i ltac:(lia)) as [a' ->].
      cbn. unfold u64. rewrite Z.mod_mod by lia. f_equal. lia.
    + rewrite !nth_overflow; [done|lia|lia|rewrite length_zip_with; lia].
  - apply Forall_forall. intros z Hz. apply elem_of_lookup_zip_with in Hz as (i & a & e & -> & _).
    apply u64_range.
Qed.

Lemma count_sum_insert l j o o' m n i :
  l !! j = Some o → shape o = shape m → shape o' = shape m →
  u64 (nth i (bbs o') 0) = u64 (nth i (bbs m) 0 + nth i (bbs o) 0) →
  u64 (count_sum n i (<[j := o']> l)) = u64 (count_sum n i (m :: l)).
Proof.
  intros Hj Ho Ho' Hi. injection Ho as Hn _. injection Ho' as Hn' _.
  assert (Hs : ∃ k, count_sum n i (<[j := o']> l) =
                 (if String.eqb (name m) n then nth i (bbs o') 0 else 0) + k ∧
               count_sum n i l = (if String.eqb (name m) n then nth i (bbs o) 0 else 0) + k).
  { revert j Hj. induction l as [|x l IH]; intros [|j] Hj; try done.
    - injection Hj as ->. exists (count_sum n i l). cbn. by rewrite Hn, Hn'.
    - destruct (IH j Hj) as (k & E1 & E2).
      exists ((if String.eqb (name x) n then nth i (bbs x) 0 else 0) + k).
      change (<[S j := o']> (x :: l)) with (x :: <[j := o']> l). cbn [count_sum]. rewrite E1, E2. lia. }
  destruct Hs as (k & E1 & E2). cbn [count_sum]. rewrite E1, E2. destruct (String.eqb (name m) n); [|done].
  rewrite Z.add_assoc. unfold u64 in *. by rewrite <- Zplus_mod_idemp_l, Hi, Zplus_mod_idemp_l.
Qed.

Lemma shapes_insert (l : list module_execcount) j o o' :
  l !! j = Some o → shape o' = shape o → map shape (<[j := o']> l) = map shape l.
Proof.
  intros Hj Hs. change (shape <$> <[j := o']> l = shape <$> l). rewrite list_fmap_insert.
  apply list_insert_id. rewrite list_lookup_fmap, Hj, Hs. done.
Qed.

Lemma consistent_cons m l : shape m ∈ map shape l → consistent (m :: l) ↔ consistent l.
Proof.
  intros Hm. unfold consistent. cbn [map]. split; intros H a b Ha Hb; apply H.
  - by right.
  - by right.
  - by apply elem_of_cons in Ha as [->|].
  - by apply elem_of_cons in Hb as [->|].
Qed.

Lemma consistent_new m l : name m ∉ names l → consistent (m :: l) ↔ consistent l.
Proof.
  intros Hm. assert (Hf : ∀ a, a ∈ map shape l → a.1 ≠ name m).
  { intros a Ha E. apply Hm. apply list_elem_of_In, in_map_iff in Ha as (x & <- & Hx).
    simpl in E. apply list_elem_of_In, in_map_iff. by exists x. }
  unfold consistent. cbn [map]. split; intros H a b Ha Hb E; [apply H; try done; by right|].
  apply elem_of_cons in Ha, Hb. destruct Ha as [->|Ha], Hb as [->|Hb]; simpl in E |- *; try done; auto.
  - by destruct (Hf b Hb).
  - by destruct (Hf a Ha).
Qed.

Lemma names_shapes l l' : map shape l = map shape l' → names l = names l'.
Proof.
  intros H. apply (f_equal (map fst)) in H. by rewrite !map_map in H.
Qed.

(** What merging keeps. *)
Definition merged (l r : list module_execcount) : Prop :=
  NoDup (names r) ∧ (∀ n, n ∈ names r ↔ n ∈ names l) ∧
  (∀ n i, u64 (count_sum n i r) = u64 (count_sum n i l)) ∧
  (∀ a, a ∈ map shape r → a ∈ map shape l) ∧ in_range r.

Lemma shape_elem (l : list module_execcount) j o : l !! j = Some o → shape o ∈ map shape l.
Proof. intros H. apply list_elem_of_In, in_map, list_elem_of_In. by eapply list_elem_of_lookup_2. Qed.

Lemma merged_absorb l r j m o o' :
  l !! j = Some o → shape o = shape m → shape o' = shape m →
  (∀ i, u64 (nth i (bbs o') 0) = u64 (nth i (bbs m) 0 + nth i (bbs o) 0)) →
  merged (<[j := o']> l) r → merged (m :: l) r.
Proof.
  intros Hj Ho Ho' Hi (Hnd & Hnm & Hsum & Hshr & Hrr).
  assert (Hsh : map shape (<[j := o']> l) = map shape l) by (apply (shapes_insert l j o); congruence).
  assert (Hnl : name m ∈ names l).
  { injection Ho as Ho _. rewrite <- Ho. apply list_elem_of_In, in_map, list_elem_of_In.
    by eapply list_elem_of_lookup_2. }
  split_and!; try done.
  - intros n. rewrite Hnm, (names_shapes _ l Hsh). unfold names. cbn [map]. rewrite elem_of_cons.
    split; [by right|]. intros [->|]; done.
  - intros n i. rewrite Hsum. by apply (count_sum_insert l j o).
  - intros a Ha. apply Hshr in Ha. rewrite Hsh in Ha. by right.
Qed.

Lemma merged_cons m l r :
  name m ∉ names l → Forall (λ c, 0 ≤ c < 2^64) (bbs m) → merged l r → merged (m :: l) (m :: r).
Proof.
  intros E Hm (Hnd & Hnm & Hsum & Hshr & Hrr). split_and!.
  - unfold names. cbn [map]. apply NoDup_cons. split; [|done]. by rewrite Hnm.
  - intros n. unfold names. cbn [map]. rewrite !elem_of_cons. by rewrite Hnm.
  - intros n i. cbn [count_sum]. unfold u64 in *. rewrite <- Zplus_mod_idemp_r, Hsum. apply Zplus_mod_idemp_r.
  - intros a. cbn [map]. rewrite !elem_of_cons. intros [->|Ha]; [by left|right; auto].
  - by apply Forall_cons.
Qed.

Lemma deduplicate_add fuel l :
  (length l ≤ fuel)%nat → in_range l →
  (consistent l → ∃ r, deduplicate_loop fuel true l = Ret r ∧ merged l r) ∧
  (¬ consistent l → deduplicate_loop fuel true l = Stop (FExit 1)).
Proof.
  revert l. induction fuel as [|fuel IH]; intros [|m l] Hf Hr; cbn [deduplicate_loop]; try (simpl in Hf; lia).
  1,2: split; [intros _; exists []; split; [done|]; split_and!; try done; by apply NoDup_nil|].
  1,2: intros H; destruct H; intros a b Ha; by apply elem_of_nil in Ha.
  cbn [length] in Hf. inversion Hr as [|? ? Hm Hl]; subst.
  destruct (execcounts_find l (name m)) as [j|] eqn:E.
  2:{ apply find_None in E. rewrite (consistent_new m l E). destruct (IH l) as [H1 H2]; [lia|done|].
      split; [|intros Hc; by rewrite (H2 Hc)].
      intros Hc. destruct (H1 Hc) as (r & -> & Hr'). eexists. split; [done|]. by apply merged_cons. }
  destruct (find_Some _ _ _ E) as (o & Hj & Ho). rewrite Hj. pose proof (shape_elem _ _ _ Hj) as Hin.
  destruct (decide (length (bbs o) = length (bbs m))) as [Hlen|Hlen].
  - assert (Hs : shape o = shape m) by (unfold shape; congruence).
    destruct (add_spec o m Hs) as (o' & -> & Ho' & Hi & Hro). cbn [res_bind].
    assert (Hsh : map shape (<[j := o']> l) = map shape l) by (apply (shapes_insert l j o); congruence).
    destruct (IH (<[j := o']> l)) as [H1 H2]; [rewrite length_insert; lia|by apply Forall_insert|].
    rewrite Hs in Hin. rewrite (consistent_cons m l Hin). unfold consistent in H1, H2. rewrite Hsh in H1, H2.
    split; [|exact H2]. intros Hc. destruct (H1 Hc) as (r & Er & Hr'). exists r. split; [done|].
    by apply (merged_absorb l r j m o o').
  - assert (Hne : execcounts_add o m = Stop (FExit 1)).
    { unfold execcounts_add. rewrite Ho, String.eqb_refl.
      by destruct (Nat.eqb_spec (length (bbs o)) (length (bbs m))). }
    rewrite Hne. split; [|done]. intros Hc. destruct Hlen.
    by apply (Hc (shape o) (shape m)); [right|left|].
Qed.

(** The first node of a name. *)
Definition entry (l : list module_execcount) (n : string) : option module_execcount :=
  i ← execcounts_find l n; l !! i.

Lemma entry_cons m l n : entry (m :: l) n = if String.eqb (name m) n then Some m else entry l n.
Proof.
  unfold entry. simpl. destruct (String.eqb (name m) n); [done|]. by destruct (execcounts_find l n).
Qed.

Lemma entry_None l n : entry l n = None ↔ n ∉ names l.
Proof.
  induction l as [|m l IH]; [split; [intros _; apply not_elem_of_nil|done]|]. rewrite entry_cons.
  unfold names. cbn [map]. rewrite not_elem_of_cons. destruct (String.eqb_spec (name m) n) as [->|].
  - split; [done|]. by intros [[]].
  - rewrite IH. split; [|by intros []]. by split.
Qed.

(** Without duplicates a name's sum is the count of its node. *)
Lemma count_sum_entry r n i :
  NoDup (names r) → count_sum n i r = match entry r n with Some m => nth i (bbs m) 0 | None => 0 end.
Proof.
  unfold names. induction r as [|m r IH]; [done|]. cbn [map count_sum]. rewrite entry_cons.
  intros [Hm Hr]%NoDup_cons. rewrite IH by done. destruct (String.eqb_spec (name m) n) as [E|]; [|done].
  rewrite E in Hm. apply entry_None in Hm. rewrite Hm. lia.
Qed.

(** Merging execution counts.  If all nodes of a name have the same number of
    blocks, [execcounts_deduplicate] with addition leaves exactly one node per
    name, with as many blocks, whose count of every block is the sum, modulo 2^64,
    over all nodes of that name; if two nodes of a name differ in their number of
    blocks, the analyser exits with an error. *)
Theorem deduplicate_adds_up l :
  in_range l →
  (consistent l → ∃ r, execcounts_deduplicate true l = Ret r ∧ NoDup (names r) ∧
     (∀ n, n ∈ names r ↔ n ∈ names l) ∧
     ∀ n m, entry r n = Some m → shape m ∈ map shape l ∧
       ∀ i, (i < length (bbs m))%nat → bbs m !! i = Some (u64 (count_sum n i l))) ∧
  (¬ consistent l → execcounts_deduplicate true l = Stop (FExit 1)).
Proof.
  intros Hr. destruct (deduplicate_add (length l) l ltac:(lia) Hr) as [H1 H2]. split; [|exact H2].
  intros Hc. destruct (H1 Hc) as (r & Er & Hnd & Hnm & Hsum & Hsh & Hrr). exists r. split_and!; try done.
  intros n m Hm. unfold entry in Hm. pose proof Hm as Hm'. apply bind_Some in Hm as (j & _ & Hj).
  split; [by eapply Hsh, shape_elem|]. intros i Hi. rewrite <- Hsum, count_sum_entry by done.
  unfold entry. rewrite Hm'. destruct (lookup_lt_is_Some_2 _ _ Hi) as [a Ha].
  rewrite nth_lookup, Ha. cbn. rewrite u64_small; [done|].
  apply (proj1 (Forall_lookup _ _) (proj1 (Forall_lookup _ _) Hrr _ _ Hj) _ _ Ha).
Qed.

Lemma entry_app l l' n : entry (l ++ l') n = match entry l n with Some m => Some m | None => entry l' n end.
Proof.
  induction l as [|m l IH]; [done|]. cbn [app]. rewrite !entry_cons, IH. by destruct (String.eqb (name m) n).
Qed.

Lemma entry_rev l n : entry (rev l) n = None ↔ n ∉ names l.
Proof.
  rewrite entry_None. unfold names. rewrite map_rev.
  split; intros H Hn; apply H; rewrite list_elem_of_In, <- in_rev in *; done.
Qed.

(** Keeping the last result.  Without addition exactly one node per name is
    left, the last one of the list. *)
Theorem deduplicate_keeps_last l :
  ∃ r, execcounts_deduplicate false l = Ret r ∧ NoDup (names r) ∧
    ∀ n, entry r n = entry (rev l) n.
Proof.
  unfold execcounts_deduplicate. induction l as [|m l (r & Er & Hnd & Hr)].
  { exists []. split_and!; [done|by apply NoDup_nil|done]. }
  cbn [length deduplicate_loop]. destruct (execcounts_find l (name m)) as [j|] eqn:E.
  - exists r. split_and!; try done. intros n. cbn [rev]. rewrite Hr, entry_app, entry_cons.
    destruct (entry (rev l) n) as [x|] eqn:En; [done|]. destruct (String.eqb_spec (name m) n) as [<-|]; [|done].
    apply entry_rev in En. destruct En. destruct (find_Some _ _ _ E) as (o & Hj & <-).
    apply list_elem_of_In, in_map, list_elem_of_In. by eapply list_elem_of_lookup_2.
  - rewrite Er. cbn [res_bind]. eexists. split; [done|]. apply find_None in E. pose proof E as Em.
    apply entry_rev in Em. split.
    + unfold names. cbn [map]. apply NoDup_cons. split; [|done]. apply entry_None. by rewrite Hr.
    + intros n. cbn [rev]. rewrite entry_app, !entry_cons, <- Hr.
      destruct (String.eqb_spec (name m) n) as [<-|]; [by rewrite Hr, Em|]. by destruct (entry r n).
Qed.

(** ** The debug dump *)

(** The printed ranges of runs, the first block being number [i]. *)
Fixpoint ranges (i : Z) (rs : list (Z * Z)) : list (Z * Z * Z) :=
  match rs with
  | [] => []
  | (c, n) :: rs' => (i, i + n - 1, c) :: ranges (i + n) rs'
  end.

Lemma dump_bbs_loop_spec l i c r :
  0 ≤ r → c ≠ 2^64 - 1 → Forall (λ x, x ≠ 2^64 - 1) l →
  dump_loop i l c r = ranges (i - r + 1) (rle l c r).
Proof.
  assert (Hf : ∀ i c r, 0 ≤ r → (if 1 <? r then [(i - r + 1, i, c)] else if 0 <? r then [(i, i, c)] else [])
            = ranges (i - r + 1) (flush c r)).
  { clear. intros i c r Hr. unfold flush. destruct (Z.eqb_spec r 0) as [->|]; [done|]. cbn [ranges].
    destruct (Z.ltb_spec 1 r); [do 3 f_equal; lia|]. destruct (Z.ltb_spec 0 r); [|lia].
    repeat f_equal; lia. }
  intros Hr Hc Hl. revert i c r Hr Hc. induction Hl as [|x l Hx Hl IH]; intros i c r Hr Hc; cbn [dump_loop rle].
  - destruct (Z.eqb_spec c (2^64 - 1)); [done|]. by apply Hf.
  - destruct (Z.eqb_spec c x) as [->|].
    + rewrite IH by lia. f_equal. lia.
    + rewrite Hf, IH by lia. replace (i + 1 - 1 + 1) with (i - r + 1 + r) by lia.
      unfold flush. destruct (Z.eqb_spec r 0) as [->|]; cbn [app ranges]; [|done].
      by rewrite Z.add_0_r.
Qed.

(** The dump of a module.  If no count is the maximal 64-bit number, the dump
    lists the runs of equal counts as ranges of block numbers that start at 1 and
    follow each other, and writing the runs out gives back all counts. *)
Theorem dump_bbs_complete m :
  Forall (λ x, x ≠ 2^64 - 1) (bbs m) →
  ∃ rs, execcounts_dump_bbs m = ranges 1 rs ∧ unrle rs = bbs m ∧
    Forall (λ r, 0 < r.2 ≤ Z.of_nat (length (bbs m))) rs.
Proof.
  intros Hm. exists (rle (bbs m) 0 0). split_and!.
  - unfold execcounts_dump_bbs. by rewrite dump_bbs_loop_spec by done.
  - by apply (unrle_rle (bbs m) 0 0).
  - apply (rle_runs (bbs m) 0 0). lia.
Qed.

(** ** Witnesses *)

Definition demo_counts : edfi_context_t :=
  {| fault_fdp_count := 0; fault_time := 0; start_time := 0; total_faults := 0;
     fault_types := []; bb_num_executions := [77; 5; 5; 2^32 + 3; 0; 77]; bb_num_faults := [];
     num_bbs := 4; Edfi.c := demo_conf 0 0 0 |}.
Definition demo_items : list (tsfields * log_item) :=
  [(demo_ts, stats_item 4 "pm@0x20" demo_counts); (demo_ts, other_item "QEMU reset");
   (demo_ts, stats_item 8 "vm" demo_counts)].

Example demo_line :
  edfi_print_hypermemlike_stats 4 "pm@0x20" demo_counts = Ret "edfi_dump_stats_module name=pm@0x20 5x2 3 0".
Proof. vm_compute. reflexivity. Qed.

Lemma demo_counted : counted demo_counts.
Proof. split; vm_compute; [done|lia]. Qed.

Lemma execcounts_from_log_witness :
  execcounts_load_from_log demo_mktime (Some (file_string (map (λ e, (e.1, item_line e.2)) demo_items))) =
  Ret [{| name := "pm"; bbs := [5; 5; 3; 0] |}; {| name := "vm"; bbs := [5; 5; 4294967299; 0] |}].
Proof.
  rewrite (execcounts_from_log demo_mktime demo_items).
  - vm_compute. reflexivity.
  - repeat (apply Forall_cons_2; [split; [apply demo_ts_ok|]|]); [..|apply Forall_nil_2].
    + split_and!; [by left|apply demo_counted|reflexivity|reflexivity].
    + split; [by vm_compute|]. intros st n. exists []. split; [reflexivity|constructor].
    + split_and!; [by right|apply demo_counted|reflexivity|reflexivity].
Defined.

Definition demo_modules : list module_execcount :=
  [{| name := "pm"; bbs := [1; 2] |}; {| name := "vm"; bbs := [9] |}; {| name := "pm"; bbs := [10; 2^64 - 1] |}].

Lemma deduplicate_adds_up_witness :
  execcounts_deduplicate true demo_modules =
    Ret [{| name := "vm"; bbs := [9] |}; {| name := "pm"; bbs := [11; 1] |}] ∧
  execcounts_deduplicate true ({| name := "vm"; bbs := [] |} :: demo_modules) = Stop (FExit 1).
Proof.
  assert (Hr : in_range demo_modules) by (repeat constructor; vm_compute; congruence).
  destruct (deduplicate_adds_up demo_modules Hr) as [H1 _].
  destruct (deduplicate_adds_up ({| name := "vm"; bbs := [] |} :: demo_modules)) as [_ H2].
  { constructor; [constructor|exact Hr]. }
  split.
  - destruct H1 as (r & Er & _).
    { intros a b Ha Hb. cbn in Ha, Hb. rewrite !elem_of_cons in Ha, Hb.
      destruct Ha as [->|[->|[->|Ha]]], Hb as [->|[->|[->|Hb]]]; cbn; try done;
        by apply elem_of_nil in Ha || apply elem_of_nil in Hb. }
    rewrite Er, <- Er. vm_compute. reflexivity.
  - apply H2. intros Hc. specialize (Hc ("vm", 0%nat) ("vm", 1%nat)). cbn in Hc.
    rewrite !elem_of_cons in Hc. assert (0 = 1)%nat; [|done]. apply Hc; auto.
Defined.

Lemma dump_bbs_complete_witness :
  ∃ rs, execcounts_dump_bbs {| name := "pm"; bbs := [0; 7; 7] |} = ranges 1 rs ∧ unrle rs = [0; 7; 7].
Proof.
  destruct (dump_bbs_complete {| name := "pm"; bbs := [0; 7; 7] |}) as (rs & H1 & H2 & _).
  - repeat constructor; discriminate.
  - by exists rs.
Defined.
