(* ===== verification/Bitmap.v ===== *)
(** * The dirty bitmap: [mechanisms/bitmap/]

    Before every instrumented store the region of the address is marked in a
    bitmap and its contents are copied to a shadow space, unless it is marked
    already.  Bitmap and shadow lie in the process's own address space.  Modelled
    are the bitmap types [BITMAP_PLAIN_EPOCH] (the default) and [BITMAP_PLAIN], on
    both architectures, with the [DIFF] (MINIX) and [SYNC] (Linux) schemes.

    Proved for the epoch bitmap: the memory at the last checkpoint can be read
    off bitmap, shadow and memory at any time.  The block-write hook of the
    [DIFF] scheme breaks this, in both bitmap types. *)

From Stdlib Require Import ZArith Lia.
From stdpp Require Import base list numbers strings.
From S2P Require Import Prelude Runtime.

Inductive arch := LTCKPT_X86 | LTCKPT_X86_64.
Inductive scheme := LTCKPT_DIFF_SCHEME | LTCKPT_SYNC_SCHEME.
Inductive bitmap_type := BITMAP_PLAIN | BITMAP_PLAIN_EPOCH.

(** The build: a plain bitmap with the sync scheme is refused by the
    preprocessor. *)
Record bconf := {
  b_arch : arch;
  LTCKPT_SCHEME : scheme;
  BITMAP_TYPE : bitmap_type;
  LTCKPT_BITMAP_ALWAYS_ON : bool;
}.

Section Layout.
Variable k : bconf.

Definition sizeof_va : Z := match b_arch k with LTCKPT_X86 => 4 | LTCKPT_X86_64 => 8 end.

Definition LTCKPT_SHADOW_SPACE_SIZE : Z :=
  match b_arch k with LTCKPT_X86 => 1536*1024*1024 | LTCKPT_X86_64 => 0x1000000000 end.
Definition LTCKPT_SHADOW_SPACE_OFFSET : Z :=
  match b_arch k with LTCKPT_X86 => 1536*1024*1024 | LTCKPT_X86_64 => 0x2000000000 end.

Definition ltckpt_primary_to_shadow (a : Z) : Z :=
  match b_arch k with
  | LTCKPT_X86 => ulong 4 (a + LTCKPT_SHADOW_SPACE_OFFSET)
  | LTCKPT_X86_64 => Z.land a (LTCKPT_SHADOW_SPACE_SIZE - 1) + LTCKPT_SHADOW_SPACE_OFFSET
  end.

Definition ltckpt_shadow_to_primary (a : Z) : Z :=
  match b_arch k with
  | LTCKPT_X86 => ulong 4 (a + LTCKPT_SHADOW_SPACE_OFFSET)
  | LTCKPT_X86_64 => Z.land a (LTCKPT_SHADOW_SPACE_SIZE - 1)
  end.

(** [LTCKPT_BITMAP_CLICK] is [2^click_bits]. *)
Definition click_bits : Z := match BITMAP_TYPE k with BITMAP_PLAIN => 3 | BITMAP_PLAIN_EPOCH => 7 end.
Definition LTCKPT_BITMAP_CLICK : Z := 2^click_bits.
Definition LTCKPT_CLICKS_PER_BYTE : Z := 8.

Definition LTCKPT_BITMAP_SIZE : Z :=
  match BITMAP_TYPE k with
  | BITMAP_PLAIN => LTCKPT_SHADOW_SPACE_SIZE / (LTCKPT_BITMAP_CLICK * 8)
  | BITMAP_PLAIN_EPOCH => LTCKPT_SHADOW_SPACE_SIZE / LTCKPT_BITMAP_CLICK
  end.
Definition LTCKPT_BITMAP_OFFSET : Z :=
  match BITMAP_TYPE k, b_arch k with
  | BITMAP_PLAIN, _ => LTCKPT_SHADOW_SPACE_OFFSET - LTCKPT_BITMAP_SIZE
  | BITMAP_PLAIN_EPOCH, LTCKPT_X86 => align_down 12 (LTCKPT_SHADOW_SPACE_OFFSET - LTCKPT_BITMAP_SIZE)
  | BITMAP_PLAIN_EPOCH, LTCKPT_X86_64 => 0x1000000000
  end.

Definition LTCKPT_ADDR_TO_BITMAP (x : Z) : Z :=
  match b_arch k with
  | LTCKPT_X86 => x / LTCKPT_BITMAP_CLICK + LTCKPT_BITMAP_OFFSET
  | LTCKPT_X86_64 => Z.land x (LTCKPT_SHADOW_SPACE_SIZE - 1) / LTCKPT_BITMAP_CLICK + LTCKPT_BITMAP_OFFSET
  end.

Definition ltckpt_addr_to_region (addr : Z) : Z := align_down click_bits addr.

(** ** Marking and saving a region *)

Definition ltckpt_save_region (region : Z) (m : mem) : mem :=
  mem_copy m region m (ltckpt_primary_to_shadow region) (Z.to_nat LTCKPT_BITMAP_CLICK).
Definition ltckpt_save_region_for_address (addr : Z) (m : mem) : mem :=
  ltckpt_save_region (ltckpt_addr_to_region addr) m.

Definition _ltckpt_save_sized_region (epoch address : Z) (m : mem) : mem :=
  let p := LTCKPT_ADDR_TO_BITMAP address in
  if m p =? epoch then m
  else
    let src := align_down 7 address in
    let dst := ltckpt_primary_to_shadow src in
    mem_set (mem_copy m src m dst (Z.to_nat LTCKPT_BITMAP_CLICK)) p epoch.

(** [ltckpt_set_bit] of [bitmap_plain_epoch.h] and of [bitmap_plain.h]. *)
Definition set_bit_epoch (epoch address : Z) (m : mem) : Z * mem :=
  let p := LTCKPT_ADDR_TO_BITMAP address in
  (1, if epoch =? m p then m else _ltckpt_save_sized_region epoch address m).

Definition set_bit_plain (a : Z) (m : mem) : Z * mem :=
  let address := u32 a / LTCKPT_BITMAP_CLICK in
  let bit := Z.land address (LTCKPT_CLICKS_PER_BYTE - 1) in
  let offset := address / LTCKPT_CLICKS_PER_BYTE in
  let p := LTCKPT_BITMAP_OFFSET + offset in
  (Z.land (m p) (Z.shiftl 1 bit), mem_set m p (u8 (Z.lor (m p) (Z.shiftl 1 bit)))).

Definition ltckpt_set_bit (epoch a : Z) (m : mem) : Z * mem :=
  match BITMAP_TYPE k with
  | BITMAP_PLAIN => set_bit_plain a m
  | BITMAP_PLAIN_EPOCH => set_bit_epoch epoch a m
  end.
End Layout.

(** ** Hooks *)

Record bstate := {
  bmem : mem;
  ltckpt_epoch : Z;             (** uint8_t *)
  ltckpt_bitmap_enabled : bool;
  first_time : bool;
  bctx : Ctx.ltckpt_ctx_t;
}.

Definition with_mem (s : bstate) (m : mem) : bstate :=
  {| bmem := m; ltckpt_epoch := ltckpt_epoch s; ltckpt_bitmap_enabled := ltckpt_bitmap_enabled s;
     first_time := first_time s; bctx := bctx s |}.

Section Hooks.
Variable k : bconf.

(** [LTCKPT_DECLARE_STORE_HOOK], without the statistics. *)
Definition bitmap_store_hook (s : bstate) (addr : Z) : bstate :=
  if negb (ltckpt_bitmap_enabled s) then s
  else
    match LTCKPT_SCHEME k with
    | LTCKPT_SYNC_SCHEME => with_mem s (ltckpt_set_bit k (ltckpt_epoch s) addr (bmem s)).2
    | LTCKPT_DIFF_SCHEME =>
        let '(bitset, m) := ltckpt_set_bit k (ltckpt_epoch s) addr (bmem s) in
        with_mem s (if bitset =? 0 then ltckpt_save_region_for_address k addr m else m)
    end.

(** One turn of the loop of [LTCKPT_DECLARE_MEMCPY_HOOK]. *)
Definition memcpy_region (reg : Z) (s : bstate) : bstate :=
  let '(bitset, m) := ltckpt_set_bit k (ltckpt_epoch s) reg (bmem s) in
  with_mem s
    (if negb (bitset =? 0) then
       match LTCKPT_SCHEME k with
       | LTCKPT_DIFF_SCHEME => ltckpt_save_region k reg m
       | LTCKPT_SYNC_SCHEME => m
       end
     else m).

Fixpoint bitmap_memcpy_loop (fuel : nat) (s : bstate) (reg end_ : Z) : res bstate :=
  if reg <? end_ then
    match fuel with
    | O => Stop FFuel
    | S fuel' => bitmap_memcpy_loop fuel' (memcpy_region reg s) (reg + LTCKPT_BITMAP_CLICK k) end_
    end
  else Ret s.

Definition bitmap_memcpy_hook (s : bstate) (addr size : Z) : res bstate :=
  if negb (ltckpt_bitmap_enabled s) then Ret s
  else
    let end_ := addr + size in
    let reg := ltckpt_addr_to_region k addr in
    bitmap_memcpy_loop (Z.to_nat (end_ - reg)) s reg end_.

(** [ltckpt_allocate_bitmap] and [ltckpt_allocate_shadow_space]: fresh anonymous
    pages at a fixed place, or a panic.  [mmap_ok] is whether the mapping at an
    address succeeds. *)
Variable mmap_ok : Z → bool.

Definition zero_range (m : mem) (start size : Z) : mem :=
  λ x, if (start <=? x) && (x <? start + size) then 0 else m x.

Definition ltckpt_allocate_bitmap (m : mem) : res mem :=
  assert! mmap_ok (LTCKPT_BITMAP_OFFSET k) in
  Ret (zero_range m (LTCKPT_BITMAP_OFFSET k) (LTCKPT_BITMAP_SIZE k)).
Definition ltckpt_allocate_shadow_space (m : mem) : res mem :=
  assert! mmap_ok (LTCKPT_SHADOW_SPACE_OFFSET k) in
  Ret (zero_range m (LTCKPT_SHADOW_SPACE_OFFSET k) (LTCKPT_SHADOW_SPACE_SIZE k)).

(** The bitmap of the next checkpoint and its epoch. *)
Definition next_bitmap (m : mem) (epoch : Z) : res (mem * Z) :=
  match LTCKPT_SCHEME k, BITMAP_TYPE k with
  | LTCKPT_DIFF_SCHEME, _ => let! m := ltckpt_allocate_bitmap m in Ret (m, epoch)
  | LTCKPT_SYNC_SCHEME, BITMAP_PLAIN_EPOCH =>
      let epoch := u8 (epoch + 1) in
      if epoch =? 0 then let! m := ltckpt_allocate_bitmap m in Ret (m, 1)
      else Ret (m, epoch)
  | LTCKPT_SYNC_SCHEME, BITMAP_PLAIN => Ret (m, epoch)
  end.

(** [LTCKPT_DECLARE_TOP_OF_THE_LOOP_HOOK]; the boolean tells whether a checkpoint
    was taken. *)
Definition bitmap_top_of_the_loop (s : bstate) : res (bstate * bool) :=
  let '(ctx1, go) := Ctx.CTX_NEW_TOL_OR_RETURN (sizeof_va k) (bctx s) in
  if negb go then
    Ret ({| bmem := bmem s; ltckpt_epoch := ltckpt_epoch s;
            ltckpt_bitmap_enabled := ltckpt_bitmap_enabled s; first_time := first_time s;
            bctx := ctx1 |}, false)
  else
    let! m := if first_time s then
                let! m := ltckpt_allocate_bitmap (bmem s) in ltckpt_allocate_shadow_space m
              else Ret (bmem s) in
    let! me := next_bitmap m (ltckpt_epoch s) in
    Ret ({| bmem := me.1; ltckpt_epoch := me.2;
            ltckpt_bitmap_enabled := if LTCKPT_BITMAP_ALWAYS_ON k then ltckpt_bitmap_enabled s else true;
            first_time := false; bctx := Ctx.CTX_NEW_CHECKPOINT (sizeof_va k) ctx1 |}, true).

(** [ltckpt_bitmap_late_init_hook]; [restarting] is [LTCKPT_RESTARTING ()]. *)
Definition ltckpt_bitmap_late_init_hook (restarting : bool) (s : bstate) : res bstate :=
  if restarting then Ret s
  else
    let! m := ltckpt_allocate_bitmap (bmem s) in
    let! m := ltckpt_allocate_shadow_space m in
    Ret (with_mem s m).

(** [LTCKPT_DECLARE_RESTART_HOOK]: its body is compiled out. *)
Definition bitmap_restart_hook (s : bstate) : Z * bstate := (0, s).

(** An instrumented write: the hook, then the write. *)
Definition bitmap_run_op (s : bstate) (o : op) : res bstate :=
  let! s' := match o with
             | OStore a _ => Ret (bitmap_store_hook s a)
             | OMemcpy a bs => bitmap_memcpy_hook s a (Z.of_nat (length bs))
             end in
  Ret (with_mem s' (store_bytes (bmem s') (op_addr o) (op_bytes o))).

(** What bitmap, shadow and memory say the byte at [a] was at the checkpoint. *)
Definition restored (s : bstate) (a : Z) : Z :=
  if bmem s (LTCKPT_ADDR_TO_BITMAP k a) =? ltckpt_epoch s
  then bmem s (ltckpt_primary_to_shadow k a) else bmem s a.
End Hooks.

(** ** Layout of the epoch bitmap *)

Section Epoch.
Context (k : bconf) (HT : BITMAP_TYPE k = BITMAP_PLAIN_EPOCH).
(** On x86-64 the program occupies one window of 2^36 addresses, away from the
    bitmap and the shadow; on x86 the addresses below the bitmap. *)
Context (b : Z) (Hb : b = 0 ∨ 3 ≤ b).

Definition base : Z := match b_arch k with LTCKPT_X86 => 0 | LTCKPT_X86_64 => b * 2^36 end.
Definition psize : Z := match b_arch k with LTCKPT_X86 => 1598029824 | LTCKPT_X86_64 => 2^36 end.
Definition primary (a : Z) : Prop := base ≤ a < base + psize.

Lemma bitmap_offset_eq :
  LTCKPT_BITMAP_OFFSET k = match b_arch k with LTCKPT_X86 => 1598029824 | LTCKPT_X86_64 => 2^36 end.
Proof.
  unfold LTCKPT_BITMAP_OFFSET, LTCKPT_BITMAP_SIZE, LTCKPT_BITMAP_CLICK, click_bits,
    LTCKPT_SHADOW_SPACE_OFFSET, LTCKPT_SHADOW_SPACE_SIZE.
  rewrite HT. destruct (b_arch k); reflexivity.
Qed.

Lemma bitmap_size_eq :
  LTCKPT_BITMAP_SIZE k = match b_arch k with LTCKPT_X86 => 12582912 | LTCKPT_X86_64 => 2^29 end.
Proof.
  unfold LTCKPT_BITMAP_SIZE, LTCKPT_BITMAP_CLICK, click_bits, LTCKPT_SHADOW_SPACE_SIZE.
  rewrite HT. destruct (b_arch k); reflexivity.
Qed.

Lemma click_eq : LTCKPT_BITMAP_CLICK k = 128.
Proof. unfold LTCKPT_BITMAP_CLICK, click_bits. by rewrite HT. Qed.

Lemma mask_36 a : Z.land a (0x1000000000 - 1) = a `mod` 2^36.
Proof. change (0x1000000000 - 1) with (Z.ones 36). by apply Z.land_ones. Qed.

Lemma base_aligned : base `mod` 128 = 0.
Proof.
  unfold base. destruct (b_arch k); [done|].
  replace (b * 2^36) with (b * 2^29 * 128) by lia. apply Z_mod_mult.
Qed.

Lemma shadow_eq a : primary a → ltckpt_primary_to_shadow k a = a - base + LTCKPT_SHADOW_SPACE_OFFSET k.
Proof.
  unfold primary, base, psize, ltckpt_primary_to_shadow, LTCKPT_SHADOW_SPACE_OFFSET, LTCKPT_SHADOW_SPACE_SIZE.
  destruct (b_arch k); intros Ha.
  - rewrite ulong_small by lia. lia.
  - rewrite mask_36. f_equal. symmetry. apply (Z.mod_unique_pos _ _ b); lia.
Qed.

Lemma bitmap_eq a : primary a → LTCKPT_ADDR_TO_BITMAP k a = (a - base) / 128 + LTCKPT_BITMAP_OFFSET k.
Proof.
  unfold primary, base, psize, LTCKPT_ADDR_TO_BITMAP, LTCKPT_SHADOW_SPACE_SIZE. rewrite click_eq.
  destruct (b_arch k); intros Ha.
  - f_equal. f_equal. lia.
  - rewrite mask_36. f_equal. f_equal. symmetry. apply (Z.mod_unique_pos _ _ b); lia.
Qed.

(** The three areas do not overlap. *)
Lemma areas_disjoint a x :
  primary a → primary x →
  ltckpt_primary_to_shadow k a ≠ x ∧ LTCKPT_ADDR_TO_BITMAP k a ≠ x ∧
  LTCKPT_ADDR_TO_BITMAP k a ≠ ltckpt_primary_to_shadow k x.
Proof.
  intros Ha Hx. rewrite (shadow_eq a), (shadow_eq x), (bitmap_eq a), bitmap_offset_eq by done.
  unfold primary, base, psize in *. unfold LTCKPT_SHADOW_SPACE_OFFSET.
  destruct (b_arch k); Z.div_mod_to_equations; lia.
Qed.

Lemma zero_range_primary m x start size :
  primary x →
  (start = LTCKPT_BITMAP_OFFSET k ∧ size = LTCKPT_BITMAP_SIZE k) ∨
  (start = LTCKPT_SHADOW_SPACE_OFFSET k ∧ size = LTCKPT_SHADOW_SPACE_SIZE k) →
  zero_range m start size x = m x.
Proof.
  intros Hx Hr. unfold zero_range. rewrite bitmap_offset_eq, bitmap_size_eq in Hr.
  unfold primary, base, psize, LTCKPT_SHADOW_SPACE_OFFSET, LTCKPT_SHADOW_SPACE_SIZE in *.
  destruct (Z.leb_spec start x), (Z.ltb_spec x (start + size)); try done.
  destruct (b_arch k); lia.
Qed.

Lemma zero_range_bitmap m a :
  primary a →
  zero_range m (LTCKPT_BITMAP_OFFSET k) (LTCKPT_BITMAP_SIZE k) (LTCKPT_ADDR_TO_BITMAP k a) = 0 ∧
  zero_range m (LTCKPT_SHADOW_SPACE_OFFSET k) (LTCKPT_SHADOW_SPACE_SIZE k) (LTCKPT_ADDR_TO_BITMAP k a) =
    m (LTCKPT_ADDR_TO_BITMAP k a).
Proof.
  intros Ha. unfold zero_range. rewrite (bitmap_eq a) by done. rewrite bitmap_offset_eq, bitmap_size_eq.
  unfold primary, base, psize, LTCKPT_SHADOW_SPACE_OFFSET, LTCKPT_SHADOW_SPACE_SIZE in *.
  split; match goal with |- (if ?c then _ else _) = _ => destruct c eqn:E end; zb;
    destruct (b_arch k); Z.div_mod_to_equations; lia.
Qed.

(** Regions. *)
Definition same_region (a x : Z) : Prop := align_down 7 a = align_down 7 x.

#[local] Instance same_region_dec a x : Decision (same_region a x).
Proof. unfold same_region. apply _. Defined.

Lemma align_7 a : align_down 7 a = a - a `mod` 128.
Proof. by rewrite align_down_eq. Qed.

Lemma same_region_bitmap a x :
  primary a → primary x → (LTCKPT_ADDR_TO_BITMAP k a = LTCKPT_ADDR_TO_BITMAP k x ↔ same_region a x).
Proof.
  intros Ha Hx. rewrite (bitmap_eq a), (bitmap_eq x) by done. unfold same_region. rewrite !align_7.
  pose proof base_aligned. clear HT. Z.div_mod_to_equations. lia.
Qed.

Lemma primary_region a : primary a → primary (align_down 7 a) ∧ primary (align_down 7 a + 127).
Proof.
  intros Ha. rewrite align_7. pose proof base_aligned. unfold primary in *.
  assert (psize `mod` 128 = 0) by (unfold psize; by destruct (b_arch k)).
  clear HT. Z.div_mod_to_equations. lia.
Qed.

(** Copying a region to its shadow. *)
Lemma save_region_spec a m :
  primary a →
  let m' := mem_copy m (align_down 7 a) m (ltckpt_primary_to_shadow k (align_down 7 a)) (Z.to_nat 128) in
  ∀ x, primary x →
    m' x = m x ∧ m' (LTCKPT_ADDR_TO_BITMAP k x) = m (LTCKPT_ADDR_TO_BITMAP k x) ∧
    m' (ltckpt_primary_to_shadow k x) =
      if decide (same_region a x) then m x else m (ltckpt_primary_to_shadow k x).
Proof.
  intros Ha m' x Hx. destruct (primary_region a Ha) as [Hr1 Hr2].
  set (r := align_down 7 a) in *.
  assert (Hin : ∀ y, (∀ i, 0 ≤ i < 128 → ltckpt_primary_to_shadow k (r + i) ≠ y) → m' y = m y).
  { intros y Hy. apply mem_copy_out.
    destruct (decide (ltckpt_primary_to_shadow k r ≤ y < ltckpt_primary_to_shadow k r + Z.of_nat (Z.to_nat 128)))
      as [Hin|]; [|lia].
    exfalso. apply (Hy (y - ltckpt_primary_to_shadow k r)); [lia|].
    pose proof (shadow_eq r Hr1). rewrite (shadow_eq (r + _)) by (unfold primary in *; lia). lia. }
  assert (Hp : ∀ i, 0 ≤ i < 128 → primary (r + i)) by (intros i Hi; unfold primary in *; lia).
  split_and!.
  - apply Hin. intros i Hi. by apply (areas_disjoint (r + i) x); [apply Hp|].
  - apply Hin. intros i Hi E. symmetry in E. by apply (areas_disjoint x (r + i)) in E; [|done|apply Hp].
  - destruct (decide (same_region a x)) as [Hs|Hs].
    + unfold same_region in Hs. fold r in Hs. unfold m'. pose proof (Z.mod_pos_bound x 128 ltac:(lia)).
      pose proof (align_7 x). rewrite mem_copy_in; rewrite (shadow_eq r), (shadow_eq x) by done;
        [|unfold r in *; lia]. f_equal. lia.
    + apply Hin. intros i Hi E. apply Hs. rewrite (shadow_eq (r + i)), (shadow_eq x) in E by auto.
      unfold same_region. fold r. rewrite align_7. unfold r in *. rewrite align_7 in *.
      clear HT. Z.div_mod_to_equations. lia.
Qed.

Definition dirty (s : bstate) (a : Z) : Prop := bmem s (LTCKPT_ADDR_TO_BITMAP k a) = ltckpt_epoch s.

(** [ltckpt_set_bit] keeps what is restored and makes the region dirty. *)
Lemma set_bit_epoch_spec s a :
  primary a →
  let r := ltckpt_set_bit k (ltckpt_epoch s) a (bmem s) in
  let s' := with_mem s r.2 in
  r.1 = 1 ∧
  ∀ x, primary x →
    bmem s' x = bmem s x ∧ restored k s' x = restored k s x ∧ (dirty s x → dirty s' x) ∧
    (same_region a x → dirty s' x) ∧
    (bmem s' (LTCKPT_ADDR_TO_BITMAP k x) = bmem s (LTCKPT_ADDR_TO_BITMAP k x) ∨ dirty s' x).
Proof.
  intros Ha. unfold ltckpt_set_bit, set_bit_epoch, _ltckpt_save_sized_region. rewrite HT, click_eq. cbn [fst snd].
  split; [done|]. intros x Hx. pose proof (same_region_bitmap a x Ha Hx) as Hsr. unfold dirty, restored.
  destruct (Z.eqb_spec (ltckpt_epoch s) (bmem s (LTCKPT_ADDR_TO_BITMAP k a))) as [He|He]; cbn [bmem with_mem ltckpt_epoch].
  { split_and!; try done; [|by left]. intros Hs. apply Hsr in Hs. congruence. }
  destruct (Z.eqb_spec (bmem s (LTCKPT_ADDR_TO_BITMAP k a)) (ltckpt_epoch s)); [congruence|].
  destruct (save_region_spec a (bmem s) Ha x Hx) as (H1 & H2 & H3).
  set (m' := mem_copy _ _ _ _ _) in *. unfold mem_set.
  destruct (areas_disjoint a x Ha Hx) as (D1 & D2 & D3). destruct (areas_disjoint x a Hx Ha) as (D4 & D5 & D6).
  assert (Hb' : m' (LTCKPT_ADDR_TO_BITMAP k x) = bmem s (LTCKPT_ADDR_TO_BITMAP k x)) by done.
  destruct (Z.eqb_spec x (LTCKPT_ADDR_TO_BITMAP k a)); [congruence|].
  destruct (Z.eqb_spec (ltckpt_primary_to_shadow k x) (LTCKPT_ADDR_TO_BITMAP k a)); [congruence|].
  destruct (Z.eqb_spec (LTCKPT_ADDR_TO_BITMAP k x) (LTCKPT_ADDR_TO_BITMAP k a)) as [E|E].
  - assert (same_region a x) by (by apply Hsr). rewrite Z.eqb_refl, H3, E.
    rewrite decide_True by done. destruct (Z.eqb_spec (bmem s (LTCKPT_ADDR_TO_BITMAP k a)) (ltckpt_epoch s)); [done|].
    split_and!; auto.
  - assert (¬ same_region a x) by (intros Hs; apply Hsr in Hs; congruence).
    rewrite H1, H2, H3, decide_False by done. split_and!; auto. done.
Qed.
(** What a hook keeps: the memory of the program, what is restored, and the marks. *)
Definition hook_keeps (s s' : bstate) : Prop :=
  ltckpt_epoch s' = ltckpt_epoch s ∧ ltckpt_bitmap_enabled s' = ltckpt_bitmap_enabled s ∧
  bctx s' = bctx s ∧ first_time s' = first_time s ∧
  ∀ x, primary x → bmem s' x = bmem s x ∧ restored k s' x = restored k s x ∧
    (dirty s x → dirty s' x) ∧
    (bmem s' (LTCKPT_ADDR_TO_BITMAP k x) = bmem s (LTCKPT_ADDR_TO_BITMAP k x) ∨ dirty s' x).

Lemma hook_keeps_refl s : hook_keeps s s.
Proof. split_and!; try done. intros x Hx. split_and!; auto. Qed.

Lemma hook_keeps_trans s1 s2 s3 : hook_keeps s1 s2 → hook_keeps s2 s3 → hook_keeps s1 s3.
Proof.
  intros (E1 & N1 & C1 & F1 & H1) (E2 & N2 & C2 & F2 & H2). split_and!; try congruence.
  intros x Hx. destruct (H1 x Hx) as (A1 & B1 & D1 & M1), (H2 x Hx) as (A2 & B2 & D2 & M2).
  split_and!; try congruence; [auto|]. destruct M2 as [M2|]; [|by right].
  destruct M1 as [M1|M1]; [left; congruence|]. right. auto.
Qed.

Lemma set_bit_keeps s a :
  primary a → let s' := with_mem s (ltckpt_set_bit k (ltckpt_epoch s) a (bmem s)).2 in
  hook_keeps s s' ∧ ∀ x, primary x → same_region a x → dirty s' x.
Proof.
  intros Ha s'. destruct (set_bit_epoch_spec s a Ha) as (_ & H). split.
  - split_and!; try done. intros x Hx. destruct (H x Hx) as (? & ? & ? & ? & ?). by split_and!.
  - intros x Hx. by apply H.
Qed.

(** The store hook, with either scheme: the bit is always reported as set. *)
Lemma store_hook_keeps s a :
  ltckpt_bitmap_enabled s = true → primary a →
  hook_keeps s (bitmap_store_hook k s a) ∧
  ∀ x, primary x → same_region a x → dirty (bitmap_store_hook k s a) x.
Proof.
  intros He Ha. unfold bitmap_store_hook. rewrite He. cbn [negb].
  pose proof (set_bit_keeps s a Ha) as Hk. pose proof (proj1 (set_bit_epoch_spec s a Ha)) as H1.
  destruct (LTCKPT_SCHEME k); [|exact Hk].
  destruct (ltckpt_set_bit k (ltckpt_epoch s) a (bmem s)) as [r m]. simpl in H1. subst r. exact Hk.
Qed.

Lemma memcpy_loop_keeps fuel s reg end_ :
  LTCKPT_SCHEME k = LTCKPT_SYNC_SCHEME → reg `mod` 128 = 0 → base ≤ reg → end_ ≤ base + psize →
  end_ - reg ≤ Z.of_nat fuel →
  ∃ s', bitmap_memcpy_loop k fuel s reg end_ = Ret s' ∧ hook_keeps s s' ∧
    ∀ x, primary x → reg ≤ x < end_ → dirty s' x.
Proof.
  intros HS. revert s reg. induction fuel as [|fuel IH]; intros s reg Hal Hlo Hhi Hf; cbn [bitmap_memcpy_loop].
  { destruct (Z.ltb_spec reg end_); [lia|]. exists s. split_and!; [done|apply hook_keeps_refl|lia]. }
  destruct (Z.ltb_spec reg end_).
  2:{ exists s. split_and!; [done|apply hook_keeps_refl|lia]. }
  assert (Hreg : primary reg) by (unfold primary; lia).
  assert (Hm : memcpy_region k reg s = with_mem s (ltckpt_set_bit k (ltckpt_epoch s) reg (bmem s)).2).
  { unfold memcpy_region. rewrite HS. destruct (ltckpt_set_bit k (ltckpt_epoch s) reg (bmem s)) as [r m].
    by destruct (negb (r =? 0)). }
  rewrite Hm, click_eq. destruct (set_bit_keeps s reg Hreg) as [Hk Hd].
  set (s1 := with_mem s _) in *.
  destruct (IH s1 (reg + 128)) as (s' & -> & Hk' & Hd'); [clear -Hal; Z.div_mod_to_equations; lia|lia|lia|lia|].
  exists s'. split; [done|]. split; [by eapply hook_keeps_trans|].
  intros x Hx Hr. destruct (decide (x < reg + 128)) as [Hlt|]; [|apply Hd'; [done|lia]].
  apply Hk'; [done|]. apply Hd; [done|]. unfold same_region. rewrite !align_7.
  clear -Hal Hr Hlt. Z.div_mod_to_equations. lia.
Qed.

(** ** Instrumented writes *)

(** The writes the instrumentation covers: inside the program's memory, a store
    inside one region, a block write only with the sync scheme. *)
Definition op_covered (o : op) : Prop :=
  primary (op_addr o) ∧ (∀ i, 0 ≤ i < op_size o → primary (op_addr o + i)) ∧
  match o with
  | OStore a _ => ∀ i, 0 ≤ i < op_size o → same_region a (a + i)
  | OMemcpy _ _ => LTCKPT_SCHEME k = LTCKPT_SYNC_SCHEME
  end.

(** Marks never exceed the epoch. *)
Definition bitmap_ok (s : bstate) : Prop :=
  1 ≤ ltckpt_epoch s ≤ 255 ∧ ∀ x, primary x → 0 ≤ bmem s (LTCKPT_ADDR_TO_BITMAP k x) ≤ ltckpt_epoch s.

Lemma op_hook_keeps s o :
  ltckpt_bitmap_enabled s = true → op_covered o →
  ∃ s', match o with
        | OStore a _ => Ret (bitmap_store_hook k s a)
        | OMemcpy a bs => bitmap_memcpy_hook k s a (Z.of_nat (length bs))
        end = Ret s' ∧ hook_keeps s s' ∧ ∀ i, 0 ≤ i < op_size o → dirty s' (op_addr o + i).
Proof.
  intros He (Ha & Hi & Ho). destruct o as [a bs|a bs]; cbn [op_addr] in *.
  - eexists. split; [done|]. destruct (store_hook_keeps s a He Ha) as [Hk Hd]. split; [done|].
    intros i Hr. apply Hd; auto.
  - unfold bitmap_memcpy_hook. rewrite He. cbn [negb]. unfold ltckpt_addr_to_region, click_bits. rewrite HT.
    destruct (primary_region a Ha) as [Hr1 _]. pose proof (align_7 a) as Hal.
    unfold op_size in *. cbn [op_bytes] in *.
    destruct (memcpy_loop_keeps (Z.to_nat (a + Z.of_nat (length bs) - align_down 7 a)) s (align_down 7 a)
      (a + Z.of_nat (length bs))) as (s' & -> & Hk & Hd); [done|..|lia|].
    + rewrite Hal. clear. Z.div_mod_to_equations. lia.
    + unfold primary in Hr1. lia.
    + destruct bs as [|v bs]; [unfold primary in Ha; simpl; lia|].
      specialize (Hi (Z.of_nat (length (v :: bs)) - 1) ltac:(simpl; lia)). unfold primary in Hi. lia.
    + exists s'. split; [done|]. split; [done|]. intros i Hr. apply Hd; [auto|].
      pose proof (Z.mod_pos_bound a 128 ltac:(lia)). lia.
Qed.

Lemma run_op_restored s o :
  ltckpt_bitmap_enabled s = true → bitmap_ok s → op_covered o →
  ∃ s', bitmap_run_op k s o = Ret s' ∧ ltckpt_bitmap_enabled s' = true ∧ bitmap_ok s' ∧
    bctx s' = bctx s ∧ first_time s' = first_time s ∧
    ∀ x, primary x → restored k s' x = restored k s x ∧
      bmem s' x = store_bytes (bmem s) (op_addr o) (op_bytes o) x.
Proof.
  intros He [Hep Hbm] Ho. destruct (op_hook_keeps s o He Ho) as (s1 & E & (K1 & K2 & K3 & K4 & Hk) & Hd).
  unfold bitmap_run_op. rewrite E. cbn [res_bind]. eexists. split; [done|].
  destruct Ho as (Ha & Hi & _).
  assert (Hout : ∀ y, (∀ x, primary x → y ≠ x) →
            store_bytes (bmem s1) (op_addr o) (op_bytes o) y = bmem s1 y).
  { intros y Hy. apply store_bytes_out. destruct (decide (op_addr o ≤ y < op_addr o + op_size o)) as [Hr|];
      [|unfold op_size in *; lia].
    specialize (Hi (y - op_addr o) ltac:(lia)). replace (op_addr o + (y - op_addr o)) with y in Hi by lia.
    by destruct (Hy y Hi). }
  assert (Hbmap : ∀ x, primary x → store_bytes (bmem s1) (op_addr o) (op_bytes o) (LTCKPT_ADDR_TO_BITMAP k x) =
            bmem s1 (LTCKPT_ADDR_TO_BITMAP k x)).
  { intros x Hx. apply Hout. intros y Hy. by apply areas_disjoint. }
  assert (Hok : bitmap_ok (with_mem s1 (store_bytes (bmem s1) (op_addr o) (op_bytes o)))).
  { unfold bitmap_ok. cbn [with_mem bmem ltckpt_epoch]. rewrite K1. split; [done|].
    intros x Hx. rewrite Hbmap by done. destruct (Hk x Hx) as (_ & _ & _ & [->|Hdx]); [by apply Hbm|].
    unfold dirty in Hdx. lia. }
  cbn [with_mem ltckpt_bitmap_enabled bctx first_time]. split_and!; try done; [congruence|].
  intros x Hx. destruct (Hk x Hx) as (A & B & C & D).
  split; [|cbn [with_mem bmem]; by apply store_bytes_ext].
  rewrite <- B. unfold restored. cbn [with_mem bmem ltckpt_epoch]. rewrite Hbmap by done.
  destruct (Z.eqb_spec (bmem s1 (LTCKPT_ADDR_TO_BITMAP k x)) (ltckpt_epoch s1)) as [|Hnd].
  - apply Hout. intros y Hy. by apply areas_disjoint.
  - apply store_bytes_out. destruct (decide (op_addr o ≤ x < op_addr o + op_size o)) as [Hr|];
      [|unfold op_size in *; lia].
    specialize (Hd (x - op_addr o) ltac:(lia)).
    by replace (op_addr o + (x - op_addr o)) with x in Hd by lia.
Qed.
(** ** Checkpoints *)

Variable mmap_ok : Z → bool.

Lemma allocate_bitmap_spec m m' :
  ltckpt_allocate_bitmap k mmap_ok m = Ret m' →
  ∀ x, primary x → m' x = m x ∧ m' (LTCKPT_ADDR_TO_BITMAP k x) = 0.
Proof.
  unfold ltckpt_allocate_bitmap. destruct (mmap_ok _); [|done]. intros [= <-] x Hx. split.
  - apply zero_range_primary; [done|by left].
  - by apply zero_range_bitmap.
Qed.

Lemma allocate_shadow_spec m m' :
  ltckpt_allocate_shadow_space k mmap_ok m = Ret m' →
  ∀ x, primary x → m' x = m x ∧ m' (LTCKPT_ADDR_TO_BITMAP k x) = m (LTCKPT_ADDR_TO_BITMAP k x).
Proof.
  unfold ltckpt_allocate_shadow_space. destruct (mmap_ok _); [|done]. intros [= <-] x Hx. split.
  - apply zero_range_primary; [done|by right].
  - by apply zero_range_bitmap.
Qed.

(** After [next_bitmap] no region is marked with the new epoch. *)
Lemma next_bitmap_spec m e m' e' :
  1 ≤ e ≤ 255 → (∀ x, primary x → 0 ≤ m (LTCKPT_ADDR_TO_BITMAP k x) ≤ e) →
  next_bitmap k mmap_ok m e = Ret (m', e') →
  1 ≤ e' ≤ 255 ∧ ∀ x, primary x → m' x = m x ∧ 0 ≤ m' (LTCKPT_ADDR_TO_BITMAP k x) < e'.
Proof.
  intros He Hm. unfold next_bitmap. rewrite HT. destruct (LTCKPT_SCHEME k); intros H.
  - apply res_bind_inv in H as (m1 & H1 & [= <- <-]). split; [done|]. intros x Hx.
    destruct (allocate_bitmap_spec _ _ H1 x Hx) as [-> ->]. lia.
  - destruct (Z.eqb_spec (u8 (e + 1)) 0) as [E|E].
    + apply res_bind_inv in H as (m1 & H1 & [= <- <-]). split; [lia|]. intros x Hx.
      destruct (allocate_bitmap_spec _ _ H1 x Hx) as [-> ->]. lia.
    + injection H as <- <-. destruct (decide (e = 255)) as [->|]; [done|].
      rewrite u8_small in * by lia. split; [lia|]. intros x Hx. specialize (Hm x Hx). split; [done|]. lia.
Qed.

Lemma top_of_the_loop_spec s s0 :
  bitmap_ok s → bitmap_top_of_the_loop k mmap_ok s = Ret (s0, true) →
  ltckpt_bitmap_enabled s0 = (if LTCKPT_BITMAP_ALWAYS_ON k then ltckpt_bitmap_enabled s else true) ∧
  bitmap_ok s0 ∧ first_time s0 = false ∧
  ∀ x, primary x → bmem s0 x = bmem s x ∧ restored k s0 x = bmem s x.
Proof.
  intros [He Hm] H. unfold bitmap_top_of_the_loop in H.
  destruct (Ctx.CTX_NEW_TOL_OR_RETURN (sizeof_va k) (bctx s)) as [ctx1 []]; cbn [negb] in H; [|done].
  apply res_bind_inv in H as (m & H1 & H). apply res_bind_inv in H as ([m' e'] & H2 & [= <-]).
  assert (Hm1 : ∀ x, primary x → m x = bmem s x ∧ 0 ≤ m (LTCKPT_ADDR_TO_BITMAP k x) ≤ ltckpt_epoch s).
  { intros x Hx. specialize (Hm x Hx). destruct (first_time s).
    - apply res_bind_inv in H1 as (m1 & A1 & A2).
      destruct (allocate_bitmap_spec _ _ A1 x Hx) as [B1 B2], (allocate_shadow_spec _ _ A2 x Hx) as [B3 B4].
      rewrite B3, B1, B4, B2. lia.
    - by injection H1 as <-. }
  destruct (next_bitmap_spec m (ltckpt_epoch s) m' e' He ltac:(intros; by apply Hm1) H2) as [He' Hm'].
  cbn [ltckpt_bitmap_enabled bmem ltckpt_epoch fst snd first_time].
  split; [done|]. split; [|split; [done|]].
  - split; [done|]. intros x Hx. cbn [bmem ltckpt_epoch]. destruct (Hm' x Hx). lia.
  - intros x Hx. destruct (Hm' x Hx) as [E1 E2], (Hm1 x Hx) as [E3 _]. split; [congruence|].
    unfold restored. cbn [bmem ltckpt_epoch].
    destruct (Z.eqb_spec (m' (LTCKPT_ADDR_TO_BITMAP k x)) e'); [lia|congruence].
Qed.

Definition bitmap_run_ops (s : bstate) (os : list op) : res bstate := res_foldl (bitmap_run_op k) s os.

Lemma run_ops_restored os s :
  ltckpt_bitmap_enabled s = true → bitmap_ok s → Forall op_covered os →
  ∃ s', bitmap_run_ops s os = Ret s' ∧ ltckpt_bitmap_enabled s' = true ∧ bitmap_ok s' ∧
    bctx s' = bctx s ∧ first_time s' = first_time s ∧
    ∀ x, primary x → restored k s' x = restored k s x ∧ bmem s' x = plain_run (bmem s) os x.
Proof.
  intros He Hok Hos. revert s He Hok. induction Hos as [|o os Ho _ IH]; intros s He Hok.
  { exists s. by split_and!. }
  destruct (run_op_restored s o He Hok Ho) as (s1 & E1 & He1 & Hok1 & Hc1 & Hf1 & H1).
  destruct (IH s1 He1 Hok1) as (s2 & E2 & He2 & Hok2 & Hc2 & Hf2 & H2).
  exists s2. unfold bitmap_run_ops in *. cbn [res_foldl]. rewrite E1. cbn [res_bind].
  split_and!; try congruence. intros x Hx. destruct (H1 x Hx) as [R1 M1], (H2 x Hx) as [R2 M2].
  split; [congruence|]. rewrite M2. cbn [plain_run foldl]. by apply plain_run_ext.
Qed.

(** C6: the dirty bitmap preserves the checkpoint.  Take a checkpoint in any state
    whose marks are consistent (also when the 8-bit epoch wraps around), and let
    the program perform any covered writes.  No write is lost or changed by the
    instrumentation, and for every byte of the program's memory the bitmap, the
    shadow space and the memory together give the value it had at the checkpoint.
    The marks stay consistent, so the next checkpoint can be taken. *)
Theorem bitmap_preserves_checkpoint s s0 os :
  bitmap_ok s → bitmap_top_of_the_loop k mmap_ok s = Ret (s0, true) →
  ltckpt_bitmap_enabled s0 = true → Forall op_covered os →
  ∃ s1, bitmap_run_ops s0 os = Ret s1 ∧ bitmap_ok s1 ∧
    ∀ x, primary x → restored k s1 x = bmem s x ∧ bmem s1 x = plain_run (bmem s) os x.
Proof.
  intros Hok Ht He Hos. destruct (top_of_the_loop_spec s s0 Hok Ht) as (_ & Hok0 & _ & H0).
  destruct (run_ops_restored os s0 He Hok0 Hos) as (s1 & E & _ & Hok1 & _ & _ & H1).
  exists s1. split_and!; try done. intros x Hx. destruct (H0 x Hx) as [M0 R0], (H1 x Hx) as [R1 M1].
  split; [congruence|]. rewrite M1. by apply plain_run_ext.
Qed.
(** ** Block writes in the diff scheme *)

(** One turn of the hook: the region is saved although it may be dirty. *)
Lemma memcpy_region_diff s reg :
  LTCKPT_SCHEME k = LTCKPT_DIFF_SCHEME → primary reg → reg `mod` 128 = 0 →
  let s' := memcpy_region k reg s in
  ltckpt_epoch s' = ltckpt_epoch s ∧
  ∀ x, primary x → bmem s' x = bmem s x ∧
    (same_region reg x → dirty s' x ∧ bmem s' (ltckpt_primary_to_shadow k x) = bmem s x) ∧
    (¬ same_region reg x → (dirty s x → dirty s' x) ∧
       bmem s' (ltckpt_primary_to_shadow k x) = bmem s (ltckpt_primary_to_shadow k x)).
Proof.
  intros HS Hreg Hal. unfold memcpy_region. destruct (set_bit_epoch_spec s reg Hreg) as [H1 H].
  assert (Hsh : ∀ x, primary x → ¬ same_region reg x →
    (ltckpt_set_bit k (ltckpt_epoch s) reg (bmem s)).2 (ltckpt_primary_to_shadow k x) =
    bmem s (ltckpt_primary_to_shadow k x)).
  { intros x Hx Hne. unfold ltckpt_set_bit, set_bit_epoch, _ltckpt_save_sized_region. rewrite HT, click_eq. cbn [snd].
    destruct (_ =? _); [done|]. destruct (_ =? _); [done|]. unfold mem_set.
    destruct (areas_disjoint reg x Hreg Hx) as (_ & _ & D). destruct (Z.eqb_spec (ltckpt_primary_to_shadow k x)
      (LTCKPT_ADDR_TO_BITMAP k reg)); [congruence|].
    destruct (save_region_spec reg (bmem s) Hreg x Hx) as (_ & _ & ->). by rewrite decide_False. }
  destruct (ltckpt_set_bit k (ltckpt_epoch s) reg (bmem s)) as [r m]. cbn [fst snd] in *. subst r.
  rewrite HS. cbn [Z.eqb negb with_mem ltckpt_epoch]. split; [done|]. intros x Hx.
  unfold ltckpt_save_region. rewrite click_eq.
  assert (Hr : align_down 7 reg = reg) by (rewrite align_7; lia).
  pose proof (save_region_spec reg m Hreg x Hx) as Hs. rewrite Hr in Hs. destruct Hs as (S1 & S2 & S3).
  destruct (H x Hx) as (A & B & C & D & _). unfold dirty in *. cbn [with_mem bmem ltckpt_epoch] in *.
  rewrite S1, S2, S3. split_and!; [done|..].
  - intros Hsame. rewrite decide_True by done. auto.
  - intros Hne. rewrite decide_False by done. auto.
Qed.

Lemma memcpy_loop_diff fuel s reg end_ :
  LTCKPT_SCHEME k = LTCKPT_DIFF_SCHEME → reg `mod` 128 = 0 → base ≤ reg → end_ ≤ base + psize →
  end_ - reg ≤ Z.of_nat fuel →
  ∃ s', bitmap_memcpy_loop k fuel s reg end_ = Ret s' ∧ ltckpt_epoch s' = ltckpt_epoch s ∧
    ∀ x, primary x → bmem s' x = bmem s x ∧
      (reg ≤ x < end_ → dirty s' x ∧ bmem s' (ltckpt_primary_to_shadow k x) = bmem s x) ∧
      (x < reg → (dirty s x → dirty s' x) ∧
         bmem s' (ltckpt_primary_to_shadow k x) = bmem s (ltckpt_primary_to_shadow k x)).
Proof.
  intros HS. revert s reg. induction fuel as [|fuel IH]; intros s reg Hal Hlo Hhi Hf; cbn [bitmap_memcpy_loop].
  { destruct (Z.ltb_spec reg end_); [lia|]. exists s. split_and!; try done. intros x Hx. split_and!; [done|lia|done]. }
  destruct (Z.ltb_spec reg end_).
  2:{ exists s. split_and!; try done. intros x Hx. split_and!; [done|lia|done]. }
  assert (Hreg : primary reg) by (unfold primary; lia). rewrite click_eq.
  destruct (memcpy_region_diff s reg HS Hreg Hal) as [He Hm].
  destruct (IH (memcpy_region k reg s) (reg + 128)) as (s' & -> & He' & H');
    [clear -Hal; Z.div_mod_to_equations; lia|lia|lia|lia|].
  exists s'. split; [done|]. split; [congruence|]. intros x Hx.
  destruct (Hm x Hx) as (A & B & C), (H' x Hx) as (A' & B' & C').
  assert (Hsr : same_region reg x ↔ reg ≤ x < reg + 128).
  { unfold same_region. rewrite !align_7. clear -Hal. Z.div_mod_to_equations. lia. }
  split_and!; [congruence|..].
  - intros Hr. destruct (decide (x < reg + 128)) as [Hlt|].
    + destruct (B ltac:(apply Hsr; lia)) as [Hd Hsh]. destruct (C' Hlt) as [C1 C2]. split; [auto|congruence].
    + destruct (B' ltac:(lia)) as [Hd Hsh]. split; [done|congruence].
  - intros Hlt. destruct (C ltac:(rewrite Hsr; lia)) as [C1 C2], (C' ltac:(lia)) as [C3 C4].
    split; [auto|congruence].
Qed.

(** A block write destroys the checkpoint (diff scheme, epoch bitmap, the
    default on MINIX).  The hook saves every region it touches, also one that is
    dirty, because [ltckpt_set_bit] always reports 1.  Afterwards the byte that
    bitmap and shadow give for the checkpoint is the current one, whatever was
    saved before. *)
Theorem memcpy_overwrites_checkpoint s addr size :
  LTCKPT_SCHEME k = LTCKPT_DIFF_SCHEME → ltckpt_bitmap_enabled s = true → primary addr →
  0 < size → addr + size ≤ base + psize →
  ∃ s', bitmap_memcpy_hook k s addr size = Ret s' ∧
    ∀ x, addr ≤ x < addr + size → bmem s' x = bmem s x ∧ restored k s' x = bmem s x.
Proof.
  intros HS He Ha Hs Hhi. unfold bitmap_memcpy_hook. rewrite He. cbn [negb].
  unfold ltckpt_addr_to_region, click_bits. rewrite HT. destruct (primary_region addr Ha) as [Hr1 _].
  pose proof (align_7 addr) as Hal. pose proof (Z.mod_pos_bound addr 128 ltac:(lia)).
  destruct (memcpy_loop_diff (Z.to_nat (addr + size - align_down 7 addr)) s (align_down 7 addr) (addr + size))
    as (s' & -> & He' & H'); [done|..|lia|lia|].
  - rewrite Hal. clear. Z.div_mod_to_equations. lia.
  - unfold primary in Hr1. lia.
  - exists s'. split; [done|]. intros x Hx. destruct (H' x) as (A & B & _); [unfold primary in *; lia|].
    destruct (B ltac:(lia)) as [Hd Hsh]. split; [done|]. unfold restored, dirty in *.
    by rewrite Hd, Z.eqb_refl.
Qed.
End Epoch.

(** ** The plain bitmap and the address maps *)

(** A block write is not saved (diff scheme, plain bitmap).  For a region that
    is clean, [ltckpt_set_bit] reports 0 and the hook skips the copy: the region is
    marked as dirty, but nothing besides its bitmap byte changes, so its old
    contents are not in the shadow space. *)
Theorem memcpy_plain_not_saved k s addr :
  LTCKPT_SCHEME k = LTCKPT_DIFF_SCHEME → BITMAP_TYPE k = BITMAP_PLAIN →
  ltckpt_bitmap_enabled s = true → 0 ≤ addr < 2^32 → addr `mod` 8 = 0 →
  let bit := (addr / 8) `mod` 8 in
  let p := LTCKPT_BITMAP_OFFSET k + addr / 8 / 8 in
  0 ≤ bmem s p < 256 → Z.testbit (bmem s p) bit = false →
  ∃ s', bitmap_memcpy_hook k s addr 8 = Ret s' ∧ Z.testbit (bmem s' p) bit = true ∧
    ∀ y, y ≠ p → bmem s' y = bmem s y.
Proof.
  intros HS HT He Ha Hal bit p Hp Hbit. unfold bitmap_memcpy_hook. rewrite He. cbn [negb].
  unfold ltckpt_addr_to_region, click_bits. rewrite HT, align_down_8, Hal, Z.sub_0_r.
  replace (addr + 8 - addr) with 8 by lia. change (Z.to_nat 8) with (S 7). generalize 7%nat. intros n.
  cbn [bitmap_memcpy_loop]. destruct (Z.ltb_spec addr (addr + 8)); [|lia].
  assert (Hc : LTCKPT_BITMAP_CLICK k = 8) by (unfold LTCKPT_BITMAP_CLICK, click_bits; by rewrite HT).
  assert (Hb : Z.land (addr / 8) (LTCKPT_CLICKS_PER_BYTE - 1) = bit).
  { change (LTCKPT_CLICKS_PER_BYTE - 1) with (Z.ones 3). by rewrite Z.land_ones. }
  assert (Hb8 : 0 ≤ bit < 8) by (apply Z.mod_pos_bound; lia).
  assert (Hz : Z.land (bmem s p) (Z.shiftl 1 bit) = 0).
  { rewrite Z.shiftl_1_l. pose proof (Window.has_mask_testbit (bmem s p) bit ltac:(lia)) as Hm.
    rewrite Hbit in Hm. unfold Window.has_mask in Hm. by apply negb_false_iff, Z.eqb_eq in Hm. }
  unfold memcpy_region, ltckpt_set_bit, set_bit_plain. rewrite HT, Hc, (u32_small addr), Hb by lia.
  change (LTCKPT_CLICKS_PER_BYTE) with 8. fold p. rewrite Hz. cbn [Z.eqb negb].
  assert (Hend : ∀ t, bitmap_memcpy_loop k n t (addr + 8) (addr + 8) = Ret t).
  { intros t. destruct n; cbn [bitmap_memcpy_loop]; by rewrite Z.ltb_irrefl. }
  rewrite Hend. eexists. split; [reflexivity|]. cbn [with_mem bmem]. unfold mem_set. rewrite Z.eqb_refl. split.
  - unfold u8. rewrite Z.mod_pow2_bits_low by lia. rewrite Z.lor_spec, Z.shiftl_1_l, Z.pow2_bits_true by lia.
    apply orb_true_r.
  - intros y Hy. by destruct (Z.eqb_spec y p).
Qed.

(** The address maps.  On x86-64 [ltckpt_shadow_to_primary] inverts
    [ltckpt_primary_to_shadow] for addresses below 2^36.  On x86 it does not: it
    adds the offset a second time, for every address. *)
Theorem shadow_roundtrip k a :
  0 ≤ a < LTCKPT_SHADOW_SPACE_SIZE k →
  match b_arch k with
  | LTCKPT_X86_64 => ltckpt_shadow_to_primary k (ltckpt_primary_to_shadow k a) = a
  | LTCKPT_X86 => ltckpt_shadow_to_primary k (ltckpt_primary_to_shadow k a) ≠ a
  end.
Proof.
  unfold ltckpt_shadow_to_primary, ltckpt_primary_to_shadow, LTCKPT_SHADOW_SPACE_SIZE, LTCKPT_SHADOW_SPACE_OFFSET.
  destruct (b_arch k); intros Ha.
  - rewrite (ulong_small 4 (a + _)) by lia. unfold ulong. Z.div_mod_to_equations. lia.
  - rewrite !mask_36. Z.div_mod_to_equations. lia.
Qed.

(** ** Witnesses *)

Definition linux_bitmap : bconf :=
  {| b_arch := LTCKPT_X86_64; LTCKPT_SCHEME := LTCKPT_SYNC_SCHEME; BITMAP_TYPE := BITMAP_PLAIN_EPOCH;
     LTCKPT_BITMAP_ALWAYS_ON := true |}.
Definition minix_bitmap : bconf :=
  {| b_arch := LTCKPT_X86; LTCKPT_SCHEME := LTCKPT_DIFF_SCHEME; BITMAP_TYPE := BITMAP_PLAIN_EPOCH;
     LTCKPT_BITMAP_ALWAYS_ON := false |}.
Definition plain_bitmap : bconf :=
  {| b_arch := LTCKPT_X86; LTCKPT_SCHEME := LTCKPT_DIFF_SCHEME; BITMAP_TYPE := BITMAP_PLAIN;
     LTCKPT_BITMAP_ALWAYS_ON := false |}.

Definition demo_bctx : Ctx.ltckpt_ctx_t := Ctx.ltckpt_ctx_init (λ _, None) (λ _, (0, true)) true "bitmap" Ctx.ltckpt_ctx_buff.
Definition demo_bstate (e : Z) : bstate :=
  {| bmem := λ x, if x =? 5000 then 11 else 0; ltckpt_epoch := e; ltckpt_bitmap_enabled := true;
     first_time := false; bctx := demo_bctx |}.
Definition demo_ckpt : bstate := (ret_or (demo_bstate 1, false)
  (bitmap_top_of_the_loop linux_bitmap (λ _, true) (demo_bstate 255))).1.

Lemma bitmap_preserves_checkpoint_witness :
  ∃ s1, bitmap_run_ops linux_bitmap demo_ckpt [OStore 5000 [7; 8]; OMemcpy 4990 [1; 2; 3]] = Ret s1 ∧
    restored linux_bitmap s1 5000 = 11 ∧ bmem s1 5000 = 7.
Proof.
  destruct (bitmap_preserves_checkpoint linux_bitmap eq_refl 0 (or_introl eq_refl) (λ _, true)
    (demo_bstate 255) demo_ckpt [OStore 5000 [7; 8]; OMemcpy 4990 [1; 2; 3]]) as (s1 & E & _ & H).
  - split; [simpl; lia|]. intros x Hx. rewrite (bitmap_eq linux_bitmap eq_refl 0) by done. cbn [bmem demo_bstate].
    unfold primary, base, psize in *. cbn in Hx |- *.
    match goal with |- context [?a =? 5000] => destruct (Z.eqb_spec a 5000) as [E|E] end; [|lia].
    exfalso. Z.div_mod_to_equations. lia.
  - reflexivity.
  - reflexivity.
  - repeat (apply Forall_cons_2; [split_and!|]); try (unfold primary; cbn; lia);
      try (unfold op_size; cbn; intros i Hi; unfold primary; cbn; lia); [|reflexivity|apply Forall_nil_2].
    unfold op_size. cbn. intros i Hi. unfold same_region. rewrite !align_7. Z.div_mod_to_equations. lia.
  - exists s1. split; [exact E|]. destruct (H 5000) as [H1 H2]; [unfold primary; cbn; lia|].
    rewrite H1, H2. split; reflexivity.
Defined.

Lemma memcpy_overwrites_checkpoint_witness :
  ∃ s', bitmap_memcpy_hook minix_bitmap (demo_bstate 1) 5000 4 = Ret s' ∧ restored minix_bitmap s' 5000 = 11.
Proof.
  destruct (memcpy_overwrites_checkpoint minix_bitmap eq_refl 0 (or_introl eq_refl) (demo_bstate 1) 5000 4)
    as (s' & E & H); [reflexivity|reflexivity|unfold primary; vm_compute; split; congruence|lia|vm_compute; congruence|].
  exists s'. split; [exact E|]. by apply H.
Defined.

Lemma memcpy_plain_not_saved_witness :
  ∃ s', bitmap_memcpy_hook plain_bitmap (demo_bstate 1) 5000 8 = Ret s' ∧
    bmem s' (ltckpt_primary_to_shadow plain_bitmap 5000) = 0.
Proof.
  destruct (memcpy_plain_not_saved plain_bitmap (demo_bstate 1) 5000) as (s' & E & _ & H);
    [reflexivity|reflexivity|reflexivity|lia|reflexivity|vm_compute; split; congruence|reflexivity|].
  exists s'. split; [exact E|]. rewrite H; [reflexivity|]. vm_compute. discriminate.
Defined.

Lemma shadow_roundtrip_witness :
  ltckpt_shadow_to_primary linux_bitmap (ltckpt_primary_to_shadow linux_bitmap 5000) = 5000.
Proof. apply (shadow_roundtrip linux_bitmap 5000). cbn. lia. Defined.
