(* ===== verification/BitmapTree.v ===== *)
(** * Tree bitmaps: [mechanisms/bitmap/bitmap_tree.h], [bitmap_tree_byte.h]

    The types [BITMAP_TREE] and [BITMAP_TREE_BYTE] of the dirty bitmap, on x86 with
    the [SYNC] scheme: stores only mark their region of 16 bytes, in three levels of
    which each summarises 16 bytes of the one below; a checkpoint walks down from the
    marks of the third level and copies the marked regions to the shadow space.

    Bitmap, shadow and program share one memory of bytes.  The two types differ in
    the width of a mark: a bit, or a byte. *)

From Stdlib Require Import ZArith Lia.
From stdpp Require Import base list numbers.
From S2P Require Import Prelude Runtime Bitmap.

(** ** Layout *)

Inductive tree_type := BITMAP_TREE | BITMAP_TREE_BYTE.
#[global] Instance tree_type_eq_dec : EqDecision tree_type.
Proof. solve_decision. Defined.

Definition TREE_SHADOW_SIZE : Z := 1536*1024*1024.
Definition TREE_SHADOW_OFFSET : Z := 1536*1024*1024.
Definition TREE_CLICK : Z := 16.

Section Tree.
Variable t : tree_type.

Definition TREE_CLICKS_PER_BYTE : Z := match t with BITMAP_TREE => 8 | BITMAP_TREE_BYTE => 1 end.
Definition LTCKPT_1ST_LEVEL_SIZE : Z := TREE_SHADOW_SIZE / TREE_CLICK / TREE_CLICKS_PER_BYTE.
Definition LTCKPT_2ND_LEVEL_SIZE : Z := LTCKPT_1ST_LEVEL_SIZE / TREE_CLICK / TREE_CLICKS_PER_BYTE.
Definition LTCKPT_3RD_LEVEL_SIZE : Z := LTCKPT_2ND_LEVEL_SIZE / TREE_CLICK / TREE_CLICKS_PER_BYTE.
Definition TREE_BITMAP_SIZE : Z := LTCKPT_3RD_LEVEL_SIZE + LTCKPT_2ND_LEVEL_SIZE + LTCKPT_1ST_LEVEL_SIZE.
Definition TREE_BITMAP_OFFSET : Z := align_down 12 (TREE_SHADOW_OFFSET - TREE_BITMAP_SIZE).
Definition LTCKPT_2ND_LEVEL_OFFSET : Z := TREE_BITMAP_OFFSET + LTCKPT_1ST_LEVEL_SIZE.
Definition LTCKPT_3RD_LEVEL_OFFSET : Z := LTCKPT_2ND_LEVEL_OFFSET + LTCKPT_2ND_LEVEL_SIZE.

(** ** Marking *)

(** [ltckpt_set_bit] of [bitmap_tree.h], with the scheme: the mark of each level, and
    under the [DIFF] scheme the old mark of the last one. *)
Definition or_bit (m : mem) (p bit : Z) : mem := mem_set m p (u8 (Z.lor (m p) (Z.shiftl 1 bit))).
Definition NTH_BIT (address : Z) : Z := Z.land address (8 - 1).
Definition set_bit_tree (c : scheme) (a : Z) (m : mem) : Z * mem :=
  let address := u32 a / 16 in
  let bit := NTH_BIT address in
  let offset := address / 8 in
  let m := or_bit m (TREE_BITMAP_OFFSET + offset) bit in
  let address := offset / 16 in
  let bit := NTH_BIT address in
  let offset := address / 8 in
  let m := or_bit m (LTCKPT_2ND_LEVEL_OFFSET + offset) bit in
  let address := offset / 16 in
  let bit := NTH_BIT address in
  let offset := address / 8 in
  let p := LTCKPT_3RD_LEVEL_OFFSET + offset in
  (match c with LTCKPT_DIFF_SCHEME => Z.land (m p) (Z.shiftl 1 bit) | LTCKPT_SYNC_SCHEME => 0 end, or_bit m p bit).

(** [ltckpt_set_bit] of [bitmap_tree_byte.h]. *)
Definition set_bit_tree_byte (a : Z) (m : mem) : Z * mem :=
  let address := Z.shiftr (u32 a) 4 in
  let m := mem_set m (address + TREE_BITMAP_OFFSET) 1 in
  let address := Z.shiftr address 4 in
  let m := mem_set m (address + LTCKPT_2ND_LEVEL_OFFSET) 1 in
  let address := Z.shiftr address 4 in
  (0, mem_set m (address + LTCKPT_3RD_LEVEL_OFFSET) 1).

Definition tree_set_bit (c : scheme) (a : Z) (m : mem) : Z * mem :=
  match t with BITMAP_TREE => set_bit_tree c a m | BITMAP_TREE_BYTE => set_bit_tree_byte a m end.

(** ** Copying what is marked *)

Definition word (m : mem) (p : Z) : Z := le_join (load_bytes m p 4).
Definition set_word (m : mem) (p v : Z) : mem := store_bytes m p (le_split 4 v).

(** How far a word is shifted per mark, and how many words are looked at. *)
Definition mark_shift : Z := match t with BITMAP_TREE => 1 | BITMAP_TREE_BYTE => 8 end.
Definition level_words : nat := match t with BITMAP_TREE => 4 | BITMAP_TREE_BYTE => 16 end.

(** The loop over the marks of the word at [p], which it shifts out: [set] is
    incremented, [f] called for a mark, and the word shifted, until it is zero. *)
Fixpoint word_loop (fuel : nat) (f : Z → mem → res mem) (p set : Z) (m : mem) : res mem :=
  if word m p =? 0 then Ret m
  else
    match fuel with
    | O => Stop FFuel
    | S fuel' =>
        let set := u32 (set + 1) in
        let! m := if Z.land (word m p) 1 =? 0 then Ret m else f set m in
        word_loop fuel' f p set (set_word m p (Z.shiftr (word m p) mark_shift))
    end.

(** The loop over [n] words from [p] on; [f] gets the address of the word. *)
Fixpoint words_loop (n : nat) (f : Z → Z → mem → res mem) (p : Z) (m : mem) : res mem :=
  match n with
  | O => Ret m
  | S n' => let! m := word_loop 32 (f p) p (u32 (-1)) m in words_loop n' f (p + 4) m
  end.

(** What a mark at [set] of the word at [p] stands for, one level down. *)
Definition below (offset p set : Z) : Z :=
  u32 (u32 (u32 (p - offset) * TREE_CLICKS_PER_BYTE * TREE_CLICK) + u32 (set * TREE_CLICK)).

Definition copy_click (p set : Z) (m : mem) : res mem :=
  let _data := below TREE_BITMAP_OFFSET p set in
  Ret (mem_copy m _data m (u32 (_data + TREE_SHADOW_OFFSET)) 16).

Definition ltckpt_check_first_level (c : scheme) (_fl : Z) (m : mem) : res mem :=
  match c with
  | LTCKPT_SYNC_SCHEME => words_loop level_words copy_click _fl m
  | LTCKPT_DIFF_SCHEME => Ret (store_bytes m _fl (replicate 16 0))
  end.

Definition ltckpt_check_second_level (c : scheme) (_sl : Z) (m : mem) : res mem :=
  words_loop level_words
    (λ p set m, ltckpt_check_first_level c (u32 (below LTCKPT_2ND_LEVEL_OFFSET p set + TREE_BITMAP_OFFSET)) m) _sl m.

(** [ltckpt_clear_bitmap] of [bitmap_tree.h]: words, which it clears. *)
Definition clear_tree (c : scheme) (m : mem) : res mem :=
  words_loop (Z.to_nat (LTCKPT_3RD_LEVEL_SIZE / 4))
    (λ p set m, ltckpt_check_second_level c (u32 (below LTCKPT_3RD_LEVEL_OFFSET p set + LTCKPT_2ND_LEVEL_OFFSET)) m)
    LTCKPT_3RD_LEVEL_OFFSET m.

(** [ltckpt_clear_bitmap] of [bitmap_tree_byte.h]: bytes, which it does not clear. *)
Fixpoint clear_bytes_loop (n : nat) (c : scheme) (tl : Z) (m : mem) : res mem :=
  match n with
  | O => Ret m
  | S n' =>
      let! m := if m tl =? 0 then Ret m
                else ltckpt_check_second_level c (u32 (u32 (u32 (tl - LTCKPT_3RD_LEVEL_OFFSET) * 16) + LTCKPT_2ND_LEVEL_OFFSET)) m in
      clear_bytes_loop n' c (tl + 1) m
  end.
Definition clear_tree_byte (c : scheme) (m : mem) : res mem :=
  clear_bytes_loop (Z.to_nat LTCKPT_3RD_LEVEL_SIZE) c LTCKPT_3RD_LEVEL_OFFSET m.

Definition tree_clear_bitmap (c : scheme) (m : mem) : res mem :=
  match t with BITMAP_TREE => clear_tree c m | BITMAP_TREE_BYTE => clear_tree_byte c m end.
End Tree.

(** ** Words and marks *)

Section Words.
Variable t : tree_type.

(** Marks per word, and words per level. *)
Definition marks_per_word : Z := 4 * TREE_CLICKS_PER_BYTE t.
Definition words1 : Z := LTCKPT_1ST_LEVEL_SIZE t / 4.
Definition words2 : Z := LTCKPT_2ND_LEVEL_SIZE t / 4.
Definition words3 : Z := LTCKPT_3RD_LEVEL_SIZE t / 4.

(** Mark [c] of a level whose words are [w]. *)
Definition marked (w : Z → Z) (c : Z) : bool :=
  Z.testbit (w (c / marks_per_word)) (mark_shift t * (c `mod` marks_per_word)).

End Words.

Lemma layout t :
  marks_per_word t * mark_shift t = 32 ∧ 1 ≤ marks_per_word t ≤ 32 ∧ 0 < mark_shift t ∧
  0 < TREE_BITMAP_OFFSET t ∧
  LTCKPT_2ND_LEVEL_OFFSET t = TREE_BITMAP_OFFSET t + 4 * words1 t ∧
  LTCKPT_3RD_LEVEL_OFFSET t = LTCKPT_2ND_LEVEL_OFFSET t + 4 * words2 t ∧
  LTCKPT_3RD_LEVEL_OFFSET t + 4 * words3 t ≤ TREE_SHADOW_OFFSET ∧
  TREE_SHADOW_SIZE = 16 * (marks_per_word t * words1 t) ∧
  words1 t = 4 * (marks_per_word t * words2 t) ∧ words2 t = 4 * (marks_per_word t * words3 t) ∧ 0 < words3 t ∧
  marks_per_word t = 4 * TREE_CLICKS_PER_BYTE t ∧
  TREE_SHADOW_SIZE = 1610612736 ∧ TREE_SHADOW_OFFSET = 1610612736.
Proof.
  destruct t; split_and!; try (vm_compute; reflexivity); vm_compute; discriminate.
Qed.

Lemma word_set_same m p v : 0 ≤ v < 2^32 → word (set_word m p v) p = v.
Proof.
  intros Hv. unfold word, set_word. replace 4%nat with (length (le_split 4 v)) at 2 by apply length_le_split.
  rewrite load_store_same. apply le_join_split_small; simpl; lia.
Qed.
Lemma word_set_other m p q v : q + 4 ≤ p ∨ p + 4 ≤ q → word (set_word m p v) q = word m q.
Proof. intros H. unfold word, set_word. f_equal. apply load_store_out. rewrite length_le_split. lia. Qed.
Lemma set_word_out m p v x : x < p ∨ p + 4 ≤ x → set_word m p v x = m x.
Proof. intros H. apply store_bytes_out. rewrite length_le_split. lia. Qed.
Lemma word_ext m m' p : (∀ x, p ≤ x < p + 4 → m' x = m x) → word m' p = word m p.
Proof. intros H. unfold word. f_equal. apply load_bytes_ext. intros x Hx. apply H. lia. Qed.

(** ** Walking over the words of a level *)

Definition mem_ok (m : mem) : Prop := ∀ x, 0 ≤ m x < 256.

Lemma store_bytes_ok m a bs : mem_ok m → Forall (λ b, 0 ≤ b < 256) bs → mem_ok (store_bytes m a bs).
Proof.
  intros Hm Hb x. destruct (decide (a ≤ x < a + Z.of_nat (length bs))) as [Hin|Hout]; [|rewrite store_bytes_out by lia; apply Hm].
  destruct (lookup_lt_is_Some_2 bs (Z.to_nat (x - a)) ltac:(lia)) as [b Hl]. pose proof (store_bytes_in m a bs _ _ Hl) as E.
  rewrite Z2Nat.id in E by lia. replace (a + (x - a)) with x in E by lia. rewrite E. exact (Forall_lookup_1 _ _ _ _ Hb Hl).
Qed.
Lemma le_split_ok n z : Forall (λ b, 0 ≤ b < 256) (le_split n z).
Proof. revert z. induction n as [|n IH]; intros z; simpl; constructor; [apply Z.mod_pos_bound; lia|apply IH]. Qed.
Lemma load_bytes_ok m a n : mem_ok m → Forall (λ b, 0 ≤ b < 256) (load_bytes m a n).
Proof. intros Hm. revert a. induction n as [|n IH]; intros a; simpl; constructor; [apply Hm|apply IH]. Qed.

(** Nothing changes outside of an area, and bytes stay bytes. *)
Definition frame (A : Z → Prop) (m m' : mem) : Prop := (∀ x, ¬ A x → m' x = m x) ∧ (mem_ok m → mem_ok m').

Lemma frame_refl A m : frame A m m.
Proof. done. Qed.
Lemma frame_trans A m1 m2 m3 : frame A m1 m2 → frame A m2 m3 → frame A m1 m3.
Proof. intros [H1 B1] [H2 B2]. split; [|auto]. intros x Hx. rewrite H2, H1; done. Qed.
Lemma frame_mono (A B : Z → Prop) m m' : (∀ x, A x → B x) → frame A m m' → frame B m m'.
Proof. intros HAB [H Hb]. split; [|done]. intros x Hx. apply H. auto. Qed.
Lemma frame_word A m m' p : frame A m m' → (∀ x, p ≤ x < p + 4 → ¬ A x) → word m' p = word m p.
Proof. intros [H _] Hp. apply word_ext. auto. Qed.
Lemma frame_set_word (A : Z → Prop) m p v : (∀ x, p ≤ x < p + 4 → A x) → frame A m (set_word m p v).
Proof.
  intros Hp. split.
  - intros x Hx. apply set_word_out. destruct (decide (p ≤ x < p + 4)); [by destruct Hx; apply Hp|lia].
  - intros Hm. apply store_bytes_ok; [done|apply le_split_ok].
Qed.
Lemma frame_copy (A : Z → Prop) m a b n : (∀ x, b ≤ x < b + Z.of_nat n → A x) → frame A m (mem_copy m a m b n).
Proof.
  intros Hp. split.
  - intros x Hx. apply mem_copy_out. destruct (decide (b ≤ x < b + Z.of_nat n)); [by destruct Hx; apply Hp|lia].
  - intros Hm. apply store_bytes_ok; [done|by apply load_bytes_ok].
Qed.

(** The words of a level, some of which are cleared. *)
Definition lev (off n : Z) (w : Z → Z) (m : mem) : Prop := ∀ j, 0 ≤ j < n → word m (off + 4 * j) = w j.
Definition mask (Zd : Z → bool) (w : Z → Z) : Z → Z := λ j, if Zd j then 0 else w j.
Definition in_words (off n : Z) (x : Z) : Prop := off ≤ x < off + 4 * n.

Lemma lev_frame A off n w m m' : frame A m m' → (∀ x, in_words off n x → ¬ A x) → lev off n w m → lev off n w m'.
Proof. intros HA Hd H j Hj. rewrite <- H by done. apply (frame_word A); [done|]. intros x Hx. apply Hd. unfold in_words. lia. Qed.

Lemma lev_set off n w m j v :
  lev off n w m → 0 ≤ j < n → 0 ≤ v < 2^32 → lev off n (λ i, if i =? j then v else w i) (set_word m (off + 4 * j) v).
Proof.
  intros H Hj Hv i Hi. destruct (Z.eqb_spec i j) as [->|]; [by apply word_set_same|]. rewrite word_set_other by lia. auto.
Qed.

Section Level.
Context (t : tree_type) (off n : Z) (w : Z → Z) (f : Z → Z → mem → res mem) (I : (Z → bool) → mem → Prop) (B : Z → Prop).
Context (Hw : ∀ j, 0 ≤ j < n → 0 ≤ w j < 2^32).
Context (HB : ∀ x, in_words off n x → ¬ B x).
(** [I G]: the marks in [G] have been handled.  It does not depend on the level's
    own words. *)
Context (Hset : ∀ G m j v, 0 ≤ j < n → I G m → I G (set_word m (off + 4 * j) v)).
Context (Hext : ∀ G G' m, (∀ g, 0 ≤ g < marks_per_word t * n → marked t w g = true → G' g = G g) → I G m → I G' m).
Context (Hf : ∀ G m j set, 0 ≤ j < n → 0 ≤ set < marks_per_word t → marked t w (marks_per_word t * j + set) = true → I G m →
  ∃ m', f (off + 4 * j) set m = Ret m' ∧ I (λ g, G g || (g =? marks_per_word t * j + set)) m' ∧ frame B m m').

Let area (x : Z) : Prop := B x ∨ in_words off n x.

Lemma mark_index j set : 0 ≤ set < marks_per_word t →
  (marks_per_word t * j + set) / marks_per_word t = j ∧ (marks_per_word t * j + set) `mod` marks_per_word t = set.
Proof. intros H. pose proof (layout t). split; [symmetry; apply (Z.div_unique _ _ _ set)|symmetry; apply (Z.mod_unique _ _ j)]; lia. Qed.

Definition shifted (j i : Z) : Z := Z.shiftr (w j) (mark_shift t * i).

Lemma shifted_range j i : 0 ≤ j < n → 0 ≤ i → 0 ≤ shifted j i < 2^32.
Proof.
  intros Hj Hi. pose proof (layout t). specialize (Hw j Hj). unfold shifted. rewrite Z.shiftr_div_pow2 by nia.
  assert (0 < 2 ^ (mark_shift t * i)) by (apply Z.pow_pos_nonneg; nia).
  split; [apply Z.div_pos; lia|]. apply Z.div_lt_upper_bound; [lia|]. nia.
Qed.

Lemma shifted_next j i : 0 ≤ i → Z.shiftr (shifted j i) (mark_shift t) = shifted j (i + 1).
Proof. intros Hi. pose proof (layout t). unfold shifted. rewrite Z.shiftr_shiftr by nia. f_equal. lia. Qed.

Lemma shifted_odd j i : 0 ≤ i < marks_per_word t →
  (Z.land (shifted j i) 1 =? 0) = negb (marked t w (marks_per_word t * j + i)).
Proof.
  intros Hi. pose proof (layout t). unfold marked. destruct (mark_index j i Hi) as [-> ->].
  change (Z.land (shifted j i) 1) with (Z.land (shifted j i) (Z.ones 1)). rewrite Z.land_ones by lia. change (2^1) with 2. rewrite <- Z.bit0_mod. unfold shifted.
  rewrite Z.shiftr_spec by lia. rewrite Z.add_0_l. by destruct (Z.testbit (w j) (mark_shift t * i)).
Qed.

(** Once the rest of the word is zero there are no more marks in it. *)
Lemma shifted_zero j i g : shifted j i = 0 → 0 ≤ i → i ≤ g < marks_per_word t → marked t w (marks_per_word t * j + g) = false.
Proof.
  intros Hz Hi Hg. pose proof (layout t). unfold marked. destruct (mark_index j g ltac:(lia)) as [-> ->].
  replace (mark_shift t * g) with (mark_shift t * (g - i) + mark_shift t * i) by lia.
  rewrite <- Z.shiftr_spec by nia. fold (shifted j i). rewrite Hz. apply Z.testbit_0_l.
Qed.

(** The marks of word [j] below [i] are handled as well. *)
Definition upto (G : Z → bool) (j i : Z) : Z → bool :=
  λ g, G g || ((g / marks_per_word t =? j) && (g `mod` marks_per_word t <? i)).

Lemma shifted_all j : 0 ≤ j < n → shifted j (marks_per_word t) = 0.
Proof.
  intros Hj. pose proof (layout t). unfold shifted. rewrite Z.shiftr_div_pow2 by nia.
  replace (mark_shift t * marks_per_word t) with 32 by nia. apply Z.div_small. auto.
Qed.

Lemma upto_done G j i m : 0 ≤ i ≤ marks_per_word t → shifted j i = 0 → I (upto G j i) m → I (upto G j (marks_per_word t)) m.
Proof.
  intros Hi Hz. apply Hext. intros g Hg Hm. unfold upto. f_equal. pose proof (layout t).
  destruct (Z.eqb_spec (g / marks_per_word t) j) as [Hj|]; [|done]. cbn [andb].
  pose proof (Z.div_mod g (marks_per_word t) ltac:(lia)) as Hd. rewrite Hj in Hd.
  pose proof (Z.mod_pos_bound g (marks_per_word t) ltac:(lia)) as Hb.
  destruct (Z.ltb_spec (g `mod` marks_per_word t) i), (Z.ltb_spec (g `mod` marks_per_word t) (marks_per_word t)); try done; try lia.
  rewrite Hd, (shifted_zero j i) in Hm by (done || lia). done.
Qed.

Lemma upto_step G j i (b : bool) m : 0 ≤ i < marks_per_word t →
  (if b then I (λ g, upto G j i g || (g =? marks_per_word t * j + i)) m else marked t w (marks_per_word t * j + i) = false ∧ I (upto G j i) m) →
  I (upto G j (i + 1)) m.
Proof.
  intros Hi H. pose proof (layout t).
  assert (Hone : ∀ g, (g =? marks_per_word t * j + i) = (g / marks_per_word t =? j) && (g `mod` marks_per_word t =? i)).
  { intros g. pose proof (Z.div_mod g (marks_per_word t) ltac:(lia)). destruct (mark_index j i Hi) as [E1 E2].
    destruct (Z.eqb_spec g (marks_per_word t * j + i)) as [->|Hne]; [by rewrite E1, E2, !Z.eqb_refl|].
    destruct (Z.eqb_spec (g / marks_per_word t) j) as [Ej|]; [|done]. destruct (Z.eqb_spec (g `mod` marks_per_word t) i) as [Ei|]; [|done].
    exfalso. apply Hne. rewrite Ej, Ei in *. lia. }
  destruct b; [|destruct H as [Hm H]]; revert H; apply Hext; intros g Hg Hmg; unfold upto.
  - rewrite <- orb_assoc. f_equal. rewrite Hone. destruct (g / marks_per_word t =? j); [|done]. cbn [andb].
    destruct (Z.ltb_spec (g `mod` marks_per_word t) (i + 1)), (Z.ltb_spec (g `mod` marks_per_word t) i), (Z.eqb_spec (g `mod` marks_per_word t) i); try done; lia.
  - f_equal. specialize (Hone g). destruct (Z.eqb_spec g (marks_per_word t * j + i)) as [E|]; [rewrite E in Hmg; congruence|].
    destruct (g / marks_per_word t =? j); [|done]. cbn [andb] in *.
    destruct (Z.ltb_spec (g `mod` marks_per_word t) (i + 1)), (Z.ltb_spec (g `mod` marks_per_word t) i); try done; try lia.
Qed.

Lemma word_loop_level G j : 0 ≤ j < n → ∀ fuel i m set,
  0 ≤ i ≤ marks_per_word t → marks_per_word t ≤ i + Z.of_nat fuel → u32 (set + 1) = i → I (upto G j i) m → word m (off + 4 * j) = shifted j i →
  ∃ m', word_loop t fuel (f (off + 4 * j)) (off + 4 * j) set m = Ret m' ∧ I (upto G j (marks_per_word t)) m' ∧
    word m' (off + 4 * j) = 0 ∧ (∀ k, 0 ≤ k < n → k ≠ j → word m' (off + 4 * k) = word m (off + 4 * k)) ∧ frame area m m'.
Proof.
  intros Hj. pose proof (layout t) as HL.
  assert (Hin : ∀ x, off + 4 * j ≤ x < off + 4 * j + 4 → area x) by (intros x Hx; right; unfold in_words; lia).
  assert (Hstop : ∀ fuel i m set, 0 ≤ i ≤ marks_per_word t → I (upto G j i) m → word m (off + 4 * j) = 0 → shifted j i = 0 →
    word_loop t fuel (f (off + 4 * j)) (off + 4 * j) set m = Ret m ∧ I (upto G j (marks_per_word t)) m).
  { intros fuel i m set Hi HI Hz Hs. split; [destruct fuel; cbn [word_loop]; by rewrite Hz|by eapply upto_done]. }
  induction fuel as [|fuel IH]; intros i m set Hi Hfuel Hset' HI Hword.
  - assert (i = marks_per_word t) as -> by lia. rewrite shifted_all in Hword by done.
    destruct (Hstop 0%nat (marks_per_word t) m set) as [-> HI']; [lia|done|done|by apply shifted_all|]. by exists m.
  - destruct (Z.eqb_spec (shifted j i) 0) as [Hz|Hz].
    { rewrite Hz in Hword. destruct (Hstop (S fuel) i m set) as [-> HI']; try done. by exists m. }
    assert (Hi' : i < marks_per_word t).
    { destruct (decide (i < marks_per_word t)); [done|]. replace i with (marks_per_word t) in Hz by lia. by rewrite shifted_all in Hz. }
    cbn [word_loop]. rewrite Hword, Hset'. destruct (Z.eqb_spec (shifted j i) 0); [done|].
    rewrite shifted_odd by lia.
    assert (Hstep : ∃ m1, (if negb (marked t w (marks_per_word t * j + i)) then Ret m else f (off + 4 * j) i m) = Ret m1 ∧
      I (upto G j (i + 1)) m1 ∧ frame B m m1).
    { destruct (marked t w (marks_per_word t * j + i)) eqn:Hmk; cbn [negb].
      - destruct (Hf _ _ j i Hj ltac:(lia) Hmk HI) as (m1 & -> & HI1 & Hfr). exists m1. split_and!; [done| |done].
        by apply (upto_step G j i true); [lia|].
      - exists m. split_and!; [done| |done]. apply (upto_step G j i false); [lia|done]. }
    destruct Hstep as (m1 & -> & HI1 & Hfr). cbn [res_bind].
    assert (Hw1 : ∀ k, 0 ≤ k < n → word m1 (off + 4 * k) = word m (off + 4 * k)).
    { intros k Hk. apply (frame_word B); [done|]. intros x Hx. apply HB. unfold in_words. lia. }
    rewrite Hw1, Hword, shifted_next by lia.
    assert (Hr := shifted_range j (i + 1) Hj ltac:(lia)).
    destruct (IH (i + 1) (set_word m1 (off + 4 * j) (shifted j (i + 1))) i) as (m' & -> & HI' & Hz' & Hk' & Hfr');
      [lia|lia|unfold u32; rewrite Z.mod_small; lia|by apply Hset|by apply word_set_same|].
    exists m'. split_and!; try done.
    + intros k Hk Hne. rewrite Hk' by done. rewrite word_set_other by lia. by apply Hw1.
    + eapply frame_trans; [|exact Hfr']. eapply frame_trans; [|by apply frame_set_word].
      eapply frame_mono; [|exact Hfr]. intros x Hx. by left.
Qed.

(** The words [j] to [j + k - 1] in turn.  Cleared words have been handled. *)
Definition within (G : Z → bool) (j k : Z) : Z → bool :=
  λ g, G g || ((j <=? g / marks_per_word t) && (g / marks_per_word t <? j + k)).

Lemma words_loop_level : ∀ k G Zd j m,
  0 ≤ j → j + Z.of_nat k ≤ n → I G m → lev off n (mask Zd w) m →
  (∀ g, 0 ≤ g < marks_per_word t * n → Zd (g / marks_per_word t) = true → marked t w g = true → G g = true) →
  ∃ m', words_loop t k f (off + 4 * j) m = Ret m' ∧ I (within G j (Z.of_nat k)) m' ∧
    lev off n (mask (λ i, Zd i || ((j <=? i) && (i <? j + Z.of_nat k))) w) m' ∧ frame area m m'.
Proof.
  pose proof (layout t) as HL. induction k as [|k IH]; intros G Zd j m Hj Hk HI Hl Hd; cbn [words_loop].
  { exists m. split_and!; [done| | |done].
    - revert HI. apply Hext. intros g Hg _. unfold within.
      destruct (Z.leb_spec j (g / marks_per_word t)), (Z.ltb_spec (g / marks_per_word t) (j + Z.of_nat 0)); cbn; rewrite ?orb_false_r; try done; lia.
    - intros i Hi. rewrite Hl by done. unfold mask.
      destruct (Z.leb_spec j i), (Z.ltb_spec i (j + Z.of_nat 0)); cbn; rewrite ?orb_false_r; try done; lia. }
  assert (Hj' : 0 ≤ j < n) by lia.
  assert (Hone : ∃ m1, word_loop t 32 (f (off + 4 * j)) (off + 4 * j) (u32 (-1)) m = Ret m1 ∧ I (upto G j (marks_per_word t)) m1 ∧
    lev off n (mask (λ i, Zd i || (i =? j)) w) m1 ∧ frame area m m1).
  { destruct (Zd j) eqn:Hz.
    - assert (Hzero : word m (off + 4 * j) = 0) by (rewrite Hl by done; unfold mask; by rewrite Hz).
      exists m. cbn [word_loop]. rewrite Hzero. split_and!; [done| | |done].
      + revert HI. apply Hext. intros g Hg Hm. unfold upto. destruct (Z.eqb_spec (g / marks_per_word t) j) as [E|]; cbn; [|by rewrite orb_false_r].
        by rewrite (Hd g) by (done || by rewrite E).
      + intros i Hi. rewrite Hl by done. unfold mask. destruct (Z.eqb_spec i j) as [->|]; [by rewrite Hz|by rewrite orb_false_r].
    - destruct (word_loop_level G j Hj' 32 0 m (u32 (-1))) as (m1 & -> & HI1 & Hz1 & Hk1 & Hf1);
        [lia|lia|done| |rewrite Hl by done; unfold mask, shifted; rewrite Hz, Z.mul_0_r; by rewrite Z.shiftr_0_r|].
      { revert HI. apply Hext. intros g Hg _. unfold upto. pose proof (Z.mod_pos_bound g (marks_per_word t) ltac:(lia)).
        destruct (Z.ltb_spec (g `mod` marks_per_word t) 0); [lia|]. by rewrite andb_false_r, orb_false_r. }
      exists m1. split_and!; try done. intros i Hi. unfold mask. destruct (Z.eqb_spec i j) as [->|Hne].
      + by rewrite orb_true_r.
      + rewrite Hk1, Hl by done. unfold mask. by rewrite orb_false_r. }
  destruct Hone as (m1 & -> & HI1 & Hl1 & Hf1). cbn [res_bind].
  replace (off + 4 * j + 4) with (off + 4 * (j + 1)) by lia.
  destruct (IH (upto G j (marks_per_word t)) (λ i, Zd i || (i =? j)) (j + 1) m1) as (m' & -> & HI' & Hl' & Hf'); [lia|lia|done|done| |].
  { intros g Hg Hz Hm. unfold upto. pose proof (Z.mod_pos_bound g (marks_per_word t) ltac:(lia)).
    apply orb_true_iff in Hz as [Hz| ->]; [by rewrite (Hd g)|]. destruct (Z.ltb_spec (g `mod` marks_per_word t) (marks_per_word t)); [|lia]. by rewrite orb_true_r. }
  exists m'. split_and!; [done| | |by eapply frame_trans].
  - revert HI'. apply Hext. intros g Hg _. unfold within, upto. rewrite <- orb_assoc. f_equal. pose proof (Z.mod_pos_bound g (marks_per_word t) ltac:(lia)).
    apply eq_true_iff_eq. rewrite orb_true_iff, !andb_true_iff, !Z.leb_le, !Z.ltb_lt, Z.eqb_eq. lia.
  - intros i Hi. rewrite Hl' by done. unfold mask. rewrite <- orb_assoc. replace ((i =? j) || (j + 1 <=? i) && (i <? j + 1 + Z.of_nat k)) with ((j <=? i) && (i <? j + Z.of_nat (S k))); [done|].
    apply eq_true_iff_eq. rewrite orb_true_iff, !andb_true_iff, !Z.leb_le, !Z.ltb_lt, Z.eqb_eq. lia.
Qed.
End Level.

(** ** The three levels *)

Section Walk.
Context (t : tree_type) (pr : mem) (sh : Z → Z) (w1 w2 : Z → Z).
(** The first two levels; only regions below the bitmap are marked, so that a
    group of words that is looked at lies within its level. *)
Context (Hw1 : ∀ j, 0 ≤ j < words1 t → 0 ≤ w1 j < 2^32) (Hw2 : ∀ j, 0 ≤ j < words2 t → 0 ≤ w2 j < 2^32).
Context (Hprim : ∀ c, 0 ≤ c < marks_per_word t * words1 t → marked t w1 c = true → 16 * c + 16 ≤ TREE_BITMAP_OFFSET t).
Context (Hroom : ∀ g, 0 ≤ g < marks_per_word t * words2 t → marked t w2 g = true → 4 * g + Z.of_nat (level_words t) ≤ words1 t).

(** The shadow after the regions in [D] were copied. *)
Definition sync (D : Z → bool) (x : Z) : Z := if D (x / 16) then pr x else sh x.
Definition prim (m : mem) : Prop := ∀ x, 0 ≤ x < TREE_BITMAP_OFFSET t → m x = pr x.
Definition shad (D : Z → bool) (m : mem) : Prop :=
  ∀ x, 0 ≤ x < TREE_SHADOW_SIZE → m (TREE_SHADOW_OFFSET + x) = sync D x.

Definition in_shadow (x : Z) : Prop := TREE_SHADOW_OFFSET ≤ x < TREE_SHADOW_OFFSET + TREE_SHADOW_SIZE.
Definition area1 (x : Z) : Prop := in_shadow x ∨ in_words (TREE_BITMAP_OFFSET t) (words1 t) x.
Definition area2 (x : Z) : Prop := area1 x ∨ in_words (LTCKPT_2ND_LEVEL_OFFSET t) (words2 t) x.

(** What the first level looks like when its words in [Zd] have been handled. *)
Definition copied1 (Zd : Z → bool) (c : Z) : bool := Zd (c / marks_per_word t) && marked t w1 c.
Definition one (Zd : Z → bool) (m : mem) : Prop :=
  prim m ∧ lev (TREE_BITMAP_OFFSET t) (words1 t) (mask Zd w1) m ∧ shad (copied1 Zd) m.

Lemma below_eq off j set : 0 ≤ j → 0 ≤ set → marks_per_word t * j + set < 2^28 →
  below t off (off + 4 * j) set = 16 * (marks_per_word t * j + set).
Proof.
  intros Hj Hs Hmax. unfold below, TREE_CLICK, u32. replace (off + 4 * j - off) with (4 * j) by lia.
  assert (Hx : 4 * j * TREE_CLICKS_PER_BYTE t * 16 = 16 * (marks_per_word t * j)) by (unfold marks_per_word; lia).
  assert (Hj' : 0 ≤ j ≤ marks_per_word t * j).
  { pose proof (layout t) as (_ & Hm & _). clear -Hj Hm. nia. }
  rewrite (Z.mod_small (4 * j)) by lia. rewrite Hx. rewrite (Z.mod_small (16 * (_ * _))) by lia.
  rewrite (Z.mod_small (set * 16)) by lia. rewrite Z.mod_small by lia. lia.
Qed.

(** A mark is one of its level. *)
Lemma mark_bound n j set : 0 ≤ j < n → 0 ≤ set < marks_per_word t →
  0 ≤ marks_per_word t * j + set < marks_per_word t * n.
Proof. intros Hj Hs. nia. Qed.

Lemma copy_click_spec G m j set :
  0 ≤ j < words1 t → 0 ≤ set < marks_per_word t → marked t w1 (marks_per_word t * j + set) = true →
  prim m → shad (λ c, G c && marked t w1 c) m →
  ∃ m', copy_click t (TREE_BITMAP_OFFSET t + 4 * j) set m = Ret m' ∧ prim m' ∧
    shad (λ c, (G c || (c =? marks_per_word t * j + set)) && marked t w1 c) m' ∧ frame in_shadow m m'.
Proof.
  intros Hj Hs Hm Hp Hsh. pose proof (layout t) as HL. set (c := marks_per_word t * j + set) in *.
  assert (Hc : 0 ≤ c < marks_per_word t * words1 t) by by apply mark_bound. specialize (Hprim c Hc Hm).
  unfold copy_click. rewrite below_eq by (fold c; lia). fold c.
  rewrite (u32_small (16 * c + TREE_SHADOW_OFFSET)) by lia.
  assert (Hfr : frame in_shadow m (mem_copy m (16 * c) m (16 * c + TREE_SHADOW_OFFSET) 16)).
  { apply frame_copy. unfold in_shadow. lia. }
  eexists. split_and!; [done| | |done].
  - intros x Hx. rewrite (proj1 Hfr) by (unfold in_shadow; lia). auto.
  - intros x Hx. unfold sync. destruct (Z.eqb_spec (x / 16) c) as [Hxc|Hxc].
    + rewrite orb_true_r, Hxc, Hm. cbn [andb]. assert (16 * c ≤ x < 16 * c + 16) by (rewrite <- Hxc; Z.div_mod_to_equations; lia).
      rewrite mem_copy_in by lia. rewrite <- Hp by lia. f_equal. lia.
    + rewrite orb_false_r. rewrite mem_copy_out by (Z.div_mod_to_equations; lia). by apply Hsh.
Qed.

Lemma first_level Zd m j0 :
  one Zd m → 0 ≤ j0 → j0 + Z.of_nat (level_words t) ≤ words1 t →
  ∃ m', ltckpt_check_first_level t LTCKPT_SYNC_SCHEME (TREE_BITMAP_OFFSET t + 4 * j0) m = Ret m' ∧
    one (λ j, Zd j || ((j0 <=? j) && (j <? j0 + Z.of_nat (level_words t)))) m' ∧ frame area1 m m'.
Proof.
  intros (Hp & Hl & Hs) Hj Hk. pose proof (layout t) as HL. unfold ltckpt_check_first_level.
  destruct (words_loop_level t (TREE_BITMAP_OFFSET t) (words1 t) w1 (copy_click t)
    (λ G m, prim m ∧ shad (λ c, G c && marked t w1 c) m) in_shadow Hw1) with
    (k := level_words t) (G := λ c, Zd (c / marks_per_word t)) (Zd := Zd) (j := j0) (m := m) as (m' & -> & (Hp' & Hs') & Hl' & Hf').
  - unfold in_words, in_shadow. lia.
  - intros G m1 j v Hj1 [Hp1 Hs1]. split; intros x Hx; rewrite set_word_out by lia; auto.
  - intros G G' m1 HG [Hp1 Hs1]. split; [done|]. intros x Hx. rewrite Hs1 by done. unfold sync.
    destruct (marked t w1 (x / 16)) eqn:Hm; [|by rewrite !andb_false_r]. rewrite HG; [done| |done].
    Z.div_mod_to_equations. lia.
  - intros G m1 j set Hj1 Hset Hm [Hp1 Hs1]. destruct (copy_click_spec G m1 j set Hj1 Hset Hm Hp1 Hs1) as (m2 & -> & ? & ? & ?).
    by exists m2.
  - done.
  - done.
  - by split.
  - done.
  - intros g Hg Hz _. done.
  - exists m'. split_and!; try done.
Qed.

(** The second level: [Zd] has the groups of the marks that were handled. *)
Definition covered2 (Zd : Z → bool) (G : Z → bool) : Prop :=
  ∀ g, 0 ≤ g < marks_per_word t * words2 t → marked t w2 g = true → G g = true → ∀ j, j / 4 = g → Zd j = true.
Definition two (Z2 : Z → bool) (m : mem) : Prop :=
  ∃ Zd, one Zd m ∧ lev (LTCKPT_2ND_LEVEL_OFFSET t) (words2 t) (mask Z2 w2) m ∧ covered2 Zd (λ g, Z2 (g / marks_per_word t)).

Lemma one_frame A Zd m m' : frame A m m' → (∀ x, A x → TREE_BITMAP_OFFSET t + 4 * words1 t ≤ x < TREE_SHADOW_OFFSET) → one Zd m → one Zd m'.
Proof.
  intros Hf HA (Hp & Hl & Hs). pose proof (layout t) as HL. split_and!.
  - intros x Hx. rewrite (proj1 Hf); [auto|]. intros ?%HA. lia.
  - eapply lev_frame; [exact Hf| |done]. intros x Hx ?%HA. unfold in_words in Hx. lia.
  - intros x Hx. rewrite (proj1 Hf); [auto|]. intros ?%HA. lia.
Qed.

Lemma second_level Z2 m j0 :
  two Z2 m → 0 ≤ j0 → j0 + Z.of_nat (level_words t) ≤ words2 t →
  ∃ m', ltckpt_check_second_level t LTCKPT_SYNC_SCHEME (LTCKPT_2ND_LEVEL_OFFSET t + 4 * j0) m = Ret m' ∧
    two (λ j, Z2 j || ((j0 <=? j) && (j <? j0 + Z.of_nat (level_words t)))) m' ∧ frame area2 m m'.
Proof.
  intros (Zd & Ho & Hl & Hcov) Hj Hk. pose proof (layout t) as HL. unfold ltckpt_check_second_level.
  destruct (words_loop_level t (LTCKPT_2ND_LEVEL_OFFSET t) (words2 t) w2
    (λ p set m, ltckpt_check_first_level t LTCKPT_SYNC_SCHEME (u32 (below t (LTCKPT_2ND_LEVEL_OFFSET t) p set + TREE_BITMAP_OFFSET t)) m)
    (λ G m, ∃ Zd, one Zd m ∧ covered2 Zd G) area1 Hw2) with
    (k := level_words t) (G := λ g, Z2 (g / marks_per_word t)) (Zd := Z2) (j := j0) (m := m) as (m' & -> & (Zd' & Ho' & Hc') & Hl' & Hf').
  - unfold in_words, area1, in_shadow, in_words. lia.
  - intros G m1 j v Hj1 (Zd1 & Ho1 & Hc1). exists Zd1. split; [|done].
    eapply (one_frame (in_words (LTCKPT_2ND_LEVEL_OFFSET t) (words2 t))); [|unfold in_words; lia|exact Ho1].
    apply frame_set_word. unfold in_words. lia.
  - intros G G' m1 HG (Zd1 & Ho1 & Hc1). exists Zd1. split; [done|]. intros g Hg Hm Hgg. apply Hc1; [done..|]. by rewrite <- HG.
  - intros G m1 j set Hj1 Hset Hm (Zd1 & Ho1 & Hc1). set (g := marks_per_word t * j + set) in *.
    assert (Hg : 0 ≤ g < marks_per_word t * words2 t) by by apply mark_bound. specialize (Hroom g Hg Hm).
    rewrite below_eq by (fold g; lia). fold g. rewrite u32_small by lia. replace (16 * g + TREE_BITMAP_OFFSET t) with (TREE_BITMAP_OFFSET t + 4 * (4 * g)) by lia.
    destruct (first_level Zd1 m1 (4 * g) Ho1) as (m2 & -> & Ho2 & Hf2); [lia|lia|]. eexists. split_and!; [done| |done].
    eexists. split; [exact Ho2|]. intros g' Hg' Hm' Hgg i Hi. apply orb_true_iff in Hgg as [Hgg|Hgg].
    + by rewrite (Hc1 g' Hg' Hm' Hgg i Hi).
    + apply Z.eqb_eq in Hgg. subst g'. apply orb_true_iff. right. apply andb_true_iff. rewrite Z.leb_le, Z.ltb_lt.
      assert (4 ≤ Z.of_nat (level_words t)) by (unfold level_words; destruct t; lia). Z.div_mod_to_equations. lia.
  - done.
  - done.
  - by exists Zd.
  - done.
  - intros g Hg Hz _. done.
  - exists m'. split_and!; [done| |done]. exists Zd'. split_and!; [done|done|]. exact Hc'.
Qed.
End Walk.

(** ** Clearing the bitmap *)

Section Clear.
Context (t : tree_type) (pr : mem) (sh : Z → Z) (w1 w2 : Z → Z).
Context (Hw1 : ∀ j, 0 ≤ j < words1 t → 0 ≤ w1 j < 2^32) (Hw2 : ∀ j, 0 ≤ j < words2 t → 0 ≤ w2 j < 2^32).
Context (Hprim : ∀ c, 0 ≤ c < marks_per_word t * words1 t → marked t w1 c = true → 16 * c + 16 ≤ TREE_BITMAP_OFFSET t).
Context (Hroom : ∀ g, 0 ≤ g < marks_per_word t * words2 t → marked t w2 g = true → 4 * g + Z.of_nat (level_words t) ≤ words1 t).
Context (Hup : ∀ j, 0 ≤ j < words1 t → w1 j ≠ 0 → marked t w2 (j / 4) = true).

(** The first two levels are clear and all marked regions are copied. *)
Definition cleared (m : mem) : Prop :=
  prim t pr m ∧ lev (TREE_BITMAP_OFFSET t) (words1 t) (λ _, 0) m ∧ lev (LTCKPT_2ND_LEVEL_OFFSET t) (words2 t) (λ _, 0) m ∧
  shad pr sh (marked t w1) m.

Lemma two_cleared Z2 m :
  two t pr sh w1 w2 Z2 m → (∀ j, 0 ≤ j < words2 t → w2 j ≠ 0 → Z2 j = true) → cleared m.
Proof.
  intros (Zd & (Hp & Hl & Hs) & Hl2 & Hcov) Hall. pose proof (layout t) as HL.
  assert (Hd : ∀ j, 0 ≤ j < words1 t → w1 j ≠ 0 → Zd j = true).
  { intros j Hj Hne. pose proof (Hup j Hj Hne) as Hm.
    assert (Hg : 0 ≤ j / 4 < marks_per_word t * words2 t) by (Z.div_mod_to_equations; lia).
    apply (Hcov (j / 4) Hg Hm); [|done]. apply Hall.
    - split; [apply Z.div_pos; lia|apply Z.div_lt_upper_bound; lia].
    - intros Hz. unfold marked in Hm. by rewrite Hz, Z.testbit_0_l in Hm. }
  split_and!; [done|..].
  - intros j Hj. rewrite Hl by done. unfold mask. destruct (Zd j) eqn:E; [done|]. destruct (Z.eqb_spec (w1 j) 0); [done|].
    rewrite Hd in E; done.
  - intros j Hj. rewrite Hl2 by done. unfold mask. destruct (Z2 j) eqn:E; [done|]. destruct (Z.eqb_spec (w2 j) 0); [done|].
    rewrite Hall in E; done.
  - intros x Hx. rewrite Hs by done. unfold sync, copied1. destruct (marked t w1 (x / 16)) eqn:Hm; [|by rewrite andb_false_r].
    rewrite Hd; [done| |].
    + assert (0 ≤ x / 16 < marks_per_word t * words1 t) by (Z.div_mod_to_equations; lia).
      split; [apply Z.div_pos; lia|apply Z.div_lt_upper_bound; lia].
    + intros Hz. unfold marked in Hm. by rewrite Hz, Z.testbit_0_l in Hm.
Qed.

Lemma two_frame A Z2 m m' :
  frame A m m' → (∀ x, A x → LTCKPT_3RD_LEVEL_OFFSET t ≤ x < TREE_SHADOW_OFFSET) → two t pr sh w1 w2 Z2 m → two t pr sh w1 w2 Z2 m'.
Proof.
  intros Hf HA (Zd & Ho & Hl & Hc). pose proof (layout t) as HL. exists Zd. split_and!; [| |done].
  - eapply one_frame; [exact Hf| |done]. intros x ?%HA. lia.
  - eapply lev_frame; [exact Hf| |done]. intros x Hx ?%HA. unfold in_words in Hx. lia.
Qed.

(** [BITMAP_TREE]: the third level in words. *)
Lemma clear_tree_spec w3 m :
  t = BITMAP_TREE →
  (∀ j, 0 ≤ j < words3 t → 0 ≤ w3 j < 2^32) → (∀ j, 0 ≤ j < words2 t → w2 j ≠ 0 → marked t w3 (j / 4) = true) →
  two t pr sh w1 w2 (λ _, false) m → lev (LTCKPT_3RD_LEVEL_OFFSET t) (words3 t) w3 m →
  ∃ m', clear_tree t LTCKPT_SYNC_SCHEME m = Ret m' ∧ cleared m' ∧ lev (LTCKPT_3RD_LEVEL_OFFSET t) (words3 t) (λ _, 0) m' ∧
    frame (λ x, area2 t x ∨ in_words (LTCKPT_3RD_LEVEL_OFFSET t) (words3 t) x) m m'.
Proof.
  intros Ht Hw3 Hup3 Htwo Hl3. pose proof (layout t) as HL. unfold clear_tree.
  assert (Hlw : Z.of_nat (level_words t) = 4) by (by rewrite Ht).
  destruct (words_loop_level t (LTCKPT_3RD_LEVEL_OFFSET t) (words3 t) w3
    (λ p set m, ltckpt_check_second_level t LTCKPT_SYNC_SCHEME (u32 (below t (LTCKPT_3RD_LEVEL_OFFSET t) p set + LTCKPT_2ND_LEVEL_OFFSET t)) m)
    (λ G m, ∃ Z2, two t pr sh w1 w2 Z2 m ∧ ∀ h, 0 ≤ h < marks_per_word t * words3 t → marked t w3 h = true → G h = true → ∀ j, j / 4 = h → Z2 j = true)
    (area2 t) Hw3) with
    (k := Z.to_nat (LTCKPT_3RD_LEVEL_SIZE t / 4)) (G := λ _ : Z, false) (Zd := λ _ : Z, false) (j := 0) (m := m) as (m' & Hrun & (Z2 & H2 & Hc') & Hl' & Hf').
  - unfold in_words, area2, area1, in_shadow, in_words. lia.
  - intros G m1 j v Hj1 (Z1 & Ho1 & Hc1). exists Z1. split; [|done].
    eapply (two_frame (in_words (LTCKPT_3RD_LEVEL_OFFSET t) (words3 t))); [|unfold in_words; lia|exact Ho1].
    apply frame_set_word. unfold in_words. lia.
  - intros G G' m1 HG (Z1 & Ho1 & Hc1). exists Z1. split; [done|]. intros g Hg Hm Hgg. apply Hc1; [done..|]. by rewrite <- HG.
  - intros G m1 j set Hj1 Hset Hm (Z1 & Ho1 & Hc1). set (h := marks_per_word t * j + set) in *.
    assert (Hh : 0 ≤ h < marks_per_word t * words3 t) by by apply mark_bound.
    rewrite below_eq by (fold h; lia). fold h. rewrite u32_small by lia.
    replace (16 * h + LTCKPT_2ND_LEVEL_OFFSET t) with (LTCKPT_2ND_LEVEL_OFFSET t + 4 * (4 * h)) by lia.
    destruct (second_level t pr sh w1 w2 Hw1 Hw2 Hprim Hroom Z1 m1 (4 * h) Ho1) as (m2 & -> & Ho2 & Hf2); [lia|lia|].
    eexists. split_and!; [done| |done].
    eexists. split; [exact Ho2|]. intros h' Hh' Hm' Hgg i Hi. apply orb_true_iff in Hgg as [Hgg|Hgg].
    + by rewrite (Hc1 h' Hh' Hm' Hgg i Hi).
    + apply Z.eqb_eq in Hgg. subst h'. apply orb_true_iff. right. apply andb_true_iff. rewrite Z.leb_le, Z.ltb_lt.
      Z.div_mod_to_equations. lia.
  - done.
  - unfold words3 in *. lia.
  - by exists (λ _, false).
  - done.
  - done.
  - assert (Hn : Z.of_nat (Z.to_nat (LTCKPT_3RD_LEVEL_SIZE t / 4)) = words3 t) by (unfold words3 in *; lia).
    rewrite Z.mul_0_r, Z.add_0_r in Hrun. exists m'. split_and!; [exact Hrun| | |exact Hf'].
    + eapply two_cleared; [exact H2|]. intros j Hj Hne. apply (Hc' (j / 4)); [|by apply Hup3| |done].
      * split; [apply Z.div_pos; lia|apply Z.div_lt_upper_bound; lia].
      * unfold within. rewrite Hn. cbn [orb]. apply andb_true_iff. rewrite Z.leb_le, Z.ltb_lt.
        assert (0 ≤ j / 4 < marks_per_word t * words3 t) by (Z.div_mod_to_equations; lia).
        split; [apply Z.div_pos; lia|apply Z.div_lt_upper_bound; lia].
    + intros j Hj. rewrite Hl' by done. unfold mask. rewrite Hn. cbn [orb].
      destruct (Z.leb_spec 0 j), (Z.ltb_spec j (0 + words3 t)); try done; lia.
Qed.

(** [BITMAP_TREE_BYTE]: the third level in bytes, which stay marked. *)
Lemma clear_bytes_spec n : ∀ tl Z2 m,
  (∀ q, tl ≤ q < tl + Z.of_nat n → m (LTCKPT_3RD_LEVEL_OFFSET t + q) ≠ 0 → 4 * q + Z.of_nat (level_words t) ≤ words2 t) →
  0 ≤ tl → tl + Z.of_nat n ≤ 4 * words3 t → two t pr sh w1 w2 Z2 m →
  ∃ m' Z2', clear_bytes_loop t n LTCKPT_SYNC_SCHEME (LTCKPT_3RD_LEVEL_OFFSET t + tl) m = Ret m' ∧ two t pr sh w1 w2 Z2' m' ∧
    frame (area2 t) m m' ∧ (∀ j, Z2 j = true → Z2' j = true) ∧
    (∀ j, tl ≤ j / 4 < tl + Z.of_nat n → m (LTCKPT_3RD_LEVEL_OFFSET t + j / 4) ≠ 0 → Z2' j = true).
Proof.
  pose proof (layout t) as HL. induction n as [|n IH]; intros tl Z2 m Hrm Htl Hmax H2; cbn [clear_bytes_loop].
  { exists m, Z2. split_and!; try done. intros j Hj. lia. }
  assert (Hlw : 4 ≤ Z.of_nat (level_words t)) by (unfold level_words; destruct t; lia).
  assert (Hstep : ∃ (m1 : mem) (Z1 : Z → bool), (if m (LTCKPT_3RD_LEVEL_OFFSET t + tl) =? 0 then Ret m else ltckpt_check_second_level t LTCKPT_SYNC_SCHEME
      (u32 (u32 (u32 (LTCKPT_3RD_LEVEL_OFFSET t + tl - LTCKPT_3RD_LEVEL_OFFSET t) * 16) + LTCKPT_2ND_LEVEL_OFFSET t)) m) = Ret m1 ∧
    two t pr sh w1 w2 Z1 m1 ∧ frame (area2 t) m m1 ∧ (∀ j, Z2 j = true → Z1 j = true) ∧
    (∀ j, j / 4 = tl → m (LTCKPT_3RD_LEVEL_OFFSET t + tl) ≠ 0 → Z1 j = true)).
  { destruct (Z.eqb_spec (m (LTCKPT_3RD_LEVEL_OFFSET t + tl)) 0) as [Hz|Hne]; [by exists m, Z2|].
    specialize (Hrm tl ltac:(lia) Hne). replace (LTCKPT_3RD_LEVEL_OFFSET t + tl - LTCKPT_3RD_LEVEL_OFFSET t) with tl by lia.
    rewrite (u32_small tl) by lia. rewrite (u32_small (tl * 16)) by lia. rewrite u32_small by lia.
    replace (tl * 16 + LTCKPT_2ND_LEVEL_OFFSET t) with (LTCKPT_2ND_LEVEL_OFFSET t + 4 * (4 * tl)) by lia.
    destruct (second_level t pr sh w1 w2 Hw1 Hw2 Hprim Hroom Z2 m (4 * tl) H2) as (m1 & -> & Ho1 & Hf1); [lia|lia|].
    exists m1. eexists. split_and!; [done|exact Ho1|done|intros j Hz2; cbv beta; by rewrite Hz2|].
    intros j Hj _. apply orb_true_iff. right. apply andb_true_iff. rewrite Z.leb_le, Z.ltb_lt. Z.div_mod_to_equations. lia. }
  destruct Hstep as (m1 & Z1 & Hr1 & H1 & Hf1 & Hk1 & Hd1).
  assert (Hsame : ∀ q, 0 ≤ q < 4 * words3 t → m1 (LTCKPT_3RD_LEVEL_OFFSET t + q) = m (LTCKPT_3RD_LEVEL_OFFSET t + q)).
  { intros q Hq. apply (proj1 Hf1). unfold area2, area1, in_shadow, in_words. lia. }
  destruct (IH (tl + 1) Z1 m1) as (m' & Z2' & Hr' & H2' & Hf' & Hk' & Hd'); [|lia|lia|done|].
  { intros q Hq. rewrite Hsame by lia. apply Hrm. lia. }
  rewrite Z.add_assoc in Hr'. exists m', Z2'. split_and!; [|done|by eapply frame_trans|by auto|].
  { etransitivity; [apply f_equal2; [exact Hr1|reflexivity]|exact Hr']. }
  intros j Hj Hne.
  destruct (decide (j / 4 = tl)) as [E|E]; [apply Hk', Hd1; [done|by rewrite <- E]|]. apply Hd'; [lia|]. by rewrite Hsame by lia.
Qed.
End Clear.

(** ** Marks in bytes *)

Lemma byte_testbit b r i : 0 ≤ b < 256 → 0 ≤ i →
  Z.testbit (b + 256 * r) i = if i <? 8 then Z.testbit b i else Z.testbit r (i - 8).
Proof.
  intros Hb Hi. destruct (Z.ltb_spec i 8).
  - rewrite <- (Z.mod_pow2_bits_low (b + 256 * r) 8) by lia. f_equal. change (2^8) with 256.
    rewrite Z.mul_comm, Z_mod_plus_full. by apply Z.mod_small.
  - replace i with (i - 8 + 8) at 1 by lia. rewrite <- Z.div_pow2_bits by lia. f_equal. change (2^8) with 256.
    rewrite Z.mul_comm, Z_div_plus_full by lia. rewrite Z.div_small by done. lia.
Qed.

Lemma word_eq m p : word m p = m p + 256 * (m (p + 1) + 256 * (m (p + 2) + 256 * (m (p + 3) + 256 * 0))).
Proof.
  unfold word. cbn [load_bytes le_join]. replace (p + 1 + 1) with (p + 2) by lia. by replace (p + 2 + 1) with (p + 3) by lia.
Qed.

Definition bytes_ok (m : mem) (p n : Z) : Prop := ∀ x, p ≤ x < p + n → 0 ≤ m x < 256.

Lemma word_range m p : bytes_ok m p 4 → 0 ≤ word m p < 2^32.
Proof.
  intros H. rewrite word_eq. pose proof (H p ltac:(lia)). pose proof (H (p + 1) ltac:(lia)).
  pose proof (H (p + 2) ltac:(lia)). pose proof (H (p + 3) ltac:(lia)). lia.
Qed.

Lemma word_zero m p : bytes_ok m p 4 → word m p = 0 ↔ ∀ i, 0 ≤ i < 4 → m (p + i) = 0.
Proof.
  intros H. rewrite word_eq. pose proof (H p ltac:(lia)). pose proof (H (p + 1) ltac:(lia)).
  pose proof (H (p + 2) ltac:(lia)). pose proof (H (p + 3) ltac:(lia)). split.
  - intros Hz i Hi. assert (i = 0 ∨ i = 1 ∨ i = 2 ∨ i = 3) as [->|[->|[->| ->]]] by lia; rewrite ?Z.add_0_r; lia.
  - intros Hz. pose proof (Hz 0 ltac:(lia)) as Hz0. rewrite Z.add_0_r in Hz0. rewrite Hz0, !Hz by lia. done.
Qed.

Lemma word_testbit m p i : bytes_ok m p 4 → 0 ≤ i < 32 → Z.testbit (word m p) i = Z.testbit (m (p + i / 8)) (i `mod` 8).
Proof.
  intros H Hi. rewrite word_eq. pose proof (H p ltac:(lia)). pose proof (H (p + 1) ltac:(lia)).
  pose proof (H (p + 2) ltac:(lia)). pose proof (H (p + 3) ltac:(lia)).
  assert (i < 8 ∨ 8 ≤ i < 16 ∨ 16 ≤ i < 24 ∨ 24 ≤ i) as Hc by lia.
  assert (Hq : ∀ k, 8 * k ≤ i < 8 * k + 8 → i / 8 = k ∧ i `mod` 8 = i - 8 * k).
  { intros k Hk. split; [symmetry; apply (Z.div_unique _ _ _ (i - 8 * k))|symmetry; apply (Z.mod_unique _ _ k)]; lia. }
  destruct Hc as [Hc|[Hc|[Hc|Hc]]].
  - destruct (Hq 0) as [-> ->]; [lia|]. rewrite byte_testbit by lia. destruct (Z.ltb_spec i 8); [|lia]. by rewrite Z.mul_0_r, Z.add_0_r, Z.sub_0_r.
  - destruct (Hq 1) as [-> ->]; [lia|]. do 2 rewrite byte_testbit by lia. destruct (Z.ltb_spec i 8), (Z.ltb_spec (i - 8) 8); try lia. f_equal.
  - destruct (Hq 2) as [-> ->]; [lia|]. do 3 rewrite byte_testbit by lia.
    destruct (Z.ltb_spec i 8), (Z.ltb_spec (i - 8) 8), (Z.ltb_spec (i - 8 - 8) 8); try lia. f_equal. lia.
  - destruct (Hq 3) as [-> ->]; [lia|]. do 4 rewrite byte_testbit by lia.
    destruct (Z.ltb_spec i 8), (Z.ltb_spec (i - 8) 8), (Z.ltb_spec (i - 8 - 8) 8), (Z.ltb_spec (i - 8 - 8 - 8) 8); try lia. f_equal. lia.
Qed.

Definition level_word (m : mem) (off : Z) : Z → Z := λ j, word m (off + 4 * j).
Definition bmark (t : tree_type) (off : Z) (m : mem) (c : Z) : bool :=
  Z.testbit (m (off + c / TREE_CLICKS_PER_BYTE t)) (c `mod` TREE_CLICKS_PER_BYTE t).

Lemma marked_bmark t off m n c :
  bytes_ok m off (4 * n) → 0 ≤ c < marks_per_word t * n → marked t (level_word m off) c = bmark t off m c.
Proof.
  intros Hok Hc. unfold marked, bmark, level_word. destruct t; cbn [TREE_CLICKS_PER_BYTE mark_shift marks_per_word] in *;
    change (marks_per_word BITMAP_TREE) with 32 in *; change (marks_per_word BITMAP_TREE_BYTE) with 4 in *.
  - pose proof (Z.mod_pos_bound c 32 ltac:(lia)). rewrite word_testbit; [| |lia].
    + f_equal; [f_equal|]; rewrite Z.mul_1_l; Z.div_mod_to_equations; lia.
    + intros x Hx. apply Hok. Z.div_mod_to_equations. lia.
  - pose proof (Z.mod_pos_bound c 4 ltac:(lia)). rewrite word_testbit; [| |lia].
    + rewrite Z.div_1_r, Z.mod_1_r. f_equal; [f_equal|]; Z.div_mod_to_equations; lia.
    + intros x Hx. apply Hok. Z.div_mod_to_equations. lia.
Qed.

(** Setting a mark. *)
Definition set_mark (t : tree_type) (off c : Z) (m : mem) : mem :=
  match t with
  | BITMAP_TREE => or_bit m (off + c / 8) (c `mod` 8)
  | BITMAP_TREE_BYTE => mem_set m (off + c) 1
  end.

Lemma set_mark_out t off c m x : x ≠ off + c / TREE_CLICKS_PER_BYTE t → set_mark t off c m x = m x.
Proof.
  intros H. unfold set_mark, or_bit, mem_set. destruct t; cbn [TREE_CLICKS_PER_BYTE] in H; rewrite ?Z.div_1_r in H.
  - by destruct (Z.eqb_spec x (off + c / 8)).
  - by destruct (Z.eqb_spec x (off + c)).
Qed.

Lemma set_mark_bits t off c m : 0 ≤ c → 0 ≤ m (off + c / TREE_CLICKS_PER_BYTE t) < 256 →
  0 ≤ set_mark t off c m (off + c / TREE_CLICKS_PER_BYTE t) < 256 ∧
  ∀ c', 0 ≤ c' → (bmark t off m c' = true ∨ c' = c → bmark t off (set_mark t off c m) c' = true) ∧
    (bmark t off (set_mark t off c m) c' = true → bmark t off m c' = true ∨ c' = c).
Proof.
  intros Hc Hm. unfold bmark, set_mark, or_bit, mem_set. destruct t; cbn [TREE_CLICKS_PER_BYTE] in *.
  - pose proof (Z.mod_pos_bound c 8 ltac:(lia)) as Hb. rewrite Z.eqb_refl. split; [unfold u8; apply Z.mod_pos_bound; lia|].
    intros c' Hc'. pose proof (Z.mod_pos_bound c' 8 ltac:(lia)) as Hb'.
    destruct (Z.eqb_spec (off + c' / 8) (off + c / 8)) as [E|E].
    + unfold u8. rewrite Z.mod_pow2_bits_low by lia. rewrite Z.lor_spec, Z.shiftl_spec by lia. replace (c' / 8) with (c / 8) by lia.
      rewrite orb_true_iff. destruct (decide (c' = c)) as [->|Hne].
      * rewrite Z.sub_diag. split; auto.
      * assert (c' `mod` 8 - c `mod` 8 ≠ 0) by (Z.div_mod_to_equations; lia).
        assert (Z.testbit 1 (c' `mod` 8 - c `mod` 8) = false) as ->.
        { destruct (Z.lt_total (c' `mod` 8 - c `mod` 8) 0) as [H1|[H1|H1]]; [by apply Z.testbit_neg_r|lia|].
          change 1 with (2^0). apply Z.pow2_bits_false. lia. }
        split; intuition congruence.
    + assert (c' ≠ c) by congruence. intuition congruence.
  - rewrite ?Z.div_1_r, ?Z.mod_1_r in *. rewrite Z.eqb_refl. split; [lia|]. intros c' Hc'. rewrite !Z.div_1_r, !Z.mod_1_r.
    destruct (Z.eqb_spec (off + c') (off + c)) as [E|E]; [split; intros; [done|right; lia]|].
    assert (c' ≠ c) by congruence. intuition congruence.
Qed.

(** ** The bitmap between two checkpoints *)

Section Inv.
Variable t : tree_type.

(** A region of the program, by its number. *)
Definition prim_click (c : Z) : Prop := 0 ≤ c ∧ 16 * c + 16 ≤ TREE_BITMAP_OFFSET t.

(** The regions marked since the last checkpoint are those in [D]. *)
Record tree_inv (D : Z → bool) (m : mem) : Prop := {
  ti_ok : mem_ok m;
  ti_D c : D c = true → prim_click c;
  ti_1 c : 0 ≤ c < marks_per_word t * words1 t → bmark t (TREE_BITMAP_OFFSET t) m c = D c;
  ti_up1 q : 0 ≤ q < 4 * words1 t → m (TREE_BITMAP_OFFSET t + q) ≠ 0 → bmark t (LTCKPT_2ND_LEVEL_OFFSET t) m (q / 16) = true;
  ti_up2 q : 0 ≤ q < 4 * words2 t → m (LTCKPT_2ND_LEVEL_OFFSET t + q) ≠ 0 → bmark t (LTCKPT_3RD_LEVEL_OFFSET t) m (q / 16) = true;
  ti_2 q : 0 ≤ q < 4 * words2 t → m (LTCKPT_2ND_LEVEL_OFFSET t + q) ≠ 0 →
    ∃ c, prim_click c ∧ c / (16 * TREE_CLICKS_PER_BYTE t) / TREE_CLICKS_PER_BYTE t = q;
  ti_3 q : 0 ≤ q < 4 * words3 t → m (LTCKPT_3RD_LEVEL_OFFSET t + q) ≠ 0 →
    ∃ c, prim_click c ∧ c / (16 * TREE_CLICKS_PER_BYTE t) / (16 * TREE_CLICKS_PER_BYTE t) / TREE_CLICKS_PER_BYTE t = q;
}.

Lemma bmark_nonzero off m c : bmark t off m c = true → m (off + c / TREE_CLICKS_PER_BYTE t) ≠ 0.
Proof. unfold bmark. intros H Hz. by rewrite Hz, Z.testbit_0_l in H. Qed.

Lemma bmark_ext off m m' c : m' (off + c / TREE_CLICKS_PER_BYTE t) = m (off + c / TREE_CLICKS_PER_BYTE t) → bmark t off m' c = bmark t off m c.
Proof. unfold bmark. by intros ->. Qed.
End Inv.

(** Numbers of the layout, for each type. *)
Lemma layout_values t :
  match t with
  | BITMAP_TREE => TREE_CLICKS_PER_BYTE t = 8 ∧ words1 t = 3145728 ∧ words2 t = 24576 ∧ words3 t = 192 ∧ TREE_BITMAP_OFFSET t = 1597927424 ∧ marks_per_word t = 32
  | BITMAP_TREE_BYTE => TREE_CLICKS_PER_BYTE t = 1 ∧ words1 t = 25165824 ∧ words2 t = 1572864 ∧ words3 t = 98304 ∧ TREE_BITMAP_OFFSET t = 1503264768 ∧ marks_per_word t = 4
  end.
Proof. destruct t; split_and!; vm_compute; reflexivity. Qed.

(** The marks above that of a region. *)
Definition mark2 (t : tree_type) (c : Z) : Z := c / (16 * TREE_CLICKS_PER_BYTE t).
Definition mark3 (t : tree_type) (c : Z) : Z := mark2 t c / (16 * TREE_CLICKS_PER_BYTE t).

Lemma mark_bounds t c : prim_click t c →
  0 ≤ c < marks_per_word t * words1 t ∧ 0 ≤ mark2 t c < marks_per_word t * words2 t ∧ 0 ≤ mark3 t c < marks_per_word t * words3 t ∧
  c / TREE_CLICKS_PER_BYTE t / 16 = mark2 t c ∧ mark2 t c / TREE_CLICKS_PER_BYTE t / 16 = mark3 t c ∧
  0 ≤ c / TREE_CLICKS_PER_BYTE t < 4 * words1 t ∧ 0 ≤ mark2 t c / TREE_CLICKS_PER_BYTE t < 4 * words2 t ∧
  0 ≤ mark3 t c / TREE_CLICKS_PER_BYTE t < 4 * words3 t ∧
  4 * mark2 t c + Z.of_nat (level_words t) ≤ words1 t ∧ 4 * mark3 t c + Z.of_nat (level_words t) ≤ words2 t.
Proof.
  unfold prim_click, mark3, mark2. pose proof (layout_values t) as HV. intros Hc.
  destruct t; destruct HV as (-> & -> & -> & -> & HO & ->); rewrite HO in Hc; cbn [level_words]; Z.div_mod_to_equations; lia.
Qed.

Lemma tree_set_bit_eq t a m : 0 ≤ a < 2^32 →
  ∀ x, (tree_set_bit t LTCKPT_SYNC_SCHEME a m).2 x =
  set_mark t (LTCKPT_3RD_LEVEL_OFFSET t) (mark3 t (a / 16)) (set_mark t (LTCKPT_2ND_LEVEL_OFFSET t) (mark2 t (a / 16))
    (set_mark t (TREE_BITMAP_OFFSET t) (a / 16) m)) x.
Proof.
  intros Ha x. unfold tree_set_bit, mark3, mark2. rewrite !Z.div_div by (destruct t; simpl; lia).
  destruct t; cbn [TREE_CLICKS_PER_BYTE set_mark].
  - unfold set_bit_tree, NTH_BIT. cbn [snd]. rewrite u32_small by lia. change (8 - 1) with (Z.ones 3). rewrite !Z.land_ones by lia.
    change (2^3) with 8. rewrite !Z.div_div by lia. done.
  - unfold set_bit_tree_byte. cbn [snd]. rewrite u32_small by lia. rewrite !Z.shiftr_div_pow2 by lia. change (2^4) with 16.
    rewrite !Z.div_div by lia. by rewrite !(Z.add_comm (_ / _)).
Qed.

(** The bytes of a level after its own mark and those of the others were set. *)
Lemma three_marks t c m : prim_click t c → mem_ok m →
  let m' := set_mark t (LTCKPT_3RD_LEVEL_OFFSET t) (mark3 t c) (set_mark t (LTCKPT_2ND_LEVEL_OFFSET t) (mark2 t c)
              (set_mark t (TREE_BITMAP_OFFSET t) c m)) in
  mem_ok m' ∧
  (∀ q, 0 ≤ q < 4 * words1 t → m' (TREE_BITMAP_OFFSET t + q) = set_mark t (TREE_BITMAP_OFFSET t) c m (TREE_BITMAP_OFFSET t + q)) ∧
  (∀ q, 0 ≤ q < 4 * words2 t → m' (LTCKPT_2ND_LEVEL_OFFSET t + q) = set_mark t (LTCKPT_2ND_LEVEL_OFFSET t) (mark2 t c) m (LTCKPT_2ND_LEVEL_OFFSET t + q)) ∧
  (∀ q, 0 ≤ q < 4 * words3 t → m' (LTCKPT_3RD_LEVEL_OFFSET t + q) = set_mark t (LTCKPT_3RD_LEVEL_OFFSET t) (mark3 t c) m (LTCKPT_3RD_LEVEL_OFFSET t + q)) ∧
  (∀ x, x < TREE_BITMAP_OFFSET t ∨ TREE_SHADOW_OFFSET ≤ x → m' x = m x).
Proof.
  intros Hc Hm m'. pose proof (layout t) as HL. destruct (mark_bounds t c Hc) as (B1 & B2 & B3 & _ & _ & Q1 & Q2 & Q3 & _).
  assert (Hloc : ∀ off c m1 m2, m1 (off + c / TREE_CLICKS_PER_BYTE t) = m2 (off + c / TREE_CLICKS_PER_BYTE t) →
    set_mark t off c m1 (off + c / TREE_CLICKS_PER_BYTE t) = set_mark t off c m2 (off + c / TREE_CLICKS_PER_BYTE t)).
  { intros off c0 m1 m2 E. unfold set_mark, or_bit, mem_set. clear -E. destruct t; cbn [TREE_CLICKS_PER_BYTE] in *; rewrite ?Z.div_1_r in *; by rewrite ?Z.eqb_refl, ?E. }
  assert (Hsame : ∀ off c m1 m2 x, m1 x = m2 x → set_mark t off c m1 x = set_mark t off c m2 x).
  { intros off c0 m1 m2 x E. destruct (decide (x = off + c0 / TREE_CLICKS_PER_BYTE t)) as [->|Hne]; [by apply Hloc|]. by rewrite !set_mark_out. }
  assert (Hok : ∀ off c m, 0 ≤ c → mem_ok m → mem_ok (set_mark t off c m)).
  { intros off c0 m0 H0 Hm0 x. destruct (decide (x = off + c0 / TREE_CLICKS_PER_BYTE t)) as [->|Hne]; [by apply set_mark_bits|].
    rewrite set_mark_out by done. apply Hm0. }
  unfold m'. split_and!; [repeat apply Hok; (done || lia)|..].
  - intros q Hq. rewrite !(set_mark_out t (LTCKPT_3RD_LEVEL_OFFSET t)), (set_mark_out t (LTCKPT_2ND_LEVEL_OFFSET t)) by lia. done.
  - intros q Hq. rewrite (set_mark_out t (LTCKPT_3RD_LEVEL_OFFSET t)) by lia. apply Hsame. rewrite set_mark_out by lia. done.
  - intros q Hq. apply Hsame. rewrite !set_mark_out by lia. done.
  - intros x Hx. rewrite !set_mark_out by lia. done.
Qed.

Lemma inv_set_bit t D m a : tree_inv t D m → 0 ≤ a → prim_click t (a / 16) →
  tree_inv t (λ c, D c || (c =? a / 16)) (tree_set_bit t LTCKPT_SYNC_SCHEME a m).2 ∧
  (∀ x, x < TREE_BITMAP_OFFSET t ∨ TREE_SHADOW_OFFSET ≤ x → (tree_set_bit t LTCKPT_SYNC_SCHEME a m).2 x = m x).
Proof.
  intros [Hok HD H1 Hu1 Hu2 H2 H3] Ha Hc. pose proof (layout t) as HL. set (c := a / 16) in *.
  assert (Ha32 : 0 ≤ a < 2^32).
  { pose proof (mark_bounds t c Hc) as (B1 & _). unfold c in B1. Z.div_mod_to_equations. lia. }
  pose proof (tree_set_bit_eq t a m Ha32) as Heq. fold c in Heq. set (m' := (tree_set_bit t LTCKPT_SYNC_SCHEME a m).2) in *.
  destruct (three_marks t c m Hc Hok) as (Hok' & M1 & M2 & M3 & Hout).
  destruct (mark_bounds t c Hc) as (B1 & B2 & B3 & E2 & E3 & Q1 & Q2 & Q3 & _).
  set (m3 := set_mark t _ _ _) in *.
  destruct (set_mark_bits t (TREE_BITMAP_OFFSET t) c m) as [_ S1]; [lia|apply Hok|].
  destruct (set_mark_bits t (LTCKPT_2ND_LEVEL_OFFSET t) (mark2 t c) m) as [_ S2]; [lia|apply Hok|].
  destruct (set_mark_bits t (LTCKPT_3RD_LEVEL_OFFSET t) (mark3 t c) m) as [_ S3]; [lia|apply Hok|].
  assert (Hdiv : ∀ k n, 0 ≤ k < marks_per_word t * n → 0 ≤ k / TREE_CLICKS_PER_BYTE t < 4 * n).
  { intros k n Hk. assert (0 < TREE_CLICKS_PER_BYTE t) by lia. split; [apply Z.div_pos; lia|apply Z.div_lt_upper_bound; lia]. }
  assert (Hup : ∀ q n, 0 ≤ q < 4 * (4 * (marks_per_word t * n)) → 0 ≤ q / 16 < marks_per_word t * n) by (intros; Z.div_mod_to_equations; lia).
  split; [|intros x Hx; rewrite Heq; by apply Hout]. split.
  - intros x. rewrite Heq. apply Hok'.
  - intros k [Hk|Hk%Z.eqb_eq]%orb_true_iff; [auto|]. by rewrite Hk.
  - intros k Hk. rewrite (bmark_ext t _ (set_mark t (TREE_BITMAP_OFFSET t) c m) m') by (rewrite Heq; apply M1, Hdiv; lia).
    rewrite <- H1 by done. apply eq_true_iff_eq. rewrite orb_true_iff, Z.eqb_eq. destruct (S1 k) as [S1a S1b]; [lia|]. by split.
  - intros q Hq. rewrite Heq, M1 by done. intros Hne.
    rewrite (bmark_ext t _ (set_mark t (LTCKPT_2ND_LEVEL_OFFSET t) (mark2 t c) m) m') by (rewrite Heq; apply M2, Hdiv, Hup; lia).
    apply S2; [apply Z.div_pos; lia|]. destruct (decide (q = c / TREE_CLICKS_PER_BYTE t)) as [->|Hq']; [by right|left].
    apply Hu1; [done|]. rewrite set_mark_out in Hne by lia. done.
  - intros q Hq. rewrite Heq, M2 by done. intros Hne.
    rewrite (bmark_ext t _ (set_mark t (LTCKPT_3RD_LEVEL_OFFSET t) (mark3 t c) m) m') by (rewrite Heq; apply M3, Hdiv, Hup; lia).
    apply S3; [apply Z.div_pos; lia|]. destruct (decide (q = mark2 t c / TREE_CLICKS_PER_BYTE t)) as [->|Hq']; [by right|left].
    apply Hu2; [done|]. rewrite set_mark_out in Hne by lia. done.
  - intros q Hq. rewrite Heq, M2 by done. intros Hne. destruct (decide (q = mark2 t c / TREE_CLICKS_PER_BYTE t)) as [->|Hq']; [by exists c|].
    apply H2; [done|]. rewrite set_mark_out in Hne by lia. done.
  - intros q Hq. rewrite Heq, M3 by done. intros Hne. destruct (decide (q = mark3 t c / TREE_CLICKS_PER_BYTE t)) as [->|Hq']; [by exists c|].
    apply H3; [done|]. rewrite set_mark_out in Hne by lia. done.
Qed.

(** Writes of the program and of the shadow do not matter to the bitmap. *)
Lemma inv_ext t D m m' : tree_inv t D m → mem_ok m' →
  (∀ x, TREE_BITMAP_OFFSET t ≤ x < TREE_SHADOW_OFFSET → m' x = m x) → tree_inv t D m'.
Proof.
  intros [Hok HD H1 Hu1 Hu2 H2 H3] Hok' He. pose proof (layout t) as HL.
  assert (Hdiv : ∀ k n, 0 ≤ k < marks_per_word t * n → 0 ≤ k / TREE_CLICKS_PER_BYTE t < 4 * n).
  { intros k n Hk. assert (0 < TREE_CLICKS_PER_BYTE t) by lia. split; [apply Z.div_pos; lia|apply Z.div_lt_upper_bound; lia]. }
  assert (Hup : ∀ q n, 0 ≤ q < 4 * (4 * (marks_per_word t * n)) → 0 ≤ q / 16 < marks_per_word t * n) by (intros; Z.div_mod_to_equations; lia).
  split; try done.
  - intros c Hc. rewrite (bmark_ext t _ m m'); [auto|]. apply He. pose proof (Hdiv c (words1 t) ltac:(lia)). lia.
  - intros q Hq. rewrite He by lia. intros Hne. rewrite (bmark_ext t _ m m'); [auto|]. apply He.
    pose proof (Hdiv (q / 16) (words2 t) ltac:(apply Hup; lia)). lia.
  - intros q Hq. rewrite He by lia. intros Hne. rewrite (bmark_ext t _ m m'); [auto|]. apply He.
    pose proof (Hdiv (q / 16) (words3 t) ltac:(apply Hup; lia)). lia.
  - intros q Hq. rewrite He by lia. auto.
  - intros q Hq. rewrite He by lia. auto.
Qed.

(** The word loops see the same marks. *)
Section ClearInv.
Context (t : tree_type) (D : Z → bool) (m : mem) (Hinv : tree_inv t D m).

Let w1 := level_word m (TREE_BITMAP_OFFSET t).
Let w2 := level_word m (LTCKPT_2ND_LEVEL_OFFSET t).
Let w3 := level_word m (LTCKPT_3RD_LEVEL_OFFSET t).

Lemma ok_bytes p n : bytes_ok m p n.
Proof. intros x _. apply Hinv. Qed.

Lemma words_in_range off j : 0 ≤ level_word m off j < 2^32.
Proof. apply word_range, ok_bytes. Qed.

Lemma w1_marked c : 0 ≤ c < marks_per_word t * words1 t → marked t w1 c = D c.
Proof. intros Hc. unfold w1. rewrite (marked_bmark t _ m (words1 t)) by (done || apply ok_bytes). by apply (ti_1 _ _ _ Hinv). Qed.

Lemma nonzero_word off j : level_word m off j ≠ 0 → ∃ i, 0 ≤ i < 4 ∧ m (off + (4 * j + i)) ≠ 0.
Proof.
  intros Hne. destruct (decide (m (off + (4 * j + 0)) = 0)) as [Z0|]; [|by exists 0].
  destruct (decide (m (off + (4 * j + 1)) = 0)) as [Z1|]; [|by exists 1].
  destruct (decide (m (off + (4 * j + 2)) = 0)) as [Z2|]; [|by exists 2].
  destruct (decide (m (off + (4 * j + 3)) = 0)) as [Z3|]; [|by exists 3].
  exfalso. apply Hne. unfold level_word. apply word_zero; [apply ok_bytes|]. intros i Hi. rewrite <- Z.add_assoc.
  assert (i = 0 ∨ i = 1 ∨ i = 2 ∨ i = 3) as [->|[->|[->| ->]]] by lia; done.
Qed.

Lemma w1_up j : 0 ≤ j < words1 t → w1 j ≠ 0 → marked t w2 (j / 4) = true.
Proof.
  intros Hj (i & Hi & Hne)%nonzero_word. pose proof (layout t) as HL. apply (ti_up1 _ _ _ Hinv) in Hne; [|lia].
  replace ((4 * j + i) / 16) with (j / 4) in Hne by (Z.div_mod_to_equations; lia).
  unfold w2. rewrite (marked_bmark t _ m (words2 t)); [done|apply ok_bytes|]. Z.div_mod_to_equations. lia.
Qed.

Lemma w2_up j : 0 ≤ j < words2 t → w2 j ≠ 0 → marked t w3 (j / 4) = true.
Proof.
  intros Hj (i & Hi & Hne)%nonzero_word. pose proof (layout t) as HL. apply (ti_up2 _ _ _ Hinv) in Hne; [|lia].
  replace ((4 * j + i) / 16) with (j / 4) in Hne by (Z.div_mod_to_equations; lia).
  unfold w3. rewrite (marked_bmark t _ m (words3 t)); [done|apply ok_bytes|]. Z.div_mod_to_equations. lia.
Qed.

Lemma w1_prim c : 0 ≤ c < marks_per_word t * words1 t → marked t w1 c = true → 16 * c + 16 ≤ TREE_BITMAP_OFFSET t.
Proof. intros Hc. rewrite w1_marked by done. intros H%(ti_D _ _ _ Hinv). apply H. Qed.

Lemma w2_room g : 0 ≤ g < marks_per_word t * words2 t → marked t w2 g = true → 4 * g + Z.of_nat (level_words t) ≤ words1 t.
Proof.
  intros Hg Hm. unfold w2 in Hm. rewrite (marked_bmark t _ m (words2 t)) in Hm by (done || apply ok_bytes).
  apply bmark_nonzero in Hm. apply (ti_2 _ _ _ Hinv) in Hm.
  - destruct Hm as (c & Hc & Hq). destruct (mark_bounds t c Hc) as (_ & _ & _ & _ & _ & _ & _ & _ & Hr & _). unfold mark2 in Hr.
    clear Hinv w1 w2 w3. pose proof (layout_values t) as HV. destruct t; destruct HV as (E1 & E2 & E3 & E4 & E5 & E6); rewrite ?E1, ?E2, ?E3, ?E6 in *; cbn [level_words] in *; [lia|].
    rewrite !Z.div_1_r in Hq. lia.
  - pose proof (layout t) as HL. assert (0 < TREE_CLICKS_PER_BYTE t) by lia. split; [apply Z.div_pos; lia|apply Z.div_lt_upper_bound; lia].
Qed.

Lemma start_two : two t m (λ x, m (TREE_SHADOW_OFFSET + x)) w1 w2 (λ _, false) m.
Proof. exists (λ _, false). split_and!; done. Qed.
End ClearInv.

Lemma clear_run t D m : tree_inv t D m →
  ∃ m', tree_clear_bitmap t LTCKPT_SYNC_SCHEME m = Ret m' ∧
    cleared t m (λ x, m (TREE_SHADOW_OFFSET + x)) (level_word m (TREE_BITMAP_OFFSET t)) m' ∧ mem_ok m' ∧
    ∀ q, 0 ≤ q < 4 * words3 t → m' (LTCKPT_3RD_LEVEL_OFFSET t + q) ≠ 0 → m (LTCKPT_3RD_LEVEL_OFFSET t + q) ≠ 0.
Proof.
  intros Hinv. pose proof (layout t) as HL. pose proof (words_in_range t D m Hinv) as Hw. pose proof (start_two t m) as Hstart.
  set (w1 := level_word m (TREE_BITMAP_OFFSET t)) in *. set (w2 := level_word m (LTCKPT_2ND_LEVEL_OFFSET t)) in *.
  assert (Hw1 : ∀ j, 0 ≤ j < words1 t → 0 ≤ w1 j < 2^32) by (intros; apply Hw).
  assert (Hw2 : ∀ j, 0 ≤ j < words2 t → 0 ≤ w2 j < 2^32) by (intros; apply Hw).
  pose proof (w1_prim t D m Hinv) as Hp1. pose proof (w2_room t D m Hinv) as Hr2. pose proof (w1_up t D m Hinv) as Hu1.
  pose proof (w2_up t D m Hinv) as Hu2. fold w1 in Hp1, Hu1. fold w2 in Hr2, Hu1, Hu2.
  destruct (decide (t = BITMAP_TREE)) as [Ht|Ht].
  - destruct (clear_tree_spec t m (λ x, m (TREE_SHADOW_OFFSET + x)) w1 w2 Hw1 Hw2 Hp1 Hr2 Hu1 (level_word m (LTCKPT_3RD_LEVEL_OFFSET t)) m Ht)
      as (m' & Hrun & Hc & Hl3 & Hf); [intros; apply Hw|done|done|done|].
    exists m'. split_and!; [by rewrite <- Hrun, Ht|done|by apply Hf, (ti_ok _ _ _ Hinv)|].
    intros q Hq Hne. exfalso. apply Hne. specialize (Hl3 (q / 4) ltac:(Z.div_mod_to_equations; lia)).
    rewrite word_zero in Hl3 by (intros x _; by apply Hf, (ti_ok _ _ _ Hinv)). specialize (Hl3 (q `mod` 4) ltac:(apply Z.mod_pos_bound; lia)).
    rewrite <- Hl3. f_equal. Z.div_mod_to_equations. lia.
  - assert (Htb : t = BITMAP_TREE_BYTE) by (by destruct t).
    assert (H16 : words2 t = 16 * words3 t) by (rewrite Htb; vm_compute; reflexivity).
    assert (Hsize : Z.of_nat (Z.to_nat (LTCKPT_3RD_LEVEL_SIZE t)) = 4 * words3 t) by (rewrite Htb; vm_compute; reflexivity).
    destruct (clear_bytes_spec t m (λ x, m (TREE_SHADOW_OFFSET + x)) w1 w2 Hw1 Hw2 Hp1 Hr2 Hu1 (Z.to_nat (LTCKPT_3RD_LEVEL_SIZE t)) 0 (λ _, false) m)
      as (m' & Z2 & Hrun & H2 & Hf & _ & Hcov); [|lia|lia|done|].
    { intros q Hq Hne. apply (ti_3 _ _ _ Hinv) in Hne as (c & Hc & E); [|lia].
      destruct (mark_bounds t c Hc) as (_ & _ & _ & _ & _ & _ & _ & _ & _ & Hr). unfold mark3, mark2 in Hr. rewrite Htb in E. cbn [TREE_CLICKS_PER_BYTE] in E.
      rewrite Z.div_1_r in E. by rewrite <- E, Htb in *. }
    rewrite Z.add_0_r in Hrun. exists m'. split_and!.
    + rewrite <- Hrun. by rewrite Htb.
    + eapply two_cleared; [exact Hu1|exact H2|]. intros j Hj Hne. apply Hcov; [rewrite Hsize; Z.div_mod_to_equations; lia|].
      specialize (Hu2 j Hj Hne). rewrite (marked_bmark t _ m (words3 t)) in Hu2;
        [|by apply (ok_bytes t D)|Z.div_mod_to_equations; lia]. apply bmark_nonzero in Hu2. rewrite Htb in Hu2 at 2. cbn [TREE_CLICKS_PER_BYTE] in Hu2.
      by rewrite Z.div_1_r in Hu2.
    + apply Hf, (ti_ok _ _ _ Hinv).
    + intros q Hq Hne. rewrite (proj1 Hf) in Hne; [done|]. unfold area2, area1, in_shadow, in_words. lia.
Qed.

(** Clearing ends, leaves no mark in the first two levels, copies exactly the marked
    regions to the shadow and changes nothing else. *)
Lemma inv_clear t D m : tree_inv t D m →
  ∃ m', tree_clear_bitmap t LTCKPT_SYNC_SCHEME m = Ret m' ∧ tree_inv t (λ _, false) m' ∧
    (∀ x, 0 ≤ x < TREE_BITMAP_OFFSET t → m' x = m x) ∧
    (∀ x, 0 ≤ x < TREE_SHADOW_SIZE → m' (TREE_SHADOW_OFFSET + x) = if D (x / 16) then m x else m (TREE_SHADOW_OFFSET + x)).
Proof.
  intros Hinv. pose proof (layout t) as HL.
  set (w1 := level_word m (TREE_BITMAP_OFFSET t)). set (w2 := level_word m (LTCKPT_2ND_LEVEL_OFFSET t)).
  set (sh := λ x, m (TREE_SHADOW_OFFSET + x)).
  assert (Hmain : ∃ m', tree_clear_bitmap t LTCKPT_SYNC_SCHEME m = Ret m' ∧ cleared t m sh w1 m' ∧ mem_ok m' ∧
    ∀ q, 0 ≤ q < 4 * words3 t → m' (LTCKPT_3RD_LEVEL_OFFSET t + q) ≠ 0 → m (LTCKPT_3RD_LEVEL_OFFSET t + q) ≠ 0).
  { by apply (clear_run t D). }
  destruct Hmain as (m' & Hrun & (Hp & Hl1 & Hl2 & Hs) & Hok' & H3).
  assert (Hz : ∀ off n q, lev off n (λ _, 0) m' → 0 ≤ q < 4 * n → m' (off + q) = 0).
  { intros off n q Hl Hq. specialize (Hl (q / 4) ltac:(Z.div_mod_to_equations; lia)).
    rewrite word_zero in Hl by (intros x _; apply Hok'). specialize (Hl (q `mod` 4) ltac:(apply Z.mod_pos_bound; lia)).
    rewrite <- Hl. f_equal. Z.div_mod_to_equations. lia. }
  exists m'. split_and!; [done| |done|].
  - split; try done.
    + intros c Hc. unfold bmark. rewrite (Hz _ (words1 t)); [apply Z.testbit_0_l|done|].
      assert (0 < TREE_CLICKS_PER_BYTE t) by lia. split; [apply Z.div_pos; lia|apply Z.div_lt_upper_bound; lia].
    + intros q Hq Hne. by rewrite (Hz _ (words1 t)) in Hne.
    + intros q Hq Hne. by rewrite (Hz _ (words2 t)) in Hne.
    + intros q Hq Hne. by rewrite (Hz _ (words2 t)) in Hne.
    + intros q Hq Hne. apply (ti_3 _ _ _ Hinv); auto.
  - intros x Hx. rewrite Hs by done. unfold sync. fold (sh x). unfold w1. rewrite (w1_marked t D m Hinv); [done|].
    Z.div_mod_to_equations. lia.
Qed.

(** ** Hooks: [ltckpt_bitmap.c] with a tree bitmap *)

(** The build without MINIX: the bitmap is always enabled. *)
Record tstate := { tmem : mem; t_first_time : bool; t_ctx : Ctx.ltckpt_ctx_t }.
Definition with_tmem (s : tstate) (m : mem) : tstate := {| tmem := m; t_first_time := t_first_time s; t_ctx := t_ctx s |}.

Section Hooks.
Variable t : tree_type.

(** [LTCKPT_DECLARE_STORE_HOOK] and the loop of [LTCKPT_DECLARE_MEMCPY_HOOK]. *)
Definition tree_store_hook (s : tstate) (addr : Z) : tstate :=
  with_tmem s (tree_set_bit t LTCKPT_SYNC_SCHEME addr (tmem s)).2.
Fixpoint tree_memcpy_loop (fuel : nat) (s : tstate) (reg end_ : Z) : res tstate :=
  if reg <? end_ then
    match fuel with
    | O => Stop FFuel
    | S fuel' => tree_memcpy_loop fuel' (tree_store_hook s reg) (reg + TREE_CLICK) end_
    end
  else Ret s.
Definition tree_memcpy_hook (s : tstate) (addr size : Z) : res tstate :=
  let reg := align_down 4 addr in
  tree_memcpy_loop (Z.to_nat (addr + size - reg)) s reg (addr + size).

Definition tree_run_op (s : tstate) (o : op) : res tstate :=
  let! s' := match o with
             | OStore a _ => Ret (tree_store_hook s a)
             | OMemcpy a bs => tree_memcpy_hook s a (Z.of_nat (length bs))
             end in
  Ret (with_tmem s' (store_bytes (tmem s') (op_addr o) (op_bytes o))).
Definition tree_run_ops (s : tstate) (os : list op) : res tstate := res_foldl tree_run_op s os.

(** [LTCKPT_DECLARE_TOP_OF_THE_LOOP_HOOK]; [mmap_ok] as in [Bitmap]. *)
Section Top.
Variable mmap_ok : Z → bool.
Definition tree_allocate (m : mem) (start size : Z) : res mem :=
  assert! mmap_ok start in Ret (zero_range m start size).
Definition tree_top_of_the_loop (s : tstate) : res (tstate * bool) :=
  let '(ctx1, go) := Ctx.CTX_NEW_TOL_OR_RETURN 4 (t_ctx s) in
  if negb go then Ret ({| tmem := tmem s; t_first_time := t_first_time s; t_ctx := ctx1 |}, false)
  else
    let! m := if t_first_time s then
                let! m := tree_allocate (tmem s) (TREE_BITMAP_OFFSET t) (TREE_BITMAP_SIZE t) in
                tree_allocate m TREE_SHADOW_OFFSET TREE_SHADOW_SIZE
              else Ret (tmem s) in
    let! m := tree_clear_bitmap t LTCKPT_SYNC_SCHEME m in
    Ret ({| tmem := m; t_first_time := false; t_ctx := Ctx.CTX_NEW_CHECKPOINT 4 ctx1 |}, true).
End Top.

(** ** The checkpoint in the shadow *)

(** Writes the instrumentation covers: inside the program, a store inside one region. *)
Definition tree_covered (o : op) : Prop :=
  0 ≤ op_addr o ∧ op_addr o + op_size o ≤ TREE_BITMAP_OFFSET t ∧ 0 < op_size o ∧ Forall (λ b, 0 ≤ b < 256) (op_bytes o) ∧
  match o with OStore a _ => a / 16 = (a + op_size o - 1) / 16 | OMemcpy _ _ => True end.

(** The regions an operation writes to. *)
Definition touches (o : op) (c : Z) : bool := (op_addr o / 16 <=? c) && (c <=? (op_addr o + op_size o - 1) / 16).
Definition touched_by (os : list op) (c : Z) : bool := existsb (λ o, touches o c) os.

Lemma offset_16 : TREE_BITMAP_OFFSET t = 16 * (TREE_BITMAP_OFFSET t / 16).
Proof. pose proof (layout_values t) as HV. clear -HV. destruct t; destruct HV as (_ & _ & _ & _ & -> & _); reflexivity. Qed.

Lemma addr_click a : 0 ≤ a < TREE_BITMAP_OFFSET t → prim_click t (a / 16).
Proof. intros Ha. pose proof offset_16. unfold prim_click. Z.div_mod_to_equations. lia. Qed.

(** What hooks keep: the program and the shadow. *)
Definition outside_same (m m' : mem) : Prop := ∀ x, x < TREE_BITMAP_OFFSET t ∨ TREE_SHADOW_OFFSET ≤ x → m' x = m x.

Lemma inv_D_ext D D' m : (∀ c, D' c = D c) → tree_inv t D m → tree_inv t D' m.
Proof. intros HD [Hok HDp H1 Hu1 Hu2 H2 H3]. split; try done; intros c; rewrite HD; auto. Qed.

Lemma tree_memcpy_loop_spec : ∀ fuel s D reg end_,
  tree_inv t D (tmem s) → reg `mod` 16 = 0 → 0 ≤ reg → end_ ≤ TREE_BITMAP_OFFSET t → end_ - reg ≤ Z.of_nat fuel →
  ∃ s', tree_memcpy_loop fuel s reg end_ = Ret s' ∧ t_first_time s' = t_first_time s ∧ t_ctx s' = t_ctx s ∧
    outside_same (tmem s) (tmem s') ∧
    tree_inv t (λ c, D c || ((reg / 16 <=? c) && (c <=? (end_ - 1) / 16))) (tmem s').
Proof.
  assert (Hnone : ∀ s D reg end_, tree_inv t D (tmem s) → reg `mod` 16 = 0 → end_ ≤ reg →
    tree_inv t (λ c, D c || ((reg / 16 <=? c) && (c <=? (end_ - 1) / 16))) (tmem s)).
  { intros s D reg end_ Hinv Hal Hle. revert Hinv. apply inv_D_ext. intros c.
    destruct (Z.leb_spec (reg / 16) c), (Z.leb_spec c ((end_ - 1) / 16)); cbn; rewrite ?orb_false_r; try done.
    Z.div_mod_to_equations. lia. }
  induction fuel as [|fuel IH]; intros s D reg end_ Hinv Hal H0 Hmax Hf; cbn [tree_memcpy_loop];
    destruct (Z.ltb_spec reg end_); try lia; try (exists s; split_and!; by auto).
  destruct (inv_set_bit t D (tmem s) reg Hinv H0) as [Hinv1 Hout1]; [apply addr_click; lia|].
  destruct (IH (tree_store_hook s reg) (λ c, D c || (c =? reg / 16)) (reg + 16) end_) as (s' & Hrun & Hft & Hctx & Hout & Hinv');
    [done|Z.div_mod_to_equations; lia|lia|lia|lia|].
  exists s'. split_and!; [exact Hrun|by rewrite Hft|by rewrite Hctx| |].
  - intros x Hx. rewrite Hout by done. by apply Hout1.
  - revert Hinv'. apply inv_D_ext. intros c. rewrite <- orb_assoc. f_equal. replace ((reg + 16) / 16) with (reg / 16 + 1) by (Z.div_mod_to_equations; lia).
    apply eq_true_iff_eq. rewrite orb_true_iff, !andb_true_iff, !Z.leb_le, Z.eqb_eq.
    assert (reg / 16 ≤ (end_ - 1) / 16) by (apply Z.div_le_mono; lia). lia.
Qed.

Lemma tree_run_op_spec s D o : tree_inv t D (tmem s) → tree_covered o →
  ∃ s', tree_run_op s o = Ret s' ∧ t_first_time s' = t_first_time s ∧ t_ctx s' = t_ctx s ∧
    tree_inv t (λ c, D c || touches o c) (tmem s') ∧
    (∀ x, 0 ≤ x < TREE_BITMAP_OFFSET t → tmem s' x = store_bytes (tmem s) (op_addr o) (op_bytes o) x) ∧
    (∀ x, TREE_SHADOW_OFFSET ≤ x → tmem s' x = tmem s x).
Proof.
  intros Hinv (H0 & Hmax & Hpos & Hb & Ho). pose proof (layout t) as HL.
  assert (Hook : ∃ s1, match o with OStore a _ => Ret (tree_store_hook s a) | OMemcpy a bs => tree_memcpy_hook s a (Z.of_nat (length bs)) end = Ret s1 ∧
    t_first_time s1 = t_first_time s ∧ t_ctx s1 = t_ctx s ∧ outside_same (tmem s) (tmem s1) ∧ tree_inv t (λ c, D c || touches o c) (tmem s1)).
  { destruct o as [a bs|a bs]; cbn [op_addr] in *.
    - eexists. split; [done|]. destruct (inv_set_bit t D (tmem s) a Hinv H0) as [Hinv1 Hout1]; [apply addr_click; lia|].
      split_and!; try done. revert Hinv1. apply inv_D_ext. intros c. f_equal. unfold touches. cbn [op_addr]. rewrite <- Ho.
      apply eq_true_iff_eq. rewrite andb_true_iff, !Z.leb_le, Z.eqb_eq. lia.
    - unfold tree_memcpy_hook. rewrite align_down_eq by lia. change (2^4) with 16. unfold op_size in *. cbn [op_bytes] in *.
      pose proof (Z.mod_pos_bound a 16 ltac:(lia)). pose proof (Z.mod_le a 16 H0 ltac:(lia)).
      destruct (tree_memcpy_loop_spec (Z.to_nat (a + Z.of_nat (length bs) - (a - a `mod` 16))) s D (a - a `mod` 16) (a + Z.of_nat (length bs)) Hinv)
        as (s1 & -> & Hft & Hctx & Hout & Hinv1); [Z.div_mod_to_equations; lia|lia|lia|lia|].
      exists s1. split_and!; try done. revert Hinv1. apply inv_D_ext. intros c. f_equal. unfold touches, op_size. cbn [op_addr op_bytes].
      by replace ((a - a `mod` 16) / 16) with (a / 16) by (Z.div_mod_to_equations; lia). }
  destruct Hook as (s1 & Hr & Hft & Hctx & Hout & Hinv1). unfold tree_run_op. rewrite Hr. cbn [res_bind]. eexists. split; [done|].
  unfold op_size in *. split_and!; [done|done| | |].
  - eapply inv_ext; [exact Hinv1| |].
    + apply store_bytes_ok; [apply Hinv1|done].
    + intros x Hx. cbn [with_tmem tmem]. apply store_bytes_out. lia.
  - intros x Hx. cbn [with_tmem tmem]. apply store_bytes_ext. apply Hout. lia.
  - intros x Hx. cbn [with_tmem tmem]. rewrite store_bytes_out by lia. apply Hout. lia.
Qed.

Lemma tree_run_ops_spec os : ∀ s D, tree_inv t D (tmem s) → Forall tree_covered os →
  ∃ s', tree_run_ops s os = Ret s' ∧ t_first_time s' = t_first_time s ∧ t_ctx s' = t_ctx s ∧
    tree_inv t (λ c, D c || touched_by os c) (tmem s') ∧
    (∀ x, 0 ≤ x < TREE_BITMAP_OFFSET t → tmem s' x = plain_run (tmem s) os x) ∧
    (∀ x, TREE_SHADOW_OFFSET ≤ x → tmem s' x = tmem s x).
Proof.
  induction os as [|o os IH]; intros s D Hinv Hos.
  { exists s. split_and!; try done. revert Hinv. apply inv_D_ext. intros c. by rewrite orb_false_r. }
  inversion_clear Hos as [|? ? Ho Hos']. destruct (tree_run_op_spec s D o Hinv Ho) as (s1 & Hr1 & Hf1 & Hc1 & Hi1 & Hp1 & Hs1).
  destruct (IH s1 _ Hi1 Hos') as (s' & Hr & Hf & Hc & Hi & Hp & Hs). exists s'. split_and!.
  - unfold tree_run_ops. cbn [res_foldl]. rewrite Hr1. exact Hr.
  - congruence.
  - congruence.
  - revert Hi. apply inv_D_ext. intros c. cbn [touched_by existsb]. by rewrite orb_assoc.
  - intros x Hx. rewrite Hp by done. cbn [plain_run foldl]. apply plain_run_ext. by apply Hp1.
  - intros x Hx. rewrite Hs by done. by apply Hs1.
Qed.

Lemma plain_run_untouched os : ∀ m x, touched_by os (x / 16) = false → plain_run m os x = m x.
Proof.
  induction os as [|o os IH]; intros m x Hx; [done|]. cbn [touched_by existsb] in Hx. apply orb_false_iff in Hx as [Ho Hx].
  cbn [plain_run foldl]. fold (plain_run (store_bytes m (op_addr o) (op_bytes o)) os). rewrite IH by done. apply store_bytes_out.
  unfold touches, op_size in Ho. destruct (Z.leb_spec (op_addr o / 16) (x / 16)), (Z.leb_spec (x / 16) ((op_addr o + Z.of_nat (length (op_bytes o)) - 1) / 16));
    cbn [andb] in Ho; [done|right; Z.div_mod_to_equations; lia|left; Z.div_mod_to_equations; lia..].
Qed.

(** A region whose shadow is a copy of it. *)
Definition synced (m : mem) (c : Z) : Prop := ∀ x, x / 16 = c → m (TREE_SHADOW_OFFSET + x) = m x.
End Hooks.

(** C7: a tree bitmap keeps the checkpoint of what was written before it.  From a state
    between two checkpoints, run any writes [os1], take a checkpoint, and run any writes
    [os2]: no loop runs forever, the program's memory is what it wrote, and for every
    region that [os1] wrote to, or that was in the shadow already, the shadow holds the
    memory at the checkpoint.  The shadow of every other region is what it was before,
    so the checkpoint of a region that is written to for the first time is not kept. *)
Theorem tree_checkpoint_in_shadow t mmap_ok s os1 os2 :
  tree_inv t (λ _, false) (tmem s) → t_first_time s = false → (Ctx.CTX_NEW_TOL_OR_RETURN 4 (t_ctx s)).2 = true →
  Forall (tree_covered t) os1 → Forall (tree_covered t) os2 →
  ∃ s1 s2 s3, tree_run_ops t s os1 = Ret s1 ∧ tree_top_of_the_loop t mmap_ok s1 = Ret (s2, true) ∧ tree_run_ops t s2 os2 = Ret s3 ∧
    tree_inv t (λ _, false) (tmem s2) ∧
    ∀ x, 0 ≤ x < TREE_BITMAP_OFFSET t →
      tmem s3 x = plain_run (tmem s) (os1 ++ os2) x ∧
      (touched_by os1 (x / 16) = true ∨ synced (tmem s) (x / 16) → tmem s3 (TREE_SHADOW_OFFSET + x) = plain_run (tmem s) os1 x) ∧
      (touched_by os1 (x / 16) = false → tmem s3 (TREE_SHADOW_OFFSET + x) = tmem s (TREE_SHADOW_OFFSET + x)).
Proof.
  intros Hinv Hft Htol Ho1 Ho2. pose proof (layout t) as HL.
  destruct (tree_run_ops_spec t os1 s _ Hinv Ho1) as (s1 & Hr1 & Hf1 & Hc1 & Hi1 & Hp1 & Hs1).
  destruct (inv_clear t _ _ Hi1) as (m2 & Hcl & Hi2 & Hp2 & Hs2).
  assert (Htop : ∃ c2, tree_top_of_the_loop t mmap_ok s1 = Ret ({| tmem := m2; t_first_time := false; t_ctx := c2 |}, true)).
  { unfold tree_top_of_the_loop. rewrite Hc1, Hf1, Hft. destruct (Ctx.CTX_NEW_TOL_OR_RETURN 4 (t_ctx s)) as [c go]. simpl in Htol. subst go.
    cbn [negb res_bind]. rewrite Hcl. cbn [res_bind]. by eexists. }
  destruct Htop as (c2 & Htop). set (s2 := {| tmem := m2; t_first_time := false; t_ctx := c2 |}) in *.
  destruct (tree_run_ops_spec t os2 s2 _ Hi2 Ho2) as (s3 & Hr3 & _ & _ & _ & Hp3 & Hs3).
  exists s1, s2, s3. split_and!; [done..|]. intros x Hx. split_and!.
  - rewrite Hp3 by done. unfold plain_run. rewrite foldl_app. apply plain_run_ext. rewrite <- Hp1 by done. by apply Hp2.
  - intros Hsync. rewrite Hs3 by lia. cbn [tmem s2]. rewrite Hs2 by lia. cbn [orb].
    destruct (touched_by os1 (x / 16)) eqn:Ht; [by apply Hp1|]. destruct Hsync as [?|Hsync]; [done|].
    rewrite Hs1, (Hsync x eq_refl) by lia. by rewrite plain_run_untouched.
  - intros Ht. rewrite Hs3 by lia. cbn [tmem s2]. rewrite Hs2, Ht by lia. cbn [orb]. apply Hs1. lia.
Qed.

(** With the [DIFF] scheme [ltckpt_set_bit] reports the mark of the third level: after
    one store, a store to any other region under the same mark counts as marked
    already, and the store hook does not save the region. *)
Lemma set_bit_diff_shape a m : 0 ≤ a < 2^32 → ∃ m2,
  (∀ x, LTCKPT_3RD_LEVEL_OFFSET BITMAP_TREE ≤ x → 16 * (a / 16) + 16 ≤ TREE_BITMAP_OFFSET BITMAP_TREE → m2 x = m x) ∧
  set_bit_tree BITMAP_TREE LTCKPT_DIFF_SCHEME a m =
    (Z.land (m2 (LTCKPT_3RD_LEVEL_OFFSET BITMAP_TREE + mark3 BITMAP_TREE (a / 16) / 8)) (Z.shiftl 1 (mark3 BITMAP_TREE (a / 16) `mod` 8)),
     or_bit m2 (LTCKPT_3RD_LEVEL_OFFSET BITMAP_TREE + mark3 BITMAP_TREE (a / 16) / 8) (mark3 BITMAP_TREE (a / 16) `mod` 8)).
Proof.
  intros Ha. unfold set_bit_tree, NTH_BIT, mark3, mark2. cbn [TREE_CLICKS_PER_BYTE]. rewrite u32_small by lia.
  change (8 - 1) with (Z.ones 3). rewrite !Z.land_ones by lia. change (2^3) with 8. rewrite !Z.div_div by lia.
  eexists. split; [|reflexivity]. intros x Hx Hp. pose proof (layout BITMAP_TREE) as HL. pose proof (layout_values BITMAP_TREE) as (_ & V1 & V2 & _ & V5 & _).
  unfold or_bit, mem_set.
  repeat match goal with |- context [?u =? ?v] => destruct (Z.eqb_spec u v); [exfalso; Z.div_mod_to_equations; lia|] end. done.
Qed.

Lemma diff_reports_third_level a b m :
  0 ≤ a → 0 ≤ b → prim_click BITMAP_TREE (a / 16) → prim_click BITMAP_TREE (b / 16) →
  mark3 BITMAP_TREE (a / 16) = mark3 BITMAP_TREE (b / 16) →
  (set_bit_tree BITMAP_TREE LTCKPT_DIFF_SCHEME b (set_bit_tree BITMAP_TREE LTCKPT_DIFF_SCHEME a m).2).1 ≠ 0.
Proof.
  intros Ha Hb Pa Pb E. pose proof (layout_values BITMAP_TREE) as (_ & _ & _ & _ & V5 & _).
  pose proof Pa as [_ Pa']. pose proof Pb as [_ Pb']. pose proof (mark_bounds BITMAP_TREE _ Pb) as (_ & _ & [B3 _] & _).
  destruct (set_bit_diff_shape a m) as (ma & _ & ->); [Z.div_mod_to_equations; lia|]. cbn [snd].
  edestruct (set_bit_diff_shape b) as (mb & Hb' & Heq); [Z.div_mod_to_equations; lia|]. rewrite Heq. clear Heq. cbn [fst].
  rewrite Hb' by (done || (pose proof (Z.div_pos _ 8 B3 ltac:(lia)); lia)). rewrite E. set (k := mark3 BITMAP_TREE (b / 16)) in *.
  pose proof (Z.mod_pos_bound k 8 ltac:(lia)). unfold or_bit, mem_set. rewrite Z.eqb_refl. intros Hz.
  apply (f_equal (λ z, Z.testbit z (k `mod` 8))) in Hz. unfold u8 in Hz.
  rewrite Z.land_spec, Z.mod_pow2_bits_low, Z.lor_spec, Z.shiftl_spec, Z.sub_diag, Z.testbit_0_l in Hz by lia.
  by rewrite orb_true_r in Hz.
Qed.

(** ** Example *)

Definition demo_tree (t : tree_type) : tstate :=
  {| tmem := λ x, if x <? TREE_BITMAP_OFFSET t then x `mod` 256 else 0; t_first_time := false; t_ctx := demo_bctx |}.

Lemma demo_tree_inv t : tree_inv t (λ _, false) (tmem (demo_tree t)).
Proof.
  pose proof (layout t) as HL.
  assert (Hz : ∀ x, TREE_BITMAP_OFFSET t ≤ x → tmem (demo_tree t) x = 0).
  { intros x Hx. cbn [demo_tree tmem]. by destruct (Z.ltb_spec x (TREE_BITMAP_OFFSET t)); [lia|]. }
  split; try done.
  - intros x. cbn [demo_tree tmem]. destruct (x <? TREE_BITMAP_OFFSET t); [apply Z.mod_pos_bound; lia|lia].
  - intros c Hc. unfold bmark. rewrite Hz; [apply Z.testbit_0_l|]. assert (0 < TREE_CLICKS_PER_BYTE t) by lia.
    pose proof (Z.div_pos c (TREE_CLICKS_PER_BYTE t)). lia.
  - intros q Hq Hne. destruct Hne. apply Hz. lia.
  - intros q Hq Hne. destruct Hne. apply Hz. lia.
  - intros q Hq Hne. destruct Hne. apply Hz. lia.
  - intros q Hq Hne. destruct Hne. apply Hz. lia.
Qed.

Definition demo_writes : list op := [OStore 32 [1; 2; 3; 4]; OMemcpy 100 [5; 6; 7; 8; 9; 10; 11; 12; 13; 14]].

Lemma demo_writes_covered t : Forall (tree_covered t) demo_writes.
Proof.
  pose proof (layout_values t) as HV. assert (1000000 < TREE_BITMAP_OFFSET t) by (destruct t; destruct HV as (_ & _ & _ & _ & -> & _); lia).
  repeat apply List.Forall_cons; [..|apply List.Forall_nil]; 
    (split_and!; unfold op_size; cbn [op_addr op_bytes length]; [lia|lia|lia|repeat (constructor; [lia|]); constructor|done]).
Qed.

Lemma tree_checkpoint_in_shadow_witness :
  ∃ s1 s2 s3, tree_run_ops BITMAP_TREE (demo_tree BITMAP_TREE) demo_writes = Ret s1 ∧
    tree_top_of_the_loop BITMAP_TREE (λ _, true) s1 = Ret (s2, true) ∧
    tree_run_ops BITMAP_TREE s2 [OStore 32 [9]] = Ret s3 ∧ tmem s3 32 = 9 ∧ tmem s3 (TREE_SHADOW_OFFSET + 32) = 1.
Proof.
  destruct (tree_checkpoint_in_shadow BITMAP_TREE (λ _, true) (demo_tree BITMAP_TREE) demo_writes [OStore 32 [9]])
    as (s1 & s2 & s3 & H1 & H2 & H3 & _ & Hx); [apply demo_tree_inv|reflexivity|reflexivity|apply demo_writes_covered| |].
  { apply List.Forall_cons; [|apply List.Forall_nil]. split_and!; unfold op_size; cbn [op_addr op_bytes length]; [lia|vm_compute; discriminate|lia| |done].
    constructor; [lia|constructor]. }
  destruct (Hx 32) as (Hm & Hs & _); [split; [lia|reflexivity]|].
  exists s1, s2, s3. split; [exact H1|]. split; [exact H2|]. split; [exact H3|]. split; [by rewrite Hm|]. rewrite Hs; [reflexivity|by left].
Defined.
