(* ===== verification/BitmapByte.v ===== *)
(** * The byte bitmap: [mechanisms/bitmap/bitmap_plain_byte.h]

    [BITMAP_PLAIN_BYTE] with the [SYNC] scheme on x86: a byte per region of 16 bytes.
    The pages of the bitmap are write-protected; the fault handler of
    [ltckpt_bitmap_init.c] makes a page writable and records it, so that a checkpoint
    looks only at recorded pages.  Which pages are writable is part of the state, the
    answers of [mprotect] are an argument. *)

From Stdlib Require Import ZArith Lia.
From stdpp Require Import base list numbers.
From S2P Require Import Prelude Runtime Bitmap BitmapTree.

Definition BYTE_BITMAP_SIZE : Z := TREE_SHADOW_SIZE / 16 / 1.
Definition BYTE_BITMAP_OFFSET : Z := align_down 12 (TREE_SHADOW_OFFSET - BYTE_BITMAP_SIZE).
Definition LTCKPT_MAX_PF : Z := 1024*1024.
Definition sorted_pages_size : nat := 1000.
Definition TRESHOLD : Z := 16*4096.

Record pbstate := {
  pb_mem : mem;
  pb_writable : Z → bool;   (** by the page's address *)
  pages : list Z;           (** [nr_pf] is its length *)
}.

Section Byte.
Variable mprotect_ok : Z → bool.

(** ** Marking *)

Definition ltckpt_sigsegvhandler (s : pbstate) (si_addr : Z) : res pbstate :=
  let page := align_down 12 (u32 si_addr) in
  if (page =? 0) || negb (mprotect_ok page) then Stop FAssert
  else
    let s := {| pb_mem := pb_mem s; pb_writable := λ p, if p =? page then true else pb_writable s p; pages := pages s ++ [page] |} in
    if Z.of_nat (length (pages s)) =? LTCKPT_MAX_PF then Stop FAssert else Ret s.

(** [ltckpt_set_bit], with the fault its write may raise. *)
Definition set_bit_byte (a : Z) (s : pbstate) : res (Z * pbstate) :=
  let p := Z.shiftr a 4 + BYTE_BITMAP_OFFSET in
  let! s := if pb_writable s (align_down 12 p) then Ret s else ltckpt_sigsegvhandler s p in
  Ret (0, {| pb_mem := mem_set (pb_mem s) p 1; pb_writable := pb_writable s; pages := pages s |}).

(** ** A checkpoint *)

Definition copy_marked (offset j : Z) (w : Z) (m : mem) : mem :=
  if m (w + j) =? 0 then m
  else let _data := offset + j * 16 in mem_copy m _data m (_data + TREE_SHADOW_OFFSET) 16.
Definition ltckpt_handle_bimap_word (w : Z) (m : mem) : mem :=
  let offset := u32 ((w - BYTE_BITMAP_OFFSET) * 16) in
  copy_marked offset 3 w (copy_marked offset 2 w (copy_marked offset 1 w (copy_marked offset 0 w m))).

(** Inserting a page into the list in order of addresses. *)
Fixpoint insert_page (p : Z) (l : list Z) : list Z :=
  match l with
  | [] => [p]
  | q :: l' => if q <? p then q :: insert_page p l' else p :: l
  end.
Definition sort_pages (l : list Z) : res (list Z) :=
  if (sorted_pages_size <? length l)%nat then Stop FBounds else Ret (foldl (λ r p, insert_page p r) [] l).

Definition page_words : nat := Z.to_nat 1024.

(** The next word that is not zero. *)
Fixpoint next_word (fuel : nat) (addr : Z) (m : mem) : res Z :=
  if word m addr =? 0 then match fuel with O => Stop FFuel | S fuel' => next_word fuel' (addr + 4) m end else Ret addr.

(** The loop over the marked words of a page. *)
Fixpoint scan_page (fuel : nat) (addr : Z) (m : mem) : res mem :=
  match fuel with
  | O => Stop FFuel
  | S fuel' =>
      let! addr := next_word page_words addr m in
      if negb (Z.land addr 0xffc =? 0) then
        let m := set_word m addr (Z.land (word m addr) (Z.lnot 2)) in
        Ret (set_word (ltckpt_handle_bimap_word addr m) addr 0)
      else scan_page fuel' addr (set_word (ltckpt_handle_bimap_word addr m) addr 0)
  end.

(** Write-protecting [start, start + size). *)
Definition protect_range (s : pbstate) (start size : Z) : res pbstate :=
  if mprotect_ok start then
    Ret {| pb_mem := pb_mem s; pb_writable := λ p, if (start <=? p) && (p <? start + size) then false else pb_writable s p; pages := pages s |}
  else Stop FAssert.

Fixpoint clear_pages (region_start : Z) (l : list Z) (s : pbstate) : res pbstate :=
  match l with
  | [] => Ret s
  | start :: l' =>
      let region_start := if region_start =? 0 then start else region_start in
      let m := set_word (pb_mem s) (start + 4 * 1023) (Z.lor (word (pb_mem s) (start + 4 * 1023)) 2) in
      let! m := scan_page page_words start m in
      let s := {| pb_mem := m; pb_writable := pb_writable s; pages := pages s |} in
      let last := match l' with [] => true | next :: _ => start + TRESHOLD <? next end in
      if (last : bool) then let! s := protect_range s region_start (start - region_start + 4096) in clear_pages 0 l' s
      else clear_pages region_start l' s
  end.

Definition ltckpt_clear_bitmap_byte (s : pbstate) : res pbstate :=
  let! l := sort_pages (pages s) in
  let! s := clear_pages 0 l s in
  Ret {| pb_mem := pb_mem s; pb_writable := pb_writable s; pages := [] |}.
End Byte.

(** ** The scan stops at the first marked word *)

Lemma next_word_spec m addr k n :
  (n ≤ k)%nat → (∀ i, 0 ≤ i < Z.of_nat n → word m (addr + 4 * i) = 0) → word m (addr + 4 * Z.of_nat n) ≠ 0 →
  next_word k addr m = Ret (addr + 4 * Z.of_nat n).
Proof.
  revert addr k. induction n as [|n IH]; intros addr k Hk Hz Hne.
  - rewrite Z.add_0_r in *. destruct k; cbn [next_word]; by destruct (Z.eqb_spec (word m addr) 0).
  - destruct k as [|k]; [lia|]. cbn [next_word]. pose proof (Hz 0 ltac:(lia)) as H0. rewrite Z.mul_0_r, Z.add_0_r in H0. rewrite H0, Z.eqb_refl, IH.
    + f_equal. lia.
    + lia.
    + intros i Hi. replace (addr + 4 + 4 * i) with (addr + 4 * (i + 1)) by lia. apply Hz. lia.
    + by replace (addr + 4 + 4 * Z.of_nat n) with (addr + 4 * Z.of_nat (S n)) by lia.
Qed.

(** The test for the last word of a page is true for every word but the first.  If the
    first marked word of a page is word [n], not the first one of the page, it is
    handled and no other: the regions marked in later words are not copied, and stay
    marked in a page that is protected again. *)
Lemma scan_stops_early fuel m page n :
  page `mod` 4096 = 0 → 0 < Z.of_nat n < 1024 →
  (∀ i, 0 ≤ i < Z.of_nat n → word m (page + 4 * i) = 0) → word m (page + 4 * Z.of_nat n) ≠ 0 →
  scan_page (S fuel) page m =
    Ret (let addr := page + 4 * Z.of_nat n in
         set_word (ltckpt_handle_bimap_word addr (set_word m addr (Z.land (word m addr) (Z.lnot 2)))) addr 0).
Proof.
  intros Hp Hn Hz Hne. cbn [scan_page]. rewrite (next_word_spec m page page_words n) by (done || (unfold page_words; lia)). cbn [res_bind].
  assert (Hmask : Z.land (page + 4 * Z.of_nat n) 0xffc ≠ 0).
  { intros E. change 0xffc with (Z.land (Z.ones 12) (Z.lnot 3)) in E. rewrite Z.land_assoc, Z.land_ones in E by lia.
    replace ((page + 4 * Z.of_nat n) `mod` 2 ^ 12) with (4 * Z.of_nat n) in E by (change (2^12) with 4096; Z.div_mod_to_equations; lia).
    change (Z.lnot 3) with (Z.lnot (2^2 - 1)) in E. fold (align_down 2 (4 * Z.of_nat n)) in E. rewrite align_down_eq in E by lia.
    change (2^2) with 4 in E. Z.div_mod_to_equations. lia. }
  by destruct (Z.eqb_spec (Z.land (page + 4 * Z.of_nat n) 0xffc) 0).
Qed.

(** Two stores into one page of the bitmap, one checkpoint. *)
Definition demo_byte : pbstate :=
  {| pb_mem := λ x, if x <? BYTE_BITMAP_OFFSET then x `mod` 256 else 0; pb_writable := λ _, false; pages := [] |}.
Definition demo_byte_marked : pbstate :=
  ret_or demo_byte (let! r := set_bit_byte (λ _, true) 70000 demo_byte in let! r := set_bit_byte (λ _, true) 90000 r.2 in
                    ltckpt_clear_bitmap_byte (λ _, true) r.2).

Example second_store_not_copied :
  pb_mem demo_byte_marked (TREE_SHADOW_OFFSET + 70000) = 70000 `mod` 256 ∧
  pb_mem demo_byte_marked (TREE_SHADOW_OFFSET + 90000) = 0 ∧
  pb_mem demo_byte_marked (BYTE_BITMAP_OFFSET + 90000 / 16) = 1 ∧ pages demo_byte_marked = [].
Proof. vm_compute. done. Qed.
