(* ===== verification/Mechanism.v ===== *)
(** * What a checkpointing mechanism promises

    The mechanisms of [mechanisms/] share one interface, the hooks of
    [ltckpt_mechanism.h]: the top-of-the-loop hook takes a checkpoint, the store
    and memcpy hooks run before the program's writes.  The class [Mechanism]
    collects what a single hook has to do; its laws are discharged by the hooks of
    the undo log, the dirty bitmap and page protection.  The theorem is about these
    three: over any sequence of checkpoints and writes each of them refines a store
    with a current and a saved memory. *)

From Stdlib Require Import ZArith Lia Ascii String.
From stdpp Require Import base list numbers strings.
From S2P Require Import Prelude Runtime Writelog Bitmap ProcMaps Mprotect.

Class Mechanism (S : Type) := {
  tol_hook : S → res (S * bool);        (** the boolean: a checkpoint was taken *)
  do_write : S → op → res S;            (** hook and write *)
  memory_of : S → mem;
  view_of : S → mem;                    (** what can be recovered *)
  in_scope : Z → Prop;                  (** addresses the mechanism restores *)
  op_allowed : op → Prop;
  ready : S → Prop;                     (** a checkpoint can be taken *)
  armed : S → Prop;                     (** a checkpoint exists *)
  usable : S → Prop;                    (** the hooks can run, whether or not it can be recovered *)
  intact : S → bool;                    (** it can still be recovered *)

  armed_ready s : armed s → ready s;
  tol_intact s s' b : tol_hook s = Ret (s', b) → intact s' = intact s;
  tol_law s s' b : ready s → intact s = true → tol_hook s = Ret (s', b) →
    (b = true ∨ armed s → armed s') ∧
    ∀ x, in_scope x → memory_of s' x = memory_of s x ∧
      if b then view_of s' x = memory_of s x else view_of s' x = view_of s x;
  armed_usable s : armed s → usable s;
  tol_usable s : usable s → match tol_hook s with Ret (s', _) => usable s' | Stop f => f = FAssert end;
  write_usable s o : usable s → op_allowed o → match do_write s o with Ret s' => usable s' | Stop f => f = FAssert end;
  write_intact s o s' : do_write s o = Ret s' → intact s' = true → intact s = true;
  write_law s o s' : armed s → op_allowed o → do_write s o = Ret s' → intact s' = true →
    armed s' ∧ ∀ x, in_scope x →
      memory_of s' x = store_bytes (memory_of s) (op_addr o) (op_bytes o) x ∧ view_of s' x = view_of s x;
}.

(** ** A program between checkpoints *)

Inductive event := ECheckpoint | EWrite (o : op).

Section Run.
Context {S : Type} (tol : S → res (S * bool)) (wr : S → op → res S).

Definition step (s : S) (e : event) : res (S * bool) :=
  match e with
  | ECheckpoint => tol s
  | EWrite o => let! s' := wr s o in Ret (s', false)
  end.

(** The state after the events, and which of them took a checkpoint. *)
Fixpoint run (s : S) (es : list event) : res (S * list bool) :=
  match es with
  | [] => Ret (s, [])
  | e :: es' =>
      let! sb := step s e in
      let! r := run sb.1 es' in
      Ret (r.1, sb.2 :: r.2)
  end.
End Run.

(** The specification: a checkpoint saves the current memory. *)
Definition abs_step (a : mem * mem) (e : event) (taken : bool) : mem * mem :=
  match e with
  | ECheckpoint => if taken then (a.1, a.1) else a
  | EWrite o => (store_bytes a.1 (op_addr o) (op_bytes o), a.2)
  end.

Fixpoint replay (a : mem * mem) (es : list event) (bs : list bool) : mem * mem :=
  match es, bs with
  | e :: es', b :: bs' => replay (abs_step a e b) es' bs'
  | _, _ => a
  end.

Definition event_allowed (allowed : op → Prop) (e : event) : Prop := match e with ECheckpoint => True | EWrite o => allowed o end.

(** A run from memory [m], just saved: it ends, by an assertion or in a state which,
    if it is intact, holds what was written and what was saved last. *)
Definition refines_store {S} (intact : S → Prop) (memory view : S → mem) (scope : Z → Prop)
    (m : mem) (es : list event) (r : res (S * list bool)) : Prop :=
  match r with
  | Ret (s, bs) => intact s →
      ∀ x, scope x → memory s x = (replay (m, m) es bs).1 x ∧ view s x = (replay (m, m) es bs).2 x
  | Stop f => f = FAssert
  end.

Lemma refines_store_intact {S} (I I' : S → Prop) memory view scope m es r :
  (∀ s, I' s → I s) → refines_store I memory view scope m es r → refines_store I' memory view scope m es r.
Proof. unfold refines_store. destruct r as [[s bs]|]; auto. Qed.

Section Client.
Context {S : Type} `{Mechanism S}.
Abbreviation mstep := (step tol_hook do_write).
Abbreviation mrun := (run tol_hook do_write).

(** The simulation relation. *)
Definition sim (s : S) (a : mem * mem) : Prop :=
  armed s ∧ intact s = true ∧ ∀ x, in_scope x → memory_of s x = a.1 x ∧ view_of s x = a.2 x.

Lemma step_intact s e s' b : mstep s e = Ret (s', b) → intact s' = true → intact s = true.
Proof.
  intros Hs Hi. destruct e; cbn [step] in Hs.
  - by rewrite <- (tol_intact _ _ _ Hs).
  - apply res_bind_inv in Hs as (t & Hw & [= -> <-]). by eapply write_intact.
Qed.

Lemma run_intact es s s' bs : mrun s es = Ret (s', bs) → intact s' = true → intact s = true.
Proof.
  revert s bs. induction es as [|e es IH]; intros s bs Hr Hi; cbn [run] in Hr; [by injection Hr as -> _|].
  apply res_bind_inv in Hr as ([t b] & Hs & Hr). apply res_bind_inv in Hr as ([u bs'] & Hr & [= -> <-]).
  eapply step_intact; [exact Hs|]. by eapply IH.
Qed.

Lemma sim_step s a e s' b :
  sim s a → event_allowed op_allowed e → mstep s e = Ret (s', b) → intact s' = true → sim s' (abs_step a e b).
Proof.
  intros (Ha & Hi & Hx) He Hs Hi'. destruct e as [|o]; cbn [step abs_step] in *.
  - destruct (tol_law s s' b (armed_ready s Ha) Hi Hs) as (Har & Hm). split; [auto|split; [done|]].
    intros x Hsc. destruct (Hm x Hsc) as [M V], (Hx x Hsc) as [M0 V0]. destruct b; cbn [fst snd]; split; congruence.
  - apply res_bind_inv in Hs as (t & Hw & [= -> <-]). destruct (write_law s o s' Ha He Hw Hi') as [Har Hm].
    split; [done|split; [done|]]. intros x Hsc. destruct (Hm x Hsc) as [M V], (Hx x Hsc) as [M0 V0].
    cbn [fst snd]. split; [|congruence]. rewrite M. by apply store_bytes_ext.
Qed.

Lemma sim_run es s a s' bs :
  sim s a → Forall (event_allowed op_allowed) es → mrun s es = Ret (s', bs) → intact s' = true → sim s' (replay a es bs).
Proof.
  revert s a bs. induction es as [|e es IH]; intros s a bs Hs He Hr Hi; cbn [run] in Hr; [by injection Hr as -> <-|].
  apply Forall_cons in He as [He Hes].
  apply res_bind_inv in Hr as ([t b] & Hst & Hr). apply res_bind_inv in Hr as ([u bs'] & Hr & [= -> <-]).
  cbn [replay fst snd] in *. eapply IH; [|done|exact Hr|done].
  eapply sim_step; [exact Hs|done|exact Hst|]. by eapply run_intact.
Qed.

(** A run that is no longer intact can still go on. *)
Lemma run_stop es s f : usable s → Forall (event_allowed op_allowed) es → mrun s es = Stop f → f = FAssert.
Proof.
  intros Hu He. revert s Hu. induction He as [|e es He _ IH]; intros s Hu Hr; cbn [run] in Hr; [done|].
  assert (Hs : match mstep s e with Ret (s', _) => usable s' | Stop f => f = FAssert end).
  { destruct e as [|o]; cbn [step]; [by apply tol_usable|]. pose proof (write_usable s o Hu He) as Hw. by destruct (do_write s o). }
  destruct (mstep s e) as [[t b]|f']; cbn [res_bind] in Hr; [|by injection Hr as <-].
  cbn [fst] in Hr. destruct (mrun t es) as [[u bs]|f'] eqn:Hr'; cbn [res_bind] in Hr; [done|]. injection Hr as <-. by eapply IH.
Qed.

(** The client theorem, against the interface. *)
Lemma client_refines s s0 es :
  ready s → tol_hook s = Ret (s0, true) → usable s0 → Forall (event_allowed op_allowed) es →
  refines_store (λ s, intact s = true) memory_of view_of in_scope (memory_of s) es (mrun s0 es).
Proof.
  intros Hr Ht Hu He. unfold refines_store. destruct (mrun s0 es) as [[s1 bs]|f] eqn:Hrun; [|by eapply run_stop].
  intros Hi. assert (Hi0 : intact s0 = true) by (by eapply run_intact).
  assert (Hi' : intact s = true) by (by rewrite <- (tol_intact _ _ _ Ht)).
  destruct (tol_law s s0 true Hr Hi' Ht) as [Ha Hm].
  apply (sim_run es s0 (memory_of s, memory_of s) s1 bs); try done. split; [auto|by split].
Qed.
End Client.

(** ** The undo log *)

Section UndoLog.
Context (c : wlconf) (Hc : conf_ok c).

(** The hook with its decision. *)
Definition wl_tol (s : wlstate) : res (wlstate * bool) :=
  Ret (ltckpt_top_of_the_loop c s,
       (Ctx.CTX_NEW_TOL_OR_RETURN (sizeof_ptr c) (Ctx.CTX_NEW_LOG_SIZE (wl_position s) (wctx s))).2).

(** Replaying the log that is in memory. *)
Definition wl_view (s : wlstate) : mem :=
  undo (log_entries c (wmem s) (Z.to_nat (wl_position s / entry_size c))) (wmem s).

Definition wl_armed (s : wlstate) : Prop :=
  ∃ m0 es, live c m0 s es ∧ ltckpt_writelog_enabled s = true.

Lemma live_view m0 s es x : live c m0 s es → ¬ in_log c x → wl_view s x = m0 x.
Proof.
  intros [[Hd Hp _ Hl _] Hu _] Hx. unfold wl_view. rewrite Hp, Z.div_mul by (pose proof (entry_size_pos c Hc); lia).
  rewrite Nat2Z.id, Hl. by apply Hu.
Qed.

Lemma wl_tol_law s s' b :
  wl_data s = WRITELOG_START c → wl_tol s = Ret (s', b) →
  (b = true ∨ wl_armed s → wl_armed s') ∧ win s' = win s ∧ wmem s' = wmem s ∧
  ∀ x, ¬ in_log c x → if b then wl_view s' x = wmem s x else wl_view s' x = wl_view s x.
Proof.
  intros Hd [= <- <-]. unfold ltckpt_top_of_the_loop. destruct (Ctx.CTX_NEW_TOL_OR_RETURN _ _) as [c2 []]; cbn [negb snd].
  - match goal with |- context [win ?t = win s] => set (s' := t) end.
    assert (Hl : live c (wmem s) s' []).
    { pose proof (co_len _ Hc). constructor; [constructor; try done|done|]; cbn [length]; lia. }
    split_and!; try done. intros _. by exists (wmem s), [].
  - split_and!; try done. intros [?|(m0 & es & [[] Hu Hr] & He)]; [done|]. exists m0, es. split; [|done].
    constructor; [by constructor|done|done].
Qed.

Lemma wl_write_law s o s' :
  wl_armed s → op_ok c o → run_op c s o = Ret s' → Window.sa_window__is_open (win s') = true →
  wl_armed s' ∧ ∀ x, ¬ in_log c x →
    wmem s' x = store_bytes (wmem s) (op_addr o) (op_bytes o) x ∧ wl_view s' x = wl_view s x.
Proof.
  intros (m0 & es & Hl & He) Ho Hr Hw. apply run_op_inv in Hr as (s1 & Hh & ->).
  destruct (live_op_hook c Hc m0 s es o s1 Hl He Ho Hh Hw) as (es1 & Hl1 & He1 & Hcov & Hm).
  assert (Hl2 := live_program_write c Hc m0 s1 es1 (op_addr o) (op_bytes o) Hl1 Hcov).
  split; [by exists m0, es1|]. intros x Hx. split.
  - cbn [set_mem wmem]. apply store_bytes_ext. by apply Hm.
  - by rewrite (live_view _ _ _ _ Hl2 Hx), (live_view _ _ _ _ Hl Hx).
Qed.

Lemma run_op_stop s o f : run_op c s o = Stop f → f = FAssert.
Proof.
  intros Hr. assert (Hw : ∀ t a g, ltckpt_write_wl c t a = Stop g → g = FAssert).
  { intros t a g. unfold ltckpt_write_wl. repeat case_match; intros Hg; by simplify_eq. }
  assert (Hh : op_hook c s o = Stop f) by (unfold run_op in Hr; by destruct (op_hook c s o)). clear Hr. destruct o as [a bs|a bs]; cbn [op_hook] in Hh.
  - unfold ltckpt_store_hook in Hh. case_match; [by eapply Hw|done].
  - unfold ltckpt_memcpy_hook in Hh. case_match; [done|].
    pose proof (memcpy_loop_fuel c _ s (align_down 2 a) (a + Z.of_nat (length bs)) eq_refl) as Hf.
    assert (Hl : ∀ fuel t reg g, memcpy_loop c fuel t reg (a + Z.of_nat (length bs)) = Stop g → g = FAssert ∨ g = FFuel).
    { induction fuel as [|fuel IH]; intros t reg g; cbn [memcpy_loop]; (case_match; [|done]); intros Hg; [injection Hg as <-; auto|].
      destruct (ltckpt_write_wl c t reg) as [t'|g'] eqn:E; cbn [res_bind] in Hg; [by eapply IH|]. injection Hg as <-. left. by eapply Hw. }
    destruct (Hl _ _ _ _ Hh) as [->| ->]; [done|]. by rewrite Hh in Hf.
Qed.

#[global, refine] Instance writelog_mechanism : Mechanism wlstate := {|
  tol_hook := wl_tol; do_write := run_op c; memory_of := wmem; view_of := wl_view;
  in_scope x := ¬ in_log c x; op_allowed := op_ok c;
  ready s := wl_data s = WRITELOG_START c; armed := wl_armed; usable _ := True;
  intact s := Window.sa_window__is_open (win s) |}.
Proof.
  - intros s (m0 & es & [[Hd _ _ _ _] _ _] & _). exact Hd.
  - intros s s' b [= <- _]. unfold ltckpt_top_of_the_loop. by destruct (Ctx.CTX_NEW_TOL_OR_RETURN _ _) as [? []].
  - intros s s' b Hd _ Ht. destruct (wl_tol_law s s' b Hd Ht) as (Ha & _ & Hm & Hv). split; [done|].
    intros x Hx. rewrite Hm. split; [done|]. by apply Hv.
  - done.
  - done.
  - intros s o _ _. destruct (run_op c s o) eqn:E; [done|]. by eapply run_op_stop.
  - intros s o s' Hr Hw. apply run_op_inv in Hr as (s1 & Hh & ->). by eapply op_hook_open.
  - apply wl_write_law.
Defined.
End UndoLog.

(** ** The dirty bitmap *)

Section DirtyBitmap.
Context (k : bconf) (HT : BITMAP_TYPE k = BITMAP_PLAIN_EPOCH).
Context (b0 : Z) (Hb : b0 = 0 ∨ 3 ≤ b0) (mmap_ok : Z → bool).

Definition bm_ready (s : bstate) : Prop :=
  bitmap_ok k b0 s ∧ (LTCKPT_BITMAP_ALWAYS_ON k = true → ltckpt_bitmap_enabled s = true).
Definition bm_armed (s : bstate) : Prop := bitmap_ok k b0 s ∧ ltckpt_bitmap_enabled s = true.

Lemma bm_tol_law s s' b :
  bm_ready s → bitmap_top_of_the_loop k mmap_ok s = Ret (s', b) →
  (b = true ∨ bm_armed s → bm_armed s') ∧
  ∀ x, primary k b0 x → bmem s' x = bmem s x ∧ if b then restored k s' x = bmem s x else restored k s' x = restored k s x.
Proof.
  intros [Hok Hen] Ht. destruct b.
  - destruct (top_of_the_loop_spec k HT b0 Hb mmap_ok s s' Hok Ht) as (He & Hok' & _ & Hm).
    split; [|done]. intros _. split; [done|]. rewrite He. destruct (LTCKPT_BITMAP_ALWAYS_ON k); auto.
  - unfold bitmap_top_of_the_loop in Ht. destruct (Ctx.CTX_NEW_TOL_OR_RETURN _ _) as [c1 []]; cbn [negb] in Ht.
    { by apply res_bind_inv in Ht as (m & _ & (me & _ & Ht)%res_bind_inv). }
    injection Ht as <-. split; [|done]. intros [?|[Ha He]]; [done|]. by split.
Qed.

Lemma bm_tol_stop s f : bitmap_top_of_the_loop k mmap_ok s = Stop f → f = FAssert.
Proof.
  unfold bitmap_top_of_the_loop, next_bitmap, ltckpt_allocate_bitmap, ltckpt_allocate_shadow_space. intros Ht.
  repeat (case_match; cbn [res_bind] in *; simplify_eq; try done).
Qed.

#[global, refine] Instance bitmap_mechanism : Mechanism bstate := {|
  tol_hook := bitmap_top_of_the_loop k mmap_ok; do_write := bitmap_run_op k; memory_of := bmem; view_of := restored k;
  in_scope := primary k b0; op_allowed := op_covered k b0;
  ready := bm_ready; armed := bm_armed; usable := bm_armed; intact _ := true |}.
Proof.
  - intros s [H1 H2]. by split.
  - done.
  - intros s s' b Hs _. by apply bm_tol_law.
  - done.
  - intros s Hs. destruct (bitmap_top_of_the_loop k mmap_ok s) as [[s' b]|f] eqn:E; [|by eapply bm_tol_stop].
    apply (bm_tol_law s s' b); [by destruct Hs; split|done|by right].
  - intros s o [Hok He] Ho. destruct (run_op_restored k HT b0 Hb s o He Hok Ho) as (t & -> & He' & Hok' & _). by split.
  - done.
  - intros s o s' [Hok He] Ho Hr _. destruct (run_op_restored k HT b0 Hb s o He Hok Ho) as (t & E & He' & Hok' & _ & _ & Hm).
    rewrite E in Hr. injection Hr as <-. split; [by split|]. intros x Hx. destruct (Hm x Hx). done.
Defined.
End DirtyBitmap.

(** ** Page protection *)

Section PageProtection.
Context (k : env) (ctx_size : Z) (kernel_ok : ∀ a l b, mprotect_ret k a l b = 0).
Variable areas_ : list util_proc_maps_entry_t.

Definition in_areas (x : Z) : Prop := existsb (λ e, ENTRY_CONTAINS_ADDR e x) areas_ = true.

Definition mp_ready (s : mstate) : Prop :=
  (∃ r, mp_ok k s r) ∧ (∀ x, checkpointed s x = true ↔ in_areas x) ∧ Ctx.initialized (mctx s) ≠ 0.

Lemma mp_tol_law s s' b :
  mp_ready s → mprotect_top_of_the_loop k ctx_size s = Ret (s', b) →
  mp_ready s' ∧ ∀ x, in_areas x → pmem s' x = pmem s x ∧
    if b then recovered s' x = pmem s x else recovered s' x = recovered s x.
Proof.
  intros ([r H] & Hs & Hi) Ht. unfold mprotect_top_of_the_loop in Ht.
  destruct (Ctx.CTX_NEW_TOL_OR_RETURN (sz k) (mctx s)) as [c1 go] eqn:Ec.
  assert (Hc1 : Ctx.initialized c1 = Ctx.initialized (mctx s)).
  { unfold Ctx.CTX_NEW_TOL_OR_RETURN in Ec. by destruct (_ || _); injection Ec as <-. }
  assert (H1 : mp_ok k (set_mctx s c1) r) by (destruct H; by constructor).
  destruct go; cbn [negb] in Ht.
  - cbn [set_mctx mctx] in Ht. rewrite Hc1 in Ht. destruct (Z.eqb_spec (Ctx.initialized (mctx s)) 0); [done|].
    cbn [res_bind] in Ht. destruct (checkpoint_spec k kernel_ok _ _ H1) as (s2 & r2 & E2 & H2 & Hcp & Hm & Hctx & Hck & _).
    rewrite E2 in Ht. cbn [res_bind] in Ht. injection Ht as <- <-.
    assert (H3 : mp_ok k (set_mctx s2 (Ctx.CTX_NEW_CHECKPOINT (sz k) (mctx s2))) r2) by (destruct H2; by constructor).
    split; [split; [by eexists|split]|].
    + intros x. rewrite <- Hs. change (checkpointed s2 x = true ↔ checkpointed s x = true). by rewrite Hck.
    + cbn. rewrite Hctx. cbn. by rewrite Hc1.
    + intros x Hx. rewrite (recovered_clean _ _ _ _ H3)
        by (rewrite <- (copied_pages_eq _ _ _ H2), Hcp; apply not_elem_of_nil).
      cbn [set_mctx pmem]. by rewrite Hm.
  - injection Ht as <- <-. split; [split; [by eexists|split; [done|cbn; by rewrite Hc1]]|done].
Qed.

Lemma mp_write_law s o s' :
  mp_ready s → Forall in_areas (op_addrs o) → mprotect_run_op k s o = Ret s' →
  mp_ready s' ∧ ∀ x, in_areas x →
    pmem s' x = store_bytes (pmem s) (op_addr o) (op_bytes o) x ∧ recovered s' x = recovered s x.
Proof.
  intros ([r H] & Hs & Hi) Ho Hr.
  assert (W : writes k (mprotect_run_op k s o) s (op_addrs o) (λ m, store_bytes m (op_addr o) (op_bytes o))).
  { apply (write_bytes_writes k kernel_ok _ _ _ _ H). eapply Forall_impl; [exact Ho|]. intros x Hx. left. by apply Hs. }
  unfold writes in W. rewrite Hr in W. destruct (decide _); [|done]. destruct W as (t & [= <-] & W).
  split; [split; [|split]|].
  - by destruct W.
  - intros x. rewrite (wr_areas _ _ _ _ _ W). apply Hs.
  - by rewrite (wr_ctx _ _ _ _ _ W).
  - intros x Hx. apply Hs in Hx. split; [|by apply (wr_recovered _ _ _ _ _ W)].
    apply (wr_mem _ _ _ _ _ W). intros Hb. by rewrite (mo_apart _ _ _ H) in Hx.
Qed.

Lemma mp_tol_returns s : mp_ready s → ∃ s' b, mprotect_top_of_the_loop k ctx_size s = Ret (s', b).
Proof.
  intros ([r H] & _ & Hi). unfold mprotect_top_of_the_loop. destruct (Ctx.CTX_NEW_TOL_OR_RETURN (sz k) (mctx s)) as [c1 go] eqn:Ec.
  assert (Hc1 : Ctx.initialized c1 = Ctx.initialized (mctx s)).
  { unfold Ctx.CTX_NEW_TOL_OR_RETURN in Ec. by destruct (_ || _); injection Ec as <-. }
  destruct go; cbn [negb]; [|by do 2 eexists]. cbn [set_mctx mctx]. rewrite Hc1. destruct (Z.eqb_spec (Ctx.initialized (mctx s)) 0); [done|].
  assert (H1 : mp_ok k (set_mctx s c1) r) by (destruct H; by constructor).
  destruct (checkpoint_spec k kernel_ok _ _ H1) as (s2 & r2 & E2 & _). cbn [res_bind]. rewrite E2. by do 2 eexists.
Qed.

#[global, refine] Instance mprotect_mechanism : Mechanism mstate := {|
  tol_hook := mprotect_top_of_the_loop k ctx_size; do_write := mprotect_run_op k; memory_of := pmem; view_of := recovered;
  in_scope := in_areas; op_allowed o := Forall in_areas (op_addrs o);
  ready := mp_ready; armed := mp_ready; usable := mp_ready; intact _ := true |}.
Proof.
  - done.
  - done.
  - intros s s' b Hs _ Ht. destruct (mp_tol_law s s' b Hs Ht). by split.
  - done.
  - intros s Hs. destruct (mp_tol_returns s Hs) as (s' & b & E). rewrite E. by destruct (mp_tol_law s s' b Hs E).
  - intros s o Hs Ho. destruct (mprotect_run_op k s o) as [s'|f] eqn:E; [by destruct (mp_write_law s o s' Hs Ho E)|].
    destruct Hs as ([r H] & Hs & _).
    assert (W : writes k (mprotect_run_op k s o) s (op_addrs o) (λ m, store_bytes m (op_addr o) (op_bytes o))).
    { apply (write_bytes_writes k kernel_ok _ _ _ _ H). eapply Forall_impl; [exact Ho|]. intros x Hx. left. by apply Hs. }
    unfold writes in W. rewrite E in W. destruct (decide _); [by destruct W as (? & ? & _)|by injection W].
  - done.
  - intros s o s' Hs Ho Hr _. by apply mp_write_law.
Defined.
End PageProtection.

(** ** The three mechanisms *)


(** ** Witness *)

Definition demo_events (a : Z) : list event := [EWrite (OStore a [1; 2]); ECheckpoint; EWrite (OStore (a + 1) [6])].

(** Which events of a run took a checkpoint, or none if it stopped. *)
Definition taken {S} (r : res (S * list bool)) : list bool := match r with Ret (_, bs) => bs | Stop _ => [] end.

Lemma refined_at {S} intact memory view scope m es (r : res (S * list bool)) x u v :
  refines_store intact memory view scope m es r → taken r ≠ [] → scope x →
  (∀ s bs, r = Ret (s, bs) → intact s) → (replay (m, m) es (taken r)).1 x = u → (replay (m, m) es (taken r)).2 x = v →
  ∃ s bs, r = Ret (s, bs) ∧ memory s x = u ∧ view s x = v.
Proof. unfold refines_store, taken. destruct r as [[s bs]|f]; [|done]. intros Hr _ Hx Hi <- <-. exists s, bs. split; [done|]. by apply Hr; [apply (Hi s bs)|]. Qed.

Definition demo_mckpt : mstate := (ret_or (demo_boot, false) (mprotect_top_of_the_loop demo_menv 136 demo_boot)).1.
Lemma demo_mckpt_taken : mprotect_top_of_the_loop demo_menv 136 demo_boot = Ret (demo_mckpt, true).
Proof.
  unfold demo_mckpt. destruct (mprotect_top_of_the_loop demo_menv 136 demo_boot) as [[s0 []]|] eqn:E; [reflexivity|..];
    apply (f_equal (λ m, match m with Ret (_, b) => b | Stop _ => false end)) in E; by vm_compute in E.
Qed.
Definition demo_areas : list util_proc_maps_entry_t := [demo_area 0x600000 0x604000 "w" "/bin/server"].

Lemma demo_boot_ready : mp_ready demo_menv demo_areas demo_boot.
Proof.
  destruct demo_boot_inv as (r & H & _). split; [by exists r|]. split; [|vm_compute; discriminate]. intros x. done.
Qed.

Lemma demo_bstate_ready : bm_ready linux_bitmap 0 (demo_bstate 255).
Proof.
  split; [|done]. split; [simpl; lia|]. intros x Hx. rewrite (bitmap_eq linux_bitmap eq_refl 0) by done. cbn [bmem demo_bstate].
  unfold primary, base, psize in *. cbn in Hx |- *.
  match goal with |- context [?a =? 5000] => destruct (Z.eqb_spec a 5000) as [E|E] end; [|lia].
  exfalso. Z.div_mod_to_equations. lia.
Qed.

