(* ===== verification/Helper.v ===== *)
(** * Helpers of the log analysis tools: [hypermemloganalyze/common/helper.c]

    Strings, times, and the checked allocator: with [DEBUG_MEMORY] every
    allocation is registered in a hash table, so that a double free or a free of
    an unknown pointer aborts the tool.  A pointer is its address, 0 is [NULL];
    [abort ()] is the fault [FAssert].  The C library's allocator is outside: its
    result is an argument of the call. *)

From Stdlib Require Import ZArith Lia Ascii String.
From stdpp Require Import base list numbers strings gmap.
From S2P Require Import Prelude Decimal.

(** ** Strings *)

(** [char] is signed. *)
Definition schar (a : ascii) : Z := signed 8 (Z.of_N (N_of_ascii a)).
Definition uchar (a : ascii) : Z := Z.of_N (N_of_ascii a).

Fixpoint hashstr_loop (hash : Z) (s : string) : Z :=
  match s with
  | EmptyString => hash
  | String a s' => hashstr_loop (u64 (hash * 3 + schar a)) s'
  end.
Definition hashstr (s : string) : Z := hashstr_loop 0 s.

(** [strcmp] of the C library: the difference of the first different bytes. *)
Fixpoint strcmp (s1 s2 : string) : Z :=
  match s1, s2 with
  | EmptyString, EmptyString => 0
  | EmptyString, String b _ => - uchar b
  | String a _, EmptyString => uchar a
  | String a s1', String b s2' => if Ascii.eqb a b then strcmp s1' s2' else uchar a - uchar b
  end.

Definition safestrcmp (s1 s2 : option string) : Z :=
  match s1, s2 with
  | None, Some _ => -1
  | None, None => 0
  | Some _, None => 1
  | Some s1, Some s2 => strcmp s1 s2
  end.

(** The part after the last slash; [result] is the candidate so far. *)
Fixpoint basename_loop (result s : string) : string :=
  match s with
  | EmptyString => result
  | String a s' => basename_loop (if Ascii.eqb a "/" then s' else result) s'
  end.
Definition basename_const (s : string) : string := basename_loop s s.

Definition tolower (a : ascii) : ascii :=
  if (65 <=? uchar a) && (uchar a <=? 90) then ascii_of_N (Z.to_N (uchar a + 32)) else a.
Fixpoint string_map (f : ascii → ascii) (s : string) : string :=
  match s with EmptyString => EmptyString | String a s' => String (f a) (string_map f s') end.
Definition strcasecmp (s1 s2 : string) : Z := strcmp (string_map tolower s1) (string_map tolower s2).

Fixpoint string_drop (n : nat) (s : string) : string :=
  match n, s with S n', String _ s' => string_drop n' s' | _, _ => s end.

Definition ends_with (s substr : string) (ignore_case : bool) : bool :=
  let slen := String.length s in
  let substrlen := String.length substr in
  if (slen <? substrlen)%nat then false
  else (if ignore_case then strcasecmp else strcmp) (string_drop (slen - substrlen) s) substr =? 0.

(** A [string_ll] is the list of its strings. *)
Definition string_ll_add (ll : list string) (s : string) : list string := s :: ll.
Fixpoint string_ll_find (ll : list string) (s : string) : bool :=
  match ll with
  | [] => false
  | str :: ll' => if strcmp str s =? 0 then true else string_ll_find ll' s
  end.

(** ** Registered allocations *)

Record meminfo := {
  ptr : Z; mi_count : Z; mi_size : Z; mi_type : string; mi_file : string; mi_line : Z;
}.
Definition HASHTABLE_SIZE : Z := 262144.

(** The lists of the hash table, by index. *)
Definition hashtable := Z → list meminfo.

Definition hashptr (p : Z) : Z := Z.shiftr (u32 p) 4 `mod` HASHTABLE_SIZE.

Fixpoint list_find_ptr (p : Z) (l : list meminfo) : option meminfo :=
  match l with
  | [] => None
  | mi :: l' => if ptr mi =? p then Some mi else list_find_ptr p l'
  end.
Definition meminfo_find (h : hashtable) (p : Z) : option meminfo := list_find_ptr p (h (hashptr p)).

Definition set_list (h : hashtable) (i : Z) (l : list meminfo) : hashtable :=
  λ j, if j =? i then l else h j.

(** The new entry goes to the end of its list, where the search stopped. *)
Definition meminfo_register (h : hashtable) (mi : meminfo) : res hashtable :=
  if ptr mi =? 0 then Ret h
  else match meminfo_find h (ptr mi) with
       | Some _ => Stop FAssert
       | None => Ret (set_list h (hashptr (ptr mi)) (h (hashptr (ptr mi)) ++ [mi]))
       end.

Fixpoint list_unlink (p : Z) (l : list meminfo) : list meminfo :=
  match l with
  | [] => []
  | mi :: l' => if ptr mi =? p then l' else mi :: list_unlink p l'
  end.

(** The result is what the caller's [meminfo] gets. *)
Definition meminfo_unregister (h : hashtable) (p : Z) : res (hashtable * option meminfo) :=
  if p =? 0 then Ret (h, None)
  else match meminfo_find h p with
       | None => Stop FAssert
       | Some mi => Ret (set_list h (hashptr p) (list_unlink p (h (hashptr p))), Some mi)
       end.

Definition checkptr (h : hashtable) (p : Z) : res hashtable :=
  match meminfo_find h p with Some _ => Ret h | None => Stop FAssert end.

(** ** The checked allocator *)

Definition alloc_multiply (count size : Z) : res Z :=
  let result := u64 (count * size) in
  if size =? 0 then Stop FDivZero
  else if result / size =? count then Ret result else Stop FAssert.

Section Alloc.
Variables (ty fl : string) (ln : Z).

Definition info (p count size : Z) : meminfo :=
  {| ptr := p; mi_count := count; mi_size := size; mi_type := ty; mi_file := fl; mi_line := ln |}.

(** [p] is what the C library's allocator returns. *)
Definition calloc_checked (h : hashtable) (count size p : Z) : res (hashtable * Z) :=
  if (count =? 0) || (size =? 0) then Ret (h, 0)
  else if p =? 0 then Stop FAssert
  else let! h := meminfo_register h (info p count size) in Ret (h, p).

Definition malloc_checked (h : hashtable) (count size p : Z) : res (hashtable * Z) :=
  if (count =? 0) || (size =? 0) then Ret (h, 0)
  else
    let! _ := alloc_multiply count size in
    if p =? 0 then Stop FAssert
    else let! h := meminfo_register h (info p count size) in Ret (h, p).

(** Also: the number of bytes overwritten with 0xdb before the free. *)
Definition free_checked (h : hashtable) (p : Z) : res (hashtable * Z) :=
  let! r := meminfo_unregister h p in
  Ret (r.1, match r.2 with Some mi => u64 (mi_count mi * mi_size mi) | None => 0 end).

Definition realloc_checked (h : hashtable) (old count size p : Z) : res (hashtable * Z) :=
  if (count =? 0) || (size =? 0) then
    let! h := if negb (old =? 0) then let! r := free_checked h old in Ret r.1 else Ret h in Ret (h, 0)
  else
    let! r := meminfo_unregister h old in
    let! _ := alloc_multiply count size in
    if p =? 0 then Stop FAssert
    else let! h := meminfo_register r.1 (info p count size) in Ret (h, p).

Definition strdup_checked (h : hashtable) (s : option string) (p : Z) : res (hashtable * Z) :=
  match s with
  | None => Ret (h, 0)
  | Some s =>
      if p =? 0 then Stop FAssert
      else let! h := meminfo_register h
             {| ptr := p; mi_count := Z.of_nat (String.length s) + 1; mi_size := 1;
                mi_type := "char"; mi_file := fl; mi_line := ln |} in Ret (h, p)
  end.
End Alloc.

(** ** Times *)

Definition timeval_add (dst src : timeval) : timeval :=
  let sec := tv_sec dst + tv_sec src in
  let usec := tv_usec dst + tv_usec src in
  if 1000000 <=? usec then {| tv_sec := sec + 1; tv_usec := usec - 1000000 |}
  else {| tv_sec := sec; tv_usec := usec |}.

Definition timeval_subtract (dst src : timeval) : timeval :=
  let sec := tv_sec dst - tv_sec src in
  if tv_usec dst <? tv_usec src then {| tv_sec := sec - 1; tv_usec := tv_usec dst + 1000000 - tv_usec src |}
  else {| tv_sec := sec; tv_usec := tv_usec dst - tv_usec src |}.

Definition timeval_compare (src1 src2 : timeval) : res Z :=
  assert! (0 <=? tv_usec src1) in
  assert! (tv_usec src1 <? 1000000) in
  assert! (0 <=? tv_usec src2) in
  assert! (tv_usec src2 <? 1000000) in
  Ret (if tv_sec src2 <? tv_sec src1 then 1
       else if tv_sec src1 <? tv_sec src2 then -1
       else if tv_usec src2 <? tv_usec src1 then 1
       else if tv_usec src1 <? tv_usec src2 then -1 else 0).

Definition timeval_is_zero (src : timeval) : bool := (tv_sec src =? 0) && (tv_usec src =? 0).

Definition timeval_set_to_max (dst src : timeval) : res timeval :=
  if timeval_is_zero src then Ret dst
  else if timeval_is_zero dst then Ret src
  else let! c := timeval_compare dst src in Ret (if c <? 0 then src else dst).

Definition timeval_set_to_min (dst src : timeval) : res timeval :=
  if timeval_is_zero src then Ret dst
  else if timeval_is_zero dst then Ret src
  else let! c := timeval_compare dst src in Ret (if 0 <? c then src else dst).

(** ** Comparison *)

(** C strings contain no NUL. *)
Definition plain (s : string) : bool := string_forall (λ a, negb (Ascii.eqb a "000")) s.

Lemma uchar_0 a : uchar a = 0 ↔ a = "000"%char.
Proof.
  unfold uchar. split; [|by intros ->]. intros H.
  rewrite <- (ascii_N_embedding a). by replace (N_of_ascii a) with 0%N by lia.
Qed.

Lemma uchar_inj a b : uchar a = uchar b → a = b.
Proof. unfold uchar. intros H. rewrite <- (ascii_N_embedding a), <- (ascii_N_embedding b). f_equal. lia. Qed.

Lemma plain_cons a s : plain (String a s) = true ↔ a ≠ "000"%char ∧ plain s = true.
Proof. unfold plain. simpl. by rewrite andb_true_iff, negb_true_iff, Ascii.eqb_neq. Qed.

Lemma strcmp_0 s1 s2 : plain s1 = true → plain s2 = true → strcmp s1 s2 = 0 ↔ s1 = s2.
Proof.
  revert s2. induction s1 as [|a s1 IH]; intros [|b s2] H1 H2; simpl; [done| | |].
  - apply plain_cons in H2 as [Hb _]. rewrite <- uchar_0 in Hb. split; [lia|done].
  - apply plain_cons in H1 as [Ha _]. rewrite <- uchar_0 in Ha. split; [lia|done].
  - apply plain_cons in H1 as [Ha H1]. apply plain_cons in H2 as [Hb H2].
    destruct (Ascii.eqb_spec a b) as [->|Hab].
    + rewrite IH by done. naive_solver.
    + split; [|congruence]. intros H. destruct Hab. apply uchar_inj. lia.
Qed.

Lemma strcmp_refl s : strcmp s s = 0.
Proof. induction s as [|a s IH]; simpl; [done|]. by rewrite Ascii.eqb_refl. Qed.

Lemma strcmp_eqb s1 s2 : plain s1 = true → plain s2 = true → (strcmp s1 s2 =? 0) = bool_decide (s1 = s2).
Proof.
  intros H1 H2. apply eq_true_iff_eq. rewrite Z.eqb_eq, bool_decide_eq_true. by apply strcmp_0.
Qed.

(** ** What the checked allocator promises

    The specification keeps the live blocks in a map and refuses (aborts on)
    every call that cannot be right. *)

Inductive alloc_call :=
| CCalloc (count size p : Z)
| CMalloc (count size p : Z)
| CRealloc (old count size p : Z)
| CFree (p : Z)
| CCheck (p : Z).

Section Allocator.
Variables (ty fl : string) (ln : Z).

Definition do_call (h : hashtable) (c : alloc_call) : res hashtable :=
  match c with
  | CCalloc n s p => let! r := calloc_checked ty fl ln h n s p in Ret r.1
  | CMalloc n s p => let! r := malloc_checked ty fl ln h n s p in Ret r.1
  | CRealloc q n s p => let! r := realloc_checked ty fl ln h q n s p in Ret r.1
  | CFree p => let! r := free_checked h p in Ret r.1
  | CCheck p => checkptr h p
  end.

Definition live_alloc (m : gmap Z meminfo) (n s p : Z) : option (gmap Z meminfo) :=
  if p =? 0 then None
  else match m !! p with Some _ => None | None => Some (<[p := info ty fl ln p n s]> m) end.

Definition live_free (m : gmap Z meminfo) (p : Z) : option (gmap Z meminfo) :=
  if p =? 0 then Some m else match m !! p with Some _ => Some (delete p m) | None => None end.

Definition live_call (m : gmap Z meminfo) (c : alloc_call) : option (gmap Z meminfo) :=
  match c with
  | CCalloc n s p => if (n =? 0) || (s =? 0) then Some m else live_alloc m n s p
  | CMalloc n s p =>
      if (n =? 0) || (s =? 0) then Some m else if n * s <? 2^64 then live_alloc m n s p else None
  | CRealloc q n s p =>
      m' ← live_free m q;
      if (n =? 0) || (s =? 0) then Some m' else if n * s <? 2^64 then live_alloc m' n s p else None
  | CFree p => live_free m p
  | CCheck p => if bool_decide (is_Some (m !! p)) then Some m else None
  end.

Definition call_ok (c : alloc_call) : bool :=
  match c with
  | CCalloc n s _ | CMalloc n s _ | CRealloc _ n s _ => (0 <=? n) && (n <? 2^64) && (0 <=? s) && (s <? 2^64)
  | CFree _ | CCheck _ => true
  end.

(** The hash table holds exactly the live blocks, each in its list. *)
Record represents (h : hashtable) (m : gmap Z meminfo) : Prop := {
  rp_nodup : ∀ i, NoDup (ptr <$> h i);
  rp_hash : ∀ i mi, mi ∈ h i → hashptr (ptr mi) = i;
  rp_live : ∀ p mi, m !! p = Some mi ↔ mi ∈ h (hashptr p) ∧ ptr mi = p;
  rp_null : m !! 0 = None;
}.

Lemma list_find_ptr_Some p l mi :
  NoDup (ptr <$> l) → list_find_ptr p l = Some mi ↔ mi ∈ l ∧ ptr mi = p.
Proof.
  induction l as [|x l IH]; simpl; intros Hnd.
  { split; [done|]. by intros [H%not_elem_of_nil _]. }
  apply NoDup_cons in Hnd as [Hx Hnd]. rewrite elem_of_cons. destruct (Z.eqb_spec (ptr x) p) as [Hp|Hp].
  - split; [intros [= <-]; auto|]. intros [[->|Hin] Heq]; [done|].
    destruct Hx. rewrite Hp, <- Heq. by apply list_elem_of_fmap_2.
  - rewrite IH by done. naive_solver.
Qed.

Lemma meminfo_find_live h m p : represents h m → meminfo_find h p = m !! p.
Proof.
  intros [Hnd _ Hlive _]. apply option_eq. intros mi. unfold meminfo_find.
  by rewrite list_find_ptr_Some, Hlive by done.
Qed.

Lemma elem_of_list_unlink p l mi :
  NoDup (ptr <$> l) → mi ∈ list_unlink p l ↔ mi ∈ l ∧ ptr mi ≠ p.
Proof.
  induction l as [|x l IH]; simpl; intros Hnd.
  { rewrite elem_of_nil. naive_solver. }
  apply NoDup_cons in Hnd as [Hx Hnd]. rewrite elem_of_cons. destruct (Z.eqb_spec (ptr x) p) as [Hp|Hp].
  - split; [|naive_solver]. intros Hin. split; [auto|]. intros Heq. destruct Hx.
    rewrite Hp, <- Heq. by apply list_elem_of_fmap_2.
  - rewrite elem_of_cons, IH by done. naive_solver.
Qed.

Lemma list_unlink_sublist p l : sublist (list_unlink p l) l.
Proof. induction l as [|x l IH]; simpl; [done|]. case_match; by constructor. Qed.

Lemma register_refines h m n s p :
  represents h m →
  match live_alloc m n s p with
  | Some m' => p ≠ 0 ∧ ∃ h', meminfo_register h (info ty fl ln p n s) = Ret h' ∧ represents h' m'
  | None => p = 0 ∨ meminfo_register h (info ty fl ln p n s) = Stop FAssert
  end.
Proof.
  intros Hr. unfold live_alloc, meminfo_register. simpl. destruct (Z.eqb_spec p 0) as [->|Hp]; [by left|].
  rewrite (meminfo_find_live _ _ _ Hr). destruct (m !! p) as [mi|] eqn:Hm; [by right|].
  split; [done|]. eexists. split; [done|]. destruct Hr as [Hnd Hhash Hlive Hnull].
  assert (Hnew : ∀ mi, mi ∈ h (hashptr p) → ptr mi ≠ p).
  { intros mi Hin Heq. apply (conj Hin), Hlive in Heq. congruence. }
  split; unfold set_list.
  - intros i. destruct (Z.eqb_spec i (hashptr p)) as [->|]; [|done].
    rewrite fmap_app. apply NoDup_app. split; [done|]. split; [|apply NoDup_singleton].
    intros x (mi & -> & Hin)%list_elem_of_fmap Hx. simpl in Hx. apply list_elem_of_singleton in Hx.
    by apply (Hnew mi).
  - intros i mi. destruct (Z.eqb_spec i (hashptr p)) as [->|]; [|auto].
    rewrite elem_of_app, list_elem_of_singleton. intros [Hin| ->]; [by apply Hhash|done].
  - intros q mi. rewrite lookup_insert_Some. destruct (Z.eqb_spec (hashptr q) (hashptr p)) as [Hq|Hq].
    + rewrite elem_of_app, list_elem_of_singleton. split.
      * intros [[<- <-]|[Hne Hmi]]; [auto|]. apply Hlive in Hmi. rewrite <- Hq. naive_solver.
      * intros [[Hin| ->] Heq]; [|left; done]. right. split; [intros ->; by eapply Hnew|].
        apply Hlive. by rewrite Hq.
    + rewrite Hlive. naive_solver.
  - rewrite lookup_insert_ne by done. done.
Qed.

Lemma unregister_refines h m p :
  represents h m →
  match live_free m p with
  | Some m' => ∃ h' mi, meminfo_unregister h p = Ret (h', mi) ∧ represents h' m'
  | None => meminfo_unregister h p = Stop FAssert
  end.
Proof.
  intros Hr. unfold live_free, meminfo_unregister. destruct (Z.eqb_spec p 0) as [->|Hp]; [by eauto|].
  rewrite (meminfo_find_live _ _ _ Hr). destruct (m !! p) as [mi|] eqn:Hm; [|done].
  do 2 eexists. split; [done|]. destruct Hr as [Hnd Hhash Hlive Hnull]. split; unfold set_list.
  - intros i. destruct (Z.eqb_spec i (hashptr p)) as [->|]; [|done].
    eapply sublist_NoDup; [apply (Hnd (hashptr p))|]. apply (fmap_sublist ptr), list_unlink_sublist.
  - intros i x. destruct (Z.eqb_spec i (hashptr p)) as [->|]; [|auto].
    rewrite elem_of_list_unlink by done. intros [? _]. by apply Hhash.
  - intros q x. rewrite lookup_delete_Some. destruct (Z.eqb_spec (hashptr q) (hashptr p)) as [Hq|Hq].
    + rewrite elem_of_list_unlink, Hlive, Hq by done. naive_solver.
    + rewrite Hlive. naive_solver.
  - rewrite lookup_delete_None. auto.
Qed.

Lemma alloc_multiply_spec n s :
  0 ≤ n < 2^64 → 0 < s → alloc_multiply n s = if n * s <? 2^64 then Ret (n * s) else Stop FAssert.
Proof.
  intros Hn Hs. unfold alloc_multiply. destruct (Z.eqb_spec s 0); [lia|].
  destruct (Z.ltb_spec (n * s) (2^64)) as [Hsm|Hbig].
  - rewrite u64_small, Z.div_mul by nia. by rewrite Z.eqb_refl.
  - destruct (Z.eqb_spec (u64 (n * s) / s) n) as [Heq|]; [|done].
    pose proof (Z.mul_div_le (u64 (n * s)) s Hs). pose proof (u64_range (n * s)). nia.
Qed.

(** One call refines one step of the specification. *)
Definition refines_call (r : res hashtable) (o : option (gmap Z meminfo)) : Prop :=
  match o with
  | Some m' => ∃ h', r = Ret h' ∧ represents h' m'
  | None => r = Stop FAssert
  end.

Lemma register_call h m n s p :
  represents h m →
  refines_call (let! r := if p =? 0 then Stop FAssert
                          else let! h := meminfo_register h (info ty fl ln p n s) in Ret (h, p) in Ret r.1)
               (live_alloc m n s p).
Proof.
  intros Hr. pose proof (register_refines h m n s p Hr) as H. unfold refines_call.
  destruct (live_alloc m n s p) eqn:Hl.
  - destruct H as (Hp & h' & Hreg & Hr'). destruct (Z.eqb_spec p 0); [done|]. rewrite Hreg. simpl. eauto.
  - destruct (Z.eqb_spec p 0); [done|]. destruct H as [?|Hreg]; [done|]. by rewrite Hreg.
Qed.

Lemma do_call_refines h m c :
  represents h m → call_ok c = true → refines_call (do_call h c) (live_call m c).
Proof.
  intros Hr Hok. destruct c as [n s p|n s p|q n s p|p|p]; cbn [do_call live_call call_ok] in *.
  - unfold calloc_checked. destruct ((n =? 0) || (s =? 0)) eqn:Hz; [simpl; eauto|]. by apply register_call.
  - unfold malloc_checked. destruct ((n =? 0) || (s =? 0)) eqn:Hz; [simpl; eauto|].
    rewrite alloc_multiply_spec by zb. destruct (n * s <? 2^64); [|done]. by apply register_call.
  - unfold realloc_checked, free_checked. pose proof (unregister_refines h m q Hr) as H.
    destruct (live_free m q) as [m'|] eqn:Hl; cbn [mbind option_bind].
    + destruct H as (h' & mi & Hu & Hr'). destruct ((n =? 0) || (s =? 0)) eqn:Hz.
      * destruct (Z.eqb_spec q 0) as [->|]; simpl.
        { unfold meminfo_unregister in Hu. simpl in Hu. injection Hu as -> _. eauto. }
        rewrite Hu. simpl. eauto.
      * rewrite Hu. cbn [res_bind fst]. rewrite alloc_multiply_spec by zb.
        destruct (n * s <? 2^64); [|done]. by apply register_call.
    + destruct (Z.eqb_spec q 0) as [->|]; [done|]. rewrite H. by destruct ((n =? 0) || (s =? 0)).
  - unfold free_checked. pose proof (unregister_refines h m p Hr) as H.
    destruct (live_free m p); [|by rewrite H]. destruct H as (h' & mi & Hu & Hr'). rewrite Hu. simpl. eauto.
  - unfold checkptr. rewrite (meminfo_find_live _ _ _ Hr).
    destruct (m !! p) eqn:Hm; [rewrite bool_decide_true by eauto; simpl; eauto|].
    rewrite bool_decide_false by (by intros [? [=]]). done.
Qed.

Fixpoint live_calls (m : gmap Z meminfo) (cs : list alloc_call) : option (gmap Z meminfo) :=
  match cs with [] => Some m | c :: cs' => m' ← live_call m c; live_calls m' cs' end.

Lemma do_calls_refine cs h m :
  represents h m → forallb call_ok cs = true → refines_call (res_foldl do_call h cs) (live_calls m cs).
Proof.
  revert h m. induction cs as [|c cs IH]; intros h m Hr Hok; simpl; [eauto|].
  simpl in Hok. apply andb_true_iff in Hok as [Hc Hcs]. pose proof (do_call_refines h m c Hr Hc) as H.
  destruct (live_call m c) as [m'|]; simpl in *; [|by rewrite H].
  destruct H as (h' & -> & Hr'). simpl. by apply IH.
Qed.
End Allocator.

Lemma represents_empty : represents (λ _, []) ∅.
Proof.
  split; [intros; apply NoDup_nil_2 | by intros i mi ?%not_elem_of_nil | | done].
  intros p mi. split; [done|]. by intros [H%not_elem_of_nil _].
Qed.

(** The checked allocator implements its specification.  For every sequence
    of allocations, reallocations, frees and pointer checks, with any results of
    the C library's allocator, the tool aborts exactly when the specification
    refuses a call (a double free, a free or check of an unknown pointer, a size
    that overflows, a failed or repeated allocation); otherwise a search in the
    hash table finds exactly the live blocks. *)
Theorem allocator_refines ty fl ln cs :
  forallb call_ok cs = true →
  match live_calls ty fl ln ∅ cs with
  | Some m => ∃ h, res_foldl (do_call ty fl ln) (λ _, []) cs = Ret h ∧ ∀ p, meminfo_find h p = m !! p
  | None => res_foldl (do_call ty fl ln) (λ _, []) cs = Stop FAssert
  end.
Proof.
  intros Hok. pose proof (do_calls_refine ty fl ln cs _ _ represents_empty Hok) as H.
  destruct (live_calls ty fl ln ∅ cs) as [m|]; simpl in H; [|done].
  destruct H as (h & Hrun & Hr). exists h. split; [done|]. intros p. by apply meminfo_find_live.
Qed.

Lemma allocator_refines_witness :
  res_foldl (do_call "char" "a.c" 1) (λ _, []) [CMalloc 4 8 4096; CRealloc 4096 8 8 8192; CFree 4096] = Stop FAssert.
Proof.
  apply (allocator_refines "char" "a.c" 1 [CMalloc 4 8 4096; CRealloc 4096 8 8 8192; CFree 4096]).
  reflexivity.
Defined.

(** ** Times as microseconds *)

Definition timeval_ok (t : timeval) : bool := (0 <=? tv_usec t) && (tv_usec t <? 1000000).
Definition usecs (t : timeval) : Z := tv_sec t * 1000000 + tv_usec t.

(** Times are compared, added and subtracted as numbers of microseconds, and
    stay normalised; maximum and minimum ignore the unset time 0. *)
Theorem timeval_arithmetic a b :
  timeval_ok a = true → timeval_ok b = true →
  (timeval_ok (timeval_add a b) = true ∧ usecs (timeval_add a b) = usecs a + usecs b) ∧
  (timeval_ok (timeval_subtract a b) = true ∧ usecs (timeval_subtract a b) = usecs a - usecs b) ∧
  timeval_compare a b = Ret (match usecs a ?= usecs b with Gt => 1 | Lt => -1 | Eq => 0 end) ∧
  (usecs a ≠ 0 → usecs b ≠ 0 →
    (∃ c, timeval_set_to_max a b = Ret c ∧ usecs c = Z.max (usecs a) (usecs b)) ∧
    (∃ c, timeval_set_to_min a b = Ret c ∧ usecs c = Z.min (usecs a) (usecs b))).
Proof.
  unfold timeval_ok, timeval_compare. intros Ha Hb. zb.
  split; [|split; [|split]].
  - unfold timeval_add, usecs. case_match; simpl; split; zb.
  - unfold timeval_subtract, usecs. case_match; simpl; split; zb.
  - rewrite !(proj2 (Z.leb_le _ _)), !(proj2 (Z.ltb_lt _ _)) by lia.
    destruct (Z.compare_spec (usecs a) (usecs b)); unfold usecs in *; repeat case_match; try done; exfalso; zb.
  - intros Ha0 Hb0. unfold timeval_set_to_max, timeval_set_to_min, timeval_is_zero, timeval_compare, usecs in *.
    rewrite !(proj2 (Z.leb_le _ _)), !(proj2 (Z.ltb_lt _ _)) by lia. simpl.
    split; repeat case_match; eexists; (split; [reflexivity|]); zb.
Qed.

Lemma timeval_arithmetic_witness :
  timeval_compare {| tv_sec := 1; tv_usec := 999999 |} {| tv_sec := 2; tv_usec := 0 |} = Ret (-1) ∧
  usecs (timeval_add {| tv_sec := 1; tv_usec := 999999 |} {| tv_sec := 2; tv_usec := 1 |}) = 4000000.
Proof.
  split.
  - apply (timeval_arithmetic {| tv_sec := 1; tv_usec := 999999 |} {| tv_sec := 2; tv_usec := 0 |}); reflexivity.
  - apply (timeval_arithmetic {| tv_sec := 1; tv_usec := 999999 |} {| tv_sec := 2; tv_usec := 1 |}); reflexivity.
Defined.
