(* ===== verification/LogInfo.v ===== *)
(** * Log files of experiments: [hypermemloganalyze/loginfo.c]

    What the log analysis keeps of a log: the step the run is in, and for every module
    what happened in each step.  The handlers are the callbacks of the log reader
    ([LogReader]); warnings on [stderr] are left out.  The arrays of a module that are
    indexed by steps are functions, the three arrays on faults and the three on restarts
    one function each. *)

From Stdlib Require Import ZArith Lia Ascii String.
From stdpp Require Import base list numbers strings.
From S2P Require Import Prelude Decimal LogFmt LogParse LogReader Helper.

(** ** Data of [loginfo.h] *)

Inductive logstep :=
| logstep_before_qemu_start | logstep_qemu_start | logstep_before_sanity_pre | logstep_after_sanity_pre
| logstep_workload_start | logstep_workload_report | logstep_workload_completed
| logstep_workload_end | logstep_after_sanity_post | logstep_qemu_exit.
#[export] Instance logstep_eq_dec : EqDecision logstep.
Proof. solve_decision. Defined.

(** The order of the enumeration, the same with and without [LOGSTEP_ALL]. *)
Definition step_number (st : logstep) : Z :=
  match st with
  | logstep_before_qemu_start => 0 | logstep_qemu_start => 1 | logstep_before_sanity_pre => 2 | logstep_after_sanity_pre => 3
  | logstep_workload_start => 4 | logstep_workload_report => 5 | logstep_workload_completed => 6
  | logstep_workload_end => 7 | logstep_after_sanity_post => 8 | logstep_qemu_exit => 9
  end.

Definition unset : timeval := {| tv_sec := 0; tv_usec := 0 |}.
(** A count with the times of its first and last event. *)
Record tally := { t_count : Z; t_first : timeval; t_last : timeval }.
Definition no_tally : tally := {| t_count := 0; t_first := unset; t_last := unset |}.

Record loginfo_module := {
  im_name : string;
  time_startup : timeval;
  time_context_set : timeval;
  time_faultindex_get : timeval;
  im_fault_bb_index : option Z;      (** one-based; [fault_bb_index_set] *)
  stats_time : logstep → timeval;
  im_bb_count : Z;
  im_execcount : option (list Z);
  im_faults : logstep → tally;
  im_restarts : logstep → tally;
}.

Record loginfo := {
  drive0 : option string;
  drive1 : option string;
  li_faultspec : option string;
  workload_reported : option string;
  sanity_passed_pre : bool;
  sanity_passed_post : bool;
  step_time : logstep → timeval;
  li_modules : list loginfo_module;
  li_step : logstep;
}.
Definition loginfo_zero : loginfo :=
  {| drive0 := None; drive1 := None; li_faultspec := None; workload_reported := None; sanity_passed_pre := false; sanity_passed_post := false;
     step_time := λ _, unset; li_modules := []; li_step := logstep_before_qemu_start |}.
Definition new_module (name : string) : loginfo_module :=
  {| im_name := name; time_startup := unset; time_context_set := unset; time_faultindex_get := unset; im_fault_bb_index := None;
     stats_time := λ _, unset; im_bb_count := 0; im_execcount := None; im_faults := λ _, no_tally; im_restarts := λ _, no_tally |}.

(** Assignment to an element of an array over the steps. *)
Definition set_at {A} (f : logstep → A) (st : logstep) (v : A) : logstep → A := λ s, if decide (s = st) then v else f s.

Definition with_modules (li : loginfo) (l : list loginfo_module) : loginfo :=
  {| drive0 := drive0 li; drive1 := drive1 li; li_faultspec := li_faultspec li; workload_reported := workload_reported li;
     sanity_passed_pre := sanity_passed_pre li; sanity_passed_post := sanity_passed_post li; step_time := step_time li;
     li_modules := l; li_step := li_step li |}.
Definition with_texts (li : loginfo) (d0 d1 spec workload : option string) : loginfo :=
  {| drive0 := d0; drive1 := d1; li_faultspec := spec; workload_reported := workload;
     sanity_passed_pre := sanity_passed_pre li; sanity_passed_post := sanity_passed_post li; step_time := step_time li;
     li_modules := li_modules li; li_step := li_step li |}.

(** ** Modules *)

(** [loginfo_module_add], and what the handler does to the module. *)
Fixpoint on_named (name : string) (k : loginfo_module → res loginfo_module) (l : list loginfo_module) : res (list loginfo_module) :=
  match l with
  | [] => let! m := k (new_module name) in Ret [m]
  | m :: l' => if decide (im_name m = name) then let! m := k m in Ret (m :: l') else let! l' := on_named name k l' in Ret (m :: l')
  end.
Definition on_module (name : string) (k : loginfo_module → res loginfo_module) (li : loginfo) : res loginfo :=
  let! l := on_named name k (li_modules li) in Ret (with_modules li l).

Definition with_times (m : loginfo_module) (startup context faultindex : timeval) : loginfo_module :=
  {| im_name := im_name m; time_startup := startup; time_context_set := context; time_faultindex_get := faultindex;
     im_fault_bb_index := im_fault_bb_index m; stats_time := stats_time m; im_bb_count := im_bb_count m; im_execcount := im_execcount m;
     im_faults := im_faults m; im_restarts := im_restarts m |}.
Definition with_fault_index (m : loginfo_module) (i : option Z) : loginfo_module :=
  {| im_name := im_name m; time_startup := time_startup m; time_context_set := time_context_set m; time_faultindex_get := time_faultindex_get m;
     im_fault_bb_index := i; stats_time := stats_time m; im_bb_count := im_bb_count m; im_execcount := im_execcount m;
     im_faults := im_faults m; im_restarts := im_restarts m |}.
Definition with_stats (m : loginfo_module) (times : logstep → timeval) (n : Z) (e : option (list Z)) : loginfo_module :=
  {| im_name := im_name m; time_startup := time_startup m; time_context_set := time_context_set m; time_faultindex_get := time_faultindex_get m;
     im_fault_bb_index := im_fault_bb_index m; stats_time := times; im_bb_count := n; im_execcount := e;
     im_faults := im_faults m; im_restarts := im_restarts m |}.
Definition with_tallies (m : loginfo_module) (faults restarts : logstep → tally) : loginfo_module :=
  {| im_name := im_name m; time_startup := time_startup m; time_context_set := time_context_set m; time_faultindex_get := time_faultindex_get m;
     im_fault_bb_index := im_fault_bb_index m; stats_time := stats_time m; im_bb_count := im_bb_count m; im_execcount := im_execcount m;
     im_faults := faults; im_restarts := restarts |}.

(** [+= repeat], [timeval_set_to_min] and [timeval_set_to_max]. *)
Definition tally_add (t : tally) (repeat : Z) (ts : timeval) : res tally :=
  let! first := timeval_set_to_min (t_first t) ts in
  let! last := timeval_set_to_max (t_last t) ts in
  Ret {| t_count := u32 (t_count t + repeat); t_first := first; t_last := last |}.

Fixpoint before_at (s : string) : string :=
  match s with EmptyString => EmptyString | String a s' => if Ascii.eqb a "@" then EmptyString else String a (before_at s') end.
Definition module_name_matches (modname fullname : string) : bool := bool_decide (before_at fullname = modname).

(** ** The handlers *)

Section Handlers.
(** [LOGSTEP_ALL] and [IGNORE_EXECCOUNTS]. *)
Variables logstep_all ignore_execcounts : bool.

Definition set_logstep (ts : timeval) (st : logstep) (li : loginfo) : loginfo :=
  {| drive0 := drive0 li; drive1 := drive1 li; li_faultspec := li_faultspec li; workload_reported := workload_reported li;
     sanity_passed_pre := sanity_passed_pre li; sanity_passed_post := sanity_passed_post li;
     step_time := if step_number st <=? step_number (li_step li) then step_time li else set_at (step_time li) st ts;
     li_modules := li_modules li; li_step := st |}.

Definition handler_qemu_drive (index : Z) (img : string) (li : loginfo) : loginfo :=
  if index =? 0 then
    match drive0 li with Some _ => li | None => with_texts li (Some img) (drive1 li) (li_faultspec li) (workload_reported li) end
  else if index =? 1 then
    match drive1 li with Some _ => li | None => with_texts li (drive0 li) (Some img) (li_faultspec li) (workload_reported li) end
  else li.

Definition alloc_counts (bbs : list Z) : option (list Z) := match bbs with [] => None | _ => Some bbs end.
Definition dump_stats_module (ts : timeval) (st : logstep) (bbs : list Z) (m : loginfo_module) : loginfo_module :=
  let times := set_at (stats_time m) st ts in
  if ignore_execcounts then with_stats m times (im_bb_count m) (im_execcount m)
  else if im_bb_count m =? 0 then with_stats m times (s32 (Z.of_nat (length bbs))) (alloc_counts bbs)
  else if negb (u64 (im_bb_count m) =? Z.of_nat (length bbs)) then with_stats m times (im_bb_count m) (im_execcount m)
  else with_stats m times (im_bb_count m) (alloc_counts bbs).

Definition faultindex_get (ts : timeval) (name : string) (bbindex : Z) (m : loginfo_module) : loginfo_module :=
  if module_name_matches name (im_name m) then
    match im_fault_bb_index m with
    | None => with_fault_index (with_times m (time_startup m) (time_context_set m) ts) (Some (s32 bbindex))
    | Some _ => m
    end
  else m.

Definition handler_print_sanity (ts : timeval) (passed posttest : bool) (li : loginfo) : loginfo :=
  let li := set_logstep ts (if posttest then logstep_after_sanity_post else logstep_after_sanity_pre) li in
  if passed then
    {| drive0 := drive0 li; drive1 := drive1 li; li_faultspec := li_faultspec li; workload_reported := workload_reported li;
       sanity_passed_pre := if posttest then sanity_passed_pre li else true;
       sanity_passed_post := if posttest then true else sanity_passed_post li;
       step_time := step_time li; li_modules := li_modules li; li_step := li_step li |}
  else li.

(** The callbacks, for each call of the reader. *)
Definition loginfo_handle (ts : timeval) (x : call) (li : loginfo) : res loginfo :=
  let st := li_step li in
  match x with
  | edfi_context_reset name =>
      on_module name (λ m, let! t := tally_add (im_restarts m st) 1 ts in Ret (with_tallies m (im_faults m) (set_at (im_restarts m) st t))) li
  | edfi_context_set name => on_module name (λ m, Ret (with_times m (time_startup m) ts (time_faultindex_get m))) li
  | edfi_dump_stats _ => Ret (if decide (st = logstep_qemu_start) then set_logstep ts logstep_before_sanity_pre li else li)
  | edfi_dump_stats_module name _ bbs => on_module name (λ m, Ret (dump_stats_module ts st (default [] bbs) m)) li
  | edfi_faultindex_get name bbindex =>
      Ret (if bbindex <? 0 then li else with_modules li (faultindex_get ts name bbindex <$> li_modules li))
  | fault name _ repeat =>
      on_module name (λ m, let! t := tally_add (im_faults m st) repeat ts in Ret (with_tallies m (set_at (im_faults m) st t) (im_restarts m))) li
  | hypermem_faultspec spec =>
      Ret match li_faultspec li with Some _ => li | None => with_texts li (drive0 li) (drive1 li) (Some spec) (workload_reported li) end
  | hypermem_logpath _ => Ret (set_logstep ts logstep_qemu_start li)
  | print_end => Ret (set_logstep ts logstep_workload_end li)
  | print_sanity passed posttest => Ret (handler_print_sanity ts passed posttest li)
  | print_start => Ret (if logstep_all then set_logstep ts logstep_workload_start li else li)
  | print_startup name => on_module name (λ m, Ret (with_times m ts (time_context_set m) (time_faultindex_get m))) li
  | print_workload name =>
      Ret match workload_reported li with
          | Some _ => li
          | None =>
              let li := with_texts li (drive0 li) (drive1 li) (li_faultspec li) (Some name) in
              if logstep_all then set_logstep ts logstep_workload_report li else li
          end
  | print_workload_completed => Ret (if logstep_all then set_logstep ts logstep_workload_completed li else li)
  | qemu_drive index img => Ret (handler_qemu_drive index img li)
  | qemu_exit => Ret (set_logstep ts logstep_qemu_exit li)
  | _ => Ret li
  end.
Definition loginfo_callbacks : logparse_callbacks := λ c,
  match c with
  | cb_edfi_context_reset | cb_edfi_context_set | cb_edfi_dump_stats | cb_edfi_dump_stats_module | cb_edfi_faultindex_get | cb_fault
  | cb_hypermem_faultspec | cb_hypermem_logpath | cb_print_end | cb_print_sanity | cb_print_start | cb_print_startup | cb_print_workload
  | cb_print_workload_completed | cb_qemu_drive | cb_qemu_exit => true
  | _ => false
  end.

Definition loginfo_deliver (li : loginfo) (o : output) : res loginfo :=
  match o with OCall st x => loginfo_handle (timestamp st) x li | OStderr _ => Ret li end.
Definition loginfo_deliver_all (out : list output) (li : loginfo) : res loginfo := res_foldl loginfo_deliver li out.

(** [first_word]; letters and digits are those of ASCII. *)
Definition isalnum (a : ascii) : bool :=
  let n := uchar a in ((48 <=? n) && (n <=? 57)) || ((65 <=? n) && (n <=? 90)) || ((97 <=? n) && (n <=? 122)).
Fixpoint take_word (s : string) : string :=
  match s with String a s' => if isalnum a then String a (take_word s') else EmptyString | EmptyString => EmptyString end.
Fixpoint first_word (s : string) : string :=
  match s with String a s' => if isalnum a then take_word s else first_word s' | EmptyString => EmptyString end.

(** The result, with the derived fields [system] and [workload]. *)
Definition loginfo_load_from_log (mktime : tm → Z) (logpath : string) (fopen : option string) : res (loginfo * string * option string) :=
  let! r := logparse_from_path mktime loginfo_callbacks fopen None in
  let! li := loginfo_deliver_all r.2 loginfo_zero in
  Ret (li, first_word (basename_const logpath), basename_const <$> drive1 li).
End Handlers.

Definition logstepdesc (st : logstep) : string :=
  match st with
  | logstep_before_qemu_start => "qemustart" | logstep_qemu_start => "boot" | logstep_before_sanity_pre => "pre-test"
  | logstep_after_sanity_pre | logstep_workload_start | logstep_workload_report | logstep_workload_completed => "workload"
  | logstep_workload_end => "post-test" | logstep_after_sanity_post => "shutdown" | logstep_qemu_exit => "qemuexit"
  end.

(** ** What a log says: its calls with the steps they happen in *)

Section Attribution.
Variables logstep_all ignore_execcounts : bool.

(** The step, and whether the workload was reported, after a call. *)
Definition next_pos (p : logstep * bool) (x : call) : logstep * bool :=
  match x with
  | edfi_dump_stats _ => (if decide (p.1 = logstep_qemu_start) then logstep_before_sanity_pre else p.1, p.2)
  | hypermem_logpath _ => (logstep_qemu_start, p.2)
  | print_end => (logstep_workload_end, p.2)
  | print_sanity _ posttest => (if posttest then logstep_after_sanity_post else logstep_after_sanity_pre, p.2)
  | print_start => (if logstep_all then logstep_workload_start else p.1, p.2)
  | print_workload _ => (if logstep_all && negb p.2 then logstep_workload_report else p.1, true)
  | print_workload_completed => (if logstep_all then logstep_workload_completed else p.1, p.2)
  | qemu_exit => (logstep_qemu_exit, p.2)
  | _ => p
  end.

Definition event : Type := (logstep * bool) * timeval * call.
Definition first_pos : logstep * bool := (logstep_before_qemu_start, false).
Fixpoint history (p : logstep * bool) (out : list output) : list event :=
  match out with
  | [] => []
  | OCall st x :: out' => (p, timestamp st, x) :: history (next_pos p x) out'
  | OStderr _ :: out' => history p out'
  end.

(** The faults and restarts of a module in a step, with their times. *)
Definition faults_of (n : string) (st : logstep) (e : event) : list (Z * timeval) :=
  match e.2 with fault n' _ repeat => if decide (n' = n ∧ e.1.1.1 = st) then [(repeat, e.1.2)] else [] | _ => [] end.
Definition restarts_of (n : string) (st : logstep) (e : event) : list (Z * timeval) :=
  match e.2 with edfi_context_reset n' => if decide (n' = n ∧ e.1.1.1 = st) then [(1, e.1.2)] else [] | _ => [] end.
(** The modules a call names. *)
Definition named (e : event) : list string :=
  match e.2 with
  | edfi_context_reset n | edfi_context_set n | edfi_dump_stats_module n _ _ | fault n _ _ | print_startup n => [n]
  | _ => []
  end.
(** A transition to a later step, with its time. *)
Definition raises (e : event) : list (logstep * timeval) :=
  let st := (next_pos e.1.1 e.2).1 in if step_number st <=? step_number e.1.1.1 then [] else [(st, e.1.2)].

(** The count and the first and last time of a list of events. *)
Definition tallied (l : list (Z * timeval)) (t : tally) : Prop :=
  t_count t = u32 (foldr Z.add 0 l.*1) ∧ (l = [] → t_first t = unset ∧ t_last t = unset) ∧
  (l ≠ [] → t_first t ∈ l.*2 ∧ t_last t ∈ l.*2 ∧ Forall (λ ts, usecs (t_first t) ≤ usecs ts ≤ usecs (t_last t)) l.*2).

Definition stamp_ok (ts : timeval) : Prop := 0 ≤ tv_usec ts < 1000000 ∧ 0 < tv_sec ts.
Definition stamps_ok (out : list output) : Prop := Forall (λ o, match o with OCall st _ => stamp_ok (timestamp st) | OStderr _ => True end) out.

Lemma set_to_min_ok a b : stamp_ok a → stamp_ok b → timeval_set_to_min a b = Ret (if usecs b <? usecs a then b else a).
Proof.
  unfold stamp_ok, timeval_set_to_min, timeval_is_zero, timeval_compare, usecs. intros [Ha Ha'] [Hb Hb'].
  destruct (Z.eqb_spec (tv_sec b) 0); [lia|]. destruct (Z.eqb_spec (tv_sec a) 0); [lia|]. cbn [andb].
  rewrite !(proj2 (Z.leb_le _ _)), !(proj2 (Z.ltb_lt _ 1000000)) by lia. cbn [res_bind].
  repeat case_match; try done; exfalso; zb.
Qed.

Lemma set_to_max_ok a b : stamp_ok a → stamp_ok b → timeval_set_to_max a b = Ret (if usecs a <? usecs b then b else a).
Proof.
  unfold stamp_ok, timeval_set_to_max, timeval_is_zero, timeval_compare, usecs. intros [Ha Ha'] [Hb Hb'].
  destruct (Z.eqb_spec (tv_sec b) 0); [lia|]. destruct (Z.eqb_spec (tv_sec a) 0); [lia|]. cbn [andb].
  rewrite !(proj2 (Z.leb_le _ _)), !(proj2 (Z.ltb_lt _ 1000000)) by lia. cbn [res_bind].
  repeat case_match; try done; exfalso; zb.
Qed.

Lemma set_unset ts : stamp_ok ts → timeval_set_to_min unset ts = Ret ts ∧ timeval_set_to_max unset ts = Ret ts.
Proof.
  intros [_ Hs]. unfold timeval_set_to_min, timeval_set_to_max, timeval_is_zero. destruct (Z.eqb_spec (tv_sec ts) 0); [lia|]. done.
Qed.

Lemma sum_snoc (l : list Z) x : foldr Z.add 0 (l ++ [x]) = foldr Z.add 0 l + x.
Proof. induction l as [|y l IH]; cbn; lia. Qed.

Lemma u32_add a b : u32 (u32 a + b) = u32 (a + b).
Proof. unfold u32. by rewrite Zplus_mod_idemp_l. Qed.

Lemma tally_add_ok l t r ts : tallied l t → Forall stamp_ok l.*2 → stamp_ok ts →
  ∃ t', tally_add t r ts = Ret t' ∧ tallied (l ++ [(r, ts)]) t'.
Proof.
  intros (Hc & He & Hne) Hl Hs. unfold tally_add. destruct (decide (l = [])) as [->|Hnil].
  - destruct (He eq_refl) as [-> ->]. destruct (set_unset ts Hs) as [-> ->]. cbn [res_bind]. eexists. split; [done|].
    split_and!; cbn [t_count t_first t_last]; [rewrite Hc, u32_add; cbn; f_equal; lia|done|]. intros _. cbn.
    split_and!; [by left..|]. constructor; [lia|constructor].
  - destruct (Hne Hnil) as (Hf & Hla & Hb). rewrite Forall_forall in Hl, Hb. pose proof (Hl _ Hf) as Hfo. pose proof (Hl _ Hla) as Hlo.
    rewrite set_to_min_ok, set_to_max_ok by done. cbn [res_bind]. eexists. split; [done|].
    split_and!; cbn [t_count t_first t_last].
    + rewrite Hc, u32_add. f_equal. rewrite fmap_app. cbn [fmap list_fmap fst]. by rewrite sum_snoc.
    + intros E. by destruct l.
    + intros _. rewrite fmap_app. cbn [fmap list_fmap snd]. rewrite !elem_of_app, Forall_forall. split_and!.
      * destruct (usecs ts <? usecs (t_first t)); [right; by left|by left].
      * destruct (usecs (t_last t) <? usecs ts); [right; by left|by left].
      * intros x. rewrite elem_of_app. intros Hx.
        assert (usecs x = usecs ts ∨ usecs (t_first t) ≤ usecs x ≤ usecs (t_last t)) as Hx'.
        { destruct Hx as [Hx| ->%list_elem_of_singleton]; [right; by apply Hb|by left]. }
        pose proof (Hb _ Hf). destruct (Z.ltb_spec (usecs ts) (usecs (t_first t))), (Z.ltb_spec (usecs (t_last t)) (usecs ts)); lia.
Qed.

(** A handler on the module of a name: the others stay, and it is added if it is new. *)
Lemma on_named_spec name k (P : loginfo_module → Prop) l :
  Forall P l → (name ∉ im_name <$> l → P (new_module name)) →
  (∀ m, P m → im_name m = name → ∃ m', k m = Ret m' ∧ im_name m' = name) →
  ∃ l', on_named name k l = Ret l' ∧
    (im_name <$> l') = (im_name <$> l) ++ (if decide (name ∈ im_name <$> l) then [] else [name]) ∧
    ∀ m', m' ∈ l' → NoDup (im_name <$> l) →
      (m' ∈ l ∧ im_name m' ≠ name) ∨ ∃ m, P m ∧ im_name m = name ∧ k m = Ret m'.
Proof.
  intros HP Hnew Hk. induction l as [|m l IH].
  - destruct (Hk (new_module name)) as (m' & Hm & Hn); [by apply Hnew, not_elem_of_nil|done|]. exists [m']. cbn. rewrite Hm.
    split; [done|]. split; [by rewrite Hn|]. intros m1 ->%list_elem_of_singleton _. right. exists (new_module name). split_and!; [by apply Hnew, not_elem_of_nil|done|done].
  - inversion HP as [|? ? Hm Hl]; subst. cbn [on_named]. destruct (decide (im_name m = name)) as [E|E].
    + destruct (Hk m Hm E) as (m' & Hkm & Hn). rewrite Hkm. cbn [res_bind]. exists (m' :: l). split; [done|]. split.
      * cbn. rewrite Hn, E, decide_True by (by left). by rewrite app_nil_r.
      * intros m1 Hm1 Hnd. apply elem_of_cons in Hm1 as [->|Hm1]; [right; by exists m|]. left. split; [by right|].
        cbn in Hnd. apply NoDup_cons in Hnd as [Hni _]. intros E1. apply Hni. rewrite E, <- E1. by apply list_elem_of_fmap_2.
    + destruct IH as (l' & Hr & Hns & Hin); [done| |].
      { intros Hni. apply Hnew. cbn. rewrite elem_of_cons. intros [E1|?]; [by subst|done]. }
      rewrite Hr. cbn [res_bind]. exists (m :: l'). split; [done|]. split.
      * cbn. rewrite Hns. destruct (decide (name ∈ im_name <$> l)) as [Hi|Hi].
        -- by rewrite decide_True by (by right).
        -- rewrite decide_False; [done|]. rewrite elem_of_cons. intros [E1|?]; [by subst|done].
      * intros m1 Hm1 Hnd. cbn in Hnd. apply NoDup_cons in Hnd as [_ Hnd]. apply elem_of_cons in Hm1 as [->|Hm1]; [left; split; [by left|done]|].
        destruct (Hin m1 Hm1 Hnd) as [[? ?]|?]; [left; split; [by right|done]|by right].
Qed.

(** ** The invariant *)

Definition module_agrees (h : list event) (m : loginfo_module) : Prop :=
  ∀ st, tallied (h ≫= faults_of (im_name m) st) (im_faults m st) ∧ tallied (h ≫= restarts_of (im_name m) st) (im_restarts m st).
Definition event_ok (e : event) : Prop := stamp_ok e.1.2.

Record agrees (h : list event) (p : logstep * bool) (li : loginfo) : Prop := {
  ag_stamps : Forall event_ok h;
  ag_names : NoDup (im_name <$> li_modules li);
  ag_named : ∀ n, n ∈ im_name <$> li_modules li ↔ n ∈ h ≫= named;
  ag_modules : Forall (module_agrees h) (li_modules li);
  ag_times : ∀ st, step_time li st = default unset (snd <$> last (filter (λ r, r.1 = st) (h ≫= raises)));
  ag_pos : p = (li_step li, match workload_reported li with Some _ => true | None => false end);
}.

Lemma bind_snoc {A B} (f : A → list B) l x : (l ++ [x]) ≫= f = (l ≫= f) ++ f x.
Proof. rewrite bind_app. cbn. by rewrite app_nil_r. Qed.

Lemma stamps_faults h n st : Forall event_ok h → Forall stamp_ok (h ≫= faults_of n st).*2 ∧ Forall stamp_ok (h ≫= restarts_of n st).*2.
Proof.
  induction 1 as [|e h He Hh [IH1 IH2]]; [done|]. cbn. rewrite !fmap_app, !Forall_app.
  unfold faults_of at 1, restarts_of at 1. split; (split; [|done]); destruct e.2; try done; case_decide; try done; repeat constructor; apply He.
Qed.

(** A module that was not named has no events. *)
Lemma unnamed_empty h n st : n ∉ h ≫= named → h ≫= faults_of n st = [] ∧ h ≫= restarts_of n st = [].
Proof.
  induction h as [|e h IH]; [done|]. cbn. rewrite elem_of_app. intros Hn. destruct IH as [-> ->]; [tauto|].
  assert (Hne : n ∉ named e) by tauto. unfold named, faults_of, restarts_of in *. rewrite !app_nil_r.
  destruct e.2; try done; (split; [done|]) || (split; [|done]); rewrite decide_False; try done; intros [-> _]; apply Hne; by left.
Qed.

Lemma unset_tallied : tallied [] no_tally.
Proof. by split_and!. Qed.

Lemma new_agrees h n : n ∉ h ≫= named → module_agrees h (new_module n).
Proof. intros Hn st. cbn. destruct (unnamed_empty h n st Hn) as [-> ->]. split; apply unset_tallied. Qed.

Lemma unnamed_event n st e : n ∉ named e → faults_of n st e = [] ∧ restarts_of n st e = [].
Proof. intros Hn. destruct (unnamed_empty [e] n st) as [H1 H2]; [cbn; by rewrite app_nil_r|]. cbn in H1, H2. by rewrite app_nil_r in H1, H2. Qed.

Lemma agrees_snoc h m e : module_agrees h m → im_name m ∉ named e → module_agrees (h ++ [e]) m.
Proof. intros Hm Hn st. rewrite !bind_snoc. destruct (unnamed_event (im_name m) st e Hn) as [-> ->]. rewrite !app_nil_r. apply Hm. Qed.

Lemma raises_none h (e : event) st : next_pos e.1.1 e.2 = e.1.1 → filter (λ r, r.1 = st) ((h ++ [e]) ≫= raises) = filter (λ r, r.1 = st) (h ≫= raises).
Proof. intros E. rewrite bind_snoc. unfold raises at 2. rewrite E, Z.leb_refl. by rewrite app_nil_r. Qed.

Lemma module_event h p li ts x n k : agrees h p li → stamp_ok ts → named (p, ts, x) = [n] → next_pos p x = p →
  (∀ m, module_agrees h m → im_name m = n → ∃ m', k m = Ret m' ∧ im_name m' = n ∧ module_agrees (h ++ [(p, ts, x)]) m') →
  ∃ li', on_module n k li = Ret li' ∧ agrees (h ++ [(p, ts, x)]) (next_pos p x) li'.
Proof.
  intros [Hs Hnd Hn Hm Ht Hp] Hts Hne Hpos Hk. unfold on_module.
  destruct (on_named_spec n k (module_agrees h) (li_modules li)) as (l' & Hr & Hns & Hin); [done| | |].
  - intros Hni. apply new_agrees. by rewrite <- Hn.
  - intros m Hma E. destruct (Hk m Hma E) as (m' & ? & ? & _). by exists m'.
  - rewrite Hr. cbn [res_bind]. eexists. split; [done|]. split; cbn [li_modules with_modules step_time li_step workload_reported].
    + apply Forall_app. split; [done|]. apply List.Forall_cons; [exact Hts|apply List.Forall_nil].
    + rewrite Hns. destruct (decide (n ∈ im_name <$> li_modules li)); [by rewrite app_nil_r|].
      apply NoDup_app. split; [done|]. split; [|apply NoDup_singleton]. intros y Hy ->%list_elem_of_singleton. done.
    + intros n'. rewrite Hns, bind_snoc, Hne, !elem_of_app, Hn, list_elem_of_singleton.
      destruct (decide (n ∈ im_name <$> li_modules li)) as [Hi|Hi]; rewrite ?list_elem_of_singleton, ?elem_of_nil; [|done].
      split; [tauto|]. intros [?| ->]; [by left|]. left. by apply Hn.
    + apply Forall_forall. intros m' Hm'. destruct (Hin m' Hm' Hnd) as [[Hmi Hne']|(m & Hma & E & Hkm)].
      * rewrite Forall_forall in Hm. apply agrees_snoc; [by apply Hm|]. rewrite Hne. by rewrite list_elem_of_singleton.
      * destruct (Hk m Hma E) as (m1 & Hk1 & _ & Ha). by replace m' with m1 by congruence.
    + intros st. rewrite raises_none by done. apply Ht.
    + by rewrite Hpos.
Qed.

(** A call that names no module. *)
Lemma quiet_event h p li ts x li' : agrees h p li → stamp_ok ts → named (p, ts, x) = [] →
  Forall2 (λ m m', im_name m' = im_name m ∧ im_faults m' = im_faults m ∧ im_restarts m' = im_restarts m) (li_modules li) (li_modules li') →
  step_time li' = (if step_number (next_pos p x).1 <=? step_number p.1 then step_time li else set_at (step_time li) (next_pos p x).1 ts) →
  next_pos p x = (li_step li', match workload_reported li' with Some _ => true | None => false end) →
  agrees (h ++ [(p, ts, x)]) (next_pos p x) li'.
Proof.
  intros [Hs Hnd Hn Hm Ht Hp] Hts Hne Hmods Hst Hpos.
  assert (Hnames : im_name <$> li_modules li' = im_name <$> li_modules li).
  { clear -Hmods. induction Hmods as [|m m' l l' (E & _) _ IH]; [done|]. cbn. by rewrite E, IH. }
  split.
  - apply Forall_app. split; [done|]. apply List.Forall_cons; [exact Hts|apply List.Forall_nil].
  - by rewrite Hnames.
  - intros n. rewrite Hnames, bind_snoc, Hne, app_nil_r. apply Hn.
  - clear -Hmods Hm Hne. induction Hmods as [|m m' l l' (E & Ef & Er) _ IH]; [constructor|]. inversion Hm as [|? ? Hma Hl]; subst. constructor; [|by apply IH].
    assert (Ha : module_agrees (h ++ [(p, ts, x)]) m) by (apply agrees_snoc; [done|rewrite Hne; apply not_elem_of_nil]).
    intros st. rewrite E, Ef, Er. apply Ha.
  - intros st. rewrite Hst, bind_snoc, filter_app. unfold raises at 2. cbn [fst snd].
    destruct (step_number (next_pos p x).1 <=? step_number p.1); [cbn; by rewrite app_nil_r, Ht|]. unfold set_at.
    destruct (decide (st = (next_pos p x).1)) as [->|Hd].
    + rewrite filter_cons_True, filter_nil, last_snoc by done. done.
    + rewrite filter_cons_False, filter_nil, app_nil_r, Ht by (cbn; congruence). done.
  - done.
Qed.

Lemma same_modules (l : list loginfo_module) :
  Forall2 (λ m m', im_name m' = im_name m ∧ im_faults m' = im_faults m ∧ im_restarts m' = im_restarts m) l l.
Proof. by induction l as [|m l IH]; constructor. Qed.

Lemma faultindex_same ts name bb (l : list loginfo_module) :
  Forall2 (λ m m', im_name m' = im_name m ∧ im_faults m' = im_faults m ∧ im_restarts m' = im_restarts m) l (faultindex_get ts name bb <$> l).
Proof.
  induction l as [|m l IH]; cbn; constructor; [|done]. unfold faultindex_get. destruct (module_name_matches name (im_name m)); [|done].
  by destruct (im_fault_bb_index m).
Qed.

(** An event of a module that leaves its tallies. *)
Lemma plain_agrees h m m' e : module_agrees h m → im_name m' = im_name m → im_faults m' = im_faults m → im_restarts m' = im_restarts m →
  (∀ st, faults_of (im_name m) st e = [] ∧ restarts_of (im_name m) st e = []) → module_agrees (h ++ [e]) m'.
Proof. intros Hm E1 E2 E3 He st. destruct (He st) as [H1 H2]. rewrite E1, E2, E3, !bind_snoc, H1, H2, !app_nil_r. apply Hm. Qed.

Lemma reset_agrees h m p ts n : module_agrees h m → Forall event_ok h → stamp_ok ts → im_name m = n →
  ∃ m', (let! t := tally_add (im_restarts m p.1) 1 ts in Ret (with_tallies m (im_faults m) (set_at (im_restarts m) p.1 t))) = Ret m' ∧
    im_name m' = n ∧ module_agrees (h ++ [(p, ts, edfi_context_reset n)]) m'.
Proof.
  intros Hm Hh Hts E. destruct (stamps_faults h (im_name m) p.1 Hh) as [_ Hst]. destruct (Hm p.1) as [_ Hr].
  destruct (tally_add_ok _ _ 1 ts Hr Hst Hts) as (t & Ht & Hta). rewrite Ht. cbn [res_bind]. eexists. split; [done|]. split; [done|].
  intros st. destruct (Hm st) as [Hf Hre]. cbn. rewrite !bind_snoc. unfold faults_of at 2, restarts_of at 2, set_at. cbn [fst snd].
  rewrite app_nil_r. split; [done|]. subst n. destruct (decide (st = p.1)) as [->|Hd].
  - by rewrite decide_True.
  - rewrite decide_False by (intros [_ ?]; congruence). by rewrite app_nil_r.
Qed.

Lemma fault_agrees h m p ts n bb r : module_agrees h m → Forall event_ok h → stamp_ok ts → im_name m = n →
  ∃ m', (let! t := tally_add (im_faults m p.1) r ts in Ret (with_tallies m (set_at (im_faults m) p.1 t) (im_restarts m))) = Ret m' ∧
    im_name m' = n ∧ module_agrees (h ++ [(p, ts, fault n bb r)]) m'.
Proof.
  intros Hm Hh Hts E. destruct (stamps_faults h (im_name m) p.1 Hh) as [Hst _]. destruct (Hm p.1) as [Hr _].
  destruct (tally_add_ok _ _ r ts Hr Hst Hts) as (t & Ht & Hta). rewrite Ht. cbn [res_bind]. eexists. split; [done|]. split; [done|].
  intros st. destruct (Hm st) as [Hf Hre]. cbn. rewrite !bind_snoc. unfold faults_of at 2, restarts_of at 2, set_at. cbn [fst snd].
  rewrite app_nil_r. split; [|done]. subst n. destruct (decide (st = p.1)) as [->|Hd].
  - by rewrite decide_True.
  - rewrite decide_False by (intros [_ ?]; congruence). by rewrite app_nil_r.
Qed.

Lemma step_agrees h p li ts x st : agrees h p li → stamp_ok ts → named (p, ts, x) = [] → next_pos p x = (st, p.2) →
  agrees (h ++ [(p, ts, x)]) (next_pos p x) (set_logstep ts st li).
Proof.
  intros Ha Hts Hn Hx. pose proof (ag_pos _ _ _ Ha) as Hp. eapply quiet_event; [exact Ha|done|done|apply same_modules|by rewrite Hx, Hp|].
  rewrite Hx, Hp. done.
Qed.

Lemma keep_agrees h p li ts x li' : agrees h p li → stamp_ok ts → named (p, ts, x) = [] → li_modules li' = li_modules li →
  step_time li' = step_time li → (next_pos p x).1 = p.1 →
  next_pos p x = (li_step li', match workload_reported li' with Some _ => true | None => false end) →
  agrees (h ++ [(p, ts, x)]) (next_pos p x) li'.
Proof.
  intros Ha Hts Hn Hm Ht Hx Hpos. eapply quiet_event; [exact Ha|done|done|rewrite Hm; apply same_modules|by rewrite Hx, Z.leb_refl|done].
Qed.

Lemma handle_agrees h p li ts x : agrees h p li → stamp_ok ts →
  ∃ li', loginfo_handle logstep_all ignore_execcounts ts x li = Ret li' ∧ agrees (h ++ [(p, ts, x)]) (next_pos p x) li'.
Proof.
  intros Ha Hts. pose proof (ag_pos _ _ _ Ha) as Hp. pose proof (ag_stamps _ _ _ Ha) as Hh.
  assert (Hst : li_step li = p.1) by (by rewrite Hp). unfold loginfo_handle. rewrite Hst.
  destruct x; try (by eexists; split; [reflexivity|]; eapply quiet_event; try done; [apply same_modules|by rewrite Z.leb_refl]).
  all: try (eapply module_event; [exact Ha|exact Hts|reflexivity|reflexivity|]; intros m Hm E).
  all: try (eexists; split; [reflexivity|]; split; [by rewrite <- E|]; eapply plain_agrees; try done).
  - by apply reset_agrees.
  - eexists. split; [reflexivity|]. destruct (decide (p.1 = logstep_qemu_start)) as [E|E].
    + apply step_agrees; try done. cbn. by rewrite decide_True.
    + eapply keep_agrees; try done; cbn; rewrite decide_False by done; [done|]. by destruct p.
  - eexists. split; [reflexivity|]. unfold dump_stats_module.
    split; [|eapply plain_agrees; try done]; repeat case_match; done.
  - eexists. split; [reflexivity|]. destruct (bbindex <? 0); [by eapply keep_agrees|].
    eapply quiet_event; try done; [apply faultindex_same|by rewrite Z.leb_refl].
  - by apply fault_agrees.
  - eexists. split; [reflexivity|]. destruct (li_faultspec li); by eapply keep_agrees.
  - eexists. split; [reflexivity|]. by apply step_agrees.
  - eexists. split; [reflexivity|]. unfold handler_qemu_drive.
    destruct (index =? 0); [destruct (drive0 li)|destruct (index =? 1); [destruct (drive1 li)|]]; by eapply keep_agrees.
  - eexists. split; [reflexivity|]. by apply step_agrees.
  - eexists. split; [reflexivity|]. by apply step_agrees.
  - eexists. split; [reflexivity|]. unfold handler_print_sanity.
    assert (Hs : agrees (h ++ [(p, ts, print_sanity passed posttest)]) (next_pos p (print_sanity passed posttest))
      (set_logstep ts (if posttest then logstep_after_sanity_post else logstep_after_sanity_pre) li)) by (by apply step_agrees).
    destruct passed; [|exact Hs]. destruct Hs. by split.
  - eexists. split; [reflexivity|]. destruct logstep_all eqn:El; [apply step_agrees; try done; cbn; by rewrite El|].
    eapply keep_agrees; try done; cbn; rewrite El; [done|]. by destruct p.
  - eexists. split; [reflexivity|]. destruct (workload_reported li) as [r|] eqn:Er.
    + eapply keep_agrees; try done; cbn; rewrite Hp; cbn; by rewrite ?Er, andb_false_r.
    + destruct logstep_all eqn:El.
      * eapply quiet_event; try done; [apply same_modules|..]; cbn; rewrite El, Hp; cbn; by rewrite ?Er.
      * eapply keep_agrees; try done; cbn; rewrite El; [done|]. cbn. by rewrite Hst.
  - eexists. split; [reflexivity|]. destruct logstep_all eqn:El; [apply step_agrees; try done; cbn; by rewrite El|].
    eapply keep_agrees; try done; cbn; rewrite El; [done|]. by destruct p.
Qed.

Lemma deliver_agrees out : ∀ h p li, agrees h p li → stamps_ok out →
  ∃ li', loginfo_deliver_all logstep_all ignore_execcounts out li = Ret li' ∧ ∃ p', agrees (h ++ history p out) p' li'.
Proof.
  induction out as [|[st x|wa] out IH]; intros h p li Ha Hs.
  - exists li. split; [done|]. exists p. cbn. by rewrite app_nil_r.
  - inversion Hs as [|? ? Hx Hs']; subst. destruct (handle_agrees h p li (timestamp st) x Ha Hx) as (li1 & Hl & Ha1).
    destruct (IH _ _ _ Ha1 Hs') as (li' & Hr & p' & Hp'). exists li'. split.
    + unfold loginfo_deliver_all in *. cbn [res_foldl loginfo_deliver]. rewrite Hl. exact Hr.
    + exists p'. cbn [history]. by rewrite <- app_assoc in Hp'.
  - inversion Hs as [|? ? _ Hs']; subst. by apply IH.
Qed.

Lemma zero_agrees : agrees [] first_pos loginfo_zero.
Proof. split; try done; constructor. Qed.
End Attribution.

(** C28: the information kept of a log is that of its calls.  For a log the reader gets
    through with valid times, loading succeeds; a module is kept iff a call names it, and
    once; the count and the first and last time of its faults and restarts in a step are
    those of exactly its events in that step; and the time of a step is that of the last
    transition from an earlier step to it. *)
Theorem log_info_of_calls logstep_all ignore_execcounts mktime logpath log r out :
  logparse_from_path mktime loginfo_callbacks log None = Ret (r, out) → stamps_ok out →
  ∃ li, loginfo_load_from_log logstep_all ignore_execcounts mktime logpath log
      = Ret (li, first_word (basename_const logpath), basename_const <$> drive1 li) ∧
    let h := history logstep_all first_pos out in
    NoDup (im_name <$> li_modules li) ∧
    (∀ n, n ∈ im_name <$> li_modules li ↔ n ∈ h ≫= named) ∧
    (∀ m st, m ∈ li_modules li → tallied (h ≫= faults_of (im_name m) st) (im_faults m st) ∧
                                  tallied (h ≫= restarts_of (im_name m) st) (im_restarts m st)) ∧
    (∀ st, step_time li st = default unset (snd <$> last (filter (λ r, r.1 = st) (h ≫= raises logstep_all)))).
Proof.
  intros Hlog Hs. destruct (deliver_agrees logstep_all ignore_execcounts out [] first_pos loginfo_zero (zero_agrees _) Hs) as (li & Hr & p & [_ Hnd Hn Hm Ht _]).
  exists li. split; [unfold loginfo_load_from_log; rewrite Hlog; cbn [res_bind snd]; by rewrite Hr|]. cbv zeta. cbn [app] in *.
  split_and!; [done|done| |done]. intros m st Hmi. rewrite Forall_forall in Hm. by apply Hm.
Qed.

Definition at_second (n : Z) : tsfields := Build_tsfields 2016 5 30 12 34 n 0.
Definition demo_info_log : string := file_string
  [(at_second 1, "hypermem-logpath=" +:+ dq +:+ "a.log" +:+ dq); (at_second 2, "print <EDFI> startup pm");
   (at_second 3, "fault name=pm bbindex=3"); (at_second 4, "print Sanity Passed (x:PRETEST) y");
   (at_second 5, "fault name=pm bbindex=3 count=4"); (at_second 6, "fault name=pm bbindex=3"); (at_second 7, "print <END>")].
Definition demo_info_read : logfilestate * list output :=
  ret_or (mk "" 0 0 None, []) (logparse_from_path demo_mktime loginfo_callbacks (Some demo_info_log) None).
Definition demo_info : loginfo * string * option string :=
  ret_or (loginfo_zero, "", None) (loginfo_load_from_log false false demo_mktime "/logs/minix-1.log" (Some demo_info_log)).

(** Five faults in the workload, one before the first sanity check. *)
Lemma log_info_of_calls_witness :
  ((λ m, (im_name m, t_count (im_faults m logstep_qemu_start), t_count (im_faults m logstep_after_sanity_pre))) <$> li_modules demo_info.1.1)
    = [("pm", 1, 5)] ∧ demo_info.1.2 = "minix" ∧
  ∃ li, loginfo_load_from_log false false demo_mktime "/logs/minix-1.log" (Some demo_info_log)
      = Ret (li, first_word (basename_const "/logs/minix-1.log"), basename_const <$> drive1 li) ∧
    let h := history false first_pos demo_info_read.2 in
    NoDup (im_name <$> li_modules li) ∧
    (∀ n, n ∈ im_name <$> li_modules li ↔ n ∈ h ≫= named) ∧
    (∀ m st, m ∈ li_modules li → tallied (h ≫= faults_of (im_name m) st) (im_faults m st) ∧
                                  tallied (h ≫= restarts_of (im_name m) st) (im_restarts m st)) ∧
    (∀ st, step_time li st = default unset (snd <$> last (filter (λ r, r.1 = st) (h ≫= raises false)))).
Proof.
  split; [vm_compute; reflexivity|]. split; [vm_compute; reflexivity|].
  apply (log_info_of_calls false false demo_mktime "/logs/minix-1.log" (Some demo_info_log) demo_info_read.1 demo_info_read.2).
  - vm_compute. reflexivity.
  - let l := eval vm_compute in demo_info_read.2 in change demo_info_read.2 with l.
    repeat (apply List.Forall_cons; [split; cbn; lia|]). apply List.Forall_nil.
Defined.
