(* ===== verification/MapFile.v ===== *)
(** * Map files: [passes/edfi/MapFile.cpp] and [tools/mapprint/mapparse.c]

    The EDFI pass describes the blocks of a program in a map file: records of
    functions, blocks, instructions and faults, with strings written once and
    referenced by number and integers in groups of seven bits.  The tools read
    the file back through callbacks.  A file is the [string] of its bytes. *)

From Stdlib Require Import ZArith Lia Ascii String.
From stdpp Require Import base list numbers strings gmap.
From S2P Require Import Prelude Decimal Helper.

(** ** Records *)

Definition MAPFILE_STRING : Z := 1.
Definition MAPFILE_FUNCTION : Z := 2.
Definition MAPFILE_BASIC_BLOCK : Z := 3.
Definition MAPFILE_INSTRUCTION : Z := 4.
Definition MAPFILE_DINSTRUCTION : Z := 5.
Definition MAPFILE_FAULT_CANDIDATE : Z := 6.
Definition MAPFILE_FAULT_INJECTED : Z := 7.
Definition MAPFILE_MODULE_NAME : Z := 8.

Definition byte_of (z : Z) : ascii := ascii_of_N (Z.to_N (z `mod` 256)).
Definition code (a : ascii) : Z := Z.of_N (N_of_ascii a).

(** Calls of the callbacks, and the writes of the pass. *)
Inductive map_event :=
| ev_module_name (name : string)
| ev_function (name relPath : string)
| ev_basic_block
| ev_instruction
| ev_dinstruction (path : string) (line : Z)
| ev_fault_candidate (name : string)
| ev_fault_injected (name : string).

(** ** The writer *)

Record map_writer := {
  w_strings : gmap string Z;
  stringRefNext : Z;              (** [unsigned] *)
  w_file : string;
}.

Definition put (z : Z) (w : map_writer) : map_writer :=
  {| w_strings := w_strings w; stringRefNext := stringRefNext w;
     w_file := w_file w +:+ String (byte_of z) "" |}.

Definition getStringRef (s : string) (w : map_writer) : Z * map_writer :=
  match w_strings w !! s with
  | Some r => (r, w)
  | None =>
      let w := put MAPFILE_STRING w in
      (stringRefNext w,
       {| w_strings := <[s := stringRefNext w]> (w_strings w);
          stringRefNext := u32 (stringRefNext w + 1);
          w_file := w_file w +:+ s +:+ String "000" "" |})
  end.

(** [writeInt]; an [unsigned long] has at most 64 bits, ten groups. *)
Fixpoint writeInt_loop (fuel : nat) (value : Z) (w : map_writer) : map_writer :=
  let b := Z.land value 0x7f in
  let value := Z.shiftr value 7 in
  match fuel with
  | O => put b w
  | S fuel' =>
      if value =? 0 then put b w
      else writeInt_loop fuel' value (put (Z.lor b 0x80) w)
  end.
Definition writeInt (value : Z) (w : map_writer) : map_writer := writeInt_loop 10 value w.

Definition writeStringRef (r : Z) (w : map_writer) : map_writer := writeInt r w.

Definition writeModuleName (name : string) (w : map_writer) : map_writer :=
  let '(r, w) := getStringRef name w in writeStringRef r (put MAPFILE_MODULE_NAME w).
Definition writeBasicBlock (w : map_writer) : map_writer := put MAPFILE_BASIC_BLOCK w.
Definition writeDInstruction (path : string) (line : Z) (w : map_writer) : map_writer :=
  let '(r, w) := getStringRef path w in
  writeInt line (writeStringRef r (put MAPFILE_DINSTRUCTION w)).
Definition writeFaultCandidate (name : string) (w : map_writer) : map_writer :=
  let '(r, w) := getStringRef name w in writeStringRef r (put MAPFILE_FAULT_CANDIDATE w).
Definition writeFaultInjected (name : string) (w : map_writer) : map_writer :=
  let '(r, w) := getStringRef name w in writeStringRef r (put MAPFILE_FAULT_INJECTED w).
Definition writeFunction (name relPath : string) (w : map_writer) : map_writer :=
  let '(rn, w) := getStringRef name w in
  let '(rp, w) := getStringRef relPath w in
  writeStringRef rp (writeStringRef rn (put MAPFILE_FUNCTION w)).
Definition writeInstruction (w : map_writer) : map_writer := put MAPFILE_INSTRUCTION w.

(** The constructor of [MapFile]: a truncated file with the module's name. *)
Definition MapFile_new (moduleName : string) : map_writer :=
  writeModuleName moduleName {| w_strings := ∅; stringRefNext := 0; w_file := "" |}.

Definition write_event (e : map_event) : map_writer → map_writer :=
  match e with
  | ev_module_name n => writeModuleName n
  | ev_function n p => writeFunction n p
  | ev_basic_block => writeBasicBlock
  | ev_instruction => writeInstruction
  | ev_dinstruction p l => writeDInstruction p l
  | ev_fault_candidate n => writeFaultCandidate n
  | ev_fault_injected n => writeFaultInjected n
  end.

(** ** The reader *)

Inductive mapparse_compatlevel := mapparse_compat_latest | mapparse_compat_hase2014.

(** The table of strings, with the capacity of its buffer. *)
Record strings := { count : Z; countalloc : Z; data : list string }.
Definition no_strings : strings := {| count := 0; countalloc := 0; data := [] |}.

Definition strings_add (t : strings) (s : string) : res strings :=
  assert! (count t <=? countalloc t) in
  let! cap := if countalloc t <=? count t then chk32 ((count t + 1) * 2) else Ret (countalloc t) in
  if cap <=? count t then Stop FBounds
  else Ret {| count := count t + 1; countalloc := cap; data := data t ++ [s] |}.

(** [string_read]: up to a NUL. *)
Fixpoint string_read (file : string) : res (string * string) :=
  match file with
  | EmptyString => Stop (FExit (-1))
  | String a file' =>
      if Ascii.eqb a "000" then Ret (EmptyString, file')
      else let! r := string_read file' in Ret (String a r.1, r.2)
  end.

(** [int_read]: [(c & 0x7f) << shift] is a shift of an [int]. *)
Fixpoint int_read_loop (shift value : Z) (file : string) : res (Z * string) :=
  match file with
  | EmptyString => Stop (FExit (-1))
  | String a file' =>
      let c := code a in
      let bits := Z.shiftl (Z.land c 0x7f) shift in
      if negb ((shift <? 32) && (bits <? 2^31)) then Stop FOverflow
      else
        let value := Z.lor value bits in
        if Z.land c 0x80 =? 0 then Ret (value, file')
        else int_read_loop (shift + 7) value file'
  end.
Definition int_read (file : string) : res (Z * string) := int_read_loop 0 0 file.

Definition stringref_read (file : string) : res (Z * string) :=
  let! r := int_read file in Ret (u32 r.1, r.2).

Definition stringref_get (ref : Z) (t : strings) : res string :=
  if u32 (count t) <=? ref then Stop (FExit (-1))
  else match data t !! Z.to_nat ref with Some s => Ret s | None => Stop FBounds end.

Section Reader.
Variable compat : mapparse_compatlevel.

(** One record: the strings, the callback's call and the rest of the file. *)
Definition read_name (t : strings) (file : string) : res (string * string) :=
  let! r := stringref_read file in
  let! s := stringref_get r.1 t in
  Ret (s, r.2).

Definition process_record_function (t : strings) (file : string) : res (map_event * string) :=
  let! n := read_name t file in
  let! r := stringref_read n.2 in
  let! p := match compat with
            | mapparse_compat_hase2014 => Ret EmptyString
            | mapparse_compat_latest => stringref_get r.1 t
            end in
  Ret (ev_function n.1 p, r.2).

Definition process_record_dinstruction (t : strings) (file : string) : res (map_event * string) :=
  let! p := read_name t file in
  let! l := int_read p.2 in
  Ret (ev_dinstruction p.1 (u32 l.1), l.2).

Definition process_record_name (k : string → map_event) (t : strings) (file : string)
    : res (map_event * string) :=
  let! n := read_name t file in Ret (k n.1, n.2).

Definition process_record (type : Z) (t : strings) (file : string)
    : res (strings * option map_event * string) :=
  let call m := let! r := m in Ret (t, Some r.1, r.2) in
  if type =? MAPFILE_STRING then let! r := string_read file in let! t := strings_add t r.1 in Ret (t, None, r.2)
  else if type =? MAPFILE_FUNCTION then call (process_record_function t file)
  else if type =? MAPFILE_BASIC_BLOCK then Ret (t, Some ev_basic_block, file)
  else if type =? MAPFILE_INSTRUCTION then Ret (t, Some ev_instruction, file)
  else if type =? MAPFILE_DINSTRUCTION then call (process_record_dinstruction t file)
  else if type =? MAPFILE_FAULT_CANDIDATE then call (process_record_name ev_fault_candidate t file)
  else if type =? MAPFILE_FAULT_INJECTED then call (process_record_name ev_fault_injected t file)
  else if type =? MAPFILE_MODULE_NAME then call (process_record_name ev_module_name t file)
  else Stop (FExit (-1)).

Fixpoint mapparse_loop (fuel : nat) (t : strings) (file : string) : res (list map_event) :=
  match file with
  | EmptyString => Ret []
  | String a file' =>
      match fuel with
      | O => Stop FFuel
      | S fuel' =>
          let! r := process_record (code a) t file' in
          let! es := mapparse_loop fuel' r.1.1 r.2 in
          Ret (match r.1.2 with Some e => e :: es | None => es end)
      end
  end.

(** The calls of the callbacks, up to the last one, [done]. *)
Definition mapparse_file (file : string) : res (list map_event) :=
  mapparse_loop (String.length file) no_strings file.
End Reader.

(** ** Integers in groups of seven bits *)

Lemma code_byte_of z : 0 ≤ z < 256 → code (byte_of z) = z.
Proof.
  intros Hz. unfold code, byte_of. rewrite N_ascii_embedding; rewrite Z.mod_small by lia; lia.
Qed.

Lemma lor_shiftl acc v s : 0 ≤ s → 0 ≤ acc < 2^s → 0 ≤ v → Z.lor acc (Z.shiftl v s) = acc + v * 2^s.
Proof.
  intros Hs Hacc Hv. rewrite <- Z.shiftl_mul_pow2 by done.
  rewrite <- Z.add_nocarry_lor; [done|]. apply Z.bits_inj'. intros n Hn.
  rewrite Z.land_spec, Z.bits_0. destruct (decide (n < s)).
  - rewrite Z.shiftl_spec_low by done. apply andb_false_r.
  - apply andb_false_intro1, Z.testbit_false; [done|].
    rewrite Z.div_small; [done|]. split; [lia|].
    apply Z.lt_le_trans with (2^s); [lia|]. apply Z.pow_le_mono_r; lia.
Qed.

Lemma lor_mul acc v s : 0 ≤ s → 0 ≤ acc < 2^s → 0 ≤ v → Z.lor acc (v * 2^s) = acc + v * 2^s.
Proof. intros. rewrite <- Z.shiftl_mul_pow2 at 1 by done. by apply lor_shiftl. Qed.

(** What [writeInt] appends. *)
Fixpoint int_bytes (fuel : nat) (v : Z) : string :=
  let b := Z.land v 0x7f in
  match fuel with
  | O => String (byte_of b) ""
  | S fuel' =>
      if Z.shiftr v 7 =? 0 then String (byte_of b) ""
      else String (byte_of (Z.lor b 0x80)) (int_bytes fuel' (Z.shiftr v 7))
  end.

Definition appended (w : map_writer) (s : string) : map_writer :=
  {| w_strings := w_strings w; stringRefNext := stringRefNext w; w_file := w_file w +:+ s |}.

Lemma appended_app w s t : appended (appended w s) t = appended w (s +:+ t).
Proof. unfold appended. simpl. by rewrite string_app_assoc. Qed.

Lemma writeInt_loop_appends fuel v w : writeInt_loop fuel v w = appended w (int_bytes fuel v).
Proof.
  revert v w. induction fuel as [|fuel IH]; intros v w; simpl; [done|].
  destruct (_ =? 0); [done|]. rewrite IH. apply appended_app.
Qed.

Lemma low_group v : Z.land v 0x7f = v `mod` 128.
Proof. apply (Z.land_ones v 7). lia. Qed.

Lemma group_split v : 0 ≤ v → v = Z.land v 0x7f + 128 * Z.shiftr v 7 ∧ 0 ≤ Z.land v 0x7f < 128 ∧ 0 ≤ Z.shiftr v 7.
Proof.
  intros Hv. rewrite low_group, Z.shiftr_div_pow2 by lia. change (2^7) with 128.
  pose proof (Z.mod_pos_bound v 128). pose proof (Z.div_pos v 128).
  pose proof (Z.div_mod v 128). lia.
Qed.

Lemma marked_group b : 0 ≤ b < 128 →
  code (byte_of b) = b ∧ Z.land b 0x7f = b ∧ Z.land b 0x80 = 0 ∧
  code (byte_of (Z.lor b 0x80)) = Z.lor b 0x80 ∧
  Z.land (Z.lor b 0x80) 0x7f = b ∧ Z.land (Z.lor b 0x80) 0x80 = 0x80.
Proof.
  intros Hb. assert (Hl : Z.lor b 0x80 = b + 128) by (apply (lor_shiftl b 1 7); lia).
  rewrite !code_byte_of by lia. rewrite Hl.
  assert (H : forallb (λ n, let x := Z.of_nat n in (Z.land x 0x7f =? x) && (Z.land x 0x80 =? 0) &&
     (Z.land (x + 128) 0x7f =? x) && (Z.land (x + 128) 0x80 =? 0x80)) (seq 0 128) = true)
    by (vm_compute; reflexivity).
  rewrite forallb_forall in H. specialize (H (Z.to_nat b)). cbv beta zeta in H.
  rewrite Z2Nat.id in H by lia. rewrite in_seq in H. specialize (H ltac:(lia)). zb.
Qed.

Lemma int_read_bytes fuel v shift acc rest :
  0 ≤ v < 128 ^ Z.of_nat (S fuel) → v * 2^shift < 2^31 → 0 ≤ shift < 32 → 0 ≤ acc < 2^shift →
  int_read_loop shift acc (int_bytes fuel v +:+ rest) = Ret (acc + v * 2^shift, rest).
Proof.
  revert v shift acc. induction fuel as [|fuel IH]; intros v shift acc Hv Hfit Hshift Hacc;
    destruct (group_split v ltac:(lia)) as (Heq & Hb & Hs);
    destruct (marked_group _ Hb) as (Hc & Hl & Hm & Hc' & Hl' & Hm');
    pose proof (Z.pow_pos_nonneg 2 shift ltac:(lia) ltac:(lia)) as Hp.
  - change (128 ^ Z.of_nat 1) with 128 in Hv. assert (Z.land v 0x7f = v) as Hlv by lia.
    rewrite Hlv in Hc, Hl, Hm. simpl. rewrite Hlv, Hc, Hl, Hm. rewrite Z.shiftl_mul_pow2 by lia.
    destruct (Z.ltb_spec shift 32); [|lia]. destruct (Z.ltb_spec (v * 2^shift) (2^31)); [|lia]. simpl.
    by rewrite lor_mul by lia.
  - cbn [int_bytes]. destruct (Z.eqb_spec (Z.shiftr v 7) 0) as [H0|H0].
    + assert (Z.land v 0x7f = v) as Hlv by lia.
      rewrite Hlv in Hc, Hl, Hm. rewrite Hlv. simpl. rewrite Hc, Hl, Hm. rewrite Z.shiftl_mul_pow2 by lia.
      destruct (Z.ltb_spec shift 32); [|lia]. destruct (Z.ltb_spec (v * 2^shift) (2^31)); [|lia]. simpl.
      by rewrite lor_mul by lia.
    + simpl String.append. cbn [int_read_loop]. rewrite Hc', Hl', Hm'. rewrite Z.shiftl_mul_pow2 by lia.
      destruct (Z.ltb_spec shift 32); [|lia].
      destruct (Z.ltb_spec (Z.land v 127 * 2^shift) (2^31)); [|nia]. cbn [negb andb Z.eqb].
      rewrite lor_mul by lia.
      assert (H7 : 2^(shift + 7) = 128 * 2^shift) by (rewrite Z.pow_add_r by lia; lia).
      assert (Hfit' : Z.shiftr v 7 * 2^(shift + 7) < 2^31) by (rewrite H7; nia).
      assert (shift + 7 < 32).
      { destruct (Z.lt_ge_cases (shift + 7) 32); [done|].
        pose proof (Z.pow_le_mono_r 2 32 (shift + 7) ltac:(lia) ltac:(lia)). nia. }
      rewrite Nat2Z.inj_succ, Z.pow_succ_r in Hv by lia.
      rewrite IH; [| lia | done | lia | rewrite H7; nia].
      do 2 f_equal. rewrite H7. rewrite Heq at 3. lia.
Qed.

Lemma int_read_writeInt v rest : 0 ≤ v < 2^31 → int_read (int_bytes 10 v +:+ rest) = Ret (v, rest).
Proof.
  intros Hv. unfold int_read. rewrite int_read_bytes; try lia. do 2 f_equal. lia.
Qed.

(** ** The table of strings *)

(** Strings are read as they were written when they contain no NUL. *)
Lemma string_read_plain s rest : plain s = true → string_read (s +:+ String "000" rest) = Ret (s, rest).
Proof.
  unfold plain. induction s as [|a s IH]; simpl; [done|]. intros [Ha Hs]%andb_true_iff.
  apply negb_true_iff in Ha. rewrite Ha, IH by done. done.
Qed.

(** Reading goes forward. *)
Lemma string_read_shorter file s rest :
  string_read file = Ret (s, rest) → (String.length rest < String.length file)%nat.
Proof.
  revert s. induction file as [|a file IH]; simpl; intros s H; [done|].
  destruct (Ascii.eqb a "000"); [injection H as _ <-; lia|]. apply res_bind_inv in H as ([s' r'] & H & Heq).
  injection Heq as _ <-. apply IH in H. lia.
Qed.

Lemma int_read_loop_shorter shift value file v rest :
  int_read_loop shift value file = Ret (v, rest) → (String.length rest < String.length file)%nat.
Proof.
  revert shift value. induction file as [|a file IH]; intros shift value H; [done|].
  cbn [int_read_loop] in H. destruct (negb _); [done|].
  destruct (_ =? 0); [injection H as _ <-; simpl; lia|]. apply IH in H. simpl. lia.
Qed.

Lemma read_name_shorter t file s rest :
  read_name t file = Ret (s, rest) → (String.length rest < String.length file)%nat.
Proof.
  unfold read_name, stringref_read, int_read. intros H.
  apply res_bind_inv in H as ([r f] & H & H1). apply res_bind_inv in H as ([v f'] & H & H2).
  injection H2 as _ <-. apply res_bind_inv in H1 as (s' & _ & H1). injection H1 as _ <-.
  by apply int_read_loop_shorter in H.
Qed.

Lemma process_record_shorter compat type t file t' e rest :
  process_record compat type t file = Ret (t', e, rest) → (String.length rest ≤ String.length file)%nat.
Proof.
  unfold process_record, process_record_function, process_record_dinstruction, process_record_name.
  intros H. repeat case_match; res_inv; try done; repeat match goal with
  | H : (_, _, _) = (_, _, _) |- _ => injection H as <- <- <-
  | H : (_, _) = (_, _) |- _ => injection H as <- <-
  | x : (_ * _)%type |- _ => destruct x
  | H : string_read _ = Ret _ |- _ => apply string_read_shorter in H
  | H : read_name _ _ = Ret _ |- _ => apply read_name_shorter in H
  | H : int_read _ = Ret _ |- _ => apply int_read_loop_shorter in H
  | H : stringref_read _ = Ret _ |- _ => unfold stringref_read in H; res_inv
  end; simpl in *; lia.
Qed.

Section Reading.
Variable compat : mapparse_compatlevel.

(** Reading the rest of a file with enough fuel. *)
Definition read_records (t : strings) (file : string) : res (list map_event) :=
  mapparse_loop compat (String.length file) t file.

Lemma mapparse_loop_fuel fuel t file :
  (String.length file ≤ fuel)%nat → mapparse_loop compat fuel t file = read_records t file.
Proof.
  unfold read_records. revert t file. induction fuel as [fuel IH] using lt_wf_ind. intros t [|a file] Hf.
  { by destruct fuel. }
  destruct fuel as [|fuel]; [simpl in Hf; lia|]. simpl in *.
  destruct (process_record compat (code a) t file) as [[[t' e] rest]|] eqn:Hp; simpl; [|done].
  apply process_record_shorter in Hp.
  rewrite (IH fuel) by lia. rewrite <- (IH (String.length file)) by lia. done.
Qed.

Lemma read_records_cons t a file :
  read_records t (String a file) =
    let! r := process_record compat (code a) t file in
    let! es := read_records r.1.1 r.2 in
    Ret (match r.1.2 with Some e => e :: es | None => es end).
Proof.
  unfold read_records at 1. simpl.
  destruct (process_record compat (code a) t file) as [[[t' e] rest]|] eqn:Hp; simpl; [|done].
  apply process_record_shorter in Hp. by rewrite mapparse_loop_fuel.
Qed.

(** ** Reading any file

    The table of strings is well formed, references stay inside it. *)
Record strings_ok (t : strings) : Prop := {
  so_count : count t = Z.of_nat (length (data t));
  so_room : count t ≤ countalloc t < 2^31;
}.

Lemma strings_add_ok t s t' : strings_ok t → strings_add t s = Ret t' → strings_ok t'.
Proof.
  intros [Hc Hr] H. unfold strings_add in H. res_inv;
    repeat match goal with H : chk32 _ = Ret _ |- _ => apply chk32_inv in H as [-> ?] end;
    split; simpl; rewrite ?length_app; simpl; zb.
Qed.

(** Only two things stop the reader: a malformed file ([exit]) and an integer
    too large for an [int]. *)
Definition reader_fault {A} (m : res A) : Prop :=
  match m with Ret _ => True | Stop f => f = FExit (-1) ∨ f = FOverflow end.

Lemma reader_fault_bind {A B} (m : res A) (k : A → res B) :
  reader_fault m → (∀ x, m = Ret x → reader_fault (k x)) → reader_fault (res_bind m k).
Proof. destruct m; simpl; auto. Qed.

Lemma string_read_faults file : reader_fault (string_read file).
Proof.
  induction file as [|a file IH]; simpl; [by left|].
  case_match; [done|]. apply reader_fault_bind; [done|]. done.
Qed.

Lemma int_read_loop_faults shift value file : reader_fault (int_read_loop shift value file).
Proof.
  revert shift value. induction file as [|a file IH]; intros shift value; [by left|].
  cbn [int_read_loop]. destruct (negb _); [by right|]. by destruct (_ =? 0).
Qed.

Lemma int_read_loop_nonneg shift value file v rest :
  0 ≤ shift → 0 ≤ value → int_read_loop shift value file = Ret (v, rest) → 0 ≤ v.
Proof.
  revert shift value. induction file as [|a file IH]; intros shift value Hs Hv H; [done|].
  cbn [int_read_loop] in H. destruct (negb _); [done|].
  assert (0 ≤ Z.lor value (Z.shiftl (Z.land (code a) 127) shift)).
  { apply Z.lor_nonneg. split; [done|]. apply Z.shiftl_nonneg, Z.land_nonneg. by right. }
  destruct (_ =? 0); [by injection H as <- _|]. apply IH in H; lia.
Qed.

Lemma strings_add_faults t s : strings_ok t → reader_fault (strings_add t s).
Proof.
  intros [Hc Hr]. unfold strings_add. destruct (Z.leb_spec (count t) (countalloc t)); [|lia].
  apply reader_fault_bind.
  - unfold chk32. repeat case_match; simpl; auto.
  - intros cap H'. destruct (Z.leb_spec (countalloc t) (count t)).
    + apply chk32_inv in H' as [-> ?]. case_match; [zb|done].
    + injection H' as <-. case_match; [zb|done].
Qed.

Lemma stringref_get_faults t ref : strings_ok t → 0 ≤ ref → reader_fault (stringref_get ref t).
Proof.
  intros [Hc Hr] Href. unfold stringref_get. rewrite u32_small by lia.
  destruct (Z.leb_spec (count t) ref); [by left|].
  destruct (lookup_lt_is_Some_2 (data t) (Z.to_nat ref) ltac:(lia)) as [s ->]. done.
Qed.

Lemma read_name_faults t file : strings_ok t → reader_fault (read_name t file).
Proof.
  intros Ht. unfold read_name, stringref_read, int_read.
  repeat apply reader_fault_bind; intros; simpl; eauto using int_read_loop_faults.
  apply reader_fault_bind; [|done]. apply stringref_get_faults; [done|].
  res_inv. apply u32_range.
Qed.

Lemma stringref_read_faults file : reader_fault (stringref_read file).
Proof. apply reader_fault_bind; [apply int_read_loop_faults|done]. Qed.

Lemma stringref_read_nonneg file r : stringref_read file = Ret r → 0 ≤ r.1.
Proof. unfold stringref_read. intros H. res_inv. apply u32_range. Qed.

Ltac faults :=
  repeat first
    [ exact I | assumption | apply string_read_faults | apply read_name_faults | apply int_read_loop_faults
    | apply stringref_read_faults | apply strings_add_faults | by eapply stringref_read_nonneg
    | apply stringref_get_faults | exact (or_introl eq_refl)
    | match goal with |- reader_fault (res_bind _ _) => apply reader_fault_bind; [|intros] end ].

Lemma process_record_faults type t file :
  strings_ok t → reader_fault (process_record compat type t file).
Proof.
  intros Ht. unfold process_record.
  repeat (case_match; [unfold process_record_function, process_record_dinstruction, process_record_name; faults; destruct compat; faults | ]). by left.
Qed.

Lemma process_record_strings type t file r :
  strings_ok t → process_record compat type t file = Ret r → strings_ok r.1.1.
Proof.
  intros Ht H. unfold process_record in H.
  repeat case_match; res_inv; simpl; eauto using strings_add_ok.
Qed.

Lemma read_records_faults t file : strings_ok t → reader_fault (read_records t file).
Proof.
  revert t. induction file as [file IH] using (induction_ltof1 _ String.length). unfold ltof in IH.
  intros t Ht. destruct file as [|a file]; [done|]. rewrite read_records_cons.
  apply reader_fault_bind; [by apply process_record_faults|]. intros [[t' e] rest] Hr.
  apply reader_fault_bind; [|by intros]. apply IH.
  - apply process_record_shorter in Hr. simpl. lia.
  - by eapply process_record_strings in Hr.
Qed.
End Reading.

(** ** Writing *)

(** The writer's table and the reader's, at the same position of the file. *)
Record same_strings (w : map_writer) (t : strings) : Prop := {
  ss_ok : strings_ok t;
  ss_next : stringRefNext w = count t;
  ss_refs : ∀ s r, w_strings w !! s = Some r → 0 ≤ r ∧ data t !! Z.to_nat r = Some s;
}.

(** [f] appends what the reader turns into the call [e] from table [t] on,
    after at most [n] new strings. *)
Definition writes (n : Z) (f : map_writer → map_writer) (e : map_event) : Prop :=
  ∀ w t, same_strings w t → count t + n < 2^30 - 1 →
    ∃ chunk t', w_file (f w) = w_file w +:+ chunk ∧ same_strings (f w) t' ∧ count t' ≤ count t + n ∧
      ∀ rest, read_records mapparse_compat_latest t (chunk +:+ rest) =
        let! es := read_records mapparse_compat_latest t' rest in Ret (e :: es).

Abbreviation records := (read_records mapparse_compat_latest).

Definition ref_of (t : strings) (r : Z) (s : string) : Prop :=
  0 ≤ r < count t ∧ data t !! Z.to_nat r = Some s.

Lemma strings_add_room t s :
  strings_ok t → count t < 2^30 - 1 →
  ∃ cap, strings_add t s = Ret {| count := count t + 1; countalloc := cap; data := data t ++ [s] |}.
Proof.
  intros [Hc Hr] Hroom. unfold strings_add. destruct (Z.leb_spec (count t) (countalloc t)); [|lia].
  destruct (Z.leb_spec (countalloc t) (count t)); simpl; rewrite ?chk32_ok by lia; simpl;
    (case_match; [zb|]); eauto.
Qed.

Lemma getStringRef_reads s w t :
  same_strings w t → plain s = true → count t < 2^30 - 1 →
  ∃ chunk t', w_file (getStringRef s w).2 = w_file w +:+ chunk ∧ same_strings (getStringRef s w).2 t' ∧
    count t ≤ count t' ≤ count t + 1 ∧ ref_of t' (getStringRef s w).1 s ∧
    (∀ r x, ref_of t r x → ref_of t' r x) ∧
    ∀ rest, records t (chunk +:+ rest) = records t' rest.
Proof.
  intros [Hok Hn Hrefs] Hs Hroom. unfold getStringRef. destruct (w_strings w !! s) as [r|] eqn:Hlook.
  - apply Hrefs in Hlook as Href. exists "", t. rewrite string_app_nil_r.
    destruct Href as [Hr Hd]. apply lookup_lt_Some in Hd as Hlt.
    split; [done|]. split; [done|]. split; [lia|]. split; [|done].
    split; simpl; [|done]. rewrite (so_count _ Hok). lia.
  - destruct (strings_add_room t s Hok Hroom) as [cap Hadd].
    exists (String (byte_of MAPFILE_STRING) (s +:+ String "000" "")),
      {| count := count t + 1; countalloc := cap; data := data t ++ [s] |}. simpl.
    rewrite string_app_assoc. split; [done|].
    pose proof (strings_add_ok _ _ _ Hok Hadd) as Hok'. destruct Hok as [Hc Hcap].
    split; [|split; [simpl; lia|split; [|split]]]; [split; simpl| | |].
    + exact Hok'.
    + rewrite u32_small; lia.
    + intros x r. rewrite lookup_insert_Some. intros [[<- <-]|[_ Hx]].
      * rewrite Hn, Hc, Nat2Z.id. split; [lia|]. by apply list_lookup_middle.
      * apply Hrefs in Hx as [? Hx]. split; [done|]. by apply lookup_app_l_Some.
    + unfold ref_of. simpl. rewrite Hn, Hc, Nat2Z.id. split; [lia|]. by apply list_lookup_middle.
    + intros r x [Hr Hx]. split; simpl; [lia|]. by apply lookup_app_l_Some.
    + intros rest. rewrite read_records_cons. change (code (byte_of MAPFILE_STRING)) with 1.
      unfold process_record at 1. simpl. rewrite string_app_assoc. simpl. rewrite string_read_plain by done.
      simpl. rewrite Hadd. simpl. by destruct (records _ rest).
Qed.

Lemma stringref_get_ref t r s : strings_ok t → ref_of t r s → stringref_get r t = Ret s.
Proof.
  intros [Hc Hcap] [Hr Hd]. unfold stringref_get. rewrite u32_small by lia.
  destruct (Z.leb_spec (count t) r); [lia|]. by rewrite Hd.
Qed.

Lemma stringref_read_bytes r rest : 0 ≤ r < 2^31 → stringref_read (int_bytes 10 r +:+ rest) = Ret (r, rest).
Proof. intros. unfold stringref_read. rewrite int_read_writeInt by done. simpl. by rewrite u32_small by lia. Qed.

Lemma read_name_bytes t r s rest :
  strings_ok t → ref_of t r s → read_name t (int_bytes 10 r +:+ rest) = Ret (s, rest).
Proof.
  intros Hok Href. unfold read_name. rewrite stringref_read_bytes by (destruct Hok, Href; lia). simpl.
  by rewrite (stringref_get_ref _ _ _ Hok Href).
Qed.

Lemma same_strings_appended w t s : same_strings w t → same_strings (appended w s) t.
Proof. by intros [? ? ?]; split. Qed.

(** A record whose only operand is a string. *)
Lemma writes_name (T : Z) k s f :
  (∀ w, f w = writeStringRef (getStringRef s w).1 (put T (getStringRef s w).2)) →
  0 ≤ T < 256 →
  (∀ t file, process_record mapparse_compat_latest T t file =
    let! r := process_record_name k t file in Ret (t, Some r.1, r.2)) →
  plain s = true → writes 1 f (k s).
Proof.
  intros Hf HT Hproc Hs w t Hw Hroom. rewrite Hf.
  destruct (getStringRef_reads s w t Hw Hs ltac:(lia)) as (chunk & t' & Hfile & Hw' & Hc & Href & _ & Hread).
  unfold writeStringRef, writeInt. rewrite writeInt_loop_appends.
  exists (chunk +:+ String (byte_of T) (int_bytes 10 (getStringRef s w).1)), t'.
  split; [cbn [w_file appended put]; rewrite Hfile, !string_app_assoc; reflexivity|].
  split; [by apply (same_strings_appended _ _ _ (same_strings_appended _ _ (String (byte_of T) "") Hw'))|].
  split; [lia|]. intros rest. rewrite string_app_assoc, Hread.
  cbn [String.append]. rewrite read_records_cons, code_byte_of, Hproc by done.
  unfold process_record_name. rewrite (read_name_bytes _ _ s) by (done || apply Hw'). reflexivity.
Qed.

Lemma writes_byte (T : Z) e f :
  (∀ w, f w = put T w) → 0 ≤ T < 256 →
  (∀ t file, process_record mapparse_compat_latest T t file = Ret (t, Some e, file)) →
  writes 0 f e.
Proof.
  intros Hf HT Hproc w t Hw Hroom. rewrite Hf. exists (String (byte_of T) ""), t.
  split; [done|]. split; [by apply (same_strings_appended _ _ (String (byte_of T) "") Hw)|].
  split; [lia|]. intros rest. cbn [String.append].
  by rewrite read_records_cons, code_byte_of, Hproc by done.
Qed.

Lemma writes_dinstruction path line :
  plain path = true → 0 ≤ line < 2^31 → writes 1 (writeDInstruction path line) (ev_dinstruction path line).
Proof.
  intros Hs Hl w t Hw Hroom. unfold writeDInstruction.
  destruct (getStringRef_reads path w t Hw Hs ltac:(lia)) as (chunk & t' & Hfile & Hw' & Hc & Href & _ & Hread).
  destruct (getStringRef path w) as [r w']. cbn [fst snd] in *.
  unfold writeStringRef, writeInt. rewrite !writeInt_loop_appends, appended_app.
  exists (chunk +:+ String (byte_of 5) (int_bytes 10 r +:+ int_bytes 10 line)), t'.
  split; [cbn [w_file appended put]; rewrite Hfile, !string_app_assoc; reflexivity|].
  split; [by apply (same_strings_appended _ _ _ (same_strings_appended _ _ (String (byte_of 5) "") Hw'))|].
  split; [lia|]. intros rest. rewrite string_app_assoc, Hread.
  cbn [String.append]. rewrite read_records_cons, code_byte_of, string_app_assoc by done.
  unfold process_record at 1. cbn [Z.eqb Pos.eqb MAPFILE_STRING MAPFILE_FUNCTION MAPFILE_BASIC_BLOCK MAPFILE_INSTRUCTION MAPFILE_DINSTRUCTION].
  unfold process_record_dinstruction. rewrite (read_name_bytes _ _ path) by (done || apply Hw').
  cbn [res_bind fst snd]. rewrite int_read_writeInt by done. cbn [res_bind fst snd].
  rewrite u32_small by lia. reflexivity.
Qed.

Lemma writes_function name relPath :
  plain name = true → plain relPath = true →
  writes 2 (writeFunction name relPath) (ev_function name relPath).
Proof.
  intros Hn Hp w t Hw Hroom. unfold writeFunction.
  destruct (getStringRef_reads name w t Hw Hn ltac:(lia)) as (chunk1 & t1 & Hfile1 & Hw1 & Hc1 & Href1 & _ & Hread1).
  destruct (getStringRef name w) as [rn w1]. cbn [fst snd] in *.
  destruct (getStringRef_reads relPath w1 t1 Hw1 Hp ltac:(lia))
    as (chunk2 & t2 & Hfile2 & Hw2 & Hc2 & Href2 & Hkeep & Hread2).
  destruct (getStringRef relPath w1) as [rp w2]. cbn [fst snd] in *.
  unfold writeStringRef, writeInt. rewrite !writeInt_loop_appends, appended_app.
  exists (chunk1 +:+ (chunk2 +:+ String (byte_of 2) (int_bytes 10 rn +:+ int_bytes 10 rp))), t2.
  split; [cbn [w_file appended put]; rewrite Hfile2, Hfile1, !string_app_assoc; reflexivity|].
  split; [by apply (same_strings_appended _ _ _ (same_strings_appended _ _ (String (byte_of 2) "") Hw2))|].
  split; [lia|]. intros rest. rewrite string_app_assoc, Hread1, string_app_assoc, Hread2.
  cbn [String.append]. rewrite read_records_cons, code_byte_of, string_app_assoc by done.
  unfold process_record at 1. cbn [Z.eqb Pos.eqb MAPFILE_STRING MAPFILE_FUNCTION].
  unfold process_record_function. rewrite (read_name_bytes _ _ name) by (apply Hw2 || auto). cbn [res_bind snd fst].
  assert (Hok : strings_ok t2) by apply Hw2.
  rewrite stringref_read_bytes by (destruct Href2, Hok; lia).
  cbn [res_bind snd fst]. rewrite (stringref_get_ref _ _ relPath) by done. reflexivity.
Qed.

(** What the pass writes: C strings and line numbers that fit an [int]. *)
Definition event_ok (e : map_event) : bool :=
  match e with
  | ev_module_name n | ev_fault_candidate n | ev_fault_injected n => plain n
  | ev_function n p => plain n && plain p
  | ev_dinstruction p l => plain p && (0 <=? l) && (l <? 2^31)
  | ev_basic_block | ev_instruction => true
  end.

Lemma writes_weaken n m f e : n ≤ m → writes n f e → writes m f e.
Proof.
  intros Hnm Hw w t Hs Hroom. destruct (Hw w t Hs ltac:(lia)) as (c & t' & ? & ? & ? & ?).
  exists c, t'. split; [done|]. split; [done|]. split; [lia|done].
Qed.

Lemma write_event_writes e : event_ok e = true → writes 2 (write_event e) e.
Proof.
  intros He. destruct e; cbn [event_ok] in He;
    repeat match goal with H : (_ && _) = true |- _ => apply andb_true_iff in H as [? ?] end.
  - apply (writes_weaken 1); [lia|]. apply (writes_name MAPFILE_MODULE_NAME ev_module_name); try done.
    intros w. simpl. unfold writeModuleName. by destruct (getStringRef name w).
  - by apply writes_function.
  - apply (writes_weaken 0); [lia|]. by apply (writes_byte MAPFILE_BASIC_BLOCK).
  - apply (writes_weaken 0); [lia|]. by apply (writes_byte MAPFILE_INSTRUCTION).
  - apply (writes_weaken 1); [lia|]. apply writes_dinstruction; [done|zb].
  - apply (writes_weaken 1); [lia|]. apply (writes_name MAPFILE_FAULT_CANDIDATE ev_fault_candidate); try done.
    intros w. simpl. unfold writeFaultCandidate. by destruct (getStringRef name w).
  - apply (writes_weaken 1); [lia|]. apply (writes_name MAPFILE_FAULT_INJECTED ev_fault_injected); try done.
    intros w. simpl. unfold writeFaultInjected. by destruct (getStringRef name w).
Qed.

Lemma write_events_read es w t :
  same_strings w t → forallb event_ok es = true → count t + 2 * Z.of_nat (length es) < 2^30 - 1 →
  ∃ chunk, w_file (fold_left (λ w e, write_event e w) es w) = w_file w +:+ chunk ∧
    records t chunk = Ret es.
Proof.
  revert w t. induction es as [|e es IH]; intros w t Hw Hok Hroom; simpl.
  { exists "". by rewrite string_app_nil_r. }
  simpl in Hok, Hroom. apply andb_true_iff in Hok as [He Hes].
  destruct (write_event_writes e He w t Hw ltac:(lia)) as (c1 & t1 & Hf1 & Hw1 & Hc1 & Hr1).
  destruct (IH (write_event e w) t1 Hw1 Hes ltac:(lia)) as (c2 & Hf2 & Hr2).
  exists (c1 +:+ c2). rewrite Hf2, Hf1, string_app_assoc. split; [done|]. by rewrite Hr1, Hr2.
Qed.

Lemma int_read_bytes_large fuel v shift acc rest :
  v < 128 ^ Z.of_nat (S fuel) → 2^31 ≤ v * 2^shift → 0 < v → 0 ≤ shift →
  int_read_loop shift acc (int_bytes fuel v +:+ rest) = Stop FOverflow.
Proof.
  revert v shift acc. induction fuel as [|fuel IH]; intros v shift acc Hv Hbig Hpos Hshift;
    destruct (group_split v ltac:(lia)) as (Heq & Hb & Hs);
    destruct (marked_group _ Hb) as (Hc & Hl & _ & Hc' & Hl' & Hm');
    pose proof (Z.pow_pos_nonneg 2 shift ltac:(lia) ltac:(lia)) as Hp.
  - change (128 ^ Z.of_nat 1) with 128 in Hv. assert (Z.land v 0x7f = v) as Hlv by lia.
    rewrite Hlv in Hc, Hl. simpl. rewrite Hlv, Hc, Hl, Z.shiftl_mul_pow2 by lia.
    destruct (Z.ltb_spec (v * 2^shift) (2^31)); [lia|]. by rewrite andb_false_r.
  - cbn [int_bytes]. destruct (Z.eqb_spec (Z.shiftr v 7) 0) as [H0|H0].
    + assert (Z.land v 0x7f = v) as Hlv by lia.
      rewrite Hlv in Hc, Hl. rewrite Hlv. simpl. rewrite Hc, Hl, Z.shiftl_mul_pow2 by lia.
      destruct (Z.ltb_spec (v * 2^shift) (2^31)); [lia|]. by rewrite andb_false_r.
    + simpl String.append. cbn [int_read_loop]. rewrite Hc', Hl', Hm'. case_match; [done|].
      cbn [Z.eqb].
      assert (H7 : 2^(shift + 7) = 128 * 2^shift) by (rewrite Z.pow_add_r by lia; lia).
      rewrite Nat2Z.inj_succ, Z.pow_succ_r in Hv by lia. apply IH; [lia| |lia|lia].
      destruct (decide (shift + 7 ≤ 31)) as [Hsmall|Hlarge].
      * assert (H31 : 2^31 = 2^(31 - (shift + 7)) * 2^(shift + 7)) by (rewrite <- Z.pow_add_r by lia; f_equal; lia).
        pose proof (Z.pow_pos_nonneg 2 (31 - (shift + 7)) ltac:(lia) ltac:(lia)).
        rewrite H31 in *. apply Z.mul_le_mono_nonneg_r; [lia|]. rewrite H7 in Hbig. nia.
      * pose proof (Z.pow_le_mono_r 2 31 (shift + 7) ltac:(lia) ltac:(lia)). nia.
Qed.

(** A file of the pass, as the reader sees it. *)
Lemma written_file name es :
  plain name = true → forallb event_ok es = true → Z.of_nat (length es) < 2^29 - 2 →
  records no_strings (w_file (fold_left (λ w e, write_event e w) es (MapFile_new name))) =
    Ret (ev_module_name name :: es).
Proof.
  intros Hname Hes Hlen.
  destruct (write_events_read (ev_module_name name :: es) {| w_strings := ∅; stringRefNext := 0; w_file := "" |} no_strings)
    as (chunk & Hf & Hr).
  - split; [by split; simpl|done|]. by intros s r.
  - simpl. by rewrite Hname, Hes.
  - simpl length. simpl count. lia.
  - simpl fold_left in Hf. unfold MapFile_new. by rewrite Hf.
Qed.

(** The map file round trip.  Reading the file that the pass writes for a
    module calls the callbacks with the module's name and then with exactly the
    functions, blocks, instructions (with their paths and lines) and faults that
    were written, in order, whatever strings they share. *)
Theorem mapfile_roundtrip name es :
  plain name = true → forallb event_ok es = true → Z.of_nat (length es) < 2^29 - 2 →
  mapparse_file mapparse_compat_latest
    (w_file (fold_left (λ w e, write_event e w) es (MapFile_new name))) = Ret (ev_module_name name :: es).
Proof. apply written_file. Qed.

(** Reading terminates on every file.  Whatever the bytes, the reader stays
    inside its table of strings and its file: it ends with the callbacks' calls,
    exits on a malformed record, or meets an integer that overflows an [int]. *)
Theorem mapparse_file_total compat file :
  match mapparse_file compat file with
  | Ret _ => True
  | Stop f => f = FExit (-1) ∨ f = FOverflow
  end.
Proof. apply (read_records_faults compat no_strings file). by split; simpl. Qed.

(** Integers below 2^31 are read back, larger ones stop the reader.
    [writeInt] writes an [unsigned long] of any size, also line numbers of
    2^31 or more, but [int_read] shifts an [int], which overflows. *)
Theorem int_roundtrip strs next v rest :
  0 ≤ v < 2^64 →
  int_read (w_file (writeInt v {| w_strings := strs; stringRefNext := next; w_file := "" |}) +:+ rest) =
    if v <? 2^31 then Ret (v, rest) else Stop FOverflow.
Proof.
  intros Hv. unfold writeInt. rewrite writeInt_loop_appends. cbn [w_file appended String.append].
  destruct (Z.ltb_spec v (2^31)); [apply int_read_writeInt; lia|]. apply int_read_bytes_large; lia.
Qed.

Lemma int_roundtrip_witness :
  int_read (w_file (writeInt (2^32 - 1) {| w_strings := ∅; stringRefNext := 0; w_file := "" |}) +:+ "") = Stop FOverflow.
Proof. apply (int_roundtrip ∅ 0 (2^32 - 1) ""). lia. Defined.

Lemma mapfile_roundtrip_witness :
  mapparse_file mapparse_compat_latest
    (w_file (fold_left (λ w e, write_event e w)
      [ev_function "main" "src/main.c"; ev_basic_block; ev_dinstruction "src/main.c" 300; ev_fault_injected "swap"]
      (MapFile_new "pm"))) =
  Ret [ev_module_name "pm"; ev_function "main" "src/main.c"; ev_basic_block; ev_dinstruction "src/main.c" 300;
       ev_fault_injected "swap"].
Proof. apply mapfile_roundtrip; [reflexivity | reflexivity | simpl; lia]. Defined.
