(* ===== verification/FixPath.v ===== *)
(** * Paths of map files: [fixPath] of [hypermemloganalyze/common/module.c]

    [fixPath] removes empty, [.] and [..] elements from a path.  It copies the
    path into a buffer of its length; the model keeps the written part of the
    buffer as a list, the last byte first. *)

From Stdlib Require Import ZArith Lia Ascii String.
From stdpp Require Import base list numbers strings.
From S2P Require Import Prelude Helper.

Definition chars := list ascii.
Definition slash : ascii := "/".
Definition is_slash (a : ascii) : bool := Ascii.eqb a slash.

(** [strstr (path, "//")], plus one. *)
Fixpoint after_double_slash (path : chars) : option chars :=
  match path with
  | a :: ((b :: _) as path') => if is_slash a && is_slash b then Some path' else after_double_slash path'
  | _ => None
  end.

Definition path_start (path : chars) : chars :=
  match path with
  | a :: _ => if is_slash a then default path (after_double_slash path) else path
  | [] => path
  end.

Fixpoint skip_slashes (path : chars) : chars :=
  match path with
  | a :: path' => if is_slash a then skip_slashes path' else path
  | [] => []
  end.

Fixpoint scan_elem (path : chars) : chars * chars :=
  match path with
  | a :: path' => if is_slash a then ([], path) else let r := scan_elem path' in (a :: r.1, r.2)
  | [] => ([], [])
  end.

(** Writing at [p]; [cap] bytes were allocated. *)
Definition push (cap : nat) (out : chars) (a : ascii) : res chars :=
  if (length out <? cap)%nat then Ret (a :: out) else Stop FBounds.

(** [do { p--; } while (p > pathFixed && p[-1] != '/')] *)
Fixpoint pop_elem (out : chars) : chars :=
  match out with
  | a :: out' => if is_slash a then out else pop_elem out'
  | [] => []
  end.
Definition pop (out : chars) : chars := pop_elem (tail out).

Definition dot : chars := ["."%char].
Definition dotdot : chars := ["."%char; "."%char].

Fixpoint fix_loop (fuel cap : nat) (out path : chars) : res chars :=
  match path with
  | [] => Ret out
  | a :: _ =>
      match fuel with
      | O => Stop FFuel
      | S fuel' =>
          let! s := if is_slash a then let! out := push cap out slash in Ret (out, skip_slashes path)
                    else Ret (out, path) in
          let (elem, rest) := scan_elem s.2 in
          if bool_decide (elem = dot) then
            match rest with [] => Stop FBounds | _ :: rest' => fix_loop fuel' cap s.1 rest' end
          else if bool_decide (elem = dotdot) && (1 <? length s.1)%nat then
            match rest with [] => Stop FBounds | _ :: rest' => fix_loop fuel' cap (pop s.1) rest' end
          else let! out := res_foldl (push cap) s.1 elem in fix_loop fuel' cap out rest
      end
  end.

Definition fix_chars (path : chars) : res chars :=
  let path := path_start path in
  let cap := S (length path) in
  let! out := fix_loop (length path) cap [] path in
  let! _ := push cap out "000"%char in
  Ret (rev out).

Definition fixPath (path : string) : res string :=
  let! out := fix_chars (list_ascii_of_string path) in Ret (string_of_list_ascii out).

(** ** Reference: a stack of path elements *)

Definition push_elem (stk : list chars) (c : chars) : list chars :=
  if bool_decide (c = dot) then stk
  else if bool_decide (c = dotdot) then match stk with [] => [c] | _ :: stk' => stk' end
  else c :: stk.

(** The elements of a stack, the bottom first, each with its slash. *)
Definition dir_chars (dirs : list chars) : chars := concat ((λ c, c ++ [slash]) <$> dirs).

(** An element of a path: not empty, no slash. *)
Definition elem_ok (c : chars) : bool := negb (bool_decide (c = [])) && forallb (λ a, negb (is_slash a)) c.
Definition file_ok (c : chars) : bool :=
  forallb (λ a, negb (is_slash a)) c && negb (bool_decide (c = dot)) && negb (bool_decide (c = dotdot)).

Definition root_chars (absolute : bool) : chars := if absolute then [slash] else [].
Definition full_path (absolute : bool) (dirs : list chars) (file : chars) : chars :=
  root_chars absolute ++ dir_chars dirs ++ file.
Definition normalise (dirs : list chars) : list chars := rev (foldl push_elem [] dirs).

Example fix1 : fixPath "src/./lib/../main.c" = Ret "src/main.c"%string.
Proof. reflexivity. Qed.
Example fix2 : fixPath "/usr/obj//home/x.c" = Ret "/home/x.c"%string.
Proof. reflexivity. Qed.
Example fix3 : fixPath "a/..//b" = Ret "/b"%string.
Proof. reflexivity. Qed.
Example fix4 : fixPath "../../x" = Ret "x"%string.
Proof. reflexivity. Qed.
Example fix5 : fixPath "a/." = Stop FBounds.
Proof. reflexivity. Qed.
Example fix6 : fix_chars (full_path true [["a"%char]; dotdot; dotdot; ["b"%char]] ["c"%char]) =
  Ret (full_path true (normalise [["a"%char]; dotdot; dotdot; ["b"%char]]) ["c"%char]).
Proof. reflexivity. Qed.

(** ** The loop on one element *)

Definition no_slash (c : chars) : Prop := forallb (λ a, negb (is_slash a)) c = true.

(** The next character is a slash, or there is none. *)
Definition at_boundary (rest : chars) : Prop := ∀ a rest', rest = a :: rest' → is_slash a = true.

Lemma no_slash_cons a c : no_slash (a :: c) ↔ is_slash a = false ∧ no_slash c.
Proof. unfold no_slash. simpl. by rewrite andb_true_iff, negb_true_iff. Qed.

Lemma scan_elem_app c rest : no_slash c → at_boundary rest → scan_elem (c ++ rest) = (c, rest).
Proof.
  induction c as [|a c IH]; simpl; intros Hc Hr.
  - destruct rest as [|b rest]; simpl; [done|]. by rewrite (Hr b rest).
  - apply no_slash_cons in Hc as [Ha Hc]. by rewrite Ha, IH.
Qed.

Lemma res_foldl_push cap c out :
  (length out + length c ≤ cap)%nat → res_foldl (push cap) out c = Ret (rev c ++ out).
Proof.
  revert out. induction c as [|a c IH]; simpl; intros out Hcap; [done|].
  unfold push at 1. destruct (Nat.ltb_spec (length out) cap); [|lia]. simpl.
  rewrite IH by (simpl; lia). by rewrite <- app_assoc.
Qed.

(** The loop when [path] is at the start of an element. *)
Lemma fix_loop_elem fuel cap out c rest :
  c ≠ [] → no_slash c → at_boundary rest → (length out + length c ≤ cap)%nat →
  fix_loop (S fuel) cap out (c ++ rest) =
    if bool_decide (c = dot) then
      match rest with [] => Stop FBounds | _ :: rest' => fix_loop fuel cap out rest' end
    else if bool_decide (c = dotdot) && (1 <? length out)%nat then
      match rest with [] => Stop FBounds | _ :: rest' => fix_loop fuel cap (pop out) rest' end
    else fix_loop fuel cap (rev c ++ out) rest.
Proof.
  intros Hne Hc Hr Hcap. destruct c as [|a c]; [done|]. pose proof Hc as [Ha _]%no_slash_cons.
  cbn [fix_loop app]. rewrite Ha. cbn [res_bind snd fst]. change (a :: c ++ rest) with ((a :: c) ++ rest).
  rewrite scan_elem_app by done. by rewrite (res_foldl_push _ _ _ Hcap).
Qed.

(** A single slash goes to the buffer. *)
Lemma fix_loop_slash fuel cap out rest :
  (length out < cap)%nat → (∀ a rest', rest = a :: rest' → is_slash a = false) →
  fix_loop (S fuel) cap out (slash :: rest) = fix_loop (S fuel) cap (slash :: out) rest.
Proof.
  intros Hcap Hrest. cbn [fix_loop]. change (is_slash slash) with true. cbn iota.
  unfold push at 1. destruct (Nat.ltb_spec (length out) cap); [|lia]. cbn [res_bind].
  change (skip_slashes (slash :: rest)) with (skip_slashes rest).
  destruct rest as [|a rest]; [by destruct fuel|].
  pose proof (Hrest a rest eq_refl) as Ha.
  assert (Hs : skip_slashes (a :: rest) = a :: rest) by (simpl; by rewrite Ha).
  rewrite Hs, Ha. done.
Qed.

(** ** The loop against the stack *)

Definition buffer (absolute : bool) (stk : list chars) : chars := rev (root_chars absolute ++ dir_chars (rev stk)).

Lemma dir_chars_app l1 l2 : dir_chars (l1 ++ l2) = dir_chars l1 ++ dir_chars l2.
Proof. unfold dir_chars. by rewrite fmap_app, concat_app. Qed.

Lemma dir_chars_cons c l : dir_chars (c :: l) = c ++ slash :: dir_chars l.
Proof. unfold dir_chars. simpl. by rewrite <- app_assoc. Qed.

Lemma buffer_cons ab c stk : buffer ab (c :: stk) = slash :: rev c ++ buffer ab stk.
Proof.
  unfold buffer. simpl rev at 2. rewrite dir_chars_app. unfold dir_chars at 2. simpl.
  rewrite app_nil_r, !rev_app_distr. simpl. by rewrite <- app_assoc.
Qed.

Lemma elem_ok_spec c : elem_ok c = true ↔ c ≠ [] ∧ no_slash c.
Proof. unfold elem_ok, no_slash. by rewrite andb_true_iff, negb_true_iff, bool_decide_eq_false. Qed.

Lemma pop_elem_app c out : no_slash c → at_boundary out → pop_elem (c ++ out) = out.
Proof.
  induction c as [|a c IH]; simpl; intros Hc Hout.
  - destruct out as [|b out]; simpl; [done|]. by rewrite (Hout b out).
  - apply no_slash_cons in Hc as [Ha Hc]. by rewrite Ha, IH.
Qed.

Lemma buffer_boundary ab stk : at_boundary (buffer ab stk).
Proof.
  intros a rest. destruct stk as [|c stk]; [|rewrite buffer_cons; by intros [= <- _]].
  destruct ab; [by intros [= <- _]|done].
Qed.

Lemma no_slash_rev c : no_slash c → no_slash (rev c).
Proof. unfold no_slash. rewrite !forallb_forall. intros H x Hx. apply H. by apply in_rev. Qed.

Lemma buffer_long ab stk : Forall (λ c, elem_ok c = true) stk → (1 <? length (buffer ab stk))%nat = negb (bool_decide (stk = [])).
Proof.
  intros Hstk. destruct stk as [|c stk]; [by destruct ab|]. apply Forall_cons in Hstk as [Hc _].
  apply elem_ok_spec in Hc as [Hc _]. rewrite buffer_cons. simpl. rewrite length_app, length_rev.
  destruct c as [|x c]; [done|]. simpl. done.
Qed.

Lemma pop_buffer ab c stk : elem_ok c = true → pop (buffer ab (c :: stk)) = buffer ab stk.
Proof.
  intros [_ Hc]%elem_ok_spec. rewrite buffer_cons. unfold pop. simpl.
  apply pop_elem_app; [by apply no_slash_rev | apply buffer_boundary].
Qed.

Lemma push_elem_ok stk c :
  elem_ok c = true → Forall (λ c, elem_ok c = true) stk → Forall (λ c, elem_ok c = true) (push_elem stk c).
Proof.
  intros Hc Hstk. unfold push_elem. repeat case_match; auto. by apply Forall_cons in Hstk as [_ Hstk].
Qed.

Lemma foldl_push_elem_ok stk dirs :
  Forall (λ c, elem_ok c = true) dirs → Forall (λ c, elem_ok c = true) stk →
  Forall (λ c, elem_ok c = true) (foldl push_elem stk dirs).
Proof.
  intros Hd. revert stk. induction Hd; intros stk Hs; simpl; [done|]. apply IHHd. by apply push_elem_ok.
Qed.

Lemma push_elem_length ab stk c :
  (length (buffer ab (push_elem stk c)) ≤ length (buffer ab stk) + length c + 1)%nat.
Proof.
  unfold push_elem. repeat case_match; subst; rewrite ?buffer_cons; simpl;
    rewrite ?length_app, ?length_rev; simpl; lia.
Qed.

(** One directory: the buffer follows the stack. *)
Lemma fix_loop_dir fuel cap ab stk c rest :
  elem_ok c = true → Forall (λ c, elem_ok c = true) stk →
  (length (buffer ab stk) + length c < cap)%nat →
  (∀ a rest', rest = a :: rest' → is_slash a = false) →
  fix_loop (S (S fuel)) cap (buffer ab stk) (c ++ slash :: rest) =
  fix_loop (S fuel) cap (buffer ab (push_elem stk c)) rest.
Proof.
  intros Hc Hstk Hcap Hrest. pose proof Hc as [Hne Hns]%elem_ok_spec.
  rewrite fix_loop_elem; [|done|done|by intros a r [= <- _]|lia].
  rewrite (buffer_long _ _ Hstk). unfold push_elem.
  destruct (decide (c = dot)) as [Hd|Hd]; [by rewrite !(bool_decide_true (c = dot))|].
  rewrite !(bool_decide_false (c = dot)) by done.
  assert (Hcopy : fix_loop (S fuel) cap (rev c ++ buffer ab stk) (slash :: rest) =
                  fix_loop (S fuel) cap (buffer ab (c :: stk)) rest).
  { rewrite fix_loop_slash; [by rewrite buffer_cons| |done]. rewrite length_app, length_rev. lia. }
  destruct (decide (c = dotdot)) as [Hdd|Hdd]; [|by rewrite !(bool_decide_false (c = dotdot))].
  rewrite !(bool_decide_true (c = dotdot)) by done. destruct stk as [|c' stk]; [done|].
  apply Forall_cons in Hstk as [Hc' _]. cbn [bool_decide negb andb]. by rewrite pop_buffer.
Qed.

Definition first_ok (rest : chars) : Prop := ∀ a rest', rest = a :: rest' → is_slash a = false.

Lemma dirs_first_ok dirs file :
  Forall (λ c, elem_ok c = true) dirs → no_slash file → first_ok (dir_chars dirs ++ file).
Proof.
  intros Hd Hf a rest. destruct dirs as [|c dirs]; simpl.
  - intros ->. by apply no_slash_cons in Hf as [? _].
  - apply Forall_cons in Hd as [[Hne Hc]%elem_ok_spec _]. destruct c as [|x c]; [done|].
    apply no_slash_cons in Hc as [Hx _]. unfold dir_chars. simpl. by intros [= <- _].
Qed.

Lemma fix_loop_dirs dirs fuel cap ab stk file :
  Forall (λ c, elem_ok c = true) dirs → Forall (λ c, elem_ok c = true) stk → no_slash file →
  (length (buffer ab stk) + length (dir_chars dirs) < cap)%nat →
  fix_loop (S (length dirs + fuel)) cap (buffer ab stk) (dir_chars dirs ++ file) =
  fix_loop (S fuel) cap (buffer ab (foldl push_elem stk dirs)) file ∧
  (length (buffer ab (foldl push_elem stk dirs)) ≤ length (buffer ab stk) + length (dir_chars dirs))%nat.
Proof.
  revert stk. induction dirs as [|c dirs IH]; intros stk Hd Hstk Hf Hcap; cbn [foldl length plus].
  { split; [done|lia]. }
  apply Forall_cons in Hd as [Hc Hd]. pose proof (push_elem_length ab stk c) as Hlen.
  rewrite dir_chars_cons in *. rewrite !length_app in *. cbn [length] in *. rewrite <- !app_assoc. cbn [app].
  destruct (IH (push_elem stk c) Hd) as [IH1 IH2]; [by apply push_elem_ok|done|lia|].
  split; [|lia]. rewrite <- IH1.
  apply fix_loop_dir; [done|done|lia|]. by apply dirs_first_ok.
Qed.

Lemma file_ok_spec c : file_ok c = true ↔ no_slash c ∧ c ≠ dot ∧ c ≠ dotdot.
Proof.
  unfold file_ok, no_slash. rewrite !andb_true_iff, !negb_true_iff, !bool_decide_eq_false. naive_solver.
Qed.

Lemma dir_chars_length dirs :
  Forall (λ c, elem_ok c = true) dirs → (2 * length dirs ≤ length (dir_chars dirs))%nat.
Proof.
  induction 1 as [|c dirs Hc _ IH]; simpl; [lia|]. apply elem_ok_spec in Hc as [Hne _].
  rewrite dir_chars_cons, length_app. destruct c; [done|]. simpl. lia.
Qed.

(** The loop up to the last element of a path without repeated slashes. *)
Lemma fix_loop_path ab dirs file :
  Forall (λ c, elem_ok c = true) dirs → no_slash file →
  let path := full_path ab dirs file in
  path ≠ [] →
  ∃ fuel, fix_loop (length path) (S (length path)) [] path =
      fix_loop (S fuel) (S (length path)) (buffer ab (foldl push_elem [] dirs)) file ∧
    (length (buffer ab (foldl push_elem [] dirs)) + length file ≤ length path)%nat.
Proof.
  intros Hd Hf path Hne. pose proof (dir_chars_length dirs Hd) as Hdl.
  assert (Hpl : length path = (length (root_chars ab) + length (dir_chars dirs) + length file)%nat).
  { unfold path, full_path. rewrite !length_app. lia. }
  assert (Hb0 : length (buffer ab []) = length (root_chars ab)) by (by destruct ab).
  exists (length path - 1 - length dirs)%nat.
  destruct (fix_loop_dirs dirs (length path - 1 - length dirs) (S (length path)) ab [] file) as [Hrun Hlen]; try done.
  { lia. }
  split; [|lia]. rewrite <- Hrun.
  destruct (length path) as [|k] eqn:Hk; [by destruct path|].
  replace (S (length dirs + (S k - 1 - length dirs))) with (S k) by lia.
  unfold path, full_path. destruct ab; [|done]. cbn [root_chars app].
  apply fix_loop_slash; [simpl; lia|]. by apply dirs_first_ok.
Qed.

Lemma after_double_slash_none c : no_slash c → after_double_slash c = None.
Proof.
  induction c as [|a c IH]; [done|]. intros [Ha Hc]%no_slash_cons. destruct c as [|b c]; [done|].
  cbn [after_double_slash]. rewrite Ha. by apply IH.
Qed.

Lemma after_double_slash_app c rest :
  no_slash c → after_double_slash (c ++ slash :: rest) = after_double_slash (slash :: rest).
Proof.
  induction c as [|a c IH]; [done|]. intros [Ha Hc]%no_slash_cons. rewrite <- IH by done.
  cbn [app]. destruct (c ++ slash :: rest) as [|b r] eqn:Hr; [by destruct c|].
  cbn [after_double_slash]. by rewrite Ha.
Qed.

Lemma after_double_slash_first rest : first_ok rest → after_double_slash (slash :: rest) = after_double_slash rest.
Proof.
  intros Hr. destruct rest as [|a rest]; [done|]. cbn [after_double_slash].
  rewrite (Hr a rest eq_refl), andb_false_r. done.
Qed.

(** The first double slash of a path is where its last part begins. *)
Lemma after_double_slash_dirs dirs rest :
  Forall (λ c, elem_ok c = true) dirs →
  after_double_slash (slash :: dir_chars dirs ++ rest) = after_double_slash (slash :: rest).
Proof.
  induction 1 as [|c dirs Hc Hd IH]; [done|]. rewrite <- IH.
  assert (Hfirst : first_ok (dir_chars (c :: dirs) ++ rest)).
  { intros a r. rewrite dir_chars_cons. apply elem_ok_spec in Hc as [Hne Hc]. destruct c; [done|].
    apply no_slash_cons in Hc as [? _]. by intros [= <- _]. }
  rewrite (after_double_slash_first _ Hfirst), dir_chars_cons, <- app_assoc. cbn [app].
  apply after_double_slash_app. by apply elem_ok_spec in Hc as [_ ?].
Qed.

Lemma path_start_full ab dirs file :
  Forall (λ c, elem_ok c = true) dirs → no_slash file → path_start (full_path ab dirs file) = full_path ab dirs file.
Proof.
  intros Hd Hf. unfold full_path. destruct ab; cbn [root_chars app].
  - cbn [path_start]. rewrite after_double_slash_dirs by done.
    rewrite after_double_slash_first by (intros a r ->; by apply no_slash_cons in Hf as [? _]).
    by rewrite after_double_slash_none.
  - pose proof (dirs_first_ok dirs file Hd Hf) as H. destruct (dir_chars dirs ++ file) as [|a r]; [done|].
    cbn [path_start]. by rewrite (H a r).
Qed.

Lemma fix_chars_path path ab dirs file :
  Forall (λ c, elem_ok c = true) dirs → file_ok file = true →
  path_start path = full_path ab dirs file → fix_chars path = Ret (full_path ab (normalise dirs) file).
Proof.
  intros Hd (Hf & Hdot & Hdd)%file_ok_spec Hp. unfold fix_chars. rewrite Hp.
  destruct (decide (full_path ab dirs file = [])) as [He|Hne].
  { pose proof (dir_chars_length dirs Hd) as Hl. unfold full_path in He |- *.
    apply app_eq_nil in He as [Hab [Hdn ->]%app_eq_nil]. destruct ab; [done|].
    rewrite Hdn in Hl. destruct dirs; [done|simpl in Hl; lia]. }
  destruct (fix_loop_path ab dirs file Hd Hf Hne) as (fuel & Hrun & Hlen). rewrite Hrun.
  assert (Hlast : fix_loop (S fuel) (S (length (full_path ab dirs file))) (buffer ab (foldl push_elem [] dirs)) file =
    Ret (rev file ++ buffer ab (foldl push_elem [] dirs))).
  { destruct file as [|a file]; [done|]. rewrite <- (app_nil_r (a :: file)) at 2.
    rewrite fix_loop_elem by (done || lia). rewrite !bool_decide_false by done. by destruct fuel. }
  rewrite Hlast. cbn [res_bind]. unfold push.
  rewrite (proj2 (Nat.ltb_lt _ _)) by (rewrite length_app, length_rev; lia). cbn [res_bind]. f_equal.
  rewrite rev_app_distr, rev_involutive. unfold buffer. rewrite rev_involutive.
  unfold full_path, normalise. by rewrite <- app_assoc.
Qed.

(** C34: [fixPath] normalises paths.  A path of directories and a file name,
    absolute or not and without empty elements, becomes the path of the stack of
    its directories: [.] is dropped, [..] removes the directory before it; the
    result fits the buffer, and no byte outside the path is read.  An absolute
    path glued behind another absolute path by a double slash replaces it. *)
Theorem fixPath_normalises ab dirs file prefix :
  Forall (λ c, elem_ok c = true) dirs → file_ok file = true → Forall (λ c, elem_ok c = true) prefix →
  fix_chars (full_path ab dirs file) = Ret (full_path ab (normalise dirs) file) ∧
  fix_chars (full_path true prefix (full_path true dirs file)) = Ret (full_path true (normalise dirs) file).
Proof.
  intros Hd Hf Hp. pose proof Hf as [Hns _]%file_ok_spec. split.
  - apply fix_chars_path; [done|done|]. by apply path_start_full.
  - apply fix_chars_path; [done|done|]. unfold full_path at 1. cbn [root_chars app path_start].
    by rewrite after_double_slash_dirs by done.
Qed.

Lemma fixPath_normalises_witness :
  fix_chars (full_path true (list_ascii_of_string <$> ["usr"; "src"; "."; "lib"; ".."]) (list_ascii_of_string "main.c")) =
  Ret (full_path true (normalise (list_ascii_of_string <$> ["usr"; "src"; "."; "lib"; ".."])) (list_ascii_of_string "main.c")).
Proof.
  apply (fixPath_normalises true (list_ascii_of_string <$> ["usr"; "src"; "."; "lib"; ".."])
    (list_ascii_of_string "main.c") []); repeat constructor.
Defined.

(** A path whose last element is [.], or [..] behind a directory, is read
    past its end: the loop skips the slash after the element, where the path has
    its terminating NUL. *)
Theorem fixPath_reads_past_end ab dirs file :
  Forall (λ c, elem_ok c = true) dirs → file = dot ∨ (file = dotdot ∧ normalise dirs ≠ []) →
  fix_chars (full_path ab dirs file) = Stop FBounds.
Proof.
  intros Hd Hfile. assert (Hf : no_slash file ∧ file ≠ []) by (by destruct Hfile as [-> | [-> _]]).
  destruct Hf as [Hf Hne]. unfold fix_chars. rewrite path_start_full by done.
  destruct (fix_loop_path ab dirs file Hd Hf) as (fuel & Hrun & Hlen).
  { unfold full_path. intros [_ [_ ?]%app_eq_nil]%app_eq_nil. done. }
  assert (Hlast : fix_loop (S fuel) (S (length (full_path ab dirs file))) (buffer ab (foldl push_elem [] dirs)) (file ++ []) =
    Stop FBounds); [|rewrite app_nil_r in Hlast; by rewrite Hrun, Hlast].
  rewrite fix_loop_elem by (done || lia).
  destruct Hfile as [-> | [-> Hn]]; [done|]. rewrite buffer_long by (by apply foldl_push_elem_ok).
  rewrite (bool_decide_false (foldl _ _ _ = [])); [done|].
  intros H. apply Hn. unfold normalise. by rewrite H.
Qed.

Lemma fixPath_reads_past_end_witness :
  fix_chars (full_path false [list_ascii_of_string "src"] dotdot) = Stop FBounds.
Proof. apply (fixPath_reads_past_end false [list_ascii_of_string "src"] dotdot); [repeat constructor | by right]. Defined.
