(* ===== verification/Module.v ===== *)
(** * Modules: [hypermemloganalyze/common/module.c]

    A module is a program as its map file describes it: functions with their
    blocks, and for every block its instructions, source lines and faults.  It is
    loaded in three passes over the map file: count the functions, store them and
    count their blocks, fill the blocks.

    An array pointer is [None] while it is [NULL] ([CALLOC] of nothing is [NULL]);
    a pointer into an array is the indices that lead to it. *)

From Stdlib Require Import ZArith Lia Ascii String.
From stdpp Require Import base list numbers strings.
From S2P Require Import Prelude Decimal Helper MapFile FixPath.

(** ** Data *)

Record linepath := {
  lp_path : option string; lp_pathFixed : option string; lp_line : Z; lp_hash : Z;
}.

Record module_bb := {
  faultcand_count : Z; faultinj_count : Z; instr_count : Z;
  lines : list linepath;
  fault_path : option string; fault_line : Z; fault_type : option string;
}.

(** [global_func] points to an entry of the function table: list and position. *)
Record module_func := {
  f_name : option string; f_path : option string; f_pathFixed : option string;
  bb_index_first : Z; bb_count : Z;
  bbs : option (list module_bb);
  global_func : option (nat * nat);
}.

Record module := {
  m_name : option string;
  func_count : Z;
  funcs : option (list module_func);
}.

Definition new_bb : module_bb :=
  {| faultcand_count := 0; faultinj_count := 0; instr_count := 0; lines := [];
     fault_path := None; fault_line := 0; fault_type := None |}.
Definition new_func : module_func :=
  {| f_name := None; f_path := None; f_pathFixed := None; bb_index_first := 0; bb_count := 0;
     bbs := None; global_func := None |}.
Definition new_module : module := {| m_name := None; func_count := 0; funcs := None |}.

(** [CALLOC (n, type)] *)
Definition calloc {A} (n : Z) (zero : A) : option (list A) :=
  if n =? 0 then None else Some (replicate (Z.to_nat n) zero).

Record module_load_from_map_state := {
  st_module : module;
  func : option nat;
  func_index : nat;
  bb : option (nat * nat);
  bb_line_p : option (nat * nat);   (** the end of the lines of this block *)
  abs_bb_index : Z;
  func_bb_index : nat;
  ins_path : option string;
  ins_line : Z;
}.
Abbreviation state := module_load_from_map_state.

(** ** Updates *)

Definition get_func (m : module) (i : nat) : res module_func :=
  match funcs m with
  | None => Stop FNull
  | Some fs => match fs !! i with Some f => Ret f | None => Stop FBounds end
  end.
Definition put_func (m : module) (i : nat) (f : module_func) : module :=
  {| m_name := m_name m; func_count := func_count m; funcs := (λ fs, <[i := f]> fs) <$> funcs m |}.

Definition get_bb (m : module) (p : nat * nat) : res module_bb :=
  let! f := get_func m p.1 in
  match bbs f with
  | None => Stop FNull
  | Some bs => match bs !! p.2 with Some b => Ret b | None => Stop FBounds end
  end.
Definition func_put_bb (f : module_func) (j : nat) (b : module_bb) : module_func :=
  {| f_name := f_name f; f_path := f_path f; f_pathFixed := f_pathFixed f;
     bb_index_first := bb_index_first f; bb_count := bb_count f;
     bbs := (λ bs, <[j := b]> bs) <$> bbs f; global_func := global_func f |}.
Definition set_bb (m : module) (p : nat * nat) (b : module_bb) : res module :=
  let! f := get_func m p.1 in Ret (put_func m p.1 (func_put_bb f p.2 b)).

Definition set_module (st : state) (m : module) : state :=
  {| st_module := m; func := func st; func_index := func_index st; bb := bb st; bb_line_p := bb_line_p st;
     abs_bb_index := abs_bb_index st; func_bb_index := func_bb_index st;
     ins_path := ins_path st; ins_line := ins_line st |}.

(** Change the block [state->bb], if there is one. *)
Definition on_bb (st : state) (k : module_bb → res module_bb) : res state :=
  match bb st with
  | None => Ret st
  | Some p =>
      let! b := get_bb (st_module st) p in
      let! b := k b in
      let! m := set_bb (st_module st) p b in
      Ret (set_module st m)
  end.

(** ** The callbacks *)

Definition process_basic_block (st : state) : res state :=
  let st0 := {| st_module := st_module st; func := func st; func_index := func_index st; bb := None;
                bb_line_p := None; abs_bb_index := abs_bb_index st; func_bb_index := func_bb_index st;
                ins_path := ins_path st; ins_line := ins_line st |} in
  match func st with
  | None => Ret st0
  | Some i =>
      let! f := get_func (st_module st) i in
      match bbs f with
      | None =>
          let! n := chk32 (bb_count f + 1) in
          Ret (set_module st0 (put_func (st_module st) i
            {| f_name := f_name f; f_path := f_path f; f_pathFixed := f_pathFixed f;
               bb_index_first := bb_index_first f; bb_count := n; bbs := bbs f; global_func := global_func f |}))
      | Some bs =>
          let! b := get_bb (st_module st) (i, func_bb_index st) in
          let! n := chk32 (abs_bb_index st + 1) in
          match lines b with
          | [] => Ret {| st_module := st_module st; func := func st; func_index := func_index st;
                         bb := Some (i, func_bb_index st); bb_line_p := Some (i, func_bb_index st);
                         abs_bb_index := n; func_bb_index := S (func_bb_index st);
                         ins_path := ins_path st; ins_line := ins_line st |}
          | _ :: _ => Stop FAssert
          end
      end
  end.

Definition set_ins (st : state) (path : option string) (line : Z) : state :=
  {| st_module := st_module st; func := func st; func_index := func_index st; bb := bb st;
     bb_line_p := bb_line_p st; abs_bb_index := abs_bb_index st; func_bb_index := func_bb_index st;
     ins_path := path; ins_line := line |}.

Definition count_instr (b : module_bb) : res module_bb :=
  let! n := chk32 (instr_count b + 1) in
  Ret {| faultcand_count := faultcand_count b; faultinj_count := faultinj_count b; instr_count := n;
         lines := lines b; fault_path := fault_path b; fault_line := fault_line b; fault_type := fault_type b |}.

(** [bb_line->data] *)
Definition line_of (path : string) (line : Z) : res linepath :=
  let! fixed := fixPath path in
  Ret {| lp_path := Some path; lp_pathFixed := Some fixed; lp_line := s32 line;
         lp_hash := u64 (hashstr path + line) |}.

Definition add_line (b : module_bb) (l : linepath) : module_bb :=
  {| faultcand_count := faultcand_count b; faultinj_count := faultinj_count b; instr_count := instr_count b;
     lines := lines b ++ [l]; fault_path := fault_path b; fault_line := fault_line b; fault_type := fault_type b |}.

Definition process_dinstruction (path : string) (line : Z) (st : state) : res state :=
  let st := set_ins st (Some path) (s32 line) in
  let! st := on_bb st count_instr in
  match bb_line_p st with
  | None => Ret st
  | Some p =>
      let! l := line_of path line in
      let! b := get_bb (st_module st) p in
      let! m := set_bb (st_module st) p (add_line b l) in
      Ret (set_module st m)
  end.

Definition process_fault_candidate (st : state) : res state :=
  on_bb st (λ b,
    let! n := chk32 (faultcand_count b + 1) in
    Ret {| faultcand_count := n; faultinj_count := faultinj_count b; instr_count := instr_count b;
           lines := lines b; fault_path := fault_path b; fault_line := fault_line b; fault_type := fault_type b |}).

Definition process_fault_injected (name : string) (st : state) : res state :=
  on_bb st (λ b,
    let! n := chk32 (faultinj_count b + 1) in
    Ret {| faultcand_count := faultcand_count b; faultinj_count := n; instr_count := instr_count b;
           lines := lines b; fault_path := ins_path st; fault_line := ins_line st; fault_type := Some name |}).

Definition process_function (name relPath : string) (st : state) : res state :=
  match funcs (st_module st) with
  | None =>
      let! n := chk32 (func_count (st_module st) + 1) in
      Ret (set_module st {| m_name := m_name (st_module st); func_count := n; funcs := None |})
  | Some _ =>
      let! f := get_func (st_module st) (func_index st) in
      let path := match f_path f with Some p => p | None => relPath end in
      let! fixed := match f_pathFixed f with Some q => Ret q | None => fixPath path end in
      let f := {| f_name := Some (match f_name f with Some n => n | None => name end);
                  f_path := Some path; f_pathFixed := Some fixed;
                  bb_index_first := abs_bb_index st; bb_count := bb_count f; bbs := bbs f;
                  global_func := global_func f |} in
      Ret {| st_module := put_func (st_module st) (func_index st) f; func := Some (func_index st);
             func_index := S (func_index st); bb := None; bb_line_p := bb_line_p st;
             abs_bb_index := abs_bb_index st; func_bb_index := 0;
             ins_path := ins_path st; ins_line := ins_line st |}
  end.

Definition process_instruction (st : state) : res state := on_bb (set_ins st None 0) count_instr.

Definition process_module_name (name : string) (st : state) : res state :=
  match m_name (st_module st) with
  | Some _ => Ret st
  | None => Ret (set_module st {| m_name := Some name; func_count := func_count (st_module st);
                                  funcs := funcs (st_module st) |})
  end.

Definition callback (st : state) (e : map_event) : res state :=
  match e with
  | ev_module_name n => process_module_name n st
  | ev_function n p => process_function n p st
  | ev_basic_block => process_basic_block st
  | ev_instruction => process_instruction st
  | ev_dinstruction p l => process_dinstruction p l st
  | ev_fault_candidate _ => process_fault_candidate st
  | ev_fault_injected n => process_fault_injected n st
  end.

(** ** Loading *)

Definition start_pass (m : module) : state :=
  {| st_module := m; func := None; func_index := 0; bb := None; bb_line_p := None; abs_bb_index := 0;
     func_bb_index := 0; ins_path := None; ins_line := 0 |}.

(** One [mapparse_file] with a fresh state; a malformed file stops the tool, so
    what the callbacks did before that is lost. *)
Definition run_pass (file : string) (m : module) : res module :=
  let! es := mapparse_file mapparse_compat_latest file in
  let! st := res_foldl callback (start_pass m) es in
  Ret (st_module st).

Definition alloc_funcs (m : module) : module :=
  {| m_name := m_name m; func_count := func_count m; funcs := calloc (func_count m) new_func |}.

Definition alloc_bb (f : module_func) : module_func :=
  {| f_name := f_name f; f_path := f_path f; f_pathFixed := f_pathFixed f;
     bb_index_first := bb_index_first f; bb_count := bb_count f;
     bbs := calloc (bb_count f) new_bb; global_func := global_func f |}.
Definition alloc_bbs (m : module) : module :=
  {| m_name := m_name m; func_count := func_count m; funcs := fmap (M := list) alloc_bb <$> funcs m |}.

Definition module_load_from_map (file : string) : res module :=
  let! m := run_pass file new_module in
  let! m := run_pass file (alloc_funcs m) in
  run_pass file (alloc_bbs m).

(** ** What a map file describes

    A program as the pass sees it: functions with blocks, blocks as the
    instructions and faults in them. *)

Record fn := { fn_name : string; fn_path : string; fn_blocks : list (list map_event) }.

Definition block_events (b : list map_event) : list map_event := ev_basic_block :: b.
Definition fn_events (f : fn) : list map_event :=
  ev_function (fn_name f) (fn_path f) :: concat (block_events <$> fn_blocks f).
Definition program_events (p : list fn) : list map_event := concat (fn_events <$> p).

Definition is_instr (e : map_event) : bool :=
  match e with ev_instruction | ev_dinstruction _ _ => true | _ => false end.
Definition is_fault_candidate (e : map_event) : bool :=
  match e with ev_fault_candidate _ => true | _ => false end.
Definition is_fault_injected (e : map_event) : bool :=
  match e with ev_fault_injected _ => true | _ => false end.

Definition countZ (p : map_event → bool) (b : list map_event) : Z := Z.of_nat (length (List.filter p b)).

Definition fixed (p : string) : string := ret_or "" (fixPath p).

Definition line_image (e : map_event) : option linepath :=
  match e with
  | ev_dinstruction p l => Some {| lp_path := Some p; lp_pathFixed := Some (fixed p); lp_line := l;
                                   lp_hash := u64 (hashstr p + l) |}
  | _ => None
  end.

(** The position of the last instruction, and the last fault with its position. *)
Definition position := (option string * Z)%type.
Definition next_position (pos : position) (e : map_event) : position :=
  match e with
  | ev_instruction => (None, 0)
  | ev_dinstruction p l => (Some p, l)
  | _ => pos
  end.
Definition position_after (pos : position) (b : list map_event) : position := fold_left next_position b pos.

Fixpoint last_fault (pos : position) (acc : position * option string) (b : list map_event) : position * option string :=
  match b with
  | [] => acc
  | e :: b' =>
      last_fault (next_position pos e)
        (match e with ev_fault_injected n => (pos, Some n) | _ => acc end) b'
  end.

Definition no_fault : position * option string := ((None, 0), None).

Definition bb_image (pos : position) (b : list map_event) : module_bb :=
  let fault := last_fault pos no_fault b in
  {| faultcand_count := countZ is_fault_candidate b; faultinj_count := countZ is_fault_injected b;
     instr_count := countZ is_instr b; lines := omap line_image b;
     fault_path := fault.1.1; fault_line := fault.1.2; fault_type := fault.2 |}.

Fixpoint bbs_image (pos : position) (bs : list (list map_event)) : list module_bb :=
  match bs with
  | [] => []
  | b :: bs' => bb_image pos b :: bbs_image (position_after pos b) bs'
  end.

Definition func_image (first : Z) (f : fn) (bl : option (list module_bb)) : module_func :=
  {| f_name := Some (fn_name f); f_path := Some (fn_path f); f_pathFixed := Some (fixed (fn_path f));
     bb_index_first := first; bb_count := Z.of_nat (length (fn_blocks f)); bbs := bl; global_func := None |}.

Definition or_null {A} (l : list A) : option (list A) := match l with [] => None | _ => Some l end.

Fixpoint funcs_image (pos : position) (first : Z) (p : list fn) : list module_func :=
  match p with
  | [] => []
  | f :: p' => func_image first f (or_null (bbs_image pos (fn_blocks f))) ::
               funcs_image (position_after pos (concat (fn_blocks f))) (first + Z.of_nat (length (fn_blocks f))) p'
  end.

Definition module_image (name : string) (p : list fn) : module :=
  {| m_name := Some name; func_count := Z.of_nat (length p); funcs := or_null (funcs_image (None, 0) 0 p) |}.

(** Items of a block; paths must be such that [fixPath] returns. *)
Definition item_ok (e : map_event) : bool :=
  match e with
  | ev_instruction | ev_fault_candidate _ | ev_fault_injected _ => event_ok e
  | ev_dinstruction p _ => event_ok e && is_ret (fixPath p)
  | _ => false
  end.
Definition fn_ok (f : fn) : bool :=
  plain (fn_name f) && plain (fn_path f) && is_ret (fixPath (fn_path f)) && forallb (forallb item_ok) (fn_blocks f).

(** ** Items of a block *)

(** The state of a pass, with the functions' array. *)
Definition pass (nm : option string) (n : Z) (fs : option (list module_func)) (fi : option nat) (fx : nat)
    (b lp : option (nat * nat)) (a : Z) (k : nat) (pos : position) : state :=
  {| st_module := {| m_name := nm; func_count := n; funcs := fs |}; func := fi; func_index := fx; bb := b;
     bb_line_p := lp; abs_bb_index := a; func_bb_index := k; ins_path := pos.1; ins_line := pos.2 |}.

Lemma last_fault_snoc pos acc b e :
  last_fault pos acc (b ++ [e]) =
    match e with ev_fault_injected n => (position_after pos b, Some n) | _ => last_fault pos acc b end.
Proof. revert pos acc. induction b as [|x b IH]; intros pos acc; simpl; [by destruct e|]. apply IH. Qed.

Lemma countZ_snoc p b e : countZ p (b ++ [e]) = countZ p b + if p e then 1 else 0.
Proof.
  unfold countZ. rewrite List.filter_app, length_app. simpl. destruct (p e); simpl; lia.
Qed.

Lemma countZ_bound p b : 0 ≤ countZ p b ≤ Z.of_nat (length b).
Proof. unfold countZ. pose proof (List.filter_length_le p b). lia. Qed.

Lemma position_after_snoc pos b e : position_after pos (b ++ [e]) = next_position (position_after pos b) e.
Proof. unfold position_after. by rewrite fold_left_app. Qed.

Definition with_bbs (f : module_func) (bl : list module_bb) : module_func :=
  {| f_name := f_name f; f_path := f_path f; f_pathFixed := f_pathFixed f; bb_index_first := bb_index_first f;
     bb_count := bb_count f; bbs := Some bl; global_func := global_func f |}.

Lemma get_bb_focus nm n L f B1 b B2 R :
  get_bb {| m_name := nm; func_count := n; funcs := Some (L ++ with_bbs f (B1 ++ b :: B2) :: R) |} (length L, length B1) = Ret b.
Proof. unfold get_bb, get_func. simpl. rewrite list_lookup_middle by done. simpl. by rewrite list_lookup_middle. Qed.

Lemma set_bb_focus nm n L f B1 b B2 R b' :
  set_bb {| m_name := nm; func_count := n; funcs := Some (L ++ with_bbs f (B1 ++ b :: B2) :: R) |} (length L, length B1) b' =
  Ret {| m_name := nm; func_count := n; funcs := Some (L ++ with_bbs f (B1 ++ b' :: B2) :: R) |}.
Proof.
  unfold set_bb, get_func. simpl. rewrite list_lookup_middle by done. simpl. unfold put_func, func_put_bb. simpl.
  rewrite !insert_app_r_alt, !Nat.sub_diag by lia. done.
Qed.

(** The block in focus: an item changes it, and nothing else. *)
Definition in_block nm n L f B1 b B2 R a pos : state :=
  pass nm n (Some (L ++ with_bbs f (B1 ++ b :: B2) :: R)) (Some (length L)) (S (length L))
    (Some (length L, length B1)) (Some (length L, length B1)) a (S (length B1)) pos.

Lemma on_bb_focus nm n L f B1 b B2 R a pos k b' :
  k b = Ret b' → on_bb (in_block nm n L f B1 b B2 R a pos) k = Ret (in_block nm n L f B1 b' B2 R a pos).
Proof.
  intros Hk. unfold on_bb, in_block, pass. cbn [bb st_module]. rewrite get_bb_focus. cbn [res_bind].
  rewrite Hk. cbn [res_bind]. by rewrite set_bb_focus.
Qed.

Lemma set_ins_in_block nm n L f B1 b B2 R a pos p l :
  set_ins (in_block nm n L f B1 b B2 R a pos) p l = in_block nm n L f B1 b B2 R a (p, l).
Proof. done. Qed.

Lemma line_of_ok p l :
  item_ok (ev_dinstruction p l) = true →
  s32 l = l ∧ line_of p l = Ret {| lp_path := Some p; lp_pathFixed := Some (fixed p); lp_line := l;
                                   lp_hash := u64 (hashstr p + l) |}.
Proof.
  cbn [item_ok event_ok]. rewrite !andb_true_iff, Z.leb_le, Z.ltb_lt. intros [[[_ Hl] Hl'] Hf].
  assert (Hs : s32 l = l) by (apply s32_small; lia). split; [done|].
  unfold line_of, fixed. rewrite Hs. rewrite (is_ret_or "" _ Hf) at 1. done.
Qed.

Lemma count_instr_ok b k :
  instr_count b = k → -1 ≤ k < 2^31 - 1 →
  count_instr b = Ret {| faultcand_count := faultcand_count b; faultinj_count := faultinj_count b;
    instr_count := k + 1; lines := lines b; fault_path := fault_path b; fault_line := fault_line b;
    fault_type := fault_type b |}.
Proof. intros <- Hk. unfold count_instr. by rewrite chk32_ok by lia. Qed.

Lemma item_step nm n L f B1 B2 R a pos b e :
  item_ok e = true → Z.of_nat (length b) < 2^31 - 1 →
  callback (in_block nm n L f B1 (bb_image pos b) B2 R a (position_after pos b)) e =
    Ret (in_block nm n L f B1 (bb_image pos (b ++ [e])) B2 R a (position_after pos (b ++ [e]))).
Proof.
  intros Hok Hlen. rewrite position_after_snoc.
  pose proof (countZ_bound is_instr b). pose proof (countZ_bound is_fault_candidate b).
  pose proof (countZ_bound is_fault_injected b).
  assert (Hbb : bb_image pos (b ++ [e]) =
    {| faultcand_count := countZ is_fault_candidate b + (if is_fault_candidate e then 1 else 0);
       faultinj_count := countZ is_fault_injected b + (if is_fault_injected e then 1 else 0);
       instr_count := countZ is_instr b + (if is_instr e then 1 else 0);
       lines := omap line_image b ++ omap line_image [e];
       fault_path := (last_fault pos no_fault (b ++ [e])).1.1;
       fault_line := (last_fault pos no_fault (b ++ [e])).1.2;
       fault_type := (last_fault pos no_fault (b ++ [e])).2 |}).
  { unfold bb_image. by rewrite !countZ_snoc, omap_app. }
  rewrite Hbb, last_fault_snoc. destruct e; try done; cbn [callback is_instr is_fault_candidate is_fault_injected omap list_omap line_image].
  - unfold process_instruction. rewrite set_ins_in_block.
    rewrite ?app_nil_r, ?Z.add_0_r. apply on_bb_focus. unfold count_instr. cbn [instr_count bb_image].
    rewrite chk32_ok by lia. done.
  - destruct (line_of_ok _ _ Hok) as [Hs Hl]. unfold process_dinstruction. rewrite Hs, set_ins_in_block.
    rewrite (on_bb_focus _ _ _ _ _ _ _ _ _ _ _ _ (count_instr_ok (bb_image pos b) (countZ is_instr b) eq_refl ltac:(lia))).
    cbn [res_bind bb_line_p in_block pass]. rewrite Hl. cbn [res_bind st_module in_block pass]. rewrite get_bb_focus.
    cbn [res_bind]. rewrite set_bb_focus. cbn [res_bind]. by rewrite ?Z.add_0_r.
  - unfold process_fault_candidate. apply on_bb_focus. cbn [faultcand_count bb_image]. rewrite chk32_ok by lia.
    cbn [res_bind]. by rewrite ?app_nil_r, ?Z.add_0_r.
  - unfold process_fault_injected. apply on_bb_focus. cbn [faultinj_count bb_image]. rewrite chk32_ok by lia.
    cbn [res_bind]. by rewrite ?app_nil_r, ?Z.add_0_r.
Qed.

Lemma items_step nm n L f B1 B2 R a pos b b' :
  forallb item_ok b' = true → Z.of_nat (length b + length b') < 2^31 →
  res_foldl callback (in_block nm n L f B1 (bb_image pos b) B2 R a (position_after pos b)) b' =
    Ret (in_block nm n L f B1 (bb_image pos (b ++ b')) B2 R a (position_after pos (b ++ b'))).
Proof.
  revert b. induction b' as [|e b' IH]; intros b Hok Hlen; simpl; [by rewrite app_nil_r|].
  simpl in Hok, Hlen. apply andb_true_iff in Hok as [He Hok].
  rewrite item_step by (done || lia). cbn [res_bind].
  rewrite IH by (rewrite ?length_app; simpl; done || lia). by rewrite <- app_assoc.
Qed.

(** ** The third pass *)

(** A function with room for its blocks, the first [B] filled. *)
Definition in_func nm n L f B k R b lp a pos : state :=
  pass nm n (Some (L ++ with_bbs f (B ++ replicate k new_bb) :: R)) (Some (length L)) (S (length L)) b lp a (length B) pos.

Lemma block_step nm n L f B k R bp lp a pos b :
  forallb item_ok b = true → Z.of_nat (length b) < 2^31 → 0 ≤ a < 2^31 - 1 →
  ∃ bp' lp', res_foldl callback (in_func nm n L f B (S k) R bp lp a pos) (block_events b) =
    Ret (in_func nm n L f (B ++ [bb_image pos b]) k R bp' lp' (a + 1) (position_after pos b)).
Proof.
  intros Hok Hlen Ha. unfold block_events. cbn [res_foldl callback].
  unfold process_basic_block, in_func, pass. cbn [func st_module abs_bb_index func_bb_index].
  unfold get_func. cbn [funcs]. rewrite list_lookup_middle by done. cbn [res_bind bbs with_bbs].
  cbn [replicate]. rewrite get_bb_focus. cbn [res_bind]. rewrite chk32_ok by lia. cbn [res_bind lines new_bb].
  do 2 eexists.
  pose proof (items_step nm n L f B (replicate k new_bb) R (a + 1) pos [] b Hok ltac:(simpl; lia)) as H.
  unfold in_block, pass in H. cbn [position_after fold_left app fst snd] in H. etrans; [exact H|].
  rewrite <- app_assoc, length_app, Nat.add_1_r. done.
Qed.

Lemma blocks_step bs nm n L f B R bp lp a pos :
  forallb (forallb item_ok) bs = true → Z.of_nat (length (concat (block_events <$> bs))) < 2^31 →
  0 ≤ a → a + Z.of_nat (length bs) < 2^31 →
  ∃ bp' lp', res_foldl callback (in_func nm n L f B (length bs) R bp lp a pos) (concat (block_events <$> bs)) =
    Ret (in_func nm n L f (B ++ bbs_image pos bs) 0 R bp' lp' (a + Z.of_nat (length bs)) (position_after pos (concat bs))).
Proof.
  revert B bp lp a pos. induction bs as [|b bs IH]; intros B bp lp a pos Hok Hlen Ha Hmax.
  { simpl. rewrite app_nil_r, Z.add_0_r. eauto. }
  simpl in Hok, Hmax. apply andb_true_iff in Hok as [Hb Hok].
  rewrite fmap_cons in Hlen. cbn [concat] in Hlen. rewrite length_app in Hlen. cbn [length block_events] in Hlen.
  destruct (block_step nm n L f B (length bs) R bp lp a pos b) as (bp1 & lp1 & H1); [done|lia|lia|].
  destruct (IH (B ++ [bb_image pos b]) bp1 lp1 (a + 1) (position_after pos b)) as (bp2 & lp2 & H2); [done|lia|lia|lia|].
  exists bp2, lp2. rewrite fmap_cons. cbn [concat length bbs_image]. rewrite (res_foldl_app callback _ (block_events b)), H1. cbn [res_bind].
  rewrite H2. unfold position_after. rewrite fold_left_app, <- app_assoc. cbn [app].
  by replace (a + Z.of_nat (S (length bs))) with (a + 1 + Z.of_nat (length bs)) by lia.
Qed.

(** What the second pass leaves for a function, and the room made for blocks. *)
Definition func_room (f : fn) : module_func := func_image 0 f (calloc (Z.of_nat (length (fn_blocks f))) new_bb).

Lemma calloc_length {A B} (l : list B) (x : A) : calloc (Z.of_nat (length l)) x = or_null (replicate (length l) x).
Proof. unfold calloc. rewrite Nat2Z.id. by destruct l. Qed.

Lemma length_bbs_image pos bs : length (bbs_image pos bs) = length bs.
Proof. revert pos. induction bs; intros; simpl; auto. Qed.

Lemma or_null_cons {A} (l : list A) x r : or_null (l ++ x :: r) = Some (l ++ x :: r).
Proof. by destruct l. Qed.

(** Between two functions: the functions [L] are complete. *)
Definition between nm n L R b lp a k pos fi : state := pass nm n (or_null (L ++ R)) fi (length L) b lp a k pos.

Lemma function_step nm n L R bp lp a k pos fi f :
  fn_ok f = true → Z.of_nat (length (fn_events f)) < 2^31 → 0 ≤ a → a + Z.of_nat (length (fn_blocks f)) < 2^31 →
  ∃ bp' lp' k' fi',
    res_foldl callback (between nm n L (func_room f :: R) bp lp a k pos fi) (fn_events f) =
    Ret (between nm n (L ++ [func_image a f (or_null (bbs_image pos (fn_blocks f)))]) R bp' lp'
           (a + Z.of_nat (length (fn_blocks f))) k' (position_after pos (concat (fn_blocks f))) fi').
Proof.
  unfold fn_ok. rewrite !andb_true_iff. intros [[[Hn Hp] Hfix] Hbs] Hlen Ha Hmax.
  unfold fn_events in *. cbn [length] in Hlen. cbn [res_foldl callback].
  unfold process_function, between, pass. rewrite (or_null_cons L).
  cbn [st_module funcs func_index abs_bb_index m_name func_count].
  unfold get_func. cbn [funcs]. rewrite list_lookup_middle by done. cbn [res_bind func_room func_image f_path f_pathFixed].
  unfold put_func. cbn [funcs fmap option_fmap option_map m_name func_count f_name f_path f_pathFixed bb_count bbs global_func].
  rewrite insert_app_r_alt, Nat.sub_diag by lia. cbn [insert list_insert].
  cbn [func_room func_image f_name bb_count bbs global_func bb_line_p ins_path ins_line]. rewrite calloc_length. destruct (fn_blocks f) as [|b bs] eqn:Hb.
  - do 4 eexists. simpl. rewrite Z.add_0_r. rewrite <- app_assoc. cbn [app]. rewrite or_null_cons, length_app, Nat.add_1_r.
    unfold func_image. rewrite Hb. reflexivity.
  - rewrite <- Hb in *.
    destruct (blocks_step (fn_blocks f) nm n L (func_image a f None) [] R None lp a pos Hbs ltac:(lia) Ha ltac:(lia))
      as (bp' & lp' & Hrun).
    unfold in_func, pass in Hrun. cbn [app length] in Hrun.
    assert (Hroom : or_null (replicate (length (fn_blocks f)) new_bb) = Some (replicate (length (fn_blocks f)) new_bb))
      by (by rewrite Hb).
    rewrite Hroom. exists bp', lp'. do 2 eexists. etrans; [exact Hrun|].
    rewrite <- app_assoc. cbn [app]. rewrite or_null_cons, length_app, Nat.add_1_r, app_nil_r.
    assert (Hnn : or_null (bbs_image pos (fn_blocks f)) = Some (bbs_image pos (fn_blocks f))) by (by rewrite Hb).
    rewrite Hnn. reflexivity.
Qed.

Lemma length_concat_blocks bs : (length bs ≤ length (concat (block_events <$> bs)))%nat.
Proof. induction bs as [|b bs IH]; [done|]. rewrite fmap_cons. simpl. rewrite length_app. lia. Qed.

Lemma functions_step p nm n L bp lp a k pos fi :
  forallb fn_ok p = true → Z.of_nat (length (program_events p)) < 2^31 →
  0 ≤ a → a + Z.of_nat (length (program_events p)) < 2^31 →
  ∃ st, res_foldl callback (between nm n L (func_room <$> p) bp lp a k pos fi) (program_events p) = Ret st ∧
    st_module st = {| m_name := nm; func_count := n; funcs := or_null (L ++ funcs_image pos a p) |}.
Proof.
  revert L bp lp a k pos fi. induction p as [|f p IH]; intros L bp lp a k pos fi Hok Hlen Ha Hmax.
  { eexists. split; [reflexivity|]. done. }
  simpl in Hok. apply andb_true_iff in Hok as [Hf Hok].
  change (program_events (f :: p)) with (fn_events f ++ program_events p) in *. rewrite length_app in Hlen, Hmax.
  assert (Hbl : (length (fn_blocks f) ≤ length (fn_events f))%nat).
  { unfold fn_events. simpl. pose proof (length_concat_blocks (fn_blocks f)). lia. }
  destruct (function_step nm n L (func_room <$> p) bp lp a k pos fi f Hf ltac:(lia) Ha ltac:(lia))
    as (bp' & lp' & k' & fi' & Hrun).
  rewrite fmap_cons, res_foldl_app, Hrun. cbn [res_bind].
  edestruct IH as (st & Hst & Hm); [done| | | |exists st; split; [exact Hst|]]; [lia|lia|lia|].
  rewrite Hm. cbn [funcs_image]. by rewrite <- app_assoc.
Qed.

(** ** The first two passes *)

Definition is_function (e : map_event) : bool := match e with ev_function _ _ => true | _ => false end.
Definition no_module_name (e : map_event) : bool := match e with ev_module_name _ => false | _ => true end.

Lemma countZ_cons p e b : countZ p (e :: b) = (if p e then 1 else 0) + countZ p b.
Proof. unfold countZ. simpl. destruct (p e); simpl; lia. Qed.

Lemma first_pass es nm n k pos :
  forallb no_module_name es = true →
  forallb (λ e, match e with ev_dinstruction _ l => s32 l =? l | _ => true end) es = true →
  0 ≤ n → n + Z.of_nat (length es) < 2^31 →
  res_foldl callback (pass nm n None None 0 None None 0 k pos) es =
    Ret (pass nm (n + countZ is_function es) None None 0 None None 0 k (position_after pos es)).
Proof.
  revert n pos. induction es as [|e es IH]; intros n pos Hnm Hl Hn Hmax.
  { unfold countZ. simpl. by rewrite Z.add_0_r. }
  simpl in Hnm, Hl, Hmax. apply andb_true_iff in Hnm as [He Hnm]. apply andb_true_iff in Hl as [Hle Hl].
  rewrite countZ_cons. cbn [res_foldl].
  assert (Hstep : callback (pass nm n None None 0 None None 0 k pos) e =
    Ret (pass nm (n + if is_function e then 1 else 0) None None 0 None None 0 k (next_position pos e))).
  { destruct e; try done; cbn [callback is_function next_position]; rewrite ?Z.add_0_r; try done.
    - unfold process_function. cbn [st_module pass funcs func_count]. rewrite chk32_ok by lia. done.
    - apply Z.eqb_eq in Hle. unfold process_dinstruction. by rewrite Hle. }
  rewrite Hstep. cbn [res_bind]. rewrite IH; [|done|done|case_match; lia|case_match; lia].
  by rewrite Z.add_assoc.
Qed.

(** A function of which [j] blocks were counted. *)
Definition func_seen (f : fn) (j : Z) : module_func :=
  {| f_name := Some (fn_name f); f_path := Some (fn_path f); f_pathFixed := Some (fixed (fn_path f));
     bb_index_first := 0; bb_count := j; bbs := None; global_func := None |}.

Definition counting nm n L f j R k pos : state :=
  pass nm n (Some (L ++ func_seen f j :: R)) (Some (length L)) (S (length L)) None None 0 k pos.

Lemma counting_items b nm n L f j R k pos :
  forallb item_ok b = true →
  res_foldl callback (counting nm n L f j R k pos) b = Ret (counting nm n L f j R k (position_after pos b)).
Proof.
  revert pos. induction b as [|e b IH]; intros pos Hok; [done|].
  simpl in Hok. apply andb_true_iff in Hok as [He Hok]. cbn [res_foldl].
  assert (Hstep : callback (counting nm n L f j R k pos) e = Ret (counting nm n L f j R k (next_position pos e))).
  { destruct e; try done. cbn [callback]. unfold process_dinstruction. by destruct (line_of_ok _ _ He) as [-> _]. }
  rewrite Hstep. cbn [res_bind]. by apply IH.
Qed.

Lemma counting_blocks bs nm n L f j R k pos :
  forallb (forallb item_ok) bs = true → 0 ≤ j → j + Z.of_nat (length bs) < 2^31 →
  res_foldl callback (counting nm n L f j R k pos) (concat (block_events <$> bs)) =
    Ret (counting nm n L f (j + Z.of_nat (length bs)) R k (position_after pos (concat bs))).
Proof.
  revert j pos. induction bs as [|b bs IH]; intros j pos Hok Hj Hmax.
  { simpl. by rewrite Z.add_0_r. }
  simpl in Hok, Hmax. apply andb_true_iff in Hok as [Hb Hok]. rewrite fmap_cons. cbn [concat].
  rewrite res_foldl_app. unfold block_events at 1. cbn [res_foldl].
  assert (Hstep : callback (counting nm n L f j R k pos) ev_basic_block = Ret (counting nm n L f (j + 1) R k pos)).
  { cbn [callback]. unfold process_basic_block, counting, pass. cbn [func st_module]. unfold get_func. cbn [funcs].
    rewrite list_lookup_middle by done. cbn [res_bind func_seen bbs bb_count]. rewrite chk32_ok by lia.
    cbn [res_bind]. unfold put_func. cbn [funcs fmap option_fmap option_map].
    rewrite insert_app_r_alt, Nat.sub_diag by lia. done. }
  rewrite Hstep. cbn [res_bind]. rewrite counting_items by done. cbn [res_bind].
  rewrite IH by (done || lia). unfold position_after. rewrite fold_left_app.
  cbn [length]. by replace (j + Z.of_nat (S (length bs))) with (j + 1 + Z.of_nat (length bs)) by lia.
Qed.

Lemma second_pass p nm n L k pos fi :
  forallb fn_ok p = true → Z.of_nat (length (program_events p)) < 2^31 →
  ∃ st, res_foldl callback (between nm n L (replicate (length p) new_func) None None 0 k pos fi) (program_events p) = Ret st ∧
    st_module st = {| m_name := nm; func_count := n;
                      funcs := or_null (L ++ ((λ f, func_seen f (Z.of_nat (length (fn_blocks f)))) <$> p)) |}.
Proof.
  revert L k pos fi. induction p as [|f p IH]; intros L k pos fi Hok Hlen.
  { eexists. split; [reflexivity|]. done. }
  simpl in Hok. apply andb_true_iff in Hok as [Hf Hok]. unfold fn_ok in Hf.
  rewrite !andb_true_iff in Hf. destruct Hf as [[[Hn Hp] Hfix] Hbs].
  change (program_events (f :: p)) with (fn_events f ++ program_events p) in *. rewrite length_app in Hlen.
  unfold fn_events in *. cbn [length] in Hlen. pose proof (length_concat_blocks (fn_blocks f)).
  rewrite res_foldl_app. cbn [res_foldl length replicate].
  assert (Hstep : callback (between nm n L (new_func :: replicate (length p) new_func) None None 0 k pos fi)
      (ev_function (fn_name f) (fn_path f)) = Ret (counting nm n L f 0 (replicate (length p) new_func) 0 pos)).
  { cbn [callback]. unfold process_function, between, pass. rewrite or_null_cons. cbn [st_module funcs func_index].
    unfold get_func. cbn [funcs]. rewrite list_lookup_middle by done.
    cbn [res_bind new_func f_path f_pathFixed]. rewrite (is_ret_or "" _ Hfix). cbn [res_bind].
    unfold put_func. cbn [funcs fmap option_fmap option_map].
    rewrite insert_app_r_alt, Nat.sub_diag by lia. done. }
  rewrite Hstep. cbn [res_bind]. rewrite counting_blocks by (done || lia). cbn [res_bind].
  destruct (IH (L ++ [func_seen f (Z.of_nat (length (fn_blocks f)))]) 0%nat
    (position_after pos (concat (fn_blocks f))) (Some (length L)) Hok ltac:(lia)) as (st & Hst & Hm).
  exists st. split; [|by rewrite Hm, <- app_assoc].
  rewrite <- Hst. unfold counting, between. rewrite <- app_assoc. cbn [app].
  rewrite or_null_cons, length_app, Nat.add_1_r. done.
Qed.

(** ** Loading a written file *)

Definition map_file (name : string) (p : list fn) : string :=
  w_file (fold_left (λ w e, write_event e w) (program_events p) (MapFile_new name)).

Lemma forallb_concat {A} (q : A → bool) (ls : list (list A)) : forallb q (concat ls) = forallb (forallb q) ls.
Proof. induction ls as [|l ls IH]; simpl; [done|]. by rewrite forallb_app, IH. Qed.

Lemma forallb_impl {A} (q r : A → bool) l : (∀ x, q x = true → r x = true) → forallb q l = true → forallb r l = true.
Proof. intros H. rewrite !forallb_forall. auto. Qed.

Lemma program_events_forall (q : map_event → bool) p :
  (∀ e, item_ok e = true → q e = true) → q ev_basic_block = true →
  (∀ n s, plain n = true → plain s = true → q (ev_function n s) = true) →
  forallb fn_ok p = true → forallb q (program_events p) = true.
Proof.
  intros Hitem Hblock Hfun Hok. unfold program_events. rewrite forallb_concat, forallb_forall.
  intros es (f & <- & Hf)%in_map_iff. rewrite forallb_forall in Hok. apply Hok in Hf. unfold fn_ok in Hf.
  rewrite !andb_true_iff in Hf. destruct Hf as [[[Hn Hp] _] Hbs]. simpl. rewrite Hfun by done. simpl.
  rewrite forallb_concat, forallb_forall. intros b (x & <- & Hx)%in_map_iff. simpl. rewrite Hblock. simpl.
  rewrite forallb_forall in Hbs. eapply forallb_impl; [exact Hitem|]. by apply Hbs.
Qed.

Lemma item_event_ok e : item_ok e = true → event_ok e = true.
Proof. destruct e; simpl; try done. by intros [? _]%andb_true_iff. Qed.

Lemma map_file_events name p :
  plain name = true → forallb fn_ok p = true → Z.of_nat (length (program_events p)) < 2^29 - 2 →
  mapparse_file mapparse_compat_latest (map_file name p) = Ret (ev_module_name name :: program_events p).
Proof.
  intros Hname Hok Hlen. apply written_file; [done| |done].
  apply program_events_forall; [apply item_event_ok|done| |done]. intros n s Hn Hs. simpl. by rewrite Hn, Hs.
Qed.

Lemma countZ_app q b1 b2 : countZ q (b1 ++ b2) = countZ q b1 + countZ q b2.
Proof. unfold countZ. rewrite List.filter_app, length_app. lia. Qed.

Lemma countZ_none q b : forallb (λ e, negb (q e)) b = true → countZ q b = 0.
Proof.
  unfold countZ. induction b as [|e b IH]; simpl; [done|]. intros [He Hb]%andb_true_iff.
  apply negb_true_iff in He. rewrite He. auto.
Qed.

Lemma count_functions p : forallb fn_ok p = true → countZ is_function (program_events p) = Z.of_nat (length p).
Proof.
  induction p as [|f p IH]; [done|]. intros [Hf Hok]%andb_true_iff.
  change (program_events (f :: p)) with (fn_events f ++ program_events p).
  rewrite countZ_app, IH by done. unfold fn_events. rewrite countZ_cons, countZ_none; [simpl; lia|].
  unfold fn_ok in Hf. rewrite !andb_true_iff in Hf. destruct Hf as [_ Hbs].
  rewrite forallb_concat, forallb_forall. intros b (x & <- & Hx)%in_map_iff. simpl.
  rewrite forallb_forall in Hbs. eapply forallb_impl; [|by apply Hbs]. by intros [].
Qed.

Lemma alloc_bbs_seen (p : list fn) :
  alloc_bb <$> ((λ f, func_seen f (Z.of_nat (length (fn_blocks f)))) <$> p) = func_room <$> p.
Proof. rewrite <- list_fmap_compose. by apply list_fmap_ext. Qed.

(** A pass over the file: the module's name, then the program. *)
Lemma run_pass_program name p nm n fs :
  plain name = true → forallb fn_ok p = true → Z.of_nat (length (program_events p)) < 2^29 - 2 →
  run_pass (map_file name p) {| m_name := nm; func_count := n; funcs := fs |} =
    let! st := res_foldl callback
      (pass (Some (match nm with Some s => s | None => name end)) n fs None 0 None None 0 0 (None, 0)) (program_events p) in
    Ret (st_module st).
Proof.
  intros Hname Hok Hlen. unfold run_pass. rewrite map_file_events by done. cbn [res_bind res_foldl callback].
  by destruct nm.
Qed.

(** C14: loading a map file.  From the file the pass writes for a program, the
    three passes of [module_load_from_map] build exactly the module of that
    program: every function with its names, its fixed path, its first block's
    index and its blocks; every block with the numbers of its instructions,
    fault candidates and injected faults, the source lines in order, and type
    and position of its last fault. *)
Theorem load_from_map name p :
  plain name = true → forallb fn_ok p = true → Z.of_nat (length (program_events p)) < 2^29 - 2 →
  module_load_from_map (map_file name p) = Ret (module_image name p).
Proof.
  intros Hname Hok Hlen. unfold module_load_from_map, new_module. rewrite run_pass_program by done.
  rewrite first_pass; [|apply program_events_forall; try done; by intros []| |lia|lia].
  2:{ apply program_events_forall; try done. intros [] He; try done. apply Z.eqb_eq. by apply line_of_ok in He as [? _]. }
  cbn [res_bind st_module pass]. rewrite Z.add_0_l, count_functions by done.
  unfold alloc_funcs. cbn [m_name func_count]. rewrite calloc_length, run_pass_program by done.
  destruct (second_pass p (Some name) (Z.of_nat (length p)) [] 0 (None, 0) None Hok ltac:(lia)) as (st2 & Hst2 & Hm2).
  unfold between in Hst2. cbn [app length] in Hst2. rewrite Hst2. cbn [res_bind]. rewrite Hm2.
  unfold alloc_bbs. cbn [m_name func_count funcs app].
  assert (Hroom : fmap (M := list) alloc_bb <$> or_null ((λ f, func_seen f (Z.of_nat (length (fn_blocks f)))) <$> p) = or_null (func_room <$> p)).
  { rewrite <- alloc_bbs_seen. by destruct p. }
  rewrite Hroom, run_pass_program by done.
  destruct (functions_step p (Some name) (Z.of_nat (length p)) [] None None 0 0 (None, 0) None Hok ltac:(lia) ltac:(lia) ltac:(lia))
    as (st3 & Hst3 & Hm3).
  unfold between in Hst3. cbn [app length] in Hst3. rewrite Hst3. cbn [res_bind]. by rewrite Hm3.
Qed.

Definition demo_program : list fn :=
  [{| fn_name := "main"; fn_path := "src/./main.c";
      fn_blocks := [[ev_dinstruction "src/main.c" 3; ev_fault_injected "swap"; ev_instruction]; [ev_fault_candidate "swap"]] |};
   {| fn_name := "f"; fn_path := "f.c"; fn_blocks := [[]] |}].

Lemma load_from_map_witness :
  module_load_from_map (map_file "pm" demo_program) = Ret (module_image "pm" demo_program).
Proof. apply load_from_map; [reflexivity | vm_compute; reflexivity | vm_compute; reflexivity]. Defined.

(** ** Lists of modules *)

Definition module_ll := list module.

(** [memcmp] of the first [n] bytes against a string of that length. *)
Definition namecmp (name1 name2 : string) (name2len : nat) : Z :=
  if negb (name2len =? String.length name1)%nat then 1 else strcmp name1 (String.substring 0 name2len name2).

Fixpoint module_find_with_namelen (ll : module_ll) (name : string) (namelen : nat) : res (option module) :=
  match ll with
  | [] => Ret None
  | m :: ll' =>
      match m_name m with
      | None => Stop FAssert
      | Some n => if namecmp n name namelen =? 0 then Ret (Some m) else module_find_with_namelen ll' name namelen
      end
  end.
Definition module_find (ll : module_ll) (name : string) : res (option module) :=
  module_find_with_namelen ll name (String.length name).

Fixpoint module_find_duplicate (ll : module_ll) : res (option module) :=
  match ll with
  | [] => Ret None
  | m :: ll' =>
      match m_name m with
      | None => Stop FNull
      | Some n =>
          let! d := module_find ll' n in
          match d with Some _ => Ret (Some m) | None => module_find_duplicate ll' end
      end
  end.

Fixpoint modules_count_loop (count : Z) (ll : module_ll) : res Z :=
  match ll with
  | [] => Ret count
  | m :: ll' => let! count := chk32 (count + func_count m) in modules_count_loop count ll'
  end.
Definition modules_count_functions (ll : module_ll) : res Z := modules_count_loop 0 ll.

Definition module_load_from_map_ll (file : string) (ll : module_ll) : res (module * module_ll) :=
  let! m := module_load_from_map file in Ret (m, m :: ll).

(** The functions of a module, as the loops over [func_count] see them. *)
Definition func_list (m : module) : list module_func := default [] (funcs m).

(** The block with a (one-based) index: its function and position there. *)
Fixpoint get_bb_loop (i : nat) (fs : list module_func) (bb_index : Z) : option (nat * nat) :=
  match fs with
  | [] => None
  | f :: fs' =>
      if bb_index <=? bb_count f then Some (i, Z.to_nat (bb_index - 1))
      else get_bb_loop (S i) fs' (bb_index - bb_count f)
  end.
Definition module_get_bb_by_index (m : module) (bb_index : Z) : res (option (nat * nat)) :=
  assert! (0 <? bb_index) in Ret (get_bb_loop 0 (func_list m) bb_index).

(** ** Finding modules and blocks *)

Lemma substring_all s : String.substring 0 (String.length s) s = s.
Proof. induction s as [|a s IH]; simpl; [done|]. by rewrite IH. Qed.

Lemma namecmp_eq n1 n2 :
  plain n1 = true → plain n2 = true → (namecmp n1 n2 (String.length n2) =? 0) = bool_decide (n1 = n2).
Proof.
  intros H1 H2. unfold namecmp. rewrite substring_all.
  destruct (Nat.eqb_spec (String.length n2) (String.length n1)); simpl; [by apply strcmp_eqb|].
  symmetry. apply bool_decide_eq_false. by intros ->.
Qed.

(** Modules that were loaded have names. *)
Definition named (m : module) : bool := match m_name m with Some n => plain n | None => false end.

Lemma module_find_spec ll name :
  forallb named ll = true → plain name = true →
  module_find ll name = Ret (list_find (λ m, m_name m = Some name) ll ≫= λ r, Some r.2).
Proof.
  intros Hll Hn. unfold module_find. induction ll as [|m ll IH]; simpl; [done|].
  simpl in Hll. apply andb_true_iff in Hll as [Hm Hll]. unfold named in Hm. destruct (m_name m) as [n|] eqn:Hmn; [|done].
  rewrite namecmp_eq by done. destruct (decide (Some n = Some name)) as [Heq|Hne].
  - injection Heq as ->. by rewrite bool_decide_true.
  - rewrite bool_decide_false by congruence. rewrite IH by done. by destruct (list_find _ ll) as [[??]|].
Qed.

(** A block index counts the blocks of all functions before it. *)
Lemma get_bb_loop_spec fs i j pre f bb_index :
  Forall (λ f, 0 ≤ bb_count f) fs → fs !! i = Some f → (Z.of_nat j < bb_count f) →
  bb_index = foldr (λ g n, bb_count g + n) 0 (take i fs) + Z.of_nat j + 1 →
  get_bb_loop pre fs bb_index = Some ((pre + i)%nat, j).
Proof.
  revert i pre bb_index. induction fs as [|g fs IH]; intros i pre bb_index Hfs Hi Hj ->; [done|].
  apply Forall_cons in Hfs as [Hg Hfs]. destruct i as [|i]; simpl.
  - injection Hi as ->. destruct (Z.leb_spec (0 + Z.of_nat j + 1) (bb_count f)); [|lia].
    do 2 f_equal; lia.
  - simpl in Hi. assert (Hpos : 0 ≤ foldr (λ g n, bb_count g + n) 0 (take i fs)).
    { assert (Ht : Forall (λ f, 0 ≤ bb_count f) (take i fs)) by by apply Forall_take. revert Ht. generalize (take i fs) as l.
      induction 1; simpl; lia. }
    destruct (Z.leb_spec (bb_count g + foldr (λ g n, bb_count g + n) 0 (take i fs) + Z.of_nat j + 1) (bb_count g)); [lia|].
    rewrite (IH i (S pre)) by (done || lia). do 2 f_equal. lia.
Qed.

Lemma funcs_image_first p pos first i f :
  funcs_image pos first p !! i = Some f →
  bb_index_first f = first + foldr (λ g n, bb_count g + n) 0 (take i (funcs_image pos first p)) ∧
  bb_count f = Z.of_nat (length (default [] (bbs f))).
Proof.
  revert pos first i. induction p as [|g p IH]; intros pos first i Hi; [done|].
  destruct i as [|i]; simpl in *.
  - injection Hi as <-. simpl. split; [lia|].
    pose proof (length_bbs_image pos (fn_blocks g)) as Hl. by destruct (bbs_image pos (fn_blocks g)); simpl in *; lia.
  - apply IH in Hi as [-> ->]. simpl. lia.
Qed.

Lemma funcs_image_counts p pos first : Forall (λ f, 0 ≤ bb_count f) (funcs_image pos first p).
Proof. revert pos first. induction p; intros; simpl; constructor; [simpl; lia|auto]. Qed.

(** Block numbers.  In a loaded module the [j]-th block of a function has the
    (one-based) number of the function's first block plus [j]:
    [module_get_bb_by_index] finds exactly it, inside the function's array. *)
Theorem block_by_index name p i j f :
  func_list (module_image name p) !! i = Some f → Z.of_nat j < bb_count f →
  module_get_bb_by_index (module_image name p) (bb_index_first f + Z.of_nat j + 1) = Ret (Some (i, j)) ∧
  is_ret (get_bb (module_image name p) (i, j)) = true.
Proof.
  intros Hi Hj. assert (Hl : func_list (module_image name p) = funcs_image (None, 0) 0 p).
  { unfold func_list. simpl. by destruct (funcs_image _ _ _). }
  pose proof Hi as Hi'. rewrite Hl in Hi. destruct (funcs_image_first _ _ _ _ _ Hi) as [Hfirst Hcount].
  assert (Hpos : 0 ≤ bb_index_first f).
  { rewrite Hfirst. pose proof (Forall_take _ i _ (funcs_image_counts p (None, 0) 0)) as Ht. revert Ht.
    generalize (take i (funcs_image (None, 0) 0 p)) as l. induction 1; simpl in *; lia. }
  split.
  - unfold module_get_bb_by_index. destruct (Z.ltb_spec 0 (bb_index_first f + Z.of_nat j + 1)); [|lia].
    rewrite Hl. f_equal. apply (get_bb_loop_spec _ i j 0 f); [apply funcs_image_counts|done|done|]. lia.
  - unfold get_bb, get_func. unfold func_list in Hi'. destruct (funcs (module_image name p)) as [fs|]; [|done].
    simpl in *. rewrite Hi'. simpl. destruct (bbs f) as [bl|]; simpl in *; [|lia].
    by destruct (lookup_lt_is_Some_2 bl j ltac:(lia)) as [b ->].
Qed.

Lemma block_by_index_witness : module_get_bb_by_index (module_image "pm" demo_program) (2 + Z.of_nat 0 + 1) = Ret (Some (1%nat, 0%nat)).
Proof.
  apply (block_by_index "pm" demo_program 1 0
    {| f_name := Some "f"; f_path := Some "f.c"; f_pathFixed := Some "f.c"; bb_index_first := 2; bb_count := 1;
       bbs := Some [new_bb]; global_func := None |}); [vm_compute; reflexivity | simpl; lia].
Defined.
