(* ===== verification/Function.v ===== *)
(** * The function table: [hypermemloganalyze/common/function.c]

    Modules share functions: a function is known by name and path, and its blocks
    get numbers that are the same for all modules.  The table is a hash table of
    lists; a pointer to an entry is the index of its list and the position in it,
    a pointer to a module its position in the list of modules. *)

From Stdlib Require Import ZArith Lia Ascii String.
From stdpp Require Import base list numbers strings.
From S2P Require Import Prelude Decimal Helper Module.

(** ** Data *)

Record function_bb := {
  fb_faultcand_count : Z; fb_faultinj_count : Z; fb_instr_count : Z;
  fb_lines : list linepath;
  fb_fault_path : option string; fb_fault_line : Z; fb_fault_type : option string;
  global_bb_index : Z;
}.

Record function := {
  fn_name' : string; fn_path' : string; fn_pathFixed : option string;
  fn_bb_count : Z;
  fn_bbs : list function_bb;
  refs : list (nat * nat);      (** module and function of the module *)
  global_func_index : Z;
}.

Record function_hashtable := {
  entry_count : Z;
  entries : list (list function);
  global_bb_count : Z;
  global_func_count : Z;
}.

(** ** Searching *)

(** [result * 2 > result] is an [int] multiplication. *)
Fixpoint round_up_loop (fuel : nat) (result value : Z) : res Z :=
  if result <? value then
    let! twice := chk32 (result * 2) in
    if result <? twice then match fuel with O => Stop FFuel | S fuel' => round_up_loop fuel' twice value end
    else Ret result
  else Ret result.
Definition round_up_to_2n (value : Z) : res Z :=
  assert! (0 <=? value) in round_up_loop 32 1 value.

Definition hashfunc (name path : string) : Z := u32 (hashstr name + 5 * hashstr path).

Definition bucket (t : function_hashtable) (name path : string) : nat :=
  Z.to_nat (hashfunc name path `mod` entry_count t).

Definition is_entry (name path : string) (f : function) : bool :=
  (strcmp (fn_name' f) name =? 0) && (strcmp (fn_path' f) path =? 0).

(** Position in a list of entries; the length when there is none. *)
Fixpoint find_entry (name path : string) (l : list function) : nat :=
  match l with
  | [] => 0
  | f :: l' => if is_entry name path f then 0 else S (find_entry name path l')
  end.

Definition get_entries (t : function_hashtable) (b : nat) : res (list function) :=
  match entries t !! b with Some l => Ret l | None => Stop FBounds end.

(** [functions_find_ptr]: also the entries of the list. *)
Definition functions_find_ptr (t : function_hashtable) (name path : string) : res (nat * nat * list function) :=
  if entry_count t =? 0 then Stop FDivZero
  else
    let b := bucket t name path in
    let! l := get_entries t b in
    Ret (b, find_entry name path l, l).

Definition functions_find (t : function_hashtable) (name path : string) : res (option function) :=
  let! r := functions_find_ptr t name path in Ret (r.2 !! r.1.2).

(** ** Adding the functions of modules *)

Definition bb_matches (bbf : function_bb) (bbm : module_bb) : bool :=
  (fb_faultcand_count bbf =? faultcand_count bbm) && (fb_faultinj_count bbf =? faultinj_count bbm) &&
  (fb_instr_count bbf =? instr_count bbm) && (safestrcmp (fb_fault_path bbf) (fault_path bbm) =? 0) &&
  (fb_fault_line bbf =? fault_line bbm) && (safestrcmp (fb_fault_type bbf) (fault_type bbm) =? 0).

Fixpoint bbs_match (bf : list function_bb) (bm : list module_bb) : res unit :=
  match bf, bm with
  | [], _ => Ret tt
  | b :: bf', c :: bm' => if bb_matches b c then bbs_match bf' bm' else Stop (FExit 1)
  | _ :: _, [] => Stop FBounds
  end.

Definition mbbs (mf : module_func) : list module_bb := default [] (bbs mf).

(** The entry of a function that is already in the table: one more reference. *)
Definition functions_add_function_match (f : function) (ref : nat * nat) (name path : string) (mf : module_func)
    : res function :=
  assert! (strcmp name (fn_name' f) =? 0) in
  assert! (strcmp path (fn_path' f) =? 0) in
  if negb (fn_bb_count f =? bb_count mf) then Stop (FExit 1)
  else
    let! _ := bbs_match (fn_bbs f) (mbbs mf) in
    Ret {| fn_name' := fn_name' f; fn_path' := fn_path' f; fn_pathFixed := fn_pathFixed f;
           fn_bb_count := fn_bb_count f; fn_bbs := fn_bbs f; refs := refs f ++ [ref];
           global_func_index := global_func_index f |}.

(** [copy_bb_lines]: without the fixed path. *)
Definition copy_bb_lines (ls : list linepath) : list linepath :=
  (λ l, {| lp_path := lp_path l; lp_pathFixed := None; lp_line := lp_line l; lp_hash := lp_hash l |}) <$> ls.

Definition function_bb_init (b : module_bb) : function_bb :=
  {| fb_faultcand_count := faultcand_count b; fb_faultinj_count := faultinj_count b; fb_instr_count := instr_count b;
     fb_lines := copy_bb_lines (lines b); fb_fault_path := fault_path b; fb_fault_line := fault_line b;
     fb_fault_type := fault_type b; global_bb_index := 0 |}.

Definition functions_add_function_new (ref : nat * nat) (name path : string) (mf : module_func) : res function :=
  if negb (bb_count mf =? Z.of_nat (length (mbbs mf))) then Stop FBounds
  else Ret {| fn_name' := name; fn_path' := path; fn_pathFixed := f_pathFixed mf; fn_bb_count := bb_count mf;
              fn_bbs := function_bb_init <$> mbbs mf; refs := [ref]; global_func_index := 0 |}.

Definition put_entries (t : function_hashtable) (b : nat) (l : list function) : function_hashtable :=
  {| entry_count := entry_count t; entries := <[b := l]> (entries t);
     global_bb_count := global_bb_count t; global_func_count := global_func_count t |}.

Definition set_global (mf : module_func) (p : nat * nat) : module_func :=
  {| f_name := f_name mf; f_path := f_path mf; f_pathFixed := f_pathFixed mf; bb_index_first := bb_index_first mf;
     bb_count := bb_count mf; bbs := bbs mf; global_func := Some p |}.

Definition functions_add_function (t : function_hashtable) (ref : nat * nat) (mf : module_func)
    : res (function_hashtable * module_func) :=
  match f_name mf, f_path mf with
  | Some name, Some path =>
      let! r := functions_find_ptr t name path in
      let '(b, i, l) := r in
      let! f := match l !! i with
                | Some f => functions_add_function_match f ref name path mf
                | None => functions_add_function_new ref name path mf
                end in
      let l' := if decide (i < length l)%nat then <[i := f]> l else l ++ [f] in
      match global_func mf with
      | Some _ => Stop FAssert
      | None => Ret (put_entries t b l', set_global mf (b, i))
      end
  | _, _ => Stop FAssert
  end.

Fixpoint functions_add_funcs (t : function_hashtable) (mi fi : nat) (fs : list module_func)
    : res (function_hashtable * list module_func) :=
  match fs with
  | [] => Ret (t, [])
  | mf :: fs' =>
      let! r := functions_add_function t (mi, fi) mf in
      let! r' := functions_add_funcs r.1 mi (S fi) fs' in
      Ret (r'.1, r.2 :: r'.2)
  end.

Definition functions_add_module (t : function_hashtable) (mi : nat) (m : module) : res (function_hashtable * module) :=
  let! r := functions_add_funcs t mi 0 (func_list m) in
  Ret (r.1, {| m_name := m_name m; func_count := func_count m; funcs := (λ _, r.2) <$> funcs m |}).

Fixpoint functions_add_modules (t : function_hashtable) (mi : nat) (ms : module_ll) : res (function_hashtable * module_ll) :=
  match ms with
  | [] => Ret (t, [])
  | m :: ms' =>
      let! r := functions_add_module t mi m in
      let! r' := functions_add_modules r.1 (S mi) ms' in
      Ret (r'.1, r.2 :: r'.2)
  end.

(** ** Global block numbers *)

Definition set_index (n : Z) (b : function_bb) : function_bb :=
  {| fb_faultcand_count := fb_faultcand_count b; fb_faultinj_count := fb_faultinj_count b;
     fb_instr_count := fb_instr_count b; fb_lines := fb_lines b; fb_fault_path := fb_fault_path b;
     fb_fault_line := fb_fault_line b; fb_fault_type := fb_fault_type b; global_bb_index := s32 n |}.

Fixpoint number_bbs (n : Z) (bl : list function_bb) : list function_bb :=
  match bl with [] => [] | b :: bl' => set_index n b :: number_bbs (n + 1) bl' end.

Definition functions_init_global_bbs_function (n : Z) (f : function) : function :=
  {| fn_name' := fn_name' f; fn_path' := fn_path' f; fn_pathFixed := fn_pathFixed f; fn_bb_count := fn_bb_count f;
     fn_bbs := number_bbs n (fn_bbs f); refs := refs f; global_func_index := global_func_index f |}.

Fixpoint number_list (n : Z) (l : list function) : list function :=
  match l with
  | [] => []
  | f :: l' => functions_init_global_bbs_function n f :: number_list (n + fn_bb_count f) l'
  end.

Definition count_bbs (l : list function) : Z := foldr (λ f n, fn_bb_count f + n) 0 l.

Fixpoint number_entries (n : Z) (es : list (list function)) : list (list function) :=
  match es with
  | [] => []
  | l :: es' => number_list n l :: number_entries (n + count_bbs l) es'
  end.

(** [functions_init_global_bbs]: the counting pass and the numbering pass over
    the lists of the table. *)
Definition functions_init_global_bbs (t : function_hashtable) : function_hashtable :=
  {| entry_count := entry_count t; entries := number_entries 0 (entries t);
     global_bb_count := foldr (λ l n, count_bbs l + n) 0 (entries t);
     global_func_count := Z.of_nat (length (concat (entries t))) |}.

Definition functions_build_table (ms : module_ll) : res (function_hashtable * module_ll) :=
  let! function_count := modules_count_functions ms in
  let! n := round_up_to_2n function_count in
  let! r := functions_add_modules
    {| entry_count := n; entries := replicate (Z.to_nat n) []; global_bb_count := 0; global_func_count := 0 |} 0 ms in
  Ret (functions_init_global_bbs r.1, r.2).

(** ** Numbers of a module's blocks *)

Definition get_function (t : function_hashtable) (p : nat * nat) : res function :=
  let! l := get_entries t p.1 in
  match l !! p.2 with Some f => Ret f | None => Stop FBounds end.

Fixpoint bbindex_loop (t : function_hashtable) (fs : list module_func) (k : Z) : res Z :=
  match fs with
  | [] => Ret (-1)
  | mf :: fs' =>
      if k <? bb_count mf then
        match global_func mf with
        | None => Stop FNull
        | Some p =>
            let! f := get_function t p in
            assert! (fn_bb_count f =? bb_count mf) in
            match fn_bbs f !! Z.to_nat k with Some b => Ret (global_bb_index b) | None => Stop FBounds end
        end
      else bbindex_loop t fs' (k - bb_count mf)
  end.
Definition module_bbindex_to_global (t : function_hashtable) (m : module) (bbindex_mod : Z) : res Z :=
  assert! (0 <=? bbindex_mod) in bbindex_loop t (func_list m) bbindex_mod.

(** ** Invariant of the table *)

Definition key (f : function) : string * string := (fn_name' f, fn_path' f).

Definition at_ptr (t : function_hashtable) (p : nat * nat) : option function := entries t !! p.1 ≫= λ l, l !! p.2.

Record entry_ok (t : function_hashtable) (b : nat) (f : function) : Prop := {
  eo_name : plain (fn_name' f) = true;
  eo_path : plain (fn_path' f) = true;
  eo_bucket : bucket t (fn_name' f) (fn_path' f) = b;
  eo_count : fn_bb_count f = Z.of_nat (length (fn_bbs f));
  eo_index : global_func_index f = 0;
}.

Record table_ok (t : function_hashtable) : Prop := {
  to_pos : 0 < entry_count t;
  to_len : length (entries t) = Z.to_nat (entry_count t);
  to_entry : ∀ b l, entries t !! b = Some l → Forall (entry_ok t b) l;
  to_nodup : ∀ b l, entries t !! b = Some l → NoDup (key <$> l);
}.

(** A module's function before it is added, and after. *)
Definition func_ok (mf : module_func) : bool :=
  match f_name mf, f_path mf with
  | Some n, Some p => plain n && plain p
  | _, _ => false
  end && (bb_count mf =? Z.of_nat (length (mbbs mf))) && bool_decide (global_func mf = None).

Definition linked (t : function_hashtable) (mf : module_func) : Prop :=
  ∃ p f, global_func mf = Some p ∧ at_ptr t p = Some f ∧
    f_name mf = Some (fn_name' f) ∧ f_path mf = Some (fn_path' f) ∧ bb_count mf = fn_bb_count f ∧
    Forall2 (λ b c, bb_matches b c = true) (fn_bbs f) (mbbs mf).

(** Entries keep their place, names and blocks; references are added. *)
Definition same_entry (f f' : function) : Prop :=
  key f' = key f ∧ fn_bb_count f' = fn_bb_count f ∧ fn_bbs f' = fn_bbs f ∧ fn_pathFixed f' = fn_pathFixed f ∧
  refs f `prefix_of` refs f' ∧ global_func_index f' = global_func_index f.

Definition extends (t t' : function_hashtable) : Prop :=
  entry_count t' = entry_count t ∧ ∀ p f, at_ptr t p = Some f → ∃ f', at_ptr t' p = Some f' ∧ same_entry f f'.

Lemma extends_refl t : extends t t.
Proof. split; [done|]. intros p f H. exists f. repeat split; done. Qed.

Lemma extends_trans t1 t2 t3 : extends t1 t2 → extends t2 t3 → extends t1 t3.
Proof.
  intros [Hc1 H1] [Hc2 H2]. split; [congruence|]. intros p f Hf.
  destruct (H1 p f Hf) as (f1 & Hf1 & Hk1 & Hn1 & Hb1 & Hp1 & Hr1 & Hi1).
  destruct (H2 p f1 Hf1) as (f2 & Hf2 & Hk2 & Hn2 & Hb2 & Hp2 & Hr2 & Hi2).
  exists f2. split; [done|]. repeat split; try congruence. by etrans.
Qed.

Lemma linked_extends t t' mf : extends t t' → linked t mf → linked t' mf.
Proof.
  intros [_ He] (p & f & Hg & Hat & Hn & Hp & Hc & Hb).
  destruct (He p f Hat) as (f' & Hat' & Hk & Hc' & Hb' & _). unfold key in Hk. injection Hk as Hk1 Hk2.
  exists p, f'. split; [done|]. split; [done|]. rewrite Hk1, Hk2, Hc', Hb'. done.
Qed.

(** ** Searching *)

Lemma is_entry_spec name path f :
  plain (fn_name' f) = true → plain (fn_path' f) = true → plain name = true → plain path = true →
  is_entry name path f = bool_decide (key f = (name, path)).
Proof.
  intros. unfold is_entry, key. rewrite !strcmp_eqb by done.
  apply eq_true_iff_eq. rewrite andb_true_iff, !bool_decide_eq_true. naive_solver.
Qed.

Lemma find_entry_spec t b l name path :
  Forall (entry_ok t b) l → plain name = true → plain path = true →
  match l !! find_entry name path l with
  | Some f => key f = (name, path)
  | None => ((name, path) ∉ (key <$> l)) ∧ find_entry name path l = length l
  end.
Proof.
  intros Hl Hn Hp. induction Hl as [|f l Hf Hl IH]; simpl.
  { split; [apply not_elem_of_nil|done]. }
  rewrite is_entry_spec by (done || apply Hf). case_bool_decide as Hk; [done|].
  simpl. destruct (l !! find_entry name path l); [done|]. destruct IH as [Hin ->].
  split; [|done]. rewrite not_elem_of_cons. done.
Qed.

Lemma find_entry_at t b l name path i f :
  Forall (entry_ok t b) l → NoDup (key <$> l) → plain name = true → plain path = true →
  l !! i = Some f → key f = (name, path) → find_entry name path l = i.
Proof.
  intros Hl Hnd Hn Hp Hi Hk. pose proof (find_entry_spec t b l name path Hl Hn Hp) as H.
  destruct (l !! find_entry name path l) as [g|] eqn:Hg.
  - eapply (NoDup_lookup (key <$> l)); [done| |]; rewrite list_lookup_fmap.
    + by rewrite Hg; simpl; rewrite H.
    + by rewrite Hi; simpl; rewrite Hk.
  - destruct H as [Hin _]. destruct Hin. rewrite <- Hk. apply list_elem_of_fmap_2. by eapply list_elem_of_lookup_2.
Qed.

Lemma bucket_lt t name path : table_ok t → (bucket t name path < length (entries t))%nat.
Proof.
  intros Ht. rewrite (to_len t Ht). unfold bucket. pose proof (to_pos t Ht).
  pose proof (Z.mod_pos_bound (hashfunc name path) (entry_count t)). lia.
Qed.

Lemma find_ptr_ok t name path :
  table_ok t → ∃ l, entries t !! bucket t name path = Some l ∧
    functions_find_ptr t name path = Ret (bucket t name path, find_entry name path l, l).
Proof.
  intros Ht. pose proof (bucket_lt t name path Ht) as Hb. apply lookup_lt_is_Some_2 in Hb as [l Hl].
  exists l. split; [done|]. unfold functions_find_ptr, get_entries. rewrite Hl.
  destruct (Z.eqb_spec (entry_count t) 0); [pose proof (to_pos t Ht); lia|]. done.
Qed.

(** The table finds exactly its entries. *)
Lemma functions_find_at t p f :
  table_ok t → at_ptr t p = Some f → functions_find t (fn_name' f) (fn_path' f) = Ret (Some f).
Proof.
  intros Ht Hat. destruct p as [b i]. unfold at_ptr in Hat. simpl in Hat.
  destruct (entries t !! b) as [l|] eqn:Hl; [|done]. simpl in Hat.
  pose proof (to_entry t Ht b l Hl) as Hall. pose proof (proj1 (Forall_lookup _ _) Hall i f Hat) as Hf.
  destruct (find_ptr_ok t (fn_name' f) (fn_path' f) Ht) as (l' & Hl' & Hfind).
  rewrite (eo_bucket _ _ _ Hf), Hl in Hl'. injection Hl' as <-.
  unfold functions_find. rewrite Hfind. simpl.
  rewrite (find_entry_at t b l _ _ i f Hall (to_nodup t Ht b l Hl) (eo_name _ _ _ Hf) (eo_path _ _ _ Hf) Hat eq_refl).
  by rewrite Hat.
Qed.

(** ** Adding one function *)

Lemma bb_matches_init b : bb_matches (function_bb_init b) b = true.
Proof.
  unfold bb_matches, function_bb_init. simpl. rewrite !Z.eqb_refl.
  assert (Hs : ∀ s, safestrcmp s s = 0) by (intros [s|]; simpl; [apply strcmp_refl|done]).
  by rewrite !Hs.
Qed.

Lemma inits_match bl : Forall2 (λ b c, bb_matches b c = true) (function_bb_init <$> bl) bl.
Proof. induction bl as [|b bl IH]; [constructor|]. constructor; [apply bb_matches_init|done]. Qed.

Lemma bbs_match_spec bf bm :
  length bf = length bm →
  match bbs_match bf bm with
  | Ret _ => Forall2 (λ b c, bb_matches b c = true) bf bm
  | Stop f => f = FExit 1
  end.
Proof.
  revert bm. induction bf as [|b bf IH]; intros [|c bm] Hl; try done; simpl; [constructor|].
  destruct (bb_matches b c) eqn:Hm; [|done]. specialize (IH bm ltac:(simpl in Hl; lia)).
  destruct (bbs_match bf bm); [by constructor|done].
Qed.

(** The entry that a module's function gets. *)
Definition entry_for (mf : module_func) (f : function) : Prop :=
  f_name mf = Some (fn_name' f) ∧ f_path mf = Some (fn_path' f) ∧ bb_count mf = fn_bb_count f ∧
  Forall2 (λ b c, bb_matches b c = true) (fn_bbs f) (mbbs mf).

Lemma func_ok_spec mf :
  func_ok mf = true → ∃ name path, f_name mf = Some name ∧ f_path mf = Some path ∧ plain name = true ∧
    plain path = true ∧ bb_count mf = Z.of_nat (length (mbbs mf)) ∧ global_func mf = None.
Proof.
  unfold func_ok. destruct (f_name mf), (f_path mf); simpl; try done.
  rewrite !andb_true_iff, Z.eqb_eq, bool_decide_eq_true. intros [[[Hn Hp] Hc] Hg]. eauto 10.
Qed.

Lemma add_match_spec t b f ref name path mf :
  entry_ok t b f → key f = (name, path) → f_name mf = Some name → f_path mf = Some path →
  bb_count mf = Z.of_nat (length (mbbs mf)) →
  match functions_add_function_match f ref name path mf with
  | Ret f' => same_entry f f' ∧ entry_for mf f' ∧ refs f' = refs f ++ [ref]
  | Stop e => e = FExit 1
  end.
Proof.
  intros Hf [= Hn Hp] Hmn Hmp Hcount. unfold functions_add_function_match. rewrite <- Hn, <- Hp, !strcmp_refl. simpl.
  destruct (Z.eqb_spec (fn_bb_count f) (bb_count mf)) as [Hc|Hc]; simpl; [|done].
  pose proof (eo_count _ _ _ Hf) as Hfc.
  pose proof (bbs_match_spec (fn_bbs f) (mbbs mf) ltac:(lia)) as Hm.
  destruct (bbs_match _ _); simpl; [|done]. split; [|split; [|done]].
  - repeat split; simpl; try done. by eexists.
  - unfold entry_for. simpl. rewrite Hmn, Hmp, Hn, Hp. done.
Qed.

Lemma add_new_spec t ref name path mf :
  f_name mf = Some name → f_path mf = Some path → plain name = true → plain path = true →
  bb_count mf = Z.of_nat (length (mbbs mf)) →
  ∃ f, functions_add_function_new ref name path mf = Ret f ∧ key f = (name, path) ∧ entry_for mf f ∧
    entry_ok t (bucket t name path) f ∧ refs f = [ref].
Proof.
  intros Hn Hp Hpn Hpp Hc. unfold functions_add_function_new. rewrite <- Hc, Z.eqb_refl. simpl.
  eexists. split; [done|]. split; [done|]. split.
  - unfold entry_for. simpl. rewrite Hn, Hp. repeat split; try done.
    apply inits_match.
  - split; [|done]. split; simpl; try done. by rewrite length_fmap.
Qed.

(** Replacing the list of one bucket. *)
Lemma at_ptr_put t b l p :
  (b < length (entries t))%nat → at_ptr (put_entries t b l) p = if decide (p.1 = b) then l !! p.2 else at_ptr t p.
Proof.
  intros Hb. unfold at_ptr, put_entries. simpl. case_decide as Hp.
  - by rewrite Hp, list_lookup_insert_eq.
  - by rewrite list_lookup_insert_ne.
Qed.

Lemma put_entries_ok t b l l' :
  table_ok t → entries t !! b = Some l → Forall (entry_ok t b) l' → NoDup (key <$> l') → table_ok (put_entries t b l').
Proof.
  intros Ht Hb Hl' Hnd. pose proof (lookup_lt_Some _ _ _ Hb) as Hlt. split; simpl.
  - apply Ht.
  - by rewrite length_insert, (to_len t Ht).
  - intros b' k Hk. assert (Hall : Forall (entry_ok t b') k).
    { destruct (decide (b' = b)) as [->|]; [rewrite list_lookup_insert_eq in Hk by done; by injection Hk as <-|].
      rewrite list_lookup_insert_ne in Hk by done. by apply (to_entry t Ht). }
    eapply Forall_impl; [exact Hall|]. intros f [? ? ? ? ?]. by split.
  - intros b' k Hk. destruct (decide (b' = b)) as [->|].
    + rewrite list_lookup_insert_eq in Hk by done. by injection Hk as <-.
    + rewrite list_lookup_insert_ne in Hk by done. by apply (to_nodup t Ht b').
Qed.

Lemma add_function_spec t ref mf :
  table_ok t → func_ok mf = true →
  match functions_add_function t ref mf with
  | Ret (t', mf') => table_ok t' ∧ extends t t' ∧ linked t' mf' ∧ ∃ p, mf' = set_global mf p
  | Stop e => e = FExit 1
  end.
Proof.
  intros Ht (name & path & Hn & Hp & Hpn & Hpp & Hc & Hg)%func_ok_spec.
  unfold functions_add_function. rewrite Hn, Hp, Hg.
  destruct (find_ptr_ok t name path Ht) as (l & Hl & ->). simpl.
  pose proof (to_entry t Ht _ _ Hl) as Hall. pose proof (to_nodup t Ht _ _ Hl) as Hnd.
  pose proof (find_entry_spec t _ l name path Hall Hpn Hpp) as Hfind.
  pose proof (lookup_lt_Some _ _ _ Hl) as Hb. set (i := find_entry name path l) in *.
  destruct (l !! i) as [f|] eqn:Hi.
  - pose proof (proj1 (Forall_lookup _ _) Hall i f Hi) as Hf.
    pose proof (add_match_spec t _ f ref name path mf Hf Hfind Hn Hp Hc) as Hm.
    destruct (functions_add_function_match f ref name path mf) as [f'|]; simpl; [|done].
    destruct Hm as (Hsame & Hfor & _). apply lookup_lt_Some in Hi as Hlt. rewrite decide_True by done.
    assert (Hf' : entry_ok t (bucket t name path) f').
    { destruct Hsame as (Hk & Hcc & Hbb & _ & _ & Hix). unfold key in Hk. injection Hk as Hk1 Hk2.
      destruct Hf. split; rewrite ?Hk1, ?Hk2, ?Hcc, ?Hbb, ?Hix; done. }
    assert (Hkeys : key <$> <[i := f']> l = key <$> l).
    { rewrite list_fmap_insert. destruct Hsame as [-> _]. apply list_insert_id.
      by rewrite list_lookup_fmap, Hi. }
    split; [|split; [|split; [|by eexists]]].
    + eapply put_entries_ok; [done|exact Hl| |by rewrite Hkeys]. by apply Forall_insert.
    + split; [done|]. intros q g Hq. rewrite at_ptr_put by done. case_decide as Hqb; [|exists g; by repeat split].
      unfold at_ptr in Hq. rewrite Hqb, Hl in Hq. simpl in Hq.
      destruct (decide (q.2 = i)) as [Hqi|Hne].
      * rewrite Hqi in Hq |- *. rewrite list_lookup_insert_eq by done. exists f'. split; [done|]. rewrite Hi in Hq. by injection Hq as <-.
      * rewrite list_lookup_insert_ne by done. exists g. split; [done|]. by repeat split.
    + exists (bucket t name path, i), f'. split; [done|]. rewrite at_ptr_put by done. rewrite decide_True by done.
      split; [by rewrite list_lookup_insert_eq|]. exact Hfor.
  - destruct Hfind as [Hin Hlen].
    destruct (add_new_spec t ref name path mf Hn Hp Hpn Hpp Hc) as (f & -> & Hk & Hfor & Hf & _). simpl.
    rewrite decide_False by lia. split; [|split; [|split; [|by eexists]]].
    + eapply put_entries_ok; [done|exact Hl| |].
      * apply Forall_app. split; [done|]. by constructor.
      * rewrite fmap_app. simpl. rewrite Hk. apply NoDup_app. split; [done|]. split; [|apply NoDup_singleton].
        intros x Hx ->%list_elem_of_singleton. done.
    + split; [done|]. intros q g Hq. exists g. split; [|by repeat split]. rewrite at_ptr_put by done.
      case_decide as Hqb; [|done]. unfold at_ptr in Hq. rewrite Hqb, Hl in Hq. simpl in Hq.
      by apply lookup_app_l_Some.
    + exists (bucket t name path, i), f. split; [done|]. rewrite at_ptr_put by done. rewrite decide_True by done.
      split; [|exact Hfor]. rewrite Hlen. by apply list_lookup_middle.
Qed.

(** ** Adding modules *)

Definition module_ok (m : module) : bool :=
  (func_count m =? Z.of_nat (length (func_list m))) && forallb func_ok (func_list m).

(** The modules afterwards: the same functions, linked to the table. *)
Definition linked_func (t : function_hashtable) (mf mf' : module_func) : Prop :=
  linked t mf' ∧ ∃ p, mf' = set_global mf p.
Definition linked_module (t : function_hashtable) (m m' : module) : Prop :=
  m_name m' = m_name m ∧ func_count m' = func_count m ∧ Forall2 (linked_func t) (func_list m) (func_list m').

Lemma linked_funcs_extends t t' fs fs' :
  extends t t' → Forall2 (linked_func t) fs fs' → Forall2 (linked_func t') fs fs'.
Proof. intros He H. eapply Forall2_impl; [exact H|]. intros x y [Hl Hp]. split; [by eapply linked_extends|done]. Qed.

Lemma add_funcs_spec fs t mi fi :
  table_ok t → forallb func_ok fs = true →
  match functions_add_funcs t mi fi fs with
  | Ret (t', fs') => table_ok t' ∧ extends t t' ∧ Forall2 (linked_func t') fs fs'
  | Stop e => e = FExit 1
  end.
Proof.
  revert t fi. induction fs as [|mf fs IH]; intros t fi Ht Hok; simpl.
  { split; [done|]. split; [apply extends_refl | constructor]. }
  simpl in Hok. apply andb_true_iff in Hok as [Hmf Hok].
  pose proof (add_function_spec t (mi, fi) mf Ht Hmf) as H1.
  destruct (functions_add_function t (mi, fi) mf) as [[t1 mf1]|]; simpl; [|done].
  destruct H1 as (Ht1 & He1 & Hl1 & Hp1). specialize (IH t1 (S fi) Ht1 Hok).
  destruct (functions_add_funcs t1 mi (S fi) fs) as [[t2 fs2]|]; simpl; [|done].
  destruct IH as (Ht2 & He2 & Hl2). split; [done|]. split; [by eapply extends_trans|].
  constructor; [split; [by eapply linked_extends|done]|done].
Qed.

Lemma add_modules_spec ms t mi :
  table_ok t → forallb module_ok ms = true →
  match functions_add_modules t mi ms with
  | Ret (t', ms') => table_ok t' ∧ extends t t' ∧ Forall2 (linked_module t') ms ms'
  | Stop e => e = FExit 1
  end.
Proof.
  revert t mi. induction ms as [|m ms IH]; intros t mi Ht Hok; simpl.
  { split; [done|]. split; [apply extends_refl | constructor]. }
  simpl in Hok. apply andb_true_iff in Hok as [Hm Hok]. apply andb_true_iff in Hm as [_ Hfs].
  unfold functions_add_module. pose proof (add_funcs_spec (func_list m) t mi 0 Ht Hfs) as H1.
  destruct (functions_add_funcs t mi 0 (func_list m)) as [[t1 fs1]|]; simpl; [|done].
  destruct H1 as (Ht1 & He1 & Hl1). specialize (IH t1 (S mi) Ht1 Hok).
  destruct (functions_add_modules t1 (S mi) ms) as [[t2 ms2]|]; simpl; [|done].
  destruct IH as (Ht2 & He2 & Hl2). split; [done|]. split; [by eapply extends_trans|].
  constructor; [|done]. split; [done|]. split; [done|]. unfold func_list in *. simpl.
  destruct (funcs m); simpl in *; [|inversion Hl1; constructor].
  by eapply linked_funcs_extends.
Qed.

(** ** Numbering *)

Lemma number_bbs_lookup n bl j b :
  bl !! j = Some b → number_bbs n bl !! j = Some (set_index (n + Z.of_nat j) b).
Proof.
  revert n j. induction bl as [|c bl IH]; intros n j Hj; [done|]. destruct j as [|j]; simpl in *.
  - injection Hj as ->. by rewrite Z.add_0_r.
  - rewrite (IH (n + 1) j Hj). do 2 f_equal. lia.
Qed.

Lemma length_number_bbs n bl : length (number_bbs n bl) = length bl.
Proof. revert n. induction bl; intros; simpl; auto. Qed.

Lemma number_list_lookup n l i f :
  l !! i = Some f → number_list n l !! i = Some (functions_init_global_bbs_function (n + count_bbs (take i l)) f).
Proof.
  revert n i. induction l as [|g l IH]; intros n i Hi; [done|]. destruct i as [|i]; simpl in *.
  - injection Hi as ->. by rewrite Z.add_0_r.
  - rewrite (IH _ i Hi). do 2 f_equal. lia.
Qed.

Definition count_entries (es : list (list function)) : Z := foldr (λ l n, count_bbs l + n) 0 es.

Lemma number_entries_lookup n es b l :
  es !! b = Some l → number_entries n es !! b = Some (number_list (n + count_entries (take b es)) l).
Proof.
  revert n b. induction es as [|k es IH]; intros n b Hb; [done|]. destruct b as [|b]; simpl in *.
  - injection Hb as ->. by rewrite Z.add_0_r.
  - rewrite (IH _ b Hb). do 2 f_equal. unfold count_entries. simpl. lia.
Qed.

(** The first number of an entry: the blocks of the entries before it. *)
Definition first_index (t : function_hashtable) (p : nat * nat) : Z :=
  count_entries (take p.1 (entries t)) + count_bbs (take p.2 (default [] (entries t !! p.1))).

Lemma at_ptr_numbered t p f :
  at_ptr t p = Some f →
  at_ptr (functions_init_global_bbs t) p = Some (functions_init_global_bbs_function (first_index t p) f).
Proof.
  unfold at_ptr, first_index. simpl. destruct (entries t !! p.1) as [l|] eqn:Hl; [|done]. simpl. intros Hf.
  rewrite (number_entries_lookup _ _ _ _ Hl). simpl. by rewrite (number_list_lookup _ _ _ _ Hf).
Qed.

Section Sum.
Context {A : Type} (w : A → Z).

Definition sum_of (l : list A) : Z := foldr (λ x n, w x + n) 0 l.

Lemma sum_of_cons x l : sum_of (x :: l) = w x + sum_of l.
Proof. done. Qed.

Lemma sum_of_nonneg l : Forall (λ x, 0 ≤ w x) l → 0 ≤ sum_of l.
Proof. induction 1; simpl; lia. Qed.

Lemma sum_of_app l1 l2 : sum_of (l1 ++ l2) = sum_of l1 + sum_of l2.
Proof. induction l1; simpl; lia. Qed.

Lemma sum_of_take l i j x :
  Forall (λ x, 0 ≤ w x) l → l !! i = Some x → (i < j)%nat → sum_of (take i l) + w x ≤ sum_of (take j l) ≤ sum_of l.
Proof.
  revert i j. induction l as [|y l IH]; intros i j Hw Hi Hij; [done|].
  apply Forall_cons in Hw as [Hy Hw]. destruct j as [|j]; [lia|]. destruct i as [|i]; simpl in *.
  - injection Hi as ->. pose proof (sum_of_nonneg (take j l) (Forall_take _ j l Hw)).
    pose proof (sum_of_nonneg (drop j l) (Forall_drop _ j l Hw)) as Hd.
    pose proof (sum_of_app (take j l) (drop j l)) as Ha. rewrite take_drop in Ha. unfold sum_of in *. lia.
  - specialize (IH i j Hw Hi ltac:(lia)). unfold sum_of in *. lia.
Qed.
End Sum.

Lemma entry_counts t b l : table_ok t → entries t !! b = Some l → Forall (λ f, 0 ≤ fn_bb_count f) l.
Proof.
  intros Ht Hl. eapply Forall_impl; [by apply (to_entry t Ht)|]. intros f [_ _ _ -> _]. lia.
Qed.

Lemma list_counts t : table_ok t → Forall (λ l, 0 ≤ count_bbs l) (entries t).
Proof.
  intros Ht. apply Forall_lookup. intros b l Hl. apply (sum_of_nonneg fn_bb_count). by eapply entry_counts.
Qed.

(** The numbers of an entry lie between the entries before and after it. *)
Lemma first_index_range t p f :
  table_ok t → at_ptr t p = Some f →
  0 ≤ first_index t p ∧ first_index t p + fn_bb_count f ≤ count_entries (entries t).
Proof.
  intros Ht. unfold at_ptr, first_index. destruct (entries t !! p.1) as [l|] eqn:Hl; [|done]. simpl. intros Hf.
  pose proof (entry_counts t _ _ Ht Hl) as Hc. pose proof (list_counts t Ht) as Hcl.
  pose proof (sum_of_nonneg _ _ (Forall_take _ p.1 _ Hcl)) as H1.
  pose proof (sum_of_nonneg _ _ (Forall_take _ p.2 _ Hc)) as H2.
  pose proof (sum_of_take fn_bb_count l p.2 (S p.2) f Hc Hf ltac:(lia)) as H3.
  pose proof (sum_of_take count_bbs (entries t) p.1 (S p.1) l Hcl Hl ltac:(lia)) as H4.
  unfold sum_of in *. unfold count_entries, count_bbs in *. lia.
Qed.

Lemma first_index_disjoint t p q f g :
  table_ok t → at_ptr t p = Some f → at_ptr t q = Some g → p ≠ q →
  first_index t p + fn_bb_count f ≤ first_index t q ∨ first_index t q + fn_bb_count g ≤ first_index t p.
Proof.
  intros Ht. unfold at_ptr, first_index. destruct p as [b i], q as [b' i']. simpl.
  destruct (entries t !! b) as [l|] eqn:Hl; [|done]. destruct (entries t !! b') as [l'|] eqn:Hl'; [|done].
  simpl. intros Hf Hg Hne.
  pose proof (entry_counts t _ _ Ht Hl) as Hc. pose proof (entry_counts t _ _ Ht Hl') as Hc'.
  pose proof (list_counts t Ht) as Hcl.
  pose proof (sum_of_nonneg _ _ (Forall_take _ i _ Hc)) as H1.
  pose proof (sum_of_nonneg _ _ (Forall_take _ i' _ Hc')) as H2.
  pose proof (sum_of_take fn_bb_count l i (S i) f Hc Hf ltac:(lia)) as H3.
  pose proof (sum_of_take fn_bb_count l' i' (S i') g Hc' Hg ltac:(lia)) as H4.
  unfold count_entries. destruct (lt_eq_lt_dec b b') as [[Hlt|Heq]|Hgt].
  - pose proof (sum_of_take count_bbs (entries t) b b' l Hcl Hl Hlt) as H5.
    unfold sum_of in *. unfold count_bbs in *. lia.
  - subst b'. rewrite Hl in Hl'. injection Hl' as <-. destruct (lt_eq_lt_dec i i') as [[Hlt|Heq]|Hgt]; [| congruence |].
    + pose proof (sum_of_take fn_bb_count l i i' f Hc Hf Hlt) as H5. unfold sum_of in *. unfold count_bbs in *. lia.
    + pose proof (sum_of_take fn_bb_count l i' i g Hc Hg Hgt) as H5. unfold sum_of in *. unfold count_bbs in *. lia.
  - pose proof (sum_of_take count_bbs (entries t) b' b l' Hcl Hl' Hgt) as H5.
    unfold sum_of in *. unfold count_bbs in *. lia.
Qed.

(** ** Building the table *)

Lemma round_up_loop_ok fuel result value :
  2^(32 - Z.of_nat fuel) ≤ result → value ≤ 2^30 → (fuel ≤ 32)%nat →
  ∃ n, round_up_loop fuel result value = Ret n ∧ 0 < n.
Proof.
  revert result. induction fuel as [|fuel IH]; intros result Hr Hv Hf; cbn [round_up_loop].
  - destruct (Z.ltb_spec result value); [simpl in Hr; lia|]. exists result. split; [done|]. simpl in Hr. lia.
  - assert (Hpos : 0 < 2^(32 - Z.of_nat (S fuel))) by (apply Z.pow_pos_nonneg; lia).
    destruct (Z.ltb_spec result value); [|exists result; split; [done|lia]].
    rewrite chk32_ok by lia. cbn [res_bind]. destruct (Z.ltb_spec result (result * 2)); [|lia].
    apply IH; [|done|lia]. replace (32 - Z.of_nat fuel) with (Z.succ (32 - Z.of_nat (S fuel))) by lia.
    rewrite Z.pow_succ_r by lia. lia.
Qed.

Lemma round_up_pos fuel result value n : 0 < result → round_up_loop fuel result value = Ret n → 0 < n.
Proof.
  revert result. induction fuel as [|fuel IH]; intros result Hr; cbn [round_up_loop];
    (destruct (Z.ltb_spec result value); [|by intros [= <-]]);
    (destruct (chk32 (result * 2)) as [tw|]; [|done]); cbn [res_bind];
    (destruct (Z.ltb_spec result tw); [|by intros [= <-]]); [done|].
  apply IH. lia.
Qed.

Lemma modules_count_ok ms n :
  forallb module_ok ms = true → 0 ≤ n → n + sum_of func_count ms < 2^31 →
  modules_count_loop n ms = Ret (n + sum_of func_count ms).
Proof.
  revert n. induction ms as [|m ms IH]; intros n Hok Hn Hmax; simpl in *; [by rewrite Z.add_0_r|].
  apply andb_true_iff in Hok as [Hm Hok]. unfold module_ok in Hm. rewrite andb_true_iff, Z.eqb_eq in Hm.
  assert (Hs : 0 ≤ sum_of func_count ms).
  { apply sum_of_nonneg. apply Forall_forall. intros x Hx. apply list_elem_of_In in Hx.
    rewrite forallb_forall in Hok. apply Hok in Hx. unfold module_ok in Hx. rewrite andb_true_iff, Z.eqb_eq in Hx. lia. }
  fold (sum_of func_count ms) in Hmax. rewrite chk32_ok by lia. cbn [res_bind].
  rewrite IH by (done || lia). fold (sum_of func_count ms). f_equal. lia.
Qed.

Lemma empty_table_ok n :
  0 < n → table_ok {| entry_count := n; entries := replicate (Z.to_nat n) []; global_bb_count := 0; global_func_count := 0 |}.
Proof.
  intros Hn. split; simpl; [done|by rewrite length_replicate| |];
    intros b l Hl; apply lookup_replicate in Hl as [-> _]; [constructor | apply NoDup_nil_2].
Qed.

Lemma build_table_spec ms :
  forallb module_ok ms = true → sum_of func_count ms ≤ 2^30 →
  match functions_build_table ms with
  | Ret (t, ms') => ∃ t0, t = functions_init_global_bbs t0 ∧ table_ok t0 ∧ Forall2 (linked_module t0) ms ms'
  | Stop e => e = FExit 1
  end.
Proof.
  intros Hok Hsum. unfold functions_build_table, modules_count_functions.
  rewrite modules_count_ok by (done || lia). cbn [res_bind]. rewrite Z.add_0_l. unfold round_up_to_2n.
  assert (Hpos : 0 ≤ sum_of func_count ms).
  { apply sum_of_nonneg. apply Forall_forall. intros x Hx%list_elem_of_In. rewrite forallb_forall in Hok.
    apply Hok in Hx. unfold module_ok in Hx. rewrite andb_true_iff, Z.eqb_eq in Hx. lia. }
  destruct (Z.leb_spec 0 (sum_of func_count ms)); [|lia].
  destruct (round_up_loop_ok 32 1 (sum_of func_count ms)) as (n & -> & Hn); [simpl; lia|done|lia|].
  cbn [res_bind]. pose proof (add_modules_spec ms _ 0 (empty_table_ok n Hn) Hok) as H'.
  destruct (functions_add_modules _ 0 ms) as [[t ms']|]; [|done]. cbn [res_bind fst snd].
  destruct H' as (Ht & _ & Hl). by exists t.
Qed.

(** ** Numbers of blocks *)

Lemma same_key_same_ptr t p q f g :
  table_ok t → at_ptr t p = Some f → at_ptr t q = Some g → key f = key g → p = q.
Proof.
  intros Ht. unfold at_ptr. destruct p as [b i], q as [b' i']. simpl.
  destruct (entries t !! b) as [l|] eqn:Hl; [|done]. destruct (entries t !! b') as [l'|] eqn:Hl'; [|done].
  simpl. intros Hf Hg Hk. pose proof (to_entry t Ht _ _ Hl) as Hall. pose proof (to_entry t Ht _ _ Hl') as Hall'.
  pose proof (proj1 (Forall_lookup _ _) Hall i f Hf) as [Hn Hp Hb _ _].
  pose proof (proj1 (Forall_lookup _ _) Hall' i' g Hg) as [_ _ Hb' _ _].
  unfold key in Hk. injection Hk as Hk1 Hk2. rewrite <- Hk1, <- Hk2, Hb in Hb'. subst b'.
  rewrite Hl in Hl'. injection Hl' as <-. f_equal.
  rewrite <- (find_entry_at t b l _ _ i f Hall (to_nodup t Ht b l Hl) Hn Hp Hf eq_refl).
  apply (find_entry_at t b l _ _ i' g Hall (to_nodup t Ht b l Hl) Hn Hp Hg).
  unfold key. congruence.
Qed.

(** A block of a linked module function. *)
Lemma block_number t mf j p f :
  table_ok t → count_entries (entries t) < 2^31 →
  global_func mf = Some p → at_ptr t p = Some f → bb_count mf = fn_bb_count f →
  0 ≤ j < bb_count mf → ∀ rest,
  bbindex_loop (functions_init_global_bbs t) (mf :: rest) j = Ret (first_index t p + j) ∧
  0 ≤ first_index t p + j < count_entries (entries t).
Proof.
  intros Ht Hmax Hg Hat Hc Hj rest. pose proof (first_index_range t p f Ht Hat) as Hr.
  cbn [bbindex_loop]. destruct (Z.ltb_spec j (bb_count mf)); [|lia]. rewrite Hg.
  pose proof (at_ptr_numbered t p f Hat) as Hn. unfold at_ptr in Hn. unfold get_function, get_entries.
  destruct (entries (functions_init_global_bbs t) !! p.1) as [l|]; [|done]. simpl in Hn |- *. rewrite Hn. simpl.
  destruct (Z.eqb_spec (fn_bb_count f) (bb_count mf)); [|lia].
  assert (Hlen : fn_bb_count f = Z.of_nat (length (fn_bbs f))).
  { unfold at_ptr in Hat. destruct (entries t !! p.1) as [l0|] eqn:Hl0; [|done]. simpl in Hat.
    pose proof (to_entry t Ht _ _ Hl0) as Hall. by pose proof (proj1 (Forall_lookup _ _) Hall _ _ Hat) as [_ _ _ ? _]. }
  destruct (lookup_lt_is_Some_2 (fn_bbs f) (Z.to_nat j) ltac:(lia)) as [b Hb].
  rewrite (number_bbs_lookup _ _ _ _ Hb). simpl. rewrite Z2Nat.id, s32_small by lia. split; [done|lia].
Qed.

Lemma bbindex_loop_skip t fs i mf j :
  Forall (λ f, 0 ≤ bb_count f) fs → fs !! i = Some mf → 0 ≤ j →
  bbindex_loop t fs (sum_of bb_count (take i fs) + j) = bbindex_loop t (mf :: drop (S i) fs) j.
Proof.
  revert i. induction fs as [|g fs IH]; intros i Hfs Hi Hj; [done|]. apply Forall_cons in Hfs as [Hg Hfs].
  destruct i as [|i]; simpl in Hi.
  { injection Hi as ->. simpl. done. }
  pose proof (sum_of_nonneg _ _ (Forall_take _ i _ Hfs)) as Hs.
  cbn [take sum_of foldr drop]. fold (sum_of bb_count (take i fs)).
  rewrite <- (IH i Hfs Hi Hj). cbn [bbindex_loop].
  destruct (Z.ltb_spec (bb_count g + sum_of bb_count (take i fs) + j) (bb_count g)); [lia|].
  replace (bb_count g + sum_of bb_count (take i fs) + j - bb_count g) with (sum_of bb_count (take i fs) + j) by lia.
  done.
Qed.

(** The block [j] of the function [i] of a module. *)
Definition module_block (m : module) (i j : nat) (mf : module_func) : Prop :=
  func_list m !! i = Some mf ∧ Z.of_nat j < bb_count mf.
Definition block_position (m : module) (i j : nat) : Z := sum_of bb_count (take i (func_list m)) + Z.of_nat j.

Lemma linked_counts t fs fs' : table_ok t → Forall2 (linked_func t) fs fs' → Forall (λ f, 0 ≤ bb_count f) fs'.
Proof.
  intros Ht. induction 1 as [|mf mf' fs fs' [(p & f & _ & Hat & _ & _ & Hc & _) _] _ IH]; constructor; [|done].
  rewrite Hc. pose proof (first_index_range t p f Ht Hat). unfold at_ptr in Hat.
  destruct (entries t !! p.1) as [l|] eqn:Hl; [|done]. simpl in Hat.
  pose proof (entry_counts t _ _ Ht Hl) as Hcs. by apply (proj1 (Forall_lookup _ _) Hcs p.2 f).
Qed.

Lemma module_block_number t m m' i j mf :
  table_ok t → count_entries (entries t) < 2^31 → linked_module t m m' → module_block m' i j mf →
  ∃ p f, at_ptr t p = Some f ∧ f_name mf = Some (fn_name' f) ∧ f_path mf = Some (fn_path' f) ∧ bb_count mf = fn_bb_count f ∧
    module_bbindex_to_global (functions_init_global_bbs t) m' (block_position m' i j) = Ret (first_index t p + Z.of_nat j) ∧
    0 ≤ first_index t p + Z.of_nat j < count_entries (entries t).
Proof.
  intros Ht Hmax (_ & _ & Hl) [Hi Hj]. pose proof (linked_counts _ _ _ Ht Hl) as Hcs.
  destruct (Forall2_lookup_r _ _ _ _ _ Hl Hi) as (mf0 & _ & (p & f & Hg & Hat & Hn & Hp & Hc & _) & _).
  destruct (block_number t mf (Z.of_nat j) p f Ht Hmax Hg Hat Hc ltac:(lia) (drop (S i) (func_list m'))) as [Hnum Hr].
  exists p, f. repeat (split; [done|]). split; [|done].
  unfold module_bbindex_to_global, block_position.
  pose proof (sum_of_nonneg _ _ (Forall_take _ i _ Hcs)). destruct (Z.leb_spec 0 (sum_of bb_count (take i (func_list m')) + Z.of_nat j)); [|lia].
  rewrite (bbindex_loop_skip _ _ i mf) by (done || lia). done.
Qed.

(** Numbers of blocks of linked modules. *)
Lemma same_number t m1 m1' i1 j1 f1 m2 m2' i2 j2 f2 :
  table_ok t → count_entries (entries t) < 2^31 →
  linked_module t m1' m1 → linked_module t m2' m2 → module_block m1 i1 j1 f1 → module_block m2 i2 j2 f2 →
  ∃ g1 g2, module_bbindex_to_global (functions_init_global_bbs t) m1 (block_position m1 i1 j1) = Ret g1 ∧
    module_bbindex_to_global (functions_init_global_bbs t) m2 (block_position m2 i2 j2) = Ret g2 ∧
    0 ≤ g1 < count_entries (entries t) ∧
    (g1 = g2 ↔ f_name f1 = f_name f2 ∧ f_path f1 = f_path f2 ∧ j1 = j2).
Proof.
  intros Ht Hmax Hl1 Hl2 Hb1 Hb2.
  destruct (module_block_number _ _ _ _ _ _ Ht Hmax Hl1 Hb1) as (p & f & Hat1 & Hn1 & Hp1 & Hc1 & Hg1 & Hr1).
  destruct (module_block_number _ _ _ _ _ _ Ht Hmax Hl2 Hb2) as (q & g & Hat2 & Hn2 & Hp2 & Hc2 & Hg2 & Hr2).
  do 2 eexists. split; [exact Hg1|]. split; [exact Hg2|]. split; [done|].
  destruct Hb1 as [_ Hj1], Hb2 as [_ Hj2]. rewrite Hn1, Hn2, Hp1, Hp2. destruct (decide (p = q)) as [<-|Hne].
  - rewrite Hat1 in Hat2. injection Hat2 as <-. split; [|naive_solver]. intros Heq. repeat split. lia.
  - split.
    + pose proof (first_index_disjoint t p q f g Ht Hat1 Hat2 Hne). lia.
    + intros ([= Hnn] & [= Hpp] & _). destruct Hne. eapply same_key_same_ptr; [done|exact Hat1|exact Hat2|].
      unfold key. congruence.
Qed.

(** Global block numbers identify blocks.  The function table of any list of
    modules is built, or the tool exits because a function differs between
    modules.  Every block of every module then has a global number below the
    number of global blocks, and two blocks, of the same or of different modules,
    have the same number exactly when they are at the same position of functions
    with the same name and path. *)
Theorem global_block_numbers ms :
  forallb module_ok ms = true → sum_of func_count ms ≤ 2^30 →
  match functions_build_table ms with
  | Stop e => e = FExit 1
  | Ret (t, ms') =>
      global_bb_count t < 2^31 →
      ∀ m1 i1 j1 f1 m2 i2 j2 f2,
        m1 ∈ ms' → m2 ∈ ms' → module_block m1 i1 j1 f1 → module_block m2 i2 j2 f2 →
        ∃ g1 g2, module_bbindex_to_global t m1 (block_position m1 i1 j1) = Ret g1 ∧
          module_bbindex_to_global t m2 (block_position m2 i2 j2) = Ret g2 ∧
          0 ≤ g1 < global_bb_count t ∧
          (g1 = g2 ↔ f_name f1 = f_name f2 ∧ f_path f1 = f_path f2 ∧ j1 = j2)
  end.
Proof.
  intros Hok Hsum. pose proof (build_table_spec ms Hok Hsum) as H.
  destruct (functions_build_table ms) as [[t ms']|]; [|done]. destruct H as (t0 & -> & Ht & Hl). simpl. intros Hmax.
  intros m1 i1 j1 f1 m2 i2 j2 f2 [k1 Hm1]%list_elem_of_lookup [k2 Hm2]%list_elem_of_lookup Hb1 Hb2.
  destruct (Forall2_lookup_r _ _ _ _ _ Hl Hm1) as (m1' & _ & Hl1).
  destruct (Forall2_lookup_r _ _ _ _ _ Hl Hm2) as (m2' & _ & Hl2).
  by eapply same_number.
Qed.

(** ** The interface for clients of the table

    What the table promises about the modules it was built from: each of their
    functions is found, and its blocks carry the numbers that
    [module_bbindex_to_global] gives the module's blocks. *)
Class indexes (t : function_hashtable) (ms : module_ll) : Prop := {
  ix_named : forallb named ms = true;
  ix_func : ∀ m i mf, m ∈ ms → func_list m !! i = Some mf →
    ∃ name path f, f_name mf = Some name ∧ f_path mf = Some path ∧ functions_find t name path = Ret (Some f) ∧
      global_func_index f = 0 ∧ bb_count mf = Z.of_nat (length (fn_bbs f)) ∧
      ∀ j b, fn_bbs f !! j = Some b →
        0 ≤ global_bb_index b < global_bb_count t ∧
        module_bbindex_to_global t m (block_position m i j) = Ret (global_bb_index b);
  ix_funcs : ∀ m, m ∈ ms → func_list m ≠ [] → 0 < global_func_count t;
  ix_same : ∀ m1 i1 j1 f1 m2 i2 j2 f2, m1 ∈ ms → m2 ∈ ms → module_block m1 i1 j1 f1 → module_block m2 i2 j2 f2 →
    ∃ g1 g2, module_bbindex_to_global t m1 (block_position m1 i1 j1) = Ret g1 ∧
      module_bbindex_to_global t m2 (block_position m2 i2 j2) = Ret g2 ∧ 0 ≤ g1 < global_bb_count t ∧
      (g1 = g2 ↔ f_name f1 = f_name f2 ∧ f_path f1 = f_path f2 ∧ j1 = j2);
}.

Lemma number_list_keys n l : key <$> number_list n l = key <$> l.
Proof. revert n. induction l as [|f l IH]; intros n; simpl; [done|]. by rewrite IH. Qed.

Lemma number_entries_inv n es b l' :
  number_entries n es !! b = Some l' → ∃ k l, es !! b = Some l ∧ l' = number_list k l.
Proof.
  revert n b. induction es as [|l es IH]; intros n b Hb; [done|]. destruct b as [|b]; simpl in *; [|by eapply IH].
  injection Hb as <-. eauto.
Qed.

Lemma length_number_entries n es : length (number_entries n es) = length es.
Proof. revert n. induction es; intros; simpl; auto. Qed.

(** Numbering keeps the table well formed. *)
Lemma numbered_ok t : table_ok t → table_ok (functions_init_global_bbs t).
Proof.
  intros Ht. split; simpl.
  - apply Ht.
  - by rewrite length_number_entries, (to_len t Ht).
  - intros b l' (k & l & Hl & ->)%number_entries_inv. pose proof (to_entry t Ht b l Hl) as Hall. clear Hl. revert k.
    induction Hall as [|f l Hf Hall IH]; intros k; simpl; constructor; [|done].
    destruct Hf. split; simpl; try done. by rewrite length_number_bbs.
  - intros b l' (k & l & Hl & ->)%number_entries_inv. rewrite number_list_keys. by apply (to_nodup t Ht b).
Qed.

Lemma concat_lookup_length {A} (ls : list (list A)) b l i x :
  ls !! b = Some l → l !! i = Some x → (0 < length (concat ls))%nat.
Proof.
  intros Hb Hi. assert (Hin : x ∈ concat ls).
  { apply list_elem_of_In, in_concat. exists l. split; apply list_elem_of_In; by eapply list_elem_of_lookup_2. }
  destruct (concat ls); [by apply not_elem_of_nil in Hin|]. simpl. lia.
Qed.

(** A built table keeps the promise. *)
Lemma build_table_indexes ms t ms' :
  forallb module_ok ms = true → forallb named ms = true → sum_of func_count ms ≤ 2^30 →
  functions_build_table ms = Ret (t, ms') → global_bb_count t < 2^31 → indexes t ms'.
Proof.
  intros Hok Hnamed Hsum Hbuild Hmax. pose proof (build_table_spec ms Hok Hsum) as H. rewrite Hbuild in H.
  destruct H as (t0 & -> & Ht & Hl). simpl in Hmax. split.
  - clear -Hl Hnamed. induction Hl as [|m m' ms ms' (Hn & _) _ IH]; [done|]. simpl in *.
    apply andb_true_iff in Hnamed as [Hm Hnamed]. unfold named in *. by rewrite Hn, Hm, IH.
  - intros m' i mf [k Hk]%list_elem_of_lookup Hi.
    destruct (Forall2_lookup_r _ _ _ _ _ Hl Hk) as (m & _ & Hlm).
    pose proof Hlm as (_ & _ & Hlf).
    destruct (Forall2_lookup_r _ _ _ _ _ Hlf Hi) as (mf0 & _ & (p & f & Hg & Hat & Hn & Hp & Hc & _) & _).
    pose proof (at_ptr_numbered t0 p f Hat) as Hatn.
    pose proof (functions_find_at _ p _ (numbered_ok t0 Ht) Hatn) as Hfind. simpl in Hfind.
    assert (Hent : entry_ok t0 p.1 f).
    { unfold at_ptr in Hat. destruct (entries t0 !! p.1) as [l0|] eqn:Hl0; [|done]. simpl in Hat.
      by apply (proj1 (Forall_lookup _ _) (to_entry t0 Ht _ _ Hl0) p.2). }
    do 3 eexists. split; [exact Hn|]. split; [exact Hp|]. split; [exact Hfind|]. simpl.
    split; [apply Hent|]. rewrite length_number_bbs, Hc. split; [apply Hent|].
    intros j b Hj. assert (Hlt : (j < length (fn_bbs f))%nat).
    { apply lookup_lt_Some in Hj. by rewrite length_number_bbs in Hj. }
    destruct (lookup_lt_is_Some_2 _ _ Hlt) as [b0 Hb0].
    rewrite (number_bbs_lookup _ _ _ _ Hb0) in Hj. injection Hj as <-.
    pose proof (first_index_range t0 p f Ht Hat) as Hr. pose proof (eo_count _ _ _ Hent) as Hec.
    fold (count_entries (entries t0)) in Hmax |- *. simpl. rewrite s32_small by lia.
    destruct (module_block_number t0 m m' i j mf Ht Hmax Hlm) as (q & g & Hatq & Hnq & Hpq & _ & Hidx & _).
    { split; [done|]. lia. }
    assert (q = p) as -> by (eapply same_key_same_ptr; [done|exact Hatq|exact Hat|]; unfold key; congruence).
    split; [lia|done].
  - intros m' [k Hk]%list_elem_of_lookup Hne. simpl.
    destruct (Forall2_lookup_r _ _ _ _ _ Hl Hk) as (m & _ & (_ & _ & Hlf)).
    destruct (func_list m') as [|mf fs] eqn:Hfs; [done|]. inversion Hlf as [|? ? ? ? [(p & f & _ & Hat & _) _] _]; subst.
    unfold at_ptr in Hat. destruct (entries t0 !! p.1) as [l0|] eqn:Hl0; [|done]. simpl in Hat.
    pose proof (concat_lookup_length _ _ _ _ _ Hl0 Hat). lia.
  - intros m1 i1 j1 f1 m2 i2 j2 f2 [k1 Hm1]%list_elem_of_lookup [k2 Hm2]%list_elem_of_lookup Hb1 Hb2.
    destruct (Forall2_lookup_r _ _ _ _ _ Hl Hm1) as (m1' & _ & Hl1).
    destruct (Forall2_lookup_r _ _ _ _ _ Hl Hm2) as (m2' & _ & Hl2). by eapply same_number.
Qed.

(** ** References

    The references of an entry lead to the modules' functions it stands for. *)
Definition refs_ok (ms : module_ll) (f : function) : Prop :=
  refs f ≠ [] ∧
  Forall (λ r, ∃ m mf, ms !! r.1 = Some m ∧ func_list m !! r.2 = Some mf ∧ f_name mf = Some (fn_name' f) ∧
                       f_path mf = Some (fn_path' f) ∧ bb_count mf = fn_bb_count f) (refs f).
Definition table_refs (ms : module_ll) (t : function_hashtable) : Prop := ∀ p f, at_ptr t p = Some f → refs_ok ms f.

Lemma refs_ok_snoc ms f f' r m mf :
  refs_ok ms f → key f' = key f → fn_bb_count f' = fn_bb_count f → refs f' = refs f ++ [r] →
  ms !! r.1 = Some m → func_list m !! r.2 = Some mf → f_name mf = Some (fn_name' f) → f_path mf = Some (fn_path' f) →
  bb_count mf = fn_bb_count f → refs_ok ms f'.
Proof.
  unfold refs_ok, key. intros [_ Hf] [= Hk1 Hk2] Hc Hr Hm Hmf Hn Hp Hcount. rewrite Hr, Hk1, Hk2, Hc.
  split; [by destruct (refs f)|]. apply Forall_app. split; [done|]. constructor; [|constructor]. by exists m, mf.
Qed.

Lemma drop_cons_lookup {A} (l : list A) i x r : x :: r = drop i l → l !! i = Some x ∧ r = drop (S i) l.
Proof.
  intros H. assert (Hx : l !! i = Some x) by (rewrite <- (Nat.add_0_r i), <- lookup_drop, <- H; done).
  split; [done|]. rewrite (drop_S _ _ _ Hx) in H. by injection H.
Qed.

Lemma add_function_refs ms t mi fi m mf t' mf' :
  table_ok t → table_refs ms t → func_ok mf = true → ms !! mi = Some m → func_list m !! fi = Some mf →
  functions_add_function t (mi, fi) mf = Ret (t', mf') → table_refs ms t'.
Proof.
  intros Ht Hrefs (name & path & Hn & Hp & Hpn & Hpp & Hc & Hg)%func_ok_spec Hm Hf. unfold functions_add_function.
  rewrite Hn, Hp, Hg. destruct (find_ptr_ok t name path Ht) as (l & Hl & ->). simpl.
  pose proof (to_entry t Ht _ _ Hl) as Hall. pose proof (find_entry_spec t _ l name path Hall Hpn Hpp) as Hfind.
  pose proof (lookup_lt_Some _ _ _ Hl) as Hb. set (i := find_entry name path l) in *.
  destruct (l !! i) as [f|] eqn:Hi.
  - pose proof (proj1 (Forall_lookup _ _) Hall i f Hi) as Hfo.
    pose proof (add_match_spec t _ f (mi, fi) name path mf Hfo Hfind Hn Hp Hc) as Hmatch.
    destruct (functions_add_function_match f (mi, fi) name path mf) as [f'|]; simpl; [|done].
    destruct Hmatch as ((Hk & Hcc & _) & (Hn' & Hp' & Hc' & _) & Hr). apply lookup_lt_Some in Hi as Hlt.
    rewrite decide_True by done. intros [= <- _] q g. rewrite at_ptr_put by done. case_decide as Hq; [|apply Hrefs].
    intros Hat. destruct (decide (q.2 = i)) as [Hqi|Hne].
    + rewrite Hqi, list_lookup_insert_eq in Hat by done. injection Hat as <-.
      assert (Hold : refs_ok ms f) by (apply (Hrefs (bucket t name path, i)); unfold at_ptr; simpl; by rewrite Hl).
      eapply refs_ok_snoc; [exact Hold|done|done|done|exact Hm|exact Hf| | |]; unfold key in Hk; congruence.
    + rewrite list_lookup_insert_ne in Hat by done. apply (Hrefs q). unfold at_ptr. by rewrite Hq, Hl.
  - destruct Hfind as [Hin Hlen].
    destruct (add_new_spec t (mi, fi) name path mf Hn Hp Hpn Hpp Hc) as (f & -> & Hk & (Hn' & Hp' & Hc' & _) & Hfo & Hr). simpl.
    rewrite decide_False by lia. intros [= <- _] q g. rewrite at_ptr_put by done. case_decide as Hq; [|apply Hrefs].
    intros Hat. apply lookup_app_Some in Hat as [Hat|[_ Hat]].
    + apply (Hrefs q). unfold at_ptr. by rewrite Hq, Hl.
    + apply list_lookup_singleton_Some in Hat as [_ <-]. unfold refs_ok. rewrite Hr. split; [done|]. constructor; [|constructor]. simpl. by exists m, mf.
Qed.

Lemma add_funcs_refs ms fs t mi fi m t' fs' :
  table_ok t → table_refs ms t → forallb func_ok fs = true → ms !! mi = Some m → fs = drop fi (func_list m) →
  functions_add_funcs t mi fi fs = Ret (t', fs') → table_refs ms t'.
Proof.
  revert t fi fs'. induction fs as [|mf fs IH]; intros t fi fs' Ht Hrefs Hok Hm Hfs; simpl; [by intros [= <- _]|].
  simpl in Hok. apply andb_true_iff in Hok as [Hmf Hok].
  destruct (drop_cons_lookup _ _ _ _ Hfs) as [Hi Hfs'].
  pose proof (add_function_spec t (mi, fi) mf Ht Hmf) as H1.
  destruct (functions_add_function t (mi, fi) mf) as [[t1 mf1]|] eqn:Hadd; simpl; [|done].
  destruct H1 as (Ht1 & _). pose proof (add_function_refs ms t mi fi m mf t1 mf1 Ht Hrefs Hmf Hm Hi Hadd) as Hr1.
  destruct (functions_add_funcs t1 mi (S fi) fs) as [[t2 fs2]|] eqn:Hrest; simpl; [|done]. intros [= <- _].
  eapply (IH t1 (S fi)); [done|done|done|done|exact Hfs'|exact Hrest].
Qed.

Lemma add_modules_refs ms rest t mi t' ms' :
  table_ok t → table_refs ms t → forallb module_ok rest = true → rest = drop mi ms →
  functions_add_modules t mi rest = Ret (t', ms') → table_refs ms t'.
Proof.
  revert t mi ms'. induction rest as [|m rest IH]; intros t mi ms' Ht Hrefs Hok Hrest; simpl; [by intros [= <- _]|].
  simpl in Hok. apply andb_true_iff in Hok as [Hm Hok]. apply andb_true_iff in Hm as [_ Hfs].
  destruct (drop_cons_lookup _ _ _ _ Hrest) as [Hi Hrest'].
  unfold functions_add_module. pose proof (add_funcs_spec (func_list m) t mi 0 Ht Hfs) as H1.
  destruct (functions_add_funcs t mi 0 (func_list m)) as [[t1 fs1]|] eqn:Hadd; simpl; [|done]. destruct H1 as (Ht1 & _).
  pose proof (add_funcs_refs ms (func_list m) t mi 0 m t1 fs1 Ht Hrefs Hfs Hi eq_refl Hadd) as Hr1.
  destruct (functions_add_modules t1 (S mi) rest) as [[t2 ms2]|] eqn:Hmods; simpl; [|done]. intros [= <- _].
  eapply (IH t1 (S mi)); [done|done|done|exact Hrest'|exact Hmods].
Qed.

Lemma empty_table_refs ms n e : table_refs ms {| entry_count := n; entries := replicate e []; global_bb_count := 0; global_func_count := 0 |}.
Proof.
  intros p f. unfold at_ptr. simpl. destruct (replicate e [] !! p.1) as [l|] eqn:Hl; [|done]. simpl.
  apply lookup_replicate in Hl as [-> _]. done.
Qed.

(** The functions of a built table refer to the modules it was built from. *)
Lemma build_table_refs ms t ms' f :
  forallb module_ok ms = true → sum_of func_count ms ≤ 2^30 →
  functions_build_table ms = Ret (t, ms') → f ∈ concat (entries t) →
  refs_ok ms f ∧ fn_bb_count f = Z.of_nat (length (fn_bbs f)).
Proof.
  intros Hok Hsum Hbuild Hf. pose proof (build_table_spec ms Hok Hsum) as Hspec. rewrite Hbuild in Hspec.
  destruct Hspec as (t0 & Ht & Ht0 & _). revert Hbuild. unfold functions_build_table.
  destruct (modules_count_functions ms) as [fc|]; [|done]. cbn [res_bind]. unfold round_up_to_2n.
  destruct (Z.leb_spec 0 fc); [|done].
  destruct (round_up_loop 32 1 fc) as [n|] eqn:Hn; [|done]. cbn [res_bind].
  destruct (functions_add_modules _ 0 ms) as [[t1 ms1]|] eqn:Hadd; [|done]. cbn [res_bind fst snd]. intros [= Ht' _].
  subst t. apply list_elem_of_In, in_concat in Hf as (l & Hl & Hf). apply list_elem_of_In, list_elem_of_lookup in Hl as [b Hb].
  apply list_elem_of_In, list_elem_of_lookup in Hf as [i Hi].
  assert (Hent : entry_ok (functions_init_global_bbs t0) b f).
  { pose proof (to_entry _ (numbered_ok t0 Ht0) b l Hb) as Hall. by apply (proj1 (Forall_lookup _ _) Hall i). }
  split; [|apply Hent]. rewrite <- Ht' in Hb. simpl in Hb.
  apply number_entries_inv in Hb as (k & l0 & Hl0 & ->).
  assert (Hi0 : is_Some (l0 !! i)).
  { apply lookup_lt_is_Some. apply lookup_lt_Some in Hi. rewrite <- (length_fmap key), number_list_keys, length_fmap in Hi. done. }
  destruct Hi0 as [f0 Hf0]. rewrite (number_list_lookup _ _ _ _ Hf0) in Hi. injection Hi as <-.
  assert (Hr : table_refs ms t1).
  { eapply (add_modules_refs ms ms _ 0); [|apply empty_table_refs|exact Hok|done|exact Hadd]. apply empty_table_ok.
    by apply (round_up_pos 32 1 fc). }
  assert (H0 : refs_ok ms f0) by (apply (Hr (b, i)); unfold at_ptr; simpl; by rewrite Hl0). exact H0.
Qed.

(** Two programs that share their functions. *)
Definition demo_modules : module_ll := [module_image "pm" demo_program; module_image "vfs" demo_program].
Definition demo_build : function_hashtable * module_ll :=
  ret_or ({| entry_count := 0; entries := []; global_bb_count := 0; global_func_count := 0 |}, [])
    (functions_build_table demo_modules).

Lemma demo_build_ok : functions_build_table demo_modules = Ret demo_build.
Proof. apply is_ret_or. vm_compute. reflexivity. Qed.

Lemma demo_indexes : indexes demo_build.1 demo_build.2.
Proof.
  apply (build_table_indexes demo_modules); [vm_compute; reflexivity|vm_compute; reflexivity|vm_compute; congruence| |vm_compute; reflexivity].
  rewrite demo_build_ok. by destruct demo_build.
Qed.

Lemma global_block_numbers_witness :
  match functions_build_table demo_modules with
  | Stop e => e = FExit 1
  | Ret (t, ms') =>
      global_bb_count t < 2^31 →
      ∀ m1 i1 j1 f1 m2 i2 j2 f2,
        m1 ∈ ms' → m2 ∈ ms' → module_block m1 i1 j1 f1 → module_block m2 i2 j2 f2 →
        ∃ g1 g2, module_bbindex_to_global t m1 (block_position m1 i1 j1) = Ret g1 ∧
          module_bbindex_to_global t m2 (block_position m2 i2 j2) = Ret g2 ∧
          0 ≤ g1 < global_bb_count t ∧
          (g1 = g2 ↔ f_name f1 = f_name f2 ∧ f_path f1 = f_path f2 ∧ j1 = j2)
  end.
Proof. apply (global_block_numbers demo_modules); [vm_compute; reflexivity | vm_compute; congruence]. Defined.
