(* ===== verification/LineCounter.v ===== *)
(** * Counting source lines: [hypermemloganalyze/common/linecounter.c]

    A hash table of the lines seen so far counts how many different lines are
    added; it implements the set of pairs of path and line number. *)

From Stdlib Require Import ZArith Lia Ascii String.
From stdpp Require Import base list numbers strings gmap.
From S2P Require Import Prelude Decimal Helper Module.

Definition LINECOUNTER_HASHTABLE_SIZE : Z := 65536.

(** The lists of the hash table, by index. *)
Record linecounter_state := { lc_count : Z; lc_hashtable : Z → list (string * Z) }.

Definition linecounter_init : linecounter_state := {| lc_count := 0; lc_hashtable := λ _, [] |}.

Fixpoint has_line (path : string) (line : Z) (l : list (string * Z)) : bool :=
  match l with
  | [] => false
  | e :: l' => if (strcmp e.1 path =? 0) && (e.2 =? line) then true else has_line path line l'
  end.

Definition linecounter_add (s : linecounter_state) (lp : linepath) : res linecounter_state :=
  match lp_path lp with
  | None => Ret s
  | Some path =>
      let i := lp_hash lp `mod` LINECOUNTER_HASHTABLE_SIZE in
      let l := lc_hashtable s i in
      if has_line path (lp_line lp) l then Ret s
      else
        let! n := chk32 (lc_count s + 1) in
        Ret {| lc_count := n;
               lc_hashtable := λ j, if j =? i then l ++ [(path, lp_line lp)] else lc_hashtable s j |}
  end.

(** [functions_get_coverage_lines] of [coverage.c] *)
Definition functions_get_coverage_lines (s : linecounter_state) (ls : list linepath) : res linecounter_state :=
  res_foldl linecounter_add s ls.

(** ** The set of lines *)

(** Lines of loaded modules: the hash depends on path and line only. *)
Definition line_ok (lp : linepath) : bool :=
  match lp_path lp with
  | Some p => plain p && (lp_hash lp =? u64 (hashstr p + lp_line lp))
  | None => false
  end.

Definition line_key (lp : linepath) : string * Z := (default "" (lp_path lp), lp_line lp).
Definition lines_set (ls : list linepath) : gset (string * Z) := list_to_set (line_key <$> ls).

Definition slot (k : string * Z) : Z := u64 (hashstr k.1 + k.2) `mod` LINECOUNTER_HASHTABLE_SIZE.

(** The table holds exactly the keys of [X], each in its slot, and counts them. *)
Record counts (s : linecounter_state) (X : gset (string * Z)) : Prop := {
  ct_elem : ∀ i k, k ∈ lc_hashtable s i ↔ k ∈ X ∧ slot k = i;
  ct_plain : ∀ k, k ∈ X → plain k.1 = true;
  ct_count : lc_count s = Z.of_nat (size X);
}.

Lemma counts_init : counts linecounter_init ∅.
Proof.
  split; [|set_solver|by rewrite size_empty]. intros i k. simpl. rewrite elem_of_nil, elem_of_empty. tauto.
Qed.

Lemma has_line_spec path line l :
  plain path = true → Forall (λ e, plain e.1 = true) l → has_line path line l = bool_decide ((path, line) ∈ l).
Proof.
  intros Hp Hl. induction Hl as [|[p n] l He Hl IH]; simpl; [done|].
  rewrite strcmp_eqb, IH by done. apply eq_true_iff_eq. rewrite bool_decide_eq_true, elem_of_cons.
  case_match eqn:Hm.
  - apply andb_true_iff in Hm as [?%bool_decide_eq_true ?%Z.eqb_eq]. simpl in *. naive_solver.
  - rewrite bool_decide_eq_true. split; [auto|]. intros [[= -> ->]|]; [|done].
    rewrite bool_decide_true, Z.eqb_refl in Hm by done. done.
Qed.

Lemma linecounter_add_counts s X lp :
  counts s X → line_ok lp = true → Z.of_nat (size X) < 2^31 - 1 →
  ∃ s', linecounter_add s lp = Ret s' ∧ counts s' ({[line_key lp]} ∪ X).
Proof.
  intros [Helem Hplain Hcount] Hok Hmax. unfold line_ok in Hok. unfold linecounter_add, line_key.
  destruct (lp_path lp) as [p|]; [|done]. simpl default. apply andb_true_iff in Hok as [Hp Hh]. apply Z.eqb_eq in Hh.
  assert (Hslot : lp_hash lp `mod` LINECOUNTER_HASHTABLE_SIZE = slot (p, lp_line lp)) by (by rewrite Hh).
  rewrite Hslot, has_line_spec; [|done|].
  2:{ apply Forall_forall. intros k [Hk _]%Helem. by apply Hplain. }
  case_bool_decide as Hin.
  - apply Helem in Hin as [Hin _]. exists s. split; [done|].
    replace ({[(p, lp_line lp)]} ∪ X) with X by set_solver. done.
  - assert (Hnew : (p, lp_line lp) ∉ X) by (intros ?; apply Hin, Helem; done).
    rewrite chk32_ok by lia. cbn [res_bind]. eexists. split; [done|]. split; simpl.
    + intros i k. destruct (Z.eqb_spec i (slot (p, lp_line lp))) as [->|Hi].
      * rewrite elem_of_app, list_elem_of_singleton, Helem. set_solver.
      * rewrite Helem. set_solver.
    + intros k [->%elem_of_singleton|Hk]%elem_of_union; [done|auto].
    + rewrite size_union, size_singleton by set_solver. lia.
Qed.

Lemma get_lines_counts s X ls :
  counts s X → forallb line_ok ls = true → Z.of_nat (size X) + Z.of_nat (length ls) < 2^31 →
  ∃ s', functions_get_coverage_lines s ls = Ret s' ∧ counts s' (X ∪ lines_set ls).
Proof.
  revert s X. unfold functions_get_coverage_lines, lines_set.
  induction ls as [|lp ls IH]; intros s X Hs Hok Hmax; simpl.
  { exists s. split; [done|]. by rewrite union_empty_r_L. }
  simpl in Hok, Hmax. apply andb_true_iff in Hok as [Hlp Hok].
  destruct (linecounter_add_counts s X lp Hs Hlp ltac:(lia)) as (s1 & -> & Hs1). cbn [res_bind].
  destruct (IH s1 ({[line_key lp]} ∪ X) Hs1 Hok) as (s' & Hs' & Hc).
  { rewrite size_union_alt, size_singleton. pose proof (subseteq_size (X ∖ {[line_key lp]}) X ltac:(set_solver)). lia. }
  exists s'. split; [done|]. by rewrite (assoc_L (∪)), (comm_L (∪) X).
Qed.

(** The line counter counts different lines: however often and in whatever
    order lines are added, hash collisions included, the count is the number of
    different pairs of path and line number. *)
Theorem linecounter_counts_lines ls :
  forallb line_ok ls = true → Z.of_nat (length ls) < 2^31 →
  ∃ s, functions_get_coverage_lines linecounter_init ls = Ret s ∧ lc_count s = Z.of_nat (size (lines_set ls)).
Proof.
  intros Hok Hmax. destruct (get_lines_counts linecounter_init ∅ ls counts_init Hok) as (s & Hs & Hc).
  { rewrite size_empty. lia. }
  exists s. split; [done|]. rewrite (ct_count _ _ Hc). by rewrite union_empty_l_L.
Qed.

Lemma linecounter_counts_lines_witness :
  ∃ s, functions_get_coverage_lines linecounter_init
    [{| lp_path := Some "a.c"; lp_pathFixed := None; lp_line := 1; lp_hash := u64 (hashstr "a.c" + 1) |};
     {| lp_path := Some "a.c"; lp_pathFixed := None; lp_line := 2; lp_hash := u64 (hashstr "a.c" + 2) |};
     {| lp_path := Some "a.c"; lp_pathFixed := None; lp_line := 1; lp_hash := u64 (hashstr "a.c" + 1) |}] = Ret s ∧
    lc_count s = 2.
Proof.
  refine (linecounter_counts_lines
    [{| lp_path := Some "a.c"; lp_pathFixed := None; lp_line := 1; lp_hash := u64 (hashstr "a.c" + 1) |};
     {| lp_path := Some "a.c"; lp_pathFixed := None; lp_line := 2; lp_hash := u64 (hashstr "a.c" + 2) |};
     {| lp_path := Some "a.c"; lp_pathFixed := None; lp_line := 1; lp_hash := u64 (hashstr "a.c" + 1) |}] _ _);
    [reflexivity | simpl; lia].
Defined.
