(* ===== verification/Coverage.v ===== *)
(** * Coverage: [hypermemloganalyze/common/coverage.c]

    The execution counts of runs, one list per module, are added up per global
    block; statistics over functions, blocks, instructions, faults and source
    lines are computed from the sums. *)

From Stdlib Require Import ZArith Lia Ascii String.
From stdpp Require Import base list numbers strings gmap.
From S2P Require Import Prelude Decimal ExecCounts Helper Module Function LineCounter.

(** ** Data *)

(** The arrays are [None] when [CALLOC] had nothing to allocate. *)
Record coverage_per_bb := {
  functions : function_hashtable;
  cov_bbs : option (list Z);
  cov_funcs : option (list Z);
  cov_modules : module_ll;
}.

Definition coverage_init (t : function_hashtable) : coverage_per_bb :=
  {| functions := t; cov_bbs := calloc (global_bb_count t) 0; cov_funcs := calloc (global_func_count t) 0;
     cov_modules := [] |}.

(** ** Adding execution counts *)

Definition is_null {A} (p : option A) : bool := match p with Some _ => false | None => true end.

(** [coverage->bbs[i] += ec]; an [int] index compared with a [size_t]. *)
Definition add_count (c : coverage_per_bb) (i ec : Z) : res coverage_per_bb :=
  assert! (u64 i <? global_bb_count (functions c)) in
  match cov_bbs c with
  | None => Stop FNull
  | Some l =>
      match l !! Z.to_nat i with
      | None => Stop FBounds
      | Some n => Ret {| functions := functions c; cov_bbs := Some (<[Z.to_nat i := u64 (n + ec)]> l);
                         cov_funcs := cov_funcs c; cov_modules := cov_modules c |}
      end
  end.

(** The loop over the blocks of a function; also whether one was executed. *)
Fixpoint add_blocks (c : coverage_per_bb) (module_bb_count : Z) (module_bbs : list Z) (bb_index : Z) (covered : bool)
    (bl : list function_bb) : res (coverage_per_bb * Z * bool) :=
  match bl with
  | [] => Ret (c, bb_index, covered)
  | b :: bl' =>
      let! r := if bb_index <? module_bb_count then
                  match module_bbs !! Z.to_nat bb_index with
                  | None => Stop FBounds
                  | Some ec => let! c := add_count c (global_bb_index b) ec in Ret (c, covered || (0 <? ec))
                  end
                else Ret (c, covered) in
      let! bb_index := chk32 (bb_index + 1) in
      add_blocks r.1 module_bb_count module_bbs bb_index r.2 bl'
  end.

Definition coverage_add_execcount_function (c : coverage_per_bb) (f : function) (module_bb_count : Z)
    (module_bbs : list Z) (bb_index : Z) : res (coverage_per_bb * Z) :=
  assert! (negb (is_null (cov_bbs c))) in
  assert! (negb (is_null (cov_funcs c))) in
  let! r := add_blocks c module_bb_count module_bbs bb_index false (fn_bbs f) in
  let '(c, bb_index, covered) := r in
  if covered then
    assert! (u64 (global_func_index f) <? global_func_count (functions c)) in
    match cov_funcs c with
    | None => Stop FNull
    | Some l =>
        if (length l <=? Z.to_nat (global_func_index f))%nat then Stop FBounds
        else Ret ({| functions := functions c; cov_bbs := cov_bbs c;
                     cov_funcs := Some (<[Z.to_nat (global_func_index f) := 1]> l); cov_modules := cov_modules c |}, bb_index)
    end
  else Ret (c, bb_index).

Definition coverage_add_module_to_list (c : coverage_per_bb) (m : module) : res coverage_per_bb :=
  match m_name m with
  | None => Stop FAssert
  | Some name =>
      let! found := module_find (cov_modules c) name in
      match found with
      | Some _ => Ret c
      | None => Ret {| functions := functions c; cov_bbs := cov_bbs c; cov_funcs := cov_funcs c;
                       cov_modules := m :: cov_modules c |}
      end
  end.

Fixpoint add_functions (c : coverage_per_bb) (module_bb_count : Z) (module_bbs : list Z) (bb_index : Z)
    (fs : list module_func) : res (coverage_per_bb * Z) :=
  match fs with
  | [] => Ret (c, bb_index)
  | mf :: fs' =>
      match f_name mf, f_path mf with
      | Some name, Some path =>
          let! found := functions_find (functions c) name path in
          match found with
          | None => Stop (FExit (-1))
          | Some f =>
              let! r := coverage_add_execcount_function c f module_bb_count module_bbs bb_index in
              add_functions r.1 module_bb_count module_bbs r.2 fs'
          end
      | _, _ => Stop FAssert
      end
  end.

(** [module_bbs] is [NULL] when there are no counts. *)
Definition coverage_add_execcount_module (c : coverage_per_bb) (m : module) (module_bbs : list Z) : res coverage_per_bb :=
  let module_bb_count := Z.of_nat (length module_bbs) in
  assert! (negb (module_bb_count =? 0)) in
  let! c := coverage_add_module_to_list c m in
  let! r := add_functions c module_bb_count module_bbs 0 (func_list m) in
  if negb (r.2 =? module_bb_count) then Stop (FExit 1) else Ret r.1.

Definition coverage_add_execcount_module_ec (c : coverage_per_bb) (ec : module_execcount) (m : module) : res coverage_per_bb :=
  match m_name m with
  | None => Stop FNull
  | Some n =>
      assert! (negb (length (ExecCounts.bbs ec) =? 0)%nat) in
      assert! (strcmp n (ExecCounts.name ec) =? 0) in
      coverage_add_execcount_module c m (ExecCounts.bbs ec)
  end.

Fixpoint coverage_add_execcount_list (c : coverage_per_bb) (ecs : list module_execcount) (ms : module_ll) : res coverage_per_bb :=
  match ecs with
  | [] => Ret c
  | ec :: ecs' =>
      let! found := module_find ms (ExecCounts.name ec) in
      let! c := match found with
                | Some m => coverage_add_execcount_module_ec c ec m
                | None => Ret c
                end in
      coverage_add_execcount_list c ecs' ms
  end.

(** ** Reading the coverage *)

Definition coverage_get_bb (c : coverage_per_bb) (b : function_bb) : res Z :=
  assert! (u64 (global_bb_index b) <? global_bb_count (functions c)) in
  match cov_bbs c with
  | None => Stop FNull
  | Some l => match l !! Z.to_nat (global_bb_index b) with Some n => Ret n | None => Stop FBounds end
  end.

Definition coverage_get_func (c : coverage_per_bb) (f : function) : res Z :=
  match cov_funcs c with
  | None => Stop FNull
  | Some l => match l !! Z.to_nat (global_func_index f) with Some n => Ret n | None => Stop FBounds end
  end.

Definition module_is_used (c : coverage_per_bb) (m : module) : res bool :=
  match m_name m with
  | None => Stop FAssert
  | Some n => let! r := module_find (cov_modules c) n in Ret (negb (is_null r))
  end.

(** A function is referenced by at least one module. *)
Fixpoint ref_is_used (c : coverage_per_bb) (ms : module_ll) (rs : list (nat * nat)) : res bool :=
  match rs with
  | [] => Ret false
  | r :: rs' =>
      match ms !! r.1 with
      | None => Stop FBounds
      | Some m => let! u := module_is_used c m in if u then Ret true else ref_is_used c ms rs'
      end
  end.
Definition function_is_in_used_module (c : coverage_per_bb) (ms : module_ll) (f : function) : res bool :=
  ref_is_used c ms (refs f).

(** ** What the counts mean *)

(** The executions of global block [g] that the counts [ecs] of module [m] report
    at the module's block [k]. *)
Definition hit (t : function_hashtable) (m : module) (ecs : list Z) (g : Z) (k : nat) : Z :=
  match ecs !! k with
  | Some ec => if decide (module_bbindex_to_global t m (Z.of_nat k) = Ret g) then ec else 0
  | None => 0
  end.
Definition hits (t : function_hashtable) (m : module) (ecs : list Z) (g : Z) (a n : nat) : Z :=
  sum_of (hit t m ecs g) (seq a n).

Definition lookup_module (ms : module_ll) (name : string) : option module :=
  list_find (λ m, m_name m = Some name) ms ≫= λ r, Some r.2.

Definition module_size (m : module) : Z := sum_of bb_count (func_list m).

(** All reported executions of a global block. *)
Definition reported (t : function_hashtable) (ms : module_ll) (ecs : list module_execcount) (g : Z) : Z :=
  sum_of (λ ec, match lookup_module ms (ExecCounts.name ec) with
                | Some m => hits t m (ExecCounts.bbs ec) g 0 (length (ExecCounts.bbs ec))
                | None => 0
                end) ecs.

Definition sizes_agree (ms : module_ll) (ec : module_execcount) : bool :=
  match lookup_module ms (ExecCounts.name ec) with
  | Some m => module_size m =? Z.of_nat (length (ExecCounts.bbs ec))
  | None => true
  end.

Lemma u64_add x y : u64 (u64 x + y) = u64 (x + y).
Proof. unfold u64. by rewrite Z.add_mod_idemp_l. Qed.

Section Adding.
Context (t : function_hashtable) (ms : module_ll) `{Hix : !indexes t ms}.
Hypothesis Hglobal : 0 < global_bb_count t < 2^31.
Hypothesis Hfcount : 0 ≤ global_func_count t < 2^31.

(** The state between two additions: the sums so far are [F], modulo 2^64; of
    the functions' marks only the first can be set. *)
Record adds_up (c : coverage_per_bb) (F : Z → Z) : Prop := {
  au_table : functions c = t;
  au_bbs : ∃ l, cov_bbs c = Some l ∧ length l = Z.to_nat (global_bb_count t) ∧
    ∀ g, 0 ≤ g < global_bb_count t → l !! Z.to_nat g = Some (u64 (F g));
  au_funcs : match cov_funcs c with
             | Some fl => length fl = Z.to_nat (global_func_count t) ∧ ∀ i, (0 < i < length fl)%nat → fl !! i = Some 0
             | None => global_func_count t = 0
             end;
  au_modules : forallb named (cov_modules c) = true;
}.

Lemma adds_up_ext c F G : (∀ g, F g = G g) → adds_up c F → adds_up c G.
Proof.
  intros HFG [Ht (l & Hl & Hlen & Hg) Hf Hm]. split; try done. exists l. split; [done|]. split; [done|].
  intros g Hr. by rewrite <- HFG, Hg.
Qed.

Lemma add_count_spec c F i ec :
  adds_up c F → 0 ≤ i < global_bb_count t →
  ∃ c', add_count c i ec = Ret c' ∧ adds_up c' (λ g, F g + if decide (g = i) then ec else 0) ∧ cov_funcs c' = cov_funcs c.
Proof.
  intros [Ht (l & Hl & Hlen & Hg) Hf Hm] Hi. unfold add_count. rewrite Ht, u64_small by lia.
  destruct (Z.ltb_spec i (global_bb_count t)); [|lia]. rewrite Hl, Hg by done.
  eexists. split; [done|]. split; [|done]. split; simpl; try done.
  eexists. split; [done|]. split; [by rewrite length_insert|]. intros g Hgr. rewrite u64_add.
  case_decide as Hgi.
  - subst. by rewrite list_lookup_insert_eq by lia.
  - rewrite list_lookup_insert_ne by lia. rewrite Hg by done. by rewrite Z.add_0_r.
Qed.

Lemma hit_some m ecs g k ec gi :
  ecs !! k = Some ec → module_bbindex_to_global t m (Z.of_nat k) = Ret gi →
  hit t m ecs g k = if decide (g = gi) then ec else 0.
Proof.
  intros He Hk. unfold hit. rewrite He, Hk. destruct (decide (g = gi)) as [->|Hne].
  - by rewrite decide_True.
  - rewrite decide_False by congruence. done.
Qed.

(** The blocks of a function from block [j] on, which stand at [a] in the module. *)
Lemma add_blocks_spec m ecs bl c F a covered :
  adds_up c F → Z.of_nat (a + length bl) < 2^31 →
  (∀ j b, bl !! j = Some b → 0 ≤ global_bb_index b < global_bb_count t ∧
     module_bbindex_to_global t m (Z.of_nat (a + j)) = Ret (global_bb_index b)) →
  ∃ c' cov', add_blocks c (Z.of_nat (length ecs)) ecs (Z.of_nat a) covered bl =
      Ret (c', Z.of_nat (a + length bl), cov') ∧
    adds_up c' (λ g, F g + hits t m ecs g a (length bl)) ∧ cov_funcs c' = cov_funcs c.
Proof.
  revert c F a covered. induction bl as [|b bl IH]; intros c F a covered Hc Hmax Hb.
  { exists c, covered. rewrite Nat.add_0_r. split; [done|]. split; [|done].
    eapply adds_up_ext; [|exact Hc]. intros g. unfold hits. simpl. lia. }
  destruct (Hb 0%nat b eq_refl) as [Hr Hidx]. rewrite Nat.add_0_r in Hidx. cbn [add_blocks].
  assert (Hstep : ∃ c1 cov1,
    (if Z.of_nat a <? Z.of_nat (length ecs) then
       match ecs !! Z.to_nat (Z.of_nat a) with
       | None => Stop FBounds
       | Some ec => let! c := add_count c (global_bb_index b) ec in Ret (c, covered || (0 <? ec))
       end
     else Ret (c, covered)) = Ret (c1, cov1) ∧
    adds_up c1 (λ g, F g + hit t m ecs g a) ∧ cov_funcs c1 = cov_funcs c).
  { rewrite Nat2Z.id. destruct (Z.ltb_spec (Z.of_nat a) (Z.of_nat (length ecs))).
    - destruct (lookup_lt_is_Some_2 ecs a ltac:(lia)) as [ec Hec]. rewrite Hec.
      destruct (add_count_spec c F (global_bb_index b) ec Hc Hr) as (c1 & -> & Hc1 & Hf1). cbn [res_bind].
      do 2 eexists. split; [done|]. split; [|done]. eapply adds_up_ext; [|exact Hc1].
      intros g. by rewrite (hit_some m ecs g a ec _ Hec Hidx).
    - do 2 eexists. split; [done|]. split; [|done]. eapply adds_up_ext; [|exact Hc]. intros g. unfold hit.
      rewrite lookup_ge_None_2 by lia. lia. }
  destruct Hstep as (c1 & cov1 & -> & Hc1 & Hf1). cbn [res_bind fst snd]. simpl in Hmax. rewrite chk32_ok by lia.
  cbn [res_bind]. replace (Z.of_nat a + 1) with (Z.of_nat (S a)) by lia.
  destruct (IH c1 _ (S a) cov1 Hc1) as (c' & cov' & Hrun & Hc' & Hf'); [lia| |].
  { intros j x Hj. replace (S a + j)%nat with (a + S j)%nat by lia. by apply Hb. }
  exists c', cov'. rewrite Hrun. replace (S a + length bl)%nat with (a + length (b :: bl))%nat by (simpl; lia).
  split; [done|]. split; [|congruence]. eapply adds_up_ext; [|exact Hc'].
  intros g. unfold hits. cbn [length seq sum_of foldr]. fold (sum_of (hit t m ecs g) (seq (S a) (length bl))). lia.
Qed.

Lemma add_function_counts m ecs f c F a :
  adds_up c F → 0 < global_func_count t → global_func_index f = 0 → Z.of_nat (a + length (fn_bbs f)) < 2^31 →
  (∀ j b, fn_bbs f !! j = Some b → 0 ≤ global_bb_index b < global_bb_count t ∧
     module_bbindex_to_global t m (Z.of_nat (a + j)) = Ret (global_bb_index b)) →
  ∃ c', coverage_add_execcount_function c f (Z.of_nat (length ecs)) ecs (Z.of_nat a) =
      Ret (c', Z.of_nat (a + length (fn_bbs f))) ∧
    adds_up c' (λ g, F g + hits t m ecs g a (length (fn_bbs f))).
Proof.
  intros Hc Hpos Hi Hmax Hb. destruct (add_blocks_spec m ecs (fn_bbs f) c F a false Hc Hmax Hb) as (c1 & cov & Hrun & Hc1 & Hf1).
  unfold coverage_add_execcount_function. pose proof (au_bbs c F Hc) as (l & Hl & _). rewrite Hl. cbn [is_null negb].
  pose proof (au_funcs c F Hc) as Hfl. destruct (cov_funcs c) as [fl|] eqn:Hcf; [|lia]. cbn [is_null negb].
  rewrite Hrun. cbn [res_bind]. destruct cov; [|by eauto].
  rewrite Hi, (au_table _ _ Hc1), Hf1. change (u64 0) with 0. destruct (Z.ltb_spec 0 (global_func_count t)); [|lia].
  destruct Hfl as [Hlen Hz]. change (Z.to_nat 0) with 0%nat. destruct (Nat.leb_spec (length fl) 0); [lia|].
  eexists. split; [done|]. destruct Hc1 as [Ht1 Hb1 _ Hm1]. split; simpl; try done.
  rewrite length_insert. split; [done|]. intros i Hii. rewrite list_lookup_insert_ne by lia. by apply Hz.
Qed.

Lemma counts_nonneg m : m ∈ ms → Forall (λ f, 0 ≤ bb_count f) (func_list m).
Proof.
  intros Hm. apply Forall_lookup. intros i mf Hi.
  destruct (ix_func m i mf Hm Hi) as (name & path & f & _ & _ & _ & _ & -> & _). lia.
Qed.

Lemma module_size_nonneg m : m ∈ ms → 0 ≤ module_size m.
Proof. intros Hm. by apply sum_of_nonneg, counts_nonneg. Qed.

Lemma named_elem m : m ∈ ms → named m = true.
Proof. intros Hm%list_elem_of_In. pose proof ix_named as H. rewrite forallb_forall in H. by apply H. Qed.

(** The functions of a module from function [i] on. *)
Lemma add_functions_spec m ecs fs i c F :
  m ∈ ms → fs = drop i (func_list m) → module_size m < 2^31 → adds_up c F →
  let a := Z.to_nat (sum_of bb_count (take i (func_list m))) in
  ∃ c' n, add_functions c (Z.of_nat (length ecs)) ecs (Z.of_nat a) fs = Ret (c', Z.of_nat (a + n)) ∧
    Z.of_nat (a + n) = module_size m ∧ adds_up c' (λ g, F g + hits t m ecs g a n).
Proof.
  intros Hm. revert i c F. induction fs as [|mf fs IH]; intros i c F Hfs Hsize Hc a.
  { exists c, 0%nat. rewrite Nat.add_0_r. split; [done|].
    assert (Ha : take i (func_list m) = func_list m).
    { apply take_ge. assert (length (drop i (func_list m)) = 0%nat) by (by rewrite <- Hfs). rewrite length_drop in *. lia. }
    split.
    - unfold a. rewrite Ha. fold (module_size m). pose proof (module_size_nonneg m Hm). lia.
    - eapply adds_up_ext; [|exact Hc]. intros g. unfold hits. simpl. lia. }
  assert (Hi : func_list m !! i = Some mf) by (rewrite <- (Nat.add_0_r i), <- lookup_drop, <- Hfs; done).
  destruct (ix_func m i mf Hm Hi) as (name & path & f & Hn & Hp & Hfind & Hidx & Hcount & Hblocks).
  pose proof (counts_nonneg m Hm) as Hnn.
  pose proof (sum_of_nonneg _ _ (Forall_take _ i _ Hnn)) as Hpre.
  pose proof (sum_of_take bb_count (func_list m) i (S i) mf Hnn Hi ltac:(lia)) as Hsum. fold (module_size m) in Hsum.
  assert (HS : sum_of bb_count (take (S i) (func_list m)) = sum_of bb_count (take i (func_list m)) + bb_count mf).
  { rewrite (take_S_r _ _ _ Hi), sum_of_app. simpl. lia. }
  destruct (add_function_counts m ecs f c F a Hc) as (c1 & Hrun & Hc1).
  { apply (ix_funcs m Hm). intros Heq. by rewrite Heq in Hi. }
  { done. }
  { unfold a. lia. }
  { intros j b Hj. destruct (Hblocks j b Hj) as [Hr Hg]. split; [done|].
    unfold block_position in Hg. rewrite <- Hg. f_equal. unfold a. lia. }
  assert (Hdrop : fs = drop (S i) (func_list m)) by (rewrite (drop_S _ _ _ Hi) in Hfs; by injection Hfs).
  destruct (IH (S i) c1 _ Hdrop Hsize Hc1) as (c' & n & Hrun' & Hn' & Hc').
  assert (Ha : Z.to_nat (sum_of bb_count (take (S i) (func_list m))) = (a + length (fn_bbs f))%nat) by (unfold a; lia).
  rewrite Ha in Hrun', Hn', Hc'. exists c', (length (fn_bbs f) + n)%nat. rewrite Nat.add_assoc.
  cbn [add_functions]. rewrite Hn, Hp, (au_table _ _ Hc), Hfind. cbn [res_bind]. rewrite Hrun. cbn [res_bind fst snd].
  split; [done|]. split; [done|]. eapply adds_up_ext; [|exact Hc'].
  intros g. unfold hits. rewrite seq_app, sum_of_app. lia.
Qed.

Lemma add_module_spec m ecs c F :
  m ∈ ms → module_size m < 2^31 → ecs ≠ [] → adds_up c F →
  if module_size m =? Z.of_nat (length ecs) then
    ∃ c', coverage_add_execcount_module c m ecs = Ret c' ∧ adds_up c' (λ g, F g + hits t m ecs g 0 (length ecs))
  else coverage_add_execcount_module c m ecs = Stop (FExit 1).
Proof.
  intros Hm Hsize Hne Hc. unfold coverage_add_execcount_module.
  destruct (Z.eqb_spec (Z.of_nat (length ecs)) 0) as [|_]; [by destruct ecs|]. cbn [negb].
  assert (Hlist : ∃ c1, coverage_add_module_to_list c m = Ret c1 ∧ adds_up c1 F).
  { unfold coverage_add_module_to_list. pose proof (named_elem m Hm) as Hnm.
    unfold named in Hnm. destruct (m_name m) as [nm|] eqn:Hmn; [|done].
    rewrite module_find_spec by (done || apply Hc). cbn [res_bind].
    destruct (list_find _ (cov_modules c)) as [[? ?]|]; simpl; [by eauto|]. eexists. split; [done|].
    destruct Hc as [Ht Hb Hf Hms]. split; simpl; try done. unfold named. by rewrite Hmn, Hnm. }
  destruct Hlist as (c1 & -> & Hc1). cbn [res_bind].
  destruct (add_functions_spec m ecs (func_list m) 0 c1 F Hm eq_refl Hsize Hc1) as (c' & n & Hrun & Hn & Hc').
  change (Z.to_nat (sum_of bb_count (take 0 (func_list m)))) with 0%nat in *.
  change (0 + n)%nat with n in *.
  change (Z.of_nat 0) with 0 in Hrun. rewrite Hrun. cbn [res_bind snd fst]. rewrite Hn.
  destruct (Z.eqb_spec (module_size m) (Z.of_nat (length ecs))) as [Heq|Hneq]; [|done]. cbn [negb].
  exists c'. split; [done|]. by replace (length ecs) with n by lia.
Qed.

Lemma lookup_module_elem name m : lookup_module ms name = Some m → m ∈ ms ∧ m_name m = Some name.
Proof.
  unfold lookup_module. destruct (list_find _ ms) as [[i x]|] eqn:Hf; [|done]. simpl. intros [= ->].
  apply list_find_Some in Hf as (Hi & Hn & _). split; [by eapply list_elem_of_lookup_2|done].
Qed.

Lemma add_list_spec ecs c F :
  (∀ m, m ∈ ms → module_size m < 2^31) →
  forallb (λ ec, plain (ExecCounts.name ec) && negb (length (ExecCounts.bbs ec) =? 0)%nat) ecs = true →
  adds_up c F →
  if forallb (sizes_agree ms) ecs then
    ∃ c', coverage_add_execcount_list c ecs ms = Ret c' ∧ adds_up c' (λ g, F g + reported t ms ecs g)
  else coverage_add_execcount_list c ecs ms = Stop (FExit 1).
Proof.
  intros Hsizes. revert c F. induction ecs as [|ec ecs IH]; intros c F Hok Hc.
  { simpl. exists c. split; [done|]. eapply adds_up_ext; [|exact Hc]. intros g. unfold reported. simpl. lia. }
  cbn [forallb] in Hok |- *. rewrite !andb_true_iff, negb_true_iff, Nat.eqb_neq in Hok. destruct Hok as [[Hpl Hne] Hok].
  cbn [coverage_add_execcount_list]. rewrite module_find_spec by (done || apply ix_named). cbn [res_bind].
  fold (lookup_module ms (ExecCounts.name ec)). unfold sizes_agree at 1.
  destruct (lookup_module ms (ExecCounts.name ec)) as [m|] eqn:Hlook; cycle 1.
  { cbn [res_bind andb]. specialize (IH c F Hok Hc). destruct (forallb (sizes_agree ms) ecs); [|done].
    destruct IH as (c' & Hrun & Hc'). exists c'. split; [done|]. eapply adds_up_ext; [|exact Hc'].
    intros g. unfold reported. simpl. rewrite Hlook. lia. }
  destruct (lookup_module_elem _ _ Hlook) as [Hm Hmn]. unfold coverage_add_execcount_module_ec. rewrite Hmn.
  destruct (Nat.eqb_spec (length (ExecCounts.bbs ec)) 0); [done|]. cbn [negb]. rewrite strcmp_refl. cbn [Z.eqb].
  assert (Hne' : ExecCounts.bbs ec ≠ []) by (by intros Heq; rewrite Heq in Hne).
  pose proof (add_module_spec m (ExecCounts.bbs ec) c F Hm (Hsizes m Hm) Hne' Hc) as Hadd.
  destruct (module_size m =? Z.of_nat (length (ExecCounts.bbs ec))); cbn [andb]; [|by rewrite Hadd].
  destruct Hadd as (c1 & -> & Hc1). cbn [res_bind]. specialize (IH c1 _ Hok Hc1).
  destruct (forallb (sizes_agree ms) ecs); [|done]. destruct IH as (c' & Hrun & Hc'). exists c'. split; [done|].
  eapply adds_up_ext; [|exact Hc']. intros g. unfold reported. simpl. rewrite Hlook. lia.
Qed.

Lemma coverage_init_adds_up : adds_up (coverage_init t) (λ _, 0).
Proof.
  unfold coverage_init, calloc. split; simpl; try done.
  - destruct (Z.eqb_spec (global_bb_count t) 0); [lia|]. eexists. split; [done|]. rewrite length_replicate.
    split; [done|]. intros g Hg. by rewrite lookup_replicate_2 by lia.
  - destruct (Z.eqb_spec (global_func_count t) 0); [done|]. rewrite length_replicate. split; [done|].
    intros i Hi. by rewrite lookup_replicate_2 by lia.
Qed.
End Adding.

(** ** Executions of a block of a function

    The counts [ecs] of a module whose functions from position [a] on are [fs]:
    those of block [j] of the functions with a name and path. *)
Fixpoint func_hits (ecs : list Z) (name path : option string) (j : nat) (a : nat) (fs : list module_func) : Z :=
  match fs with
  | [] => 0
  | mf :: fs' =>
      (if bool_decide (f_name mf = name ∧ f_path mf = path ∧ Z.of_nat j < bb_count mf) then default 0 (ecs !! (a + j)%nat) else 0) +
      func_hits ecs name path j (a + Z.to_nat (bb_count mf)) fs'
  end.

Definition executions (ms : module_ll) (ecs : list module_execcount) (name path : option string) (j : nat) : Z :=
  sum_of (λ ec, match lookup_module ms (ExecCounts.name ec) with
                | Some m => func_hits (ExecCounts.bbs ec) name path j 0 (func_list m)
                | None => 0
                end) ecs.

Lemma sum_of_ext {A} (v w : A → Z) l : (∀ x, x ∈ l → v x = w x) → sum_of v l = sum_of w l.
Proof.
  induction l as [|x l IH]; intros H; [done|]. rewrite !sum_of_cons, H by left. rewrite IH; [done|].
  intros y Hy. apply H. by right.
Qed.

Lemma sum_of_single (v : nat → Z) a n j :
  (∀ k, (a ≤ k < a + n)%nat → k ≠ (a + j)%nat → v k = 0) →
  sum_of v (seq a n) = if decide (j < n)%nat then v (a + j)%nat else 0.
Proof.
  revert a j. induction n as [|n IH]; intros a j Hv; cbn [seq]; [by rewrite decide_False by lia|].
  rewrite sum_of_cons. destruct j as [|j].
  - rewrite decide_True, Nat.add_0_r by lia.
    assert (sum_of v (seq (S a) n) = 0) as ->; [|lia].
    rewrite (sum_of_ext _ (λ _, 0)); [|intros k Hk%elem_of_seq; apply Hv; lia].
    generalize (seq (S a) n). induction l as [|x l IHl]; [done|]. by rewrite sum_of_cons.
  - rewrite (Hv a) by lia. rewrite (IH (S a) j) by (intros; apply Hv; lia).
    replace (S a + j)%nat with (a + S j)%nat by lia. destruct (decide (j < n)%nat), (decide (S j < S n)%nat); lia.
Qed.

Section Executions.
Context (t : function_hashtable) (ms : module_ll) `{Hix : !indexes t ms}.

(** The hits of a block are the counts of that block of that function. *)
Lemma hits_func_hits m ecs m0 i0 j0 f0 g fs i :
  m ∈ ms → m0 ∈ ms → module_block m0 i0 j0 f0 →
  module_bbindex_to_global t m0 (block_position m0 i0 j0) = Ret g →
  fs = drop i (func_list m) →
  let a := Z.to_nat (sum_of bb_count (take i (func_list m))) in
  hits t m ecs g a (Z.to_nat (module_size m) - a) = func_hits ecs (f_name f0) (f_path f0) j0 a fs.
Proof.
  intros Hm Hm0 Hb0 Hg. pose proof (counts_nonneg t ms m Hm) as Hnn.
  revert i. induction fs as [|mf fs IH]; intros i Hfs a.
  { assert (Ha : take i (func_list m) = func_list m).
    { apply take_ge. assert (length (drop i (func_list m)) = 0%nat) by (by rewrite <- Hfs). rewrite length_drop in *. lia. }
    unfold a. rewrite Ha. fold (module_size m). by rewrite Nat.sub_diag. }
  assert (Hi : func_list m !! i = Some mf) by (rewrite <- (Nat.add_0_r i), <- lookup_drop, <- Hfs; done).
  assert (Hdrop : fs = drop (S i) (func_list m)) by (rewrite (drop_S _ _ _ Hi) in Hfs; by injection Hfs).
  pose proof (sum_of_nonneg _ _ (Forall_take _ i _ Hnn)) as Hpre.
  pose proof (sum_of_take bb_count (func_list m) i (S i) mf Hnn Hi ltac:(lia)) as Hsum. fold (module_size m) in Hsum.
  assert (HS : sum_of bb_count (take (S i) (func_list m)) = sum_of bb_count (take i (func_list m)) + bb_count mf).
  { rewrite (take_S_r _ _ _ Hi), sum_of_app. simpl. lia. }
  pose proof (proj1 (Forall_lookup _ _) Hnn i mf Hi) as Hc. simpl in Hc.
  specialize (IH (S i) Hdrop). cbv zeta in IH.
  replace (Z.to_nat (sum_of bb_count (take (S i) (func_list m)))) with (a + Z.to_nat (bb_count mf))%nat in IH by (unfold a; lia).
  cbn [func_hits]. rewrite <- IH. unfold hits.
  replace (Z.to_nat (module_size m) - a)%nat with
    (Z.to_nat (bb_count mf) + (Z.to_nat (module_size m) - (a + Z.to_nat (bb_count mf))))%nat by (unfold a; lia).
  rewrite seq_app, sum_of_app. f_equal.
  assert (Hhit : ∀ j, (j < Z.to_nat (bb_count mf))%nat → hit t m ecs g (a + j)%nat =
    if bool_decide (f_name mf = f_name f0 ∧ f_path mf = f_path f0 ∧ j = j0) then default 0 (ecs !! (a + j)%nat) else 0).
  { intros j Hj. destruct (ix_same m i j mf m0 i0 j0 f0 Hm Hm0) as (g1 & g2 & Hg1 & Hg2 & _ & Hiff); [split; [done|lia]|done|].
    rewrite Hg in Hg2. injection Hg2 as <-. unfold hit.
    assert (Hpos : block_position m i j = Z.of_nat (a + j)) by (unfold block_position, a; lia).
    rewrite Hpos in Hg1. rewrite Hg1. destruct (ecs !! (a + j)%nat); [|by case_bool_decide].
    rewrite (bool_decide_ext _ _ (iff_sym Hiff)). destruct (decide (g1 = g)) as [->|Hne].
    - by rewrite decide_True, bool_decide_true.
    - rewrite decide_False by congruence. by rewrite bool_decide_false. }
  rewrite (sum_of_single _ _ _ j0).
  2:{ intros k Hk Hne. replace k with (a + (k - a))%nat by lia. rewrite Hhit by lia.
      rewrite bool_decide_false; [done|]. intros (_ & _ & ?). lia. }
  destruct (decide (j0 < Z.to_nat (bb_count mf))%nat) as [Hlt|Hge].
  - rewrite Hhit by done. rewrite (bool_decide_ext _ (f_name mf = f_name f0 ∧ f_path mf = f_path f0 ∧ Z.of_nat j0 < bb_count mf)); [done|].
    intuition lia.
  - rewrite bool_decide_false; [done|]. intros (_ & _ & ?). lia.
Qed.

Lemma reported_executions ecs m0 i0 j0 f0 g :
  forallb (sizes_agree ms) ecs = true → m0 ∈ ms → module_block m0 i0 j0 f0 →
  module_bbindex_to_global t m0 (block_position m0 i0 j0) = Ret g →
  reported t ms ecs g = executions ms ecs (f_name f0) (f_path f0) j0.
Proof.
  intros Hs Hm0 Hb0 Hg. unfold reported, executions. apply sum_of_ext. intros ec Hec.
  rewrite forallb_forall in Hs. apply list_elem_of_In, Hs in Hec. unfold sizes_agree in Hec.
  destruct (lookup_module ms (ExecCounts.name ec)) as [m|] eqn:Hl; [|done]. apply Z.eqb_eq in Hec.
  apply lookup_module_elem in Hl as [Hm _].
  pose proof (hits_func_hits m (ExecCounts.bbs ec) m0 i0 j0 f0 g (func_list m) 0 Hm Hm0 Hb0 Hg eq_refl) as H.
  change (Z.to_nat (sum_of bb_count (take 0 (func_list m)))) with 0%nat in H. cbv zeta in H.
  by rewrite Hec, Nat2Z.id, Nat.sub_0_r in H.
Qed.
End Executions.

(** C15: coverage adds up.  With a table that indexes the modules, after adding
    the counts of any number of runs every block of every function has, at its
    global number, the sum modulo 2^64 of the counts that all runs of all modules
    with this function (by name and path) report for this block; the tool exits
    exactly when a known module reports a number of blocks other than its map
    file's. *)
Theorem coverage_adds_up t ms ecs :
  indexes t ms → 0 < global_bb_count t < 2^31 → 0 ≤ global_func_count t < 2^31 →
  (∀ m, m ∈ ms → module_size m < 2^31) →
  forallb (λ ec, plain (ExecCounts.name ec) && negb (length (ExecCounts.bbs ec) =? 0)%nat) ecs = true →
  if forallb (sizes_agree ms) ecs then
    ∃ c l, coverage_add_execcount_list (coverage_init t) ecs ms = Ret c ∧ cov_bbs c = Some l ∧
      ∀ m i j f, m ∈ ms → module_block m i j f →
        ∃ g, module_bbindex_to_global t m (block_position m i j) = Ret g ∧
             l !! Z.to_nat g = Some (u64 (executions ms ecs (f_name f) (f_path f) j))
  else coverage_add_execcount_list (coverage_init t) ecs ms = Stop (FExit 1).
Proof.
  intros Hix Hg Hf Hsizes Hok.
  pose proof (add_list_spec t ms Hg Hf ecs _ _ Hsizes Hok (coverage_init_adds_up t Hg Hf)) as H.
  destruct (forallb (sizes_agree ms) ecs) eqn:Hs; [|done]. destruct H as (c & Hrun & [_ (l & Hl & Hlen & Hv) _ _]).
  exists c, l. split; [done|]. split; [done|]. intros m i j f Hm Hb.
  destruct (ix_same m i j f m i j f Hm Hm Hb Hb) as (g & _ & Hgi & _ & Hr & _). exists g. split; [done|].
  rewrite Hv by done. by rewrite (reported_executions t ms ecs m i j f g Hs Hm Hb Hgi).
Qed.

(** Only the first function is ever marked as covered.  The table never sets
    [global_func_index], so however many functions were executed, every mark of
    [coverage->funcs] but the first stays 0. *)
Theorem coverage_funcs_lost t ms ecs c fl i :
  indexes t ms → 0 < global_bb_count t < 2^31 → 0 ≤ global_func_count t < 2^31 →
  (∀ m, m ∈ ms → module_size m < 2^31) →
  forallb (λ ec, plain (ExecCounts.name ec) && negb (length (ExecCounts.bbs ec) =? 0)%nat) ecs = true →
  coverage_add_execcount_list (coverage_init t) ecs ms = Ret c → cov_funcs c = Some fl → (0 < i < length fl)%nat →
  fl !! i = Some 0.
Proof.
  intros Hix Hg Hf Hsizes Hok Hrun Hfl Hi.
  pose proof (add_list_spec t ms Hg Hf ecs _ _ Hsizes Hok (coverage_init_adds_up t Hg Hf)) as H. rewrite Hrun in H.
  destruct (forallb (sizes_agree ms) ecs); [|done]. destruct H as (c' & [= <-] & [_ _ Hfuncs _]).
  rewrite Hfl in Hfuncs. by apply Hfuncs.
Qed.

Definition demo_counts : list module_execcount :=
  [{| ExecCounts.name := "pm"; ExecCounts.bbs := [1; 2; 3] |}; {| ExecCounts.name := "vfs"; ExecCounts.bbs := [10; 20; 2^64 - 3] |}].

Example demo_sums :
  (let! c := coverage_add_execcount_list (coverage_init demo_build.1) demo_counts demo_build.2 in
   Ret (cov_bbs c, cov_funcs c)) = Ret (Some [0; 11; 22], Some [1; 0]).
Proof. vm_compute. reflexivity. Qed.

Lemma demo_sizes m : m ∈ demo_build.2 → module_size m < 2^31.
Proof.
  assert (H : forallb (λ m, module_size m <? 2^31) demo_build.2 = true) by (vm_compute; reflexivity).
  rewrite forallb_forall in H. intros Hm%list_elem_of_In. by apply Z.ltb_lt, H.
Qed.

Lemma coverage_adds_up_witness :
  if forallb (sizes_agree demo_build.2) demo_counts then
    ∃ c l, coverage_add_execcount_list (coverage_init demo_build.1) demo_counts demo_build.2 = Ret c ∧ cov_bbs c = Some l ∧
      ∀ m i j f, m ∈ demo_build.2 → module_block m i j f →
        ∃ g, module_bbindex_to_global demo_build.1 m (block_position m i j) = Ret g ∧
             l !! Z.to_nat g = Some (u64 (executions demo_build.2 demo_counts (f_name f) (f_path f) j))
  else coverage_add_execcount_list (coverage_init demo_build.1) demo_counts demo_build.2 = Stop (FExit 1).
Proof.
  apply coverage_adds_up; [exact demo_indexes | vm_compute; split; congruence | vm_compute; split; congruence |
    exact demo_sizes | vm_compute; reflexivity].
Defined.

Lemma coverage_funcs_lost_witness :
  ∃ c, coverage_add_execcount_list (coverage_init demo_build.1) demo_counts demo_build.2 = Ret c ∧ ([1; 0] : list Z) !! 1%nat = Some 0.
Proof.
  exists (ret_or (coverage_init demo_build.1) (coverage_add_execcount_list (coverage_init demo_build.1) demo_counts demo_build.2)).
  split; [vm_compute; reflexivity|].
  apply (coverage_funcs_lost demo_build.1 demo_build.2 demo_counts
    (ret_or (coverage_init demo_build.1) (coverage_add_execcount_list (coverage_init demo_build.1) demo_counts demo_build.2)) [1; 0] 1);
    [exact demo_indexes | vm_compute; split; congruence | vm_compute; split; congruence | exact demo_sizes | vm_compute; reflexivity
    | vm_compute; reflexivity | vm_compute; reflexivity | simpl; lia].
Defined.
