(* ===== verification/CoverageStats.v ===== *)
(** * Coverage statistics: the second half of [hypermemloganalyze/common/coverage.c]

    How many functions, blocks, instructions, fault candidates, injected faults
    and source lines there are and how many of them were executed, over all
    functions of the table or over one module, less what another coverage (that
    of booting the system) already has. *)

From Stdlib Require Import ZArith Lia Ascii String.
From stdpp Require Import base list numbers strings gmap.
From S2P Require Import Prelude Decimal ExecCounts Helper Module Function LineCounter Coverage.

(** ** Data *)

(** The [cov_] or the [tot_] members of [struct coverage_stats]. *)
Record tally := { t_func : Z; t_bb : Z; t_ins : Z; t_fc : Z; t_inj : Z; t_loc : Z }.
Record coverage_stats := { cov : tally; tot : tally }.
Definition no_tally : tally := {| t_func := 0; t_bb := 0; t_ins := 0; t_fc := 0; t_inj := 0; t_loc := 0 |}.

(** A tally with the line counter that goes with it. *)
Definition side := (tally * linecounter_state)%type.

Definition add_block (s : side) (b : function_bb) : res side :=
  let x := s.1 in
  let! bb := chk32 (t_bb x + 1) in
  let! ins := chk32 (t_ins x + fb_instr_count b) in
  let! fc := chk32 (t_fc x + fb_faultcand_count b) in
  let! inj := chk32 (t_inj x + fb_faultinj_count b) in
  let! lc := functions_get_coverage_lines s.2 (fb_lines b) in
  Ret ({| t_func := t_func x; t_bb := bb; t_ins := ins; t_fc := fc; t_inj := inj; t_loc := t_loc x |}, lc).

Definition add_func (s : side) (n : Z) : res side :=
  let x := s.1 in
  let! f := chk32 (t_func x + n) in
  Ret ({| t_func := f; t_bb := t_bb x; t_ins := t_ins x; t_fc := t_fc x; t_inj := t_inj x; t_loc := t_loc x |}, s.2).

Section Compute.
Variable c : coverage_per_bb.
Variable exclude : option coverage_per_bb.
Variable ms : module_ll.          (** the modules that references point to *)

Definition is_excluded (b : function_bb) : res bool :=
  match exclude with
  | None => Ret false
  | Some e => let! n := coverage_get_bb e b in Ret (0 <? n)
  end.

(** The loop over the blocks: both sides, [cov_func] and [ex_func]. *)
Fixpoint compute_blocks (cs ts : side) (cov_func ex_func : bool) (bl : list function_bb)
    : res (side * side * bool * bool) :=
  match bl with
  | [] => Ret (cs, ts, cov_func, ex_func)
  | b :: bl' =>
      let! ex := is_excluded b in
      if ex then compute_blocks cs ts cov_func true bl'
      else
        let! n := coverage_get_bb c b in
        let! cs := if 0 <? n then add_block cs b else Ret cs in
        let! ts := add_block ts b in
        compute_blocks cs ts (cov_func || (0 <? n)) ex_func bl'
  end.

Definition coverage_compute_func (f : function) (cs ts : side) (only_used_modules : bool) : res (side * side) :=
  let! used := if only_used_modules then function_is_in_used_module c ms f else Ret true in
  if negb used then Ret (cs, ts)
  else
    let! r := compute_blocks cs ts false false (fn_bbs f) in
    let '(cs, ts, cov_func, ex_func) := r in
    if ex_func then Ret (cs, ts)
    else
      let! cs := add_func cs (if cov_func then 1 else 0) in
      let! ts := add_func ts 1 in
      Ret (cs, ts).

(** [path_match]; [prefix] need not end after [matchlen] characters. *)
Definition path_match (path : string) (prefix : string) (matchlen : nat) : bool :=
  let pathlen := String.length path in
  if (pathlen <? matchlen)%nat then false
  else if negb (strcmp (String.substring 0 matchlen path) (String.substring 0 matchlen prefix) =? 0) then false
  else if (pathlen =? matchlen)%nat || (matchlen <? 1)%nat then true
  else match String.get (matchlen - 1) prefix with Some a => Ascii.eqb a "/" | None => false end.

Fixpoint compute_functions (path : option (string * nat)) (only_used_modules : bool) (cs ts : side) (fs : list function)
    : res (side * side) :=
  match fs with
  | [] => Ret (cs, ts)
  | f :: fs' =>
      let! sel := match path with
                  | None => Ret true
                  | Some (p, n) => match fn_pathFixed f with Some q => Ret (path_match q p n) | None => Stop FAssert end
                  end in
      let! r := if sel then coverage_compute_func f cs ts only_used_modules else Ret (cs, ts) in
      compute_functions path only_used_modules r.1 r.2 fs'
  end.

Definition with_loc (s : side) : tally :=
  {| t_func := t_func s.1; t_bb := t_bb s.1; t_ins := t_ins s.1; t_fc := t_fc s.1; t_inj := t_inj s.1;
     t_loc := lc_count s.2 |}.

Definition start_side : side := (no_tally, linecounter_init).

(** The nested loop over the lists of the table is one over their concatenation. *)
Definition coverage_compute_total (only_used_modules : bool) (path : option (string * nat)) : res coverage_stats :=
  let! r := compute_functions path only_used_modules start_side start_side (concat (entries (functions c))) in
  Ret {| cov := with_loc r.1; tot := with_loc r.2 |}.

Fixpoint compute_module_functions (cs ts : side) (fs : list module_func) : res (side * side) :=
  match fs with
  | [] => Ret (cs, ts)
  | mf :: fs' =>
      match global_func mf with
      | None => Stop FAssert
      | Some p =>
          let! f := get_function (functions c) p in
          let! r := coverage_compute_func f cs ts false in
          compute_module_functions r.1 r.2 fs'
      end
  end.

Definition coverage_compute_module (m : module) : res coverage_stats :=
  let! r := compute_module_functions start_side start_side (func_list m) in
  Ret {| cov := with_loc r.1; tot := with_loc r.2 |}.
End Compute.

(** ** What the statistics count *)

Definition sum_blocks (w : function_bb → Z) (bs : list function_bb) : Z := sum_of w bs.
Definition block_lines (bs : list function_bb) : list linepath := concat (fb_lines <$> bs).

(** The tally of [n] functions and of the blocks [bs]. *)
Definition tally_of (n : Z) (bs : list function_bb) : tally :=
  {| t_func := n; t_bb := Z.of_nat (length bs); t_ins := sum_blocks fb_instr_count bs;
     t_fc := sum_blocks fb_faultcand_count bs; t_inj := sum_blocks fb_faultinj_count bs;
     t_loc := Z.of_nat (size (lines_set (block_lines bs))) |}.

Definition block_ok (b : function_bb) : bool :=
  (0 <=? fb_instr_count b) && (0 <=? fb_faultcand_count b) && (0 <=? fb_faultinj_count b) && forallb line_ok (fb_lines b).

(** A bound for all numbers of a block. *)
Definition weight (b : function_bb) : Z :=
  1 + fb_instr_count b + fb_faultcand_count b + fb_faultinj_count b + Z.of_nat (length (fb_lines b)).

(** A side holds [n] functions and the blocks [bs]. *)
Record holds (s : side) (n : Z) (bs : list function_bb) : Prop := {
  hd_func : t_func s.1 = n;
  hd_bb : t_bb s.1 = Z.of_nat (length bs);
  hd_ins : t_ins s.1 = sum_blocks fb_instr_count bs;
  hd_fc : t_fc s.1 = sum_blocks fb_faultcand_count bs;
  hd_inj : t_inj s.1 = sum_blocks fb_faultinj_count bs;
  hd_lines : counts s.2 (lines_set (block_lines bs));
}.

Lemma holds_start : holds start_side 0 [].
Proof. split; try done. apply counts_init. Qed.

Lemma holds_tally s n bs : holds s n bs → with_loc s = tally_of n bs.
Proof.
  intros [Hf Hb Hi Hc Hj Hl]. unfold with_loc, tally_of. rewrite Hf, Hb, Hi, Hc, Hj. by rewrite (ct_count _ _ Hl).
Qed.

Lemma block_lines_app bs bs' : block_lines (bs ++ bs') = block_lines bs ++ block_lines bs'.
Proof. unfold block_lines. by rewrite fmap_app, concat_app. Qed.

Lemma lines_set_app l l' : lines_set (l ++ l') = lines_set l ∪ lines_set l'.
Proof. unfold lines_set. by rewrite fmap_app, list_to_set_app_L. Qed.

Lemma lines_set_size ls : (size (lines_set ls) ≤ length ls)%nat.
Proof.
  unfold lines_set in *. induction ls as [|l ls IH]; [done|].
  rewrite fmap_cons, list_to_set_cons. cbn [length]. rewrite size_union_alt, size_singleton.
  pose proof (subseteq_size (list_to_set (line_key <$> ls) ∖ {[line_key l]}) (list_to_set (C := gset _) (line_key <$> ls)) ltac:(set_solver)).
  lia.
Qed.

Lemma weight_bounds bs :
  forallb block_ok bs = true →
  let W := sum_of weight bs in
  0 ≤ W ∧ Z.of_nat (length bs) ≤ W ∧ 0 ≤ sum_blocks fb_instr_count bs ≤ W ∧ 0 ≤ sum_blocks fb_faultcand_count bs ≤ W ∧
  0 ≤ sum_blocks fb_faultinj_count bs ≤ W ∧ Z.of_nat (length (block_lines bs)) + Z.of_nat (length bs) ≤ W.
Proof.
  unfold sum_blocks, block_lines, sum_of. induction bs as [|b bs IH]; intros Hok; [simpl; lia|].
  rewrite fmap_cons. simpl.
  simpl in Hok. apply andb_true_iff in Hok as [Hb Hok]. specialize (IH Hok). simpl in IH.
  unfold block_ok in Hb. rewrite !andb_true_iff, !Z.leb_le in Hb. rewrite length_app.
  unfold weight in *. lia.
Qed.

Lemma add_block_holds s n bs b :
  holds s n bs → forallb block_ok bs = true → block_ok b = true → sum_of weight (bs ++ [b]) < 2^31 →
  ∃ s', add_block s b = Ret s' ∧ holds s' n (bs ++ [b]).
Proof.
  intros [Hf Hb Hi Hc Hj Hl] Hbs Hok Hmax. pose proof (weight_bounds bs Hbs) as Hw. rewrite sum_of_app in Hmax. simpl in Hmax, Hw.
  pose proof Hok as Hok'. unfold block_ok in Hok'. rewrite !andb_true_iff, !Z.leb_le in Hok'. destruct Hok' as [[[H1 H2] H3] Hlines].
  unfold weight at 2 in Hmax. pose proof (lines_set_size (block_lines bs)).
  unfold add_block. rewrite Hb, Hi, Hc, Hj, !chk32_ok by lia. cbn [res_bind].
  destruct (get_lines_counts s.2 _ (fb_lines b) Hl Hlines ltac:(lia)) as (lc & -> & Hlc). cbn [res_bind].
  eexists. split; [done|]. split; simpl; unfold sum_blocks; rewrite ?sum_of_app; simpl; rewrite ?length_app; simpl; try lia.
  rewrite block_lines_app, lines_set_app. unfold block_lines at 2. simpl. by rewrite app_nil_r.
Qed.

Lemma add_func_holds s n bs k :
  holds s n bs → -2^31 ≤ n + k < 2^31 → ∃ s', add_func s k = Ret s' ∧ holds s' (n + k) bs.
Proof.
  intros [Hf Hb Hi Hc Hj Hl] Hmax. unfold add_func. rewrite Hf, chk32_ok by lia. cbn [res_bind].
  eexists. split; [done|]. by split.
Qed.

(** ** The loops *)

Section Counting.
Variable c : coverage_per_bb.
Variable exclude : option coverage_per_bb.
Variable ms : module_ll.
Variables (executed excluded : function_bb → bool).

(** Which blocks were executed, and which are excluded. *)
Definition reads (b : function_bb) : Prop :=
  is_excluded exclude b = Ret (excluded b) ∧ ∃ n, coverage_get_bb c b = Ret n ∧ executed b = (0 <? n).

Definition kept (b : function_bb) : bool := negb (excluded b).
Definition kept_executed (b : function_bb) : bool := kept b && executed b.

Lemma filter_block_ok q bs : forallb block_ok bs = true → forallb block_ok (List.filter q bs) = true.
Proof. rewrite !forallb_forall. intros H x [Hx _]%filter_In. auto. Qed.

Lemma weight_filter q bs : forallb block_ok bs = true → 0 ≤ sum_of weight (List.filter q bs) ≤ sum_of weight bs.
Proof.
  intros Hok. split; [by apply weight_bounds, filter_block_ok|].
  induction bs as [|b bs IH]; simpl; [done|]. simpl in Hok. apply andb_true_iff in Hok as [Hb Hok].
  pose proof (weight_bounds [b] ltac:(simpl; by rewrite Hb)) as Hw. simpl in Hw.
  specialize (IH Hok). destruct (q b); simpl; unfold sum_of in *; lia.
Qed.

Lemma compute_blocks_counts bl cs ts n1 n2 bs1 bs2 cf xf :
  (∀ b, b ∈ bl → reads b) → forallb block_ok (bs1 ++ bs2 ++ bl) = true →
  holds cs n1 bs1 → holds ts n2 bs2 →
  sum_of weight bs1 + sum_of weight bl < 2^31 → sum_of weight bs2 + sum_of weight bl < 2^31 →
  ∃ cs' ts', compute_blocks c exclude cs ts cf xf bl =
      Ret (cs', ts', cf || existsb kept_executed bl, xf || existsb excluded bl) ∧
    holds cs' n1 (bs1 ++ List.filter kept_executed bl) ∧ holds ts' n2 (bs2 ++ List.filter kept bl).
Proof.
  revert cs ts bs1 bs2 cf xf. induction bl as [|b bl IH]; intros cs ts bs1 bs2 cf xf Hreads Hok Hcs Hts H1 H2.
  { exists cs, ts. simpl. rewrite !app_nil_r, !orb_false_r. done. }
  destruct (Hreads b ltac:(left)) as (Hex & n & Hn & He).
  rewrite !forallb_app in Hok. cbn [forallb] in Hok. rewrite !andb_true_iff in Hok. destruct Hok as (Hb1 & Hb2 & Hb & Hbl).
  pose proof (weight_bounds bl Hbl) as [Hwl _]. pose proof (weight_bounds [b] ltac:(simpl; by rewrite Hb)) as [Hwb _].
  change (sum_of weight (b :: bl)) with (weight b + sum_of weight bl) in *. simpl in Hwb.
  cbn [compute_blocks List.filter existsb]. rewrite Hex. cbn [res_bind].
  assert (Hk : kept b = negb (excluded b)) by done.
  assert (Hke : kept_executed b = kept b && executed b) by done. rewrite Hke, Hk.
  assert (Hall : ∀ b, b ∈ bl → reads b) by (intros; apply Hreads; by right).
  destruct (excluded b) eqn:Hxb; cbn [negb andb].
  { destruct (IH cs ts bs1 bs2 cf true) as (cs' & ts' & Hrun & Hc' & Ht'); try done; [by rewrite !forallb_app, Hb1, Hb2, Hbl|lia|lia|].
    exists cs', ts'. rewrite Hrun. cbn [orb]. by rewrite orb_true_r. }
  rewrite Hn. cbn [res_bind]. rewrite <- He.
  assert (Hcov : ∃ cs1, (if executed b then add_block cs b else Ret cs) = Ret cs1 ∧
    holds cs1 n1 (bs1 ++ (if executed b then [b] else []))).
  { destruct (executed b); [|exists cs; rewrite app_nil_r; done].
    apply add_block_holds; try done. rewrite sum_of_app. simpl. lia. }
  destruct Hcov as (cs1 & -> & Hcs1). cbn [res_bind].
  destruct (add_block_holds ts n2 bs2 b Hts Hb2 Hb) as (ts1 & -> & Hts1); [rewrite sum_of_app; simpl; lia|]. cbn [res_bind].
  destruct (IH cs1 ts1 (bs1 ++ (if executed b then [b] else [])) (bs2 ++ [b]) (cf || executed b) xf)
    as (cs' & ts' & Hrun & Hc' & Ht'); try done.
  { rewrite !forallb_app, Hb1, Hb2, Hbl. destruct (executed b); simpl; by rewrite ?Hb. }
  { rewrite sum_of_app. destruct (executed b); simpl; lia. }
  { rewrite sum_of_app. simpl. lia. }
  exists cs', ts'. rewrite Hrun, <- !app_assoc in *. split; [by rewrite orb_assoc|]. split; [|done].
  by destruct (executed b).
Qed.

(** Functions count when none of their blocks is excluded. *)
Definition whole (f : function) : bool := negb (existsb excluded (fn_bbs f)).
Definition whole_executed (f : function) : bool := whole f && existsb executed (fn_bbs f).

Definition func_blocks (fs : list function) : list function_bb := concat (fn_bbs <$> fs).
Definition count_funcs (q : function → bool) (fs : list function) : Z := Z.of_nat (length (List.filter q fs)).

Lemma existsb_kept_executed bl : existsb excluded bl = false → existsb kept_executed bl = existsb executed bl.
Proof.
  induction bl as [|b bl IH]; simpl; [done|]. intros [Hb Hbl]%orb_false_iff.
  rewrite IH by done. unfold kept_executed, kept. by rewrite Hb.
Qed.

Lemma compute_func_counts f cs ts n1 n2 bs1 bs2 :
  (∀ b, b ∈ fn_bbs f → reads b) → forallb block_ok (bs1 ++ bs2 ++ fn_bbs f) = true →
  holds cs n1 bs1 → holds ts n2 bs2 → 0 ≤ n1 < 2^31 - 1 → 0 ≤ n2 < 2^31 - 1 →
  sum_of weight bs1 + sum_of weight (fn_bbs f) < 2^31 → sum_of weight bs2 + sum_of weight (fn_bbs f) < 2^31 →
  ∃ cs' ts', coverage_compute_func c exclude ms f cs ts false = Ret (cs', ts') ∧
    holds cs' (n1 + if whole_executed f then 1 else 0) (bs1 ++ List.filter kept_executed (fn_bbs f)) ∧
    holds ts' (n2 + if whole f then 1 else 0) (bs2 ++ List.filter kept (fn_bbs f)).
Proof.
  intros Hreads Hok Hcs Hts Hn1 Hn2 H1 H2. unfold coverage_compute_func. cbn [res_bind negb].
  destruct (compute_blocks_counts (fn_bbs f) cs ts n1 n2 bs1 bs2 false false Hreads Hok Hcs Hts H1 H2)
    as (cs1 & ts1 & -> & Hc1 & Ht1). cbn [res_bind orb].
  unfold whole_executed, whole. destruct (existsb excluded (fn_bbs f)) eqn:Hx; cbn [negb andb].
  { exists cs1, ts1. rewrite !Z.add_0_r. done. }
  rewrite existsb_kept_executed by done.
  destruct (add_func_holds cs1 n1 _ (if existsb executed (fn_bbs f) then 1 else 0) Hc1) as (cs2 & -> & Hc2);
    [case_match; lia|]. cbn [res_bind].
  destruct (add_func_holds ts1 n2 _ 1 Ht1 ltac:(lia)) as (ts2 & -> & Ht2). cbn [res_bind]. eauto.
Qed.

(** The functions that a computation selects. *)
Variables (only_used : bool) (path : option (string * nat)).

Definition path_selects (f : function) : res bool :=
  match path with
  | None => Ret true
  | Some (p, n) => match fn_pathFixed f with Some q => Ret (path_match q p n) | None => Stop FAssert end
  end.

Variables (on_path in_use : function → bool).
Definition selects (f : function) : Prop :=
  path_selects f = Ret (on_path f) ∧
  (on_path f = true → (if only_used then function_is_in_used_module c ms f else Ret true) = Ret (in_use f)).
Definition selected (f : function) : bool := on_path f && in_use f.

Lemma compute_functions_counts fs cs ts n1 n2 bs1 bs2 :
  Forall (λ f, selects f ∧ ∀ b, b ∈ fn_bbs f → reads b) fs →
  forallb block_ok (bs1 ++ bs2 ++ func_blocks fs) = true →
  holds cs n1 bs1 → holds ts n2 bs2 → 0 ≤ n1 → 0 ≤ n2 →
  n1 + Z.of_nat (length fs) < 2^31 → n2 + Z.of_nat (length fs) < 2^31 →
  sum_of weight bs1 + sum_of weight (func_blocks fs) < 2^31 → sum_of weight bs2 + sum_of weight (func_blocks fs) < 2^31 →
  let S := List.filter selected fs in
  ∃ cs' ts', compute_functions c exclude ms path only_used cs ts fs = Ret (cs', ts') ∧
    holds cs' (n1 + count_funcs whole_executed S) (bs1 ++ List.filter kept_executed (func_blocks S)) ∧
    holds ts' (n2 + count_funcs whole S) (bs2 ++ List.filter kept (func_blocks S)).
Proof.
  intros Hfs. revert cs ts n1 n2 bs1 bs2.
  induction Hfs as [|f fs [[Hpath Huse] Hreads] _ IH]; intros cs ts n1 n2 bs1 bs2 Hok Hcs Hts Hn1 Hn2 Hl1 Hl2 H1 H2 S.
  { exists cs, ts. unfold S, count_funcs, func_blocks. simpl. rewrite !app_nil_r, !Z.add_0_r. done. }
  assert (Hfb : ∀ l, func_blocks (f :: l) = fn_bbs f ++ func_blocks l) by done.
  rewrite Hfb in Hok, H1, H2. rewrite !forallb_app, !andb_true_iff in Hok. destruct Hok as (Hb1 & Hb2 & Hbf & Hbs).
  rewrite sum_of_app in H1, H2. cbn [length] in Hl1, Hl2.
  pose proof (weight_bounds _ Hbf) as [Hwf _]. pose proof (weight_bounds _ Hbs) as [Hws _].
  cbn [compute_functions]. fold (path_selects f). rewrite Hpath. cbn [res_bind]. unfold S. cbn [List.filter].
  assert (Hskip : ∃ cs' ts', compute_functions c exclude ms path only_used cs ts fs = Ret (cs', ts') ∧
    holds cs' (n1 + count_funcs whole_executed (List.filter selected fs))
      (bs1 ++ List.filter kept_executed (func_blocks (List.filter selected fs))) ∧
    holds ts' (n2 + count_funcs whole (List.filter selected fs)) (bs2 ++ List.filter kept (func_blocks (List.filter selected fs)))).
  { apply IH; try done; [by rewrite !forallb_app, Hb1, Hb2, Hbs|lia|lia|lia|lia]. }
  destruct (on_path f) eqn:Hop; cycle 1.
  { assert (selected f = false) as -> by (unfold selected; by rewrite Hop). cbn [res_bind fst snd]. exact Hskip. }
  assert (Hsel : selected f = in_use f) by (unfold selected; by rewrite Hop). rewrite Hsel.
  destruct (in_use f) eqn:Hiu; cycle 1.
  { unfold coverage_compute_func. rewrite (Huse eq_refl). cbn [res_bind negb fst snd]. exact Hskip. }
  destruct (compute_func_counts f cs ts n1 n2 bs1 bs2 Hreads) as (cs1 & ts1 & Hrun & Hc1 & Ht1); try done;
    [by rewrite !forallb_app, Hb1, Hb2, Hbf|lia|lia|lia|lia|].
  assert (Hsame : coverage_compute_func c exclude ms f cs ts only_used = coverage_compute_func c exclude ms f cs ts false).
  { unfold coverage_compute_func. by rewrite (Huse eq_refl). }
  rewrite Hsame, Hrun. cbn [res_bind fst snd].
  pose proof (weight_filter kept_executed _ Hbf) as Hwk1. pose proof (weight_filter kept _ Hbf) as Hwk2.
  assert (Hok1 : forallb block_ok ((bs1 ++ List.filter kept_executed (fn_bbs f)) ++ (bs2 ++ List.filter kept (fn_bbs f)) ++ func_blocks fs) = true)
    by (by rewrite !forallb_app, Hb1, Hb2, Hbs, !filter_block_ok).
  specialize (IH cs1 ts1 _ _ _ _ Hok1 Hc1 Ht1). rewrite !sum_of_app in IH.
  destruct IH as (cs' & ts' & Hrun' & Hc' & Ht'); [destruct (whole_executed f); lia|destruct (whole f); lia|destruct (whole_executed f); lia|destruct (whole f); lia|lia|lia|].
  exists cs', ts'. split; [done|]. rewrite Hfb, !List.filter_app.
  rewrite <- !app_assoc in Hc', Ht'. unfold count_funcs in *. cbn [List.filter].
  split; [destruct (whole_executed f)|destruct (whole f)]; cbn [length];
    match goal with |- holds _ ?x _ => match goal with H : holds _ ?y _ |- _ => replace x with y by lia; done end end.
Qed.
End Counting.

(** The coverage statistics.  Over the functions of the table that lie on the
    given path and, on demand, in modules that were run, the totals are the
    numbers of blocks, instructions, fault candidates, injected faults and
    different source lines of all blocks that the other coverage does not have,
    the covered numbers those of the executed ones among them; functions count
    when none of their blocks is excluded. *)
Theorem coverage_totals c exclude ms executed excluded only_used path on_path in_use :
  let fs := concat (entries (functions c)) in
  Forall (λ f, selects c ms only_used path on_path in_use f ∧
               ∀ b, b ∈ fn_bbs f → reads c exclude executed excluded b) fs →
  forallb block_ok (func_blocks fs) = true →
  sum_of weight (func_blocks fs) < 2^31 → Z.of_nat (length fs) < 2^31 →
  let S := List.filter (selected on_path in_use) fs in
  coverage_compute_total c exclude ms only_used path = Ret
    {| cov := tally_of (count_funcs (whole_executed executed excluded) S)
                (List.filter (kept_executed executed excluded) (func_blocks S));
       tot := tally_of (count_funcs (whole excluded) S) (List.filter (kept excluded) (func_blocks S)) |}.
Proof.
  intros fs Hfs Hok Hw Hlen S.
  destruct (compute_functions_counts c exclude ms executed excluded only_used path on_path in_use fs
    start_side start_side 0 0 [] [] Hfs Hok holds_start holds_start) as (cs & ts & Hrun & Hc & Ht);
    try (simpl; lia).
  unfold coverage_compute_total. fold fs. rewrite Hrun. cbn [res_bind fst snd].
  by rewrite (holds_tally _ _ _ Hc), (holds_tally _ _ _ Ht).
Qed.

Definition demo_coverage : coverage_per_bb :=
  ret_or (coverage_init demo_build.1)
    (coverage_add_execcount_list (coverage_init demo_build.1) [{| ExecCounts.name := "vfs"; ExecCounts.bbs := [0; 1; 5] |}] demo_build.2).
Definition demo_executed (b : function_bb) : bool := 0 <? ret_or 0 (coverage_get_bb demo_coverage b).

Example demo_stats :
  coverage_compute_total demo_coverage None demo_build.2 false None = Ret
    {| cov := {| t_func := 2; t_bb := 2; t_ins := 0; t_fc := 1; t_inj := 0; t_loc := 0 |};
       tot := {| t_func := 2; t_bb := 3; t_ins := 2; t_fc := 1; t_inj := 1; t_loc := 1 |} |}.
Proof. vm_compute. reflexivity. Qed.

Lemma coverage_totals_witness :
  coverage_compute_total demo_coverage None demo_build.2 false None = Ret
    {| cov := tally_of (count_funcs (whole_executed demo_executed (λ _, false)) (concat (entries (functions demo_coverage))))
                (List.filter (kept_executed demo_executed (λ _, false)) (func_blocks (concat (entries (functions demo_coverage)))));
       tot := tally_of (count_funcs (whole (λ _, false)) (concat (entries (functions demo_coverage))))
                (List.filter (kept (λ _, false)) (func_blocks (concat (entries (functions demo_coverage))))) |}.
Proof.
  apply (coverage_totals demo_coverage None demo_build.2 demo_executed (λ _, false) false None (λ _, true) (λ _, true)).
  - apply Forall_forall. intros f Hf. split; [done|]. intros b Hb. split; [done|].
    assert (Hret : is_ret (coverage_get_bb demo_coverage b) = true).
    { assert (Hall : forallb (λ f, forallb (λ b, is_ret (coverage_get_bb demo_coverage b)) (fn_bbs f))
        (concat (entries (functions demo_coverage))) = true) by (vm_compute; reflexivity).
      rewrite forallb_forall in Hall. apply list_elem_of_In, Hall in Hf. rewrite forallb_forall in Hf.
      by apply Hf, list_elem_of_In. }
    exists (ret_or 0 (coverage_get_bb demo_coverage b)). split; [by apply is_ret_or|done].
  - vm_compute. reflexivity.
  - vm_compute. reflexivity.
  - vm_compute. reflexivity.
Defined.
