(* ===== verification/FaultPicker.v ===== *)
(** * The fault picker: [hypermemloganalyze/faultpicker/]

    The picker selects blocks with injected faults for an experiment: it drops
    unwanted fault types ([fault_select]), lists the blocks of the function table
    that have a fault and were executed ([bb_info.c]), draws blocks with a
    probability proportional to their fault candidates, and prints for every
    chosen block where it is in each module.

    The random numbers and the permutation by [qsort] with random keys are
    arguments. *)

From Stdlib Require Import ZArith Lia Ascii String.
From stdpp Require Import base list numbers strings gmap.
From S2P Require Import Prelude Decimal ExecCounts Helper MapFile Module Function LineCounter Coverage CoverageStats.

(** ** Selecting fault types *)

Definition startswith (s : option string) (substr : string) : bool :=
  match s with
  | None => false
  | Some s =>
      if (String.length s <? String.length substr)%nat then false
      else strcmp (String.substring 0 (String.length substr) s) substr =? 0
  end.

(** [typeexclude], [typeinclude]; an empty list is a null pointer. *)
Definition fault_select_bb (b : module_bb) (disable : bool) (typeexclude typeinclude : list string) : res module_bb :=
  if faultinj_count b <=? 0 then Ret b
  else
    assert! (disable || negb (is_null (fault_type b))) in
    let drop :=
      disable ||
      match fault_type b with
      | None => false
      | Some ft => string_ll_find typeexclude ft ||
                   (negb (length typeinclude =? 0)%nat && negb (string_ll_find typeinclude ft))
      end in
    Ret (if drop then {| faultcand_count := faultcand_count b; faultinj_count := 0; instr_count := instr_count b;
                         lines := lines b; fault_path := fault_path b; fault_line := fault_line b;
                         fault_type := fault_type b |}
         else b).

Fixpoint res_map {A B} (k : A → res B) (l : list A) : res (list B) :=
  match l with [] => Ret [] | x :: l' => let! y := k x in let! r := res_map k l' in Ret (y :: r) end.

Definition is_disabled (f : module_func) : bool :=
  startswith (f_name f) "hypermem_" || startswith (f_name f) "ltckpt_" || startswith (f_name f) "lt_" ||
  startswith (f_name f) "sef_".

Definition fault_select_function (typeexclude typeinclude : list string) (f : module_func) : res module_func :=
  let! bl := match bbs f with
             | None => Ret None
             | Some l => let! l := res_map (λ b, fault_select_bb b (is_disabled f) typeexclude typeinclude) l in Ret (Some l)
             end in
  Ret {| f_name := f_name f; f_path := f_path f; f_pathFixed := f_pathFixed f; bb_index_first := bb_index_first f;
         bb_count := bb_count f; bbs := bl; global_func := global_func f |}.

Definition fault_select_module (typeexclude typeinclude : list string) (m : module) : res module :=
  let! fs := match funcs m with
             | None => Ret None
             | Some l => let! l := res_map (fault_select_function typeexclude typeinclude) l in Ret (Some l)
             end in
  Ret {| m_name := m_name m; func_count := func_count m; funcs := fs |}.

Definition fault_select (typeexclude typeinclude : list string) (ms : module_ll) : res module_ll :=
  res_map (fault_select_module typeexclude typeinclude) ms.

(** ** Listing blocks: [bb_info.c] *)

Record bb_info := { bi_func : function; func_bb_index : nat; is_selected : bool }.

(** [struct bb_info_stats3], and the members of [struct bb_info_stats]. *)
Record stats3 := { s_bb : Z; s_fc : Z }.
Inductive category := inj_exec | inj_noexec | noinj_exec | noinj_noexec | nocand_exec | nocand_noexec.
#[global] Instance category_eq_dec : EqDecision category.
Proof. solve_decision. Defined.

Record bb_info_list := {
  bl_bb_count : Z;
  bl_bbs : option (list bb_info);
  stats : category → stats3;
  total : stats3;
  bl_func_count : Z;
  bl_func_count_shared : Z;
}.

Definition no_stats : stats3 := {| s_bb := 0; s_fc := 0 |}.
Definition empty_list : bb_info_list :=
  {| bl_bb_count := 0; bl_bbs := None; stats := λ _, no_stats; total := no_stats; bl_func_count := 0;
     bl_func_count_shared := 0 |}.

Definition count_block (s : stats3) (b : function_bb) : res stats3 :=
  let! n := chk32 (s_bb s + 1) in
  let! fc := chk32 (s_fc s + fb_faultcand_count b) in
  Ret {| s_bb := n; s_fc := fc |}.

(** The category of a block; [exec] when it was executed or logs do not matter. *)
Definition category_of (b : function_bb) (exec : bool) : category :=
  if fb_faultcand_count b <=? 0 then (if exec then nocand_exec else nocand_noexec)
  else if fb_faultinj_count b <=? 0 then (if exec then noinj_exec else noinj_noexec)
  else (if exec then inj_exec else inj_noexec).

Section Listing.
Variable c : coverage_per_bb.
Variable only_executed : bool.

(** The list and [state->bb_index]. *)
Definition functions_get_injectable_bbs_bb (f : function) (b : function_bb) (j : nat) (s : bb_info_list * nat)
    : res (bb_info_list * nat) :=
  let! ec := coverage_get_bb c b in
  let exec := negb only_executed || (0 <? ec) in
  let! s :=
    if (0 <? fb_faultinj_count b) && exec then
      match bl_bbs s.1 with
      | Some l =>
          if (length l <=? s.2)%nat then Stop FBounds
          else Ret ({| bl_bb_count := bl_bb_count s.1;
                       bl_bbs := Some (<[s.2 := {| bi_func := f; func_bb_index := j; is_selected := false |}]> l);
                       stats := stats s.1; total := total s.1; bl_func_count := bl_func_count s.1;
                       bl_func_count_shared := bl_func_count_shared s.1 |}, S s.2)
      | None =>
          let! n := chk32 (bl_bb_count s.1 + 1) in
          Ret ({| bl_bb_count := n; bl_bbs := None; stats := stats s.1; total := total s.1;
                  bl_func_count := bl_func_count s.1; bl_func_count_shared := bl_func_count_shared s.1 |}, s.2)
      end
    else Ret s in
  match bl_bbs s.1 with
  | Some _ => Ret s
  | None =>
      let cat := category_of b exec in
      let! s3 := count_block (stats s.1 cat) b in
      let! tot := count_block (total s.1) b in
      Ret ({| bl_bb_count := bl_bb_count s.1; bl_bbs := None;
              stats := λ k, if decide (k = cat) then s3 else stats s.1 k; total := tot;
              bl_func_count := bl_func_count s.1; bl_func_count_shared := bl_func_count_shared s.1 |}, s.2)
  end.

Fixpoint injectable_blocks (f : function) (bl : list function_bb) (j : nat) (s : bb_info_list * nat) : res (bb_info_list * nat) :=
  match bl with
  | [] => Ret s
  | b :: bl' => let! s := functions_get_injectable_bbs_bb f b j s in injectable_blocks f bl' (S j) s
  end.

Definition functions_get_injectable_bbs_func (s : bb_info_list * nat) (f : function) : res (bb_info_list * nat) :=
  let! s := injectable_blocks f (fn_bbs f) 0 s in
  match bl_bbs s.1 with
  | Some _ => Ret s
  | None =>
      let! n := chk32 (bl_func_count s.1 + 1) in
      let! k := if (1 <? length (refs f))%nat then chk32 (bl_func_count_shared s.1 + 1) else Ret (bl_func_count_shared s.1) in
      Ret ({| bl_bb_count := bl_bb_count s.1; bl_bbs := bl_bbs s.1; stats := stats s.1; total := total s.1;
              bl_func_count := n; bl_func_count_shared := k |}, s.2)
  end.

Definition functions_get_injectable_bbs_internal (t : function_hashtable) (s : bb_info_list * nat) : res (bb_info_list * nat) :=
  res_foldl functions_get_injectable_bbs_func s (concat (entries t)).

(** A zeroed [struct bb_info]. *)
Definition no_function : function :=
  {| fn_name' := ""; fn_path' := ""; fn_pathFixed := None; fn_bb_count := 0; fn_bbs := []; refs := []; global_func_index := 0 |}.
Definition no_info : bb_info := {| bi_func := no_function; func_bb_index := 0; is_selected := false |}.

Definition functions_get_injectable_bbs (t : function_hashtable) : res bb_info_list :=
  let! s := functions_get_injectable_bbs_internal t (empty_list, 0%nat) in
  let l := {| bl_bb_count := bl_bb_count s.1; bl_bbs := calloc (bl_bb_count s.1) no_info; stats := stats s.1;
              total := total s.1; bl_func_count := bl_func_count s.1; bl_func_count_shared := bl_func_count_shared s.1 |} in
  let! s := functions_get_injectable_bbs_internal t (l, 0%nat) in
  assert! (bl_bb_count s.1 =? Z.of_nat s.2) in
  Ret s.1.
End Listing.

(** ** Drawing blocks *)

Definition rand64 (r1 r2 r3 : Z) : Z := u64 (u64 (Z.shiftl r1 30) + u64 (Z.shiftl r2 15) + u64 r3).

Definition candidates (bi : bb_info) : Z :=
  match fn_bbs (bi_func bi) !! func_bb_index bi with Some b => fb_faultcand_count b | None => 0 end.

Definition select (bi : bb_info) : bb_info :=
  {| bi_func := bi_func bi; func_bb_index := func_bb_index bi; is_selected := true |}.

(** One draw: the list, the final [fc_index], the candidates of the block. *)
Fixpoint draw (fc_index : Z) (l : list bb_info) : list bb_info * Z * Z :=
  match l with
  | [] => ([], fc_index, 0)
  | bi :: l' =>
      if is_selected bi then let r := draw fc_index l' in (bi :: r.1.1, r.1.2, r.2)
      else
        let fc_index := fc_index - candidates bi in
        if fc_index <? 0 then (select bi :: l', fc_index, candidates bi)
        else let r := draw fc_index l' in (bi :: r.1.1, r.1.2, r.2)
  end.

(** The loop over [numfaults], one random number per draw. *)
Fixpoint draws (rs : list (Z * Z * Z)) (fc_count : Z) (l : list bb_info) : res (list bb_info) :=
  match rs with
  | [] => Ret l
  | (r1, r2, r3) :: rs' =>
      assert! (0 <? fc_count) in
      let '(l, fc_index, fc) := draw (rand64 r1 r2 r3 `mod` fc_count) l in
      let! fc_count := chk32 (fc_count - fc) in
      assert! (fc_index <? 0) in
      draws rs' fc_count l
  end.

Section Output.
Variable shuffle : list bb_info → list bb_info.
Variable rand : nat → Z * Z * Z.

(** The list after the draws. *)
Definition select_faults (bl : bb_info_list) (numfaults : Z) : res (list bb_info) :=
  let numfaults := if bl_bb_count bl <? numfaults then bl_bb_count bl else numfaults in
  draws (rand <$> seq 0 (Z.to_nat numfaults)) (s_fc (stats bl inj_exec)) (shuffle (default [] (bl_bbs bl))).
End Output.

(** The fault specification of a block: module and block number for every
    module that contains its function. *)
Fixpoint spec_refs (ms : module_ll) (j : nat) (rs : list (nat * nat)) : res (list (option string * Z)) :=
  match rs with
  | [] => Ret []
  | (mi, fi) :: rs' =>
      match ms !! mi with
      | None => Stop FBounds
      | Some m =>
          match func_list m !! fi with
          | None => Stop FBounds
          | Some mf =>
              assert! (Z.of_nat j <? bb_count mf) in
              let! n := chk32 (bb_index_first mf + Z.of_nat j + 1) in
              let! r := spec_refs ms j rs' in
              Ret ((m_name m, n) :: r)
          end
      end
  end.
Definition fault_spec (ms : module_ll) (bi : bb_info) : res (list (option string * Z)) :=
  spec_refs ms (func_bb_index bi) (refs (bi_func bi)).

(** ** One draw *)

Lemma forallb_take {A} (q : A → bool) n l : forallb q l = true → forallb q (take n l) = true.
Proof. rewrite <- (take_drop n l) at 1. rewrite forallb_app. by intros [? _]%andb_true_iff. Qed.

Lemma forallb_drop {A} (q : A → bool) n l : forallb q l = true → forallb q (drop n l) = true.
Proof. rewrite <- (take_drop n l) at 1. rewrite forallb_app. by intros [_ ?]%andb_true_iff. Qed.

(** The candidates of the blocks that are not selected yet. *)
Definition open_candidates (bi : bb_info) : Z := if is_selected bi then 0 else candidates bi.
Definition remaining (l : list bb_info) : Z := sum_of open_candidates l.

Definition has_candidates (bi : bb_info) : bool := 0 <=? candidates bi.

Lemma remaining_cons bi l : remaining (bi :: l) = open_candidates bi + remaining l.
Proof. done. Qed.

Lemma draw_spec l x :
  forallb has_candidates l = true → 0 ≤ x < remaining l →
  ∃ k bi, l !! k = Some bi ∧ is_selected bi = false ∧
    draw x l = (<[k := select bi]> l, x - remaining (take k l) - candidates bi, candidates bi) ∧
    remaining (take k l) ≤ x < remaining (take k l) + candidates bi.
Proof.
  revert x. induction l as [|b l IH]; intros x Hok Hx; [unfold remaining, sum_of in Hx; simpl in Hx; lia|].
  cbn [forallb] in Hok. apply andb_true_iff in Hok as [Hb Hok]. apply Z.leb_le in Hb. rewrite remaining_cons in Hx.
  unfold open_candidates in Hx. cbn [draw]. destruct (is_selected b) eqn:Hsel.
  - destruct (IH x Hok ltac:(lia)) as (k & bi & Hk & Hs & Hd & Hr).
    exists (S k), bi. rewrite Hd. cbn [take]. rewrite remaining_cons. unfold open_candidates. rewrite Hsel.
    repeat split; try done; lia.
  - destruct (Z.ltb_spec (x - candidates b) 0).
    + exists 0%nat, b. cbn [take]. change (remaining []) with 0. rewrite Z.sub_0_r. repeat split; try done; lia.
    + destruct (IH (x - candidates b) Hok ltac:(lia)) as (k & bi & Hk & Hs & Hd & Hr).
      exists (S k), bi. rewrite Hd. cbn [take]. rewrite remaining_cons. unfold open_candidates. rewrite Hsel.
      repeat split; try done; [|lia|lia]. cbn [fst snd]. f_equal. f_equal. lia.
Qed.

Lemma remaining_nonneg l : forallb has_candidates l = true → 0 ≤ remaining l.
Proof.
  intros H. apply sum_of_nonneg, Forall_forall. intros bi Hbi%list_elem_of_In. rewrite forallb_forall in H.
  apply H in Hbi. unfold open_candidates. case_match; [done|]. by apply Z.leb_le.
Qed.

Lemma remaining_select l k bi :
  l !! k = Some bi → is_selected bi = false → remaining (<[k := select bi]> l) = remaining l - candidates bi.
Proof.
  revert k. induction l as [|b l IH]; intros k Hk Hs; [done|]. destruct k as [|k]; simpl in Hk.
  - injection Hk as ->. change (<[0%nat := select bi]> (bi :: l)) with (select bi :: l). rewrite !remaining_cons.
    unfold open_candidates. rewrite Hs. cbn [is_selected select]. lia.
  - change (<[S k := select bi]> (b :: l)) with (b :: <[k := select bi]> l). rewrite !remaining_cons, IH by done. lia.
Qed.

(** Which draw selects block [k]: an interval as long as its candidates. *)
Lemma draw_selects l x k bi :
  forallb has_candidates l = true → 0 ≤ x < remaining l → l !! k = Some bi → is_selected bi = false →
  (draw x l).1.1 !! k = Some (select bi) ↔ remaining (take k l) ≤ x < remaining (take k l) + candidates bi.
Proof.
  intros Hok Hx Hk Hs. destruct (draw_spec l x Hok Hx) as (k' & bi' & Hk' & Hs' & Hd & Hr). rewrite Hd. cbn [fst].
  assert (Hb : ∀ i j a, (i < j)%nat → l !! i = Some a → is_selected a = false →
    remaining (take i l) + candidates a ≤ remaining (take j l)).
  { intros i j a Hij Ha Hsa. pose proof (sum_of_take open_candidates l i j a) as H.
    unfold open_candidates at 3 in H. rewrite Hsa in H. apply H; [|done|done].
    apply Forall_forall. intros y Hy%list_elem_of_In. rewrite forallb_forall in Hok. apply Hok in Hy.
    unfold open_candidates. case_match; [done|]. by apply Z.leb_le. }
  destruct (lt_eq_lt_dec k k') as [[Hlt|Heq]|Hgt].
  - rewrite list_lookup_insert_ne by lia. rewrite Hk. pose proof (Hb k k' bi Hlt Hk Hs).
    split; [|lia]. intros [= Heq]. destruct bi. simpl in *. unfold select in Heq. simpl in Heq. congruence.
  - subst k'. rewrite Hk in Hk'. injection Hk' as <-. apply lookup_lt_Some in Hk.
    rewrite list_lookup_insert_eq by done. done.
  - rewrite list_lookup_insert_ne by lia. rewrite Hk. pose proof (Hb k' k bi' Hgt Hk' Hs').
    split; [|lia]. intros [= Heq]. destruct bi. simpl in *. unfold select in Heq. simpl in Heq. congruence.
Qed.

Lemma count_interval (q : nat → bool) a m b n :
  (∀ x, (b ≤ x < b + n)%nat → q x = true ↔ (a ≤ x < a + m)%nat) →
  length (List.filter q (seq b n)) = (Nat.min (b + n) (a + m) - Nat.max b a)%nat.
Proof.
  revert b. induction n as [|n IH]; intros b Hq; simpl; [lia|].
  pose proof (Hq b ltac:(lia)) as Hb. rewrite <- (Nat.add_succ_comm b n) in Hq |- *.
  destruct (q b); cbn [length]; rewrite IH by (intros; apply Hq; lia).
  - pose proof (proj1 Hb eq_refl). lia.
  - assert (¬ (a ≤ b < a + m)%nat) by (intros H; by apply Hb in H). lia.
Qed.

(** Draws are proportional to fault candidates.  Of the values that the index
    of a draw can take, below the candidates of all blocks still open, exactly as
    many select an open block as the block has fault candidates; none selects a
    block twice. *)
Theorem draw_proportional l k bi :
  forallb has_candidates l = true → l !! k = Some bi → is_selected bi = false →
  Z.of_nat (length (List.filter (λ x, default false (is_selected <$> (draw (Z.of_nat x) l).1.1 !! k))
    (seq 0 (Z.to_nat (remaining l))))) = candidates bi.
Proof.
  intros Hok Hk Hs. pose proof (remaining_nonneg l Hok) as Hpos.
  assert (Hc : 0 ≤ candidates bi).
  { rewrite forallb_forall in Hok. apply Z.leb_le, Hok, list_elem_of_In. by eapply list_elem_of_lookup_2. }
  assert (Hpre : 0 ≤ remaining (take k l)) by (by apply remaining_nonneg, forallb_take).
  assert (Hle : remaining (take k l) + candidates bi ≤ remaining l).
  { rewrite <- (take_drop_middle l k bi Hk) at 2. unfold remaining. rewrite sum_of_app, sum_of_cons.
    unfold open_candidates at 3. rewrite Hs.
    assert (0 ≤ remaining (drop (S k) l)) by (by apply remaining_nonneg, forallb_drop). unfold remaining in *. lia. }
  rewrite (count_interval _ (Z.to_nat (remaining (take k l))) (Z.to_nat (candidates bi))); [lia|].
  intros x Hx. pose proof (draw_selects l (Z.of_nat x) k bi Hok ltac:(lia) Hk Hs) as Hd.
  destruct (draw_spec l (Z.of_nat x) Hok ltac:(lia)) as (k' & bi' & Hk' & Hs' & Hdr & Hr).
  rewrite Hdr in Hd |- *. cbn [fst] in *. pose proof (lookup_lt_Some _ _ _ Hk') as Hlt.
  destruct (decide (k = k')) as [<-|Hne].
  - rewrite list_lookup_insert_eq by done. rewrite Hk in Hk'. injection Hk' as <-. simpl. split; [lia|done].
  - rewrite list_lookup_insert_ne in Hd |- * by done. rewrite Hk in Hd |- *. simpl. rewrite Hs. split; [done|].
    intros Hin. exfalso. assert (Some bi = Some (select bi)) as Heq by (apply Hd; lia).
    injection Heq as Heq. rewrite Heq in Hs. done.
Qed.

(** ** All draws *)

Definition place (bi : bb_info) : function * nat := (bi_func bi, func_bb_index bi).
Definition selected_count (l : list bb_info) : nat := length (List.filter is_selected l).
Definition some_candidate (bi : bb_info) : bool := 1 <=? candidates bi.

Lemma some_candidate_has l : forallb some_candidate l = true → forallb has_candidates l = true.
Proof. apply forallb_impl. intros bi. unfold some_candidate, has_candidates. rewrite !Z.leb_le. lia. Qed.

Lemma candidates_select bi : candidates (select bi) = candidates bi.
Proof. done. Qed.

Lemma select_insert l k bi :
  l !! k = Some bi → is_selected bi = false →
  (place <$> <[k := select bi]> l = place <$> l) ∧
  selected_count (<[k := select bi]> l) = S (selected_count l) ∧
  forallb some_candidate (<[k := select bi]> l) = forallb some_candidate l.
Proof.
  revert k. induction l as [|b l IH]; intros k Hk Hs; [done|]. destruct k as [|k]; simpl in Hk.
  - injection Hk as ->. change (<[0%nat := select bi]> (bi :: l)) with (select bi :: l).
    unfold selected_count. simpl. rewrite Hs. done.
  - destruct (IH k Hk Hs) as (Hp & Hc & Hf). change (<[S k := select bi]> (b :: l)) with (b :: <[k := select bi]> l).
    unfold selected_count in *. rewrite !fmap_cons, Hp. simpl. rewrite Hf. destruct (is_selected b); simpl; by rewrite Hc.
Qed.

Lemma remaining_open l :
  forallb some_candidate l = true → Z.of_nat (length l) - Z.of_nat (selected_count l) ≤ remaining l.
Proof.
  induction l as [|b l IH]; intros Hok; [done|]. cbn [forallb] in Hok. apply andb_true_iff in Hok as [Hb Hok].
  apply Z.leb_le in Hb. specialize (IH Hok). rewrite remaining_cons. unfold selected_count, open_candidates in *. simpl.
  destruct (is_selected b); simpl; lia.
Qed.

Lemma draws_spec rs l :
  forallb some_candidate l = true → remaining l < 2^31 → (selected_count l + length rs ≤ length l)%nat →
  ∃ l', draws rs (remaining l) l = Ret l' ∧ place <$> l' = place <$> l ∧
    selected_count l' = (selected_count l + length rs)%nat.
Proof.
  revert l. induction rs as [|[[r1 r2] r3] rs IH]; intros l Hok Hmax Hlen; cbn [draws length].
  { exists l. rewrite Nat.add_0_r. done. }
  simpl in Hlen. pose proof (remaining_open l Hok) as Hopen. destruct (Z.ltb_spec 0 (remaining l)); [|lia].
  pose proof (Z.mod_pos_bound (rand64 r1 r2 r3) (remaining l) ltac:(lia)) as Hx.
  destruct (draw_spec l _ (some_candidate_has l Hok) Hx) as (k & bi & Hk & Hs & -> & Hr).
  destruct (select_insert l k bi Hk Hs) as (Hp & Hc & Hf). pose proof (remaining_select l k bi Hk Hs) as Hrem.
  assert (Hcand : 1 ≤ candidates bi).
  { rewrite forallb_forall in Hok. apply Z.leb_le, Hok, list_elem_of_In. by eapply list_elem_of_lookup_2. }
  pose proof (remaining_nonneg (<[k := select bi]> l) (some_candidate_has _ (eq_trans Hf Hok))) as Hnn.
  rewrite chk32_ok by lia. cbn [res_bind].
  match goal with |- context [?a <? 0] => destruct (Z.ltb_spec a 0); [|lia] end.
  rewrite <- Hrem. destruct (IH (<[k := select bi]> l)) as (l' & Hrun & Hp' & Hc'); [by rewrite Hf|lia| |].
  { rewrite Hc, length_insert. lia. }
  exists l'. split; [done|]. split; [congruence|]. lia.
Qed.

Lemma shuffled_unselected (infos sh : list bb_info) :
  infos ≡ₚ sh → Forall (λ bi, is_selected bi = false) infos → forallb some_candidate infos = true →
  selected_count sh = 0%nat ∧ forallb some_candidate sh = true ∧ length sh = length infos ∧ remaining sh = remaining infos.
Proof.
  intros Hperm Hsel Hok. rewrite Hperm in Hsel. split; [|split; [|split]].
  - unfold selected_count. clear Hperm Hok infos. induction Hsel as [|bi l Hb _ IH]; simpl; [done|]. by rewrite Hb.
  - apply forallb_forall. intros x Hx. rewrite forallb_forall in Hok. apply Hok, list_elem_of_In. rewrite Hperm.
    by apply list_elem_of_In.
  - by rewrite Hperm.
  - clear Hsel Hok. unfold remaining. induction Hperm; simpl; rewrite ?sum_of_cons; try lia; auto.
Qed.

(** The picker draws as many blocks as it can.  From a list of blocks that
    all have a fault candidate, in any order [qsort] leaves them and for all
    random numbers, no assertion fails and exactly the requested number of
    blocks (all, when more are requested than there are) is selected; the list
    itself stays the same. *)
Lemma select_faults_exact shuffle rand bl infos numfaults :
  (∀ l, l ≡ₚ shuffle l) → bl_bbs bl = or_null infos → bl_bb_count bl = Z.of_nat (length infos) →
  s_fc (stats bl inj_exec) = remaining infos → remaining infos < 2^31 →
  Forall (λ bi, is_selected bi = false) infos → forallb some_candidate infos = true → 0 ≤ numfaults →
  ∃ l, select_faults shuffle rand bl numfaults = Ret l ∧ (place <$> l) ≡ₚ (place <$> infos) ∧
    Z.of_nat (selected_count l) = Z.min numfaults (Z.of_nat (length infos)).
Proof.
  intros Hsh Hbbs Hcount Hfc Hmax Hsel Hok Hn. unfold select_faults. rewrite Hbbs, Hcount, Hfc.
  assert (Hdef : default [] (or_null infos) = infos) by (by destruct infos). rewrite Hdef.
  destruct (shuffled_unselected infos (shuffle infos) (Hsh infos) Hsel Hok) as (Hs0 & Hok' & Hlen & Hrem).
  rewrite <- Hrem.
  destruct (draws_spec (rand <$> seq 0 (Z.to_nat (if Z.of_nat (length infos) <? numfaults then Z.of_nat (length infos) else numfaults)))
    (shuffle infos) Hok') as (l & Hrun & Hp & Hc).
  { by rewrite Hrem. }
  { rewrite Hs0, Hlen, length_fmap, length_seq. destruct (Z.ltb_spec (Z.of_nat (length infos)) numfaults); lia. }
  exists l. split; [done|]. split; [by rewrite Hp, <- Hsh|].
  rewrite Hc, Hs0, length_fmap, length_seq. destruct (Z.ltb_spec (Z.of_nat (length infos)) numfaults); lia.
Qed.

(** ** Listing blocks *)

Section Counts.
Variable c : coverage_per_bb.
Variable only_executed : bool.
Variable exec : function_bb → bool.

(** [exec] is what the coverage says. *)
Definition exec_ok (b : function_bb) : Prop :=
  ∃ n, coverage_get_bb c b = Ret n ∧ exec b = negb only_executed || (0 <? n).

Definition suitable (b : function_bb) : bool := (0 <? fb_faultinj_count b) && exec b.
Definition in_category (k : category) (b : function_bb) : bool := bool_decide (category_of b (exec b) = k).

Definition stats_of (bs : list function_bb) : stats3 :=
  {| s_bb := Z.of_nat (length bs); s_fc := sum_of fb_faultcand_count bs |}.

(** The suitable blocks of a function, from position [j] on, and of functions. *)
Fixpoint func_infos (f : function) (bl : list function_bb) (j : nat) : list bb_info :=
  match bl with
  | [] => []
  | b :: bl' => (if suitable b then [{| bi_func := f; func_bb_index := j; is_selected := false |}] else []) ++ func_infos f bl' (S j)
  end.
Definition infos (fs : list function) : list bb_info := concat ((λ f, func_infos f (fn_bbs f) 0) <$> fs).

Definition shared (f : function) : bool := (1 <? length (refs f))%nat.

(** The counting pass has seen [n] functions, [m] of them shared, and the blocks
    [bs]. *)
Record counted (L : bb_info_list) (n m : Z) (bs : list function_bb) : Prop := {
  cd_bbs : bl_bbs L = None;
  cd_count : bl_bb_count L = Z.of_nat (length (List.filter suitable bs));
  cd_stats : ∀ k, stats L k = stats_of (List.filter (in_category k) bs);
  cd_total : total L = stats_of bs;
  cd_func : bl_func_count L = n;
  cd_shared : bl_func_count_shared L = m;
}.

Lemma count_block_ok bs b q :
  forallb block_ok bs = true → block_ok b = true → sum_of weight (bs ++ [b]) < 2^31 →
  count_block (stats_of (List.filter q bs)) b = Ret (stats_of (List.filter q bs ++ [b])).
Proof.
  intros Hbs Hb Hmax. rewrite sum_of_app in Hmax. pose proof (weight_filter q bs Hbs) as Hw.
  pose proof (weight_bounds _ (filter_block_ok q bs Hbs)) as Hf. pose proof (weight_bounds [b] ltac:(simpl; by rewrite Hb)) as Hwb.
  unfold sum_blocks in *. unfold count_block, stats_of. simpl in *.
  change (sum_of fb_faultcand_count [b]) with (fb_faultcand_count b + 0) in Hwb.
  rewrite !chk32_ok by lia. cbn [res_bind]. rewrite length_app, sum_of_app. simpl. do 2 f_equal; [lia|].
  change (sum_of fb_faultcand_count [b]) with (fb_faultcand_count b + 0). lia.
Qed.

Lemma filter_all_true {A} (l : list A) : List.filter (λ _, true) l = l.
Proof. induction l; simpl; congruence. Qed.

Lemma count_bb L n m bs f b j i :
  counted L n m bs → forallb block_ok bs = true → block_ok b = true → sum_of weight (bs ++ [b]) < 2^31 → exec_ok b →
  ∃ L', functions_get_injectable_bbs_bb c only_executed f b j (L, i) = Ret (L', i) ∧ counted L' n m (bs ++ [b]).
Proof.
  intros [Hn Hc Hs Ht Hf Hm] Hbs Hb Hmax (ec & Hec & He). unfold functions_get_injectable_bbs_bb. rewrite Hec. cbn [res_bind fst snd].
  rewrite <- He. fold (suitable b).
  assert (Hlen : Z.of_nat (length (List.filter suitable bs)) < 2^31 - 1).
  { pose proof (List.filter_length_le suitable bs). pose proof (weight_bounds _ Hbs) as Hws.
    pose proof (weight_bounds [b] ltac:(simpl; by rewrite Hb)) as Hwb. rewrite sum_of_app in Hmax.
    cbv zeta in Hwb, Hws. cbn [length] in Hwb. lia. }
  assert (Hstep : (if suitable b then
      match bl_bbs L with
      | Some l => if (length l <=? i)%nat then Stop FBounds
          else Ret ({| bl_bb_count := bl_bb_count L; bl_bbs := Some (<[i := {| bi_func := f; func_bb_index := j; is_selected := false |}]> l);
                       stats := stats L; total := total L; bl_func_count := bl_func_count L;
                       bl_func_count_shared := bl_func_count_shared L |}, S i)
      | None => let! n := chk32 (bl_bb_count L + 1) in
          Ret ({| bl_bb_count := n; bl_bbs := None; stats := stats L; total := total L;
                  bl_func_count := bl_func_count L; bl_func_count_shared := bl_func_count_shared L |}, i)
      end else Ret (L, i)) =
    Ret ({| bl_bb_count := Z.of_nat (length (List.filter suitable (bs ++ [b]))); bl_bbs := None; stats := stats L; total := total L;
            bl_func_count := bl_func_count L; bl_func_count_shared := bl_func_count_shared L |}, i)).
  { rewrite List.filter_app, length_app. simpl. rewrite Hn, Hc. destruct (suitable b); simpl.
    - rewrite chk32_ok by lia. cbn [res_bind]. do 3 f_equal. lia.
    - rewrite Nat.add_0_r, <- Hc. destruct L; simpl in *. by subst. }
  rewrite Hstep. cbn [res_bind fst snd bl_bbs stats total].
  rewrite Hs, (count_block_ok bs b (in_category (category_of b (exec b))) Hbs Hb Hmax). cbn [res_bind].
  pose proof (count_block_ok bs b (λ _, true) Hbs Hb Hmax) as Htot. rewrite filter_all_true in Htot.
  rewrite Ht, Htot. cbn [res_bind].
  eexists. split; [done|]. split; simpl; try done. intros k. rewrite List.filter_app. cbn [List.filter].
  assert (Hin : in_category k b = bool_decide (category_of b (exec b) = k)) by done. rewrite Hin.
  destruct (decide (k = category_of b (exec b))) as [Hk|Hk].
  - subst k. by rewrite bool_decide_true by done.
  - rewrite bool_decide_false by congruence. rewrite app_nil_r. apply Hs.
Qed.

Lemma count_bbs_pass bl L n m bs f j i :
  counted L n m bs → forallb block_ok (bs ++ bl) = true → sum_of weight (bs ++ bl) < 2^31 → (∀ b, b ∈ bl → exec_ok b) →
  ∃ L', injectable_blocks c only_executed f bl j (L, i) = Ret (L', i) ∧ counted L' n m (bs ++ bl).
Proof.
  revert L bs j. induction bl as [|b bl IH]; intros L bs j Hc Hok Hmax He; cbn [injectable_blocks].
  { exists L. rewrite app_nil_r. done. }
  rewrite (app_assoc bs [b] bl : bs ++ b :: bl = _) in Hok, Hmax |- *.
  rewrite forallb_app in Hok. apply andb_true_iff in Hok as [Hok1 Hok2]. pose proof Hok1 as Hok1'.
  rewrite forallb_app in Hok1'. apply andb_true_iff in Hok1' as [Hbs Hb]. simpl in Hb. rewrite andb_true_r in Hb.
  rewrite sum_of_app in Hmax. pose proof (weight_bounds bl Hok2) as [Hwl _].
  destruct (count_bb L n m bs f b j i Hc Hbs Hb) as (L1 & -> & Hc1); [lia|apply He; left|]. cbn [res_bind].
  apply IH; [done|by rewrite forallb_app, Hok1, Hok2|rewrite sum_of_app; lia|]. intros x Hx. apply He. by right.
Qed.

Lemma count_pass fs L n m bs i :
  counted L n m bs → forallb block_ok (bs ++ func_blocks fs) = true → sum_of weight (bs ++ func_blocks fs) < 2^31 →
  (∀ f b, f ∈ fs → b ∈ fn_bbs f → exec_ok b) → 0 ≤ m ≤ n → n + Z.of_nat (length fs) < 2^31 →
  ∃ L', res_foldl (functions_get_injectable_bbs_func c only_executed) (L, i) fs = Ret (L', i) ∧
    counted L' (n + Z.of_nat (length fs)) (m + count_funcs shared fs) (bs ++ func_blocks fs).
Proof.
  revert L n m bs. induction fs as [|f fs IH]; intros L n m bs Hc Hok Hmax He Hmn Hlen; cbn [res_foldl].
  { exists L. unfold func_blocks, count_funcs. simpl. rewrite app_nil_r, !Z.add_0_r. done. }
  assert (Hfb : func_blocks (f :: fs) = fn_bbs f ++ func_blocks fs) by done. rewrite Hfb, app_assoc in *.
  pose proof Hok as Hok'. rewrite forallb_app in Hok'. apply andb_true_iff in Hok' as [Hok1 Hok2].
  pose proof Hmax as Hmax'. rewrite sum_of_app in Hmax'. pose proof (weight_bounds _ Hok2) as [Hwl _]. cbn [length] in Hlen.
  destruct (count_bbs_pass (fn_bbs f) L n m bs f 0 i Hc Hok1) as (L1 & Hrun & Hc1); [lia|intros; eapply He; [left|done]|].
  unfold functions_get_injectable_bbs_func at 1. rewrite Hrun. cbn [res_bind fst snd]. destruct Hc1 as [Hn1 Hcc1 Hs1 Ht1 Hf1 Hm1].
  rewrite Hn1, Hf1, Hm1, chk32_ok by lia. cbn [res_bind]. fold (shared f).
  assert (Hsh : (if shared f then chk32 (m + 1) else Ret m) = Ret (m + if shared f then 1 else 0)).
  { destruct (shared f); [apply chk32_ok; lia|by rewrite Z.add_0_r]. }
  rewrite Hsh. cbn [res_bind].
  set (L2 := {| bl_bb_count := bl_bb_count L1; bl_bbs := None; stats := stats L1; total := total L1;
               bl_func_count := n + 1; bl_func_count_shared := m + if shared f then 1 else 0 |}).
  assert (Hc2 : counted L2 (n + 1) (m + if shared f then 1 else 0) (bs ++ fn_bbs f)) by (by split).
  destruct (IH L2 _ _ _ Hc2 Hok Hmax) as (L' & Hrun' & Hc').
  { intros g b Hg Hb. eapply He; [by right|done]. }
  { destruct (shared f); lia. }
  { lia. }
  exists L'. split; [exact Hrun'|]. unfold count_funcs in *. cbn [length List.filter].
  replace (n + Z.of_nat (S (length fs))) with (n + 1 + Z.of_nat (length fs)) by lia.
  destruct (shared f); cbn [length];
    match goal with |- counted _ _ ?x _ => match type of Hc' with counted _ _ ?y _ => replace x with y by lia end end; done.
Qed.

(** The filling pass: [W] is written, [k] entries of the array are left. *)
Definition filling (L : bb_info_list) (W : list bb_info) (k : nat) : bb_info_list :=
  {| bl_bb_count := bl_bb_count L; bl_bbs := Some (W ++ replicate k no_info); stats := stats L; total := total L;
     bl_func_count := bl_func_count L; bl_func_count_shared := bl_func_count_shared L |}.

Lemma fill_blocks bl L W k f j :
  (∀ b, b ∈ bl → exec_ok b) →
  injectable_blocks c only_executed f bl j (filling L W (length (func_infos f bl j) + k), length W) =
    Ret (filling L (W ++ func_infos f bl j) k, length (W ++ func_infos f bl j)).
Proof.
  revert W j. induction bl as [|b bl IH]; intros W j He; cbn [injectable_blocks func_infos].
  { by rewrite app_nil_r. }
  destruct (He b ltac:(left)) as (ec & Hec & Hx). unfold functions_get_injectable_bbs_bb at 1.
  rewrite Hec. cbn [res_bind fst snd]. rewrite <- Hx. fold (suitable b).
  assert (Hbl : ∀ x, x ∈ bl → exec_ok x) by (intros; apply He; by right).
  destruct (suitable b); cbn [app length].
  - cbn [filling bl_bbs Nat.add]. rewrite length_app. cbn [replicate].
    destruct (Nat.leb_spec (length W + length (no_info :: replicate (length (func_infos f bl (S j)) + k) no_info)) (length W));
      [cbn [length] in *; lia|]. cbn [res_bind fst snd bl_bbs].
    specialize (IH (W ++ [{| bi_func := f; func_bb_index := j; is_selected := false |}]) (S j) Hbl).
    rewrite <- app_assoc in IH. cbn [app] in IH. etrans; [|exact IH].
    rewrite insert_app_r_alt, Nat.sub_diag by lia. unfold filling. rewrite <- app_assoc, length_app, Nat.add_1_r. done.
  - cbn [res_bind fst snd filling bl_bbs]. by apply IH.
Qed.

Lemma infos_cons f fs : infos (f :: fs) = func_infos f (fn_bbs f) 0 ++ infos fs.
Proof. done. Qed.

Lemma fill_pass fs L W k :
  (∀ f b, f ∈ fs → b ∈ fn_bbs f → exec_ok b) →
  res_foldl (functions_get_injectable_bbs_func c only_executed) (filling L W (length (infos fs) + k), length W) fs =
    Ret (filling L (W ++ infos fs) k, length (W ++ infos fs)).
Proof.
  revert W. induction fs as [|f fs IH]; intros W He; cbn [res_foldl]; [by rewrite app_nil_r|].
  rewrite infos_cons, length_app, <- Nat.add_assoc. unfold functions_get_injectable_bbs_func at 1.
  rewrite fill_blocks by (intros; eapply He; [left|done]). cbn [res_bind fst snd filling bl_bbs].
  specialize (IH (W ++ func_infos f (fn_bbs f) 0)). rewrite <- app_assoc in IH. apply IH.
  intros g b Hg Hb. eapply He; [by right|done].
Qed.

Lemma length_func_infos f bl j : length (func_infos f bl j) = length (List.filter suitable bl).
Proof. revert j. induction bl as [|b bl IH]; intros j; simpl; [done|]. rewrite length_app, IH. by destruct (suitable b). Qed.

Lemma length_infos fs : length (infos fs) = length (List.filter suitable (func_blocks fs)).
Proof.
  induction fs as [|f fs IH]; [done|]. rewrite infos_cons. change (func_blocks (f :: fs)) with (fn_bbs f ++ func_blocks fs).
  by rewrite List.filter_app, !length_app, IH, length_func_infos.
Qed.

Lemma counted_empty : counted empty_list 0 0 [].
Proof. by split. Qed.
End Counts.

(** The list of injectable blocks.  Listing never fails; it contains exactly
    the blocks with an injected fault that were executed (or all with a fault,
    without logs), in the order of the table, and the statistics count all blocks
    once per category.  But when no block is suitable the array is [NULL], the
    second pass counts again, and all statistics are doubled. *)
Lemma injectable_blocks_listed c only_executed exec t :
  let fs := concat (entries t) in
  forallb block_ok (func_blocks fs) = true → 2 * sum_of weight (func_blocks fs) < 2^31 → 2 * Z.of_nat (length fs) < 2^31 →
  (∀ f b, f ∈ fs → b ∈ fn_bbs f → exec_ok c only_executed exec b) →
  let bs := if decide (infos exec fs = []) then func_blocks fs ++ func_blocks fs else func_blocks fs in
  let n := if decide (infos exec fs = []) then 2 else 1 in
  ∃ L, functions_get_injectable_bbs c only_executed t = Ret L ∧ bl_bbs L = or_null (infos exec fs) ∧
    bl_bb_count L = Z.of_nat (length (infos exec fs)) ∧ total L = stats_of bs ∧
    (∀ k, stats L k = stats_of (List.filter (in_category exec k) bs)) ∧
    bl_func_count L = n * Z.of_nat (length fs) ∧ bl_func_count_shared L = n * count_funcs shared fs.
Proof.
  intros fs Hok Hw Hlen He. unfold functions_get_injectable_bbs, functions_get_injectable_bbs_internal. fold fs.
  pose proof (weight_bounds _ Hok) as [Hw0 _].
  destruct (count_pass c only_executed exec fs empty_list 0 0 [] 0 (counted_empty exec) Hok ltac:(simpl; lia) He ltac:(lia) ltac:(lia))
    as (L1 & Hrun & Hc1). rewrite Hrun. cbn [res_bind fst snd].
  pose proof Hc1 as [Hn1 Hcc Hs1 Ht1 Hf1 Hm1]. simpl in Hcc, Hs1, Ht1, Hf1, Hm1. rewrite <- length_infos in Hcc.
  case_decide as Hnil.
  - rewrite Hnil in Hcc. simpl in Hcc. rewrite Hcc. change (Z.of_nat 0) with 0. change (calloc 0 no_info) with (@None (list bb_info)).
    set (L1' := {| bl_bb_count := 0; bl_bbs := None; stats := stats L1; total := total L1; bl_func_count := bl_func_count L1;
                   bl_func_count_shared := bl_func_count_shared L1 |}).
    assert (Hc1' : counted exec L1' (Z.of_nat (length fs)) (count_funcs shared fs) (func_blocks fs)).
    { split; simpl; try done. by rewrite <- length_infos, Hnil. }
    destruct (count_pass c only_executed exec fs L1' _ _ _ 0 Hc1') as (L2 & Hrun2 & [Hn2 Hcc2 Hs2 Ht2 Hf2 Hm2]).
    { by rewrite forallb_app, Hok. }
    { rewrite sum_of_app. lia. }
    { exact He. }
    { unfold count_funcs. pose proof (List.filter_length_le shared fs). lia. }
    { lia. }
    cbv zeta. fold L1'. rewrite Hrun2. cbn [res_bind fst snd]. rewrite List.filter_app, length_app, <- !length_infos, Hnil in Hcc2.
    simpl in Hcc2. rewrite Hcc2. cbn [Z.of_nat Z.eqb]. exists L2. rewrite Hnil. simpl.
    repeat split; try done; lia.
  - set (k := length (infos exec fs)) in *. assert (Hk : k ≠ 0%nat) by (unfold k; by destruct (infos exec fs)).
    assert (Hcall : calloc (bl_bb_count L1) no_info = Some (replicate k no_info)).
    { unfold calloc. rewrite Hcc. destruct (Z.eqb_spec (Z.of_nat k) 0); [lia|]. by rewrite Nat2Z.id. }
    rewrite Hcall. pose proof (fill_pass c only_executed exec fs L1 [] 0 He) as Hfill.
    fold k in Hfill. rewrite Nat.add_0_r in Hfill. unfold filling in Hfill at 1. cbn [app length] in Hfill.
    rewrite Hfill. cbn [res_bind fst snd filling bl_bb_count replicate].
    rewrite Hcc. fold k. rewrite Z.eqb_refl. eexists. split; [done|]. cbn [bl_bbs bl_bb_count total stats bl_func_count bl_func_count_shared].
    rewrite ?app_nil_r. assert (Hor : or_null (infos exec fs) = Some (infos exec fs)) by (by destruct (infos exec fs)).
    rewrite Hor. unfold filling. cbn [bl_bbs bl_bb_count total stats bl_func_count bl_func_count_shared replicate].
    rewrite app_nil_r. repeat split; try done; lia.
Qed.

(** ** The picker *)

(** Faults are injected at fault candidates. *)
Definition fault_has_candidate (b : function_bb) : bool := (fb_faultinj_count b <=? 0) || (0 <? fb_faultcand_count b).

Lemma func_infos_spec exec f pre bl :
  fn_bbs f = pre ++ bl → forallb fault_has_candidate bl = true →
  let l := func_infos exec f bl (length pre) in
  Forall (λ bi, is_selected bi = false) l ∧ forallb some_candidate l = true ∧
  remaining l = sum_of fb_faultcand_count (List.filter (in_category exec inj_exec) bl).
Proof.
  revert pre. induction bl as [|b bl IH]; intros pre Hf Hok; cbn [func_infos List.filter]; [done|].
  cbn [forallb] in Hok. apply andb_true_iff in Hok as [Hb Hok].
  destruct (IH (pre ++ [b])) as (Hs & Hc & Hr); [by rewrite <- app_assoc|done|].
  rewrite length_app, Nat.add_1_r in Hs, Hc, Hr. unfold fault_has_candidate in Hb. rewrite orb_true_iff, Z.leb_le, Z.ltb_lt in Hb.
  assert (Hcat : in_category exec inj_exec b = suitable exec b).
  { unfold in_category, suitable, category_of. destruct (exec b); rewrite ?andb_false_r, ?andb_true_r;
      destruct (Z.leb_spec (fb_faultcand_count b) 0), (Z.leb_spec (fb_faultinj_count b) 0), (Z.ltb_spec 0 (fb_faultinj_count b));
      try lia; done. }
  rewrite Hcat. destruct (suitable exec b) eqn:Hsuit; cbn [app]; [|done].
  assert (Hcand : candidates {| bi_func := f; func_bb_index := length pre; is_selected := false |} = fb_faultcand_count b).
  { unfold candidates. cbn [bi_func func_bb_index]. by rewrite Hf, list_lookup_middle. }
  split; [by constructor|]. split.
  - cbn [forallb]. rewrite Hc, andb_true_r. unfold some_candidate. rewrite Hcand. apply Z.leb_le.
    unfold suitable in Hsuit. apply andb_true_iff in Hsuit as [Hi%Z.ltb_lt _]. lia.
  - rewrite remaining_cons, Hr, sum_of_cons. unfold open_candidates. cbn [is_selected]. by rewrite Hcand.
Qed.

Lemma infos_spec exec fs :
  forallb fault_has_candidate (func_blocks fs) = true →
  Forall (λ bi, is_selected bi = false) (infos exec fs) ∧ forallb some_candidate (infos exec fs) = true ∧
  remaining (infos exec fs) = sum_of fb_faultcand_count (List.filter (in_category exec inj_exec) (func_blocks fs)).
Proof.
  induction fs as [|f fs IH]; intros Hok; [done|]. rewrite infos_cons.
  change (func_blocks (f :: fs)) with (fn_bbs f ++ func_blocks fs) in *.
  rewrite forallb_app in Hok. apply andb_true_iff in Hok as [Hf Hok]. destruct (IH Hok) as (Hs & Hc & Hr).
  destruct (func_infos_spec exec f [] (fn_bbs f) eq_refl Hf) as (Hs1 & Hc1 & Hr1). cbn [length] in Hs1, Hc1, Hr1.
  split; [by apply Forall_app|]. split; [by rewrite forallb_app, Hc1, Hc|].
  unfold remaining in *. by rewrite sum_of_app, List.filter_app, sum_of_app, Hr1, Hr.
Qed.

(** C16: the picker selects executed faults, as many as requested.  For a table in
    which faults are injected at fault candidates, listing and drawing never fail
    an assertion, whatever the random numbers and the order [qsort] leaves; the
    blocks to choose from are those with a fault that were executed (all with a
    fault without logs), each once, and of them exactly the requested number is
    selected, or all when fewer exist. *)
Theorem picker_selects c only_executed exec t shuffle rand numfaults :
  let fs := concat (entries t) in
  forallb block_ok (func_blocks fs) = true → forallb fault_has_candidate (func_blocks fs) = true →
  2 * sum_of weight (func_blocks fs) < 2^31 → 2 * Z.of_nat (length fs) < 2^31 →
  (∀ f b, f ∈ fs → b ∈ fn_bbs f → exec_ok c only_executed exec b) →
  (∀ l, l ≡ₚ shuffle l) → 0 ≤ numfaults →
  ∃ L l, functions_get_injectable_bbs c only_executed t = Ret L ∧ select_faults shuffle rand L numfaults = Ret l ∧
    (place <$> l) ≡ₚ (place <$> infos exec fs) ∧
    Z.of_nat (selected_count l) = Z.min numfaults (Z.of_nat (length (infos exec fs))).
Proof.
  intros fs Hok Hfc Hw Hlen He Hsh Hn. pose proof (injectable_blocks_listed c only_executed exec t Hok Hw Hlen He) as Hlist.
  fold fs in Hlist. cbv zeta in Hlist. destruct Hlist as (L & Hrun & Hbbs & Hcount & _ & Hstats & _).
  destruct (infos_spec exec fs Hfc) as (Hsel & Hcand & Hrem).
  assert (Hstat : s_fc (stats L inj_exec) = remaining (infos exec fs)).
  { rewrite Hstats, Hrem. unfold stats_of. cbn [s_fc]. case_decide as Hnil; [|done].
    rewrite Hnil in Hrem. rewrite List.filter_app, sum_of_app, <- Hrem. done. }
  assert (Hmax : remaining (infos exec fs) < 2^31).
  { pose proof (weight_filter (in_category exec inj_exec) _ Hok) as Hf.
    pose proof (weight_bounds _ (filter_block_ok (in_category exec inj_exec) _ Hok)) as Hb.
    pose proof (weight_bounds _ Hok) as [Hb0 _]. unfold sum_blocks in *. cbv zeta in *. lia. }
  destruct (select_faults_exact shuffle rand L (infos exec fs) numfaults Hsh Hbbs Hcount Hstat Hmax Hsel Hcand Hn) as (l & Hl & Hp & Hs).
  by exists L, l.
Qed.

(** An empty list doubles the statistics.  When no block is suitable, the
    array of blocks is the [NULL] of an empty allocation, by which the second pass
    recognises the first one: every statistic the picker prints is twice the
    number of blocks, candidates and functions of the table. *)
Theorem empty_list_doubles_statistics c only_executed exec t :
  let fs := concat (entries t) in
  forallb block_ok (func_blocks fs) = true → 2 * sum_of weight (func_blocks fs) < 2^31 → 2 * Z.of_nat (length fs) < 2^31 →
  (∀ f b, f ∈ fs → b ∈ fn_bbs f → exec_ok c only_executed exec b) → infos exec fs = [] →
  ∃ L, functions_get_injectable_bbs c only_executed t = Ret L ∧ bl_bbs L = None ∧ bl_bb_count L = 0 ∧
    s_bb (total L) = 2 * Z.of_nat (length (func_blocks fs)) ∧
    s_fc (total L) = 2 * sum_of fb_faultcand_count (func_blocks fs) ∧
    (∀ k, s_bb (stats L k) = 2 * Z.of_nat (length (List.filter (in_category exec k) (func_blocks fs)))) ∧
    bl_func_count L = 2 * Z.of_nat (length fs) ∧ bl_func_count_shared L = 2 * count_funcs shared fs.
Proof.
  intros fs Hok Hw Hlen He Hnil. pose proof (injectable_blocks_listed c only_executed exec t Hok Hw Hlen He) as Hlist.
  fold fs in Hlist. rewrite decide_True, Hnil in Hlist by done. rewrite decide_True in Hlist by done. cbv zeta in Hlist.
  destruct Hlist as (L & Hrun & Hbbs & Hcount & Htot & Hst & Hf & Hs). exists L. rewrite Htot.
  repeat split; try done.
  - unfold stats_of. cbn [s_bb]. rewrite length_app. lia.
  - unfold stats_of. cbn [s_fc]. rewrite sum_of_app. lia.
  - intros k. rewrite Hst. unfold stats_of. cbn [s_bb]. rewrite List.filter_app, length_app. lia.
Qed.

(** ** Fault specifications *)

(** Modules as they are loaded from map files. *)
Definition loaded (ps : list (string * list fn)) : module_ll := (λ p, module_image p.1 p.2) <$> ps.

Definition module_blocks (m : module) : Z := sum_of bb_count (func_list m).

Lemma module_image_first name p i mf :
  func_list (module_image name p) !! i = Some mf →
  bb_index_first mf = sum_of bb_count (take i (func_list (module_image name p))) ∧
  Forall (λ f, 0 ≤ bb_count f) (func_list (module_image name p)).
Proof.
  assert (Hl : func_list (module_image name p) = funcs_image (None, 0) 0 p).
  { unfold func_list. simpl. by destruct (funcs_image _ _ _). }
  rewrite Hl. intros Hi. split; [|apply funcs_image_counts]. by destruct (funcs_image_first _ _ _ _ _ Hi) as [-> _].
Qed.

(** Linking keeps a module's functions, their sizes and numbers. *)
Lemma linked_module_lookup t m m' i mf :
  linked_module t m m' → func_list m !! i = Some mf →
  ∃ mf', func_list m' !! i = Some mf' ∧ f_name mf' = f_name mf ∧ f_path mf' = f_path mf ∧ bb_count mf' = bb_count mf ∧
    bb_index_first mf' = bb_index_first mf.
Proof.
  intros (_ & _ & Hl) Hi. destruct (Forall2_lookup_l _ _ _ _ _ Hl Hi) as (mf' & Hi' & _ & p & ->).
  exists (set_global mf p). by destruct mf.
Qed.

Lemma linked_module_counts t m m' : linked_module t m m' → bb_count <$> func_list m' = bb_count <$> func_list m.
Proof.
  intros (_ & _ & Hl). induction Hl as [|f f' l l' (_ & p & ->) _ IH]; [done|]. rewrite !fmap_cons, IH. by destruct f.
Qed.

Lemma sum_of_counts l l' : bb_count <$> l = bb_count <$> l' → sum_of bb_count l = sum_of bb_count l'.
Proof.
  revert l'. induction l as [|f l IH]; intros [|f' l'] H; try done. rewrite !fmap_cons in H. injection H as Hc Hl.
  rewrite !sum_of_cons, Hc. f_equal. by apply IH.
Qed.

(** A specification names the block: the module is found under its name, and the
    number leads to block [j] of a function with the entry's name and path. *)
Definition names_block (ms : module_ll) (f : function) (j : nat) (s : option string * Z) : Prop :=
  ∃ mi fi m mf, ms !! mi = Some m ∧ m_name m = s.1 ∧ func_list m !! fi = Some mf ∧
    f_name mf = Some (fn_name' f) ∧ f_path mf = Some (fn_path' f) ∧ module_get_bb_by_index m s.2 = Ret (Some (fi, j)).

(** What a reference needs for its specification. *)
Definition printable_ref (ms : module_ll) (f : function) (r : nat * nat) : Prop :=
  ∃ m mf, ms !! r.1 = Some m ∧ func_list m !! r.2 = Some mf ∧ f_name mf = Some (fn_name' f) ∧
    f_path mf = Some (fn_path' f) ∧ bb_count mf = fn_bb_count f ∧ Forall (λ g, 0 ≤ bb_count g) (func_list m) ∧
    bb_index_first mf = sum_of bb_count (take r.2 (func_list m)) ∧ module_blocks m < 2^31.

Lemma printable_number m fi mf j :
  func_list m !! fi = Some mf → Forall (λ g, 0 ≤ bb_count g) (func_list m) → Z.of_nat j < bb_count mf →
  bb_index_first mf = sum_of bb_count (take fi (func_list m)) → module_blocks m < 2^31 →
  0 < bb_index_first mf + Z.of_nat j + 1 < 2^31 ∧
  module_get_bb_by_index m (bb_index_first mf + Z.of_nat j + 1) = Ret (Some (fi, j)).
Proof.
  intros Hfi Hnn Hj Hfirst Hmax. pose proof (sum_of_nonneg bb_count _ (Forall_take _ fi _ Hnn)) as H0.
  pose proof (sum_of_take bb_count (func_list m) fi (S fi) mf Hnn Hfi ltac:(lia)) as Ht. unfold module_blocks in Hmax.
  split; [lia|]. unfold module_get_bb_by_index. destruct (Z.ltb_spec 0 (bb_index_first mf + Z.of_nat j + 1)); [|lia].
  f_equal. apply (get_bb_loop_spec (func_list m) fi j 0 mf); [done|done|done|]. rewrite Hfirst. done.
Qed.

(** An item of the specification of block [j] of an entry: the block's module and
    its number there. *)
Definition block_item (ms : module_ll) (f : function) (j : nat) (s : option string * Z) : Prop :=
  ∃ mi fi m mf, ms !! mi = Some m ∧ func_list m !! fi = Some mf ∧ f_name mf = Some (fn_name' f) ∧
    f_path mf = Some (fn_path' f) ∧ bb_count mf = fn_bb_count f ∧ s = (m_name m, block_position m fi j + 1) ∧
    0 < s.2 < 2^31 ∧ module_get_bb_by_index m s.2 = Ret (Some (fi, j)).

Lemma block_item_names ms f j s : block_item ms f j s → names_block ms f j s.
Proof. intros (mi & fi & m & mf & Hm & Hfi & Hn & Hp & _ & -> & _ & Hget). by exists mi, fi, m, mf. Qed.

Lemma spec_refs_spec ms f j rs :
  Z.of_nat j < fn_bb_count f → Forall (printable_ref ms f) rs →
  ∃ l, spec_refs ms j rs = Ret l ∧ length l = length rs ∧ Forall (block_item ms f j) l.
Proof.
  intros Hj. induction 1 as [|[mi fi] rs (m & mf & Hm & Hfi & Hn & Hp & Hc & Hnn & Hfirst & Hmax) _ (l & Hrun & Hlen & Hall)].
  { by exists []. }
  cbn [spec_refs fst snd] in *. rewrite Hm, Hfi.
  destruct (printable_number m fi mf j Hfi Hnn ltac:(lia) Hfirst Hmax) as [Hr Hget].
  destruct (Z.ltb_spec (Z.of_nat j) (bb_count mf)); [|lia]. rewrite chk32_ok by lia. cbn [res_bind]. rewrite Hrun. cbn [res_bind].
  eexists. split; [done|]. split; [simpl; by rewrite Hlen|]. constructor; [|done]. exists mi, fi, m, mf.
  unfold block_position. rewrite <- Hfirst. done.
Qed.

(** The references of a built table can be printed. *)
Lemma built_refs_printable ps t ms' f :
  forallb module_ok (loaded ps) = true → sum_of func_count (loaded ps) ≤ 2^30 →
  forallb (λ m, module_blocks m <? 2^31) (loaded ps) = true →
  functions_build_table (loaded ps) = Ret (t, ms') → f ∈ concat (entries t) →
  fn_bb_count f = Z.of_nat (length (fn_bbs f)) ∧ refs f ≠ [] ∧ Forall (printable_ref ms' f) (refs f).
Proof.
  intros Hok Hsum Hsize Hbuild Hf. destruct (build_table_refs _ _ _ f Hok Hsum Hbuild Hf) as [[Hne Hrefs] Hcount].
  pose proof (build_table_spec _ Hok Hsum) as Hspec. rewrite Hbuild in Hspec. destruct Hspec as (t0 & _ & _ & Hl).
  split; [done|]. split; [done|].
  eapply Forall_impl; [exact Hrefs|]. intros [mi fi] (m & mf & Hm & Hfi & Hn & Hp & Hc). cbn [fst snd] in *.
  destruct (Forall2_lookup_l _ _ _ _ _ Hl Hm) as (m' & Hm' & Hlm).
  destruct (linked_module_lookup t0 m m' fi mf Hlm Hfi) as (mf' & Hfi' & Hn' & Hp' & Hc' & Hb').
  pose proof (linked_module_counts t0 m m' Hlm) as Hcounts.
  assert (Hmem : m ∈ loaded ps) by (by eapply list_elem_of_lookup_2). pose proof Hmem as Himg.
  apply list_elem_of_fmap in Himg as ([name p] & -> & _). cbn [fst snd] in *.
  destruct (module_image_first name p fi mf Hfi) as [Hfirst Hnn].
  exists m', mf'. cbn [fst snd]. split; [done|]. split; [done|]. split; [congruence|]. split; [congruence|]. split; [congruence|].
  split; [|split].
  - apply (Forall_fmap bb_count (Z.le 0)). rewrite Hcounts. by apply Forall_fmap.
  - rewrite Hb', Hfirst. apply sum_of_counts. by rewrite !fmap_take, Hcounts.
  - unfold module_blocks. rewrite (sum_of_counts _ _ Hcounts). rewrite forallb_forall in Hsize.
    apply list_elem_of_In, Hsize in Hmem. by apply Z.ltb_lt.
Qed.

(** Fault specifications name the block in every module.  For modules loaded
    from map files and their function table, the specification printed for block
    [j] of an entry has one item per reference of the entry, and each resolves
    through [module_get_bb_by_index], in the module it names, to block [j] of the
    function with the entry's name and path; no assertion fails and no number
    overflows. *)
Theorem fault_specs_resolve ps t ms' f j sel :
  forallb module_ok (loaded ps) = true → sum_of func_count (loaded ps) ≤ 2^30 →
  forallb (λ m, module_blocks m <? 2^31) (loaded ps) = true →
  functions_build_table (loaded ps) = Ret (t, ms') → f ∈ concat (entries t) → (j < length (fn_bbs f))%nat →
  ∃ l, fault_spec ms' {| bi_func := f; func_bb_index := j; is_selected := sel |} = Ret l ∧ length l = length (refs f) ∧
    Forall (names_block ms' f j) l.
Proof.
  intros Hok Hsum Hsize Hbuild Hf Hj.
  destruct (built_refs_printable ps t ms' f Hok Hsum Hsize Hbuild Hf) as (Hcount & _ & Hrefs).
  destruct (spec_refs_spec ms' f j (refs f) ltac:(lia) Hrefs) as (l & Hl & Hlen & Hall).
  exists l. split; [done|]. split; [done|]. eapply Forall_impl; [exact Hall|]. apply block_item_names.
Qed.

(** ** A selection *)

Definition picker_programs : list (string * list fn) :=
  [("pm", [{| fn_name := "main"; fn_path := "main.c"; fn_blocks := [[ev_instruction]; [ev_fault_candidate "swap"; ev_fault_injected "swap"]] |};
           {| fn_name := "f"; fn_path := "f.c"; fn_blocks := [[ev_fault_candidate "null"; ev_fault_candidate "null"; ev_fault_injected "null"]] |}]);
   ("vfs", [{| fn_name := "f"; fn_path := "f.c"; fn_blocks := [[ev_fault_candidate "null"; ev_fault_candidate "null"; ev_fault_injected "null"]] |}])].
Definition picker_build : function_hashtable * module_ll :=
  ret_or ({| entry_count := 0; entries := []; global_bb_count := 0; global_func_count := 0 |}, [])
    (functions_build_table (loaded picker_programs)).
Definition picker_infos : list bb_info := infos (λ _, true) (concat (entries picker_build.1)).
Definition no_faults : function_hashtable := ret_or picker_build.1
  (let! r := functions_build_table (loaded [("pm", [{| fn_name := "g"; fn_path := "g.c"; fn_blocks := [[ev_instruction]; [ev_fault_candidate "swap"]] |}])]) in Ret r.1).

Example picked :
  (let! L := functions_get_injectable_bbs (coverage_init picker_build.1) false picker_build.1 in
   let! l := select_faults (@rev bb_info) (λ _, (0, 0, 1)) L 1 in
   res_map (fault_spec picker_build.2) (List.filter is_selected l)) = Ret [[(Some "pm", 3); (Some "vfs", 1)]].
Proof. vm_compute. reflexivity. Qed.

(** Without logs the counts are not used, but they are read. *)
Lemma exec_ok_all c fs :
  forallb (λ f, forallb (λ b, is_ret (coverage_get_bb c b)) (fn_bbs f)) fs = true →
  ∀ f b, f ∈ fs → b ∈ fn_bbs f → exec_ok c false (λ _, true) b.
Proof.
  intros Hall f b Hf Hb. rewrite forallb_forall in Hall. apply list_elem_of_In, Hall in Hf. rewrite forallb_forall in Hf.
  apply list_elem_of_In, Hf in Hb. destruct (coverage_get_bb c b) as [n|] eqn:Hn; [|done]. by exists n.
Qed.

Lemma draw_proportional_witness :
  Z.of_nat (length (List.filter (λ x, default false (is_selected <$> (draw (Z.of_nat x) picker_infos).1.1 !! 1%nat))
    (seq 0 (Z.to_nat (remaining picker_infos))))) = candidates (nth 1 picker_infos no_info) ∧
  0 < candidates (nth 1 picker_infos no_info).
Proof.
  split; [|vm_compute; reflexivity].
  apply (draw_proportional picker_infos 1 (nth 1 picker_infos no_info)); vm_compute; reflexivity.
Defined.

Lemma picker_selects_witness :
  ∃ L l, functions_get_injectable_bbs (coverage_init picker_build.1) false picker_build.1 = Ret L ∧
    select_faults (@rev bb_info) (λ _, (1, 2, 3)) L 1 = Ret l ∧ (place <$> l) ≡ₚ (place <$> picker_infos) ∧
    Z.of_nat (selected_count l) = Z.min 1 (Z.of_nat (length picker_infos)).
Proof.
  apply (picker_selects (coverage_init picker_build.1) false (λ _, true) picker_build.1 (@rev bb_info) (λ _, (1, 2, 3)) 1);
    [vm_compute; reflexivity | vm_compute; reflexivity | vm_compute; reflexivity | vm_compute; reflexivity | | |lia].
  - apply exec_ok_all. vm_compute. reflexivity.
  - intros l. apply Permutation_rev.
Defined.

Lemma empty_list_doubles_statistics_witness :
  ∃ L, functions_get_injectable_bbs (coverage_init no_faults) false no_faults = Ret L ∧ bl_func_count L = 2 * 1.
Proof.
  edestruct (empty_list_doubles_statistics (coverage_init no_faults) false (λ _, true) no_faults) as (L & Hrun & _ & _ & _ & _ & _ & Hf & _);
    [vm_compute; reflexivity | vm_compute; reflexivity | vm_compute; reflexivity | apply exec_ok_all; vm_compute; reflexivity
    | vm_compute; reflexivity | ].
  exists L. split; [exact Hrun|]. rewrite Hf. vm_compute. reflexivity.
Defined.

Lemma fault_specs_resolve_witness :
  ∃ l, fault_spec picker_build.2 (nth 0 picker_infos no_info) = Ret l ∧ length l = length (refs (bi_func (nth 0 picker_infos no_info))) ∧
    Forall (names_block picker_build.2 (bi_func (nth 0 picker_infos no_info)) (func_bb_index (nth 0 picker_infos no_info))) l.
Proof.
  apply (fault_specs_resolve picker_programs picker_build.1 picker_build.2 (bi_func (nth 0 picker_infos no_info))
    (func_bb_index (nth 0 picker_infos no_info)) false);
    [vm_compute; reflexivity | vm_compute; congruence | vm_compute; reflexivity | vm_compute; reflexivity | | vm_compute; lia].
  apply (list_elem_of_lookup_2 _ 0). vm_compute. reflexivity.
Defined.
