(* ===== verification/FaultSpec.v ===== *)
(** * Fault files: from [faultpicker.c] to [testpicker.c]

    The fault picker prints one line per selected block: for every module that
    contains the block its name and the number of the block there, and a comment
    with the source position.  The test picker reads these lines back and looks
    up the block among the modules it loaded. *)

From Stdlib Require Import ZArith Lia Ascii String.
From stdpp Require Import base list numbers strings gmap.
From S2P Require Import LogReader Prelude Decimal Helper MapFile Module Function LineCounter Coverage CoverageStats FaultPicker.

(** ** Printing *)

(** [%d] *)
Definition print_int (z : Z) : string := if z <? 0 then "-" +:+ print_dec (- z) else print_dec z.

Fixpoint spec_text (first : bool) (l : list (option string * Z)) : res string :=
  match l with
  | [] => Ret ""
  | (name, n) :: l' =>
      match name with
      | None => Stop FNull
      | Some name =>
          let! r := spec_text false l' in
          Ret ((if first then "" else ":") +:+ name +:+ ":" +:+ print_int n +:+ r)
      end
  end.

Definition position_text (b : function_bb) : string :=
  match fb_fault_path b with
  | Some path => "@" +:+ path +:+ ":" +:+ print_int (fb_fault_line b)
  | None => ""
  end.

Definition line_feed : string := String "010" "".

(** The line of a selected block, without [-v]. *)
Definition fault_text (ms : module_ll) (bi : bb_info) : res string :=
  let! l := fault_spec ms bi in
  let! s := spec_text true l in
  match fn_bbs (bi_func bi) !! func_bb_index bi with
  | None => Stop FBounds
  | Some b => Ret (s +:+ position_text b +:+ line_feed)
  end.

Fixpoint print_faults (ms : module_ll) (l : list bb_info) : res string :=
  match l with
  | [] => Ret ""
  | bi :: l' =>
      let! s := if is_selected bi then fault_text ms bi else Ret "" in
      let! r := print_faults ms l' in
      Ret (s +:+ r)
  end.

(** ** Reading *)

Definition faultspec_size : nat := 1024.

(** The fault specifications passed on, one per line, without comments; a line
    that does not fit ends the reading. *)
Fixpoint select_tests_with_faultfile (comment : bool) (faultspec : string) (file : string) : list string :=
  match file with
  | EmptyString => if (String.length faultspec =? 0)%nat then [] else [c_string faultspec]
  | String a file' =>
      if Ascii.eqb a "010" then c_string faultspec :: select_tests_with_faultfile false "" file'
      else if comment then select_tests_with_faultfile comment faultspec file'
      else if Ascii.eqb a "@" then select_tests_with_faultfile true faultspec file'
      else if (faultspec_size <=? String.length faultspec + 1)%nat then []
      else select_tests_with_faultfile comment (faultspec +:+ String a "") file'
  end.

(** Up to a colon. *)
Fixpoint scan_name (p : string) : string * string :=
  match p with
  | String a p' => if Ascii.eqb a ":" then ("", p) else let r := scan_name p' in (String a r.1, r.2)
  | EmptyString => ("", "")
  end.

Fixpoint scan_index (v : Z) (p : string) : res (Z * string) :=
  match p with
  | String a p' => if is_digit a then let! v := chk32 (v * 10 + digit_val a) in scan_index v p' else Ret (v, p)
  | EmptyString => Ret (v, p)
  end.

Section Resolve.
Variable t : function_hashtable.
Variable modules : module_ll.

(** One round of the loop, [p] at a module name: [inl] the result, [inr] the
    block so far and the rest.  After a module or block that is not known the
    loop continues before the separator. *)
Definition spec_round (bbindex : Z) (p : string) : res (Z + Z * string) :=
  let (name, p1) := scan_name p in
  match name, p1 with
  | String _ _, String _ p2 =>
      let! r := scan_index 0 p2 in
      let '(bbindex_mod, p3) := r in
      if bbindex_mod <=? 0 then Ret (inl (-1))
      else
        let! m := module_find_with_namelen modules p (String.length name) in
        match m with
        | None => Ret (inr (bbindex, p3))
        | Some m =>
            let! bbindex_glob := module_bbindex_to_global t m (bbindex_mod - 1) in
            if bbindex_glob <? 0 then Ret (inr (bbindex, p3))
            else if (0 <=? bbindex) && negb (bbindex =? bbindex_glob) then Ret (inl (-1))
            else
              match p3 with
              | EmptyString => Ret (inl bbindex_glob)
              | String a p4 => if Ascii.eqb a ":" then Ret (inr (bbindex_glob, p4)) else Ret (inl (-1))
              end
        end
  | _, _ => Ret (inl (-1))
  end.

Fixpoint spec_loop (fuel : nat) (bbindex : Z) (p : string) : res Z :=
  match fuel with
  | O => Stop FFuel
  | S fuel' =>
      let! r := spec_round bbindex p in
      match r with inl result => Ret result | inr (bbindex, p) => spec_loop fuel' bbindex p end
  end.

Definition faultspec_to_bbindex (faultspec : string) : res Z :=
  match faultspec with
  | EmptyString => Ret (-1)
  | _ => spec_loop (S (String.length faultspec)) (-1) faultspec
  end.
End Resolve.

(** ** Reading a printed file *)

Definition spec_char (a : ascii) : bool :=
  negb (Ascii.eqb a "010") && negb (Ascii.eqb a "@") && negb (Ascii.eqb a "000").
Definition no_line_feed (s : string) : bool := string_forall (λ a, negb (Ascii.eqb a "010")) s.

Lemma c_string_spec s : string_forall spec_char s = true → c_string s = s.
Proof.
  induction s as [|a s IH]; simpl; [done|]. unfold spec_char.
  intros [[_ ->%negb_true_iff]%andb_true_iff H]%andb_true_iff. by rewrite IH.
Qed.

Lemma read_spec s buf rest :
  string_forall spec_char s = true → (String.length buf + String.length s < faultspec_size)%nat →
  select_tests_with_faultfile false buf (s +:+ rest) = select_tests_with_faultfile false (buf +:+ s) rest.
Proof.
  revert buf. induction s as [|a s IH]; intros buf Hs Hlen; [by rewrite string_app_nil_r|].
  simpl in Hs. apply andb_true_iff in Hs as [Ha Hs]. unfold spec_char in Ha. rewrite !andb_true_iff, !negb_true_iff in Ha.
  destruct Ha as [[Hnl Hat] _]. cbn [String.length] in Hlen. change (String a s +:+ rest) with (String a (s +:+ rest)).
  cbn [select_tests_with_faultfile]. rewrite Hnl, Hat. destruct (Nat.leb_spec faultspec_size (String.length buf + 1)); [lia|].
  rewrite IH; [|done|rewrite string_length_app; cbn [String.length]; lia]. by rewrite string_app_assoc.
Qed.

Lemma read_comment s buf rest :
  no_line_feed s = true →
  select_tests_with_faultfile true buf (s +:+ line_feed +:+ rest) = c_string buf :: select_tests_with_faultfile false "" rest.
Proof.
  unfold no_line_feed. induction s as [|a s IH]; [done|]. simpl. intros [->%negb_true_iff H]%andb_true_iff. by apply IH.
Qed.

(** A block's line is read as its specification. *)
Lemma read_fault_line s c rest :
  string_forall spec_char s = true → (String.length s < faultspec_size)%nat →
  c = "" ∨ (∃ c', c = String "@" c' ∧ no_line_feed c' = true) →
  select_tests_with_faultfile false "" ((s +:+ c +:+ line_feed) +:+ rest) = s :: select_tests_with_faultfile false "" rest.
Proof.
  intros Hs Hlen Hc. rewrite string_app_assoc, (read_spec s "") by done. change ("" +:+ s) with s.
  destruct Hc as [->|(c' & -> & Hc')].
  - change (("" +:+ line_feed) +:+ rest) with (String "010" rest). cbn [select_tests_with_faultfile].
    change (Ascii.eqb "010" "010") with true. cbn [select_tests_with_faultfile]. by rewrite c_string_spec.
  - change ((String "@" c' +:+ line_feed) +:+ rest) with (String "@" ((c' +:+ line_feed) +:+ rest)).
    rewrite string_app_assoc. cbn [select_tests_with_faultfile]. change (Ascii.eqb "@" "010") with false.
    change (Ascii.eqb "@" "@") with true. cbn iota. by rewrite read_comment, c_string_spec.
Qed.

(** ** Resolving a specification *)

Definition name_char (a : ascii) : bool := spec_char a && negb (Ascii.eqb a ":").
Definition spec_name (n : string) : bool := negb (String.length n =? 0)%nat && string_forall name_char n.

Lemma scan_name_app n rest : string_forall name_char n = true → scan_name (n +:+ String ":" rest) = (n, String ":" rest).
Proof.
  induction n as [|a n IH]; [done|]. simpl. intros [Ha H]%andb_true_iff. unfold name_char in Ha.
  apply andb_true_iff in Ha as [_ ->%negb_true_iff]. by rewrite IH.
Qed.

Lemma scan_index_dec v s :
  string_forall is_digit s = true → 0 ≤ v → (read_dec v s).1 < 2^31 →
  ∀ rest, starts_with_digit rest = false → scan_index v (s +:+ rest) = Ret ((read_dec v s).1, rest).
Proof.
  revert v. induction s as [|a s IH]; intros v Hs Hv Hmax rest Hr; simpl in *.
  - destruct rest as [|b rest]; simpl in *; [done|]. by rewrite Hr.
  - apply andb_true_iff in Hs as [Ha Hs]. rewrite Ha in *. pose proof (is_digit_val a Ha) as Hd.
    assert (Hge : v * 10 + digit_val a ≤ (read_dec (v * 10 + digit_val a) s).1).
    { clear -Hv Hd Hs. assert (0 ≤ v * 10 + digit_val a) by lia. revert H. generalize (v * 10 + digit_val a) as w.
      induction s as [|b s IH]; intros w Hw; simpl; [lia|]. simpl in Hs. apply andb_true_iff in Hs as [Hb Hs]. rewrite Hb.
      pose proof (is_digit_val b Hb). specialize (IH Hs (w * 10 + digit_val b) ltac:(lia)). lia. }
    rewrite chk32_ok by lia. cbn [res_bind]. apply IH; try done. lia.
Qed.

Lemma scan_index_print n rest :
  0 ≤ n < 2^31 → starts_with_digit rest = false → scan_index 0 (print_dec n +:+ rest) = Ret (n, rest).
Proof.
  intros Hn Hr. pose proof (read_print_dec n "" ltac:(lia) eq_refl) as Hd. rewrite string_app_nil_r in Hd.
  rewrite scan_index_dec; [by rewrite Hd|apply print_dec_forall; lia|lia|rewrite Hd; simpl; lia|done].
Qed.

Lemma substring_prefix n rest : String.substring 0 (String.length n) (n +:+ rest) = n.
Proof. induction n as [|a n IH]; simpl; [by destruct rest|]. by rewrite IH. Qed.

Lemma find_namelen_prefix ll n rest : module_find_with_namelen ll (n +:+ rest) (String.length n) = module_find ll n.
Proof.
  unfold module_find. induction ll as [|m ll IH]; simpl; [done|]. destruct (m_name m) as [k|]; [|done].
  unfold namecmp. rewrite substring_prefix, substring_all. by rewrite IH.
Qed.

(** An item of a specification that leads to block [g]. *)
Definition resolves (t : function_hashtable) (ms : module_ll) (g : Z) (s : option string * Z) : Prop :=
  ∃ n m, s.1 = Some n ∧ spec_name n = true ∧ 0 < s.2 < 2^31 ∧ module_find ms n = Ret (Some m) ∧
    module_bbindex_to_global t m (s.2 - 1) = Ret g.

Lemma print_int_pos n : 0 < n → print_int n = print_dec n.
Proof. intros. unfold print_int. destruct (Z.ltb_spec n 0); [lia|done]. Qed.

Lemma spec_round_item t ms g n k rest bbindex :
  resolves t ms g (Some n, k) → 0 ≤ g → bbindex = -1 ∨ bbindex = g → starts_with_digit rest = false →
  spec_round t ms bbindex (n +:+ ":" +:+ print_int k +:+ rest) =
    match rest with
    | EmptyString => Ret (inl g)
    | String a rest' => if Ascii.eqb a ":" then Ret (inr (g, rest')) else Ret (inl (-1))
    end.
Proof.
  intros (n' & m & [= <-] & Hn & Hk & Hfind & Hglob) Hg Hb Hr. cbn [snd] in *. unfold spec_round.
  unfold spec_name in Hn. apply andb_true_iff in Hn as [Hne Hn]. change (":" +:+ ?x) with (String ":" x).
  rewrite scan_name_app by done. rewrite print_int_pos by lia. destruct n as [|a n]; [done|].
  rewrite scan_index_print by (done || lia). cbn [res_bind]. destruct (Z.leb_spec k 0); [lia|].
  rewrite find_namelen_prefix, Hfind. cbn [res_bind]. rewrite Hglob. cbn [res_bind]. destruct (Z.ltb_spec g 0); [lia|].
  assert (Hsame : (0 <=? bbindex) && negb (bbindex =? g) = false).
  { destruct Hb as [->| ->]; [done|]. rewrite Z.eqb_refl. by rewrite andb_false_r. }
  by rewrite Hsame.
Qed.

Lemma spec_text_starts l s : spec_text false l = Ret s → starts_with_digit s = false.
Proof.
  destruct l as [|[[n|] k] l]; simpl; [by intros [= <-]| |done].
  destruct (spec_text false l); simpl; [|done]. by intros [= <-].
Qed.

Lemma spec_loop_items t ms g items fuel bbindex s :
  0 ≤ g → Forall (resolves t ms g) items → items ≠ [] → spec_text true items = Ret s →
  bbindex = -1 ∨ bbindex = g → (length items ≤ fuel)%nat → spec_loop t ms fuel bbindex s = Ret g.
Proof.
  intros Hg. revert fuel bbindex s. induction items as [|[on k] items IH]; intros fuel bbindex s Hall Hne Hs Hb Hf; [done|].
  apply Forall_cons in Hall as [Hi Hall]. pose proof Hi as (n & m & Hn & _). cbn [fst] in Hn. subst on.
  destruct fuel as [|fuel]; [simpl in Hf; lia|]. cbn [spec_text] in Hs.
  destruct (spec_text false items) as [r|] eqn:Hr; [|done]. cbn [res_bind] in Hs. injection Hs as <-.
  cbn [spec_loop]. change (String ":" (print_int k +:+ r)) with (":" +:+ print_int k +:+ r). rewrite (spec_round_item t ms g n k r bbindex Hi Hg Hb (spec_text_starts _ _ Hr)).
  destruct items as [|[on k'] items]; [simpl in Hr; by injection Hr as <-|].
  cbn [spec_text] in Hr. destruct on as [n'|]; [|done]. destruct (spec_text false items) as [r'|] eqn:Hr'; [|done].
  cbn [res_bind] in Hr. injection Hr as <-. change (":" +:+ ?x) with (String ":" x). cbn [res_bind].
  change (Ascii.eqb ":" ":") with true. cbn [res_bind].
  apply IH; [done|done| |by right|simpl in Hf |- *; lia]. cbn [spec_text]. rewrite Hr'. done.
Qed.

Lemma spec_text_ok t ms g items first :
  Forall (resolves t ms g) items →
  ∃ s, spec_text first items = Ret s ∧ string_forall spec_char s = true ∧ (length items ≤ String.length s)%nat.
Proof.
  revert first. induction items as [|[on k] items IH]; intros first Hall; [by exists ""|].
  apply Forall_cons in Hall as [(n & m & Hn & Hname & Hk & _) Hall]. cbn [fst snd] in *. subst on.
  destruct (IH false Hall) as (r & Hr & Hc & Hlen). cbn [spec_text]. rewrite Hr. cbn [res_bind]. eexists. split; [done|].
  unfold spec_name in Hname. apply andb_true_iff in Hname as [Hne Hname]. rewrite print_int_pos by lia.
  assert (Hd : string_forall spec_char (print_dec k) = true).
  { eapply string_forall_impl; [|apply print_dec_forall; lia]. intros a Ha. unfold is_digit in Ha. unfold spec_char.
    destruct (Ascii.eqb_spec a "010") as [->|_]; [done|]. destruct (Ascii.eqb_spec a "@") as [->|_]; [done|].
    by destruct (Ascii.eqb_spec a "000") as [->|_]. }
  assert (Hnc : string_forall spec_char n = true).
  { eapply string_forall_impl; [|exact Hname]. intros a. unfold name_char. by intros [? _]%andb_true_iff. }
  split.
  - rewrite !string_forall_app, Hd, Hnc, Hc. by destruct first.
  - rewrite !string_length_app. cbn [length String.length]. lia.
Qed.

(** ** From a selected block to the block that is looked up *)

Lemma module_find_unique ll m n :
  forallb named ll = true → NoDup (m_name <$> ll) → m ∈ ll → m_name m = Some n → module_find ll n = Ret (Some m).
Proof.
  intros Hnamed Hnd Hm Hn. assert (Hplain : plain n = true).
  { rewrite forallb_forall in Hnamed. apply list_elem_of_In, Hnamed in Hm. unfold named in Hm. by rewrite Hn in Hm. }
  rewrite module_find_spec by done. f_equal. clear Hnamed Hplain. induction ll as [|x ll IH]; [by apply not_elem_of_nil in Hm|].
  rewrite fmap_cons in Hnd. apply NoDup_cons in Hnd as [Hx Hnd]. simpl. destruct (decide (m_name x = Some n)) as [Heq|Hne].
  - apply elem_of_cons in Hm as [->|Hm]; [done|]. exfalso. apply Hx. rewrite Heq, <- Hn. by apply list_elem_of_fmap_2.
  - apply elem_of_cons in Hm as [->|Hm]; [done|]. specialize (IH Hnd Hm). by destruct (list_find _ ll) as [[??]|].
Qed.

Lemma find_duplicate_none ll : forallb named ll = true → module_find_duplicate ll = Ret None → NoDup (m_name <$> ll).
Proof.
  induction ll as [|m ll IH]; intros Hnamed Hdup; [apply NoDup_nil_2|]. cbn [forallb] in Hnamed.
  apply andb_true_iff in Hnamed as [Hm Hll]. cbn [module_find_duplicate] in Hdup. unfold named in Hm.
  destruct (m_name m) as [n|] eqn:Hn; [|done]. rewrite module_find_spec in Hdup by done. cbn [res_bind] in Hdup.
  rewrite fmap_cons. destruct (list_find _ ll) as [[i x]|] eqn:Hf; [done|]. apply NoDup_cons. split; [|by apply IH].
  intros (x & Hx & Hin)%list_elem_of_fmap. eapply list_find_None in Hf. rewrite Forall_forall in Hf. apply (Hf x Hin). congruence.
Qed.

Lemma linked_names t ms ms' : Forall2 (linked_module t) ms ms' → m_name <$> ms' = m_name <$> ms.
Proof. induction 1 as [|m m' ms ms' (Hn & _) _ IH]; [done|]. by rewrite !fmap_cons, Hn, IH. Qed.

Lemma table_member_found t f :
  table_ok t → f ∈ concat (entries t) → functions_find t (fn_name' f) (fn_path' f) = Ret (Some f).
Proof.
  intros Ht (l & Hl & Hf)%list_elem_of_In%in_concat. apply list_elem_of_In, list_elem_of_lookup in Hl as [b Hb].
  apply list_elem_of_In, list_elem_of_lookup in Hf as [i Hi]. apply (functions_find_at t (b, i)); [done|].
  unfold at_ptr. simpl. by rewrite Hb.
Qed.

Lemma item_resolves t ms f j s b :
  indexes t ms → NoDup (m_name <$> ms) → forallb (λ m, spec_name (default "" (m_name m))) ms = true →
  functions_find t (fn_name' f) (fn_path' f) = Ret (Some f) → fn_bbs f !! j = Some b →
  block_item ms f j s → resolves t ms (global_bb_index b) s.
Proof.
  intros Hix Hnd Hnames Hfind Hb (mi & fi & m & mf & Hm & Hfi & Hn & Hp & Hc & -> & Hr & _). cbn [snd] in Hr.
  apply list_elem_of_lookup_2 in Hm. destruct (ix_func m fi mf Hm Hfi) as (name & path & f' & Hn' & Hp' & Hf' & _ & _ & Hbb).
  rewrite Hn in Hn'. rewrite Hp in Hp'. injection Hn' as <-. injection Hp' as <-. rewrite Hfind in Hf'. injection Hf' as <-.
  destruct (Hbb j b Hb) as [_ Hglob]. pose proof (ix_named (ms := ms)) as Hnamed.
  assert (Hname : is_Some (m_name m)).
  { rewrite forallb_forall in Hnamed. apply list_elem_of_In, Hnamed in Hm. unfold named in Hm. by destruct (m_name m). }
  destruct Hname as [n Hmn]. exists n, m. cbn [fst snd]. split; [done|]. split.
  - rewrite forallb_forall in Hnames. apply list_elem_of_In, Hnames in Hm. by rewrite Hmn in Hm.
  - split; [done|]. split; [by apply module_find_unique|]. by replace (block_position m fi j + 1 - 1) with (block_position m fi j) by lia.
Qed.

(** A block as the picker lists it. *)
Definition in_table (t : function_hashtable) (bi : bb_info) : Prop :=
  bi_func bi ∈ concat (entries t) ∧ (func_bb_index bi < length (fn_bbs (bi_func bi)))%nat.

Lemma func_infos_in exec f bl j bi :
  bi ∈ func_infos exec f bl j → bi_func bi = f ∧ (func_bb_index bi < j + length bl)%nat.
Proof.
  revert j. induction bl as [|b bl IH]; intros j Hbi; cbn [func_infos] in Hbi; [by apply not_elem_of_nil in Hbi|].
  apply elem_of_app in Hbi as [Hbi|Hbi]; cbn [length]; [|apply IH in Hbi as [? ?]; split; [done|lia]].
  destruct (suitable exec b); [|by apply not_elem_of_nil in Hbi]. apply list_elem_of_singleton in Hbi as ->.
  cbn [bi_func func_bb_index]. split; [done|lia].
Qed.

Lemma infos_in_table exec t : Forall (in_table t) (infos exec (concat (entries t))).
Proof.
  apply Forall_forall. intros bi (l & Hl & Hbi)%list_elem_of_In%in_concat.
  apply list_elem_of_In, list_elem_of_fmap in Hl as (f & -> & Hf). apply list_elem_of_In, func_infos_in in Hbi as [<- Hj].
  by split.
Qed.

(** Its line fits the reader's buffer, and its comment is one line. *)
Definition fits (ms : module_ll) (bi : bb_info) : bool :=
  match (let! l := fault_spec ms bi in spec_text true l) with
  | Ret s => (String.length s <? faultspec_size)%nat
  | Stop _ => true
  end &&
  match fn_bbs (bi_func bi) !! func_bb_index bi with
  | Some b => match fb_fault_path b with Some p => no_line_feed p | None => true end
  | None => true
  end.

Lemma position_text_comment b :
  match fb_fault_path b with Some p => no_line_feed p | None => true end = true →
  position_text b = "" ∨ ∃ c, position_text b = String "@" c ∧ no_line_feed c = true.
Proof.
  unfold position_text. destruct (fb_fault_path b) as [p|]; [|by left]. intros Hp. right. eexists. split; [done|].
  assert (Hd : ∀ n, 0 ≤ n → no_line_feed (print_dec n) = true).
  { intros n Hn. eapply string_forall_impl; [|by apply print_dec_forall]. intros a Ha. by destruct (Ascii.eqb_spec a "010") as [->|]. }
  unfold no_line_feed in *. rewrite !string_forall_app, Hp. unfold print_int.
  destruct (Z.ltb_spec (fb_fault_line b) 0); [rewrite string_forall_app|]; rewrite Hd by lia; done.
Qed.

(** What is known of the modules and the table of both tools. *)
Record tools_ready (ps : list (string * list fn)) (t : function_hashtable) (ms : module_ll) : Prop := {
  tr_ok : forallb module_ok (loaded ps) = true;
  tr_functions : sum_of func_count (loaded ps) ≤ 2^30;
  tr_blocks : forallb (λ m, module_blocks m <? 2^31) (loaded ps) = true;
  tr_names : forallb (λ p, spec_name p.1) ps = true;
  tr_distinct : module_find_duplicate (loaded ps) = Ret None;
  tr_table : functions_build_table (loaded ps) = Ret (t, ms);
  tr_count : global_bb_count t < 2^31;
}.

Lemma name_char_plain n : string_forall name_char n = true → plain n = true.
Proof.
  apply string_forall_impl. intros a. unfold name_char, spec_char. by intros [[_ Ha]%andb_true_iff _]%andb_true_iff.
Qed.

Lemma ready_names ps t ms :
  tools_ready ps t ms →
  indexes t ms ∧ NoDup (m_name <$> ms) ∧ forallb (λ m, spec_name (default "" (m_name m))) ms = true ∧
  (∀ f, f ∈ concat (entries t) → functions_find t (fn_name' f) (fn_path' f) = Ret (Some f)).
Proof.
  intros [Hok Hfuncs Hblocks Hnames Hdup Hbuild Hcount].
  assert (Hnamed : forallb named (loaded ps) = true).
  { apply forallb_forall. intros m Hm. apply list_elem_of_In, list_elem_of_fmap in Hm as (p & -> & Hp).
    rewrite forallb_forall in Hnames. apply list_elem_of_In, Hnames in Hp. unfold named. simpl. unfold spec_name in Hp.
    apply andb_true_iff in Hp as [_ Hp]. by apply name_char_plain. }
  pose proof (build_table_spec _ Hok Hfuncs) as Hspec. rewrite Hbuild in Hspec. destruct Hspec as (t0 & -> & Ht0 & Hl).
  pose proof (linked_names t0 _ _ Hl) as Hsame.
  split; [by eapply build_table_indexes|]. split; [rewrite Hsame; by apply find_duplicate_none|]. split.
  - apply forallb_forall. intros m Hm. assert (Hin : m_name m ∈ m_name <$> loaded ps).
    { rewrite <- Hsame. apply list_elem_of_fmap_2. by apply list_elem_of_In. }
    apply list_elem_of_fmap in Hin as (m0 & -> & Hm0). apply list_elem_of_fmap in Hm0 as (p & -> & Hp). simpl.
    rewrite forallb_forall in Hnames. by apply list_elem_of_In, Hnames in Hp.
  - intros f Hf. apply table_member_found; [by apply numbered_ok|done].
Qed.

(** The line of one block. *)
Lemma fault_text_read ps t ms bi :
  tools_ready ps t ms → in_table t bi → fits ms bi = true →
  ∃ line spec b, fault_text ms bi = Ret line ∧ fn_bbs (bi_func bi) !! func_bb_index bi = Some b ∧
    faultspec_to_bbindex t ms spec = Ret (global_bb_index b) ∧
    ∀ rest, select_tests_with_faultfile false "" (line +:+ rest) = spec :: select_tests_with_faultfile false "" rest.
Proof.
  intros Hready [Hf Hj] Hfits. destruct (ready_names ps t ms Hready) as (Hix & Hnd & Hnames & Hfound).
  destruct Hready as [Hok Hfuncs Hblocks _ _ Hbuild _].
  destruct (built_refs_printable ps t ms _ Hok Hfuncs Hblocks Hbuild Hf) as (Hcount & Hne & Hrefs).
  destruct (lookup_lt_is_Some_2 _ _ Hj) as [b Hb].
  destruct (spec_refs_spec ms (bi_func bi) (func_bb_index bi) _ ltac:(lia) Hrefs) as (items & Hitems & Hlen & Hall).
  assert (Hres : Forall (resolves t ms (global_bb_index b)) items).
  { eapply Forall_impl; [exact Hall|]. intros s. by apply item_resolves; [|done|done|apply Hfound|]. }
  assert (Hg : 0 ≤ global_bb_index b).
  { destruct items as [|s items]; [by destruct (refs (bi_func bi))|]. apply Forall_cons in Hall as [(mi & fi & m & mf & Hm & Hfi & Hn & Hp & _) _].
    apply list_elem_of_lookup_2 in Hm. destruct (ix_func m fi mf Hm Hfi) as (n & p & f' & Hn' & Hp' & Hf' & _ & _ & Hbb).
    assert (f' = bi_func bi) as -> by (rewrite Hn in Hn'; rewrite Hp in Hp'; specialize (Hfound _ Hf); congruence).
    apply (Hbb _ _ Hb). }
  destruct (spec_text_ok t ms _ items true Hres) as (s & Hs & Hchars & Hslen).
  unfold fits, fault_text, fault_spec in *. rewrite Hitems in *. cbn [res_bind] in *. rewrite Hs, Hb in *. cbn [res_bind] in *.
  apply andb_true_iff in Hfits as [Hshort Hpath]. apply Nat.ltb_lt in Hshort.
  eexists. exists s, b. split; [done|]. split; [done|]. split.
  - assert (Hine : items ≠ []) by (intros ->; by destruct (refs (bi_func bi))). unfold faultspec_to_bbindex.
    destruct s as [|a s]; [by destruct items; simpl in *; [|lia]|].
    apply (spec_loop_items t ms _ items _ _ _ Hg Hres Hine Hs); [by left|lia].
  - intros rest. apply read_fault_line; [done|done|by apply position_text_comment].
Qed.

(** C17: selected faults are found again.  When the fault picker and the test picker
    load the same map files, the lines printed for the selected blocks are read
    back one by one, and each specification leads to the number of exactly the
    block it was printed for.  Module names contain no separator and are
    distinct, which the picker checks; lines fit the reader's buffer. *)
Theorem faultfile_roundtrip ps t ms l :
  tools_ready ps t ms → Forall (in_table t) l → forallb (fits ms) l = true →
  ∃ file, print_faults ms l = Ret file ∧
    Forall2 (λ spec bi, ∃ b, fn_bbs (bi_func bi) !! func_bb_index bi = Some b ∧
                             faultspec_to_bbindex t ms spec = Ret (global_bb_index b))
      (select_tests_with_faultfile false "" file) (List.filter is_selected l).
Proof.
  intros Hready Hin. induction Hin as [|bi l Hbi _ IH]; intros Hfits; cbn [forallb] in Hfits; [by exists ""|].
  apply andb_true_iff in Hfits as [Hfit Hfits]. destruct (IH Hfits) as (file & Hfile & Hread).
  cbn [print_faults List.filter]. destruct (is_selected bi); [|rewrite Hfile; by exists file].
  destruct (fault_text_read ps t ms bi Hready Hbi Hfit) as (line & spec & b & -> & Hb & Hspec & Hline).
  cbn [res_bind]. rewrite Hfile. cbn [res_bind]. exists (line +:+ file). split; [done|]. rewrite Hline.
  constructor; [by exists b|done].
Qed.

(** After a module without a map file the loop continues before the separator,
    which it takes for an empty module name: the whole specification is refused. *)
Lemma unknown_module_refused t ms n k rest fuel bbindex :
  spec_name n = true → 0 < k < 2^31 → module_find ms n = Ret None →
  rest = "" ∨ (∃ r, rest = String ":" r) →
  spec_loop t ms (S (S fuel)) bbindex (n +:+ ":" +:+ print_int k +:+ rest) = Ret (-1).
Proof.
  intros Hn Hk Hfind Hrest. assert (Hd : starts_with_digit rest = false) by (by destruct Hrest as [->|(r & ->)]).
  unfold spec_name in Hn. apply andb_true_iff in Hn as [Hne Hn]. change (":" +:+ ?x) with (String ":" x).
  cbn [spec_loop]. unfold spec_round at 1. rewrite scan_name_app by done. rewrite print_int_pos by lia.
  destruct n as [|a n]; [done|]. rewrite scan_index_print by (done || lia). cbn [res_bind]. destruct (Z.leb_spec k 0); [lia|].
  rewrite find_namelen_prefix, Hfind. cbn [res_bind]. by destruct Hrest as [->|(r & ->)].
Qed.

(** Printed and read back. *)
Definition printed : list bb_info := (λ bi, select bi) <$> picker_infos.

Example printed_file :
  print_faults picker_build.2 printed =
    Ret ("pm:3:vfs:1" +:+ line_feed +:+ "pm:2" +:+ line_feed).
Proof. vm_compute. reflexivity. Qed.

Example unknown_module :
  faultspec_to_bbindex picker_build.1 picker_build.2 "pm:3:vfs:1" = Ret 0 ∧
  faultspec_to_bbindex picker_build.1 picker_build.2 "rs:7:pm:3" = Ret (-1).
Proof. split; vm_compute; reflexivity. Qed.

Lemma picker_ready : tools_ready picker_programs picker_build.1 picker_build.2.
Proof.
  split; [vm_compute; reflexivity|vm_compute; congruence|vm_compute; reflexivity|vm_compute; reflexivity|vm_compute; reflexivity|
    vm_compute; reflexivity|vm_compute; reflexivity].
Qed.

Lemma printed_in_table : Forall (in_table picker_build.1) printed.
Proof. apply Forall_fmap. apply (infos_in_table (λ _, true)). Qed.

Lemma faultfile_roundtrip_witness :
  ∃ file, print_faults picker_build.2 printed = Ret file ∧
    Forall2 (λ spec bi, ∃ b, fn_bbs (bi_func bi) !! func_bb_index bi = Some b ∧
                             faultspec_to_bbindex picker_build.1 picker_build.2 spec = Ret (global_bb_index b))
      (select_tests_with_faultfile false "" file) (List.filter is_selected printed).
Proof.
  apply (faultfile_roundtrip picker_programs picker_build.1 picker_build.2 printed picker_ready printed_in_table).
  vm_compute. reflexivity.
Defined.
