(* ===== verification/TestLog.v ===== *)
(** * Summaries of test runs: [hypermemloganalyze/common/minixtestlogsummarize.c]

    The summariser follows the log of a test run through the callbacks of the log
    reader: boot, the tests with the execution counts before and after each, the
    faults that were activated and the recoveries that were attempted.  It is a
    state machine over the stages of a run ([log_status]); messages that do not
    fit the stage are ignored with a warning (not modelled).

    Doubles are IEEE binary64 ([SpecFloat]).  A list with a pointer to its last
    [next] field is a list with additions at the end; [test_last_p] is the
    position of the field it points to, which the running test occupies. *)

From Stdlib Require Import ZArith Lia Ascii String Floats.SpecFloat.
From stdpp Require Import base list numbers strings.
From S2P Require Import Prelude Decimal Double LogFmt LogParse LogReader.

(** ** Data *)

Inductive log_status :=
| mtls_none | mtls_start | mtls_boot | mtls_tests_starting | mtls_test_running | mtls_test_running_stats
| mtls_test_done_stats | mtls_test_done | mtls_tests_complete | mtls_quit.
#[global] Instance log_status_eq_dec : EqDecision log_status.
Proof. solve_decision. Defined.
#[global] Instance test_status_eq_dec : EqDecision minix_test_status.
Proof. solve_decision. Defined.
#[global] Instance ltckpt_status_eq_dec : EqDecision ltckpt_status.
Proof. solve_decision. Defined.
#[global] Instance ltckpt_method_eq_dec : EqDecision ltckpt_method.
Proof. solve_decision. Defined.

Definition stage (s : log_status) : Z :=
  match s with
  | mtls_none => 0 | mtls_start => 1 | mtls_boot => 2 | mtls_tests_starting => 3 | mtls_test_running => 4
  | mtls_test_running_stats => 5 | mtls_test_done_stats => 6 | mtls_test_done => 7 | mtls_tests_complete => 8
  | mtls_quit => 9
  end.

Definition CALLSITE_ID_MAX : Z := 2048.

Definition recoveries := ltckpt_status → ltckpt_method → Z.
Definition no_recoveries : recoveries := λ _ _, 0.

Record test_module := {
  tm_name : string;
  tm_bb_count : Z;
  bbs_before : option (list Z);
  bbs_after : option (list Z);
  bbs_during : option (list Z);
  tm_faultact : Z;
  tm_recoveries : recoveries;
}.

Record log_test := {
  lt_name : string;
  lt_status : minix_test_status;
  timestamp_start : timeval;
  timestamp_end : timeval;
  reported_count : double;
  reported_rate : double;
  reported_time : double;
  lt_modules : list test_module;
}.

Record log_module := {
  lm_name : string;
  callsites_closed : Z → Z;
  faultindexretrieved : Z;
  faultindex : Z;
  lm_faultact : Z;
  lm_recoveries : recoveries;
}.

Record summary := {
  s_faultspec : option string;
  s_modules : list log_module;
  s_signal : Z;
  s_status : log_status;
  statusfaultfirst : log_status;
  statusfaultlast : log_status;
  status_exited : bool;
  status_reset : bool;
  s_timestamp_start : timeval;
  timestamp_boot : timeval;
  timestamp_tests_starting : timeval;
  timestamp_tests_complete : timeval;
  timestamp_exit : timeval;
  testsplanned : option string;
  s_tests : list log_test;
  test_current : option nat;
  test_last_p : nat;
}.

(** Assignments to single fields. *)
Definition set_tm_bb_count (m : test_module) (v0 : Z) : test_module :=
  {| tm_name := tm_name m; tm_bb_count := v0; bbs_before := bbs_before m; bbs_after := bbs_after m; bbs_during :=
     bbs_during m; tm_faultact := tm_faultact m; tm_recoveries := tm_recoveries m |}.
Definition set_bbs_before (m : test_module) (v0 : option (list Z)) : test_module :=
  {| tm_name := tm_name m; tm_bb_count := tm_bb_count m; bbs_before := v0; bbs_after := bbs_after m; bbs_during :=
     bbs_during m; tm_faultact := tm_faultact m; tm_recoveries := tm_recoveries m |}.
Definition set_bbs_after (m : test_module) (v0 : option (list Z)) : test_module :=
  {| tm_name := tm_name m; tm_bb_count := tm_bb_count m; bbs_before := bbs_before m; bbs_after := v0; bbs_during :=
     bbs_during m; tm_faultact := tm_faultact m; tm_recoveries := tm_recoveries m |}.
Definition set_bbs_during (m : test_module) (v0 : option (list Z)) : test_module :=
  {| tm_name := tm_name m; tm_bb_count := tm_bb_count m; bbs_before := bbs_before m; bbs_after := bbs_after m;
     bbs_during := v0; tm_faultact := tm_faultact m; tm_recoveries := tm_recoveries m |}.
Definition set_tm_faultact (m : test_module) (v0 : Z) : test_module :=
  {| tm_name := tm_name m; tm_bb_count := tm_bb_count m; bbs_before := bbs_before m; bbs_after := bbs_after m;
     bbs_during := bbs_during m; tm_faultact := v0; tm_recoveries := tm_recoveries m |}.
Definition set_tm_recoveries (m : test_module) (v0 : recoveries) : test_module :=
  {| tm_name := tm_name m; tm_bb_count := tm_bb_count m; bbs_before := bbs_before m; bbs_after := bbs_after m;
     bbs_during := bbs_during m; tm_faultact := tm_faultact m; tm_recoveries := v0 |}.

Definition set_lt_status (t : log_test) (v0 : minix_test_status) : log_test :=
  {| lt_name := lt_name t; lt_status := v0; timestamp_start := timestamp_start t; timestamp_end := timestamp_end t;
     reported_count := reported_count t; reported_rate := reported_rate t; reported_time := reported_time t;
     lt_modules := lt_modules t |}.
Definition set_timestamp_end (t : log_test) (v0 : timeval) : log_test :=
  {| lt_name := lt_name t; lt_status := lt_status t; timestamp_start := timestamp_start t; timestamp_end := v0;
     reported_count := reported_count t; reported_rate := reported_rate t; reported_time := reported_time t;
     lt_modules := lt_modules t |}.
Definition set_reported_count (t : log_test) (v0 : double) : log_test :=
  {| lt_name := lt_name t; lt_status := lt_status t; timestamp_start := timestamp_start t; timestamp_end :=
     timestamp_end t; reported_count := v0; reported_rate := reported_rate t; reported_time := reported_time t;
     lt_modules := lt_modules t |}.
Definition set_reported_rate (t : log_test) (v0 : double) : log_test :=
  {| lt_name := lt_name t; lt_status := lt_status t; timestamp_start := timestamp_start t; timestamp_end :=
     timestamp_end t; reported_count := reported_count t; reported_rate := v0; reported_time := reported_time t;
     lt_modules := lt_modules t |}.
Definition set_reported_time (t : log_test) (v0 : double) : log_test :=
  {| lt_name := lt_name t; lt_status := lt_status t; timestamp_start := timestamp_start t; timestamp_end :=
     timestamp_end t; reported_count := reported_count t; reported_rate := reported_rate t; reported_time := v0;
     lt_modules := lt_modules t |}.
Definition set_lt_modules (t : log_test) (v0 : list test_module) : log_test :=
  {| lt_name := lt_name t; lt_status := lt_status t; timestamp_start := timestamp_start t; timestamp_end :=
     timestamp_end t; reported_count := reported_count t; reported_rate := reported_rate t; reported_time :=
     reported_time t; lt_modules := v0 |}.

Definition set_callsites_closed (m : log_module) (v0 : Z → Z) : log_module :=
  {| lm_name := lm_name m; callsites_closed := v0; faultindexretrieved := faultindexretrieved m; faultindex :=
     faultindex m; lm_faultact := lm_faultact m; lm_recoveries := lm_recoveries m |}.
Definition set_faultindexretrieved (m : log_module) (v0 : Z) (v1 : Z) : log_module :=
  {| lm_name := lm_name m; callsites_closed := callsites_closed m; faultindexretrieved := v0; faultindex := v1;
     lm_faultact := lm_faultact m; lm_recoveries := lm_recoveries m |}.
Definition set_lm_faultact (m : log_module) (v0 : Z) : log_module :=
  {| lm_name := lm_name m; callsites_closed := callsites_closed m; faultindexretrieved := faultindexretrieved m;
     faultindex := faultindex m; lm_faultact := v0; lm_recoveries := lm_recoveries m |}.
Definition set_lm_recoveries (m : log_module) (v0 : recoveries) : log_module :=
  {| lm_name := lm_name m; callsites_closed := callsites_closed m; faultindexretrieved := faultindexretrieved m;
     faultindex := faultindex m; lm_faultact := lm_faultact m; lm_recoveries := v0 |}.

Definition set_s_faultspec (s : summary) (v0 : option string) : summary :=
  {| s_faultspec := v0; s_modules := s_modules s; s_signal := s_signal s; s_status := s_status s; statusfaultfirst
     := statusfaultfirst s; statusfaultlast := statusfaultlast s; status_exited := status_exited s; status_reset :=
     status_reset s; s_timestamp_start := s_timestamp_start s; timestamp_boot := timestamp_boot s;
     timestamp_tests_starting := timestamp_tests_starting s; timestamp_tests_complete := timestamp_tests_complete
     s; timestamp_exit := timestamp_exit s; testsplanned := testsplanned s; s_tests := s_tests s; test_current :=
     test_current s; test_last_p := test_last_p s |}.
Definition set_s_modules (s : summary) (v0 : list log_module) : summary :=
  {| s_faultspec := s_faultspec s; s_modules := v0; s_signal := s_signal s; s_status := s_status s;
     statusfaultfirst := statusfaultfirst s; statusfaultlast := statusfaultlast s; status_exited := status_exited
     s; status_reset := status_reset s; s_timestamp_start := s_timestamp_start s; timestamp_boot := timestamp_boot
     s; timestamp_tests_starting := timestamp_tests_starting s; timestamp_tests_complete :=
     timestamp_tests_complete s; timestamp_exit := timestamp_exit s; testsplanned := testsplanned s; s_tests :=
     s_tests s; test_current := test_current s; test_last_p := test_last_p s |}.
Definition set_s_signal (s : summary) (v0 : Z) : summary :=
  {| s_faultspec := s_faultspec s; s_modules := s_modules s; s_signal := v0; s_status := s_status s;
     statusfaultfirst := statusfaultfirst s; statusfaultlast := statusfaultlast s; status_exited := status_exited
     s; status_reset := status_reset s; s_timestamp_start := s_timestamp_start s; timestamp_boot := timestamp_boot
     s; timestamp_tests_starting := timestamp_tests_starting s; timestamp_tests_complete :=
     timestamp_tests_complete s; timestamp_exit := timestamp_exit s; testsplanned := testsplanned s; s_tests :=
     s_tests s; test_current := test_current s; test_last_p := test_last_p s |}.
Definition set_s_status (s : summary) (v0 : log_status) : summary :=
  {| s_faultspec := s_faultspec s; s_modules := s_modules s; s_signal := s_signal s; s_status := v0;
     statusfaultfirst := statusfaultfirst s; statusfaultlast := statusfaultlast s; status_exited := status_exited
     s; status_reset := status_reset s; s_timestamp_start := s_timestamp_start s; timestamp_boot := timestamp_boot
     s; timestamp_tests_starting := timestamp_tests_starting s; timestamp_tests_complete :=
     timestamp_tests_complete s; timestamp_exit := timestamp_exit s; testsplanned := testsplanned s; s_tests :=
     s_tests s; test_current := test_current s; test_last_p := test_last_p s |}.
Definition set_statusfaultfirst (s : summary) (v0 : log_status) (v1 : log_status) : summary :=
  {| s_faultspec := s_faultspec s; s_modules := s_modules s; s_signal := s_signal s; s_status := s_status s;
     statusfaultfirst := v0; statusfaultlast := v1; status_exited := status_exited s; status_reset := status_reset
     s; s_timestamp_start := s_timestamp_start s; timestamp_boot := timestamp_boot s; timestamp_tests_starting :=
     timestamp_tests_starting s; timestamp_tests_complete := timestamp_tests_complete s; timestamp_exit :=
     timestamp_exit s; testsplanned := testsplanned s; s_tests := s_tests s; test_current := test_current s;
     test_last_p := test_last_p s |}.
Definition set_status_exited (s : summary) (v0 : bool) (v1 : timeval) : summary :=
  {| s_faultspec := s_faultspec s; s_modules := s_modules s; s_signal := s_signal s; s_status := s_status s;
     statusfaultfirst := statusfaultfirst s; statusfaultlast := statusfaultlast s; status_exited := v0;
     status_reset := status_reset s; s_timestamp_start := s_timestamp_start s; timestamp_boot := timestamp_boot s;
     timestamp_tests_starting := timestamp_tests_starting s; timestamp_tests_complete := timestamp_tests_complete
     s; timestamp_exit := v1; testsplanned := testsplanned s; s_tests := s_tests s; test_current := test_current s;
     test_last_p := test_last_p s |}.
Definition set_status_reset (s : summary) (v0 : bool) : summary :=
  {| s_faultspec := s_faultspec s; s_modules := s_modules s; s_signal := s_signal s; s_status := s_status s;
     statusfaultfirst := statusfaultfirst s; statusfaultlast := statusfaultlast s; status_exited := status_exited
     s; status_reset := v0; s_timestamp_start := s_timestamp_start s; timestamp_boot := timestamp_boot s;
     timestamp_tests_starting := timestamp_tests_starting s; timestamp_tests_complete := timestamp_tests_complete
     s; timestamp_exit := timestamp_exit s; testsplanned := testsplanned s; s_tests := s_tests s; test_current :=
     test_current s; test_last_p := test_last_p s |}.
Definition set_s_timestamp_start (s : summary) (v0 : timeval) : summary :=
  {| s_faultspec := s_faultspec s; s_modules := s_modules s; s_signal := s_signal s; s_status := s_status s;
     statusfaultfirst := statusfaultfirst s; statusfaultlast := statusfaultlast s; status_exited := status_exited
     s; status_reset := status_reset s; s_timestamp_start := v0; timestamp_boot := timestamp_boot s;
     timestamp_tests_starting := timestamp_tests_starting s; timestamp_tests_complete := timestamp_tests_complete
     s; timestamp_exit := timestamp_exit s; testsplanned := testsplanned s; s_tests := s_tests s; test_current :=
     test_current s; test_last_p := test_last_p s |}.
Definition set_timestamp_boot (s : summary) (v0 : timeval) : summary :=
  {| s_faultspec := s_faultspec s; s_modules := s_modules s; s_signal := s_signal s; s_status := s_status s;
     statusfaultfirst := statusfaultfirst s; statusfaultlast := statusfaultlast s; status_exited := status_exited
     s; status_reset := status_reset s; s_timestamp_start := s_timestamp_start s; timestamp_boot := v0;
     timestamp_tests_starting := timestamp_tests_starting s; timestamp_tests_complete := timestamp_tests_complete
     s; timestamp_exit := timestamp_exit s; testsplanned := testsplanned s; s_tests := s_tests s; test_current :=
     test_current s; test_last_p := test_last_p s |}.
Definition set_timestamp_tests_starting (s : summary) (v0 : timeval) : summary :=
  {| s_faultspec := s_faultspec s; s_modules := s_modules s; s_signal := s_signal s; s_status := s_status s;
     statusfaultfirst := statusfaultfirst s; statusfaultlast := statusfaultlast s; status_exited := status_exited
     s; status_reset := status_reset s; s_timestamp_start := s_timestamp_start s; timestamp_boot := timestamp_boot
     s; timestamp_tests_starting := v0; timestamp_tests_complete := timestamp_tests_complete s; timestamp_exit :=
     timestamp_exit s; testsplanned := testsplanned s; s_tests := s_tests s; test_current := test_current s;
     test_last_p := test_last_p s |}.
Definition set_timestamp_tests_complete (s : summary) (v0 : timeval) : summary :=
  {| s_faultspec := s_faultspec s; s_modules := s_modules s; s_signal := s_signal s; s_status := s_status s;
     statusfaultfirst := statusfaultfirst s; statusfaultlast := statusfaultlast s; status_exited := status_exited
     s; status_reset := status_reset s; s_timestamp_start := s_timestamp_start s; timestamp_boot := timestamp_boot
     s; timestamp_tests_starting := timestamp_tests_starting s; timestamp_tests_complete := v0; timestamp_exit :=
     timestamp_exit s; testsplanned := testsplanned s; s_tests := s_tests s; test_current := test_current s;
     test_last_p := test_last_p s |}.
Definition set_timestamp_exit (s : summary) (v0 : timeval) : summary :=
  {| s_faultspec := s_faultspec s; s_modules := s_modules s; s_signal := s_signal s; s_status := s_status s;
     statusfaultfirst := statusfaultfirst s; statusfaultlast := statusfaultlast s; status_exited := status_exited
     s; status_reset := status_reset s; s_timestamp_start := s_timestamp_start s; timestamp_boot := timestamp_boot
     s; timestamp_tests_starting := timestamp_tests_starting s; timestamp_tests_complete :=
     timestamp_tests_complete s; timestamp_exit := v0; testsplanned := testsplanned s; s_tests := s_tests s;
     test_current := test_current s; test_last_p := test_last_p s |}.
Definition set_testsplanned (s : summary) (v0 : option string) : summary :=
  {| s_faultspec := s_faultspec s; s_modules := s_modules s; s_signal := s_signal s; s_status := s_status s;
     statusfaultfirst := statusfaultfirst s; statusfaultlast := statusfaultlast s; status_exited := status_exited
     s; status_reset := status_reset s; s_timestamp_start := s_timestamp_start s; timestamp_boot := timestamp_boot
     s; timestamp_tests_starting := timestamp_tests_starting s; timestamp_tests_complete :=
     timestamp_tests_complete s; timestamp_exit := timestamp_exit s; testsplanned := v0; s_tests := s_tests s;
     test_current := test_current s; test_last_p := test_last_p s |}.
Definition set_s_tests (s : summary) (v0 : list log_test) : summary :=
  {| s_faultspec := s_faultspec s; s_modules := s_modules s; s_signal := s_signal s; s_status := s_status s;
     statusfaultfirst := statusfaultfirst s; statusfaultlast := statusfaultlast s; status_exited := status_exited
     s; status_reset := status_reset s; s_timestamp_start := s_timestamp_start s; timestamp_boot := timestamp_boot
     s; timestamp_tests_starting := timestamp_tests_starting s; timestamp_tests_complete :=
     timestamp_tests_complete s; timestamp_exit := timestamp_exit s; testsplanned := testsplanned s; s_tests := v0;
     test_current := test_current s; test_last_p := test_last_p s |}.
Definition set_test_current (s : summary) (v0 : option nat) : summary :=
  {| s_faultspec := s_faultspec s; s_modules := s_modules s; s_signal := s_signal s; s_status := s_status s;
     statusfaultfirst := statusfaultfirst s; statusfaultlast := statusfaultlast s; status_exited := status_exited
     s; status_reset := status_reset s; s_timestamp_start := s_timestamp_start s; timestamp_boot := timestamp_boot
     s; timestamp_tests_starting := timestamp_tests_starting s; timestamp_tests_complete :=
     timestamp_tests_complete s; timestamp_exit := timestamp_exit s; testsplanned := testsplanned s; s_tests :=
     s_tests s; test_current := v0; test_last_p := test_last_p s |}.
Definition set_test_last_p (s : summary) (v0 : nat) : summary :=
  {| s_faultspec := s_faultspec s; s_modules := s_modules s; s_signal := s_signal s; s_status := s_status s;
     statusfaultfirst := statusfaultfirst s; statusfaultlast := statusfaultlast s; status_exited := status_exited
     s; status_reset := status_reset s; s_timestamp_start := s_timestamp_start s; timestamp_boot := timestamp_boot
     s; timestamp_tests_starting := timestamp_tests_starting s; timestamp_tests_complete :=
     timestamp_tests_complete s; timestamp_exit := timestamp_exit s; testsplanned := testsplanned s; s_tests :=
     s_tests s; test_current := test_current s; test_last_p := v0 |}.

Definition no_time : timeval := {| tv_sec := 0; tv_usec := 0 |}.

(** The zeroed structures. *)
Definition new_test_module (name : string) : test_module :=
  {| tm_name := name; tm_bb_count := 0; bbs_before := None; bbs_after := None; bbs_during := None; tm_faultact := 0;
     tm_recoveries := no_recoveries |}.
Definition new_log_module (name : string) : log_module :=
  {| lm_name := name; callsites_closed := λ _, 0; faultindexretrieved := 0; faultindex := 0; lm_faultact := 0;
     lm_recoveries := no_recoveries |}.
Definition new_summary : summary :=
  {| s_faultspec := None; s_modules := []; s_signal := 0; s_status := mtls_none; statusfaultfirst := mtls_none;
     statusfaultlast := mtls_none; status_exited := false; status_reset := false; s_timestamp_start := no_time;
     timestamp_boot := no_time; timestamp_tests_starting := no_time; timestamp_tests_complete := no_time;
     timestamp_exit := no_time; testsplanned := None; s_tests := []; test_current := None; test_last_p := 0 |}.

(** ** Names and stages *)

Definition namecmp_startswith (name other : string) : bool := String.prefix other name.

Definition checkstatus (s : summary) (status : log_status) : bool :=
  negb (status_exited s) && bool_decide (s_status s = status).
Definition checkstatus2 (s : summary) (status1 status2 : log_status) : bool :=
  negb (status_exited s) && (bool_decide (s_status s = status1) || bool_decide (s_status s = status2)).

(** Everything before the last [@]. *)
Fixpoint strip_at (name : string) : option string :=
  match name with
  | EmptyString => None
  | String a name' =>
      match strip_at name' with
      | Some r => Some (String a r)
      | None => if Ascii.eqb a "@" then Some "" else None
      end
  end.

Definition string_ll_contains (ll : list string) (name : string) : bool :=
  match ll with [] => false | _ => existsb (String.eqb (default name (strip_at name))) ll end.

(** ** Modules of a test *)

Fixpoint find_position {A} (key : A → string) (name : string) (l : list A) : nat :=
  match l with [] => 0 | x :: l' => if String.eqb name (key x) then 0 else S (find_position key name l') end.

(** The position of the module, which is added when it is missing. *)
Definition find_or_add {A} (key : A → string) (new : string → A) (name : string) (l : list A) : nat * list A :=
  let i := find_position key name l in
  (i, if (length l <=? i)%nat then l ++ [new name] else l).

Definition find_or_add_module_stats := find_or_add tm_name new_test_module.
Definition find_or_add_module := find_or_add lm_name new_log_module.

(** A change of the element at a position. *)
Definition update_at {A} (i : nat) (k : A → res A) (l : list A) : res (list A) :=
  match l !! i with None => Stop FBounds | Some x => let! y := k x in Ret (<[i := y]> l) end.

(** The current test; a null pointer fails the assertion before it. *)
Definition on_test (s : summary) (k : log_test → res log_test) : res summary :=
  match test_current s with
  | None => Stop FAssert
  | Some i => let! l := update_at i k (s_tests s) in Ret (set_s_tests s l)
  end.

(** [bbs_sum[i] += bbs[i] * factor] *)
Fixpoint add_bbs_sum (factor : Z) (sum bbs : list Z) : res (list Z) :=
  match bbs with
  | [] => Ret sum
  | b :: bbs' =>
      match sum with
      | [] => Stop FBounds
      | n :: sum' => let! r := add_bbs_sum factor sum' bbs' in Ret (u64 (n + b * factor) :: r)
      end
  end.

(** An array of this many elements; none is a null pointer. *)
Definition alloc (l : list Z) : option (list Z) := match l with [] => None | _ => Some l end.

Definition add_module_stats_add_bbs (during : option (list Z)) (bbs : list Z) (factor : Z) : res (option (list Z)) :=
  match match during with Some l => Some l | None => alloc (replicate (length bbs) 0) end with
  | None => Ret None
  | Some l => let! l := add_bbs_sum factor l bbs in Ret (Some l)
  end.

Definition add_module_stats_set_bbs (old : option (list Z)) (bbs : list Z) : option (list Z) :=
  match old with Some _ => old | None => alloc bbs end.

Section Callbacks.
Variable excludemod : list string.

(** [add_module_stats_internal], then a change of the module; nothing happens
    when the module is excluded or has another number of blocks. *)
Definition with_module_stats (s : summary) (name : string) (bb_count : Z) (k : test_module → res test_module) : res summary :=
  on_test s (λ t,
    if string_ll_contains excludemod name then Ret t
    else
      let '(i, l) := find_or_add_module_stats name (lt_modules t) in
      let! l := update_at i (λ m,
        if tm_bb_count m =? 0 then k (set_tm_bb_count m bb_count)
        else if tm_bb_count m =? bb_count then k m else Ret m) l in
      Ret (set_lt_modules t l)).

Definition add_module_stats_after (s : summary) (name : string) (bbs : list Z) : res summary :=
  with_module_stats s name (Z.of_nat (length bbs)) (λ m,
    let m := set_bbs_after m (add_module_stats_set_bbs (bbs_after m) bbs) in
    let! d := add_module_stats_add_bbs (bbs_during m) bbs 1 in Ret (set_bbs_during m d)).

Definition add_module_stats_before (s : summary) (name : string) (bbs : list Z) : res summary :=
  with_module_stats s name (Z.of_nat (length bbs)) (λ m,
    let m := set_bbs_before m (add_module_stats_set_bbs (bbs_before m) bbs) in
    let! d := add_module_stats_add_bbs (bbs_during m) bbs (-1) in Ret (set_bbs_during m d)).

Definition add_module_stats_during (s : summary) (name : string) (bbs : list Z) : res summary :=
  with_module_stats s name (Z.of_nat (length bbs)) (λ m,
    let! d := add_module_stats_add_bbs (bbs_during m) bbs 1 in Ret (set_bbs_during m d)).

(** ** Callbacks *)

Definition callback_edfi_dump_stats (msg : option string) (s : summary) : res summary :=
  let msg := default "" msg in
  if status_reset s then Ret s
  else if namecmp_startswith msg "test-start-" then
    Ret (if checkstatus s mtls_test_running then set_s_status s mtls_test_running_stats else s)
  else if namecmp_startswith msg "test-done-" then
    Ret (if checkstatus s mtls_test_running_stats then set_s_status s mtls_test_done_stats else s)
  else Ret s.

(** An empty array is a null pointer. *)
Definition callback_edfi_dump_stats_module (name : string) (msg : option string) (bbs : option (list Z)) (s : summary)
    : res summary :=
  let msg := default "" msg in
  if status_reset s then Ret s
  else
    match default [] bbs with
    | [] => Ret s
    | bbs =>
        if namecmp_startswith msg "test-start-" then
          if checkstatus s mtls_test_running_stats then add_module_stats_before s name bbs else Ret s
        else if namecmp_startswith msg "test-done-" then
          if checkstatus s mtls_test_done_stats then add_module_stats_after s name bbs else Ret s
        else if String.eqb msg "do_sef_fi_init" || String.eqb msg "hypermem_report_startup" then Ret s
        else if String.eqb msg "edfi_context_release" then
          if negb (checkstatus2 s mtls_boot mtls_test_running_stats) then Ret s
          else if bool_decide (s_status s = mtls_boot) then Ret s
          else add_module_stats_during s name bbs
        else Ret s
    end.

(** A change of the module of this name in the summary. *)
Definition on_module (name : string) (k : log_module → res log_module) (s : summary) : res summary :=
  let '(i, l) := find_or_add_module name (s_modules s) in
  let! l := update_at i k l in
  Ret (set_s_modules s l).

(** And in the current test, when one is running. *)
Definition on_running_module (name : string) (k : test_module → res test_module) (s : summary) : res summary :=
  if bool_decide (s_status s = mtls_test_running) || bool_decide (s_status s = mtls_test_running_stats) then
    on_test s (λ t,
      let '(i, l) := find_or_add_module_stats name (lt_modules t) in
      let! l := update_at i k l in
      Ret (set_lt_modules t l))
  else Ret s.

Definition callback_edfi_faultindex_get (name : string) (bbindex : Z) (s : summary) : res summary :=
  if status_reset s then Ret s
  else on_module name (λ m,
    let index := if faultindexretrieved m =? 0 then bbindex else faultindex m in
    let! n := chk32 (faultindexretrieved m + 1) in
    Ret (set_faultindexretrieved m n index)) s.

Definition callback_fault (name : string) (bbindex repeat : Z) (s : summary) : res summary :=
  if status_reset s then Ret s
  else
    let! s := on_module name (λ m, Ret (set_lm_faultact m (u64 (lm_faultact m + repeat)))) s in
    let! s := on_running_module name (λ m, Ret (set_tm_faultact m (u64 (tm_faultact m + repeat)))) s in
    Ret (set_statusfaultfirst s
      (if bool_decide (statusfaultfirst s = mtls_none) then s_status s else statusfaultfirst s) (s_status s)).

Definition callback_hypermem_faultspec (faultspec : string) (s : summary) : res summary :=
  if negb (checkstatus s mtls_start) then Ret s
  else match s_faultspec s with Some _ => Ret s | None => Ret (set_s_faultspec s (Some faultspec)) end.

Definition callback_hypermem_logpath (st : logparse_callback_state) (s : summary) : res summary :=
  if negb (checkstatus s mtls_none) then Ret s
  else Ret (set_s_status (set_s_timestamp_start s (timestamp st)) mtls_start).

Definition add_recovery (status : ltckpt_status) (method : ltckpt_method) (r : recoveries) : res recoveries :=
  let! n := chk32 (r status method + 1) in
  Ret (λ st me, if decide (st = status) then (if decide (me = method) then n else r st me) else r st me).

Definition callback_print_ltckpt (status : ltckpt_status) (method : ltckpt_method) (name : string) (s : summary)
    : res summary :=
  if status_reset s then Ret s
  else
    let! s := on_module name (λ m, let! r := add_recovery status method (lm_recoveries m) in Ret (set_lm_recoveries m r)) s in
    on_running_module name (λ m, let! r := add_recovery status method (tm_recoveries m) in Ret (set_tm_recoveries m r)) s.

Fixpoint count_callsites (ids : list Z) (closed : Z → Z) : res (Z → Z) :=
  match ids with
  | [] => Ret closed
  | id :: ids' =>
      if CALLSITE_ID_MAX <=? id then count_callsites ids' closed
      else
        let! n := chk32 (closed id + 1) in
        count_callsites ids' (λ x, if x =? id then n else closed x)
  end.

Definition callback_print_ltckpt_closed_ipc_callsites (name : string) (callsites : list Z) (s : summary) : res summary :=
  on_module name (λ m, let! c := count_callsites callsites (callsites_closed m) in Ret (set_callsites_closed m c)) s.

Definition add_test_before (st : logparse_callback_state) (name : string) (s : summary) : res summary :=
  assert! (length (s_tests s) <=? test_last_p s)%nat in
  let t := {| lt_name := name; lt_status := mts_running; timestamp_start := timestamp st; timestamp_end := no_time;
              reported_count := S754_nan; reported_rate := S754_nan; reported_time := S754_nan; lt_modules := [] |} in
  Ret (set_test_current (set_s_tests s (s_tests s ++ [t])) (Some (test_last_p s))).

Definition add_test_after (st : logparse_callback_state) (status : minix_test_status) (s : summary) : res summary :=
  match test_current s with
  | None => Stop FAssert
  | Some i =>
      assert! ((i <? length (s_tests s)) && (test_last_p s =? i))%nat in
      let s := set_test_last_p s (S i) in
      on_test s (λ t,
        assert! bool_decide (lt_status t = mts_running) in
        Ret (set_lt_status (set_timestamp_end t (timestamp st)) status))
  end.

Definition callback_print_test (st : logparse_callback_state) (name : string) (status : minix_test_status) (s : summary)
    : res summary :=
  if bool_decide (status = mts_running) then
    if negb (checkstatus2 s mtls_tests_starting mtls_test_done) then Ret s
    else add_test_before st name (set_s_status s mtls_test_running)
  else
    if negb (checkstatus2 s mtls_test_running mtls_test_done_stats) then Ret s
    else add_test_after st status (set_s_status s mtls_test_done).

(** ** Output of tests *)

Fixpoint output_skip_str (p s : string) : option string :=
  match s with
  | EmptyString => Some p
  | String b s' => match p with String a p' => if Ascii.eqb a b then output_skip_str p' s' else None | EmptyString => None end
  end.

(** The digits, with the value and how many were read. *)
Fixpoint skip_digits (count : Z) (value : double) (p : string) : Z * double * string :=
  match p with
  | String a p' =>
      if is_digit a then skip_digits (count + 1) (dadd (dmul value (double_of_int 10)) (double_of_int (digit_val a))) p'
      else (count, value, p)
  | EmptyString => (count, value, p)
  end.
Fixpoint skip_decimals (count : Z) (factor value : double) (p : string) : Z * double * string :=
  match p with
  | String a p' =>
      if is_digit a then
        let factor := ddiv factor (double_of_int 10) in
        skip_decimals (count + 1) factor (dadd value (dmul (double_of_int (digit_val a)) factor)) p'
      else (count, value, p)
  | EmptyString => (count, value, p)
  end.

Definition output_skip_float (p : string) : option (double * string) :=
  let '(count, value, p) := skip_digits 0 (double_of_int 0) p in
  if count <? 1 then None
  else
    match p with
    | String a p' =>
        if negb (Ascii.eqb a ".") then Some (value, p)
        else
          let '(count, value, p) := skip_decimals 0 (double_of_int 1) value p' in
          if count <? 1 then None else Some (value, p)
    | EmptyString => Some (value, p)
    end.

Fixpoint skip_int (value : Z) (p : string) : res (Z * string) :=
  match p with
  | String a p' => if is_digit a then let! v := chk32 (value * 10 + digit_val a) in skip_int v p' else Ret (value, p)
  | EmptyString => Ret (value, p)
  end.
Definition output_skip_int (p : string) : res (option (Z * string)) :=
  if starts_with_digit p then let! r := skip_int 0 p in Ret (Some r) else Ret None.

Fixpoint output_has_char (p : string) (c : ascii) : bool :=
  match p with String a p' => Ascii.eqb a c || output_has_char p' c | EmptyString => false end.

Definition add_reported (old value : double) : double := if isnan old then value else dadd old value.

(** ["COUNT|123456.789|1|lps"]: the value, and whether it is a rate. *)
Definition parse_count (p : string) : res (option (double * bool)) :=
  match output_skip_float p with
  | None => Ret None
  | Some (value, p) =>
      match output_skip_str p "|" with
      | None => Ret None
      | Some p =>
          let! r := output_skip_int p in
          match r with
          | None => Ret None
          | Some (israte, p) =>
              match output_skip_str p "|" with
              | None => Ret None
              | Some p => if output_has_char p "|" then Ret None else Ret (Some (value, negb (israte =? 0)))
              end
          end
      end
  end.

Definition parse_output (msg : string) (t : log_test) : res log_test :=
  match output_skip_str msg "COUNT|" with
  | Some p =>
      let! r := parse_count p in
      match r with
      | None => Ret t
      | Some (value, true) => Ret (set_reported_rate t (add_reported (reported_rate t) value))
      | Some (value, false) => Ret (set_reported_count t (add_reported (reported_count t) value))
      end
  | None =>
      match output_skip_str msg "TIME|" with
      | Some p =>
          match output_skip_float p with
          | Some (value, EmptyString) => Ret (set_reported_time t (add_reported (reported_time t) value))
          | _ => Ret t
          end
      | None => Ret t
      end
  end.

Definition callback_print_test_output (name msg : string) (s : summary) : res summary :=
  if negb (checkstatus s mtls_test_done) then Ret s
  else on_test s (λ t, if String.eqb name (lt_name t) then parse_output msg t else Ret t).

(** ** Stages of the run *)

Definition callback_print_tests_completed (st : logparse_callback_state) (s : summary) : res summary :=
  if negb (checkstatus s mtls_test_done) then Ret s
  else Ret (set_s_status (set_timestamp_tests_complete s (timestamp st)) mtls_tests_complete).

Definition booted (st : logparse_callback_state) (s : summary) : summary :=
  if bool_decide (s_status s = mtls_start) then set_s_status (set_timestamp_boot s (timestamp st)) mtls_boot else s.

Definition callback_print_tests_starting (st : logparse_callback_state) (names : string) (s : summary) : res summary :=
  let s := booted st s in
  if negb (checkstatus s mtls_boot) then Ret s
  else
    match testsplanned s with
    | Some _ => Stop FAssert
    | None =>
        Ret (set_testsplanned (set_s_status (set_timestamp_tests_starting s (timestamp st)) mtls_tests_starting) (Some names))
    end.

Definition callback_print_startup (st : logparse_callback_state) (s : summary) : res summary :=
  if status_reset s then Ret s else Ret (booted st s).

Definition exited (st : logparse_callback_state) (s : summary) : summary :=
  if status_exited s then s else set_status_exited s true (timestamp st).

Definition callback_qemu_exit (st : logparse_callback_state) (s : summary) : res summary :=
  if status_reset s then Ret s
  else Ret (exited st (if bool_decide (s_status s = mtls_tests_complete) then set_s_status s mtls_quit else s)).

Definition callback_qemu_hypermem_reset (st : logparse_callback_state) (s : summary) : res summary :=
  if status_reset s then Ret s
  else if stage mtls_start <? stage (s_status s) then Ret (exited st (set_status_reset s true))
  else Ret s.

Definition callback_qemu_signal (number : Z) (s : summary) : res summary :=
  if number <=? 0 then Ret s else if 0 <? s_signal s then Ret s else Ret (set_s_signal s number).

(** ** The summary of a log *)

Definition handle (st : logparse_callback_state) (x : call) (s : summary) : res summary :=
  match x with
  | edfi_dump_stats msg => callback_edfi_dump_stats msg s
  | edfi_dump_stats_module name msg bbs => callback_edfi_dump_stats_module name msg bbs s
  | edfi_faultindex_get name bbindex => callback_edfi_faultindex_get name bbindex s
  | fault name bbindex repeat => callback_fault name bbindex repeat s
  | hypermem_logpath _ => callback_hypermem_logpath st s
  | hypermem_faultspec faultspec => callback_hypermem_faultspec faultspec s
  | print_ltckpt status method name => callback_print_ltckpt status method name s
  | print_ltckpt_closed_ipc_callsites name _ _ callsites => callback_print_ltckpt_closed_ipc_callsites name callsites s
  | print_startup _ => callback_print_startup st s
  | print_test name status => callback_print_test st name status s
  | print_test_output name msg => callback_print_test_output name msg s
  | print_tests_completed _ => callback_print_tests_completed st s
  | print_tests_starting names => callback_print_tests_starting st names s
  | qemu_exit => callback_qemu_exit st s
  | qemu_hypermem_reset => callback_qemu_hypermem_reset st s
  | qemu_signal number => callback_qemu_signal number s
  | _ => Ret s
  end.

(** The callbacks that are set. *)
Definition summary_callbacks : logparse_callbacks := λ c,
  match c with
  | cb_edfi_dump_stats | cb_edfi_dump_stats_module | cb_edfi_faultindex_get | cb_fault | cb_hypermem_logpath
  | cb_hypermem_faultspec | cb_print_ltckpt | cb_print_ltckpt_closed_ipc_callsites | cb_print_startup | cb_print_test
  | cb_print_test_output | cb_print_tests_completed | cb_print_tests_starting | cb_qemu_exit | cb_qemu_hypermem_reset
  | cb_qemu_signal => true
  | _ => false
  end.

Definition deliver (s : summary) (o : output) : res summary :=
  match o with OCall st x => handle st x s | OStderr _ => Ret s end.
Definition deliver_all (out : list output) (s : summary) : res summary := res_foldl deliver s out.

(** Tests that did not end end with the next one, or with the tests. *)
Fixpoint close_tests (complete : timeval) (l : list log_test) : list log_test :=
  match l with
  | [] => []
  | t :: l' =>
      (if bool_decide (lt_status t = mts_running) then
         set_timestamp_end t (match l' with next :: _ => timestamp_start next | [] => complete end)
       else t) :: close_tests complete l'
  end.

Definition finish (timestamp_last : timeval) (s : summary) : summary :=
  let s := if status_exited s then s else set_timestamp_exit s timestamp_last in
  let s := if stage (s_status s) <? stage mtls_boot then set_timestamp_boot s (timestamp_exit s) else s in
  let s := if stage (s_status s) <? stage mtls_tests_starting then set_timestamp_tests_starting s (timestamp_exit s) else s in
  let s := if stage (s_status s) <? stage mtls_tests_complete then set_timestamp_tests_complete s (timestamp_exit s) else s in
  set_s_tests s (close_tests (timestamp_tests_complete s) (s_tests s)).
End Callbacks.

(** The reader runs the callbacks while it reads; here after it has read. *)
Definition minixtest_log_summarize mktime (excludemod : list string) (log : option string) : res summary :=
  let! r := logparse_from_path mktime summary_callbacks log (Some no_time) in
  let! s := deliver_all excludemod r.2 new_summary in
  Ret (finish (default no_time (timestamp_last r.1)) s).

(** ** Well-formed summaries *)

(** An array of a test's module has one count per block, or is not there. *)
Definition sized (n : Z) (a : option (list Z)) : Prop :=
  match a with None => True | Some l => Z.of_nat (length l) = n ∧ 0 < n end.

(** All counters are at most [w], the weight of the calls so far. *)
Definition recoveries_ok (w : Z) (r : recoveries) : Prop := ∀ st me, 0 ≤ r st me ≤ w.

Record test_module_ok (w : Z) (m : test_module) : Prop := {
  mo_before : sized (tm_bb_count m) (bbs_before m);
  mo_after : sized (tm_bb_count m) (bbs_after m);
  mo_during : sized (tm_bb_count m) (bbs_during m);
  mo_recoveries : recoveries_ok w (tm_recoveries m);
}.
Record log_module_ok (w : Z) (m : log_module) : Prop := {
  lo_retrieved : 0 ≤ faultindexretrieved m ≤ w;
  lo_callsites : ∀ i, 0 ≤ callsites_closed m i ≤ w;
  lo_recoveries : recoveries_ok w (lm_recoveries m);
}.

Definition test_ok (w : Z) (t : log_test) : Prop := Forall (test_module_ok w) (lt_modules t).

(** Where [test_current] and [test_last_p] point, by stage. *)
Definition running_stage (s : log_status) : bool := (4 <=? stage s) && (stage s <=? 6).
Definition pointers_ok (s : summary) : Prop :=
  if stage (s_status s) <=? 3 then s_tests s = [] ∧ test_current s = None ∧ test_last_p s = 0%nat
  else ∃ l t, s_tests s = l ++ [t] ∧ test_current s = Some (length l) ∧
    if running_stage (s_status s) then test_last_p s = length l ∧ lt_status t = mts_running
    else test_last_p s = S (length l).

Record summary_ok (w v : Z) (s : summary) : Prop := {
  so_tests : Forall (test_ok w) (s_tests s);
  so_modules : Forall (log_module_ok v) (s_modules s);
  so_pointers : pointers_ok s;
  so_planned : stage (s_status s) ≤ 2 → testsplanned s = None;
}.

(** What a call adds to the counters. *)
Definition call_weight (x : call) : Z :=
  match x with print_ltckpt_closed_ipc_callsites _ _ _ callsites => 1 + Z.of_nat (length callsites) | _ => 1 end.
Definition weight_of (out : list output) : Z :=
  foldr (λ o w, match o with OCall _ x => call_weight x | OStderr _ => 0 end + w) 0 out.

(** The rate flag of a line of output fits an [int]. *)
Definition call_ok (x : call) : bool :=
  match x with
  | print_test_output _ msg => match output_skip_str msg "COUNT|" with Some p => is_ret (parse_count p) | None => true end
  | _ => true
  end.
Definition output_ok (o : output) : bool := match o with OCall _ x => call_ok x | OStderr _ => true end.

Lemma test_module_ok_mono w w' m : w ≤ w' → test_module_ok w m → test_module_ok w' m.
Proof. intros Hw [? ? ? Hr]. split; try done. intros st me. specialize (Hr st me). lia. Qed.

Lemma test_ok_mono w w' t : w ≤ w' → test_ok w t → test_ok w' t.
Proof. intros Hw Ht. eapply Forall_impl; [exact Ht|]. intros m. by apply test_module_ok_mono. Qed.

Lemma log_module_ok_mono w w' m : w ≤ w' → log_module_ok w m → log_module_ok w' m.
Proof.
  intros Hw [? Hc Hr]. split; [lia| |]; [intros i; specialize (Hc i); lia|intros st me; specialize (Hr st me); lia].
Qed.

Lemma summary_ok_mono w w' v v' s : w ≤ w' → v ≤ v' → summary_ok w v s → summary_ok w' v' s.
Proof.
  intros Hw Hv [Ht Hm Hp Hpl]. split; try done.
  - eapply Forall_impl; [exact Ht|]. intros t. by apply test_ok_mono.
  - eapply Forall_impl; [exact Hm|]. intros m. by apply log_module_ok_mono.
Qed.

(** ** Lists with a name for every element *)

Lemma find_position_spec {A} (key : A → string) name l :
  (find_position key name l ≤ length l)%nat ∧
  ∀ x, l !! find_position key name l = Some x → key x = name.
Proof.
  induction l as [|y l [IH1 IH2]]; simpl; [done|]. destruct (String.eqb_spec name (key y)); simpl.
  - split; [lia|]. by intros x [= <-].
  - split; [lia|]. exact IH2.
Qed.

Lemma find_or_add_spec {A} (key : A → string) (new : string → A) name l P :
  Forall P l → P (new name) → (∀ n, key (new n) = n) →
  let r := find_or_add key new name l in
  (r.1 < length r.2)%nat ∧ Forall P r.2 ∧ l `prefix_of` r.2 ∧ ∀ x, r.2 !! r.1 = Some x → key x = name.
Proof.
  intros Hl Hn Hk. destruct (find_position_spec key name l) as [Hle Hx]. unfold find_or_add. cbn [fst snd].
  destruct (Nat.leb_spec (length l) (find_position key name l)).
  - rewrite length_app. cbn [length]. split; [lia|]. split; [by apply Forall_app; split; [|constructor]|].
    split; [by exists [new name]|]. intros x Hx'. rewrite lookup_app_r in Hx' by done.
    replace (find_position key name l - length l)%nat with 0%nat in Hx' by lia. injection Hx' as <-. apply Hk.
  - split; [done|]. split; [done|]. split; [done|exact Hx].
Qed.

Lemma update_at_spec {A} (P : A → Prop) i (k : A → res A) l :
  Forall P l → (i < length l)%nat → (∀ x, l !! i = Some x → P x → ∃ y, k x = Ret y ∧ P y) →
  ∃ y, update_at i k l = Ret (<[i := y]> l) ∧ Forall P (<[i := y]> l) ∧ ∃ x, l !! i = Some x ∧ k x = Ret y.
Proof.
  intros Hl Hi Hk. unfold update_at. destruct (lookup_lt_is_Some_2 l i Hi) as [x Hx]. rewrite Hx.
  destruct (Hk x Hx (proj1 (Forall_lookup _ _) Hl i x Hx)) as (y & Hy & HP). rewrite Hy. cbn [res_bind].
  exists y. split; [done|]. split; [by apply Forall_insert|]. by exists x.
Qed.

(** ** Callbacks keep summaries well formed *)

Lemma on_test_ok w w' v s k :
  w ≤ w' → summary_ok w v s → 3 < stage (s_status s) →
  (∀ t, test_ok w t → ∃ t', k t = Ret t' ∧ test_ok w' t' ∧ lt_status t' = lt_status t) →
  ∃ s', on_test s k = Ret s' ∧ summary_ok w' v s'.
Proof.
  intros Hw Hs Hst Hk. destruct (summary_ok_mono w w' v v s Hw ltac:(lia) Hs) as [Ht' Hm' _ Hpl']. destruct Hs as [Ht Hm Hp _].
  unfold pointers_ok in Hp. destruct (Z.leb_spec (stage (s_status s)) 3); [lia|]. destruct Hp as (l & t & Htests & Hcur & Hptr).
  unfold on_test. rewrite Hcur. rewrite Htests in Ht, Ht'. apply Forall_app in Ht as [Hl Htt]. apply Forall_app in Ht' as [Hl' _].
  apply Forall_cons in Htt as [Htt _].
  destruct (Hk t Htt) as (t' & Hkt & Ht'' & Hstat). unfold update_at. rewrite Htests, list_lookup_middle, Hkt by done. cbn [res_bind].
  eexists. split; [done|]. rewrite insert_app_r_alt, Nat.sub_diag by lia. cbn [list_insert insert].
  split; cbn [s_tests s_modules s_status testsplanned set_s_tests]; try done.
  - apply Forall_app. split; [done|by constructor].
  - unfold pointers_ok. cbn [s_tests s_status set_s_tests test_current test_last_p]. destruct (Z.leb_spec (stage (s_status s)) 3); [lia|].
    exists l, t'. split; [done|]. split; [done|]. rewrite Hstat. exact Hptr.
Qed.

Lemma on_module_ok w v v' s name k :
  0 ≤ v ≤ v' → summary_ok w v s → (∀ m, log_module_ok v m → ∃ m', k m = Ret m' ∧ log_module_ok v' m') →
  ∃ s', on_module name k s = Ret s' ∧ summary_ok w v' s'.
Proof.
  intros Hw Hs Hk. destruct (summary_ok_mono w w v v' s ltac:(lia) ltac:(lia) Hs) as [Ht' Hm' Hp' Hpl']. destruct Hs as [_ Hm _ _].
  unfold on_module, find_or_add_module.
  assert (Hnew : log_module_ok v (new_log_module name)) by (split; simpl; [lia|intros; lia|intros ? ?; unfold no_recoveries; lia]).
  destruct (find_or_add_spec lm_name new_log_module name (s_modules s) (log_module_ok v) Hm Hnew ltac:(done)) as (Hi & Hl & _ & _).
  destruct (find_or_add lm_name new_log_module name (s_modules s)) as [i l]. cbn [fst snd] in *.
  destruct (lookup_lt_is_Some_2 l i Hi) as [m Hmi]. unfold update_at. rewrite Hmi.
  destruct (Hk m (proj1 (Forall_lookup _ _) Hl i m Hmi)) as (m' & -> & Hm''). cbn [res_bind].
  eexists. split; [done|]. split; cbn [s_tests s_modules s_status testsplanned set_s_modules]; try done.
  apply Forall_insert; [|done]. eapply Forall_impl; [exact Hl|]. intros x. apply log_module_ok_mono. lia.
Qed.

Lemma test_modules_ok w w' name k t :
  0 ≤ w ≤ w' → test_ok w t → (∀ m, test_module_ok w m → ∃ m', k m = Ret m' ∧ test_module_ok w' m') →
  ∃ t', (let '(i, l) := find_or_add_module_stats name (lt_modules t) in
         let! l := update_at i k l in Ret (set_lt_modules t l)) = Ret t' ∧ test_ok w' t' ∧ lt_status t' = lt_status t.
Proof.
  intros Hw Ht Hk. unfold find_or_add_module_stats.
  assert (Hnew : test_module_ok w (new_test_module name)) by (split; simpl; try done; intros ? ?; simpl; unfold no_recoveries; lia).
  destruct (find_or_add_spec tm_name new_test_module name (lt_modules t) (test_module_ok w) Ht Hnew ltac:(done)) as (Hi & Hl & _ & _).
  destruct (find_or_add tm_name new_test_module name (lt_modules t)) as [i l]. cbn [fst snd] in *.
  destruct (lookup_lt_is_Some_2 l i Hi) as [m Hmi]. unfold update_at. rewrite Hmi.
  destruct (Hk m (proj1 (Forall_lookup _ _) Hl i m Hmi)) as (m' & -> & Hm''). cbn [res_bind].
  eexists. split; [done|]. split; [|done]. unfold test_ok. cbn [lt_modules set_lt_modules].
  apply Forall_insert; [|done]. eapply Forall_impl; [exact Hl|]. intros x. apply test_module_ok_mono. lia.
Qed.

Lemma on_running_module_ok w w' v s name k :
  0 ≤ w ≤ w' → summary_ok w v s → (∀ m, test_module_ok w m → ∃ m', k m = Ret m' ∧ test_module_ok w' m') →
  ∃ s', on_running_module name k s = Ret s' ∧ summary_ok w' v s'.
Proof.
  intros Hw Hs Hk. unfold on_running_module.
  destruct (bool_decide (s_status s = mtls_test_running) || bool_decide (s_status s = mtls_test_running_stats)) eqn:Hrun.
  - apply (on_test_ok w); [lia|done| |].
    + rewrite orb_true_iff, !bool_decide_eq_true in Hrun. destruct Hrun as [-> | ->]; simpl; lia.
    + intros t Ht. apply test_modules_ok with (w := w); done.
  - eexists. split; [done|]. eapply summary_ok_mono; [| |done]; lia.
Qed.

(** *** Counts of blocks *)

Lemma bbs_sum_ok factor sum bbs :
  length sum = length bbs → ∃ l, add_bbs_sum factor sum bbs = Ret l ∧ length l = length sum ∧
    ∀ i n b, sum !! i = Some n → bbs !! i = Some b → l !! i = Some (u64 (n + b * factor)).
Proof.
  revert sum. induction bbs as [|b bbs IH]; intros [|n sum] Hlen; try done; cbn [add_bbs_sum].
  - exists []. done.
  - injection Hlen as Hlen. destruct (IH sum Hlen) as (l & -> & Hl & Hlook). cbn [res_bind]. eexists. split; [done|].
    split; [simpl; by rewrite Hl|]. intros [|i] n' b'; simpl; [by intros [= <-] [= <-]|apply Hlook].
Qed.

(** The counts of an array; a missing one holds zeros. *)
Definition counts_of (n : nat) (a : option (list Z)) : list Z := default (replicate n 0) a.

Lemma add_bbs_ok during bbs factor :
  bbs ≠ [] → sized (Z.of_nat (length bbs)) during →
  ∃ l, add_module_stats_add_bbs during bbs factor = Ret (Some l) ∧ length l = length bbs ∧
    ∀ i n b, counts_of (length bbs) during !! i = Some n → bbs !! i = Some b → l !! i = Some (u64 (n + b * factor)).
Proof.
  intros Hne Hs. unfold add_module_stats_add_bbs.
  assert (Hd : match during with Some l => Some l | None => alloc (replicate (length bbs) 0) end =
    Some (counts_of (length bbs) during)).
  { destruct during; [done|]. destruct bbs; [done|]. done. }
  rewrite Hd. assert (Hlen : length (counts_of (length bbs) during) = length bbs).
  { destruct during as [l|]; simpl in *; [lia|]. apply length_replicate. }
  destruct (bbs_sum_ok factor _ bbs Hlen) as (l & -> & Hl & Hlook). cbn [res_bind]. exists l. split; [done|]. split; [congruence|done].
Qed.

Lemma set_bbs_ok old bbs :
  bbs ≠ [] → sized (Z.of_nat (length bbs)) old → sized (Z.of_nat (length bbs)) (add_module_stats_set_bbs old bbs).
Proof. destruct old; [done|]. destruct bbs; [done|]. simpl. lia. Qed.

Lemma with_module_stats_ok excl w w' v s name (bbs : list Z) k :
  0 ≤ w ≤ w' → bbs ≠ [] → summary_ok w v s → 3 < stage (s_status s) →
  (∀ m, test_module_ok w m → tm_bb_count m = Z.of_nat (length bbs) → ∃ m', k m = Ret m' ∧ test_module_ok w' m') →
  ∃ s', with_module_stats excl s name (Z.of_nat (length bbs)) k = Ret s' ∧ summary_ok w' v s'.
Proof.
  intros Hw Hne Hs Hst Hk. unfold with_module_stats. apply (on_test_ok w); [lia|done|done|]. intros t Ht.
  destruct (string_ll_contains excl name).
  { exists t. split; [done|]. split; [|done]. eapply test_ok_mono; [|done]. lia. }
  apply (test_modules_ok w); [lia|done|]. intros m Hm.
  destruct (Z.eqb_spec (tm_bb_count m) 0) as [H0|H0].
  - apply Hk; [|done]. destruct Hm as [Hb Ha Hd Hr]. rewrite H0 in *.
    assert (Hnone : ∀ a, sized 0 a → sized (Z.of_nat (length bbs)) a) by (intros [l|] Hl; simpl in *; [lia|done]).
    split; simpl; auto.
  - destruct (Z.eqb_spec (tm_bb_count m) (Z.of_nat (length bbs))); [by apply Hk|].
    exists m. split; [done|]. eapply test_module_ok_mono; [|done]. lia.
Qed.

Lemma add_module_stats_ok excl w w' v s name bbs :
  0 ≤ w ≤ w' → bbs ≠ [] → summary_ok w v s → 3 < stage (s_status s) →
  (∃ s', add_module_stats_before excl s name bbs = Ret s' ∧ summary_ok w' v s') ∧
  (∃ s', add_module_stats_after excl s name bbs = Ret s' ∧ summary_ok w' v s') ∧
  (∃ s', add_module_stats_during excl s name bbs = Ret s' ∧ summary_ok w' v s').
Proof.
  intros Hw Hne Hs Hst.
  split; [|split]; apply (with_module_stats_ok excl w); try done; intros m Hm Hc;
    apply (test_module_ok_mono w w' m ltac:(lia)) in Hm; destruct Hm as [Hb Ha Hd Hr]; rewrite Hc in *; cbn [bbs_during set_bbs_before set_bbs_after].
  - destruct (add_bbs_ok (bbs_during m) bbs (-1) Hne Hd) as (l & -> & Hl & _). cbn [res_bind]. eexists. split; [done|].
    split; cbn [tm_bb_count bbs_before bbs_after bbs_during tm_recoveries set_bbs_during set_bbs_before]; rewrite ?Hc; try done;
      [by apply set_bbs_ok|]. simpl. destruct bbs; [done|]. simpl in *. lia.
  - destruct (add_bbs_ok (bbs_during m) bbs 1 Hne Hd) as (l & -> & Hl & _). cbn [res_bind]. eexists. split; [done|].
    split; cbn [tm_bb_count bbs_before bbs_after bbs_during tm_recoveries set_bbs_during set_bbs_after]; rewrite ?Hc; try done;
      [by apply set_bbs_ok|]. simpl. destruct bbs; [done|]. simpl in *. lia.
  - destruct (add_bbs_ok (bbs_during m) bbs 1 Hne Hd) as (l & -> & Hl & _). cbn [res_bind]. eexists. split; [done|].
    split; cbn [tm_bb_count bbs_before bbs_after bbs_during tm_recoveries set_bbs_during]; rewrite ?Hc; try done.
    simpl. destruct bbs; [done|]. simpl in *. lia.
Qed.

Lemma add_recovery_ok w r st me :
  0 ≤ w < 2^31 - 1 → recoveries_ok w r → ∃ r', add_recovery st me r = Ret r' ∧ recoveries_ok (w + 1) r'.
Proof.
  intros Hw Hr. unfold add_recovery. pose proof (Hr st me). rewrite chk32_ok by lia. cbn [res_bind]. eexists. split; [done|].
  intros st' me'. pose proof (Hr st' me'). repeat case_decide; lia.
Qed.

Lemma count_callsites_ok ids w c :
  0 ≤ w → w + Z.of_nat (length ids) < 2^31 → (∀ i, 0 ≤ c i ≤ w) →
  ∃ c', count_callsites ids c = Ret c' ∧ ∀ i, 0 ≤ c' i ≤ w + Z.of_nat (length ids).
Proof.
  revert w c. induction ids as [|id ids IH]; intros w c Hw Hmax Hc; cbn [count_callsites length] in *.
  { exists c. split; [done|]. intros i. specialize (Hc i). simpl. lia. }
  assert (Hc' : ∀ i, 0 ≤ c i ≤ w + 1) by (intros i; specialize (Hc i); lia).
  destruct (CALLSITE_ID_MAX <=? id).
  - destruct (IH (w + 1) c ltac:(lia) ltac:(lia) Hc') as (c' & -> & Hb). exists c'. split; [done|].
    intros i. specialize (Hb i). lia.
  - pose proof (Hc id). rewrite chk32_ok by lia. cbn [res_bind].
    destruct (IH (w + 1) (λ x, if x =? id then c id + 1 else c x) ltac:(lia) ltac:(lia)) as (c' & -> & Hb).
    { intros i. cbn beta. destruct (i =? id); [lia|apply Hc']. }
    exists c'. split; [done|]. intros i. specialize (Hb i). lia.
Qed.

(** A new stage that does not move the pointers. *)
Lemma set_status_ok w v s st :
  summary_ok w v s → (stage st <=? 3) = (stage (s_status s) <=? 3) → running_stage st = running_stage (s_status s) →
  (stage st ≤ 2 → stage (s_status s) ≤ 2) → summary_ok w v (set_s_status s st).
Proof.
  intros [Ht Hm Hp Hpl] H1 H2 H3. split; try done.
  - unfold pointers_ok in *. cbn [s_status set_s_status s_tests test_current test_last_p]. by rewrite H1, H2.
  - intros Hst. apply Hpl, H3, Hst.
Qed.

Lemma checkstatus_true s st : checkstatus s st = true → s_status s = st.
Proof. unfold checkstatus. by intros [_ ?%bool_decide_eq_true]%andb_true_iff. Qed.
Lemma checkstatus2_true s st1 st2 : checkstatus2 s st1 st2 = true → s_status s = st1 ∨ s_status s = st2.
Proof. unfold checkstatus2. rewrite andb_true_iff, orb_true_iff, !bool_decide_eq_true. tauto. Qed.

Section Handle.
Variable excl : list string.
Variables (w : Z) (s : summary).
Hypothesis Hw : 0 ≤ w < 2^31 - 1.
Hypothesis Hs : summary_ok w w s.

Lemma kept : ∃ s', Ret s = Ret s' ∧ summary_ok (w + 1) (w + 1) s'.
Proof using Hs. exists s. split; [done|]. eapply summary_ok_mono; [| |done]; lia. Qed.

Lemma dump_stats_ok msg : ∃ s', callback_edfi_dump_stats msg s = Ret s' ∧ summary_ok (w + 1) (w + 1) s'.
Proof using Hs.
  assert (Hs1 : summary_ok (w + 1) (w + 1) s) by (eapply summary_ok_mono; [| |done]; lia).
  unfold callback_edfi_dump_stats. destruct (status_reset s); [by exists s|].
  repeat (case_match; [|]); try (by exists s); eexists; (split; [done|]).
  - destruct (checkstatus s mtls_test_running) eqn:Hc; [|done]. apply checkstatus_true in Hc.
    apply set_status_ok; rewrite ?Hc; done.
  - destruct (checkstatus s mtls_test_running_stats) eqn:Hc; [|done]. apply checkstatus_true in Hc.
    apply set_status_ok; rewrite ?Hc; done.
Qed.

Lemma stats_module_ok name msg bbs :
  ∃ s', callback_edfi_dump_stats_module excl name msg bbs s = Ret s' ∧ summary_ok (w + 1) (w + 1) s'.
Proof using Hs Hw.
  pose proof kept as Hkept. assert (Hs1 : summary_ok w (w + 1) s) by (eapply summary_ok_mono; [| |done]; lia).
  unfold callback_edfi_dump_stats_module. destruct (status_reset s); [done|].
  destruct (default [] bbs) as [|b bl] eqn:Hbbs; [done|]. set (l := b :: bl). assert (Hne : l ≠ []) by done.
  assert (Hadd : 3 < stage (s_status s) → _) by exact (add_module_stats_ok excl w (w + 1) (w + 1) s name l ltac:(lia) Hne Hs1).
  destruct (namecmp_startswith (default "" msg) "test-start-").
  { destruct (checkstatus s mtls_test_running_stats) eqn:Hc; [|done]. apply checkstatus_true in Hc. rewrite Hc in Hadd.
    by apply Hadd. }
  destruct (namecmp_startswith (default "" msg) "test-done-").
  { destruct (checkstatus s mtls_test_done_stats) eqn:Hc; [|done]. apply checkstatus_true in Hc. rewrite Hc in Hadd.
    by apply Hadd. }
  destruct (_ || _); [done|]. destruct (String.eqb _ _); [|done].
  destruct (checkstatus2 s mtls_boot mtls_test_running_stats) eqn:Hc; [|done]. cbn [negb].
  case_bool_decide as Hboot; [done|]. apply checkstatus2_true in Hc as [Hc|Hc]; [done|]. rewrite Hc in Hadd. by apply Hadd.
Qed.

Lemma faultindex_ok name bbindex : ∃ s', callback_edfi_faultindex_get name bbindex s = Ret s' ∧ summary_ok (w + 1) (w + 1) s'.
Proof using Hs Hw.
  unfold callback_edfi_faultindex_get. destruct (status_reset s); [apply kept|].
  apply (on_module_ok (w + 1) w); [lia|by eapply summary_ok_mono; [| |exact Hs]; lia|].
  intros m Hm. pose proof Hm as [Hn _ _]. rewrite chk32_ok by lia. cbn [res_bind]. eexists. split; [done|].
  apply (log_module_ok_mono w (w + 1)) in Hm as [_ Hc Hr]; [|lia]. split; simpl; [lia|done|done].
Qed.

Lemma fault_ok name bbindex n : ∃ s', callback_fault name bbindex n s = Ret s' ∧ summary_ok (w + 1) (w + 1) s'.
Proof using Hs Hw.
  unfold callback_fault. destruct (status_reset s); [apply kept|].
  destruct (on_module_ok w w (w + 1) s name (λ m, Ret (set_lm_faultact m (u64 (lm_faultact m + n))))) as (s1 & -> & Hs1); [lia|done| |].
  { intros m Hm. apply (log_module_ok_mono w (w + 1)) in Hm as [Hn Hc Hr]; [|lia]. eexists. split; [done|]. by split. }
  cbn [res_bind].
  destruct (on_running_module_ok w (w + 1) (w + 1) s1 name (λ m, Ret (set_tm_faultact m (u64 (tm_faultact m + n))))) as (s2 & -> & Hs2); [lia|done| |].
  { intros m Hm. apply (test_module_ok_mono w (w + 1)) in Hm as [Hb Ha Hd Hr]; [|lia]. eexists. split; [done|]. by split. }
  cbn [res_bind]. eexists. split; [done|]. destruct Hs2. by split.
Qed.

Lemma ltckpt_ok st me name : ∃ s', callback_print_ltckpt st me name s = Ret s' ∧ summary_ok (w + 1) (w + 1) s'.
Proof using Hs Hw.
  unfold callback_print_ltckpt. destruct (status_reset s); [apply kept|].
  edestruct (on_module_ok w w (w + 1) s name) as (s1 & Hrun & Hs1); [lia|done| |].
  { intros m Hm. pose proof Hm as [_ _ Hr]. destruct (add_recovery_ok w _ st me Hw Hr) as (r & Hadd & Hr').
    apply (log_module_ok_mono w (w + 1)) in Hm as [Hn Hc _]; [|lia].
    exists (set_lm_recoveries m r). split; [|by split]. exact (f_equal (λ x, res_bind x (λ r, Ret (set_lm_recoveries m r))) Hadd). }
  rewrite Hrun. cbn [res_bind]. apply (on_running_module_ok w); [lia|done|].
  intros m Hm. pose proof Hm as [_ _ _ Hr]. destruct (add_recovery_ok w _ st me Hw Hr) as (r & -> & Hr').
  apply (test_module_ok_mono w (w + 1)) in Hm as [Hb Ha Hd _]; [|lia]. cbn [res_bind]. eexists. split; [done|]. by split.
Qed.

(** Fields that the invariant does not mention. *)
Lemma same_ok s' :
  s_tests s' = s_tests s → s_modules s' = s_modules s → s_status s' = s_status s → testsplanned s' = testsplanned s →
  test_current s' = test_current s → test_last_p s' = test_last_p s → summary_ok (w + 1) (w + 1) s'.
Proof using Hs.
  intros H1 H2 H3 H4 H5 H6. destruct (summary_ok_mono w (w + 1) w (w + 1) s ltac:(lia) ltac:(lia) Hs) as [Ht Hm Hp Hpl].
  split; rewrite ?H1, ?H2, ?H3, ?H4; try done. unfold pointers_ok. by rewrite H1, H3, H5, H6.
Qed.

Lemma print_test_ok st name status : ∃ s', callback_print_test st name status s = Ret s' ∧ summary_ok (w + 1) (w + 1) s'.
Proof using Hs Hw.
  pose proof kept as Hkept. destruct (summary_ok_mono w (w + 1) w (w + 1) s ltac:(lia) ltac:(lia) Hs) as [Ht Hm Hp Hpl].
  unfold callback_print_test. case_bool_decide as Hrun.
  - destruct (checkstatus2 s mtls_tests_starting mtls_test_done) eqn:Hc; [|done]. cbn [negb]. apply checkstatus2_true in Hc.
    unfold add_test_before. cbn [s_tests set_s_status test_last_p].
    assert (Hlast : test_last_p s = length (s_tests s)).
    { unfold pointers_ok in Hp. destruct Hc as [Hc|Hc]; rewrite Hc in Hp; cbn in Hp.
      - by destruct Hp as (-> & _ & ->).
      - destruct Hp as (l & t & -> & _ & ->). rewrite length_app. simpl. lia. }
    rewrite Hlast, Nat.leb_refl. eexists. split; [done|]. split; cbn; try done.
    + apply Forall_app. split; [done|]. by repeat constructor.
    + unfold pointers_ok. cbn. eexists _, _. by repeat split.
  - destruct (checkstatus2 s mtls_test_running mtls_test_done_stats) eqn:Hc; [|done]. cbn [negb]. apply checkstatus2_true in Hc.
    assert (Hp' : ∃ l t, s_tests s = l ++ [t] ∧ test_current s = Some (length l) ∧ test_last_p s = length l ∧ lt_status t = mts_running).
    { unfold pointers_ok in Hp. destruct Hc as [Hc|Hc]; rewrite Hc in Hp; exact Hp. }
    destruct Hp' as (l & t & Htests & Hcur & Hlast & Hstat). unfold add_test_after, on_test, update_at.
    cbn [test_current s_tests test_last_p set_s_status set_test_last_p]. rewrite Hcur, Htests, Hlast, length_app, Nat.eqb_refl.
    cbn [length]. destruct (Nat.ltb_spec (length l) (length l + 1)); [|lia]. cbn [andb].
    rewrite list_lookup_middle by done. rewrite bool_decide_true by done. cbn [res_bind]. eexists. split; [done|].
    rewrite insert_app_r_alt, Nat.sub_diag by lia. cbn [list_insert insert]. rewrite Htests in Ht. apply Forall_app in Ht as [Hl Htt].
    apply Forall_cons in Htt as [Htt _]. split; cbn; try done.
    + apply Forall_app. split; [done|]. by constructor.
    + unfold pointers_ok. cbn. eexists l, _. by repeat split.
Qed.

Lemma parse_output_ok name msg t :
  call_ok (print_test_output name msg) = true → ∃ t', parse_output msg t = Ret t' ∧ lt_modules t' = lt_modules t ∧ lt_status t' = lt_status t.
Proof using.
  unfold parse_output. cbn [call_ok]. destruct (output_skip_str msg "COUNT|") as [p|].
  - destruct (parse_count p) as [[[v [|]]|]|]; [| | |done]; intros _; cbn [res_bind]; by eexists.
  - intros _. destruct (output_skip_str msg "TIME|") as [p|]; [|by eexists]. destruct (output_skip_float p) as [[v [|]]|]; by eexists.
Qed.

Lemma test_output_ok name msg :
  call_ok (print_test_output name msg) = true →
  ∃ s', callback_print_test_output name msg s = Ret s' ∧ summary_ok (w + 1) (w + 1) s'.
Proof using Hs Hw.
  intros Hok. unfold callback_print_test_output. destruct (checkstatus s mtls_test_done) eqn:Hc; [|apply kept]. cbn [negb].
  apply checkstatus_true in Hc. apply (on_test_ok w); [lia|by eapply summary_ok_mono; [| |exact Hs]; lia|by rewrite Hc|].
  intros t Ht. apply (test_ok_mono w (w + 1)) in Ht; [|lia]. destruct (String.eqb name (lt_name t)); [|by exists t].
  destruct (parse_output_ok name msg t Hok) as (t' & Hp & Hm & Hstat). exists t'. split; [done|]. split; [|done].
  unfold test_ok. by rewrite Hm.
Qed.

Lemma booted_ok st : summary_ok (w + 1) (w + 1) (booted st s).
Proof using Hs.
  unfold booted. case_bool_decide as Hst; [|by apply same_ok].
  assert (H1 : summary_ok (w + 1) (w + 1) (set_timestamp_boot s (timestamp st))) by (by apply same_ok).
  apply set_status_ok; [exact H1| | |]; cbn; rewrite Hst; done.
Qed.

Lemma tests_starting_ok st names : ∃ s', callback_print_tests_starting st names s = Ret s' ∧ summary_ok (w + 1) (w + 1) s'.
Proof using Hs.
  unfold callback_print_tests_starting. pose proof (booted_ok st) as Hb. destruct (checkstatus (booted st s) mtls_boot) eqn:Hc; [|by exists (booted st s)].
  apply checkstatus_true in Hc. cbn [negb]. destruct Hb as [Ht Hm Hp Hpl]. rewrite (Hpl ltac:(by rewrite Hc)). eexists. split; [done|].
  split; cbn; try done. unfold pointers_ok in *. rewrite Hc in Hp. exact Hp.
Qed.

Lemma tests_completed_ok st : ∃ s', callback_print_tests_completed st s = Ret s' ∧ summary_ok (w + 1) (w + 1) s'.
Proof using Hs.
  unfold callback_print_tests_completed. destruct (checkstatus s mtls_test_done) eqn:Hc; [|apply kept]. apply checkstatus_true in Hc.
  eexists. split; [done|]. apply set_status_ok; [by apply same_ok| | |]; cbn; rewrite Hc; done.
Qed.

Lemma logpath_ok st : ∃ s', callback_hypermem_logpath st s = Ret s' ∧ summary_ok (w + 1) (w + 1) s'.
Proof using Hs.
  unfold callback_hypermem_logpath. destruct (checkstatus s mtls_none) eqn:Hc; [|apply kept]. apply checkstatus_true in Hc.
  eexists. split; [done|]. apply set_status_ok; [by apply same_ok| | |]; cbn; rewrite Hc; done.
Qed.

Lemma exit_ok st : ∃ s', callback_qemu_exit st s = Ret s' ∧ summary_ok (w + 1) (w + 1) s'.
Proof using Hs.
  unfold callback_qemu_exit. destruct (status_reset s); [apply kept|]. eexists. split; [done|].
  assert (H1 : summary_ok (w + 1) (w + 1) (if bool_decide (s_status s = mtls_tests_complete) then set_s_status s mtls_quit else s)).
  { case_bool_decide as Hst; [|by apply same_ok]. apply set_status_ok; [by apply same_ok| | |]; rewrite Hst; done. }
  revert H1. generalize (if bool_decide (s_status s = mtls_tests_complete) then set_s_status s mtls_quit else s) as s1. intros s1 [? ? ? ?].
  unfold exited. destruct (status_exited s1); by split.
Qed.

Lemma reset_ok st : ∃ s', callback_qemu_hypermem_reset st s = Ret s' ∧ summary_ok (w + 1) (w + 1) s'.
Proof using Hs.
  unfold callback_qemu_hypermem_reset. destruct (status_reset s); [apply kept|].
  destruct (stage mtls_start <? stage (s_status s)); [|apply kept]. eexists. split; [done|].
  unfold exited. cbn. destruct (status_exited s); by apply same_ok.
Qed.
End Handle.

Lemma callsites_ok w s name ids :
  0 ≤ w → w + (1 + Z.of_nat (length ids)) < 2^31 → summary_ok w w s →
  ∃ s', callback_print_ltckpt_closed_ipc_callsites name ids s = Ret s' ∧
    summary_ok (w + (1 + Z.of_nat (length ids))) (w + (1 + Z.of_nat (length ids))) s'.
Proof.
  intros Hw Hmax Hs. unfold callback_print_ltckpt_closed_ipc_callsites.
  apply (on_module_ok _ w); [lia|eapply summary_ok_mono; [| |exact Hs]; lia|]. intros m Hm. pose proof Hm as [_ Hc _].
  destruct (count_callsites_ok ids w (callsites_closed m) Hw ltac:(lia) Hc) as (c & -> & Hb). cbn [res_bind]. eexists. split; [done|].
  apply (log_module_ok_mono w (w + (1 + Z.of_nat (length ids)))) in Hm as [Hn _ Hr]; [|lia]. split; try done.
  intros i. specialize (Hb i). simpl. lia.
Qed.

Lemma handle_ok excl w s st x :
  0 ≤ w → w + call_weight x < 2^31 → call_ok x = true → summary_ok w w s →
  ∃ s', handle excl st x s = Ret s' ∧ summary_ok (w + call_weight x) (w + call_weight x) s'.
Proof.
  intros Hw Hmax Hok Hs.
  destruct x; cbn [handle call_weight] in *; try (apply kept; [done|lia]); try (by apply kept).
  - by apply dump_stats_ok.
  - apply stats_module_ok; [lia|done].
  - apply faultindex_ok; [lia|done].
  - apply fault_ok; [lia|done].
  - unfold callback_hypermem_faultspec. destruct (checkstatus s mtls_start); [|by apply kept]. cbn [negb].
    destruct (s_faultspec s); [by apply kept|]. eexists. split; [done|]. by eapply same_ok.
  - by apply logpath_ok.
  - by apply exit_ok.
  - by apply reset_ok.
  - unfold callback_qemu_signal. destruct (number <=? 0); [by apply kept|]. destruct (0 <? s_signal s); [by apply kept|].
    eexists. split; [done|]. by eapply same_ok.
  - unfold callback_print_startup. destruct (status_reset s); [by apply kept|]. eexists. split; [done|]. by apply booted_ok.
  - apply print_test_ok; [lia|done].
  - apply test_output_ok; [lia|done|done].
  - by apply tests_completed_ok.
  - by apply tests_starting_ok.
  - apply ltckpt_ok; [lia|done].
  - by apply callsites_ok.
Qed.

Lemma call_weight_pos x : 1 ≤ call_weight x.
Proof. destruct x; simpl; lia. Qed.

Lemma weight_of_nonneg out : 0 ≤ weight_of out.
Proof. induction out as [|[st x|] out IH]; simpl; [lia| |lia]. pose proof (call_weight_pos x). lia. Qed.

Lemma deliver_all_ok excl out w s :
  0 ≤ w → w + weight_of out < 2^31 → forallb output_ok out = true → summary_ok w w s →
  ∃ s', deliver_all excl out s = Ret s' ∧ summary_ok (w + weight_of out) (w + weight_of out) s'.
Proof.
  revert w s. induction out as [|o out IH]; intros w s Hw Hmax Hok Hs.
  { exists s. simpl. by rewrite Z.add_0_r. }
  cbn [forallb] in Hok. apply andb_true_iff in Hok as [Ho Hok]. pose proof (weight_of_nonneg out) as Hpos.
  unfold deliver_all in *. cbn [res_foldl]. destruct o as [st x|]; cbn [weight_of foldr deliver output_ok] in *.
  - fold (weight_of out) in *. pose proof (call_weight_pos x).
    destruct (handle_ok excl w s st x Hw ltac:(lia) Ho Hs) as (s1 & -> & Hs1). cbn [res_bind].
    destruct (IH (w + call_weight x) s1 ltac:(lia) ltac:(lia) Hok Hs1) as (s2 & -> & Hs2). exists s2. by rewrite Z.add_assoc.
  - fold (weight_of out) in *. cbn [res_bind]. rewrite Z.add_0_l in *. by apply IH.
Qed.

Lemma new_summary_ok : summary_ok 0 0 new_summary.
Proof. split; try constructor; done. Qed.

Lemma close_tests_snoc complete l t :
  ∃ l', close_tests complete (l ++ [t]) =
          l' ++ [if bool_decide (lt_status t = mts_running) then set_timestamp_end t complete else t] ∧ length l' = length l.
Proof.
  induction l as [|u l (l' & IH & Hlen)]; [by exists []|]. cbn [app close_tests]. rewrite IH. eexists (_ :: l').
  split; [done|]. simpl. by rewrite Hlen.
Qed.

Lemma close_tests_forall (P : log_test → Prop) complete l :
  (∀ t v, P t → P (set_timestamp_end t v)) → Forall P l → Forall P (close_tests complete l).
Proof. intros HP. induction 1; simpl; constructor; [|done]. case_match; auto. Qed.

Lemma finish_ok w tl s : summary_ok w w s → summary_ok w w (finish tl s).
Proof.
  intros [Ht Hm Hp Hpl]. set (c := timestamp_tests_complete (finish tl s)).
  assert (Hf : s_tests (finish tl s) = close_tests c (s_tests s) ∧ s_modules (finish tl s) = s_modules s ∧
    s_status (finish tl s) = s_status s ∧ testsplanned (finish tl s) = testsplanned s ∧
    test_current (finish tl s) = test_current s ∧ test_last_p (finish tl s) = test_last_p s).
  { unfold c. clear. destruct s as [? ? ? st ? ? ex ? ? ? ? ? ? ? ? ? ?]. destruct ex, st; by repeat split. }
  destruct Hf as (H1 & H2 & H3 & H4 & H5 & H6). split; rewrite ?H1, ?H2, ?H3, ?H4; try done.
  - by apply close_tests_forall.
  - unfold pointers_ok in *. rewrite H1, H3, H5, H6. destruct (Z.leb_spec (stage (s_status s)) 3).
    + by destruct Hp as (-> & ? & ?).
    + destruct Hp as (l & t & -> & Hcur & Hptr). destruct (close_tests_snoc c l t) as (l' & Hcl & Hlen).
      exists l', (if bool_decide (lt_status t = mts_running) then set_timestamp_end t c else t). rewrite Hlen. split; [done|]. split; [done|].
      destruct (running_stage (s_status s)); [|done]. destruct Hptr as [Hl Hr]. split; [done|]. by rewrite bool_decide_true.
Qed.

(** C31: summaries are well formed.  Whatever the log reader delivers, in whatever
    order, no assertion of the summariser fails and no array is indexed outside
    its bounds: the summary is completed, every array of execution counts has one
    entry per block of its module, the current test is the last one and is still
    running exactly in the stages of a running test.  Counters are [int]s and the
    log is too short to overflow them. *)
Theorem summary_well_formed mktime excl log r :
  logparse_from_path mktime summary_callbacks log (Some no_time) = Ret r →
  forallb output_ok r.2 = true → weight_of r.2 < 2^31 →
  ∃ s, minixtest_log_summarize mktime excl log = Ret s ∧ summary_ok (weight_of r.2) (weight_of r.2) s.
Proof.
  intros Hread Hok Hmax. unfold minixtest_log_summarize. rewrite Hread. cbn [res_bind].
  destruct (deliver_all_ok excl r.2 0 new_summary ltac:(lia) Hmax Hok new_summary_ok) as (s & -> & Hs). cbn [res_bind].
  eexists. split; [done|]. by apply finish_ok.
Qed.

(** ** A complete run *)

(** A test as it was run: its modules with their counts before and after. *)
Record module_run := { mr_name : string; mr_before : list Z; mr_after : list Z }.
Record test_run := {
  tr_name : string; tr_status : minix_test_status; tr_start : logparse_callback_state; tr_end : logparse_callback_state;
  tr_modules : list module_run;
}.
Record whole_run := {
  wr_path : string; wr_start : logparse_callback_state; wr_boot : logparse_callback_state; wr_planned : string;
  wr_starting : logparse_callback_state; wr_tests : list test_run; wr_complete : logparse_callback_state;
  wr_exit : logparse_callback_state;
}.

Definition before_msg (t : test_run) : option string := Some ("test-start-" +:+ tr_name t).
Definition after_msg (t : test_run) : option string := Some ("test-done-" +:+ tr_name t).

(** What the log reader delivers for it. *)
Definition test_events (t : test_run) : list output :=
  [OCall (tr_start t) (print_test (tr_name t) mts_running); OCall (tr_start t) (edfi_dump_stats (before_msg t))] ++
  ((λ m, OCall (tr_start t) (edfi_dump_stats_module (mr_name m) (before_msg t) (Some (mr_before m)))) <$> tr_modules t) ++
  [OCall (tr_end t) (edfi_dump_stats (after_msg t))] ++
  ((λ m, OCall (tr_end t) (edfi_dump_stats_module (mr_name m) (after_msg t) (Some (mr_after m)))) <$> tr_modules t) ++
  [OCall (tr_end t) (print_test (tr_name t) (tr_status t))].
Definition run_events (r : whole_run) : list output :=
  [OCall (wr_start r) (hypermem_logpath (wr_path r)); OCall (wr_boot r) (print_startup "init");
   OCall (wr_starting r) (print_tests_starting (wr_planned r))] ++
  concat (test_events <$> wr_tests r) ++
  [OCall (wr_complete r) (print_tests_completed None); OCall (wr_exit r) qemu_exit].

Definition module_run_ok (excl : list string) (m : module_run) : bool :=
  negb (length (mr_before m) =? 0)%nat && (length (mr_before m) =? length (mr_after m))%nat &&
  negb (string_ll_contains excl (mr_name m)).
Definition test_run_ok (excl : list string) (t : test_run) : bool :=
  negb (bool_decide (tr_status t = mts_running)) && forallb (module_run_ok excl) (tr_modules t) &&
  bool_decide (NoDup (mr_name <$> tr_modules t)).
Definition run_ok (excl : list string) (r : whole_run) : bool :=
  negb (length (wr_tests r) =? 0)%nat && forallb (test_run_ok excl) (wr_tests r).

(** ** Its summary *)

(** The blocks executed during the test. *)
Definition counts_during (m : module_run) : list Z := zip_with (λ b a, u64 (a - b)) (mr_before m) (mr_after m).

Definition before_image (m : module_run) : test_module :=
  {| tm_name := mr_name m; tm_bb_count := Z.of_nat (length (mr_before m)); bbs_before := Some (mr_before m); bbs_after := None;
     bbs_during := Some ((λ b, u64 (- b)) <$> mr_before m); tm_faultact := 0; tm_recoveries := no_recoveries |}.
Definition module_run_image (m : module_run) : test_module :=
  {| tm_name := mr_name m; tm_bb_count := Z.of_nat (length (mr_before m)); bbs_before := Some (mr_before m);
     bbs_after := Some (mr_after m); bbs_during := Some (counts_during m); tm_faultact := 0; tm_recoveries := no_recoveries |}.
Definition test_image (t : test_run) : log_test :=
  {| lt_name := tr_name t; lt_status := tr_status t; timestamp_start := timestamp (tr_start t);
     timestamp_end := timestamp (tr_end t); reported_count := S754_nan; reported_rate := S754_nan; reported_time := S754_nan;
     lt_modules := module_run_image <$> tr_modules t |}.
Definition run_image (r : whole_run) : summary :=
  {| s_faultspec := None; s_modules := []; s_signal := 0; s_status := mtls_quit; statusfaultfirst := mtls_none;
     statusfaultlast := mtls_none; status_exited := true; status_reset := false; s_timestamp_start := timestamp (wr_start r);
     timestamp_boot := timestamp (wr_boot r); timestamp_tests_starting := timestamp (wr_starting r);
     timestamp_tests_complete := timestamp (wr_complete r); timestamp_exit := timestamp (wr_exit r);
     testsplanned := Some (wr_planned r); s_tests := test_image <$> wr_tests r;
     test_current := Some (pred (length (wr_tests r))); test_last_p := length (wr_tests r) |}.

(** A summary inside a test, and between tests. *)
Definition in_test (s : summary) (l : list log_test) (t : log_test) (st : log_status) : summary :=
  set_test_last_p (set_test_current (set_s_tests (set_s_status s st) (l ++ [t])) (Some (length l))) (length l).
Definition between (s : summary) (l : list log_test) (cur : option nat) (st : log_status) : summary :=
  set_test_last_p (set_test_current (set_s_tests (set_s_status s st) l) cur) (length l).

Lemma on_test_in s l t st k : on_test (in_test s l t st) k = (let! t' := k t in Ret (in_test s l t' st)).
Proof.
  unfold on_test, update_at. cbn [in_test test_current set_test_last_p set_test_current s_tests set_s_tests].
  rewrite list_lookup_middle by done. destruct (k t) as [t'|]; [|done]. cbn [res_bind].
  rewrite insert_app_r_alt, Nat.sub_diag by lia. done.
Qed.

Lemma find_position_fresh {A} (key : A → string) name l : name ∉ (key <$> l) → find_position key name l = length l.
Proof.
  induction l as [|x l IH]; [done|]. rewrite fmap_cons. intros [Hx Hl]%not_elem_of_cons. simpl.
  destruct (String.eqb_spec name (key x)); [done|]. by rewrite IH.
Qed.

Lemma find_position_at {A} (key : A → string) l x r : key x ∉ (key <$> l) → find_position key (key x) (l ++ x :: r) = length l.
Proof.
  induction l as [|y l IH]; simpl; [by rewrite String.eqb_refl|]. intros [Hx Hl]%not_elem_of_cons.
  destruct (String.eqb_spec (key x) (key y)); [done|]. by rewrite IH.
Qed.

(** Updating a module that is not there yet, and one that is. *)
Lemma module_stats_fresh excl s l t st name n k :
  string_ll_contains excl name = false → name ∉ (tm_name <$> lt_modules t) →
  with_module_stats excl (in_test s l t st) name n k =
    (let! m := k (set_tm_bb_count (new_test_module name) n) in Ret (in_test s l (set_lt_modules t (lt_modules t ++ [m])) st)).
Proof.
  intros Hex Hfresh. unfold with_module_stats. rewrite on_test_in, Hex. unfold find_or_add_module_stats, find_or_add.
  rewrite find_position_fresh, Nat.leb_refl by done. unfold update_at. rewrite list_lookup_middle by done.
  change (tm_bb_count (new_test_module name) =? 0) with true. cbv iota.
  destruct (k (set_tm_bb_count (new_test_module name) n)) as [m|]; [|done]. cbn [res_bind].
  by rewrite insert_app_r_alt, Nat.sub_diag by lia.
Qed.

Lemma module_stats_there excl s l t st A m B n k :
  string_ll_contains excl (tm_name m) = false → lt_modules t = A ++ m :: B → tm_name m ∉ (tm_name <$> A) →
  tm_bb_count m = n → 0 < n →
  with_module_stats excl (in_test s l t st) (tm_name m) n k =
    (let! m' := k m in Ret (in_test s l (set_lt_modules t (A ++ m' :: B)) st)).
Proof.
  intros Hex Hmods Hfresh Hn Hpos. unfold with_module_stats. rewrite on_test_in, Hex. unfold find_or_add_module_stats, find_or_add.
  rewrite Hmods, find_position_at, length_app by done. cbn [length]. destruct (Nat.leb_spec (length A + S (length B)) (length A)); [lia|].
  unfold update_at. rewrite list_lookup_middle by done. destruct (Z.eqb_spec (tm_bb_count m) 0); [lia|].
  rewrite Hn, Z.eqb_refl. destruct (k m) as [m'|]; [|done]. cbn [res_bind]. by rewrite insert_app_r_alt, Nat.sub_diag by lia.
Qed.

Lemma subtract_counts l : add_bbs_sum (-1) (replicate (length l) 0) l = Ret ((λ b, u64 (- b)) <$> l).
Proof.
  induction l as [|b l IH]; [done|]. cbn [length replicate add_bbs_sum]. rewrite IH. cbn [res_bind]. rewrite fmap_cons.
  do 3 f_equal. lia.
Qed.

Lemma during_counts lb la :
  length lb = length la → add_bbs_sum 1 ((λ b, u64 (- b)) <$> lb) la = Ret (zip_with (λ b a, u64 (a - b)) lb la).
Proof.
  revert la. induction lb as [|b lb IH]; intros [|a la] Hlen; try done. injection Hlen as Hlen.
  rewrite fmap_cons. cbn [add_bbs_sum zip_with]. rewrite IH by done. cbn [res_bind]. do 2 f_equal.
  unfold u64. rewrite Zplus_mod_idemp_l. f_equal. lia.
Qed.

Lemma before_event excl s l t st m msg cb :
  status_exited s = false → status_reset s = false → module_run_ok excl m = true → mr_name m ∉ (tm_name <$> lt_modules t) →
  namecmp_startswith msg "test-start-" = true → st = mtls_test_running_stats →
  deliver excl (in_test s l t st) (OCall cb (edfi_dump_stats_module (mr_name m) (Some msg) (Some (mr_before m)))) =
    Ret (in_test s l (set_lt_modules t (lt_modules t ++ [before_image m])) st).
Proof.
  intros Hex Hre Hok Hfresh Hmsg ->. unfold module_run_ok in Hok. rewrite !andb_true_iff, !negb_true_iff in Hok.
  destruct Hok as [[Hne Hlen] Hexcl]. apply Nat.eqb_neq in Hne. cbn [deliver handle]. unfold callback_edfi_dump_stats_module.
  change (status_reset (in_test s l t mtls_test_running_stats)) with (status_reset s). rewrite Hre. cbn [default].
  destruct (mr_before m) as [|b bl] eqn:Hb; [done|]. unfold default, id. rewrite Hmsg.
  unfold checkstatus. change (status_exited (in_test s l t mtls_test_running_stats)) with (status_exited s). rewrite Hex.
  change (bool_decide (s_status (in_test s l t mtls_test_running_stats) = mtls_test_running_stats)) with true. cbn [negb andb].
  unfold add_module_stats_before. rewrite module_stats_fresh by done.
  unfold add_module_stats_add_bbs, before_image. rewrite Hb.
  cbn [bbs_during set_bbs_before set_tm_bb_count new_test_module length replicate alloc].
  change (0 :: replicate (length bl) 0) with (replicate (length (b :: bl)) 0). rewrite subtract_counts. done.
Qed.

Lemma after_event excl s l t st m msg cb A B :
  status_exited s = false → status_reset s = false → module_run_ok excl m = true →
  lt_modules t = A ++ before_image m :: B → mr_name m ∉ (tm_name <$> A) →
  namecmp_startswith msg "test-start-" = false → namecmp_startswith msg "test-done-" = true → st = mtls_test_done_stats →
  deliver excl (in_test s l t st) (OCall cb (edfi_dump_stats_module (mr_name m) (Some msg) (Some (mr_after m)))) =
    Ret (in_test s l (set_lt_modules t (A ++ module_run_image m :: B)) st).
Proof.
  intros Hex Hre Hok Hmods Hfresh Hmsg1 Hmsg2 ->. unfold module_run_ok in Hok. rewrite !andb_true_iff, !negb_true_iff in Hok.
  destruct Hok as [[Hne Hlen] Hexcl]. apply Nat.eqb_neq in Hne. apply Nat.eqb_eq in Hlen.
  cbn [deliver handle]. unfold callback_edfi_dump_stats_module.
  change (status_reset (in_test s l t mtls_test_done_stats)) with (status_reset s). rewrite Hre.
  destruct (mr_after m) as [|a al] eqn:Ha; [simpl in Hlen; lia|]. unfold default, id. rewrite Hmsg1, Hmsg2.
  unfold checkstatus. change (status_exited (in_test s l t mtls_test_done_stats)) with (status_exited s). rewrite Hex.
  change (bool_decide (s_status (in_test s l t mtls_test_done_stats) = mtls_test_done_stats)) with true. cbn [negb andb].
  unfold add_module_stats_after.
  change (mr_name m) with (tm_name (before_image m)) at 1. rewrite (module_stats_there excl s l t _ A (before_image m) B);
    [|done|done|done|cbn [tm_bb_count before_image]; lia|cbn [length]; lia].
  unfold add_module_stats_add_bbs. cbn [bbs_during set_bbs_after before_image]. rewrite during_counts by done. cbn [res_bind].
  unfold module_run_image, counts_during. by rewrite Ha.
Qed.

Lemma before_events excl s l t ms msg cb :
  status_exited s = false → status_reset s = false → forallb (module_run_ok excl) ms = true →
  NoDup ((tm_name <$> lt_modules t) ++ (mr_name <$> ms)) → namecmp_startswith msg "test-start-" = true →
  res_foldl (deliver excl) (in_test s l t mtls_test_running_stats)
    ((λ m, OCall cb (edfi_dump_stats_module (mr_name m) (Some msg) (Some (mr_before m)))) <$> ms) =
  Ret (in_test s l (set_lt_modules t (lt_modules t ++ (before_image <$> ms))) mtls_test_running_stats).
Proof.
  intros Hex Hre Hok Hnd Hmsg. revert t Hok Hnd. induction ms as [|m ms IH]; intros t Hok Hnd.
  { cbn [fmap list_fmap res_foldl]. rewrite app_nil_r. by destruct t. }
  cbn [forallb] in Hok. apply andb_true_iff in Hok as [Hm Hok]. cbn [fmap list_fmap] in Hnd |- *. fold (mr_name <$> ms) in Hnd. cbn [res_foldl].
  assert (Hfresh : mr_name m ∉ (tm_name <$> lt_modules t)).
  { intros Hin. apply NoDup_app in Hnd as (_ & Hdis & _). apply (Hdis _ Hin). left. }
  rewrite before_event by done. cbn [res_bind].
  rewrite IH; [|done|].
  - cbn [lt_modules set_lt_modules]. rewrite <- app_assoc. done.
  - cbn [lt_modules set_lt_modules]. rewrite fmap_app, <- app_assoc. exact Hnd.
Qed.

Lemma after_events excl s l t ms D msg cb :
  status_exited s = false → status_reset s = false → forallb (module_run_ok excl) ms = true →
  lt_modules t = (module_run_image <$> D) ++ (before_image <$> ms) → NoDup (mr_name <$> (D ++ ms)) →
  namecmp_startswith msg "test-start-" = false → namecmp_startswith msg "test-done-" = true →
  res_foldl (deliver excl) (in_test s l t mtls_test_done_stats)
    ((λ m, OCall cb (edfi_dump_stats_module (mr_name m) (Some msg) (Some (mr_after m)))) <$> ms) =
  Ret (in_test s l (set_lt_modules t (module_run_image <$> (D ++ ms))) mtls_test_done_stats).
Proof.
  intros Hex Hre Hok Hmods Hnd Hmsg1 Hmsg2. revert t D Hok Hmods Hnd. induction ms as [|m ms IH]; intros t D Hok Hmods Hnd.
  { cbn [res_foldl]. change (before_image <$> []) with (@nil test_module) in Hmods. rewrite app_nil_r in Hmods |- *.
    change ((λ m, _) <$> []) with (@nil output). rewrite <- Hmods. by destruct t. }
  cbn [forallb] in Hok. apply andb_true_iff in Hok as [Hm Hok]. change (before_image <$> m :: ms) with (before_image m :: (before_image <$> ms)) in Hmods. cbn [fmap list_fmap res_foldl].
  rewrite (after_event excl s l t _ m msg cb (module_run_image <$> D) (before_image <$> ms));
    [|done|done|done|done| |done|done|done].
  - cbn [res_bind]. rewrite (IH _ (D ++ [m])); [|done| |].
    + rewrite <- app_assoc. done.
    + cbn [lt_modules set_lt_modules]. rewrite fmap_app, <- app_assoc. done.
    + by rewrite <- app_assoc.
  - rewrite fmap_app, fmap_cons in Hnd. apply NoDup_app in Hnd as (_ & Hdis & _). intros Hin.
    apply (Hdis (mr_name m)); [|left]. apply list_elem_of_fmap in Hin as (x & Hx & Hin). apply list_elem_of_fmap in Hin as (y & -> & Hy).
    rewrite Hx. by apply (list_elem_of_fmap_2 mr_name).
Qed.

Lemma prefix_start name : namecmp_startswith ("test-start-" +:+ name) "test-start-" = true.
Proof. unfold namecmp_startswith. simpl. by destruct name. Qed.
Lemma prefix_done name :
  namecmp_startswith ("test-done-" +:+ name) "test-start-" = false ∧ namecmp_startswith ("test-done-" +:+ name) "test-done-" = true.
Proof. unfold namecmp_startswith. simpl. by destruct name. Qed.

(** One test. *)
Lemma test_events_run excl s l cur st t :
  status_exited s = false → status_reset s = false → st = mtls_tests_starting ∨ st = mtls_test_done → test_run_ok excl t = true →
  deliver_all excl (test_events t) (between s l cur st) = Ret (between s (l ++ [test_image t]) (Some (length l)) mtls_test_done).
Proof.
  intros Hex Hre Hst Hok. unfold test_run_ok in Hok. rewrite !andb_true_iff, negb_true_iff, bool_decide_eq_true, bool_decide_eq_false in Hok.
  destruct Hok as [[Hstat Hmods] Hnd]. unfold deliver_all, test_events. rewrite res_foldl_app.
  set (t0 := {| lt_name := tr_name t; lt_status := mts_running; timestamp_start := timestamp (tr_start t); timestamp_end := no_time;
    reported_count := S754_nan; reported_rate := S754_nan; reported_time := S754_nan; lt_modules := [] |}).
  assert (H1 : res_foldl (deliver excl) (between s l cur st)
      [OCall (tr_start t) (print_test (tr_name t) mts_running); OCall (tr_start t) (edfi_dump_stats (before_msg t))] =
    Ret (in_test s l t0 mtls_test_running_stats)).
  { cbn [res_foldl deliver handle]. unfold callback_print_test. rewrite bool_decide_true by done.
    assert (Hc : checkstatus2 (between s l cur st) mtls_tests_starting mtls_test_done = true).
    { unfold checkstatus2. change (status_exited (between s l cur st)) with (status_exited s). rewrite Hex.
      change (s_status (between s l cur st)) with st. by destruct Hst as [->| ->]. }
    rewrite Hc. cbn [negb]. unfold add_test_before. cbn [s_tests test_last_p between set_s_status set_test_last_p set_test_current set_s_tests].
    rewrite Nat.leb_refl. cbn [res_bind]. unfold callback_edfi_dump_stats, before_msg. change (default "" (Some ?x)) with x.
    rewrite prefix_start. unfold checkstatus. cbn. by rewrite Hex, Hre. }
  rewrite H1. cbn [res_bind]. unfold before_msg, after_msg. destruct (prefix_done (tr_name t)) as [Hp1 Hp2].
  rewrite res_foldl_app, before_events by (done || apply prefix_start). cbn [res_bind]. change (lt_modules t0 ++ ?x) with x.
  set (t1 := set_lt_modules t0 (before_image <$> tr_modules t)).
  assert (H2 : res_foldl (deliver excl) (in_test s l t1 mtls_test_running_stats) [OCall (tr_end t) (edfi_dump_stats (Some ("test-done-" +:+ tr_name t)))] =
    Ret (in_test s l t1 mtls_test_done_stats)).
  { cbn [res_foldl deliver handle]. unfold callback_edfi_dump_stats. change (default "" (Some ?x)) with x. rewrite Hp1, Hp2. unfold checkstatus. cbn. by rewrite Hex, Hre. }
  rewrite res_foldl_app, H2. cbn [res_bind]. rewrite res_foldl_app, (after_events excl s l t1 (tr_modules t) []) by done. cbn [res_bind app].
  cbn [res_foldl deliver handle]. unfold callback_print_test. rewrite bool_decide_false by done. unfold checkstatus2.
  cbn [status_exited in_test set_test_last_p set_test_current set_s_tests set_s_status s_status]. rewrite Hex. cbn [negb andb].
  change (bool_decide (mtls_test_done_stats = mtls_test_running) || bool_decide (mtls_test_done_stats = mtls_test_done_stats)) with true.
  cbn [negb]. unfold add_test_after, on_test, update_at. cbn [in_test test_current s_tests test_last_p set_test_last_p set_test_current set_s_tests set_s_status].
  rewrite length_app, Nat.eqb_refl. cbn [length]. destruct (Nat.ltb_spec (length l) (length l + 1)); [|lia]. cbn [andb].
  rewrite list_lookup_middle by done. cbn [lt_status set_lt_modules t0 t1]. rewrite bool_decide_true by done. cbn [res_bind].
  rewrite insert_app_r_alt, Nat.sub_diag by lia. cbn [list_insert insert]. unfold between, test_image. rewrite length_app, Nat.add_1_r. done.
Qed.

Lemma tests_events_run excl s ts l cur st :
  status_exited s = false → status_reset s = false → st = mtls_tests_starting ∨ st = mtls_test_done → ts ≠ [] →
  forallb (test_run_ok excl) ts = true →
  deliver_all excl (concat (test_events <$> ts)) (between s l cur st) =
    Ret (between s (l ++ (test_image <$> ts)) (Some (pred (length (l ++ (test_image <$> ts))))) mtls_test_done).
Proof.
  intros Hex Hre. revert l cur st. induction ts as [|t ts IH]; intros l cur st Hst Hne Hok; [done|].
  cbn [forallb] in Hok. apply andb_true_iff in Hok as [Ht Hok]. rewrite !fmap_cons. cbn [concat].
  unfold deliver_all in *. rewrite res_foldl_app.
  pose proof (test_events_run excl s l cur st t Hex Hre Hst Ht) as H1. unfold deliver_all in H1. rewrite H1. cbn [res_bind].
  destruct ts as [|u ts].
  - cbn [fmap list_fmap concat res_foldl]. rewrite length_app. cbn [length]. by rewrite Nat.add_1_r.
  - rewrite IH; [|by right|done|done]. rewrite <- app_assoc. done.
Qed.

Lemma close_finished complete ts :
  Forall (λ t, tr_status t ≠ mts_running) ts → close_tests complete (test_image <$> ts) = test_image <$> ts.
Proof.
  induction 1 as [|t ts Ht _ IH]; [done|]. rewrite fmap_cons. cbn [close_tests]. rewrite IH. f_equal.
  cbn [lt_status test_image]. by rewrite bool_decide_false.
Qed.

(** C22: the summary of a complete run.  From the messages of a run, from its start
    over all tests to the exit, the summary holds exactly its tests in order, with
    names, results and times, and for every module the counts before and after
    each test and the executions during it, the difference modulo 2^64. *)
Theorem run_summarised excl r last :
  run_ok excl r = true →
  (let! s := deliver_all excl (run_events r) new_summary in Ret (finish last s)) = Ret (run_image r).
Proof.
  intros Hok. unfold run_ok in Hok. rewrite andb_true_iff, negb_true_iff in Hok. destruct Hok as [Hne Hok].
  apply Nat.eqb_neq in Hne. assert (Hts : wr_tests r ≠ []) by (by intros H; rewrite H in Hne).
  unfold run_events, deliver_all. rewrite res_foldl_app.
  set (s0 := set_testsplanned (set_timestamp_tests_starting (set_timestamp_boot (set_s_timestamp_start new_summary (timestamp (wr_start r)))
    (timestamp (wr_boot r))) (timestamp (wr_starting r))) (Some (wr_planned r))).
  assert (H1 : res_foldl (deliver excl) new_summary
      [OCall (wr_start r) (hypermem_logpath (wr_path r)); OCall (wr_boot r) (print_startup "init");
       OCall (wr_starting r) (print_tests_starting (wr_planned r))] = Ret (between s0 [] None mtls_tests_starting)) by reflexivity.
  rewrite H1. cbn [res_bind]. rewrite res_foldl_app.
  pose proof (tests_events_run excl s0 (wr_tests r) [] None mtls_tests_starting eq_refl eq_refl (or_introl eq_refl) Hts Hok) as H2.
  unfold deliver_all in H2. rewrite H2. cbn [res_bind app].
  assert (Hdone : Forall (λ t, tr_status t ≠ mts_running) (wr_tests r)).
  { apply Forall_forall. intros t Ht%list_elem_of_In. rewrite forallb_forall in Hok. apply Hok in Ht. unfold test_run_ok in Ht.
    rewrite !andb_true_iff, negb_true_iff, bool_decide_eq_false in Ht. tauto. }
  assert (H3 : (let! s := res_foldl (deliver excl) (between s0 (test_image <$> wr_tests r) (Some (pred (length (test_image <$> wr_tests r)))) mtls_test_done)
      [OCall (wr_complete r) (print_tests_completed None); OCall (wr_exit r) qemu_exit] in Ret (finish last s)) =
    Ret (set_s_tests (run_image r) (close_tests (timestamp (wr_complete r)) (test_image <$> wr_tests r)))).
  { unfold run_image, between. rewrite length_fmap. reflexivity. }
  rewrite H3, close_finished by done. reflexivity.
Qed.

Definition at_time (n : Z) : logparse_callback_state := {| timestamp := {| tv_sec := n; tv_usec := 0 |}; cb_lineno := n |}.
Definition demo_run : whole_run :=
  {| wr_path := "log"; wr_start := at_time 1; wr_boot := at_time 2; wr_planned := "test1 test2"; wr_starting := at_time 3;
     wr_tests :=
       [{| tr_name := "test1"; tr_status := mts_passed; tr_start := at_time 4; tr_end := at_time 5;
           tr_modules := [{| mr_name := "pm"; mr_before := [10; 0]; mr_after := [12; 7] |}] |};
        {| tr_name := "test2"; tr_status := mts_failed; tr_start := at_time 6; tr_end := at_time 7; tr_modules := [] |}];
     wr_complete := at_time 8; wr_exit := at_time 9 |}.

Lemma run_summarised_witness :
  (let! s := deliver_all ["ds"] (run_events demo_run) new_summary in Ret (finish no_time s)) = Ret (run_image demo_run) ∧
  counts_during {| mr_name := "pm"; mr_before := [10; 0]; mr_after := [12; 7] |} = [2; 7].
Proof. split; [apply run_summarised; vm_compute; reflexivity|vm_compute; reflexivity]. Defined.

(** The output of a test: a rate of 1.5, a time of 2. *)
Example outputs :
  (let! t := parse_output "COUNT|1.5|1|lps" (test_image (nth 1 (wr_tests demo_run) {| tr_name := ""; tr_status := mts_failed; tr_start := at_time 0; tr_end := at_time 0; tr_modules := [] |})) in
   let! t := parse_output "TIME|2" t in Ret (reported_count t, reported_rate t, reported_time t)) =
  Ret (S754_nan, S754_finite false 6755399441055744 (-52), S754_finite false 4503599627370496 (-51)).
Proof. vm_compute. reflexivity. Qed.

Definition demo_log : string := file_string demo_lines.

Definition demo_read : logfilestate * list output :=
  ret_or (mk "" 0 0 None, []) (logparse_from_path demo_mktime summary_callbacks (Some demo_log) (Some no_time)).

Lemma summary_well_formed_witness :
  ∃ s, minixtest_log_summarize demo_mktime [] (Some demo_log) = Ret s ∧ summary_ok (weight_of demo_read.2) (weight_of demo_read.2) s.
Proof. apply summary_well_formed; vm_compute; reflexivity. Defined.
