(* ===== verification/TestStats.v ===== *)
(** * Statistics over test runs: [hypermemloganalyze/common/minixteststats.c]

    The summaries of test runs ([TestLog]) are added up: per test, and for the
    four phases boot, between tests, all tests and total.  For every phase there
    are durations, execution counts per module and block, and faults and
    recoveries; every run is classified by its outcome.

    The four phase structures are one field indexed by [phase], the nineteen
    counters and percentages of tests one field indexed by [measure].  Pointers to
    a test are its position in the list; a pointer into the string of planned
    tests is the rest of the string.  Warnings are not modelled. *)

From Stdlib Require Import ZArith Lia Ascii String Floats.SpecFloat.
From stdpp Require Import base list numbers strings.
From S2P Require Import Prelude Decimal Double Helper Module Function Coverage LogParse LogReader TestLog Stats.

(** ** Data *)

Inductive run_outcome := ro_success | ro_failed | ro_shutdown | ro_crash | ro_timeout.
#[global] Instance run_outcome_eq_dec : EqDecision run_outcome.
Proof. solve_decision. Defined.

Record run_classification := { outcome : run_outcome; pretest : bool; recovery : bool }.
#[global] Instance run_classification_eq_dec : EqDecision run_classification.
Proof. solve_decision. Defined.

Record faultstats := {
  fs_faultact : stats;
  fs_faultactany : stats;
  fs_faultinj : stats;
  fs_recoveries : ltckpt_status → ltckpt_method → stats;
  fs_recoveryany : ltckpt_status → ltckpt_method → stats;
}.

Record stats_module := {
  sm_name : string;
  sm_count : Z;
  sm_bb_count : Z;
  sm_bbs : option (list Z);
  sm_callsites_closed : option (Z → Z);
}.

Record stats_test := {
  st_name : option string;
  count_pass : Z;
  count_fail : Z;
  count_crash : Z;
  count_notreached : Z;
  st_duration : stats;
  st_reported_count : stats;
  st_reported_rate : stats;
  st_reported_time : stats;
  st_modules : list stats_module;
  st_coverage : option coverage_per_bb;
  st_faultstats : faultstats;
}.

Inductive phase := boot | between | alltests | total.
#[global] Instance phase_eq_dec : EqDecision phase.
Proof. solve_decision. Defined.

Inductive measure :=
| test_cnt_planned | test_cnt_started | test_cnt_completed | test_cnt_passed | test_cnt_failed | test_cnt_crashed
| test_cnt_unreached
| test_pct_pl_started | test_pct_pl_completed | test_pct_pl_passed | test_pct_pl_failed | test_pct_pl_crashed
| test_pct_pl_unreached
| test_pct_st_completed | test_pct_st_passed | test_pct_st_failed | test_pct_st_crashed
| test_pct_cp_passed | test_pct_cp_failed.
#[global] Instance measure_eq_dec : EqDecision measure.
Proof. solve_decision. Defined.

Record minixtest_stats := {
  tests : list stats_test;
  phases : phase → stats_test;
  classification : run_classification → Z;
  measured : measure → stats;
}.

(** What is known about faults in one test, one phase or one run. *)
Record faultstats_one := { fo_faultact : Z; fo_faultinj : Z; fo_recoveries : recoveries }.

(** Zeroed structures. *)
Definition faultstats_zero : faultstats :=
  {| fs_faultact := stats_zero; fs_faultactany := stats_zero; fs_faultinj := stats_zero;
     fs_recoveries := λ _ _, stats_zero; fs_recoveryany := λ _ _, stats_zero |}.
Definition new_stats_module (name : string) : stats_module :=
  {| sm_name := name; sm_count := 0; sm_bb_count := 0; sm_bbs := None; sm_callsites_closed := None |}.
Definition new_stats_test (name : option string) : stats_test :=
  {| st_name := name; count_pass := 0; count_fail := 0; count_crash := 0; count_notreached := 0;
     st_duration := stats_zero; st_reported_count := stats_zero; st_reported_rate := stats_zero;
     st_reported_time := stats_zero; st_modules := []; st_coverage := None; st_faultstats := faultstats_zero |}.
Definition minixtest_stats_zero : minixtest_stats :=
  {| tests := []; phases := λ _, new_stats_test None; classification := λ _, 0; measured := λ _, stats_zero |}.
Definition faultstats_one_zero : faultstats_one :=
  {| fo_faultact := 0; fo_faultinj := 0; fo_recoveries := no_recoveries |}.

(** Assignments. *)
Definition set_tests (st : minixtest_stats) (l : list stats_test) : minixtest_stats :=
  {| tests := l; phases := phases st; classification := classification st; measured := measured st |}.
Definition set_phase (st : minixtest_stats) (ph : phase) (t : stats_test) : minixtest_stats :=
  {| tests := tests st; phases := λ q, if decide (q = ph) then t else phases st q;
     classification := classification st; measured := measured st |}.
Definition set_classification (st : minixtest_stats) (c : run_classification → Z) : minixtest_stats :=
  {| tests := tests st; phases := phases st; classification := c; measured := measured st |}.
Definition set_measured (st : minixtest_stats) (m : measure → stats) : minixtest_stats :=
  {| tests := tests st; phases := phases st; classification := classification st; measured := m |}.

Definition set_st_name (t : stats_test) (v : option string) : stats_test :=
  {| st_name := v; count_pass := count_pass t; count_fail := count_fail t; count_crash := count_crash t;
     count_notreached := count_notreached t; st_duration := st_duration t; st_reported_count := st_reported_count t;
     st_reported_rate := st_reported_rate t; st_reported_time := st_reported_time t; st_modules := st_modules t;
     st_coverage := st_coverage t; st_faultstats := st_faultstats t |}.
Definition set_counts (t : stats_test) (p f c r : Z) : stats_test :=
  {| st_name := st_name t; count_pass := p; count_fail := f; count_crash := c; count_notreached := r;
     st_duration := st_duration t; st_reported_count := st_reported_count t; st_reported_rate := st_reported_rate t;
     st_reported_time := st_reported_time t; st_modules := st_modules t; st_coverage := st_coverage t;
     st_faultstats := st_faultstats t |}.
Definition set_samples (t : stats_test) (d c r s : stats) : stats_test :=
  {| st_name := st_name t; count_pass := count_pass t; count_fail := count_fail t; count_crash := count_crash t;
     count_notreached := count_notreached t; st_duration := d; st_reported_count := c; st_reported_rate := r;
     st_reported_time := s; st_modules := st_modules t; st_coverage := st_coverage t; st_faultstats := st_faultstats t |}.
Definition set_duration (t : stats_test) (d : stats) : stats_test :=
  set_samples t d (st_reported_count t) (st_reported_rate t) (st_reported_time t).
Definition set_st_modules (t : stats_test) (l : list stats_module) : stats_test :=
  {| st_name := st_name t; count_pass := count_pass t; count_fail := count_fail t; count_crash := count_crash t;
     count_notreached := count_notreached t; st_duration := st_duration t; st_reported_count := st_reported_count t;
     st_reported_rate := st_reported_rate t; st_reported_time := st_reported_time t; st_modules := l;
     st_coverage := st_coverage t; st_faultstats := st_faultstats t |}.
Definition set_st_coverage (t : stats_test) (c : coverage_per_bb) : stats_test :=
  {| st_name := st_name t; count_pass := count_pass t; count_fail := count_fail t; count_crash := count_crash t;
     count_notreached := count_notreached t; st_duration := st_duration t; st_reported_count := st_reported_count t;
     st_reported_rate := st_reported_rate t; st_reported_time := st_reported_time t; st_modules := st_modules t;
     st_coverage := Some c; st_faultstats := st_faultstats t |}.
Definition set_st_faultstats (t : stats_test) (f : faultstats) : stats_test :=
  {| st_name := st_name t; count_pass := count_pass t; count_fail := count_fail t; count_crash := count_crash t;
     count_notreached := count_notreached t; st_duration := st_duration t; st_reported_count := st_reported_count t;
     st_reported_rate := st_reported_rate t; st_reported_time := st_reported_time t; st_modules := st_modules t;
     st_coverage := st_coverage t; st_faultstats := f |}.

(** A change of one phase. *)
Definition on_phase (ph : phase) (k : stats_test → res stats_test) (st : minixtest_stats) : res minixtest_stats :=
  let! t := k (phases st ph) in Ret (set_phase st ph t).
(** A change of one test. *)
Definition on_stats_test (i : nat) (k : stats_test → res stats_test) (st : minixtest_stats) : res minixtest_stats :=
  let! l := update_at i k (tests st) in Ret (set_tests st l).

(** ** Durations *)

(** [timeval_seconds] of [helper.c]. *)
Definition timeval_seconds (t : timeval) : double :=
  dadd (double_of_int (tv_sec t)) (ddiv (double_of_int (tv_usec t)) (double_of_int 1000000)).

(** Whether there is a duration, and the duration. *)
Definition stats_compute_duration (timestamp_start timestamp_end : timeval) : res (bool * timeval) :=
  if timeval_is_zero timestamp_start then Ret (false, no_time)
  else if timeval_is_zero timestamp_end then Ret (false, no_time)
  else
    let! c := timeval_compare timestamp_start timestamp_end in
    if 0 <? c then Ret (false, no_time) else Ret (true, timeval_subtract timestamp_end timestamp_start).

Definition stats_add_duration (duration : stats) (timestamp_start timestamp_end : timeval) : res stats :=
  let! d := stats_compute_duration timestamp_start timestamp_end in
  if d.1 then stats_add duration (timeval_seconds d.2) else Ret duration.

(** ** Modules *)

(** The part of a name before its first [@]. *)
Fixpoint upto_at (name : string) : string :=
  match name with
  | EmptyString => ""
  | String a name' => if Ascii.eqb a "@" then "" else String a (upto_at name')
  end.

Definition minixtest_stats_get_module (modules : list stats_module) (name : string) : nat * list stats_module :=
  find_or_add sm_name new_stats_module (upto_at name) modules.

(** [for (i = 0; i < bb_count; i++) module->bbs[i] += bbs[i]]. *)
Fixpoint add_counts (bb_count : nat) (dst src : list Z) : res (list Z) :=
  match bb_count with
  | O => Ret dst
  | S k =>
      match dst, src with
      | d :: dst', s :: src' => let! r := add_counts k dst' src' in Ret (u64 (d + s) :: r)
      | _, _ => Stop FBounds
      end
  end.

Definition minixtest_stats_add_module (modules : list stats_module) (name : string) (bb_count : Z) (bbs : option (list Z))
    : res (list stats_module) :=
  match bbs with
  | None => Ret modules
  | Some bbs =>
      assert! (0 <? bb_count) in
      let '(i, l) := minixtest_stats_get_module modules name in
      update_at i (λ m,
        if negb (sm_bb_count m =? 0) && negb (sm_bb_count m =? bb_count) then Ret m
        else
          let! count := chk32 (sm_count m + 1) in
          let! sums := add_counts (Z.to_nat bb_count) (default (replicate (Z.to_nat bb_count) 0) (sm_bbs m)) bbs in
          Ret {| sm_name := sm_name m; sm_count := count; sm_bb_count := bb_count; sm_bbs := Some sums;
                 sm_callsites_closed := sm_callsites_closed m |}) l
  end.

(** [bbs1 ? bbs1[i] - (bbs2 ? bbs2[i] : 0) : 0] for every block. *)
Fixpoint sub_counts (bb_count : nat) (bbs1 bbs2 : list Z) : res (list Z) :=
  match bb_count with
  | O => Ret []
  | S k =>
      match bbs1, bbs2 with
      | x :: bbs1', y :: bbs2' => let! r := sub_counts k bbs1' bbs2' in Ret (u64 (x - y) :: r)
      | _, _ => Stop FBounds
      end
  end.
Definition bbs_sub (bbs1 bbs2 : option (list Z)) (bb_count : Z) : res (option (list Z)) :=
  let k := Z.to_nat bb_count in
  let! l := match bbs1 with
            | None => Ret (replicate k 0)
            | Some b1 => sub_counts k b1 (default (replicate k 0) bbs2)
            end in
  Ret (alloc l).

Definition find_module (sumtest : log_test) (name : string) : option test_module :=
  find (λ m, String.eqb name (tm_name m)) (lt_modules sumtest).

(** ** Faults and recoveries *)

Definition statuses : list ltckpt_status := [ls_start; ls_failure; ls_shutdown; ls_success].
Definition methods : list ltckpt_method :=
  [lm_generic; lm_deadlock; lm_failstop; lm_idempotent; lm_process_specific; lm_service_fi; lm_writelog].
(** The order of the two nested loops. *)
Definition status_methods : list (ltckpt_status * ltckpt_method) := s ← statuses; m ← methods; [(s, m)].

Definition set_at {A} (f : ltckpt_status → ltckpt_method → A) (k : ltckpt_status * ltckpt_method) (v : A)
    : ltckpt_status → ltckpt_method → A :=
  λ s m, if decide ((s, m) = k) then v else f s m.

Definition recoveries_add (dst src : recoveries) (factor : Z) : res recoveries :=
  res_foldl (λ d k,
    let! p := chk32 (src k.1 k.2 * factor) in
    let! v := chk32 (d k.1 k.2 + p) in Ret (set_at d k v)) dst status_methods.

(** A comparison as a number. *)
Definition flag (b : bool) : double := double_of_int (if b then 1 else 0).

Definition faultstats_add (dst : faultstats) (src : faultstats_one) : res faultstats :=
  let! a := stats_add (fs_faultact dst) (double_of_int (fo_faultact src)) in
  let! b := stats_add (fs_faultactany dst) (flag (0 <? fo_faultact src)) in
  let! c := stats_add (fs_faultinj dst) (flag (0 <? fo_faultinj src)) in
  let! r := res_foldl (λ r k,
      let! x := stats_add (r.1 k.1 k.2) (double_of_int (fo_recoveries src k.1 k.2)) in
      let! y := stats_add (r.2 k.1 k.2) (flag (0 <? fo_recoveries src k.1 k.2)) in
      Ret (set_at r.1 k x, set_at r.2 k y)) (fs_recoveries dst, fs_recoveryany dst) status_methods in
  Ret {| fs_faultact := a; fs_faultactany := b; fs_faultinj := c; fs_recoveries := r.1; fs_recoveryany := r.2 |}.

Definition faultstats_sum_step (fo : faultstats_one) (m : log_module) : res faultstats_one :=
  let! inj := if (0 <? faultindexretrieved m) && (0 <=? faultindex m) then chk32 (fo_faultinj fo + 1) else Ret (fo_faultinj fo) in
  let! r := recoveries_add (fo_recoveries fo) (lm_recoveries m) 1 in
  Ret {| fo_faultact := u64 (fo_faultact fo + lm_faultact m); fo_faultinj := inj; fo_recoveries := r |}.
Definition faultstats_sum (fo : faultstats_one) (s : summary) : res faultstats_one :=
  res_foldl faultstats_sum_step fo (s_modules s).

(** ** Tests *)

(** A change of the modules of a test. *)
Definition add_to (name : string) (bb_count : Z) (bbs : option (list Z)) (t : stats_test) : res stats_test :=
  let! l := minixtest_stats_add_module (st_modules t) name bb_count bbs in Ret (set_st_modules t l).

Definition minixtest_stats_add_test_module_diff (st : minixtest_stats) (summod : test_module) (sumtest_next : log_test)
    : res minixtest_stats :=
  match find_module sumtest_next (tm_name summod) with
  | None => Ret st
  | Some summod_next =>
      if negb (tm_bb_count summod_next =? tm_bb_count summod) then Ret st
      else
        let! bbs_diff := bbs_sub (bbs_before summod_next) (bbs_after summod) (tm_bb_count summod) in
        let! st := on_phase between (add_to (tm_name summod) (tm_bb_count summod) bbs_diff) st in
        on_phase total (add_to (tm_name summod) (tm_bb_count summod) bbs_diff) st
  end.

(** [statest] is the position of the test in the list. *)
Definition minixtest_stats_add_test_module (st : minixtest_stats) (statest : nat) (fo : faultstats_one)
    (next : option log_test) (summod : test_module) (is_first : bool) : res (minixtest_stats * faultstats_one) :=
  let during := add_to (tm_name summod) (tm_bb_count summod) (bbs_during summod) in
  let! st := on_stats_test statest during st in
  let! st := on_phase alltests during st in
  let! st := on_phase total during st in
  let! st := match next with Some t => minixtest_stats_add_test_module_diff st summod t | None => Ret st end in
  let! st := if is_first then
               let before := add_to (tm_name summod) (tm_bb_count summod) (bbs_before summod) in
               let! st := on_phase boot before st in on_phase total before st
             else Ret st in
  let! r := recoveries_add (fo_recoveries fo) (tm_recoveries summod) 1 in
  Ret (st, {| fo_faultact := u64 (fo_faultact fo + tm_faultact summod); fo_faultinj := fo_faultinj fo; fo_recoveries := r |}).

(** The name of a test in the list; the phases are not in the list. *)
Definition test_key (t : stats_test) : string := default "" (st_name t).
Definition minixtest_stats_get_test (st : minixtest_stats) (name : string) : nat * minixtest_stats :=
  let '(i, l) := find_or_add test_key (λ nm, new_stats_test (Some nm)) name (tests st) in (i, set_tests st l).

Definition count_status (s : minix_test_status) (t : stats_test) : res stats_test :=
  match s with
  | mts_passed => let! c := chk32 (count_pass t + 1) in Ret (set_counts t c (count_fail t) (count_crash t) (count_notreached t))
  | mts_failed => let! c := chk32 (count_fail t + 1) in Ret (set_counts t (count_pass t) c (count_crash t) (count_notreached t))
  | mts_running => let! c := chk32 (count_crash t + 1) in Ret (set_counts t (count_pass t) (count_fail t) c (count_notreached t))
  end.

Definition add_reports (sumtest : log_test) (t : stats_test) : res stats_test :=
  let! d := stats_add_duration (st_duration t) (timestamp_start sumtest) (timestamp_end sumtest) in
  let! c := stats_add (st_reported_count t) (reported_count sumtest) in
  let! r := stats_add (st_reported_rate t) (reported_rate sumtest) in
  let! s := stats_add (st_reported_time t) (reported_time sumtest) in
  Ret (set_samples t d c r s).

Definition add_faultstats (fo : faultstats_one) (t : stats_test) : res stats_test :=
  let! f := faultstats_add (st_faultstats t) fo in Ret (set_st_faultstats t f).

Definition minixtest_stats_add_test (st : minixtest_stats) (foall : faultstats_one) (sumtest : log_test)
    (next : option log_test) (is_first : bool) : res (minixtest_stats * faultstats_one) :=
  let '(i, st) := minixtest_stats_get_test st (lt_name sumtest) in
  let! st := on_stats_test i (count_status (lt_status sumtest)) st in
  let! st := on_stats_test i (add_reports sumtest) st in
  let! r := res_foldl (λ p m, minixtest_stats_add_test_module p.1 i p.2 next m is_first) (st, faultstats_one_zero)
              (lt_modules sumtest) in
  let fo := {| fo_faultact := fo_faultact r.2; fo_faultinj := fo_faultinj foall; fo_recoveries := fo_recoveries r.2 |} in
  let! st := on_stats_test i (add_faultstats fo) r.1 in
  let! rec := recoveries_add (fo_recoveries foall) (fo_recoveries fo) 1 in
  Ret (st, {| fo_faultact := u64 (fo_faultact foall + fo_faultact fo); fo_faultinj := fo_faultinj foall; fo_recoveries := rec |}).

(** ** Planned tests *)

Definition iswhitespace (c : ascii) : bool := Ascii.eqb c " " || Ascii.eqb c "009" || Ascii.eqb c "010".

Fixpoint skip_chars (p : ascii → bool) (s : string) : string :=
  match s with String c s' => if p c then skip_chars p s' else s | EmptyString => s end.
(** The characters up to the first one with [p], and the rest. *)
Fixpoint split_word (p : ascii → bool) (s : string) : string * string :=
  match s with
  | EmptyString => ("", "")
  | String c s' => if p c then ("", s) else let '(w, r) := split_word p s' in (String c w, r)
  end.

Definition count_unreached (t : stats_test) : res stats_test :=
  let! c := chk32 (count_notreached t + 1) in Ret (set_counts t (count_pass t) (count_fail t) (count_crash t) c).

Fixpoint unreached_loop (fuel : nat) (st : minixtest_stats) (testsunreached : string) : res minixtest_stats :=
  match fuel with
  | O => Stop FFuel
  | S fuel' =>
      match skip_chars iswhitespace testsunreached with
      | EmptyString => Ret st
      | s =>
          let '(test, rest) := split_word iswhitespace s in
          let '(i, st) := minixtest_stats_get_test st test in
          let! st := on_stats_test i count_unreached st in
          unreached_loop fuel' st rest
      end
  end.
Definition minixtest_stats_add_tests_unreached (st : minixtest_stats) (testsunreached : option string) : res minixtest_stats :=
  match testsunreached with None => Ret st | Some s => unreached_loop (S (String.length s)) st s end.

Definition testsplanned_skip (planned : option string) (test : string) : option string :=
  match planned with
  | None => None
  | Some s =>
      let testplanned := skip_chars iswhitespace s in
      let '(w, rest) := split_word iswhitespace testplanned in
      if String.eqb w test then Some rest else Some testplanned
  end.

Fixpoint wordcount_loop (fuel : nat) (s : string) (count : Z) : res Z :=
  match fuel with
  | O => Stop FFuel
  | S fuel' =>
      match skip_chars (λ c, Ascii.eqb c " ") s with
      | EmptyString => Ret count
      | s => let! count := chk32 (count + 1) in wordcount_loop fuel' (split_word (λ c, Ascii.eqb c " ") s).2 count
      end
  end.
Definition wordcount (s : option string) : res Z :=
  match s with None => Ret 0 | Some s => wordcount_loop (S (String.length s)) s 0 end.

(** ** The outcome of a run *)

Definition shut_down (r : recoveries) : bool := existsb (λ m, 0 <? r ls_shutdown m) methods.

(** Recoveries, shutdowns and deadlocks over the modules of a run. *)
Definition classify_module (naive_mode : bool) (a : Z * bool * bool) (m : log_module) : res (Z * bool * bool) :=
  let '(total_recovery, shutdown, deadlock) := a in
  let! n := chk32 (total_recovery + lm_recoveries m ls_start lm_generic) in
  Ret (n, shutdown || shut_down (lm_recoveries m), deadlock || naive_mode && (0 <? lm_recoveries m ls_shutdown lm_deadlock)).

Record classify_state := { cl_failed : Z; pretest_passed : Z; pretest_recovery : Z; testindex : Z }.

Definition classify_test (pretest_count : Z) (c : classify_state) (t : log_test) : res classify_state :=
  let early := testindex c <? pretest_count in
  let! pf := if decide (lt_status t = mts_passed)
             then let! p := if early then chk32 (pretest_passed c + 1) else Ret (pretest_passed c) in Ret (p, cl_failed c)
             else let! f := chk32 (cl_failed c + 1) in Ret (pretest_passed c, f) in
  let! r := if early
            then res_foldl (λ n m, chk32 (n + tm_recoveries m ls_start lm_generic)) (pretest_recovery c) (lt_modules t)
            else Ret (pretest_recovery c) in
  let! i := chk32 (testindex c + 1) in
  Ret {| cl_failed := pf.2; pretest_passed := pf.1; pretest_recovery := r; testindex := i |}.

Definition run_classify (s : summary) (pretest_count : Z) (naive_mode : bool) : res run_classification :=
  let! a := res_foldl (classify_module naive_mode) (0, false, false) (s_modules s) in
  let '(total_recovery, shutdown, deadlock) := a in
  let! c := res_foldl (classify_test pretest_count) {| cl_failed := 0; pretest_passed := 0; pretest_recovery := 0; testindex := 0 |}
              (s_tests s) in
  Ret {| outcome := if deadlock then ro_timeout
                    else if shutdown then ro_shutdown
                    else if status_reset s then ro_crash
                    else if 0 <? s_signal s then ro_timeout
                    else if stage (s_status s) <? stage mtls_tests_complete then ro_crash
                    else if 0 <? cl_failed c then ro_failed else ro_success;
         pretest := pretest_count <=? pretest_passed c;
         recovery := pretest_recovery c <? total_recovery |}.

(** ** Call sites *)

(** The sums of the [CALLSITE_ID_MAX] entries. *)
Fixpoint add_callsites (fuel : nat) (i : Z) (dst src : Z → Z) : res (Z → Z) :=
  match fuel with
  | O => Ret dst
  | S fuel' =>
      let! v := chk32 (dst i + src i) in
      add_callsites fuel' (i + 1) (λ j, if j =? i then v else dst j) src
  end.

Definition minixtest_stats_add_callsites_module (t : stats_test) (summod : log_module) : res stats_test :=
  let '(i, l) := minixtest_stats_get_module (st_modules t) (lm_name summod) in
  let! l := update_at i (λ m,
      let! c := add_callsites (Z.to_nat CALLSITE_ID_MAX) 0 (default (λ _, 0) (sm_callsites_closed m)) (callsites_closed summod) in
      Ret {| sm_name := sm_name m; sm_count := sm_count m; sm_bb_count := sm_bb_count m; sm_bbs := sm_bbs m;
             sm_callsites_closed := Some c |}) l in
  Ret (set_st_modules t l).
Definition minixtest_stats_add_callsites (t : stats_test) (s : summary) : res stats_test :=
  res_foldl minixtest_stats_add_callsites_module t (s_modules s).

(** ** Adding a run *)

Record add_loop := {
  al_stats : minixtest_stats;
  al_faults : faultstats_one;
  duration_alltests_sum : timeval;
  duration_between_sum : timeval;
  timestamp_prev : timeval;
  al_planned : option string;
  al_started : Z;
  al_passed : Z;
  al_failed : Z;
  al_crashed : Z;
}.

Definition add_loop_step (a : add_loop) (sumtest : log_test) (next : option log_test) (is_first : bool) : res add_loop :=
  let! d := stats_compute_duration (timestamp_start sumtest) (timestamp_end sumtest) in
  let! b := stats_compute_duration (timestamp_prev a) (timestamp_start sumtest) in
  let! r := minixtest_stats_add_test (al_stats a) (al_faults a) sumtest next is_first in
  let! started := chk32 (al_started a + 1) in
  let count s v := if decide (lt_status sumtest = s) then chk32 (v + 1) else Ret v in
  let! passed := count mts_passed (al_passed a) in
  let! failed := count mts_failed (al_failed a) in
  let! crashed := count mts_running (al_crashed a) in
  Ret {| al_stats := r.1; al_faults := r.2; duration_alltests_sum := timeval_add (duration_alltests_sum a) d.2;
         duration_between_sum := timeval_add (duration_between_sum a) b.2; timestamp_prev := timestamp_end sumtest;
         al_planned := testsplanned_skip (al_planned a) (lt_name sumtest);
         al_started := started; al_passed := passed; al_failed := failed; al_crashed := crashed |}.

Fixpoint add_tests_loop (a : add_loop) (sumtests : list log_test) (is_first : bool) : res add_loop :=
  match sumtests with
  | [] => Ret a
  | t :: ts => let! a := add_loop_step a t (hd_error ts) is_first in add_tests_loop a ts false
  end.

Definition set_measure (m : measure → stats) (k : measure) (v : stats) : measure → stats :=
  λ q, if decide (q = k) then v else m q.
Definition measure_count (m : measure → stats) (x : measure * Z) : res (measure → stats) :=
  let! v := stats_add (m x.1) (double_of_int x.2) in Ret (set_measure m x.1 v).
Definition measure_pct (m : measure → stats) (x : measure * Z * Z) : res (measure → stats) :=
  let! v := stats_add_pct (m x.1.1) x.1.2 x.2 in Ret (set_measure m x.1.1 v).

(** The counters and percentages of tests. *)
Definition add_measures (m : measure → stats) (planned started passed failed crashed : Z) : res (measure → stats) :=
  let! completed := chk32 (passed + failed) in
  let! unreached := chk32 (passed + failed) in
  let unreached := if unreached <? 0 then 0 else unreached in
  let! m := res_foldl measure_count m
    [(test_cnt_planned, planned); (test_cnt_started, started); (test_cnt_completed, completed); (test_cnt_passed, passed);
     (test_cnt_failed, failed); (test_cnt_crashed, crashed); (test_cnt_unreached, unreached)] in
  res_foldl measure_pct m
    [(test_pct_pl_started, started, planned); (test_pct_pl_completed, completed, planned); (test_pct_pl_passed, passed, planned);
     (test_pct_pl_failed, failed, planned); (test_pct_pl_crashed, crashed, planned); (test_pct_pl_unreached, unreached, planned);
     (test_pct_st_completed, completed, started); (test_pct_st_passed, passed, started); (test_pct_st_failed, failed, started);
     (test_pct_st_crashed, crashed, started); (test_pct_cp_passed, passed, completed); (test_pct_cp_failed, failed, completed)].

Definition name_phase (name : string) (t : stats_test) : stats_test :=
  match st_name t with None => set_st_name t (Some name) | Some _ => t end.
Definition name_phases (st : minixtest_stats) : minixtest_stats :=
  {| tests := tests st;
     phases := λ ph, name_phase (match ph with boot => "<boot>" | between => "<between>" | alltests => "<all-tests>" | total => "<total>" end)
                       (phases st ph);
     classification := classification st; measured := measured st |}.

Definition add_seconds (d : timeval) (t : stats_test) : res stats_test :=
  let! v := stats_add (st_duration t) (timeval_seconds d) in Ret (set_duration t v).
Definition add_duration (a b : timeval) (t : stats_test) : res stats_test :=
  let! v := stats_add_duration (st_duration t) a b in Ret (set_duration t v).

(** Up to the loop over the tests. *)
Definition start_run (st : minixtest_stats) (s : summary) : res (add_loop * faultstats_one) :=
  let st := name_phases st in
  let! fototal := faultstats_sum faultstats_one_zero s in
  let! st := on_phase total (add_faultstats fototal) st in
  let first := match s_tests s with t :: _ => timestamp_start t | [] => timestamp_exit s end in
  let! st := on_phase boot (add_duration (s_timestamp_start s) first) st in
  Ret ({| al_stats := st;
          al_faults := {| fo_faultact := 0; fo_faultinj := fo_faultinj fototal; fo_recoveries := no_recoveries |};
          duration_alltests_sum := no_time; duration_between_sum := no_time; timestamp_prev := first;
          al_planned := testsplanned s; al_started := 0; al_passed := 0; al_failed := 0; al_crashed := 0 |}, fototal).

Definition minixtest_stats_add (st : minixtest_stats) (s : summary) (pretest_count : Z) (naive_mode : bool)
    : res (minixtest_stats * run_classification) :=
  let! b := start_run st s in
  let '(a, fototal) := b in
  let! a := add_tests_loop a (s_tests s) true in
  let! st := on_phase alltests (add_faultstats (al_faults a)) (al_stats a) in
  let! st := minixtest_stats_add_tests_unreached st (al_planned a) in
  let! st := on_phase between (add_seconds (duration_between_sum a)) st in
  let! st := on_phase total (add_duration (s_timestamp_start s) (timestamp_exit s)) st in
  let! r := recoveries_add (fo_recoveries fototal) (fo_recoveries (al_faults a)) (-1) in
  let foboot := {| fo_faultact := u64 (fo_faultact fototal - fo_faultact (al_faults a)); fo_faultinj := fo_faultinj fototal;
                   fo_recoveries := r |} in
  let! st := on_phase boot (add_faultstats foboot) st in
  let! c := run_classify s pretest_count naive_mode in
  let! count := chk32 (classification st c + 1) in
  let st := set_classification st (λ q, if decide (q = c) then count else classification st q) in
  let! planned := wordcount (testsplanned s) in
  let! m := add_measures (measured st) planned (al_started a) (al_passed a) (al_failed a) (al_crashed a) in
  let st := set_measured st m in
  let! st := on_phase total (λ t, minixtest_stats_add_callsites t s) st in
  Ret (st, c).

(** ** Coverage *)

Definition coverage_add_module (ms : module_ll) (c : coverage_per_bb) (stamod : stats_module) : res coverage_per_bb :=
  let! mapmod := module_find ms (sm_name stamod) in
  match mapmod with
  | None => Ret c
  | Some mapmod =>
      if sm_bb_count stamod <=? 0 then Ret c
      else match sm_bbs stamod with
           | None => Stop FAssert
           | Some bbs => coverage_add_execcount_module c mapmod bbs
           end
  end.
Definition coverage_add_modules (ms : module_ll) (c : coverage_per_bb) (modules : list stats_module) : res coverage_per_bb :=
  res_foldl (coverage_add_module ms) c modules.

Section Coverage.
Variable functions : function_hashtable.
Variable ms : module_ll.   (** [functions->modules] *)

Definition minixtest_stats_init_coverage_test (t : stats_test) : res stats_test :=
  let! c := coverage_add_modules ms (coverage_init functions) (st_modules t) in Ret (set_st_coverage t c).

Fixpoint minixtest_stats_init_coverage_tests (l : list stats_test) : res (list stats_test) :=
  match l with
  | [] => Ret []
  | t :: l' =>
      let! t := minixtest_stats_init_coverage_test t in
      let! r := minixtest_stats_init_coverage_tests l' in Ret (t :: r)
  end.

Definition minixtest_stats_init_coverage (st : minixtest_stats) : res minixtest_stats :=
  let! l := minixtest_stats_init_coverage_tests (tests st) in
  let st := set_tests st l in
  let! st := on_phase boot minixtest_stats_init_coverage_test st in
  let! st := on_phase between minixtest_stats_init_coverage_test st in
  let! st := on_phase alltests minixtest_stats_init_coverage_test st in
  on_phase total minixtest_stats_init_coverage_test st.
End Coverage.

(** ** Looking up *)

Definition minixtest_stats_find_test (st : minixtest_stats) (testname : string) : option stats_test :=
  find (λ t, String.eqb (test_key t) testname) (tests st).
Definition minixtest_stats_find_module (t : stats_test) (name : string) : option stats_module :=
  find (λ m, String.eqb (sm_name m) name) (st_modules t).
Definition minixtest_stats_counttests (l : list stats_test) : Z := Z.of_nat (length l).
