(* ===== verification/TestAccounts.v ===== *)
(** * Execution counts in the statistics of test runs

    The statistics book every reported execution of a block on several accounts:
    the four phases, and the tests.  This file states what each step of
    [minixteststats.c] adds to the accounts, and that the accounts balance. *)

From Stdlib Require Import ZArith Lia Ascii String Floats.SpecFloat.
From stdpp Require Import base list numbers strings.
From S2P Require Import Prelude Decimal Double Helper Module Function Coverage LogParse LogReader TestLog Stats TestStats.

(** ** Execution counts of modules *)

(** The count of block [j] in an array that may be missing. *)
Definition cnt (a : option (list Z)) (j : nat) : Z := default 0 (a ≫= λ l, l !! j).

(** The count of a block of the module called [b]. *)
Definition blocks (l : list stats_module) (b : string) (j : nat) : Z :=
  match l !! find_position sm_name b l with Some m => cnt (sm_bbs m) j | None => 0 end.

Section Sizes.
(** Programs have a fixed number of blocks. *)
Context (size : string → Z) (size_pos : ∀ b, 0 < size b).

Definition mod_ok (m : stats_module) : Prop :=
  match sm_bbs m with
  | None => sm_bb_count m = 0
  | Some l => sm_bb_count m = size (sm_name m) ∧ Z.of_nat (length l) = size (sm_name m)
  end.
Definition mods_ok (l : list stats_module) : Prop := Forall mod_ok l.

Lemma find_position_insert {A} (key : A → string) b l i x y :
  l !! i = Some x → key y = key x → find_position key b (<[i := y]> l) = find_position key b l.
Proof.
  revert i. induction l as [|z l IH]; intros [|i] Hi Hk; try done.
  - injection Hi as ->. change (<[0%nat := y]> (x :: l)) with (y :: l). cbn [find_position]. by rewrite Hk.
  - change (<[S i := y]> (z :: l)) with (z :: <[i := y]> l). cbn [find_position]. by rewrite (IH i).
Qed.

Lemma find_position_app {A} (key : A → string) b l x :
  find_position key b (l ++ [x]) =
  if (find_position key b l <? length l)%nat then find_position key b l
  else if String.eqb b (key x) then length l else S (length l).
Proof.
  induction l as [|z l IH]; cbn [app find_position length]; [by destruct (String.eqb b (key x))|].
  destruct (String.eqb b (key z)); [done|]. rewrite IH. change (S ?a <? S ?c)%nat with (a <? c)%nat.
  by destruct (_ <? _)%nat, (String.eqb b (key x)).
Qed.

Lemma find_position_same {A} (key : A → string) b l x :
  l !! find_position key b l = Some x → String.eqb b (key x) = true.
Proof. intros H. apply find_position_spec in H as <-. apply String.eqb_refl. Qed.

(** A new module has no counts. *)
Lemma blocks_new l name b j : (find_position sm_name name l = length l) →
  blocks (l ++ [new_stats_module name]) b j = blocks l b j.
Proof.
  intros Hn. unfold blocks. rewrite find_position_app. destruct (Nat.ltb_spec (find_position sm_name b l) (length l)) as [Hlt|Hge].
  - by rewrite lookup_app_l.
  - rewrite (lookup_ge_None_2 l (find_position sm_name b l)) by done. cbn [new_stats_module sm_name].
    destruct (String.eqb b name); [by rewrite list_lookup_middle|].
    by rewrite lookup_ge_None_2 by (rewrite length_app; cbn [length]; lia).
Qed.

(** A change of the counts of one module. *)
Lemma blocks_update l i m m' b j : l !! i = Some m → i = find_position sm_name (sm_name m) l → sm_name m' = sm_name m →
  blocks (<[i := m']> l) b j = if String.eqb b (sm_name m) then cnt (sm_bbs m') j else blocks l b j.
Proof.
  intros Hi Hp Hk. unfold blocks. rewrite (find_position_insert sm_name b l i m m') by done.
  destruct (String.eqb_spec b (sm_name m)) as [->|Hne].
  - rewrite <- Hp, list_lookup_insert_eq; [done|by eapply lookup_lt_Some].
  - destruct (decide (find_position sm_name b l = i)) as [E|E]; [|by rewrite list_lookup_insert_ne].
    exfalso. apply Hne. rewrite <- E in Hi. by apply find_position_same, String.eqb_eq in Hi.
Qed.

Lemma add_counts_spec k dst src : length dst = k → length src = k →
  ∃ r, add_counts k dst src = Ret r ∧ length r = k ∧ ∀ j, eq64 (default 0 (r !! j)) (default 0 (dst !! j) + default 0 (src !! j)).
Proof.
  revert dst src. induction k as [|k IH]; intros [|d dst] [|s src]; intros Hd Hs; try done.
  - exists []. split_and!; [done|done|]. intros j. by rewrite !lookup_nil.
  - injection Hd as Hd. injection Hs as Hs. destruct (IH dst src Hd Hs) as (r & Hr & Hl & Hj). cbn [add_counts].
    rewrite Hr. exists (u64 (d + s) :: r). split_and!; [done|cbn; lia|]. intros [|j]; [apply eq64_u64|apply Hj].
Qed.

Lemma default_replicate_0 k j : default 0 (replicate k 0 !! j) = 0.
Proof. destruct (replicate k 0 !! j) eqn:E; [|done]. apply lookup_replicate in E as [-> _]. done. Qed.

(** What a report of a module adds. *)
Definition contrib (name : string) (bbs : option (list Z)) (b : string) (j : nat) : Z :=
  if String.eqb b (upto_at name) then cnt bbs j else 0.

(** Looking a module up, or adding it, changes no counts. *)
Lemma find_or_add_blocks l nm :
  let r := find_or_add sm_name new_stats_module nm l in
  (∀ b j, blocks r.2 b j = blocks l b j) ∧ find_position sm_name nm r.2 = r.1.
Proof.
  unfold find_or_add. cbn [fst snd]. destruct (Nat.leb_spec (length l) (find_position sm_name nm l)) as [Hge|Hlt]; [|done].
  assert (E : find_position sm_name nm l = length l) by (pose proof (find_position_spec sm_name nm l) as [? _]; lia).
  split; [intros b j; by apply blocks_new|]. rewrite find_position_app, E, Nat.ltb_irrefl. cbn [new_stats_module sm_name]. by rewrite String.eqb_refl.
Qed.

(** A report of the right size is added to its module, and to no other; it is
    refused only when the [int] counter of reports overflows. *)
Lemma stats_add_module_spec l name bbs :
  mods_ok l → sized (size (upto_at name)) bbs →
  match minixtest_stats_add_module l name (size (upto_at name)) bbs with
  | Ret l' => mods_ok l' ∧ ∀ b j, eq64 (blocks l' b j) (blocks l b j + contrib name bbs b j)
  | Stop f => f = FOverflow
  end.
Proof.
  intros Hl Hs. unfold minixtest_stats_add_module. destruct bbs as [bbs|].
  2: { split; [done|]. intros b j. unfold contrib, cnt. cbn. destruct (String.eqb b _); by rewrite Z.add_0_r. }
  destruct Hs as [Hlen _]. pose proof (size_pos (upto_at name)) as Hpos. destruct (Z.ltb_spec 0 (size (upto_at name))); [|lia].
  unfold minixtest_stats_get_module. set (nm := upto_at name) in *.
  destruct (find_or_add_spec sm_name new_stats_module nm l mod_ok Hl ltac:(done) ltac:(done)) as (Hi & Hok & _ & Hname).
  destruct (find_or_add_blocks l nm) as [Hb1 Hb2].
  destruct (find_or_add sm_name new_stats_module nm l) as [i l']. cbn [fst snd] in *. unfold update_at.
  destruct (l' !! i) as [m|] eqn:Em; [|apply lookup_ge_None in Em; lia].
  assert (Hm : mod_ok m) by (eapply Forall_lookup_1 in Hok; [exact Hok|exact Em]). specialize (Hname m eq_refl).
  assert (Hc : negb (sm_bb_count m =? 0) && negb (sm_bb_count m =? size nm) = false).
  { unfold mod_ok in Hm. destruct (sm_bbs m); [destruct Hm as [-> _]; by rewrite Hname, Z.eqb_refl, andb_false_r|by rewrite Hm]. }
  rewrite Hc. destruct (chk32 (sm_count m + 1)) as [c|] eqn:E; cbn [res_bind]; [|by eapply chk32_stop].
  assert (Hdst : length (default (replicate (Z.to_nat (size nm)) 0) (sm_bbs m)) = Z.to_nat (size nm)).
  { unfold mod_ok in Hm. destruct (sm_bbs m); cbn [default]; [destruct Hm as [_ Hm]; rewrite Hname in Hm; unfold id; lia|by rewrite length_replicate]. }
  destruct (add_counts_spec (Z.to_nat (size nm)) _ bbs Hdst ltac:(lia)) as (r & -> & Hlr & Hr). cbn [res_bind].
  set (m' := Build_stats_module _ _ _ _ _). split.
  - apply Forall_insert; [done|]. unfold mod_ok. cbn [m' sm_bbs sm_bb_count sm_name]. rewrite Hname. split; [done|lia].
  - intros b j. rewrite <- Hb1.
    rewrite (blocks_update l' i m m') by (rewrite ?Hname; done). unfold contrib. rewrite Hname. fold nm.
    destruct (String.eqb_spec b nm) as [->|]; [|by rewrite Z.add_0_r]. unfold cnt. cbn [m' sm_bbs mbind option_bind].
    rewrite (Hr j). unfold blocks. rewrite Hb2, Em. apply eq64_add; [|done]. unfold cnt.
    destruct (sm_bbs m); cbn; [done|]. by rewrite default_replicate_0.
Qed.
(** *** Accounts *)

(** The four phases, and the tests together. *)
Definition account := option phase.

Definition tests_blocks (l : list stats_test) (b : string) (j : nat) : Z :=
  foldr (λ t z, blocks (st_modules t) b j + z) 0 l.
Definition view (st : minixtest_stats) (a : account) (b : string) (j : nat) : Z :=
  match a with Some ph => blocks (st_modules (phases st ph)) b j | None => tests_blocks (tests st) b j end.

Record counts_ok (st : minixtest_stats) : Prop := {
  co_phases : ∀ ph, mods_ok (st_modules (phases st ph));
  co_tests : Forall (λ t, mods_ok (st_modules t)) (tests st);
}.

(** What a step adds to the accounts. *)
Definition amounts := account → string → nat → Z.
Definition nothing : amounts := λ _ _ _, 0.
Definition plus (d d' : amounts) : amounts := λ a b j, d a b j + d' a b j.
Definition on_account (a : account) (f : string → nat → Z) : amounts := λ a' b j, if decide (a' = a) then f b j else 0.

Record books (st st' : minixtest_stats) (d : amounts) : Prop := {
  bk_ok : counts_ok st';
  bk_view : ∀ a b j, eq64 (view st' a b j) (view st a b j + d a b j);
}.

(** The step ends with these amounts booked, or an [int] overflowed. *)
Definition adds (m : res minixtest_stats) (st : minixtest_stats) (d : amounts) : Prop :=
  ∀ st', m = Ret st' → books st st' d.

Lemma books_refl st : counts_ok st → books st st nothing.
Proof. intros H. split; [done|]. intros a b j. unfold nothing. by rewrite Z.add_0_r. Qed.

Lemma books_trans st1 st2 st3 d d' : books st1 st2 d → books st2 st3 d' → books st1 st3 (plus d d').
Proof.
  intros [_ H1] [H2 H3]. split; [done|]. intros a b j. rewrite H3, H1. unfold plus. by rewrite Z.add_assoc.
Qed.

Lemma books_ext st st' d d' : books st st' d → (∀ a b j, d a b j = d' a b j) → books st st' d'.
Proof. intros [H1 H2] E. split; [done|]. intros a b j. by rewrite <- E. Qed.

Lemma adds_bind m (k : minixtest_stats → res minixtest_stats) st d d' :
  adds m st d → (∀ st', books st st' d → adds (k st') st' d') → adds (let! st' := m in k st') st (plus d d').
Proof.
  intros Hm Hk st' H. apply res_bind_inv in H as (st1 & H1 & H2). eapply books_trans; [by apply Hm|].
  apply (Hk st1); [by apply Hm|done].
Qed.

Lemma adds_ext m st d d' : adds m st d → (∀ a b j, d a b j = d' a b j) → adds m st d'.
Proof. intros H E st' Hst. eapply books_ext; [by apply H|done]. Qed.

Lemma adds_ret st : counts_ok st → adds (Ret st) st nothing.
Proof. intros H st' [= <-]. by apply books_refl. Qed.

(** Steps that leave the modules alone. *)
Definition same_modules (t t' : stats_test) : Prop := st_modules t' = st_modules t.

Lemma books_same st st' : counts_ok st →
  (∀ ph, same_modules (phases st ph) (phases st' ph)) → (∀ b j, tests_blocks (tests st') b j = tests_blocks (tests st) b j) →
  Forall (λ t, mods_ok (st_modules t)) (tests st') → books st st' nothing.
Proof.
  intros [H1 H2] Hp Ht Hok. split; [split; [intros ph; rewrite (Hp ph); apply H1|done]|].
  intros [ph|] b j; cbn [view]; unfold nothing; rewrite Z.add_0_r; [by rewrite (Hp ph)|by rewrite Ht].
Qed.

Lemma on_phase_same st ph k : counts_ok st → (∀ t t', k t = Ret t' → same_modules t t') → adds (on_phase ph k st) st nothing.
Proof.
  intros Hst Hk st' H. unfold on_phase in H. apply res_bind_inv in H as (t & Ht & [= <-]). apply books_same; [done| |done|apply Hst].
  intros q. cbn [set_phase phases]. destruct (decide (q = ph)) as [->|]; [by apply Hk|done].
Qed.

Lemma tests_blocks_insert l i t t' b j : l !! i = Some t →
  tests_blocks (<[i := t']> l) b j = tests_blocks l b j - blocks (st_modules t) b j + blocks (st_modules t') b j.
Proof.
  revert i. induction l as [|x l IH]; intros [|i] Hi; try done.
  - injection Hi as ->. change (<[0%nat := t']> (t :: l)) with (t' :: l). cbn [tests_blocks foldr]. lia.
  - change (<[S i := t']> (x :: l)) with (x :: <[i := t']> l). unfold tests_blocks in *. cbn [foldr]. rewrite (IH i Hi). lia.
Qed.

Lemma on_test_same st i k : counts_ok st → (∀ t t', k t = Ret t' → same_modules t t') → adds (on_stats_test i k st) st nothing.
Proof.
  intros Hst Hk st' H. unfold on_stats_test, update_at in H. apply res_bind_inv in H as (l & Hl & [= <-]).
  destruct (tests st !! i) as [t|] eqn:Et; [|done]. apply res_bind_inv in Hl as (t' & Ht & [= <-]). apply Hk in Ht.
  apply books_same; [done|done| |].
  - intros b j. cbn [set_tests tests]. rewrite (tests_blocks_insert _ _ t) by done. rewrite Ht. lia.
  - cbn [set_tests tests]. apply Forall_insert; [apply Hst|]. rewrite Ht.
    pose proof (co_tests _ Hst) as HF. by eapply Forall_lookup_1 in HF; [|exact Et].
Qed.

Lemma tests_blocks_app l l' b j : tests_blocks (l ++ l') b j = tests_blocks l b j + tests_blocks l' b j.
Proof. unfold tests_blocks. induction l as [|t l IH]; [done|]. cbn [app foldr]. rewrite IH. lia. Qed.

Lemma get_test_books st name : counts_ok st → books st (minixtest_stats_get_test st name).2 nothing.
Proof.
  intros Hst. unfold minixtest_stats_get_test, find_or_add. cbn [snd]. apply books_same; [done|done| |].
  - intros b j. cbn [set_tests tests]. destruct (_ <=? _)%nat; [|done]. rewrite tests_blocks_app. cbn. lia.
  - cbn [set_tests tests]. destruct (_ <=? _)%nat; [|apply Hst]. apply Forall_app. split; [apply Hst|by repeat constructor].
Qed.

(** A report booked on a phase or a test. *)
Section Report.
Context (name : string) (bbs : option (list Z)) (Hsz : sized (size (upto_at name)) bbs).

Lemma add_to_spec t t' : mods_ok (st_modules t) → add_to name (size (upto_at name)) bbs t = Ret t' →
  mods_ok (st_modules t') ∧ ∀ b j, eq64 (blocks (st_modules t') b j) (blocks (st_modules t) b j + contrib name bbs b j).
Proof.
  intros Hok H. unfold add_to in H. apply res_bind_inv in H as (l & Hl & [= <-]). cbn [set_st_modules st_modules].
  pose proof (stats_add_module_spec (st_modules t) name bbs Hok Hsz) as Ha. by rewrite Hl in Ha.
Qed.

Lemma on_phase_report st ph : counts_ok st →
  adds (on_phase ph (add_to name (size (upto_at name)) bbs) st) st (on_account (Some ph) (contrib name bbs)).
Proof.
  intros Hst st' H. unfold on_phase in H. apply res_bind_inv in H as (t & Ht & [= <-]).
  apply add_to_spec in Ht as [H1 H2]; [|apply Hst]. split.
  - split; [|apply Hst]. intros q. cbn [set_phase phases]. destruct (decide (q = ph)); [done|apply Hst].
  - intros [q|] b j; unfold on_account; cbn [view set_phase phases tests]; [|by rewrite decide_False, Z.add_0_r].
    destruct (decide (q = ph)) as [->|Hne]; [by rewrite decide_True|]. rewrite decide_False by congruence. by rewrite Z.add_0_r.
Qed.

Lemma on_test_report st i : counts_ok st →
  adds (on_stats_test i (add_to name (size (upto_at name)) bbs) st) st (on_account None (contrib name bbs)).
Proof.
  intros Hst st' H. unfold on_stats_test, update_at in H. apply res_bind_inv in H as (l & Hl & [= <-]).
  destruct (tests st !! i) as [t|] eqn:Et; [|done]. apply res_bind_inv in Hl as (t' & Ht & [= <-]).
  pose proof (co_tests _ Hst) as HF. apply add_to_spec in Ht as [H1 H2]; [|by eapply Forall_lookup_1 in HF; [|exact Et]]. split.
  - split; [apply Hst|]. cbn [set_tests tests]. by apply Forall_insert.
  - intros [q|] b j; unfold on_account; cbn [view set_tests tests phases]; [by rewrite decide_False, Z.add_0_r|].
    rewrite decide_True by done. rewrite (tests_blocks_insert _ _ t) by done. rewrite (H2 b j).
    replace (tests_blocks (tests st) b j - blocks (st_modules t) b j + (blocks (st_modules t) b j + contrib name bbs b j))
      with (tests_blocks (tests st) b j + contrib name bbs b j) by lia. done.
Qed.
End Report.
(** *** The amounts of a run *)

(** The reports of a module are of the size of its program, or there are none. *)
Definition report_ok (m : test_module) : Prop :=
  tm_bb_count m = size (upto_at (tm_name m)) ∧ sized (tm_bb_count m) (bbs_before m) ∧ sized (tm_bb_count m) (bbs_after m) ∧
    sized (tm_bb_count m) (bbs_during m) ∨
  tm_bb_count m = 0 ∧ bbs_before m = None ∧ bbs_after m = None ∧ bbs_during m = None.

(** Executions between the end of a test and the start of the next one. *)
Definition gap_count (m : test_module) (next : option log_test) (j : nat) : Z :=
  match next ≫= λ t, find_module t (tm_name m) with
  | Some nm =>
      if tm_bb_count nm =? tm_bb_count m then
        match bbs_before nm with Some _ => cnt (bbs_before nm) j - cnt (bbs_after m) j | None => 0 end
      else 0
  | None => 0
  end.
Definition gap (m : test_module) (next : option log_test) (b : string) (j : nat) : Z :=
  if String.eqb b (upto_at (tm_name m)) then gap_count m next j else 0.
Definition before_first (is_first : bool) (m : test_module) (b : string) (j : nat) : Z :=
  if is_first then contrib (tm_name m) (bbs_before m) b j else 0.

Definition module_amounts (next : option log_test) (is_first : bool) (m : test_module) : amounts := λ a b j,
  match a with
  | None | Some alltests => contrib (tm_name m) (bbs_during m) b j
  | Some between => gap m next b j
  | Some boot => before_first is_first m b j
  | Some total => contrib (tm_name m) (bbs_during m) b j + gap m next b j + before_first is_first m b j
  end.

Lemma sub_counts_spec k l1 l2 : length l1 = k → length l2 = k →
  ∃ r, sub_counts k l1 l2 = Ret r ∧ length r = k ∧ ∀ j, eq64 (default 0 (r !! j)) (default 0 (l1 !! j) - default 0 (l2 !! j)).
Proof.
  revert l1 l2. induction k as [|k IH]; intros [|x l1] [|y l2]; intros H1 H2; try done.
  - exists []. split_and!; [done|done|]. intros j. by rewrite !lookup_nil.
  - injection H1 as H1. injection H2 as H2. destruct (IH l1 l2 H1 H2) as (r & Hr & Hl & Hj). cbn [sub_counts].
    rewrite Hr. exists (u64 (x - y) :: r). split_and!; [done|cbn; lia|]. intros [|j]; [apply eq64_u64|apply Hj].
Qed.

Lemma bbs_sub_spec k b1 b2 : 0 < k → sized k b1 → sized k b2 →
  ∃ r, bbs_sub b1 b2 k = Ret r ∧ sized k r ∧
    ∀ j, eq64 (cnt r j) (match b1 with Some _ => cnt b1 j - cnt b2 j | None => 0 end).
Proof.
  intros Hk H1 H2. unfold bbs_sub.
  assert (Halloc : ∀ l, length l = Z.to_nat k → alloc l = Some l) by (intros [|x l] Hl; [cbn in Hl; lia|done]).
  destruct b1 as [l1|].
  - destruct H1 as [H1 _]. assert (H2' : length (default (replicate (Z.to_nat k) 0) b2) = Z.to_nat k).
    { destruct b2; cbn; [destruct H2; unfold id; lia|by rewrite length_replicate]. }
    destruct (sub_counts_spec (Z.to_nat k) l1 _ ltac:(lia) H2') as (r & -> & Hl & Hj). cbn [res_bind]. rewrite Halloc by done.
    exists (Some r). split_and!; [done|split; lia|]. intros j. unfold cnt. cbn [mbind option_bind]. rewrite Hj.
    destruct b2; cbn; [done|]. by rewrite default_replicate_0.
  - cbn [res_bind]. rewrite Halloc by (by rewrite length_replicate). eexists. split; [done|].
    split; [cbn; rewrite length_replicate; lia|]. intros j. unfold cnt. cbn. by rewrite default_replicate_0.
Qed.

Lemma contrib_None name b j : contrib name None b j = 0.
Proof. unfold contrib. by destruct (String.eqb b _). Qed.

(** Without a report nothing is booked. *)
Lemma add_to_None name k t : add_to name k None t = Ret (set_st_modules t (st_modules t)).
Proof. done. Qed.

Lemma report_phase st ph m bbs : counts_ok st → report_ok m → (bbs = bbs_before m ∨ bbs = bbs_after m ∨ bbs = bbs_during m) →
  adds (on_phase ph (add_to (tm_name m) (tm_bb_count m) bbs) st) st (on_account (Some ph) (contrib (tm_name m) bbs)).
Proof.
  intros Hst [(Hs & H1 & H2 & H3)|(Hs & H1 & H2 & H3)] Hb.
  - rewrite Hs in *. apply on_phase_report; [|done]. by destruct Hb as [->|[->| ->]].
  - assert (bbs = None) as -> by (destruct Hb as [->|[->| ->]]; done).
    eapply adds_ext; [apply on_phase_same; [done|]; intros t t' [= <-]; done|]. intros a b j. unfold on_account.
    rewrite contrib_None. by destruct (decide _).
Qed.

Lemma report_test st i m : counts_ok st → report_ok m →
  adds (on_stats_test i (add_to (tm_name m) (tm_bb_count m) (bbs_during m)) st) st (on_account None (contrib (tm_name m) (bbs_during m))).
Proof.
  intros Hst [(Hs & H1 & H2 & H3)|(Hs & H1 & H2 & H3)].
  - rewrite Hs in *. by apply on_test_report.
  - rewrite H3. eapply adds_ext; [apply on_test_same; [done|]; intros t t' [= <-]; done|]. intros a b j. unfold on_account.
    rewrite contrib_None. by destruct (decide _).
Qed.

Lemma find_module_spec t name m : find_module t name = Some m → m ∈ lt_modules t ∧ tm_name m = name.
Proof.
  unfold find_module. induction (lt_modules t) as [|x l IH]; cbn [find]; [done|].
  destruct (String.eqb_spec name (tm_name x)) as [->|].
  - intros [= ->]. split; [by left|done].
  - intros H. destruct (IH H) as [H1 H2]. split; [by right|done].
Qed.

Lemma diff_adds st m t : counts_ok st → report_ok m → Forall report_ok (lt_modules t) →
  adds (minixtest_stats_add_test_module_diff st m t) st
    (plus (on_account (Some between) (gap m (Some t))) (on_account (Some total) (gap m (Some t)))).
Proof.
  intros Hst Hm Ht. unfold minixtest_stats_add_test_module_diff, gap, gap_count. cbn [mbind option_bind].
  assert (Hz : adds (Ret st) st (plus (on_account (Some between) (λ b _, if String.eqb b (upto_at (tm_name m)) then 0 else 0))
                                      (on_account (Some total) (λ b _, if String.eqb b (upto_at (tm_name m)) then 0 else 0)))).
  { eapply adds_ext; [by apply adds_ret|]. intros a b j. unfold plus, on_account, nothing.
    by destruct (String.eqb b _), (decide _), (decide _). }
  destruct (find_module t (tm_name m)) as [nm|] eqn:Ef; [|done]. apply find_module_spec in Ef as [Hin Hname].
  destruct (Z.eqb_spec (tm_bb_count nm) (tm_bb_count m)) as [Hc|]; cbn [negb]; [|done].
  assert (Hnm : report_ok nm) by (rewrite Forall_forall in Ht; by apply Ht).
  destruct Hm as [(Hs & H1 & H2 & H3)|(Hs & H1 & H2 & H3)].
  - assert (Hb : sized (tm_bb_count m) (bbs_before nm)).
    { destruct Hnm as [(_ & ? & _)|(_ & -> & _)]; [by rewrite <- Hc|done]. }
    rewrite Hs in *. destruct (bbs_sub_spec _ _ _ (size_pos _) Hb H2) as (r & -> & Hr & Hj). cbn [res_bind].
    assert (Hcg : ∀ b j, eq64 (contrib (tm_name m) r b j)
              (if String.eqb b (upto_at (tm_name m)) then match bbs_before nm with Some _ => cnt (bbs_before nm) j - cnt (bbs_after m) j | None => 0 end else 0)).
    { intros b j. unfold contrib. destruct (String.eqb b _); [apply Hj|done]. }
    assert (Hph : ∀ st ph, counts_ok st → adds (on_phase ph (add_to (tm_name m) (size (upto_at (tm_name m))) r) st) st
              (on_account (Some ph) (λ b j, if String.eqb b (upto_at (tm_name m)) then
                 match bbs_before nm with Some _ => cnt (bbs_before nm) j - cnt (bbs_after m) j | None => 0 end else 0))).
    { intros st1 ph Hst1 st2 E. destruct (on_phase_report (tm_name m) r Hr st1 ph Hst1 st2 E) as [E1 E2]. split; [done|].
      intros a b j. rewrite E2. unfold on_account. destruct (decide _); [by rewrite Hcg|done]. }
    apply adds_bind; [by apply Hph|]. intros st' [Hst' _]. by apply Hph.
  - destruct Hnm as [(Hs' & _)|(_ & Hn1 & _)]; [pose proof (size_pos (upto_at (tm_name nm))); lia|]. rewrite Hs, Hn1, H2.
    unfold bbs_sub. cbn [res_bind Z.to_nat replicate alloc].
    eapply adds_ext; [apply (adds_bind _ _ _ nothing nothing)|].
    + apply on_phase_same; [done|]. by intros t0 t' [= <-].
    + intros st' [Hst' _]. apply on_phase_same; [done|]. by intros t0 t' [= <-].
    + intros a b j. unfold plus, on_account, nothing. by destruct (String.eqb b _), (decide _), (decide _).
Qed.
Definition next_ok (next : option log_test) : Prop := match next with Some t => Forall report_ok (lt_modules t) | None => True end.

Lemma module_adds st i fo next m is_first p : counts_ok st → report_ok m → next_ok next →
  minixtest_stats_add_test_module st i fo next m is_first = Ret p → books st p.1 (module_amounts next is_first m).
Proof.
  intros Hst Hm Hn H. unfold minixtest_stats_add_test_module in H.
  apply res_bind_inv in H as (s1 & E1 & H). apply res_bind_inv in H as (s2 & E2 & H). apply res_bind_inv in H as (s3 & E3 & H).
  apply res_bind_inv in H as (s4 & E4 & H). apply res_bind_inv in H as (s5 & E5 & H). apply res_bind_inv in H as (r & _ & [= <-]). cbn [fst].
  pose proof (report_test st i m Hst Hm _ E1) as B1. destruct B1 as [K1 V1] eqn:X1. clear X1.
  pose proof (report_phase s1 alltests m (bbs_during m) K1 Hm ltac:(tauto) _ E2) as B2.
  pose proof (report_phase s2 total m (bbs_during m) (bk_ok _ _ _ B2) Hm ltac:(tauto) _ E3) as B3.
  assert (B4 : books s3 s4 (plus (on_account (Some between) (gap m next)) (on_account (Some total) (gap m next)))).
  { destruct next as [t|].
    - apply (diff_adds s3 m t (bk_ok _ _ _ B3) Hm Hn _ E4).
    - injection E4 as <-. eapply books_ext; [apply books_refl, (bk_ok _ _ _ B3)|].
      intros a b j. unfold plus, on_account, gap, gap_count, nothing. cbn. by destruct (String.eqb b _), (decide _), (decide _). }
  assert (B5 : books s4 s5 (plus (on_account (Some boot) (before_first is_first m)) (on_account (Some total) (before_first is_first m)))).
  { unfold before_first. destruct is_first.
    - apply res_bind_inv in E5 as (t & E5 & E6). eapply books_trans.
      + apply (report_phase s4 boot m (bbs_before m) (bk_ok _ _ _ B4) Hm ltac:(tauto) _ E5).
      + pose proof (report_phase s4 boot m (bbs_before m) (bk_ok _ _ _ B4) Hm ltac:(tauto) _ E5) as B.
        apply (report_phase t total m (bbs_before m) (bk_ok _ _ _ B) Hm ltac:(tauto) _ E6).
    - injection E5 as <-. eapply books_ext; [apply books_refl, (bk_ok _ _ _ B4)|].
      intros a b j. unfold plus, on_account, nothing. by destruct (decide _), (decide _). }
  eapply books_ext; [eapply books_trans; [exact (Build_books _ _ _ K1 V1)|eapply books_trans; [exact B2|eapply books_trans; [exact B3|eapply books_trans; [exact B4|exact B5]]]]|].
  intros a b j. unfold plus, on_account, module_amounts. destruct a as [[]|]; repeat case_decide; simplify_eq; lia.
Qed.

(** The sum over the modules of a test. *)
Definition sum_mods (f : test_module → Z) (l : list test_module) : Z := foldr (λ m z, f m + z) 0 l.
Definition test_amounts (next : option log_test) (is_first : bool) (t : log_test) : amounts := λ a b j,
  sum_mods (λ m, module_amounts next is_first m a b j) (lt_modules t).

Lemma modules_adds l st i fo next is_first p : counts_ok st → Forall report_ok l → next_ok next →
  res_foldl (λ p m, minixtest_stats_add_test_module p.1 i p.2 next m is_first) (st, fo) l = Ret p →
  books st p.1 (λ a b j, sum_mods (λ m, module_amounts next is_first m a b j) l).
Proof.
  intros Hst Hl Hn. revert st fo Hst. induction Hl as [|m l Hm _ IH]; intros st fo Hst H.
  - injection H as <-. by apply books_refl.
  - cbn [res_foldl] in H. apply res_bind_inv in H as ([st1 fo1] & E & H). cbn [fst snd] in E.
    pose proof (module_adds _ _ _ _ _ _ _ Hst Hm Hn E) as B. cbn [fst] in B.
    pose proof (IH st1 fo1 (bk_ok _ _ _ B) H) as B'. eapply books_ext; [eapply books_trans; [exact B|exact B']|]. done.
Qed.

(** Durations, reported values, counters and faults leave the modules alone. *)
Lemma count_status_same s t t' : count_status s t = Ret t' → same_modules t t'.
Proof. intros H. unfold count_status in H. destruct s; apply res_bind_inv in H as (c & _ & [= <-]); done. Qed.
Lemma add_reports_same s t t' : add_reports s t = Ret t' → same_modules t t'.
Proof. intros H. unfold add_reports in H. res_inv; done. Qed.
Lemma add_faultstats_same fo t t' : add_faultstats fo t = Ret t' → same_modules t t'.
Proof. intros H. unfold add_faultstats in H. apply res_bind_inv in H as (c & _ & [= <-]). done. Qed.
Lemma count_unreached_same t t' : count_unreached t = Ret t' → same_modules t t'.
Proof. intros H. unfold count_unreached in H. apply res_bind_inv in H as (c & _ & [= <-]). done. Qed.
Lemma add_seconds_same d t t' : add_seconds d t = Ret t' → same_modules t t'.
Proof. intros H. unfold add_seconds in H. apply res_bind_inv in H as (c & _ & [= <-]). done. Qed.
Lemma add_duration_same d e t t' : add_duration d e t = Ret t' → same_modules t t'.
Proof. intros H. unfold add_duration in H. apply res_bind_inv in H as (c & _ & [= <-]). done. Qed.

(** Nothing before or after. *)
Lemma books_nothing_l st1 st2 st3 d : books st1 st2 nothing → books st2 st3 d → books st1 st3 d.
Proof. intros B1 B2. eapply books_ext; [by eapply books_trans|]. done. Qed.
Lemma books_nothing_r st1 st2 st3 d : books st1 st2 d → books st2 st3 nothing → books st1 st3 d.
Proof. intros B1 B2. eapply books_ext; [by eapply books_trans|]. intros a b j. unfold plus, nothing. lia. Qed.

Lemma test_adds st foall t next is_first p : counts_ok st → Forall report_ok (lt_modules t) → next_ok next →
  minixtest_stats_add_test st foall t next is_first = Ret p → books st p.1 (test_amounts next is_first t).
Proof.
  intros Hst Ht Hn H. unfold minixtest_stats_add_test in H.
  pose proof (get_test_books st (lt_name t) Hst) as B0. destruct (minixtest_stats_get_test st (lt_name t)) as [i s0]. cbn [snd] in B0.
  apply res_bind_inv in H as (s1 & E1 & H). apply res_bind_inv in H as (s2 & E2 & H). apply res_bind_inv in H as ([s3 fo] & E3 & H).
  apply res_bind_inv in H as (s4 & E4 & H). apply res_bind_inv in H as (r & _ & [= <-]). cbn [fst snd] in *.
  pose proof (on_test_same s0 i _ (bk_ok _ _ _ B0) (count_status_same _) _ E1) as B1.
  pose proof (on_test_same s1 i _ (bk_ok _ _ _ B1) (add_reports_same _) _ E2) as B2.
  pose proof (modules_adds _ _ _ _ _ _ _ (bk_ok _ _ _ B2) Ht Hn E3) as B3. cbn [fst] in B3.
  pose proof (on_test_same s3 i _ (bk_ok _ _ _ B3) (add_faultstats_same _) _ E4) as B4.
  eapply books_nothing_l; [exact B0|]. eapply books_nothing_l; [exact B1|]. eapply books_nothing_l; [exact B2|].
  by eapply books_nothing_r; [exact B3|].
Qed.

(** The sum over the tests of a run, each with its successor. *)
Fixpoint tests_amounts (is_first : bool) (ts : list log_test) : amounts := λ a b j,
  match ts with
  | [] => 0
  | t :: ts' => test_amounts (hd_error ts') is_first t a b j + tests_amounts false ts' a b j
  end.

Lemma loop_adds ts a a' is_first : counts_ok (al_stats a) → Forall (λ t, Forall report_ok (lt_modules t)) ts →
  add_tests_loop a ts is_first = Ret a' → books (al_stats a) (al_stats a') (tests_amounts is_first ts).
Proof.
  revert a is_first. induction ts as [|t ts IH]; intros a is_first Ha Hts H; cbn [add_tests_loop] in H.
  - injection H as <-. by apply books_refl.
  - apply res_bind_inv in H as (a1 & H1 & H2). apply Forall_cons in Hts as [Ht Hts]. unfold add_loop_step in H1.
    apply res_bind_inv in H1 as (d & _ & H1). apply res_bind_inv in H1 as (e & _ & H1). apply res_bind_inv in H1 as (p & Ep & H1).
    assert (Hn : next_ok (hd_error ts)) by (destruct ts; [done|]; by apply Forall_cons in Hts as [? _]).
    pose proof (test_adds _ _ _ _ _ _ Ha Ht Hn Ep) as B. assert (E1 : al_stats a1 = p.1) by (res_inv; done). rewrite <- E1 in B.
    pose proof (IH a1 false (bk_ok _ _ _ B) Hts H2) as B2. eapply books_ext; [by eapply books_trans|]. done.
Qed.
(** Call sites are kept with the modules, but have no counts of blocks. *)
Lemma callsites_module_blocks t m t' : mods_ok (st_modules t) → minixtest_stats_add_callsites_module t m = Ret t' →
  mods_ok (st_modules t') ∧ ∀ b j, blocks (st_modules t') b j = blocks (st_modules t) b j.
Proof.
  intros Hok H. unfold minixtest_stats_add_callsites_module, minixtest_stats_get_module in H. set (nm := upto_at (lm_name m)) in *.
  destruct (find_or_add_spec sm_name new_stats_module nm (st_modules t) mod_ok Hok ltac:(done) ltac:(done)) as (Hi & Hok' & _ & Hname).
  destruct (find_or_add_blocks (st_modules t) nm) as [Hb Hp].
  destruct (find_or_add sm_name new_stats_module nm (st_modules t)) as [i l]. cbn [fst snd] in *. unfold update_at in H.
  apply res_bind_inv in H as (l' & Hl & [= <-]). cbn [set_st_modules st_modules].
  destruct (l !! i) as [x|] eqn:Ex; [|done]. specialize (Hname x eq_refl). apply res_bind_inv in Hl as (y & Hy & [= <-]).
  apply res_bind_inv in Hy as (c & _ & [= <-]). assert (Hx : mod_ok x) by (by eapply Forall_lookup_1 in Hok'; [|exact Ex]). split.
  - apply Forall_insert; done.
  - intros b j. rewrite (blocks_update l i x) by (rewrite ?Hname; done). rewrite <- Hb. destruct (String.eqb_spec b (sm_name x)) as [->|]; [|done].
    cbn [sm_bbs]. unfold blocks. by rewrite Hname, Hp, Ex.
Qed.

Lemma callsites_blocks l t t' : mods_ok (st_modules t) → res_foldl minixtest_stats_add_callsites_module t l = Ret t' →
  mods_ok (st_modules t') ∧ ∀ b j, blocks (st_modules t') b j = blocks (st_modules t) b j.
Proof.
  revert t. induction l as [|m l IH]; intros t Hok H; cbn [res_foldl] in H; [by injection H as <-|].
  apply res_bind_inv in H as (t1 & H1 & H2). destruct (callsites_module_blocks _ _ _ Hok H1) as [Hok1 Hb1].
  destruct (IH t1 Hok1 H2) as [Hok2 Hb2]. split; [done|]. intros b j. by rewrite Hb2.
Qed.

Lemma unreached_adds fuel st text st' : counts_ok st → unreached_loop fuel st text = Ret st' → books st st' nothing.
Proof.
  revert st text. induction fuel as [|fuel IH]; intros st text Hst H; cbn [unreached_loop] in H; [done|].
  destruct (skip_chars iswhitespace text) as [|c w]; [injection H as <-; by apply books_refl|].
  destruct (split_word iswhitespace (String c w)) as [word rest].
  pose proof (get_test_books st word Hst) as B0. destruct (minixtest_stats_get_test st word) as [i s0]. cbn [snd] in B0.
  apply res_bind_inv in H as (s1 & E1 & H). pose proof (on_test_same s0 i _ (bk_ok _ _ _ B0) count_unreached_same _ E1) as B1.
  eapply books_nothing_l; [exact B0|]. eapply books_nothing_l; [exact B1|]. apply (IH s1 rest); [apply B1|done].
Qed.

Lemma start_run_adds st s p : counts_ok st → start_run st s = Ret p → books st (al_stats p.1) nothing.
Proof.
  intros Hst H. unfold start_run in H.
  assert (B0 : books st (name_phases st) nothing).
  { apply books_same; [done| |done|apply Hst]. intros ph. unfold same_modules, name_phases, name_phase. cbn [phases].
    by destruct (st_name (phases st ph)). }
  apply res_bind_inv in H as (fo & _ & H). apply res_bind_inv in H as (s1 & E1 & H). apply res_bind_inv in H as (s2 & E2 & [= <-]).
  cbn [fst al_stats]. pose proof (on_phase_same _ _ _ (bk_ok _ _ _ B0) (add_faultstats_same _) _ E1) as B1.
  eapply books_nothing_l; [exact B0|]. eapply books_nothing_l; [exact B1|].
  apply (on_phase_same _ _ _ (bk_ok _ _ _ B1) (add_duration_same _ _) _ E2).
Qed.

(** The reports of a run have the right sizes. *)
Definition summary_consistent (s : summary) : Prop := Forall (λ t, Forall report_ok (lt_modules t)) (s_tests s).

Lemma run_books st s pretest_count naive_mode p : counts_ok st → summary_consistent s →
  minixtest_stats_add st s pretest_count naive_mode = Ret p → books st p.1 (tests_amounts true (s_tests s)).
Proof.
  intros Hst Hs H. unfold minixtest_stats_add in H.
  apply res_bind_inv in H as ([a0 fo] & E0 & H). pose proof (start_run_adds _ _ _ Hst E0) as B0. cbn [fst] in B0.
  apply res_bind_inv in H as (a & Ea & H). pose proof (loop_adds _ _ _ _ (bk_ok _ _ _ B0) Hs Ea) as B1.
  apply res_bind_inv in H as (s2 & E2 & H). pose proof (on_phase_same _ _ _ (bk_ok _ _ _ B1) (add_faultstats_same _) _ E2) as B2.
  apply res_bind_inv in H as (s3 & E3 & H). assert (B3 : books s2 s3 nothing).
  { unfold minixtest_stats_add_tests_unreached in E3. destruct (al_planned a); [by eapply unreached_adds; [apply B2|]|].
    injection E3 as <-. apply books_refl, B2. }
  apply res_bind_inv in H as (s4 & E4 & H). pose proof (on_phase_same _ _ _ (bk_ok _ _ _ B3) (add_seconds_same _) _ E4) as B4.
  apply res_bind_inv in H as (s5 & E5 & H). pose proof (on_phase_same _ _ _ (bk_ok _ _ _ B4) (add_duration_same _ _) _ E5) as B5.
  apply res_bind_inv in H as (r & _ & H). apply res_bind_inv in H as (s6 & E6 & H).
  pose proof (on_phase_same _ _ _ (bk_ok _ _ _ B5) (add_faultstats_same _) _ E6) as B6.
  apply res_bind_inv in H as (c & _ & H). apply res_bind_inv in H as (n & _ & H). apply res_bind_inv in H as (w & _ & H).
  apply res_bind_inv in H as (ms & _ & H). apply res_bind_inv in H as (s8 & E8 & [= <-]). cbn [fst].
  assert (B8 : books s6 s8 nothing).
  { unfold on_phase in E8. apply res_bind_inv in E8 as (t & Et & [= <-]). cbn [set_measured set_classification phases] in Et.
    destruct (callsites_blocks _ _ _ (co_phases _ (bk_ok _ _ _ B6) total) Et) as [Hok Hb]. split.
    - split; [|apply B6]. intros ph. cbn [set_phase phases set_measured set_classification]. destruct (decide (ph = total)); [done|apply B6].
    - intros a' b j. unfold nothing. rewrite Z.add_0_r. destruct a' as [ph|]; cbn [view set_phase phases set_measured set_classification tests]; [|done].
      destruct (decide (ph = total)) as [->|]; [by rewrite Hb|done]. }
  eapply books_nothing_l; [exact B0|]. eapply books_nothing_r; [exact B1|]. eapply books_nothing_l; [exact B2|].
  eapply books_nothing_l; [exact B3|]. eapply books_nothing_l; [exact B4|]. eapply books_nothing_l; [exact B5|].
  by eapply books_nothing_l; [exact B6|].
Qed.
End Sizes.

(** ** Runs *)

(** Any number of runs, with the options they are added with. *)
Definition add_runs (st : minixtest_stats) (runs : list (summary * Z * bool)) : res minixtest_stats :=
  res_foldl (λ st r, let! p := minixtest_stats_add st r.1.1 r.1.2 r.2 in Ret p.1) st runs.

Lemma sum_mods_add f g l : sum_mods (λ m, f m + g m) l = sum_mods f l + sum_mods g l.
Proof. unfold sum_mods. induction l as [|m l IH]; [done|]. cbn [foldr]. rewrite IH. lia. Qed.

Lemma sum_mods_ext f g l : (∀ m, f m = g m) → sum_mods f l = sum_mods g l.
Proof. intros H. unfold sum_mods. induction l as [|m l IH]; [done|]. cbn [foldr]. by rewrite IH, H. Qed.

Lemma tests_amounts_total is_first ts b j :
  tests_amounts is_first ts (Some total) b j =
  tests_amounts is_first ts (Some boot) b j + tests_amounts is_first ts (Some between) b j + tests_amounts is_first ts (Some alltests) b j.
Proof.
  revert is_first. induction ts as [|t ts IH]; intros is_first; [done|]. cbn [tests_amounts]. rewrite IH. unfold test_amounts.
  rewrite (sum_mods_ext (λ m, module_amounts (hd_error ts) is_first m (Some total) b j)
    (λ m, (module_amounts (hd_error ts) is_first m (Some boot) b j + module_amounts (hd_error ts) is_first m (Some between) b j) +
          module_amounts (hd_error ts) is_first m (Some alltests) b j)) by (intros m; cbn [module_amounts]; lia).
  rewrite !sum_mods_add. lia.
Qed.

Lemma tests_amounts_alltests is_first ts b j : tests_amounts is_first ts None b j = tests_amounts is_first ts (Some alltests) b j.
Proof. revert is_first. induction ts as [|t ts IH]; intros is_first; [done|]. cbn [tests_amounts]. by rewrite IH. Qed.

Lemma stats_zero_counts size : counts_ok size minixtest_stats_zero.
Proof. by split; [intros ph|]; constructor. Qed.

Lemma add_runs_books size runs st st' : (∀ b, 0 < size b) → counts_ok size st →
  Forall (λ r : summary * Z * bool, summary_consistent size r.1.1) runs → add_runs st runs = Ret st' →
  books size st st' (λ a b j, foldr (λ r z, tests_amounts true (s_tests r.1.1) a b j + z) 0 runs).
Proof.
  intros Hsz Hst Hr. revert st Hst. induction Hr as [|r runs Hr _ IH]; intros st Hst H.
  - injection H as <-. by apply books_refl.
  - unfold add_runs in *. cbn [res_foldl] in H. apply res_bind_inv in H as (st1 & H1 & H2). apply res_bind_inv in H1 as (p & Hp & [= <-]).
    pose proof (run_books size Hsz _ _ _ _ _ Hst Hr Hp) as B. pose proof (IH p.1 (bk_ok _ _ _ _ B) H2) as B2.
    eapply books_ext; [by eapply books_trans|]. done.
Qed.

(** C23: the phases account for all executions.  Add any number of runs in which the
    reports of a program have as many counts as the program has blocks.  For every
    program and block, the total is the sum of what is booked for booting, for the
    time between tests and for the tests, the tests' own counts add up to those of
    all tests, and these are the executions reported during the tests; all modulo
    2^64, like the counters. *)
Theorem phases_account_for_runs size runs st :
  (∀ b, 0 < size b) → Forall (λ r : summary * Z * bool, summary_consistent size r.1.1) runs →
  add_runs minixtest_stats_zero runs = Ret st →
  ∀ b j,
    eq64 (view st (Some total) b j) (view st (Some boot) b j + view st (Some between) b j + view st (Some alltests) b j) ∧
    eq64 (view st None b j) (view st (Some alltests) b j) ∧
    eq64 (view st (Some alltests) b j)
      (foldr (λ r z, foldr (λ t y, sum_mods (λ m, contrib (tm_name m) (bbs_during m) b j) (lt_modules t) + y) 0 (s_tests r.1.1) + z) 0 runs).
Proof.
  intros Hsz Hr H b j. pose proof (add_runs_books size runs _ _ Hsz (stats_zero_counts size) Hr H) as [_ B].
  assert (Z0 : ∀ a, view minixtest_stats_zero a b j = 0) by (by intros [[]|]).
  split_and!.
  - rewrite !B, !Z0, !Z.add_0_l. apply eq_subrelation; [apply _|]. clear -runs. induction runs as [|r runs IH]; [done|]. cbn [foldr].
    rewrite IH, tests_amounts_total. lia.
  - rewrite !B, !Z0, !Z.add_0_l. apply eq_subrelation; [apply _|]. clear -runs. induction runs as [|r runs IH]; [done|]. cbn [foldr].
    by rewrite IH, tests_amounts_alltests.
  - rewrite B, Z0, Z.add_0_l. apply eq_subrelation; [apply _|]. clear -runs. induction runs as [|r runs IH]; [done|]. cbn [foldr].
    rewrite IH. f_equal. clear IH. generalize true. induction (s_tests r.1.1) as [|t ts IHt]; intros f; [done|].
    cbn [tests_amounts foldr]. by rewrite IHt.
Qed.

(** ** A complete run *)

(** All modules of the program report before and after every test. *)
Record steady (size : string → Z) (names : list string) (ts : list test_run) : Prop := {
  sd_nodup : NoDup names;
  sd_names : Forall (λ t, mr_name <$> tr_modules t = names) ts;
  sd_sizes : Forall (λ t, Forall (λ m, Z.of_nat (length (mr_before m)) = size (upto_at (mr_name m)) ∧
                                       length (mr_after m) = length (mr_before m)) (tr_modules t)) ts;
}.

Definition sum_runs (f : module_run → Z) (l : list module_run) : Z := foldr (λ m z, f m + z) 0 l.
(** The counters at the end of the last test. *)
Definition final_counts (ts : list test_run) (b : string) (j : nat) : Z :=
  match last ts with
  | Some t => sum_runs (λ m, contrib (mr_name m) (Some (mr_after m)) b j) (tr_modules t)
  | None => 0
  end.

Lemma sum_mods_images f l : sum_mods f (module_run_image <$> l) = sum_runs (λ m, f (module_run_image m)) l.
Proof. unfold sum_mods, sum_runs. induction l as [|m l IH]; [done|]. rewrite fmap_cons. cbn [foldr]. by rewrite IH. Qed.

Lemma sum_runs_eq64 f g l : Forall (λ m, eq64 (f m) (g m)) l → eq64 (sum_runs f l) (sum_runs g l).
Proof. unfold sum_runs. induction 1 as [|m l Hm _ IH]; [done|]. cbn [foldr]. by rewrite Hm, IH. Qed.

Lemma sum_runs_add f g l : sum_runs (λ m, f m + g m) l = sum_runs f l + sum_runs g l.
Proof. unfold sum_runs. induction l as [|m l IH]; [done|]. cbn [foldr]. rewrite IH. lia. Qed.

Lemma sum_runs_sub f g l : sum_runs (λ m, f m - g m) l = sum_runs f l - sum_runs g l.
Proof. unfold sum_runs. induction l as [|m l IH]; [done|]. cbn [foldr]. rewrite IH. lia. Qed.

(** The executions during a test are the difference of the counters. *)
Lemma during_difference m b j : length (mr_after m) = length (mr_before m) →
  eq64 (contrib (mr_name m) (Some (counts_during m)) b j)
       (contrib (mr_name m) (Some (mr_after m)) b j - contrib (mr_name m) (Some (mr_before m)) b j).
Proof.
  intros Hl. unfold contrib. destruct (String.eqb b _); [|done]. unfold cnt, counts_during. cbn [mbind option_bind].
  rewrite lookup_zip_with. destruct (mr_before m !! j) as [x|] eqn:Ex.
  - assert (Hj : (j < length (mr_after m))%nat) by (rewrite Hl; by eapply lookup_lt_Some).
    destruct (lookup_lt_is_Some_2 _ _ Hj) as [y Hy]. rewrite Hy. cbn. apply eq64_u64.
  - apply lookup_ge_None in Ex. by rewrite (lookup_ge_None_2 (mr_after m)) by lia.
Qed.

Lemma find_image t pre m post : tr_modules t = pre ++ m :: post → mr_name m ∉ (mr_name <$> pre) →
  find_module (test_image t) (mr_name m) = Some (module_run_image m).
Proof.
  intros Ht Hn. unfold find_module. cbn [test_image lt_modules]. rewrite Ht, fmap_app, fmap_cons. clear Ht.
  induction pre as [|x pre IH]; cbn [app fmap list_fmap find].
  - cbn [module_run_image tm_name]. by rewrite String.eqb_refl.
  - rewrite fmap_cons, not_elem_of_cons in Hn. destruct Hn as [Hx Hn]. cbn [module_run_image tm_name].
    destruct (String.eqb_spec (mr_name m) (mr_name x)); [done|]. apply IH, Hn.
Qed.

(** Between two tests every counter goes from its value after the first to its
    value before the second. *)
Lemma gaps_difference size t t' b j : NoDup (mr_name <$> tr_modules t') → mr_name <$> tr_modules t = mr_name <$> tr_modules t' →
  Forall (λ m, Z.of_nat (length (mr_before m)) = size (upto_at (mr_name m))) (tr_modules t) →
  Forall (λ m, Z.of_nat (length (mr_before m)) = size (upto_at (mr_name m))) (tr_modules t') →
  sum_runs (λ m, gap (module_run_image m) (Some (test_image t')) b j) (tr_modules t) =
  sum_runs (λ m, contrib (mr_name m) (Some (mr_before m)) b j) (tr_modules t') -
  sum_runs (λ m, contrib (mr_name m) (Some (mr_after m)) b j) (tr_modules t).
Proof.
  intros Hnd Heq Hs Hs'.
  assert (G : ∀ l pre l', tr_modules t' = pre ++ l' → mr_name <$> l = mr_name <$> l' →
    Forall (λ m, Z.of_nat (length (mr_before m)) = size (upto_at (mr_name m))) l →
    sum_runs (λ m, gap (module_run_image m) (Some (test_image t')) b j) l =
    sum_runs (λ m, contrib (mr_name m) (Some (mr_before m)) b j) l' - sum_runs (λ m, contrib (mr_name m) (Some (mr_after m)) b j) l).
  { induction l as [|m l IH]; intros pre [|m' l'] Hpre Hnm Hl; try done. injection Hnm as Hnm Hnms. apply Forall_cons in Hl as [Hm Hl].
    unfold sum_runs in *. cbn [foldr]. rewrite (IH (pre ++ [m']) l') by (rewrite <- ?app_assoc; done).
    assert (Hf : find_module (test_image t') (mr_name m) = Some (module_run_image m')).
    { rewrite Hnm. eapply find_image; [exact Hpre|]. rewrite Hpre, fmap_app, fmap_cons in Hnd. apply NoDup_app in Hnd as (_ & Hnd & _).
      intros Hin. apply (Hnd _ Hin). by left. }
    assert (Hsz' : Z.of_nat (length (mr_before m')) = size (upto_at (mr_name m'))).
    { rewrite Hpre in Hs'. apply Forall_app in Hs' as [_ Hs']. by apply Forall_cons in Hs' as [? _]. }
    assert (Hg : gap (module_run_image m) (Some (test_image t')) b j =
                 contrib (mr_name m') (Some (mr_before m')) b j - contrib (mr_name m) (Some (mr_after m)) b j).
    { unfold gap, gap_count, contrib. cbn [mbind option_bind module_run_image tm_name] in *. rewrite Hf, <- Hnm.
      cbn [module_run_image tm_bb_count bbs_before bbs_after]. rewrite Hm, Hsz', <- Hnm, Z.eqb_refl. by destruct (String.eqb b _). }
    rewrite Hg. lia. }
  by apply (G (tr_modules t) []).
Qed.

(** Amounts of the tests, without booting: from before the first to after the last. *)
Lemma telescope size names t ts b j : steady size names (t :: ts) →
  eq64 (tests_amounts false (test_image <$> (t :: ts)) (Some total) b j)
       (final_counts (t :: ts) b j - sum_runs (λ m, contrib (mr_name m) (Some (mr_before m)) b j) (tr_modules t)).
Proof.
  revert t. induction ts as [|t' ts IH]; intros t [Hnd Hnm Hsz]; apply Forall_cons in Hnm as [Hn Hnm], Hsz as [Hs Hsz].
  - rewrite fmap_cons, fmap_nil. cbn [tests_amounts hd_error final_counts last]. unfold test_amounts. cbn [test_image lt_modules].
    rewrite sum_mods_images, Z.add_0_r, <- sum_runs_sub. apply sum_runs_eq64. eapply Forall_impl; [exact Hs|]. intros m [_ Hl].
    cbn [module_amounts before_first module_run_image tm_name bbs_during]. unfold gap, gap_count. cbn [mbind option_bind].
    rewrite (during_difference m b j Hl). destruct (String.eqb b _); by rewrite !Z.add_0_r.
  - pose proof Hnm as Hnm0. pose proof Hsz as Hsz0. apply Forall_cons in Hnm0 as [Hn' _], Hsz0 as [Hs' _].
    rewrite fmap_cons. cbn [tests_amounts]. rewrite (IH t') by (by split). rewrite fmap_cons. cbn [hd_error].
    unfold test_amounts. cbn [test_image lt_modules]. rewrite sum_mods_images.
    assert (Hd : eq64 (sum_runs (λ m, module_amounts (Some (test_image t')) false (module_run_image m) (Some total) b j) (tr_modules t))
      (sum_runs (λ m, (contrib (mr_name m) (Some (mr_after m)) b j - contrib (mr_name m) (Some (mr_before m)) b j) +
                      gap (module_run_image m) (Some (test_image t')) b j) (tr_modules t))).
    { apply sum_runs_eq64. eapply Forall_impl; [exact Hs|]. intros m [_ Hl].
      cbn [module_amounts before_first]. rewrite Z.add_0_r. cbn [module_run_image tm_name bbs_during]. by rewrite (during_difference m b j Hl). }
    change (Build_log_test _ _ _ _ _ _ _ _) with (test_image t') in *. rewrite Hd, sum_runs_add, sum_runs_sub.
    rewrite (gaps_difference size t t'); [|by rewrite Hn'|by rewrite Hn, Hn'| |];
      [|by eapply Forall_impl; [exact Hs|]; intros m [? _]|by eapply Forall_impl; [exact Hs'|]; intros m [? _]].
    assert (Hlast : final_counts (t :: t' :: ts) b j = final_counts (t' :: ts) b j) by done. rewrite Hlast.
    apply eq_subrelation; [apply _|]. lia.
Qed.

Lemma first_amounts t ts b j :
  tests_amounts true (t :: ts) (Some total) b j =
  tests_amounts false (t :: ts) (Some total) b j + sum_mods (λ m, contrib (tm_name m) (bbs_before m) b j) (lt_modules t).
Proof.
  cbn [tests_amounts]. unfold test_amounts.
  rewrite (sum_mods_ext (λ m, module_amounts (hd_error ts) true m (Some total) b j)
    (λ m, module_amounts (hd_error ts) false m (Some total) b j + contrib (tm_name m) (bbs_before m) b j))
    by (intros m; cbn [module_amounts before_first]; lia).
  rewrite sum_mods_add. lia.
Qed.

Lemma steady_consistent size names r : (∀ b, 0 < size b) → steady size names (wr_tests r) → summary_consistent size (run_image r).
Proof.
  intros Hpos Hs. unfold summary_consistent. cbn [run_image s_tests]. apply Forall_fmap. eapply Forall_impl; [apply (sd_sizes _ _ _ Hs)|].
  intros t Ht. cbn [compose test_image lt_modules]. apply Forall_fmap. eapply Forall_impl; [exact Ht|]. intros m [Hm Hl]. left.
  cbn [compose module_run_image tm_bb_count tm_name bbs_before bbs_after bbs_during]. pose proof (Hpos (upto_at (mr_name m))).
  unfold sized, counts_during. rewrite length_zip_with_l_eq by done. split_and!; lia.
Qed.

(** Every execution is attributed.  In the statistics of a complete run, as
    summarised from its log, whose modules report before and after every test, the
    total of a block is its counter at the end of the last test: what happened
    while booting, during each test and between the tests adds up without a gap
    and without counting anything twice. *)
Theorem executions_attributed size names r pretest_count naive_mode st c :
  (∀ b, 0 < size b) → wr_tests r ≠ [] → steady size names (wr_tests r) →
  minixtest_stats_add minixtest_stats_zero (run_image r) pretest_count naive_mode = Ret (st, c) →
  ∀ b j,
    eq64 (view st (Some total) b j) (final_counts (wr_tests r) b j) ∧
    eq64 (final_counts (wr_tests r) b j) (view st (Some boot) b j + view st (Some between) b j + view st (Some alltests) b j).
Proof.
  intros Hpos Hne Hs H b j.
  pose proof (run_books size Hpos _ _ _ _ _ (stats_zero_counts size) (steady_consistent _ _ _ Hpos Hs) H) as [_ B]. cbn [fst] in B.
  assert (Z0 : ∀ a, view minixtest_stats_zero a b j = 0) by (by intros [[]|]).
  assert (Ht : eq64 (tests_amounts true (s_tests (run_image r)) (Some total) b j) (final_counts (wr_tests r) b j)).
  { cbn [run_image s_tests]. destruct (wr_tests r) as [|t ts]; [done|].
    pose proof (telescope size names t ts b j Hs) as T. rewrite fmap_cons in T |- *. rewrite first_amounts, T.
    cbn [test_image lt_modules]. rewrite sum_mods_images. cbn [module_run_image tm_name bbs_before].
    apply eq_subrelation; [apply _|]. lia. }
  split.
  - by rewrite B, Z0, Z.add_0_l.
  - rewrite !B, !Z0, !Z.add_0_l, <- Ht, tests_amounts_total. done.
Qed.

(** ** Example *)

Definition demo_module (name : string) (before after : list Z) : module_run :=
  {| mr_name := name; mr_before := before; mr_after := after |}.
Definition demo_test (name : string) (status : minix_test_status) (time : Z) (mods : list module_run) : test_run :=
  {| tr_name := name; tr_status := status; tr_start := at_time time; tr_end := at_time (time + 2); tr_modules := mods |}.
Definition demo_whole : whole_run :=
  {| wr_path := "log"; wr_start := at_time 1; wr_boot := at_time 2; wr_planned := "t1 t2 t3"; wr_starting := at_time 3;
     wr_tests := [demo_test "t1" mts_passed 4 [demo_module "vfs@2" [10; 0] [12; 7]; demo_module "pm" [1] [1]];
                  demo_test "t2" mts_failed 10 [demo_module "vfs@2" [15; 7] [20; 8]; demo_module "pm" [4] [6]]];
     wr_complete := at_time 20; wr_exit := at_time 21 |}.
Definition demo_size (b : string) : Z := if String.eqb b "vfs" then 2 else 1.

Lemma demo_size_pos b : 0 < demo_size b.
Proof. unfold demo_size. by destruct (String.eqb b "vfs"). Qed.

Lemma demo_steady : steady demo_size ["vfs@2"; "pm"] (wr_tests demo_whole).
Proof. split; [apply (bool_decide_unpack _); by vm_compute|by repeat constructor|by repeat constructor]. Qed.

Lemma executions_attributed_witness :
  ∃ st c, minixtest_stats_add minixtest_stats_zero (run_image demo_whole) 0 false = Ret (st, c) ∧
    eq64 (view st (Some total) "vfs" 0) 20 ∧ eq64 (view st (Some total) "pm" 0) 6.
Proof.
  assert (Hr : is_ret (minixtest_stats_add minixtest_stats_zero (run_image demo_whole) 0 false) = true) by (vm_compute; reflexivity).
  destruct (minixtest_stats_add minixtest_stats_zero (run_image demo_whole) 0 false) as [[st c]|f] eqn:E; [|done].
  exists st, c. split; [done|].
  pose proof (executions_attributed demo_size ["vfs@2"; "pm"] demo_whole 0 false st c demo_size_pos ltac:(done) demo_steady E) as H.
  split; [apply (H "vfs" 0%nat)|apply (H "pm" 0%nat)].
Defined.

Lemma phases_account_for_runs_witness :
  ∃ st, add_runs minixtest_stats_zero [(run_image demo_whole, 0, false); (run_image demo_whole, 1, true)] = Ret st ∧
    eq64 (view st (Some total) "vfs" 0) (view st (Some boot) "vfs" 0 + view st (Some between) "vfs" 0 + view st (Some alltests) "vfs" 0).
Proof.
  assert (Hr : is_ret (add_runs minixtest_stats_zero [(run_image demo_whole, 0, false); (run_image demo_whole, 1, true)]) = true)
    by (vm_compute; reflexivity).
  destruct (add_runs minixtest_stats_zero _) as [st|f] eqn:E; [|done].
  exists st. split; [done|].
  apply (phases_account_for_runs demo_size [(run_image demo_whole, 0, false); (run_image demo_whole, 1, true)] st demo_size_pos); [|exact E].
  pose proof (steady_consistent demo_size ["vfs@2"; "pm"] demo_whole demo_size_pos demo_steady) as Hc.
  constructor; [exact Hc|constructor; [exact Hc|constructor]].
Defined.
