(* ===== verification/TestTally.v ===== *)
(** * Counting tests and classifying runs

    How often each test passed, failed, crashed or was not reached, the table of
    the outcomes of runs, and the counters of tests, in the statistics of
    [minixteststats.c]. *)

From Stdlib Require Import ZArith Lia Ascii String Floats.SpecFloat.
From stdpp Require Import base list numbers strings.
From S2P Require Import Prelude Decimal Double Helper Module Function Coverage LogParse LogReader TestLog Stats TestStats TestAccounts.

(** ** Counting tests *)

Inductive tally_kind := ended (s : minix_test_status) | unreached.
#[global] Instance tally_kind_eq_dec : EqDecision tally_kind.
Proof. solve_decision. Defined.

Definition counter (k : tally_kind) (t : stats_test) : Z :=
  match k with
  | ended mts_passed => count_pass t
  | ended mts_failed => count_fail t
  | ended mts_running => count_crash t
  | unreached => count_notreached t
  end.
(** The counter of the test called [name]. *)
Definition tally (l : list stats_test) (k : tally_kind) (name : string) : Z :=
  match l !! find_position test_key name l with Some t => counter k t | None => 0 end.

Definition single (k : tally_kind) (name : string) (k' : tally_kind) (name' : string) : Z :=
  if decide (k' = k) then if String.eqb name' name then 1 else 0 else 0.

(** Steps that change no counter and no name. *)
Definition same_counts (t t' : stats_test) : Prop := st_name t' = st_name t ∧ ∀ k, counter k t' = counter k t.

Lemma tally_insert l i t t' k name : l !! i = Some t → st_name t' = st_name t → i = find_position test_key (test_key t) l →
  tally (<[i := t']> l) k name = if String.eqb name (test_key t) then counter k t' else tally l k name.
Proof.
  intros Hi Hn Hp. unfold tally. assert (Hk : test_key t' = test_key t) by (unfold test_key; by rewrite Hn).
  rewrite (find_position_insert test_key name l i t t') by done. destruct (String.eqb_spec name (test_key t)) as [->|Hne].
  - rewrite <- Hp, list_lookup_insert_eq; [done|by eapply lookup_lt_Some].
  - destruct (decide (find_position test_key name l = i)) as [E|E]; [|by rewrite list_lookup_insert_ne].
    exfalso. apply Hne. rewrite <- E in Hi. by apply find_position_same, String.eqb_eq in Hi.
Qed.

Lemma tally_same st i f st' k name : (∀ t t', f t = Ret t' → same_counts t t') → on_stats_test i f st = Ret st' →
  tally (tests st') k name = tally (tests st) k name ∧ test_key <$> tests st' = test_key <$> tests st.
Proof.
  intros Hf H. unfold on_stats_test, update_at in H. apply res_bind_inv in H as (l & Hl & [= <-]). cbn [set_tests tests].
  destruct (tests st !! i) as [t|] eqn:Et; [|done]. apply res_bind_inv in Hl as (t' & Ht & [= <-]). destruct (Hf _ _ Ht) as [Hn Hc].
  assert (Hk : test_key t' = test_key t) by (unfold test_key; by rewrite Hn). split.
  - unfold tally. rewrite (find_position_insert test_key name _ i t t') by done.
    destruct (decide (find_position test_key name (tests st) = i)) as [->|]; [|by rewrite list_lookup_insert_ne].
    rewrite list_lookup_insert_eq by (by eapply lookup_lt_Some). by rewrite Et, Hc.
  - rewrite list_fmap_insert. apply list_insert_id. by rewrite list_lookup_fmap, Et, Hk.
Qed.

(** The position of a name depends on the names only. *)
Lemma find_position_keys {A} (key : A → string) name l : find_position key name l = find_position id name (key <$> l).
Proof. induction l as [|x l IH]; [done|]. rewrite fmap_cons. cbn [find_position]. by rewrite IH. Qed.

Lemma get_test_tally st name k name' :
  let r := minixtest_stats_get_test st name in
  tally (tests r.2) k name' = tally (tests st) k name' ∧ r.1 = find_position test_key name (tests r.2) ∧
  (r.1 < length (tests r.2))%nat ∧ (∀ t, tests r.2 !! r.1 = Some t → test_key t = name) ∧ (∀ ph, phases r.2 ph = phases st ph).
Proof.
  unfold minixtest_stats_get_test, find_or_add. cbn [fst snd set_tests tests phases].
  pose proof (find_position_spec test_key name (tests st)) as [Hle Hx].
  destruct (Nat.leb_spec (length (tests st)) (find_position test_key name (tests st))) as [Hge|Hlt]; [|done].
  assert (E : find_position test_key name (tests st) = length (tests st)) by lia.
  split_and!; [| | | |done].
  - unfold tally. rewrite find_position_app. destruct (Nat.ltb_spec (find_position test_key name' (tests st)) (length (tests st))) as [Hl|Hg].
    + by rewrite lookup_app_l.
    + rewrite (lookup_ge_None_2 (tests st)) by done. destruct (String.eqb name' _); [by rewrite list_lookup_middle; [destruct k as [[]|]|]|].
      by rewrite lookup_ge_None_2 by (rewrite length_app; cbn [length]; lia).
  - rewrite find_position_app, E, Nat.ltb_irrefl. change (test_key (new_stats_test (Some name))) with name. by rewrite String.eqb_refl.
  - rewrite length_app, E. cbn [length]. lia.
  - intros t Ht. rewrite E, list_lookup_middle in Ht by done. by injection Ht as <-.
Qed.

(** Counting one test. *)
Lemma count_one st i k name st' (f : stats_test → res stats_test) :
  (∀ t t', f t = Ret t' → st_name t' = st_name t ∧ ∀ q, counter q t' = counter q t + (if decide (q = k) then 1 else 0)) →
  i = find_position test_key name (tests st) → (∀ t, tests st !! i = Some t → test_key t = name) →
  on_stats_test i f st = Ret st' →
  (∀ q name', tally (tests st') q name' = tally (tests st) q name' + single k name q name') ∧ test_key <$> tests st' = test_key <$> tests st.
Proof.
  intros Hf Hi Hk H. unfold on_stats_test, update_at in H. apply res_bind_inv in H as (l & Hl & [= <-]). cbn [set_tests tests].
  destruct (tests st !! i) as [t|] eqn:Et; [|done]. apply res_bind_inv in Hl as (t' & Ht & [= <-]). destruct (Hf _ _ Ht) as [Hn Hc].
  specialize (Hk t eq_refl). split.
  - intros q name'. rewrite (tally_insert _ i t) by (rewrite ?Hk; done). unfold single. rewrite Hk.
    destruct (String.eqb_spec name' name) as [->|]; [|by destruct (decide _); rewrite Z.add_0_r].
    rewrite Hc. unfold tally. by rewrite <- Hi, Et.
  - rewrite list_fmap_insert. apply list_insert_id. rewrite list_lookup_fmap, Et. cbn. f_equal. unfold test_key. by rewrite Hn.
Qed.

Lemma count_status_counter s t t' : count_status s t = Ret t' →
  st_name t' = st_name t ∧ ∀ q, counter q t' = counter q t + (if decide (q = ended s) then 1 else 0).
Proof.
  intros H. unfold count_status in H. destruct s; apply res_bind_inv in H as (c & Hc & [= <-]); apply chk32_inv in Hc as [-> _];
    (split; [done|]; intros [[]|]; cbn [counter set_counts count_pass count_fail count_crash count_notreached]; case_decide; simplify_eq; lia).
Qed.

Lemma count_unreached_counter t t' : count_unreached t = Ret t' →
  st_name t' = st_name t ∧ ∀ q, counter q t' = counter q t + (if decide (q = unreached) then 1 else 0).
Proof.
  intros H. unfold count_unreached in H. apply res_bind_inv in H as (c & Hc & [= <-]); apply chk32_inv in Hc as [-> _].
  split; [done|]; intros [[]|]; cbn [counter set_counts count_pass count_fail count_crash count_notreached]; case_decide; simplify_eq; lia.
Qed.

Lemma add_reports_counts s t t' : add_reports s t = Ret t' → same_counts t t'.
Proof. intros H. unfold add_reports in H. res_inv; by split; [|intros [[]|]]. Qed.
Lemma add_faultstats_counts fo t t' : add_faultstats fo t = Ret t' → same_counts t t'.
Proof. intros H. unfold add_faultstats in H. res_inv; by split; [|intros [[]|]]. Qed.
Lemma add_to_counts name k bbs t t' : add_to name k bbs t = Ret t' → same_counts t t'.
Proof. intros H. unfold add_to in H. res_inv; by split; [|intros [[]|]]. Qed.

Lemma on_phase_tests ph f st st' : on_phase ph f st = Ret st' → tests st' = tests st.
Proof. intros H. unfold on_phase in H. by apply res_bind_inv in H as (t & _ & [= <-]). Qed.

(** What the tests of a list look like from outside. *)
Definition same_tests (st st' : minixtest_stats) : Prop :=
  (∀ q name, tally (tests st') q name = tally (tests st) q name) ∧ test_key <$> tests st' = test_key <$> tests st.

Lemma same_tests_eq st st' : tests st' = tests st → same_tests st st'.
Proof. intros H. unfold same_tests. by rewrite H. Qed.
Lemma same_tests_trans st1 st2 st3 : same_tests st1 st2 → same_tests st2 st3 → same_tests st1 st3.
Proof. intros [H1 H2] [H3 H4]. split; [intros q name; by rewrite H3|by rewrite H4]. Qed.
Lemma same_tests_on_test st i f st' : (∀ t t', f t = Ret t' → same_counts t t') → on_stats_test i f st = Ret st' → same_tests st st'.
Proof.
  intros Hf H. split; [intros q name; by eapply tally_same|].
  eapply (tally_same st i f st' unreached ""); [exact Hf|exact H].
Qed.

Lemma module_same_tests st i fo next m is_first p :
  minixtest_stats_add_test_module st i fo next m is_first = Ret p → same_tests st p.1.
Proof.
  intros H. unfold minixtest_stats_add_test_module in H.
  apply res_bind_inv in H as (s1 & E1 & H). apply res_bind_inv in H as (s2 & E2%on_phase_tests & H).
  apply res_bind_inv in H as (s3 & E3%on_phase_tests & H). apply res_bind_inv in H as (s4 & E4 & H).
  apply res_bind_inv in H as (s5 & E5 & H). apply res_bind_inv in H as (r & _ & [= <-]). cbn [fst].
  eapply same_tests_trans; [eapply same_tests_on_test; [|exact E1]; intros t t'; apply add_to_counts|].
  apply same_tests_eq. transitivity (tests s4).
  - destruct is_first; [|by injection E5 as <-]. apply res_bind_inv in E5 as (t & E5%on_phase_tests & E6%on_phase_tests). by rewrite E6.
  - transitivity (tests s3); [|by rewrite E3]. destruct next as [t|]; [|by injection E4 as <-].
    unfold minixtest_stats_add_test_module_diff in E4. destruct (find_module t (tm_name m)) as [nm|]; [|by injection E4 as <-].
    destruct (negb _); [by injection E4 as <-|]. apply res_bind_inv in E4 as (d & _ & E4).
    apply res_bind_inv in E4 as (s6 & E5'%on_phase_tests & E6%on_phase_tests). by rewrite E6.
Qed.

Lemma modules_same_tests l st i fo next is_first p :
  res_foldl (λ p m, minixtest_stats_add_test_module p.1 i p.2 next m is_first) (st, fo) l = Ret p → same_tests st p.1.
Proof.
  revert st fo. induction l as [|m l IH]; intros st fo H; [injection H as <-; by apply same_tests_eq|]. cbn [res_foldl] in H.
  apply res_bind_inv in H as ([st1 fo1] & E & H). apply module_same_tests in E. cbn [fst] in E.
  eapply same_tests_trans; [exact E|]. by eapply IH.
Qed.

Lemma add_test_tally st foall t next is_first p : minixtest_stats_add_test st foall t next is_first = Ret p →
  ∀ q name, tally (tests p.1) q name = tally (tests st) q name + single (ended (lt_status t)) (lt_name t) q name.
Proof.
  intros H. unfold minixtest_stats_add_test in H. pose proof (get_test_tally st (lt_name t)) as G.
  destruct (minixtest_stats_get_test st (lt_name t)) as [i s0]. cbn [fst snd] in G.
  apply res_bind_inv in H as (s1 & E1 & H). apply res_bind_inv in H as (s2 & E2 & H). apply res_bind_inv in H as ([s3 fo] & E3 & H).
  apply res_bind_inv in H as (s4 & E4 & H). apply res_bind_inv in H as (r & _ & [= <-]). cbn [fst snd] in *.
  destruct (G unreached "") as (_ & Gi & _ & Gk & _).
  destruct (count_one s0 i (ended (lt_status t)) (lt_name t) s1 _ (count_status_counter _) Gi Gk E1) as [C1 _].
  apply modules_same_tests in E3 as [C3 _]. cbn [fst] in C3.
  assert (C2 : same_tests s1 s2) by (eapply same_tests_on_test; [|exact E2]; intros ? ?; apply add_reports_counts).
  assert (C4 : same_tests s3 s4) by (eapply same_tests_on_test; [|exact E4]; intros ? ?; apply add_faultstats_counts).
  intros q name. rewrite (proj1 C4), C3, (proj1 C2), C1. by destruct (G q name) as [-> _].
Qed.

(** How many of the tests have this name and this result. *)
Definition results (ts : list log_test) (k : tally_kind) (name : string) : Z :=
  foldr (λ t z, single (ended (lt_status t)) (lt_name t) k name + z) 0 ts.
Definition occurrences (name : string) (ws : list string) : Z := foldr (λ w z, (if String.eqb name w then 1 else 0) + z) 0 ws.

Lemma loop_tally ts a a' is_first : add_tests_loop a ts is_first = Ret a' →
  (∀ k name, tally (tests (al_stats a')) k name = tally (tests (al_stats a)) k name + results ts k name) ∧
  al_planned a' = foldl testsplanned_skip (al_planned a) (lt_name <$> ts).
Proof.
  revert a is_first. induction ts as [|t ts IH]; intros a is_first H; cbn [add_tests_loop] in H.
  { injection H as <-. split; [|done]. intros k name. cbn. lia. }
  apply res_bind_inv in H as (a1 & H1 & H2). destruct (IH _ _ H2) as [I1 I2]. unfold add_loop_step in H1.
  apply res_bind_inv in H1 as (d & _ & H1). apply res_bind_inv in H1 as (e & _ & H1). apply res_bind_inv in H1 as (p & Ep & H1).
  pose proof (add_test_tally _ _ _ _ _ _ Ep) as T.
  assert (E1 : al_stats a1 = p.1 ∧ al_planned a1 = testsplanned_skip (al_planned a) (lt_name t)) by (res_inv; done).
  destruct E1 as [E1 E2]. split; [|rewrite I2, E2; done]. intros k name. rewrite I1, E1, T. unfold results. cbn [foldr]. lia.
Qed.

(** *** The plan *)

Definition emit (w : string) : list string := if String.eqb w "" then [] else [w].
(** The words of a text, separated by white space. *)
Fixpoint words_from (w s : string) : list string :=
  match s with
  | EmptyString => emit w
  | String c s' => if iswhitespace c then emit w ++ words_from "" s' else words_from (w +:+ String c "") s'
  end.
Definition words (s : string) : list string := words_from "" s.

Lemma words_skip s : words (skip_chars iswhitespace s) = words s.
Proof.
  induction s as [|c s IH]; [done|]. cbn [skip_chars]. unfold words at 2. cbn [words_from]. destruct (iswhitespace c) eqn:E; [done|].
  unfold words. cbn [words_from]. by rewrite E.
Qed.

Lemma string_app_cons w c s : (w +:+ String c "") +:+ s = w +:+ String c s.
Proof. induction w as [|a w IH]; [done|]. cbn. by rewrite IH. Qed.
Lemma string_app_nil w : w +:+ "" = w.
Proof. induction w as [|a w IH]; [done|]. cbn. by rewrite IH. Qed.

Lemma words_split w s :
  words_from w s = emit (w +:+ (split_word iswhitespace s).1) ++ words (split_word iswhitespace s).2.
Proof.
  revert w. induction s as [|c s IH]; intros w; cbn [words_from split_word].
  - cbn [fst snd]. rewrite string_app_nil. unfold words. cbn. by rewrite app_nil_r.
  - destruct (iswhitespace c) eqn:E; cbn [fst snd].
    + rewrite string_app_nil. f_equal. unfold words. cbn [words_from]. by rewrite E.
    + rewrite IH. destruct (split_word iswhitespace s) as [v r]. cbn [fst snd]. by rewrite string_app_cons.
Qed.

Lemma split_word_nonempty c s : iswhitespace c = false → (split_word iswhitespace (String c s)).1 ≠ "".
Proof. intros H. cbn [split_word]. rewrite H. by destruct (split_word iswhitespace s). Qed.

(** The first word and the rest. *)
Lemma words_unfold s :
  words s = match skip_chars iswhitespace s with
            | EmptyString => []
            | s' => (split_word iswhitespace s').1 :: words (split_word iswhitespace s').2
            end.
Proof.
  rewrite <- words_skip. destruct (skip_chars iswhitespace s) as [|c s'] eqn:E; [done|].
  assert (Hc : iswhitespace c = false).
  { clear -E. revert E. induction s as [|a s IH]; cbn [skip_chars]; [done|]. destruct (iswhitespace a) eqn:Ea; [done|]. by intros [= <- <-]. }
  unfold words at 1. rewrite words_split. change ("" +:+ ?x) with x. unfold emit.
  destruct (String.eqb_spec (split_word iswhitespace (String c s')).1 ""); [by destruct (split_word_nonempty c s' Hc)|done].
Qed.

Lemma split_word_length p s : (String.length (split_word p s).2 ≤ String.length s)%nat.
Proof. induction s as [|c s IH]; [done|]. cbn [split_word]. destruct (p c); [done|]. destruct (split_word p s). cbn in *. lia. Qed.
Lemma skip_chars_length p s : (String.length (skip_chars p s) ≤ String.length s)%nat.
Proof. induction s as [|c s IH]; [done|]. cbn [skip_chars]. destruct (p c); cbn in *; lia. Qed.

(** One more word is consumed, with room to spare. *)
Lemma split_word_shorter c s : iswhitespace c = false →
  (String.length (split_word iswhitespace (String c s)).2 < String.length (String c s))%nat.
Proof. intros H. cbn [split_word]. rewrite H. pose proof (split_word_length iswhitespace s). destruct (split_word iswhitespace s). cbn in *. lia. Qed.

Lemma skip_chars_head s c s' : skip_chars iswhitespace s = String c s' → iswhitespace c = false.
Proof. induction s as [|a s IH]; cbn [skip_chars]; [done|]. destruct (iswhitespace a) eqn:Ea; [done|]. by intros [= <- <-]. Qed.

Lemma unreached_tally fuel st text st' : (String.length text < fuel)%nat → unreached_loop fuel st text = Ret st' →
  ∀ k name, tally (tests st') k name =
    tally (tests st) k name + (if decide (k = unreached) then occurrences name (words text) else 0).
Proof.
  revert st text. induction fuel as [|fuel IH]; intros st text Hf H k name; [lia|]. cbn [unreached_loop] in H.
  rewrite words_unfold. destruct (skip_chars iswhitespace text) as [|c w] eqn:E.
  { injection H as <-. unfold occurrences. cbn [foldr]. destruct (decide _); lia. }
  cbv iota. pose proof (skip_chars_head _ _ _ E) as Hc. pose proof (skip_chars_length iswhitespace text) as Hl. rewrite E in Hl.
  pose proof (split_word_shorter c w Hc) as Hs. destruct (split_word iswhitespace (String c w)) as [word rest] eqn:Ew. cbn [fst snd] in *.
  pose proof (get_test_tally st word) as G. destruct (minixtest_stats_get_test st word) as [i s0]. cbn [fst snd] in G.
  apply res_bind_inv in H as (s1 & E1 & H). destruct (G k name) as (G1 & Gi & _ & Gk & _).
  destruct (count_one s0 i unreached word s1 _ count_unreached_counter Gi Gk E1) as [C1 _].
  rewrite (IH s1 rest) by (done || lia). rewrite C1, G1, Ew. cbn [fst snd]. unfold single, occurrences. cbn [foldr].
  destruct (decide (k = unreached)); lia.
Qed.

(** Skipping the name of the test that was run. *)
Lemma planned_skip s test ws : words s = test :: ws → ∃ rest, testsplanned_skip (Some s) test = Some rest ∧ words rest = ws.
Proof.
  rewrite words_unfold. unfold testsplanned_skip. destruct (skip_chars iswhitespace s) as [|c s']; [done|].
  destruct (split_word iswhitespace (String c s')) as [w rest]. cbn [fst snd]. intros [= -> <-]. rewrite String.eqb_refl. by exists rest.
Qed.

Lemma planned_skips ts s ws : words s = ts ++ ws → ∃ rest, foldl testsplanned_skip (Some s) ts = Some rest ∧ words rest = ws.
Proof.
  revert s. induction ts as [|t ts IH]; intros s H; [by exists s|]. destruct (planned_skip s t (ts ++ ws) H) as (r & Hr & Hw).
  cbn [foldl]. rewrite Hr. by apply IH.
Qed.

Lemma start_run_tests st s p : start_run st s = Ret p → tests (al_stats p.1) = tests st ∧ al_planned p.1 = testsplanned s.
Proof.
  intros H. unfold start_run in H. apply res_bind_inv in H as (fo & _ & H). apply res_bind_inv in H as (s1 & E1%on_phase_tests & H).
  apply res_bind_inv in H as (s2 & E2%on_phase_tests & [= <-]). cbn [fst al_stats al_planned]. by rewrite E2, E1.
Qed.

(** C24: every planned test is counted.  In a run whose tests are the first ones of
    its plan, each name's counters of passed, failed and crashed tests grow by the
    number of its tests with that result, and the counter of unreached tests by
    the number of times it occurs in the rest of the plan: together, by its
    occurrences in the plan.  The scan of the plan always ends. *)
Theorem planned_tests_counted st s pretest_count naive_mode st' c plan rest :
  testsplanned s = Some plan → words plan = (lt_name <$> s_tests s) ++ rest →
  minixtest_stats_add st s pretest_count naive_mode = Ret (st', c) →
  ∀ name,
    (∀ r, tally (tests st') (ended r) name = tally (tests st) (ended r) name + results (s_tests s) (ended r) name) ∧
    tally (tests st') unreached name = tally (tests st) unreached name + occurrences name rest ∧
    results (s_tests s) (ended mts_passed) name + results (s_tests s) (ended mts_failed) name +
      results (s_tests s) (ended mts_running) name + occurrences name rest = occurrences name (words plan).
Proof.
  intros Hplan Hw H name. unfold minixtest_stats_add in H.
  apply res_bind_inv in H as ([a0 fo] & E0 & H). apply start_run_tests in E0 as [T0 P0]. cbn [fst] in *.
  apply res_bind_inv in H as (a & Ea & H). apply loop_tally in Ea as [T1 P1].
  apply res_bind_inv in H as (s2 & E2%on_phase_tests & H). apply res_bind_inv in H as (s3 & E3 & H).
  apply res_bind_inv in H as (s4 & E4%on_phase_tests & H). apply res_bind_inv in H as (s5 & E5%on_phase_tests & H).
  apply res_bind_inv in H as (r & _ & H). apply res_bind_inv in H as (s6 & E6%on_phase_tests & H).
  apply res_bind_inv in H as (cl & _ & H). apply res_bind_inv in H as (n & _ & H). apply res_bind_inv in H as (w & _ & H).
  apply res_bind_inv in H as (ms & _ & H). apply res_bind_inv in H as (s8 & E8%on_phase_tests & [= <- <-]).
  assert (E : tests s8 = tests s3) by (rewrite E8; cbn [set_measured set_classification tests]; by rewrite E6, E5, E4).
  rewrite P0, Hplan in P1. destruct (planned_skips _ _ _ Hw) as (t & Ht & Hrest). rewrite Ht in P1.
  unfold minixtest_stats_add_tests_unreached in E3. rewrite P1 in E3.
  pose proof (unreached_tally _ _ _ _ (Nat.lt_succ_diag_r _) E3) as T3. rewrite Hrest in T3.
  split_and!.
  - intros r0. rewrite E, T3, E2, T1, T0. destruct (decide _); [done|lia].
  - rewrite E, T3, E2, T1, T0, decide_True by done.
    assert (Hr : results (s_tests s) unreached name = 0) by (clear; unfold results; induction (s_tests s) as [|x l IH]; [done|]; cbn [foldr]; by rewrite IH).
    lia.
  - rewrite Hw. clear. unfold results, occurrences. induction (s_tests s) as [|x l IH]; [cbn; lia|]. rewrite fmap_cons. cbn [app foldr].
    rewrite <- IH. unfold single. destruct (lt_status x); repeat case_decide; simplify_eq; destruct (String.eqb name _); lia.
Qed.

Lemma planned_tests_counted_witness :
  ∃ st c, minixtest_stats_add minixtest_stats_zero (run_image demo_whole) 0 false = Ret (st, c) ∧
    tally (tests st) (ended mts_passed) "t1" = 1 ∧ tally (tests st) unreached "t3" = 1.
Proof.
  assert (Hr : is_ret (minixtest_stats_add minixtest_stats_zero (run_image demo_whole) 0 false) = true) by (vm_compute; reflexivity).
  destruct (minixtest_stats_add minixtest_stats_zero (run_image demo_whole) 0 false) as [[st c]|f] eqn:E; [|done].
  exists st, c. split; [done|].
  pose proof (planned_tests_counted minixtest_stats_zero (run_image demo_whole) 0 false st c "t1 t2 t3" ["t3"] eq_refl eq_refl E) as H.
  destruct (H "t1") as [H1 _], (H "t3") as (_ & H3 & _). rewrite H1, H3. split; vm_compute; reflexivity.
Defined.

(** ** Classification *)

Definition passed (t : log_test) : bool := bool_decide (lt_status t = mts_passed).
Definition countb {A} (p : A → bool) (l : list A) : Z := foldr (λ x z, (if p x then 1 else 0) + z) 0 l.
Definition total_starts (s : summary) : Z := foldr (λ m z, lm_recoveries m ls_start lm_generic + z) 0 (s_modules s).
Definition test_starts (t : log_test) : Z := foldr (λ m z, tm_recoveries m ls_start lm_generic + z) 0 (lt_modules t).
Definition pretest_starts (ts : list log_test) : Z := foldr (λ t z, test_starts t + z) 0 ts.

Lemma classify_modules_spec naive l a a' : res_foldl (classify_module naive) a l = Ret a' →
  a'.1.1 = a.1.1 + foldr (λ m z, lm_recoveries m ls_start lm_generic + z) 0 l ∧
  a'.1.2 = a.1.2 || existsb (λ m, shut_down (lm_recoveries m)) l ∧
  a'.2 = a.2 || naive && existsb (λ m, 0 <? lm_recoveries m ls_shutdown lm_deadlock) l.
Proof.
  revert a. induction l as [|m l IH]; intros [[n sh] dl] H; cbn [res_foldl] in H.
  - injection H as <-. cbn. by rewrite Z.add_0_r, andb_false_r, !orb_false_r.
  - apply res_bind_inv in H as (a1 & H1 & H2). cbn [classify_module] in H1. apply res_bind_inv in H1 as (n' & Hn & [= <-]).
    apply chk32_inv in Hn as [-> _]. destruct (IH _ H2) as (I1 & I2 & I3). cbn [fst snd foldr existsb] in *.
    rewrite I1, I2, I3. split_and!; [lia|by rewrite orb_assoc|]. by destruct dl, naive, (0 <? _).
Qed.

Lemma recovery_sum l n n' : res_foldl (λ n m, chk32 (n + tm_recoveries m ls_start lm_generic)) n l = Ret n' →
  n' = n + foldr (λ m z, tm_recoveries m ls_start lm_generic + z) 0 l.
Proof.
  revert n. induction l as [|m l IH]; intros n H; cbn [res_foldl] in H; [injection H as <-; cbn; lia|].
  apply res_bind_inv in H as (n1 & H1 & H2). apply chk32_inv in H1 as [-> _]. rewrite (IH _ H2). cbn [foldr]. lia.
Qed.

Lemma classify_tests_spec pc ts c c' : res_foldl (classify_test pc) c ts = Ret c' →
  let early := take (Z.to_nat (pc - testindex c)) ts in
  cl_failed c' = cl_failed c + countb (λ t, negb (passed t)) ts ∧
  pretest_passed c' = pretest_passed c + countb passed early ∧
  pretest_recovery c' = pretest_recovery c + pretest_starts early.
Proof.
  revert c. induction ts as [|t ts IH]; intros c H; cbn [res_foldl] in H.
  { injection H as <-. rewrite take_nil. cbn. lia. }
  apply res_bind_inv in H as (c1 & H1 & H2). specialize (IH _ H2). cbv zeta in *. unfold classify_test in H1.
  apply res_bind_inv in H1 as (pf & Hpf & H1). apply res_bind_inv in H1 as (r & Hr & H1).
  apply res_bind_inv in H1 as (i & Hi & [= <-]). apply chk32_inv in Hi as [-> _]. cbn [cl_failed pretest_passed pretest_recovery testindex] in IH.
  destruct IH as (I1 & I2 & I3). rewrite I1, I2, I3. unfold countb, pretest_starts, passed in *.
  assert (Hpf' : pf.1 = pretest_passed c + (if (testindex c <? pc) && bool_decide (lt_status t = mts_passed) then 1 else 0) ∧
                 pf.2 = cl_failed c + (if bool_decide (lt_status t = mts_passed) then 0 else 1)).
  { destruct (decide (lt_status t = mts_passed)) as [E|E].
    - rewrite bool_decide_true by done. apply res_bind_inv in Hpf as (q & Hq & [= <-]). cbn [fst snd].
      destruct (testindex c <? pc); [apply chk32_inv in Hq as [-> _]|injection Hq as <-]; cbn [andb]; split; lia.
    - rewrite bool_decide_false by done. apply res_bind_inv in Hpf as (q & Hq & [= <-]). apply chk32_inv in Hq as [-> _].
      cbn [fst snd]. rewrite andb_false_r. lia. }
  destruct Hpf' as [-> ->].
  assert (Hr' : r = pretest_recovery c + if testindex c <? pc then test_starts t else 0).
  { destruct (testindex c <? pc); [by apply recovery_sum in Hr|injection Hr as <-; lia]. }
  rewrite Hr'. destruct (Z.ltb_spec (testindex c) pc) as [Hlt|Hge].
  - replace (Z.to_nat (pc - testindex c)) with (S (Z.to_nat (pc - (testindex c + 1)))) by lia. cbn [take foldr andb].
    destruct (bool_decide _); cbn [negb]; lia.
  - replace (Z.to_nat (pc - testindex c)) with 0%nat by lia. replace (Z.to_nat (pc - (testindex c + 1))) with 0%nat by lia.
    rewrite !take_0. cbn [foldr andb]. destruct (bool_decide _); cbn [negb]; lia.
Qed.

(** What the classes mean. *)
Record class_spec (s : summary) (pretest_count : Z) (naive_mode : bool) (c : run_classification) : Prop := {
  cs_success : outcome c = ro_success ↔
    (∀ m k, m ∈ s_modules s → lm_recoveries m ls_shutdown k ≤ 0) ∧ status_reset s = false ∧ s_signal s ≤ 0 ∧
    stage mtls_tests_complete ≤ stage (s_status s) ∧ Forall (λ t, lt_status t = mts_passed) (s_tests s);
  cs_shutdown : outcome c = ro_shutdown → ∃ m k, m ∈ s_modules s ∧ 0 < lm_recoveries m ls_shutdown k;
  cs_failed : outcome c = ro_failed →
    stage mtls_tests_complete ≤ stage (s_status s) ∧ ∃ t, t ∈ s_tests s ∧ lt_status t ≠ mts_passed;
  cs_pretest : pretest c = true ↔
    pretest_count ≤ Z.of_nat (length (s_tests s)) ∧ Forall (λ t, lt_status t = mts_passed) (take (Z.to_nat pretest_count) (s_tests s));
  cs_recovery : recovery c = true ↔ pretest_starts (take (Z.to_nat pretest_count) (s_tests s)) < total_starts s;
}.

Lemma countb_bounds {A} (p : A → bool) l : 0 ≤ countb p l ≤ Z.of_nat (length l).
Proof. unfold countb. induction l as [|x l IH]; [cbn; lia|]. cbn [foldr length]. destruct (p x); lia. Qed.

Lemma countb_0 {A} (p : A → bool) l : countb p l = 0 ↔ Forall (λ x, p x = false) l.
Proof.
  induction l as [|x l IH]; [split; [constructor|done]|]. pose proof (countb_bounds p l). rewrite Forall_cons, <- IH.
  unfold countb in *. cbn [foldr]. destruct (p x); lia.
Qed.

Lemma countb_all {A} (p : A → bool) l : countb p l = Z.of_nat (length l) ↔ Forall (λ x, p x = true) l.
Proof.
  induction l as [|x l IH]; [split; [constructor|done]|]. pose proof (countb_bounds p l). rewrite Forall_cons, <- IH.
  unfold countb in *. cbn [foldr length]. destruct (p x); lia.
Qed.

Lemma shut_down_spec r : shut_down r = true ↔ ∃ k, 0 < r ls_shutdown k.
Proof.
  unfold shut_down. rewrite existsb_exists. split; [intros (k & _ & Hk%Z.ltb_lt); by exists k|].
  intros [k Hk]. exists k. split; [|by apply Z.ltb_lt]. destruct k; cbn; tauto.
Qed.

Lemma all_passed ts : countb (λ t, negb (passed t)) ts = 0 ↔ Forall (λ t, lt_status t = mts_passed) ts.
Proof.
  rewrite countb_0. split; intros H; (eapply Forall_impl; [exact H|]); intros t; unfold passed;
    rewrite negb_false_iff, bool_decide_eq_true; done.
Qed.

Lemma run_classify_spec s pc naive c : run_classify s pc naive = Ret c → class_spec s pc naive c.
Proof.
  intros H. unfold run_classify in H. apply res_bind_inv in H as ([[n sh] dl] & Ha & H). apply res_bind_inv in H as (c1 & Hc & [= <-]).
  apply classify_modules_spec in Ha as (A1 & A2 & A3). cbn [fst snd orb] in A1, A2, A3.
  apply classify_tests_spec in Hc. cbv zeta in Hc. cbn [cl_failed pretest_passed pretest_recovery testindex] in Hc.
  rewrite Z.sub_0_r, !Z.add_0_l in Hc. destruct Hc as (C1 & C2 & C3).
  assert (Hsh : sh = true ↔ ∃ m k, m ∈ s_modules s ∧ 0 < lm_recoveries m ls_shutdown k).
  { rewrite A2, existsb_exists. split.
    - intros (m & Hm & Hs). apply shut_down_spec in Hs as [k Hk]. exists m, k. by rewrite list_elem_of_In.
    - intros (m & k & Hm & Hk). exists m. rewrite <- list_elem_of_In. split; [done|]. apply shut_down_spec. by exists k. }
  assert (Hdl : dl = true → sh = true).
  { rewrite A3, andb_true_iff, existsb_exists, Hsh. intros (_ & m & Hm & Hk%Z.ltb_lt). exists m, lm_deadlock. by rewrite list_elem_of_In. }
  pose proof (countb_bounds (λ t, negb (passed t)) (s_tests s)) as Hb.
  constructor; cbn [outcome pretest recovery]; change (stage mtls_tests_complete) with 8 in *.
  - rewrite <- all_passed. destruct dl; [rewrite (Hdl eq_refl) in Hsh; split; [done|]; intros (Hn & _); destruct (proj1 Hsh eq_refl) as (m & k & Hm & Hk); specialize (Hn m k Hm); lia|].
    destruct sh; [split; [done|]; intros (Hn & _); destruct (proj1 Hsh eq_refl) as (m & k & Hm & Hk); specialize (Hn m k Hm); lia|].
    assert (Hn : ∀ m k, m ∈ s_modules s → lm_recoveries m ls_shutdown k ≤ 0).
    { intros m k Hm. destruct (Z.le_gt_cases (lm_recoveries m ls_shutdown k) 0); [done|]. assert (false = true); [|done]. apply Hsh. by exists m, k. }
    rewrite C1. destruct (status_reset s), (Z.ltb_spec 0 (s_signal s)), (Z.ltb_spec (stage (s_status s)) 8),
      (Z.ltb_spec 0 (countb (λ t, negb (passed t)) (s_tests s))); 
      (split; [intros Ho|intros (X1 & X2 & X3 & X4 & X5)]); try (exfalso; (congruence || lia)); try done; split_and!; done || lia.
  - intros Ho. apply Hsh. destruct dl; [done|]. destruct sh; [done|]. repeat (case_match; try done).
  - intros Ho. destruct dl, sh, (status_reset s), (0 <? s_signal s); try done.
    destruct (Z.ltb_spec (stage (s_status s)) 8); [done|]. split; [lia|].
    destruct (Z.ltb_spec 0 (cl_failed c1)) as [Hf|]; [|done]. rewrite C1 in Hf.
    destruct (decide (Forall (λ t, lt_status t = mts_passed) (s_tests s))) as [Hall|Hall]; [apply all_passed in Hall; lia|].
    apply not_Forall_Exists in Hall; [|apply _]. by apply Exists_exists in Hall as (t & Ht & Hp); exists t.
  - rewrite Z.leb_le, C2. pose proof (countb_bounds passed (take (Z.to_nat pc) (s_tests s))) as Hp. rewrite length_take in Hp.
    assert (Hall : Forall (λ t, passed t = true) (take (Z.to_nat pc) (s_tests s)) ↔ Forall (λ t, lt_status t = mts_passed) (take (Z.to_nat pc) (s_tests s))).
    { split; intros H; (eapply Forall_impl; [exact H|]); intros t; unfold passed; by rewrite bool_decide_eq_true. }
    rewrite <- Hall, <- countb_all, length_take. lia.
  - rewrite Z.ltb_lt, C3, A1, Z.add_0_l. done.
Qed.

Definition run_class (r : summary * Z * bool) : res run_classification := run_classify r.1.1 r.1.2 r.2.
Definition has_class (c : run_classification) (r : summary * Z * bool) : bool :=
  match run_class r with Ret q => bool_decide (q = c) | Stop _ => false end.

Lemma on_phase_classification ph f st st' : on_phase ph f st = Ret st' → classification st' = classification st ∧ measured st' = measured st.
Proof. intros H. unfold on_phase in H. by apply res_bind_inv in H as (t & _ & [= <-]). Qed.

(** What does not touch the table of classes and the counters of tests. *)
Definition same_tables (st st' : minixtest_stats) : Prop := classification st' = classification st ∧ measured st' = measured st.

Lemma same_tables_trans st1 st2 st3 : same_tables st1 st2 → same_tables st2 st3 → same_tables st1 st3.
Proof. unfold same_tables. intros [-> ->] [-> ->]. done. Qed.
Lemma on_test_tables i f st st' : on_stats_test i f st = Ret st' → same_tables st st'.
Proof. intros H. unfold on_stats_test in H. by apply res_bind_inv in H as (l & _ & [= <-]). Qed.

Lemma module_tables st i fo next m is_first p :
  minixtest_stats_add_test_module st i fo next m is_first = Ret p → same_tables st p.1.
Proof.
  intros H. unfold minixtest_stats_add_test_module in H.
  apply res_bind_inv in H as (s1 & E1%on_test_tables & H). apply res_bind_inv in H as (s2 & E2%on_phase_classification & H).
  apply res_bind_inv in H as (s3 & E3%on_phase_classification & H). apply res_bind_inv in H as (s4 & E4 & H).
  apply res_bind_inv in H as (s5 & E5 & H). apply res_bind_inv in H as (r & _ & [= <-]). cbn [fst].
  eapply same_tables_trans; [exact E1|]. eapply same_tables_trans; [exact E2|]. eapply same_tables_trans; [exact E3|].
  apply (same_tables_trans _ s4).
  - destruct next as [t|]; [|by injection E4 as <-]. unfold minixtest_stats_add_test_module_diff in E4.
    destruct (find_module t (tm_name m)) as [nm|]; [|by injection E4 as <-]. destruct (negb _); [by injection E4 as <-|].
    apply res_bind_inv in E4 as (d & _ & E4). apply res_bind_inv in E4 as (s6 & E5'%on_phase_classification & E6%on_phase_classification).
    by eapply same_tables_trans.
  - destruct is_first; [|by injection E5 as <-].
    apply res_bind_inv in E5 as (t & E5%on_phase_classification & E6%on_phase_classification). by eapply same_tables_trans.
Qed.

Lemma modules_tables l st i fo next is_first p :
  res_foldl (λ p m, minixtest_stats_add_test_module p.1 i p.2 next m is_first) (st, fo) l = Ret p → same_tables st p.1.
Proof.
  revert st fo. induction l as [|m l IH]; intros st fo H; [by injection H as <-|]. cbn [res_foldl] in H.
  apply res_bind_inv in H as ([st1 fo1] & E & H). apply module_tables in E. eapply same_tables_trans; [exact E|]. by eapply IH.
Qed.

Lemma loop_tables ts a a' is_first : add_tests_loop a ts is_first = Ret a' →
  same_tables (al_stats a) (al_stats a') ∧
  al_passed a' = al_passed a + countb (λ t, bool_decide (lt_status t = mts_passed)) ts ∧
  al_failed a' = al_failed a + countb (λ t, bool_decide (lt_status t = mts_failed)) ts.
Proof.
  revert a is_first. induction ts as [|t ts IH]; intros a is_first H; cbn [add_tests_loop] in H.
  { injection H as <-. cbn. by rewrite !Z.add_0_r. }
  apply res_bind_inv in H as (a1 & H1 & H2). destruct (IH _ _ H2) as (I1 & I2 & I3). unfold add_loop_step in H1.
  apply res_bind_inv in H1 as (d & _ & H1). apply res_bind_inv in H1 as (e & _ & H1). apply res_bind_inv in H1 as (p & Ep & H1).
  apply res_bind_inv in H1 as (st1 & _ & H1). apply res_bind_inv in H1 as (np & Hp & H1). apply res_bind_inv in H1 as (nf & Hf & H1).
  apply res_bind_inv in H1 as (nc & _ & [= <-]). cbn [al_stats al_passed al_failed] in *.
  assert (Hc : ∀ (s : minix_test_status) v w, (if decide (lt_status t = s) then chk32 (v + 1) else Ret v) = Ret w →
    w = v + (if bool_decide (lt_status t = s) then 1 else 0)).
  { intros s v w. destruct (decide (lt_status t = s)); [rewrite bool_decide_true by done; by intros [-> _]%chk32_inv|].
    rewrite bool_decide_false by done. intros [= <-]. lia. }
  apply Hc in Hp, Hf. rewrite I2, I3, Hp, Hf. unfold countb. cbn [foldr]. split_and!; [|lia|lia].
  eapply same_tables_trans; [|exact I1]. unfold minixtest_stats_add_test in Ep.
  destruct (minixtest_stats_get_test (al_stats a) (lt_name t)) as [i s0] eqn:Eg.
  assert (G : same_tables (al_stats a) s0) by (unfold minixtest_stats_get_test, find_or_add in Eg; by injection Eg as <- <-).
  apply res_bind_inv in Ep as (s1 & E1%on_test_tables & Ep). apply res_bind_inv in Ep as (s2 & E2%on_test_tables & Ep).
  apply res_bind_inv in Ep as ([s3 fo] & E3%modules_tables & Ep). apply res_bind_inv in Ep as (s4 & E4%on_test_tables & Ep).
  apply res_bind_inv in Ep as (r & _ & [= <-]). cbn [fst] in *.
  eapply same_tables_trans; [exact G|]. eapply same_tables_trans; [exact E1|]. eapply same_tables_trans; [exact E2|].
  by eapply same_tables_trans.
Qed.

Lemma unreached_tables fuel st text st' : unreached_loop fuel st text = Ret st' → same_tables st st'.
Proof.
  revert st text. induction fuel as [|fuel IH]; intros st text H; cbn [unreached_loop] in H; [done|].
  destruct (skip_chars iswhitespace text) as [|c w]; [by injection H as <-|]. destruct (split_word iswhitespace (String c w)) as [word rest].
  destruct (minixtest_stats_get_test st word) as [i s0] eqn:Eg.
  assert (G : same_tables st s0) by (unfold minixtest_stats_get_test, find_or_add in Eg; by injection Eg as <- <-).
  apply res_bind_inv in H as (s1 & E1%on_test_tables & H). eapply same_tables_trans; [exact G|]. eapply same_tables_trans; [exact E1|]. by eapply IH.
Qed.

(** The tables after a run. *)
Lemma run_tables st s pc naive st' c : minixtest_stats_add st s pc naive = Ret (st', c) →
  run_classify s pc naive = Ret c ∧
  (∀ q, classification st' q = classification st q + if bool_decide (q = c) then 1 else 0) ∧
  ∃ planned started crashed, wordcount (testsplanned s) = Ret planned ∧
    add_measures (measured st) planned started (countb (λ t, bool_decide (lt_status t = mts_passed)) (s_tests s))
      (countb (λ t, bool_decide (lt_status t = mts_failed)) (s_tests s)) crashed = Ret (measured st').
Proof.
  intros H. unfold minixtest_stats_add in H. apply res_bind_inv in H as ([a0 fo] & E0 & H).
  assert (T0 : same_tables st (al_stats a0) ∧ al_passed a0 = 0 ∧ al_failed a0 = 0).
  { unfold start_run in E0. apply res_bind_inv in E0 as (f & _ & E0). apply res_bind_inv in E0 as (s1 & E1%on_phase_classification & E0).
    apply res_bind_inv in E0 as (s2 & E2%on_phase_classification & [= <- <-]). cbn [al_stats al_passed al_failed]. split; [|done].
    by apply (same_tables_trans _ s1). }
  destruct T0 as (T0 & P0 & F0). apply res_bind_inv in H as (a & Ea & H). apply loop_tables in Ea as (T1 & P1 & F1).
  apply res_bind_inv in H as (s2 & E2%on_phase_classification & H). apply res_bind_inv in H as (s3 & E3 & H).
  assert (T3 : same_tables s2 s3).
  { unfold minixtest_stats_add_tests_unreached in E3. destruct (al_planned a); [by eapply unreached_tables|by injection E3 as <-]. }
  apply res_bind_inv in H as (s4 & E4%on_phase_classification & H). apply res_bind_inv in H as (s5 & E5%on_phase_classification & H).
  apply res_bind_inv in H as (r & _ & H). apply res_bind_inv in H as (s6 & E6%on_phase_classification & H).
  apply res_bind_inv in H as (cl & Hcl & H). apply res_bind_inv in H as (n & Hn & H). apply res_bind_inv in H as (w & Hw & H).
  apply res_bind_inv in H as (ms & Hms & H). apply res_bind_inv in H as (s8 & E8%on_phase_classification & [= <- <-]).
  assert (T6 : same_tables st s6).
  { do 6 (eapply same_tables_trans; [eassumption|]). done. }
  destruct T6 as [T6 M6]. destruct E8 as [E8 M8]. cbn [set_measured set_classification classification measured] in E8, M8, Hms.
  apply chk32_inv in Hn as [-> _]. split_and!; [done| |].
  - intros q. rewrite E8, T6. destruct (decide (q = cl)) as [->|]; [by rewrite bool_decide_true|]. rewrite bool_decide_false by done. lia.
  - exists w, (al_started a), (al_crashed a). split; [done|]. rewrite M8, <- M6. rewrite P1, F1, P0, F0, !Z.add_0_l in Hms. done.
Qed.

(** The table of outcomes.  After any number of runs every entry of the
    classification table is the number of runs in its class, and the class of a
    run says what happened: success means that the tests were completed and all
    passed, without a reset, a signal or a shutdown by the recovery code; pretest,
    that the first tests all passed; recovery, that a recovery was started outside
    of these tests. *)
Theorem runs_classified runs st : add_runs minixtest_stats_zero runs = Ret st →
  (∀ c, classification st c = countb (has_class c) runs) ∧
  Forall (λ r, ∃ c, run_class r = Ret c ∧ class_spec r.1.1 r.1.2 r.2 c) runs.
Proof.
  intros H. enough (G : ∀ st0, add_runs st0 runs = Ret st → (∀ c, classification st c = classification st0 c + countb (has_class c) runs) ∧
    Forall (λ r, ∃ c, run_class r = Ret c ∧ class_spec r.1.1 r.1.2 r.2 c) runs).
  { destruct (G _ H) as [G1 G2]. split; [|done]. intros c. rewrite G1. done. }
  clear H. induction runs as [|r runs IH]; intros st0 H; unfold add_runs in H; cbn [res_foldl] in H.
  - injection H as <-. split; [intros c; cbn; lia|constructor].
  - apply res_bind_inv in H as (st1 & H1 & H2). apply res_bind_inv in H1 as ([st2 c] & Hp & [= <-]). cbn [fst] in H2.
    destruct (run_tables _ _ _ _ _ _ Hp) as (R1 & R2 & _). destruct (IH _ H2) as [I1 I2]. split.
    + intros q. rewrite I1, R2. unfold countb. cbn [foldr]. unfold has_class at 2, run_class. rewrite R1.
      destruct (decide (q = c)) as [->|Hne]; [rewrite !bool_decide_true by done|rewrite !bool_decide_false by congruence]; lia.
    + constructor; [|done]. exists c. split; [done|]. by apply run_classify_spec.
Qed.

Lemma runs_classified_witness :
  ∃ st, add_runs minixtest_stats_zero [(run_image demo_whole, 1, false); (run_image demo_whole, 2, false)] = Ret st ∧
    classification st {| outcome := ro_failed; pretest := true; recovery := false |} = 1.
Proof.
  assert (Hr : is_ret (add_runs minixtest_stats_zero [(run_image demo_whole, 1, false); (run_image demo_whole, 2, false)]) = true)
    by (vm_compute; reflexivity).
  destruct (add_runs minixtest_stats_zero _) as [st|f] eqn:E; [|done]. exists st. split; [done|].
  destruct (runs_classified _ st E) as [H _]. rewrite H. vm_compute. reflexivity.
Defined.

(** ** The number of unreached tests *)

Lemma count_not_nan z : 0 ≤ z < 2^31 → isnan (double_of_int z) = false.
Proof.
  intros Hz. destruct z as [|p|p]; [done| |lia]. by rewrite double_of_int_dyadic by (unfold fits; lia).
Qed.

Lemma stats_add_values st v st' : isnan v = false → stats_add st v = Ret st' → values st' = values st ++ [v].
Proof. intros Hv H. unfold stats_add in H. rewrite Hv in H. res_inv; done. Qed.

Lemma measure_counts_other l m m' q : q ∉ l.*1 → res_foldl measure_count m l = Ret m' → m' q = m q.
Proof.
  revert m. induction l as [|[k v] l IH]; intros m Hq H; cbn [res_foldl] in H; [by injection H as <-|].
  rewrite fmap_cons, not_elem_of_cons in Hq. destruct Hq as [Hk Hq]. apply res_bind_inv in H as (m1 & H1 & H2). rewrite (IH m1 Hq H2).
  unfold measure_count in H1. apply res_bind_inv in H1 as (w & _ & [= <-]). unfold set_measure. by rewrite decide_False.
Qed.

Lemma measure_counts_app l1 l2 k v m m' : res_foldl measure_count m (l1 ++ (k, v) :: l2) = Ret m' →
  k ∉ l1.*1 → k ∉ l2.*1 → 0 ≤ v < 2^31 → values (m' k) = values (m k) ++ [double_of_int v].
Proof.
  intros H H1 H2 Hv. rewrite res_foldl_app in H. apply res_bind_inv in H as (m1 & E1 & H). cbn [res_foldl] in H.
  apply res_bind_inv in H as (m2 & E2 & E3). rewrite (measure_counts_other l2 m2 m' k H2 E3), <- (measure_counts_other l1 m m1 k H1 E1).
  unfold measure_count in E2. apply res_bind_inv in E2 as (w & Hw & [= <-]). unfold set_measure. rewrite decide_True by done.
  by apply stats_add_values in Hw; [|by apply count_not_nan].
Qed.

Lemma measure_pcts_other l m m' q : q ∉ l.*1.*1 → res_foldl measure_pct m l = Ret m' → m' q = m q.
Proof.
  revert m. induction l as [|[[k v] w] l IH]; intros m Hq H; cbn [res_foldl] in H; [by injection H as <-|].
  rewrite !fmap_cons, not_elem_of_cons in Hq. destruct Hq as [Hk Hq]. apply res_bind_inv in H as (m1 & H1 & H2). rewrite (IH m1 Hq H2).
  unfold measure_pct in H1. apply res_bind_inv in H1 as (x & _ & [= <-]). unfold set_measure. by rewrite decide_False.
Qed.

(** The statistics of unreached tests repeat those of completed tests.  Adding a
    run appends to [test_cnt_unreached] the number of tests that passed or failed,
    the value that is appended to [test_cnt_completed], whatever was planned. *)
Theorem unreached_counts_completed st s pretest_count naive_mode st' c :
  minixtest_stats_add st s pretest_count naive_mode = Ret (st', c) →
  let completed := countb (λ t, bool_decide (lt_status t = mts_passed)) (s_tests s) +
                   countb (λ t, bool_decide (lt_status t = mts_failed)) (s_tests s) in
  values (measured st' test_cnt_unreached) = values (measured st test_cnt_unreached) ++ [double_of_int completed] ∧
  values (measured st' test_cnt_completed) = values (measured st test_cnt_completed) ++ [double_of_int completed].
Proof.
  intros H completed. destruct (run_tables _ _ _ _ _ _ H) as (_ & _ & planned & started & crashed & _ & Hm).
  unfold add_measures in Hm. apply res_bind_inv in Hm as (x & Hx & Hm). apply res_bind_inv in Hm as (y & Hy & Hm).
  fold completed in Hx, Hy. apply chk32_inv in Hx as [-> Hr], Hy as [-> _].
  assert (Hc : 0 ≤ completed).
  { unfold completed. pose proof (countb_bounds (λ t, bool_decide (lt_status t = mts_passed)) (s_tests s)).
    pose proof (countb_bounds (λ t, bool_decide (lt_status t = mts_failed)) (s_tests s)). lia. }
  destruct (Z.ltb_spec completed 0); [lia|]. apply res_bind_inv in Hm as (m & H1 & H2).
  assert (N : ∀ q (l : list measure), bool_decide (q ∈ l) = false → q ∉ l) by (intros q l Hq; by apply bool_decide_eq_false in Hq).
  set (P := countb _ (s_tests s)) in H1 at 1. set (F := countb _ (s_tests s)) in H1 at 1.
  pose proof (λ q Hq, measure_pcts_other _ _ _ q Hq H2) as HP. split.
  - rewrite HP by (apply N; reflexivity).
    by apply (measure_counts_app [(test_cnt_planned, planned); (test_cnt_started, started); (test_cnt_completed, completed);
      (test_cnt_passed, P); (test_cnt_failed, F); (test_cnt_crashed, crashed)] [] _ _ _ _ H1); [apply N|apply N|lia].
  - rewrite HP by (apply N; reflexivity).
    by apply (measure_counts_app [(test_cnt_planned, planned); (test_cnt_started, started)]
      [(test_cnt_passed, P); (test_cnt_failed, F); (test_cnt_crashed, crashed); (test_cnt_unreached, completed)] _ _ _ _ H1);
      [apply N|apply N|lia].
Qed.

(** One of three planned tests is not reached, but two are counted. *)
Lemma unreached_counts_completed_witness :
  ∃ st c, minixtest_stats_add minixtest_stats_zero (run_image demo_whole) 0 false = Ret (st, c) ∧
    tally (tests st) unreached "t3" = 1 ∧ values (measured st test_cnt_unreached) = [double_of_int 2].
Proof.
  assert (Hr : match minixtest_stats_add minixtest_stats_zero (run_image demo_whole) 0 false with
               | Ret (st, c) => tally (tests st) unreached "t3" =? 1 | Stop _ => false end = true) by (vm_compute; reflexivity).
  destruct (minixtest_stats_add minixtest_stats_zero (run_image demo_whole) 0 false) as [[st c]|f] eqn:E; [|done].
  exists st, c. split; [done|]. split; [by apply Z.eqb_eq|].
  destruct (unreached_counts_completed _ _ _ _ _ _ E) as [H _]. rewrite H. reflexivity.
Defined.
