(* ===== verification/TestSafety.v ===== *)
(** * Safety of the statistics of test runs

    The invariant of the statistics of [minixteststats.c]: arrays of counts have
    the sizes of their programs, and samples hold what was added to them.  Adding
    a run keeps it, and the only fault that can occur is an [int] counter that
    overflows. *)

From Stdlib Require Import ZArith Lia Ascii String Floats.SpecFloat.
From stdpp Require Import base list numbers strings.
From S2P Require Import Prelude Decimal Double Helper Module Function Coverage LogParse LogReader TestLog Stats TestStats TestAccounts TestTally.

(** ** Safety *)

Definition sample_ok (st : stats) : Prop := ∃ added, stats_ok added st.

Lemma stats_zero_sample : sample_ok stats_zero.
Proof. exists []. apply stats_zero_ok. Qed.
#[local] Hint Resolve stats_zero_sample : osiris.

Lemma stats_add_safe st v : sample_ok st → safe (stats_add st v) sample_ok.
Proof.
  intros [added H]. destruct (stats_add_ok added st v H) as [H1 H2]. destruct (stats_add st v) as [st'|f] eqn:E; [|by apply H2].
  assert (Hn : stat_n st + 1 < 2^31 ∨ isnan v = true).
  { unfold stats_add in E. destruct (isnan v); [by right|left]. destruct (_ <=? _) in E; [|destruct (_ <=? _) in E]; res_inv;
      match goal with H : chk32 _ = Ret _ |- _ => apply chk32_inv in H as [_ H]; lia end. }
  cbn [safe]. destruct Hn as [Hn|Hn]; [destruct (H1 Hn) as (st2 & [= <-] & Hok); by eexists|].
  unfold stats_add in E. rewrite Hn in E. injection E as <-. by exists added.
Qed.

Lemma stats_add_pct_safe st a b : sample_ok st → safe (stats_add_pct st a b) sample_ok.
Proof. intros H. unfold stats_add_pct. destruct (0 <? b); [by apply stats_add_safe|done]. Qed.

Record faultstats_ok (f : faultstats) : Prop := {
  fk_act : sample_ok (fs_faultact f);
  fk_any : sample_ok (fs_faultactany f);
  fk_inj : sample_ok (fs_faultinj f);
  fk_rec : ∀ s m, sample_ok (fs_recoveries f s m);
  fk_recany : ∀ s m, sample_ok (fs_recoveryany f s m);
}.

Lemma faultstats_add_safe f fo : faultstats_ok f → safe (faultstats_add f fo) faultstats_ok.
Proof.
  intros [H1 H2 H3 H4 H5]. unfold faultstats_add.
  eapply safe_bind; [by apply stats_add_safe|]. intros a Ha. eapply safe_bind; [by apply stats_add_safe|]. intros b Hb.
  eapply safe_bind; [by apply stats_add_safe|]. intros c Hc.
  apply (safe_bind _ _ (λ r, (∀ s m, sample_ok (r.1 s m)) ∧ ∀ s m, sample_ok (r.2 s m))).
  - apply safe_foldl; [done|]. intros [r r'] [s m] _ [Hr Hr']. cbn [fst snd] in *. eapply safe_bind; [by apply stats_add_safe|]. intros x Hx.
    eapply safe_bind; [by apply stats_add_safe|]. intros y Hy. cbn [safe fst snd]. unfold set_at.
    split; intros s' m'; by destruct (decide _).
  - intros [r r'] [Hr Hr']. by constructor.
Qed.

Lemma recoveries_add_safe r r' f : safe (recoveries_add r r' f) (λ _, True).
Proof.
  unfold recoveries_add. apply safe_foldl; [done|]. intros a x _ _. eapply safe_bind; [apply safe_chk32|]. intros p _.
  eapply safe_bind; [apply safe_chk32|]. done.
Qed.

Section Safety.
Context (size : string → Z) (size_pos : ∀ b, 0 < size b).

Record test_stats_ok (t : stats_test) : Prop := {
  tk_modules : mods_ok size (st_modules t);
  tk_duration : sample_ok (st_duration t);
  tk_count : sample_ok (st_reported_count t);
  tk_rate : sample_ok (st_reported_rate t);
  tk_time : sample_ok (st_reported_time t);
  tk_faults : faultstats_ok (st_faultstats t);
}.

Record all_ok (st : minixtest_stats) : Prop := {
  ak_phases : ∀ ph, test_stats_ok (phases st ph);
  ak_tests : Forall test_stats_ok (tests st);
  ak_measured : ∀ k, sample_ok (measured st k);
}.
(** ... with this many tests. *)
Definition all_ok_n (len : nat) (st : minixtest_stats) : Prop := all_ok st ∧ length (tests st) = len.

Lemma new_test_ok name : test_stats_ok (new_stats_test name).
Proof. constructor; auto with osiris; [constructor|constructor; auto with osiris]. Qed.

Lemma on_phase_safe st ph k len : all_ok_n len st → (∀ t, test_stats_ok t → safe (k t) test_stats_ok) →
  safe (on_phase ph k st) (all_ok_n len).
Proof.
  intros [[H1 H2 H3] Hl] Hk. unfold on_phase. eapply safe_bind; [by apply Hk|]. intros t Ht. split; [|done]. constructor; try done.
  intros q. cbn [set_phase phases]. by destruct (decide _).
Qed.

Lemma on_test_safe st i k len : all_ok_n len st → (i < len)%nat → (∀ t, test_stats_ok t → safe (k t) test_stats_ok) →
  safe (on_stats_test i k st) (all_ok_n len).
Proof.
  intros [[H1 H2 H3] Hl] Hi Hk. unfold on_stats_test, update_at. destruct (tests st !! i) as [t|] eqn:Et; [|apply lookup_ge_None in Et; lia].
  apply (safe_bind _ _ (λ l, Forall test_stats_ok l ∧ length l = len)).
  - eapply safe_bind; [apply Hk; by eapply Forall_lookup_1|]. intros t' Ht. cbn [safe]. by rewrite length_insert; split; [apply Forall_insert|].
  - intros l [Hlo Hll]. split; [|done]. by constructor.
Qed.

Lemma get_test_ok st name : all_ok st →
  let r := minixtest_stats_get_test st name in all_ok_n (length (tests r.2)) r.2 ∧ (r.1 < length (tests r.2))%nat.
Proof.
  intros [H1 H2 H3] r. destruct (get_test_tally st name unreached "") as (_ & _ & Hi & _). fold r in Hi. split; [|done]. split; [|done].
  unfold r, minixtest_stats_get_test, find_or_add in *. cbn [snd]. constructor; [done| |done]. cbn [set_tests tests].
  destruct (_ <=? _)%nat; [|done]. apply Forall_app. split; [done|]. constructor; [apply new_test_ok|constructor].
Qed.

(** Changes of one test. *)
Lemma add_to_safe m bbs t : report_ok size m → (bbs = bbs_before m ∨ bbs = bbs_after m ∨ bbs = bbs_during m) → test_stats_ok t →
  safe (add_to (tm_name m) (tm_bb_count m) bbs t) test_stats_ok.
Proof.
  intros Hm Hb Ht. destruct Hm as [(Hs & H1 & H2 & H3)|(Hs & H1 & H2 & H3)].
  - rewrite Hs in *. unfold add_to.
    assert (Hsz : sized (size (upto_at (tm_name m))) bbs) by (by destruct Hb as [->|[->| ->]]).
    pose proof (stats_add_module_spec size size_pos (st_modules t) (tm_name m) bbs (tk_modules _ Ht) Hsz) as Ha.
    destruct (minixtest_stats_add_module _ _ _ _) as [l|]; cbn [res_bind safe]; [|done]. destruct Ha as [Ha _]. destruct Ht. by constructor.
  - assert (bbs = None) as -> by (destruct Hb as [->|[->| ->]]; done). unfold add_to. cbn [minixtest_stats_add_module res_bind safe].
    destruct Ht. by constructor.
Qed.

Lemma add_sized_safe name bbs t : sized (size (upto_at name)) bbs → test_stats_ok t →
  safe (add_to name (size (upto_at name)) bbs t) test_stats_ok.
Proof.
  intros Hsz Ht. unfold add_to. pose proof (stats_add_module_spec size size_pos (st_modules t) name bbs (tk_modules _ Ht) Hsz) as Ha.
  destruct (minixtest_stats_add_module _ _ _ _) as [l|]; cbn [res_bind safe]; [|done]. destruct Ha as [Ha _]. destruct Ht. by constructor.
Qed.

Lemma count_status_safe s t : test_stats_ok t → safe (count_status s t) test_stats_ok.
Proof. intros [? ? ? ? ? ?]. unfold count_status. destruct s; (eapply safe_bind; [apply safe_chk32|]; intros v _; by constructor). Qed.
Lemma count_unreached_safe t : test_stats_ok t → safe (count_unreached t) test_stats_ok.
Proof. intros [? ? ? ? ? ?]. unfold count_unreached. eapply safe_bind; [apply safe_chk32|]. intros v _. by constructor. Qed.
Lemma add_faultstats_safe fo t : test_stats_ok t → safe (add_faultstats fo t) test_stats_ok.
Proof. intros [? ? ? ? ? ?]. unfold add_faultstats. eapply safe_bind; [by apply faultstats_add_safe|]. intros v Hv. by constructor. Qed.

Lemma compute_duration_safe a b : timeval_ok a = true → timeval_ok b = true → safe (stats_compute_duration a b) (λ _, True).
Proof.
  unfold timeval_ok. intros [A1 A2]%andb_true_iff [B1 B2]%andb_true_iff. unfold stats_compute_duration, timeval_compare.
  destruct (timeval_is_zero a); [done|]. destruct (timeval_is_zero b); [done|]. rewrite A1, A2, B1, B2. cbn [res_bind].
  by destruct (0 <? _).
Qed.

Lemma add_duration_stats_safe d a b : timeval_ok a = true → timeval_ok b = true → sample_ok d → safe (stats_add_duration d a b) sample_ok.
Proof.
  intros Ha Hb Hd. unfold stats_add_duration. eapply safe_bind; [by apply compute_duration_safe|]. intros [[] x] _; cbn [fst snd]; [by apply stats_add_safe|done].
Qed.

Lemma add_duration_safe a b t : timeval_ok a = true → timeval_ok b = true → test_stats_ok t → safe (add_duration a b t) test_stats_ok.
Proof. intros Ha Hb [? ? ? ? ? ?]. unfold add_duration. eapply safe_bind; [by apply add_duration_stats_safe|]. intros v Hv. by constructor. Qed.
Lemma add_seconds_safe d t : test_stats_ok t → safe (add_seconds d t) test_stats_ok.
Proof. intros [? ? ? ? ? ?]. unfold add_seconds. eapply safe_bind; [by apply stats_add_safe|]. intros v Hv. by constructor. Qed.

Lemma add_reports_safe s t : timeval_ok (timestamp_start s) = true → timeval_ok (timestamp_end s) = true → test_stats_ok t →
  safe (add_reports s t) test_stats_ok.
Proof.
  intros Ha Hb [? ? ? ? ? ?]. unfold add_reports. eapply safe_bind; [by apply add_duration_stats_safe|]. intros d Hd.
  eapply safe_bind; [by apply stats_add_safe|]. intros c Hc. eapply safe_bind; [by apply stats_add_safe|]. intros r Hr.
  eapply safe_bind; [by apply stats_add_safe|]. intros v Hv. by constructor.
Qed.
(** A module of a test. *)
Lemma diff_safe st m t len : all_ok_n len st → report_ok size m → Forall (report_ok size) (lt_modules t) →
  safe (minixtest_stats_add_test_module_diff st m t) (all_ok_n len).
Proof.
  intros Hst Hm Ht. unfold minixtest_stats_add_test_module_diff. destruct (find_module t (tm_name m)) as [nm|] eqn:Ef; [|done].
  apply find_module_spec in Ef as [Hin Hname]. destruct (Z.eqb_spec (tm_bb_count nm) (tm_bb_count m)) as [Hc|]; cbn [negb]; [|done].
  assert (Hnm : report_ok size nm) by (rewrite Forall_forall in Ht; by apply Ht).
  destruct Hm as [(Hs & H1 & H2 & H3)|(Hs & H1 & H2 & H3)].
  - assert (Hb : sized (tm_bb_count m) (bbs_before nm)) by (destruct Hnm as [(_ & ? & _)|(_ & -> & _)]; [by rewrite <- Hc|done]).
    rewrite Hs in *. destruct (bbs_sub_spec _ _ _ (size_pos _) Hb H2) as (r & -> & Hr & _). cbn [res_bind].
    eapply safe_bind; [apply (on_phase_safe _ _ _ _ Hst); intros x Hx; by apply add_sized_safe|]. intros s1 Hs1.
    apply on_phase_safe; [done|]. intros x Hx. by apply add_sized_safe.
  - destruct Hnm as [(Hs' & _)|(_ & Hn1 & _)]; [pose proof (size_pos (upto_at (tm_name nm))); lia|]. rewrite Hs, Hn1, H2.
    unfold bbs_sub. cbn [res_bind Z.to_nat replicate alloc].
    assert (Hz : ∀ x, test_stats_ok x → safe (add_to (tm_name m) 0 None x) test_stats_ok) by (intros x [? ? ? ? ? ?]; by constructor).
    eapply safe_bind; [by apply (on_phase_safe _ _ _ _ Hst)|]. intros s1 Hs1. by apply on_phase_safe.
Qed.

Lemma module_safe st i fo next m is_first len : all_ok_n len st → (i < len)%nat → report_ok size m → next_ok size next →
  safe (minixtest_stats_add_test_module st i fo next m is_first) (λ p, all_ok_n len p.1).
Proof.
  intros Hst Hi Hm Hn. unfold minixtest_stats_add_test_module.
  eapply safe_bind; [apply (on_test_safe _ _ _ _ Hst Hi); intros x Hx; apply add_to_safe; tauto|]. intros s1 H1.
  eapply safe_bind; [apply (on_phase_safe _ _ _ _ H1); intros x Hx; apply add_to_safe; tauto|]. intros s2 H2.
  eapply safe_bind; [apply (on_phase_safe _ _ _ _ H2); intros x Hx; apply add_to_safe; tauto|]. intros s3 H3.
  apply (safe_bind _ _ (all_ok_n len)); [destruct next; [by apply diff_safe|done]|]. intros s4 H4.
  apply (safe_bind _ _ (all_ok_n len)).
  { destruct is_first; [|done]. eapply safe_bind; [apply (on_phase_safe _ _ _ _ H4); intros x Hx; apply add_to_safe; tauto|]. intros s5 H5.
    apply on_phase_safe; [done|]. intros x Hx. apply add_to_safe; tauto. }
  intros s5 H5. eapply safe_bind; [apply recoveries_add_safe|]. done.
Qed.

Definition times_ok (t : log_test) : Prop := timeval_ok (timestamp_start t) = true ∧ timeval_ok (timestamp_end t) = true.

Lemma test_safe st foall t next is_first : all_ok st → Forall (report_ok size) (lt_modules t) → next_ok size next → times_ok t →
  safe (minixtest_stats_add_test st foall t next is_first) (λ p, all_ok p.1).
Proof.
  intros Hst Ht Hn [Hs He]. unfold minixtest_stats_add_test. destruct (get_test_ok st (lt_name t) Hst) as [H0 Hi].
  destruct (minixtest_stats_get_test st (lt_name t)) as [i s0]. cbn [fst snd] in *. set (len := length (tests s0)) in *.
  eapply safe_bind; [apply (on_test_safe _ _ _ _ H0 Hi); apply count_status_safe|]. intros s1 H1.
  eapply safe_bind; [apply (on_test_safe _ _ _ _ H1 Hi); intros x Hx; by apply add_reports_safe|]. intros s2 H2.
  apply (safe_bind _ _ (λ p, all_ok_n len p.1)).
  { apply safe_foldl; [done|]. intros p m Hm Hp. apply module_safe; try done. rewrite Forall_forall in Ht. by apply Ht. }
  intros [s3 fo] H3. cbn [fst snd] in *. eapply safe_bind; [apply (on_test_safe _ _ _ _ H3 Hi); apply add_faultstats_safe|]. intros s4 H4.
  eapply safe_bind; [apply recoveries_add_safe|]. intros r _. apply H4.
Qed.

Lemma loop_safe ts a is_first : all_ok (al_stats a) → timeval_ok (timestamp_prev a) = true → Forall times_ok ts →
  Forall (λ t, Forall (report_ok size) (lt_modules t)) ts →
  safe (add_tests_loop a ts is_first) (λ a', all_ok (al_stats a')).
Proof.
  revert a is_first. induction ts as [|t ts IH]; intros a is_first Ha Hp Htm Hts; [done|]. cbn [add_tests_loop].
  apply Forall_cons in Htm as [Ht1 Htm], Hts as [Ht2 Hts].
  assert (Hn : next_ok size (hd_error ts)) by (destruct ts; [done|]; by apply Forall_cons in Hts as [? _]).
  apply (safe_bind _ _ (λ a', all_ok (al_stats a') ∧ timeval_ok (timestamp_prev a') = true)).
  - destruct Ht1 as [Hs He]. unfold add_loop_step. eapply safe_bind; [by apply compute_duration_safe|]. intros d _.
    eapply safe_bind; [by apply compute_duration_safe|]. intros e _. eapply safe_bind; [by apply test_safe|]. intros p Hpp.
    eapply safe_bind; [apply safe_chk32|]. intros n _.
    assert (Hc : ∀ (s : minix_test_status) v, safe (if decide (lt_status t = s) then chk32 (v + 1) else Ret v) (λ _, True)).
    { intros s v. destruct (decide _); [|done]. eapply safe_mono; [apply safe_chk32|done]. }
    do 3 (eapply safe_bind; [apply Hc|intros ? _]). done.
  - intros a' [H1 H2]. by apply IH.
Qed.

Lemma unreached_safe fuel st text : (String.length text < fuel)%nat → all_ok st → safe (unreached_loop fuel st text) all_ok.
Proof.
  revert st text. induction fuel as [|fuel IH]; intros st text Hf Hst; [lia|]. cbn [unreached_loop].
  destruct (skip_chars iswhitespace text) as [|c w] eqn:E; [done|].
  pose proof (skip_chars_head _ _ _ E) as Hc. pose proof (skip_chars_length iswhitespace text) as Hl. rewrite E in Hl.
  pose proof (split_word_shorter c w Hc) as Hs. destruct (split_word iswhitespace (String c w)) as [word rest] eqn:Ew. cbn [fst snd] in *.
  destruct (get_test_ok st word Hst) as [H0 Hi]. destruct (minixtest_stats_get_test st word) as [i s0]. cbn [fst snd] in *.
  eapply safe_bind; [apply (on_test_safe _ _ _ _ H0 Hi); apply count_unreached_safe|]. intros s1 [H1 _]. apply IH; [lia|done].
Qed.

Lemma wordcount_safe s : safe (wordcount s) (λ _, True).
Proof.
  destruct s as [s|]; [|done]. cbn [wordcount]. generalize 0. assert (Hf : (String.length s < S (String.length s))%nat) by lia.
  revert Hf. generalize (S (String.length s)). intros fuel. revert s. induction fuel as [|fuel IH]; intros s Hf n; [lia|]. cbn [wordcount_loop].
  set (p := λ c, Ascii.eqb c " "). pose proof (skip_chars_length p s) as Hl. destruct (skip_chars p s) as [|c w] eqn:E; [done|].
  assert (Hc : p c = false).
  { clear -E. revert E. induction s as [|a s IH]; cbn [skip_chars]; [done|]. destruct (p a) eqn:Ea; [done|]. by intros [= <- <-]. }
  eapply safe_bind; [apply safe_chk32|]. intros v _. apply IH. cbn [split_word]. rewrite Hc. pose proof (split_word_length p w).
  destruct (split_word p w). cbn in *. lia.
Qed.

Lemma measures_safe m a b c d e : (∀ k, sample_ok (m k)) → safe (add_measures m a b c d e) (λ m', ∀ k, sample_ok (m' k)).
Proof.
  intros Hm. unfold add_measures. eapply safe_bind; [apply safe_chk32|]. intros x _. eapply safe_bind; [apply safe_chk32|]. intros y _.
  apply (safe_bind _ _ (λ m' : measure → stats, ∀ k, sample_ok (m' k))).
  - apply safe_foldl; [done|]. intros m1 k _ H1. unfold measure_count. eapply safe_bind; [by apply stats_add_safe|]. intros v Hv q.
    unfold set_measure. by destruct (decide _).
  - intros m1 H1. apply safe_foldl; [done|]. intros m2 k _ H2. unfold measure_pct. eapply safe_bind; [by apply stats_add_pct_safe|].
    intros v Hv q. unfold set_measure. by destruct (decide _).
Qed.

Lemma callsites_safe t s : test_stats_ok t → safe (minixtest_stats_add_callsites t s) test_stats_ok.
Proof.
  intros Ht. unfold minixtest_stats_add_callsites. apply safe_foldl; [done|]. clear t Ht. intros t m _ Ht.
  unfold minixtest_stats_add_callsites_module, minixtest_stats_get_module. set (nm := upto_at (lm_name m)) in *.
  destruct (find_or_add_spec sm_name new_stats_module nm (st_modules t) (mod_ok size) (tk_modules _ Ht) ltac:(done) ltac:(done)) as (Hi & Hok' & _ & _).
  destruct (find_or_add sm_name new_stats_module nm (st_modules t)) as [i l]. cbn [fst snd] in *. unfold update_at.
  destruct (l !! i) as [x|] eqn:Ex; [|apply lookup_ge_None in Ex; lia].
  assert (Hx : mod_ok size x) by (by eapply Forall_lookup_1 in Hok'; [|exact Ex]).
  apply (safe_bind _ _ (mods_ok size)).
  - apply (safe_bind _ _ (mod_ok size)); [|intros y Hy; by apply Forall_insert].
    eapply (safe_bind _ _ (λ _, True)); [|done].
    assert (Hs : ∀ fuel i d r, safe (add_callsites fuel i d r) (λ _, True)).
    { induction fuel as [|fuel IH]; intros j d r; [done|]. cbn [add_callsites]. eapply safe_bind; [apply safe_chk32|]. intros v _. apply IH. }
    apply Hs.
  - intros l' Hl'. destruct Ht. by constructor.
Qed.

Lemma classify_safe s pc naive : safe (run_classify s pc naive) (λ _, True).
Proof.
  unfold run_classify. apply (safe_bind _ _ (λ _, True)).
  - apply safe_foldl; [done|]. intros [[n sh] dl] m _ _. cbn [classify_module]. eapply safe_bind; [apply safe_chk32|]. done.
  - intros [[n sh] dl] _. apply (safe_bind _ _ (λ _, True)); [|done]. apply safe_foldl; [done|]. intros c t _ _. unfold classify_test.
    apply (safe_bind _ _ (λ _, True)).
    { destruct (decide _); [apply (safe_bind _ _ (λ _, True)); [destruct (_ <? _); [eapply safe_mono; [apply safe_chk32|done]|done]|done]|].
      eapply safe_bind; [apply safe_chk32|]. done. }
    intros pf _. apply (safe_bind _ _ (λ _, True)).
    { destruct (_ <? _); [|done]. apply safe_foldl; [done|]. intros a x _ _. eapply safe_mono; [apply safe_chk32|done]. }
    intros r _. eapply safe_bind; [apply safe_chk32|]. done.
Qed.

(** The times of a summary are proper times (or zero). *)
Record summary_times (s : summary) : Prop := {
  su_start : timeval_ok (s_timestamp_start s) = true;
  su_exit : timeval_ok (timestamp_exit s) = true;
  su_tests : Forall times_ok (s_tests s);
}.

Lemma faultstats_sum_safe fo s : safe (faultstats_sum fo s) (λ _, True).
Proof.
  unfold faultstats_sum. apply safe_foldl; [done|]. intros a m _ _. unfold faultstats_sum_step. apply (safe_bind _ _ (λ _, True)).
  - destruct (_ && _); [eapply safe_mono; [apply safe_chk32|done]|done].
  - intros v _. eapply safe_bind; [apply recoveries_add_safe|]. done.
Qed.
End Safety.

Lemma start_run_safe size st s : all_ok size st → summary_times s →
  safe (start_run st s) (λ p, all_ok size (al_stats p.1) ∧ timeval_ok (timestamp_prev p.1) = true).
Proof.
  intros Hst Ht. unfold start_run.
  assert (H0 : all_ok_n size (length (tests st)) (name_phases st)).
  { split; [|done]. destruct Hst as [H1 H2 H3]. constructor; [|done|done]. intros ph. unfold name_phases, name_phase. cbn [phases].
    destruct (st_name (phases st ph)); [apply H1|]. destruct (H1 ph). by constructor. }
  eapply safe_bind; [apply faultstats_sum_safe|]. intros fo _. eapply safe_bind; [apply (on_phase_safe size _ _ _ _ H0); apply add_faultstats_safe|]. intros s1 H1.
  set (first := match s_tests s with t :: _ => timestamp_start t | [] => timestamp_exit s end).
  assert (Hf : timeval_ok first = true).
  { unfold first. pose proof (su_tests _ Ht) as Hts. destruct (s_tests s); [apply Ht|]. by apply Forall_cons in Hts as [[? _] _]. }
  eapply safe_bind; [apply (on_phase_safe size _ _ _ _ H1); intros x Hx; apply add_duration_safe; [apply Ht|done|done]|]. intros s2 [H2 _]. by split.
Qed.

(** The statistics stay well formed.  Adding the summary of any run whose
    reports have the sizes of their programs and whose times are proper ends in
    well-formed statistics: arrays of counts as long as their programs have
    blocks, samples with their sums and room for their values.  No assertion
    fails, nothing is accessed outside of its bounds and every loop ends; the only
    fault is a counter that does not fit an [int]. *)
Theorem statistics_well_formed size st s pretest_count naive_mode :
  (∀ b, 0 < size b) → all_ok size st → summary_consistent size s → summary_times s →
  match minixtest_stats_add st s pretest_count naive_mode with
  | Ret (st', _) => all_ok size st'
  | Stop f => f = FOverflow
  end.
Proof.
  intros Hpos Hst Hs Ht. enough (S : safe (minixtest_stats_add st s pretest_count naive_mode) (λ p, all_ok size p.1)).
  { unfold safe in S. by destruct (minixtest_stats_add _ _ _ _) as [[st' c]|f]. }
  unfold minixtest_stats_add. eapply safe_bind; [by apply start_run_safe|]. intros [a fo] [Ha Hp]. cbn [fst] in Ha, Hp.
  eapply safe_bind; [apply (loop_safe size Hpos); [done|done|apply Ht|done]|]. intros a' Ha'.
  assert (N : ∀ x, all_ok size x → all_ok_n size (length (tests x)) x) by (intros x Hx; by split).
  eapply safe_bind; [apply (on_phase_safe size _ _ _ _ (N _ Ha')); apply add_faultstats_safe|]. intros s2 [H2 _].
  apply (safe_bind _ _ (all_ok size)).
  { unfold minixtest_stats_add_tests_unreached. destruct (al_planned a'); [apply unreached_safe; [lia|done]|done]. }
  intros s3 H3. eapply safe_bind; [apply (on_phase_safe size _ _ _ _ (N _ H3)); apply add_seconds_safe|]. intros s4 [H4 _].
  eapply safe_bind; [apply (on_phase_safe size _ _ _ _ (N _ H4)); intros x Hx; apply add_duration_safe; [apply Ht|apply Ht|done]|]. intros s5 [H5 _].
  eapply safe_bind; [apply recoveries_add_safe|]. intros r _.
  eapply safe_bind; [apply (on_phase_safe size _ _ _ _ (N _ H5)); apply add_faultstats_safe|]. intros s6 [H6 _].
  eapply safe_bind; [apply classify_safe|]. intros c _. eapply safe_bind; [apply safe_chk32|]. intros n _.
  eapply safe_bind; [apply wordcount_safe|]. intros w _. eapply safe_bind; [apply measures_safe; apply H6|]. intros m Hm.
  eapply safe_bind; [apply (on_phase_safe size _ _ _ (length (tests s6)))|].
  - split; [|done]. destruct H6. by constructor.
  - intros x Hx. by apply callsites_safe.
  - intros s8 [H8 _]. exact H8.
Qed.

Lemma stats_zero_all_ok size : all_ok size minixtest_stats_zero.
Proof. constructor; [intros ph; apply new_test_ok|constructor|intros k; apply stats_zero_sample]. Qed.

Lemma statistics_well_formed_witness :
  ∃ st c, minixtest_stats_add minixtest_stats_zero (run_image demo_whole) 0 false = Ret (st, c) ∧ all_ok demo_size st.
Proof.
  assert (Hr : is_ret (minixtest_stats_add minixtest_stats_zero (run_image demo_whole) 0 false) = true) by (vm_compute; reflexivity).
  pose proof (statistics_well_formed demo_size minixtest_stats_zero (run_image demo_whole) 0 false demo_size_pos (stats_zero_all_ok demo_size)
    (steady_consistent demo_size ["vfs@2"; "pm"] demo_whole demo_size_pos demo_steady)) as H.
  destruct (minixtest_stats_add minixtest_stats_zero (run_image demo_whole) 0 false) as [[st c]|f]; [|done].
  exists st, c. split; [done|]. apply H. by split; [| |repeat constructor].
Defined.

(** *** Coverage of the phases *)

(** The coverage of a phase is that of its modules' counts, as if they were read
    from a log. *)
Lemma coverage_of_phase size ms c l :
  (∀ b, 0 < size b) → mods_ok size l → Forall (λ m, sm_bbs m ≠ None) l → Forall (λ m, plain (sm_name m) = true) l →
  forallb named ms = true →
  coverage_add_modules ms c l =
  coverage_add_execcount_list c ((λ m, {| ExecCounts.name := sm_name m; ExecCounts.bbs := default [] (sm_bbs m) |}) <$> l) ms.
Proof.
  intros Hpos Hok Hb Hp Hms. unfold coverage_add_modules. revert c. induction l as [|m l IH]; intros c; [done|].
  apply Forall_cons in Hok as [Hm Hok], Hb as [Hb Hbs], Hp as [Hp Hps]. cbn [fmap list_fmap res_foldl coverage_add_execcount_list ExecCounts.name].
  unfold coverage_add_module at 1. rewrite module_find_spec by done. cbn [res_bind].
  destruct (list_find (λ x, m_name x = Some (sm_name m)) ms) as [[i x]|] eqn:E; cbn [mbind option_bind snd]; [|apply IH; done].
  apply list_find_Some in E as (_ & Hx & _). unfold coverage_add_execcount_module_ec. rewrite Hx, strcmp_refl. cbn [ExecCounts.bbs].
  unfold mod_ok in Hm. destruct (sm_bbs m) as [b|]; [|done]. destruct Hm as [Hc Hl]. pose proof (Hpos (sm_name m)).
  destruct (Z.leb_spec (sm_bb_count m) 0); [lia|]. cbn [default]. unfold id.
  destruct (Nat.eqb_spec (length b) 0) as [Hz|_]; [lia|]. cbn [negb ExecCounts.name]. rewrite Z.eqb_refl.
  destruct (coverage_add_execcount_module c x b) as [c'|f]; cbn [res_bind]; [|done]. by apply IH.
Qed.
