(* ===== verification/TestPicker.v ===== *)
(** * The test picker: [hypermemloganalyze/testpicker/testpicker.c]

    For every fault of a fault file the test picker selects tests that run the
    faulty block, within the time a run may take, and prints one line of test
    names.  The times and the blocks a test runs are taken from the statistics
    over fault-free runs ([TestStats]).

    The command line options are a record, the numbers [rand] returns a sequence,
    and [qsort] an argument.  A loop that may run forever has its fuel as an
    argument.  Messages on the error stream and debug output are not modelled. *)

From Stdlib Require Import ZArith Lia Ascii String Floats.SpecFloat.
From stdpp Require Import base list numbers strings.
From S2P Require Import Prelude Decimal Double Helper Module Function Coverage FaultPicker FaultSpec LogParse LogReader TestLog Stats TestStats.

(** ** Data *)

Record settings := {
  setting_extratest : list string;
  setting_excludeboot : bool;
  setting_excludetest : list string;
  setting_multitest : bool;
  setting_onetest : bool;
  setting_posttest : bool;
  setting_pretest : bool;
  setting_printfaultspec : bool;
}.

Record test_list_entry := {
  te_test : stats_test;
  te_runtime : double;
  te_covered : bool;
  te_excluded : bool;
  te_order : Z;
  te_selected : Z;
}.

Record list_onetest_fault := { of_faultspec : string; of_runtests : list stats_test }.

(** What the selection changes: the standard output, the list of faults of [-o],
    whether a test was selected, and how many random numbers were taken. *)
Record picker := {
  pk_out : string;
  list_onetest_faults : list list_onetest_fault;
  pk_selected : bool;
  pk_draws : nat;
}.

Definition te_select (e : test_list_entry) (n : Z) : test_list_entry :=
  {| te_test := te_test e; te_runtime := te_runtime e; te_covered := te_covered e; te_excluded := te_excluded e;
     te_order := te_order e; te_selected := n |}.

(** ** The list of tests *)

Definition stats_z2value (st : stats) (z : double) : double := dadd (stats_mean st) (dmul z (stats_stdev st)).

Definition test_list_build_compare (entry1 entry2 : test_list_entry) : Z :=
  if te_order entry1 <? te_order entry2 then -1 else if te_order entry2 <? te_order entry1 then 1 else 0.

(** [t.coverage.bbs[bbindex] > 0]. *)
Definition covers (t : stats_test) (bbindex : Z) : res bool :=
  match st_coverage t with
  | None => Stop FNull
  | Some c =>
      match cov_bbs c with
      | None => Stop FNull
      | Some l => match l !! Z.to_nat bbindex with None => Stop FBounds | Some n => Ret (0 <? n) end
      end
  end.

Section Picker.
Variable s : settings.
Variable rand : nat → Z.
Variable qsort : (test_list_entry → test_list_entry → Z) → list test_list_entry → list test_list_entry.

(** The loop over the tests, from the [draws]-th random number on. *)
Fixpoint test_list_fill (draws : nat) (bbindex : Z) (runtimestdev : double) (l : list stats_test)
    : res (list test_list_entry) :=
  match l with
  | [] => Ret []
  | test :: l' =>
      let! covered := covers test bbindex in
      let! r := test_list_fill (S draws) bbindex runtimestdev l' in
      Ret ({| te_test := test; te_runtime := stats_z2value (st_duration test) runtimestdev; te_covered := covered;
              te_excluded := string_ll_find (setting_excludetest s) (test_key test); te_order := rand draws;
              te_selected := 0 |} :: r)
  end.

Definition test_list_build (st : minixtest_stats) (draws : nat) (bbindex : Z) (runtimestdev : double)
    : res (list test_list_entry * nat) :=
  let! boot_fault := if setting_excludeboot s then covers (phases st boot) bbindex else Ret false in
  if (boot_fault : bool) then Ret ([], draws)
  else
    let! l := test_list_fill draws bbindex runtimestdev (tests st) in
    Ret (qsort test_list_build_compare l, (draws + length l)%nat).

(** ** Selecting *)

Definition bool_int (b : bool) : Z := if b then 1 else 0.
Definition runtimefactor (covered : bool) : Z :=
  if covered then 1 else bool_int (setting_pretest s) + bool_int (setting_posttest s).
Definition te_cost (covered : bool) (e : test_list_entry) : double :=
  dmul (te_runtime e) (double_of_int (runtimefactor covered)).

(** The tests that none of the first three conditions skips. *)
Definition eligible (runtime : double) (covered : bool) (e : test_list_entry) : bool :=
  negb (te_excluded e) && Bool.eqb (te_covered e) covered && negb (dlt runtime (te_cost covered e)).

(** The inner loop: the first test to take, and whether to look again. *)
Fixpoint scan_tests (runtime : double) (covered : bool) (selectedmax : Z) (i : nat) (retry : bool)
    (l : list test_list_entry) : option nat * bool :=
  match l with
  | [] => (None, retry)
  | e :: l' =>
      if negb (eligible runtime covered e) then scan_tests runtime covered selectedmax (S i) retry l'
      else if selectedmax <? te_selected e then
        scan_tests runtime covered selectedmax (S i) (retry || setting_multitest s) l'
      else (Some i, retry)
  end.

Definition take_test (runtime : double) (covered : bool) (i : nat) (l : list test_list_entry)
    : res (list test_list_entry * double) :=
  match l !! i with
  | None => Stop FBounds
  | Some e =>
      let! n := chk32 (te_selected e + 1) in
      Ret (<[i := te_select e n]> l, dsub runtime (te_cost covered e))
  end.

(** The outer loop, with what [test->selected] can at most be as its fuel. *)
Fixpoint select_rounds (fuel : nat) (runtime : double) (covered : bool) (selectedmax : Z) (l : list test_list_entry)
    : res (option (list test_list_entry * double)) :=
  match fuel with
  | O => Stop FFuel
  | S fuel' =>
      match scan_tests runtime covered selectedmax 0 false l with
      | (Some i, _) => let! r := take_test runtime covered i l in Ret (Some r)
      | (None, true) => let! selectedmax := chk32 (selectedmax + 1) in select_rounds fuel' runtime covered selectedmax l
      | (None, false) => let! _ := chk32 (selectedmax + 1) in Ret None
      end
  end.

Definition most_selected (l : list test_list_entry) : Z := foldr (λ e n, Z.max (te_selected e) n) 0 l.

(** [None] when no test was selected (the result 0). *)
Definition test_list_select_one (l : list test_list_entry) (runtime : double) (covered : bool)
    : res (option (list test_list_entry * double)) :=
  assert! (covered || (0 <? runtimefactor covered)) in
  select_rounds (Z.to_nat (most_selected l) + 1) runtime covered 0 l.

Definition select_next (l : list test_list_entry) (runtime : double) : res (option (list test_list_entry * double)) :=
  let! r := if setting_pretest s || setting_posttest s then test_list_select_one l runtime false else Ret None in
  match r with Some x => Ret (Some x) | None => test_list_select_one l runtime true end.

Fixpoint select_loop (fuel : nat) (l : list test_list_entry) (runtime : double) : res (list test_list_entry * double) :=
  match fuel with
  | O => Stop FFuel
  | S fuel' =>
      let! r := select_next l runtime in
      match r with Some (l', runtime') => select_loop fuel' l' runtime' | None => Ret (l, runtime) end
  end.

(** The list, the time that is left, and whether [*selected_p] is set. *)
Definition test_list_select (fuel : nat) (l : list test_list_entry) (runtime : double)
    : res (list test_list_entry * double * bool) :=
  let! r := test_list_select_one l runtime true in
  match r with
  | None => Ret (l, runtime, false)
  | Some (l, runtime) => let! r := select_loop fuel l runtime in Ret (r, true)
  end.

(** ** Printing *)

Definition tab : string := String "009" "".

(** The inner loop of one round, for the tests selected at least [selected] times:
    the text, whether nothing was printed yet, and whether another round follows. *)
Fixpoint print_round (faultspec : string) (covered : bool) (selected : Z) (first retry : bool) (l : list test_list_entry)
    : string * bool * bool :=
  match l with
  | [] => ("", first, retry)
  | e :: l' =>
      if (te_selected e <? selected) || negb (Bool.eqb (te_covered e) covered)
      then print_round faultspec covered selected first retry l'
      else
        let before := if first then if setting_printfaultspec s then faultspec +:+ tab else "" else " " in
        let '(text, first, retry) := print_round faultspec covered selected false (retry || (selected <? te_selected e)) l' in
        (before +:+ test_key (te_test e) +:+ text, first, retry)
  end.

Fixpoint print_rounds (fuel : nat) (faultspec : string) (covered : bool) (selected : Z) (first : bool)
    (l : list test_list_entry) : res (string * bool) :=
  match fuel with
  | O => Stop FFuel
  | S fuel' =>
      let '(text, first, retry) := print_round faultspec covered selected first false l in
      let! selected := chk32 (selected + 1) in
      if (retry : bool) then
        let! r := print_rounds fuel' faultspec covered selected first l in Ret (text +:+ r.1, r.2)
      else Ret (text, first)
  end.

(** The steps 0, 1 and 2 that are not skipped, as their value of [covered]. *)
Definition print_steps : list bool :=
  (if setting_pretest s then [false] else []) ++ [true] ++ (if setting_posttest s then [false] else []).

Fixpoint print_step_loop (faultspec : string) (first : bool) (l : list test_list_entry) (steps : list bool)
    : res (string * bool) :=
  match steps with
  | [] => Ret ("", first)
  | covered :: steps' =>
      let! r := print_rounds (Z.to_nat (most_selected l) + 1) faultspec covered 1 first l in
      let! r' := print_step_loop faultspec r.2 l steps' in
      Ret (r.1 +:+ r'.1, r'.2)
  end.

Definition test_list_print (l : list test_list_entry) (faultspec : string) : res string :=
  let! r := print_step_loop faultspec true l print_steps in
  Ret (r.1 +:+ (if negb r.2 || negb (setting_printfaultspec s) then line_feed else "")).

(** ** One test at a time *)

(** The array [runtests]; the function returns its length. *)
Definition test_list_select_onetest_iterate (l : list test_list_entry) : list stats_test :=
  te_test <$> filter (λ e, te_covered e && negb (te_excluded e)) l.

Definition test_list_select_onetest (p : picker) (l : list test_list_entry) (faultspec : string) : picker :=
  let runtests := test_list_select_onetest_iterate l in
  {| pk_out := pk_out p;
     list_onetest_faults := {| of_faultspec := faultspec; of_runtests := runtests |} :: list_onetest_faults p;
     pk_selected := pk_selected p || (0 <? length runtests)%nat; pk_draws := pk_draws p |}.

(** One turn of the outer loop: a line for every fault that has an [index]-th test. *)
Fixpoint print_index (index : nat) (l : list list_onetest_fault) : string * bool :=
  match l with
  | [] => ("", true)
  | f :: l' =>
      let '(text, done) := print_index index l' in
      match of_runtests f !! index with
      | None => (text, done)
      | Some t => ((if setting_printfaultspec s then of_faultspec f +:+ tab else "") +:+
                   test_key t +:+ " " +:+ test_key t +:+ line_feed +:+ text, false)
      end
  end.

Fixpoint print_indices (fuel : nat) (index : nat) (l : list list_onetest_fault) : res string :=
  match fuel with
  | O => Stop FFuel
  | S fuel' =>
      let '(text, done) := print_index index l in
      if (done : bool) then Ret text else let! r := print_indices fuel' (S index) l in Ret (text +:+ r)
  end.

Definition most_tests (l : list list_onetest_fault) : nat := foldr (λ f n, length (of_runtests f) `max` n)%nat 0%nat l.
Definition print_tests_onetest (l : list list_onetest_fault) : res string := print_indices (S (most_tests l)) 0 l.

(** ** One fault, and a file of faults *)

Variable functions : function_hashtable.
Variable modules : module_ll.
Variable st : minixtest_stats.

Definition add_out (p : picker) (text : string) : picker :=
  {| pk_out := pk_out p +:+ text; list_onetest_faults := list_onetest_faults p; pk_selected := pk_selected p;
     pk_draws := pk_draws p |}.
Definition set_draws (p : picker) (n : nat) : picker :=
  {| pk_out := pk_out p; list_onetest_faults := list_onetest_faults p; pk_selected := pk_selected p; pk_draws := n |}.
Definition set_selected (p : picker) (b : bool) : picker :=
  {| pk_out := pk_out p; list_onetest_faults := list_onetest_faults p; pk_selected := b; pk_draws := pk_draws p |}.

(** The time that is left for tests. *)
Definition extra_test (runtimestdev : double) (runtime : double) (testname : string) : double :=
  match minixtest_stats_find_test st testname with
  | None => runtime
  | Some test => dsub runtime (stats_z2value (st_duration test) runtimestdev)
  end.
Definition runtime_left (runtime runtimestdev : double) : double :=
  let runtime := dsub runtime (stats_z2value (st_duration (phases st boot)) runtimestdev) in
  let runtime := dsub runtime (stats_z2value (st_duration (phases st between)) runtimestdev) in
  foldl (extra_test runtimestdev) runtime (setting_extratest s).

Definition select_test_with_faultspec (fuel : nat) (runtime runtimestdev : double) (p : picker) (faultspec : string)
    : res picker :=
  let! bbindex := faultspec_to_bbindex functions modules faultspec in
  if bbindex <? 0 then Ret (add_out p line_feed)
  else
    let! r := test_list_build st (pk_draws p) bbindex runtimestdev in
    let '(l, draws) := r in
    let p := set_draws p draws in
    let runtime := runtime_left runtime runtimestdev in
    if dle runtime zero then Stop (FExit 1)
    else if setting_onetest s then Ret (test_list_select_onetest p l faultspec)
    else
      let! r := test_list_select fuel l runtime in
      let '(l, _, selected) := r in
      let! text := test_list_print l faultspec in
      Ret (add_out (set_selected p (pk_selected p || selected)) text).

(** [file] is the content of the fault file. *)
Definition select_tests (fuel : nat) (runtime runtimestdev : double) (file : string) (p : picker) : res picker :=
  res_foldl (select_test_with_faultspec fuel runtime runtimestdev) p (select_tests_with_faultfile false "" file).

(** From the start of the selection to the end of [main]: what is printed and the
    exit status. *)
Definition pick_tests (fuel : nat) (runtime runtimestdev : double) (file : string) : res (string * Z) :=
  let! p := select_tests fuel runtime runtimestdev file
              {| pk_out := ""; list_onetest_faults := []; pk_selected := false; pk_draws := 0 |} in
  if negb (pk_selected p) then Ret (pk_out p, -1)
  else if setting_onetest s then
    let! text := print_tests_onetest (list_onetest_faults p) in Ret (pk_out p +:+ text, 0)
  else Ret (pk_out p, 0).
End Picker.

(** ** Selecting one test *)

Section Select.
Variable s : settings.

Lemma scan_tests_spec runtime covered selectedmax l : ∀ i retry,
  match scan_tests s runtime covered selectedmax i retry l with
  | (Some j, _) => ∃ k e, j = (i + k)%nat ∧ l !! k = Some e ∧ eligible s runtime covered e = true ∧ te_selected e ≤ selectedmax ∧
      ∀ k' e', (k' < k)%nat → l !! k' = Some e' → eligible s runtime covered e' = true → selectedmax < te_selected e'
  | (None, again) => (∀ e, e ∈ l → eligible s runtime covered e = true → selectedmax < te_selected e) ∧
      again = retry || (setting_multitest s && existsb (eligible s runtime covered) l)
  end.
Proof.
  induction l as [|e l IH]; intros i retry; cbn [scan_tests].
  { split; [by intros e ?%elem_of_nil|]. simpl. by rewrite andb_false_r, orb_false_r. }
  destruct (eligible s runtime covered e) eqn:He; cbn [negb]; [destruct (Z.ltb_spec selectedmax (te_selected e)) as [Hlt|Hle]|].
  - specialize (IH (S i) (retry || setting_multitest s)).
    destruct (scan_tests s runtime covered selectedmax (S i) (retry || setting_multitest s) l) as [[j|] again].
    + destruct IH as (k & e' & -> & Hk & He' & Hsel & Hbefore). exists (S k), e'. split_and!; try done; [lia|].
      intros [|k'] e'' Hk' Hl Hel; [by injection Hl as <-|]. apply (Hbefore k'); [lia|done..].
    + destruct IH as [Hall ->]. split; [intros e' [->|H]%elem_of_cons ?; eauto|].
      cbn [existsb]. rewrite He. cbn [orb]. by destruct retry, (setting_multitest s), (existsb (eligible s runtime covered) l).
  - exists 0%nat, e. split_and!; try done; lia.
  - specialize (IH (S i) retry). destruct (scan_tests s runtime covered selectedmax (S i) retry l) as [[j|] again].
    + destruct IH as (k & e' & -> & Hk & He' & Hsel & Hbefore). exists (S k), e'. split_and!; try done; [lia|].
      intros [|k'] e'' Hk' Hl Hel; [injection Hl as <-; congruence|]. apply (Hbefore k'); [lia|done..].
    + destruct IH as [Hall ->]. split; [intros e' [->|H]%elem_of_cons ?; [congruence|eauto]|]. cbn [existsb]. by rewrite He.
Qed.

(** The test the selection takes: the first of the eligible tests that were
    selected least often. *)
Record best (runtime : double) (covered : bool) (l : list test_list_entry) (i : nat) (e : test_list_entry) : Prop := {
  best_at : l !! i = Some e;
  best_eligible : eligible s runtime covered e = true;
  best_fair : ∀ j e', l !! j = Some e' → eligible s runtime covered e' = true → te_selected e ≤ te_selected e';
  best_first : ∀ j e', (j < i)%nat → l !! j = Some e' → eligible s runtime covered e' = true → te_selected e < te_selected e';
}.

Definition countable (l : list test_list_entry) : Prop := Forall (λ e, 0 ≤ te_selected e < 2^31 - 1) l.

Lemma countable_elem l e : countable l → e ∈ l → 0 ≤ te_selected e < 2^31 - 1.
Proof. unfold countable. rewrite Forall_forall. eauto. Qed.

Lemma most_selected_ge l e : e ∈ l → te_selected e ≤ most_selected l.
Proof.
  induction l as [|e' l IH]; [by intros ?%elem_of_nil|]. intros [->|H]%elem_of_cons; simpl; [lia|]. specialize (IH H). lia.
Qed.
Lemma most_selected_bounds l : countable l → 0 ≤ most_selected l < 2^31 - 1.
Proof. induction 1 as [|e l He _ IH]; simpl; lia. Qed.

(** What one selection does. *)
Definition selected_one (runtime : double) (covered : bool) (l : list test_list_entry)
    (r : res (option (list test_list_entry * double))) : Prop :=
  match r with
  | Stop _ => False
  | Ret None => ∀ e, e ∈ l → eligible s runtime covered e = true → setting_multitest s = false ∧ 0 < te_selected e
  | Ret (Some (l', runtime')) =>
      ∃ i e, best runtime covered l i e ∧ (setting_multitest s = false → te_selected e = 0) ∧
        l' = <[i := te_select e (te_selected e + 1)]> l ∧ runtime' = dsub runtime (te_cost s covered e)
  end.

Lemma select_rounds_spec runtime covered l : ∀ fuel selectedmax,
  countable l → 0 ≤ selectedmax → selectedmax ≤ most_selected l →
  most_selected l < selectedmax + Z.of_nat fuel →
  (∀ e, e ∈ l → eligible s runtime covered e = true → selectedmax ≤ te_selected e) →
  (setting_multitest s = false → selectedmax = 0) →
  selected_one runtime covered l (select_rounds s fuel runtime covered selectedmax l).
Proof.
  induction fuel as [|fuel IH]; intros selectedmax Hc H0 Hm Hf Hge Hmulti; [lia|]. cbn [select_rounds].
  pose proof (most_selected_bounds l Hc). pose proof (scan_tests_spec runtime covered selectedmax l 0 false) as Hscan.
  destruct (scan_tests s runtime covered selectedmax 0 false l) as [[j|] again].
  - destruct Hscan as (k & e & -> & Hk & He & Hsel & Hbefore). change (0 + k)%nat with k.
    pose proof (list_elem_of_lookup_2 _ _ _ Hk) as Hin. pose proof (Hge e Hin He). pose proof (countable_elem l e Hc Hin).
    unfold take_test. rewrite Hk, chk32_ok by lia. cbn [res_bind]. exists k, e. split_and!; [|intros; rewrite Hmulti in * by done; lia|done..].
    split; [done..| |].
    + intros j e' Hj He'. specialize (Hge e' (list_elem_of_lookup_2 _ _ _ Hj) He'). lia.
    + intros j e' Hlt Hj He'. specialize (Hbefore j e' Hlt Hj He'). lia.
  - destruct Hscan as [Hall ->]. cbn [orb]. rewrite chk32_ok by lia.
    destruct (setting_multitest s) eqn:Hms; cbn [andb res_bind].
    + destruct (existsb (eligible s runtime covered) l) eqn:Hex; cbn [res_bind].
      * apply existsb_exists in Hex as (e & Hin%list_elem_of_In & He). pose proof (Hall e Hin He). pose proof (most_selected_ge l e Hin).
        apply IH; try done; [lia..|]. intros e' Hin' He'. specialize (Hall e' Hin' He'). lia.
      * intros e Hin He. rewrite <- not_true_iff_false, existsb_exists in Hex. destruct Hex. exists e. by rewrite <- list_elem_of_In.
    + intros e Hin He. specialize (Hall e Hin He). split; [done|]. lia.
Qed.

Lemma select_one_spec runtime covered l :
  countable l → covered = true ∨ 0 < runtimefactor s covered →
  selected_one runtime covered l (test_list_select_one s l runtime covered).
Proof.
  intros Hc Hf. unfold test_list_select_one. pose proof (most_selected_bounds l Hc).
  assert (Has : covered || (0 <? runtimefactor s covered) = true).
  { apply orb_true_iff. destruct Hf; [by left|right]. by apply Z.ltb_lt. }
  rewrite Has. apply select_rounds_spec; try done; [lia|lia|].
  intros e Hin _. pose proof (countable_elem l e Hc Hin). lia.
Qed.

(** ** Selecting until the time runs out *)

(** A sequence of selections: the positions taken, from the list and the time at
    the start to those at the end.  Every test taken is eligible in the time that
    is left at its turn. *)
Inductive picking : list test_list_entry → double → list nat → list test_list_entry → double → Prop :=
| picking_done l runtime : picking l runtime [] l runtime
| picking_take l runtime i e covered ps l' runtime' :
    l !! i = Some e → eligible s runtime covered e = true →
    picking (<[i := te_select e (te_selected e + 1)]> l) (dsub runtime (te_cost s covered e)) ps l' runtime' →
    picking l runtime (i :: ps) l' runtime'.

Definition occurs (i : nat) (ps : list nat) : Z := Z.of_nat (length (filter (λ j, j = i) ps)).

Lemma occurs_cons i j ps : occurs i (j :: ps) = (if decide (j = i) then 1 else 0) + occurs i ps.
Proof. unfold occurs. rewrite filter_cons. case_decide; [rewrite length_cons|]; lia. Qed.
Lemma occurs_nonneg i ps : 0 ≤ occurs i ps.
Proof. unfold occurs. lia. Qed.
Lemma occurs_pos i ps : i ∈ ps → 0 < occurs i ps.
Proof.
  induction ps as [|j ps IH]; [by intros ?%elem_of_nil|]. rewrite occurs_cons. pose proof (occurs_nonneg i ps).
  intros [->|Hin]%elem_of_cons; [|specialize (IH Hin)]; case_decide; try done; lia.
Qed.
Lemma occurs_nodup ps : (∀ i, occurs i ps ≤ 1) → NoDup ps.
Proof.
  induction ps as [|j ps IH]; intros H; constructor.
  - intros Hin%occurs_pos. specialize (H j). rewrite occurs_cons in H. case_decide; [lia|done].
  - apply IH. intros i. specialize (H i). rewrite occurs_cons in H. case_decide; lia.
Qed.

(** The selections change nothing but the counts, by one for every time a test is
    taken; tests on the list of exclusions are not taken. *)
Lemma picking_counts l runtime ps l' runtime' i e :
  picking l runtime ps l' runtime' → l !! i = Some e →
  l' !! i = Some (te_select e (te_selected e + occurs i ps)) ∧ (te_excluded e = true → occurs i ps = 0).
Proof.
  intros Hp. revert e. induction Hp as [l runtime|l runtime j e' covered ps l' runtime' Hj He _ IH]; intros e Hl.
  - rewrite Z.add_0_r. by destruct e.
  - rewrite occurs_cons. destruct (decide (j = i)) as [->|Hne].
    + rewrite Hl in Hj. injection Hj as <-.
      destruct (IH (te_select e (te_selected e + 1))) as [-> Hex]; [by apply list_lookup_insert_eq, lookup_lt_Some with e|].
      split; [|intros Hx; unfold eligible in He; by rewrite Hx in He]. simpl. do 2 f_equal. lia.
    + destruct (IH e) as [-> Hex]; [by rewrite list_lookup_insert_ne|]. split; [done|]. intros. by rewrite Hex.
Qed.

Lemma picking_length l runtime ps l' runtime' : picking l runtime ps l' runtime' → length l' = length l.
Proof. induction 1; [done|]. by rewrite IHpicking, length_insert. Qed.

Lemma picking_app l runtime ps l' runtime' qs l'' runtime'' :
  picking l runtime ps l' runtime' → picking l' runtime' qs l'' runtime'' → picking l runtime (ps ++ qs) l'' runtime''.
Proof. induction 1; intros; simpl; [done|]. econstructor; eauto. Qed.

Lemma selected_one_picking runtime covered l l' runtime' :
  selected_one runtime covered l (Ret (Some (l', runtime'))) → ∃ i e, best runtime covered l i e ∧ picking l runtime [i] l' runtime'.
Proof.
  intros (i & e & Hb & _ & -> & ->). exists i, e. split; [done|]. econstructor; [apply Hb|apply Hb|constructor].
Qed.

(** *** Without repeats *)

(** Tests that can be taken at all and are not taken yet. *)
Definition open_tests (l : list test_list_entry) : nat := length (filter (λ e, te_selected e = 0) l).

Definition once (l : list test_list_entry) : Prop := Forall (λ e, te_selected e = 0 ∨ te_selected e = 1) l.

Lemma once_countable l : once l → countable l.
Proof. intros H. eapply Forall_impl; [exact H|]. intros e [->| ->]; lia. Qed.

Lemma once_take l i e : once l → l !! i = Some e → te_selected e = 0 →
  once (<[i := te_select e (te_selected e + 1)]> l) ∧
  open_tests l = S (open_tests (<[i := te_select e (te_selected e + 1)]> l)).
Proof.
  intros Ho Hi Hz. split; [apply Forall_insert; [done|right; simpl; lia]|].
  unfold open_tests. rewrite <- (take_drop_middle l i e Hi) at 1.
  rewrite insert_take_drop by by apply lookup_lt_Some with e.
  rewrite !filter_app, !length_app, !filter_cons. cbn [te_selected te_select].
  repeat case_decide; try lia. cbn [length]. lia.
Qed.

Lemma uncovered_factor : setting_pretest s || setting_posttest s = true → 0 < runtimefactor s false.
Proof. unfold runtimefactor. destruct (setting_pretest s), (setting_posttest s); done. Qed.

Definition wanted (e : test_list_entry) : bool := te_covered e || setting_pretest s || setting_posttest s.

(** No test that is wanted and not taken fits in the time that is left. *)
Definition exhausted (l : list test_list_entry) (runtime : double) : Prop :=
  ∀ e, e ∈ l → te_selected e = 0 → te_excluded e = false → wanted e = true →
    dlt runtime (te_cost s (te_covered e) e) = true.

Lemma select_next_once l runtime :
  setting_multitest s = false → once l →
  match select_next s l runtime with
  | Stop _ => False
  | Ret None => exhausted l runtime
  | Ret (Some (l', runtime')) => ∃ i, picking l runtime [i] l' runtime' ∧ once l' ∧ open_tests l = S (open_tests l')
  end.
Proof.
  intros Hm Ho. pose proof (once_countable l Ho) as Hc.
  assert (Hone : ∀ covered, covered = true ∨ 0 < runtimefactor s covered →
    match test_list_select_one s l runtime covered with
    | Stop _ => False
    | Ret None => ∀ e, e ∈ l → te_selected e = 0 → te_excluded e = false → te_covered e = covered → dlt runtime (te_cost s covered e) = true
    | Ret (Some (l', runtime')) => ∃ i, picking l runtime [i] l' runtime' ∧ once l' ∧ open_tests l = S (open_tests l')
    end).
  { intros covered Hf. pose proof (select_one_spec runtime covered l Hc Hf) as H.
    destruct (test_list_select_one s l runtime covered) as [[[l' runtime']|]|]; [| |done].
    - destruct H as (i & e & Hb & Hz & -> & ->). exists i. destruct Hb as [Hi He _ _].
      split; [econstructor; [done..|constructor]|]. by apply once_take; [..|apply Hz].
    - intros e Hin Hz Hx Hcov. apply not_false_iff_true. intros Hd.
      destruct (H e Hin); [|lia]. unfold eligible. by rewrite Hx, Hcov, Hd, eqb_reflx. }
  unfold select_next. destruct (setting_pretest s || setting_posttest s) eqn:Hu.
  - specialize (Hone false (or_intror (uncovered_factor Hu))) as H0.
    destruct (test_list_select_one s l runtime false) as [[[l' runtime']|]|]; cbn [res_bind]; [done| |done].
    specialize (Hone true (or_introl eq_refl)). destruct (test_list_select_one s l runtime true) as [[[l' runtime']|]|]; [done| |done].
    intros e Hin Hz Hx _. destruct (te_covered e) eqn:?; eauto.
  - cbn [res_bind]. specialize (Hone true (or_introl eq_refl)).
    destruct (test_list_select_one s l runtime true) as [[[l' runtime']|]|]; [done| |done].
    intros e Hin Hz Hx Hw. unfold wanted in Hw. rewrite <- orb_assoc, Hu, orb_false_r in Hw. rewrite Hw. eauto.
Qed.

Lemma select_loop_once : ∀ fuel l runtime,
  setting_multitest s = false → once l → (open_tests l < fuel)%nat →
  ∃ l' runtime' ps, select_loop s fuel l runtime = Ret (l', runtime') ∧ picking l runtime ps l' runtime' ∧ once l' ∧
    exhausted l' runtime'.
Proof.
  induction fuel as [|fuel IH]; intros l runtime Hm Ho Hf; [lia|]. cbn [select_loop].
  pose proof (select_next_once l runtime Hm Ho) as H. destruct (select_next s l runtime) as [[[l1 runtime1]|]|]; cbn [res_bind]; [| |done].
  - destruct H as (i & Hp & Ho' & Hlen). destruct (IH l1 runtime1 Hm Ho') as (l' & runtime' & ps & -> & Hp' & Hrest); [lia|].
    exists l', runtime', ([i] ++ ps). split_and!; [done|by eapply picking_app|apply Hrest..].
  - exists l, runtime, []. split_and!; try done. constructor.
Qed.
End Select.

(** *** The tests taken *)

Lemma occurs_zero i ps : i ∉ ps → occurs i ps = 0.
Proof.
  unfold occurs. intros Hn. destruct (filter (λ j, j = i) ps) as [|j r] eqn:E; [done|].
  assert (j ∈ filter (λ j, j = i) ps) as [-> ?]%list_elem_of_filter by (rewrite E; left). done.
Qed.

Lemma picking_inside s l runtime ps l' runtime' i : picking s l runtime ps l' runtime' → i ∈ ps → ∃ e, l !! i = Some e.
Proof.
  intros Hp. induction Hp as [|l runtime j e covered ps l' runtime' Hj _ _ IH]; [by intros ?%elem_of_nil|].
  intros [->|[e' He']%IH]%elem_of_cons; [eauto|]. apply lookup_lt_Some in He'. rewrite length_insert in He'.
  by apply lookup_lt_is_Some_2 in He' as [? ?]; eauto.
Qed.

(** The tests marked are the tests taken. *)
Definition marks (l : list test_list_entry) (ps : list nat) (l' : list test_list_entry) : Prop :=
  length l' = length l ∧
  ∀ i e, l !! i = Some e →
    l' !! i = Some (te_select e (if decide (i ∈ ps) then 1 else 0)) ∧ (te_excluded e = true → i ∉ ps).

Lemma picking_marks s l runtime ps l' runtime' :
  Forall (λ e, te_selected e = 0) l → picking s l runtime ps l' runtime' → once l' → NoDup ps ∧ marks l ps l'.
Proof.
  intros Hz Hp Ho'. unfold once in Ho'. rewrite Forall_forall in Hz, Ho'.
  assert (Hocc : ∀ i e, l !! i = Some e →
    occurs i ps ≤ 1 ∧ l' !! i = Some (te_select e (occurs i ps)) ∧ (te_excluded e = true → occurs i ps = 0)).
  { intros i e Hi. destruct (picking_counts s _ _ _ _ _ i e Hp Hi) as [Hl' Hx].
    rewrite (Hz e) in Hl' by by eapply list_elem_of_lookup_2. split_and!; [|done..].
    specialize (Ho' _ (list_elem_of_lookup_2 _ _ _ Hl')). simpl in Ho'. lia. }
  split; [|split; [by apply picking_length in Hp|]].
  - apply occurs_nodup. intros i. destruct (decide (i ∈ ps)) as [Hd|Hn]; [|rewrite occurs_zero by done; lia].
    destruct (picking_inside _ _ _ _ _ _ i Hp Hd) as [e He]. by apply (Hocc i e).
  - intros i e Hi. destruct (Hocc i e Hi) as (Hle & Hl' & Hx). case_decide as Hd.
    + pose proof (occurs_pos i ps Hd). replace (occurs i ps) with 1 in * by lia. split; [done|]. intros ?%Hx. lia.
    + by rewrite occurs_zero in Hl' by done.
Qed.

(** C25: Without [-m] the selection of tests always ends, whatever the runtimes are
    (infinite or not a number too), and it is complete.  No test is taken twice, none
    that is excluded is taken, every test taken fits in the time left at its turn, and
    nothing but the counts of the tests taken changes.  Nothing is selected exactly
    when no test that runs the faulty block fits; otherwise such a test is taken first,
    and at the end no further test that is wanted fits in the time that is left. *)
Theorem selection_complete (s : settings) (l : list test_list_entry) (runtime : double) (fuel : nat) :
  setting_multitest s = false → Forall (λ e, te_selected e = 0) l → (length l < fuel)%nat →
  ∃ l' runtime' selected ps,
    test_list_select s fuel l runtime = Ret (l', runtime', selected) ∧ picking s l runtime ps l' runtime' ∧
    NoDup ps ∧ marks l ps l' ∧
    (if selected then exhausted s l' runtime' ∧ ∃ i e, hd_error ps = Some i ∧ l !! i = Some e ∧ te_covered e = true
     else ps = [] ∧ ∀ e, e ∈ l → te_covered e = true → te_excluded e = false → dlt runtime (te_cost s true e) = true).
Proof.
  intros Hm Hz Hf. assert (Ho : once l) by (eapply Forall_impl; [exact Hz|by left]).
  assert (Hopen : (open_tests l ≤ length l)%nat) by apply length_filter.
  unfold test_list_select. pose proof (select_one_spec s runtime true l (once_countable l Ho) (or_introl eq_refl)) as H1.
  destruct (test_list_select_one s l runtime true) as [[[l1 runtime1]|]|]; cbn [res_bind]; [| |done].
  - destruct H1 as (i & e & [Hi He _ _] & Hsel & -> & ->).
    destruct (once_take l i e Ho Hi (Hsel Hm)) as [Ho1 Hlen].
    edestruct (select_loop_once s fuel) as (l' & runtime' & ps & -> & Hp & Ho' & Hex); [done|exact Ho1|lia|].
    assert (Hp' : picking s l runtime (i :: ps) l' runtime') by (econstructor; eauto).
    exists l', runtime', true, (i :: ps). destruct (picking_marks s _ _ _ _ _ Hz Hp' Ho') as (? & ?). split_and!; try done.
    exists i, e. split_and!; [done..|]. unfold eligible in He. apply andb_true_iff in He as [[_ He%Bool.eqb_prop]%andb_true_iff _]. done.
  - exists l, runtime, false, []. assert (Hp : picking s l runtime [] l runtime) by constructor.
    destruct (picking_marks s _ _ _ _ _ Hz Hp Ho) as (? & ?). split_and!; try done. intros e Hin Hcov Hx. apply not_false_iff_true. intros Hd.
    destruct (H1 e Hin) as [_ Hpos]; [unfold eligible; by rewrite Hx, Hcov, Hd|].
    rewrite Forall_forall in Hz. rewrite (Hz e Hin) in Hpos. lia.
Qed.

(** ** Tests without a known runtime *)

Lemma z2value_unmeasured st z : stat_n st ≤ 1 → stats_z2value st z = S754_nan.
Proof.
  intros Hn. unfold stats_z2value, stats_stdev, stats_var. destruct (Z.ltb_spec 1 (stat_n st)); [lia|].
  change (dsqrt NAN) with S754_nan. replace (dmul z S754_nan) with S754_nan by by destruct z as [[]|[]| |[] ? ?].
  by destruct (stats_mean st) as [[]|[]| |[] ? ?].
Qed.

(** A test that always fits, because its runtime compares with nothing. *)
Definition untimed (e : test_list_entry) : Prop :=
  te_covered e = true ∧ te_excluded e = false ∧ te_runtime e = S754_nan.

Section Repeat.
Variable s : settings.
Hypothesis Hmulti : setting_multitest s = true.

Lemma untimed_eligible e runtime : untimed e → eligible s runtime true e = true.
Proof.
  intros (Hc & Hx & Hr). unfold eligible. rewrite Hc, Hx. cbn [negb andb Bool.eqb]. apply negb_true_iff.
  unfold te_cost. rewrite Hr. by destruct runtime as [[]|[]| |[] ? ?].
Qed.

Lemma select_rounds_some runtime covered l e : ∀ fuel selectedmax,
  e ∈ l → eligible s runtime covered e = true → select_rounds s fuel runtime covered selectedmax l ≠ Ret None.
Proof.
  induction fuel as [|fuel IH]; intros selectedmax Hin He; [done|]. cbn [select_rounds].
  pose proof (scan_tests_spec s runtime covered selectedmax l 0 false) as Hscan.
  destruct (scan_tests s runtime covered selectedmax 0 false l) as [[j|] again]; [by destruct (take_test s runtime covered j l)|].
  destruct Hscan as [_ ->]. rewrite Hmulti. assert (existsb (eligible s runtime covered) l = true) as ->.
  { apply existsb_exists. exists e. by rewrite <- list_elem_of_In. }
  cbn [orb andb]. destruct (chk32 (selectedmax + 1)); cbn [res_bind]; [by apply IH|done].
Qed.

Lemma select_rounds_keeps runtime covered l l' runtime' : ∀ fuel selectedmax,
  select_rounds s fuel runtime covered selectedmax l = Ret (Some (l', runtime')) → Exists untimed l → Exists untimed l'.
Proof.
  induction fuel as [|fuel IH]; intros selectedmax H Hl; [done|]. cbn [select_rounds] in H.
  destruct (scan_tests s runtime covered selectedmax 0 false l) as [[j|] [|]];
    try (apply res_bind_inv in H as (r & Hr & [= ->])); try (apply res_bind_inv in H as (m & _ & H)); [| |by eapply IH];
    unfold take_test in Hr; destruct (l !! j) as [e|] eqn:Hj; try done; apply res_bind_inv in Hr as (n & _ & [= <- _]);
    rewrite Exists_exists in Hl |- *; destruct Hl as (e' & [k Hk]%list_elem_of_lookup & Hu);
    (destruct (decide (k = j)) as [->|Hne];
      [exists (te_select e n); split; [eapply list_elem_of_lookup_2, list_lookup_insert_eq, lookup_lt_Some; eassumption|];
       rewrite Hj in Hk; injection Hk as <-; exact Hu
      |exists e'; split; [eapply list_elem_of_lookup_2; by rewrite list_lookup_insert_ne|done]]).
Qed.

Lemma select_next_untimed l runtime :
  Exists untimed l → match select_next s l runtime with Ret (Some (l', _)) => Exists untimed l' | Ret None => False | Stop _ => True end.
Proof.
  intros Hl. unfold select_next.
  assert (Hkeep : ∀ covered, match test_list_select_one s l runtime covered with Ret (Some (l', _)) => Exists untimed l' | _ => True end).
  { intros covered. unfold test_list_select_one. destruct (covered || (0 <? runtimefactor s covered)); [|done].
    destruct (select_rounds s _ runtime covered 0 l) as [[[l' runtime']|]|] eqn:E; try done. by eapply select_rounds_keeps. }
  assert (Hsome : test_list_select_one s l runtime true ≠ Ret None).
  { unfold test_list_select_one. cbn [orb]. apply Exists_exists in Hl as (e & Hin & Hu).
    by eapply select_rounds_some, untimed_eligible. }
  pose proof (Hkeep true) as Ht. pose proof (Hkeep false) as Hf.
  destruct (setting_pretest s || setting_posttest s); cbn [res_bind];
    [destruct (test_list_select_one s l runtime false) as [[[l' runtime']|]|]; cbn [res_bind]; try done|];
    by destruct (test_list_select_one s l runtime true) as [[[l'' runtime'']|]|].
Qed.

Lemma select_loop_untimed fuel l runtime : Exists untimed l → is_ret (select_loop s fuel l runtime) = false.
Proof.
  revert l runtime. induction fuel as [|fuel IH]; intros l runtime Hl; [done|]. cbn [select_loop].
  pose proof (select_next_untimed l runtime Hl) as H.
  destruct (select_next s l runtime) as [[[l' runtime']|]|]; cbn [res_bind]; [by apply IH|done..].
Qed.

Lemma select_untimed fuel l runtime : Exists untimed l → is_ret (test_list_select s fuel l runtime) = false.
Proof.
  intros Hl. unfold test_list_select. pose proof Hl as (e & Hin & Hu)%Exists_exists.
  destruct (test_list_select_one s l runtime true) as [[[l' runtime']|]|] eqn:E; cbn [res_bind]; [|exfalso|done].
  - unfold test_list_select_one in E. cbn [orb] in E. apply select_rounds_keeps in E; [|done].
    pose proof (select_loop_untimed fuel l' runtime' E). by destruct (select_loop s fuel l' runtime').
  - revert E. unfold test_list_select_one. cbn [orb]. by eapply select_rounds_some, untimed_eligible.
Qed.
End Repeat.

(** The list that is built. *)
Lemma test_list_fill_elem s rand bbindex z test l : ∀ draws r,
  test_list_fill s rand draws bbindex z l = Ret r → test ∈ l →
  ∃ e, e ∈ r ∧ te_test e = test ∧ te_runtime e = stats_z2value (st_duration test) z ∧ covers test bbindex = Ret (te_covered e) ∧
    te_excluded e = string_ll_find (setting_excludetest s) (test_key test) ∧ te_selected e = 0.
Proof.
  induction l as [|t l IH]; intros draws r H Hin; [by apply elem_of_nil in Hin|]. cbn [test_list_fill] in H.
  apply res_bind_inv in H as (covered & Hc & H). apply res_bind_inv in H as (r' & Hr & [= <-]).
  apply elem_of_cons in Hin as [->|Hin].
  - eexists. split; [left|]. done.
  - destruct (IH _ _ Hr Hin) as (e & He & Hrest). exists e. split; [by right|done].
Qed.

(** With [-m] and a test that runs the faulty block but was measured in at most one
    run, the selection of tests for the fault never ends normally: a standard deviation
    is not defined there, the test's runtime is not a number and always fits in the
    time that is left.  So the time limit does not stop the loop. *)
Theorem single_measurement_never_ends (s : settings) rand qsort functions modules st fuel runtime z p faultspec g test :
  setting_multitest s = true → setting_onetest s = false → setting_excludeboot s = false →
  (∀ cmp l, qsort cmp l ≡ₚ l) →
  faultspec_to_bbindex functions modules faultspec = Ret g → 0 ≤ g →
  test ∈ tests st → covers test g = Ret true → string_ll_find (setting_excludetest s) (test_key test) = false →
  stat_n (st_duration test) ≤ 1 →
  is_ret (select_test_with_faultspec s rand qsort functions modules st fuel runtime z p faultspec) = false.
Proof.
  intros Hm Ho Hb Hq Hg Hg0 Hin Hcov Hx Hn. unfold select_test_with_faultspec, test_list_build. rewrite Hg, Hb, Ho. cbn [res_bind].
  destruct (Z.ltb_spec g 0); [lia|].
  destruct (test_list_fill s rand (pk_draws p) g z (tests st)) as [r|] eqn:Hr; [|done]. cbn [res_bind].
  destruct (dle _ zero); [done|].
  assert (Hu : Exists untimed (qsort test_list_build_compare r)).
  { destruct (test_list_fill_elem _ _ _ _ _ _ _ _ Hr Hin) as (e & He & _ & Hrt & Hc & Hex & _).
    apply Exists_exists. exists e. rewrite (Hq _ r). split; [done|]. rewrite Hcov in Hc. injection Hc as Hc.
    split_and!; [done|congruence|]. by rewrite Hrt, z2value_unmeasured. }
  pose proof (select_untimed s Hm fuel _ (runtime_left s st runtime z) Hu) as Hsel.
  by destruct (test_list_select s fuel _ _).
Qed.

(** ** Examples *)

Definition no_settings : settings :=
  {| setting_extratest := []; setting_excludeboot := false; setting_excludetest := ["t4"]; setting_multitest := false;
     setting_onetest := false; setting_posttest := true; setting_pretest := true; setting_printfaultspec := false |}.

Definition demo_entry (name : string) (seconds : Z) (covered excluded : bool) : test_list_entry :=
  {| te_test := new_stats_test (Some name); te_runtime := double_of_int seconds; te_covered := covered;
     te_excluded := excluded; te_order := 0; te_selected := 0 |}.
Definition demo_list : list test_list_entry :=
  [demo_entry "t1" 40 true false; demo_entry "t2" 20 true false; demo_entry "t3" 7 false false; demo_entry "t4" 1 true true].

Example demo_selection :
  test_list_select no_settings 5 demo_list (double_of_int 75) =
    Ret ([te_select (demo_entry "t1" 40 true false) 1; te_select (demo_entry "t2" 20 true false) 1;
          te_select (demo_entry "t3" 7 false false) 1; demo_entry "t4" 1 true true], double_of_int 1, true).
Proof. vm_compute. reflexivity. Qed.

Lemma selection_complete_witness :
  ∃ l' runtime' selected ps,
    test_list_select no_settings 5 demo_list (double_of_int 75) = Ret (l', runtime', selected) ∧
    picking no_settings demo_list (double_of_int 75) ps l' runtime' ∧ NoDup ps ∧ marks demo_list ps l' ∧ selected = true.
Proof.
  destruct (selection_complete no_settings demo_list (double_of_int 75) 5) as (l' & runtime' & selected & ps & Hsel & Hp & Hn & Hm & _);
    [done|by repeat constructor|simpl; lia|].
  exists l', runtime', selected, ps. split; [exact Hsel|]. split_and!; [exact Hp|exact Hn|exact Hm|].
  rewrite demo_selection in Hsel. injection Hsel as _ _ H. by symmetry.
Defined.

(** A test measured once. *)
Definition demo_duration : stats := ret_or stats_zero (stats_add stats_zero (double_of_int 12)).
Definition demo_measured (name : string) (bbs : list Z) : stats_test :=
  {| st_name := Some name; count_pass := 1; count_fail := 0; count_crash := 0; count_notreached := 0;
     st_duration := demo_duration; st_reported_count := stats_zero; st_reported_rate := stats_zero;
     st_reported_time := stats_zero; st_modules := [];
     st_coverage := Some {| functions := picker_build.1; cov_bbs := Some bbs; cov_funcs := None; cov_modules := [] |};
     st_faultstats := faultstats_zero |}.
Definition demo_measurements : minixtest_stats :=
  set_tests minixtest_stats_zero [demo_measured "t1" [4; 0; 2]; demo_measured "t2" [1; 9; 0]].
Definition repeat_settings : settings :=
  {| setting_extratest := []; setting_excludeboot := false; setting_excludetest := []; setting_multitest := true;
     setting_onetest := false; setting_posttest := false; setting_pretest := false; setting_printfaultspec := false |}.

Lemma demo_resolved : faultspec_to_bbindex picker_build.1 picker_build.2 "pm:3:vfs:1" = Ret 0.
Proof. vm_compute. reflexivity. Qed.

Lemma single_measurement_never_ends_witness :
  is_ret (select_test_with_faultspec repeat_settings (λ n, Z.of_nat n) (λ _ l, l) picker_build.1 picker_build.2
    demo_measurements 1000 (double_of_int 600) one
    {| pk_out := ""; list_onetest_faults := []; pk_selected := false; pk_draws := 0 |} "pm:3:vfs:1") = false.
Proof.
  exact (single_measurement_never_ends repeat_settings (λ n, Z.of_nat n) (λ _ l, l) picker_build.1 picker_build.2
    demo_measurements 1000 (double_of_int 600) one
    {| pk_out := ""; list_onetest_faults := []; pk_selected := false; pk_draws := 0 |} "pm:3:vfs:1" 0
    (demo_measured "t1" [4; 0; 2]) eq_refl eq_refl eq_refl (λ _ l, Permutation_refl l) demo_resolved (Z.le_refl 0)
    (list_elem_of_here _ _) eq_refl eq_refl (Z.le_refl 1)).
Defined.
