(* ===== verification/TestPlan.v ===== *)
(** * The lines the test picker prints

    The line [test_list_print] prints for a fault is the plan of a run: read back
    by the statistics ([wordcount] and the scan of planned tests) it has every
    selected test as often as it was selected.  With [-o] the lines of
    [print_tests_onetest] are those of all pairs of a fault and a test for it. *)

From Stdlib Require Import ZArith Lia Ascii String Floats.SpecFloat.
From stdpp Require Import base list numbers strings.
From S2P Require Import Prelude Decimal Double Helper Module Function Coverage FaultPicker FaultSpec LogParse LogReader TestLog Stats TestStats TestTally TestPicker.

(** ** The names on a line *)

Definition te_name (e : test_list_entry) : string := test_key (te_test e).

Section Print.
Variable s : settings.
Variable faultspec : string.

Fixpoint joined (first : bool) (names : list string) : string :=
  match names with
  | [] => ""
  | n :: r => (if first then if setting_printfaultspec s then faultspec +:+ tab else "" else " ") +:+ n +:+ joined false r
  end.
Definition still_first (first : bool) (names : list string) : bool := first && (length names =? 0)%nat.

Lemma joined_app first a b : joined first (a ++ b) = joined first a +:+ joined (still_first first a) b.
Proof.
  revert first. induction a as [|n a IH]; intros first; cbn [joined app].
  - unfold still_first. simpl. by rewrite andb_true_r.
  - rewrite IH, !string_app_assoc. unfold still_first. simpl. by rewrite andb_false_r.
Qed.
Lemma still_first_app first a b : still_first first (a ++ b) = still_first (still_first first a) b.
Proof. unfold still_first. rewrite length_app. destruct first, a, b; done. Qed.

(** The tests of one round. *)
Definition in_round (covered : bool) (selected : Z) (e : test_list_entry) : bool :=
  (selected <=? te_selected e) && Bool.eqb (te_covered e) covered.
Definition round_names (covered : bool) (selected : Z) (l : list test_list_entry) : list string :=
  te_name <$> filter (in_round covered selected) l.
(** The names of [n] rounds. *)
Fixpoint names_from (n : nat) (covered : bool) (selected : Z) (l : list test_list_entry) : list string :=
  match n with O => [] | S n' => round_names covered selected l ++ names_from n' covered (selected + 1) l end.

Lemma round_names_cons covered selected e l :
  round_names covered selected (e :: l) = (if in_round covered selected e then [te_name e] else []) ++ round_names covered selected l.
Proof. unfold round_names. rewrite filter_cons. by destruct (in_round covered selected e). Qed.

Lemma print_round_spec covered selected l : ∀ first retry,
  print_round s faultspec covered selected first retry l =
    (joined first (round_names covered selected l), still_first first (round_names covered selected l),
     retry || existsb (in_round covered (selected + 1)) l).
Proof.
  induction l as [|e l IH]; intros first retry; cbn [print_round existsb].
  { unfold round_names, still_first. simpl. by rewrite andb_true_r, orb_false_r. }
  rewrite round_names_cons, joined_app, still_first_app.
  assert (Hskip : (te_selected e <? selected) || negb (Bool.eqb (te_covered e) covered) = negb (in_round covered selected e)).
  { unfold in_round. by rewrite negb_andb, Z.ltb_antisym. }
  rewrite Hskip. destruct (in_round covered selected e) eqn:Hin; cbn [negb].
  - rewrite IH. cbn [joined]. unfold still_first at 2 4. simpl length. cbn [Nat.eqb].
    rewrite andb_false_r, string_app_nil_r, string_app_assoc, <- orb_assoc. do 3 f_equal.
    unfold in_round in *. apply andb_true_iff in Hin as [_ ->]. rewrite andb_true_r. apply eq_true_iff_eq. rewrite Z.ltb_lt, Z.leb_le. lia.
  - rewrite IH. cbn [joined]. unfold still_first at 2 4. simpl. rewrite andb_true_r. do 2 f_equal.
    assert (in_round covered (selected + 1) e = false) as ->; [|done].
    unfold in_round in *. destruct (Bool.eqb (te_covered e) covered); [|by rewrite andb_false_r].
    rewrite andb_true_r in *. apply Z.leb_gt in Hin. apply Z.leb_gt. lia.
Qed.

Lemma names_from_empty n covered selected l :
  existsb (in_round covered selected) l = false → names_from n covered selected l = [].
Proof.
  revert selected. induction n as [|n IH]; intros selected H; [done|]. cbn [names_from]. rewrite IH, app_nil_r.
  - clear IH. induction l as [|e l IHl]; [done|]. cbn [existsb] in H. apply orb_false_iff in H as [He H]. by rewrite round_names_cons, He, IHl.
  - rewrite <- not_true_iff_false, existsb_exists in *. intros (e & Hin & He). apply H. exists e. split; [done|].
    unfold in_round in *. rewrite andb_true_iff, Z.leb_le in *. split; [lia|apply He].
Qed.

Lemma print_rounds_spec covered l : ∀ fuel selected first,
  most_selected l < selected + Z.of_nat fuel → selected = 1 ∨ 1 ≤ selected ≤ most_selected l → countable l → (0 < fuel)%nat →
  print_rounds s fuel faultspec covered selected first l =
    Ret (joined first (names_from fuel covered selected l), still_first first (names_from fuel covered selected l)).
Proof.
  induction fuel as [|fuel IH]; intros selected first Hf Hs Hc Hpos; [lia|]. cbn [print_rounds names_from].
  pose proof (most_selected_bounds l Hc). rewrite print_round_spec, chk32_ok by lia. cbn [orb res_bind].
  destruct (existsb (in_round covered (selected + 1)) l) eqn:E.
  - assert (Hmore : selected + 1 ≤ most_selected l).
    { apply existsb_exists in E as (e & Hin%list_elem_of_In & He). pose proof (most_selected_ge l e Hin).
      unfold in_round in He. rewrite andb_true_iff, Z.leb_le in He. lia. }
    rewrite IH by (done || lia). cbn [res_bind fst snd]. by rewrite joined_app, still_first_app.
  - by rewrite names_from_empty, app_nil_r.
Qed.

Definition step_names (l : list test_list_entry) (steps : list bool) : list string :=
  steps ≫= λ covered, names_from (Z.to_nat (most_selected l) + 1) covered 1 l.

Lemma print_step_loop_spec l steps first : countable l →
  print_step_loop s faultspec first l steps =
    Ret (joined first (step_names l steps), still_first first (step_names l steps)).
Proof.
  intros Hc. revert first. pose proof (most_selected_bounds l Hc).
  induction steps as [|c steps IH]; intros first; cbn [print_step_loop step_names].
  { unfold still_first. simpl. by rewrite andb_true_r. }
  rewrite print_rounds_spec by (done || lia). cbn [res_bind fst snd]. rewrite IH. cbn [res_bind fst snd].
  unfold step_names. rewrite bind_cons. by rewrite joined_app, still_first_app.
Qed.

Definition line_names (l : list test_list_entry) : list string := step_names l (print_steps s).

Lemma test_list_print_spec l : countable l →
  test_list_print s l faultspec = Ret (joined true (line_names l) +:+
    (if (0 <? length (line_names l))%nat || negb (setting_printfaultspec s) then line_feed else "")).
Proof.
  intros Hc. unfold test_list_print. rewrite print_step_loop_spec by done. cbn [res_bind fst snd]. f_equal. f_equal.
  unfold still_first, line_names. by destruct (step_names l (print_steps s)).
Qed.
End Print.

(** ** How often a test is on the line *)

Lemma bind_app_perm {A B} (f g : A → list B) (l : list A) : (l ≫= f) ++ (l ≫= g) ≡ₚ l ≫= λ x, f x ++ g x.
Proof.
  induction l as [|x l IH]; [done|]. rewrite !bind_cons, <- IH. rewrite <- !app_assoc. apply Permutation_app_head.
  rewrite !app_assoc. apply Permutation_app_tail, Permutation_app_comm.
Qed.

Lemma bind_ext_perm {A B} (f g : A → list B) (l : list A) : (∀ x, x ∈ l → f x ≡ₚ g x) → l ≫= f ≡ₚ l ≫= g.
Proof.
  induction l as [|x l IH]; intros H; [done|]. rewrite !bind_cons, IH by (intros; apply H; by right). by rewrite (H x) by left.
Qed.

Lemma round_names_bind covered selected l :
  round_names covered selected l = l ≫= λ e, if in_round covered selected e then [te_name e] else [].
Proof. induction l as [|e l IH]; [done|]. by rewrite round_names_cons, bind_cons, IH. Qed.

Definition copies (n : nat) (covered : bool) (selected : Z) (e : test_list_entry) : list string :=
  if Bool.eqb (te_covered e) covered then replicate (n `min` Z.to_nat (te_selected e + 1 - selected)) (te_name e) else [].

Lemma names_from_perm n covered selected l : names_from n covered selected l ≡ₚ l ≫= copies n covered selected.
Proof.
  revert selected. induction n as [|n IH]; intros selected; cbn [names_from].
  - induction l as [|e l IHl]; [done|]. rewrite bind_cons, <- IHl. unfold copies. by destruct (Bool.eqb (te_covered e) covered).
  - rewrite IH, round_names_bind, bind_app_perm. apply bind_ext_perm. intros e _. unfold in_round, copies.
    destruct (Bool.eqb (te_covered e) covered); [|by rewrite andb_false_r]. rewrite andb_true_r.
    destruct (Z.leb_spec selected (te_selected e)).
    + replace (Z.to_nat (te_selected e + 1 - selected)) with (S (Z.to_nat (te_selected e + 1 - (selected + 1)))) by lia. done.
    + replace (Z.to_nat (te_selected e + 1 - selected)) with 0%nat by lia.
      replace (Z.to_nat (te_selected e + 1 - (selected + 1))) with 0%nat by lia. by rewrite !Nat.min_0_r.
Qed.

(** How often a test is meant to be run. *)
Definition times (s : settings) (e : test_list_entry) : Z := te_selected e * runtimefactor s (te_covered e).
Definition plan (s : settings) (l : list test_list_entry) : list string :=
  l ≫= λ e, replicate (Z.to_nat (times s e)) (te_name e).

Lemma line_names_plan s l : countable l → line_names s l ≡ₚ plan s l.
Proof.
  intros Hc. unfold line_names, step_names, print_steps, plan.
  set (n := (Z.to_nat (most_selected l) + 1)%nat).
  set (from := λ covered, names_from n covered 1 l).
  assert (Hfrom : ∀ covered, from covered ≡ₚ l ≫= λ e, if Bool.eqb (te_covered e) covered then replicate (Z.to_nat (te_selected e)) (te_name e) else []).
  { intros covered. unfold from. rewrite names_from_perm. apply bind_ext_perm. intros e Hin. unfold copies.
    pose proof (most_selected_ge l e Hin). replace (te_selected e + 1 - 1) with (te_selected e) by lia.
    rewrite Nat.min_r by lia. done. }
  rewrite !bind_app, bind_cons.
  assert (Hsplit : ∀ (b : bool) c, (if b then [c] else []) ≫= from ≡ₚ
            l ≫= λ e, if Bool.eqb (te_covered e) c then replicate (Z.to_nat (bool_int b * te_selected e)) (te_name e) else []).
  { intros [] c; [rewrite bind_cons; simpl; rewrite app_nil_r, Hfrom; apply bind_ext_perm; intros; unfold bool_int; by rewrite Z.mul_1_l|].
    simpl. clear. induction l as [|e l IH]; [done|]. rewrite bind_cons, <- IH. by destruct (Bool.eqb (te_covered e) c). }
  rewrite !Hsplit. fold from. rewrite (Hfrom true). simpl. rewrite app_nil_r, !bind_app_perm. apply bind_ext_perm. intros e Hin.
  pose proof (countable_elem l e Hc Hin). unfold times, runtimefactor. destruct (te_covered e); simpl.
  - by rewrite app_nil_r, Z.mul_1_r.
  - rewrite <- replicate_add. replace (Z.to_nat _ + Z.to_nat _)%nat with (Z.to_nat (te_selected e * (bool_int (setting_pretest s) + bool_int (setting_posttest s)))); [done|].
    destruct (setting_pretest s), (setting_posttest s); simpl; lia.
Qed.

(** ** Reading the line back *)

Definition is_word (n : string) : bool := negb (String.eqb n "") && string_forall (λ c, negb (iswhitespace c)) n.

Lemma split_word_app (p : ascii → bool) n rest :
  string_forall (λ c, negb (p c)) n = true → (match rest with EmptyString => True | String c _ => p c = true end) →
  split_word p (n +:+ rest) = (n, rest).
Proof.
  intros Hn Hr. induction n as [|c n IH].
  - destruct rest as [|c rest]; [done|]. cbn. by rewrite Hr.
  - cbn [string_forall] in Hn. apply andb_true_iff in Hn as [Hc%negb_true_iff Hn].
    change (String c n +:+ rest) with (String c (n +:+ rest)). cbn [split_word]. by rewrite Hc, IH.
Qed.

Section Read.
Variable s : settings.
Hypothesis Hnospec : setting_printfaultspec s = false.

Lemma joined_false_eq fs names :
  joined s fs false names = match names with [] => "" | _ => " " +:+ joined s fs true names end.
Proof. destruct names; [done|]. cbn [joined]. by rewrite Hnospec. Qed.

Lemma words_joined fs names : Forall (λ n, is_word n = true) names → words (joined s fs true names) = names.
Proof.
  induction 1 as [|n names Hn _ IH]; [done|]. cbn [joined]. rewrite Hnospec. change ("" +:+ ?x) with x.
  unfold is_word in Hn. apply andb_true_iff in Hn as [Hne%negb_true_iff Hn].
  unfold words. rewrite words_split, split_word_app; [|done|by destruct names]. cbn [fst snd]. change ("" +:+ n) with n. unfold emit.
  rewrite Hne. simpl. f_equal. rewrite joined_false_eq. by destruct names.
Qed.

Definition sp (c : ascii) : bool := Ascii.eqb c " ".

Lemma word_no_space n : is_word n = true → ∃ c n', n = String c n' ∧ sp c = false ∧ string_forall (λ c, negb (sp c)) n = true.
Proof.
  unfold is_word. intros [Hne Hn]%andb_true_iff.
  assert (Hsp : string_forall (λ c, negb (sp c)) n = true).
  { apply (string_forall_impl _ _ n) with (2 := Hn). intros c. unfold iswhitespace, sp. rewrite !negb_orb, !andb_true_iff. tauto. }
  destruct n as [|c n]; [done|]. exists c, n. split_and!; try done. cbn in Hsp. by apply andb_true_iff in Hsp as [->%negb_true_iff _].
Qed.

Lemma wordcount_joined fs names : ∀ fuel b count,
  Forall (λ n, is_word n = true) names → (String.length (joined s fs b names) < fuel)%nat → 0 ≤ count →
  count + Z.of_nat (length names) < 2^31 →
  wordcount_loop fuel (joined s fs b names) count = Ret (count + Z.of_nat (length names)).
Proof.
  induction names as [|n names IH]; intros fuel b count Hw Hf Hc Hmax; (destruct fuel as [|fuel]; [lia|]).
  { simpl. by rewrite Z.add_0_r. }
  apply Forall_cons in Hw as [Hn Hw]. destruct (word_no_space n Hn) as (c & n' & En & Hsp & Hall).
  assert (Hskip : skip_chars sp (joined s fs b (n :: names)) = n +:+ joined s fs false names).
  { rewrite En. cbn [joined]. rewrite Hnospec. destruct b; cbn; rewrite Hsp; done. }
  cbn [wordcount_loop]. fold sp. rewrite Hskip, En. change (String c n' +:+ ?x) with (String c (n' +:+ x)). cbv iota beta.
  change (String c (n' +:+ joined s fs false names)) with (String c n' +:+ joined s fs false names). rewrite <- En.
  cbn [length] in Hmax. rewrite chk32_ok by lia. cbn [res_bind]. fold sp.
  rewrite split_word_app; [|done|by destruct names]. cbn [snd]. rewrite IH; [f_equal; cbn [length]; lia|done| |lia|lia].
  cbn [joined] in Hf. rewrite En, !string_length_app in Hf. cbn [String.length] in Hf. lia.
Qed.
End Read.


(** ** One test at a time *)

Definition cat (lines : list string) : string := foldr String.append "" lines.

Lemma cat_app a b : cat (a ++ b) = cat a +:+ cat b.
Proof. unfold cat. induction a as [|x a IH]; [done|]. simpl. by rewrite IH, string_app_assoc. Qed.

Section OneTest.
Variable s : settings.

Definition onetest_line (faultspec : string) (t : stats_test) : string :=
  (if setting_printfaultspec s then faultspec +:+ tab else "") +:+ test_key t +:+ " " +:+ test_key t +:+ line_feed.

Definition index_lines (l : list list_onetest_fault) (k : nat) : list string :=
  l ≫= λ f, match of_runtests f !! k with Some t => [onetest_line (of_faultspec f) t] | None => [] end.

Lemma print_index_spec k l : print_index s k l = (cat (index_lines l k), (length (index_lines l k) =? 0)%nat).
Proof.
  induction l as [|f l IH]; [done|]. cbn [print_index]. rewrite IH. unfold index_lines. rewrite bind_cons.
  destruct (of_runtests f !! k) as [t|]; [|done]. simpl. unfold onetest_line. by rewrite !string_app_assoc.
Qed.

Lemma index_lines_after k l : (most_tests l ≤ k)%nat → index_lines l k = [].
Proof.
  induction l as [|f l IH]; intros H; [done|]. simpl in H. unfold index_lines. rewrite bind_cons.
  rewrite lookup_ge_None_2 by lia. apply IH. lia.
Qed.

Lemma index_lines_before k l : (k < most_tests l)%nat → index_lines l k ≠ [].
Proof.
  induction l as [|f l IH]; intros H; simpl in H; [lia|]. unfold index_lines. rewrite bind_cons.
  destruct (of_runtests f !! k) as [t|] eqn:E; [done|]. apply lookup_ge_None in E. apply IH. lia.
Qed.

Lemma print_indices_spec l : ∀ n k, (n + k = most_tests l)%nat →
  print_indices s (S n) k l = Ret (cat (seq k n ≫= index_lines l)).
Proof.
  induction n as [|n IH]; intros k H.
  - cbn [print_indices]. rewrite print_index_spec, index_lines_after by lia. done.
  - cbn [print_indices] in *. rewrite print_index_spec. destruct (Nat.eqb_spec (length (index_lines l k)) 0) as [Hz|_].
    { apply length_zero_iff_nil in Hz. by apply index_lines_before in Hz; [|lia]. }
    cbn [seq]. rewrite bind_cons, cat_app. specialize (IH (S k) ltac:(lia)). by rewrite IH.
Qed.

Lemma lines_by_fault l n : ∀ k,
  seq k n ≫= index_lines l ≡ₚ l ≫= λ f, onetest_line (of_faultspec f) <$> take n (drop k (of_runtests f)).
Proof.
  induction n as [|n IH]; intros k; cbn [seq].
  - simpl. symmetry. induction l as [|f l IHl]; [done|]. by rewrite bind_cons, IHl.
  - rewrite bind_cons, (IH (S k)). unfold index_lines. rewrite bind_app_perm. apply bind_ext_perm. intros f _.
    destruct (of_runtests f !! k) as [t|] eqn:E; simpl.
    + by rewrite (drop_S _ t k E).
    + apply lookup_ge_None in E. rewrite !drop_ge by lia. by destruct n.
Qed.

Lemma most_tests_ge f l : f ∈ l → (length (of_runtests f) ≤ most_tests l)%nat.
Proof. induction l as [|f' l IH]; [by intros ?%elem_of_nil|]. intros [->|H]%elem_of_cons; simpl; [lia|]. specialize (IH H). lia. Qed.

Lemma print_tests_onetest_spec l :
  ∃ lines, print_tests_onetest s l = Ret (cat lines) ∧ lines = seq 0 (most_tests l) ≫= index_lines l ∧
    lines ≡ₚ l ≫= λ f, onetest_line (of_faultspec f) <$> of_runtests f.
Proof.
  eexists. split_and!; [|done|].
  - unfold print_tests_onetest. apply print_indices_spec. lia.
  - rewrite lines_by_fault. apply bind_ext_perm. intros f Hf%most_tests_ge. rewrite drop_0, take_ge by lia. done.
Qed.

(** *** A whole file *)

Variable rand : nat → Z.
Variable qsort : (test_list_entry → test_list_entry → Z) → list test_list_entry → list test_list_entry.
Variable functions : function_hashtable.
Variable modules : module_ll.
Variable st : minixtest_stats.
Variables runtime runtimestdev : double.
Hypothesis Hone : setting_onetest s = true.
Hypothesis Hqsort : ∀ cmp l, qsort cmp l ≡ₚ l.

(** The tests meant for a fault: those that run its block and are not excluded with
    [-X]; with [-b] there are none for a block that runs at boot. *)
Definition covered_by (t : stats_test) (g : Z) : bool := match covers t g with Ret b => b | Stop _ => false end.
Definition runs_block (g : Z) (t : stats_test) : bool :=
  covered_by t g && negb (string_ll_find (setting_excludetest s) (test_key t)).
Definition tests_for (faultspec : string) : list stats_test :=
  match faultspec_to_bbindex functions modules faultspec with
  | Ret g =>
      if g <? 0 then [] else if setting_excludeboot s && covered_by (phases st boot) g then [] else filter (runs_block g) (tests st)
  | Stop _ => []
  end.

(** A fault that names a block of the program. *)
Definition known_fault (faultspec : string) : bool :=
  match faultspec_to_bbindex functions modules faultspec with Ret g => 0 <=? g | Stop _ => false end.

(** A fault that is looked up without a crash: it is not known, or its block is
    within the coverage of every test (with [-b], of the boot too). *)
Definition usable (faultspec : string) : Prop :=
  ∃ g, faultspec_to_bbindex functions modules faultspec = Ret g ∧
    (0 ≤ g → (setting_excludeboot s = true → is_ret (covers (phases st boot) g) = true) ∧ Forall (λ t, is_ret (covers t g) = true) (tests st)).
Definition out_of_time : bool := dle (runtime_left s st runtime runtimestdev) zero.

Lemma fill_usable g l : Forall (λ t, is_ret (covers t g) = true) l → ∀ draws, ∃ r,
  test_list_fill s rand draws g runtimestdev l = Ret r ∧ test_list_select_onetest_iterate r = filter (runs_block g) l.
Proof.
  induction 1 as [|t l Ht _ IH]; intros draws; cbn [test_list_fill]; [by exists []|].
  destruct (covers t g) as [b|] eqn:Hc; [|done]. cbn [res_bind]. destruct (IH (S draws)) as (r & -> & Hr). cbn [res_bind].
  eexists. split; [done|]. unfold test_list_select_onetest_iterate in *. rewrite !filter_cons. cbn [te_covered te_excluded].
  assert (Hrb : runs_block g t = b && negb (string_ll_find (setting_excludetest s) (test_key t))) by (unfold runs_block, covered_by; by rewrite Hc).
  destruct (b && _), (runs_block g t); try congruence; simpl; try rewrite fmap_cons; try done; by f_equal.
Qed.

Definition fault_lines (p : picker) : list string :=
  list_onetest_faults p ≫= λ f, onetest_line (of_faultspec f) <$> of_runtests f.
Definition has_tests (f : list_onetest_fault) : bool := negb (length (of_runtests f) =? 0)%nat.

Definition selects (faultspec : string) (p p' : picker) : Prop :=
  fault_lines p' ≡ₚ (onetest_line faultspec <$> tests_for faultspec) ++ fault_lines p ∧
  pk_selected p' = pk_selected p || negb (length (tests_for faultspec) =? 0)%nat ∧
  ∃ blank, pk_out p' = pk_out p +:+ cat blank ∧ Forall (λ t, t = line_feed) blank.

Lemma build_usable g draws :
  (setting_excludeboot s = true → is_ret (covers (phases st boot) g) = true) ∧ Forall (λ t, is_ret (covers t g) = true) (tests st) → ∃ l draws',
  test_list_build s rand qsort st draws g runtimestdev = Ret (l, draws') ∧
  test_list_select_onetest_iterate l ≡ₚ
    if setting_excludeboot s && covered_by (phases st boot) g then [] else filter (runs_block g) (tests st).
Proof.
  intros [Hb Ht]. unfold test_list_build, covered_by. destruct (fill_usable g (tests st) Ht draws) as (r & Hr & Hit). rewrite Hr.
  assert (Hq : test_list_select_onetest_iterate (qsort test_list_build_compare r) ≡ₚ filter (runs_block g) (tests st)).
  { rewrite <- Hit. unfold test_list_select_onetest_iterate. by rewrite (Hqsort _ r). }
  destruct (setting_excludeboot s); [|by eexists _, _]. specialize (Hb eq_refl).
  destruct (covers (phases st boot) g) as [[]|]; [by eexists [], _|by eexists _, _|done].
Qed.

Lemma select_usable fuel p faultspec : usable faultspec →
  if out_of_time && known_fault faultspec
  then select_test_with_faultspec s rand qsort functions modules st fuel runtime runtimestdev p faultspec = Stop (FExit 1)
  else ∃ p', select_test_with_faultspec s rand qsort functions modules st fuel runtime runtimestdev p faultspec = Ret p' ∧
    selects faultspec p p'.
Proof.
  intros (g & Hg & Hcov). unfold select_test_with_faultspec, selects, tests_for, known_fault. rewrite Hg. cbn [res_bind].
  destruct (Z.ltb_spec g 0) as [Hneg|Hpos], (Z.leb_spec 0 g); try lia.
  - rewrite andb_false_r. eexists. split; [done|]. split_and!; [done|by rewrite orb_false_r|]. exists [line_feed]. split; [done|by constructor].
  - rewrite andb_true_r. unfold out_of_time. destruct (build_usable g (pk_draws p) (Hcov Hpos)) as (l & draws' & -> & Hl). cbn [res_bind].
    destruct (dle _ zero); [done|]. rewrite Hone. revert Hl. generalize (if setting_excludeboot s && covered_by (phases st boot) g then [] else filter (runs_block g) (tests st)).
    intros found Hl. eexists. split; [done|]. unfold fault_lines, test_list_select_onetest. cbn [list_onetest_faults pk_selected pk_out set_draws].
    rewrite bind_cons. cbn [of_faultspec of_runtests]. split_and!; [by rewrite Hl| |exists []; by rewrite string_app_nil_r].
    rewrite Hl. by destruct found.
Qed.

Lemma select_file fuel specs : Forall usable specs → ∀ p,
  if out_of_time && existsb known_fault specs
  then res_foldl (select_test_with_faultspec s rand qsort functions modules st fuel runtime runtimestdev) p specs = Stop (FExit 1)
  else ∃ p' blank, res_foldl (select_test_with_faultspec s rand qsort functions modules st fuel runtime runtimestdev) p specs = Ret p' ∧
    fault_lines p' ≡ₚ (specs ≫= λ f, onetest_line f <$> tests_for f) ++ fault_lines p ∧
    pk_selected p' = pk_selected p || negb (length (specs ≫= tests_for) =? 0)%nat ∧
    pk_out p' = pk_out p +:+ cat blank ∧ Forall (λ t, t = line_feed) blank.
Proof.
  induction 1 as [|f specs Hf _ IH]; intros p; cbn [res_foldl existsb].
  - rewrite andb_false_r. exists p, []. split_and!; try done; simpl; [by rewrite orb_false_r|by rewrite string_app_nil_r].
  - pose proof (select_usable fuel p f Hf) as Hsel. rewrite andb_orb_distrib_r.
    destruct (out_of_time && known_fault f); [by rewrite Hsel|]. destruct Hsel as (p1 & -> & Hl & Hs & b1 & Ho & Hb). cbn [res_bind orb].
    specialize (IH p1). destruct (out_of_time && existsb known_fault specs); [done|].
    destruct IH as (p' & b2 & -> & Hl' & Hs' & Ho' & Hb'). exists p', (b1 ++ b2). split_and!; [done|..].
    + rewrite Hl', Hl, bind_cons, !app_assoc. apply Permutation_app_tail, Permutation_app_comm.
    + rewrite Hs', Hs, bind_cons, length_app, <- orb_assoc. f_equal. by destruct (tests_for f), (specs ≫= tests_for).
    + by rewrite Ho', Ho, cat_app, string_app_assoc.
    + by apply Forall_app.
Qed.
End OneTest.

(** C26: with [-o] every test gets its turn.  Assumed is that the faults of the file
    are looked up without a crash ([usable]) and that [qsort] permutes.  The test picker
    ends.  When the time left after boot, the time between tests and the extra tests is
    not positive and some fault of the file is known, it exits with status 1.
    Otherwise, after an empty line for every fault that is not known, it prints exactly
    one line for every fault of the file and every test that runs its block and is not
    excluded with [-X] (with [-b], no line for a fault in a block that runs at boot);
    the status is -1 exactly when there is no such pair. *)
Theorem one_test_lines (s : settings) rand qsort functions modules st fuel runtime runtimestdev file :
  setting_onetest s = true → (∀ cmp l, qsort cmp l ≡ₚ l) →
  Forall (usable s functions modules st) (select_tests_with_faultfile false "" file) →
  let specs := select_tests_with_faultfile false "" file in
  let result := pick_tests s rand qsort functions modules st fuel runtime runtimestdev file in
  if out_of_time s st runtime runtimestdev && existsb (known_fault functions modules) specs
  then result = Stop (FExit 1)
  else ∃ blank lines, result = Ret (cat blank +:+ cat lines, if (length lines =? 0)%nat then -1 else 0) ∧
    Forall (λ t, t = line_feed) blank ∧
    lines ≡ₚ specs ≫= λ f, onetest_line s f <$> tests_for s functions modules st f.
Proof.
  intros Hone Hq Hu specs. cbv zeta. unfold pick_tests, select_tests.
  set (p0 := {| pk_out := ""; list_onetest_faults := []; pk_selected := false; pk_draws := 0 |}). fold specs in Hu |- *.
  pose proof (select_file s rand qsort functions modules st runtime runtimestdev Hone Hq fuel specs Hu p0) as Hsel.
  destruct (out_of_time _ _ _ _ && _); [by rewrite Hsel|].
  destruct Hsel as (p & blank & -> & Hl & Hsel & Hout & Hb). cbn [res_bind]. rewrite app_nil_r in Hl.
  destruct (print_tests_onetest_spec s (list_onetest_faults p)) as (lines & Hpr & _ & Hlines).
  assert (Hlen : length lines = length (specs ≫= tests_for s functions modules st)).
  { rewrite Hlines. fold (fault_lines s p). rewrite Hl. clear. induction specs as [|f specs IH]; [done|].
    rewrite !bind_cons, !length_app, length_fmap. by rewrite IH. }
  exists blank, lines. split_and!; [|done|by rewrite Hlines].
  rewrite Hsel, Hout, Hone, Hpr, <- Hlen. simpl. destruct lines as [|x lines]; [|done]. simpl. by rewrite string_app_nil_r.
Qed.

(** ** Examples *)

Definition demo_selected : list test_list_entry :=
  [te_select (demo_entry "t1" 40 true false) 2; te_select (demo_entry "t2" 20 true false) 1;
   te_select (demo_entry "t3" 7 false false) 1; demo_entry "t4" 1 true true].

Example demo_printed_line : test_list_print no_settings demo_selected "pm:3" = Ret ("t3 t1 t2 t1 t3" +:+ line_feed).
Proof. vm_compute. reflexivity. Qed.


Definition onetest_settings : settings :=
  {| setting_extratest := []; setting_excludeboot := false; setting_excludetest := []; setting_multitest := false;
     setting_onetest := true; setting_posttest := false; setting_pretest := false; setting_printfaultspec := true |}.
Definition demo_faults : string := "pm:3:vfs:1" +:+ line_feed +:+ "rs:1" +:+ line_feed +:+ "pm:2" +:+ line_feed.

Lemma demo_usable :
  Forall (usable onetest_settings picker_build.1 picker_build.2 demo_measurements) (select_tests_with_faultfile false "" demo_faults).
Proof.
  assert (E : select_tests_with_faultfile false "" demo_faults = ["pm:3:vfs:1"; "rs:1"; "pm:2"]) by (vm_compute; reflexivity).
  rewrite E. repeat (apply Forall_cons; split); [..|by apply Forall_nil];
    (eexists; split; [vm_compute; reflexivity|]; intros _; split; [done|]; by repeat constructor).
Qed.

Lemma one_test_lines_witness :
  ∃ blank lines, pick_tests onetest_settings (λ n, Z.of_nat n) (λ _ l, l) picker_build.1 picker_build.2 demo_measurements 0
      (double_of_int 600) one demo_faults = Ret (cat blank +:+ cat lines, if (length lines =? 0)%nat then -1 else 0) ∧
    Forall (λ t, t = line_feed) blank ∧
    lines ≡ₚ select_tests_with_faultfile false "" demo_faults ≫=
      λ f, onetest_line onetest_settings f <$> tests_for onetest_settings picker_build.1 picker_build.2 demo_measurements f.
Proof.
  pose proof (one_test_lines onetest_settings (λ n, Z.of_nat n) (λ _ l, l) picker_build.1 picker_build.2 demo_measurements 0
    (double_of_int 600) one demo_faults eq_refl (λ _ l, Permutation_refl l) demo_usable) as H.
  cbv zeta in H. assert (E : out_of_time onetest_settings demo_measurements (double_of_int 600) one = false) by (vm_compute; reflexivity).
  rewrite E in H. exact H.
Defined.
