(* ===== verification/KeyOrder.v ===== *)
(** * The order of keys: [hypermemloganalyze/hypermemloganalyze.c]

    The log analysis groups runs by text keys (modules, source paths, classes) and sorts
    them so that numbers inside a key count by their value.  A string is the contents of a
    C string, without its terminating zero. *)

From Stdlib Require Import ZArith Lia Ascii String.
From stdpp Require Import base list numbers strings.
From S2P Require Import Prelude Decimal LogFmt Helper.

(** ** [strnumcmp] and [keystrcmp] *)

Definition zero_char : ascii := "0".
Fixpoint skip_zeros (s : string) : string :=
  match s with String a s' => if Ascii.eqb a zero_char then skip_zeros s' else s | EmptyString => s end.
(** The digits at the front, and what follows them. *)
Fixpoint take_digits (s : string) : string :=
  match s with String a s' => if is_digit a then String a (take_digits s') else EmptyString | EmptyString => s end.
Fixpoint drop_digits (s : string) : string :=
  match s with String a s' => if is_digit a then drop_digits s' else s | EmptyString => s end.
(** [while (n1 < s1)]: the first difference of two numbers of the same length. *)
Fixpoint digits_cmp (n1 n2 : string) : Z :=
  match n1, n2 with
  | String a n1', String b n2' => if Ascii.eqb a b then digits_cmp n1' n2' else if schar a <? schar b then -1 else 1
  | _, _ => 0
  end.

Fixpoint strnumcmp_loop (fuel : nat) (s1 s2 : string) : res Z :=
  match fuel with
  | O => Stop FFuel
  | S fuel =>
      match s1, s2 with
      | EmptyString, EmptyString => Ret 0
      | EmptyString, _ => Ret (-1)
      | _, EmptyString => Ret 1
      | String c1 r1, String c2 r2 =>
          if is_digit c1 && is_digit c2 then
            let s1 := skip_zeros s1 in
            let s2 := skip_zeros s2 in
            let n1 := take_digits s1 in
            let n2 := take_digits s2 in
            let l1 := String.length n1 in
            let l2 := String.length n2 in
            if negb (l1 =? l2)%nat then Ret (if (l1 <? l2)%nat then -1 else 1)
            else
              let r := digits_cmp n1 n2 in
              if negb (r =? 0) then Ret r else strnumcmp_loop fuel (drop_digits s1) (drop_digits s2)
          else if negb (Ascii.eqb c1 c2) then Ret (if schar c1 <? schar c2 then -1 else 1)
          else strnumcmp_loop fuel r1 r2
      end
  end.
(** Every round passes at least one character of [s1]. *)
Definition strnumcmp (s1 s2 : string) : res Z := strnumcmp_loop (S (String.length s1)) s1 s2.

Definition starts_angle (s : string) : bool := match s with String a _ => Ascii.eqb a "<" | EmptyString => false end.
Definition keystrcmp (s1 s2 : option string) : res Z :=
  match s1, s2 with
  | None, None => Ret 0
  | None, Some _ => Ret (-1)
  | Some _, None => Ret 1
  | Some s1, Some s2 =>
      if starts_angle s1 && negb (starts_angle s2) then Ret (-1)
      else if negb (starts_angle s1) && starts_angle s2 then Ret 1
      else strnumcmp s1 s2
  end.

(** ** The reference: keys as lists of numbers *)

(** A run of digits is the code of a digit and the number it writes, every other
    character its code. *)
Fixpoint norm_from (v : option Z) (s : string) : list Z :=
  match s with
  | EmptyString => match v with Some v => [48; v] | None => [] end
  | String a s' =>
      if is_digit a then norm_from (Some (default 0 v * 10 + digit_val a)) s'
      else match v with Some v => [48; v] | None => [] end ++ schar a :: norm_from None s'
  end.
Definition norm (s : string) : list Z := norm_from None s.

(** Lexicographic order, with the sign as the C functions return it. *)
Fixpoint lex (l1 l2 : list Z) : Z :=
  match l1, l2 with
  | [], [] => 0
  | [], _ => -1
  | _, [] => 1
  | x :: l1', y :: l2' => if x =? y then lex l1' l2' else if x <? y then -1 else 1
  end.

Definition key_norm (k : option string) : list Z :=
  match k with None => [] | Some s => (if starts_angle s then 0 else 1) :: norm s end.

Lemma lex_0 l1 l2 : lex l1 l2 = 0 ↔ l1 = l2.
Proof.
  revert l2. induction l1 as [|x l1 IH]; intros [|y l2]; cbn [lex]; try done.
  destruct (Z.eqb_spec x y) as [->|Hn]; [rewrite IH; split; congruence|]. destruct (x <? y); split; congruence.
Qed.

Lemma lex_antisym l1 l2 : lex l2 l1 = - lex l1 l2.
Proof.
  revert l2. induction l1 as [|x l1 IH]; intros [|y l2]; cbn [lex]; try done. rewrite (Z.eqb_sym y x).
  destruct (Z.eqb_spec x y); [done|]. destruct (Z.ltb_spec x y), (Z.ltb_spec y x); lia.
Qed.

Lemma lex_trans l1 l2 l3 : lex l1 l2 ≤ 0 → lex l2 l3 ≤ 0 → lex l1 l3 ≤ 0.
Proof.
  revert l2 l3. induction l1 as [|x l1 IH]; intros [|y l2] [|z l3]; cbn [lex]; try lia.
  destruct (Z.eqb_spec x y), (Z.eqb_spec y z), (Z.eqb_spec x z); try (subst; by eauto);
    destruct (Z.ltb_spec x y), (Z.ltb_spec y z), (Z.ltb_spec x z); lia.
Qed.

Lemma lex_single x y : lex [x] [y] = Z.sgn (x - y).
Proof. cbn. destruct (Z.eqb_spec x y), (Z.ltb_spec x y); lia. Qed.


(** ** Digits *)

Lemma take_drop_digits s : take_digits s +:+ drop_digits s = s.
Proof. induction s as [|a s IH]; [done|]. cbn. destruct (is_digit a); [cbn; by rewrite IH|done]. Qed.

Lemma take_digits_forall s : string_forall is_digit (take_digits s) = true.
Proof. induction s as [|a s IH]; [done|]. cbn. destruct (is_digit a) eqn:E; [cbn; by rewrite E|done]. Qed.

Lemma read_dec_take v s : read_dec v s = ((read_dec v (take_digits s)).1, drop_digits s).
Proof.
  revert v. induction s as [|a s IH]; intros v; [done|]. cbn [take_digits drop_digits].
  destruct (is_digit a) eqn:E; cbn [read_dec]; [|rewrite E; done]. rewrite E. apply IH.
Qed.

Lemma read_dec_skip s : read_dec 0 (skip_zeros s) = read_dec 0 s.
Proof.
  induction s as [|a s IH]; [done|]. cbn [skip_zeros]. destruct (Ascii.eqb_spec a zero_char) as [->|]; [|done]. rewrite IH. done.
Qed.

Lemma norm_from_read v s : norm_from (Some v) s = 48 :: (read_dec v s).1 :: norm_from None (read_dec v s).2.
Proof.
  revert v. induction s as [|a s IH]; intros v; [done|]. cbn [norm_from read_dec default]. destruct (is_digit a) eqn:E; [apply IH|].
  cbn. by rewrite E.
Qed.

Lemma norm_digit a s : is_digit a = true → norm (String a s) = 48 :: (read_dec 0 (String a s)).1 :: norm (read_dec 0 (String a s)).2.
Proof. intros E. unfold norm at 1. cbn [norm_from read_dec default]. rewrite E. apply norm_from_read. Qed.

Lemma read_dec_bounds s v : string_forall is_digit s = true → 0 ≤ v →
  v * 10 ^ Z.of_nat (String.length s) ≤ (read_dec v s).1 < (v + 1) * 10 ^ Z.of_nat (String.length s).
Proof.
  revert v. induction s as [|a s IH]; intros v; cbn [string_forall String.length read_dec]; [cbn; lia|].
  intros [E Hs]%andb_true_iff Hv. rewrite E. pose proof (is_digit_val a E). specialize (IH (v * 10 + digit_val a) Hs ltac:(lia)).
  rewrite Nat2Z.inj_succ, Z.pow_succ_r by lia. set (p := 10 ^ _) in *. assert (0 < p) by (apply Z.pow_pos_nonneg; lia). nia.
Qed.

Lemma digit_schar a : is_digit a = true → schar a = 48 + digit_val a.
Proof. unfold is_digit, schar, digit_val, signed. intros H. zb. rewrite Z.mod_small by lia. repeat case_match; zb; lia. Qed.

(** Numbers of the same length compare as their digits do. *)
Lemma digits_cmp_val n1 n2 v : string_forall is_digit n1 = true → string_forall is_digit n2 = true → 0 ≤ v →
  String.length n1 = String.length n2 →
  digits_cmp n1 n2 = lex [(read_dec v n1).1] [(read_dec v n2).1].
Proof.
  revert n2 v. induction n1 as [|a n1 IH]; intros [|b n2] v; try done; cbn [string_forall String.length read_dec digits_cmp].
  - intros _ _ _ _. cbn. by rewrite Z.eqb_refl.
  - intros [Ea H1]%andb_true_iff [Eb H2]%andb_true_iff Hv [= Hl]. rewrite Ea, Eb.
    pose proof (is_digit_val a Ea). pose proof (is_digit_val b Eb).
    destruct (Ascii.eqb_spec a b) as [->|Hn]; [apply IH; [done..|lia|done]|].
    assert (digit_val a ≠ digit_val b).
    { intros E. apply Hn, uchar_inj. unfold digit_val in E. unfold uchar. lia. }
    rewrite (digit_schar a Ea), (digit_schar b Eb), lex_single.
    pose proof (read_dec_bounds n1 (v * 10 + digit_val a) H1 ltac:(lia)) as B1.
    pose proof (read_dec_bounds n2 (v * 10 + digit_val b) H2 ltac:(lia)) as B2. rewrite Hl in B1.
    set (p := 10 ^ _) in *. assert (0 < p) by (apply Z.pow_pos_nonneg; lia).
    destruct (Z.ltb_spec (48 + digit_val a) (48 + digit_val b)).
    + assert ((read_dec (v * 10 + digit_val a) n1).1 < (read_dec (v * 10 + digit_val b) n2).1) by nia. lia.
    + assert ((read_dec (v * 10 + digit_val b) n2).1 < (read_dec (v * 10 + digit_val a) n1).1) by nia. lia.
Qed.

(** A number without leading zeros has its value's length. *)
Lemma skip_zeros_head s : match skip_zeros s with String a _ => a ≠ zero_char | EmptyString => True end.
Proof. induction s as [|a s IH]; [done|]. cbn. destruct (Ascii.eqb_spec a zero_char); [done|]. done. Qed.

Lemma shorter_is_less s1 s2 : let n1 := take_digits s1 in let n2 := take_digits (skip_zeros s2) in
  (String.length n1 < String.length n2)%nat → (read_dec 0 n1).1 < (read_dec 0 n2).1.
Proof.
  intros n1 n2 Hl. pose proof (read_dec_bounds n1 0 (take_digits_forall _) ltac:(lia)) as B1.
  pose proof (skip_zeros_head s2) as Hh. pose proof (take_digits_forall (skip_zeros s2)) as Hf. fold n2 in Hf. revert Hl Hf. subst n2.
  destruct (skip_zeros s2) as [|a t]; cbn [take_digits]; [cbn; lia|]. destruct (is_digit a) eqn:E; [|cbn; lia].
  cbn [String.length string_forall read_dec]. rewrite E. cbn [andb]. intros Hl Hf.
  pose proof (is_digit_val a E). assert (digit_val a ≠ 0).
  { intros Ha. apply Hh, uchar_inj. unfold digit_val in Ha. unfold uchar, zero_char. cbn. lia. }
  pose proof (read_dec_bounds (take_digits t) (0 * 10 + digit_val a) Hf ltac:(lia)) as B2.
  assert (10 ^ Z.of_nat (String.length n1) ≤ 10 ^ Z.of_nat (String.length (take_digits t))) by (apply Z.pow_le_mono_r; lia).
  set (p := 10 ^ Z.of_nat (String.length n1)) in *. set (q := 10 ^ Z.of_nat (String.length (take_digits t))) in *. nia.
Qed.

(** ** The comparison is that of the reference *)

(** Two numbers at the front. *)
Definition numbers_cmp (s1 s2 : string) : Z :=
  let n1 := take_digits (skip_zeros s1) in
  let n2 := take_digits (skip_zeros s2) in
  let l1 := String.length n1 in
  let l2 := String.length n2 in
  if negb (l1 =? l2)%nat then (if (l1 <? l2)%nat then -1 else 1) else digits_cmp n1 n2.

Lemma numbers_cmp_val s1 s2 : numbers_cmp s1 s2 = lex [(read_dec 0 s1).1] [(read_dec 0 s2).1].
Proof.
  unfold numbers_cmp. rewrite <- (read_dec_skip s1), <- (read_dec_skip s2), (read_dec_take 0 (skip_zeros s1)), (read_dec_take 0 (skip_zeros s2)).
  cbn [fst]. destruct (Nat.eqb_spec (String.length (take_digits (skip_zeros s1))) (String.length (take_digits (skip_zeros s2)))) as [E|E].
  - apply digits_cmp_val; [apply take_digits_forall..|lia|done].
  - rewrite lex_single. cbn [negb]. destruct (Nat.ltb_spec (String.length (take_digits (skip_zeros s1))) (String.length (take_digits (skip_zeros s2)))).
    + pose proof (shorter_is_less (skip_zeros s1) s2 ltac:(done)). lia.
    + pose proof (shorter_is_less (skip_zeros s2) s1 ltac:(lia)). lia.
Qed.

Lemma drop_skip_shorter a s : is_digit a = true → (String.length (drop_digits (skip_zeros (String a s))) < String.length (String a s))%nat.
Proof.
  intros E.
  assert (∀ t, (String.length (drop_digits t) ≤ String.length t)%nat) as Hd.
  { intros t. rewrite <- (take_drop_digits t) at 2. autorewrite with osiris_str. lia. }
  assert (∀ t, (String.length (skip_zeros t) ≤ String.length t)%nat) as Hz.
  { intros t. induction t as [|b t IH]; [done|]. cbn. destruct (Ascii.eqb b zero_char); cbn in *; lia. }
  cbn [skip_zeros String.length]. destruct (Ascii.eqb a zero_char).
  - pose proof (Hd (skip_zeros s)). pose proof (Hz s). lia.
  - cbn. rewrite E. pose proof (Hd s). lia.
Qed.

Lemma norm_char a s : is_digit a = false → norm (String a s) = schar a :: norm s.
Proof. intros E. unfold norm. cbn. by rewrite E. Qed.

Lemma schar_inj a b : schar a = schar b → a = b.
Proof.
  unfold schar, signed. intros H. apply uchar_inj. unfold uchar. pose proof (N_ascii_bounded a). pose proof (N_ascii_bounded b).
  rewrite !Z.mod_small in H by lia. repeat case_match; zb; lia.
Qed.

Lemma is_digit_schar a : is_digit a = true ↔ 48 ≤ schar a ≤ 57.
Proof.
  unfold is_digit, schar, signed. pose proof (N_ascii_bounded a). rewrite Z.mod_small by lia. split; intros ?; repeat case_match; zb; lia.
Qed.

Lemma strnumcmp_loop_spec fuel s1 s2 : (String.length s1 < fuel)%nat → strnumcmp_loop fuel s1 s2 = Ret (lex (norm s1) (norm s2)).
Proof.
  revert s1 s2. induction fuel as [|fuel IH]; intros s1 s2 Hf; [lia|].
  assert (∀ a s, ∃ x l, norm (String a s) = x :: l) as Hne.
  { intros a s. destruct (is_digit a) eqn:E; [rewrite norm_digit by done|rewrite norm_char by done]; eauto. }
  destruct s1 as [|a s1], s2 as [|b s2]; cbn [strnumcmp_loop].
  - done.
  - destruct (Hne b s2) as (? & ? & ->). done.
  - destruct (Hne a s1) as (? & ? & ->). done.
  - destruct (is_digit a) eqn:Ea, (is_digit b) eqn:Eb; cbn [andb].
    + rewrite (norm_digit a s1 Ea), (norm_digit b s2 Eb). change (48 :: ?x :: ?l) with ([48; x] ++ l).
      pose proof (numbers_cmp_val (String a s1) (String b s2)) as Hc. unfold numbers_cmp in Hc.
      rewrite <- (read_dec_skip (String a s1)), <- (read_dec_skip (String b s2)) in *.
      rewrite (read_dec_take 0 (skip_zeros (String a s1))), (read_dec_take 0 (skip_zeros (String b s2))) in *. cbn [fst snd app] in *.
      set (x := (read_dec 0 (take_digits _)).1) in *. set (y := (read_dec 0 (take_digits (skip_zeros (String b s2)))).1) in *.
      cbn [lex] in *. rewrite Z.eqb_refl. case_match; [f_equal; rewrite Hc; destruct (x =? y) eqn:Exy; [|done]|].
      * exfalso. by case_match.
      * rewrite Hc. destruct (x =? y); [|by case_match]. cbn [Z.eqb negb]. apply IH. pose proof (drop_skip_shorter a s1 Ea). lia.
    + rewrite (norm_digit a s1 Ea), (norm_char b s2 Eb). cbn [lex].
      pose proof (proj1 (is_digit_schar a) Ea). assert (¬ 48 ≤ schar b ≤ 57) by (intros ?%is_digit_schar; congruence).
      destruct (Ascii.eqb_spec a b); [congruence|]. cbn [negb]. f_equal. repeat case_match; zb; lia.
    + rewrite (norm_char a s1 Ea), (norm_digit b s2 Eb). cbn [lex].
      pose proof (proj1 (is_digit_schar b) Eb). assert (¬ 48 ≤ schar a ≤ 57) by (intros ?%is_digit_schar; congruence).
      destruct (Ascii.eqb_spec a b); [congruence|]. cbn [negb]. f_equal. repeat case_match; zb; lia.
    + rewrite (norm_char a s1 Ea), (norm_char b s2 Eb). cbn [lex].
      destruct (Ascii.eqb_spec a b) as [->|Hn]; cbn [negb]; [rewrite Z.eqb_refl; apply IH; cbn in Hf; lia|].
      destruct (Z.eqb_spec (schar a) (schar b)) as [?%schar_inj|]; [done|]. done.
Qed.

Lemma strnumcmp_norm s1 s2 : strnumcmp s1 s2 = Ret (lex (norm s1) (norm s2)).
Proof. apply strnumcmp_loop_spec. lia. Qed.

Lemma keystrcmp_norm k1 k2 : keystrcmp k1 k2 = Ret (lex (key_norm k1) (key_norm k2)).
Proof.
  destruct k1 as [s1|], k2 as [s2|]; try done. cbn [keystrcmp key_norm]. rewrite strnumcmp_norm.
  by destruct (starts_angle s1), (starts_angle s2).
Qed.

(** Keys that compare equal. *)
Definition same_key (k1 k2 : string) : Prop := key_norm (Some k1) = key_norm (Some k2).
#[export] Instance same_key_dec k1 k2 : Decision (same_key k1 k2).
Proof. unfold same_key. apply _. Defined.
#[export] Instance same_key_equiv : Equivalence same_key.
Proof. unfold same_key. split; [done|by intros ??|]. intros x y z. apply eq_trans. Qed.

Lemma keystrcmp_same k1 k2 : keystrcmp (Some k1) (Some k2) = Ret 0 ↔ same_key k1 k2.
Proof. rewrite keystrcmp_norm. unfold same_key. rewrite <- lex_0. split; [by intros [=]|by intros ->]. Qed.

(** C21: Comparing keys always ends and gives the lexicographic order of the keys read as
    numbers and characters, with the keys in angle brackets first: it is total and
    transitive, and two keys compare equal exactly if they read as the same. *)
Theorem keys_totally_ordered k1 k2 k3 :
  keystrcmp k1 k2 = Ret (lex (key_norm k1) (key_norm k2)) ∧
  (keystrcmp k1 k2 = Ret 0 ↔ key_norm k1 = key_norm k2) ∧
  (∃ r, keystrcmp k1 k2 = Ret r ∧ keystrcmp k2 k1 = Ret (- r) ∧ -1 ≤ r ≤ 1) ∧
  (∀ r r', keystrcmp k1 k2 = Ret r → keystrcmp k2 k3 = Ret r' → r ≤ 0 → r' ≤ 0 → ∃ r'', keystrcmp k1 k3 = Ret r'' ∧ r'' ≤ 0).
Proof.
  rewrite !keystrcmp_norm. split_and!; [done| | |].
  - rewrite <- lex_0. split; [by intros [=]|by intros ->].
  - eexists. split; [done|]. rewrite (lex_antisym (key_norm k1)). split; [done|].
    generalize (key_norm k1) (key_norm k2). intros l1. induction l1 as [|x l1 IH]; intros [|y l2]; cbn [lex]; try lia. repeat case_match; try lia. apply IH.
  - intros r r' [= <-] [= <-] H1 H2. eexists. split; [done|]. by eapply lex_trans.
Qed.

Lemma keys_totally_ordered_witness : ∃ r, keystrcmp (Some "<ALL>") (Some "tty10") = Ret r ∧ r ≤ 0.
Proof.
  destruct (keys_totally_ordered (Some "<ALL>") (Some "tty2") (Some "tty10")) as (_ & _ & _ & H). apply (H (-1) (-1)); [reflexivity|reflexivity|lia|lia].
Defined.

(** Leading zeros are not part of a key: these two files are one group. *)
Lemma zeros_do_not_count : keystrcmp (Some "dev/tty1.c") (Some "dev/tty01.c") = Ret 0 ∧ keystrcmp (Some "dev/tty2.c") (Some "dev/tty10.c") = Ret (-1).
Proof. done. Qed.
