(* ===== verification/Groups.v ===== *)
(** * Groups of runs: [hypermemloganalyze/hypermemloganalyze.c]

    The lists by key, and in each the list by system and workload, in which the log
    analysis adds up its statistics.  What is added up and how is left open here: [add] adds
    an event (a run) to statistics that start at [zero]. *)

From Stdlib Require Import ZArith Lia Ascii String.
From stdpp Require Import base list numbers strings.
From S2P Require Import Prelude Helper KeyOrder.
Set Default Proof Using "Type".

(** [stats_aggregate_per_test] and [stats_by_string_key] *)
Definition test : Type := option string * option string.
Record per_test (T : Type) := { pt_test : test; pt_stats : T }.
Arguments pt_test {T} _.
Arguments pt_stats {T} _.
Record by_key (T : Type) := { bk_key : string; bk_stats : list (per_test T) }.
Arguments bk_key {T} _.
Arguments bk_stats {T} _.

Section Groups.
Context {E T : Type} (ev_system ev_workload : E → option string) (add : E → T → res T) (zero : T).

(** ** Operations *)

Fixpoint add_for_test (e : E) (t : test) (l : list (per_test T)) : res (list (per_test T)) :=
  match l with
  | [] => let! s := add e zero in Ret [{| pt_test := t; pt_stats := s |}]
  | p :: l' =>
      if decide (pt_test p = t) then let! s := add e (pt_stats p) in Ret ({| pt_test := pt_test p; pt_stats := s |} :: l')
      else let! l' := add_for_test e t l' in Ret (p :: l')
  end.

Definition add_per_test (e : E) (l : list (per_test T)) : res (list (per_test T)) :=
  let! l := add_for_test e (None, None) l in
  let! l := if ev_system e is Some _ then add_for_test e (ev_system e, None) l else Ret l in
  let! l := if ev_workload e is Some _ then add_for_test e (None, ev_workload e) l else Ret l in
  match ev_system e, ev_workload e with
  | Some s, Some w => add_for_test e (Some s, Some w) l
  | _, _ => Ret l
  end.

(** The loop of [output_analysis_aggregate_add_key]: [None] if the key is new. *)
Fixpoint on_key (key : string) (e : E) (L : list (by_key T)) : res (option (list (by_key T))) :=
  match L with
  | [] => Ret None
  | n :: L' =>
      let! r := keystrcmp (Some (bk_key n)) (Some key) in
      if r =? 0 then
        let! l := add_per_test e (bk_stats n) in
        Ret (Some ({| bk_key := bk_key n; bk_stats := l |} :: L'))
      else
        let! o := on_key key e L' in
        Ret (option_map (cons n) o)
  end.
Definition add_key (key : string) (e : E) (L : list (by_key T)) : res (list (by_key T)) :=
  let! o := on_key key e L in
  match o with
  | Some L => Ret L
  | None => let! l := add_per_test e [] in Ret ({| bk_key := key; bk_stats := l |} :: L)
  end.

(** A sequence of calls. *)
Definition add_keys (calls : list (string * E)) (L : list (by_key T)) : res (list (by_key T)) :=
  res_foldl (λ L c, add_key c.1 c.2 L) L calls.

(** ** What is found in the lists *)

Fixpoint find_test (t : test) (l : list (per_test T)) : option T :=
  match l with [] => None | p :: l' => if decide (pt_test p = t) then Some (pt_stats p) else find_test t l' end.
Fixpoint find_node (key : string) (L : list (by_key T)) : option (list (per_test T)) :=
  match L with [] => None | n :: L' => if decide (same_key (bk_key n) key) then Some (bk_stats n) else find_node key L' end.
Definition find_group (key : string) (t : test) (L : list (by_key T)) : option T := find_test t (default [] (find_node key L)).

(** ** The reference: a group is a part of the sequence of calls *)

(** A test covers a run; [None] stands for all. *)
Definition covers (t : test) (e : E) : Prop := (t.1 = None ∨ t.1 = ev_system e) ∧ (t.2 = None ∨ t.2 = ev_workload e).
#[export] Instance covers_dec t e : Decision (covers t e).
Proof. unfold covers. apply _. Defined.
Definition group (key : string) (t : test) (calls : list (string * E)) : list E :=
  (filter (λ c, same_key c.1 key ∧ covers t c.2) calls).*2.
Definition total (l : list E) : res T := res_foldl (λ s e, add e s) zero l.

(** The tests a run is added for. *)
Definition tests_of (e : E) : list test :=
  (None, None) :: (if ev_system e is Some _ then [(ev_system e, None)] else []) ++ (if ev_workload e is Some _ then [(None, ev_workload e)] else []) ++
  match ev_system e, ev_workload e with Some s, Some w => [(Some s, Some w)] | _, _ => [] end.

Lemma tests_of_NoDup e : NoDup (tests_of e).
Proof. clear add zero T. unfold tests_of. destruct (ev_system e), (ev_workload e); cbn;
  repeat first [apply NoDup_nil_2 | apply NoDup_cons_2; [rewrite ?elem_of_cons, ?elem_of_nil; naive_solver|]]. Qed.

Lemma elem_of_tests t e : t ∈ tests_of e ↔ covers t e.
Proof.
  clear add zero T. unfold tests_of, covers. destruct t as [s w]. destruct (ev_system e), (ev_workload e); cbn;
    rewrite ?elem_of_cons, ?elem_of_nil, ?pair_eq; naive_solver.
Qed.

Lemma add_per_test_eq e l : add_per_test e l = res_foldl (λ l t, add_for_test e t l) l (tests_of e).
Proof.
  unfold add_per_test, tests_of. cbn [res_foldl app]. destruct (add_for_test e (None, None) l) as [l1|]; [|done]. cbn [res_bind].
  destruct (ev_system e) as [s|], (ev_workload e) as [w|]; cbn [res_foldl app res_bind]; try done;
    repeat (match goal with |- context [add_for_test ?e ?t ?l] => destruct (add_for_test e t l) eqn:?; cbn [res_bind] end); try done.
Qed.

Lemma add_for_test_spec e t l :
  match add e (default zero (find_test t l)) with
  | Ret s => ∃ l', add_for_test e t l = Ret l' ∧ ∀ t', find_test t' l' = if decide (t' = t) then Some s else find_test t' l
  | Stop f => add_for_test e t l = Stop f
  end.
Proof.
  induction l as [|p l IH]; cbn [add_for_test find_test default from_option]; unfold id.
  - destruct (add e zero) as [s|f]; [|done]. cbn. eexists. split; [done|]. intros t'. cbn. repeat case_decide; congruence.
  - destruct (decide (pt_test p = t)) as [Et|Hn]; cbn [default]; unfold id.
    + destruct (add e (pt_stats p)) as [s|f]; [|done]. cbn. eexists.
      split; [done|]. intros t'. cbn. repeat case_decide; congruence.
    + destruct (add e _) as [s|f]; [|by rewrite IH]. destruct IH as (l' & -> & Hl). cbn. eexists. split; [done|]. intros t'. cbn.
      rewrite Hl. repeat case_decide; congruence.
Qed.

Lemma add_tests_spec e ts l : NoDup ts →
  match res_foldl (λ l t, add_for_test e t l) l ts with
  | Ret l' => ∀ t, if decide (t ∈ ts) then ∃ s, add e (default zero (find_test t l)) = Ret s ∧ find_test t l' = Some s
                   else find_test t l' = find_test t l
  | Stop f => ∃ t, t ∈ ts ∧ add e (default zero (find_test t l)) = Stop f
  end.
Proof.
  clear ev_system ev_workload. revert l. induction ts as [|t0 ts IH]; intros l Hd; cbn [res_foldl].
  - intros t. rewrite decide_False by apply not_elem_of_nil. done.
  - apply NoDup_cons in Hd as [Hn Hd]. pose proof (add_for_test_spec e t0 l) as Hs. destruct (add e _) as [s|f] eqn:Ea.
    + destruct Hs as (l1 & -> & Hl). cbn [res_bind]. specialize (IH l1 Hd). destruct (res_foldl _ l1 ts) as [l'|f].
      * intros t. specialize (IH t). rewrite Hl in IH. destruct (decide (t = t0)) as [->|Ht].
        -- rewrite decide_False in IH by done. rewrite decide_True by left. eauto.
        -- destruct (decide (t ∈ ts)); [rewrite decide_True by (by right)|rewrite decide_False by (rewrite elem_of_cons; tauto)]; done.
      * destruct IH as (t & Ht & Hf). exists t. split; [by right|]. rewrite Hl, decide_False in Hf by (by intros ->). done.
    + rewrite Hs. cbn. exists t0. split; [left|done].
Qed.

Lemma on_key_spec key e L :
  match find_node key L with
  | None => on_key key e L = Ret None
  | Some l =>
      match add_per_test e l with
      | Ret l' => ∃ L', on_key key e L = Ret (Some L') ∧ ∀ k, find_node k L' = if decide (same_key key k) then Some l' else find_node k L
      | Stop f => on_key key e L = Stop f
      end
  end.
Proof.
  induction L as [|n L IH]; cbn [on_key find_node]; [done|]. rewrite keystrcmp_norm. cbn [res_bind].
  destruct (decide (same_key (bk_key n) key)) as [Hk|Hk].
  - rewrite (proj2 (Z.eqb_eq _ _)) by (by apply lex_0). destruct (add_per_test e (bk_stats n)) as [l'|f]; [|done]. cbn. eexists.
    split; [done|]. intros k. cbn. unfold same_key in *. repeat case_decide; congruence.
  - rewrite (proj2 (Z.eqb_neq _ _)) by (by rewrite lex_0). destruct (find_node key L) as [l|]; [|by rewrite IH].
    destruct (add_per_test e l) as [l'|f]; [|by rewrite IH]. destruct IH as (L' & -> & HL). cbn. eexists. split; [done|].
    intros k. cbn. rewrite HL. unfold same_key in *. repeat case_decide; congruence.
Qed.

Lemma add_key_spec key e L :
  match add_per_test e (default [] (find_node key L)) with
  | Ret l' => ∃ L', add_key key e L = Ret L' ∧ ∀ k, find_node k L' = if decide (same_key key k) then Some l' else find_node k L
  | Stop f => add_key key e L = Stop f
  end.
Proof.
  unfold add_key. pose proof (on_key_spec key e L) as Hs. destruct (find_node key L) as [l|] eqn:El; cbn [default]; unfold id.
  - destruct (add_per_test e l) as [l'|f]; [|by rewrite Hs].
    destruct Hs as (L' & -> & HL). cbn. eauto.
  - rewrite Hs. cbn. destruct (add_per_test e []) as [l'|f]; [|done]. cbn. eexists. split; [done|]. intros k. cbn. done.
Qed.

(** ** The lists hold the groups *)

Definition holds (L : list (by_key T)) (calls : list (string * E)) : Prop :=
  ∀ k t, match find_group k t L with
         | None => group k t calls = []
         | Some s => group k t calls ≠ [] ∧ total (group k t calls) = Ret s
         end.

Lemma group_snoc k t calls key e :
  group k t (calls ++ [(key, e)]) = group k t calls ++ (if decide (same_key key k ∧ covers t e) then [e] else []).
Proof.
  unfold group. rewrite filter_app, fmap_app. f_equal. case_decide; [by rewrite filter_cons_True|by rewrite filter_cons_False].
Qed.

Lemma total_snoc l e : total (l ++ [e]) = let! s := total l in add e s.
Proof. unfold total. rewrite res_foldl_app. destruct (res_foldl _ _ l); [|done]. cbn. by destruct (add e x). Qed.

Lemma holds_total L calls k t : holds L calls → total (group k t calls) = Ret (default zero (find_group k t L)).
Proof. intros H. specialize (H k t). destruct (find_group k t L) as [s|]; [by destruct H|]. by rewrite H. Qed.

Lemma find_group_same k k' t L : same_key k k' → find_group k t L = find_group k' t L.
Proof.
  intros Hk. unfold find_group. f_equal. f_equal. induction L as [|n L IH]; [done|]. cbn. rewrite IH. unfold same_key in *. repeat case_decide; congruence.
Qed.

Lemma group_same k k' t calls : same_key k k' → group k t calls = group k' t calls.
Proof.
  intros Hk. unfold group. f_equal. apply list_filter_iff. intros c. unfold same_key in *. rewrite Hk. done.
Qed.

Lemma add_key_holds L calls key e : holds L calls →
  match add_key key e L with
  | Ret L' => holds L' (calls ++ [(key, e)])
  | Stop f => ∃ k t, total (group k t (calls ++ [(key, e)])) = Stop f
  end.
Proof.
  intros H. pose proof (add_key_spec key e L) as Hs. rewrite add_per_test_eq in Hs.
  pose proof (add_tests_spec e (tests_of e) (default [] (find_node key L)) (tests_of_NoDup e)) as Ht.
  destruct (res_foldl _ _ (tests_of e)) as [l'|f].
  - destruct Hs as (L' & -> & HL). intros k t. unfold find_group. rewrite HL, group_snoc. case_decide as Hk; cbn [default]; unfold id.
    + specialize (Ht t). rewrite <- (group_same _ _ _ _ Hk). case_decide as Hc.
      * destruct Ht as (s & Ha & ->). apply elem_of_tests in Hc. rewrite decide_True by done. split; [by destruct (group _ _ _)|].
        rewrite total_snoc, (holds_total L) by done. cbn [res_bind]. done.
      * rewrite Ht. rewrite decide_False by (rewrite <- elem_of_tests; tauto). rewrite app_nil_r. apply (H key t).
    + rewrite decide_False by tauto. rewrite app_nil_r. apply (H k t).
  - rewrite Hs. destruct Ht as (t & Hin & Hf). exists key, t. apply elem_of_tests in Hin.
    rewrite group_snoc, decide_True by (split; [unfold same_key|]; done). rewrite total_snoc, (holds_total L) by done. done.
Qed.

Lemma total_app_stop l1 l2 f : total l1 = Stop f → total (l1 ++ l2) = Stop f.
Proof. unfold total. rewrite res_foldl_app. by intros ->. Qed.

Lemma group_app k t c1 c2 : group k t (c1 ++ c2) = group k t c1 ++ group k t c2.
Proof. unfold group. by rewrite filter_app, fmap_app. Qed.

Lemma add_keys_hold L before calls : holds L before →
  match add_keys calls L with
  | Ret L' => holds L' (before ++ calls)
  | Stop f => ∃ k t, total (group k t (before ++ calls)) = Stop f
  end.
Proof.
  revert L before. induction calls as [|[key e] calls IH]; intros L before H; cbn [add_keys res_foldl].
  - by rewrite app_nil_r.
  - pose proof (add_key_holds L before key e H) as Hk. cbn [fst snd]. destruct (add_key key e L) as [L'|f]; cbn [res_bind].
    + specialize (IH L' _ Hk). rewrite <- app_assoc in IH. exact IH.
    + destruct Hk as (k & t & Hf). exists k, t. rewrite group_app in *. change ((key, e) :: calls) with ([(key, e)] ++ calls).
      rewrite group_app, app_assoc. by apply total_app_stop.
Qed.

Lemma holds_nil : holds [] [].
Proof. done. Qed.

(** ** Every key and every test has one entry *)

Record distinct (L : list (by_key T)) : Prop := {
  di_keys : ∀ i j n m, L !! i = Some n → L !! j = Some m → same_key (bk_key n) (bk_key m) → i = j;
  di_tests : Forall (λ n, NoDup (pt_test <$> bk_stats n)) L;
}.

Lemma add_for_test_tests e t l l' : add_for_test e t l = Ret l' →
  pt_test <$> l' = (pt_test <$> l) ++ (if decide (t ∈ pt_test <$> l) then [] else [t]).
Proof.
  clear ev_system ev_workload. revert l'. induction l as [|p l IH]; intros l'; cbn [add_for_test].
  - intros (s & _ & [= <-])%res_bind_inv. cbn. by rewrite decide_False by apply not_elem_of_nil.
  - rewrite fmap_cons. destruct (decide (pt_test p = t)) as [<-|Hn].
    + intros (s & _ & [= <-])%res_bind_inv. cbn. rewrite decide_True by left. by rewrite app_nil_r.
    + intros (l1 & H1 & [= <-])%res_bind_inv. rewrite fmap_cons, (IH _ H1). cbn. f_equal. f_equal.
      destruct (decide (t ∈ pt_test <$> l)); [rewrite decide_True by (by right)|rewrite decide_False by (rewrite elem_of_cons; naive_solver)]; done.
Qed.

Lemma add_for_test_NoDup e t l l' : NoDup (pt_test <$> l) → add_for_test e t l = Ret l' → NoDup (pt_test <$> l').
Proof.
  intros Hd H. rewrite (add_for_test_tests _ _ _ _ H). case_decide as Ht; [by rewrite app_nil_r|].
  apply NoDup_app. split_and!; [done| |apply NoDup_singleton]. intros x Hx ->%list_elem_of_singleton. done.
Qed.

Lemma add_per_test_NoDup e l l' : NoDup (pt_test <$> l) → add_per_test e l = Ret l' → NoDup (pt_test <$> l').
Proof.
  rewrite add_per_test_eq. intros Hd. apply (res_foldl_inv (λ l, NoDup (pt_test <$> l))); [|done]. intros a t a' Ha. by apply add_for_test_NoDup.
Qed.

Lemma on_key_keys key e L o : on_key key e L = Ret o →
  match o with
  | None => Forall (λ n, ¬ same_key (bk_key n) key) L
  | Some L' => bk_key <$> L' = bk_key <$> L ∧ (Forall (λ n, NoDup (pt_test <$> bk_stats n)) L → Forall (λ n, NoDup (pt_test <$> bk_stats n)) L')
  end.
Proof.
  revert o. induction L as [|n L IH]; intros o; cbn [on_key]; [intros [= <-]; constructor|]. rewrite keystrcmp_norm. cbn [res_bind].
  destruct (Z.eqb_spec (lex (key_norm (Some (bk_key n))) (key_norm (Some key))) 0) as [Ek|Ek].
  - intros (l & Hl & [= <-])%res_bind_inv. split; [done|]. intros HL. inversion HL; subst. constructor; [|done]. by eapply add_per_test_NoDup.
  - intros (o' & Ho & [= <-])%res_bind_inv. specialize (IH _ Ho). destruct o' as [L'|]; cbn.
    + destruct IH as [Hk Hn]. split; [by f_equal|]. intros HL. inversion HL; subst. constructor; auto.
    + constructor; [|done]. unfold same_key. by rewrite <- lex_0.
Qed.

Lemma add_key_distinct key e L L' : distinct L → add_key key e L = Ret L' → distinct L'.
Proof.
  intros [Hk Ht] H. unfold add_key in H. apply res_bind_inv in H as (o & Ho & H). pose proof (on_key_keys _ _ _ _ Ho) as Hs. destruct o as [L1|].
  - injection H as <-. destruct Hs as [Hkeys Hn]. split; [|by apply Hn]. intros i j n m Hi Hj Hsame.
    assert (∀ i n, L1 !! i = Some n → ∃ n', L !! i = Some n' ∧ bk_key n' = bk_key n) as Hold.
    { intros i' n' Hi'. assert ((bk_key <$> L) !! i' = Some (bk_key n')) as Hx by (rewrite <- Hkeys, list_lookup_fmap, Hi'; done).
      rewrite list_lookup_fmap in Hx. destruct (L !! i') as [n''|]; [|done]. injection Hx as Hx. eauto. }
    destruct (Hold i n Hi) as (n' & Hi' & En). destruct (Hold j m Hj) as (m' & Hj' & Em). apply (Hk i j n' m'); [done..|]. by rewrite En, Em.
  - apply res_bind_inv in H as (l & Hl & [= <-]). split.
    + rewrite List.Forall_forall in Hs. intros [|i] [|j] n m; cbn; try done.
      * intros [= <-] Hj Hsame. cbn in Hsame. exfalso. apply (Hs m); [by eapply list_elem_of_In, list_elem_of_lookup_2|by symmetry].
      * intros Hi [= <-] Hsame. cbn in Hsame. exfalso. apply (Hs n); [by eapply list_elem_of_In, list_elem_of_lookup_2|done].
      * intros Hi Hj Hsame. f_equal. by eapply Hk.
    + constructor; [|done]. cbn. eapply add_per_test_NoDup; [|exact Hl]. constructor.
Qed.

(** An entry of the lists is what is found for its key and test. *)
Lemma find_test_elem p l : NoDup (pt_test <$> l) → p ∈ l → find_test (pt_test p) l = Some (pt_stats p).
Proof.
  induction l as [|q l IH]; intros Hd Hp; [by apply not_elem_of_nil in Hp|]. rewrite fmap_cons in Hd. apply NoDup_cons in Hd as [Hq Hd]. cbn.
  apply elem_of_cons in Hp as [->|Hp]; [by rewrite decide_True|]. rewrite decide_False; [by apply IH|].
  intros Eq. apply Hq. rewrite Eq. by apply list_elem_of_fmap_2.
Qed.

Lemma find_node_elem n L : distinct L → n ∈ L → find_node (bk_key n) L = Some (bk_stats n).
Proof.
  intros [Hk _] (i & Hi)%list_elem_of_lookup_1. revert i Hi. induction L as [|m L IH]; intros i Hi; [done|]. cbn.
  destruct (decide (same_key (bk_key m) (bk_key n))) as [Hs|Hs].
  - assert (0%nat = i) as <- by (by apply (Hk 0%nat i m n)). by injection Hi as <-.
  - destruct i as [|i]; [injection Hi as <-; by destruct Hs|]. apply (IH) with i; [|done].
    intros i' j' n' m' Hi' Hj' Hs'. by injection (Hk (S i') (S j') n' m' Hi' Hj' Hs').
Qed.

Lemma find_group_elem n p L : distinct L → n ∈ L → p ∈ bk_stats n → find_group (bk_key n) (pt_test p) L = Some (pt_stats p).
Proof.
  intros Hd Hn Hp. unfold find_group. rewrite find_node_elem by done. cbn. apply find_test_elem; [|done].
  destruct Hd as [_ Ht]. rewrite List.Forall_forall in Ht. apply Ht. by apply list_elem_of_In.
Qed.

Lemma distinct_nil : distinct [].
Proof. split; [done|constructor]. Qed.
End Groups.
