(* ===== verification/Significance.v ===== *)
(** * Significance: [hypermemloganalyze/stats.c]

    Sums over the runs of an experiment with their averages and deviations, Z-scores
    against the runs without faults, and p-values read from the tables of
    [stats-chi2.h] and [stats-student-t.h].  The rows of the second table, some eight
    thousand numbers, are an argument. *)

From Stdlib Require Import ZArith Lia Floats.SpecFloat.
From stdpp Require Import base list numbers.
From S2P Require Import Prelude Double Stats.

Definition SIGNIFICANCE_TRESHOLD : double := ddiv (double_of_int 5) (double_of_int 100).
Definition CHI2_EXPECTED_MIN : double := double_of_int 5.
Definition ZSCORE_MAX : Z := 4.

(** [long long] *)
Definition chk64 (z : Z) : res Z := if (-2^63 <=? z) && (z <? 2^63) then Ret z else Stop FOverflow.

Lemma chk64_ok z : -2^63 ≤ z < 2^63 → chk64 z = Ret z.
Proof. intros H. unfold chk64. destruct (Z.leb_spec (-2^63) z), (Z.ltb_spec z (2^63)); try lia. done. Qed.

Lemma safe_chk64 z : safe (chk64 z) (λ v, v = z).
Proof. unfold chk64. by case_match. Qed.

(** ** Sums *)

Record stat_aggregate_double := { ad_n : Z; ad_sum : double; ad_sum2 : double }.
Record stat_aggregate_int := { ai_n : Z; ai_sum : Z; ai_sum2 : Z }.
Definition aggregate_double_zero : stat_aggregate_double := {| ad_n := 0; ad_sum := zero; ad_sum2 := zero |}.
Definition aggregate_int_zero : stat_aggregate_int := {| ai_n := 0; ai_sum := 0; ai_sum2 := 0 |}.

Definition stat_aggregate_double_add (st : stat_aggregate_double) (value : double) : res stat_aggregate_double :=
  let! n := chk32 (ad_n st + 1) in
  Ret {| ad_n := n; ad_sum := dadd (ad_sum st) value; ad_sum2 := dadd (ad_sum2 st) (dmul value value) |}.
Definition stat_aggregate_double_avg (st : stat_aggregate_double) : double :=
  if 0 <? ad_n st then ddiv (ad_sum st) (double_of_int (ad_n st)) else NAN.
Definition stat_aggregate_double_var (st : stat_aggregate_double) : double :=
  if 1 <? ad_n st then
    ddiv (dsub (ad_sum2 st) (ddiv (dmul (ad_sum st) (ad_sum st)) (double_of_int (ad_n st)))) (double_of_int (ad_n st - 1))
  else NAN.
Definition stat_aggregate_double_stdev (st : stat_aggregate_double) : double := dsqrt (stat_aggregate_double_var st).

Definition stat_aggregate_int_add (st : stat_aggregate_int) (value : Z) : res stat_aggregate_int :=
  let! n := chk32 (ai_n st + 1) in
  let! sum := chk64 (ai_sum st + value) in
  let! square := chk64 (value * value) in
  let! sum2 := chk64 (ai_sum2 st + square) in
  Ret {| ai_n := n; ai_sum := sum; ai_sum2 := sum2 |}.
Definition stat_aggregate_int_avg (st : stat_aggregate_int) : double :=
  if 0 <? ai_n st then ddiv (double_of_int (ai_sum st)) (double_of_int (ai_n st)) else NAN.
(** The square of the sum is computed in [long long]. *)
Definition stat_aggregate_int_var (st : stat_aggregate_int) : res double :=
  if 1 <? ai_n st then
    let! square := chk64 (ai_sum st * ai_sum st) in
    Ret (ddiv (dsub (double_of_int (ai_sum2 st)) (ddiv (double_of_int square) (double_of_int (ai_n st)))) (double_of_int (ai_n st - 1)))
  else Ret NAN.
Definition stat_aggregate_int_stdev (st : stat_aggregate_int) : res double :=
  let! v := stat_aggregate_int_var st in Ret (dsqrt v).

(** ** Z-scores *)

Definition zscore_zero : list Z := replicate 9 0.
(** An array element that is counted up. *)
Definition count_at (l : list Z) (i : Z) : res (list Z) :=
  match (if 0 <=? i then l !! Z.to_nat i else None) with
  | Some v => let! v := chk32 (v + 1) in Ret (<[Z.to_nat i := v]> l)
  | None => Stop FBounds
  end.

(** [(int) ceil (x)] *)
Definition ceil_int (x : double) : res Z :=
  match x with
  | S754_zero _ => Ret 0
  | S754_finite s m e =>
      let v := if 0 <=? e then Zpos m * 2^e else Zpos m / 2^(- e) in
      let c := if 0 <=? e then Zpos m * 2^e else (Zpos m + 2^(- e) - 1) / 2^(- e) in
      chk32 (if s then - v else c)
  | _ => Stop FOverflow
  end.

Definition stat_aggregate_zscore_add (bins : list Z) (value : double) (golden : stat_aggregate_double) : res (list Z) :=
  if ad_n golden <=? 1 then Ret bins
  else
    let stdev := stat_aggregate_double_stdev golden in
    if deq stdev zero then Ret bins
    else
      let zscore := ddiv (dsub value (stat_aggregate_double_avg golden)) stdev in
      let! z := if dlt zscore zero then ceil_int zscore else floor_int zscore in
      let z := if z <? - ZSCORE_MAX then - ZSCORE_MAX else z in
      let z := if ZSCORE_MAX <? z then ZSCORE_MAX else z in
      count_at bins (z + ZSCORE_MAX).
Definition stat_aggregate_zscore_is_zero (bins : list Z) : bool := forallb (λ v, v =? 0) bins.

(** ** Tables of p-values *)

(** The double a decimal literal stands for: [m] divided by [10 ^ k], rounded once. *)
Definition literal (l : Z * Z) : double :=
  match l.1, 10 ^ l.2 with
  | Zpos m, Zpos d => ddiv (S754_finite false m 0) (S754_finite false d 0)
  | _, _ => zero
  end.

(** [while (imin + 1 < imax)]; [below i] is the test of entry [i]. *)
Fixpoint bsearch (fuel : nat) (below : Z → res bool) (imin imax : Z) : res (Z * Z) :=
  if imin + 1 <? imax then
    match fuel with
    | O => Stop FFuel
    | S fuel =>
        let imid := (imin + imax) ÷ 2 in
        let! b := below imid in
        if b then bsearch fuel below imid imax else bsearch fuel below imin imid
    end
  else Ret (imin, imax).

Definition entry {A} (l : list A) (i : Z) : res A :=
  match (if 0 <=? i then l !! Z.to_nat i else None) with Some x => Ret x | None => Stop FBounds end.

Definition chi2_1df_literals : list ((Z * Z) * (Z * Z)) := [
  ((0, 0), (1, 0)); ((1, 3), (974772879, 9)); ((1023293, 9), (974480862, 9)); ((1047129, 9), (974185467, 9)); ((1071519, 9), (973886655, 9));
  ((1096478, 9), (973584387, 9)); ((1122018, 9), (973278622, 9)); ((1148154, 9), (972969321, 9)); ((1174898, 9), (972656442, 9));
  ((1202264, 9), (972339945, 9)); ((1230269, 9), (972019787, 9)); ((1258925, 9), (971695926, 9)); ((128825, 8), (971368321, 9));
  ((1318257, 9), (971036926, 9)); ((1348963, 9), (970701699, 9)); ((1380384, 9), (970362596, 9)); ((1412538, 9), (970019572, 9));
  ((144544, 8), (969672581, 9)); ((1479108, 9), (969321578, 9)); ((1513561, 9), (968966517, 9)); ((1548817, 9), (968607351, 9));
  ((1584893, 9), (968244032, 9)); ((162181, 8), (967876513, 9)); ((1659587, 9), (967504745, 9)); ((1698244, 9), (967128679, 9));
  ((1737801, 9), (966748267, 9)); ((1778279, 9), (966363457, 9)); ((1819701, 9), (965974199, 9)); ((1862087, 9), (965580441, 9));
  ((1905461, 9), (965182133, 9)); ((1949845, 9), (964779222, 9)); ((1995262, 9), (964371654, 9)); ((2041738, 9), (963959376, 9));
  ((2089296, 9), (963542335, 9)); ((2137962, 9), (963120474, 9)); ((2187762, 9), (962693739, 9)); ((2238721, 9), (962262073, 9));
  ((2290868, 9), (96182542, 8)); ((2344229, 9), (961383722, 9)); ((2398833, 9), (960936922, 9)); ((2454709, 9), (960484961, 9));
  ((2511886, 9), (960027779, 9)); ((2570396, 9), (959565317, 9)); ((2630268, 9), (959097514, 9)); ((2691535, 9), (958624307, 9));
  ((2754229, 9), (958145637, 9)); ((2818383, 9), (957661438, 9)); ((2884032, 9), (957171649, 9)); ((2951209, 9), (956676205, 9));
  ((3019952, 9), (956175041, 9)); ((3090295, 9), (955668092, 9)); ((3162278, 9), (95515529, 8)); ((3235937, 9), (95463657, 8));
  ((3311311, 9), (954111862, 9)); ((3388442, 9), (953581099, 9)); ((3467369, 9), (953044211, 9)); ((3548134, 9), (952501128, 9));
  ((3630781, 9), (951951778, 9)); ((3715352, 9), (951396091, 9)); ((3801894, 9), (950833993, 9)); ((3890451, 9), (950265411, 9));
  ((3981072, 9), (949690271, 9)); ((4073803, 9), (949108498, 9)); ((4168694, 9), (948520016, 9)); ((4265795, 9), (947924748, 9));
  ((4365158, 9), (947322617, 9)); ((4466836, 9), (946713544, 9)); ((4570882, 9), (94609745, 8)); ((4677351, 9), (945474255, 9));
  ((4786301, 9), (944843877, 9)); ((4897788, 9), (944206236, 9)); ((5011872, 9), (943561247, 9)); ((5128614, 9), (942908827, 9));
  ((5248075, 9), (942248891, 9)); ((5370318, 9), (941581354, 9)); ((5495409, 9), (940906129, 9)); ((5623413, 9), (940223129, 9));
  ((5754399, 9), (939532265, 9)); ((5888437, 9), (938833447, 9)); ((6025596, 9), (938126585, 9)); ((616595, 8), (937411587, 9));
  ((6309573, 9), (936688362, 9)); ((6456542, 9), (935956815, 9)); ((6606934, 9), (935216852, 9)); ((676083, 8), (934468378, 9));
  ((691831, 8), (933711296, 9)); ((7079458, 9), (932945508, 9)); ((724436, 8), (932170916, 9)); ((7413102, 9), (93138742, 8));
  ((7585776, 9), (930594919, 9)); ((7762471, 9), (929793312, 9)); ((7943282, 9), (928982495, 9)); ((8128305, 9), (928162364, 9));
  ((8317638, 9), (927332814, 9)); ((851138, 8), (926493738, 9)); ((8709636, 9), (92564503, 8)); ((8912509, 9), (92478658, 8));
  ((9120108, 9), (923918279, 9)); ((9332543, 9), (923040016, 9)); ((9549926, 9), (922151678, 9)); ((9772372, 9), (921253153, 9));
  ((1, 2), (920344325, 9)); ((1023293, 8), (91942508, 8)); ((10471285, 9), (9184953, 7)); ((10715193, 9), (917554867, 9));
  ((10964782, 9), (916603661, 9)); ((11220185, 9), (915641563, 9)); ((11481536, 9), (91466845, 8)); ((11748976, 9), (913684198, 9));
  ((12022644, 9), (912688685, 9)); ((12302688, 9), (911681783, 9)); ((12589254, 9), (910663366, 9)); ((12882496, 9), (909633306, 9));
  ((13182567, 9), (908591472, 9)); ((13489629, 9), (907537735, 9)); ((13803843, 9), (906471962, 9)); ((14125375, 9), (905394019, 9));
  ((14454398, 9), (904303771, 9)); ((14791084, 9), (903201082, 9)); ((15135612, 9), (902085815, 9)); ((15488166, 9), (90095783, 8));
  ((15848932, 9), (899816987, 9)); ((16218101, 9), (898663144, 9)); ((16595869, 9), (897496159, 9)); ((16982437, 9), (896315886, 9));
  ((17378008, 9), (895122179, 9)); ((17782794, 9), (893914891, 9)); ((18197009, 9), (892693874, 9)); ((18620871, 9), (891458977, 9));
  ((19054607, 9), (890210048, 9)); ((19498446, 9), (888946935, 9)); ((19952623, 9), (887669482, 9)); ((20417379, 9), (886377534, 9));
  ((20892961, 9), (885070932, 9)); ((21379621, 9), (883749519, 9)); ((21877616, 9), (882413134, 9)); ((22387211, 9), (881061615, 9));
  ((22908677, 9), (879694798, 9)); ((23442288, 9), (878312519, 9)); ((23988329, 9), (876914611, 9)); ((24547089, 9), (875500906, 9));
  ((25118864, 9), (874071236, 9)); ((25703958, 9), (87262543, 8)); ((2630268, 8), (871163314, 9)); ((26915348, 9), (869684716, 9));
  ((27542287, 9), (868189459, 9)); ((28183829, 9), (866677368, 9)); ((28840315, 9), (865148265, 9)); ((29512092, 9), (863601968, 9));
  ((30199517, 9), (862038298, 9)); ((30902954, 9), (860457071, 9)); ((31622777, 9), (858858103, 9)); ((32359366, 9), (857241209, 9));
  ((33113112, 9), (855606202, 9)); ((33884416, 9), (853952892, 9)); ((34673685, 9), (852281091, 9)); ((35481339, 9), (850590606, 9));
  ((36307805, 9), (848881244, 9)); ((37153523, 9), (847152812, 9)); ((3801894, 8), (845405113, 9)); ((38904514, 9), (843637951, 9));
  ((39810717, 9), (841851126, 9)); ((40738028, 9), (840044439, 9)); ((41686938, 9), (838217689, 9)); ((42657952, 9), (836370673, 9));
  ((43651583, 9), (834503186, 9)); ((44668359, 9), (832615025, 9)); ((45708819, 9), (830705981, 9)); ((46773514, 9), (828775848, 9));
  ((47863009, 9), (826824417, 9)); ((48977882, 9), (824851476, 9)); ((50118723, 9), (822856815, 9)); ((51286138, 9), (820840221, 9));
  ((52480746, 9), (81880148, 8)); ((5370318, 8), (816740377, 9)); ((54954087, 9), (814656697, 9)); ((56234133, 9), (812550222, 9));
  ((57543994, 9), (810420734, 9)); ((58884366, 9), (808268015, 9)); ((60255959, 9), (806091844, 9)); ((616595, 7), (803892001, 9));
  ((63095734, 9), (801668265, 9)); ((64565423, 9), (799420412, 9)); ((66069345, 9), (79714822, 8)); ((67608298, 9), (794851465, 9));
  ((69183097, 9), (792529923, 9)); ((70794578, 9), (790183369, 9)); ((72443596, 9), (787811577, 9)); ((74131024, 9), (785414321, 9));
  ((75857758, 9), (782991375, 9)); ((77624712, 9), (780542513, 9)); ((79432823, 9), (778067507, 9)); ((81283052, 9), (775566131, 9));
  ((83176377, 9), (773038157, 9)); ((85113804, 9), (770483358, 9)); ((87096359, 9), (767901507, 9)); ((89125094, 9), (765292378, 9));
  ((91201084, 9), (762655743, 9)); ((9332543, 8), (759991377, 9)); ((95499259, 9), (757299054, 9)); ((97723722, 9), (754578548, 9));
  ((1, 1), (751829634, 9)); ((102329299, 9), (749052089, 9)); ((104712855, 9), (746245691, 9)); ((107151931, 9), (743410216, 9));
  ((10964782, 8), (740545445, 9)); ((112201845, 9), (737651157, 9)); ((114815362, 9), (734727135, 9)); ((117489755, 9), (731773162, 9));
  ((120226443, 9), (728789023, 9)); ((123026877, 9), (725774505, 9)); ((125892541, 9), (722729397, 9)); ((128824955, 9), (71965349, 8));
  ((131825674, 9), (716546577, 9)); ((134896288, 9), (713408455, 9)); ((138038426, 9), (710238922, 9)); ((141253754, 9), (707037778, 9));
  ((144543977, 9), (70380483, 8)); ((147910839, 9), (700539884, 9)); ((151356125, 9), (697242751, 9)); ((154881662, 9), (693913247, 9));
  ((158489319, 9), (690551189, 9)); ((16218101, 8), (687156401, 9)); ((165958691, 9), (68372871, 8)); ((169824365, 9), (680267947, 9));
  ((173780083, 9), (676773949, 9)); ((177827941, 9), (673246557, 9)); ((181970086, 9), (669685618, 9)); ((186208714, 9), (666090985, 9));
  ((190546072, 9), (662462515, 9)); ((19498446, 8), (658800073, 9)); ((199526231, 9), (65510353, 8)); ((204173794, 9), (651372764, 9));
  ((208929613, 9), (647607659, 9)); ((213796209, 9), (643808107, 9)); ((218776162, 9), (639974008, 9)); ((223872114, 9), (636105269, 9));
  ((229086765, 9), (632201807, 9)); ((234422882, 9), (628263546, 9)); ((239883292, 9), (62429042, 8)); ((245470892, 9), (620282373, 9));
  ((251188643, 9), (616239358, 9)); ((257039578, 9), (612161338, 9)); ((263026799, 9), (608048287, 9)); ((26915348, 8), (603900191, 9));
  ((27542287, 8), (599717045, 9)); ((281838293, 9), (595498858, 9)); ((28840315, 8), (591245651, 9)); ((295120923, 9), (586957457, 9));
  ((301995172, 9), (582634322, 9)); ((309029543, 9), (578276308, 9)); ((316227766, 9), (573883487, 9)); ((323593657, 9), (56945595, 8));
  ((331131121, 9), (564993801, 9)); ((338844156, 9), (560497158, 9)); ((34673685, 8), (555966158, 9)); ((354813389, 9), (551400953, 9));
  ((363078055, 9), (546801712, 9)); ((371535229, 9), (542168624, 9)); ((380189396, 9), (537501892, 9)); ((389045145, 9), (532801741, 9));
  ((398107171, 9), (528068415, 9)); ((407380278, 9), (523302177, 9)); ((416869383, 9), (518503309, 9)); ((426579519, 9), (513672117, 9));
  ((436515832, 9), (508808926, 9)); ((446683592, 9), (503914086, 9)); ((45708819, 8), (498987965, 9)); ((467735141, 9), (494030959, 9));
  ((478630092, 9), (489043485, 9)); ((489778819, 9), (484025985, 9)); ((501187234, 9), (478978926, 9)); ((512861384, 9), (473902801, 9));
  ((52480746, 8), (46879813, 8)); ((537031796, 9), (463665456, 9)); ((549540874, 9), (458505354, 9)); ((562341325, 9), (453318422, 9));
  ((575439937, 9), (448105291, 9)); ((588843655, 9), (442866619, 9)); ((602559586, 9), (437603091, 9)); ((616595002, 9), (432315426, 9));
  ((630957344, 9), (427004371, 9)); ((645654229, 9), (421670705, 9)); ((660693448, 9), (416315237, 9)); ((676082975, 9), (41093881, 8));
  ((691830971, 9), (405542297, 9)); ((707945784, 9), (400126606, 9)); ((72443596, 8), (394692677, 9)); ((741310241, 9), (389241484, 9));
  ((758577575, 9), (383774034, 9)); ((776247117, 9), (378291368, 9)); ((794328235, 9), (372794563, 9)); ((812830516, 9), (367284729, 9));
  ((831763771, 9), (361763012, 9)); ((851138038, 9), (356230592, 9)); ((87096359, 8), (350688684, 9)); ((891250938, 9), (345138541, 9));
  ((912010839, 9), (339581446, 9)); ((933254301, 9), (334018722, 9)); ((954992586, 9), (328451725, 9)); ((977237221, 9), (322881845, 9));
  ((1, 0), (317310508, 9)); ((1023292992, 9), (311739174, 9)); ((1047128548, 9), (306169336, 9)); ((1071519305, 9), (300602523, 9));
  ((1096478196, 9), (295040294, 9)); ((1122018454, 9), (289484243, 9)); ((1148153621, 9), (283935995, 9)); ((1174897555, 9), (278397205, 9));
  ((1202264435, 9), (27286956, 8)); ((1230268771, 9), (267354775, 9)); ((1258925412, 9), (261854594, 9)); ((1288249552, 9), (256370787, 9));
  ((1318256739, 9), (250905151, 9)); ((1348962883, 9), (245459509, 9)); ((1380384265, 9), (240035704, 9)); ((1412537545, 9), (234635603, 9));
  ((1445439771, 9), (229261092, 9)); ((1479108388, 9), (223914075, 9)); ((1513561248, 9), (218596475, 9)); ((1548816619, 9), (213310225, 9));
  ((1584893192, 9), (208057274, 9)); ((1621810097, 9), (20283958, 8)); ((1659586907, 9), (197659108, 9)); ((1698243652, 9), (192517829, 9));
  ((1737800829, 9), (187417718, 9)); ((177827941, 8), (182360747, 9)); ((1819700859, 9), (177348888, 9)); ((1862087137, 9), (172384108, 9));
  ((1905460718, 9), (167468362, 9)); ((19498446, 7), (162603598, 9)); ((1995262315, 9), (157791744, 9)); ((2041737945, 9), (153034714, 9));
  ((2089296131, 9), (148334399, 9)); ((213796209, 8), (143692665, 9)); ((2187761624, 9), (139111349, 9)); ((2238721139, 9), (134592256, 9));
  ((2290867653, 9), (130137156, 9)); ((2344228815, 9), (125747778, 9)); ((2398832919, 9), (121425809, 9)); ((2454708916, 9), (117172888, 9));
  ((2511886432, 9), (112990603, 9)); ((2570395783, 9), (108880488, 9)); ((2630267992, 9), (104844016, 9)); ((2691534804, 9), (100882599, 9));
  ((2754228703, 9), (96997584, 9)); ((2818382931, 9), (93190245, 9)); ((2884031503, 9), (89461785, 9)); ((2951209227, 9), (85813327, 9));
  ((301995172, 8), (82245915, 9)); ((3090295433, 9), (78760507, 9)); ((316227766, 8), (75357976, 9)); ((3235936569, 9), (72039102, 9));
  ((3311311215, 9), (68804573, 9)); ((3388441561, 9), (65654977, 9)); ((3467368505, 9), (62590809, 9)); ((3548133892, 9), (59612457, 9));
  ((3630780548, 9), (56720209, 9)); ((3715352291, 9), (53914246, 9)); ((3801893963, 9), (51194644, 9)); ((389045145, 8), (48561368, 9));
  ((3981071706, 9), (46014278, 9)); ((4073802778, 9), (4355312, 8)); ((4168693835, 9), (41177533, 9)); ((4265795188, 9), (38887045, 9));
  ((4365158322, 9), (36681074, 9)); ((4466835922, 9), (34558932, 9)); ((4570881896, 9), (3251982, 8)); ((4677351413, 9), (30562835, 9));
  ((4786300923, 9), (28686971, 9)); ((4897788194, 9), (26891117, 9)); ((5011872336, 9), (25174066, 9)); ((512861384, 8), (23534516, 9));
  ((5248074602, 9), (21971069, 9)); ((5370317964, 9), (20482244, 9)); ((5495408739, 9), (1906647, 8)); ((5623413252, 9), (17722102, 9));
  ((5754399373, 9), (16447418, 9)); ((5888436554, 9), (15240625, 9)); ((6025595861, 9), (14099871, 9)); ((6165950019, 9), (13023241, 9));
  ((6309573445, 9), (12008773, 9)); ((645654229, 8), (11054455, 9)); ((660693448, 8), (10158239, 9)); ((6760829754, 9), (9318042, 9));
  ((6918309709, 9), (8531758, 9)); ((7079457844, 9), (779726, 8)); ((7244359601, 9), (7112408, 9)); ((7413102413, 9), (6475057, 9));
  ((758577575, 8), (5883064, 9)); ((7762471166, 9), (5334293, 9)); ((7943282347, 9), (4826621, 9)); ((8128305162, 9), (4357947, 9));
  ((8317637711, 9), (3926195, 9)); ((8511380382, 9), (3529322, 9)); ((87096359, 7), (3165324, 9)); ((8912509381, 9), (2832238, 9));
  ((9120108394, 9), (252815, 8)); ((9332543008, 9), (2251197, 9)); ((954992586, 8), (1999575, 9)); ((977237221, 8), (1771537, 9));
  ((10, 0), (1565402, 9)); ((1023292992, 8), (1379554, 9)); ((1047128548, 8), (1212443, 9)); ((1071519305, 8), (1062594, 9));
  ((1096478196, 8), (928599, 9)); ((1122018454, 8), (809124, 9)); ((1148153621, 8), (70291, 8)); ((1174897555, 8), (608767, 9));
  ((1202264435, 8), (525581, 9)); ((1230268771, 8), (452306, 9)); ((1258925412, 8), (387971, 9)); ((1288249552, 8), (33167, 8));
  ((1318256739, 8), (282565, 9)); ((1348962883, 8), (239886, 9)); ((1380384265, 8), (202921, 9)); ((1412537545, 8), (171021, 9));
  ((1445439771, 8), (143594, 9)); ((1479108388, 8), (120102, 9)); ((1513561248, 8), (100058, 9)); ((1548816619, 8), (830234, 10));
  ((1584893192, 8), (686052, 10)); ((1621810097, 8), (564521, 10)); ((1659586907, 8), (462517, 10)); ((1698243652, 8), (377272, 10));
  ((1737800829, 8), (30635, 9)); ((177827941, 7), (247612, 10)); ((1819700859, 8), (199191, 10)); ((1862087137, 8), (159465, 10));
  ((1905460718, 8), (127031, 10)); ((19498446, 6), (100682, 10)); ((1995262315, 8), (79385, 10)); ((2041737945, 8), (622618, 11));
  ((2089296131, 8), (485676, 11)); ((213796209, 7), (376755, 11)); ((2187761624, 8), (290604, 11)); ((2238721139, 8), (222853, 11));
  ((2290867653, 8), (169883, 11)); ((2344228815, 8), (128718, 11)); ((2398832919, 8), (969214, 12)); ((2454708916, 8), (725158, 12));
  ((2511886432, 8), (53903, 11)); ((2570395783, 8), (39801, 11)); ((2630267992, 8), (291883, 12)); ((2691534804, 8), (212564, 12));
  ((2754228703, 8), (153697, 12)); ((2818382931, 8), (110322, 12)); ((2884031503, 8), (785979, 13)); ((2951209227, 8), (555689, 13));
  ((301995172, 7), (389806, 13)); ((3090295433, 8), (271259, 13)); ((316227766, 7), (187221, 13)); ((3235936569, 8), (128138, 13));
  ((3311311215, 8), (869504, 14)); ((3388441561, 8), (584853, 14)); ((3467368505, 8), (389866, 14)); ((3548133892, 8), (257506, 14));
  ((3630780548, 8), (168488, 14)); ((3715352291, 8), (109185, 14)); ((3801893963, 8), (700612, 15)); ((389045145, 7), (44505, 14));
  ((3981071706, 8), (279806, 15)); ((4073802778, 8), (174067, 15)); ((4168693835, 8), (107122, 15)); ((4265795188, 8), (651988, 16));
  ((4365158322, 8), (39236, 15)); ((4466835922, 8), (233399, 16)); ((4570881896, 8), (137204, 16)); ((4677351413, 8), (796831, 17));
  ((4786300923, 8), (457064, 17)); ((4897788194, 8), (258865, 17)); ((5011872336, 8), (14472, 16)); ((512861384, 7), (798374, 18));
  ((5248074602, 8), (434487, 18)); ((5370317964, 8), (233186, 18)); ((5495408739, 8), (123379, 18)); ((5623413252, 8), (643349, 19));
  ((5754399373, 8), (330504, 19)); ((5888436554, 8), (167216, 19)); ((6025595861, 8), (832903, 20)); ((6165950019, 8), (408292, 20));
  ((6309573445, 8), (1969, 18)); ((645654229, 7), (933797, 21)); ((660693448, 7), (435334, 21)); ((6760829754, 8), (199427, 21));
  ((6918309709, 8), (897338, 22)); ((7079457844, 8), (396425, 22)); ((7244359601, 8), (171875, 22)); ((7413102413, 8), (731004, 23));
  ((758577575, 7), (304852, 23)); ((7762471166, 8), (124601, 23)); ((7943282347, 8), (498903, 24)); ((8128305162, 8), (195597, 24));
  ((8317637711, 8), (750492, 25)); ((8511380382, 8), (281677, 25)); ((87096359, 6), (103361, 25)); ((8912509381, 8), (37062, 25));
  ((9120108394, 8), (129789, 26)); ((9332543008, 8), (443655, 27)); ((954992586, 7), (147947, 27)); ((977237221, 7), (481025, 28));
  ((100, 0), (152397, 28))].
Definition chi2_1df_table : list (double * double) := (λ r, (literal r.1, literal r.2)) <$> chi2_1df_literals.

(** The search over any table, with the interpolation. *)
Definition interpolate (tmin tmax : double * double) (x : double) : double :=
  if deq tmax.1 tmin.1 then tmin.2
  else dadd tmin.2 (ddiv (dmul (dsub x tmin.1) (dsub tmax.2 tmin.2)) (dsub tmax.1 tmin.1)).
Definition table_p (table : list (double * double)) (chi2 : double) : res double :=
  let imin := 0 in
  let imax := Z.of_nat (length table) - 1 in
  let! first := entry table imin in
  let! last := entry table imax in
  if dlt chi2 first.1 then Ret first.2
  else if dlt last.1 chi2 then Ret last.2
  else
    let! i := bsearch (length table) (λ i, let! e := entry table i in Ret (dlt e.1 chi2)) imin imax in
    let! tmin := entry table i.1 in
    let! tmax := entry table i.2 in
    Ret (interpolate tmin tmax chi2).
Definition chi2_1df_p (chi2 : double) : res double := table_p chi2_1df_table chi2.

Definition student_t_table_df : list Z :=
  [1; 2; 3; 4; 5; 6; 7; 8; 9; 10; 12; 14; 16; 18; 20; 22; 24; 26; 28; 30; 35; 40; 45; 50; 55; 60; 65; 70; 75; 80; 85; 90; 95; 100;
   110; 120; 130; 140; 150; 160; 170; 180; 190; 200; 300; 400; 500; 600; 700; 800; 900; 1000; 2147483647].

Section Student.
(** [student_t_table]: a value of t and its p-values. *)
Variable student_t_table : list (double * list double).

Definition student_t_2t_p (t df : double) : res double :=
  assert! (dle one df) in
  let t := if dlt t zero then SFopp t else t in
  let! n := bsearch (length student_t_table_df) (λ i, let! d := entry student_t_table_df i in Ret (dlt (double_of_int d) df))
              0 (Z.of_nat (length student_t_table_df) - 1) in
  let! i := bsearch (length student_t_table) (λ i, let! r := entry student_t_table i in Ret (dlt r.1 t))
              0 (Z.of_nat (length student_t_table) - 1) in
  let! nmin := entry student_t_table_df n.1 in
  let! nmax := entry student_t_table_df n.2 in
  let nfac := if nmax =? nmin then zero else ddiv (dsub df (double_of_int nmin)) (double_of_int (nmax - nmin)) in
  let! tmin := entry student_t_table i.1 in
  let! tmax := entry student_t_table i.2 in
  let tfac := if deq tmax.1 tmin.1 then zero else ddiv (dsub t tmin.1) (dsub tmax.1 tmin.1) in
  let! p11 := entry tmin.2 n.1 in
  let! p21 := entry tmax.2 n.1 in
  let! p12 := entry tmin.2 n.2 in
  let! p22 := entry tmax.2 n.2 in
  Ret (dadd (dadd (dadd (dmul (dmul (dsub one nfac) (dsub one tfac)) p11) (dmul (dmul (dsub one nfac) tfac) p21))
                  (dmul (dmul nfac (dsub one tfac)) p12)) (dmul (dmul nfac tfac) p22)).
End Student.

(** ** Integer sums are exact *)

Definition sumZ (l : list Z) : Z := foldr Z.add 0 l.
Definition int_add_all (vs : list Z) : res stat_aggregate_int := res_foldl stat_aggregate_int_add aggregate_int_zero vs.

Lemma sumZ_snoc l x : sumZ (l ++ [x]) = sumZ l + x.
Proof. unfold sumZ. rewrite foldr_app. cbn [foldr]. induction l as [|y l IH]; cbn [foldr]; lia. Qed.

Lemma int_add_all_safe vs : safe (int_add_all vs)
  (λ st, ai_n st = Z.of_nat (length vs) ∧ ai_sum st = sumZ vs ∧ ai_sum2 st = sumZ ((λ v, v * v) <$> vs)).
Proof.
  unfold int_add_all. induction vs as [|v vs IH] using rev_ind; [done|]. rewrite res_foldl_app. eapply safe_bind; [exact IH|].
  intros st (Hn & Hs & Hs2). cbn [res_foldl]. eapply safe_bind; [|intros ? Hx; exact Hx].
  eapply safe_bind; [apply safe_chk32|]. intros n ->. eapply safe_bind; [apply safe_chk64|]. intros s ->.
  eapply safe_bind; [apply safe_chk64|]. intros q ->. eapply safe_bind; [apply safe_chk64|]. intros s2 ->. cbn [safe ai_n ai_sum ai_sum2].
  rewrite length_app, fmap_app. cbn [fmap list_fmap length]. rewrite !sumZ_snoc. split_and!; lia.
Qed.

(** A few runs with many faults: the deviation is undefined although the sums are fine. *)
Lemma variance_overflows : ∃ st, int_add_all (replicate 31 100000000) = Ret st ∧
  ai_sum st = 3100000000 ∧ ai_sum2 st = 310000000000000000 ∧ stat_aggregate_int_stdev st = Stop FOverflow.
Proof. eexists. split; [vm_compute; reflexivity|]. split_and!; vm_compute; reflexivity. Qed.

(** ** Z-scores fall into a bin *)

Lemma length_count_at l i l' : count_at l i = Ret l' → length l' = length l.
Proof.
  unfold count_at. destruct (if 0 <=? i then l !! Z.to_nat i else None); [|done]. intros (v & _ & [= <-])%res_bind_inv. by rewrite length_insert.
Qed.

Lemma sumZ_insert l i v x : l !! i = Some v → sumZ (<[i := x]> l) = sumZ l - v + x.
Proof.
  revert i. induction l as [|y l IH]; intros [|i]; try done; [intros [= ->]; cbn; lia|]. intros H. specialize (IH i H).
  change (y + sumZ (<[i:=x]> l) = y + sumZ l - v + x). lia.
Qed.

Lemma count_at_safe l i : 0 ≤ i < Z.of_nat (length l) → safe (count_at l i)
  (λ l', length l' = length l ∧ sumZ l' = sumZ l + 1 ∧ ∀ j, l' !! j = (if decide (j = Z.to_nat i) then Z.succ <$> l !! j else l !! j)).
Proof.
  intros Hi. unfold count_at. destruct (Z.leb_spec 0 i); [|lia]. destruct (lookup_lt_is_Some_2 l (Z.to_nat i)) as [v Hv]; [lia|].
  rewrite Hv. eapply safe_bind; [apply safe_chk32|]. intros w ->. cbn. rewrite length_insert, (sumZ_insert _ _ v) by done.
  split_and!; [done|lia|]. intros j. case_decide as Hj; [subst j|by rewrite list_lookup_insert_ne by done].
  rewrite list_lookup_insert_eq by (by apply lookup_lt_Some in Hv). by rewrite Hv.
Qed.

Lemma floor_int_safe x : safe (floor_int x) (λ _, True).
Proof. unfold floor_int, chk32. by repeat case_match. Qed.

Lemma ceil_int_safe x : safe (ceil_int x) (λ _, True).
Proof. unfold ceil_int, chk32. by repeat case_match. Qed.

Lemma zscore_add_safe bins value golden : length bins = 9%nat → safe (stat_aggregate_zscore_add bins value golden)
  (λ bins', length bins' = 9%nat ∧ (sumZ bins' = sumZ bins ∨ sumZ bins' = sumZ bins + 1)).
Proof.
  intros Hl. unfold stat_aggregate_zscore_add. case_match; [cbn; auto|]. case_match; [cbn; auto|].
  set (zscore := ddiv _ _). eapply (safe_bind _ _ (λ _, True)); [case_match; [apply ceil_int_safe|apply floor_int_safe]|].
  intros z _. eapply safe_mono; [apply count_at_safe; rewrite Hl; unfold ZSCORE_MAX; repeat case_match; zb; lia|].
  cbn. intros l (-> & -> & _). auto.
Qed.

(** Equal times in the runs without faults can make the variance negative; the deviation
    is then no number, and the Z-score is converted to [int] all the same. *)
Definition double_add_all (vs : list double) : res stat_aggregate_double := res_foldl stat_aggregate_double_add aggregate_double_zero vs.
Definition equal_times : list double := replicate 3 (literal (1, 1)).
Lemma equal_times_no_deviation : ∃ st, double_add_all equal_times = Ret st ∧ dlt (stat_aggregate_double_var st) zero = true ∧
  isnan (stat_aggregate_double_stdev st) = true ∧ stat_aggregate_zscore_add zscore_zero (literal (1, 1)) st = Stop FOverflow.
Proof. eexists. split; [vm_compute; reflexivity|]. split_and!; vm_compute; reflexivity. Qed.

(** ** The search *)

Lemma bsearch_spec (below : Z → res bool) (P : Z → Prop) fuel imin imax :
  (∀ i, imin < i < imax → ∃ b, below i = Ret b ∧ (b = true ↔ P i)) → imin < imax → imax - imin ≤ Z.of_nat fuel → 0 ≤ imin →
  ∃ i, bsearch fuel below imin imax = Ret (i, i + 1) ∧ imin ≤ i < imax ∧ (i = imin ∨ P i) ∧ (i + 1 = imax ∨ ¬ P (i + 1)).
Proof.
  revert imin imax. induction fuel as [|fuel IH]; intros imin imax Hb Hlt Hf H0; [lia|]. cbn [bsearch].
  destruct (Z.ltb_spec (imin + 1) imax) as [Hl|Hl].
  - pose proof (Z.quot_div_nonneg (imin + imax) 2 ltac:(lia) ltac:(lia)) as Hq. pose proof (Z.mod_pos_bound (imin + imax) 2 ltac:(lia)).
    pose proof (Z.div_mod (imin + imax) 2 ltac:(lia)). rewrite Hq. set (m := (imin + imax) `div` 2) in *.
    destruct (Hb m ltac:(lia)) as (b & -> & Hm). cbn [res_bind]. destruct b.
    + destruct (IH m imax) as (i & -> & Hi & Hlow & Hhigh); [intros j Hj; apply Hb; lia|lia..|]. exists i. split; [done|].
      split; [lia|]. split; [|done]. right. destruct Hlow as [->|]; [by apply Hm|done].
    + destruct (IH imin m) as (i & -> & Hi & Hlow & Hhigh); [intros j Hj; apply Hb; lia|lia..|]. exists i. split; [done|].
      split; [lia|]. split; [done|]. right. destruct Hhigh as [->|]; [by intros ?%Hm|done].
  - exists imin. assert (imin + 1 = imax) as -> by lia. split; [done|]. split; [lia|]. split; auto.
Qed.

Lemma entry_ok {A} (l : list A) i : 0 ≤ i < Z.of_nat (length l) → ∃ x, l !! Z.to_nat i = Some x ∧ entry l i = Ret x.
Proof.
  intros Hi. unfold entry. destruct (Z.leb_spec 0 i); [|lia]. destruct (lookup_lt_is_Some_2 l (Z.to_nat i)) as [x Hx]; [lia|]. rewrite Hx. eauto.
Qed.

(** The search in any table of at least two entries. *)
Lemma table_p_spec table x first last : isnan x = false → (1 < length table)%nat →
  table !! 0%nat = Some first → table !! (length table - 1)%nat = Some last → dlt x first.1 = false → dlt last.1 x = false →
  ∃ i tmin tmax, table !! i = Some tmin ∧ table !! S i = Some tmax ∧ dlt x tmin.1 = false ∧ dlt tmax.1 x = false ∧
    table_p table x = Ret (interpolate tmin tmax x).
Proof.
  intros Hx Hlen Hf Hl H0 H1. unfold table_p.
  destruct (entry_ok table 0) as (e0 & Hk & ->); [lia|]. assert (e0 = first) as -> by (change (Z.to_nat 0) with 0%nat in Hk; congruence).
  destruct (entry_ok table (Z.of_nat (length table) - 1)) as (e1 & Hk1 & ->); [lia|].
  replace (Z.to_nat (Z.of_nat (length table) - 1)) with (length table - 1)%nat in Hk1 by lia. assert (e1 = last) as -> by congruence.
  cbn [res_bind]. rewrite H0, H1.
  set (below := λ i, let! e := entry table i in Ret (dlt e.1 x)).
  destruct (bsearch_spec below (λ i, ∃ e, table !! Z.to_nat i = Some e ∧ dlt e.1 x = true) (length table) 0 (Z.of_nat (length table) - 1))
    as (i & -> & Hi & Hlow & Hhigh); [|lia..|].
  { intros i Hi. destruct (entry_ok table i) as (e & He & Hr); [lia|]. exists (dlt e.1 x). unfold below. rewrite Hr. split; [done|].
    rewrite He. split; [eauto|]. by intros (? & [= <-] & ?). }
  cbn [res_bind fst snd]. destruct (entry_ok table i) as (tmin & Hmin & ->); [lia|]. destruct (entry_ok table (i + 1)) as (tmax & Hmax & ->); [lia|].
  cbn [res_bind]. exists (Z.to_nat i), tmin, tmax. replace (S (Z.to_nat i)) with (Z.to_nat (i + 1)) by lia. split_and!; try done.
  - destruct Hlow as [->|(e & He & Hb)]; [change (Z.to_nat 0) with 0%nat in Hmin; congruence|]. assert (e = tmin) as -> by congruence.
    apply dlt_asym; [|done..]. by destruct tmin as [[]].
  - destruct Hhigh as [Hh|Hh]; [|destruct (dlt tmax.1 x) eqn:E; [|done]; destruct Hh; eauto].
    replace (Z.to_nat (i + 1)) with (length table - 1)%nat in Hmax by lia. by assert (tmax = last) as -> by congruence.
Qed.

Lemma table_p_total table x : (1 < length table)%nat → ∃ p, table_p table x = Ret p.
Proof.
  intros Hlen. unfold table_p. destruct (entry_ok table 0) as (e0 & _ & ->); [lia|].
  destruct (entry_ok table (Z.of_nat (length table) - 1)) as (e1 & _ & ->); [lia|]. cbn [res_bind].
  destruct (dlt x e0.1); [eauto|]. destruct (dlt e1.1 x); [eauto|].
  set (below := λ i, let! e := entry table i in Ret (dlt e.1 x)).
  destruct (bsearch_spec below (λ i, below i = Ret true) (length table) 0 (Z.of_nat (length table) - 1)) as (i & -> & Hi & _); [|lia..|].
  { intros i Hi. unfold below. destruct (entry_ok table i) as (e & _ & ->); [lia|]. cbn [res_bind]. exists (dlt e.1 x). split; [done|].
    split; [by intros ->|by intros [= ->]]. }
  cbn [res_bind fst snd]. destruct (entry_ok table i) as (tmin & _ & ->); [lia|]. destruct (entry_ok table (i + 1)) as (tmax & _ & ->); [lia|].
  cbn [res_bind]. eauto.
Qed.

(** The table is in order. *)
Definition ordered_step (e : (double * double) * (double * double)) : bool := dlt e.1.1 e.2.1 && dlt e.2.2 e.1.2.
Lemma chi2_table_ordered i a b : chi2_1df_table !! i = Some a → chi2_1df_table !! S i = Some b →
  dlt a.1 b.1 = true ∧ dlt b.2 a.2 = true.
Proof.
  intros Ha Hb. apply andb_true_iff.
  assert (forallb ordered_step (zip chi2_1df_table (tail chi2_1df_table)) = true) as Ho by (vm_compute; reflexivity).
  rewrite forallb_forall in Ho. apply (Ho (a, b)), list_elem_of_In, list_elem_of_lookup. exists i. rewrite lookup_zip_with, lookup_tail, Ha, Hb. done.
Qed.

Lemma chi2_table_ends : ∃ first last, chi2_1df_table !! 0%nat = Some first ∧ chi2_1df_table !! 501%nat = Some last ∧
  length chi2_1df_table = 502%nat ∧ dlt first.1 last.1 = true ∧ isnan first.1 = false ∧ isnan last.1 = false.
Proof. do 2 eexists. split_and!; vm_compute; reflexivity. Qed.

Lemma chi2_p_total x : ∃ p, chi2_1df_p x = Ret p.
Proof. destruct chi2_table_ends as (first & last & _ & _ & Hlen & _). apply table_p_total. rewrite Hlen. lia. Qed.

(** The p-value of a chi-square statistic is always found: the first or last of the
    table outside of it, and otherwise interpolated between two neighbouring entries that
    have the statistic between them. *)
Theorem chi2_between_entries chi2 : isnan chi2 = false →
  (∃ first last, chi2_1df_table !! 0%nat = Some first ∧ chi2_1df_table !! 501%nat = Some last ∧
    (dlt chi2 first.1 = true → chi2_1df_p chi2 = Ret first.2) ∧ (dlt last.1 chi2 = true → chi2_1df_p chi2 = Ret last.2) ∧
    (dlt chi2 first.1 = false → dlt last.1 chi2 = false →
      ∃ i tmin tmax, chi2_1df_table !! i = Some tmin ∧ chi2_1df_table !! S i = Some tmax ∧
        dlt chi2 tmin.1 = false ∧ dlt tmax.1 chi2 = false ∧ dlt tmin.1 tmax.1 = true ∧ dlt tmax.2 tmin.2 = true ∧
        chi2_1df_p chi2 = Ret (interpolate tmin tmax chi2))).
Proof.
  intros Hn. destruct chi2_table_ends as (first & last & Hf & Hl & Hlen & Hfl & Hnf & Hnl). exists first, last. split_and!; [done..| | |].
  - intros Hlt. unfold chi2_1df_p, table_p. destruct (entry_ok chi2_1df_table 0) as (e0 & Hk & ->); [lia|].
    destruct (entry_ok chi2_1df_table (Z.of_nat (length chi2_1df_table) - 1)) as (e1 & _ & ->); [lia|].
    assert (e0 = first) as -> by (change (Z.to_nat 0) with 0%nat in Hk; congruence). cbn [res_bind]. by rewrite Hlt.
  - intros Hlt. unfold chi2_1df_p, table_p. destruct (entry_ok chi2_1df_table 0) as (e0 & Hk & ->); [lia|].
    destruct (entry_ok chi2_1df_table (Z.of_nat (length chi2_1df_table) - 1)) as (e1 & Hk1 & ->); [lia|].
    assert (e0 = first) as -> by (change (Z.to_nat 0) with 0%nat in Hk; congruence).
    rewrite Hlen in Hk1. assert (e1 = last) as -> by (change (Z.to_nat (Z.of_nat 502 - 1)) with 501%nat in Hk1; congruence).
    cbn [res_bind]. rewrite Hlt. rewrite (dlt_asym first.1 chi2); [done|done..|].
    destruct (dlt first.1 chi2) eqn:E; [done|]. exfalso.
    pose proof (dlt_false_trans last.1 chi2 first.1 Hnl Hn Hnf (dlt_asym _ _ Hnl Hn Hlt) E). congruence.
  - intros H0 H1. destruct (table_p_spec chi2_1df_table chi2 first last) as (i & tmin & tmax & Hmin & Hmax & H2 & H3 & Hp);
      [done|rewrite Hlen; lia|done|by rewrite Hlen|done|done|].
    destruct (chi2_table_ordered i tmin tmax Hmin Hmax). exists i, tmin, tmax. split_and!; done.
Qed.

Lemma chi2_between_entries_witness : ∃ tmin tmax, dlt (double_of_int 4) tmin.1 = false ∧ dlt tmax.1 (double_of_int 4) = false ∧
  chi2_1df_p (double_of_int 4) = Ret (interpolate tmin tmax (double_of_int 4)).
Proof.
  assert (isnan (double_of_int 4) = false) as Hn by (vm_compute; reflexivity).
  destruct (chi2_between_entries (double_of_int 4) Hn) as (first & last & Hf & Hl & _ & _ & H).
  destruct H as (i & tmin & tmax & _ & _ & Hmin & Hmax & _ & _ & Hp).
  - vm_compute in Hf. injection Hf as <-. vm_compute. reflexivity.
  - vm_compute in Hl. injection Hl as <-. vm_compute. reflexivity.
  - exists tmin, tmax. exact (conj Hmin (conj Hmax Hp)).
Defined.

(** Beyond the last row the table of Student's distribution is extrapolated, not clamped: with
    two rows, a value of t past the second gives a negative p. *)
Lemma student_extrapolates : ∃ p,
  student_t_2t_p [(zero, replicate 53 one); (one, replicate 53 half)] (double_of_int 4) (double_of_int 2) = Ret p ∧ dlt p zero = true.
Proof. eexists. split; vm_compute; reflexivity. Qed.
