(* ===== verification/Aggregate.v ===== *)
(** * Statistics of experiments: [hypermemloganalyze/hypermemloganalyze.c]

    What the log analysis adds up over the runs of an experiment, and the keys it adds a
    run under: activated faults, fault type, module, source path, class of path, restarts
    and the step of the first fault.  Warnings on [stderr] are left out. *)

From Stdlib Require Import ZArith Lia Ascii String Floats.SpecFloat.
From stdpp Require Import base list numbers strings.
From S2P Require Import Prelude Decimal Helper Module LogInfo Double Significance KeyOrder Groups.
Set Default Proof Using "Type".

(** A log file that was read: [struct loginfo] with its derived fields. *)
Record run := { r_info : loginfo; r_path : string; r_system : option string; r_workload : option string }.

(** ** Paths and bins *)

Definition path_match (path matchwith : string) : bool :=
  let matchwithlen := String.length matchwith in
  if (String.length path <? matchwithlen)%nat then false
  else if negb (bool_decide (String.substring 0 matchwithlen path = matchwith)) then false
  else if (String.length path =? matchwithlen)%nat then true
  else match String.get matchwithlen path with Some a => Ascii.eqb a "/" | None => false end.

Definition minix_dir : string := "/home/skyel/mnt/git/llvm-apps/apps/minix/minix/".
Definition pathclass_specs : list (string * string) := [
  ("driver", minix_dir +:+ "drivers");
  ("driver", "drivers");
  ("fs", minix_dir +:+ "servers/mfs");
  ("fs", minix_dir +:+ "servers/pfs");
  ("fs", minix_dir +:+ "servers/procfs");
  ("fs", "fs");
  ("kernel", minix_dir +:+ "kernel");
  ("kernel", "arch/x86/kernel");
  ("kernel", "kernel");
  ("lib", minix_dir +:+ "../obj.i386/destdir.i386/usr/include");
  ("lib", minix_dir +:+ "common/lib");
  ("lib", minix_dir +:+ "lib");
  ("lib", minix_dir +:+ "sys/lib");
  ("lib", "/var/scratch/rge280/llvm-apps/apps/linux/src/arch/x86/include");
  ("lib", "include");
  ("lib", "lib");
  ("mm", minix_dir +:+ "servers/vm");
  ("mm", "arch/x86/mm");
  ("mm", "mm");
  ("net", minix_dir +:+ "servers/inet");
  ("net", "net");
  ("pm", minix_dir +:+ "servers/pm");
  ("server", minix_dir +:+ "servers");
  ("vfs", minix_dir +:+ "servers/vfs")].

(** The loop over the specifications, with [pathclass] and [matchedwith] so far. *)
Definition classify_step (path : string) (best : option (string * string)) (spec : string * string) : option (string * string) :=
  if negb (path_match path spec.2) then best
  else match best with
       | Some b => if (String.length spec.2 <=? String.length b.2)%nat then best else Some spec
       | None => Some spec
       end.
Definition classify_with (specs : list (string * string)) (path : string) : option (string * string) := foldl (classify_step path) None specs.
Definition pathclassify (path : string) : string :=
  match classify_with pathclass_specs path with Some b => b.1 | None => "other" end.

Definition BIN_COUNT : Z := 12.
Definition bin_index (value : Z) : Z :=
  if value <? 1 then 0 else if value <? 2 then 1 else if value <? 5 then 2 else if value <? 10 then 3 else if value <? 100 then 4
  else if value <? 1000 then 5 else if value <? 10000 then 6 else if value <? 100000 then 7 else if value <? 1000000 then 8
  else if value <? 10000000 then 9 else if value <? 100000000 then 10 else 11.
(** [None]: [abort]. *)
Definition bin_desc (bindex : Z) : option string :=
  if bindex <? 0 then None
  else ["0"; "1"; "2_4"; "5_9"; "10_99"; "100_999"; "1000_9999"; "10000_99999"; "100000_999999"; "1000000_9999999"; "10000000_99999999";
        "100000000_and_more"] !! Z.to_nat bindex.

(** ** Statistics of a group *)

Inductive outcome := outcome_inactive | outcome_invalid | outcome_success | outcome_crash.
#[export] Instance outcome_eq_dec : EqDecision outcome.
Proof. solve_decision. Defined.

Record stats_aggregate := {
  sg_n : Z;
  sg_passed_neither : Z; sg_passed_pre : Z; sg_passed_post : Z; sg_passed_both : Z;
  sg_activated : Z; sg_valid : Z; sg_crash : Z;
  sg_step_reached : outcome → logstep → Z;
  sg_time_diff : logstep → logstep → stat_aggregate_double;
  sg_time_diff_z : logstep → logstep → list Z;
  sg_module_fault_act_count : stat_aggregate_int;
  sg_fault_act_count : stat_aggregate_int;
  sg_fault_act_count_log10 : stat_aggregate_double;
  sg_fault_act_count_bins : list Z;
  sg_module_restart_count : stat_aggregate_int;
  sg_restart_count : stat_aggregate_int;
  sg_restart_count_bins : list Z;
}.
Definition stats_aggregate_zero : stats_aggregate :=
  {| sg_n := 0; sg_passed_neither := 0; sg_passed_pre := 0; sg_passed_post := 0; sg_passed_both := 0;
     sg_activated := 0; sg_valid := 0; sg_crash := 0; sg_step_reached := λ _ _, 0;
     sg_time_diff := λ _ _, aggregate_double_zero; sg_time_diff_z := λ _ _, zscore_zero;
     sg_module_fault_act_count := aggregate_int_zero; sg_fault_act_count := aggregate_int_zero;
     sg_fault_act_count_log10 := aggregate_double_zero; sg_fault_act_count_bins := replicate 12 0;
     sg_module_restart_count := aggregate_int_zero; sg_restart_count := aggregate_int_zero; sg_restart_count_bins := replicate 12 0 |}.

(** The statistics by system and workload, and the lists by key. *)
Definition groups := list (by_key stats_aggregate).
Definition tests := list (per_test stats_aggregate).

(** The seven lists. *)
Inductive list_id := per_fault_act_count | per_fault_type | per_module | per_path | per_pathclass | per_restart_count | per_step.
#[export] Instance list_id_eq_dec : EqDecision list_id.
Proof. solve_decision. Defined.

Section Analysis.
(** [LOGSTEP_ALL], the mathematical library and the loaded map files. *)
Variables (logstep_all : bool) (log10 : double → double) (modules : module_ll).

Definition steps : list logstep :=
  [logstep_before_qemu_start; logstep_qemu_start; logstep_before_sanity_pre; logstep_after_sanity_pre] ++
  (if logstep_all then [logstep_workload_start; logstep_workload_report; logstep_workload_completed] else []) ++
  [logstep_workload_end; logstep_after_sanity_post; logstep_qemu_exit].

(** *** One run *)

(** [+=] of an [unsigned] to an [int]: computed in [unsigned], then converted. *)
Definition add_unsigned (acc : Z) (v : Z) : Z := s32 (u32 (acc + v)).
(** Over the steps of a module: whether one counts, and the sum. *)
Definition module_step (count : logstep → Z) (acc : bool * Z) (st : logstep) : bool * Z :=
  if 0 <? count st then (true, add_unsigned acc.2 (count st)) else acc.
Definition modules_with (tallies : loginfo_module → logstep → tally) (acc : Z * Z) (m : loginfo_module) : Z * Z :=
  let r := foldl (module_step (λ st, t_count (tallies m st))) (false, acc.2) steps in
  (acc.1 + Z.b2z r.1, r.2).
(** [module_fault_act_count] and [fault_act_count], and those of restarts. *)
Definition fault_counts (li : loginfo) : Z * Z := foldl (modules_with im_faults) (0, 0) (li_modules li).
Definition restart_counts (li : loginfo) : Z * Z := foldl (modules_with im_restarts) (0, 0) (li_modules li).

(** The last step with a time, before the end of the run. *)
Definition step_reached (li : loginfo) : logstep :=
  foldl (λ r st, if timeval_is_zero (step_time li st) then r
                 else if step_number st <? step_number logstep_qemu_exit then st else r) logstep_before_qemu_start steps.

Definition run_outcome (li : loginfo) : outcome :=
  if 0 <? (fault_counts li).2 then
    if sanity_passed_pre li then if negb (sanity_passed_post li) then outcome_crash else outcome_success else outcome_invalid
  else outcome_inactive.

Definition timeval_diff (time1 time2 : timeval) : res double :=
  let! sec := chk64 (tv_sec time1 - tv_sec time2) in
  let! usec := chk64 (tv_usec time1 - tv_usec time2) in
  Ret (dadd (double_of_int sec) (ddiv (double_of_int usec) (double_of_int 1000000))).

Fixpoint later_pairs (l : list logstep) : list (logstep * logstep) :=
  match l with [] => [] | s :: l' => ((λ s', (s, s')) <$> l') ++ later_pairs l' end.
Definition set_at2 {A} (f : logstep → logstep → A) (p : logstep * logstep) (v : A) : logstep → logstep → A :=
  set_at f p.1 (set_at (f p.1) p.2 v).

(** The body of the loops over two steps. *)
Definition time_step (golden : option stats_aggregate) (li : loginfo)
    (acc : (logstep → logstep → stat_aggregate_double) * (logstep → logstep → list Z)) (p : logstep * logstep) :
    res ((logstep → logstep → stat_aggregate_double) * (logstep → logstep → list Z)) :=
  let time1 := step_time li p.1 in
  let time2 := step_time li p.2 in
  if timeval_is_zero time1 || timeval_is_zero time2 then Ret acc
  else
    let! d := timeval_diff time2 time1 in
    let! s := stat_aggregate_double_add (acc.1 p.1 p.2) d in
    let! z := match golden with
              | None => Ret (acc.2 p.1 p.2)
              | Some g =>
                  let sg := sg_time_diff g p.1 p.2 in
                  if ad_n sg <=? 1 then Ret (acc.2 p.1 p.2) else stat_aggregate_zscore_add (acc.2 p.1 p.2) d sg
              end in
    Ret (set_at2 acc.1 p s, set_at2 acc.2 p z).
Definition add_times (golden : option stats_aggregate) (li : loginfo) (st : stats_aggregate) :=
  res_foldl (time_step golden li) (sg_time_diff st, sg_time_diff_z st) (later_pairs steps).

(** [x++] under a condition *)
Definition bump (b : bool) (z : Z) : res Z := if b then chk32 (z + 1) else Ret z.

Definition output_analysis_aggregate_add (golden : option stats_aggregate) (r : run) (st : stats_aggregate) : res stats_aggregate :=
  let li := r_info r in
  let pre := sanity_passed_pre li in
  let post := sanity_passed_post li in
  let! n := chk32 (sg_n st + 1) in
  let! both := bump (pre && post) (sg_passed_both st) in
  let! only_pre := bump (pre && negb post) (sg_passed_pre st) in
  let! only_post := bump (negb pre && post) (sg_passed_post st) in
  let! neither := bump (negb pre && negb post) (sg_passed_neither st) in
  let reached := step_reached li in
  let! times := add_times golden li st in
  let f := fault_counts li in
  let rs := restart_counts li in
  let! mf := stat_aggregate_int_add (sg_module_fault_act_count st) f.1 in
  let! fa := stat_aggregate_int_add (sg_fault_act_count st) f.2 in
  let! fl := if 0 <? f.2 then stat_aggregate_double_add (sg_fault_act_count_log10 st) (log10 (double_of_int f.2))
             else Ret (sg_fault_act_count_log10 st) in
  let! fb := count_at (sg_fault_act_count_bins st) (bin_index f.2) in
  let! mr := stat_aggregate_int_add (sg_module_restart_count st) rs.1 in
  let! ra := stat_aggregate_int_add (sg_restart_count st) rs.2 in
  let! rb := count_at (sg_restart_count_bins st) (bin_index rs.2) in
  let! activated := bump (0 <? f.2) (sg_activated st) in
  let! valid := bump ((0 <? f.2) && pre) (sg_valid st) in
  let! crash := bump ((0 <? f.2) && pre && negb post) (sg_crash st) in
  let o := run_outcome li in
  let! at_step := chk32 (sg_step_reached st o reached + 1) in
  Ret {| sg_n := n; sg_passed_neither := neither; sg_passed_pre := only_pre; sg_passed_post := only_post; sg_passed_both := both;
         sg_activated := activated; sg_valid := valid; sg_crash := crash;
         sg_step_reached := λ o' st', if decide (o' = o ∧ st' = reached) then at_step else sg_step_reached st o' st';
         sg_time_diff := times.1; sg_time_diff_z := times.2;
         sg_module_fault_act_count := mf; sg_fault_act_count := fa; sg_fault_act_count_log10 := fl; sg_fault_act_count_bins := fb;
         sg_module_restart_count := mr; sg_restart_count := ra; sg_restart_count_bins := rb |}.

(** *** The lists *)

(** A run that is added, with the statistics of the runs without faults at that time. *)
Definition added : Type := run * tests.
Definition get_stats_golden (golden : tests) (system workload : option string) : option stats_aggregate := find_test (system, workload) golden.
Definition add_added (a : added) (st : stats_aggregate) : res stats_aggregate :=
  output_analysis_aggregate_add (get_stats_golden a.2 (r_system a.1) (r_workload a.1)) a.1 st.
Definition add_golden (r : run) (golden : tests) : res tests :=
  add_per_test r_system r_workload (output_analysis_aggregate_add None) stats_aggregate_zero r golden.
Definition added_system (a : added) : option string := r_system a.1.
Definition added_workload (a : added) : option string := r_workload a.1.
Definition output_analysis_aggregate_add_key (key : string) (a : added) (L : groups) : res groups :=
  add_key added_system added_workload add_added stats_aggregate_zero key a L.

Record analysis := {
  log_count : Z;
  loginfo_golden_list : list run;
  an_stats_golden : tests;
  an_lists : list_id → groups;
}.
Definition analysis_zero : analysis :=
  {| log_count := 0; loginfo_golden_list := []; an_stats_golden := []; an_lists := λ _, [] |}.

(** *** Keys of a run *)

Record map_info := { mi_path : option string; mi_line : Z; mi_func : option string; mi_type : option string }.
Definition no_map_info : map_info := {| mi_path := None; mi_line := 0; mi_func := None; mi_type := None |}.

Definition module_map_find (m : loginfo_module) : res (option module) := module_find modules (before_at (im_name m)).
Definition lookup_map_info (m : loginfo_module) : res map_info :=
  match im_fault_bb_index m with
  | None => Ret no_map_info
  | Some index =>
      let! mm := module_map_find m in
      match mm with
      | None => Ret no_map_info
      | Some mm =>
          let! pos := module_get_bb_by_index mm index in
          match pos with
          | None => Ret no_map_info
          | Some (i, j) =>
              match func_list mm !! i with
              | None => Stop FBounds
              | Some f =>
                  match bbs f with
                  | None => Stop FNull
                  | Some l =>
                      match l !! j with
                      | None => Stop FBounds
                      | Some b => Ret {| mi_path := fault_path b; mi_line := fault_line b; mi_func := f_name f; mi_type := fault_type b |}
                      end
                  end
              end
          end
      end
  end.

(** [faultpathend = strchrlast (faultpath, '/')], and the path cut there; [None] ends the loop. *)
Fixpoint last_slash (s : string) : option nat :=
  match s with
  | EmptyString => None
  | String a s' => match last_slash s' with Some i => Some (S i) | None => if Ascii.eqb a "/" then Some O else None end
  end.
Definition cut_path (s : string) : option string :=
  match last_slash s with None | Some O => None | Some i => Some (String.substring 0 i s) end.
Fixpoint path_keys (fuel : nat) (path : string) : res (list string) :=
  match fuel with
  | O => Stop FFuel
  | S fuel =>
      match cut_path path with
      | None => Ret [path]
      | Some p => let! l := path_keys fuel p in Ret (path :: l)
      end
  end.

(** What the loop over the modules finds. *)
Record found := {
  fd_path : option string; fd_type : option string; fd_module : option string; fd_module_count : Z;
  fd_step_first : option logstep; fd_faults : Z; fd_restarts : Z;
}.
Definition found_zero : found :=
  {| fd_path := None; fd_type := None; fd_module := None; fd_module_count := 0; fd_step_first := None; fd_faults := 0; fd_restarts := 0 |}.
Definition or_else {A} (x y : option A) : option A := match x with Some _ => x | None => y end.
Definition first_step (m : loginfo_module) (best : option logstep) (st : logstep) : option logstep :=
  if 0 <? t_count (im_faults m st) then
    match best with Some b => if step_number st <? step_number b then Some st else best | None => Some st end
  else best.
Definition found_module (f : found) (m : loginfo_module) : res found :=
  let! mi := lookup_map_info m in
  Ret {| fd_path := or_else (fd_path f) (mi_path mi);
         fd_type := or_else (fd_type f) (mi_type mi);
         fd_module := match im_fault_bb_index m with Some _ => or_else (fd_module f) (Some (im_name m)) | None => fd_module f end;
         fd_module_count := match im_fault_bb_index m with Some _ => fd_module_count f + 1 | None => fd_module_count f end;
         fd_step_first := foldl (first_step m) (fd_step_first f) steps;
         fd_faults := foldl (λ acc st, add_unsigned acc (t_count (im_faults m st))) (fd_faults f) steps;
         fd_restarts := foldl (λ acc st, add_unsigned acc (t_count (im_restarts m st))) (fd_restarts f) steps |}.

Definition desc_of_count (count : Z) : res string := match bin_desc (bin_index count) with Some d => Ret d | None => Stop FAssert end.
(** [logstepdesc_aggregate]; no step is [logstep_count]. *)
Definition logstepdesc_aggregate (st : option logstep) : string := match st with Some st => logstepdesc st | None => "<NONE>" end.

Definition all_lists : list list_id := [per_fault_act_count; per_fault_type; per_module; per_path; per_pathclass; per_restart_count; per_step].
Definition aggregate_all (key : string) : list (list_id * string) := (λ w, (w, key)) <$> all_lists.

(** The calls of [output_analysis_aggregate_add_key], in their order. *)
Definition golden_calls : list (list_id * string) := aggregate_all "<ALL>" ++ aggregate_all "<GOLDEN>".
Definition faulty_calls (r : run) : res (list (list_id * string)) :=
  let! f := res_foldl found_module found_zero (li_modules (r_info r)) in
  let! facts := desc_of_count (fd_faults f) in
  let! restarts := desc_of_count (fd_restarts f) in
  let! paths :=
    match fd_path f with
    | Some (String a p) =>
        let! l := path_keys (S (String.length (String a p))) (String a p) in
        Ret ((per_pathclass, pathclassify (String a p)) :: ((λ k, (per_path, k)) <$> l))
    | _ => Ret [(per_path, "<UNKNOWN>"); (per_pathclass, "other")]
    end in
  Ret (aggregate_all "<ALL>" ++ aggregate_all "<FAULTY>" ++ [(per_fault_act_count, facts)] ++
       match fd_type f with Some t => [(per_fault_type, t)] | None => [] end ++
       [(per_module, if 1 <? fd_module_count f then "<MULTIPLE>" else default "<NONE>" (fd_module f))] ++ paths ++
       [(per_restart_count, restarts); (per_step, logstepdesc_aggregate (fd_step_first f))]).

Definition set_list (a : analysis) (w : list_id) (L : groups) : analysis :=
  {| log_count := log_count a; loginfo_golden_list := loginfo_golden_list a; an_stats_golden := an_stats_golden a;
     an_lists := λ w', if decide (w' = w) then L else an_lists a w' |}.
Definition make_call (r : run) (a : analysis) (c : list_id * string) : res analysis :=
  let! L := output_analysis_aggregate_add_key c.2 (r, an_stats_golden a) (an_lists a c.1) in
  Ret (set_list a c.1 L).
Definition make_calls (r : run) (calls : list (list_id * string)) (a : analysis) : res analysis := res_foldl (make_call r) a calls.

(** *** Logs *)

Definition is_golden (li : loginfo) : bool := forallb (λ m, match im_fault_bb_index m with None => true | Some _ => false end) (li_modules li).
Definition golden_find (l : list run) (r : run) : option run :=
  snd <$> list_find (λ g, r_system g = r_system r ∧ r_workload g = r_workload r) l.

(** What [output_analysis] does after it has written the line of the run. *)
Definition aggregate_log (r : run) (a : analysis) : res analysis :=
  if is_golden (r_info r) then
    let! g := add_golden r (an_stats_golden a) in
    Ret {| log_count := log_count a; loginfo_golden_list := loginfo_golden_list a; an_stats_golden := g; an_lists := an_lists a |}
  else
    let! calls := faulty_calls r in
    make_calls r calls a.

(** The effect of [process_log] on the statistics and [log_count], without the table of runs
    and the check of runs without faults, which [Analysis] adds. *)
Definition account_log (r : run) (a : analysis) : res analysis :=
  let! a := aggregate_log r a in
  if negb (is_golden (r_info r)) then
    let! n := chk32 (log_count a + 1) in
    Ret {| log_count := n; loginfo_golden_list := loginfo_golden_list a; an_stats_golden := an_stats_golden a; an_lists := an_lists a |}
  else
    Ret {| log_count := log_count a; loginfo_golden_list := r :: loginfo_golden_list a; an_stats_golden := an_stats_golden a; an_lists := an_lists a |}.
(** [output_analysis_aggregate_golden_all], at the end. *)
Definition aggregate_golden_all (a : analysis) : res analysis :=
  res_foldl (λ a r, make_calls r golden_calls a) a (loginfo_golden_list a).
Definition account (rs : list run) : res analysis :=
  let! a := res_foldl (λ a r, account_log r a) analysis_zero rs in
  aggregate_golden_all a.

(** ** What the statistics of a group say *)

Definition count_if {A} (p : A → bool) (l : list A) : Z := Z.of_nat (length (filter (λ x, p x = true) l)).

Definition activated (r : run) : bool := 0 <? (fault_counts (r_info r)).2.
Definition valid (r : run) : bool := activated r && sanity_passed_pre (r_info r).
Definition crashed (r : run) : bool := valid r && negb (sanity_passed_post (r_info r)).
Definition ended (o : outcome) (st : logstep) (r : run) : bool :=
  bool_decide (run_outcome (r_info r) = o ∧ step_reached (r_info r) = st).
Definition timed (p : logstep * logstep) (r : run) : bool :=
  negb (timeval_is_zero (step_time (r_info r) p.1) || timeval_is_zero (step_time (r_info r) p.2)).
Definition passed (pre post : bool) (r : run) : bool :=
  eqb (sanity_passed_pre (r_info r)) pre && eqb (sanity_passed_post (r_info r)) post.

Lemma count_if_snoc {A} (p : A → bool) l x : count_if p (l ++ [x]) = count_if p l + Z.b2z (p x).
Proof.
  unfold count_if. rewrite filter_app, length_app. destruct (p x) eqn:E;
    [rewrite filter_cons_True by done|rewrite filter_cons_False by (by rewrite E)]; cbn; lia.
Qed.

Record accounts (rs : list run) (st : stats_aggregate) : Prop := {
  acc_n : sg_n st = Z.of_nat (length rs);
  acc_neither : sg_passed_neither st = count_if (passed false false) rs;
  acc_pre : sg_passed_pre st = count_if (passed true false) rs;
  acc_post : sg_passed_post st = count_if (passed false true) rs;
  acc_both : sg_passed_both st = count_if (passed true true) rs;
  acc_activated : sg_activated st = count_if activated rs;
  acc_valid : sg_valid st = count_if valid rs;
  acc_crash : sg_crash st = count_if crashed rs;
  acc_reached : ∀ o s, sg_step_reached st o s = count_if (ended o s) rs;
  acc_times : ∀ p, p ∈ later_pairs steps → ad_n (sg_time_diff st p.1 p.2) = count_if (timed p) rs;
  acc_z : ∀ s1 s2, length (sg_time_diff_z st s1 s2) = 9%nat;
  acc_module_faults : ai_n (sg_module_fault_act_count st) = Z.of_nat (length rs);
  acc_faults : ai_n (sg_fault_act_count st) = Z.of_nat (length rs);
  acc_fault_sum : ai_sum (sg_fault_act_count st) = sumZ ((λ r, (fault_counts (r_info r)).2) <$> rs);
  acc_log10 : ad_n (sg_fault_act_count_log10 st) = count_if activated rs;
  acc_fault_bins : length (sg_fault_act_count_bins st) = 12%nat ∧ sumZ (sg_fault_act_count_bins st) = Z.of_nat (length rs);
  acc_module_restarts : ai_n (sg_module_restart_count st) = Z.of_nat (length rs);
  acc_restarts : ai_n (sg_restart_count st) = Z.of_nat (length rs);
  acc_restart_bins : length (sg_restart_count_bins st) = 12%nat ∧ sumZ (sg_restart_count_bins st) = Z.of_nat (length rs);
}.

Lemma accounts_zero : accounts [] stats_aggregate_zero.
Proof. by split. Qed.

Lemma bin_index_range v : 0 ≤ bin_index v < 12.
Proof. unfold bin_index. repeat case_match; lia. Qed.

Lemma later_pairs_NoDup : NoDup (later_pairs steps).
Proof. unfold steps. destruct logstep_all; apply (bool_decide_unpack _); vm_compute; exact I. Qed.

Lemma set_at2_lookup {A} (f : logstep → logstep → A) p v s1 s2 : set_at2 f p v s1 s2 = if decide ((s1, s2) = p) then v else f s1 s2.
Proof.
  destruct p as [a b]. unfold set_at2, set_at. cbn [fst snd]. destruct (decide (s1 = a)) as [->|]; [|by rewrite decide_False by congruence].
  by repeat case_decide; congruence.
Qed.

Lemma timeval_diff_safe t1 t2 : safe (timeval_diff t1 t2) (λ _, True).
Proof.
  unfold timeval_diff. eapply safe_bind; [apply safe_chk64|]. intros ? _. eapply safe_bind; [apply safe_chk64|]. by intros.
Qed.

Lemma double_add_safe st v : safe (stat_aggregate_double_add st v) (λ st', ad_n st' = ad_n st + 1).
Proof. unfold stat_aggregate_double_add. eapply safe_bind; [apply safe_chk32|]. by intros n ->. Qed.

Lemma int_add_safe st v : safe (stat_aggregate_int_add st v) (λ st', ai_n st' = ai_n st + 1 ∧ ai_sum st' = ai_sum st + v).
Proof.
  unfold stat_aggregate_int_add. eapply safe_bind; [apply safe_chk32|]. intros n ->. eapply safe_bind; [apply safe_chk64|]. intros s ->.
  eapply safe_bind; [apply safe_chk64|]. intros q _. eapply safe_bind; [apply safe_chk64|]. by intros s2 _.
Qed.

Lemma bump_safe b z : safe (bump b z) (λ v, v = z + Z.b2z b).
Proof. unfold bump. destruct b; [apply safe_chk32|cbn; lia]. Qed.

Lemma time_step_safe golden r acc p :
  (∀ s1 s2, length (acc.2 s1 s2) = 9%nat) →
  safe (time_step golden (r_info r) acc p) (λ acc', (∀ s1 s2, length (acc'.2 s1 s2) = 9%nat) ∧
    ∀ s1 s2, ad_n (acc'.1 s1 s2) = ad_n (acc.1 s1 s2) + (if decide ((s1, s2) = p) then Z.b2z (timed p r) else 0)).
Proof.
  intros Hz. unfold time_step, timed. destruct (timeval_is_zero _ || timeval_is_zero _); cbn [negb Z.b2z].
  - split; [done|]. intros s1 s2. case_decide; lia.
  - eapply safe_bind; [apply timeval_diff_safe|]. intros d _. eapply safe_bind; [apply double_add_safe|]. intros s Hs.
    eapply (safe_bind _ _ (λ z, length z = 9%nat)).
    { destruct golden as [g|]; [|cbn; apply Hz]. case_match; [cbn; apply Hz|]. eapply safe_mono; [by apply zscore_add_safe|]. by intros ? []. }
    intros z Hlen. cbn [safe fst snd]. split; intros s1 s2; rewrite set_at2_lookup; case_decide as Hd; try done; try lia.
    subst p. cbn [fst snd] in *. lia.
Qed.

Lemma add_times_safe golden r st : (∀ s1 s2, length (sg_time_diff_z st s1 s2) = 9%nat) →
  safe (add_times golden (r_info r) st) (λ t, (∀ s1 s2, length (t.2 s1 s2) = 9%nat) ∧
    ∀ p, p ∈ later_pairs steps → ad_n (t.1 p.1 p.2) = ad_n (sg_time_diff st p.1 p.2) + Z.b2z (timed p r)).
Proof.
  intros Hz. unfold add_times. pose proof later_pairs_NoDup as Hd. generalize dependent (later_pairs steps). intros ps.
  assert (∀ acc, (∀ s1 s2, length (acc.2 s1 s2) = 9%nat) → NoDup ps →
    safe (res_foldl (time_step golden (r_info r)) acc ps) (λ t, (∀ s1 s2, length (t.2 s1 s2) = 9%nat) ∧
      ∀ s1 s2, ad_n (t.1 s1 s2) = ad_n (acc.1 s1 s2) + (if decide ((s1, s2) ∈ ps) then Z.b2z (timed (s1, s2) r) else 0))) as Hgen.
  { induction ps as [|p ps IH]; intros acc Ha Hd; cbn [res_foldl].
    - split; [done|]. intros s1 s2. rewrite decide_False by apply not_elem_of_nil. lia.
    - apply NoDup_cons in Hd as [Hn Hd]. eapply safe_bind; [by apply time_step_safe|]. intros acc' [Ha' Hc].
      eapply safe_mono; [by apply IH|]. intros t [Ht Hs]. split; [done|]. intros s1 s2. rewrite Hs, Hc.
      destruct (decide ((s1, s2) = p)) as [<-|Hp].
      + rewrite (decide_False (P := _ ∈ ps)) by done. rewrite decide_True by left. lia.
      + rewrite Z.add_0_r. f_equal. destruct (decide ((s1, s2) ∈ ps)) as [Hi|Hi];
          [rewrite decide_True by (by right)|rewrite decide_False by (rewrite elem_of_cons; tauto)]; done. }
  intros Hd. eapply safe_mono; [by apply (Hgen (sg_time_diff st, sg_time_diff_z st))|]. intros t [Ht Hs]. split; [done|].
  intros [s1 s2] Hp. rewrite Hs, decide_True by done. done.
Qed.

Lemma add_accounts golden r rs st : accounts rs st → safe (output_analysis_aggregate_add golden r st) (accounts (rs ++ [r])).
Proof.
  intros [Hn Hneither Hpre Hpost Hboth Hact Hvalid Hcrash Hreached Htimes Hz Hmf Hf Hfs Hlog [Hfb1 Hfb2] Hmr Hr [Hrb1 Hrb2]].
  unfold output_analysis_aggregate_add. cbv zeta.
  eapply safe_bind; [apply safe_chk32|]. intros n ->. do 4 (eapply safe_bind; [apply bump_safe|]; intros ? ->).
  eapply safe_bind; [by apply add_times_safe|]. intros times [Ht1 Ht2].
  eapply safe_bind; [apply int_add_safe|]. intros mf [Emf _]. eapply safe_bind; [apply int_add_safe|]. intros fa [Efa Esum].
  eapply (safe_bind _ _ (λ fl, ad_n fl = ad_n (sg_fault_act_count_log10 st) + Z.b2z (activated r))).
  { unfold activated. case_match; [apply double_add_safe|cbn; lia]. }
  intros fl Efl. eapply safe_bind; [apply count_at_safe; rewrite Hfb1; apply bin_index_range|].
  intros fb (Efb1 & Efb2 & _). eapply safe_bind; [apply int_add_safe|]. intros mr [Emr _].
  eapply safe_bind; [apply int_add_safe|]. intros ra [Era _].
  eapply safe_bind; [apply count_at_safe; rewrite Hrb1; apply bin_index_range|]. intros rb (Erb1 & Erb2 & _).
  do 3 (eapply safe_bind; [apply bump_safe|]; intros ? ->). eapply safe_bind; [apply safe_chk32|]. intros at_step ->.
  split; cbn [sg_n sg_passed_neither sg_passed_pre sg_passed_post sg_passed_both sg_activated sg_valid sg_crash sg_step_reached sg_time_diff
    sg_time_diff_z sg_module_fault_act_count sg_fault_act_count sg_fault_act_count_log10 sg_fault_act_count_bins sg_module_restart_count
    sg_restart_count sg_restart_count_bins]; rewrite ?count_if_snoc, ?length_app; cbn [length]; try lia; try done.
  1-4: rewrite ?Hneither, ?Hpre, ?Hpost, ?Hboth; f_equal; unfold passed; by destruct (sanity_passed_pre (r_info r)), (sanity_passed_post (r_info r)).
  - by rewrite Hact.
  - by rewrite Hvalid.
  - by rewrite Hcrash.
  - intros o s. rewrite count_if_snoc. case_decide as Hd.
    + destruct Hd as [-> ->]. rewrite Hreached. f_equal. unfold ended. by rewrite bool_decide_true.
    + rewrite Hreached, <- (Z.add_0_r (count_if _ rs)) at 1. f_equal. unfold ended. rewrite bool_decide_false; [done|]. intros []. by apply Hd.
  - intros p Hp. rewrite count_if_snoc, Ht2, Htimes by done. done.
  - rewrite fmap_app. cbn [fmap list_fmap]. rewrite sumZ_snoc. lia.
Qed.

(** Statistics that start at zero. *)
Definition added_runs (l : list added) : list run := l.*1.
Lemma total_accounts l : safe (total add_added stats_aggregate_zero l) (accounts (added_runs l)).
Proof.
  unfold total, added_runs. induction l as [|a l IH] using rev_ind; [apply accounts_zero|]. rewrite res_foldl_app, fmap_app.
  eapply safe_bind; [exact IH|]. intros st Hst. cbn [res_foldl]. eapply safe_bind; [by apply (add_accounts _ a.1)|]. done.
Qed.

Lemma total_stop l f : total add_added stats_aggregate_zero l = Stop f → f = FOverflow.
Proof. pose proof (total_accounts l) as H. intros E. by rewrite E in H. Qed.
Lemma total_ret l st : total add_added stats_aggregate_zero l = Ret st → accounts (added_runs l) st.
Proof. pose proof (total_accounts l) as H. intros E. by rewrite E in H. Qed.

(** *** Counts *)

Lemma count_if_cons {A} (p : A → bool) x l : count_if p (x :: l) = Z.b2z (p x) + count_if p l.
Proof.
  unfold count_if. destruct (p x) eqn:E; [rewrite filter_cons_True by done|rewrite filter_cons_False by (by rewrite E)]; cbn [length Z.b2z]; lia.
Qed.

Lemma count_if_ext {A} (p q : A → bool) l : (∀ x, p x = q x) → count_if p l = count_if q l.
Proof. intros H. unfold count_if. do 2 f_equal. apply list_filter_iff. intros x. by rewrite H. Qed.

Lemma count_if_split {A} (p q : A → bool) l : count_if p l = count_if (λ x, p x && q x) l + count_if (λ x, p x && negb (q x)) l.
Proof.
  induction l as [|x l IH] using rev_ind; [done|]. rewrite !count_if_snoc. destruct (p x), (q x); cbn; lia.
Qed.

Lemma count_if_true {A} (l : list A) : count_if (λ _, true) l = Z.of_nat (length l).
Proof. induction l as [|x l IH] using rev_ind; [done|]. rewrite count_if_snoc, length_app. cbn. lia. Qed.

Lemma count_if_nonneg {A} (p : A → bool) l : 0 ≤ count_if p l.
Proof. unfold count_if. lia. Qed.

Lemma passed_partition rs :
  Z.of_nat (length rs) = count_if (passed false false) rs + count_if (passed true false) rs + count_if (passed false true) rs + count_if (passed true true) rs.
Proof.
  induction rs as [|r rs IH] using rev_ind; [done|]. rewrite !count_if_snoc, length_app. unfold passed at 2 4 6 8. cbn [length].
  destruct (sanity_passed_pre (r_info r)), (sanity_passed_post (r_info r)); cbn [eqb andb Z.b2z]; lia.
Qed.

(** Every run has one outcome, at one step. *)
Definition all_outcomes : list outcome := [outcome_inactive; outcome_invalid; outcome_success; outcome_crash].
Definition outcometotal (st : stats_aggregate) (o : outcome) : Z :=
  match o with
  | outcome_inactive => sg_n st - sg_activated st
  | outcome_invalid => sg_activated st - sg_valid st
  | outcome_success => sg_valid st - sg_crash st
  | outcome_crash => sg_crash st
  end.
Definition reached_total (st : stats_aggregate) (o : outcome) : Z := sumZ (sg_step_reached st o <$> steps).

Definition has_outcome (o : outcome) (r : run) : bool := bool_decide (run_outcome (r_info r) = o).

Lemma outcometotal_count rs st o : accounts rs st → outcometotal st o = count_if (has_outcome o) rs.
Proof.
  intros H. destruct H as [Hn _ _ _ _ Ha Hv Hc _ _ _ _ _ _ _ _ _ _ _].
  assert (∀ r, has_outcome o r = match o with outcome_inactive => negb (activated r) | outcome_invalid => activated r && negb (valid r)
    | outcome_success => valid r && negb (crashed r) | outcome_crash => crashed r end) as Ho.
  { intros r. unfold has_outcome, crashed, valid, activated, run_outcome. destruct (0 <? _), (sanity_passed_pre _), (sanity_passed_post _), o; done. }
  rewrite (count_if_ext _ _ _ Ho). destruct o; cbn [outcometotal]; rewrite ?Hn, ?Ha, ?Hv, ?Hc; [| | |done].
  - rewrite <- (count_if_true rs), (count_if_split (λ _, true) activated rs). cbn [andb]. rewrite (count_if_ext (λ x, activated x) activated) by done. lia.
  - rewrite (count_if_split activated valid rs), (count_if_ext (λ x, activated x && valid x) valid) by (intros x; unfold valid; by destruct (activated x)). lia.
  - rewrite (count_if_split valid crashed rs), (count_if_ext (λ x, valid x && crashed x) crashed) by (intros x; unfold crashed; by destruct (valid x)). lia.
Qed.

Lemma step_reached_in li : step_reached li ∈ steps ∧ step_reached li ≠ logstep_qemu_exit.
Proof.
  unfold step_reached. assert (∀ l s, l ⊆ steps → s ∈ steps → s ≠ logstep_qemu_exit →
    let r := foldl (λ r st, if timeval_is_zero (step_time li st) then r else if step_number st <? step_number logstep_qemu_exit then st else r) s l in
    r ∈ steps ∧ r ≠ logstep_qemu_exit) as H.
  { induction l as [|x l IH]; intros s Hl Hs Hx; [done|]. cbn [foldl]. apply IH; [intros y Hy; apply Hl; by right|..].
    - repeat case_match; try done. apply Hl. by left.
    - repeat case_match; try done. intros ->. done. }
  apply H; [done| |done]. unfold steps. left.
Qed.

Lemma steps_NoDup : NoDup steps.
Proof. unfold steps. destruct logstep_all; apply (bool_decide_unpack _); vm_compute; exact I. Qed.

Lemma sum_ended rs o l : NoDup l → sumZ ((λ s, count_if (ended o s) rs) <$> l) = count_if (λ r, has_outcome o r && bool_decide (step_reached (r_info r) ∈ l)) rs.
Proof.
  induction l as [|s l IH]; intros Hd.
  - cbn. rewrite (count_if_ext _ (λ _, false)); [|intros r; rewrite bool_decide_false by apply not_elem_of_nil; by rewrite andb_false_r].
    induction rs as [|r rs IHr] using rev_ind; [done|]. by rewrite count_if_snoc, <- IHr.
  - apply NoDup_cons in Hd as [Hn Hd]. change (sumZ ((λ s, count_if (ended o s) rs) <$> s :: l)) with (count_if (ended o s) rs + sumZ ((λ s, count_if (ended o s) rs) <$> l)).
    rewrite (IH Hd). symmetry. rewrite (count_if_split _ (λ r, bool_decide (step_reached (r_info r) = s))). f_equal; apply count_if_ext; intros r; unfold ended, has_outcome.
    + apply eq_iff_eq_true. rewrite !andb_true_iff, !bool_decide_eq_true, elem_of_cons. tauto.
    + apply eq_iff_eq_true. rewrite !andb_true_iff, negb_true_iff, !bool_decide_eq_true, bool_decide_eq_false, elem_of_cons. naive_solver.
Qed.

(** C20: Only an integer overflow can stop the statistics of a group, and they account for
    each of its runs once: by the sanity tests passed, by the outcome and the step reached,
    and by the bins of faults and of restarts.  The averages are over all runs, as the
    assertions of the report demand. *)
Theorem every_run_counted (l : list added) :
  safe (total add_added stats_aggregate_zero l) (λ st,
    sg_n st = Z.of_nat (length l) ∧
    sg_n st = sg_passed_neither st + sg_passed_pre st + sg_passed_post st + sg_passed_both st ∧
    (∀ o, reached_total st o = outcometotal st o ∧ 0 ≤ outcometotal st o ∧ sg_step_reached st o logstep_qemu_exit = 0) ∧
    0 ≤ sg_crash st ≤ sg_valid st ∧ sg_valid st ≤ sg_activated st ≤ sg_n st ∧
    sumZ (sg_fault_act_count_bins st) = sg_n st ∧ sumZ (sg_restart_count_bins st) = sg_n st ∧
    ai_n (sg_module_fault_act_count st) = sg_n st ∧ ai_n (sg_fault_act_count st) = sg_n st ∧
    ai_n (sg_module_restart_count st) = sg_n st ∧ ai_n (sg_restart_count st) = sg_n st ∧
    ai_sum (sg_fault_act_count st) = sumZ ((λ a, (fault_counts (r_info a.1)).2) <$> l)).
Proof.
  eapply safe_mono; [apply total_accounts|]. intros st Hst. pose proof (λ o, outcometotal_count _ _ o Hst) as Ho.
  pose proof (Ho outcome_inactive) as Hoi. pose proof (Ho outcome_invalid) as Hov. pose proof (Ho outcome_success) as Hos.
  pose proof (Ho outcome_crash) as Hoc. cbn [outcometotal] in Hoi, Hov, Hos, Hoc.
  pose proof (count_if_nonneg (has_outcome outcome_inactive) (added_runs l)). pose proof (count_if_nonneg (has_outcome outcome_invalid) (added_runs l)).
  pose proof (count_if_nonneg (has_outcome outcome_success) (added_runs l)). pose proof (count_if_nonneg (has_outcome outcome_crash) (added_runs l)).
  destruct Hst as [Hn Hs1 Hs2 Hs3 Hs4 Ha Hv Hc Hr _ _ Hmf Hf Hfs _ [_ Hfb] Hmr Hre [_ Hrb]].
  split_and!; try lia.
  - rewrite Hn. unfold added_runs. by rewrite length_fmap.
  - rewrite Hs1, Hs2, Hs3, Hs4, Hn. apply passed_partition.
  - intros o. rewrite Ho. split_and!; [|apply count_if_nonneg|].
    + unfold reached_total. rewrite (list_fmap_ext _ (λ s, count_if (ended o s) (added_runs l)) steps) by (intros; apply Hr).
      rewrite sum_ended by apply steps_NoDup. apply count_if_ext. intros r. rewrite bool_decide_true by apply step_reached_in. by rewrite andb_true_r.
    + rewrite Hr, (count_if_ext _ (λ _, false)).
      * generalize (added_runs l). intros rs. induction rs as [|r rs IH] using rev_ind; [done|]. by rewrite count_if_snoc, IH.
      * intros r. unfold ended. apply bool_decide_false. intros [_ E]. by apply (step_reached_in (r_info r)).
  - rewrite Hfs. unfold added_runs. rewrite <- list_fmap_compose. done.
Qed.

(** ** The lists hold the groups of the experiment *)

(** Keys of a run in a list, and the order in which runs are added: those without faults at
    the end, latest first. *)
Definition run_calls (r : run) : list (list_id * string) := if is_golden (r_info r) then golden_calls else ret_or [] (faulty_calls r).
Definition keys_of (w : list_id) (calls : list (list_id * string)) : list string := (filter (λ c, c.1 = w) calls).*2.
Definition keyed (w : list_id) (r : run) : list (string * run) := (λ k, (k, r)) <$> keys_of w (run_calls r).
Definition faulty_runs (rs : list run) : list run := filter (λ r, is_golden (r_info r) = false) rs.
Definition golden_runs (rs : list run) : list run := filter (λ r, is_golden (r_info r) = true) rs.
Definition list_calls (w : list_id) (rs : list run) : list (string * run) :=
  concat (keyed w <$> faulty_runs rs ++ reverse (golden_runs rs)).
Definition run_group (w : list_id) (k : string) (t : test) (rs : list run) : list run := group r_system r_workload k t (list_calls w rs).

(** Every list holds calls of added runs. *)
Definition lists_hold (a : analysis) (P : list_id → list (string * run)) : Prop :=
  ∀ w, ∃ cs, holds added_system added_workload add_added stats_aggregate_zero (an_lists a w) cs ∧ (λ c, (c.1, c.2.1)) <$> cs = P w.
Definition golden_hold (golden : tests) (rs : list run) : Prop :=
  ∀ t, accounts (filter (covers r_system r_workload t) rs) (default stats_aggregate_zero (find_test t golden)).

Lemma make_call_safe r a c P : lists_hold a P → safe (make_call r a c)
  (λ a', lists_hold a' (λ w, P w ++ (if decide (c.1 = w) then [(c.2, r)] else [])) ∧
         an_stats_golden a' = an_stats_golden a ∧ loginfo_golden_list a' = loginfo_golden_list a ∧ log_count a' = log_count a).
Proof.
  intros H. unfold make_call. destruct (H c.1) as (cs & Hc & Hm). unfold output_analysis_aggregate_add_key.
  pose proof (add_key_holds added_system added_workload add_added stats_aggregate_zero (an_lists a c.1) cs c.2 (r, an_stats_golden a) Hc) as Hk.
  destruct (add_key _ _ _ _ _ _ _) as [L|f].
  - cbn [res_bind safe]. split_and!; [|done..]. intros w. cbn [set_list an_lists]. destruct (decide (w = c.1)) as [->|Hn].
    + eexists. split; [exact Hk|]. rewrite fmap_app, Hm. by rewrite decide_True.
    + destruct (H w) as (cs' & Hc' & Hm'). exists cs'. split; [done|]. rewrite decide_False by done. by rewrite app_nil_r.
  - cbn [res_bind safe]. destruct Hk as (k & t & Hf). exact (total_stop _ _ Hf).
Qed.

Lemma make_calls_safe r calls a P : lists_hold a P → safe (make_calls r calls a)
  (λ a', lists_hold a' (λ w, P w ++ ((λ k, (k, r)) <$> keys_of w calls)) ∧
         an_stats_golden a' = an_stats_golden a ∧ loginfo_golden_list a' = loginfo_golden_list a ∧ log_count a' = log_count a).
Proof.
  revert a P. induction calls as [|c calls IH]; intros a P H; unfold make_calls; cbn [res_foldl].
  - split_and!; [|done..]. intros w. cbn. rewrite app_nil_r. apply H.
  - eapply safe_bind; [by apply make_call_safe|]. intros a1 (H1 & <- & <- & <-). eapply safe_mono; [by apply IH|].
    intros a2 (H2 & ? & ? & ?). split_and!; [|done..]. intros w. destruct (H2 w) as (cs & Hc & Hm). exists cs. split; [done|].
    rewrite Hm, <- app_assoc. f_equal. unfold keys_of. case_decide; [by rewrite filter_cons_True|by rewrite filter_cons_False].
Qed.

Lemma add_golden_safe r golden rs : golden_hold golden rs → safe (add_golden r golden) (λ g, golden_hold g (rs ++ [r])).
Proof.
  intros H. unfold add_golden. rewrite add_per_test_eq.
  pose proof (add_tests_spec (output_analysis_aggregate_add None) stats_aggregate_zero r (tests_of r_system r_workload r) golden (tests_of_NoDup _ _ r)) as Ht.
  match type of Ht with match ?m with _ => _ end => destruct m as [g|f] end; cbn [safe].
  - intros t. specialize (Ht t). rewrite filter_app. case_decide as Hc.
    + destruct Ht as (st & Ha & ->). apply elem_of_tests in Hc. rewrite filter_cons_True by done. cbn [default from_option].
      pose proof (add_accounts None r _ _ (H t)) as Hs. rewrite Ha in Hs. exact Hs.
    + rewrite Ht. rewrite elem_of_tests in Hc. rewrite filter_cons_False by done. rewrite filter_nil, app_nil_r. apply H.
  - destruct Ht as (t & _ & Hf). pose proof (add_accounts None r _ _ (H t)) as Hs. rewrite Hf in Hs. exact Hs.
Qed.

(** What holds between two logs. *)
Record analyzed (rs : list run) (a : analysis) : Prop := {
  az_count : log_count a = Z.of_nat (length (faulty_runs rs));
  az_goldens : loginfo_golden_list a = reverse (golden_runs rs);
  az_golden : golden_hold (an_stats_golden a) (golden_runs rs);
  az_lists : lists_hold a (λ w, concat (keyed w <$> faulty_runs rs));
}.
Definition has_keys (r : run) : Prop := is_golden (r_info r) = true ∨ is_ret (faulty_calls r) = true.

Lemma faulty_snoc rs r : faulty_runs (rs ++ [r]) = faulty_runs rs ++ (if is_golden (r_info r) then [] else [r]).
Proof. unfold faulty_runs. rewrite filter_app. destruct (is_golden (r_info r)) eqn:E; [by rewrite filter_cons_False by (by rewrite E)|by rewrite filter_cons_True]. Qed.
Lemma golden_snoc rs r : golden_runs (rs ++ [r]) = golden_runs rs ++ (if is_golden (r_info r) then [r] else []).
Proof. unfold golden_runs. rewrite filter_app. destruct (is_golden (r_info r)) eqn:E; [by rewrite filter_cons_True|by rewrite filter_cons_False by (by rewrite E)]. Qed.

Lemma account_log_safe rs r a : analyzed rs a → has_keys r → safe (account_log r a) (analyzed (rs ++ [r])).
Proof.
  intros [Hc Hg Hs Hl] Hk. unfold account_log, aggregate_log. destruct (is_golden (r_info r)) eqn:E; cbn [negb].
  - rewrite res_bind_assoc. eapply safe_bind; [by apply add_golden_safe|]. intros g Hg'. cbn [res_bind safe].
    split; rewrite ?faulty_snoc, ?golden_snoc, E, ?app_nil_r; try done. cbn [loginfo_golden_list]. by rewrite reverse_app, Hg.
  - destruct Hk as [|Hk]; [congruence|]. apply (is_ret_or []) in Hk. rewrite Hk. cbn [res_bind].
    eapply safe_bind; [by apply make_calls_safe|]. intros a1 (Ha1 & Ha2 & Ha3 & Ha4). eapply safe_bind; [apply safe_chk32|]. intros n ->.
    split; cbn [log_count loginfo_golden_list an_stats_golden an_lists]; rewrite ?faulty_snoc, ?golden_snoc, E, ?app_nil_r; try congruence.
    + rewrite length_app. cbn [length]. lia.
    + by rewrite Ha2.
    + intros w. destruct (Ha1 w) as (cs & Hcs & Hm). exists cs. split; [done|]. rewrite Hm, fmap_app, concat_app. cbn. rewrite app_nil_r.
      unfold keyed, run_calls. by rewrite E.
Qed.

Lemma account_lists rs : Forall has_keys rs → safe (account rs) (λ a, lists_hold a (λ w, list_calls w rs) ∧ log_count a = Z.of_nat (length (faulty_runs rs))).
Proof.
  intros Hk. unfold account.
  assert (safe (res_foldl (λ a r, account_log r a) analysis_zero rs) (analyzed rs)) as Hs.
  { induction rs as [|r rs IH] using rev_ind.
    - split; [done|done|intros t; apply accounts_zero|intros w; exists []; split; [apply holds_nil|done]].
    - apply List.Forall_app in Hk as [Hk Hr]. rewrite res_foldl_app. eapply safe_bind; [by apply IH|]. intros a Ha. cbn [res_foldl].
      eapply safe_bind; [apply account_log_safe; [exact Ha|by inversion Hr]|]. done. }
  eapply safe_bind; [exact Hs|]. intros a [Hc Hg _ Hl]. unfold aggregate_golden_all. rewrite Hg, <- Hc.
  assert (Forall (λ r, is_golden (r_info r) = true) (reverse (golden_runs rs))) as Hgs.
  { apply Forall_reverse. apply List.Forall_forall. intros x Hx. apply list_elem_of_In in Hx. unfold golden_runs in Hx. by apply list_elem_of_filter in Hx as []. }
  unfold list_calls. generalize dependent (reverse (golden_runs rs)). intros gs _ Hgs. clear Hs Hk.
  assert (∀ l, concat (keyed l <$> faulty_runs rs ++ gs) = concat (keyed l <$> faulty_runs rs) ++ concat (keyed l <$> gs)) as Happ.
  { intros l. by rewrite fmap_app, concat_app. }
  enough (∀ gs P a0, Forall (λ r, is_golden (r_info r) = true) gs → lists_hold a0 P →
    safe (res_foldl (λ a r, make_calls r golden_calls a) a0 gs) (λ a', lists_hold a' (λ w, P w ++ concat (keyed w <$> gs)) ∧ log_count a' = log_count a0)) as Hgen.
  { eapply safe_mono; [by apply Hgen|]. intros a' [H1 H2]. split; [|done]. intros w. destruct (H1 w) as (cs & Hcs & Hm). exists cs. by rewrite Happ. }
  clear. induction gs as [|g gs IH]; intros P a0 Hgs H; cbn [res_foldl].
  - split; [|done]. intros w. cbn. rewrite app_nil_r. apply H.
  - inversion Hgs as [|?? E Hgs']; subst. eapply safe_bind; [by apply make_calls_safe|]. intros a1 (H1 & _ & _ & <-).
    eapply safe_mono; [by apply IH|]. intros a2 [H2 ->]. split; [|done]. intros w. destruct (H2 w) as (cs & Hcs & Hm). exists cs. split; [done|].
    rewrite Hm, <- app_assoc, fmap_cons. cbn [concat]. f_equal. unfold keyed at 2, run_calls. by rewrite E.
Qed.

Lemma group_added k t cs : added_runs (group added_system added_workload k t cs) = group r_system r_workload k t ((λ c, (c.1, c.2.1)) <$> cs).
Proof.
  unfold group, added_runs. induction cs as [|c cs IH]; [done|]. rewrite fmap_cons.
  destruct (decide (same_key c.1 k ∧ covers added_system added_workload t c.2)) as [Hd|Hd].
  - rewrite filter_cons_True by done. rewrite filter_cons_True by done. rewrite !fmap_cons. by rewrite IH.
  - rewrite filter_cons_False by done. rewrite filter_cons_False by done. apply IH.
Qed.

Lemma account_groups rs a : Forall has_keys rs → account rs = Ret a →
  ∀ w k t, match find_group k t (an_lists a w) with
           | None => run_group w k t rs = []
           | Some st => run_group w k t rs ≠ [] ∧ accounts (run_group w k t rs) st
           end.
Proof.
  intros Hk Ha. pose proof (account_lists rs Hk) as Hs. rewrite Ha in Hs. destruct Hs as [Hl _].
  intros w k t. destruct (Hl w) as (cs & Hcs & Hm). unfold run_group. rewrite <- Hm, <- group_added. specialize (Hcs k t).
  destruct (find_group k t (an_lists a w)) as [st|]; [|by rewrite Hcs]. destruct Hcs as [Hne Ht]. split.
  - unfold added_runs. by destruct (group added_system added_workload k t cs).
  - exact (total_ret _ _ Ht).
Qed.

End Analysis.

(** ** Classes of paths *)

Lemma path_match_spec path m : path_match path m = true ↔ path = m ∨ ∃ r, path = m +:+ String "/" r.
Proof.
  unfold path_match. revert path. induction m as [|a m IH]; intros path.
  - destruct path as [|b path]; cbn; [split; auto|]. rewrite bool_decide_true by done. cbn. destruct (Ascii.eqb_spec b "/") as [->|Hn].
    + split; [|done]. intros _. right. eauto.
    + split; [done|]. intros [|[r [=]]]; done.
  - destruct path as [|b path]; [cbn; split; [done|intros [|[r [=]]]; done]|]. cbn [String.length String.substring String.get].
    specialize (IH path). change (S (String.length path) <? S (String.length m))%nat with (String.length path <? String.length m)%nat.
    change (S (String.length path) =? S (String.length m))%nat with (String.length path =? String.length m)%nat.
    destruct (decide (b = a)) as [->|Hb].
    + rewrite (bool_decide_ext (String a (String.substring 0 (String.length m) path) = String a m) (String.substring 0 (String.length m) path = m))
        by (split; congruence).
      rewrite IH. cbn. split; (intros [Hp|[r Hr]]; [left; congruence|right; exists r; congruence]).
    + rewrite (bool_decide_false (String b _ = String a m)) by congruence. cbn [negb]. split; [by case_match|].
      intros [|[r [=]]]; congruence.
Qed.

(** The class is that of the longest directory that matches. *)
Lemma classify_longest path specs :
  match classify_with specs path with
  | Some b => b ∈ specs ∧ path_match path b.2 = true ∧ ∀ b', b' ∈ specs → path_match path b'.2 = true → (String.length b'.2 ≤ String.length b.2)%nat
  | None => ∀ b, b ∈ specs → path_match path b.2 = false
  end.
Proof.
  unfold classify_with. induction specs as [|s specs IH] using rev_ind; [by intros b ?%not_elem_of_nil|]. rewrite foldl_snoc.
  unfold classify_step at 1. destruct (path_match path s.2) eqn:E; cbn [negb].
  - destruct (foldl _ None specs) as [b|].
    + destruct IH as (Hb & Hm & Hl). destruct (Nat.leb_spec (String.length s.2) (String.length b.2)); split_and!; rewrite ?elem_of_app; auto;
        try (right; by apply list_elem_of_singleton); intros b' [Hin| ->%list_elem_of_singleton]%elem_of_app Hb'; try lia; specialize (Hl _ Hin Hb'); lia.
    + split_and!; [rewrite elem_of_app; right; by apply list_elem_of_singleton|done|].
      intros b' [Hin| ->%list_elem_of_singleton]%elem_of_app Hb'; [|lia]. rewrite (IH b' Hin) in Hb'. done.
  - destruct (foldl _ None specs) as [b|].
    + destruct IH as (Hb & Hm & Hl). split_and!; [rewrite elem_of_app; auto|done|].
      intros b' [Hin| ->%list_elem_of_singleton]%elem_of_app Hb'; [by apply Hl|congruence].
    + intros b' [Hin| ->%list_elem_of_singleton]%elem_of_app; auto.
Qed.
