(* ===== verification/GoldenRuns.v ===== *)
(** * One line per run, and runs without faults: [hypermemloganalyze/hypermemloganalyze.c]

    The table of all runs ([output_analysis_all]) with what differs from the run without
    faults, and the check that runs without faults agree with each other.  A line is the list of
    its fields; the warnings of the check are its result, others are left out. *)

From Stdlib Require Import ZArith Lia Ascii String.
From stdpp Require Import base list numbers strings.
From S2P Require Import Prelude Decimal FaultSpec Helper Module LogInfo Double Significance KeyOrder Groups Aggregate.
Set Default Proof Using "Type".

Section Golden.
(** [LOGSTEP_ALL], [IGNORE_EXECCOUNTS], the loaded map files, and the options [-s] and [-t]. *)
Variables (logstep_all ignore_execcounts : bool) (modules : module_ll).
Variables (option_source_path_prefix : string) (option_test_name : option string).
Abbreviation steps := (steps logstep_all).

(** ** Parts of a line *)

Definition logstepname (st : logstep) : string :=
  match st with
  | logstep_before_qemu_start => "before_qemu_start" | logstep_qemu_start => "qemu_start" | logstep_before_sanity_pre => "before_sanity_pre"
  | logstep_after_sanity_pre => "after_sanity_pre" | logstep_workload_start => "workload_start" | logstep_workload_report => "workload_report"
  | logstep_workload_completed => "workload_completed" | logstep_workload_end => "workload_end"
  | logstep_after_sanity_post => "after_sanity_post" | logstep_qemu_exit => "qemu_exit"
  end.

Fixpoint zeros (n : nat) : string := match n with O => "" | S n => String "0" (zeros n) end.
(** ["%.6d"] *)
Definition print_usec (z : Z) : string :=
  let s := print_dec (Z.abs z) in (if z <? 0 then "-" else "") +:+ zeros (6 - String.length s) +:+ s.
Definition print_time_field (time reftime : timeval) : string :=
  if timeval_is_zero time then ""
  else if (tv_usec time <? 0) || (1000000 <=? tv_usec time) then ""
  else let d := timeval_subtract time reftime in print_int (tv_sec d) +:+ "." +:+ print_usec (tv_usec d).

Definition simplify_source_path (s : option string) : option string :=
  match s with
  | None => None
  | Some s =>
      let n := String.length option_source_path_prefix in
      Some (if decide (String.substring 0 n s = option_source_path_prefix) then string_drop n s else s)
  end.

(** The earliest time, with the last times of faults and restarts. *)
Definition min_times (acc : timeval) (l : list timeval) : res timeval := res_foldl timeval_set_to_min acc l.
Definition module_times (m : loginfo_module) : list timeval :=
  [time_startup m; time_context_set m; time_faultindex_get m] ++ concat ((λ st, [t_last (im_faults m st); t_last (im_restarts m st)]) <$> steps).
Definition find_reftime (li : loginfo) : res timeval :=
  min_times unset ((step_time li <$> steps) ++ concat (module_times <$> li_modules li)).

Definition module_loginfo_find (li : loginfo) (name : string) : option loginfo_module :=
  snd <$> list_find (λ m, im_name m = name) (li_modules li).

(** [None] if no step has a time. *)
Definition find_last_step (li : loginfo) : option logstep :=
  foldl (λ r st, if negb (step_number st <? step_number logstep_qemu_exit) then r
                 else if timeval_is_zero (step_time li st) then r else Some st) None steps.

(** ** Blocks that were executed *)

Fixpoint match_loop (fuel : nat) (i : Z) (e g : list Z) (acc : Z * Z) : res (Z * Z) :=
  match fuel with
  | O => Ret acc
  | S fuel =>
      let! x := entry e i in
      let! y := entry g i in
      match_loop fuel (i + 1) e g
        (acc.1 + Z.b2z ((0 <? x) && (y <=? 0)), acc.2 + Z.b2z ((x <=? 0) && (0 <? y)))
  end.
(** [bb_extra] and [bb_missing] *)
Definition match_bbs_executed (m golden : loginfo_module) : res (Z * Z) :=
  match im_execcount m, im_execcount golden with
  | Some e, Some g => match_loop (Z.to_nat (im_bb_count m)) 0 e g (0, 0)
  | _, _ => Ret (0, 0)
  end.

(** ** The summary of a run *)

(** A count with its first and last time. *)
Definition seen (t : tally) (n : Z) (first last : timeval) : res tally :=
  let! a := timeval_set_to_min (t_first t) first in
  let! b := timeval_set_to_max (t_last t) last in
  Ret {| t_count := add_unsigned (t_count t) n; t_first := a; t_last := b |}.
Definition seen_time (t : tally) (time : timeval) : res tally := if timeval_is_zero time then Ret t else seen t 1 time time.

Record summary := {
  su_map : map_info;
  su_module_count : Z; su_startup : tally; su_context_set : tally; su_faultindex_get : tally;
  su_fault_inj_count : Z;
  su_module_fault_act_count : Z; su_fault_act : tally; su_fault_act_step : logstep → Z;
  su_module_restart_count : Z; su_restart : tally; su_restart_step : logstep → Z;
  su_module_restarts_not_golden : Z; su_restarts_not_golden : Z;
  su_bb_extra : Z; su_bb_missing : Z; su_module_extra : Z; su_module_missing : Z;
}.
Definition summary_zero : summary :=
  {| su_map := no_map_info; su_module_count := 0; su_startup := no_tally; su_context_set := no_tally; su_faultindex_get := no_tally;
     su_fault_inj_count := 0; su_module_fault_act_count := 0; su_fault_act := no_tally; su_fault_act_step := λ _, 0;
     su_module_restart_count := 0; su_restart := no_tally; su_restart_step := λ _, 0;
     su_module_restarts_not_golden := 0; su_restarts_not_golden := 0; su_bb_extra := 0; su_bb_missing := 0; su_module_extra := 0; su_module_missing := 0 |}.

(** The first of each field that a module has. *)
Definition first_map (a b : map_info) : map_info :=
  {| mi_path := or_else (mi_path a) (mi_path b); mi_line := if mi_line a =? 0 then mi_line b else mi_line a;
     mi_func := or_else (mi_func a) (mi_func b); mi_type := or_else (mi_type a) (mi_type b) |}.
Definition sum_steps (f : logstep → tally) : Z := foldl (λ acc st, add_unsigned acc (t_count (f st))) 0 steps.
Definition seen_steps (t : tally) (f : logstep → tally) : res tally :=
  res_foldl (λ t st, seen t (t_count (f st)) (t_first (f st)) (t_last (f st))) t steps.
Definition add_steps (acc : logstep → Z) (f : logstep → tally) : logstep → Z := λ st, add_unsigned (acc st) (t_count (f st)).

Definition summarize_module (golden : option loginfo) (s : summary) (m : loginfo_module) : res summary :=
  let mg := golden ≫= λ g, module_loginfo_find g (im_name m) in
  let! mi := lookup_map_info modules m in
  let! startup := seen_time (su_startup s) (time_startup m) in
  let! context := seen_time (su_context_set s) (time_context_set m) in
  let! faultindex := seen_time (su_faultindex_get s) (time_faultindex_get m) in
  let! faults := seen_steps (su_fault_act s) (im_faults m) in
  let! restarts := seen_steps (su_restart s) (im_restarts m) in
  let restarts_here := sum_steps (im_restarts m) in
  let restarts_golden := match mg with Some g => sum_steps (im_restarts g) | None => 0 end in
  let more := restarts_golden <? restarts_here in
  let! extra := if more then chk32 (restarts_here - restarts_golden) else Ret 0 in
  let! not_golden := chk32 (su_restarts_not_golden s + extra) in
  let! bbs := match mg with Some g => if ignore_execcounts then Ret (0, 0) else match_bbs_executed m g | None => Ret (0, 0) end in
  let! bb_extra := chk32 (su_bb_extra s + bbs.1) in
  let! bb_missing := chk32 (su_bb_missing s + bbs.2) in
  Ret {| su_map := first_map (su_map s) mi;
         su_module_count := su_module_count s + 1; su_startup := startup; su_context_set := context; su_faultindex_get := faultindex;
         su_fault_inj_count := su_fault_inj_count s + match im_fault_bb_index m with Some _ => 1 | None => 0 end;
         su_module_fault_act_count := su_module_fault_act_count s + Z.b2z (0 <? sum_steps (im_faults m));
         su_fault_act := faults; su_fault_act_step := add_steps (su_fault_act_step s) (im_faults m);
         su_module_restart_count := su_module_restart_count s + Z.b2z (0 <? restarts_here);
         su_restart := restarts; su_restart_step := add_steps (su_restart_step s) (im_restarts m);
         su_module_restarts_not_golden := su_module_restarts_not_golden s + Z.b2z more; su_restarts_not_golden := not_golden;
         su_bb_extra := bb_extra; su_bb_missing := bb_missing;
         su_module_extra := su_module_extra s + match mg with Some _ => 0 | None => 1 end;
         su_module_missing := su_module_missing s |}.
Definition missing_modules (li golden : loginfo) : Z :=
  Z.of_nat (length (filter (λ g, module_loginfo_find li (im_name g) = None) (li_modules golden))).
Definition with_missing (s : summary) (n : Z) : summary :=
  {| su_map := su_map s; su_module_count := su_module_count s; su_startup := su_startup s; su_context_set := su_context_set s;
     su_faultindex_get := su_faultindex_get s; su_fault_inj_count := su_fault_inj_count s;
     su_module_fault_act_count := su_module_fault_act_count s; su_fault_act := su_fault_act s; su_fault_act_step := su_fault_act_step s;
     su_module_restart_count := su_module_restart_count s; su_restart := su_restart s; su_restart_step := su_restart_step s;
     su_module_restarts_not_golden := su_module_restarts_not_golden s; su_restarts_not_golden := su_restarts_not_golden s;
     su_bb_extra := su_bb_extra s; su_bb_missing := su_bb_missing s; su_module_extra := su_module_extra s; su_module_missing := n |}.
Definition summarize (golden : option loginfo) (li : loginfo) : res summary :=
  let! s := res_foldl (summarize_module golden) summary_zero (li_modules li) in
  Ret (with_missing s match golden with Some g => missing_modules li g | None => 0 end).

(** ** The table *)

Definition header : list string :=
  (match option_test_name with Some _ => ["testname"] | None => [] end) ++
  ["system"; "workload"; "logpath"; "faultspec"; "faultloc"; "faultfunc"; "faultype"; "workload_reported"; "sanity_passed_pre"; "sanity_passed_post"; "last_step"] ++
  ((λ st, "time_" +:+ logstepname st) <$> tail steps) ++
  ["module_count"; "module_startup_count"; "module_startup_time_first"; "module_startup_time_last"; "module_context_set_count";
   "module_context_set_time_first"; "module_context_set_time_last"; "module_faultindex_get_count"; "module_faultindex_get_time_first";
   "module_faultindex_get_time_last"; "module_fault_inj_count"; "module_fault_act_count"; "fault_act_count"; "fault_act_time_first"; "fault_act_time_last"] ++
  ((λ st, "fault_act_count_" +:+ logstepname st) <$> steps) ++
  ["module_restart_count"; "restart_count"; "restart_time_first"; "restart_time_last"] ++
  ((λ st, "restart_count_" +:+ logstepname st) <$> steps) ++
  ["module_restart_count_not_in_golden"; "restart_count_not_in_golden"] ++
  (if ignore_execcounts then [] else ["bb_extra"; "bb_missing"]) ++ ["module_extra"; "module_missing"].

Definition tally_fields (t : tally) (reftime : timeval) : list string :=
  [print_int (t_count t); print_time_field (t_first t) reftime; print_time_field (t_last t) reftime].
Definition line_fields (r : run) (s : summary) (reftime : timeval) : list string :=
  let li := r_info r in
  (match option_test_name with Some n => [n] | None => [] end) ++
  [default "" (r_system r); default "" (r_workload r); r_path r;
   (if is_golden li then "" else default "" (li_faultspec li));
   default "" (simplify_source_path (mi_path (su_map s))) +:+ (if mi_line (su_map s) =? 0 then "" else ":" +:+ print_int (mi_line (su_map s)));
   default "" (mi_func (su_map s)); default "" (mi_type (su_map s)); default "" (workload_reported li);
   print_int (Z.b2z (sanity_passed_pre li)); print_int (Z.b2z (sanity_passed_post li));
   match find_last_step li with Some st => logstepname st | None => "" end] ++
  ((λ st, print_time_field (step_time li st) reftime) <$> tail steps) ++
  [print_int (su_module_count s)] ++ tally_fields (su_startup s) reftime ++ tally_fields (su_context_set s) reftime ++
  tally_fields (su_faultindex_get s) reftime ++
  [print_int (su_fault_inj_count s); print_int (su_module_fault_act_count s)] ++ tally_fields (su_fault_act s) reftime ++
  ((λ st, print_int (su_fault_act_step s st)) <$> steps) ++
  [print_int (su_module_restart_count s)] ++ tally_fields (su_restart s) reftime ++
  ((λ st, print_int (su_restart_step s st)) <$> steps) ++
  (if negb (is_golden li) then
     [print_int (su_module_restarts_not_golden s); print_int (su_restarts_not_golden s)] ++
     (if ignore_execcounts then [] else [print_int (su_bb_extra s); print_int (su_bb_missing s)]) ++
     [print_int (su_module_extra s); print_int (su_module_missing s)]
   else [""; ""] ++ (if ignore_execcounts then [] else [""; ""]) ++ [""; ""]).

(** [output_analysis_all]: the line of a run. *)
Definition output_analysis_all (goldens : list run) (r : run) : res (list string) :=
  let! reftime := find_reftime (r_info r) in
  let golden := if is_golden (r_info r) then None else golden_find goldens r in
  let! s := summarize (r_info <$> golden) (r_info r) in
  Ret (line_fields r s reftime).

(** ** Runs without faults agree *)

Inductive warning :=
| sanity_not_passed | module_lacking (name : string) | module_extra (name : string)
| restarts_differ (name : string) (n golden : Z) | block_counts_differ (name : string) (n golden : Z)
| blocks_extra (name : string) (n : Z) | blocks_missing (name : string) (n : Z).

(** [check_golden_run_consistency_module] *)
Definition consistency_module (m golden : loginfo_module) : res (list warning) :=
  let restart := sum_steps (im_restarts m) in
  let restart_golden := sum_steps (im_restarts golden) in
  if negb (restart =? restart_golden) then Ret [restarts_differ (im_name m) restart restart_golden]
  else if ignore_execcounts then Ret []
  else if negb (im_bb_count m =? im_bb_count golden) then Ret [block_counts_differ (im_name m) (im_bb_count m) (im_bb_count golden)]
  else
    let! b := match_bbs_executed m golden in
    Ret (if 0 <? b.1 then [blocks_extra (im_name m) b.1] else if 0 <? b.2 then [blocks_missing (im_name m) b.2] else []).

Fixpoint consistency_modules (golden : loginfo) (l : list loginfo_module) : res (list warning) :=
  match l with
  | [] => Ret []
  | m :: l' =>
      let! w := match module_loginfo_find golden (im_name m) with
                | None => Ret [module_extra (im_name m)]
                | Some g => consistency_module m g
                end in
      let! ws := consistency_modules golden l' in
      Ret (w ++ ws)
  end.
(** Modules of the earlier run are looked up in the earlier run, as the source does. *)
Definition check_golden_run_consistency (goldens : list run) (r : run) : res (list warning) :=
  let li := r_info r in
  let sanity := if negb (sanity_passed_pre li) || negb (sanity_passed_post li) then [sanity_not_passed] else [] in
  match golden_find goldens r with
  | None => Ret sanity
  | Some g =>
      let lacking := (λ m, module_lacking (im_name m)) <$> filter (λ m, module_loginfo_find (r_info g) (im_name m) = None) (li_modules (r_info g)) in
      let! ws := consistency_modules (r_info g) (li_modules li) in
      Ret (sanity ++ lacking ++ ws)
  end.

(** ** The table has the columns of its header *)

Lemma columns_line_up goldens r fields : output_analysis_all goldens r = Ret fields → length fields = length header.
Proof.
  unfold output_analysis_all. intros (reftime & _ & H)%res_bind_inv. apply res_bind_inv in H as (s & _ & H). injection H as <-.
  unfold line_fields, header, tally_fields. rewrite !length_app, !length_fmap.
  destruct option_test_name, (is_golden (r_info r)), ignore_execcounts; cbn [negb length app]; lia.
Qed.

(** ** Times are relative to the earliest *)

Definition time_ok (t : timeval) : Prop := timeval_is_zero t = true ∨ stamp_ok t.

Lemma min_times_ok l acc : Forall time_ok l → time_ok acc → ∃ t, min_times acc l = Ret t ∧ time_ok t ∧
  (timeval_is_zero acc = false → timeval_is_zero t = false ∧ usecs t ≤ usecs acc) ∧
  Forall (λ x, timeval_is_zero x = false → timeval_is_zero t = false ∧ usecs t ≤ usecs x) l.
Proof.
  unfold min_times. revert acc. induction l as [|x l IH]; intros acc Hl Ha; cbn [res_foldl]; [exists acc; split_and!; [done..|constructor]|].
  inversion Hl as [|?? Hx Hl']; subst.
  assert (∃ t, timeval_set_to_min acc x = Ret t ∧ time_ok t ∧ (timeval_is_zero acc = false → timeval_is_zero t = false ∧ usecs t ≤ usecs acc) ∧
    (timeval_is_zero x = false → timeval_is_zero t = false ∧ usecs t ≤ usecs x)) as (t & -> & Ht & Ht1 & Ht2).
  { destruct (timeval_is_zero x) eqn:Ex; [unfold timeval_set_to_min; rewrite Ex; by exists acc|].
    destruct (timeval_is_zero acc) eqn:Ea; [unfold timeval_set_to_min; rewrite Ex, Ea; by exists x|].
    destruct Hx as [|Hx]; [congruence|]. destruct Ha as [|Ha]; [congruence|]. rewrite (set_to_min_ok acc x Ha Hx). eexists. split; [done|].
    destruct (Z.ltb_spec (usecs x) (usecs acc)); rewrite ?Ex, ?Ea; split_and!; try (by right); intros _; split; try done; lia. }
  cbn [res_bind]. destruct (IH t Hl' Ht) as (t' & -> & Hok & H1 & H2). exists t'. split_and!; [done|done| |].
  - intros E. destruct (Ht1 E) as [Hz Hle]. destruct (H1 Hz). split; [done|lia].
  - constructor; [|done]. intros E. destruct (Ht2 E) as [Hz Hle]. destruct (H1 Hz). split; [done|lia].
Qed.

Lemma subtract_nonneg t ref : stamp_ok t → stamp_ok ref → usecs ref ≤ usecs t →
  0 ≤ tv_sec (timeval_subtract t ref) ∧ 0 ≤ tv_usec (timeval_subtract t ref) < 1000000.
Proof. unfold stamp_ok, usecs, timeval_subtract. intros [Ha Hb] [Hc Hd] He. case_match; cbn; zb; lia. Qed.

(** ** Blocks *)

(** Blocks executed in this run only, and in the run without faults only. *)
Definition extra_block (p : Z * Z) : bool := (0 <? p.1) && (p.2 <=? 0).
Definition missing_block (p : Z * Z) : bool := (p.1 <=? 0) && (0 <? p.2).

Lemma entry_drop {A} (l : list A) i : 0 ≤ i →
  match drop (Z.to_nat i) l with
  | x :: l' => entry l i = Ret x ∧ drop (Z.to_nat (i + 1)) l = l'
  | [] => entry l i = Stop FBounds
  end.
Proof.
  intros Hi. unfold entry. destruct (Z.leb_spec 0 i); [|lia]. replace (Z.to_nat (i + 1)) with (S (Z.to_nat i)) by lia.
  generalize (Z.to_nat i). intros n. revert n. induction l as [|y l IH]; intros [|n]; cbn; try done. apply IH.
Qed.

Lemma match_loop_spec e g e' i acc : 0 ≤ i → drop (Z.to_nat i) e = e' →
  match_loop (length e') i e g acc =
    if (length e' <=? length (drop (Z.to_nat i) g))%nat then
      Ret (acc.1 + count_if extra_block (zip e' (drop (Z.to_nat i) g)), acc.2 + count_if missing_block (zip e' (drop (Z.to_nat i) g)))
    else Stop FBounds.
Proof.
  revert i acc. induction e' as [|x e' IH]; intros i acc Hi He; cbn [length match_loop].
  - cbn. by rewrite !Z.add_0_r, <- surjective_pairing.
  - pose proof (entry_drop e i Hi) as Hx. rewrite He in Hx. destruct Hx as [-> He']. pose proof (entry_drop g i Hi) as Hy.
    destruct (drop (Z.to_nat i) g) as [|y g']; cbn [res_bind]; [by rewrite Hy|]. destruct Hy as [-> Hg']. cbn [res_bind].
    rewrite (IH (i + 1)) by (done || lia). rewrite Hg'. cbn [length zip_with fst snd]. change (S (length e') <=? S (length g'))%nat with (length e' <=? length g')%nat.
    case_match; [|done]. rewrite !count_if_cons. cbn [extra_block missing_block fst snd]. do 2 f_equal; unfold extra_block, missing_block; cbn [fst snd]; lia.
Qed.

(** C40: Blocks are compared with the run without faults as they should be when that run has counts
    for as many blocks; when it has fewer, the comparison reads past their end. *)
Theorem blocks_compared m golden e g : im_execcount m = Some e → im_execcount golden = Some g → im_bb_count m = Z.of_nat (length e) →
  match_bbs_executed m golden =
    if (length e <=? length g)%nat then Ret (count_if extra_block (zip e g), count_if missing_block (zip e g)) else Stop FBounds.
Proof.
  intros He Hg Hn. unfold match_bbs_executed. rewrite He, Hg, Hn, Nat2Z.id. rewrite (match_loop_spec e g e 0 (0, 0)) by (lia || done).
  change (drop (Z.to_nat 0) g) with g. cbn [fst snd]. case_match; [|done]. do 2 f_equal; lia.
Qed.

(** A run agrees with itself. *)
Lemma no_difference e : count_if extra_block (zip e e) = 0 ∧ count_if missing_block (zip e e) = 0.
Proof.
  induction e as [|x e [IH1 IH2]]; [done|]. cbn [zip_with]. rewrite !count_if_cons, IH1, IH2. unfold extra_block, missing_block. cbn [fst snd].
  destruct (Z.ltb_spec 0 x), (Z.leb_spec x 0); cbn; lia.
Qed.

(** ** Modules that are missing *)

Lemma module_found_itself li m : m ∈ li_modules li → module_loginfo_find li (im_name m) ≠ None.
Proof.
  intros Hm. unfold module_loginfo_find. destruct (list_find _ _) as [[i x]|] eqn:E; [done|]. apply list_find_None in E.
  rewrite List.Forall_forall in E. intros _. apply (E m); [by apply list_elem_of_In|done].
Qed.

(** A module of an earlier run without faults that this one lacks is never reported. *)
Lemma lacking_never_reported goldens r ws name : check_golden_run_consistency goldens r = Ret ws → module_lacking name ∉ ws.
Proof.
  unfold check_golden_run_consistency. set (sanity := if negb _ || negb _ then [sanity_not_passed] else []).
  assert (module_lacking name ∉ sanity) as Hs. { unfold sanity. case_match; rewrite ?list_elem_of_singleton; [done|apply not_elem_of_nil]. }
  destruct (golden_find goldens r) as [g|]; [|by intros [= <-]]. intros (ws' & Hws & [= <-])%res_bind_inv.
  rewrite !not_elem_of_app. split_and!; [done| |].
  - intros (m & _ & Hm)%list_elem_of_fmap. apply list_elem_of_filter in Hm as [Hn Hm]. by apply (module_found_itself (r_info g) m).
  - revert ws' Hws. induction (li_modules (r_info r)) as [|m l IH]; cbn [consistency_modules]; intros ws'; [intros [= <-]; apply not_elem_of_nil|].
    intros (w & Hw & H)%res_bind_inv. apply res_bind_inv in H as (ws & Hws & [= <-]). rewrite not_elem_of_app. split; [|by apply IH].
    destruct (module_loginfo_find (r_info g) (im_name m)) as [mg|]; [|injection Hw as <-; by rewrite list_elem_of_singleton].
    unfold consistency_module in Hw. repeat case_match; try (injection Hw as <-; rewrite ?list_elem_of_singleton; done || apply not_elem_of_nil).
    apply res_bind_inv in Hw as (b & _ & [= <-]). repeat case_match; rewrite ?list_elem_of_singleton; done || apply not_elem_of_nil.
Qed.
End Golden.

Definition blocks (name : string) (counts : list Z) : loginfo_module :=
  with_stats (LogInfo.new_module name) (λ _, unset) (Z.of_nat (length counts)) (Some counts).
Lemma blocks_compared_witness : match_bbs_executed (blocks "pm" [3; 0; 1]) (blocks "pm" [1; 2; 0]) = Ret (1, 1) ∧
  match_bbs_executed (blocks "pm" [3; 0; 1]) (blocks "pm" [1; 2]) = Stop FBounds.
Proof.
  split.
  - rewrite (blocks_compared (blocks "pm" [3; 0; 1]) (blocks "pm" [1; 2; 0]) [3; 0; 1] [1; 2; 0]); [reflexivity|reflexivity|reflexivity|reflexivity].
  - rewrite (blocks_compared (blocks "pm" [3; 0; 1]) (blocks "pm" [1; 2]) [3; 0; 1] [1; 2]); [reflexivity|reflexivity|reflexivity|reflexivity].
Defined.

(** The reference time has the last times of faults, the table their first: a run that is known only by
    its faults gets a time before its reference. *)
Lemma negative_time : let t (s : Z) := {| tv_sec := s; tv_usec := 500000 |} in
  let m := with_tallies (LogInfo.new_module "pm") (set_at (λ _, no_tally) logstep_qemu_start {| t_count := 2; t_first := t 10; t_last := t 20 |}) (λ _, no_tally) in
  find_reftime false (with_modules loginfo_zero [m]) = Ret (t 20) ∧ print_time_field (t 10) (t 20) = "-10.000000".
Proof. split; vm_compute; reflexivity. Qed.
