(* ===== verification/Analysis.v ===== *)
(** * The analysis of an experiment: [hypermemloganalyze/hypermemloganalyze.c]

    [main] processes the logs in their order: each is written to the table of runs
    ([GoldenRuns]), added to the statistics ([Aggregate]) and, when it is a run without
    faults, checked against the earlier ones.  At the end the runs without faults are
    added to the lists. *)

From Stdlib Require Import ZArith Lia Ascii String Floats.SpecFloat.
From stdpp Require Import base list numbers strings.
From S2P Require Import Prelude Decimal Helper Module LogInfo Double Significance KeyOrder Groups Aggregate GoldenRuns.
Set Default Proof Using "Type".

Section Experiment.
(** [LOGSTEP_ALL], [IGNORE_EXECCOUNTS], the mathematical library, the loaded map files, and the
    options [-s] and [-t]. *)
Variables (logstep_all ignore_execcounts : bool) (log10 : double → double) (modules : module_ll).
Variables (option_source_path_prefix : string) (option_test_name : option string).
Abbreviation steps := (steps logstep_all).

(** ** Processing logs *)

Inductive log_warning :=
| no_golden_run (path : string)
| golden_after_faulty (path : string)
| golden_differs (path : string) (w : warning).

(** The statistics, the file [output_all] and what is written to [stderr]. *)
Record experiment := { ex_analysis : analysis; output_all : list (list string); ex_warnings : list log_warning }.
Definition experiment_zero : experiment := {| ex_analysis := analysis_zero; output_all := []; ex_warnings := [] |}.

(** The header is written when the file is opened. *)
Definition header_line : list string := header logstep_all ignore_execcounts option_test_name.
Definition add_line (out : list (list string)) (line : list string) : list (list string) := (match out with [] => [header_line] | l => l end) ++ [line].

Definition output_analysis (r : run) (s : experiment) : res experiment :=
  let! line := output_analysis_all logstep_all ignore_execcounts modules option_source_path_prefix option_test_name
                 (loginfo_golden_list (ex_analysis s)) r in
  let! a := aggregate_log logstep_all log10 modules r (ex_analysis s) in
  Ret {| ex_analysis := a;
         output_all := add_line (output_all s) line;
         ex_warnings := ex_warnings s |}.

Definition process_log (r : run) (s : experiment) : res experiment :=
  let! s := output_analysis r s in
  let a := ex_analysis s in
  if negb (is_golden (r_info r)) then
    let ws := match golden_find (loginfo_golden_list a) r with None => [no_golden_run (r_path r)] | Some _ => [] end in
    let! n := chk32 (log_count a + 1) in
    Ret {| ex_analysis := {| log_count := n; loginfo_golden_list := loginfo_golden_list a; an_stats_golden := an_stats_golden a;
                             an_lists := an_lists a |};
           output_all := output_all s; ex_warnings := ex_warnings s ++ ws |}
  else
    let late := if 0 <? log_count a then [golden_after_faulty (r_path r)] else [] in
    let! ws := check_golden_run_consistency logstep_all ignore_execcounts (loginfo_golden_list a) r in
    Ret {| ex_analysis := {| log_count := log_count a; loginfo_golden_list := r :: loginfo_golden_list a;
                             an_stats_golden := an_stats_golden a; an_lists := an_lists a |};
           output_all := output_all s; ex_warnings := ex_warnings s ++ late ++ (golden_differs (r_path r) <$> ws) |}.

(** All logs, and [output_analysis_aggregate_golden_all] of [output_write]. *)
Definition analyze (rs : list run) : res experiment :=
  let! s := res_foldl (λ s r, process_log r s) experiment_zero rs in
  let! a := aggregate_golden_all logstep_all log10 (ex_analysis s) in
  Ret {| ex_analysis := a; output_all := output_all s; ex_warnings := ex_warnings s |}.

(** ** The statistics are those of the runs *)

Lemma process_log_accounts r s s' : process_log r s = Ret s' → account_log logstep_all log10 modules r (ex_analysis s) = Ret (ex_analysis s').
Proof.
  unfold process_log, output_analysis, account_log. intros (s1 & H1 & H)%res_bind_inv.
  apply res_bind_inv in H1 as (line & _ & H1). apply res_bind_inv in H1 as (a & -> & H1). injection H1 as <-. cbn [res_bind ex_analysis] in H |- *.
  destruct (negb _); [apply res_bind_inv in H as (n & -> & H)|apply res_bind_inv in H as (ws & _ & H)]; by injection H as <-.
Qed.

Lemma foldl_accounts rs s s' : res_foldl (λ s r, process_log r s) s rs = Ret s' →
  res_foldl (λ a r, account_log logstep_all log10 modules r a) (ex_analysis s) rs = Ret (ex_analysis s').
Proof.
  revert s. induction rs as [|r rs IH]; intros s0 H1; cbn [res_foldl] in *; [by injection H1 as <-|].
  apply res_bind_inv in H1 as (s2 & H2 & H1). rewrite (process_log_accounts _ _ _ H2). cbn [res_bind]. by apply IH.
Qed.

Lemma analyze_accounts rs s : analyze rs = Ret s → account logstep_all log10 modules rs = Ret (ex_analysis s).
Proof.
  unfold analyze, account. intros (s1 & H1 & H)%res_bind_inv. apply res_bind_inv in H as (a & Ha & H). injection H as <-. cbn [ex_analysis].
  change analysis_zero with (ex_analysis experiment_zero). by rewrite (foldl_accounts _ _ _ H1).
Qed.

(** ** What can stop the table of runs *)

(** All the times of a log are unset or proper. *)
Definition tally_times (t : tally) : list timeval := [t_first t; t_last t].
Definition module_stamps (m : loginfo_module) : list timeval :=
  [time_startup m; time_context_set m; time_faultindex_get m] ++
  concat ((λ st, tally_times (im_faults m st) ++ tally_times (im_restarts m st)) <$> steps).
Definition times_ok (r : run) : Prop :=
  Forall time_ok (step_time (r_info r) <$> steps) ∧ Forall (λ m, Forall time_ok (module_stamps m)) (li_modules (r_info r)).

(** There is a count for every block of a module, and as many in the runs without faults it
    is compared with. *)
Definition counts_fit (rs : list run) : Prop :=
  ∀ r g m mg e eg, r ∈ rs → g ∈ rs → is_golden (r_info g) = true → r_system g = r_system r → r_workload g = r_workload r →
    m ∈ li_modules (r_info r) → module_loginfo_find (r_info g) (im_name m) = Some mg →
    im_execcount m = Some e → im_execcount mg = Some eg →
    im_bb_count m ≤ Z.of_nat (length e) ∧ im_bb_count m ≤ Z.of_nat (length eg).

Definition stops (rs : list run) (f : fault) : Prop :=
  f = FOverflow ∨ f = FBounds ∧ ignore_execcounts = false ∧ ¬ counts_fit rs.

Lemma set_to_min_total a b : time_ok a → time_ok b → ∃ t, timeval_set_to_min a b = Ret t ∧ time_ok t.
Proof.
  intros Ha Hb. destruct (timeval_is_zero b) eqn:Eb; [unfold timeval_set_to_min; rewrite Eb; eauto|].
  destruct (timeval_is_zero a) eqn:Ea; [unfold timeval_set_to_min; rewrite Eb, Ea; eauto|].
  destruct Ha as [|Ha]; [congruence|]. destruct Hb as [|Hb]; [congruence|]. rewrite set_to_min_ok by done.
  eexists. split; [done|]. right. by case_match.
Qed.
Lemma set_to_max_total a b : time_ok a → time_ok b → ∃ t, timeval_set_to_max a b = Ret t ∧ time_ok t.
Proof.
  intros Ha Hb. destruct (timeval_is_zero b) eqn:Eb; [unfold timeval_set_to_max; rewrite Eb; eauto|].
  destruct (timeval_is_zero a) eqn:Ea; [unfold timeval_set_to_max; rewrite Eb, Ea; eauto|].
  destruct Ha as [|Ha]; [congruence|]. destruct Hb as [|Hb]; [congruence|]. rewrite set_to_max_ok by done.
  eexists. split; [done|]. right. by case_match.
Qed.

Definition tally_ok (t : tally) : Prop := time_ok (t_first t) ∧ time_ok (t_last t).
Lemma seen_total t n first last : tally_ok t → time_ok first → time_ok last → ∃ t', seen t n first last = Ret t' ∧ tally_ok t'.
Proof.
  intros [H1 H2] Hf Hl. unfold seen. destruct (set_to_min_total _ _ H1 Hf) as (a & -> & Ha). destruct (set_to_max_total _ _ H2 Hl) as (b & -> & Hb).
  cbn [res_bind]. eexists. split; [done|]. by split.
Qed.
Lemma seen_time_total t time : tally_ok t → time_ok time → ∃ t', seen_time t time = Ret t' ∧ tally_ok t'.
Proof. intros Ht Hx. unfold seen_time. destruct (timeval_is_zero time); [eauto|by apply seen_total]. Qed.
Lemma seen_steps_total t (f : logstep → tally) : tally_ok t → (∀ st, st ∈ steps → tally_ok (f st)) → ∃ t', seen_steps logstep_all t f = Ret t' ∧ tally_ok t'.
Proof.
  unfold seen_steps. generalize steps. intros l Ht Hf. revert t Ht. induction l as [|st l IH]; intros t Ht; cbn [res_foldl]; [eauto|].
  destruct (seen_total t (t_count (f st)) (t_first (f st)) (t_last (f st))) as (t1 & -> & H1); [done|apply Hf; left..|].
  cbn [res_bind]. apply IH; [|done]. intros. apply Hf. by right.
Qed.

(** Comparing blocks reads past an array exactly when it is too short. *)
Lemma match_loop_ends fuel i e g acc : 0 ≤ i →
  ends (λ f, f = FBounds ∧ ¬ (i + Z.of_nat fuel ≤ Z.of_nat (length e) ∧ i + Z.of_nat fuel ≤ Z.of_nat (length g))) (match_loop fuel i e g acc) (λ _, True).
Proof.
  revert i acc. induction fuel as [|fuel IH]; intros i acc Hi; cbn [match_loop]; [done|].
  pose proof (entry_drop e i Hi) as He. pose proof (entry_drop g i Hi) as Hg.
  destruct (drop (Z.to_nat i) e) eqn:Ee.
  { rewrite He. cbn. split; [done|]. apply (f_equal length) in Ee. rewrite length_drop in Ee. cbn in Ee. lia. }
  destruct He as [-> _]. cbn [res_bind]. destruct (drop (Z.to_nat i) g) eqn:Eg.
  { rewrite Hg. cbn. split; [done|]. apply (f_equal length) in Eg. rewrite length_drop in Eg. cbn in Eg. lia. }
  destruct Hg as [-> _]. cbn [res_bind]. eapply ends_mono; [apply IH; lia| |done]. cbn beta. intros f [-> Hn]. split; [done|]. lia.
Qed.

Lemma match_bbs_ends rs r g m mg :
  r ∈ rs → g ∈ rs → is_golden (r_info g) = true → r_system g = r_system r → r_workload g = r_workload r →
  m ∈ li_modules (r_info r) → module_loginfo_find (r_info g) (im_name m) = Some mg → ignore_execcounts = false →
  ends (stops rs) (match_bbs_executed m mg) (λ _, True).
Proof.
  intros Hr Hg Hgold Hsys Hwl Hm Hmg Hi. unfold match_bbs_executed. destruct (im_execcount m) as [e|] eqn:Ee; [|done].
  destruct (im_execcount mg) as [eg|] eqn:Eg; [|done]. eapply ends_mono; [by apply match_loop_ends| |done].
  cbn beta. intros f [-> Hn]. right. split_and!; [done..|]. intros Hfit.
  destruct (Hfit r g m mg e eg Hr Hg Hgold Hsys Hwl Hm Hmg Ee Eg). apply Hn. lia.
Qed.

(** The golden runs a run is compared with. *)
Definition earlier (rs goldens : list run) : Prop := Forall (λ g, g ∈ rs ∧ is_golden (r_info g) = true) goldens.
Lemma golden_found rs goldens r g : earlier rs goldens → golden_find goldens r = Some g →
  g ∈ rs ∧ is_golden (r_info g) = true ∧ r_system g = r_system r ∧ r_workload g = r_workload r.
Proof.
  unfold golden_find. intros He H. destruct (list_find _ _) as [[i x]|] eqn:E; [|done]. injection H as <-.
  apply list_find_Some in E as (Hx & [Hs Hw] & _). apply Forall_forall with (x := x) in He; [|by eapply list_elem_of_lookup_2]. naive_solver.
Qed.

Lemma stops_overflow rs : stops rs FOverflow.
Proof. by left. Qed.
Lemma chk32_ends rs z : ends (stops rs) (chk32 z) (λ _, True).
Proof. apply safe_ends; [apply stops_overflow|]. eapply safe_mono; [apply safe_chk32|done]. Qed.
Lemma ret_ends {A} rs (m : res A) (P : A → Prop) : (∃ x, m = Ret x ∧ P x) → ends (stops rs) m P.
Proof. by intros (x & -> & H). Qed.

Definition summary_ok (s : summary) : Prop :=
  tally_ok (su_startup s) ∧ tally_ok (su_context_set s) ∧ tally_ok (su_faultindex_get s) ∧ tally_ok (su_fault_act s) ∧ tally_ok (su_restart s).
Lemma no_tally_ok : tally_ok no_tally.
Proof. split; by left. Qed.

Lemma module_stamps_ok m : Forall time_ok (module_stamps m) →
  time_ok (time_startup m) ∧ time_ok (time_context_set m) ∧ time_ok (time_faultindex_get m) ∧
  ∀ st, st ∈ steps → tally_ok (im_faults m st) ∧ tally_ok (im_restarts m st).
Proof.
  unfold module_stamps. intros [H3 Hc]%Forall_app. rewrite !Forall_cons in H3. destruct H3 as (H1 & H2 & H3 & _). split_and!; [done..|].
  intros st Hst. apply Forall_concat in Hc. rewrite Forall_fmap, Forall_forall in Hc. specialize (Hc st Hst). unfold compose, tally_times in Hc. cbn [app] in Hc.
  rewrite !Forall_cons in Hc. unfold tally_ok. destruct Hc as (Ha & Hb & Hc & Hd & _). by split_and!.
Qed.

Lemma module_times_ok m : Forall time_ok (module_stamps m) → Forall time_ok (module_times logstep_all m).
Proof.
  intros H. apply module_stamps_ok in H as (H1 & H2 & H3 & Hs). unfold module_times. apply Forall_app. split; [by rewrite !Forall_cons|].
  apply Forall_concat, Forall_fmap, Forall_forall. intros st Hst. cbn. destruct (Hs st Hst) as [[_ Ha] [_ Hb]]. by rewrite !Forall_cons.
Qed.

Lemma summarize_module_ends rs goldens r m s golden :
  earlier rs goldens → r ∈ rs → m ∈ li_modules (r_info r) → golden = golden_find goldens r ∨ golden = None →
  Forall time_ok (module_stamps m) → is_ret (lookup_map_info modules m) = true → summary_ok s →
  ends (stops rs) (summarize_module logstep_all ignore_execcounts modules (r_info <$> golden) s m) summary_ok.
Proof.
  intros He Hr Hm Hg Ht Hl (T1 & T2 & T3 & T4 & T5). apply module_stamps_ok in Ht as (M1 & M2 & M3 & Ms). unfold summarize_module.
  destruct (lookup_map_info modules m) as [mi|]; [|done]. cbn [res_bind].
  destruct (seen_time_total _ _ T1 M1) as (t1 & -> & K1). destruct (seen_time_total _ _ T2 M2) as (t2 & -> & K2).
  destruct (seen_time_total _ _ T3 M3) as (t3 & -> & K3). cbn [res_bind].
  destruct (seen_steps_total _ (im_faults m) T4) as (t4 & -> & K4); [intros; by apply Ms|].
  destruct (seen_steps_total _ (im_restarts m) T5) as (t5 & -> & K5); [intros; by apply Ms|]. cbn [res_bind].
  apply (ends_bind _ _ _ (λ _, True)); [|intros extra _; eapply ends_bind; [apply chk32_ends|intros not_golden _]].
  { case_match; [apply chk32_ends|done]. }
  apply (ends_bind _ _ _ (λ _, True)); [|intros bbs _; eapply ends_bind; [apply chk32_ends|intros ? _; eapply ends_bind; [apply chk32_ends|intros ? _]]].
  - destruct ((r_info <$> golden) ≫= _) as [mg|] eqn:Emg; [|done].
    destruct ignore_execcounts eqn:Ei; [done|]. destruct golden as [g|]; [|done]. cbn in Emg.
    destruct Hg as [Hg|]; [|done]. symmetry in Hg. destruct (golden_found _ _ _ _ He Hg) as (Hin & Hgold & Hsys & Hwl). by apply (match_bbs_ends rs r g).
  - by split_and!.
Qed.

Lemma foldl_found l f f' : res_foldl (found_module logstep_all modules) f l = Ret f' → Forall (λ m, is_ret (lookup_map_info modules m) = true) l.
Proof.
  revert f. induction l as [|m l IH]; intros f H; [constructor|]. cbn [res_foldl] in H. apply res_bind_inv in H as (f1 & H1 & H).
  constructor; [|by eapply IH]. unfold found_module in H1. by apply res_bind_inv in H1 as (mi & -> & _).
Qed.

Lemma keys_lookup r : has_keys logstep_all modules r → Forall (λ m, is_ret (lookup_map_info modules m) = true) (li_modules (r_info r)).
Proof.
  intros [Hg|Hk].
  - apply Forall_forall. intros m Hm. unfold is_golden in Hg. rewrite forallb_forall in Hg. specialize (Hg m (proj1 (list_elem_of_In _ _) Hm)).
    unfold lookup_map_info. by destruct (im_fault_bb_index m).
  - unfold faulty_calls in Hk. destruct (res_foldl _ _ _) as [f|] eqn:E; [|done]. by eapply foldl_found.
Qed.

Lemma summarize_ends rs goldens r golden :
  earlier rs goldens → r ∈ rs → golden = golden_find goldens r ∨ golden = None → times_ok r → has_keys logstep_all modules r →
  ends (stops rs) (summarize logstep_all ignore_execcounts modules (r_info <$> golden) (r_info r)) (λ _, True).
Proof.
  intros He Hr Hg [_ Ht] Hk. apply keys_lookup in Hk. rewrite Forall_forall in Hk, Ht. unfold summarize.
  apply (ends_bind _ _ _ summary_ok); [|done]. apply ends_foldl; [split_and!; apply no_tally_ok|]. intros s m Hm Hs.
  eapply summarize_module_ends; eauto.
Qed.

Lemma line_ends rs goldens r : earlier rs goldens → r ∈ rs → times_ok r → has_keys logstep_all modules r →
  ends (stops rs) (output_analysis_all logstep_all ignore_execcounts modules option_source_path_prefix option_test_name goldens r)
    (λ line, length line = length (header logstep_all ignore_execcounts option_test_name)).
Proof.
  intros He Hr Ht Hk. pose proof (columns_line_up logstep_all ignore_execcounts modules option_source_path_prefix option_test_name goldens r) as Hlen.
  eapply (ends_mono (stops rs) (stops rs) _ (λ line, output_analysis_all logstep_all ignore_execcounts modules option_source_path_prefix option_test_name goldens r = Ret line));
    [|done|exact Hlen]. clear Hlen.
  assert (ends (stops rs) (output_analysis_all logstep_all ignore_execcounts modules option_source_path_prefix option_test_name goldens r) (λ _, True)) as Ha.
  { unfold output_analysis_all, find_reftime. destruct (min_times_ok ((step_time (r_info r) <$> steps) ++ concat (module_times logstep_all <$> li_modules (r_info r))) unset) as (t & -> & _).
    - apply Forall_app. destruct Ht as [H1 H2]. split; [done|]. apply Forall_concat, Forall_fmap. eapply Forall_impl; [exact H2|]. cbn. apply module_times_ok.
    - by left.
    - cbn [res_bind]. apply (ends_bind _ _ _ (λ _, True)); [|done]. apply (summarize_ends rs goldens); try done. destruct (is_golden (r_info r)); auto. }
  by destruct (output_analysis_all _ _ _ _ _ _ _).
Qed.

Lemma consistency_ends rs goldens r : earlier rs goldens → r ∈ rs →
  ends (stops rs) (check_golden_run_consistency logstep_all ignore_execcounts goldens r) (λ _, True).
Proof.
  intros He Hr. unfold check_golden_run_consistency. destruct (golden_find goldens r) as [g|] eqn:Eg; [|done].
  destruct (golden_found _ _ _ _ He Eg) as (Hin & Hgold & Hsys & Hwl). apply (ends_bind _ _ _ (λ _, True)); [|done].
  assert (∀ l, (∀ m, m ∈ l → m ∈ li_modules (r_info r)) → ends (stops rs) (consistency_modules logstep_all ignore_execcounts (r_info g) l) (λ _, True)) as Hl;
    [|by apply Hl].
  induction l as [|m l IH]; intros Hm; cbn [consistency_modules]; [done|]. apply (ends_bind _ _ _ (λ _, True)).
  - destruct (module_loginfo_find (r_info g) (im_name m)) as [mg|] eqn:Emg; [|done]. unfold consistency_module. case_match; [done|].
    destruct ignore_execcounts eqn:Ei; [done|]. case_match; [done|]. apply (ends_bind _ _ _ (λ _, True)); [|done].
    apply (match_bbs_ends rs r g); try done. apply Hm. by left.
  - intros w _. apply (ends_bind _ _ _ (λ _, True)); [|done]. apply IH. intros m' Hm'. apply Hm. by right.
Qed.

(** What holds after the logs [ls]. *)
Definition table_of (n : nat) (out : list (list string)) : Prop :=
  out = [] ∧ n = 0%nat ∨ ∃ lines, out = header_line :: lines ∧ length lines = n ∧ Forall (λ l, length l = length header_line) lines.
Record processed (ls : list run) (s : experiment) : Prop := {
  pr_analyzed : analyzed logstep_all log10 modules ls (ex_analysis s);
  pr_table : table_of (length ls) (output_all s);
}.

Lemma add_line_table n out line : length line = length header_line → table_of n out → table_of (S n) (add_line out line).
Proof.
  intros Hl [[-> ->]|(lines & -> & Hn & Hf)]; right; [exists [line]|exists (lines ++ [line])].
  - split_and!; [done..|]. by constructor.
  - split_and!; [done|rewrite length_app; cbn; lia|]. apply Forall_app. split; [done|]. by constructor.
Qed.

Lemma ends_eq {A} allowed (m : res A) (P : A → Prop) : ends allowed m P → ends allowed m (λ x, m = Ret x ∧ P x).
Proof. by destruct m. Qed.

Lemma process_log_line rs ls r s : (∀ x, x ∈ ls → x ∈ rs) → r ∈ rs → times_ok r → has_keys logstep_all modules r →
  analyzed logstep_all log10 modules ls (ex_analysis s) →
  ends (stops rs) (process_log r s) (λ s', ∃ line, length line = length header_line ∧ output_all s' = add_line (output_all s) line).
Proof.
  intros Hl Hr Ht Hk Ha. pose proof (account_log_safe logstep_all log10 modules ls r (ex_analysis s) Ha Hk) as Hacc.
  assert (He : earlier rs (loginfo_golden_list (ex_analysis s))).
  { rewrite (az_goldens _ _ _ _ _ Ha). apply Forall_reverse, Forall_forall. intros g Hg. unfold golden_runs in Hg.
    apply list_elem_of_filter in Hg as [? ?]. auto. }
  unfold process_log, output_analysis. unfold account_log in Hacc. rewrite res_bind_assoc.
  eapply ends_bind; [by apply line_ends|]. cbn beta. intros line Hline. rewrite res_bind_assoc.
  destruct (aggregate_log logstep_all log10 modules r (ex_analysis s)) as [a|f] eqn:E; [|left; exact Hacc].
  cbn [res_bind ex_analysis output_all ex_warnings]. destruct (negb _) eqn:En.
  - eapply ends_bind; [apply chk32_ends|]. intros n _. exists line. split; [exact Hline|reflexivity].
  - assert (loginfo_golden_list a = loginfo_golden_list (ex_analysis s)) as ->.
    { apply negb_false_iff in En. unfold aggregate_log in E. rewrite En in E. by apply res_bind_inv in E as (g & _ & [= <-]). }
    eapply ends_bind; [by apply consistency_ends|]. intros ws _. exists line. split; [exact Hline|reflexivity].
Qed.

Lemma process_log_ends rs ls r s : (∀ x, x ∈ ls → x ∈ rs) → r ∈ rs → times_ok r → has_keys logstep_all modules r →
  processed ls s → ends (stops rs) (process_log r s) (processed (ls ++ [r])).
Proof.
  intros Hl Hr Ht Hk [Ha Htab]. eapply ends_mono; [apply ends_eq; by eapply process_log_line|done|].
  cbn beta. intros s' (Hs & line & Hline & Hout). apply process_log_accounts in Hs.
  pose proof (account_log_safe logstep_all log10 modules ls r (ex_analysis s) Ha Hk) as Hacc. rewrite Hs in Hacc. split; [exact Hacc|].
  rewrite Hout, length_app. cbn [length]. rewrite Nat.add_1_r. by apply add_line_table.
Qed.

Lemma process_logs_end rs : Forall (has_keys logstep_all modules) rs → Forall times_ok rs →
  ends (stops rs) (res_foldl (λ s r, process_log r s) experiment_zero rs) (processed rs).
Proof.
  intros Hk Ht.
  assert (∀ l2 l1 s, rs = l1 ++ l2 → processed l1 s → ends (stops rs) (res_foldl (λ s r, process_log r s) s l2) (processed rs)) as Hgen.
  { induction l2 as [|r l2 IH]; intros l1 s Hrs Hp; cbn [res_foldl]; [by rewrite Hrs, app_nil_r|].
    assert (r ∈ rs) as Hr by (rewrite Hrs, elem_of_app; right; left). rewrite Forall_forall in Hk, Ht.
    eapply ends_bind; [apply (process_log_ends rs l1 r s); eauto|].
    - intros x Hx. rewrite Hrs, elem_of_app. by left.
    - intros s' Hs'. apply (IH (l1 ++ [r])); [|done]. by rewrite <- app_assoc. }
  apply (Hgen rs []); [done|]. split; [|by left]. split; [done|done|intros t; apply accounts_zero|intros w; exists []; split; [apply holds_nil|done]].
Qed.

(** C18: the analysis of an experiment.  Assume that the keys of every run can be found and that the times of
    its log are unset or proper.  Then the analysis ends.  What can stop it is an integer overflow (or a Z-score
    that is no [int]), or, unless [IGNORE_EXECCOUNTS] is defined, a read past the block counts, for which some
    module must have fewer counts than blocks, or more blocks than the run without faults it is compared with has
    counts.  Otherwise the table has its header and a line with as many fields for every run, and each
    of the lists has, for a key and a system and workload (or all of them), exactly the runs with that key
    and test, counted once for every key that reads the same. *)
Theorem groups_are_parts rs : Forall (has_keys logstep_all modules) rs → Forall times_ok rs →
  match analyze rs with
  | Ret s => log_count (ex_analysis s) = Z.of_nat (length (faulty_runs rs)) ∧ table_of (length rs) (output_all s) ∧
      ∀ w k t, match find_group k t (an_lists (ex_analysis s) w) with
               | None => run_group logstep_all modules w k t rs = []
               | Some st => run_group logstep_all modules w k t rs ≠ [] ∧ accounts logstep_all (run_group logstep_all modules w k t rs) st
               end
  | Stop f => f = FOverflow ∨ f = FBounds ∧ ignore_execcounts = false ∧ ¬ counts_fit rs
  end.
Proof.
  intros Hk Ht. pose proof (account_lists logstep_all log10 modules rs Hk) as Hacc. pose proof (process_logs_end rs Hk Ht) as Hp.
  destruct (analyze rs) as [s|f] eqn:E.
  - pose proof (analyze_accounts rs s E) as Ha. pose proof (account_groups logstep_all log10 modules rs _ Hk Ha) as Hg.
    rewrite Ha in Hacc. destruct Hacc as [_ Hc]. split; [exact Hc|]. split; [|exact Hg].
    unfold analyze in E. destruct (res_foldl _ experiment_zero rs) as [s1|]; [|done]. cbn [res_bind] in E.
    apply res_bind_inv in E as (a & _ & E). injection E as <-. exact (pr_table _ _ Hp).
  - unfold analyze in E. destruct (res_foldl _ experiment_zero rs) as [s1|f1] eqn:E1; cbn [res_bind] in E; [|injection E as <-; exact Hp].
    left. assert (Hacc1 : account logstep_all log10 modules rs = aggregate_golden_all logstep_all log10 (ex_analysis s1)).
    { unfold account. change analysis_zero with (ex_analysis experiment_zero). by rewrite (foldl_accounts _ _ _ E1). }
    rewrite Hacc1 in Hacc. by destruct (aggregate_golden_all _ _ _) as [a|f2]; [|injection E as <-].
Qed.
End Experiment.

(** ** An experiment *)

Definition demo_module : loginfo_module :=
  {| im_name := "pm@1"; time_startup := unset; time_context_set := unset; time_faultindex_get := unset; im_fault_bb_index := Some 3;
     stats_time := λ _, unset; im_bb_count := 0; im_execcount := None;
     im_faults := set_at (λ _, no_tally) logstep_after_sanity_pre {| t_count := 2; t_first := unset; t_last := unset |};
     im_restarts := λ _, no_tally |}.
Definition demo_run (faulty post : bool) : run :=
  {| r_info := {| drive0 := None; drive1 := None; li_faultspec := None; workload_reported := None; sanity_passed_pre := true; sanity_passed_post := post;
                  step_time := set_at (λ _, unset) logstep_qemu_start {| tv_sec := 7; tv_usec := 0 |};
                  li_modules := if faulty then [demo_module] else []; li_step := logstep_qemu_exit |};
     r_path := "minix.log"; r_system := Some "minix"; r_workload := None |}.
Definition demo_experiment : list run := replicate 2 (demo_run false true) ++ replicate 6 (demo_run true true) ++ replicate 6 (demo_run true false).
Lemma demo_has_keys : Forall (has_keys false []) demo_experiment.
Proof. unfold demo_experiment. rewrite !Forall_app. split_and!; apply Forall_replicate; [left|right..]; vm_compute; reflexivity. Qed.
Lemma unset_times m : time_startup m = unset → time_context_set m = unset → time_faultindex_get m = unset →
  (∀ st, tally_ok (im_faults m st) ∧ tally_ok (im_restarts m st)) → Forall time_ok (module_stamps false m).
Proof.
  intros H1 H2 H3 Hs. unfold module_stamps. rewrite H1, H2, H3. apply Forall_app. split; [rewrite !Forall_cons; split_and!; [by left..|by apply Forall_nil]|].
  apply Forall_concat, Forall_fmap, Forall_forall. intros st _. destruct (Hs st) as [[] []]. unfold compose, tally_times. cbn [app]. rewrite !Forall_cons. by split_and!; [..|apply Forall_nil].
Qed.
Lemma demo_times r : r ∈ demo_experiment → times_ok false r.
Proof.
  intros Hr. assert (∃ faulty post, r = demo_run faulty post) as (faulty & post & ->).
  { unfold demo_experiment in Hr. rewrite !elem_of_app, !elem_of_replicate in Hr. naive_solver. }
  split.
  - apply Forall_fmap, Forall_forall. intros st _. cbn. unfold set_at. case_decide; [right; unfold stamp_ok; cbn; lia|by left].
  - cbn. destruct faulty; [|done]. apply Forall_singleton, unset_times; [done..|]. intros st. destruct st; split; split; by left.
Qed.

(** A module with more blocks than the run without faults has counts for. *)
Definition counted_run (faulty : bool) (counts : list Z) : run :=
  {| r_info := with_modules loginfo_zero
       [with_fault_index (blocks "pm" counts) (if faulty then Some 3 else None)];
     r_path := "minix.log"; r_system := Some "minix"; r_workload := None |}.

Lemma counted_times faulty counts : times_ok false (counted_run faulty counts).
Proof.
  split.
  - apply Forall_fmap, Forall_forall. intros st _. by left.
  - apply Forall_singleton, unset_times; [done..|]. intros st. split; split; by left.
Qed.

Lemma groups_are_parts_witness :
  (∃ s st, analyze false false id [] "" None demo_experiment = Ret s ∧ log_count (ex_analysis s) = 12 ∧
     table_of false false None 14 (output_all s) ∧
     find_group "<FAULTY>" (Some "minix", None) (an_lists (ex_analysis s) per_module) = Some st ∧
     accounts false (run_group false [] per_module "<FAULTY>" (Some "minix", None) demo_experiment) st) ∧
  analyze false false id [] "" None [counted_run false [1; 2]; counted_run true [3; 0; 1]] = Stop FBounds ∧
  ¬ counts_fit [counted_run false [1; 2]; counted_run true [3; 0; 1]].
Proof.
  split.
  - pose proof (groups_are_parts false false id [] "" None demo_experiment demo_has_keys) as H.
    assert (Ht : Forall (times_ok false) demo_experiment) by (apply Forall_forall, demo_times). specialize (H Ht).
    assert (E : is_ret (analyze false false id [] "" None demo_experiment) = true) by (vm_compute; reflexivity).
    destruct (analyze false false id [] "" None demo_experiment) as [s|f] eqn:Es; [|discriminate E].
    destruct H as (Hc & Htab & Hg). specialize (Hg per_module "<FAULTY>" (Some "minix", None)).
    destruct (find_group _ _ _) as [st|] eqn:Ef; [|exfalso; vm_compute in Hg; discriminate Hg].
    exists s, st. split; [reflexivity|]. split; [rewrite Hc; vm_compute; reflexivity|]. split; [exact Htab|]. split; [exact Ef|exact (proj2 Hg)].
  - pose proof (groups_are_parts false false id [] "" None [counted_run false [1; 2]; counted_run true [3; 0; 1]]) as H.
    assert (E : analyze false false id [] "" None [counted_run false [1; 2]; counted_run true [3; 0; 1]] = Stop FBounds) by (vm_compute; reflexivity).
    split; [exact E|]. rewrite E in H. destruct H as [|(_ & _ & Hn)]; [| |done|exact Hn].
    + apply Forall_cons. split; [left; reflexivity|]. apply Forall_cons. split; [right; reflexivity|done].
    + apply Forall_cons. split; [apply counted_times|]. apply Forall_cons. split; [apply counted_times|by apply Forall_nil].
Defined.
