(* ===== verification/Compare.v ===== *)
(** * Comparing groups of runs: [hypermemloganalyze/hypermemloganalyze.c]

    The statistical tests between two groups: which of them contains the other, the
    chi-square test on two counts, the t-test on two samples of times, and the sentence
    for the summary.  Text that is written to files is left out; the numbers in it are
    results. *)

From Stdlib Require Import ZArith Lia Ascii String Floats.SpecFloat.
From stdpp Require Import base list numbers strings.
From S2P Require Import Prelude Decimal Helper Module LogInfo Double DoubleSign Significance KeyOrder Groups Aggregate.
Set Default Proof Using "Type".

(** ** Which group contains the other *)

Inductive key_class := key_all | key_faulty | key_golden | key_other.
#[export] Instance key_class_eq_dec : EqDecision key_class.
Proof. solve_decision. Defined.
Definition key_classify (key : string) : key_class :=
  if decide (key = "<ALL>") then key_all else if decide (key = "<FAULTY>") then key_faulty
  else if decide (key = "<GOLDEN>") then key_golden else key_other.

Inductive set_comparison := set_invalid | set_disjoint | set_super1 | set_super2.
#[export] Instance set_comparison_eq_dec : EqDecision set_comparison.
Proof. solve_decision. Defined.

(** Flags [super1], [super2] and [disjoint]. *)
Record flags := { fl_super1 : bool; fl_super2 : bool; fl_disjoint : bool }.
(** One of system and workload; [None] means all. *)
Definition compare_part (p1 p2 : option string) (f : flags) : flags :=
  match p1, p2 with
  | None, Some _ => {| fl_super1 := true; fl_super2 := fl_super2 f; fl_disjoint := fl_disjoint f |}
  | Some _, None => {| fl_super1 := fl_super1 f; fl_super2 := true; fl_disjoint := fl_disjoint f |}
  | _, _ => if decide (p1 = p2) then f else {| fl_super1 := fl_super1 f; fl_super2 := fl_super2 f; fl_disjoint := true |}
  end.
(** The first condition compares the class of the first key with itself, as the source does. *)
Definition compare_keys (key1 key2 : string) : option flags :=
  let keyclass1 := key_classify key1 in
  let keyclass2 := key_classify key2 in
  if bool_decide (keyclass1 = key_all) && negb (bool_decide (keyclass1 = key_all)) then Some {| fl_super1 := true; fl_super2 := false; fl_disjoint := false |}
  else if negb (bool_decide (keyclass1 = key_all)) && bool_decide (keyclass2 = key_all) then Some {| fl_super1 := false; fl_super2 := true; fl_disjoint := false |}
  else if bool_decide (keyclass1 = key_faulty) && bool_decide (keyclass2 = key_other) then Some {| fl_super1 := true; fl_super2 := false; fl_disjoint := false |}
  else if bool_decide (keyclass1 = key_other) && bool_decide (keyclass2 = key_faulty) then Some {| fl_super1 := false; fl_super2 := true; fl_disjoint := false |}
  else if negb (bool_decide (key1 = key2)) then None
  else Some {| fl_super1 := false; fl_super2 := false; fl_disjoint := false |}.
Definition set_compare (key1 : string) (t1 : test) (key2 : string) (t2 : test) : set_comparison :=
  match compare_keys key1 key2 with
  | None => set_invalid
  | Some f =>
      let f := compare_part t1.1 t2.1 f in
      let f := compare_part t1.2 t2.2 f in
      if fl_super1 f && negb (fl_super2 f) && negb (fl_disjoint f) then set_super1
      else if negb (fl_super1 f) && fl_super2 f && negb (fl_disjoint f) then set_super2
      else if negb (fl_super1 f) && negb (fl_super2 f) && fl_disjoint f then set_disjoint
      else set_invalid
  end.

(** ** The chi-square test *)

Definition sqr (x : double) : double := dmul x x.

(** The sentence of the summary: the groups in the order they are named, the totals, whether the
    first is more likely (or its time longer), the percentages (or average times), and the
    digits of p ([None] for [p < 0.00001]). *)
Record comparison := {
  cmp_first : string * test; cmp_second : string * test; cmp_p : double; cmp_n1 : Z; cmp_n2 : Z; cmp_more : bool; cmp_value1 : double; cmp_value2 : double;
  cmp_digits : option Z;
}.
Definition specific (key : string) (t : test) : Z :=
  Z.b2z (negb (bool_decide (key_classify key = key_all))) + Z.b2z (bool_decide (key_classify key = key_other)) +
  Z.b2z (bool_decide (is_Some t.1)) + Z.b2z (bool_decide (is_Some t.2)).
Definition should_swap (key1 : string) (t1 : test) (key2 : string) (t2 : test) : bool := specific key1 t1 <? specific key2 t2.

Section Tests.
(** The mathematical library and [student_t_table] of [stats-student-t.h]. *)
Variables (log10 : double → double) (student_t_table : list (double * list double)).

(** 0.00001 *)
Definition p_min : double := literal (1, 5).
Definition summary_write_significance (p : double) : res (option Z) :=
  if dlt p p_min then Ret None
  else
    let! digits := ceil_int (SFopp (log10 p)) in
    let! digits := chk32 (digits + 2) in
    let digits := if digits <? 1 then 1 else digits in
    let digits := if 5 <? digits then 5 else digits in
    Ret (Some digits).

Definition percentage (value total : Z) : double := ddiv (dmul (double_of_int value) (double_of_int 100)) (double_of_int total).
Definition summary_write_chi2 (key1 : string) (t1 : test) (key2 : string) (t2 : test) (p : double) (value1 total1 value2 total2 : Z) : res (option comparison) :=
  assert! (0 <=? value1) in
  assert! (0 <=? value2) in
  assert! (value1 <=? total1) in
  assert! (value2 <=? total2) in
  if dlt SIGNIFICANCE_TRESHOLD p then Ret None
  else
    assert! (0 <? total1) in
    assert! (0 <? total2) in
    let '(g1, v1, n1, g2, v2, n2) :=
      if should_swap key1 t1 key2 t2 then ((key2, t2), value2, total2, (key1, t1), value1, total1)
      else ((key1, t1), value1, total1, (key2, t2), value2, total2) in
    let! x := chk32 (v1 * n2) in
    let! y := chk32 (v2 * n1) in
    let! digits := summary_write_significance p in
    Ret (Some {| cmp_first := g1; cmp_second := g2; cmp_p := p; cmp_n1 := n1; cmp_n2 := n2; cmp_more := y <? x;
                 cmp_value1 := percentage v1 n1; cmp_value2 := percentage v2 n2; cmp_digits := digits |}).

(** The statistic, its p-value and the sentence, for counts of separate groups; [None]: the
    fields stay empty. *)
Definition chi2_test (key1 : string) (t1 : test) (key2 : string) (t2 : test) (value1 total1 value2 total2 : Z) :
    res (option (double * double * option comparison)) :=
  assert! (value1 <=? total1) in
  assert! (value2 <=? total2) in
  if (total1 <=? 0) && (total2 <=? 0) then Ret None
  else
    let other1 := total1 - value1 in
    let other2 := total2 - value2 in
    let! others := chk32 (other1 + other2) in
    let! values := chk32 (value1 + value2) in
    let! totals := chk32 (total1 + total2) in
    let othert := double_of_int others in
    let valuet := double_of_int values in
    let total := double_of_int totals in
    let expo1 := ddiv (dmul othert (double_of_int total1)) total in
    let expo2 := ddiv (dmul othert (double_of_int total2)) total in
    let expv1 := ddiv (dmul valuet (double_of_int total1)) total in
    let expv2 := ddiv (dmul valuet (double_of_int total2)) total in
    if dlt expo1 CHI2_EXPECTED_MIN || dlt expo2 CHI2_EXPECTED_MIN || dlt expv1 CHI2_EXPECTED_MIN || dlt expv2 CHI2_EXPECTED_MIN then Ret None
    else
      let chi2 :=
        dadd (dadd (dadd (ddiv (sqr (dsub (double_of_int other1) expo1)) expo1) (ddiv (sqr (dsub (double_of_int other2) expo2)) expo2))
                   (ddiv (sqr (dsub (double_of_int value1) expv1)) expv1)) (ddiv (sqr (dsub (double_of_int value2) expv2)) expv2) in
      let! p := chi2_1df_p chi2 in
      let! c := summary_write_chi2 key1 t1 key2 t2 p value1 total1 value2 total2 in
      Ret (Some (chi2, p, c)).
(** The group inside the other is taken out of it. *)
Definition print_chi2 (key1 : string) (t1 : test) (key2 : string) (t2 : test) (cmp : set_comparison) (value1 total1 value2 total2 : Z) :
    res (option (double * double * option comparison)) :=
  assert! (0 <=? value1) in
  assert! (value1 <=? total1) in
  assert! (0 <=? value2) in
  assert! (value2 <=? total2) in
  match cmp with
  | set_disjoint => chi2_test key1 t1 key2 t2 value1 total1 value2 total2
  | set_invalid => Ret None
  | set_super1 =>
      assert! (value2 <=? value1) in
      assert! (total2 <=? total1) in
      chi2_test key1 t1 key2 t2 (value1 - value2) (total1 - total2) value2 total2
  | set_super2 =>
      assert! (value1 <=? value2) in
      assert! (total1 <=? total2) in
      chi2_test key1 t1 key2 t2 value1 total1 (value2 - value1) (total2 - total1)
  end.

(** ** Times *)

Definition summary_write_t (key1 : string) (t1 : test) (key2 : string) (t2 : test) (p : double) (n1 n2 : Z) (diff1 diff2 : double) : res (option comparison) :=
  assert! (0 <=? n1) in
  assert! (0 <=? n2) in
  if dlt SIGNIFICANCE_TRESHOLD p then Ret None
  else
    assert! (0 <? n1) in
    assert! (0 <? n2) in
    let '(g1, m1, d1, g2, m2, d2) :=
      if should_swap key1 t1 key2 t2 then ((key2, t2), n2, diff2, (key1, t1), n1, diff1)
      else ((key1, t1), n1, diff1, (key2, t2), n2, diff2) in
    let! digits := summary_write_significance p in
    Ret (Some {| cmp_first := g1; cmp_second := g2; cmp_p := p; cmp_n1 := m1; cmp_n2 := m2; cmp_more := dlt d2 d1;
                 cmp_value1 := d1; cmp_value2 := d2; cmp_digits := digits |}).

(** A part is taken out of the whole. *)
Definition take_out (whole part : stat_aggregate_double) : res stat_aggregate_double :=
  assert! (ad_n part <=? ad_n whole) in
  assert! (dle (ad_sum2 part) (ad_sum2 whole)) in
  Ret {| ad_n := ad_n whole - ad_n part; ad_sum := dsub (ad_sum whole) (ad_sum part); ad_sum2 := dsub (ad_sum2 whole) (ad_sum2 part) |}.
(** The samples of two groups, made disjoint. *)
Definition separate (cmp : set_comparison) (diff1 diff2 : stat_aggregate_double) : res (stat_aggregate_double * stat_aggregate_double) :=
  match cmp with
  | set_disjoint | set_invalid => Ret (diff1, diff2)
  | set_super1 => let! d := take_out diff1 diff2 in Ret (d, diff2)
  | set_super2 => let! d := take_out diff2 diff1 in Ret (diff1, d)
  end.

(** The statistic t and the degrees of freedom; [None]: [goto notest]. *)
Definition t_and_df (diff1 diff2 : stat_aggregate_double) : option (double * double) :=
  if (ad_n diff1 <=? 1) || (ad_n diff2 <=? 1) then None
  else
    let n1 := double_of_int (ad_n diff1) in
    let n2 := double_of_int (ad_n diff2) in
    let var1 := stat_aggregate_double_var diff1 in
    let var2 := stat_aggregate_double_var diff2 in
    if dle var1 zero && dle var2 zero then None
    else
      let avg1 := stat_aggregate_double_avg diff1 in
      let avg2 := stat_aggregate_double_avg diff2 in
      let s2 := dadd (ddiv var1 n1) (ddiv var2 n2) in
      let s := dsqrt s2 in
      let t := ddiv (dsub avg1 avg2) s in
      let df := ddiv (sqr s2) (dadd (ddiv (sqr (ddiv var1 n1)) (double_of_int (ad_n diff1 - 1)))
                                    (ddiv (sqr (ddiv var2 n2)) (double_of_int (ad_n diff2 - 1)))) in
      if dlt df one then None else Some (t, df).

(** What is written about two samples: the test if there is one, and the samples. *)
Record time_row := { tr_test : option (double * double * double * option comparison); tr_diff1 : stat_aggregate_double; tr_diff2 : stat_aggregate_double }.
Definition time_diff (key1 : string) (t1 : test) (st1 : stats_aggregate) (key2 : string) (t2 : test) (st2 : stats_aggregate) (cmp : set_comparison)
    (steps : logstep * logstep) : res time_row :=
  assert! (step_number steps.1 <? step_number steps.2) in
  let! d := separate cmp (sg_time_diff st1 steps.1 steps.2) (sg_time_diff st2 steps.1 steps.2) in
  match (if decide (cmp = set_invalid) then None else t_and_df d.1 d.2) with
  | None => Ret {| tr_test := None; tr_diff1 := d.1; tr_diff2 := d.2 |}
  | Some (t, df) =>
      let! p := student_t_2t_p student_t_table t df in
      let! c := summary_write_t key1 t1 key2 t2 p (ad_n d.1) (ad_n d.2) (stat_aggregate_double_avg d.1) (stat_aggregate_double_avg d.2) in
      Ret {| tr_test := Some (t, df, p, c); tr_diff1 := d.1; tr_diff2 := d.2 |}
  end.

Definition time_pairs : list (logstep * logstep) :=
  [(logstep_qemu_start, logstep_before_sanity_pre); (logstep_before_sanity_pre, logstep_after_sanity_pre);
   (logstep_after_sanity_pre, logstep_workload_end); (logstep_workload_end, logstep_after_sanity_post);
   (logstep_qemu_start, logstep_after_sanity_post)].

Definition time_diffs (key1 : string) (t1 : test) (st1 : stats_aggregate) (key2 : string) (t2 : test) (st2 : stats_aggregate) (cmp : set_comparison)
    : res (list time_row) := collect (time_diff key1 t1 st1 key2 t2 st2 cmp) time_pairs.

(** ** One row of a report *)

Section Rows.
Variable logstep_all : bool.
Abbreviation all_steps := (steps logstep_all).

(** [stepreached1]: runs that got at least this far, from the last step to the first. *)
Fixpoint suffix_sums (l : list Z) : res (list Z) :=
  match l with
  | [] => Ret []
  | x :: l' => let! r := suffix_sums l' in let! v := chk32 (default 0 (head r) + x) in Ret (v :: r)
  end.
Definition stepreached (st : stats_aggregate) (o : outcome) : res (list Z) := suffix_sums (sg_step_reached st o <$> all_steps).

Record row := { row_cmp : set_comparison; row_tests : list (option (double * double * option comparison)); row_times : list time_row }.
Definition int_sub (a b : Z) : res Z := chk32 (a - b).
Definition outcome_total (st : stats_aggregate) (o : outcome) : res Z :=
  match o with
  | outcome_inactive => int_sub (sg_n st) (sg_activated st)
  | outcome_invalid => int_sub (sg_activated st) (sg_valid st)
  | outcome_success => int_sub (sg_valid st) (sg_crash st)
  | outcome_crash => Ret (sg_crash st)
  end.
(** The loop over the steps between the start and the end of the run. *)
Fixpoint step_tests (key1 : string) (t1 : test) (key2 : string) (t2 : test) (cmp : set_comparison) (total1 total2 : Z) (l : list (Z * Z)) :=
  match l with
  | [] => Ret []
  | v :: l' =>
      let! x := print_chi2 key1 t1 key2 t2 cmp v.1 total1 v.2 total2 in
      let! xs := step_tests key1 t1 key2 t2 cmp total1 total2 l' in
      Ret (x :: xs)
  end.
(** From [logstep_qemu_start] up to the step before [logstep_qemu_exit]. *)
Definition inner {A} (l : list A) : list A := take (length l - 2) (tail l).
Definition outcome_tests (key1 : string) (t1 : test) (st1 : stats_aggregate) (key2 : string) (t2 : test) (st2 : stats_aggregate) (cmp : set_comparison) (o : outcome) :=
  let! r1 := stepreached st1 o in
  let! r2 := stepreached st2 o in
  let! n1 := outcome_total st1 o in
  let! n2 := outcome_total st2 o in
  step_tests key1 t1 key2 t2 cmp n1 n2 (inner (zip r1 r2)).

(** [output_analysis_stattest_write]; [None]: too few runs. *)
Definition stattest_write (key1 : string) (t1 : test) (st1 : stats_aggregate) (key2 : string) (t2 : test) (st2 : stats_aggregate) : res (option row) :=
  if (sg_n st1 <? 5) || (sg_n st2 <? 5) then Ret None
  else
    let cmp := set_compare key1 t1 key2 t2 in
    let! pre := print_chi2 key1 t1 key2 t2 cmp (sg_valid st1) (sg_activated st1) (sg_valid st2) (sg_activated st2) in
    let! crash := print_chi2 key1 t1 key2 t2 cmp (sg_crash st1) (sg_valid st1) (sg_crash st2) (sg_valid st2) in
    let! times := time_diffs key1 t1 st1 key2 t2 st2 cmp in
    let! o1 := outcome_tests key1 t1 st1 key2 t2 st2 cmp outcome_inactive in
    let! o2 := outcome_tests key1 t1 st1 key2 t2 st2 cmp outcome_invalid in
    let! o3 := outcome_tests key1 t1 st1 key2 t2 st2 cmp outcome_success in
    let! o4 := outcome_tests key1 t1 st1 key2 t2 st2 cmp outcome_crash in
    Ret (Some {| row_cmp := cmp; row_tests := pre :: crash :: o1 ++ o2 ++ o3 ++ o4; row_times := times |}).
End Rows.
End Tests.

(** ** The test never fails an assertion *)

(** Counts of two groups, where one may contain the other. *)
Definition counts_ok (cmp : set_comparison) (v1 n1 v2 n2 : Z) : Prop :=
  0 ≤ v1 ≤ n1 ∧ 0 ≤ v2 ≤ n2 ∧ (cmp = set_super1 → v2 ≤ v1 ∧ n2 - v2 ≤ n1 - v1) ∧ (cmp = set_super2 → v1 ≤ v2 ∧ n1 - v1 ≤ n2 - v2).
(** So many runs that a product of two counts is still an [int]. *)
Definition runs_max : Z := 46340.

Lemma double_of_nonneg z : 0 ≤ z < 2^32 → z = 0 ∧ double_of_int z = zero ∨ 0 < z ∧ ∃ m e, double_of_int z = S754_finite false m e.
Proof.
  intros Hz. destruct z as [|p|p]; [by left| |lia]. right. split; [done|]. rewrite double_of_int_dyadic by (unfold fits; lia). unfold dyadic. eauto.
Qed.

(** No runs on one side: nothing is expected there. *)
Lemma expected_none x n : 0 ≤ x < 2^32 → 0 < n < 2^32 → dlt (ddiv (dmul (double_of_int x) (double_of_int 0)) (double_of_int n)) CHI2_EXPECTED_MIN = true.
Proof.
  intros Hx Hn. destruct (double_of_nonneg n) as [[-> _]|(_ & m & e & ->)]; [lia|lia|].
  destruct (double_of_nonneg x Hx) as [[_ ->]|(_ & m' & e' & ->)]; vm_compute; reflexivity.
Qed.

Ltac pos_assert := match goal with |- context [(?a <=? ?b)%Z] => rewrite (proj2 (Z.leb_le a b)) by lia
                   | |- context [(?a <? ?b)%Z] => rewrite (proj2 (Z.ltb_lt a b)) by lia end.

(** *** The p-value is a number *)

Lemma expected_finite x n tot : 0 ≤ x < 2^20 → 0 ≤ n < 2^20 → 0 < tot < 2^20 →
  is_finite (ddiv (dmul (double_of_int x) (double_of_int n)) (double_of_int tot)) = true.
Proof.
  intros Hx Hn Ht. destruct tot as [|tot|]; try lia. rewrite (double_of_int_dyadic tot) by (unfold fits; lia).
  destruct x as [|x|]; [| |lia].
  { destruct n as [|n|]; [done| |lia]. rewrite (double_of_int_dyadic n) by (unfold fits; lia). done. }
  rewrite (double_of_int_dyadic x) by (unfold fits; lia). destruct n as [|n|]; [done| |lia].
  rewrite (double_of_int_dyadic n), dmul_exact by (unfold fits; rewrite ?Pos2Z.inj_mul; nia). apply ddiv_ints_finite; unfold fits; rewrite ?Pos2Z.inj_mul; nia.
Qed.

Lemma expected_positive x : is_finite x = true → dlt x CHI2_EXPECTED_MIN = false → ∃ m e, x = S754_finite false m e.
Proof. destruct x as [[]|?| |[] m e]; try done. eauto. Qed.

Lemma chi2_term_nonneg o m e : is_finite o = true → nonneg (ddiv (sqr (dsub o (S754_finite false m e))) (S754_finite false m e)).
Proof. intros Ho. apply ddiv_nonneg, dsqr_nonneg, dsub_finite; done. Qed.

Definition step_finite (e : (double * double) * (double * double)) : bool :=
  match dsub e.2.2 e.1.2, dsub e.2.1 e.1.1 with S754_finite _ _ _, S754_finite _ _ _ => is_finite e.1.2 && is_finite e.1.1 | _, _ => false end.
Lemma chi2_steps_finite i a b : chi2_1df_table !! i = Some a → chi2_1df_table !! S i = Some b → step_finite (a, b) = true.
Proof.
  intros Ha Hb. assert (forallb step_finite (zip chi2_1df_table (tail chi2_1df_table)) = true) as Ho by (vm_compute; reflexivity).
  rewrite forallb_forall in Ho. apply Ho, list_elem_of_In, list_elem_of_lookup. exists i. by rewrite lookup_zip_with, lookup_tail, Ha, Hb.
Qed.

Lemma chi2_p_number x : isnan x = false → ∃ p, chi2_1df_p x = Ret p ∧ isnan p = false.
Proof.
  intros Hx. destruct chi2_table_ends as (first & last & Hf & Hl & Hlen & _ & _ & _). unfold chi2_1df_p.
  assert (isnan first.2 = false ∧ isnan last.2 = false) as [Hf2 Hl2]. { vm_compute in Hf, Hl. injection Hf as <-. injection Hl as <-. done. }
  destruct (dlt x first.1) eqn:E1; [|destruct (dlt last.1 x) eqn:E2].
  - exists first.2. split; [|done]. unfold table_p. destruct (entry_ok chi2_1df_table 0) as (e0 & Hk & ->); [lia|].
    destruct (entry_ok chi2_1df_table (Z.of_nat (length chi2_1df_table) - 1)) as (e1 & _ & ->); [lia|].
    assert (e0 = first) as -> by (change (Z.to_nat 0) with 0%nat in Hk; congruence). cbn [res_bind]. by rewrite E1.
  - exists last.2. split; [|done]. unfold table_p. destruct (entry_ok chi2_1df_table 0) as (e0 & Hk & ->); [lia|].
    destruct (entry_ok chi2_1df_table (Z.of_nat (length chi2_1df_table) - 1)) as (e1 & Hk1 & ->); [lia|].
    assert (e0 = first) as -> by (change (Z.to_nat 0) with 0%nat in Hk; congruence).
    rewrite Hlen in Hk1. assert (e1 = last) as -> by (change (Z.to_nat (Z.of_nat 502 - 1)) with 501%nat in Hk1; congruence).
    cbn [res_bind]. by rewrite E1, E2.
  - destruct (table_p_spec chi2_1df_table x first last) as (i & tmin & tmax & Hmin & Hmax & _ & _ & ->);
      [done|rewrite Hlen; lia|done|by rewrite Hlen|done|done|]. eexists. split; [done|].
    pose proof (chi2_steps_finite i tmin tmax Hmin Hmax) as Hs. unfold step_finite in Hs. cbn [fst snd] in Hs. unfold interpolate.
    destruct (dsub tmax.2 tmin.2); try done. destruct (dsub tmax.1 tmin.1); try done. apply andb_true_iff in Hs as [Hs1 Hs2].
    destruct (deq tmax.1 tmin.1); [by destruct tmin.2|]. apply dadd_finite; [done|]. by apply ddiv_number, dmul_number, dsub_number.
Qed.

Section Total.
Variables (log10 : double → double) (student_t_table : list (double * list double)).

(** Of the logarithm: for a p between 0.00001 and the threshold, [- log10 (p)] is between 0 and 6. *)
Definition log10_ok : Prop :=
  ∀ p, isnan p = false → dlt SIGNIFICANCE_TRESHOLD p = false → dlt p p_min = false → ∃ d, ceil_int (SFopp (log10 p)) = Ret d ∧ 0 ≤ d ≤ 6.
(** Of the table: every row has a value for every number of degrees of freedom. *)
Definition table_ok : Prop := (2 ≤ length student_t_table)%nat ∧ Forall (λ r, length r.2 = length student_t_table_df) student_t_table.
Hypothesis Hlog : log10_ok.
Hypothesis Htable : table_ok.

Lemma significance_total p : isnan p = false → dlt SIGNIFICANCE_TRESHOLD p = false → ∃ d, summary_write_significance log10 p = Ret d.
Proof using Hlog.
  intros Hn Hp. unfold summary_write_significance. destruct (dlt p p_min) eqn:E; [eauto|]. destruct (Hlog p Hn Hp E) as (d & -> & Hd).
  cbn [res_bind]. rewrite chk32_ok by lia. cbn [res_bind]. eauto.
Qed.

Lemma significance_safe p : safe (summary_write_significance log10 p) (λ _, True).
Proof.
  unfold summary_write_significance. destruct (dlt p p_min); [done|]. eapply safe_bind; [apply ceil_int_safe|]. intros d _.
  eapply safe_bind; [apply safe_chk32|done].
Qed.

Lemma summary_total key1 t1 key2 t2 p v1 n1 v2 n2 : isnan p = false → 0 ≤ v1 ≤ n1 → 0 ≤ v2 ≤ n2 → 0 < n1 ≤ runs_max → 0 < n2 ≤ runs_max →
  ∃ c, summary_write_chi2 log10 key1 t1 key2 t2 p v1 n1 v2 n2 = Ret c.
Proof using Hlog.
  unfold runs_max. intros Hp H1 H2 Hn1 Hn2. unfold summary_write_chi2. do 4 pos_assert. destruct (dlt _ p) eqn:Ep; [eauto|]. do 2 pos_assert.
  destruct (significance_total p Hp Ep) as (d & Hd).
  destruct (should_swap key1 t1 key2 t2); rewrite !chk32_ok by nia; cbn [res_bind]; rewrite Hd; cbn [res_bind]; eauto.
Qed.

Lemma chi2_test_total key1 t1 key2 t2 v1 n1 v2 n2 : 0 ≤ v1 ≤ n1 → 0 ≤ v2 ≤ n2 → n1 ≤ runs_max → n2 ≤ runs_max →
  ∃ r, chi2_test log10 key1 t1 key2 t2 v1 n1 v2 n2 = Ret r.
Proof using Hlog.
  unfold runs_max. intros H1 H2 Hn1 Hn2. unfold chi2_test. do 2 pos_assert.
  destruct ((n1 <=? 0) && (n2 <=? 0)) eqn:E0; [eauto|]. assert (0 < n1 + n2) as Hpos by (clear -E0 H1 H2; zb; lia).
  rewrite !chk32_ok by lia. cbn [res_bind]. set (chi2 := dadd _ _). destruct (_ || _) eqn:E; [eauto|].
  assert (n1 ≠ 0). { intros ->. rewrite expected_none in E by lia. done. }
  assert (n2 ≠ 0). { intros ->. rewrite (expected_none (n1 - v1 + (0 - v2))), orb_true_r in E by lia. done. }
  destruct (chi2_p_number chi2) as (p & -> & Hp).
  { apply nonneg_number. unfold chi2. rewrite !orb_false_iff in E. destruct E as [[[E1 E2] E3] E4].
    apply expected_positive in E1 as (? & ? & ->); [|apply expected_finite; lia]. apply expected_positive in E2 as (? & ? & ->); [|apply expected_finite; lia].
    apply expected_positive in E3 as (? & ? & ->); [|apply expected_finite; lia]. apply expected_positive in E4 as (? & ? & ->); [|apply expected_finite; lia].
    repeat apply dadd_nonneg; apply chi2_term_nonneg; apply double_of_int_finite; lia. }
  cbn [res_bind]. destruct (summary_total key1 t1 key2 t2 p v1 n1 v2 n2) as (c & ->); [done|unfold runs_max; lia..|]. cbn. eauto.
Qed.

Lemma print_chi2_total key1 t1 key2 t2 cmp v1 n1 v2 n2 : counts_ok cmp v1 n1 v2 n2 → n1 ≤ runs_max → n2 ≤ runs_max →
  ∃ r, print_chi2 log10 key1 t1 key2 t2 cmp v1 n1 v2 n2 = Ret r.
Proof using Hlog.
  intros (H1 & H2 & Hs1 & Hs2) Hn1 Hn2. unfold print_chi2. do 4 pos_assert. destruct cmp; [eauto|by apply chi2_test_total|..].
  - destruct (Hs1 eq_refl). do 2 pos_assert. apply chi2_test_total; lia.
  - destruct (Hs2 eq_refl). do 2 pos_assert. apply chi2_test_total; lia.
Qed.

(** *** Times *)

Lemma student_total t df : dle one df = true → ∃ p, student_t_2t_p student_t_table t df = Ret p.
Proof using Htable.
  intros Hdf. destruct Htable as [Hlen Hrows]. unfold student_t_2t_p. rewrite Hdf. cbv zeta.
  edestruct (bsearch_spec (λ i, let! d := entry student_t_table_df i in Ret (dlt (double_of_int d) df)) (λ i, ∃ d, entry student_t_table_df i = Ret d ∧ dlt (double_of_int d) df = true)
    (length student_t_table_df) 0 (Z.of_nat (length student_t_table_df) - 1)) as (n & -> & Hn & _); [|cbn; lia..|].
  { intros i Hi. destruct (entry_ok student_t_table_df i) as (d & _ & ->); [lia|]. cbn [res_bind]. eexists. split; [done|]. split; [eauto|]. by intros (? & [= <-] & ?). }
  cbn [res_bind fst snd]. set (t' := if dlt t zero then _ else _).
  edestruct (bsearch_spec (λ i, let! r := entry student_t_table i in Ret (dlt r.1 t')) (λ i, ∃ r, entry student_t_table i = Ret r ∧ dlt r.1 t' = true)
    (length student_t_table) 0 (Z.of_nat (length student_t_table) - 1)) as (i & -> & Hi & _); [|lia..|].
  { intros i Hi. destruct (entry_ok student_t_table i) as (d & _ & ->); [lia|]. cbn [res_bind]. eexists. split; [done|]. split; [eauto|]. by intros (? & [= <-] & ?). }
  cbn [res_bind fst snd]. destruct (entry_ok student_t_table_df n) as (nmin & _ & ->); [lia|]. destruct (entry_ok student_t_table_df (n + 1)) as (nmax & _ & ->); [lia|].
  destruct (entry_ok student_t_table i) as (tmin & Hmin & ->); [lia|]. destruct (entry_ok student_t_table (i + 1)) as (tmax & Hmax & ->); [lia|]. cbn [res_bind].
  pose proof (Forall_lookup_1 _ _ _ _ Hrows Hmin) as Lmin. pose proof (Forall_lookup_1 _ _ _ _ Hrows Hmax) as Lmax. cbn beta in Lmin, Lmax.
  destruct (entry_ok tmin.2 n) as (p11 & _ & ->); [rewrite Lmin; lia|]. destruct (entry_ok tmax.2 n) as (p21 & _ & ->); [rewrite Lmax; lia|].
  destruct (entry_ok tmin.2 (n + 1)) as (p12 & _ & ->); [rewrite Lmin; lia|]. destruct (entry_ok tmax.2 (n + 1)) as (p22 & _ & ->); [rewrite Lmax; lia|].
  cbn [res_bind]. eauto.
Qed.

(** A t-test whose degrees of freedom, or whose p-value, is not a number. *)
Definition t_test_undefined (d : stat_aggregate_double * stat_aggregate_double) (f : fault) : Prop :=
  ∃ t df, t_and_df d.1 d.2 = Some (t, df) ∧
    (f = FAssert ∧ isnan df = true ∨ f = FOverflow ∧ ∃ p, student_t_2t_p student_t_table t df = Ret p ∧ isnan p = true).

Lemma t_and_df_counts d1 d2 t df : t_and_df d1 d2 = Some (t, df) → 1 < ad_n d1 ∧ 1 < ad_n d2 ∧ dlt df one = false.
Proof.
  unfold t_and_df. destruct (Z.leb_spec (ad_n d1) 1); [done|]. destruct (Z.leb_spec (ad_n d2) 1); [done|]. cbn [orb].
  destruct (dle _ zero && dle _ zero); [done|]. destruct (dlt _ one) eqn:E; [done|]. intros [= <- <-]. done.
Qed.

Lemma t_test_ends key1 t1 key2 t2 (d : stat_aggregate_double * stat_aggregate_double) t df : t_and_df d.1 d.2 = Some (t, df) →
  ends (t_test_undefined d) (let! p := student_t_2t_p student_t_table t df in
    let! c := summary_write_t log10 key1 t1 key2 t2 p (ad_n d.1) (ad_n d.2) (stat_aggregate_double_avg d.1) (stat_aggregate_double_avg d.2) in
    Ret {| tr_test := Some (t, df, p, c); tr_diff1 := d.1; tr_diff2 := d.2 |}) (λ _, True).
Proof using Hlog Htable.
  intros Ht. destruct (t_and_df_counts _ _ _ _ Ht) as (H1 & H2 & Hdf). destruct (isnan df) eqn:En.
  { unfold student_t_2t_p. assert (dle one df = false) as -> by (by destruct df). cbn. exists t, df. auto. }
  destruct (student_total t df) as (p & Hp); [by rewrite dle_dlt, Hdf|]. rewrite Hp. cbn [res_bind]. unfold summary_write_t. do 2 pos_assert.
  destruct (dlt SIGNIFICANCE_TRESHOLD p) eqn:Es; [done|]. do 2 pos_assert. destruct (isnan p) eqn:Ep.
  - destruct (if should_swap _ _ _ _ then _ else _) as [[[[[g1 m1] x1] g2] m2] x2]. apply (safe_ends (t_test_undefined d)); [exists t, df; split; [done|]; right; eauto|].
    apply (safe_bind _ _ (λ _, True)); [|done]. eapply safe_bind; [apply significance_safe|done].
  - destruct (significance_total p Ep Es) as (v & ->). destruct (if should_swap _ _ _ _ then _ else _) as [[[[[g1 m1] x1] g2] m2] x2]. done.
Qed.

(** What can stop the comparison of the times of two groups. *)
Definition times_stop (st1 st2 : stats_aggregate) (cmp : set_comparison) (f : fault) : Prop :=
  ∃ p, p ∈ time_pairs ∧ let d1 := sg_time_diff st1 p.1 p.2 in let d2 := sg_time_diff st2 p.1 p.2 in
    (f = FAssert ∧ (cmp = set_super1 ∧ dle (ad_sum2 d2) (ad_sum2 d1) = false ∨ cmp = set_super2 ∧ dle (ad_sum2 d1) (ad_sum2 d2) = false) ∨
     ∃ d, separate cmp d1 d2 = Ret d ∧ t_test_undefined d f).

Lemma time_diff_ends key1 t1 st1 key2 t2 st2 cmp p : p ∈ time_pairs →
  (cmp = set_super1 → ad_n (sg_time_diff st2 p.1 p.2) ≤ ad_n (sg_time_diff st1 p.1 p.2)) →
  (cmp = set_super2 → ad_n (sg_time_diff st1 p.1 p.2) ≤ ad_n (sg_time_diff st2 p.1 p.2)) →
  ends (times_stop st1 st2 cmp) (time_diff log10 student_t_table key1 t1 st1 key2 t2 st2 cmp p) (λ _, True).
Proof using Hlog Htable.
  intros Hp Hs1 Hs2. unfold time_diff.
  assert ((step_number p.1 <? step_number p.2) = true) as ->.
  { clear -Hp. unfold time_pairs in Hp. repeat (apply elem_of_cons in Hp as [->|Hp]; [done|]). by apply not_elem_of_nil in Hp. }
  apply (ends_bind _ _ _ (λ d, separate cmp (sg_time_diff st1 p.1 p.2) (sg_time_diff st2 p.1 p.2) = Ret d)).
  - destruct cmp; cbn [separate]; [done|done|..]; unfold take_out.
    + specialize (Hs1 eq_refl). pos_assert. destruct (dle _ _) eqn:E; cbn [res_bind ends]; [done|]. exists p. split; [done|]. left. auto.
    + specialize (Hs2 eq_refl). pos_assert. destruct (dle _ _) eqn:E; cbn [res_bind ends]; [done|]. exists p. split; [done|]. left. auto.
  - intros d Hd. case_decide; [done|]. destruct (t_and_df d.1 d.2) as [[t df]|] eqn:Et; [|done].
    eapply ends_mono; [by apply t_test_ends| |done]. intros f Hf. exists p. split; [done|]. right. eauto.
Qed.

Lemma collect_ends {A B} allowed (f : A → res B) l : (∀ x, x ∈ l → ends allowed (f x) (λ _, True)) → ends allowed (collect f l) (λ _, True).
Proof.
  induction l as [|x l IH]; intros H; cbn [collect]; [done|]. eapply ends_bind; [apply H; left|]. intros y _.
  eapply ends_bind; [apply IH; intros; apply H; by right|done].
Qed.
End Total.

(** ** Counts of groups *)

Lemma count_if_sublist {A} (p : A → bool) l1 l2 : l1 `sublist_of` l2 → count_if p l1 ≤ count_if p l2.
Proof. induction 1 as [|x l1 l2 _ IH|x l1 l2 _ IH]; rewrite ?count_if_cons; [done|lia|destruct (p x); cbn [Z.b2z]; lia]. Qed.

Lemma count_if_length {A} (p : A → bool) l : count_if p l ≤ Z.of_nat (length l).
Proof. unfold count_if. apply inj_le. apply length_filter. Qed.

(** One group inside the other, as the comparison says. *)
Definition nested {A} (cmp : set_comparison) (g1 g2 : list A) : Prop :=
  (cmp = set_super1 → g2 `sublist_of` g1) ∧ (cmp = set_super2 → g1 `sublist_of` g2).

Lemma nested_counts {A} (p q : A → bool) cmp (g1 g2 : list A) : (∀ x, p x = true → q x = true) → nested cmp g1 g2 →
  counts_ok cmp (count_if p g1) (count_if q g1) (count_if p g2) (count_if q g2).
Proof.
  intros Hpq [H1 H2].
  assert (∀ g, count_if q g = count_if p g + count_if (λ x, q x && negb (p x)) g) as Hq.
  { intros g. rewrite (count_if_split q p). f_equal. apply count_if_ext. intros x. specialize (Hpq x). destruct (p x), (q x); naive_solver. }
  rewrite !Hq. pose proof (count_if_nonneg p g1). pose proof (count_if_nonneg p g2).
  pose proof (count_if_nonneg (λ x, q x && negb (p x)) g1). pose proof (count_if_nonneg (λ x, q x && negb (p x)) g2).
  split_and!; try lia; intros E.
  - specialize (H1 E). pose proof (count_if_sublist p _ _ H1). pose proof (count_if_sublist (λ x, q x && negb (p x)) _ _ H1). lia.
  - specialize (H2 E). pose proof (count_if_sublist p _ _ H2). pose proof (count_if_sublist (λ x, q x && negb (p x)) _ _ H2). lia.
Qed.

Lemma suffix_sums_ok l : Forall (λ v, 0 ≤ v) l → sumZ l < 2^31 →
  0 ≤ sumZ l ∧ ∃ r, suffix_sums l = Ret r ∧ default 0 (head r) = sumZ l ∧ ∀ i v, r !! i = Some v → v = sumZ (drop i l).
Proof.
  induction l as [|x l IH]; intros Hl Hs; [split; [done|]; by exists []|]. inversion Hl as [|?? Hx Hl']; subst.
  change (sumZ (x :: l)) with (x + sumZ l) in *.
  assert (0 ≤ sumZ l) as Hn. { clear -Hl'. induction Hl'; [done|]. change (sumZ (x :: l)) with (x + sumZ l). lia. }
  destruct (IH Hl' ltac:(lia)) as (_ & r & E & Hh & Hr). split; [lia|]. cbn [suffix_sums]. rewrite E. cbn [res_bind]. rewrite Hh, chk32_ok by lia.
  cbn [res_bind]. eexists. split; [done|]. split; [cbn; unfold id; lia|]. intros [|i] v; cbn [lookup list_lookup drop]; [|apply Hr].
  intros [= <-]. change (sumZ (x :: l)) with (x + sumZ l). lia.
Qed.

Section Reports.
Variables (log10 : double → double) (student_t_table : list (double * list double)) (logstep_all : bool).
Hypothesis Hlog : log10_ok log10.
Hypothesis Htable : table_ok student_t_table.
Abbreviation acc := (accounts logstep_all).

(** Runs with an outcome that got at least to a step. *)
Definition got_to (o : outcome) (i : nat) (r : run) : bool :=
  has_outcome logstep_all o r && bool_decide (step_reached logstep_all (r_info r) ∈ drop i (steps logstep_all)).

Lemma stepreached_ok rs st o : acc rs st → Z.of_nat (length rs) ≤ runs_max →
  ∃ r, stepreached logstep_all st o = Ret r ∧ ∀ i v, r !! i = Some v → v = count_if (got_to o i) rs.
Proof.
  intros Hst Hlen. unfold stepreached, runs_max in *. pose proof (acc_reached _ _ _ Hst o) as Hr.
  rewrite (list_fmap_ext _ (λ s, count_if (ended logstep_all o s) rs) (steps logstep_all)) by (intros; apply Hr).
  set (l := _ <$> _). assert (sumZ l = count_if (got_to o 0) rs) as Hsum by (apply sum_ended, steps_NoDup).
  destruct (suffix_sums_ok l) as (_ & r & -> & _ & Hs).
  { apply List.Forall_forall. intros x Hx. apply list_elem_of_In, list_elem_of_fmap in Hx as (s & -> & _). apply count_if_nonneg. }
  { rewrite Hsum. pose proof (count_if_length (got_to o 0) rs). lia. }
  exists r. split; [done|]. intros i v Hv. rewrite (Hs i v Hv). subst l. rewrite <- fmap_drop. apply sum_ended.
  eapply sublist_NoDup; [apply steps_NoDup|apply sublist_drop].
Qed.

Lemma outcome_total_ok rs st o : acc rs st → Z.of_nat (length rs) ≤ runs_max →
  outcome_total st o = Ret (count_if (has_outcome logstep_all o) rs).
Proof.
  intros Hst Hlen. unfold runs_max in *. rewrite <- (outcometotal_count _ _ _ o Hst).
  pose proof (acc_n _ _ _ Hst). pose proof (acc_activated _ _ _ Hst). pose proof (acc_valid _ _ _ Hst). pose proof (acc_crash _ _ _ Hst).
  pose proof (count_if_length (activated logstep_all) rs). pose proof (count_if_nonneg (activated logstep_all) rs).
  pose proof (count_if_length (valid logstep_all) rs). pose proof (count_if_nonneg (valid logstep_all) rs).
  pose proof (count_if_length (crashed logstep_all) rs). pose proof (count_if_nonneg (crashed logstep_all) rs).
  destruct o; cbn [outcome_total outcometotal]; unfold int_sub; rewrite ?chk32_ok by lia; done.
Qed.

Lemma step_tests_total key1 t1 key2 t2 cmp n1 n2 l : n1 ≤ runs_max → n2 ≤ runs_max →
  Forall (λ v, counts_ok cmp v.1 n1 v.2 n2) l → ∃ r, step_tests log10 key1 t1 key2 t2 cmp n1 n2 l = Ret r.
Proof using Hlog.
  intros H1 H2. induction l as [|v l IH]; intros Hl; cbn [step_tests]; [eauto|]. inversion Hl as [|?? Hv Hl']; subst.
  destruct (print_chi2_total log10 Hlog key1 t1 key2 t2 cmp v.1 n1 v.2 n2) as (x & ->); [done..|]. destruct (IH Hl') as (xs & ->). cbn. eauto.
Qed.

Lemma elem_of_inner {A} (x : A) l : x ∈ inner l → ∃ i, l !! i = Some x.
Proof.
  unfold inner. intros (i & Hi)%list_elem_of_lookup_1. apply lookup_take_Some in Hi as [Hi _]. rewrite lookup_tail in Hi. eauto.
Qed.

Lemma outcome_tests_total key1 t1 rs1 st1 key2 t2 rs2 st2 cmp o : acc rs1 st1 → acc rs2 st2 → nested cmp rs1 rs2 →
  Z.of_nat (length rs1) ≤ runs_max → Z.of_nat (length rs2) ≤ runs_max →
  ∃ r, outcome_tests log10 logstep_all key1 t1 st1 key2 t2 st2 cmp o = Ret r.
Proof using Hlog.
  intros H1 H2 Hn Hl1 Hl2. unfold outcome_tests.
  destruct (stepreached_ok rs1 st1 o H1 Hl1) as (r1 & -> & Hr1). destruct (stepreached_ok rs2 st2 o H2 Hl2) as (r2 & -> & Hr2).
  cbn [res_bind]. rewrite (outcome_total_ok rs1 st1 o H1 Hl1), (outcome_total_ok rs2 st2 o H2 Hl2). cbn [res_bind].
  pose proof (count_if_length (has_outcome logstep_all o) rs1). pose proof (count_if_length (has_outcome logstep_all o) rs2).
  apply step_tests_total; [lia..|]. apply List.Forall_forall. intros [x y] Hx. apply list_elem_of_In, elem_of_inner in Hx as (i & Hi).
  rewrite lookup_zip_with in Hi. destruct (r1 !! i) as [v1|] eqn:E1; [|done]. destruct (r2 !! i) as [v2|] eqn:E2; [|done].
  injection Hi as <- <-. cbn [fst snd]. rewrite (Hr1 i v1 E1), (Hr2 i v2 E2). apply nested_counts; [|done].
  intros r. unfold got_to. by destruct (has_outcome logstep_all o r).
Qed.

Lemma time_pairs_later p : p ∈ time_pairs → p ∈ later_pairs (steps logstep_all).
Proof.
  intros Hp. unfold time_pairs in Hp. apply list_elem_of_In. destruct logstep_all; repeat (apply elem_of_cons in Hp as [->|Hp]; [vm_compute; tauto|]); by apply not_elem_of_nil in Hp.
Qed.

Lemma stattest_ends key1 t1 rs1 st1 key2 t2 rs2 st2 : acc rs1 st1 → acc rs2 st2 → nested (set_compare key1 t1 key2 t2) rs1 rs2 →
  Z.of_nat (length rs1) ≤ runs_max → Z.of_nat (length rs2) ≤ runs_max →
  ends (times_stop student_t_table st1 st2 (set_compare key1 t1 key2 t2)) (stattest_write log10 student_t_table logstep_all key1 t1 st1 key2 t2 st2) (λ _, True).
Proof using Hlog Htable.
  intros H1 H2 Hn Hl1 Hl2. unfold stattest_write. destruct (_ || _); [done|]. cbv zeta.
  rewrite (acc_valid _ _ _ H1), (acc_activated _ _ _ H1), (acc_crash _ _ _ H1), (acc_valid _ _ _ H2), (acc_activated _ _ _ H2), (acc_crash _ _ _ H2).
  assert (∀ p : run → bool, count_if p rs1 ≤ runs_max ∧ count_if p rs2 ≤ runs_max) as Hmax.
  { intros p. pose proof (count_if_length p rs1). pose proof (count_if_length p rs2). lia. }
  edestruct (print_chi2_total log10 Hlog key1 t1 key2 t2) as (r1 & ->);
    [apply (nested_counts (valid logstep_all) (activated logstep_all)); [intros r; unfold valid; by destruct (activated logstep_all r)|exact Hn]|apply Hmax..|].
  edestruct (print_chi2_total log10 Hlog key1 t1 key2 t2) as (r2 & ->);
    [apply (nested_counts (crashed logstep_all) (valid logstep_all)); [intros r; unfold crashed; by destruct (valid logstep_all r)|exact Hn]|apply Hmax..|].
  cbn [res_bind]. apply (ends_bind _ _ _ (λ _, True)).
  { apply collect_ends. intros p Hp. apply time_diff_ends; [done..| |]; intros E;
      rewrite (acc_times _ _ _ H1), (acc_times _ _ _ H2) by (by apply time_pairs_later); apply count_if_sublist, Hn, E. }
  intros times _.
  do 4 (edestruct (outcome_tests_total key1 t1 rs1 st1 key2 t2 rs2 st2) as (? & ->); [exact H1|exact H2|exact Hn|done|done|cbn [res_bind]]). done.
Qed.
End Reports.

(** ** Keys *)

Lemma norm_cons_nonempty a s : norm (String a s) ≠ [].
Proof. destruct (is_digit a) eqn:E; [by rewrite norm_digit|by rewrite norm_char]. Qed.

(** A key without digits reads as nothing else. *)
Lemma norm_plain s x : string_forall (λ a, negb (is_digit a)) s = true → norm x = norm s → x = s.
Proof.
  revert x. induction s as [|a s IH]; intros [|b x] Hs E; [done|by apply norm_cons_nonempty in E|by symmetry in E; apply norm_cons_nonempty in E|].
  cbn [string_forall] in Hs. apply andb_true_iff in Hs as [Ha Hs]. apply negb_true_iff in Ha. rewrite (norm_char a s Ha) in E.
  destruct (is_digit b) eqn:Eb.
  - rewrite (norm_digit b x Eb) in E. injection E as E _. assert (is_digit a = true) by (apply is_digit_schar; lia). congruence.
  - rewrite (norm_char b x Eb) in E. injection E as E1 E2. apply schar_inj in E1 as ->. f_equal. by apply IH.
Qed.

Lemma same_key_plain s x : string_forall (λ a, negb (is_digit a)) s = true → same_key x s → x = s.
Proof. unfold same_key. cbn [key_norm]. intros Hs [= _ E]. by apply norm_plain. Qed.

Definition key_count (k : string) (ks : list string) : nat := length (filter (λ x, same_key x k) ks).

Lemma key_count_cons k x ks : key_count k (x :: ks) = ((if decide (same_key x k) then 1 else 0) + key_count k ks)%nat.
Proof. unfold key_count. case_decide; [by rewrite filter_cons_True|by rewrite filter_cons_False]. Qed.

Lemma key_count_none k ks : Forall (λ x, ¬ same_key x k) ks → key_count k ks = 0%nat.
Proof. induction 1; [done|]. rewrite key_count_cons, decide_False by done. done. Qed.

(** A path is longer than its directory. *)
Lemma norm_from_app v p a q : is_digit a = false → norm_from v (p +:+ String a q) = norm_from v p ++ schar a :: norm q.
Proof.
  intros Ha. revert v. induction p as [|b p IH]; intros v; cbn [String.append norm_from].
  - rewrite Ha. by destruct v.
  - destruct (is_digit b); [apply IH|]. rewrite IH, <- app_assoc. done.
Qed.

Lemma last_slash_split s i : last_slash s = Some i → ∃ q, s = String.substring 0 i s +:+ String "/" q.
Proof.
  revert i. induction s as [|a s IH]; intros i; cbn [last_slash]; [done|]. destruct (last_slash s) as [j|].
  - intros [= <-]. destruct (IH j eq_refl) as [q Hq]. exists q. cbn. f_equal. done.
  - destruct (Ascii.eqb_spec a "/") as [->|]; [|done]. intros [= <-]. by exists s.
Qed.

Lemma cut_path_shorter s p : cut_path s = Some p → (length (norm p) < length (norm s))%nat ∧ (String.length p < String.length s)%nat.
Proof.
  unfold cut_path. destruct (last_slash s) as [[|i]|] eqn:E; [done| |done]. intros [= <-]. destruct (last_slash_split _ _ E) as [q Hq].
  set (p := String.substring 0 (S i) s) in *. rewrite Hq. unfold norm. rewrite norm_from_app by done. rewrite length_app, string_length_app. cbn [length String.length]. lia.
Qed.

Lemma path_keys_ok fuel s : (String.length s < fuel)%nat → ∃ l, path_keys fuel s = Ret (s :: l) ∧ Forall (λ x, (length (norm x) < length (norm s))%nat) l ∧
  ∀ k, (key_count k (s :: l) ≤ 1)%nat.
Proof.
  revert s. induction fuel as [|fuel IH]; intros s Hf; [lia|]. cbn [path_keys]. destruct (cut_path s) as [p|] eqn:E.
  - destruct (cut_path_shorter s p E) as [Hn Hl]. destruct (IH p ltac:(lia)) as (l & -> & Hall & Hc). cbn [res_bind]. exists (p :: l).
    assert (Forall (λ x, (length (norm x) < length (norm s))%nat) (p :: l)) as Hall'.
    { constructor; [done|]. eapply List.Forall_impl; [|exact Hall]. cbn. lia. }
    split_and!; [done|done|]. intros k. rewrite key_count_cons. case_decide as Hk; [|by apply Hc]. rewrite key_count_none; [lia|].
    eapply List.Forall_impl; [|exact Hall']. cbn. intros x Hx Hxk. unfold same_key in *. cbn [key_norm] in *. rewrite <- Hk in Hxk. injection Hxk as _ Hxs.
    rewrite Hxs in Hx. lia.
  - exists []. split_and!; [done|constructor|]. intros k. rewrite key_count_cons. unfold key_count. cbn. case_decide; lia.
Qed.

Section Keys.
Variables (logstep_all : bool) (modules : module_ll).

Lemma keys_of_app w l1 l2 : keys_of w (l1 ++ l2) = keys_of w l1 ++ keys_of w l2.
Proof. unfold keys_of. by rewrite filter_app, fmap_app. Qed.

Lemma keys_of_all w key : keys_of w (aggregate_all key) = [key].
Proof. by destruct w. Qed.

Lemma keys_of_paths w l : keys_of w ((λ k, (per_path, k)) <$> l) = if decide (w = per_path) then l else [].
Proof.
  unfold keys_of. case_decide as Hw.
  - subst w. induction l as [|k l IH]; [done|]. rewrite fmap_cons, filter_cons_True by done. rewrite fmap_cons, IH. done.
  - induction l as [|k l IH]; [done|]. rewrite fmap_cons, filter_cons_False by (cbn; congruence). done.
Qed.

Lemma key_count_short k ks : (length ks ≤ 1)%nat → (key_count k ks ≤ 1)%nat.
Proof. intros H. unfold key_count. pose proof (length_filter (λ x, same_key x k) ks). lia. Qed.

Lemma Ret_inj {A} (x y : A) : Ret x = Ret y → x = y.
Proof. congruence. Qed.

(** The keys that come from the path. *)
Lemma path_calls_keys (path : option string) paths w :
  match path with
  | Some (String a p) =>
      let! l := path_keys (S (String.length (String a p))) (String a p) in
      Ret ((per_pathclass, pathclassify (String a p)) :: ((λ k, (per_path, k)) <$> l))
  | _ => Ret [(per_path, "<UNKNOWN>"); (per_pathclass, "other")]
  end = Ret paths →
  (∀ k, (key_count k (keys_of w paths) ≤ 1)%nat) ∧ (w ≠ per_path → w ≠ per_pathclass → keys_of w paths = []).
Proof.
  assert (∀ c, (∀ k, (key_count k (keys_of w [(per_path, "<UNKNOWN>"); (per_pathclass, c)]) ≤ 1)%nat) ∧
    (w ≠ per_path → w ≠ per_pathclass → keys_of w [(per_path, "<UNKNOWN>"); (per_pathclass, c)] = [])) as Hnone.
  { intros c. destruct w; split; try done; intros k; apply key_count_short; vm_compute; lia. }
  destruct path as [[|a p]|]; intros Hp; [apply Ret_inj in Hp as <-; apply Hnone| |apply Ret_inj in Hp as <-; apply Hnone].
  destruct (path_keys_ok (S (String.length (String a p))) (String a p)) as (l & E & _ & Hc); [lia|]. rewrite E in Hp. apply Ret_inj in Hp as <-.
  change ((per_pathclass, ?c) :: ?m) with ([(per_pathclass, c)] ++ m). rewrite keys_of_app, keys_of_paths. destruct (decide (w = per_path)) as [->|Hw].
  - split; [|done]. apply Hc.
  - rewrite app_nil_r. destruct w; split; try done; intros k; apply key_count_short; vm_compute; lia.
Qed.

(** The own keys of a run with faults differ. *)
Lemma faulty_keys r calls w : faulty_calls logstep_all modules r = Ret calls →
  ∃ own, keys_of w calls = "<ALL>" :: "<FAULTY>" :: own ∧ ∀ k, (key_count k own ≤ 1)%nat.
Proof.
  unfold faulty_calls. intros (f & _ & H)%res_bind_inv. apply res_bind_inv in H as (facts & _ & H). apply res_bind_inv in H as (restarts & _ & H).
  apply res_bind_inv in H as (paths & Hp & H). apply Ret_inj in H as <-. rewrite !keys_of_app, !keys_of_all. cbn [app]. eexists. split; [done|].
  destruct (path_calls_keys _ _ w Hp) as [Hc Hn]. intros k.
  destruct w; rewrite ?Hn by done.
  all: try (apply key_count_short; destruct (fd_type f); vm_compute; lia).
  - match goal with |- (key_count k ?l ≤ 1)%nat => replace l with (keys_of per_path paths ++ []) by (destruct (fd_type f); vm_compute; reflexivity) end.
    rewrite app_nil_r. apply Hc.
  - match goal with |- (key_count k ?l ≤ 1)%nat => replace l with (keys_of per_pathclass paths ++ []) by (destruct (fd_type f); vm_compute; reflexivity) end.
    rewrite app_nil_r. apply Hc.
Qed.
End Keys.

(** ** Groups inside groups *)

Definition wider (t1 t2 : test) : Prop := (t1.1 = None ∨ t1.1 = t2.1) ∧ (t1.2 = None ∨ t1.2 = t2.2).

Lemma classify_key k : match key_classify k with key_all => k = "<ALL>" | key_faulty => k = "<FAULTY>" | key_golden => k = "<GOLDEN>" | key_other => True end.
Proof. unfold key_classify. by repeat case_decide. Qed.

Lemma compare_part_spec p1 p2 f : let f' := compare_part p1 p2 f in
  (fl_disjoint f' = false → fl_super2 f' = false → fl_disjoint f = false ∧ fl_super2 f = false ∧ (p1 = None ∨ p1 = p2)) ∧
  (fl_disjoint f' = false → fl_super1 f' = false → fl_disjoint f = false ∧ fl_super1 f = false ∧ (p2 = None ∨ p2 = p1)).
Proof. unfold compare_part. destruct p1, p2; cbn; repeat case_decide; cbn; naive_solver. Qed.

Lemma set_compare_super k1 t1 k2 t2 :
  (set_compare k1 t1 k2 t2 = set_super1 → wider t1 t2 ∧ ∃ f, compare_keys k1 k2 = Some f ∧ fl_super2 f = false) ∧
  (set_compare k1 t1 k2 t2 = set_super2 → wider t2 t1 ∧ ∃ f, compare_keys k1 k2 = Some f ∧ fl_super1 f = false).
Proof.
  unfold set_compare, wider. destruct (compare_keys k1 k2) as [f|]; [|done]. cbv zeta.
  pose proof (compare_part_spec t1.1 t2.1 f) as H1. set (f1 := compare_part t1.1 t2.1 f) in *. cbv zeta in H1.
  pose proof (compare_part_spec t1.2 t2.2 f1) as H2. set (f2 := compare_part t1.2 t2.2 f1) in *. cbv zeta in H2.
  destruct (fl_super1 f2), (fl_super2 f2), (fl_disjoint f2); cbn; naive_solver.
Qed.

Lemma compare_keys_super k1 k2 f : compare_keys k1 k2 = Some f →
  (fl_super2 f = false → k1 = k2 ∨ k1 = "<FAULTY>" ∧ key_classify k2 = key_other) ∧
  (fl_super1 f = false → k1 = k2 ∨ k2 = "<ALL>" ∨ k2 = "<FAULTY>" ∧ key_classify k1 = key_other).
Proof.
  unfold compare_keys. pose proof (classify_key k1) as H1. pose proof (classify_key k2) as H2.
  destruct (key_classify k1) eqn:E1, (key_classify k2) eqn:E2; cbn; try (intros [= <-]; cbn; naive_solver);
    destruct (bool_decide_reflect (k1 = k2)); cbn; try done; intros [= <-]; auto.
Qed.

Lemma filter_impl_sublist {A} (P Q : A → Prop) `{∀ x, Decision (P x)} `{∀ x, Decision (Q x)} l : (∀ x, P x → Q x) → filter P l `sublist_of` filter Q l.
Proof.
  intros HPQ. induction l as [|x l IH]; [done|]. destruct (decide (P x)).
  - rewrite (filter_cons_True P), (filter_cons_True Q) by auto. by apply sublist_skip.
  - rewrite (filter_cons_False P) by done. destruct (decide (Q x)).
    + rewrite filter_cons_True by done. by apply sublist_cons.
    + by rewrite filter_cons_False.
Qed.

Section Nesting.
Variables (logstep_all : bool) (log10 : double → double) (modules : module_ll).
Abbreviation rgroup := (run_group logstep_all modules).
Abbreviation rkeys w r := (keys_of w (run_calls logstep_all modules r)).

Lemma group_wider k t1 t2 calls : wider t1 t2 → group r_system r_workload k t2 calls `sublist_of` group r_system r_workload k t1 calls.
Proof.
  intros [Hs Hw]. unfold group. apply fmap_sublist, filter_impl_sublist. intros c [Hk [Ha Hb]]. split; [done|]. split.
  - destruct Hs as [| ->]; [by left|done].
  - destruct Hw as [| ->]; [by left|done].
Qed.

Lemma group_one k t r ks : group r_system r_workload k t ((λ x, (x, r)) <$> ks) = if decide (covers r_system r_workload t r) then replicate (key_count k ks) r else [].
Proof.
  unfold group. induction ks as [|x ks IH]; [by case_decide|]. rewrite fmap_cons, key_count_cons.
  destruct (decide (same_key x k)); destruct (decide (covers r_system r_workload t r)).
  - rewrite filter_cons_True by done. rewrite fmap_cons, IH. done.
  - rewrite filter_cons_False by (by intros []). by rewrite IH.
  - rewrite filter_cons_False by (by intros []). by rewrite IH.
  - rewrite filter_cons_False by (by intros []). by rewrite IH.
Qed.

(** The runs of an experiment, in the order of the lists. *)
Definition listed (rs : list run) : list run := faulty_runs rs ++ reverse (golden_runs rs).

Lemma rgroup_cons w k t r l : group r_system r_workload k t (concat (keyed logstep_all modules w <$> r :: l)) =
  (if decide (covers r_system r_workload t r) then replicate (key_count k (rkeys w r)) r else []) ++
  group r_system r_workload k t (concat (keyed logstep_all modules w <$> l)).
Proof. rewrite fmap_cons. cbn [concat]. rewrite group_app. f_equal. apply group_one. Qed.

Lemma rgroup_keys w k K t rs : Forall (λ r, (key_count k (rkeys w r) ≤ key_count K (rkeys w r))%nat) (listed rs) → rgroup w k t rs `sublist_of` rgroup w K t rs.
Proof.
  unfold run_group, list_calls. fold (listed rs). induction (listed rs) as [|r l IH]; intros H; [done|]. inversion H as [|?? Hr Hl]; subst.
  rewrite !rgroup_cons. apply sublist_app; [|by apply IH]. case_decide; [|done].
  replace (key_count K (rkeys w r)) with (key_count k (rkeys w r) + (key_count K (rkeys w r) - key_count k (rkeys w r)))%nat by lia.
  rewrite replicate_add. by apply sublist_inserts_r.
Qed.

Lemma rgroup_length w k t rs : Forall (λ r, (key_count k (rkeys w r) ≤ 1)%nat) (listed rs) → (length (rgroup w k t rs) ≤ length (listed rs))%nat.
Proof.
  unfold run_group, list_calls. fold (listed rs). induction (listed rs) as [|r l IH]; intros H; [done|]. inversion H as [|?? Hr Hl]; subst.
  rewrite rgroup_cons, length_app. specialize (IH Hl). case_decide; [rewrite length_replicate|]; cbn [length]; lia.
Qed.

Lemma listed_perm rs : listed rs ≡ₚ rs.
Proof.
  unfold listed. rewrite reverse_Permutation. unfold faulty_runs, golden_runs. induction rs as [|r rs IH]; [done|].
  destruct (is_golden (r_info r)) eqn:E.
  - rewrite filter_cons_False by (by rewrite E). rewrite filter_cons_True by done. by rewrite <- Permutation_middle, IH.
  - rewrite filter_cons_True by done. rewrite filter_cons_False by (by rewrite E). cbn. by rewrite IH.
Qed.

(** Modules, fault types and paths that are not called as the groups of the tool. *)
Definition proper (r : run) : Prop := ∀ w, Forall (λ x, key_classify x = key_other) (drop 2 (rkeys w r)).

Lemma run_keys w r : has_keys logstep_all modules r → proper r → ∃ K own, rkeys w r = "<ALL>" :: K :: own ∧
  (K = "<FAULTY>" ∨ K = "<GOLDEN>" ∧ own = []) ∧ (∀ k, (key_count k own ≤ 1)%nat) ∧ Forall (λ x, key_classify x = key_other) own.
Proof.
  intros Hk Hp. specialize (Hp w). unfold run_calls in *. destruct (is_golden (r_info r)) eqn:E.
  - exists "<GOLDEN>", []. split; [by destruct w|]. split; [by right|]. split; [intros k; unfold key_count; cbn; lia|constructor].
  - destruct Hk as [|Hk]; [congruence|]. apply (is_ret_or []) in Hk. destruct (faulty_keys logstep_all modules r _ w Hk) as (own & Ho & Hc).
    rewrite Ho in *. exists "<FAULTY>", own. split; [done|]. split; [by left|]. done.
Qed.

Lemma other_not_same x K : key_classify x = key_other → K = "<ALL>" ∨ K = "<FAULTY>" ∨ K = "<GOLDEN>" → ¬ same_key x K ∧ ¬ same_key K x.
Proof.
  intros Hx HK. assert (¬ same_key x K) as Hn.
  { intros Hs. assert (x = K) as -> by (apply same_key_plain; [by destruct HK as [->|[->| ->]]|done]). by destruct HK as [->|[->| ->]]. }
  split; [done|]. intros Hs. by symmetry in Hs.
Qed.

Lemma key_count_own K own : K = "<ALL>" ∨ K = "<FAULTY>" ∨ K = "<GOLDEN>" → Forall (λ x, key_classify x = key_other) own → key_count K own = 0%nat.
Proof. intros HK Ho. apply key_count_none. eapply List.Forall_impl; [|exact Ho]. cbn. intros x Hx. by apply (other_not_same x K). Qed.

(** A key counts a run at most once, [<ALL>] every run, [<FAULTY>] at least as often as any
    proper key. *)
Lemma run_key_counts w r k : has_keys logstep_all modules r → proper r →
  (key_count k (rkeys w r) ≤ 1)%nat ∧ key_count "<ALL>" (rkeys w r) = 1%nat ∧
  (key_classify k = key_other → (key_count k (rkeys w r) ≤ key_count "<FAULTY>" (rkeys w r))%nat).
Proof.
  intros Hk Hp. destruct (run_keys w r Hk Hp) as (K & own & -> & HK & Hc & Ho).
  assert (∀ x y, x = "<ALL>" ∨ x = "<FAULTY>" ∨ x = "<GOLDEN>" → same_key x y → y = x) as Hplain.
  { intros x y Hx Hs. apply same_key_plain; [by destruct Hx as [->|[->| ->]]|by symmetry]. }
  assert (K = "<ALL>" ∨ K = "<FAULTY>" ∨ K = "<GOLDEN>") as HK3 by (destruct HK as [->|[-> _]]; auto).
  rewrite !key_count_cons. split_and!.
  - destruct (decide (same_key "<ALL>" k)) as [Ha|Ha]; [apply Hplain in Ha as ->; [|auto]|destruct (decide (same_key K k)) as [Hb|Hb]; [apply Hplain in Hb as ->; [|done]|]].
    + rewrite (key_count_own "<ALL>" own), decide_False; [lia| |auto|done]. destruct HK as [->|[-> _]]; by vm_compute.
    + rewrite (key_count_own K own) by done. lia.
    + apply Hc.
  - rewrite decide_True by done. rewrite decide_False by (destruct HK as [->|[-> _]]; by vm_compute). rewrite key_count_own; auto.
  - intros Hother. rewrite !(decide_False (P := same_key _ k)) by (apply (other_not_same k); auto). destruct HK as [->|[-> ->]].
    + rewrite (decide_True (P := same_key "<FAULTY>" "<FAULTY>")) by done. specialize (Hc k). lia.
    + unfold key_count at 1. cbn. lia.
Qed.

Lemma compare_nested w k1 t1 k2 t2 rs : Forall (has_keys logstep_all modules) rs → Forall proper rs →
  nested (set_compare k1 t1 k2 t2) (rgroup w k1 t1 rs) (rgroup w k2 t2 rs).
Proof.
  intros Hk Hp. destruct (set_compare_super k1 t1 k2 t2) as [H1 H2].
  assert (∀ k K, (K = "<ALL>" ∨ K = "<FAULTY>" ∧ key_classify k = key_other) → ∀ t, rgroup w k t rs `sublist_of` rgroup w K t rs) as Hsub.
  { intros k K HK t. apply rgroup_keys. rewrite listed_perm. apply List.Forall_forall. intros r Hr. rewrite List.Forall_forall in Hk, Hp.
    destruct (run_key_counts w r k (Hk r Hr) (Hp r Hr)) as (Hle & Hall & Hf). destruct HK as [->|[-> Ho]]; [lia|by apply Hf]. }
  split; intros E.
  - destruct (H1 E) as (Hw & f & Hf & H0). apply (compare_keys_super _ _ _ Hf) in H0. etransitivity; [by apply group_wider|].
    destruct H0 as [->|[-> Ho]]; [done|]. apply Hsub. auto.
  - destruct (H2 E) as (Hw & f & Hf & H0). apply (compare_keys_super _ _ _ Hf) in H0. etransitivity; [by apply group_wider|].
    destruct H0 as [->|[->|[-> Ho]]]; [done|apply Hsub; auto..].
Qed.
End Nesting.
