(* ===== verification/Report.v ===== *)
(** * Reports on significance: [hypermemloganalyze/hypermemloganalyze.c]

    Which groups the report compares: the lists are sorted, tests of a key are compared
    with each other and the groups of the tool with those of the keys.  The main theorem
    composes the analysis of the runs, the groups and the statistical tests. *)

From Stdlib Require Import ZArith Lia Ascii String Sorted Floats.SpecFloat.
From stdpp Require Import base list numbers strings.
From S2P Require Import Prelude Decimal Helper Module LogInfo Double Significance KeyOrder Groups Aggregate GoldenRuns Analysis Compare.
Set Default Proof Using "Type".

(** ** Sorting *)

(** [qsort]: entries that compare equal do not occur. *)
Section Sorting.
Context {A : Type} (cmp : A → A → Z).
Fixpoint insert_entry (x : A) (l : list A) : list A :=
  match l with [] => [x] | y :: l' => if 0 <? cmp x y then y :: insert_entry x l' else x :: l end.
Definition qsort_entries (l : list A) : list A := foldr insert_entry [] l.

Lemma insert_entry_perm x l : insert_entry x l ≡ₚ x :: l.
Proof. induction l as [|y l IH]; [done|]. cbn. case_match; [|done]. rewrite IH. apply Permutation_swap. Qed.
Lemma qsort_entries_perm l : qsort_entries l ≡ₚ l.
Proof. induction l as [|x l IH]; [done|]. cbn. by rewrite insert_entry_perm, IH. Qed.

Lemma insert_entry_sorted x l : (∀ a b c, cmp a b ≤ 0 → cmp b c ≤ 0 → cmp a c ≤ 0) → (∀ a b, cmp b a = - cmp a b) →
  StronglySorted (λ a b, cmp a b ≤ 0) l → StronglySorted (λ a b, cmp a b ≤ 0) (insert_entry x l).
Proof.
  intros Htrans Hanti. induction 1 as [|y l Hl IH Hy]; cbn; [by repeat constructor|]. destruct (Z.ltb_spec 0 (cmp x y)) as [Hc|Hc].
  - constructor; [done|]. rewrite insert_entry_perm. constructor; [|done]. rewrite Hanti. lia.
  - constructor; [by constructor|]. constructor; [done|]. eapply List.Forall_impl; [|exact Hy]. cbn. intros z Hz. by eapply Htrans.
Qed.
Lemma qsort_entries_sorted l : (∀ a b c, cmp a b ≤ 0 → cmp b c ≤ 0 → cmp a c ≤ 0) → (∀ a b, cmp b a = - cmp a b) →
  StronglySorted (λ a b, cmp a b ≤ 0) (qsort_entries l).
Proof. intros Ht Ha. induction l as [|x l IH]; cbn; [constructor|]. by apply insert_entry_sorted. Qed.
End Sorting.

(** [stattest_stats_by_string_key_sort_compare] and [stattest_stats_aggregate_per_test_sort_compare] *)
Definition node_compare {S} (n1 n2 : by_key S) : Z := ret_or 0 (keystrcmp (Some (bk_key n1)) (Some (bk_key n2))).
Definition test_compare {S} (p1 p2 : per_test S) : Z :=
  let r := safestrcmp (pt_test p1).1 (pt_test p2).1 in
  if negb (r =? 0) then r else safestrcmp (pt_test p1).2 (pt_test p2).2.

(** [for (i = 0; ...) for (j = i + 1; ...)] *)
Fixpoint pairs_of {A} (l : list A) : list (A * A) :=
  match l with [] => [] | x :: l' => ((λ y, (x, y)) <$> l') ++ pairs_of l' end.

Section Report.
Variables (log10 : double → double) (student_t_table : list (double * list double)) (logstep_all : bool).
Abbreviation node := (by_key stats_aggregate).
Abbreviation entry_t := (per_test stats_aggregate).

(** What is compared: two keys with a test and its statistics each. *)
Definition compared : Type := (string * entry_t) * (string * entry_t).
Definition write_compared (c : compared) : res (option row) :=
  stattest_write log10 student_t_table logstep_all c.1.1 (pt_test c.1.2) (pt_stats c.1.2) c.2.1 (pt_test c.2.2) (pt_stats c.2.2).

Definition same_opt (a b : option string) : bool := bool_decide (a = b).
(** [output_analysis_stattest_write_per_test_compare_tests] *)
Definition tests_compared (cross : bool) (p : entry_t * entry_t) : bool :=
  let t1 := pt_test p.1 in
  let t2 := pt_test p.2 in
  if negb (same_opt t1.1 t2.1) && negb (same_opt t1.2 t2.2) then false
  else if match t1.2, t2.2 with Some w1, Some w2 => negb (bool_decide (w1 = w2)) | _, _ => false end then false
  else if negb cross && match t1.1, t2.1 with Some s1, Some s2 => negb (bool_decide (s1 = s2)) | _, _ => true end then false
  else true.
Definition compare_tests (cross : bool) (n : node) : list compared :=
  (λ p, ((bk_key n, p.1), (bk_key n, p.2))) <$> List.filter (tests_compared cross) (pairs_of (qsort_entries test_compare (bk_stats n))).
(** [output_analysis_stattest_write_per_test_compare_keys] *)
Definition keys_compared (cross : bool) (p : entry_t * entry_t) : bool :=
  same_opt (pt_test p.1).1 (pt_test p.2).1 && same_opt (pt_test p.1).2 (pt_test p.2).2 &&
  (cross || match (pt_test p.1).1 with Some _ => true | None => false end).
Definition product {A B} (l : list A) (k : list B) : list (A * B) := concat ((λ x, (λ y, (x, y)) <$> k) <$> l).
Definition compare_keys_nodes (cross : bool) (n : node * node) : list compared :=
  (λ p, ((bk_key n.1, p.1), (bk_key n.2, p.2))) <$>
  List.filter (keys_compared cross) (product (qsort_entries test_compare (bk_stats n.1)) (qsort_entries test_compare (bk_stats n.2))).
Definition both_other (n : node * node) : bool :=
  bool_decide (key_classify (bk_key n.1) = key_other) && bool_decide (key_classify (bk_key n.2) = key_other).

(** [output_analysis_stattest_write_keys_cols] *)
Definition comparisons (cross : bool) (L : list node) : list compared :=
  let sorted := qsort_entries node_compare L in
  concat (compare_tests cross <$> sorted) ++
  concat (compare_keys_nodes cross <$> List.filter (λ n, negb (both_other n)) (pairs_of sorted)).
Definition write_keys_cols (cross : bool) (L : list node) : res (list (option row)) := collect write_compared (comparisons cross L).

(** The lists are compared across systems, or within each. *)
Definition compare_cross_system (w : list_id) : bool :=
  match w with per_fault_act_count | per_fault_type | per_step => true | _ => false end.
Definition stattest_write_all (a : analysis) : res (list (list (option row))) :=
  collect (λ w, write_keys_cols (compare_cross_system w) (an_lists a w)) all_lists.

(** ** What is compared comes from the lists *)

Lemma elem_of_pairs {A} (x y : A) l : (x, y) ∈ pairs_of l → x ∈ l ∧ y ∈ l.
Proof.
  induction l as [|z l IH]; cbn [pairs_of]; [by intros ?%not_elem_of_nil|]. rewrite elem_of_app. intros [Hp|Hp].
  - apply list_elem_of_fmap in Hp as (y' & [= -> ->] & Hy). split; [left|by right].
  - destruct (IH Hp). split; by right.
Qed.

Lemma elem_of_product {A B} (x : A) (y : B) l k : (x, y) ∈ product l k → x ∈ l ∧ y ∈ k.
Proof.
  unfold product. induction l as [|z l IH]; [by intros ?%not_elem_of_nil|]. rewrite fmap_cons. cbn [concat]. rewrite elem_of_app. intros [Hp|Hp].
  - apply list_elem_of_fmap in Hp as (y' & [= -> ->] & Hy). split; [left|done].
  - destruct (IH Hp). split; [by right|done].
Qed.

Lemma elem_of_filter_bool {A} (f : A → bool) (x : A) l : x ∈ List.filter f l → x ∈ l.
Proof. rewrite !list_elem_of_In. by intros [H _]%filter_In. Qed.

Lemma elem_of_concat_map {A B} (f : A → list B) (l : list A) y : y ∈ concat (f <$> l) → ∃ x, x ∈ l ∧ y ∈ f x.
Proof.
  induction l as [|x l IH]; [by intros ?%not_elem_of_nil|]. rewrite fmap_cons. cbn [concat]. rewrite elem_of_app.
  intros [Hy|Hy]; [exists x; split; [left|done]|]. destruct (IH Hy) as (x' & Hx & Hy'). exists x'. split; [by right|done].
Qed.

Definition in_list (L : list node) (e : string * entry_t) : Prop := ∃ n, n ∈ L ∧ bk_key n = e.1 ∧ e.2 ∈ bk_stats n.

Lemma comparisons_in cross L c : c ∈ comparisons cross L → in_list L c.1 ∧ in_list L c.2.
Proof.
  unfold comparisons, in_list. rewrite elem_of_app. intros [H|H]; apply elem_of_concat_map in H as (x & Hx & Hc).
  - rewrite (qsort_entries_perm node_compare L) in Hx. unfold compare_tests in Hc. apply list_elem_of_fmap in Hc as ([p q] & -> & Hp).
    apply elem_of_filter_bool, elem_of_pairs in Hp as [Hp Hq]. rewrite !qsort_entries_perm in Hp, Hq. cbn. split; exists x; done.
  - apply elem_of_filter_bool in Hx. destruct x as [n m]. apply elem_of_pairs in Hx as [Hn Hm]. rewrite qsort_entries_perm in Hn, Hm.
    unfold compare_keys_nodes in Hc. apply list_elem_of_fmap in Hc as ([p q] & -> & Hp). apply elem_of_filter_bool, elem_of_product in Hp as [Hp Hq].
    rewrite !qsort_entries_perm in Hp, Hq. cbn. split; [exists n|exists m]; done.
Qed.

End Report.

(** ** Lists of an analysis are in order *)

Section Reports.
Variables (logstep_all ignore_execcounts : bool) (log10 : double → double) (modules : module_ll).
Variables (option_source_path_prefix : string) (option_test_name : option string).
Variable student_t_table : list (double * list double).

Definition lists_distinct (a : analysis) : Prop := ∀ w, distinct (an_lists a w).

Lemma make_calls_distinct r calls a a' : lists_distinct a → make_calls logstep_all log10 r calls a = Ret a' → lists_distinct a'.
Proof.
  unfold make_calls. apply res_foldl_inv. intros x c y Hx H. unfold make_call in H. apply res_bind_inv in H as (L & HL & [= <-]).
  intros w. cbn. case_decide; [|apply Hx]. eapply add_key_distinct; [apply (Hx c.1)|exact HL].
Qed.

Lemma account_log_distinct r a a' : lists_distinct a → account_log logstep_all log10 modules r a = Ret a' → lists_distinct a'.
Proof.
  intros Ha H. unfold account_log, aggregate_log in H. apply res_bind_inv in H as (a1 & H1 & H).
  assert (lists_distinct a1) as Ha1.
  { destruct (is_golden (r_info r)); apply res_bind_inv in H1 as (x & _ & H1); [by injection H1 as <-|by eapply make_calls_distinct]. }
  destruct (negb _); [apply res_bind_inv in H as (n & _ & [= <-])|injection H as <-]; exact Ha1.
Qed.

Lemma account_distinct rs a : account logstep_all log10 modules rs = Ret a → lists_distinct a.
Proof.
  unfold account. intros (a1 & H1 & H)%res_bind_inv. unfold aggregate_golden_all in H. revert H. apply res_foldl_inv.
  - intros x r y. apply make_calls_distinct.
  - revert H1. apply res_foldl_inv; [|intros w; apply distinct_nil]. intros x r y. apply account_log_distinct.
Qed.

(** A comparison of times in the report on a list that stops with [f]. *)
Definition stopped_by_times (a : analysis) (f : fault) : Prop :=
  ∃ w c, c ∈ comparisons (compare_cross_system w) (an_lists a w) ∧
    times_stop student_t_table (pt_stats c.1.2) (pt_stats c.2.2) (set_compare c.1.1 (pt_test c.1.2) c.2.1 (pt_test c.2.2)) f.

(** C19: the report on significance.  Take an experiment of at most 46340 runs whose analysis returned, whose modules,
    fault types and paths are not called as the groups of the tool.  The report ends with the rows of the seven lists,
    one for each comparison of two groups, unless the comparison of the times of two groups stops it: no comparison of counts fails an
    assertion or overflows.  A comparison of times stops the report only if the degrees of freedom of its t-test
    are not a number (an assertion fails), its p-value is not a number and is converted to [int], or the
    squares of the times of a part add up to more than those of the whole (an assertion fails).  Assumed of [log10] is
    its range, and of the table of Student's distribution that its rows are complete. *)
Theorem reports_complete rs s :
  log10_ok log10 → table_ok student_t_table →
  Forall (has_keys logstep_all modules) rs → Forall (proper logstep_all modules) rs → Z.of_nat (length rs) ≤ runs_max →
  analyze logstep_all ignore_execcounts log10 modules option_source_path_prefix option_test_name rs = Ret s →
  match stattest_write_all log10 student_t_table logstep_all (ex_analysis s) with
  | Ret rows => length <$> rows = (λ w, length (comparisons (compare_cross_system w) (an_lists (ex_analysis s) w))) <$> all_lists
  | Stop f => stopped_by_times (ex_analysis s) f
  end.
Proof.
  intros Hlog Htable Hk Hp Hlen Hs. apply analyze_accounts in Hs. pose proof (account_distinct rs _ Hs) as Hd.
  pose proof (account_groups logstep_all log10 modules rs _ Hk Hs) as Hg. generalize dependent (ex_analysis s). intros a Ha Hd Hg.
  assert (Hends : ends (stopped_by_times a) (stattest_write_all log10 student_t_table logstep_all a) (λ _, True)).
  { apply collect_ends. intros w _. apply collect_ends. intros [[k1 p1] [k2 p2]] Hc. pose proof (comparisons_in _ _ _ Hc) as [H1 H2].
    unfold in_list in H1, H2. cbn [fst snd] in H1, H2. destruct H1 as (n1 & Hn1 & <- & Hp1), H2 as (n2 & Hn2 & <- & Hp2).
    pose proof (Hg w (bk_key n1) (pt_test p1)) as Hg1. rewrite (find_group_elem n1 p1 _ (Hd w) Hn1 Hp1) in Hg1.
    pose proof (Hg w (bk_key n2) (pt_test p2)) as Hg2. rewrite (find_group_elem n2 p2 _ (Hd w) Hn2 Hp2) in Hg2.
    assert (∀ k t, Z.of_nat (length (run_group logstep_all modules w k t rs)) ≤ runs_max) as Hmax.
    { intros k t. rewrite <- (listed_perm rs) in Hlen at 1. etransitivity; [|exact Hlen]. apply inj_le, rgroup_length.
      rewrite listed_perm. apply List.Forall_forall. intros r Hr. rewrite List.Forall_forall in Hk, Hp. by apply run_key_counts; [apply Hk|apply Hp]. }
    unfold write_compared. cbn [fst snd]. eapply ends_mono; [eapply (stattest_ends log10 student_t_table logstep_all Hlog Htable); [apply Hg1|apply Hg2|by apply compare_nested|apply Hmax..]| |done].
    intros f Hf. exists w, ((bk_key n1, p1), (bk_key n2, p2)). done. }
  destruct (stattest_write_all _ _ _ a) as [rows|f] eqn:E; [|exact Hends]. clear -E. unfold stattest_write_all in E.
  revert rows E. generalize all_lists. intros l. induction l as [|w l IH]; intros rows; cbn [collect]; [by intros [= <-]|].
  intros (x & Hx & H)%res_bind_inv. apply res_bind_inv in H as (xs & Hxs & [= <-]). rewrite !fmap_cons. f_equal; [|by apply IH].
  by apply collect_length in Hx.
Qed.
End Reports.

(** ** The comparison that is never made *)

(** The source means [<ALL>] to be compared with every other group, but the condition asks the
    same class twice, and [<ALL>] is sorted before the groups it could be compared with. *)
Lemma all_not_compared k t1 t2 : k ≠ "<ALL>" → set_compare "<ALL>" t1 k t2 = set_invalid.
Proof.
  intros Hk. unfold set_compare, compare_keys. rewrite (bool_decide_false ("<ALL>" = k)) by congruence.
  pose proof (classify_key k) as Hc. by destruct (key_classify k).
Qed.
Lemma all_sorted_first k : starts_angle k = false ∨ k ∈ ["<FAULTY>"; "<GOLDEN>"; "<MULTIPLE>"; "<NONE>"; "<UNKNOWN>"] →
  keystrcmp (Some "<ALL>") (Some k) = Ret (-1).
Proof.
  intros [H|H]; [cbn [keystrcmp]; rewrite H; done|]. repeat (apply elem_of_cons in H as [->|H]; [reflexivity|]). by apply not_elem_of_nil in H.
Qed.

Lemma nodes_sorted (L : list (by_key stats_aggregate)) : StronglySorted (λ n m, lex (key_norm (Some (bk_key n))) (key_norm (Some (bk_key m))) ≤ 0) (qsort_entries node_compare L).
Proof.
  pose proof (qsort_entries_sorted (node_compare (S := stats_aggregate)) L) as H.
  assert (∀ n m : by_key stats_aggregate, node_compare n m = lex (key_norm (Some (bk_key n))) (key_norm (Some (bk_key m)))) as E.
  { intros n m. unfold node_compare. by rewrite keystrcmp_norm. }
  assert (∀ l : list (by_key stats_aggregate), StronglySorted (λ n m, node_compare n m ≤ 0) l → StronglySorted (λ n m, lex (key_norm (Some (bk_key n))) (key_norm (Some (bk_key m))) ≤ 0) l) as Himpl.
  { induction 1 as [|n l Hl IH Hn]; constructor; [done|]. eapply List.Forall_impl; [|exact Hn]. cbn beta. intros m. by rewrite E. }
  apply Himpl, H; intros *; rewrite !E; [apply lex_trans|apply lex_antisym].
Qed.

(** ** An experiment *)

(** A logarithm that rounds down to whole numbers, and a table with two rows. *)
Definition demo_log10 (p : double) : double :=
  double_of_int (if dlt p (literal (1, 4)) then -5 else if dlt p (literal (1, 3)) then -4 else if dlt p (literal (1, 2)) then -3 else -2).
Definition demo_t_table : list (double * list double) := [(zero, replicate 53 one); (double_of_int 10, replicate 53 (literal (1, 6)))].

Lemma demo_proper : Forall (proper false []) demo_experiment.
Proof. unfold demo_experiment. rewrite !Forall_app. split_and!; apply Forall_replicate; intros w; destruct w; vm_compute; repeat constructor. Qed.
Lemma demo_log10_ok : log10_ok demo_log10.
Proof. intros p _ _ _. unfold demo_log10. repeat case_match; eexists; (split; [vm_compute; reflexivity|lia]). Qed.

Lemma reports_complete_witness :
  let a := ex_analysis (ret_or experiment_zero (analyze false false demo_log10 [] "" None demo_experiment)) in
  ∃ rows, stattest_write_all demo_log10 demo_t_table false a = Ret rows ∧
    length <$> rows = (λ w, length (comparisons (compare_cross_system w) (an_lists a w))) <$> all_lists.
Proof.
  intros a. assert (E : is_ret (stattest_write_all demo_log10 demo_t_table false a) = true) by (vm_compute; reflexivity).
  pose proof (reports_complete false false demo_log10 [] "" None demo_t_table demo_experiment
    (ret_or experiment_zero (analyze false false demo_log10 [] "" None demo_experiment)) demo_log10_ok) as H.
  destruct (stattest_write_all demo_log10 demo_t_table false a) as [rows|f] eqn:Es; [|discriminate E]. exists rows. split; [reflexivity|].
  unfold a in Es. rewrite Es in H. apply H.
  - split; [cbn; lia|by repeat constructor].
  - exact demo_has_keys.
  - exact demo_proper.
  - apply Z.leb_le. vm_compute. reflexivity.
  - apply is_ret_or. vm_compute. reflexivity.
Defined.

(** Two groups in which every run takes the same time: 7 runs of 0.7 s and 5 of 0.1 s.  By rounding, the
    variances have different signs and add up to less than zero, so that t is no number; the p-value, which is
    none either, does not count as insignificant and is converted to [int]. *)
Definition same_time (n : nat) (time : double) : stats_aggregate :=
  let d := ret_or aggregate_double_zero (double_add_all (replicate n time)) in
  {| sg_n := sg_n stats_aggregate_zero; sg_passed_neither := 0; sg_passed_pre := 0; sg_passed_post := 0; sg_passed_both := 0;
     sg_activated := 0; sg_valid := 0; sg_crash := 0; sg_step_reached := λ _ _, 0; sg_time_diff := λ _ _, d; sg_time_diff_z := λ _ _, zscore_zero;
     sg_module_fault_act_count := aggregate_int_zero; sg_fault_act_count := aggregate_int_zero; sg_fault_act_count_log10 := aggregate_double_zero;
     sg_fault_act_count_bins := replicate 12 0; sg_module_restart_count := aggregate_int_zero; sg_restart_count := aggregate_int_zero;
     sg_restart_count_bins := replicate 12 0 |}.
Lemma equal_times_stop_report :
  time_diff (λ p, p) demo_t_table "<ALL>" (Some "linux", None) (same_time 7 (literal (7, 1))) "<ALL>" (Some "minix", None) (same_time 5 (literal (1, 1)))
    set_disjoint (logstep_qemu_start, logstep_before_sanity_pre) = Stop FOverflow.
Proof. vm_compute. reflexivity. Qed.
