(* ===== verification/SerialAnalyze.v ===== *)
(** * Times from serial logs: [serialanalyze/serialanalyze.c]

    The tool reads the output of [time] from the serial logs of repeated runs.  The n-th log of
    every directory belongs to the n-th run, whose times are added up.  A file is the string of
    its bytes. *)

From Stdlib Require Import ZArith Lia Ascii String Floats.SpecFloat.
From stdpp Require Import base list numbers strings.
From S2P Require Import Prelude Decimal LogFmt Helper Double Stats.
Set Default Proof Using "Type".

Record times := { t_real : double; t_system : double; t_user : double }.
Definition times_zero : times := {| t_real := Double.zero; t_system := Double.zero; t_user := Double.zero |}.

(** ** Lines *)

Definition newline : ascii := "010".
(** The characters of a line that fit [size], whether the file ended, and what follows. *)
Fixpoint readline (size : nat) (file : string) : string * bool * string :=
  match file with
  | EmptyString => (EmptyString, true, EmptyString)
  | String c file' =>
      if Ascii.eqb c newline then (EmptyString, false, file')
      else if (1 <? size)%nat then
        let '(line, eof, rest) := readline (size - 1) file' in (String c line, eof, rest)
      else let '(line, eof, rest) := readline size file' in (line, eof, rest)
  end.

(** ** Parsing; [None] is a failure *)

Definition is_space (c : ascii) : bool := Ascii.eqb c " " || Ascii.eqb c "009".
Fixpoint skip_space (s : string) : string := match s with String c s' => if is_space c then skip_space s' else s | EmptyString => s end.
Definition parse_space (s : string) : option string :=
  match s with String c s' => if is_space c then Some (skip_space s') else None | EmptyString => None end.
Fixpoint parse_str (s match_ : string) {struct match_} : option string :=
  match match_ with
  | EmptyString => Some s
  | String m match' => match s with String c s' => if Ascii.eqb c m then parse_str s' match' else None | EmptyString => None end
  end.

(** The value, the number of digits and what follows. *)
Fixpoint parse_int_loop (value : Z) (len : nat) (s : string) : res (Z * nat * string) :=
  match s with
  | String c s' =>
      if is_digit c then
        let! v := chk32 (value * 10) in
        let! v := chk32 (v + uchar c) in
        parse_int_loop (v - 48) (S len) s'
      else Ret (value, len, s)
  | EmptyString => Ret (value, len, s)
  end.
Definition parse_int (s : string) : res (Z * nat * string) := parse_int_loop 0 0 s.

Definition time_value (v1 v2 v3 : Z) : res double :=
  let! m := chk32 (v1 * 60) in
  let! n := chk32 (m + v2) in
  Ret (dadd (double_of_int n) (ddiv (double_of_int v3) (double_of_int 100))).
(** After the minutes and seconds: the point and two digits. *)
Definition parse_hundredths (v1 v2 : Z) (s : string) : res (option (double * string)) :=
  match parse_str s "." with
  | None => Ret None
  | Some s =>
      let! r3 := parse_int s in
      if negb (r3.1.2 =? 2)%nat then Ret None
      else let! t := time_value v1 v2 r3.1.1 in Ret (Some (t, r3.2))
  end.
Definition parse_time (s : string) : res (option (double * string)) :=
  let! r1 := parse_int s in
  if (r1.1.2 <? 1)%nat then Ret None
  else
    match parse_str r1.2 ":" with
    | Some s =>
        let! r2 := parse_int s in
        if (r2.1.2 <? 1)%nat then Ret None else parse_hundredths r1.1.1 r2.1.1 r2.2
    | None => parse_hundredths 0 r1.1.1 r1.2
    end.

(** [&&] of parsers. *)
Definition and_then {A B} (m : res (option A)) (k : A → res (option B)) : res (option B) :=
  let! o := m in match o with Some x => k x | None => Ret None end.
Notation "'let?' x ':=' m 'in' k" := (and_then m (λ x, k)) (at level 10, x name, m at level 100, k at level 200).

Definition processstr_minix (s : string) : res (option times) :=
  let? s := Ret (parse_space s) in
  let? real := parse_time s in
  let? s := Ret (parse_str real.2 " real") in
  let? s := Ret (parse_space s) in
  let? user := parse_time s in
  let? s := Ret (parse_str user.2 " user") in
  let? s := Ret (parse_space s) in
  let? system := parse_time s in
  let? s := Ret (parse_str system.2 " sys") in
  Ret (Some {| t_real := real.1; t_system := system.1; t_user := user.1 |}).
Definition processstr_linux (s : string) : res (option times) :=
  let? user := parse_time s in
  let? s := Ret (parse_str user.2 "user ") in
  let? system := parse_time s in
  let? s := Ret (parse_str system.2 "system ") in
  let? real := parse_time s in
  let? s := Ret (parse_str real.2 "elapsed ") in
  Ret (Some {| t_real := real.1; t_system := system.1; t_user := user.1 |}).
Definition processstr (s : string) : res (option times) :=
  let! o := processstr_linux s in
  match o with Some t => Ret (Some t) | None => processstr_minix s end.

(** ** Times *)

Definition timesadd (dst src : times) : times :=
  {| t_real := dadd (t_real dst) (t_real src); t_system := dadd (t_system dst) (t_system src); t_user := dadd (t_user dst) (t_user src) |}.
Definition timesadd2 (dst src : times) : times :=
  {| t_real := dadd (t_real dst) (dmul (t_real src) (t_real src)); t_system := dadd (t_system dst) (dmul (t_system src) (t_system src));
     t_user := dadd (t_user dst) (dmul (t_user src) (t_user src)) |}.
Definition hundred : double := double_of_int 100.
Definition timespct (src : times) : times :=
  if dlt Double.zero (t_real src) then
    {| t_real := ddiv (dmul (dadd (t_system src) (t_user src)) hundred) (t_real src);
       t_system := ddiv (dmul (t_system src) hundred) (t_real src);
       t_user := ddiv (dmul (t_user src) hundred) (t_real src) |}
  else times_zero.
Definition timesaddpct (dst src : times) : times := timesadd dst (timespct src).
Definition timesaddpct2 (dst src : times) : times := timesadd2 dst (timespct src).

(** ** Files *)

Definition line_size : nat := Z.to_nat 4096.
(** The times so far, whether the file goes on, and the rest of it. *)
Definition processline (file : string) (t : times) : res (times * bool * string) :=
  let '(line, eof, rest) := readline line_size file in
  let! o := processstr line in
  Ret (match o with Some x => timesadd t x | None => t end, negb eof, rest).
Fixpoint processfile_loop (fuel : nat) (file : string) (t : times) : res times :=
  match fuel with
  | O => Stop FFuel
  | S fuel =>
      let! r := processline file t in
      if r.1.2 then processfile_loop fuel r.2 r.1.1 else Ret r.1.1
  end.
Definition processfile (file : string) (t : times) : res times := processfile_loop (S (String.length file)) file t.

(** ** Directories and runs *)

Record state := { dirs : list (string * Z); timeslist : list (Z * times) }.
Definition state_zero : state := {| dirs := []; timeslist := [] |}.

Definition PATH_MAX : nat := Z.to_nat 4096.
Fixpoint last_slash_at (s : string) : option nat :=
  match s with
  | EmptyString => None
  | String c s' => match last_slash_at s' with Some i => Some (S i) | None => if Ascii.eqb c "/" then Some O else None end
  end.
Definition dirnamecpy (src : string) (size : nat) : string :=
  let len := default O (last_slash_at src) in
  String.substring 0 (if (size <=? len)%nat then size - 1 else len)%nat src.

(** [dirindexget] and [dirindex->index++]: the index before, and the directories after. *)
Fixpoint next_index (path : string) (l : list (string * Z)) : option (res (Z * list (string * Z))) :=
  match l with
  | [] => None
  | (p, i) :: l' =>
      if decide (path = p) then Some (let! i' := chk32 (i + 1) in Ret (i, (p, i') :: l'))
      else match next_index path l' with Some m => Some (let! r := m in Ret (r.1, (p, i) :: r.2)) | None => None end
  end.
Definition dirindexget (path : string) (l : list (string * Z)) : res (Z * list (string * Z)) :=
  match next_index path l with Some m => m | None => Ret (0, (path, 1) :: l) end.

(** [timeslistget], and what is done to the entry: the one at the index, or a new one at the end. *)
Fixpoint on_entry (index : Z) (k : Z * times → res (Z * times)) (l : list (Z * times)) : res (list (Z * times)) :=
  match l with
  | [] => let! e := k (0, times_zero) in Ret [e]
  | e :: l' => if index =? 0 then let! e := k e in Ret (e :: l') else let! l' := on_entry (index - 1) k l' in Ret (e :: l')
  end.

(** [processpath], with the contents of the file. *)
Definition processpath (st : state) (f : string * option string) : res state :=
  match f.2 with
  | None => Stop (FExit (-1))
  | Some file =>
      let! d := dirindexget (dirnamecpy f.1 PATH_MAX) (dirs st) in
      assert! (0 <=? d.1) in
      let! l := on_entry d.1 (λ e, let! n := chk32 (e.1 + 1) in let! t := processfile file e.2 in Ret (n, t)) (timeslist st) in
      Ret {| dirs := d.2; timeslist := l |}
  end.
Definition processpaths (fs : list (string * option string)) : res state := res_foldl processpath state_zero fs.

(** ** The tables with [-v] *)

Definition print_dirs (st : state) : list (Z * string) := (λ d, (d.2, d.1)) <$> dirs st.
Definition printpct (part total : double) : option double := if dlt Double.zero total then Some (ddiv (dmul part hundred) total) else None.
Definition per_run_header : list string := ["n"; "index"; "real"; "system"; "user"; "system-pct"; "user-pct"; "cpu-pct"].
Definition per_run_row (index : nat) (e : Z * times) : Z * Z * list (option double) :=
  (e.1, Z.of_nat index,
   [Some (t_real e.2); Some (t_system e.2); Some (t_user e.2); printpct (t_system e.2) (t_real e.2); printpct (t_user e.2) (t_real e.2);
    printpct (dadd (t_system e.2) (t_user e.2)) (t_real e.2)]).
Definition print_times_per_run (st : state) : list (Z * Z * list (option double)) := imap per_run_row (timeslist st).

(** ** The totals *)

Definition total_header : list string :=
  ["n"; "real-mean"; "real-stdev"; "system-mean"; "system-stdev"; "user-mean"; "user-stdev"; "system-pct-mean"; "system-pct-stdev";
   "user-pct-mean"; "user-pct-stdev"; "total-pct-mean"; "total-pct-stdev"].
(** A field that may stay empty. *)
Definition avg_field (n : Z) (sum : double) : option double := if n <? 1 then None else Some (ddiv sum (double_of_int n)).
Definition stdev_field (n : Z) (sum sum2 : double) : option double :=
  if n <? 2 then None else Some (dsqrt (ddiv (dsub sum2 (ddiv (dmul sum sum) (double_of_int n))) (double_of_int (n - 1)))).
Definition print_times_total (st : state) : Z * list (option double) :=
  let ts := (timeslist st).*2 in
  let n := Z.of_nat (length ts) in
  let t := foldl timesadd times_zero ts in
  let t2 := foldl timesadd2 times_zero ts in
  let pct := foldl timesaddpct times_zero ts in
  let pct2 := foldl timesaddpct2 times_zero ts in
  (n, [avg_field n (t_real t); stdev_field n (t_real t) (t_real t2); avg_field n (t_system t); stdev_field n (t_system t) (t_system t2);
       avg_field n (t_user t); stdev_field n (t_user t) (t_user t2); avg_field n (t_real pct); stdev_field n (t_real pct) (t_real pct2);
       avg_field n (t_system pct); stdev_field n (t_system pct) (t_system pct2); avg_field n (t_user pct); stdev_field n (t_user pct) (t_user pct2)]).

(** ** Every line is looked at *)

Fixpoint split_lines (s : string) : list string :=
  match s with
  | EmptyString => [EmptyString]
  | String c s' =>
      if Ascii.eqb c newline then EmptyString :: split_lines s'
      else match split_lines s' with l :: ls => String c l :: ls | [] => [] end
  end.
Definition add_line (t : times) (line : string) : res times :=
  let! o := processstr (str_take (line_size - 1) line) in Ret (match o with Some x => timesadd t x | None => t end).

Lemma split_lines_cons s : ∃ l ls, split_lines s = l :: ls.
Proof. induction s as [|c s (l & ls & E)]; cbn; [eauto|]. case_match; [eauto|]. rewrite E. eauto. Qed.

Lemma readline_spec size s l ls : (1 ≤ size)%nat → split_lines s = l :: ls →
  ∃ rest, readline size s = (str_take (size - 1) l, bool_decide (ls = []), rest) ∧ (ls ≠ [] → split_lines rest = ls ∧ (String.length rest < String.length s)%nat).
Proof.
  revert size l ls. induction s as [|c s IH]; intros size l ls Hsize; cbn [split_lines readline].
  - intros [= <- <-]. eexists. split; [|done]. rewrite bool_decide_true by done. by destruct (size - 1)%nat.
  - destruct (Ascii.eqb c newline).
    + intros [= <- <-]. destruct (split_lines_cons s) as (l' & ls' & E). exists s. rewrite E. rewrite bool_decide_false by done.
      split; [by destruct (size - 1)%nat|]. cbn. split; [done|lia].
    + destruct (split_lines_cons s) as (l' & ls' & E). rewrite E. intros [= <- <-]. destruct (Nat.ltb_spec 1 size).
      * destruct (IH (size - 1)%nat l' ls' ltac:(lia) E) as (rest & -> & Hr). exists rest. split.
        { destruct (size - 1)%nat as [|n] eqn:En; [lia|]. cbn [str_take]. replace (S n - 1)%nat with n by lia. done. }
        intros Hne. destruct (Hr Hne). split; [done|cbn; lia].
      * destruct (IH size l' ls' Hsize E) as (rest & -> & Hr). exists rest. assert (size = 1%nat) as -> by lia. split; [done|].
        intros Hne. destruct (Hr Hne). split; [done|cbn; lia].
Qed.

Lemma processfile_loop_spec fuel file t ls : (String.length file < fuel)%nat → split_lines file = ls → processfile_loop fuel file t = res_foldl add_line t ls.
Proof.
  revert file t ls. induction fuel as [|fuel IH]; intros file t ls Hf E; [lia|]. cbn [processfile_loop]. unfold processline.
  destruct (split_lines_cons file) as (l & ls' & E'). rewrite E' in E. subst ls.
  destruct (readline_spec line_size file l ls') as (rest & -> & Hr); [unfold line_size; lia|done|].
  cbn [res_foldl]. unfold add_line at 1. destruct (processstr (str_take (line_size - 1) l)) as [o|f]; [|done]. cbn [res_bind fst snd].
  destruct ls' as [|l' ls']; [done|]. rewrite bool_decide_false by done. cbn [negb]. destruct (Hr ltac:(done)) as [E2 Hlen]. apply IH; [lia|done].
Qed.

Lemma processfile_lines file t : processfile file t = res_foldl add_line t (split_lines file).
Proof. apply processfile_loop_spec; [lia|done]. Qed.

(** ** Only overflow stops the tool *)

Lemma parse_int_safe s : safe (parse_int s) (λ _, True).
Proof.
  unfold parse_int. generalize 0 O. induction s as [|c s IH]; intros v n; cbn [parse_int_loop]; [done|]. case_match; [|done].
  eapply safe_bind; [apply safe_chk32|]. intros x _. eapply safe_bind; [apply safe_chk32|]. intros y _. apply IH.
Qed.

Lemma parse_hundredths_safe v1 v2 s : safe (parse_hundredths v1 v2 s) (λ _, True).
Proof.
  unfold parse_hundredths. case_match; [|done]. eapply safe_bind; [apply parse_int_safe|]. intros r _. case_match; [done|].
  unfold time_value. eapply (safe_bind _ _ (λ _, True)); [|done]. eapply safe_bind; [apply safe_chk32|]. intros x _.
  eapply safe_bind; [apply safe_chk32|]. done.
Qed.

Lemma parse_time_safe s : safe (parse_time s) (λ _, True).
Proof.
  unfold parse_time. eapply safe_bind; [apply parse_int_safe|]. intros r _. case_match; [done|]. case_match; [|apply parse_hundredths_safe].
  eapply safe_bind; [apply parse_int_safe|]. intros r2 _. case_match; [done|]. apply parse_hundredths_safe.
Qed.

Lemma and_then_safe {A B} (m : res (option A)) (k : A → res (option B)) : safe m (λ _, True) → (∀ x, safe (k x) (λ _, True)) → safe (and_then m k) (λ _, True).
Proof. intros Hm Hk. eapply safe_bind; [exact Hm|]. intros [x|] _; [apply Hk|done]. Qed.

Lemma processstr_safe s : safe (processstr s) (λ _, True).
Proof.
  unfold processstr. eapply (safe_bind _ _ (λ _, True)); [unfold processstr_linux|intros [t|] _; [done|unfold processstr_minix]];
    repeat (apply and_then_safe; [done || apply parse_time_safe|]; intros ?); done.
Qed.

Lemma processfile_safe file t : safe (processfile file t) (λ _, True).
Proof.
  rewrite processfile_lines. apply (safe_foldl add_line (λ _, True)); [done|]. intros x l _ _. unfold add_line.
  eapply safe_bind; [apply processstr_safe|]. done.
Qed.

(** ** Times are read as they are printed *)

Lemma read_dec_ge s v : 0 ≤ v → v ≤ (read_dec v s).1.
Proof.
  revert v. induction s as [|c s IH]; intros v Hv; cbn [read_dec]; [done|]. destruct (is_digit c) eqn:E; [|done].
  pose proof (is_digit_val c E). specialize (IH (v * 10 + digit_val c) ltac:(lia)). lia.
Qed.

Lemma parse_int_read s v n : 0 ≤ v → (read_dec v s).1 < 2^31 - 60 →
  parse_int_loop v n s = Ret ((read_dec v s).1, (n + (String.length s - String.length (read_dec v s).2))%nat, (read_dec v s).2) ∧
  (String.length (read_dec v s).2 ≤ String.length s)%nat.
Proof.
  revert v n. induction s as [|c s IH]; intros v n Hv Hb; cbn [parse_int_loop read_dec] in *.
  - cbn. rewrite Nat.add_0_r. split; [done|lia].
  - destruct (is_digit c) eqn:E.
    + pose proof (is_digit_val c E) as Hd. pose proof (read_dec_ge s (v * 10 + digit_val c) ltac:(lia)).
      assert (uchar c = digit_val c + 48) as Hu by (unfold uchar, digit_val; lia).
      rewrite chk32_ok by lia. cbn [res_bind]. rewrite chk32_ok by lia. cbn [res_bind]. replace (v * 10 + uchar c - 48) with (v * 10 + digit_val c) by lia.
      destruct (IH (v * 10 + digit_val c) (S n) ltac:(lia) Hb) as [-> Hl]. split; [|cbn; lia]. do 3 f_equal. cbn [String.length]. lia.
    + cbn [fst snd]. rewrite Nat.sub_diag, Nat.add_0_r. split; [done|lia].
Qed.

Lemma parse_int_print n s : 0 ≤ n < 2^31 - 60 → starts_with_digit s = false →
  parse_int (print_dec n +:+ s) = Ret (n, String.length (print_dec n), s) ∧ (1 ≤ String.length (print_dec n))%nat.
Proof.
  intros Hn Hs. pose proof (read_print_dec n s ltac:(lia) Hs) as E. destruct (parse_int_read (print_dec n +:+ s) 0 0) as [H _]; [done|rewrite E; cbn; lia|].
  unfold parse_int. rewrite H, E. cbn [fst snd]. split; [do 3 f_equal; rewrite string_length_app; lia|].
  pose proof (print_dec_starts n ltac:(lia)) as Hst. destruct (print_dec n); [done|cbn; lia].
Qed.

Lemma parse_str_app m s : parse_str (m +:+ s) m = Some s.
Proof. induction m as [|c m IH]; [done|]. cbn. by rewrite Ascii.eqb_refl. Qed.

(** A time as it is printed, with minutes or without. *)
Record clock := { c_min : option Z; c_sec : Z; c_cent : Z }.
Definition two_digits (n : Z) : string := String (digit_char (n / 10)) (String (digit_char (n mod 10)) "").
Definition clock_text (c : clock) : string :=
  (match c_min c with Some m => print_dec m +:+ ":" | None => "" end) +:+ print_dec (c_sec c) +:+ "." +:+ two_digits (c_cent c).
Definition clock_ok (c : clock) : Prop := 0 ≤ default 0 (c_min c) < 10^6 ∧ 0 ≤ c_sec c < 10^6 ∧ 0 ≤ c_cent c < 100.
Definition clock_value (c : clock) : double :=
  dadd (double_of_int (default 0 (c_min c) * 60 + c_sec c)) (ddiv (double_of_int (c_cent c)) (double_of_int 100)).

Lemma parse_two_digits n s : 0 ≤ n < 100 → starts_with_digit s = false → parse_int (two_digits n +:+ s) = Ret (n, 2%nat, s).
Proof.
  intros Hn Hs. assert (0 ≤ n / 10 < 10) by (split; [apply Z.div_pos; lia|apply Z.div_lt_upper_bound; lia]). pose proof (Z.mod_pos_bound n 10 ltac:(lia)).
  assert (read_dec 0 (two_digits n +:+ s) = (n, s)) as E.
  { unfold two_digits. cbn [String.append read_dec]. rewrite !is_digit_char, !digit_val_char by lia.
    pose proof (Z.div_mod n 10 ltac:(lia)). replace ((0 * 10 + n / 10) * 10 + n mod 10) with n by lia. destruct s as [|c s]; [done|]. cbn in *. by rewrite Hs. }
  destruct (parse_int_read (two_digits n +:+ s) 0 0) as [He _]; [done|rewrite E; cbn; lia|]. unfold parse_int. rewrite He, E. cbn [fst snd].
  do 3 f_equal. unfold two_digits. cbn [String.append String.length]. lia.
Qed.

Lemma parse_clock c s : clock_ok c → starts_with_digit s = false → parse_time (clock_text c +:+ s) = Ret (Some (clock_value c, s)).
Proof.
  intros (Hm & Hsec & Hc) Hs.
  assert (∀ v1, 0 ≤ v1 < 10^6 → parse_hundredths v1 (c_sec c) ("." +:+ two_digits (c_cent c) +:+ s) =
    Ret (Some (dadd (double_of_int (v1 * 60 + c_sec c)) (ddiv (double_of_int (c_cent c)) (double_of_int 100)), s))) as Hh.
  { intros v1 H1. unfold parse_hundredths. rewrite parse_str_app, parse_two_digits by done. cbn [res_bind fst snd Nat.eqb negb].
    unfold time_value. do 2 (rewrite chk32_ok by lia; cbn [res_bind]). done. }
  unfold parse_time, clock_text, clock_value. destruct (c_min c) as [m|]; cbn [default] in *; unfold id in *.
  - rewrite !string_app_assoc. destruct (parse_int_print m (":" +:+ (print_dec (c_sec c) +:+ "." +:+ two_digits (c_cent c) +:+ s))) as [-> Hl]; [lia|done|].
    cbn [res_bind fst snd]. destruct (Nat.ltb_spec (String.length (print_dec m)) 1); [lia|]. rewrite parse_str_app.
    destruct (parse_int_print (c_sec c) ("." +:+ two_digits (c_cent c) +:+ s)) as [-> Hl2]; [lia|done|]. cbn [res_bind fst snd].
    destruct (Nat.ltb_spec (String.length (print_dec (c_sec c))) 1); [lia|]. by apply Hh.
  - change ("" +:+ ?x) with x. rewrite !string_app_assoc. destruct (parse_int_print (c_sec c) ("." +:+ two_digits (c_cent c) +:+ s)) as [-> Hl2]; [lia|done|].
    cbn [res_bind fst snd]. destruct (Nat.ltb_spec (String.length (print_dec (c_sec c))) 1); [lia|]. apply (Hh 0). lia.
Qed.

Lemma parse_spaces s : parse_space ("  " +:+ s) = Some (skip_space s).
Proof. done. Qed.

(** The lines [time] prints on Linux and on MINIX. *)
Definition linux_line (user system real : clock) (rest : string) : string :=
  clock_text user +:+ "user " +:+ clock_text system +:+ "system " +:+ clock_text real +:+ "elapsed " +:+ rest.
Definition minix_line (real user system : clock) (rest : string) : string :=
  "  " +:+ clock_text real +:+ " real  " +:+ clock_text user +:+ " user  " +:+ clock_text system +:+ " sys" +:+ rest.

(** What [time] printed is read as the times it measured. *)
Theorem times_read_back real user system rest : clock_ok real → clock_ok user → clock_ok system →
  let t := {| t_real := clock_value real; t_system := clock_value system; t_user := clock_value user |} in
  processstr (linux_line user system real rest) = Ret (Some t) ∧ processstr (minix_line real user system rest) = Ret (Some t).
Proof.
  intros Hr Hu Hs t. assert (∀ c s, clock_ok c → starts_with_digit s = false → parse_time (clock_text c +:+ s) = Ret (Some (clock_value c, s))) as Hp
    by (intros; by apply parse_clock).
  assert (∀ c s, clock_ok c → skip_space (clock_text c +:+ s) = clock_text c +:+ s) as Hskip.
  { intros c s (Hm & Hsec & _). unfold clock_text.
    assert (∀ n x, 0 ≤ n → skip_space (print_dec n +:+ x) = print_dec n +:+ x) as Hd.
    { intros n x Hn. pose proof (print_dec_starts n Hn) as Hst. destruct (print_dec n) as [|d y]; [done|]. cbn in *. unfold is_space.
      destruct (Ascii.eqb_spec d " ") as [->|]; [done|]. destruct (Ascii.eqb_spec d "009") as [->|]; [done|]. done. }
    destruct (c_min c) as [m|]; rewrite !string_app_assoc; cbn [String.append]; apply Hd; cbn in Hm; unfold id in Hm; lia. }
  split; unfold processstr.
  - unfold processstr_linux, linux_line. rewrite (Hp user) by done. cbn [and_then res_bind fst snd]. rewrite parse_str_app. cbn [and_then res_bind].
    rewrite (Hp system) by done. cbn [and_then res_bind fst snd]. rewrite parse_str_app. cbn [and_then res_bind]. rewrite (Hp real) by done.
    cbn [and_then res_bind fst snd]. rewrite parse_str_app. done.
  - assert (processstr_linux (minix_line real user system rest) = Ret None) as -> by done. cbn [res_bind]. unfold processstr_minix, minix_line.
    change (" real  " +:+ ?x) with (" real" +:+ ("  " +:+ x)). change (" user  " +:+ ?x) with (" user" +:+ ("  " +:+ x)).
    do 3 (rewrite parse_spaces, Hskip by done; cbn [and_then res_bind]; rewrite Hp by done; cbn [and_then res_bind fst snd];
      rewrite parse_str_app; cbn [and_then res_bind]). done.
Qed.

(** ** The n-th file of every directory belongs to the n-th run *)

Definition log : Type := string * option string.
Definition dir_of (f : log) : string := dirnamecpy f.1 PATH_MAX.
Definition rank (d : string) (fs : list log) : nat := length (filter (λ f, dir_of f = d) fs).
(** The files of a run, after those of [seen]. *)
Fixpoint run_from (seen : list log) (i : nat) (fs : list log) : list log :=
  match fs with
  | [] => []
  | f :: fs' => (if decide (rank (dir_of f) seen = i) then [f] else []) ++ run_from (seen ++ [f]) i fs'
  end.
Definition run_files : nat → list log → list log := run_from [].

Definition add_file (t : times) (f : log) : res times :=
  match f.2 with Some file => processfile file t | None => Stop (FExit (-1)) end.
(** The entry of a run counts its files and has the sum of the times in them. *)
Definition run_entry (fs : list log) (e : Z * times) : Prop := e.1 = Z.of_nat (length fs) ∧ res_foldl add_file times_zero fs = Ret e.2.

Fixpoint dir_index (d : string) (l : list (string * Z)) : Z :=
  match l with (p, i) :: l' => if decide (d = p) then i else dir_index d l' | [] => 0 end.

Record run_inv (fs : list log) (st : state) : Prop := {
  inv_dirs d : dir_index d (dirs st) = Z.of_nat (rank d fs);
  inv_runs i e : timeslist st !! i = Some e → run_entry (run_files i fs) e;
  inv_len i : (i < length (timeslist st))%nat ↔ run_files i fs ≠ [] }.

Lemma run_from_snoc seen i fs f : run_from seen i (fs ++ [f]) = run_from seen i fs ++ (if decide (rank (dir_of f) (seen ++ fs) = i) then [f] else []).
Proof.
  revert seen. induction fs as [|g fs IH]; intros seen; cbn [run_from app]; [by rewrite !(right_id_L [] (++))|].
  rewrite IH, <-(assoc_L (++)). cbn [app]. by rewrite <-(assoc_L (++)).
Qed.
Lemma run_files_snoc i fs f : run_files i (fs ++ [f]) = run_files i fs ++ (if decide (rank (dir_of f) fs = i) then [f] else []).
Proof. apply run_from_snoc. Qed.
Lemma rank_snoc d fs f : rank d (fs ++ [f]) = (rank d fs + if decide (dir_of f = d) then 1 else 0)%nat.
Proof. unfold rank. rewrite filter_app, length_app. f_equal. cbn. by case_decide. Qed.

(** A directory with more files than [i] has one in run [i]. *)
Lemma rank_run d fs i : (i < rank d fs)%nat → run_files i fs ≠ [].
Proof.
  induction fs as [|f fs IH] using rev_ind; [cbn; lia|]. rewrite rank_snoc, run_files_snoc. intros Hi.
  destruct (decide (i < rank d fs)%nat) as [Hlt|Hge]; [specialize (IH Hlt); by destruct (run_files i fs)|].
  case_decide; [|lia]. assert (rank (dir_of f) fs = i) as E by (subst d; lia). rewrite decide_True by done. by destruct (run_files i fs).
Qed.

Lemma next_index_spec d l : match next_index d l with
  | Some m => safe m (λ r, r.1 = dir_index d l ∧ ∀ d', dir_index d' r.2 = dir_index d' l + if decide (d = d') then 1 else 0)
  | None => dir_index d l = 0 end.
Proof.
  induction l as [|[p i] l IH]; cbn [next_index dir_index]; [done|]. case_decide as Hd.
  - eapply safe_bind; [apply safe_chk32|]. intros ? ->. cbn. split; [done|]. intros d'. subst p. repeat case_decide; congruence || lia.
  - destruct (next_index d l) as [m|]; [|done]. eapply safe_bind; [exact IH|]. intros r [-> Hr]. cbn. split; [done|]. intros d'.
    case_decide; [|apply Hr]. rewrite decide_False by congruence. lia.
Qed.
Lemma dirindexget_spec d l : safe (dirindexget d l) (λ r, r.1 = dir_index d l ∧ ∀ d', dir_index d' r.2 = dir_index d' l + if decide (d = d') then 1 else 0).
Proof.
  unfold dirindexget. pose proof (next_index_spec d l) as Hn. destruct (next_index d l); [done|]. cbn. split; [done|].
  intros d'. repeat case_decide; subst; congruence || lia.
Qed.

Lemma on_entry_spec n k l P : (n ≤ length l)%nat → safe (k (default (0, times_zero) (l !! n))) P →
  safe (on_entry (Z.of_nat n) k l) (λ l', ∃ e, P e ∧ length l' = (length l `max` S n)%nat ∧ ∀ i, l' !! i = if decide (i = n) then Some e else l !! i).
Proof.
  revert n. induction l as [|e l IH]; intros n Hn Hk; cbn [on_entry].
  - assert (n = O) as -> by (cbn in Hn; lia). eapply safe_bind; [exact Hk|]. intros x Hx. exists x. split_and!; [done..|]. by intros [|i].
  - destruct n as [|n]; cbn [Z.of_nat Z.eqb].
    + eapply safe_bind; [exact Hk|]. intros x Hx. exists x. split_and!; [done|cbn; lia|]. by intros [|i].
    + replace (Z.of_nat (S n) - 1) with (Z.of_nat n) by lia. eapply safe_bind; [apply IH; [cbn in Hn; lia|exact Hk]|].
      intros l' (x & Hx & Hlen & Hl). exists x. split_and!; [done|cbn; lia|]. intros [|i]; [done|]. cbn. rewrite Hl. repeat case_decide; done || lia.
Qed.

Lemma processpath_step fs st f : run_inv fs st → is_Some f.2 → safe (processpath st f) (run_inv (fs ++ [f])).
Proof.
  intros [Hd Hr Hl] [file Ef]. unfold processpath. rewrite Ef. eapply safe_bind; [apply dirindexget_spec|]. intros r [-> Hr']. rewrite Hd. fold (dir_of f) in *.
  destruct (Z.leb_spec 0 (Z.of_nat (rank (dir_of f) fs))) as [_|]; [|lia].
  assert (rank (dir_of f) fs ≤ length (timeslist st))%nat as Hn.
  { destruct (rank (dir_of f) fs) as [|n] eqn:En; [lia|]. apply Hl, (rank_run (dir_of f)). lia. }
  assert (run_entry (run_files (rank (dir_of f) fs) fs) (default (0, times_zero) (timeslist st !! rank (dir_of f) fs))) as He.
  { destruct (timeslist st !! _) as [e|] eqn:E; [by apply Hr|]. apply lookup_ge_None in E.
    destruct (run_files _ fs) as [|g l] eqn:Eg; [done|]. exfalso. assert (rank (dir_of f) fs < length (timeslist st))%nat by (apply Hl; by rewrite Eg). lia. }
  eapply safe_bind; [apply (on_entry_spec _ _ _ (run_entry (run_files (rank (dir_of f) fs) (fs ++ [f])))); [done|]|].
  - destruct (default _ _) as [n t], He as [En Et]. cbn [fst snd] in *. eapply safe_bind; [apply safe_chk32|]. intros ? ->.
    pose proof (processfile_safe file t) as Hs. destruct (processfile file t) as [t'|] eqn:E'; [|done]. cbn. unfold run_entry.
    rewrite run_files_snoc, decide_True, length_app, res_foldl_app, Et by done. cbn. unfold add_file. rewrite Ef. split; [lia|by rewrite E'].
  - intros l (e & He' & Hlen & Hlook). constructor; cbn [dirs timeslist].
    + intros d. rewrite Hr', Hd, rank_snoc. fold (dir_of f). case_decide; lia.
    + intros i e'. rewrite Hlook. case_decide as Ei; [intros [= <-]; by subst i|]. rewrite run_files_snoc, decide_False by done.
      rewrite (right_id_L [] (++)). apply Hr.
    + intros i. rewrite Hlen, run_files_snoc. specialize (Hl i). case_decide as Ei.
      * split; [by destruct (run_files i fs)|lia].
      * rewrite (right_id_L [] (++)), <-Hl. split; [|lia]. intros. lia.
Qed.

(** Files that can be opened are added up, each to the run of its rank in its directory: only integer
    overflow stops the tool, and afterwards there is an entry for exactly the runs that have files, with
    the number of these files and the sum of the times in them, in the order of the command line. *)
Theorem files_by_rank fs : Forall (λ f, is_Some f.2) fs →
  safe (processpaths fs) (λ st,
    (∀ i, is_Some (timeslist st !! i) ↔ run_files i fs ≠ []) ∧
    (∀ i e, timeslist st !! i = Some e → run_entry (run_files i fs) e) ∧
    (∀ d, dir_index d (dirs st) = Z.of_nat (rank d fs))).
Proof.
  intros Hfs. apply (safe_mono _ (run_inv fs)).
  - induction fs as [|f fs IH] using rev_ind; [split; [done..|]; intros i; split; [cbn; lia|done]|]. apply Forall_app in Hfs as [Hfs Hf]. rewrite Forall_singleton in Hf.
    unfold processpaths in *. rewrite res_foldl_app. eapply safe_bind; [apply IH, Hfs|]. intros st Hst. cbn [res_foldl].
    eapply (safe_bind _ _ (run_inv (fs ++ [f]))); [by apply processpath_step|done].
  - intros st [Hd Hr Hl]. split_and!; [|done..]. intros i. rewrite <-Hl. apply lookup_lt_is_Some.
Qed.

(** A file without a line of times still counts for its run; two logs of one directory are two runs. *)
Definition log_text : string := linux_line {| c_min := None; c_sec := 1; c_cent := 5 |} {| c_min := None; c_sec := 0; c_cent := 25 |} {| c_min := Some 1; c_sec := 2; c_cent := 50 |} "(2%CPU)".
Definition example_logs : list log := [("a/1", Some log_text); ("b/1", Some log_text); ("a/2", Some "")].

Lemma files_by_rank_witness : Forall (λ f, is_Some f.2) example_logs ∧
  safe (processpaths example_logs) (λ st,
    (∀ i, is_Some (timeslist st !! i) ↔ run_files i example_logs ≠ []) ∧
    (∀ i e, timeslist st !! i = Some e → run_entry (run_files i example_logs) e) ∧
    (∀ d, dir_index d (dirs st) = Z.of_nat (rank d example_logs))).
Proof. split; [repeat constructor; by eexists|]. apply (files_by_rank example_logs). repeat constructor; by eexists. Defined.

Lemma example_counts : res_bind (processpaths example_logs) (λ st, Ret ((timeslist st).*1, dirs st)) = Ret ([2; 1], [("b", 1); ("a", 2)]).
Proof. vm_compute. reflexivity. Qed.
Lemma example_row : res_bind (processpaths example_logs) (λ st, Ret (t_real <$> (timeslist st).*2)) = Ret [double_of_int 125; Double.zero].
Proof. vm_compute. reflexivity. Qed.

(** ** The totals under their header: percentages of the processor are printed first, under the name of the system's *)

Definition percentage_columns (st : state) : list (string * option double) := drop 6 (zip (drop 1 total_header) (print_times_total st).2).
Definition one_run : state := {| dirs := []; timeslist := [(1, {| t_real := double_of_int 4; t_system := double_of_int 1; t_user := double_of_int 2 |})] |}.
Lemma percentages_shifted : (percentage_columns one_run) !! 0%nat = Some ("system-pct-mean", Some (double_of_int 75)) ∧
  (percentage_columns one_run) !! 4%nat = Some ("total-pct-mean", Some (double_of_int 50)).
Proof. split; vm_compute; reflexivity. Qed.
