(* ===== verification/PathList.v ===== *)
(** * Paths for the table of tests: [minixtestloganalyze/pathlist.c]

    The list has the path of every function of the table and its directories, sorted, each once.
    An entry is the first characters of a path.  Both lists of this tool are made in two passes,
    of which the first counts the entries. *)

From Stdlib Require Import ZArith Lia Ascii String Sorted.
From stdpp Require Import base list numbers sets strings.
From S2P Require Import Prelude Decimal LogFmt Helper Module Function Report.
Set Default Proof Using "Type".

(** ** Two passes *)

Section TwoPass.
Context {A : Type} (zero : A).
Abbreviation pass := (option (list A) * Z)%type.

(** [if (array) array[count] = x; count++;] *)
Definition store (p : pass) (x : A) : res pass :=
  match p.1 with
  | Some l => if (p.2 <? Z.of_nat (length l)) then Ret (Some (<[Z.to_nat p.2 := x]> l), p.2 + 1) else Stop FBounds
  | None => Ret (None, p.2 + 1)
  end.
(** The first pass with a null pointer, the second with the array. *)
Definition two_passes (iterate : pass → res pass) : res (list A) :=
  let! c := iterate (None, 0) in
  let! r := iterate (calloc c.2 zero, 0) in
  assert! (r.2 =? c.2) in
  Ret (default [] r.1).

Lemma store_null l n : res_foldl store (None, n) l = Ret (None, n + Z.of_nat (length l)).
Proof. revert n. induction l as [|x l IH]; intros n; cbn [res_foldl]; [by rewrite Z.add_0_r|]. cbn [store fst snd res_bind]. rewrite IH. do 2 f_equal. cbn. lia. Qed.
Lemma store_array done_ rest l : length rest = length l →
  res_foldl store (Some (done_ ++ rest), Z.of_nat (length done_)) l = Ret (Some (done_ ++ l), Z.of_nat (length (done_ ++ l))).
Proof.
  revert done_ rest. induction l as [|x l IH]; intros d [|y rest] Hlen; try done; cbn [res_foldl]; [by rewrite app_nil_r|].
  unfold store at 1. cbn [fst snd]. destruct (Z.ltb_spec (Z.of_nat (length d)) (Z.of_nat (length (d ++ y :: rest)))) as [_|Hge];
    [|rewrite length_app in Hge; cbn in Hge; lia]. rewrite Nat2Z.id, insert_app_r_alt, Nat.sub_diag by lia. cbn [res_bind insert list_insert].
  replace (d ++ x :: rest) with ((d ++ [x]) ++ rest) by (by rewrite <-app_assoc). injection Hlen as Hlen.
  replace (Z.of_nat (length d) + 1) with (Z.of_nat (length (d ++ [x]))) by (rewrite length_app; cbn; lia). rewrite IH by done.
  by rewrite <-app_assoc.
Qed.

(** Both passes see the same list. *)
Lemma passes_list (iterate : pass → res pass) l : (∀ p, p.2 = 0 → iterate p = res_foldl store p l) →
  let n := Z.of_nat (length l) in iterate (None, 0) = Ret (None, n) ∧ ∃ a, iterate (calloc n zero, 0) = Ret (a, n) ∧ default [] a = l.
Proof.
  intros Hi n. rewrite !Hi by done. rewrite store_null, Z.add_0_l. split; [done|]. unfold calloc.
  destruct l as [|x l]; [by exists None|]. destruct (Z.eqb_spec n 0) as [E|_]; [subst n; cbn in E; lia|].
  pose proof (store_array [] (replicate (Z.to_nat n) zero) (x :: l)) as Hs. change ([] ++ ?y) with y in Hs. change (Z.of_nat (length [])) with 0 in Hs.
  rewrite Hs by (rewrite length_replicate; subst n; lia). by exists (Some (x :: l)).
Qed.
Lemma two_passes_list (iterate : pass → res pass) l : (∀ p, p.2 = 0 → iterate p = res_foldl store p l) → two_passes iterate = Ret l.
Proof.
  intros Hi. destruct (passes_list iterate l Hi) as (H1 & a & H2 & Ha). unfold two_passes. rewrite H1. cbn [res_bind snd]. rewrite H2. cbn [res_bind fst snd].
  by rewrite Z.eqb_refl, Ha.
Qed.
End TwoPass.

(** ** Sorting *)

(** What [qsort] promises for a comparison that orders the elements; elements that compare equal
    are left in any order. *)
Record orders {A} (cmp : A → A → Z) (l : list A) : Prop := {
  ord_total a b : a ∈ l → b ∈ l → cmp a b ≤ 0 ∨ cmp b a ≤ 0;
  ord_trans a b c : a ∈ l → b ∈ l → c ∈ l → cmp a b ≤ 0 → cmp b c ≤ 0 → cmp a c ≤ 0 }.
Class Qsort (qsort : ∀ A, (A → A → Z) → list A → list A) : Prop :=
  qsort_sorts A (cmp : A → A → Z) l : orders cmp l → qsort A cmp l ≡ₚ l ∧ StronglySorted (λ a b, cmp a b ≤ 0) (qsort A cmp l).

Lemma orders_sublist {A} (cmp : A → A → Z) l l' : (∀ x, x ∈ l' → x ∈ l) → orders cmp l → orders cmp l'.
Proof. intros Hl [Ht Htr]. split; eauto. Qed.

Lemma orders_ext {A} (c1 c2 : A → A → Z) l : (∀ a b, a ∈ l → b ∈ l → c1 a b = c2 a b) → orders c1 l → orders c2 l.
Proof.
  intros Hc [Ht Htr]. split.
  - intros a b Ha Hb. rewrite <-!Hc by done. by apply Ht.
  - intros a b c Ha Hb Hd. rewrite <-!Hc by done. by apply Htr.
Qed.

Lemma insert_orders {A} (cmp : A → A → Z) x l : orders cmp (x :: l) → StronglySorted (λ a b, cmp a b ≤ 0) l →
  StronglySorted (λ a b, cmp a b ≤ 0) (insert_entry cmp x l).
Proof.
  intros Ho Hl. induction Hl as [|y l Hl IH Hy]; cbn; [by repeat constructor|]. pose proof Ho as [Ht Htr]. destruct (Z.ltb_spec 0 (cmp x y)) as [Hc|Hc].
  - constructor; [apply IH, (orders_sublist _ (x :: y :: l)); [set_solver|done]|]. rewrite insert_entry_perm. constructor; [|done].
    destruct (Ht x y); [set_solver|set_solver|lia|done].
  - constructor; [by constructor|]. constructor; [done|]. apply Forall_forall. intros z Hz. rewrite Forall_forall in Hy.
    apply (Htr x y z); [set_solver..|done|by apply Hy].
Qed.

#[global] Instance insertion_qsort : Qsort (@qsort_entries).
Proof.
  intros A cmp l Ho. split; [apply qsort_entries_perm|]. induction l as [|x l IH]; cbn; [constructor|].
  apply insert_orders; [|apply IH; eapply orders_sublist; [|exact Ho]; set_solver].
  eapply orders_sublist; [|exact Ho]. intros y. fold (qsort_entries cmp l). by rewrite qsort_entries_perm.
Qed.

(** *** Strings are ordered by [strcmp] *)

Lemma strcmp_anti s t : strcmp t s = - strcmp s t.
Proof.
  revert t. induction s as [|a s IH]; intros [|b t]; cbn; try lia. rewrite (Ascii.eqb_sym b a). destruct (Ascii.eqb a b); [apply IH|lia].
Qed.
Lemma uchar_pos a : Ascii.eqb a "000" = false → 0 < uchar a.
Proof.
  intros Ha. unfold uchar. destruct (N_of_ascii a) eqn:E; [|lia]. apply Ascii.eqb_neq in Ha. exfalso. apply Ha.
  by rewrite <-(ascii_N_embedding a), E.
Qed.
Lemma uchar_eq a b : uchar a = uchar b → a = b.
Proof. unfold uchar. intros E. rewrite <-(ascii_N_embedding a), <-(ascii_N_embedding b). f_equal. lia. Qed.

Lemma strcmp_trans s t u : plain s = true → plain t = true → plain u = true → strcmp s t ≤ 0 → strcmp t u ≤ 0 → strcmp s u ≤ 0.
Proof.
  unfold plain. revert t u. induction s as [|a s IH]; intros [|b t] [|c u]; cbn; try lia; rewrite ?andb_true_iff, ?negb_true_iff; intros Hs Ht Hu;
    repeat match goal with H : _ ∧ _ |- _ => destruct H end; repeat match goal with H : Ascii.eqb _ "000" = false |- _ => apply uchar_pos in H end; try lia.
  destruct (Ascii.eqb_spec a b) as [->|Hab], (Ascii.eqb_spec b c) as [->|Hbc]; rewrite ?Ascii.eqb_refl.
  - by apply IH.
  - destruct (Ascii.eqb_spec b c); [done|]. lia.
  - destruct (Ascii.eqb_spec a c); [done|]. lia.
  - intros Hs1 Hs2. assert (uchar a ≠ uchar b) by (intros E; by apply uchar_eq in E). destruct (Ascii.eqb_spec a c) as [->|]; [lia|lia].
Qed.

(** *** One comparison after another *)

Definition cmp_int (a b : Z) : Z := if a <? b then -1 else if b <? a then 1 else 0.
Definition then_cmp (r1 r2 : Z) : Z := if negb (r1 =? 0) then r1 else r2.

Lemma orders_then {A} (c1 c2 : A → A → Z) l : orders c1 l → (∀ a b, a ∈ l → b ∈ l → c1 b a = - c1 a b) → orders c2 l →
  orders (λ a b, then_cmp (c1 a b) (c2 a b)) l.
Proof.
  intros [T1 R1] Ha [T2 R2]. unfold then_cmp. split.
  - intros a b Hal Hbl. pose proof (Ha a b Hal Hbl). pose proof (T2 a b Hal Hbl). repeat case_match; lia.
  - intros a b c Hal Hbl Hcl. pose proof (Ha a b Hal Hbl). pose proof (Ha b c Hbl Hcl). pose proof (Ha a c Hal Hcl).
    pose proof (R1 a b c Hal Hbl Hcl). pose proof (R1 b c a Hbl Hcl Hal). pose proof (R1 c a b Hcl Hal Hbl). pose proof (R1 c b a Hcl Hbl Hal).
    pose proof (R2 a b c Hal Hbl Hcl). destruct (Z.eqb_spec (c1 a b) 0), (Z.eqb_spec (c1 b c) 0), (Z.eqb_spec (c1 a c) 0); cbn [negb]; lia.
Qed.
Lemma orders_int {A} (f : A → Z) l : orders (λ a b, cmp_int (f a) (f b)) l.
Proof.
  unfold cmp_int. split; intros *; repeat match goal with |- context [?x <? ?y] => destruct (Z.ltb_spec x y) end; lia.
Qed.
Lemma cmp_int_anti a b : cmp_int b a = - cmp_int a b.
Proof. unfold cmp_int. destruct (Z.ltb_spec a b), (Z.ltb_spec b a); lia. Qed.
Lemma orders_str {A} (f : A → string) l : Forall (λ x, plain (f x) = true) l → orders (λ a b, strcmp (f a) (f b)) l.
Proof.
  intros Hl. rewrite Forall_forall in Hl. split.
  - intros a b _ _. rewrite (strcmp_anti (f a) (f b)). lia.
  - intros a b c Ha Hb Hc. apply strcmp_trans; by apply Hl.
Qed.

(** ** The list *)

Record pathlistentry := { pe_path : string; pe_len : nat }.
(** The characters of an entry, [%.*s] of its length and path. *)
Definition pe_text (e : pathlistentry) : string := str_take (pe_len e) (pe_path e).
Definition pe_zero : pathlistentry := {| pe_path := ""; pe_len := 0 |}.

(** [while (len > 0)]: the directories, from the longest. *)
Fixpoint dir_entries (path : string) (len : nat) : list pathlistentry :=
  match len with
  | O => []
  | S n => (match String.get n path with Some c => if Ascii.eqb c "/" then [{| pe_path := path; pe_len := len |}] else [] | None => [] end) ++ dir_entries path n
  end.
Definition path_entries (path : string) : list pathlistentry :=
  {| pe_path := path; pe_len := String.length path |} :: dir_entries path (String.length path - 1).
Definition pathlist_init_iterate_func (p : option (list pathlistentry) * Z) (f : function) : res (option (list pathlistentry) * Z) :=
  match fn_pathFixed f with None => Stop FAssert | Some path => res_foldl store p (path_entries path) end.
(** The nested loop over the lists of the table is one over their concatenation. *)
Definition pathlist_init_iterate (t : function_hashtable) (p : option (list pathlistentry) * Z) : res (option (list pathlistentry) * Z) :=
  res_foldl pathlist_init_iterate_func p (concat (entries t)).

Fixpoint strncmp (n : nat) (s1 s2 : string) : Z :=
  match n with
  | O => 0
  | S n =>
      match s1, s2 with
      | EmptyString, EmptyString => 0
      | EmptyString, String b _ => - uchar b
      | String a _, EmptyString => uchar a
      | String a s1', String b s2' => if Ascii.eqb a b then strncmp n s1' s2' else uchar a - uchar b
      end
  end.
Definition pathlist_compare (p1 p2 : pathlistentry) : Z :=
  let len := if (pe_len p1 <? pe_len p2)%nat then pe_len p1 else pe_len p2 in
  let r := strncmp len (pe_path p1) (pe_path p2) in
  if negb (r =? 0) then r
  else if (pe_len p1 <? pe_len p2)%nat then -1
  else if (pe_len p2 <? pe_len p1)%nat then 1
  else 0.

Fixpoint uniq_loop (entryprev : pathlistentry) (l : list pathlistentry) : list pathlistentry :=
  match l with
  | [] => []
  | entry :: l' => if pathlist_compare entry entryprev =? 0 then uniq_loop entryprev l' else entry :: uniq_loop entry l'
  end.
Definition pathlist_uniq (l : list pathlistentry) : list pathlistentry := match l with [] => [] | e :: l' => e :: uniq_loop e l' end.

Section PathList.
Context (qsort : ∀ A, (A → A → Z) → list A → list A).
Definition pathlist_sort (l : list pathlistentry) : list pathlistentry := match l with [] => [] | _ => qsort _ pathlist_compare l end.
Definition pathlist_init (t : function_hashtable) : res (list pathlistentry) :=
  let! l := two_passes pe_zero (pathlist_init_iterate t) in
  Ret (pathlist_uniq (pathlist_sort l)).
End PathList.

(** *** The comparison is that of the characters *)

Definition entry_ok (e : pathlistentry) : Prop := plain (pe_path e) = true ∧ (pe_len e ≤ String.length (pe_path e))%nat.

Lemma compare_text_aux m n s t : plain s = true → plain t = true → (m ≤ String.length s)%nat → (n ≤ String.length t)%nat →
  let r := strncmp (if (m <? n)%nat then m else n) s t in
  Z.sgn (if negb (r =? 0) then r else if (m <? n)%nat then -1 else if (n <? m)%nat then 1 else 0) = Z.sgn (strcmp (str_take m s) (str_take n t)).
Proof.
  unfold plain. revert n s t. induction m as [|m IH]; intros [|n] s t; cbv zeta.
  - done.
  - destruct t as [|b t]; cbn; [lia|]. rewrite andb_true_iff, negb_true_iff. intros _ [Hb%uchar_pos _] _ _. destruct (uchar b); lia || done.
  - destruct s as [|a s]; cbn; [lia|]. rewrite andb_true_iff, negb_true_iff. intros [Ha%uchar_pos _] _ _ _. destruct (uchar a); lia || done.
  - destruct s as [|a s], t as [|b t]; cbn [string_forall String.length]; try lia. rewrite !andb_true_iff. intros [_ Hs] [_ Ht] Hm Hn.
    specialize (IH n s t Hs Ht ltac:(lia) ltac:(lia)). cbv zeta in IH. change (S m <? S n)%nat with (m <? n)%nat. change (S n <? S m)%nat with (n <? m)%nat.
    assert ((if (m <? n)%nat then S m else S n) = S (if (m <? n)%nat then m else n)) as -> by (by destruct (m <? n)%nat). cbn [strncmp str_take strcmp].
    destruct (Ascii.eqb_spec a b) as [->|Hab]; [exact IH|].
    assert (uchar a ≠ uchar b) as Hne by (intros E; by apply uchar_eq in E). destruct (Z.eqb_spec (uchar a - uchar b) 0); [lia|done].
Qed.

Lemma compare_text e1 e2 : entry_ok e1 → entry_ok e2 → Z.sgn (pathlist_compare e1 e2) = Z.sgn (strcmp (pe_text e1) (pe_text e2)).
Proof. intros [Hp1 Hl1] [Hp2 Hl2]. by apply compare_text_aux. Qed.

(** *** Sorted, each path once *)

Lemma str_take_plain n s : plain s = true → plain (str_take n s) = true.
Proof.
  unfold plain. revert s. induction n as [|n IH]; intros [|a s]; cbn; try done. rewrite !andb_true_iff. intros [Ha Hs]. split; [done|by apply IH].
Qed.
Lemma text_plain e : entry_ok e → plain (pe_text e) = true.
Proof. intros [Hp _]. by apply str_take_plain. Qed.

Definition text_le (e1 e2 : pathlistentry) : Prop := strcmp (pe_text e1) (pe_text e2) ≤ 0.
Definition text_lt (e1 e2 : pathlistentry) : Prop := strcmp (pe_text e1) (pe_text e2) < 0.

Lemma compare_0 e1 e2 : entry_ok e1 → entry_ok e2 → (pathlist_compare e1 e2 =? 0) = true ↔ pe_text e1 = pe_text e2.
Proof.
  intros H1 H2. rewrite Z.eqb_eq, <-strcmp_0 by (by apply text_plain). pose proof (compare_text e1 e2 H1 H2). lia.
Qed.
Lemma text_lt_le e1 e2 e3 : entry_ok e1 → entry_ok e2 → entry_ok e3 → text_lt e1 e2 → text_le e2 e3 → text_lt e1 e3.
Proof.
  unfold text_lt, text_le. intros H1%text_plain H2%text_plain H3%text_plain H12 H23.
  assert (strcmp (pe_text e1) (pe_text e3) ≤ 0) as H13 by (apply (strcmp_trans _ (pe_text e2)); [done..|lia|done]).
  destruct (decide (strcmp (pe_text e1) (pe_text e3) = 0)) as [E|]; [|lia]. apply strcmp_0 in E; [|done..]. rewrite <-E, strcmp_anti in H23. lia.
Qed.

Lemma entries_ordered l : Forall entry_ok l → orders pathlist_compare l.
Proof.
  intros Hl. rewrite Forall_forall in Hl. assert (∀ a b, a ∈ l → b ∈ l → pathlist_compare a b ≤ 0 ↔ text_le a b) as Hc.
  { intros a b Ha Hb. pose proof (compare_text a b (Hl a Ha) (Hl b Hb)). unfold text_le. lia. }
  split.
  - intros a b Ha Hb. rewrite !Hc by done. unfold text_le. rewrite (strcmp_anti (pe_text a) (pe_text b)). lia.
  - intros a b c Ha Hb Hc'. rewrite !Hc by done. apply strcmp_trans; apply text_plain; by apply Hl.
Qed.

Lemma uniq_loop_spec prev l : Forall entry_ok (prev :: l) → StronglySorted text_le (prev :: l) →
  StronglySorted text_lt (prev :: uniq_loop prev l) ∧ (∀ x, x ∈ l → pe_text x ∈ pe_text <$> prev :: uniq_loop prev l) ∧ (∀ x, x ∈ uniq_loop prev l → x ∈ l).
Proof.
  revert prev. induction l as [|e l IH]; intros prev Hok Hs; [split_and!; [by repeat constructor|by intros x Hx%elem_of_nil|done]|].
  apply Forall_cons in Hok as [Hp Hok]. apply StronglySorted_inv in Hs as [Hs Hle]. pose proof (Forall_cons_1 _ _ _ Hok) as [He Hl].
  pose proof (Forall_cons_1 _ _ _ Hle) as [Hpe Hpl]. cbn [uniq_loop]. destruct (pathlist_compare e prev =? 0) eqn:Ec.
  - apply compare_0 in Ec; [|done..]. apply StronglySorted_inv in Hs as [Hs _]. destruct (IH prev) as (I1 & I2 & I3); [by constructor|by constructor|].
    split_and!; [done| |set_solver]. intros x [->|Hx]%elem_of_cons; [rewrite Ec; by left|by apply I2].
  - destruct (IH e Hok Hs) as (I1 & I2 & I3). assert (text_lt prev e) as Hlt.
    { unfold text_lt, text_le in *. destruct (decide (strcmp (pe_text prev) (pe_text e) = 0)) as [E|]; [|lia].
      apply strcmp_0 in E; [|by apply text_plain..]. symmetry in E. apply compare_0 in E; [|done..]. congruence. }
    split_and!; [|set_solver|set_solver]. constructor; [done|]. apply Forall_forall. intros z Hz.
    apply elem_of_cons in Hz as [->|Hz]; [done|]. apply StronglySorted_inv in Hs as [_ Hel]. rewrite Forall_forall in Hel, Hl.
    eapply (text_lt_le _ e); [done..|by apply Hl, I3|done|by apply Hel, I3].
Qed.

(** *** Which paths *)

(** A directory of a path, with the slash that ends it. *)
Definition directory_of (d path : string) : Prop := ∃ x y, d = x +:+ "/" ∧ path = d +:+ y ∧ y ≠ "".

Lemma str_take_get k s c : String.get k s = Some c → str_take (S k) s = str_take k s +:+ String c "".
Proof.
  revert s. induction k as [|k IH]; intros [|a s]; cbn [String.get]; try done; [by intros [= ->]; destruct s|]. intros H.
  change (str_take (S (S k)) (String a s)) with (String a (str_take (S k) s)). change (str_take (S k) (String a s)) with (String a (str_take k s)).
  by rewrite (IH s H).
Qed.
Lemma get_lt k s c : String.get k s = Some c → (k < String.length s)%nat.
Proof. revert s. induction k as [|k IH]; intros [|a s]; cbn; try done; [lia|]. intros H%IH. lia. Qed.
Lemma str_take_split n s : (n < String.length s)%nat → ∃ y, s = str_take n s +:+ y ∧ y ≠ "".
Proof.
  revert s. induction n as [|n IH]; intros [|a s]; cbn; try lia; [by intros _; exists (String a s)|]. intros Hn.
  destruct (IH s ltac:(lia)) as (y & E & Hy). exists y. split; [cbn; congruence|done].
Qed.
Lemma str_take_of_app s t : str_take (String.length s) (s +:+ t) = s.
Proof. induction s as [|a s IH]; [by destruct t|]. cbn. by rewrite IH. Qed.
Lemma get_of_app s c t : String.get (String.length s) (s +:+ String c t) = Some c.
Proof. by induction s. Qed.

Lemma elem_of_dir_entries e path n : e ∈ dir_entries path n ↔ ∃ k, (k < n)%nat ∧ String.get k path = Some "/"%char ∧ e = {| pe_path := path; pe_len := S k |}.
Proof.
  induction n as [|n IH]; cbn [dir_entries]; [split; [by intros H%elem_of_nil|intros (k & Hk & _); lia]|]. rewrite elem_of_app, IH. split.
  - intros [H|(k & Hk & H)]; [|exists k; split; [lia|done]]. destruct (String.get n path) as [c|] eqn:E; [|by apply elem_of_nil in H].
    destruct (Ascii.eqb_spec c "/") as [->|]; [|by apply elem_of_nil in H]. apply list_elem_of_singleton in H. exists n. split; [lia|done].
  - intros (k & Hk & Hg & ->). destruct (decide (k = n)) as [->|]; [|right; exists k; split; [lia|done]]. left. rewrite Hg. cbn. by left.
Qed.

Lemma path_entries_texts d path : d ∈ pe_text <$> path_entries path ↔ d = path ∨ directory_of d path.
Proof.
  unfold path_entries. rewrite fmap_cons, elem_of_cons. unfold pe_text at 1. cbn [pe_len pe_path]. rewrite str_take_all by done. f_equiv.
  rewrite list_elem_of_fmap. split.
  - intros (e & -> & (k & Hk & Hg & ->)%elem_of_dir_entries). cbn [pe_text pe_len pe_path]. unfold pe_text. cbn [pe_len pe_path].
    destruct (str_take_split (S k) path) as (y & E & Hy); [lia|]. exists (str_take k path), y. split_and!; [by apply str_take_get|done|done].
  - intros (x & y & -> & -> & Hy). exists {| pe_path := (x +:+ "/") +:+ y; pe_len := S (String.length x) |}. split.
    + unfold pe_text. cbn [pe_len pe_path]. rewrite <-(str_take_of_app (x +:+ "/") y) at 1. f_equal. rewrite string_length_app. cbn. lia.
    + apply elem_of_dir_entries. exists (String.length x). rewrite !string_length_app. destruct y as [|c y]; [done|]. cbn [String.length].
      split_and!; [lia| |done]. rewrite string_app_assoc. apply get_of_app.
Qed.

Lemma path_entries_ok path : plain path = true → Forall entry_ok (path_entries path).
Proof.
  intros Hp. constructor; [by split|]. apply Forall_forall. intros e (k & Hk & Hg%get_lt & ->)%elem_of_dir_entries. split; cbn; [done|lia].
Qed.

Definition table_paths (t : function_hashtable) : list string := omap fn_pathFixed (concat (entries t)).
Definition has_path (f : function) : bool := match fn_pathFixed f with Some p => plain p | None => false end.

Lemma iterate_entries t : forallb has_path (concat (entries t)) = true →
  ∀ p, pathlist_init_iterate t p = res_foldl store p (concat (path_entries <$> table_paths t)).
Proof.
  unfold pathlist_init_iterate, table_paths. induction (concat (entries t)) as [|f fs IH]; intros Hp p; [done|]. cbn [forallb] in Hp.
  apply andb_true_iff in Hp as [Hf Hfs]. cbn [res_foldl omap list_omap]. unfold pathlist_init_iterate_func at 1. unfold has_path in Hf.
  destruct (fn_pathFixed f) as [path|]; [|done]. cbn [fmap list_fmap concat]. rewrite res_foldl_app. destruct (res_foldl store p _); [|done]. by apply IH.
Qed.

Definition all_entries (t : function_hashtable) : list pathlistentry := concat (path_entries <$> table_paths t).

Lemma elem_of_concat {A} (x : A) ls : x ∈ concat ls ↔ ∃ l, x ∈ l ∧ l ∈ ls.
Proof. rewrite list_elem_of_In, in_concat. setoid_rewrite list_elem_of_In. naive_solver. Qed.

Lemma all_entries_texts t d : d ∈ pe_text <$> all_entries t ↔ ∃ path, path ∈ table_paths t ∧ (d = path ∨ directory_of d path).
Proof.
  setoid_rewrite <-path_entries_texts. unfold all_entries. rewrite list_elem_of_fmap. setoid_rewrite elem_of_concat. split.
  - intros (e & -> & l & He & (path & -> & Hin)%list_elem_of_fmap). exists path. split; [done|by apply list_elem_of_fmap_2].
  - intros (path & Hin & (e & -> & He)%list_elem_of_fmap). exists e. split; [done|]. exists (path_entries path). split; [done|by apply list_elem_of_fmap_2].
Qed.
Lemma all_entries_ok t : forallb has_path (concat (entries t)) = true → Forall entry_ok (all_entries t).
Proof.
  intros Hp. apply Forall_forall. intros e (l & He & (path & -> & Hin)%list_elem_of_fmap)%elem_of_concat. revert e He. apply Forall_forall, path_entries_ok.
  apply list_elem_of_omap in Hin as (f & Hf & Ef). rewrite forallb_forall in Hp. specialize (Hp f (proj1 (list_elem_of_In _ _) Hf)).
  unfold has_path in Hp. by rewrite Ef in Hp.
Qed.

(** Sorted and made unique, a list has the same texts in ascending order. *)
Lemma sort_uniq qsort `{!Qsort qsort} L : Forall entry_ok L → let l := pathlist_uniq (pathlist_sort qsort L) in
  StronglySorted text_lt l ∧ ∀ d, d ∈ pe_text <$> l ↔ d ∈ pe_text <$> L.
Proof.
  intros HL. destruct (qsort_sorts _ _ _ (entries_ordered L HL)) as [Hperm Hsort]. unfold pathlist_sort.
  destruct L as [|e0 L0] eqn:EL; [by split; [constructor|]|]. rewrite <-EL in *. clear EL e0 L0. rewrite <-Hperm in HL.
  assert (∀ d, d ∈ pe_text <$> L ↔ d ∈ pe_text <$> qsort _ pathlist_compare L) as Hd by (intros d; by rewrite Hperm). setoid_rewrite Hd. clear Hd Hperm.
  destruct (qsort _ pathlist_compare L) as [|e l]; cbn [pathlist_uniq]; [by split; [constructor|]|].
  assert (StronglySorted text_le (e :: l)) as Hle.
  { clear -Hsort HL. induction Hsort as [|x m _ IH Hx]; [constructor|]. apply Forall_cons in HL as [Hok HL]. constructor; [by apply IH|].
    rewrite Forall_forall in *. intros y Hy. specialize (Hx y Hy). pose proof (compare_text x y Hok (HL y Hy)). unfold text_le. lia. }
  destruct (uniq_loop_spec e l HL Hle) as (U1 & U2 & U3). split; [done|]. intros d. rewrite !list_elem_of_fmap. split.
  - intros (x & -> & [->|Hx]%elem_of_cons); [exists e; split; [done|by left]|]. exists x. split; [done|right; by apply U3].
  - intros (x & -> & [->|Hx]%elem_of_cons); [exists e; split; [done|by left]|]. by apply U2, list_elem_of_fmap in Hx.
Qed.

(** The list of paths.  For functions with paths, as the table has them, the list is made without running
    out of its array, whatever order [qsort] gives to equal entries; it has the paths of the functions and
    their directories and nothing else, in ascending order and each once. *)
Theorem paths_listed qsort `{!Qsort qsort} t : forallb has_path (concat (entries t)) = true →
  ∃ l, pathlist_init qsort t = Ret l ∧ StronglySorted text_lt l ∧
    ∀ d, d ∈ pe_text <$> l ↔ ∃ path, path ∈ table_paths t ∧ (d = path ∨ directory_of d path).
Proof.
  intros Hp. unfold pathlist_init. rewrite (two_passes_list _ _ (all_entries t)) by (intros; by apply iterate_entries). cbn [res_bind].
  destruct (sort_uniq qsort (all_entries t) (all_entries_ok t Hp)) as [Hs Hm]. eexists. split; [done|]. split; [done|].
  intros d. rewrite Hm. apply all_entries_texts.
Qed.

Definition demo_paths : function_hashtable :=
  {| entry_count := 1; entries := [[{| fn_name' := "main"; fn_path' := "servers/pm/main.c"; fn_pathFixed := Some "servers/pm/main.c"; fn_bb_count := 0;
       fn_bbs := []; refs := []; global_func_index := 0 |};
      {| fn_name' := "exec"; fn_path' := "servers/pm/exec.c"; fn_pathFixed := Some "servers/pm/exec.c"; fn_bb_count := 0; fn_bbs := []; refs := []; global_func_index := 1 |}]];
     global_bb_count := 0; global_func_count := 2 |}.
Lemma paths_listed_witness : ∃ l, pathlist_init (@qsort_entries) demo_paths = Ret l ∧ StronglySorted text_lt l ∧
  pe_text <$> l = ["servers/"; "servers/pm/"; "servers/pm/exec.c"; "servers/pm/main.c"].
Proof.
  destruct (paths_listed (@qsort_entries) demo_paths eq_refl) as (l & El & Hs & _). exists l. split_and!; [done|done|].
  vm_compute in El. injection El as <-. reflexivity.
Defined.
