(* ===== verification/ModuleLine.v ===== *)
(** * Source lines of modules: [hypermemloganalyze/common/module-line.c]

    The list of the lines of all blocks of all modules, sorted by file, line and module. *)

From Stdlib Require Import ZArith Lia Ascii String Sorted.
From stdpp Require Import base list numbers sets strings.
From S2P Require Import Prelude Decimal Helper Module Function TestStats Report PathList.
Set Default Proof Using "Type".

Record module_line := { ml_module : module; ml_moduletest : option stats_module; ml_bb_index : Z; ml_line : linepath }.
Definition no_linepath : linepath := {| lp_path := None; lp_pathFixed := None; lp_line := 0; lp_hash := 0 |}.
Definition ml_zero : module_line := {| ml_module := new_module; ml_moduletest := None; ml_bb_index := 0; ml_line := no_linepath |}.

Abbreviation pass := (option (list module_line) * Z)%type.

Definition module_lines_list_bb (m : module) (mt : option stats_module) (bb : module_bb) (bb_index : Z) (p : pass) : res pass :=
  res_foldl store p ((λ l, {| ml_module := m; ml_moduletest := mt; ml_bb_index := bb_index; ml_line := l |}) <$> lines bb).
Definition module_lines_list_func (m : module) (mt : option stats_module) (f : module_func) (p : pass) : res pass :=
  res_foldl (λ p i,
    match bbs f with
    | None => Stop FNull
    | Some bl => match bl !! i with Some bb => module_lines_list_bb m mt bb (bb_index_first f + Z.of_nat i) p | None => Stop FBounds end
    end) p (seq 0 (Z.to_nat (bb_count f))).
Definition module_lines_list_module (m : module) (mt : option stats_module) (p : pass) : res pass :=
  res_foldl (λ p i, let! f := get_func m i in module_lines_list_func m mt f p) p (seq 0 (Z.to_nat (func_count m))).
Definition moduletest_of (test : option stats_test) (m : module) : res (option stats_module) :=
  match test with
  | None => Ret None
  | Some t => match m_name m with Some name => Ret (minixtest_stats_find_module t name) | None => Stop FNull end
  end.
Definition module_lines_list_modules (ms : module_ll) (test : option stats_test) (p : pass) : res pass :=
  assert! (p.2 =? 0) in
  res_foldl (λ p m, let! mt := moduletest_of test m in module_lines_list_module m mt p) p ms.

(** [strcmp] of fields that are set. *)
Definition ml_path (l : module_line) : string := default "" (lp_pathFixed (ml_line l)).
Definition ml_name (l : module_line) : string := default "" (m_name (ml_module l)).
Definition module_lines_sort_compare (l1 l2 : module_line) : Z :=
  let r := strcmp (ml_path l1) (ml_path l2) in
  if negb (r =? 0) then r
  else if lp_line (ml_line l1) <? lp_line (ml_line l2) then -1
  else if lp_line (ml_line l2) <? lp_line (ml_line l1) then 1
  else let r := strcmp (ml_name l1) (ml_name l2) in if negb (r =? 0) then r else 0.

Section ModuleLine.
Context (qsort : ∀ A, (A → A → Z) → list A → list A).
Definition module_lines_sort (l : list module_line) : res (list module_line) :=
  assert! negb (bool_decide (l = [])) in Ret (qsort _ module_lines_sort_compare l).
(** An array without entries is a null pointer. *)
Definition module_lines_list (ms : module_ll) (test : option stats_test) : res (list module_line) :=
  let! l := two_passes ml_zero (module_lines_list_modules ms test) in
  module_lines_sort l.
End ModuleLine.

(** ** All lines *)

Definition bb_lines (m : module) (mt : option stats_module) (first : Z) (j : nat) (bb : module_bb) : list module_line :=
  (λ l, {| ml_module := m; ml_moduletest := mt; ml_bb_index := first + Z.of_nat j; ml_line := l |}) <$> lines bb.
Definition func_lines (m : module) (mt : option stats_module) (f : module_func) : list module_line :=
  concat (imap (bb_lines m mt (bb_index_first f)) (default [] (bbs f))).
Definition test_module_of (test : option stats_test) (m : module) : option stats_module :=
  test ≫= λ t, minixtest_stats_find_module t (default "" (m_name m)).
Definition module_all_lines (test : option stats_test) (m : module) : list module_line := concat (func_lines m (test_module_of test m) <$> func_list m).
Definition all_lines (test : option stats_test) (ms : module_ll) : list module_line := concat (module_all_lines test <$> ms).

(** A loop over the indexes of an array that stores what belongs to each element. *)
Lemma foldl_seq {A B} (g : option (list A) * Z → nat → res (option (list A) * Z)) (h : nat → B → list A) (l : list B) p :
  (∀ i x p, l !! i = Some x → g p i = res_foldl store p (h i x)) →
  res_foldl g p (seq 0 (length l)) = res_foldl store p (concat (imap h l)).
Proof.
  enough (∀ k p, (∀ i x p, l !! i = Some x → g p (k + i)%nat = res_foldl store p (h (k + i)%nat x)) →
    res_foldl g p (seq k (length l)) = res_foldl store p (concat (imap (λ i, h (k + i)%nat) l))) as G by (intros Hg; by apply (G 0%nat)).
  clear p. revert h. induction l as [|x l IH]; intros h k p Hg; [done|]. cbn [length seq res_foldl imap concat]. rewrite res_foldl_app.
  pose proof (Hg 0%nat x p eq_refl) as E. rewrite Nat.add_0_r in E. rewrite E. unfold compose. rewrite Nat.add_0_r.
  destruct (res_foldl store p (h k x)) as [p'|]; [|done]. cbn [res_bind].
  rewrite (IH h (S k)); [|intros i y q Hy; specialize (Hg (S i) y q Hy); by rewrite Nat.add_succ_r in Hg].
  f_equal. f_equal. apply imap_ext. intros i y _. cbn. by rewrite Nat.add_succ_r.
Qed.

Definition line_has_path (l : linepath) : bool := match lp_pathFixed l with Some p => plain p | None => false end.
Definition func_shaped (f : module_func) : bool := (bb_count f =? Z.of_nat (length (mbbs f))) && forallb (λ bb, forallb line_has_path (lines bb)) (mbbs f).
(** Modules as they are loaded: arrays of the sizes that are counted, names and paths. *)
Definition module_shaped (m : module) : bool := named m && (func_count m =? Z.of_nat (length (func_list m))) && forallb func_shaped (func_list m).

Lemma list_func_lines m mt f p : func_shaped f = true → module_lines_list_func m mt f p = res_foldl store p (func_lines m mt f).
Proof.
  unfold func_shaped. rewrite andb_true_iff, Z.eqb_eq. intros [Hn _]. unfold module_lines_list_func, func_lines. rewrite Hn, Nat2Z.id. unfold mbbs in *.
  apply (foldl_seq _ (bb_lines m mt (bb_index_first f)) (default [] (bbs f))).
  intros i bb q Hi. destruct (bbs f) as [bl|]; [|done]. cbn [default] in Hi. unfold id in Hi. by rewrite Hi.
Qed.
Lemma concat_imap_const {A B} (h : B → list A) l : concat (imap (λ _, h) l) = concat (h <$> l).
Proof. f_equal. induction l as [|x l IH]; [done|]. cbn. f_equal. exact IH. Qed.
Lemma list_module_lines m mt p : module_shaped m = true → module_lines_list_module m mt p = res_foldl store p (concat (func_lines m mt <$> func_list m)).
Proof.
  unfold module_shaped. rewrite !andb_true_iff, Z.eqb_eq. intros [[_ Hn] Hf]. unfold module_lines_list_module. rewrite Hn, Nat2Z.id, <-concat_imap_const.
  apply (foldl_seq _ (λ _, func_lines m mt) (func_list m)). intros i f q Hi. rewrite forallb_forall in Hf.
  specialize (Hf f (proj1 (list_elem_of_In _ _) (list_elem_of_lookup_2 _ _ _ Hi))). unfold get_func. unfold func_list in Hi.
  destruct (funcs m) as [fs|]; [|done]. cbn [default] in Hi. unfold id in Hi. rewrite Hi. cbn [res_bind]. by apply list_func_lines.
Qed.
Lemma list_modules_lines ms test p : forallb module_shaped ms = true → p.2 = 0 → module_lines_list_modules ms test p = res_foldl store p (all_lines test ms).
Proof.
  intros Hms Hp. unfold module_lines_list_modules. rewrite Hp. cbn [Z.eqb]. clear Hp. revert p. unfold all_lines.
  induction ms as [|m ms IH]; intros p; [done|]. cbn [forallb] in Hms. apply andb_true_iff in Hms as [Hm Hms].
  cbn [res_foldl fmap list_fmap concat]. rewrite res_foldl_app.
  assert (moduletest_of test m = Ret (test_module_of test m)) as ->.
  { unfold moduletest_of, test_module_of. destruct test as [t|]; [|done]. unfold module_shaped, named in Hm. by destruct (m_name m). }
  cbn [res_bind]. rewrite list_module_lines by done. unfold module_all_lines at 1. destruct (res_foldl store p _); [|done]. by apply IH.
Qed.

(** ** Sorted *)

Lemma compare_lex l1 l2 : module_lines_sort_compare l1 l2 =
  then_cmp (strcmp (ml_path l1) (ml_path l2)) (then_cmp (cmp_int (lp_line (ml_line l1)) (lp_line (ml_line l2))) (strcmp (ml_name l1) (ml_name l2))).
Proof.
  unfold module_lines_sort_compare, then_cmp, cmp_int. destruct (negb (strcmp (ml_path l1) (ml_path l2) =? 0)); [done|].
  destruct (lp_line (ml_line l1) <? lp_line (ml_line l2)); [done|]. destruct (lp_line (ml_line l2) <? lp_line (ml_line l1)); [done|]. cbn [Z.eqb negb].
  destruct (Z.eqb_spec (strcmp (ml_name l1) (ml_name l2)) 0); done.
Qed.

Lemma lines_plain ms test l : forallb module_shaped ms = true → l ∈ all_lines test ms → plain (ml_path l) = true ∧ plain (ml_name l) = true.
Proof.
  intros Hms (x & Hl & (m & -> & Hm)%list_elem_of_fmap)%elem_of_concat. rewrite forallb_forall in Hms. specialize (Hms m (proj1 (list_elem_of_In _ _) Hm)).
  unfold module_shaped in Hms. rewrite !andb_true_iff in Hms. destruct Hms as [[Hn _] Hf].
  apply elem_of_concat in Hl as (y & Hl & (f & -> & Hfm)%list_elem_of_fmap). rewrite forallb_forall in Hf. specialize (Hf f (proj1 (list_elem_of_In _ _) Hfm)).
  unfold func_shaped in Hf. apply andb_true_iff in Hf as [_ Hb]. apply elem_of_concat in Hl as (z & Hl & (j & bb & -> & Hbb)%elem_of_lookup_imap_1).
  rewrite forallb_forall in Hb. unfold mbbs in Hb. specialize (Hb bb (proj1 (list_elem_of_In _ _) (list_elem_of_lookup_2 _ _ _ Hbb))).
  apply list_elem_of_fmap in Hl as (lp & -> & Hlp). rewrite forallb_forall in Hb. specialize (Hb lp (proj1 (list_elem_of_In _ _) Hlp)).
  unfold ml_path, ml_name. cbn. unfold line_has_path in Hb. unfold named in Hn. by destruct (lp_pathFixed lp), (m_name m).
Qed.

Lemma lines_ordered ms test : forallb module_shaped ms = true → orders module_lines_sort_compare (all_lines test ms).
Proof.
  intros Hms. assert (∀ l, l ∈ all_lines test ms → plain (ml_path l) = true ∧ plain (ml_name l) = true) as Hp by (intros l; by apply lines_plain).
  eapply orders_ext; [intros a b _ _; symmetry; apply compare_lex|].
  apply orders_then; [apply orders_str, Forall_forall; intros l Hl; by apply Hp|intros; apply strcmp_anti|].
  apply orders_then; [apply orders_int|intros; apply cmp_int_anti|apply orders_str, Forall_forall; intros l Hl; by apply Hp].
Qed.

(** The lines of all blocks of the modules are listed, each as often as it occurs and with its block and module, sorted
    by file, line and module; without any line an assertion fails. *)
Theorem lines_listed qsort `{!Qsort qsort} ms test : forallb module_shaped ms = true →
  if decide (all_lines test ms = []) then module_lines_list qsort ms test = Stop FAssert
  else ∃ l, module_lines_list qsort ms test = Ret l ∧ l ≡ₚ all_lines test ms ∧ StronglySorted (λ a b, module_lines_sort_compare a b ≤ 0) l.
Proof.
  intros Hms. unfold module_lines_list. rewrite (two_passes_list _ _ (all_lines test ms)) by (intros; by apply list_modules_lines). cbn [res_bind].
  unfold module_lines_sort. case_decide as E; [by rewrite bool_decide_true|]. rewrite bool_decide_false by done. cbn [negb].
  destruct (qsort_sorts _ _ _ (lines_ordered ms test Hms)) as [Hp Hs]. eexists. done.
Qed.

(** No line in any module. *)
Lemma no_lines_abort : module_lines_list (@qsort_entries) [] None = Stop FAssert.
Proof. reflexivity. Qed.

Lemma demo_lines_listed : ∃ l, module_lines_list (@qsort_entries) demo_modules None = Ret l ∧ l ≡ₚ all_lines None demo_modules.
Proof.
  pose proof (lines_listed (@qsort_entries) demo_modules None eq_refl) as H. case_decide as E; [by vm_compute in E|]. destruct H as (l & H1 & H2 & _). by exists l.
Qed.
