(* ===== verification/MapPrint.v ===== *)
(** * The printer of map files: [tools/mapprint/mapprint.c]

    The callbacks for the records of a map file, in its three modes.  The output is the list of
    the lines that are printed. *)

From Stdlib Require Import ZArith Lia Ascii String.
From stdpp Require Import base list numbers strings.
From S2P Require Import Prelude Decimal Helper MapFile Module Report PathList.
Set Default Proof Using "Type".

Inductive mode := mode_dump | mode_listfaults | mode_perbb.
#[global] Instance mode_eq_dec : EqDecision mode.
Proof. solve_decision. Defined.

Definition BB_LINECOUNT_MAX : nat := Z.to_nat 4096.
Abbreviation bb_line := (string * Z)%type.

Record context := {
  bb_index : Z;
  bb_index_dump : Z;
  bb_faultcount : Z;
  bb_faultinjcount : Z;
  bb_instcount : Z;
  bb_lines : list bb_line;      (** the first [bb_linecount] *)
  bb_show : bool;
  current_file : option string;
  current_function : option string;
  current_line : Z;
  fault_index : Z;
}.
Definition context_zero : context :=
  {| bb_index := 1; bb_index_dump := 1; bb_faultcount := 0; bb_faultinjcount := 0; bb_instcount := 0; bb_lines := []; bb_show := false;
     current_file := None; current_function := None; current_line := 0; fault_index := 0 |}.
Definition bb_linecount (c : context) : Z := Z.of_nat (length (bb_lines c)).

Definition tab : string := String "009" "".
Definition d (n : Z) : string := print_dec n.

Definition bb_lines_compare (l1 l2 : bb_line) : Z :=
  let r := strcmp l1.1 l2.1 in
  if negb (r =? 0) then r else if l1.2 <? l2.2 then -1 else if l2.2 <? l1.2 then 1 else 0.

(** The loop of [print_lines]: [state], [line] and [path] as in the code. *)
Fixpoint print_loop (state line : Z) (path : option string) (l : list bb_line) : string :=
  match l with
  | [] => ""
  | (p, n) :: l' =>
      let new_path := match path with None => true | Some q => negb (strcmp q p =? 0) end in
      let text1 := if new_path then (if negb (state =? 0) then "; " else "") +:+ p else "" in
      let state := if new_path then 1 else state in
      let path := if new_path then Some p else path in
      if negb (line =? n) then text1 +:+ (if state =? 1 then ":" else ",") +:+ d n +:+ print_loop 2 n path l'
      else text1 +:+ print_loop state line path l'
  end.

Section MapPrint.
Context (qsort : ∀ A, (A → A → Z) → list A → list A) (md : mode).
Abbreviation state := (context * list string)%type.

Definition print_lines (ls : list bb_line) : string := print_loop 0 (2^32 - 1) None (qsort _ bb_lines_compare ls).

(** The row of a block. *)
Definition perbb_row (index : Z) (func : string) (faultcount faultinjcount instcount : Z) (ls : list bb_line) : string :=
  d index +:+ tab +:+ func +:+ tab +:+ d faultcount +:+ tab +:+ d faultinjcount +:+ tab +:+ d instcount +:+ tab +:+ d (Z.of_nat (length ls)) +:+ tab +:+
  print_lines ls.

Definition out (st : state) (m : mode) (line : string) : state := if decide (md = m) then (st.1, st.2 ++ [line]) else st.

Definition reset_bb (c : context) (index : Z) : context :=
  {| bb_index := index; bb_index_dump := bb_index_dump c; bb_faultcount := 0; bb_faultinjcount := 0; bb_instcount := 0; bb_lines := []; bb_show := false;
     current_file := current_file c; current_function := current_function c; current_line := current_line c; fault_index := fault_index c |}.
Definition show_last_bb (st : state) : res state :=
  let c := st.1 in
  if negb (bb_show c) then Ret st
  else
    let! o := match md, current_function c with
              | mode_perbb, Some f => Ret (st.2 ++ [perbb_row (bb_index c) f (bb_faultcount c) (bb_faultinjcount c) (bb_instcount c) (bb_lines c)])
              | mode_perbb, None => Stop FNull
              | _, _ => Ret st.2
              end in
    let! n := chk32 (bb_index c + 1) in
    Ret (reset_bb c n, o).

Definition set_function (c : context) (name : string) : context :=
  {| bb_index := bb_index c; bb_index_dump := bb_index_dump c; bb_faultcount := bb_faultcount c; bb_faultinjcount := bb_faultinjcount c;
     bb_instcount := bb_instcount c; bb_lines := bb_lines c; bb_show := bb_show c; current_file := current_file c;
     current_function := Some name; current_line := current_line c; fault_index := fault_index c |}.
Definition process_record_function (st : state) (name relPath : string) : res state :=
  let! st := show_last_bb st in
  let st := out st mode_dump ("F: " +:+ name +:+ " " +:+ relPath) in
  Ret (set_function st.1 name, st.2).

Definition set_show (c : context) (dump : Z) : context :=
  {| bb_index := bb_index c; bb_index_dump := dump; bb_faultcount := bb_faultcount c; bb_faultinjcount := bb_faultinjcount c;
     bb_instcount := bb_instcount c; bb_lines := bb_lines c; bb_show := true; current_file := current_file c;
     current_function := current_function c; current_line := current_line c; fault_index := fault_index c |}.
Definition process_record_basic_block (st : state) : res state :=
  let! st := show_last_bb st in
  let! dump := if decide (md = mode_dump) then chk32 (bb_index_dump st.1 + 1) else Ret (bb_index_dump st.1) in
  let st := out st mode_dump ("B: " +:+ d (bb_index_dump st.1)) in
  Ret (set_show st.1 dump, st.2).

Definition set_instruction (c : context) (file : option string) (line : Z) (ls : list bb_line) (n : Z) : context :=
  {| bb_index := bb_index c; bb_index_dump := bb_index_dump c; bb_faultcount := bb_faultcount c; bb_faultinjcount := bb_faultinjcount c;
     bb_instcount := n; bb_lines := ls; bb_show := bb_show c; current_file := file;
     current_function := current_function c; current_line := line; fault_index := fault_index c |}.
Definition process_record_instruction (st : state) : res state :=
  let st := out st mode_dump "I" in
  let! n := chk32 (bb_instcount st.1 + 1) in
  Ret (set_instruction st.1 None 0 (bb_lines st.1) n, st.2).

Definition countline (ls : list bb_line) (path : string) (line : Z) : list bb_line :=
  if existsb (λ l, (strcmp l.1 path =? 0) && (l.2 =? line)) ls then ls
  else if (BB_LINECOUNT_MAX <=? length ls)%nat then ls
  else ls ++ [(path, line)].
Definition process_record_dinstruction (st : state) (path : string) (line : Z) : res state :=
  let st := out st mode_dump ("D: " +:+ path +:+ ":" +:+ d line) in
  let! n := chk32 (bb_instcount st.1 + 1) in
  Ret (set_instruction st.1 (Some path) line (countline (bb_lines st.1) path line) n, st.2).

Definition set_faults (c : context) (fc inj index : Z) : context :=
  {| bb_index := bb_index c; bb_index_dump := bb_index_dump c; bb_faultcount := fc; bb_faultinjcount := inj;
     bb_instcount := bb_instcount c; bb_lines := bb_lines c; bb_show := bb_show c; current_file := current_file c;
     current_function := current_function c; current_line := current_line c; fault_index := index |}.
Definition fault_row (c : context) (name : string) : string :=
  d (fault_index c) +:+ tab +:+ name +:+ tab +:+ default "" (current_function c) +:+ tab +:+ default "" (current_file c) +:+ tab +:+
  (if negb (current_line c =? 0) then d (current_line c) else "").
Definition process_record_fault_candidate (st : state) (name : string) : res state :=
  let st := out st mode_dump ("f: " +:+ name) in
  let st := out st mode_listfaults (fault_row st.1 name) in
  let! fc := chk32 (bb_faultcount st.1 + 1) in
  let! index := chk32 (fault_index st.1 + 1) in
  Ret (set_faults st.1 fc (bb_faultinjcount st.1) index, st.2).
Definition process_record_fault_injected (st : state) (name : string) : res state :=
  let st := out st mode_dump ("i: " +:+ name) in
  let! inj := chk32 (bb_faultinjcount st.1 + 1) in
  Ret (set_faults st.1 (bb_faultcount st.1) inj (fault_index st.1), st.2).
Definition process_record_module_name (st : state) (name : string) : res state := Ret (out st mode_dump ("M: " +:+ name)).

Definition callback (st : state) (e : map_event) : res state :=
  match e with
  | ev_module_name name => process_record_module_name st name
  | ev_function name relPath => process_record_function st name relPath
  | ev_basic_block => process_record_basic_block st
  | ev_instruction => process_record_instruction st
  | ev_dinstruction path line => process_record_dinstruction st path line
  | ev_fault_candidate name => process_record_fault_candidate st name
  | ev_fault_injected name => process_record_fault_injected st name
  end.
(** The callbacks run while the file is read; here after it has been read. *)
Definition process_file (file : string) : res (list string) :=
  let! es := mapparse_file mapparse_compat_latest file in
  let! st := res_foldl callback (context_zero, []) es in
  let! st := show_last_bb st in
  Ret st.2.
Definition process_path (file : option string) : res (list string) :=
  match file with None => Stop (FExit (-1)) | Some file => process_file file end.
End MapPrint.

(** ** One row per block *)

Definition line_of (e : map_event) : option bb_line := match e with ev_dinstruction p l => Some (p, l) | _ => None end.
Definition distinct_lines (b : list map_event) : list bb_line := foldl (λ ls x, countline ls x.1 x.2) [] (omap line_of b).
Definition in_block (e : map_event) : bool :=
  match e with ev_instruction | ev_dinstruction _ _ | ev_fault_candidate _ | ev_fault_injected _ => true | _ => false end.

Section Rows.
Context (qsort : ∀ A, (A → A → Z) → list A → list A).
Abbreviation callback := (callback qsort mode_perbb).
Abbreviation show_last_bb := (show_last_bb qsort mode_perbb).

(** The row of a block of a function: its number, and what is in it. *)
Definition block_row (n : Z) (func : string) (b : list map_event) : string :=
  perbb_row qsort n func (countZ is_fault_candidate b) (countZ is_fault_injected b) (countZ is_instr b) (distinct_lines b).
Fixpoint rows_from (n : Z) (func : string) (bs : list (list map_event)) : list string :=
  match bs with [] => [] | b :: bs' => block_row n func b :: rows_from (n + 1) func bs' end.
Fixpoint program_rows (n : Z) (p : list fn) : list string :=
  match p with [] => [] | f :: p' => rows_from n (fn_name f) (fn_blocks f) ++ program_rows (n + Z.of_nat (length (fn_blocks f))) p' end.

(** After [k] records: the rows so far, the number of the next block, and the block that is not printed yet. *)
Record printed (k : Z) (st : context * list string) (rows : list string) (n : Z) (pending : option (string * list map_event)) : Prop := {
  pr_out : st.2 = rows;
  pr_index : bb_index st.1 = n;
  pr_faults : 0 ≤ fault_index st.1 ≤ k;
  pr_small : 0 ≤ n ≤ k + 1 ∧ 0 ≤ k;
  pr_pending : match pending with
    | None => bb_show st.1 = false ∧ bb_faultcount st.1 = 0 ∧ bb_faultinjcount st.1 = 0 ∧ bb_instcount st.1 = 0 ∧ bb_lines st.1 = []
    | Some (f, b) => bb_show st.1 = true ∧ current_function st.1 = Some f ∧ bb_faultcount st.1 = countZ is_fault_candidate b ∧
        bb_faultinjcount st.1 = countZ is_fault_injected b ∧ bb_instcount st.1 = countZ is_instr b ∧ bb_lines st.1 = distinct_lines b ∧
        Z.of_nat (length b) + n ≤ k
    end }.

(** The rows once the pending block is printed, and their number. *)
Definition flushed (rows : list string) (n : Z) (pending : option (string * list map_event)) : list string * Z :=
  match pending with None => (rows, n) | Some (f, b) => (rows ++ [block_row n f b], n + 1) end.

Lemma show_flushes k st rows n pending : printed k st rows n pending → k < 2^31 - 2 →
  ∃ st', show_last_bb st = Ret st' ∧ printed k st' (flushed rows n pending).1 (flushed rows n pending).2 None ∧ current_function st'.1 = current_function st.1.
Proof.
  intros [<- <- Hf Hs Hp] Hk. unfold MapPrint.show_last_bb. destruct pending as [[f b]|]; cbn [flushed fst snd].
  - destruct Hp as (Hshow & Hfn & H1 & H2 & H3 & H4 & Hlen). rewrite Hshow, Hfn. cbn [negb res_bind]. rewrite chk32_ok by lia. cbn [res_bind].
    eexists. split; [done|]. split; [|done]. split; cbn; try done; [|lia]. unfold block_row. by rewrite H1, H2, H3, H4.
  - pose proof Hp as (Hshow & _). rewrite Hshow. eexists. split; [done|]. split; [|done]. split; done.
Qed.

Lemma block_count_snoc p b e : countZ p (b ++ [e]) = countZ p b + if p e then 1 else 0.
Proof. unfold countZ. rewrite List.filter_app, length_app. cbn. destruct (p e); cbn; lia. Qed.
Lemma block_count_bounds p b : 0 ≤ countZ p b ≤ Z.of_nat (length b).
Proof. unfold countZ. pose proof (List.filter_length_le p b). lia. Qed.
Lemma distinct_lines_snoc b e : distinct_lines (b ++ [e]) = match line_of e with Some x => countline (distinct_lines b) x.1 x.2 | None => distinct_lines b end.
Proof. unfold distinct_lines. rewrite omap_app, foldl_app. cbn. by destruct (line_of e). Qed.

Lemma item_counted k st rows n f b e : in_block e = true → printed k st rows n (Some (f, b)) → k < 2^31 - 2 →
  ∃ st', callback st e = Ret st' ∧ printed (k + 1) st' rows n (Some (f, b ++ [e])).
Proof.
  intros He [<- <- Hf Hs (Hshow & Hfn & H1 & H2 & H3 & H4 & Hlen)] Hk.
  pose proof (block_count_bounds is_fault_candidate b). pose proof (block_count_bounds is_fault_injected b). pose proof (block_count_bounds is_instr b).
  destruct e; try discriminate He; cbn [MapPrint.callback];
    unfold process_record_instruction, process_record_dinstruction, process_record_fault_candidate, process_record_fault_injected, out;
    rewrite !decide_False by done; rewrite ?H1, ?H2, ?H3, ?H4;
    repeat (rewrite chk32_ok by lia; cbn [res_bind]); eexists; (split; [done|]); (split; cbn [fst snd]; try done; cbn; try lia);
    rewrite !block_count_snoc, distinct_lines_snoc, length_app; cbn; rewrite ?Z.add_0_r; split_and!; try done; lia.
Qed.

Lemma items_counted es k st rows n f b : forallb in_block es = true → printed k st rows n (Some (f, b)) → k + Z.of_nat (length es) < 2^31 - 1 →
  ∃ st', res_foldl callback st es = Ret st' ∧ printed (k + Z.of_nat (length es)) st' rows n (Some (f, b ++ es)).
Proof.
  revert k st b. induction es as [|e es IH]; intros k st b Hes Hst Hk; [exists st; cbn; rewrite Z.add_0_r, app_nil_r; done|].
  cbn [forallb] in Hes. apply andb_true_iff in Hes as [He Hes]. cbn [length] in Hk. pose proof (pr_small _ _ _ _ _ Hst).
  destruct (item_counted k st rows n f b e He Hst ltac:(lia)) as (st1 & E1 & H1). cbn [res_foldl]. rewrite E1. cbn [res_bind].
  destruct (IH (k + 1) st1 (b ++ [e]) Hes H1 ltac:(lia)) as (st2 & E2 & H2). exists st2. split; [done|].
  rewrite <-app_assoc in H2. replace (k + Z.of_nat (length (e :: es))) with (k + 1 + Z.of_nat (length es)) by (cbn; lia). done.
Qed.

Lemma blocks_counted bs k st rows n pending f : forallb (forallb in_block) bs = true → current_function st.1 = Some f → printed k st rows n pending →
  let es := concat (block_events <$> bs) in k + Z.of_nat (length es) < 2^31 - 1 →
  ∃ st' rows' n' pending', res_foldl callback st es = Ret st' ∧ printed (k + Z.of_nat (length es)) st' rows' n' pending' ∧
    flushed rows' n' pending' = ((flushed rows n pending).1 ++ rows_from (flushed rows n pending).2 f bs, (flushed rows n pending).2 + Z.of_nat (length bs)).
Proof.
  revert k st rows n pending. induction bs as [|b bs IH]; intros k st rows n pending Hbs Hfn Hst es Hk.
  { exists st, rows, n, pending. cbn. rewrite Z.add_0_r, app_nil_r, Z.add_0_r. split_and!; [done|done|by destruct (flushed rows n pending)]. }
  cbn [forallb] in Hbs. apply andb_true_iff in Hbs as [Hb Hbs]. subst es. cbn [fmap list_fmap concat] in *. unfold block_events at 1 in Hk. unfold block_events at 1 3.
  pose proof (pr_small _ _ _ _ _ Hst) as Hsm. rewrite length_app in Hk |- *. cbn [length] in Hk. cbn [app res_foldl MapPrint.callback length]. unfold process_record_basic_block.
  destruct (show_flushes k st rows n pending Hst ltac:(lia)) as (st1 & -> & H1 & Hf1). cbn [res_bind]. destruct (flushed rows n pending) as [rows1 n1]. cbn [fst snd] in *.
  unfold out. rewrite !decide_False by done. cbn [res_bind fst snd].
  assert (printed (k + 1) (set_show st1.1 (bb_index_dump st1.1), st1.2) rows1 n1 (Some (f, []))) as H2.
  { destruct H1 as [<- <- Hfa Hsm1 (Hshow & Hc1 & Hc2 & Hc3 & Hc4)]. split; cbn; try done; try lia. rewrite Hf1. split_and!; try done. lia. }
  rewrite res_foldl_app. destruct (items_counted b (k + 1) _ rows1 n1 f [] Hb H2 ltac:(lia)) as (st2 & -> & H3). cbn [res_bind app] in *.
  pose proof (pr_pending _ _ _ _ _ H3) as (_ & Hfn2 & _). destruct (IH _ st2 rows1 n1 (Some (f, b)) Hbs Hfn2 H3 ltac:(lia)) as (st3 & rows3 & n3 & p3 & -> & H4 & Hfl).
  exists st3, rows3, n3, p3. split; [done|]. split; [eapply (eq_rect _ (λ z, printed z st3 rows3 n3 p3)); [exact H4|lia]|].
  rewrite Hfl. cbn [flushed fst snd rows_from length]. rewrite <-app_assoc. f_equal. lia.
Qed.

Lemma program_counted p k st rows n pending : forallb (λ f, forallb (forallb in_block) (fn_blocks f)) p = true → printed k st rows n pending →
  k + Z.of_nat (length (program_events p)) < 2^31 - 2 →
  ∃ st' rows' n' pending' k', res_foldl callback st (program_events p) = Ret st' ∧ printed k' st' rows' n' pending' ∧ k' < 2^31 - 2 ∧
    (flushed rows' n' pending').1 = (flushed rows n pending).1 ++ program_rows (flushed rows n pending).2 p.
Proof.
  revert k st rows n pending. induction p as [|f p IH]; intros k st rows n pending Hp Hst Hk.
  { cbn in Hk. exists st, rows, n, pending, k. cbn. rewrite app_nil_r. split_and!; [done|done|lia|done]. }
  cbn [forallb] in Hp. apply andb_true_iff in Hp as [Hf Hp]. unfold program_events in *. cbn [fmap list_fmap concat] in *. unfold fn_events at 1 in Hk. unfold fn_events at 1.
  pose proof (pr_small _ _ _ _ _ Hst) as Hsm. rewrite length_app in Hk. cbn [length] in Hk. cbn [app res_foldl MapPrint.callback]. unfold process_record_function.
  destruct (show_flushes k st rows n pending Hst ltac:(lia)) as (st1 & -> & H1 & _). cbn [res_bind]. destruct (flushed rows n pending) as [rows1 n1]. cbn [fst snd] in *.
  unfold out. rewrite !decide_False by done. cbn [res_bind fst snd].
  assert (printed (k + 1) (set_function st1.1 (fn_name f), st1.2) rows1 n1 None) as H2.
  { destruct H1 as [<- <- Hfa Hsm1 Hpe]. split; cbn; try done; lia. }
  rewrite res_foldl_app. destruct (blocks_counted (fn_blocks f) (k + 1) (set_function st1.1 (fn_name f), st1.2) rows1 n1 None (fn_name f) Hf eq_refl H2 ltac:(lia)) as (st2 & rows2 & n2 & p2 & -> & H3 & Hfl).
  cbn [res_bind]. destruct (IH _ st2 rows2 n2 p2 Hp H3 ltac:(lia)) as (st3 & rows3 & n3 & p3 & k3 & -> & H4 & Hk3 & Hfl3).
  exists st3, rows3, n3, p3, k3. split_and!; [done..|]. rewrite Hfl3, Hfl. cbn [flushed fst snd program_rows]. by rewrite <-app_assoc.
Qed.

(** The table of blocks.  For the map file the pass writes for a program, the printer prints one row for every block of
    every function, in order and numbered from 1, with the function's name, the numbers of fault candidates, injected faults
    and instructions of the block, and its source lines without repetition. *)
Theorem map_rows name p : plain name = true → forallb event_ok (program_events p) = true → Z.of_nat (length (program_events p)) < 2^29 - 2 →
  forallb (λ f, forallb (forallb in_block) (fn_blocks f)) p = true → process_file qsort mode_perbb (map_file name p) = Ret (program_rows 1 p).
Proof.
  intros Hn Hok Hlen Hp. unfold process_file, map_file. pose proof (written_file name (program_events p) Hn Hok Hlen) as Hw.
  change (mapparse_file mapparse_compat_latest ?x) with (read_records mapparse_compat_latest no_strings x). rewrite Hw. cbn [res_bind res_foldl MapPrint.callback]. unfold process_record_module_name, out. rewrite decide_False by done. cbn [res_bind].
  assert (printed 0 (context_zero, []) [] 1 None) as H0 by (split; cbn; done || lia).
  destruct (program_counted p 0 _ [] 1 None Hp H0 ltac:(lia)) as (st & rows & n & pe & k & -> & Hst & Hk & Hfl). cbn [res_bind].
  destruct (show_flushes k st rows n pe Hst ltac:(lia)) as (st1 & -> & H1 & _). cbn [res_bind]. by rewrite (pr_out _ _ _ _ _ H1), Hfl.
Qed.
End Rows.

(** *** The lines of a block *)

Lemma countline_spec ls path line : plain path = true → Forall (λ l, plain l.1 = true) ls → NoDup ls → (length ls < BB_LINECOUNT_MAX)%nat →
  NoDup (countline ls path line) ∧ ∀ x, x ∈ countline ls path line ↔ x ∈ ls ∨ x = (path, line).
Proof.
  intros Hp Hls Hnd Hlen. unfold countline. rewrite Forall_forall in Hls. destruct (existsb _ ls) eqn:E.
  - apply existsb_exists in E as ([q m] & Hin%list_elem_of_In & [Hq Hm]%andb_true_iff). cbn in *. apply Z.eqb_eq in Hm as ->. apply Z.eqb_eq in Hq.
    apply strcmp_0 in Hq; [|by apply (Hls _ Hin)|done]. subst q. split; [done|]. intros x. split; [by left|]. by intros [?| ->].
  - destruct (Nat.leb_spec BB_LINECOUNT_MAX (length ls)); [lia|]. split; [|intros x; rewrite elem_of_app, list_elem_of_singleton; done].
    apply NoDup_app. split_and!; [done| |apply NoDup_singleton]. intros x Hx ->%list_elem_of_singleton. apply Bool.not_true_iff_false in E. apply E.
    apply existsb_exists. exists (path, line). split; [by apply list_elem_of_In|]. cbn [fst snd]. rewrite strcmp_refl, !Z.eqb_refl. reflexivity.
Qed.

(** A file whose first line has the number of the last line of the file before it is printed without it. *)
Lemma equal_lines_lost : print_lines (@qsort_entries) [("a.c", 3); ("b.c", 3); ("b.c", 4)] = "a.c:3; b.c:4" ∧
  print_lines (@qsort_entries) [("b.c", 4); ("a.c", 3); ("b.c", 2)] = "a.c:3; b.c:2,4".
Proof. split; vm_compute; reflexivity. Qed.

Lemma map_rows_witness : ∃ rows, process_file (@qsort_entries) mode_perbb (map_file "pm" demo_program) = Ret rows ∧ rows = program_rows (@qsort_entries) 1 demo_program.
Proof.
  exists (program_rows (@qsort_entries) 1 demo_program). split; [|reflexivity].
  apply (map_rows (@qsort_entries) "pm" demo_program); vm_compute; reflexivity.
Defined.
