(* ===== verification/RunTables.v ===== *)
(** * Tables over many test runs: [minixtestloganalyze/minixtestloganalyze.c]

    The table of runs with its counts of recoveries, the table of classes of runs, the lines for
    the paper, the call sites that close recovery windows, and the columns of the table of tests.
    Rows are lists of values; how numbers are printed is not modelled.  [None] in place of a method,
    status or outcome stands for the total (the [_count] value of the enumeration). *)

From Stdlib Require Import ZArith Lia Ascii String Floats.SpecFloat.
From stdpp Require Import base list numbers strings.
From S2P Require Import Prelude Decimal Double Stats Helper Module LogParse LogReader TestLog TestStats TestAccounts TestTally.
Set Default Proof Using "Type".

(** ** Recoveries *)

(** "must match combinations sent to print_ltckpt in logparse.c" *)
Definition show_recovery (method : option ltckpt_method) (status : option ltckpt_status) : bool :=
  match status with
  | Some ls_failure =>
      match method with
      | Some lm_generic => true | Some lm_deadlock => false | Some lm_failstop => false | Some lm_idempotent => true
      | Some lm_process_specific => true | Some lm_service_fi => false | Some lm_writelog => true | None => true
      end
  | Some ls_shutdown =>
      match method with
      | Some lm_generic => true | Some lm_deadlock => true | Some lm_failstop => true | Some lm_idempotent => false
      | Some lm_process_specific => false | Some lm_service_fi => false | Some lm_writelog => false | None => true
      end
  | Some ls_start =>
      match method with
      | Some lm_generic => true | Some lm_deadlock => false | Some lm_failstop => false | Some lm_idempotent => false
      | Some lm_process_specific => false | Some lm_service_fi => false | Some lm_writelog => true | None => true
      end
  | Some ls_success =>
      match method with
      | Some lm_generic => false | Some lm_deadlock => false | Some lm_failstop => false | Some lm_idempotent => true
      | Some lm_process_specific => true | Some lm_service_fi => true | Some lm_writelog => true | None => true
      end
  | None => true
  end.

(** A loop from a value to itself, or over all of them. *)
Definition range {A} (all : list A) (x : option A) : list A := match x with Some x => [x] | None => all end.
Definition add_up {A} (f : A → Z) (l : list A) : res Z := res_foldl (λ total x, chk32 (total + f x)) 0 l.
Definition sum_recovery (r : recoveries) (method : option ltckpt_method) (status : option ltckpt_status) : res Z :=
  add_up (λ p, r p.2 p.1) (m ← range methods method; s ← range statuses status; [(m, s)]).

Definition with_total {A} (l : list A) : list (option A) := (Some <$> l) ++ [None].
(** The columns: a status, then its methods. *)
Definition recovery_columns : list (option ltckpt_method * option ltckpt_status) :=
  List.filter (λ p, show_recovery p.1 p.2) (s ← with_total statuses; m ← with_total methods; [(m, s)]).

Definition ltckpt_method_to_str (m : option ltckpt_method) : string :=
  match m with
  | Some lm_generic => "generic" | Some lm_deadlock => "deadlock" | Some lm_failstop => "failstop" | Some lm_idempotent => "idempotent"
  | Some lm_process_specific => "procspec" | Some lm_service_fi => "service_fi" | Some lm_writelog => "writelog" | None => "total"
  end.
Definition ltckpt_status_to_str (s : option ltckpt_status) : string :=
  match s with
  | Some ls_failure => "failure" | Some ls_shutdown => "shutdown" | Some ls_start => "start" | Some ls_success => "success" | None => "total"
  end.
Definition recovery_header : list string :=
  (λ p, "recovercount-" +:+ ltckpt_method_to_str p.1 +:+ "-" +:+ ltckpt_status_to_str p.2) <$> recovery_columns.

Definition recovery_row (r : recoveries) : res (list Z) := collect (λ p, sum_recovery r p.1 p.2) recovery_columns.
Definition run_recoveries (s : summary) : res recoveries := res_foldl (λ r m, recoveries_add r (lm_recoveries m) 1) no_recoveries (s_modules s).

(** *** Only combinations with a column are reported *)

Definition shown_call (o : output) : Prop :=
  match o with OCall _ (print_ltckpt status method _) => show_recovery (Some method) (Some status) = true | _ => True end.
Definition only_shown (r : recoveries) : Prop := ∀ status method, show_recovery (Some method) (Some status) = false → r status method = 0.

Definition handler_shown (h : handler) : Prop := ∀ cb lineno st ps out, h cb lineno st ps = Ret out → Forall shown_call out.

Lemma callsites_parse_shown fuel size ln s acc r : callsites_parse_loop fuel size ln s acc = Ret r → Forall shown_call r.2.
Proof.
  revert s acc. induction fuel as [|fuel IH]; intros s acc; cbn [callsites_parse_loop]; [done|].
  case_match; [intros [= <-]; by repeat constructor|]. case_match. case_match; [done|].
  repeat case_match; try (intros [= <-]; by repeat constructor); apply IH.
Qed.

Lemma handlers_shown : Forall (λ hp, handler_shown hp.1) logparse_line_patterns.
Proof.
  unfold logparse_line_patterns. repeat (apply Forall_cons_2; [|]); try apply Forall_nil_2; cbn [fst]; intros cb ln st ps out H.
  all: match type of H with ?h _ _ _ _ = _ => unfold h in H end; unfold call_if in H.
  all: repeat match type of H with (if ?b then _ else _) = _ => destruct b; try discriminate H end.
  all: try (injection H as <-; repeat case_match; by repeat constructor).
  all: apply res_bind_inv in H as (r & E & H).
  1,2: destruct r; injection H as <-; by repeat constructor.
  injection H as <-. apply Forall_app. split; [by eapply callsites_parse_shown|by repeat constructor].
Qed.

Lemma reader_shown mktime cb log tl r : logparse_from_path mktime cb log tl = Ret r → Forall shown_call r.2.
Proof.
  unfold logparse_from_path. destruct log as [file|]; [|done]. unfold logparse_from_file. generalize (S (S (String.length file))).
  generalize (next_char {| input := file; lineno := 1; c := None; linebuf_size := 0;
    timestamp_last := match tl with Some _ => Some {| tv_sec := 0; tv_usec := 0 |} | None => None end |}).
  intros s fuel. assert (Forall shown_call []) as Hout by constructor. revert s Hout. generalize (@nil output).
  induction fuel as [|fuel IH]; intros out s Hout; cbn [from_file_loop]; [done|]. intros H.
  apply res_bind_inv in H as ([[more s'] out'] & Hl & H).
  assert (Forall shown_call (out ++ out')) as Hall; [|destruct more; [by eapply IH|by injection H as <-]].
  clear H IH. apply Forall_app. split; [done|]. unfold logparse_from_file_line in Hl. destruct (LogReader.c s); [|simplify_eq; by constructor].
  destruct (Ascii.eqb _ newline); [simplify_eq; by constructor|]. destruct (logparse_timestamp mktime s) as [[t|] s1].
  - apply res_bind_inv in Hl as ([line s2] & _ & Hl). apply res_bind_inv in Hl as (o & Hp & [= _ _ <-]). unfold process_line in Hp.
    apply res_bind_inv in Hp as ([[[h p] ps]|] & Hm & Hp); [|injection Hp as <-; by repeat constructor].
    apply patterns_match_inv in Hm as [Hin _]. pose proof (proj1 (Forall_forall _ _) handlers_shown _ Hin) as Hh. by eapply Hh.
  - apply res_bind_inv in Hl as (s2 & _ & [= _ _ <-]). by repeat constructor.
Qed.

Lemma on_module_forall (P : log_module → Prop) name k s s' : P (new_log_module name) → (∀ m m', P m → k m = Ret m' → P m') →
  Forall P (s_modules s) → on_module name k s = Ret s' → Forall P (s_modules s').
Proof.
  intros Hnew Hk Hs. unfold on_module, find_or_add_module. destruct (find_or_add_spec lm_name new_log_module name (s_modules s) P Hs Hnew ltac:(done)) as (_ & Hl & _ & _).
  destruct (find_or_add lm_name new_log_module name (s_modules s)) as [i l]. cbn [fst snd] in *. intros H.
  apply res_bind_inv in H as (l' & Hu & [= <-]). cbn [s_modules set_s_modules]. unfold update_at in Hu.
  destruct (l !! i) as [m|] eqn:Em; [|done]. apply res_bind_inv in Hu as (m' & Hm & [= <-]). apply Forall_insert; [done|].
  eapply Hk; [|exact Hm]. by apply (proj1 (Forall_lookup _ _) Hl i).
Qed.

Definition all_shown (s : summary) : Prop := Forall (λ m, only_shown (lm_recoveries m)) (s_modules s).

Lemma on_test_modules s k s' : on_test s k = Ret s' → s_modules s' = s_modules s.
Proof. unfold on_test. case_match; [|done]. intros Hu. by apply res_bind_inv in Hu as (l & _ & [= <-]). Qed.
Lemma on_running_modules name k s s' : on_running_module name k s = Ret s' → s_modules s' = s_modules s.
Proof. unfold on_running_module. case_match; [apply on_test_modules|by intros [= <-]]. Qed.

Lemma handle_shown excl st x s s' : shown_call (OCall st x) → all_shown s → handle excl st x s = Ret s' → all_shown s'.
Proof.
  intros Hx Hs. assert (∀ s2, s_modules s2 = s_modules s → all_shown s2) as Hsame by (intros s2 E; unfold all_shown; by rewrite E).
  assert (∀ name k s2, (∀ m m', only_shown (lm_recoveries m) → k m = Ret m' → only_shown (lm_recoveries m')) →
    on_module name k s = Ret s2 → all_shown s2) as Hmod by (intros name k s2 Hk; by apply on_module_forall).
  destruct x; cbn [handle]; try (by intros [= <-]).
  - unfold callback_edfi_dump_stats. repeat case_match; intros [= <-]; by apply Hsame.
  - unfold callback_edfi_dump_stats_module, add_module_stats_before, add_module_stats_after, add_module_stats_during, with_module_stats.
    repeat case_match; try (by intros [= <-]); intros Hu%on_test_modules; by apply Hsame.
  - unfold callback_edfi_faultindex_get. case_match; [by intros [= <-]|]. apply Hmod. intros m m' Hm Hu. by apply res_bind_inv in Hu as (n & _ & [= <-]).
  - unfold callback_fault. case_match; [by intros [= <-]|]. intros Hu. apply res_bind_inv in Hu as (s2 & H2 & Hu).
    apply res_bind_inv in Hu as (s3 & H3%on_running_modules & [= <-]). apply Hmod in H2; [|by intros m m' Hm [= <-]].
    unfold all_shown in *. cbn. by rewrite H3.
  - unfold callback_hypermem_faultspec. repeat case_match; intros [= <-]; by apply Hsame.
  - unfold callback_hypermem_logpath. repeat case_match; intros [= <-]; by apply Hsame.
  - unfold callback_qemu_exit, exited. repeat case_match; intros [= <-]; by apply Hsame.
  - unfold callback_qemu_hypermem_reset, exited. repeat case_match; intros [= <-]; by apply Hsame.
  - unfold callback_qemu_signal. repeat case_match; intros [= <-]; by apply Hsame.
  - unfold callback_print_startup, booted. repeat case_match; intros [= <-]; by apply Hsame.
  - unfold callback_print_test, add_test_before, add_test_after. repeat case_match; try done; try (intros [= <-]; by apply Hsame).
    intros Hu%on_test_modules. by apply Hsame.
  - unfold callback_print_test_output. case_match; [by intros [= <-]|]. intros Hu%on_test_modules. by apply Hsame.
  - unfold callback_print_tests_completed. repeat case_match; intros [= <-]; by apply Hsame.
  - unfold callback_print_tests_starting, booted. repeat case_match; try done; intros [= <-]; by apply Hsame.
  - unfold callback_print_ltckpt. case_match; [by intros [= <-]|]. intros Hu. apply res_bind_inv in Hu as (s2 & H2 & H3%on_running_modules).
    unfold all_shown. rewrite H3. revert H2. apply Hmod. intros m m' Hm H2. apply res_bind_inv in H2 as (r & Hr & [= <-]).
    apply res_bind_inv in Hr as (n & _ & [= <-]). intros st' me' Hno. cbn. specialize (Hm st' me' Hno). unfold shown_call in Hx. repeat case_decide; try done; by subst; rewrite Hx in Hno.
  - unfold callback_print_ltckpt_closed_ipc_callsites. apply Hmod. intros m m' Hm Hu. by apply res_bind_inv in Hu as (n & _ & [= <-]).
Qed.

(** The summary of a log counts only recoveries that have a column. *)
Lemma summary_shown mktime excl log s : minixtest_log_summarize mktime excl log = Ret s → all_shown s.
Proof.
  unfold minixtest_log_summarize. intros H. apply res_bind_inv in H as (r & Hr%reader_shown & H).
  apply res_bind_inv in H as (s2 & Hd & [= <-]). assert (s_modules (finish (default no_time (timestamp_last r.1)) s2) = s_modules s2) as E
    by (unfold finish; repeat case_match; done). unfold all_shown. rewrite E. assert (all_shown new_summary) as Hn by constructor.
  revert Hn Hr Hd. generalize new_summary. induction r.2 as [|o out IH]; intros s1 Hn Hr Hd; [by injection Hd as <-|].
  apply Forall_cons in Hr as [Ho Hr]. unfold deliver_all in Hd. cbn [res_foldl] in Hd. apply res_bind_inv in Hd as (s3 & H3 & Hd).
  eapply (IH s3); [|done|exact Hd]. destruct o as [st x|w]; cbn [deliver] in H3; [by eapply handle_shown|by injection H3 as <-].
Qed.

Lemma recoveries_add_shown d x r : only_shown d → only_shown x → recoveries_add d x 1 = Ret r → only_shown r.
Proof.
  intros Hd Hx. unfold recoveries_add. apply (res_foldl_inv only_shown); [|done]. clear r Hd. intros e k e' He H.
  apply res_bind_inv in H as (p & [-> _]%chk32_inv & H). apply res_bind_inv in H as (v & [-> _]%chk32_inv & [= <-]).
  intros s m Hno. unfold set_at. case_decide as E; [|by apply He]. subst k. cbn [fst snd]. rewrite (He s m Hno), (Hx s m Hno). done.
Qed.

Lemma run_recoveries_shown s r : all_shown s → run_recoveries s = Ret r → only_shown r.
Proof.
  unfold all_shown, run_recoveries. assert (only_shown no_recoveries) as Hn by done. revert Hn. generalize no_recoveries.
  induction (s_modules s) as [|m l IH]; intros r0 Hn Hs; cbn [res_foldl]; [by intros [= <-]|]. apply Forall_cons in Hs as [Hm Hs]. intros H.
  apply res_bind_inv in H as (r1 & H1 & H2). eapply IH; [|done|exact H2]. exact (recoveries_add_shown _ _ _ Hn Hm H1).
Qed.

(** What is zero can be left out of a sum. *)
Lemma add_up_filter {A} (f : A → Z) (p : A → bool) l : (∀ x, p x = false → f x = 0) → add_up f l = add_up f (List.filter p l).
Proof.
  intros Hp. unfold add_up. assert (-2^31 ≤ 0 < 2^31) as Ht by lia. revert Ht. generalize 0. induction l as [|x l IH]; intros t Ht; [done|].
  cbn [res_foldl List.filter]. destruct (p x) eqn:E; cbn [res_foldl].
  - destruct (chk32 (t + f x)) as [t'|] eqn:Ec; [|done]. cbn [res_bind]. apply chk32_inv in Ec as [-> Hb]. by apply IH.
  - rewrite (Hp x E), Z.add_0_r, chk32_ok by done. by apply IH.
Qed.

(** C30: totals are sums of what is shown.  In the row of a run every total of recoveries, by status, by method
    or of all, is the sum of exactly the columns for its combinations of method and status: no recovery the
    log reader can report is without a column. *)
Theorem recovery_totals mktime excl log s r : minixtest_log_summarize mktime excl log = Ret s → run_recoveries s = Ret r →
  ∀ method status, sum_recovery r method status =
    add_up (λ p, r p.2 p.1) (List.filter (λ p, bool_decide ((Some p.1, Some p.2) ∈ recovery_columns)) (m ← range methods method; s ← range statuses status; [(m, s)])).
Proof.
  intros Hs%summary_shown Hr method status. pose proof (run_recoveries_shown s r Hs Hr) as Ho. unfold sum_recovery. apply add_up_filter.
  intros [m st] E%bool_decide_eq_false. apply Ho. destruct (show_recovery _ _) eqn:Es; [|done]. exfalso. apply E. clear -Es.
  apply (bool_decide_unpack _). destruct m, st; try discriminate Es; vm_compute; exact I.
Qed.

Definition recovery_log : string :=
  file_string [(demo_ts, "print ltckpt recovery: start recovery attempt; module=pm"); (demo_ts, "print ltckpt recovery: start: writelog; module=pm");
               (demo_ts, "print ltckpt recovery: success: writelog: 12 log entries, 3 stack entries; module=pm");
               (demo_ts, "print ltckpt recovery: shutdown: fail_stop; module=vfs")].
Lemma recovery_totals_witness : ∃ s r, minixtest_log_summarize demo_mktime [] (Some recovery_log) = Ret s ∧ run_recoveries s = Ret r ∧
  sum_recovery r None None = Ret 4 ∧ sum_recovery r None (Some ls_start) = Ret 2 ∧ sum_recovery r (Some lm_writelog) None = Ret 2.
Proof.
  assert (is_ret (let! s := minixtest_log_summarize demo_mktime [] (Some recovery_log) in run_recoveries s) = true) as Hret by (vm_compute; reflexivity).
  destruct (minixtest_log_summarize demo_mktime [] (Some recovery_log)) as [s|f] eqn:Es; [|done]. cbn [res_bind] in Hret.
  destruct (run_recoveries s) as [r|f] eqn:Er; [|done]. exists s, r. split; [done|]. split; [done|].
  rewrite !(recovery_totals demo_mktime [] (Some recovery_log) s r Es Er).
  clear Hret. vm_compute in Es. injection Es as <-. vm_compute in Er. injection Er as <-. split_and!; vm_compute; reflexivity.
Defined.

(** ** The table of runs *)

Inductive value := VStr (s : string) | VInt (n : Z) | VDbl (d : double).

Definition contains (ll : list string) (s : string) : bool := existsb (λ x, strcmp s x =? 0) ll.
Definition outcome_to_str (o : option run_outcome) : string :=
  match o with
  | Some ro_success => "success" | Some ro_failed => "failed" | Some ro_shutdown => "shutdwn" | Some ro_crash => "crash"
  | Some ro_timeout => "timeout" | None => "total"
  end.
Definition minixtest_log_status_to_str (s : log_status) : string :=
  match s with
  | mtls_none => "mtls_none" | mtls_start => "mtls_start" | mtls_boot => "mtls_boot" | mtls_tests_starting => "mtls_tests_starting"
  | mtls_test_running => "mtls_test_running" | mtls_test_running_stats => "mtls_test_running_stats"
  | mtls_test_done_stats => "mtls_test_done_stats" | mtls_test_done => "mtls_test_done" | mtls_tests_complete => "mtls_tests_complete"
  | mtls_quit => "mtls_quit"
  end.

Record run_modules := { modcount : Z; modcountfaultretr : Z; modcountfaultinj : Z; modcountfaultact : Z; faultact : Z }.
Definition count_if (b : bool) (n : Z) : res Z := if b then chk32 (n + 1) else Ret n.
Definition add_run_module (a : run_modules) (m : log_module) : res run_modules :=
  let! n := chk32 (modcount a + 1) in
  let! retr := count_if (0 <? faultindexretrieved m) (modcountfaultretr a) in
  let! inj := count_if ((0 <? faultindexretrieved m) && (0 <=? faultindex m)) (modcountfaultinj a) in
  let! act := count_if (0 <? lm_faultact m) (modcountfaultact a) in
  Ret {| modcount := n; modcountfaultretr := retr; modcountfaultinj := inj; modcountfaultact := act;
         faultact := if 0 <? lm_faultact m then u64 (faultact a + lm_faultact m) else faultact a |}.
Definition run_modules_of (s : summary) : res run_modules :=
  res_foldl add_run_module {| modcount := 0; modcountfaultretr := 0; modcountfaultinj := 0; modcountfaultact := 0; faultact := 0 |} (s_modules s).

Record run_tests := { testcountexecuted : Z; testcountpassed : Z; testcountfailed : Z; testcountcrashed : Z }.
Definition add_run_test (excludetest : list string) (a : run_tests) (t : log_test) : res run_tests :=
  if contains excludetest (lt_name t) then Ret a
  else
    let! n := chk32 (testcountexecuted a + 1) in
    let! p := count_if (bool_decide (lt_status t = mts_passed)) (testcountpassed a) in
    let! f := count_if (bool_decide (lt_status t = mts_failed)) (testcountfailed a) in
    let! c := count_if (bool_decide (lt_status t = mts_running)) (testcountcrashed a) in
    Ret {| testcountexecuted := n; testcountpassed := p; testcountfailed := f; testcountcrashed := c |}.
Definition run_tests_of (excludetest : list string) (s : summary) : res run_tests :=
  res_foldl (add_run_test excludetest) {| testcountexecuted := 0; testcountpassed := 0; testcountfailed := 0; testcountcrashed := 0 |} (s_tests s).

Definition run_header : list string :=
  ["logpath"; "faultspec"; "testspec"; "outcome"; "outcome-pretest"; "outcome-recovery"; "status-final"; "exited"; "modcount";
   "modcountfaultretr"; "modcountfaultinj"; "modcountfaultact"; "faultact"; "faultactstatusfirst"; "faultactstatuslast"] ++
  recovery_header ++
  ["timestart"; "timeboot"; "timetestsstart"; "timetestcomplete"; "timeexit"; "testcountexecuted"; "testcountplanned"; "testcountpassed";
   "testcountfailed"; "testcountcrashed"].
Definition timestamp_to_float (t : timeval) : double := dadd (double_of_int (tv_sec t)) (ddiv (double_of_int (tv_usec t)) (double_of_int 1000000)).
Definition vbool (b : bool) : value := VInt (if b then 1 else 0).
Definition fault_status (s : log_status) : value := VStr (if bool_decide (s = mtls_none) then "" else minixtest_log_status_to_str s).
Definition dump_stats_for_run (excludetest : list string) (logpath : string) (s : summary) (c : run_classification) : res (list value) :=
  let! r := run_recoveries s in
  let! m := run_modules_of s in
  let! t := run_tests_of excludetest s in
  let! planned := wordcount (testsplanned s) in
  let! recov := recovery_row r in
  Ret ([VStr logpath; VStr (default "" (s_faultspec s)); VStr (default "" (testsplanned s)); VStr (outcome_to_str (Some (outcome c)));
        vbool (pretest c); vbool (recovery c); VStr (minixtest_log_status_to_str (s_status s)); vbool (status_exited s);
        VInt (modcount m); VInt (modcountfaultretr m); VInt (modcountfaultinj m); VInt (modcountfaultact m); VInt (signed 64 (faultact m));
        fault_status (statusfaultfirst s); fault_status (statusfaultlast s)] ++
       (VInt <$> recov) ++
       [VDbl (timestamp_to_float (s_timestamp_start s)); VDbl (timestamp_to_float (timestamp_boot s)); VDbl (timestamp_to_float (timestamp_tests_starting s));
        VDbl (timestamp_to_float (timestamp_tests_complete s)); VDbl (timestamp_to_float (timestamp_exit s));
        VInt (testcountexecuted t); VInt planned; VInt (testcountpassed t); VInt (testcountfailed t); VInt (testcountcrashed t)]).

Lemma count_if_inv b n v : count_if b n = Ret v → v = n + if b then 1 else 0.
Proof. destruct b; cbn; [by intros [-> _]%chk32_inv|intros [= <-]; lia]. Qed.

(** Every test that is not excluded is executed, and passed, failed or crashed. *)
Lemma run_tests_accounted excl s t : run_tests_of excl s = Ret t →
  testcountexecuted t = countb (λ x, negb (contains excl (lt_name x))) (s_tests s) ∧
  testcountexecuted t = testcountpassed t + testcountfailed t + testcountcrashed t.
Proof.
  unfold run_tests_of. intros H. enough (∀ a, res_foldl (add_run_test excl) a (s_tests s) = Ret t →
    testcountexecuted t = testcountexecuted a + countb (λ x, negb (contains excl (lt_name x))) (s_tests s) ∧
    testcountexecuted t - testcountexecuted a = testcountpassed t + testcountfailed t + testcountcrashed t -
      (testcountpassed a + testcountfailed a + testcountcrashed a)) as G by (destruct (G _ H) as [-> G2]; cbn in *; lia). clear H.
  induction (s_tests s) as [|x l IH]; intros a H; cbn [res_foldl] in H; [injection H as <-; cbn; lia|].
  apply res_bind_inv in H as (a1 & H1 & H2). destruct (IH _ H2) as [I1 I2]. unfold countb in *. cbn [foldr]. unfold add_run_test in H1.
  destruct (contains excl (lt_name x)); cbn [negb]; [injection H1 as <-; lia|].
  apply res_bind_inv in H1 as (n & [-> _]%chk32_inv & H1). apply res_bind_inv in H1 as (p & ->%count_if_inv & H1).
  apply res_bind_inv in H1 as (f & ->%count_if_inv & H1). apply res_bind_inv in H1 as (c & ->%count_if_inv & [= <-]).
  cbn [testcountexecuted testcountpassed testcountfailed testcountcrashed] in *. clear H2. destruct (lt_status x); repeat case_bool_decide; try done; lia.
Qed.

(** The table of runs has one value for every column of its header. *)
Lemma run_columns excl path s c row : dump_stats_for_run excl path s c = Ret row → length row = length run_header.
Proof.
  unfold dump_stats_for_run, recovery_row. intros H. apply res_bind_inv in H as (r & _ & H). apply res_bind_inv in H as (m & _ & H).
  apply res_bind_inv in H as (t & _ & H). apply res_bind_inv in H as (p & _ & H). apply res_bind_inv in H as (rec & Hr%collect_length & [= <-]).
  unfold run_header, recovery_header. cbn [app length]. rewrite !length_app, !length_fmap, Hr. done.
Qed.

(** ** The table of classes *)

Definition outcomes : list run_outcome := [ro_success; ro_failed; ro_shutdown; ro_crash; ro_timeout].
Definition classes (o : option run_outcome) (p r : option bool) : list run_classification :=
  o ← range outcomes o; p ← range [false; true] p; r ← range [false; true] r; [{| outcome := o; pretest := p; recovery := r |}].
Definition sum_classification (st : minixtest_stats) (o : option run_outcome) (p r : option bool) : res Z := add_up (classification st) (classes o p r).

(** Column [i] of nine: [i / 3] and [i % 3]. *)
Definition class_columns : list (option bool * option bool) := p ← with_total [false; true]; r ← with_total [false; true]; [(p, r)].
Definition pretest_name (p : option bool) : string := match p with Some false => "fail" | Some true => "pass" | None => "total" end.
Definition recovery_name (r : option bool) : string := match r with Some false => "no" | Some true => "yes" | None => "total" end.
Definition class_headers : list (list string) :=
  ["pretest" :: ((λ c, pretest_name c.1) <$> class_columns); "recover" :: ((λ c, recovery_name c.2) <$> class_columns)].
Definition dump_classification (st : minixtest_stats) : res (list (string * list Z)) :=
  collect (λ o, let! sums := collect (λ c, sum_classification st o c.1 c.2) class_columns in Ret (outcome_to_str o, sums)) (with_total outcomes).

(** *** Measures over all runs *)

(** Metric, reference, mean, median, deviation, number, minimum and maximum. *)
Definition dump_test_stats_line (x : stats) (metric reference : string) : res (list value) :=
  let! median := stats_median x in
  let! min := stats_min x in
  let! max := stats_max x in
  Ret [VStr metric; VStr reference; VDbl (stats_mean x); VDbl median.1; VDbl (stats_stdev x); VInt (stat_n x); VDbl min.1; VDbl max.1].
Definition test_metrics : list (measure * string * string) :=
  [(test_cnt_planned, "planned", ""); (test_cnt_started, "started", ""); (test_cnt_completed, "compl", ""); (test_cnt_passed, "passed", "");
   (test_cnt_failed, "failed", ""); (test_cnt_crashed, "crashed", ""); (test_cnt_unreached, "unreach", "");
   (test_pct_pl_started, "started", "planned"); (test_pct_pl_completed, "compl", "planned"); (test_pct_pl_passed, "passed", "planned");
   (test_pct_pl_failed, "failed", "planned"); (test_pct_pl_crashed, "crashed", "planned"); (test_pct_pl_unreached, "unreach", "planned");
   (test_pct_st_completed, "compl", "started"); (test_pct_st_passed, "passed", "started"); (test_pct_st_failed, "failed", "started");
   (test_pct_st_crashed, "crashed", "started"); (test_pct_cp_passed, "passed", "compl"); (test_pct_cp_failed, "failed", "compl")].
Definition dump_test_stats (st : minixtest_stats) : res (list (list value)) :=
  collect (λ m, dump_test_stats_line (measured st m.1.1) m.1.2 m.2) test_metrics.

(** *** Lines for the paper; [None] when there is nothing to print *)

Record latex_line := { ll_label : string; ll_pretest : option string; ll_pct : list double; ll_completed : double }.
Definition pct_of (count total : Z) : double := ddiv (dmul (double_of_int count) (double_of_int 100)) (double_of_int total).
Definition dump_latex_line (st : minixtest_stats) (pretest_count : Z) (label : string) (p : option bool) : res (option latex_line) :=
  if (pretest_count <=? 0) && bool_decide (p ≠ None) then Ret None
  else
    let! pass := sum_classification st (Some ro_success) p None in
    let! fail := sum_classification st (Some ro_failed) p None in
    let! shutdown := sum_classification st (Some ro_shutdown) p None in
    let! crash1 := sum_classification st (Some ro_crash) p None in
    let! crash2 := sum_classification st (Some ro_timeout) p None in
    let! crash := chk32 (crash1 + crash2) in
    let! n := chk32 (pass + fail) in
    let! n := chk32 (n + shutdown) in
    let! n := chk32 (n + crash) in
    Ret (if 0 <? n then
           Some {| ll_label := label;
                   ll_pretest := if 0 <? pretest_count then Some (match p with Some false => "fail" | Some true => "pass" | None => "both" end) else None;
                   ll_pct := [pct_of pass n; pct_of fail n; pct_of shutdown n; pct_of crash n];
                   ll_completed := stats_mean (measured st test_pct_pl_completed) |}
         else None).
Definition dump_latex (st : minixtest_stats) (pretest_count : Z) (label : option string) : res (list (option latex_line)) :=
  collect (dump_latex_line st pretest_count (default "(recovery mode)" label)) [Some true; None].

(** Every measure has a row. *)
Lemma all_measures_shown m : m ∈ test_metrics.*1.*1.
Proof. apply (bool_decide_unpack _). destruct m; vm_compute; exact I. Qed.
(** *** Cells of the table count runs *)

Definition in_cell (o : option run_outcome) (p r : option bool) (x : summary * Z * bool) : bool :=
  match run_class x with
  | Ret q => bool_decide (o = None ∨ o = Some (outcome q)) && bool_decide (p = None ∨ p = Some (pretest q)) && bool_decide (r = None ∨ r = Some (recovery q))
  | Stop _ => false
  end.

Lemma add_up_ok {A} (f : A → Z) l t : 0 ≤ t → (∀ x, 0 ≤ f x) → t + foldr (λ x z, f x + z) 0 l < 2^31 →
  res_foldl (λ total x, chk32 (total + f x)) t l = Ret (t + foldr (λ x z, f x + z) 0 l).
Proof.
  intros Ht Hf. revert t Ht. induction l as [|x l IH]; intros t Ht Hb; cbn [res_foldl foldr] in *; [by rewrite Z.add_0_r|].
  assert (0 ≤ foldr (λ x z, f x + z) 0 l) by (clear -Hf; induction l as [|y l IH]; cbn; [done|]; specialize (Hf y); lia).
  specialize (Hf x) as Hx. rewrite chk32_ok by lia. cbn [res_bind]. rewrite IH by lia. f_equal. lia.
Qed.

(** A run has one class, so sums over classes count the runs with one of them. *)
Lemma sum_of_classes (l : list run_classification) runs : NoDup l →
  foldr (λ c z, countb (has_class c) runs + z) 0 l = countb (λ x, match run_class x with Ret q => bool_decide (q ∈ l) | Stop _ => false end) runs.
Proof.
  intros Hl. induction runs as [|x runs IH]; [by induction l as [|c l IHl]; cbn in *; [|rewrite IHl by (by apply NoDup_cons in Hl as [_ ?])]|].
  unfold countb in *. cbn [foldr]. rewrite <-IH. clear IH. unfold has_class at 1. destruct (run_class x) as [q|f]; cbn.
  - induction Hl as [|c l Hc Hl IH]; [done|]. cbn [foldr]. rewrite IH. destruct (decide (q = c)) as [->|Hne].
    + rewrite (bool_decide_true (c = c)) by done. rewrite (bool_decide_false (c ∈ l)) by done. rewrite (bool_decide_true (c ∈ c :: l)) by (by left). lia.
    + rewrite (bool_decide_false (q = c)) by done. rewrite (bool_decide_ext (q ∈ c :: l) (q ∈ l)); [lia|]. rewrite elem_of_cons. naive_solver.
  - f_equal.
Qed.

Lemma classes_nodup o p r : NoDup (classes o p r).
Proof. apply (bool_decide_unpack _). destruct o as [[]|], p as [[]|], r as [[]|]; vm_compute; exact I. Qed.
Lemma elem_of_classes o p r q : q ∈ classes o p r ↔ (o = None ∨ o = Some (outcome q)) ∧ (p = None ∨ p = Some (pretest q)) ∧ (r = None ∨ r = Some (recovery q)).
Proof.
  destruct q as [qo qp qr]. cbn [outcome pretest recovery].
  transitivity (bool_decide ({| outcome := qo; pretest := qp; recovery := qr |} ∈ classes o p r) = true); [by rewrite bool_decide_eq_true|].
  transitivity (bool_decide ((o = None ∨ o = Some qo) ∧ (p = None ∨ p = Some qp) ∧ (r = None ∨ r = Some qr)) = true); [|by rewrite bool_decide_eq_true].
  destruct o as [[]|], p as [[]|], r as [[]|], qo, qp, qr; vm_compute; done.
Qed.
Lemma countb_ext {A} (f g : A → bool) l : (∀ x, x ∈ l → f x = g x) → countb f l = countb g l.
Proof. intros H. induction l as [|x l IH]; [done|]. unfold countb in *. cbn. rewrite H by (by left). rewrite IH; [done|]. intros y Hy. apply H. by right. Qed.

Lemma cell_sum runs st o p r : add_runs minixtest_stats_zero runs = Ret st →
  foldr (λ c z, classification st c + z) 0 (classes o p r) = countb (in_cell o p r) runs.
Proof.
  intros Hst. destruct (runs_classified runs st Hst) as [Hc _]. transitivity (foldr (λ c z, countb (has_class c) runs + z) 0 (classes o p r)).
  { clear -Hc. induction (classes o p r) as [|c l IH]; [done|]. cbn. by rewrite Hc, IH. }
  rewrite sum_of_classes by apply classes_nodup. apply countb_ext. intros x _. unfold in_cell. destruct (run_class x) as [q|]; [|done].
  rewrite (bool_decide_ext _ _ (elem_of_classes o p r q)). rewrite !bool_decide_and. by rewrite andb_assoc.
Qed.

Lemma cell_count runs st o p r : add_runs minixtest_stats_zero runs = Ret st → Z.of_nat (length runs) < 2^31 →
  sum_classification st o p r = Ret (countb (in_cell o p r) runs).
Proof.
  intros Hst Hn. pose proof (cell_sum runs st o p r Hst) as Hsum. pose proof (countb_bounds (in_cell o p r) runs) as Hb.
  unfold sum_classification, add_up. rewrite add_up_ok; rewrite ?Hsum; [done|lia| |lia].
  intros x. destruct (runs_classified runs st Hst) as [Hc _]. rewrite Hc. apply countb_bounds.
Qed.

Lemma collect_fmap {A B} (f : A → res B) (g : A → B) l : (∀ x, f x = Ret (g x)) → collect f l = Ret (g <$> l).
Proof. intros H. induction l as [|x l IH]; [done|]. cbn. by rewrite H, IH. Qed.

(** Every cell of the table of classes counts the runs of its outcome, pretest and recovery, totals
    included: for fewer than 2^31 runs no sum overflows, and the last cell is the number of runs. *)
Theorem cells_count_runs runs st : add_runs minixtest_stats_zero runs = Ret st → Z.of_nat (length runs) < 2^31 →
  dump_classification st = Ret ((λ o, (outcome_to_str o, (λ c, countb (in_cell o c.1 c.2) runs) <$> class_columns)) <$> with_total outcomes) ∧
  countb (in_cell None None None) runs = Z.of_nat (length runs).
Proof.
  intros Hst Hn. split.
  - unfold dump_classification. apply collect_fmap. intros o.
    rewrite (collect_fmap _ (λ c, countb (in_cell o c.1 c.2) runs)); [done|]. intros c. by apply cell_count.
  - apply countb_all. destruct (runs_classified runs st Hst) as [_ Hf]. eapply Forall_impl; [exact Hf|]. intros x (c & E & _).
    unfold in_cell. rewrite E. rewrite !bool_decide_true by (by left). done.
Qed.

Lemma cells_count_runs_witness : ∃ st, add_runs minixtest_stats_zero [(run_image demo_whole, 1, false); (run_image demo_whole, 2, false)] = Ret st ∧
  dump_classification st = Ret [("success", [0; 0; 0; 0; 0; 0; 0; 0; 0]); ("failed", [1; 0; 1; 1; 0; 1; 2; 0; 2]); ("shutdwn", [0; 0; 0; 0; 0; 0; 0; 0; 0]);
    ("crash", [0; 0; 0; 0; 0; 0; 0; 0; 0]); ("timeout", [0; 0; 0; 0; 0; 0; 0; 0; 0]); ("total", [1; 0; 1; 1; 0; 1; 2; 0; 2])].
Proof.
  assert (is_ret (add_runs minixtest_stats_zero [(run_image demo_whole, 1, false); (run_image demo_whole, 2, false)]) = true) as Hr
    by (vm_compute; reflexivity).
  destruct (add_runs minixtest_stats_zero _) as [st|f] eqn:E; [|done]. exists st. split; [done|].
  destruct (cells_count_runs _ st E) as [H1 _]; [cbn; lia|]. rewrite H1. vm_compute. reflexivity.
Defined.

(** The percentages of a line for the paper are parts of the number of all runs with its result of the pretest. *)
Lemma latex_line_total runs st pc label p line : add_runs minixtest_stats_zero runs = Ret st → Z.of_nat (length runs) < 2^31 →
  dump_latex_line st pc label p = Ret (Some line) → ∃ pass fail shutdown crash, let n := countb (in_cell None p None) runs in
    pass + fail + shutdown + crash = n ∧ 0 < n ∧ ll_pct line = [pct_of pass n; pct_of fail n; pct_of shutdown n; pct_of crash n].
Proof.
  intros Hst Hn H. unfold dump_latex_line in H. case_match; [done|].
  assert (∀ o, sum_classification st o p None = Ret (countb (in_cell o p None) runs)) as Hs by (intros o; by apply cell_count).
  rewrite !Hs in H. cbn [res_bind] in H. apply res_bind_inv in H as (c & [-> _]%chk32_inv & H). apply res_bind_inv in H as (n1 & [-> _]%chk32_inv & H).
  apply res_bind_inv in H as (n2 & [-> _]%chk32_inv & H). apply res_bind_inv in H as (n3 & [-> _]%chk32_inv & H).
  assert (countb (in_cell (Some ro_success) p None) runs + countb (in_cell (Some ro_failed) p None) runs + countb (in_cell (Some ro_shutdown) p None) runs +
    (countb (in_cell (Some ro_crash) p None) runs + countb (in_cell (Some ro_timeout) p None) runs) = countb (in_cell None p None) runs) as E.
  { rewrite <-!(cell_sum runs st _ p None Hst). destruct p as [[]|]; cbn; lia. }
  rewrite E in H. destruct (0 <? _) eqn:Hpos in H; [|done]. injection H as <-. do 4 eexists. cbn [ll_pct]. split_and!; [exact E| |done]. by apply Z.ltb_lt.
Qed.

(** ** Map files and logs of the command line *)

Record settings := { excludemod : list string; set_excludetest : list string; max_count : Z; naive_mode : bool; set_pretest_count : Z; per_run : bool }.
Record analysis := { an_modules : module_ll; an_stats : minixtest_stats; an_left : Z; an_rows : list (list value) }.

Section Files.
Variables (mktime : tm → Z) (cfg : settings).

Definition load_log (a : analysis) (logpath : string) (file : option string) : res analysis :=
  if an_left a <=? 0 then Ret a
  else
    let! s := minixtest_log_summarize mktime (excludemod cfg) file in
    let! r := minixtest_stats_add (an_stats a) s (set_pretest_count cfg) (naive_mode cfg) in
    let! rows := if per_run cfg then let! row := dump_stats_for_run (set_excludetest cfg) logpath s r.2 in Ret (an_rows a ++ [row]) else Ret (an_rows a) in
    Ret {| an_modules := an_modules a; an_stats := r.1; an_left := an_left a - 1; an_rows := rows |}.
(** A map file that cannot be opened is left out. *)
Definition load_map (a : analysis) (file : option string) : res analysis :=
  match file with
  | None => Ret a
  | Some file => let! r := module_load_from_map_ll file (an_modules a) in
                 Ret {| an_modules := r.2; an_stats := an_stats a; an_left := an_left a; an_rows := an_rows a |}
  end.
Definition is_map (path : string) : bool := ends_with path ".map" true.
Definition load_path (a : analysis) (f : string * option string) : res analysis := if is_map f.1 then load_map a f.2 else load_log a f.1 f.2.
Definition load_paths (fs : list (string * option string)) : res analysis :=
  res_foldl load_path {| an_modules := []; an_stats := minixtest_stats_zero; an_left := max_count cfg; an_rows := [] |} fs.

(** The logs that are used, and their runs. *)
Definition logs (fs : list (string * option string)) : list (string * option string) := List.filter (λ f, negb (is_map f.1)) fs.
Definition with_options (s : summary) : summary * Z * bool := (s, set_pretest_count cfg, naive_mode cfg).

Lemma load_paths_from fs a a' : res_foldl load_path a fs = Ret a' → ∃ sums,
  Forall2 (λ f s, minixtest_log_summarize mktime (excludemod cfg) f.2 = Ret s) (take (Z.to_nat (an_left a)) (logs fs)) sums ∧
  add_runs (an_stats a) (with_options <$> sums) = Ret (an_stats a') ∧
  length (an_rows a') = (length (an_rows a) + if per_run cfg then length sums else 0)%nat.
Proof.
  revert a. induction fs as [|f fs IH]; intros a H; cbn [res_foldl] in H.
  { injection H as <-. exists []. unfold logs. cbn [List.filter]. rewrite take_nil. split_and!; [by apply Forall2_nil|done|destruct (per_run cfg); cbn; lia]. }
  apply res_bind_inv in H as (a1 & H1 & H2). destruct (IH a1 H2) as (sums & I1 & I2 & I3). unfold load_path in H1. cbn [logs List.filter].
  destruct (is_map f.1); cbn [negb].
  - assert (an_left a1 = an_left a ∧ an_stats a1 = an_stats a ∧ an_rows a1 = an_rows a) as (E1 & E2 & E3).
    { unfold load_map in H1. destruct f.2; [|by injection H1 as <-]. by apply res_bind_inv in H1 as (r & _ & [= <-]). }
    rewrite E1 in I1. rewrite E2 in I2. rewrite E3 in I3. by exists sums.
  - unfold load_log in H1. destruct (Z.leb_spec (an_left a) 0).
    { injection H1 as <-. exists sums. rewrite Z2Nat.nonpos in * by done. done. }
    apply res_bind_inv in H1 as (s & Hs & H1). apply res_bind_inv in H1 as (r & Hr & H1). apply res_bind_inv in H1 as (rows & Hrows & [= <-]).
    cbn [an_left an_stats an_rows] in *. exists (s :: sums). replace (Z.to_nat (an_left a)) with (S (Z.to_nat (an_left a - 1))) by lia. split_and!.
    + by constructor.
    + unfold add_runs in *. cbn [fmap list_fmap res_foldl with_options fst snd]. rewrite Hr. exact I2.
    + rewrite I3. destruct (per_run cfg); [|by injection Hrows as <-]. apply res_bind_inv in Hrows as (row & _ & [= <-]). rewrite length_app. cbn. lia.
Qed.

(** The first logs of the command line, as many as asked for, are the runs of the statistics. *)
Lemma first_logs_used fs a : load_paths fs = Ret a → ∃ sums,
  Forall2 (λ f s, minixtest_log_summarize mktime (excludemod cfg) f.2 = Ret s) (take (Z.to_nat (max_count cfg)) (logs fs)) sums ∧
  add_runs minixtest_stats_zero (with_options <$> sums) = Ret (an_stats a) ∧ length (an_rows a) = if per_run cfg then length sums else 0%nat.
Proof. intros H. by apply load_paths_from in H. Qed.
End Files.
