(* ===== verification/TestTable.v ===== *)
(** * Tables of tests and call sites: [minixtestloganalyze/minixtestloganalyze.c], second part

    The columns and values of the table of tests, for all modules, one module or one path, and the
    list of call sites that close recovery windows.  A value is [None] where the table has an empty
    field.  [stats_min] and the like sort the values of a sample in place, which does not change
    what later calls return; the sorted sample is dropped here. *)

From Stdlib Require Import ZArith Lia Ascii String Sorted Floats.SpecFloat.
From stdpp Require Import base list numbers sets strings.
From S2P Require Import Prelude Decimal Double Stats Helper Module Function Coverage CoverageStats TestLog TestStats Report PathList RunTables.
Set Default Proof Using "Type".

(** ** Call sites *)

Record callsite_record := { cs_id : Z; cs_module : string; closed_count : Z }.
Definition cs_zero : callsite_record := {| cs_id := 0; cs_module := ""; closed_count := 0 |}.
Definition module_callsites (p : option (list callsite_record) * Z) (m : stats_module) : res (option (list callsite_record) * Z) :=
  match sm_callsites_closed m with
  | None => Ret p
  | Some closed =>
      res_foldl (λ p i, let n := closed (Z.of_nat i) in
        if n <=? 0 then Ret p else store p {| cs_id := Z.of_nat i; cs_module := sm_name m; closed_count := n |}) p (seq 0 (Z.to_nat CALLSITE_ID_MAX))
  end.
Definition callsites_enumerate (st : minixtest_stats) (p : option (list callsite_record)) : res (option (list callsite_record) * Z) :=
  res_foldl module_callsites (p, 0) (st_modules (phases st total)).
Definition callsites_compare (c1 c2 : callsite_record) : Z :=
  if closed_count c2 <? closed_count c1 then -1
  else if closed_count c1 <? closed_count c2 then 1
  else
    let r := strcmp (cs_module c1) (cs_module c2) in
    if negb (r =? 0) then r else if cs_id c1 <? cs_id c2 then -1 else if cs_id c2 <? cs_id c1 then 1 else 0.
Definition dump_stats_callsites (qsort : ∀ A, (A → A → Z) → list A → list A) (st : minixtest_stats) : res (list callsite_record) :=
  let! c := callsites_enumerate st None in
  let! r := callsites_enumerate st (calloc c.2 cs_zero) in
  Ret (qsort _ callsites_compare (default [] r.1)).

(** *** Every call site that closed a window is listed once, the most frequent first *)

Definition closed_sites (m : stats_module) : list callsite_record :=
  match sm_callsites_closed m with
  | None => []
  | Some closed =>
      omap (λ i, let n := closed (Z.of_nat i) in if n <=? 0 then None else Some {| cs_id := Z.of_nat i; cs_module := sm_name m; closed_count := n |})
        (seq 0 (Z.to_nat CALLSITE_ID_MAX))
  end.
Definition all_sites (st : minixtest_stats) : list callsite_record := concat (closed_sites <$> st_modules (phases st total)).

Lemma foldl_omap {A B C} (f : A → option B) (g : C → B → res C) c l :
  res_foldl (λ c x, match f x with Some y => g c y | None => Ret c end) c l = res_foldl g c (omap f l).
Proof.
  revert c. induction l as [|x l IH]; intros c; [done|]. cbn. destruct (f x) as [y|]; cbn; [|apply IH]. destruct (g c y); [apply IH|done].
Qed.
Lemma foldl_ext {A B} (f g : A → B → res A) a l : (∀ a x, f a x = g a x) → res_foldl f a l = res_foldl g a l.
Proof. intros H. revert a. induction l as [|x l IH]; intros a; [done|]. cbn. rewrite H. destruct (g a x); [apply IH|done]. Qed.

Lemma enumerate_sites st p : callsites_enumerate st p = res_foldl store (p, 0) (all_sites st).
Proof.
  unfold callsites_enumerate, all_sites. generalize (p, 0). induction (st_modules (phases st total)) as [|m ms IH]; intros q; [done|].
  cbn [res_foldl fmap list_fmap concat]. rewrite res_foldl_app. assert (module_callsites q m = res_foldl store q (closed_sites m)) as ->.
  { unfold module_callsites, closed_sites. destruct (sm_callsites_closed m) as [closed|]; [|done]. rewrite <-foldl_omap. apply foldl_ext.
    intros a i. cbn. by destruct (closed (Z.of_nat i) <=? 0). }
  destruct (res_foldl store q (closed_sites m)); [apply IH|done].
Qed.

Lemma sites_ordered st : Forall (λ m, plain (sm_name m) = true) (st_modules (phases st total)) → orders callsites_compare (all_sites st).
Proof.
  intros Hm. apply (orders_ext (λ a b, then_cmp (cmp_int (- closed_count a) (- closed_count b)) (then_cmp (strcmp (cs_module a) (cs_module b)) (cmp_int (cs_id a) (cs_id b))))).
  { intros a b _ _. unfold callsites_compare, then_cmp, cmp_int.
    destruct (Z.ltb_spec (closed_count b) (closed_count a)), (Z.ltb_spec (closed_count a) (closed_count b)), (Z.ltb_spec (- closed_count a) (- closed_count b)),
      (Z.ltb_spec (- closed_count b) (- closed_count a)); try lia; done. }
  apply orders_then; [apply orders_int|intros; apply cmp_int_anti|]. apply orders_then; [|intros; apply strcmp_anti|apply orders_int].
  apply orders_str, Forall_forall. intros c (l & Hc & (m & -> & Hin)%list_elem_of_fmap)%elem_of_concat. rewrite Forall_forall in Hm. specialize (Hm m Hin).
  unfold closed_sites in Hc. destruct (sm_callsites_closed m) as [closed|]; [|by apply elem_of_nil in Hc].
  apply list_elem_of_omap in Hc as (i & _ & E). cbn in E. destruct (closed (Z.of_nat i) <=? 0); [done|]. by injection E as <-.
Qed.

(** The list of call sites: for every module of the statistics and every identifier that closed a window at least
    once there is one entry with the number of times, and the entries are sorted by descending number. *)
Theorem callsites_listed qsort `{!Qsort qsort} st : Forall (λ m, plain (sm_name m) = true) (st_modules (phases st total)) →
  ∃ l, dump_stats_callsites qsort st = Ret l ∧ l ≡ₚ all_sites st ∧ StronglySorted (λ a b, closed_count b ≤ closed_count a) l.
Proof.
  intros Hm. unfold dump_stats_callsites. rewrite enumerate_sites, store_null, Z.add_0_l. cbn [res_bind snd]. rewrite enumerate_sites.
  destruct (passes_list cs_zero (λ p, res_foldl store p (all_sites st)) (all_sites st) ltac:(done)) as (_ & a & -> & Ha). cbn [res_bind fst]. rewrite Ha.
  destruct (qsort_sorts _ _ _ (sites_ordered st Hm)) as [Hp Hs]. eexists. split_and!; [done|done|].
  clear -Hs. induction Hs as [|x l Hl IH Hx]; constructor; [done|]. eapply List.Forall_impl; [|exact Hx]. cbn. intros y. unfold callsites_compare.
  destruct (Z.ltb_spec (closed_count y) (closed_count x)); [lia|]. destruct (Z.ltb_spec (closed_count x) (closed_count y)); lia.
Qed.

(** ** Columns of the table of tests *)

Inductive cov_kind := k_func | k_bb | k_ins | k_fc | k_inj | k_loc.
Inductive sample := s_duration | s_count | s_rate | s_time.
Inductive stat := t_ubmean | t_median | t_mean | t_stdev | t_stderr | t_t | t_min | t_max | t_range | t_n.
Inductive cell :=
| c_test | c_module | c_path
| c_cov (ex_boot : bool) (k : cov_kind) | c_tot (k : cov_kind) | c_pct (ex_boot : bool) (k : cov_kind)
| c_stat (s : sample) (t : stat)
| c_pass | c_fail | c_crash.

Definition kinds : list cov_kind := [k_func; k_bb; k_ins; k_fc; k_inj; k_loc].
Definition when {A} (b : bool) (l : list A) : list A := if b then l else [].

Section Columns.
Variables (extra_stats fewer_stats perfonly withbench : bool).
Definition perfstats : bool := negb perfonly || extra_stats.

(** The fields in the order they are printed; [full] without a module and a path. *)
Definition row_cells (full : bool) : list cell :=
  [c_test] ++
  when (negb perfonly)
    ([c_module; c_path] ++ (c_cov false <$> kinds) ++ (c_cov true <$> kinds) ++ (c_tot <$> kinds) ++ (c_pct false <$> kinds) ++ (c_pct true <$> kinds)) ++
  when full
    ([c_stat s_duration t_median] ++ when perfstats [c_stat s_duration t_mean] ++ when (negb fewer_stats) [c_stat s_duration t_stdev] ++
     when perfstats [c_stat s_duration t_stderr] ++ when perfstats [c_stat s_duration t_t] ++ when perfstats [c_stat s_duration t_min] ++
     when perfstats [c_stat s_duration t_max] ++ when perfstats [c_stat s_duration t_range] ++ when perfstats [c_stat s_duration t_n] ++
     when withbench
       ([c_stat s_count t_ubmean] ++ when (negb fewer_stats) [c_stat s_count t_median] ++ when perfstats [c_stat s_count t_mean] ++
        when (negb fewer_stats) [c_stat s_count t_stdev] ++ when (negb perfonly) [c_stat s_count t_stderr; c_stat s_count t_min; c_stat s_count t_max; c_stat s_count t_n] ++
        [c_stat s_rate t_ubmean] ++ when (negb fewer_stats) [c_stat s_rate t_median] ++ when perfstats [c_stat s_rate t_mean] ++
        when (negb fewer_stats) [c_stat s_rate t_stdev] ++ when (negb perfonly) [c_stat s_rate t_stderr; c_stat s_rate t_min; c_stat s_rate t_max; c_stat s_rate t_n] ++
        [c_stat s_time t_median] ++ when perfstats [c_stat s_time t_mean] ++
        when (negb fewer_stats) [c_stat s_time t_stdev] ++ when (negb perfonly) [c_stat s_time t_stderr; c_stat s_time t_min; c_stat s_time t_max; c_stat s_time t_n]) ++
     when (negb perfonly) [c_pass; c_fail; c_crash]).

Definition header : list string :=
  ["test"] ++
  when (negb perfonly)
    ["module"; "path"; "cov-func"; "cov-bb"; "cov-ins"; "cov-fc"; "cov-inj"; "cov-loc";
     "cov-func-ex-boot"; "cov-bb-ex-boot"; "cov-ins-ex-boot"; "cov-fc-ex-boot"; "cov-inj-ex-boot"; "cov-loc-ex-boot";
     "tot-func"; "tot-bb"; "tot-ins"; "tot-fc"; "tot-inj"; "tot-loc";
     "cov-func-pct"; "cov-bb-pct"; "cov-ins-pct"; "cov-fc-pct"; "cov-inj-pct"; "cov-loc-pct";
     "cov-func-ex-boot-pct"; "cov-bb-ex-boot-pct"; "cov-ins-ex-boot-pct"; "cov-fc-ex-boot-pct"; "cov-inj-ex-boot-pct"; "cov-loc-ex-boot-pct"] ++
  ["duration-median"] ++ when perfstats ["duration-mean"] ++ when (negb fewer_stats) ["duration-stdev"] ++
  when perfstats ["duration-stderr"; "duration-t"; "duration-min"; "duration-max"; "duration-range"; "duration-n"] ++
  when withbench
    (["bench-count-ubmean"] ++ when (negb fewer_stats) ["bench-count-median"] ++ when (negb perfonly) ["bench-count-mean"] ++
     when (negb fewer_stats) ["bench-count-stdev"] ++ when (negb perfonly) ["bench-count-stderr"; "bench-count-min"; "bench-count-max"; "bench-count-n"] ++
     ["bench-rate-ubmean"] ++ when (negb fewer_stats) ["bench-rate-median"] ++ when (negb perfonly) ["bench-rate-mean"] ++
     when (negb fewer_stats) ["bench-rate-stdev"] ++ when (negb perfonly) ["bench-rate-stderr"; "bench-rate-min"; "bench-rate-max"; "bench-rate-n"] ++
     ["bench-time-median"] ++ when (negb perfonly) ["bench-time-mean"] ++
     when (negb fewer_stats) ["bench-time-stdev"] ++ when (negb perfonly) ["bench-time-stderr"; "bench-time-min"; "bench-time-max"; "bench-time-n"]) ++
  when (negb perfonly) ["count-pass"; "count-fail"; "count-crash"].
End Columns.

(** The column a field belongs to. *)
Definition kind_name (k : cov_kind) : string :=
  match k with k_func => "func" | k_bb => "bb" | k_ins => "ins" | k_fc => "fc" | k_inj => "inj" | k_loc => "loc" end.
Definition sample_name (s : sample) : string := match s with s_duration => "duration" | s_count => "bench-count" | s_rate => "bench-rate" | s_time => "bench-time" end.
Definition stat_name (t : stat) : string :=
  match t with
  | t_ubmean => "ubmean" | t_median => "median" | t_mean => "mean" | t_stdev => "stdev" | t_stderr => "stderr" | t_t => "t" | t_min => "min" | t_max => "max"
  | t_range => "range" | t_n => "n"
  end.
Definition ex_boot_name (b : bool) : string := if b then "-ex-boot" else "".
Definition cell_title (c : cell) : string :=
  match c with
  | c_test => "test" | c_module => "module" | c_path => "path"
  | c_cov b k => "cov-" +:+ kind_name k +:+ ex_boot_name b
  | c_tot k => "tot-" +:+ kind_name k
  | c_pct b k => "cov-" +:+ kind_name k +:+ ex_boot_name b +:+ "-pct"
  | c_stat s t => sample_name s +:+ "-" +:+ stat_name t
  | c_pass => "count-pass" | c_fail => "count-fail" | c_crash => "count-crash"
  end.

(** Every field is under its title, except in the table of performance with benchmarks and extra statistics, whose rows
    have three means that the header lacks; rows for a module or a path end before the columns on durations. *)
Theorem titles_match extra fewer perfonly withbench :
  (perfonly && extra && withbench = false → cell_title <$> row_cells extra fewer perfonly withbench true = header extra fewer perfonly withbench) ∧
  (cell_title <$> row_cells extra fewer perfonly withbench false) `prefix_of` header extra fewer perfonly withbench ∧
  (perfonly && extra && withbench = true → length (row_cells extra fewer perfonly withbench true) = length (header extra fewer perfonly withbench) + 3)%nat.
Proof.
  split_and!; [|apply (bool_decide_unpack _)|]; destruct extra, fewer, perfonly, withbench; vm_compute; (reflexivity || exact I || (intros Hno; (discriminate Hno || reflexivity))).
Qed.

(** ** Values *)

Definition field : Type := option value.
Definition printflt (v : double) : field := if isnan v then None else Some (VDbl v).
Definition printpct (count total : Z) : field :=
  if 0 <? total then Some (VDbl (ddiv (dmul (double_of_int 100) (double_of_int count)) (double_of_int total))) else None.
Definition tally_of_kind (k : cov_kind) (t : tally) : Z :=
  match k with k_func => t_func t | k_bb => t_bb t | k_ins => t_ins t | k_fc => t_fc t | k_inj => t_inj t | k_loc => t_loc t end.
Definition sample_of (s : sample) (t : stats_test) : stats :=
  match s with s_duration => st_duration t | s_count => st_reported_count t | s_rate => st_reported_rate t | s_time => st_reported_time t end.
Definition stat_of (t : stat) (x : stats) : res field :=
  match t with
  | t_ubmean => let! r := stats_mean_unixbench x in Ret (printflt r.1)
  | t_median => let! r := stats_median x in Ret (printflt r.1)
  | t_mean => Ret (printflt (stats_mean x))
  | t_stdev => Ret (printflt (stats_stdev x))
  | t_stderr => Ret (printflt (stats_stderr x))
  | t_t => Ret (printflt (ddiv (stats_mean x) (stats_stdev x)))
  | t_min => let! r := stats_min x in Ret (printflt r.1)
  | t_max => let! r := stats_max x in Ret (printflt r.1)
  | t_range => let! r := stats_max x in let! q := stats_min x in Ret (printflt (dsub r.1 q.1))
  | t_n => Ret (Some (VInt (stat_n x)))
  end.

(** The arguments [duration_mean] and so on. *)
Record durations := { dur_mean : double; dur_median : double; dur_stdev : double; dur_stderr : double }.
Definition no_coverage : coverage_stats := {| cov := no_tally; tot := no_tally |}.

Section Rows.
Variables (modules : module_ll) (st : minixtest_stats) (excludetest : list string) (extra_stats fewer_stats : bool).
Abbreviation place := (option string * option pathlistentry)%type.    (** [modname], [path] *)

Definition dump_stats_for_test_get_coverage (t : stats_test) (p : place) : res (coverage_stats * coverage_stats) :=
  match st_coverage t with
  | None => Stop FAssert
  | Some c =>
      assert! negb (bool_decide (is_Some p.1) && bool_decide (is_Some p.2)) in
      match p.1 with
      | Some modname =>
          let! m := module_find modules modname in
          match m with
          | None => Ret (no_coverage, no_coverage)
          | Some m =>
              let! a := coverage_compute_module c None modules m in
              let! b := coverage_compute_module c (st_coverage (phases st boot)) modules m in
              Ret (a, b)
          end
      | None =>
          let path := (λ e, (pe_path e, pe_len e)) <$> p.2 in
          let! a := coverage_compute_total c None modules true path in
          let! b := coverage_compute_total c (st_coverage (phases st boot)) modules true path in
          Ret (a, b)
      end
  end.

Definition cell_value (t : option stats_test) (p : place) (name : string) (dur : durations) (c : coverage_stats * coverage_stats) (x : cell) : res field :=
  let of_test (f : stats_test → res field) := match t with Some t => f t | None => Ret None end in
  let covered (b : bool) k := tally_of_kind k (cov (if b then c.2 else c.1)) in
  match x with
  | c_test => Ret (Some (VStr name))
  | c_module => Ret (Some (VStr (default "<all>" p.1)))
  | c_path => Ret (Some (VStr (match p.2 with Some e => pe_text e | None => "<all>" end)))
  | c_cov b k => of_test (λ _, Ret (Some (VInt (covered b k))))
  | c_tot k => of_test (λ _, Ret (Some (VInt (tally_of_kind k (tot c.1)))))
  | c_pct b k => of_test (λ _, Ret (printpct (covered b k) (tally_of_kind k (tot c.1))))
  | c_stat s_duration t_median => Ret (printflt (dur_median dur))
  | c_stat s_duration t_mean => Ret (printflt (dur_mean dur))
  | c_stat s_duration t_stdev => Ret (printflt (dur_stdev dur))
  | c_stat s_duration t_stderr => Ret (printflt (dur_stderr dur))
  | c_stat s_duration t_t => Ret (printflt (ddiv (dur_mean dur) (dur_stdev dur)))
  | c_stat s y => of_test (λ t, stat_of y (sample_of s t))
  | c_pass => of_test (λ t, Ret (Some (VInt (count_pass t))))
  | c_fail => of_test (λ t, Ret (Some (VInt (count_fail t))))
  | c_crash => of_test (λ t, Ret (Some (VInt (count_crash t))))
  end.

Definition is_full (p : place) : bool := match p with (None, None) => true | _ => false end.
Definition dump_stats_for_test_with_duration (t : option stats_test) (p : place) (perfonly withbench : bool) (name : string) (dur : durations) : res (list field) :=
  assert! negb (bool_decide (is_Some p.1) && bool_decide (is_Some p.2)) in
  assert! negb (bool_decide (is_Some p.1) && perfonly) in
  assert! negb (bool_decide (is_Some p.2) && perfonly) in
  let! c := match t with Some t => if perfonly then Ret (no_coverage, no_coverage) else dump_stats_for_test_get_coverage t p | None => Ret (no_coverage, no_coverage) end in
  collect (cell_value t p name dur c) (row_cells extra_stats fewer_stats perfonly withbench (is_full p)).
Definition dump_stats_for_test (p : place) (perfonly withbench : bool) (t : stats_test) : res (list field) :=
  let! median := stats_median (st_duration t) in
  dump_stats_for_test_with_duration (Some t) p perfonly withbench (test_key t)
    {| dur_mean := stats_mean (st_duration t); dur_median := median.1; dur_stdev := stats_stdev (st_duration t); dur_stderr := stats_stderr (st_duration t) |}.

Record sumstats := { sum_mean : double; sum_median : double; sum_var : double; sum_var_div_n : double }.
Definition sumstats_zero : sumstats := {| sum_mean := Double.zero; sum_median := Double.zero; sum_var := Double.zero; sum_var_div_n := Double.zero |}.
Definition sumstats_add (s : sumstats) (x : stats) : res sumstats :=
  let! median := stats_median x in
  Ret {| sum_mean := dadd (sum_mean s) (stats_mean x); sum_median := dadd (sum_median s) median.1; sum_var := dadd (sum_var s) (stats_var x);
         sum_var_div_n := if 0 <? stat_n x then dadd (sum_var_div_n s) (ddiv (stats_var x) (double_of_int (stat_n x))) else NAN |}.

Definition shown_tests : list stats_test := List.filter (λ t, negb (contains excludetest (test_key t))) (tests st).
Definition dump_stats_per_test_for_module (p : place) (perfonly withbench : bool) : res (list (list field)) :=
  let! rows := collect (dump_stats_for_test p perfonly withbench) shown_tests in
  let! sum := res_foldl (λ s t, sumstats_add s (st_duration t)) sumstats_zero shown_tests in
  let! ph := collect (λ ph, dump_stats_for_test p perfonly withbench (phases st ph)) [boot; between; alltests; total] in
  let! sum := sumstats_add sum (st_duration (phases st boot)) in
  let! sum := sumstats_add sum (st_duration (phases st between)) in
  let! last := dump_stats_for_test_with_duration None p perfonly withbench "<sum>"
    {| dur_mean := sum_mean sum; dur_median := sum_median sum; dur_stdev := dsqrt (sum_var sum); dur_stderr := dsqrt (sum_var_div_n sum) |} in
  Ret (rows ++ ph ++ [last]).

Definition have_bench_results_test (t : stats_test) : bool :=
  (0 <? stat_n (st_reported_count t)) || (0 <? stat_n (st_reported_rate t)) || (0 <? stat_n (st_reported_time t)).
Definition have_bench_results : bool := existsb have_bench_results_test shown_tests || existsb (λ ph, have_bench_results_test (phases st ph)) [boot; between; alltests; total].

(** The rows after the header. *)
Definition dump_stats_per_test_with_file (pathlist : list pathlistentry) (perfonly : bool) : res (list (list field)) :=
  let withbench := have_bench_results in
  let! rows := dump_stats_per_test_for_module (None, None) perfonly withbench in
  if perfonly then Ret rows
  else
    let! mods := collect (λ m, dump_stats_per_test_for_module (Some (sm_name m), None) false withbench) (st_modules (phases st total)) in
    let! paths := collect (λ e, dump_stats_per_test_for_module (None, Some e) false withbench) pathlist in
    Ret (rows ++ concat mods ++ concat paths).
End Rows.

(** ** The shape of the table *)

Lemma collect_forall {A B} (f : A → res B) (P : B → Prop) l ys : (∀ x y, x ∈ l → f x = Ret y → P y) → collect f l = Ret ys → Forall P ys.
Proof.
  revert ys. induction l as [|x l IH]; intros ys Hf H; cbn in H; [by injection H as <-; constructor|]. apply res_bind_inv in H as (y & Hy & H).
  apply res_bind_inv in H as (ys' & H & [= <-]). constructor; [by apply (Hf x); [left|]|]. apply IH; [|done]. intros z w Hz. apply Hf. by right.
Qed.

Section Shape.
Variables (modules : module_ll) (st : minixtest_stats) (excl : list string) (extra fewer : bool).

Lemma row_length t p perfonly withbench name dur row :
  dump_stats_for_test_with_duration modules st extra fewer t p perfonly withbench name dur = Ret row →
  length row = length (row_cells extra fewer perfonly withbench (is_full p)).
Proof.
  unfold dump_stats_for_test_with_duration. do 3 (case_match; [|done]). intros H'. apply res_bind_inv in H' as (c & _ & H'%collect_length). done.
Qed.

Lemma part_shape p perfonly withbench rows : dump_stats_per_test_for_module modules st excl extra fewer p perfonly withbench = Ret rows →
  length rows = (length (shown_tests st excl) + 5)%nat ∧ Forall (λ row, length row = length (row_cells extra fewer perfonly withbench (is_full p))) rows.
Proof.
  assert (∀ t row, dump_stats_for_test modules st extra fewer p perfonly withbench t = Ret row → length row = length (row_cells extra fewer perfonly withbench (is_full p))) as Ht.
  { intros t row. unfold dump_stats_for_test. intros H. apply res_bind_inv in H as (m & _ & H). by eapply row_length. }
  unfold dump_stats_per_test_for_module. intros H. apply res_bind_inv in H as (r & Hr & H). apply res_bind_inv in H as (s1 & _ & H). apply res_bind_inv in H as (ph & Hph & H).
  apply res_bind_inv in H as (s2 & _ & H). apply res_bind_inv in H as (s3 & _ & H). apply res_bind_inv in H as (last & Hl%row_length & [= <-]).
  pose proof (collect_length _ _ _ Hr) as L1. pose proof (collect_length _ _ _ Hph) as L2. cbn in L2. split.
  - rewrite !length_app, L1, L2. cbn. lia.
  - apply Forall_app. split; [eapply collect_forall; [|exact Hr]; intros x y _; apply Ht|]. apply Forall_app. split; [eapply collect_forall; [|exact Hph]; intros x y _; apply Ht|by constructor].
Qed.

Lemma length_concat_const {A} (k : nat) (ls : list (list A)) : Forall (λ l, length l = k) ls → length (concat ls) = (length ls * k)%nat.
Proof. induction 1 as [|l ls Hl _ IH]; [done|]. cbn. rewrite length_app, Hl, IH. done. Qed.

(** The table of tests has a part for all modules, then one for every module and every path; each part has a row for every test
    that is not excluded, the four phases and the sum, and the rows of the first part have a field for every column of the header,
    but for the three columns the header of the performance table lacks. *)
Theorem table_shape pathlist perfonly rows : dump_stats_per_test_with_file modules st excl extra fewer pathlist perfonly = Ret rows →
  let withbench := have_bench_results st excl in
  let part := (length (shown_tests st excl) + 5)%nat in
  (length rows = part * (1 + if perfonly then 0 else length (st_modules (phases st total)) + length pathlist))%nat ∧
  Forall (λ row, length row = length (header extra fewer perfonly withbench) + if perfonly && extra && withbench then 3 else 0)%nat (take part rows).
Proof.
  unfold dump_stats_per_test_with_file. intros H. apply res_bind_inv in H as (r & [L F]%part_shape & H). cbv zeta. cbn [is_full] in F.
  assert (∀ row : list field, length row = length (row_cells extra fewer perfonly (have_bench_results st excl) true) →
    length row = (length (header extra fewer perfonly (have_bench_results st excl)) + if perfonly && extra && have_bench_results st excl then 3 else 0)%nat) as Hc.
  { intros row ->. generalize (have_bench_results st excl). intros wb. clear. destruct extra, fewer, perfonly, wb; reflexivity. }
  assert (∀ tail : list (list field), Forall (λ row, length row = (length (header extra fewer perfonly (have_bench_results st excl)) +
    if perfonly && extra && have_bench_results st excl then 3 else 0)%nat) (take (length (shown_tests st excl) + 5) (r ++ tail))) as Htake.
  { intros tail. rewrite take_app_le, take_ge by lia. eapply Forall_impl; [exact F|]. intros row. apply Hc. }
  destruct perfonly; [injection H as <-; rewrite <-(app_nil_r r) at 2; split; [lia|apply Htake]|].
  apply res_bind_inv in H as (mods & Hm & H). apply res_bind_inv in H as (paths & Hp & [= <-]). split; [|apply Htake].
  assert (∀ {A} (f : A → option string * option pathlistentry) l ls, collect (λ x, dump_stats_per_test_for_module modules st excl extra fewer (f x) false (have_bench_results st excl)) l = Ret ls →
    length (concat ls) = (length l * (length (shown_tests st excl) + 5))%nat) as Hpart.
  { intros A f l ls Hl. rewrite (length_concat_const (length (shown_tests st excl) + 5)); [by rewrite (collect_length _ _ _ Hl)|].
    eapply collect_forall; [|exact Hl]. intros x y _ Hy%part_shape. apply Hy. }
  rewrite !length_app, L, (Hpart _ _ _ _ Hm), (Hpart _ _ _ _ Hp). lia.
Qed.
End Shape.
